(* ===== verification/_CoqProject ===== *)
-Q . S2P
Prelude.v
Dlist.v
Atomic.v
Buddy.v
BuddyInv.v
BuddyOps.v
BuddyThm.v
Pmm.v
PageTable.v
PageTableInv.v
PageTableOps.v
PageTableThm.v
Kmalloc.v
KmallocInv.v
KmallocOps.v
KmallocThm.v
Vmm.v
VmmThm.v
RbTree.v
RbTreeInv.v
RbTreeIns.v
RbTreeThm.v
RbTreeDel.v
RbTreeEx.v
Str.v
Printf.v
Console.v
KState.v
Sched.v
SchedThm.v
TimerThm.v
Sync.v
SyncThm.v
Vfs.v
VfsInv.v
FileThm.v
Dev.v
DevThm.v
Bitmap.v
Proc.v
ProcThm.v
Family.v
ExitThm.v
WaitThm.v
ProcEx.v
Gdb.v
Sfs.v
SfsInv.v
SfsThm.v
SfsIo.v
SfsTrunc.v
SfsDev.v
SfsMount.v
Mksfs.v
MksfsInv.v
MksfsOps.v
MksfsThm.v
MksfsTree.v
MksfsImg.v
MksfsMount.v
MksfsEx.v
Sysfile.v
SysfileThm.v
SysfileSfs.v
SysEx.v
Fault.v
FaultThm.v
Exec.v
Trap.v
TrapThm.v
TrapEx.v
ExecThm.v
ExecEx.v
Shell.v
ShellThm.v
