(* ===== verification/Prelude.v ===== *)
(** * ucore on MIPS32: a verification library

    The program (src/ucore) is a small Unix-like kernel for a MIPS32 processor (kern),
    with the host program that builds its disk (tools) and the shell that runs on it
    (user).  This library models the C code as Rocq functions and proves what the parts
    promise each other.  Paths below are relative to src/ucore.

    ** The parts and how they interact

    - Physical memory (kern/mm/buddy_pmm.c behind kern/mm/pmm.h): a buddy
      allocator of pages behind a table of operations, [pmm_manager].
    - Kernel memory (kern/mm/kmalloc.c): slabs of equal objects cut from runs of
      pages.
    - Page tables and TLB (kern/mm/pmm.c, thumips_tlb.c): two-level tables in
      simulated memory words, reference counts of pages, range operations.
    - Address spaces (kern/mm/vmm.c): sorted lists of areas, page faults, checks
      and copies of user buffers.
    - Processes, scheduler, timers, semaphores (kern/process/proc.c,
      kern/schedule, kern/sync): run queue behind a table of operations
      ([sched_class]), delta-encoded timer list, wait queues, process table.
    - Files (kern/fs): inodes with reference and open counts behind a table of
      operations ([inode_ops]), path lookup, per-process tables of open files, the
      devices stdin, stdout and disk0.
    - Console and debugger (kern/libs, kern/driver/console.c, kern/trap/trap.c):
      strings, formatted output, the text screen, line input, breakpoints.
    - Red-black trees (kern/libs/rb_tree.c): a library of balanced trees.
    - SFS (kern/fs/sfs): the file system on disk0: free-block bitmap, inodes with
      direct and indirect blocks, directories, a cache of inodes, mounting.
    - The image builder (tools/mksfs.c): the host program that makes the disk of SFS
      out of a directory.
    - The shell (user/sh.c): the user program that runs the others.
    - Traps and system calls (kern/trap/trap.c, kern/syscall/syscall.c,
      kern/fs/sysfile.c, kern/driver/clock.c, load_icode and do_execve of proc.c): the
      entry from user programs and devices into all of the above.

    ** How the model is made

    A C routine is a function of the monad [M S A] below: state passing with the
    outcomes [Ok], [Panic] (a failed [assert] or [panic]), [Fault] (a pointer that
    names no object) and [NoFuel].  [runs m s Q] says that [m] started in [s]
    returns and its result satisfies [Q]: it excludes panic, fault and
    non-termination, so every theorem stated with it is about total correctness.
    Pointers to objects are keys of finite maps, memory words and bytes are
    functions of the address, machine integers are [Z] with the 32-bit wrap-around
    written out ([u32], [s32]).  Doubly linked lists are proved once, on the heap of
    their pointers (Dlist.v), to be the sequences the other files use.  A routine
    that blocks is split at [schedule()] into the part before and the part after,
    each an atomic step (interrupts are off: Atomic.v).  Outside Kmalloc.v,
    allocations by [kmalloc] take their success, and the address they give, as
    arguments.

    Interfaces are tables of operations with laws: [pmm_manager] and [PmmOk] (Pmm.v),
    [sched_class] and [SchedOk] (Sched.v, SchedThm.v), [inode_ops] and [InodeOk]
    (Vfs.v, VfsInv.v), the block device's [dop_io] and [BlockDev] (SfsInv.v), a
    descriptor that can be read, written or positioned as a list of bytes,
    [readable_as], [writable_as] and [seekable_as] (SysfileThm.v).  Clients are proved against the laws; the buddy
    allocator, the round-robin class, the devices and SFS discharge them.

    Two memories are kept apart: the words of page directories and page tables, and
    the bytes that files and buffers are copied through.  The latter are indexed by the
    address the code uses, so a page has the bytes at its kernel address and those at
    the user's address, which the code never mixes within one call.

    ** The files

    - Prelude: outcomes, monad, triples, machine integers (defs.h).
    - Dlist: list.h.  Atomic: atomic.h, intr.c, intr.h.
    - Buddy: the code of buddy_pmm.c.  BuddyInv, BuddyOps, BuddyThm: its invariant
      (disjoint aligned blocks, none of them mergeable), every routine keeps it,
      what allocation and freeing do to the set of free pages.
    - Pmm: the interface of pmm.h, with the buddy allocator as an instance.  The laws
      ([PmmOk], for runs of pages [PmmRunOk]) say which pages are handed out
      ([pm_owned]), how many are free ([pm_nfree]), and that a request fails only when
      no page is free, or no run of the size ([pm_fits]).
    - PageTable: pmm.c, pmm.h, mmu.h, thumips_tlb.c.  PageTableInv, PageTableOps,
      PageTableThm: the abstract address space [aspace], its representation [VRep]
      and the refinement theorems.  [ledger]: the pages handed out are those of the
      address spaces and those that were handed out for something else, so none leaks;
      it is threaded through page faults, process exit and the program loader.
    - Kmalloc: kmalloc.c.  KmallocInv: the geometry of the caches, slabs and blocks.
      KmallocOps, KmallocThm: the heap as a set of disjoint blocks.
    - Vmm: vmm.c, vmm.h, the page directory part of proc.c.  VmmThm: its theorems.
    - KState: proc.h, wait.h, sched.h as one kernel state.  Sched: sched.c,
      default_sched.c.  SchedThm, TimerThm: scheduler and timer theorems.
    - Sync: wait.c, sem.c.  SyncThm: the semaphore as a step relation of configurations:
      the kernel's state, the processes inside, and those between the two halves of
      [down].
    - Vfs: iobuf.c, inode.c, vfs*.c, file.c, fs.c.  VfsInv: inode counts.  FileThm:
      the file tables.
    - Dev: dev*.c, ramdisk.c, ide.c.  DevThm: devices as lawful inodes, the disk and
      stdin.
    - Bitmap: bitmap.c and its theorems.
    - Sfs: sfs.h, sfs_io.c, sfs_inode.c, sfs_fs.c.  SfsInv: blocks of the disk, which
      are in use, what an operation may touch.  SfsThm: the block map of a file is a
      list of blocks; [disk_ledger]: no block of the disk leaks.  SfsIo, SfsTrunc: a file is a list of bytes; reading, writing,
      truncation, directory search, writing inodes back.  SfsDev: disk0 as the block
      device, and a small file system on it.  SfsMount: mounting a disk, loading an inode.
    - Mksfs: mksfs.c.  MksfsInv: what an image holds, read with the functions of Sfs.
      MksfsOps, MksfsThm: appending blocks, entries and files keeps the builder's
      invariant.  MksfsTree: a host tree gets into the image, by induction on the tree.
      MksfsImg: the finished image holds the tree, and the tree
      occupies each block exactly once ([occupies]).  MksfsMount: the kernel mounts the
      image and finds the tree in it, directory by directory, file by file.  MksfsEx: an
      example.
    - Proc: proc.c.  ProcThm: identifiers, the hash of processes.  Family: the tree of
      parents and children as lists.  ExitThm, WaitThm: exiting, waiting, killing,
      composed from the theorems on memory, files, family and scheduler.  ProcEx: a
      machine they apply to.
    - RbTree: rb_tree.c.  RbTreeInv: the heap as a tree looked at from one of its nodes,
      rotation and recolouring there.  RbTreeIns, RbTreeThm, RbTreeDel: insertion, search,
      traversal and deletion keep the red-black invariant and the order; RbTreeEx: a tree.
    - Str: string.c and the division routines of thumips.h.  Printf: printfmt.c, the
      number printers of stdio.c.  Console: console.c, readline.c (text screen, input
      ring, line editing; characters arrive at the port while [getchar] waits).  Gdb: the debugger commands of trap.c and where a MIPS
      instruction can go.
    - Sysfile: sysfile.c.  SysfileThm: reading and writing through a descriptor, against
      the interfaces; SysfileSfs: files of SFS implement them; SysEx: a process
      with an open file.
    - Fault: TLB misses (trap.c).  FaultThm: what becomes of an access of a user program.
      Exec: do_execve and the ELF loader (proc.c, elf.h).  Trap: syscall.c, the rest of
      trap.c, clock.c.  TrapThm: system calls and TLB misses from the trap to the return.
      TrapEx: traps of concrete machines.  ExecThm: the loader puts the segments of a
      program into its address space; ExecEx: a program that is loaded.
    - Shell: sh.c.  ShellThm: tokens as a function on lists, what a command executes.

    ** Fuel

    A loop whose recursion is not structural takes fuel; the caller passes a bound
    computed from the state (the number of areas for [user_mem_loop], of pages for
    [unmap_loop], [MAX_PID] rounds for [get_pid], the orders left in the buddy loops, two nested
    slabs for [kmalloc])
    and the theorems show that it is enough, since [runs] excludes [NoFuel].

    ** Not modelled

    Assembly (trap entry, context switch), the registers of the memory-mapped
    devices (UART, clock, interrupt controller), self-tests, the processor in Verilog, and
    the user programs but for the shell. *)

From stdpp Require Import base gmap list sorting.
From Stdlib Require Import ZArith Lia Bool.

#[global] Open Scope Z_scope.

(** ** Outcomes of kernel code

    A kernel routine either returns a value, stops in [panic]/[assert], touches
    a pointer that names no object of the model ([Fault]), or has not finished
    within the fuel its loops were given ([NoFuel]). *)

Inductive outcome (A : Type) : Type :=
  | Ok (a : A)
  | Panic
  | Fault
  | NoFuel.
Arguments Ok {A} a.
Arguments Panic {A}.
Arguments Fault {A}.
Arguments NoFuel {A}.

(** Kernel code over a state [S]: explicit state passing with an outcome. *)
Definition M (S A : Type) : Type := S -> outcome (A * S).

Definition ret {S A} (a : A) : M S A := fun s => Ok (a, s).
Definition bind {S A B} (m : M S A) (k : A -> M S B) : M S B :=
  fun s => match m s with
           | Ok (a, s') => k a s'
           | Panic => Panic
           | Fault => Fault
           | NoFuel => NoFuel
           end.
Definition panic {S A} : M S A := fun _ => Panic.
Definition fault {S A} : M S A := fun _ => Fault.
Definition nofuel {S A} : M S A := fun _ => NoFuel.
Definition get {S} : M S S := fun s => Ok (s, s).
Definition gets {S A} (f : S -> A) : M S A := fun s => Ok (f s, s).
Definition put {S} (s : S) : M S unit := fun _ => Ok (tt, s).
Definition modify {S} (f : S -> S) : M S unit := fun s => Ok (tt, f s).
(** [assert(b)] of debug/assert.h: [panic] when the condition is false. *)
Definition assert_ {S} (b : bool) : M S unit := if b then ret tt else panic.
(** Reading through a pointer: [Fault] when it names nothing. *)
Definition deref {S A} (o : option A) : M S A :=
  match o with Some a => ret a | None => fault end.
(** Run code of a component on the part of the state that is the component's. *)
Definition zoom {T S A} (pr : T -> S) (inj : S -> T -> T) (m : M S A) : M T A :=
  fun t => match m (pr t) with
           | Ok (a, s') => Ok (a, inj s' t)
           | Panic => Panic
           | Fault => Fault
           | NoFuel => NoFuel
           end.

Declare Scope kern_scope.
Delimit Scope kern_scope with kern.
Notation "'let!' x ':=' m 'in' k" := (bind m (fun x => k))
  (at level 10, x pattern, m at level 100, k at level 200)
  : kern_scope.
Notation "'do!' m 'in' k" := (bind m (fun _ => k))
  (at level 10, m at level 100, k at level 200)
  : kern_scope.
#[global] Open Scope kern_scope.

(** ** Total-correctness triples

    [runs m s Q]: started in [s], [m] returns (no panic, no fault, fuel
    enough) and the result and final state satisfy [Q]. *)
Definition runs {S A} (m : M S A) (s : S) (Q : A -> S -> Prop) : Prop :=
  match m s with
  | Ok (a, s') => Q a s'
  | _ => False
  end.

Section Runs.
  Context {S : Type}.

Lemma runs_ret {A} (a : A) (s : S) Q : Q a s -> runs (ret a) s Q.
Proof. done. Qed.

Lemma runs_bind {A B} (m : M S A) (k : A -> M S B) s Q :
  runs m s (fun a s' => runs (k a) s' Q) -> runs (bind m k) s Q.
Proof. unfold runs, bind. destruct (m s) as [[a s']| | |]; done. Qed.

Lemma runs_mono {A} (m : M S A) s (P Q : A -> S -> Prop) :
  runs m s P -> (forall a s', P a s' -> Q a s') -> runs m s Q.
Proof. unfold runs. destruct (m s) as [[a s']| | |]; auto. Qed.

Lemma runs_get s (Q : S -> S -> Prop) : Q s s -> runs get s Q.
Proof. done. Qed.

Lemma runs_gets {A} (f : S -> A) s Q : Q (f s) s -> runs (gets f) s Q.
Proof. done. Qed.

Lemma runs_put s s' (Q : unit -> S -> Prop) : Q tt s' -> runs (put s') s Q.
Proof. done. Qed.

Lemma runs_modify f s (Q : unit -> S -> Prop) : Q tt (f s) -> runs (modify f) s Q.
Proof. done. Qed.

Lemma runs_assert b (s : S) (Q : unit -> S -> Prop) :
  b = true -> Q tt s -> runs (assert_ b) s Q.
Proof. by intros ->. Qed.

Lemma runs_deref {A} (o : option A) a (s : S) Q :
  o = Some a -> Q a s -> runs (deref o) s Q.
Proof. by intros ->. Qed.

Lemma runs_ok {A} (m : M S A) s Q :
  runs m s Q <-> exists a s', m s = Ok (a, s') /\ Q a s'.
Proof.
  unfold runs. destruct (m s) as [[a s']| | |]; split; try done; eauto.
  - by intros (?&?&[= <- <-]&?).
  - by intros (?&?&?&?).
  - by intros (?&?&?&?).
  - by intros (?&?&?&?).
Qed.

Lemma runs_elim {A} (m : M S A) s a s' Q : runs m s Q -> m s = Ok (a, s') -> Q a s'.
Proof. unfold runs. intros H Heq. by rewrite Heq in H. Qed.

Lemma runs_conj {A} (m : M S A) s (P Q : A -> S -> Prop) :
  runs m s P -> runs m s Q -> runs m s (fun a s' => P a s' /\ Q a s').
Proof. unfold runs. destruct (m s) as [[a s']| | |]; auto. Qed.

Lemma runs_zoom {T A} (pr : T -> S) (inj : S -> T -> T) (m : M S A) t Q :
  runs m (pr t) (fun a s' => Q a (inj s' t)) -> runs (zoom pr inj m) t Q.
Proof. unfold runs, zoom. destruct (m (pr t)) as [[a s']| | |]; done. Qed.
End Runs.

(** One symbolic step of a [runs] goal. *)
Ltac runs_step :=
  lazymatch goal with
  | |- runs (bind _ _) _ _ => apply runs_bind
  | |- runs (ret _) _ _ => apply runs_ret
  | |- runs get _ _ => apply runs_get
  | |- runs (gets _) _ _ => apply runs_gets
  | |- runs (put _) _ _ => apply runs_put
  | |- runs (modify _) _ _ => apply runs_modify
  | |- runs (zoom _ _ _) _ _ => apply runs_zoom
  end; cbn beta.
Ltac runs_steps := repeat runs_step.
(** Use a proved triple and go on from its postcondition. *)
Tactic Notation "runs_by" uconstr(H) := eapply runs_mono; [eapply H|cbn beta].

(** ** Machine integers

    The kernel's [uint32_t], [size_t], [uintptr_t] are 32-bit words: a Z in
    [0, 2^32) with the wrap-around written out; [int] is two's complement. *)
Definition W32 : Z := 4294967296.
Definition u32 (z : Z) : Z := z mod W32.
Definition s32 (z : Z) : Z := (z + 2147483648) mod W32 - 2147483648.
Definition is_u32 (z : Z) : Prop := 0 <= z < W32.

(** [lia] extended with division and remainder by constants. *)
Ltac mlia := Z.div_mod_to_equations; lia.

Lemma u32_range z : is_u32 (u32 z).
Proof. unfold is_u32, u32, W32. mlia. Qed.

Lemma u32_small z : is_u32 z -> u32 z = z.
Proof. unfold is_u32, u32, W32. mlia. Qed.

Lemma s32_small z : -2147483648 <= z < 2147483648 -> s32 z = z.
Proof. unfold s32, W32. mlia. Qed.

(** ROUNDDOWN_2N and ROUNDUP_2N of defs.h. *)
Definition ROUNDDOWN_2N (a n : Z) : Z := u32 (Z.shiftl (Z.shiftr a n) n).
Definition ROUNDUP_2N (a n : Z) : Z := ROUNDDOWN_2N (u32 (a + Z.shiftl 1 n - 1)) n.
(** ROUNDUP_DIV_2N of defs.h. *)
Definition ROUNDUP_DIV_2N (a n : Z) : Z := Z.shiftr (u32 (a + Z.shiftl 1 n - 1)) n.

Lemma rounddown_spec a n :
  is_u32 a -> 0 <= n -> ROUNDDOWN_2N a n = a - a mod 2 ^ n.
Proof.
  intros Ha Hn. unfold ROUNDDOWN_2N.
  rewrite Z.shiftr_div_pow2, Z.shiftl_mul_pow2 by lia.
  assert (0 < 2 ^ n) by (apply Z.pow_pos_nonneg; lia).
  pose proof (Z.div_mod a (2 ^ n) ltac:(lia)).
  pose proof (Z.mod_pos_bound a (2 ^ n) ltac:(lia)).
  assert (0 <= a / 2 ^ n) by (apply Z.div_pos; unfold is_u32 in Ha; lia).
  rewrite u32_small; unfold is_u32, W32 in *; nia.
Qed.

Lemma roundup_spec a n :
  is_u32 a -> 0 <= n -> a + 2 ^ n - 1 < W32 ->
  ROUNDUP_2N a n mod 2 ^ n = 0 /\ a <= ROUNDUP_2N a n < a + 2 ^ n.
Proof.
  intros Ha Hn Hov. unfold ROUNDUP_2N. rewrite Z.shiftl_1_l.
  assert (0 < 2 ^ n) by (apply Z.pow_pos_nonneg; lia).
  assert (is_u32 (a + 2 ^ n - 1)) by (unfold is_u32 in *; lia).
  rewrite u32_small, rounddown_spec by done.
  pose proof (Z.mod_pos_bound (a + 2 ^ n - 1) (2 ^ n) ltac:(lia)).
  split; [|lia].
  rewrite Zminus_mod_idemp_r, Z.sub_diag. apply Z.mod_0_l. lia.
Qed.

(** Error codes of include/error.h. *)
Definition E_BAD_PROC := 2.
Definition E_INVAL := 3.
Definition E_NO_MEM := 4.
Definition E_NO_FREE_PROC := 5.
Definition E_KILLED := 9.
Definition E_BUSY := 15.
Definition E_MAX_OPEN := 22.

(** hash.c. *)
Definition GOLDEN_RATIO_PRIME_32 : Z := 0x9e370001.
Definition hash32 (val bits : Z) : Z := Z.shiftr (u32 (val * GOLDEN_RATIO_PRIME_32)) (32 - bits).
