(* ===== verification/Dlist.v ===== *)
(** * Doubly linked lists (kern/include/list.h)

    The circular, header-based lists that every queue of the kernel is made of.
    A heap maps the address of a [list_entry] to its two pointers; the routines
    of list.h are translated pointer write by pointer write, and a routine that
    goes through a pointer to no entry has outcome [Fault].

    [dlist h head l] says that the entries [l] are linked in this order behind
    the header [head].  The refinement theorems show that the pointer routines
    are insertion and removal on the sequence [l] and leave every other entry
    of the heap alone; the other components use the sequence view. *)

From stdpp Require Import base gmap list.
From Stdlib Require Import ZArith Lia.
From S2P Require Import Prelude.

Record list_entry := mk_entry { e_prev : Z; e_next : Z }.

Abbreviation lheap := (gmap Z list_entry).

Definition set_next (v : Z) (e : list_entry) : list_entry := mk_entry (e_prev e) v.
Definition set_prev (v : Z) (e : list_entry) : list_entry := mk_entry v (e_next e).

Definition rd (p : Z) : M lheap list_entry :=
  let! h := get in deref (h !! p).
Definition wr (f : list_entry -> list_entry) (p : Z) : M lheap unit :=
  let! e := rd p in modify (fun h => <[p := f e]> h).

Definition list_init (elm : Z) : M lheap unit :=
  do! wr (set_next elm) elm in wr (set_prev elm) elm.

Definition __list_add (elm prev next : Z) : M lheap unit :=
  do! wr (set_prev elm) next in
  do! wr (set_next elm) prev in
  do! wr (set_next next) elm in
  wr (set_prev prev) elm.

Definition __list_del (prev next : Z) : M lheap unit :=
  do! wr (set_next next) prev in wr (set_prev prev) next.

Definition list_add_before (listelm elm : Z) : M lheap unit :=
  let! e := rd listelm in __list_add elm (e_prev e) listelm.

Definition list_add_after (listelm elm : Z) : M lheap unit :=
  let! e := rd listelm in __list_add elm listelm (e_next e).

Definition list_add (listelm elm : Z) : M lheap unit := list_add_after listelm elm.

Definition list_del (listelm : Z) : M lheap unit :=
  let! e := rd listelm in __list_del (e_prev e) (e_next e).

Definition list_del_init (listelm : Z) : M lheap unit :=
  do! list_del listelm in list_init listelm.

Definition list_next (listelm : Z) : M lheap Z :=
  let! e := rd listelm in ret (e_next e).

Definition list_prev (listelm : Z) : M lheap Z :=
  let! e := rd listelm in ret (e_prev e).

Definition list_empty (l : Z) : M lheap bool :=
  let! n := list_next l in ret (n =? l).

(** The traversal idiom [while ((le = list_next(le)) != list) ...]: the entries
    it visits, in order. *)
Fixpoint list_walk (fuel : nat) (le head : Z) : M lheap (list Z) :=
  match fuel with
  | O => nofuel
  | S fuel =>
      let! n := list_next le in
      if n =? head then ret []
      else let! rest := list_walk fuel n head in ret (n :: rest)
  end.

(** ** Representation *)

Definition nxt (h : lheap) (a : Z) : option Z := e_next <$> h !! a.
Definition prv (h : lheap) (a : Z) : option Z := e_prev <$> h !! a.

(** [a] and [b] are neighbours, in this order. *)
Definition linked (h : lheap) (a b : Z) : Prop := nxt h a = Some b /\ prv h b = Some a.

Fixpoint chain (h : lheap) (a : Z) (l : list Z) (b : Z) : Prop :=
  match l with
  | [] => linked h a b
  | x :: l => linked h a x /\ chain h x l b
  end.

Definition dlist (h : lheap) (head : Z) (l : list Z) : Prop :=
  NoDup (head :: l) /\ chain h head l head.

(** The sequence operations the pointer routines implement. *)
Definition ldel (x : Z) (l : list Z) : list Z := filter (fun y => y <> x) l.

Section Facts.
  Implicit Types (h : lheap) (l : list Z).

Lemma nxt_wr h p q f e :
  h !! p = Some e -> nxt (<[p := f e]> h) q = if decide (p = q) then Some (e_next (f e)) else nxt h q.
Proof. intros Hp. unfold nxt. rewrite lookup_insert. by case_decide. Qed.

Lemma prv_wr h p q f e :
  h !! p = Some e -> prv (<[p := f e]> h) q = if decide (p = q) then Some (e_prev (f e)) else prv h q.
Proof. intros Hp. unfold prv. rewrite lookup_insert. by case_decide. Qed.

Lemma chain_app h a l1 x l2 b :
  chain h a (l1 ++ x :: l2) b <-> chain h a l1 x /\ chain h x l2 b.
Proof. revert a. induction l1 as [|y l1 IH]; intros a; cbn; [done|]. rewrite IH. tauto. Qed.

Lemma linked_present h a b : linked h a b -> is_Some (h !! a) /\ is_Some (h !! b).
Proof.
  unfold linked, nxt, prv. intros [H1 H2].
  apply fmap_Some in H1 as (?&?&?). apply fmap_Some in H2 as (?&?&?). eauto.
Qed.

(** The last link of a chain, and the chain up to it. *)
Lemma chain_snoc_inv h a l b :
  chain h a l b -> exists y, linked h y b /\ last (a :: l) = Some y.
Proof.
  revert a. induction l as [|x l IH]; intros a; cbn.
  - intros ?. by exists a.
  - intros [? (y&?&?)%IH]. exists y. split; [done|]. by destruct l.
Qed.

Lemma chain_present h a l b y : chain h a l b -> y ∈ a :: l -> is_Some (h !! y).
Proof.
  revert a. induction l as [|x l IH]; intros a; cbn.
  - intros ? ->%list_elem_of_singleton. by apply linked_present in H as [? ?].
  - intros [Hl Hc] [->|?]%elem_of_cons; [by apply linked_present in Hl as [? ?]|]. eauto.
Qed.

(** A chain only depends on the [next] of its sources and the [prev] of its
    targets. *)
Lemma chain_frame h h' a l b :
  (forall y, y ∈ a :: l -> nxt h' y = nxt h y) ->
  (forall y, y ∈ l ++ [b] -> prv h' y = prv h y) ->
  chain h a l b -> chain h' a l b.
Proof.
  revert a. induction l as [|x l IH]; intros a Hn Hp; cbn; unfold linked.
  - intros [Ha Hb]. rewrite Hn, Hp; set_solver.
  - intros [[Ha Hb] Hc]. rewrite Hn, Hp by set_solver. split; [done|].
    apply IH; [| |done]; intros y Hy; [apply Hn|apply Hp]; set_solver.
Qed.

Lemma dlist_present h head l y : dlist h head l -> y ∈ head :: l -> is_Some (h !! y).
Proof. intros [_ Hc] Hy. by eapply chain_present. Qed.

(** Two lists without common entries: a change inside one keeps the other. *)
Lemma dlist_frame h h' head l :
  (forall y, y ∈ head :: l -> h' !! y = h !! y) -> dlist h head l -> dlist h' head l.
Proof.
  intros Heq [Hnd Hc]. split; [done|].
  eapply chain_frame; [| |exact Hc]; intros y Hy; unfold nxt, prv; by rewrite Heq by set_solver.
Qed.

Lemma ldel_notin x l : x ∉ l -> ldel x l = l.
Proof.
  unfold ldel. induction l as [|y l IH]; [done|]. intros Hx.
  rewrite filter_cons_True by set_solver. rewrite IH; set_solver.
Qed.

Lemma ldel_middle x l1 l2 : NoDup (l1 ++ x :: l2) -> ldel x (l1 ++ x :: l2) = l1 ++ l2.
Proof.
  intros (Hn1&Hd&Hn2)%NoDup_app. apply NoDup_cons in Hn2 as [Hx Hn2].
  unfold ldel. rewrite filter_app, filter_cons_False by auto.
  fold (ldel x l1) (ldel x l2). rewrite !ldel_notin; set_solver.
Qed.

Lemma elem_of_ldel x y l : y ∈ ldel x l <-> y ∈ l /\ y <> x.
Proof. unfold ldel. rewrite list_elem_of_filter. tauto. Qed.

Lemma NoDup_ldel x l : NoDup l -> NoDup (ldel x l).
Proof. apply NoDup_filter. Qed.

Lemma length_ldel x l : NoDup l -> x ∈ l -> Z.of_nat (length (ldel x l)) = Z.of_nat (length l) - 1.
Proof.
  intros Hnd (l1&l2&->)%list_elem_of_split. rewrite ldel_middle by done.
  rewrite !length_app. cbn. lia.
Qed.
End Facts.

Create HintDb dlist.
#[export] Hint Resolve NoDup_ldel : dlist.

(** ** The pointer routines *)

Section Routines.
  Implicit Types (h : lheap) (l : list Z).

Lemma wr_runs f p h e Q :
  h !! p = Some e -> Q tt (<[p := f e]> h) -> runs (wr f p) h Q.
Proof. intros He HQ. unfold wr, rd. runs_steps. eapply runs_deref; [done|]. by runs_steps. Qed.

Lemma rd_runs p h e (Q : list_entry -> lheap -> Prop) :
  h !! p = Some e -> Q e h -> runs (rd p) h Q.
Proof. intros He HQ. unfold rd. runs_steps. by eapply runs_deref. Qed.

(** Splicing [e] between the neighbours [a] and [b]. *)
Lemma __list_add_runs h a b e :
  linked h a b -> is_Some (h !! e) -> e <> a -> e <> b ->
  runs (__list_add e a b) h (fun _ h' =>
    linked h' a e /\ linked h' e b /\
    (forall q, q <> a -> q <> e -> nxt h' q = nxt h q) /\
    (forall q, q <> b -> q <> e -> prv h' q = prv h q) /\
    (forall q, q <> a -> q <> b -> q <> e -> h' !! q = h !! q)).
Proof.
  intros Hl [ee He] Hea Heb. pose proof (linked_present _ _ _ Hl) as [[ea Ha] [eb Hb]].
  unfold __list_add. runs_steps. eapply wr_runs; [exact Hb|].
  runs_steps.
  set (h1 := <[b:=_]> h).
  assert (exists ea', h1 !! a = Some ea') as [ea' Ha'].
  { unfold h1. rewrite lookup_insert. case_decide; eauto. }
  eapply wr_runs; [exact Ha'|]. runs_steps. set (h2 := <[a:=_]> h1).
  assert (h2 !! e = Some ee) as He2 by (unfold h2, h1; by simplify_map_eq).
  eapply wr_runs; [exact He2|]. runs_steps. set (h3 := <[e:=_]> h2).
  assert (h3 !! e = Some (set_next b ee)) as He3 by (unfold h3; by simplify_map_eq).
  eapply wr_runs; [exact He3|].
  assert (Hn : forall q, nxt (<[e:=set_prev a (set_next b ee)]> h3) q =
            if decide (q = e) then Some b else if decide (q = a) then Some e else nxt h q).
  { intros q. rewrite nxt_wr by done. unfold h3. rewrite nxt_wr by done.
    unfold h2. rewrite nxt_wr by done. unfold h1. rewrite nxt_wr by done.
    repeat case_decide; subst; try done. unfold nxt. by rewrite Hb. }
  assert (Hp : forall q, prv (<[e:=set_prev a (set_next b ee)]> h3) q =
            if decide (q = e) then Some a else if decide (q = b) then Some e else prv h q).
  { intros q. rewrite prv_wr by done. unfold h3. rewrite prv_wr by done.
    unfold h2. rewrite prv_wr by done. unfold h1. rewrite prv_wr by done.
    repeat case_decide; subst; try done. unfold h1 in Ha'. 
    - simplify_map_eq. done.
    - unfold h1 in Ha'. rewrite lookup_insert_ne in Ha' by done. unfold prv. by rewrite Ha'. }
  unfold linked. rewrite !Hn, !Hp. repeat split.
  - by repeat case_decide.
  - by repeat case_decide.
  - by repeat case_decide.
  - by repeat case_decide.
  - intros q ??. rewrite Hn. by repeat case_decide.
  - intros q ??. rewrite Hp. by repeat case_decide.
  - intros q ???. unfold h3, h2, h1. by simplify_map_eq.
Qed.

(** Bypassing [e], which sits between [a] and [b]. *)
Lemma __list_del_runs h a b e :
  linked h a e -> linked h e b ->
  runs (__list_del a b) h (fun _ h' =>
    linked h' a b /\
    (forall q, q <> a -> nxt h' q = nxt h q) /\
    (forall q, q <> b -> prv h' q = prv h q) /\
    (forall q, q <> a -> q <> b -> h' !! q = h !! q)).
Proof.
  intros H1 H2.
  pose proof (linked_present _ _ _ H1) as [[ea Ha] _].
  pose proof (linked_present _ _ _ H2) as [_ [eb Hb]].
  unfold __list_del. runs_steps. eapply wr_runs; [exact Ha|]. runs_steps.
  set (h1 := <[a:=_]> h).
  assert (exists eb', h1 !! b = Some eb' /\ e_next eb' = if decide (a = b) then b else e_next eb) as (eb'&Hb'&Hnb).
  { unfold h1. rewrite lookup_insert. case_decide; simplify_eq; eauto. }
  eapply wr_runs; [exact Hb'|].
  assert (Hn : forall q, nxt (<[b:=set_prev a eb']> h1) q = if decide (q = a) then Some b else nxt h q).
  { intros q. rewrite nxt_wr by done. unfold h1. rewrite nxt_wr by done.
    cbn [set_prev e_next]. repeat case_decide; subst; try done; rewrite Hnb; try done.
    unfold nxt. by rewrite Hb. }
  assert (Hp : forall q, prv (<[b:=set_prev a eb']> h1) q = if decide (q = b) then Some a else prv h q).
  { intros q. rewrite prv_wr by done. unfold h1. rewrite prv_wr by done.
    repeat case_decide; subst; try done. unfold prv. by rewrite Ha. }
  unfold linked. rewrite Hn, Hp, !decide_True by done. repeat split.
  - intros q ?. rewrite Hn. by rewrite decide_False.
  - intros q ?. rewrite Hp. by rewrite decide_False.
  - intros q ??. unfold h1. by simplify_map_eq.
Qed.

Lemma list_init_runs h e :
  is_Some (h !! e) ->
  runs (list_init e) h (fun _ h' => dlist h' e [] /\ forall q, q <> e -> h' !! q = h !! q).
Proof.
  intros [ee He]. unfold list_init. runs_steps. eapply wr_runs; [done|]. runs_steps.
  eapply wr_runs; [by rewrite lookup_insert_eq|]. split.
  - split; [apply NoDup_singleton|]. split; unfold nxt, prv; by rewrite lookup_insert_eq.
  - intros q ?. by simplify_map_eq.
Qed.
End Routines.

(** ** Refinement: pointer routines are sequence operations *)

Section Refinement.
  Implicit Types (h : lheap) (l pre post : list Z).

Lemma chain_first h x post y :
  chain h x post y -> exists b, linked h x b /\ (b = y /\ post = [] \/ exists post', post = b :: post').
Proof. destruct post as [|b post]; cbn; [eauto|]. intros [??]. eauto. Qed.

Lemma chain_insert_first h h' x post y e b :
  chain h x post y -> linked h x b -> linked h' x e -> linked h' e b ->
  (forall q, q <> x -> q <> e -> nxt h' q = nxt h q) ->
  (forall q, q <> b -> q <> e -> prv h' q = prv h q) ->
  NoDup (x :: post) -> y ∉ post -> e ∉ y :: x :: post ->
  chain h' x (e :: post) y.
Proof.
  intros Hc [Hb _] H1 H2 Hn Hp Hnd Hy He. split; [done|].
  destruct post as [|b' post]; cbn in *.
  - destruct Hc as [Hc _]. by simplify_eq.
  - destruct Hc as [[Hb' _] Hc]. simplify_eq. split; [done|].
    apply NoDup_cons in Hnd as [Hx Hnd]. apply NoDup_cons in Hnd as [Hb2 Hnd].
    eapply chain_frame; [| |exact Hc]; intros q Hq; [apply Hn|apply Hp]; set_solver.
Qed.

Lemma chain_remove_first h h' a e post y b :
  chain h a (e :: post) y -> linked h e b -> linked h' a b ->
  (forall q, q <> a -> nxt h' q = nxt h q) ->
  (forall q, q <> b -> prv h' q = prv h q) ->
  NoDup (a :: e :: post) -> y ∉ e :: post ->
  chain h' a post y.
Proof.
  intros [_ Hc] [Hb _] H1 Hn Hp Hnd Hy. destruct post as [|b' post]; cbn in *.
  - destruct Hc as [Hc _]. by simplify_eq.
  - destruct Hc as [[Hb' _] Hc]. simplify_eq. split; [done|].
    apply NoDup_cons in Hnd as [Hx Hnd]. apply NoDup_cons in Hnd as [He Hnd].
    apply NoDup_cons in Hnd as [Hb2 Hnd].
    eapply chain_frame; [| |exact Hc]; intros q Hq; [apply Hn|apply Hp]; set_solver.
Qed.

(** Insertion behind any entry [x] of the cycle [head :: l]. *)
Lemma list_add_after_runs h head l pre x post e :
  dlist h head l -> head :: l = pre ++ x :: post -> e ∉ head :: l -> is_Some (h !! e) ->
  runs (list_add_after x e) h (fun _ h' =>
    exists l', head :: l' = pre ++ x :: e :: post /\ dlist h' head l' /\
    forall q, q ∉ e :: head :: l -> h' !! q = h !! q).
Proof.
  intros [Hnd Hc] Heq He Hp. unfold list_add_after.
  assert (exists y b, linked h x b /\ chain h x post y /\ (y ∉ post) /\ (b ∈ head :: l) /\ (y ∈ head :: l) /\
     (pre = [] /\ head = x /\ l = post /\ y = x \/
      exists pre', pre = head :: pre' /\ l = pre' ++ x :: post /\ y = head /\ chain h head pre' x /\ (b ∉ pre' ++ [x])))
    as (y&b&Hl&Hcx&Hy&Hbl&Hyl&Hcase).
  { apply NoDup_cons in Hnd as [Hh Hnd]. destruct pre as [|z pre]; injection Heq as <- ->.
    - pose proof (chain_first _ _ _ _ Hc) as (b&Hb&Hbp). exists head, b.
      split_and!; auto; destruct Hbp as [[-> ->]|[? ->]]; set_solver.
    - apply chain_app in Hc as [Hc1 Hc2]. pose proof (chain_first _ _ _ _ Hc2) as (b&Hb&Hbp).
      apply NoDup_app in Hnd as (_&Hd&Hnd). apply NoDup_cons in Hnd as [? _].
      assert (b ∈ head :: pre ++ x :: post /\ b ∉ pre ++ [x]) as [??]
        by (destruct Hbp as [[-> ->]|[? ->]]; set_solver).
      exists head, b. split_and!; auto; [set_solver|set_solver|right; eauto 10]. }
  pose proof (linked_present _ _ _ Hl) as [[ex Hx] _].
  runs_steps. eapply rd_runs; [done|].
  assert (e_next ex = b) as -> by (destruct Hl as [Hl _]; unfold nxt in Hl; rewrite Hx in Hl; by injection Hl).
  assert (x ∈ head :: l) by (rewrite Heq; set_solver).
  eapply runs_mono; [apply (__list_add_runs h x b e); [done|done|set_solver|set_solver]|].
  intros _ h' (H1&H2&Hn&Hpv&Hf).
  assert (NoDup (x :: post)) by (rewrite Heq in Hnd; apply NoDup_app in Hnd; tauto).
  assert (chain h' x (e :: post) y) as Hc'.
  { eapply (chain_insert_first h); eauto. rewrite Heq in He, Hyl. set_solver. }
  assert (NoDup (pre ++ x :: e :: post)) as Hnd'.
  { replace (pre ++ x :: e :: post) with ((pre ++ [x]) ++ e :: post) by (by simplify_list_eq).
    rewrite <- Permutation_middle, <- app_assoc. cbn. rewrite <- Heq. by apply NoDup_cons. }
  destruct Hcase as [(->&->&->&->)|(pre'&->&->&->&Hc1&Hb)]; simplify_list_eq.
  - exists (e :: post). split_and!; [done|by split|]. intros q ?. apply Hf; set_solver.
  - exists (pre' ++ x :: e :: post). split_and!; [done| |intros q ?; apply Hf; set_solver].
    split; [done|]. rewrite chain_app. split; [|done].
    assert (x ∉ head :: pre') as Hxp.
    { apply (NoDup_app (head :: pre')) in Hnd as (_&Hd&_). intros Hin%Hd. apply Hin. constructor. }
    assert (forall q, q ∈ head :: pre' ++ [x] -> q <> e) as Hqe.
    { intros q Hq ->. apply He. clear -Hq. set_solver. }
    clear -Hn Hpv Hc1 Hb Hxp Hqe.
    eapply chain_frame; [| |exact Hc1]; intros q Hq; [apply Hn|apply Hpv]; try (apply Hqe); set_solver.
Qed.

Lemma dlist_linked_prev h head l pre x post :
  dlist h head l -> head :: l = pre ++ x :: post ->
  exists a pre' post', linked h a x /\ head :: l = pre' ++ a :: post' /\
    forall e l', head :: l' = pre' ++ a :: e :: post' ->
      if decide (x = head) then l' = l ++ [e] else head :: l' = pre ++ e :: x :: post.
Proof.
  intros [Hnd Hc] Heq. destruct pre as [|z pre] using rev_ind; [|clear IHpre].
  - injection Heq as <- <-. apply chain_snoc_inv in Hc as (y&Hy&Hlast).
    apply last_Some in Hlast as [pre' Hpre']. exists y, pre', []. split_and!; [done|done|].
    intros e l' He. rewrite decide_True by done.
    replace (pre' ++ [y; e]) with ((pre' ++ [y]) ++ [e]) in He by (by simplify_list_eq).
    rewrite <- Hpre' in He. by injection He.
  - exists z, pre, (x :: post). rewrite <- app_assoc in Heq. split_and!; [|done|].
    + destruct pre as [|w pre]; injection Heq as -> ->; cbn in Hc; [tauto|].
      apply chain_app in Hc as [_ [Hc _]]. done.
    + intros e l' He. rewrite decide_False; [by rewrite <- app_assoc|].
      intros ->. rewrite Heq in Hnd. rewrite app_assoc in Hnd. apply NoDup_app in Hnd as (_&Hd&_).
      apply (Hd head); [|constructor].
      destruct pre as [|w pre]; injection Heq as -> _; constructor.
Qed.

(** Insertion in front of any entry [x] of the cycle: in front of the header
    is the end of the list. *)
Lemma list_add_before_runs h head l pre x post e :
  dlist h head l -> head :: l = pre ++ x :: post -> e ∉ head :: l -> is_Some (h !! e) ->
  runs (list_add_before x e) h (fun _ h' =>
    exists l', (if decide (x = head) then l' = l ++ [e] else head :: l' = pre ++ e :: x :: post) /\
    dlist h' head l' /\ forall q, q ∉ e :: head :: l -> h' !! q = h !! q).
Proof.
  intros Hd Heq He Hp. destruct (dlist_linked_prev _ _ _ _ _ _ Hd Heq) as (a&pre'&post'&Hl&Heq'&Hk).
  pose proof (list_add_after_runs _ _ _ _ _ _ _ Hd Heq' He Hp) as Hadd.
  unfold list_add_before, list_add_after in *.
  pose proof (linked_present _ _ _ Hl) as [[ea Ha] [ex Hx]].
  destruct Hl as [Hl1 Hl2]. unfold nxt, prv in Hl1, Hl2. rewrite Ha in Hl1. rewrite Hx in Hl2.
  unfold runs, bind, rd, get, deref in *. cbn in *. rewrite Ha in Hadd. rewrite Hx. cbn in *.
  injection Hl1 as Hl1. injection Hl2 as Hl2. rewrite Hl1 in Hadd. rewrite Hl2.
  destruct (__list_add e a x h) as [[[] h']| | |]; [|done|done|done].
  destruct Hadd as (l'&?&?&?). exists l'. split_and!; auto. by apply Hk.
Qed.

Lemma list_del_runs h head l1 x l2 :
  dlist h head (l1 ++ x :: l2) ->
  runs (list_del x) h (fun _ h' =>
    dlist h' head (l1 ++ l2) /\ h' !! x = h !! x /\
    forall q, q ∉ head :: l1 ++ x :: l2 -> h' !! q = h !! q).
Proof.
  intros Hd. pose proof Hd as [Hnd Hc].
  apply chain_app in Hc as [Hc1 Hc2]. pose proof (chain_snoc_inv _ _ _ _ Hc1) as (a&Ha&Hlast).
  pose proof (chain_first _ _ _ _ Hc2) as (b&Hb&Hbp).
  apply last_Some in Hlast as [pre Hpre].
  assert (a ∈ head :: l1) as Hain by (rewrite Hpre; set_solver).
  assert ((x ∉ head :: l1) /\ (x ∉ l2) /\ NoDup (head :: l1 ++ l2)) as (Hx1&Hx2&Hnd').
  { change (NoDup ((head :: l1) ++ x :: l2)) in Hnd. rewrite <- Permutation_middle in Hnd.
    apply NoDup_cons in Hnd as [Hx Hnd]. split_and!; [| |done]; clear -Hx; set_solver. }
  assert (b = head \/ b ∈ l2) as Hbin by (destruct Hbp as [[-> ->]|[? ->]]; set_solver).
  pose proof (linked_present _ _ _ Ha) as [_ [ex Hex]].
  unfold list_del. runs_steps. eapply rd_runs; [done|].
  assert (e_prev ex = a /\ e_next ex = b) as [-> ->].
  { destruct Ha as [_ Ha], Hb as [Hb _]. unfold nxt, prv in Ha, Hb. rewrite Hex in Ha, Hb. by simplify_eq/=. }
  eapply runs_mono; [by apply (__list_del_runs h a b x)|]. intros _ h' (Hl&Hn&Hp&Hf).
  split_and!.
  - split; [done|]. destruct pre as [|z pre].
    + injection Hpre as -> ->. cbn in *.
      eapply (chain_remove_first h h' a x l2); eauto; [by split|].
      by apply NoDup_cons in Hnd as [? _].
    + injection Hpre as -> ->. rewrite <- app_assoc. cbn. apply chain_app in Hc1 as [Hc1 _].
      apply chain_app. 
      assert (NoDup (a :: x :: l2) /\ (z ∉ a :: x :: l2) /\ (a ∉ z :: pre) /\ (b ∉ pre ++ [a])) as (H&H0&H1&H2).
      { rewrite <- app_assoc in Hnd. cbn in Hnd.
        apply (NoDup_app (z :: pre)) in Hnd as (Hnp&Hd1&Hn1).
        apply NoDup_cons in Hnp as [Hzp _]. pose proof (Hd1 z ltac:(constructor)) as Hz.
        split_and!; [done|done|intros Hin%Hd1; apply Hin; constructor|].
        clear -Hbin Hd1 Hn1 Hz Hzp. apply NoDup_cons in Hn1 as [? _]. set_solver. }
      clear -Hn Hp Hc1 Hc2 Ha Hl Hb H H0 H1 H2. split.
      * eapply chain_frame; [| |exact Hc1]; intros q Hq; [apply Hn|apply Hp]; set_solver.
      * eapply (chain_remove_first h h' a x l2); eauto; [by split|set_solver].
  - apply Hf; clear -Hain Hbin Hx1 Hx2; set_solver.
  - intros q Hq. apply Hf; clear -Hain Hbin Hq; set_solver.
Qed.
End Refinement.

(** ** Theorems *)

(** Insertion anywhere in a list: [list_add_after x e] puts [e] right behind
    [x], where [x] is the header or an entry, keeps a well-formed list and
    touches no entry outside the list. *)
Theorem list_add_after_refines h head l pre x post e :
  dlist h head l -> head :: l = pre ++ x :: post -> e ∉ head :: l -> is_Some (h !! e) ->
  runs (list_add_after x e) h (fun _ h' =>
    exists l', head :: l' = pre ++ x :: e :: post /\ dlist h' head l' /\
    forall q, q ∉ e :: head :: l -> h' !! q = h !! q).
Proof. apply list_add_after_runs. Qed.

Lemma list_add_head_runs h head l e :
  dlist h head l -> e ∉ head :: l -> is_Some (h !! e) ->
  runs (list_add head e) h (fun _ h' => dlist h' head (e :: l)).
Proof.
  intros Hd He Hp. eapply runs_mono; [by apply (list_add_after_runs h head l [] head l e)|].
  cbn. intros _ h' (l'&[= ->]&?&?). done.
Qed.

(** Queueing: [list_add_before head e] appends [e] at the tail. *)
Lemma list_add_tail_runs h head l e :
  dlist h head l -> e ∉ head :: l -> is_Some (h !! e) ->
  runs (list_add_before head e) h (fun _ h' => dlist h' head (l ++ [e])).
Proof.
  intros Hd He Hp. eapply runs_mono; [by apply (list_add_before_runs h head l [] head l e)|].
  cbn. intros _ h' (l'&Hl&?&?). rewrite decide_True in Hl by done. by subst.
Qed.

(** Unlinking: [list_del_init x] removes exactly [x] from the sequence, leaves
    [x] an empty list of its own and touches no entry outside the list. *)
Theorem list_del_init_refines h head l x :
  dlist h head l -> x ∈ l ->
  runs (list_del_init x) h (fun _ h' =>
    dlist h' head (ldel x l) /\ dlist h' x [] /\
    forall q, q ∉ head :: l -> h' !! q = h !! q).
Proof.
  intros Hd (l1&l2&->)%list_elem_of_split. unfold list_del_init. runs_steps.
  eapply runs_mono; [by apply list_del_runs|]. intros _ h1 (Hd1&Hx1&Hf1).
  assert (is_Some (h1 !! x)).
  { rewrite Hx1. eapply dlist_present; [done|]. set_solver. }
  eapply runs_mono; [by apply list_init_runs|]. intros _ h2 [Hx2 Hf2].
  destruct Hd as [Hnd _]. apply NoDup_cons in Hnd as [Hh Hnd].
  rewrite ldel_middle by done. split_and!; [|done|].
  - eapply dlist_frame; [|done]. intros y Hy. apply Hf2.
    rewrite <- Permutation_middle in Hnd. apply NoDup_cons in Hnd as [? _].
    intros ->. clear Hf1. set_solver.
  - intros q Hq. rewrite Hf2, Hf1; [done|done|]. intros ->. clear Hf1 Hf2. set_solver.
Qed.

Lemma list_walk_chain h head a l fuel :
  head ∉ l -> chain h a l head -> (length l < fuel)%nat ->
  list_walk fuel a head h = Ok (l, h).
Proof.
  revert a fuel. induction l as [|x l IH]; intros a fuel Hh Hc Hf;
    destruct fuel as [|fuel]; cbn in *; try lia.
  - destruct Hc as [Hn _]. unfold nxt in Hn. apply fmap_Some in Hn as (ea&Ha&Hn).
    unfold list_next, rd, bind, get, deref, ret. cbn. rewrite Ha. cbn. by rewrite <- Hn, Z.eqb_refl.
  - destruct Hc as [[Hn _] Hc]. unfold nxt in Hn. apply fmap_Some in Hn as (ea&Ha&Hn).
    unfold list_next, rd, bind, get, deref, ret at 1. cbn. rewrite Ha. cbn. rewrite <- Hn.
    assert (x <> head) by set_solver. rewrite (proj2 (Z.eqb_neq _ _)) by done.
    rewrite IH; [done|set_solver|done|lia].
Qed.

(** Traversal terminates and visits exactly the entries of the list in order:
    the number of entries plus one is enough fuel. *)
Theorem list_walk_visits h head l fuel :
  dlist h head l -> (length l < fuel)%nat -> list_walk fuel head head h = Ok (l, h).
Proof. intros [Hnd Hc] Hf. apply NoDup_cons in Hnd as [Hh _]. by apply list_walk_chain. Qed.

(** [list_empty] tells whether the sequence is empty. *)
Lemma list_empty_spec h head l :
  dlist h head l -> list_empty head h = Ok (bool_decide (l = []), h).
Proof.
  intros [Hnd Hc]. destruct (chain_first _ _ _ _ Hc) as (b&Hb&Hcase).
  destruct Hb as [Hn _]. unfold nxt in Hn. apply fmap_Some in Hn as (ea&Ha&Hn).
  unfold list_empty, list_next, rd, bind, get, deref, ret. cbn. rewrite Ha. cbn. rewrite <- Hn.
  f_equal. f_equal. destruct Hcase as [[-> ->]|[l' ->]].
  - rewrite Z.eqb_refl. by rewrite bool_decide_eq_true_2.
  - rewrite bool_decide_eq_false_2 by done. apply Z.eqb_neq.
    apply NoDup_cons in Hnd as [? _]. set_solver.
Qed.

(** A concrete list: header 1, entries 2 and 3; 4 is a free entry. *)
Definition ex_heap : lheap :=
  <[1 := mk_entry 3 2]> (<[2 := mk_entry 1 3]> (<[3 := mk_entry 2 1]> (<[4 := mk_entry 4 4]> ∅))).

Lemma ex_heap_dlist : dlist ex_heap 1 [2; 3].
Proof.
  split; [|cbn; unfold linked; repeat split; reflexivity].
  repeat (apply NoDup_cons; split; [set_solver|]). apply NoDup_nil_2.
Qed.

Lemma list_add_after_refines_witness :
  runs (list_add_after 2 4) ex_heap (fun _ h' =>
    exists l', 1 :: l' = [1; 2; 4; 3] /\ dlist h' 1 l' /\
    forall q, q ∉ [4; 1; 2; 3] -> h' !! q = ex_heap !! q).
Proof.
  apply (list_add_after_refines ex_heap 1 [2; 3] [1] 2 [3] 4 ex_heap_dlist eq_refl).
  - set_solver.
  - by exists (mk_entry 4 4).
Defined.

Lemma list_del_init_refines_witness :
  runs (list_del_init 2) ex_heap (fun _ h' =>
    dlist h' 1 [3] /\ dlist h' 2 [] /\ forall q, q ∉ [1; 2; 3] -> h' !! q = ex_heap !! q).
Proof. apply (list_del_init_refines ex_heap 1 [2; 3] 2 ex_heap_dlist). set_solver. Defined.

Lemma list_walk_visits_witness : list_walk 3 1 1 ex_heap = Ok ([2; 3], ex_heap).
Proof. apply (list_walk_visits ex_heap 1 [2; 3] 3 ex_heap_dlist). cbn. lia. Defined.
