(* ===== verification/Atomic.v ===== *)
(** * Critical sections and bit operations
      (kern/driver/intr.[ch], kern/include/atomic.h)

    The kernel runs on one processor: a routine is made atomic by clearing the
    interrupt-enable bit of the coprocessor-0 status register and putting it
    back.  [critical] is that bracket around a piece of code; its theorem is
    what lets the other components model a bracketed routine by its body. *)

From stdpp Require Import base list.
From Stdlib Require Import ZArith Lia Bool.
From S2P Require Import Prelude.

Definition ST0_IE : Z := 1.

(** Bitwise complement of a 32-bit word. *)
Definition lnot32 (z : Z) : Z := Z.lxor z 4294967295.

(** ** Words *)

Definition set_bit (nr w : Z) : Z := Z.lor w (Z.shiftl 1 nr).
Definition clear_bit (nr w : Z) : Z := Z.land w (lnot32 (Z.shiftl 1 nr)).
Definition change_bit (nr w : Z) : Z := Z.lxor w (Z.shiftl 1 nr).
Definition test_bit (nr w : Z) : bool := negb (Z.land w (Z.shiftl 1 nr) =? 0).
Definition test_and_set_bit (nr w : Z) : bool * Z := (test_bit nr w, Z.lor w (Z.shiftl 1 nr)).
Definition test_and_clear_bit (nr w : Z) : bool * Z :=
  (test_bit nr w, Z.land w (lnot32 (Z.shiftl 1 nr))).
(** The result is the constant 0: the routine computes the old bit and then
    returns 0. *)
Definition test_and_change_bit (nr w : Z) : bool * Z := (false, Z.lxor w (Z.shiftl 1 nr)).

(** Counters are [int]. *)
Definition atomic_add_return (i v : Z) : Z := s32 (v + i).
Definition atomic_sub_return (i v : Z) : Z := atomic_add_return (- i) v.

Section Bits.
Lemma test_bit_spec nr w : 0 <= nr -> test_bit nr w = Z.testbit w nr.
Proof.
  intros Hnr. unfold test_bit. rewrite Z.shiftl_1_l.
  destruct (Z.testbit w nr) eqn:Hb.
  - apply negb_true_iff, Z.eqb_neq. intros H0.
    assert (Z.testbit (Z.land w (2 ^ nr)) nr = true) as Ht.
    { by rewrite Z.land_spec, Hb, Z.pow2_bits_true. }
    rewrite H0, Z.bits_0 in Ht. done.
  - apply negb_false_iff, Z.eqb_eq. apply Z.bits_inj'. intros i Hi.
    rewrite Z.land_spec, Z.bits_0. destruct (decide (i = nr)) as [->|].
    + by rewrite Hb.
    + rewrite Z.pow2_bits_false by done. apply andb_false_r.
Qed.

Lemma test_set_bit i nr w :
  0 <= i -> 0 <= nr -> test_bit i (set_bit nr w) = (bool_decide (i = nr) || test_bit i w).
Proof.
  intros Hi Hnr. rewrite !test_bit_spec by done. unfold set_bit.
  rewrite Z.shiftl_1_l, Z.lor_spec. case_bool_decide as Hc; [subst|].
  - rewrite Z.pow2_bits_true by done. apply orb_true_r.
  - rewrite Z.pow2_bits_false by congruence. apply orb_false_r.
Qed.

Lemma lnot32_testbit i z : 0 <= i < 32 -> Z.testbit (lnot32 z) i = negb (Z.testbit z i).
Proof.
  intros Hi. unfold lnot32. rewrite Z.lxor_spec.
  change 4294967295 with (Z.ones 32). rewrite Z.ones_spec_low by done.
  by rewrite xorb_true_r.
Qed.

Lemma test_clear_bit i nr w :
  0 <= i < 32 -> 0 <= nr -> test_bit i (clear_bit nr w) = (negb (bool_decide (i = nr)) && test_bit i w).
Proof.
  intros Hi Hnr. rewrite !test_bit_spec by lia. unfold clear_bit.
  rewrite Z.shiftl_1_l, Z.land_spec, lnot32_testbit by done. case_bool_decide as Hc; [subst|].
  - rewrite Z.pow2_bits_true by done. apply andb_false_r.
  - rewrite Z.pow2_bits_false by congruence. apply andb_true_r.
Qed.

Lemma test_bit_0 nr : test_bit nr 0 = false.
Proof. unfold test_bit. by rewrite Z.land_0_l. Qed.

(** Flipping bit [k], and the common part of a number and its flip. *)
Lemma lxor_pow2 a k :
  0 <= k -> Z.lxor a (2 ^ k) = if Z.testbit a k then a - 2 ^ k else a + 2 ^ k.
Proof.
  intros Hk. destruct (Z.testbit a k) eqn:Hb.
  - rewrite Z.sub_nocarry_ldiff.
    + apply Z.bits_inj'. intros i Hi. rewrite Z.lxor_spec, Z.ldiff_spec.
      destruct (decide (i = k)) as [->|].
      * by rewrite Hb, Z.pow2_bits_true.
      * rewrite Z.pow2_bits_false by done. by rewrite xorb_false_r, andb_true_r.
    + apply Z.bits_inj'. intros i Hi. rewrite Z.ldiff_spec, Z.bits_0.
      destruct (decide (i = k)) as [->|].
      * by rewrite Hb, andb_false_r.
      * by rewrite Z.pow2_bits_false.
  - rewrite Z.add_nocarry_lxor; [done|].
    apply Z.bits_inj'. intros i Hi. rewrite Z.land_spec, Z.bits_0.
    destruct (decide (i = k)) as [->|].
    * by rewrite Hb.
    * by rewrite Z.pow2_bits_false, andb_false_r.
Qed.

Lemma land_flip a k :
  0 <= k -> Z.land a (Z.lxor a (2 ^ k)) = if Z.testbit a k then a - 2 ^ k else a.
Proof.
  intros Hk. destruct (Z.testbit a k) eqn:Hb.
  - transitivity (Z.lxor a (2 ^ k)); [|by rewrite lxor_pow2, Hb].
    apply Z.bits_inj'. intros i Hi. rewrite Z.land_spec, Z.lxor_spec.
    destruct (decide (i = k)) as [->|].
    + by rewrite Hb, Z.pow2_bits_true.
    + rewrite Z.pow2_bits_false by done. rewrite xorb_false_r. apply andb_diag.
  - apply Z.bits_inj'. intros i Hi. rewrite Z.land_spec, Z.lxor_spec.
    destruct (decide (i = k)) as [->|].
    + by rewrite Hb.
    + rewrite Z.pow2_bits_false by done. rewrite xorb_false_r. apply andb_diag.
Qed.

Lemma aligned_next a k :
  0 <= k -> a mod 2 ^ k = 0 -> a mod 2 ^ (k + 1) = if Z.testbit a k then 2 ^ k else 0.
Proof.
  intros Hk Ha. rewrite Z.pow_add_r, Z.pow_1_r by lia.
  assert (0 < 2 ^ k) by (apply Z.pow_pos_nonneg; lia).
  rewrite Z.rem_mul_r by lia. rewrite Ha, Z.testbit_eqb by done.
  pose proof (Z.mod_pos_bound (a / 2 ^ k) 2 ltac:(lia)).
  destruct (Z.eqb_spec ((a / 2 ^ k) mod 2) 1); nia.
Qed.

Lemma aligned_down a j k : 0 <= j <= k -> a mod 2 ^ k = 0 -> a mod 2 ^ j = 0.
Proof.
  intros Hjk Ha. replace k with (j + (k - j)) in Ha by lia.
  rewrite Z.pow_add_r in Ha by lia.
  assert (0 < 2 ^ j) by (apply Z.pow_pos_nonneg; lia).
  assert (0 < 2 ^ (k - j)) by (apply Z.pow_pos_nonneg; lia).
  rewrite Z.rem_mul_r in Ha by lia.
  pose proof (Z.mod_pos_bound a (2 ^ j) ltac:(lia)).
  pose proof (Z.mod_pos_bound (a / 2 ^ j) (2 ^ (k - j)) ltac:(lia)). nia.
Qed.

Lemma lxor_pow2_involutive a k : Z.lxor (Z.lxor a (2 ^ k)) (2 ^ k) = a.
Proof. by rewrite Z.lxor_assoc, Z.lxor_nilpotent, Z.lxor_0_r. Qed.

(** Splitting a word at bit [n]. *)
Lemma land_low_high n x o : 0 <= n -> x mod 2 ^ n = 0 -> 0 <= o < 2 ^ n -> Z.land x o = 0.
Proof.
  intros Hn Hx Ho. apply Z.bits_inj'. intros i Hi. rewrite Z.land_spec, Z.bits_0.
  destruct (decide (i < n)).
  - rewrite <- (Z.mod_pow2_bits_low x n i), Hx, Z.bits_0 by lia. done.
  - rewrite <- (Z.mod_small o (2 ^ n)) by lia. rewrite Z.mod_pow2_bits_high by lia. apply andb_false_r.
Qed.

Lemma lor_low_high n x o : 0 <= n -> x mod 2 ^ n = 0 -> 0 <= o < 2 ^ n -> Z.lor x o = x + o.
Proof. intros Hn Hx Ho. pose proof (Z.add_lor_land x o). rewrite (land_low_high n) in *; lia. Qed.

Lemma land_lnot32 x n : is_u32 x -> 0 <= n <= 32 -> Z.land x (lnot32 (Z.ones n)) = x - x mod 2 ^ n.
Proof.
  intros Hx Hn. rewrite <- Z.land_ones, Z.sub_land_same_l by lia.
  apply Z.bits_inj'. intros i Hi. rewrite !Z.land_spec. destruct (decide (i < 32)).
  - by rewrite lnot32_testbit, Z.lnot_spec by lia.
  - rewrite <- (Z.mod_small x (2 ^ 32)) by apply Hx. by rewrite Z.mod_pow2_bits_high by lia.
Qed.
End Bits.

Create Rewrite HintDb bits.
#[export] Hint Rewrite test_set_bit test_clear_bit using (unfold is_u32 in *; lia) : bits.

(** ** The interrupt flag *)

Definition intr_enable : M Z unit := modify (fun x => Z.lor x ST0_IE).
Definition intr_disable : M Z unit := modify (fun x => Z.land x (lnot32 ST0_IE)).

Definition __intr_save : M Z bool :=
  let! st := get in
  if Z.land st ST0_IE =? 0 then ret false
  else do! intr_disable in ret true.

Definition __intr_restore (flag : bool) : M Z unit :=
  if flag then intr_enable else ret tt.

(** [local_intr_save(f); { body } local_intr_restore(f);] *)
Definition critical {S A} (body : M S A) : M (Z * S) A :=
  let! f := zoom fst (fun x t => (x, snd t)) __intr_save in
  let! a := zoom snd (fun s t => (fst t, s)) body in
  do! zoom fst (fun x t => (x, snd t)) (__intr_restore f) in
  ret a.

(** The low bit of the status word, and what [intr_disable] leaves. *)
Lemma land_IE w : Z.land w ST0_IE = if Z.testbit w 0 then 1 else 0.
Proof.
  unfold ST0_IE. change 1 with (Z.ones 1) at 1. rewrite Z.land_ones by done.
  change (2 ^ 1) with 2. by rewrite Zmod_odd, Z.bit0_odd.
Qed.

Lemma disabled_testbit status i :
  is_u32 status ->
  Z.testbit (Z.land status (lnot32 ST0_IE)) i = (Z.testbit status i && negb (i =? 0))%bool.
Proof.
  intros Hst. destruct (decide (i < 0)); [by rewrite !Z.testbit_neg_r|].
  rewrite Z.land_spec. destruct (decide (i < 32)).
  - rewrite lnot32_testbit by lia. unfold ST0_IE. by destruct i.
  - rewrite <- (Z.mod_small status (2 ^ 32)) by apply Hst.
    by rewrite !Z.mod_pow2_bits_high by lia.
Qed.

Lemma enable_disabled status :
  is_u32 status -> Z.testbit status 0 = true ->
  Z.lor (Z.land status (lnot32 ST0_IE)) ST0_IE = status.
Proof.
  intros Hst Hie. apply Z.bits_inj'. intros i Hi. rewrite Z.lor_spec, disabled_testbit by done.
  unfold ST0_IE. destruct (Z.eqb_spec i 0) as [->|]; [by rewrite Hie|].
  change 1 with (2 ^ 0). rewrite Z.pow2_bits_false by done. by rewrite andb_true_r, orb_false_r.
Qed.

Lemma critical_runs {S A} (body : M S A) (status : Z) (s : S) (Q : A -> S -> Prop) :
  is_u32 status -> runs body s Q ->
  runs (critical body) (status, s) (fun a t => fst t = status /\ Q a (snd t)).
Proof.
  intros Hst Hb. unfold critical. runs_steps. unfold __intr_save. runs_steps. cbn [fst snd].
  rewrite land_IE. destruct (Z.testbit status 0) eqn:Hie; cbn [fst snd].
  - change (1 =? 0) with false. cbv iota. unfold intr_disable. runs_steps. cbn [fst snd].
    eapply runs_mono; [exact Hb|]. intros a s' HQ. unfold intr_enable. cbn.
    runs_steps. cbn. split; [by apply enable_disabled|done].
  - change (0 =? 0) with true. cbv iota. runs_steps. cbn [fst snd].
    eapply runs_mono; [exact Hb|]. intros a s' HQ. cbn. by runs_steps.
Qed.

(** The bracket runs its body with interrupts off and puts the status word back
    bit for bit, whether interrupts were on or off before (so brackets nest). *)
Theorem critical_brackets {S A} (body : M S A) (status : Z) (s : S) (Q : A -> S -> Prop) :
  is_u32 status -> runs body s Q ->
  runs (critical body) (status, s) (fun a t => fst t = status /\ Q a (snd t)) /\
  (forall f st', __intr_save status = Ok (f, st') -> test_bit 0 st' = false /\ f = test_bit 0 status).
Proof.
  intros Hst Hb. split; [by apply critical_runs|].
  unfold __intr_save, bind, get. cbn. rewrite land_IE.
  destruct (Z.testbit status 0) eqn:Hie; cbn; intros f st' [= <- <-].
  - rewrite !test_bit_spec by done. by rewrite disabled_testbit, Hie.
  - by rewrite test_bit_spec, Hie.
Qed.

Lemma critical_brackets_witness :
  runs (critical (modify (fun n => n + 1))) (65281, 41) (fun _ t => fst t = 65281 /\ snd t = 42) /\
  (forall f st', __intr_save 65281 = Ok (f, st') -> test_bit 0 st' = false /\ f = test_bit 0 65281).
Proof.
  apply (critical_brackets (modify (fun n => n + 1)) 65281 41 (fun _ n => n = 42)).
  - unfold is_u32, W32. lia.
  - reflexivity.
Defined.

(** [test_and_change_bit] flips the bit but does not report its old value,
    unlike the two sibling routines. *)
Theorem test_and_change_bit_loses_old_value nr w :
  0 <= nr ->
  (fst (test_and_set_bit nr w) = Z.testbit w nr /\
   fst (test_and_clear_bit nr w) = Z.testbit w nr) /\
  (fst (test_and_change_bit nr w) = Z.testbit w nr <-> Z.testbit w nr = false) /\
  Z.testbit (snd (test_and_change_bit nr w)) nr = negb (Z.testbit w nr).
Proof.
  intros Hnr. cbn. rewrite !test_bit_spec by done. split_and!; [done|done|split; congruence|].
  rewrite Z.shiftl_1_l, Z.lxor_spec, Z.pow2_bits_true by done. apply xorb_true_r.
Qed.

Lemma test_and_change_bit_loses_old_value_witness :
  (fst (test_and_set_bit 3 8) = true /\ fst (test_and_clear_bit 3 8) = true) /\
  (fst (test_and_change_bit 3 8) = true <-> true = false) /\
  Z.testbit (snd (test_and_change_bit 3 8)) 3 = false.
Proof. apply (test_and_change_bit_loses_old_value 3 8). lia. Defined.
