(* ===== verification/Buddy.v ===== *)
(** * The buddy page allocator (kern/mm/buddy_pmm.c)

    A page pointer is the index of the page in the array [pages].  A free list
    is the sequence of the pages whose [page_link] is linked behind the list
    header (Dlist.v shows that the pointer routines of list.h are the sequence
    operations used here): [list_add] conses, [list_del] removes the page from
    the list it is in. *)

From stdpp Require Import base gmap list.
From Stdlib Require Import ZArith Lia Bool.
From S2P Require Import Prelude.
From S2P Require Import Dlist.
From S2P Require Import Atomic.

(** ** State *)

(** [struct Page] of memlayout.h (the links are in the free lists). *)
Record Page := mkPage { ref : Z; flags : Z; property : Z; zone_num : Z }.

Definition PG_reserved : Z := 0.
Definition PG_property : Z := 1.
Definition PG_slab : Z := 2.

Definition PageReserved (p : Page) : bool := test_bit PG_reserved (flags p).
Definition PageProperty (p : Page) : bool := test_bit PG_property (flags p).
Definition set_flags (f : Z) (p : Page) : Page := mkPage (ref p) f (property p) (zone_num p).
Definition SetPageReserved (p : Page) : Page := set_flags (set_bit PG_reserved (flags p)) p.
Definition SetPageProperty (p : Page) : Page := set_flags (set_bit PG_property (flags p)) p.
Definition ClearPageProperty (p : Page) : Page := set_flags (clear_bit PG_property (flags p)) p.
Definition set_property (o : Z) (p : Page) : Page := mkPage (ref p) (flags p) o (zone_num p).
Definition set_page_ref (r : Z) (p : Page) : Page := mkPage r (flags p) (property p) (zone_num p).

Definition MAX_ORDER : Z := 10.
Definition MAX_ZONE_NUM : Z := 10.

(** [pages], [npage] of pmm.c; [free_area], [zones] and the static [zone_num]
    of buddy_pmm.c. *)
Record pmm := mkPmm {
  pages : gmap Z Page;
  npage : Z;
  free_list : gmap Z (list Z);
  nr_free : gmap Z Z;
  zones : gmap Z Z;
  zone_cnt : Z
}.

Definition upd_pages (f : gmap Z Page -> gmap Z Page) (s : pmm) : pmm :=
  mkPmm (f (pages s)) (npage s) (free_list s) (nr_free s) (zones s) (zone_cnt s).
Definition upd_lists (f : gmap Z (list Z) -> gmap Z (list Z)) (s : pmm) : pmm :=
  mkPmm (pages s) (npage s) (f (free_list s)) (nr_free s) (zones s) (zone_cnt s).
Definition upd_nr (f : gmap Z Z -> gmap Z Z) (s : pmm) : pmm :=
  mkPmm (pages s) (npage s) (free_list s) (f (nr_free s)) (zones s) (zone_cnt s).

Definition flist (s : pmm) (k : Z) : list Z := default [] (free_list s !! k).
Definition nrf (s : pmm) (k : Z) : Z := default 0 (nr_free s !! k).

Definition rd_page (p : Z) : M pmm Page := let! s := get in deref (pages s !! p).
Definition upd_page (p : Z) (f : Page -> Page) : M pmm unit :=
  let! pg := rd_page p in modify (upd_pages (fun m => <[p := f pg]> m)).
Definition nr_free_inc (k : Z) : M pmm unit :=
  modify (fun s => upd_nr (fun m => <[k := u32 (nrf s k + 1)]> m) s).
Definition nr_free_dec (k : Z) : M pmm unit :=
  modify (fun s => upd_nr (fun m => <[k := u32 (nrf s k - 1)]> m) s).
Definition free_list_add (k p : Z) : M pmm unit :=
  modify (fun s => upd_lists (fun m => <[k := p :: flist s k]> m) s).
(** [list_del(&page->page_link)]: out of whichever list the page is in. *)
Definition page_list_del (p : Z) : M pmm unit :=
  modify (upd_lists (fun m => ldel p <$> m)).

(** ** Operations *)

Fixpoint buddy_init_loop (k : nat) (i : Z) : M pmm unit :=
  match k with
  | O => ret tt
  | S k =>
      do! modify (upd_lists (fun m => <[i := []]> m)) in
      do! modify (upd_nr (fun m => <[i := 0]> m)) in
      buddy_init_loop k (i + 1)
  end.
Definition buddy_init : M pmm unit := buddy_init_loop 11 0.

(** [for (; p != base + n; p ++) { assert(PageReserved(p)); ... }] *)
Fixpoint memmap_reset (k : nat) (p z : Z) : M pmm unit :=
  match k with
  | O => ret tt
  | S k =>
      let! pg := rd_page p in
      do! assert_ (PageReserved pg) in
      do! upd_page p (fun _ => mkPage 0 0 0 z) in
      memmap_reset k (p + 1) z
  end.

(** [while (n >= order_size) { ... }] *)
Fixpoint memmap_inner (fuel : nat) (order order_size p n : Z) : M pmm (Z * Z) :=
  match fuel with
  | O => nofuel
  | S fuel =>
      if order_size <=? n then
        do! upd_page p (set_property order) in
        do! upd_page p SetPageProperty in
        do! free_list_add order p in
        do! nr_free_inc order in
        memmap_inner fuel order order_size (p + order_size) (n - order_size)
      else ret (p, n)
  end.

(** [while (n != 0) { ...; order --; order_size >>= 1; }] *)
Fixpoint memmap_outer (fuel : nat) (order order_size p n : Z) : M pmm unit :=
  if n =? 0 then ret tt
  else match fuel with
  | O => nofuel
  | S fuel =>
      let! (p, n) := memmap_inner (S (Z.to_nat n)) order order_size p n in
      memmap_outer fuel (order - 1) (Z.shiftr order_size 1) p n
  end.

Definition buddy_init_memmap (base n : Z) : M pmm unit :=
  let! s := get in
  do! assert_ ((0 <? n) && (zone_cnt s <? MAX_ZONE_NUM)) in
  do! memmap_reset (Z.to_nat n) base (zone_cnt s) in
  do! modify (fun s => mkPmm (pages s) (npage s) (free_list s) (nr_free s)
                             (<[zone_cnt s := base]> (zones s)) (zone_cnt s + 1)) in
  memmap_outer 11 MAX_ORDER (Z.shiftl 1 MAX_ORDER) base n.

(** [getorder]: the least order with [n <= 2^order]. *)
Fixpoint getorder_loop (k : nat) (order order_size n : Z) : M pmm Z :=
  match k with
  | O => panic
  | S k => if n <=? order_size then ret order
           else getorder_loop k (order + 1) (u32 (Z.shiftl order_size 1)) n
  end.
Definition getorder (n : Z) : M pmm Z := getorder_loop 11 0 1 n.

(** [while (cur_order > order) { ... }] *)
Fixpoint alloc_split (fuel : nat) (page cur order size : Z) : M pmm unit :=
  if order <? cur then
    match fuel with
    | O => nofuel
    | S fuel =>
        let cur := cur - 1 in
        let size := Z.shiftr size 1 in
        let buddy := page + size in
        do! upd_page buddy (set_property cur) in
        do! upd_page buddy SetPageProperty in
        do! nr_free_inc cur in
        do! free_list_add cur buddy in
        alloc_split fuel page cur order size
    end
  else ret tt.

(** [for (cur_order = order; cur_order <= MAX_ORDER; cur_order ++)]; [k] is the
    number of orders left. *)
Fixpoint alloc_search (k : nat) (cur order : Z) : M pmm (option Z) :=
  match k with
  | O => ret None
  | S k =>
      let! s := get in
      match flist s cur with
      | page :: _ =>
          do! nr_free_dec cur in
          do! page_list_del page in
          do! alloc_split (Z.to_nat (cur - order)) page cur order (Z.shiftl 1 cur) in
          do! upd_page page ClearPageProperty in
          ret (Some page)
      | [] => alloc_search k (cur + 1) order
      end
  end.

Definition buddy_alloc_pages_sub (order : Z) : M pmm (option Z) :=
  do! assert_ (order <=? MAX_ORDER) in
  alloc_search (Z.to_nat (MAX_ORDER + 1 - order)) order order.

Definition page_is_buddy (page order zone : Z) : M pmm bool :=
  let! s := get in
  if u32 page <? npage s then
    let! pg := rd_page page in
    if zone_num pg =? zone then
      ret (negb (PageReserved pg) && PageProperty pg && (property pg =? order))
    else ret false
  else ret false.

Definition page2idx (page : Z) : M pmm Z :=
  let! pg := rd_page page in
  let! s := get in
  let! base := deref (zones s !! zone_num pg) in
  ret (u32 (page - base)).

Definition idx2page (zone idx : Z) : M pmm Z :=
  let! s := get in
  let! base := deref (zones s !! zone) in
  ret (base + idx).

(** [for (; p != base + (1 << order); p ++) { ... }] *)
Fixpoint free_reset (k : nat) (p : Z) : M pmm unit :=
  match k with
  | O => ret tt
  | S k =>
      let! pg := rd_page p in
      do! assert_ (negb (PageReserved pg) && negb (PageProperty pg)) in
      do! upd_page p (set_flags 0) in
      do! upd_page p (set_page_ref 0) in
      free_reset k (p + 1)
  end.

(** [while (order < MAX_ORDER) { ... }]: merge with free buddies. *)
Fixpoint free_merge (k : nat) (order page_idx zone : Z) : M pmm (Z * Z) :=
  if order <? MAX_ORDER then
    match k with
    | O => nofuel
    | S k =>
        let buddy_idx := Z.lxor page_idx (Z.shiftl 1 order) in
        let! buddy := idx2page zone buddy_idx in
        let! b := page_is_buddy buddy order zone in
        if b then
          do! nr_free_dec order in
          do! page_list_del buddy in
          do! upd_page buddy ClearPageProperty in
          free_merge k (order + 1) (Z.land page_idx buddy_idx) zone
        else ret (order, page_idx)
    end
  else ret (order, page_idx).

Definition buddy_free_pages_sub (base order : Z) : M pmm unit :=
  let! page_idx := page2idx base in
  do! assert_ (Z.land page_idx (Z.shiftl 1 order - 1) =? 0) in
  do! free_reset (Z.to_nat (Z.shiftl 1 order)) base in
  let! pg := rd_page base in
  let zone := zone_num pg in
  let! (order, page_idx) := free_merge (Z.to_nat (MAX_ORDER - order)) order page_idx zone in
  let! page := idx2page zone page_idx in
  do! upd_page page (set_property order) in
  do! upd_page page SetPageProperty in
  do! nr_free_inc order in
  free_list_add order page.

(** [while (n >= order_size) { ... }], the ascending half of
    [buddy_free_pages]. *)
Fixpoint free_up (fuel : nat) (base n order order_size : Z) : M pmm (Z * Z * Z * Z) :=
  if order_size <=? n then
    match fuel with
    | O => nofuel
    | S fuel =>
        do! assert_ (order <=? MAX_ORDER) in
        let! idx := page2idx base in
        if negb (Z.land idx order_size =? 0) then
          do! buddy_free_pages_sub base order in
          free_up fuel (base + order_size) (n - order_size) (order + 1) (Z.shiftl order_size 1)
        else free_up fuel base n (order + 1) (Z.shiftl order_size 1)
    end
  else ret (base, n, order, order_size).

(** [while (n < order_size) { order --; order_size >>= 1; }] *)
Fixpoint shrink (fuel : nat) (n order order_size : Z) : M pmm (Z * Z) :=
  if n <? order_size then
    match fuel with
    | O => nofuel
    | S fuel => shrink fuel n (order - 1) (Z.shiftr order_size 1)
    end
  else ret (order, order_size).

(** [while (n != 0) { ... }], the descending half. *)
Fixpoint free_down (fuel : nat) (base n order order_size : Z) : M pmm unit :=
  if n =? 0 then ret tt
  else match fuel with
  | O => nofuel
  | S fuel =>
      let! (order, order_size) := shrink (Z.to_nat (order + 1)) n order order_size in
      do! buddy_free_pages_sub base order in
      free_down fuel (base + order_size) (n - order_size) order order_size
  end.

Definition buddy_free_pages (base n : Z) : M pmm unit :=
  do! assert_ (0 <? n) in
  if n =? 1 then buddy_free_pages_sub base 0
  else
    let! (base, n, order, order_size) := free_up 12 base n 0 1 in
    free_down 12 base n order order_size.

(** The tail beyond the [n] requested pages goes back through [free_pages]. *)
Definition buddy_alloc_pages (n : Z) : M pmm (option Z) :=
  do! assert_ (0 <? n) in
  let! order := getorder n in
  let order_size := Z.shiftl 1 order in
  let! page := buddy_alloc_pages_sub order in
  match page with
  | Some page =>
      if negb (n =? order_size) then
        do! buddy_free_pages (page + n) (order_size - n) in ret (Some page)
      else ret (Some page)
  | None => ret None
  end.

Fixpoint nr_free_sum (k : nat) (order : Z) (s : pmm) : Z :=
  match k with
  | O => 0
  | S k => nrf s order * Z.shiftl 1 order + nr_free_sum k (order + 1) s
  end.
Definition buddy_nr_free_pages : M pmm Z := gets (fun s => u32 (nr_free_sum 11 0 s)).
