(* ===== verification/BuddyInv.v ===== *)
(** * Invariant of the buddy allocator

    The state invariant, the abstract view (the set of free pages) and the two
    elementary transitions every routine of buddy_pmm.c is made of: unlinking a
    block from its free list and linking a block into one. *)

From stdpp Require Import base gmap list.
From Stdlib Require Import ZArith Lia Bool.
From S2P Require Import Prelude.
From S2P Require Import Dlist.
From S2P Require Import Atomic.
From S2P Require Import Buddy.

(** Page [x] is managed by the allocator, in zone [z]. *)
Definition mgd (s : pmm) (z x : Z) : Prop :=
  exists pg, pages s !! x = Some pg /\ PageReserved pg = false /\ zone_num pg = z.

Definition in_blk (p k x : Z) : Prop := p <= x < p + 2 ^ k.

(** [2^k] managed pages from [p] on, in zone [z] with base [b], and aligned in
    the zone. *)
Definition blk_at (s : pmm) (z b p k : Z) : Prop :=
  zones s !! z = Some b /\ 0 <= b <= p /\ p + 2 ^ k <= npage s /\
  (p - b) mod 2 ^ k = 0 /\ forall x, in_blk p k x -> mgd s z x.

(** The abstract state: page [x] is free. *)
Definition is_free (s : pmm) (x : Z) : Prop :=
  exists k p, p ∈ flist s k /\ in_blk p k x.

Definition ref0 (s : pmm) (x : Z) : Prop := exists pg, pages s !! x = Some pg /\ ref pg = 0.

(** [p] heads a block of order [k]: the flag is set and [property] is [k]. *)
Definition is_head (s : pmm) (p k : Z) : Prop :=
  exists pg, pages s !! p = Some pg /\ PageProperty pg = true /\ property pg = k.

(** The invariant; pages in [D] are being detached by a running routine and may
    still carry the flag. *)
Record Inv (D : Z -> Prop) (s : pmm) : Prop := {
  i_npage : 0 <= npage s <= 1048576;
  i_pages : forall x, 0 <= x < npage s -> is_Some (pages s !! x);
  i_order : forall k p, p ∈ flist s k -> 0 <= k <= MAX_ORDER;
  i_block : forall k p, p ∈ flist s k -> exists z b, blk_at s z b p k;
  i_head : forall k p, p ∈ flist s k -> is_head s p k;
  i_ref : forall x, is_free s x -> ref0 s x;
  i_flag : forall p pg, pages s !! p = Some pg -> 0 <= p < npage s -> ~ D p ->
           PageReserved pg = false -> PageProperty pg = true -> p ∈ flist s (property pg);
  i_disj : forall j k p q x, p ∈ flist s j -> q ∈ flist s k ->
           in_blk p j x -> in_blk q k x -> p = q /\ j = k;
  i_nodup : forall k, NoDup (flist s k);
  i_nr : forall k, 0 <= k <= MAX_ORDER -> nrf s k = Z.of_nat (length (flist s k));
  (** no two free buddies: everything that can be merged is merged *)
  i_merged : forall k z b p q, 0 <= k < MAX_ORDER -> p ∈ flist s k -> q ∈ flist s k ->
           blk_at s z b p k -> mgd s z q -> q <> b + Z.lxor (p - b) (2 ^ k)
}.

Definition none : Z -> Prop := fun _ => False.

(** A block in the hands of a running routine: managed, unreferenced, in no
    free list. *)
Definition pend (s : pmm) (z b p k : Z) : Prop :=
  blk_at s z b p k /\ (forall x, in_blk p k x -> ref0 s x /\ ~ is_free s x).

(** The layout of physical memory, which no allocation changes. *)
Definition same_layout (s s' : pmm) : Prop :=
  npage s' = npage s /\ zones s' = zones s /\ zone_cnt s' = zone_cnt s /\
  forall z x, mgd s' z x <-> mgd s z x.

#[export] Instance same_layout_refl : Reflexive same_layout.
Proof. intros s. by split_and!. Qed.
#[export] Instance same_layout_sym : Symmetric same_layout.
Proof. intros s s' (?&?&?&Hm). unfold same_layout. split_and!; try done; intros; by rewrite Hm. Qed.
#[export] Instance same_layout_trans : Transitive same_layout.
Proof.
  intros s1 s2 s3 (?&?&?&Hm) (?&?&?&Hm'). split_and!; try congruence.
  intros z x. by rewrite Hm', Hm.
Qed.

Section Basics.
  Implicit Types (s : pmm) (D : Z -> Prop).

Lemma pow2_pos k : 0 <= k -> 0 < 2 ^ k.
Proof. intros. apply Z.pow_pos_nonneg; lia. Qed.

Lemma blk_at_layout s s' z b p k : same_layout s s' -> blk_at s z b p k -> blk_at s' z b p k.
Proof.
  intros (Hn&Hz&_&Hm) (?&?&?&?&Hx). unfold blk_at. rewrite Hn, Hz. split_and!; try done; try lia.
  intros x Hin. by apply Hm, Hx.
Qed.

Lemma blk_at_head s z b p k : 0 <= k -> blk_at s z b p k -> in_blk p k p.
Proof. intros Hk _. unfold in_blk. pose proof (pow2_pos k Hk). lia. Qed.

(** The zone of a block is the zone of any of its pages. *)
Lemma blk_at_zone s z b z' b' p k x :
  blk_at s z b p k -> in_blk p k x -> mgd s z' x -> zones s !! z' = Some b' -> z' = z /\ b' = b.
Proof.
  intros (Hz&_&_&_&Hm) Hx (pg&Hp&_&<-) Hz'. destruct (Hm x Hx) as (pg'&Hp'&_&<-).
  simplify_eq. split; congruence.
Qed.

Lemma free_in_range D s x : Inv D s -> is_free s x -> 0 <= x < npage s.
Proof.
  intros HI (k&p&Hp&Hx). destruct (i_block D s HI k p Hp) as (z&b&?&?&?&?&?).
  unfold in_blk in Hx. lia.
Qed.

Lemma free_mgd D s x : Inv D s -> is_free s x -> exists z, mgd s z x.
Proof.
  intros HI (k&p&Hp&Hx). destruct (i_block D s HI k p Hp) as (z&b&?&?&?&?&Hm). eauto.
Qed.

Lemma head_free D s k p : Inv D s -> p ∈ flist s k -> is_free s p.
Proof.
  intros HI Hp. exists k, p. split; [done|]. unfold in_blk.
  pose proof (i_order D s HI k p Hp). pose proof (pow2_pos k). lia.
Qed.

(** A list of distinct page numbers is at most as long as memory. *)
Lemma length_bound (l : list Z) n :
  NoDup l -> (forall x, x ∈ l -> 0 <= x < n) -> Z.of_nat (length l) <= Z.max 0 n.
Proof.
  intros Hnd Hr. assert (l ⊆+ seqZ 0 n) as Hs.
  { apply NoDup_submseteq; [done|]. intros x Hx%Hr. apply elem_of_seqZ. lia. }
  apply submseteq_length in Hs. rewrite length_seqZ in Hs. lia.
Qed.

Lemma flist_length D s k : Inv D s -> Z.of_nat (length (flist s k)) <= npage s.
Proof.
  intros HI. pose proof (i_npage D s HI). rewrite length_bound with (n := npage s); [lia|apply (i_nodup D s HI)|].
  intros x Hx. eapply free_in_range; [done|]. by eapply head_free.
Qed.

(** Reading the metadata of an unflagged page. *)
Lemma not_free_unflagged s x pg :
  Inv none s -> pages s !! x = Some pg -> 0 <= x < npage s -> PageReserved pg = false ->
  ~ is_free s x -> PageProperty pg = false.
Proof.
  intros HI Hp Hr Hres Hf. apply not_true_is_false. intros Ht. apply Hf.
  eapply head_free; [done|]. eapply (i_flag none s HI); eauto.
Qed.

Lemma Inv_weaken (D D' : Z -> Prop) s : (forall x, D x -> D' x) -> Inv D s -> Inv D' s.
Proof. intros HD []. constructor; auto. Qed.
End Basics.

(** ** Changes that keep the free lists *)

(** Only the metadata that the allocator does not interpret changes: the flags
    that matter, order and zone stay, and so do the references of free pages. *)
Definition page_sim (s : pmm) (x : Z) (pg pg' : Page) : Prop :=
  PageReserved pg' = PageReserved pg /\ PageProperty pg' = PageProperty pg /\
  property pg' = property pg /\ zone_num pg' = zone_num pg /\
  (is_free s x -> ref pg' = ref pg).

Definition same_lists (s s' : pmm) : Prop :=
  npage s' = npage s /\ zones s' = zones s /\ zone_cnt s' = zone_cnt s /\
  (forall k, flist s' k = flist s k) /\ (forall k, nrf s' k = nrf s k).

Section Sim.
  Context (D : Z -> Prop) (s s' : pmm).
Hypothesis Hl : same_lists s s'.
Hypothesis Hs : forall x pg', pages s' !! x = Some pg' ->
  exists pg, pages s !! x = Some pg /\ page_sim s x pg pg'.
Hypothesis Hs' : forall x, is_Some (pages s !! x) -> is_Some (pages s' !! x).

Lemma sim_back x pg : pages s !! x = Some pg ->
  exists pg', pages s' !! x = Some pg' /\ page_sim s x pg pg'.
Proof.
  intros Hp. destruct (Hs' x) as [pg' Hp']; [eauto|]. exists pg'. split; [done|].
  destruct (Hs x pg' Hp') as (pg2&?&?). by simplify_eq.
Qed.

Lemma sim_free x : is_free s' x <-> is_free s x.
Proof.
  destruct Hl as (_&_&_&Hf&_). unfold is_free. split; intros (k&p&Hp&?); exists k, p; [rewrite Hf in Hp|rewrite Hf]; done.
Qed.

Lemma sim_layout : same_layout s s'.
Proof.
  destruct Hl as (?&?&?&_&_). split_and!; try done. intros z x. split.
  - intros (pg'&Hp&?&?). destruct (Hs _ _ Hp) as (pg&?&?&?&?&?&?). exists pg. split_and!; congruence.
  - intros (pg&Hp&?&?). destruct (sim_back _ _ Hp) as (pg'&?&?&?&?&?&?). exists pg'. split_and!; congruence.
Qed.

Lemma Inv_sim : Inv D s -> Inv D s'.
Proof.
  intros HI. pose proof Hl as (Hn&Hz&_&Hf&Hr). pose proof sim_layout as Hlay.
  assert (Hlay' : same_layout s' s) by (by symmetry).
  constructor.
  - rewrite Hn. apply HI.
  - rewrite Hn. intros x Hx. apply Hs', HI, Hx.
  - intros k p. rewrite Hf. apply HI.
  - intros k p. rewrite Hf. intros (z&b&?)%(i_block D s HI). eauto using blk_at_layout.
  - intros k p. rewrite Hf. intros (pg&Hp&?&?)%(i_head D s HI).
    destruct (sim_back _ _ Hp) as (pg'&?&?&?&?&?&?). exists pg'. split_and!; congruence.
  - intros x Hx%sim_free. destruct (i_ref D s HI x Hx) as (pg&Hp&?).
    destruct (sim_back _ _ Hp) as (pg'&?&?&?&?&?&Hrf). exists pg'. split; [done|]. rewrite Hrf; done.
  - intros p pg' Hp Hr' HD Hre Hpr. rewrite Hn in Hr'. destruct (Hs _ _ Hp) as (pg&?&?&?&Hpp&?&?).
    rewrite Hf, Hpp. eapply (i_flag D s HI); try done; congruence.
  - intros j k p q x. rewrite !Hf. apply (i_disj D s HI).
  - intros k. rewrite Hf. apply HI.
  - intros k Hk. rewrite Hf, Hr. by apply (i_nr D s HI).
  - intros k z b p q Hk. rewrite !Hf. intros Hp Hq Hb Hm. eapply (i_merged D s HI); eauto using blk_at_layout.
    by apply Hlay.
Qed.
End Sim.

(** ** Unlinking a block *)

Section Remove.
  Context (D : Z -> Prop) (s s' : pmm) (p k : Z).
Hypothesis HI : Inv D s.
Hypothesis Hp : p ∈ flist s k.
Hypothesis Hpg : pages s' = pages s.
Hypothesis Hn : npage s' = npage s.
Hypothesis Hz : zones s' = zones s.
Hypothesis Hf : forall j, flist s' j = ldel p (flist s j).
Hypothesis Hnr : forall j, nrf s' j = if decide (j = k) then u32 (nrf s k - 1) else nrf s j.

Lemma remove_in j q : q ∈ flist s' j <-> q ∈ flist s j /\ q <> p.
Proof. rewrite Hf. apply elem_of_ldel. Qed.

Lemma remove_only j : p ∈ flist s j -> j = k.
Proof.
  intros Hj. assert (in_blk p j p /\ in_blk p k p) as [? ?].
  { unfold in_blk. pose proof (i_order D s HI j p Hj). pose proof (i_order D s HI k p Hp).
    pose proof (pow2_pos j). pose proof (pow2_pos k). lia. }
  by destruct (i_disj D s HI j k p p p).
Qed.

Lemma remove_free x : is_free s' x <-> is_free s x /\ ~ in_blk p k x.
Proof.
  split.
  - intros (j&q&[Hq Hne]%remove_in&Hx). split; [by exists j, q|]. intros Hx'.
    by destruct (i_disj D s HI j k q p x).
  - intros [(j&q&Hq&Hx) Hnx]. exists j, q. split; [|done]. apply remove_in. split; [done|].
    intros ->. apply remove_only in Hq as ->. done.
Qed.

Lemma remove_layout : zone_cnt s' = zone_cnt s -> same_layout s s'.
Proof. intros Hc. split_and!; try done. intros z x. unfold mgd. by rewrite Hpg. Qed.

Lemma remove_nr j : 0 <= j <= MAX_ORDER ->
  nrf s' j = if decide (j = k) then nrf s k - 1 else nrf s j.
Proof.
  intros Hj. rewrite Hnr. case_decide as Hc; [subst j|done].
  rewrite (i_nr D s HI) by done. apply u32_small. unfold is_u32, W32.
  pose proof (flist_length D s k HI). pose proof (i_npage D s HI).
  destruct (flist s k); [by apply elem_of_nil in Hp|]. cbn [length] in *. lia.
Qed.

Lemma Inv_remove : zone_cnt s' = zone_cnt s -> Inv (fun x => D x \/ x = p) s'.
Proof.
  intros Hc. pose proof (remove_layout Hc) as Hlay.
  assert (Hb : forall z b q j, blk_at s' z b q j -> blk_at s z b q j).
  { intros z b q j. unfold blk_at, mgd. by rewrite Hn, Hz, Hpg. }
  constructor.
  - rewrite Hn. apply HI.
  - rewrite Hn, Hpg. apply HI.
  - intros j q [Hq _]%remove_in. by apply (i_order D s HI j q).
  - intros j q [(z&b&?)%(i_block D s HI) _]%remove_in. eauto using blk_at_layout.
  - intros j q [Hq%(i_head D s HI) _]%remove_in. unfold is_head. by rewrite Hpg.
  - intros x [Hx _]%remove_free. unfold ref0. rewrite Hpg. by apply (i_ref D s HI).
  - intros q pg. rewrite Hpg, Hn. intros Hq Hr HD ??. apply remove_in.
    split; [|intros ->; apply HD; by right]. apply (i_flag D s HI); auto.
  - intros i j q r x [? _]%remove_in [? _]%remove_in. by apply (i_disj D s HI).
  - intros j. rewrite Hf. apply NoDup_ldel, HI.
  - intros j Hj. rewrite remove_nr by done. rewrite Hf. case_decide as Hjk.
    + subst j. rewrite (i_nr D s HI) by done. by rewrite length_ldel by (done || apply HI).
    + rewrite (i_nr D s HI) by done. rewrite ldel_notin; [done|]. intros ?%remove_only. done.
  - intros j z b q r Hj [? _]%remove_in [? _]%remove_in ?%Hb Hm. eapply (i_merged D s HI); eauto.
    by apply Hlay.
Qed.

Lemma remove_pend z b : zone_cnt s' = zone_cnt s -> blk_at s z b p k -> pend s' z b p k.
Proof.
  intros Hc Hb. pose proof (remove_layout Hc). split; [by eapply blk_at_layout|]. intros x Hx. split.
  - unfold ref0. rewrite Hpg. apply (i_ref D s HI). by exists k, p.
  - intros [_ ?]%remove_free. done.
Qed.
End Remove.

(** ** Linking a block *)

(** Page [p] becomes the head of a block of order [k]. *)
Definition headed (s s' : pmm) (p k : Z) : Prop :=
  exists pg pg', pages s !! p = Some pg /\ pages s' = <[p := pg']> (pages s) /\
    PageReserved pg' = PageReserved pg /\ PageProperty pg' = true /\ property pg' = k /\
    zone_num pg' = zone_num pg /\ ref pg' = ref pg.

Section Add.
  Context (D : Z -> Prop) (s s' : pmm) (z b p k : Z).
Hypothesis HI : Inv D s.
Hypothesis Hk : 0 <= k <= MAX_ORDER.
Hypothesis Hpend : pend s z b p k.
Hypothesis Hpg : headed s s' p k.
Hypothesis Hn : npage s' = npage s.
Hypothesis Hz : zones s' = zones s.
Hypothesis Hc : zone_cnt s' = zone_cnt s.
Hypothesis Hf : forall j, flist s' j = if decide (j = k) then p :: flist s k else flist s j.
Hypothesis Hnr : forall j, nrf s' j = if decide (j = k) then u32 (nrf s k + 1) else nrf s j.
Hypothesis Hnb : k < MAX_ORDER -> forall q, q ∈ flist s k -> mgd s z q -> q <> b + Z.lxor (p - b) (2 ^ k).

Lemma add_in j q : q ∈ flist s' j <-> q ∈ flist s j \/ q = p /\ j = k.
Proof.
  rewrite Hf. case_decide as Hj; [subst; rewrite elem_of_cons; tauto|]. split; [auto|]. intros [?|[? ?]]; done.
Qed.

Lemma add_free x : is_free s' x <-> is_free s x \/ in_blk p k x.
Proof.
  split.
  - intros (j&q&[Hq|[-> ->]]%add_in&Hx); [left; by exists j, q|by right].
  - intros [(j&q&Hq&Hx)|Hx]; [exists j, q|exists k, p]; rewrite add_in; auto.
Qed.

Lemma add_layout : same_layout s s'.
Proof.
  split_and!; try done. intros y x. destruct Hpg as (pg&pg'&Hp&Hpgs&?&?&?&?&?). unfold mgd. rewrite Hpgs.
  destruct (decide (x = p)) as [->|].
  - rewrite lookup_insert_eq. split; intros (g&Hg&?&?); simplify_eq; eexists; split_and!; eauto; congruence.
  - by rewrite lookup_insert_ne.
Qed.

Lemma add_fresh : ~ is_free s p.
Proof. destruct Hpend as [Hb Hx]. apply Hx. eapply blk_at_head; [lia|done]. Qed.

Lemma add_nodup j : NoDup (flist s' j).
Proof.
  rewrite Hf. case_decide; [|apply HI]. apply NoDup_cons. split; [|apply HI].
  intros Hin. apply add_fresh. by eapply head_free.
Qed.

Lemma add_nr j : 0 <= j <= MAX_ORDER -> nrf s' j = if decide (j = k) then nrf s k + 1 else nrf s j.
Proof.
  intros Hj. rewrite Hnr. case_decide as Hjk; [subst j|done].
  rewrite (i_nr D s HI) by done. apply u32_small. unfold is_u32, W32.
  pose proof (flist_length D s k HI). pose proof (i_npage D s HI). lia.
Qed.

Lemma add_blk_back y c q j : blk_at s' y c q j -> blk_at s y c q j.
Proof.
  apply blk_at_layout. symmetry. apply add_layout.
Qed.

Lemma add_merged y c q r j :
  0 <= j < MAX_ORDER -> q ∈ flist s' j -> r ∈ flist s' j ->
  blk_at s' y c q j -> mgd s' y r -> r <> c + Z.lxor (q - c) (2 ^ j).
Proof.
  intros Hj Hq Hr Hb%add_blk_back Hm. apply (proj2 (proj2 (proj2 add_layout))) in Hm.
  destruct Hpend as [Hbp _].
  apply add_in in Hq as [Hq|[-> ->]], Hr as [Hr|[-> Hjk]].
  - by eapply (i_merged D s HI).
  - subst j. intros Heq.
    destruct (blk_at_zone s z b y c p k p Hbp) as [-> ->]; [eapply blk_at_head; [lia|done]|done|apply Hb|].
    eapply Hnb; [lia|exact Hq| |].
    { apply Hb. eapply blk_at_head; [lia|done]. }
    rewrite Heq. replace (b + Z.lxor (q - b) (2 ^ k) - b) with (Z.lxor (q - b) (2 ^ k)) by lia.
    rewrite lxor_pow2_involutive. lia.
  - destruct (blk_at_zone s z b y c p k p Hbp) as [-> ->]; [eapply blk_at_head; [lia|done]| |apply Hb|].
    { apply Hb. eapply blk_at_head; [lia|done]. }
    apply Hnb; [lia|done|done].
  - intros Heq. assert (Z.lxor (p - c) (2 ^ k) = p - c) as Hx by lia.
    rewrite lxor_pow2 in Hx by lia. pose proof (pow2_pos k). destruct (Z.testbit _ _); lia.
Qed.

Lemma Inv_add : Inv D s'.
Proof.
  pose proof add_layout as Hlay. pose proof Hpend as [Hb Hx]. pose proof Hpg as (pg&pg'&Hp&Hpgs&?&?&?&?&?).
  assert (Hother : forall x, x <> p -> pages s' !! x = pages s !! x)
    by (intros x ?; rewrite Hpgs; by rewrite lookup_insert_ne).
  assert (Hself : pages s' !! p = Some pg') by (rewrite Hpgs; apply lookup_insert_eq).
  constructor.
  - rewrite Hn. apply HI.
  - rewrite Hn. intros x Hr. destruct (decide (x = p)) as [->|]; [eauto|].
    rewrite Hother by done. by apply HI.
  - intros j q [Hq|[-> ->]]%add_in; [by apply (i_order D s HI j q)|done].
  - intros j q [(y&c&?)%(i_block D s HI)|[-> ->]]%add_in; eauto using blk_at_layout.
  - intros j q [Hq|[-> ->]]%add_in; [|by exists pg'].
    assert (q <> p) by (intros ->; apply add_fresh; by eapply head_free).
    destruct (i_head D s HI _ _ Hq) as (g&?&?&?). exists g. by rewrite Hother.
  - intros x Hfx. assert (ref0 s x) as (g&Hg&Href).
    { apply add_free in Hfx as [?|?]; [by apply (i_ref D s HI)|by apply Hx]. }
    destruct (decide (x = p)) as [->|]; [|exists g; by rewrite Hother].
    exists pg'. split; [done|]. congruence.
  - intros q g Hq Hr HD ??. apply add_in. destruct (decide (q = p)) as [->|].
    + right. split; congruence.
    + left. rewrite Hother in Hq by done. rewrite Hn in Hr. by apply (i_flag D s HI).
  - intros i j q r x Hq Hr Hxi Hxj. apply add_in in Hq as [Hq|[-> ->]], Hr as [Hr|[-> ->]].
    + by apply (i_disj D s HI i j q r x).
    + exfalso. apply (Hx x); [done|]. by exists i, q.
    + exfalso. apply (Hx x); [done|]. by exists j, r.
    + done.
  - apply add_nodup.
  - intros j Hj. rewrite add_nr by done. rewrite Hf. case_decide; [|by apply (i_nr D s HI)].
    subst. rewrite (i_nr D s HI) by done. cbn [length]. lia.
  - intros j y c q r Hj. by apply add_merged.
Qed.
End Add.

(** ** Dropping the flag of a detached page *)

Section Clear.
  Context (D : Z -> Prop) (s s' : pmm) (p : Z) (pg : Page).
Hypothesis HI : Inv (fun x => D x \/ x = p) s.
Hypothesis Hp : pages s !! p = Some pg.
Hypothesis Hnf : ~ is_free s p.
Hypothesis Hpg : pages s' = <[p := ClearPageProperty pg]> (pages s).
Hypothesis Hl : same_lists s s'.

Lemma clear_page_flags :
  PageReserved (ClearPageProperty pg) = PageReserved pg /\ PageProperty (ClearPageProperty pg) = false.
Proof.
  unfold PageReserved, PageProperty, ClearPageProperty, PG_reserved, PG_property. cbn [flags set_flags].
  autorewrite with bits. done.
Qed.

Lemma clear_layout : same_layout s s'.
Proof.
  destruct Hl as (?&?&?&_&_). split_and!; try done. intros z x. unfold mgd. rewrite Hpg.
  destruct clear_page_flags as [Hr _]. destruct (decide (x = p)) as [->|]; [|by rewrite lookup_insert_ne].
  rewrite lookup_insert_eq, Hp. split; intros (g&[= <-]&?&?); eexists; split_and!; eauto; congruence.
Qed.

Lemma clear_free x : is_free s' x <-> is_free s x.
Proof. by apply sim_free. Qed.

Lemma Inv_clear : Inv D s'.
Proof.
  pose proof Hl as (Hn&Hz&_&Hf&Hr). pose proof clear_layout as Hlay.
  assert (Hother : forall x, x <> p -> pages s' !! x = pages s !! x)
    by (intros x ?; rewrite Hpg; by rewrite lookup_insert_ne).
  assert (Hself : pages s' !! p = Some (ClearPageProperty pg)) by (rewrite Hpg; apply lookup_insert_eq).
  assert (Hne : forall k q, q ∈ flist s k -> q <> p).
  { intros k q Hq ->. apply Hnf. by eapply head_free. }
  constructor.
  - rewrite Hn. apply HI.
  - rewrite Hn. intros x Hx. destruct (decide (x = p)) as [->|]; [eauto|].
    rewrite Hother by done. by apply HI.
  - intros k q. rewrite Hf. apply HI.
  - intros k q. rewrite Hf. intros (z&b&?)%(i_block _ s HI). eauto using blk_at_layout.
  - intros k q. rewrite Hf. intros Hq. unfold is_head. rewrite Hother by eauto. by apply (i_head _ s HI).
  - intros x Hx%clear_free. unfold ref0. rewrite Hother; [by apply (i_ref _ s HI)|].
    by intros ->.
  - intros q g Hq Hrg HD Hres Hprop. rewrite Hn in Hrg. destruct (decide (q = p)) as [->|Hqp].
    + rewrite Hself in Hq. injection Hq as <-. destruct clear_page_flags. congruence.
    + rewrite Hother in Hq by done. rewrite Hf. eapply (i_flag _ s HI); eauto. tauto.
  - intros i j q r x. rewrite !Hf. apply (i_disj _ s HI).
  - intros k. rewrite Hf. apply HI.
  - intros k Hk. rewrite Hf, Hr. by apply (i_nr _ s HI).
  - intros k z b q r Hk. rewrite !Hf. intros Hq Hr' Hb Hm. eapply (i_merged _ s HI); eauto.
    + eapply blk_at_layout; [|done]. by symmetry.
    + by apply Hlay.
Qed.
End Clear.

(** ** The number of free pages *)

Definition tot (s : pmm) : Z := nr_free_sum 11 0 s.

Lemma nr_free_sum_change s s' k c n o :
  (forall j, nrf s' j = if decide (j = k) then nrf s k + c else nrf s j) \/
  (forall j, o <= j < o + Z.of_nat n -> nrf s' j = if decide (j = k) then nrf s k + c else nrf s j) ->
  nr_free_sum n o s' = nr_free_sum n o s + if decide (o <= k < o + Z.of_nat n) then c * 2 ^ k else 0.
Proof.
  intros H. assert (forall j, o <= j < o + Z.of_nat n -> nrf s' j = if decide (j = k) then nrf s k + c else nrf s j)
    as Hj by (destruct H; auto). clear H.
  revert o Hj. induction n as [|n IH]; intros o Hj; cbn [nr_free_sum].
  - rewrite decide_False by lia. lia.
  - rewrite IH by (intros; apply Hj; lia). rewrite Hj by lia. rewrite Z.shiftl_1_l.
    repeat case_decide; subst; lia.
Qed.

Lemma tot_change s s' k c :
  0 <= k <= MAX_ORDER ->
  (forall j, 0 <= j <= MAX_ORDER -> nrf s' j = if decide (j = k) then nrf s k + c else nrf s j) ->
  tot s' = tot s + c * 2 ^ k.
Proof.
  unfold MAX_ORDER. intros Hk H. unfold tot. rewrite (nr_free_sum_change s s' k c).
  - rewrite decide_True by lia. lia.
  - right. intros j Hj. apply H. lia.
Qed.

Lemma tot_same s s' : (forall k, nrf s' k = nrf s k) -> tot s' = tot s.
Proof. intros H. unfold tot. cbn. by rewrite !H. Qed.

Lemma nr_free_sum_nonneg D s n o :
  Inv D s -> 0 <= o -> o + Z.of_nat n <= MAX_ORDER + 1 -> 0 <= nr_free_sum n o s.
Proof.
  intros HI. revert o. induction n as [|n IH]; intros o Ho Hn; cbn [nr_free_sum]; [lia|].
  rewrite (i_nr D s HI), Z.shiftl_1_l by lia. pose proof (pow2_pos o Ho). specialize (IH (o + 1)). nia.
Qed.
