(* ===== verification/BuddyOps.v ===== *)
(** * Correctness of the buddy routines

    Total-correctness triples for the routines of buddy_pmm.c over the
    invariant of BuddyInv.v, and the theorems on the exported operations. *)

From stdpp Require Import base gmap list.
From Stdlib Require Import ZArith Lia Bool.
From S2P Require Import Prelude.
From S2P Require Import Dlist.
From S2P Require Import Atomic.
From S2P Require Import Buddy.
From S2P Require Import BuddyInv.

(** ** Elementary steps *)

Lemma rd_page_runs p s pg (Q : Page -> pmm -> Prop) :
  pages s !! p = Some pg -> Q pg s -> runs (rd_page p) s Q.
Proof. intros Hp HQ. unfold rd_page. runs_steps. by eapply runs_deref. Qed.

Lemma upd_page_runs p f s pg (Q : unit -> pmm -> Prop) :
  pages s !! p = Some pg -> Q tt (upd_pages (fun m => <[p := f pg]> m) s) -> runs (upd_page p f) s Q.
Proof. intros Hp HQ. unfold upd_page. runs_steps. eapply rd_page_runs; [done|]. by runs_steps. Qed.

(** Linking page [p] (with descriptor [pg]) into the free list of order [k]. *)
Definition link (s : pmm) (p k : Z) (pg : Page) : pmm :=
  mkPmm (<[p := SetPageProperty (set_property k pg)]> (<[p := set_property k pg]> (pages s)))
        (npage s) (<[k := p :: flist s k]> (free_list s))
        (<[k := u32 (nrf s k + 1)]> (nr_free s)) (zones s) (zone_cnt s).

Definition unlink (s : pmm) (p k : Z) : pmm :=
  mkPmm (pages s) (npage s) (ldel p <$> free_list s)
        (<[k := u32 (nrf s k - 1)]> (nr_free s)) (zones s) (zone_cnt s).

Section Link.
  Implicit Types (s : pmm).

Lemma link_runs s p k pg (m : M pmm unit) (Q : unit -> pmm -> Prop) :
  pages s !! p = Some pg -> runs m (link s p k pg) Q ->
  runs (do! upd_page p (set_property k) in do! upd_page p SetPageProperty in
        do! nr_free_inc k in do! free_list_add k p in m) s Q.
Proof.
  intros Hp Hm. runs_steps. eapply upd_page_runs; [done|]. runs_steps.
  eapply upd_page_runs; [cbn; apply lookup_insert_eq|]. exact Hm.
Qed.

Lemma link_runs_last s p k pg (Q : unit -> pmm -> Prop) :
  pages s !! p = Some pg -> Q tt (link s p k pg) ->
  runs (do! upd_page p (set_property k) in do! upd_page p SetPageProperty in
        do! nr_free_inc k in free_list_add k p) s Q.
Proof.
  intros Hp Hm. runs_steps. eapply upd_page_runs; [done|]. runs_steps.
  eapply upd_page_runs; [cbn; apply lookup_insert_eq|]. exact Hm.
Qed.

Lemma flist_link s p k pg j :
  flist (link s p k pg) j = if decide (j = k) then p :: flist s k else flist s j.
Proof.
  unfold flist, link. cbn. rewrite lookup_insert. repeat case_decide; by subst.
Qed.

Lemma nrf_link s p k pg j :
  nrf (link s p k pg) j = if decide (j = k) then u32 (nrf s k + 1) else nrf s j.
Proof. unfold nrf, link. cbn. rewrite lookup_insert. repeat case_decide; by subst. Qed.

Lemma flist_unlink s p k j : flist (unlink s p k) j = ldel p (flist s j).
Proof. unfold flist, unlink. cbn. rewrite lookup_fmap. by destruct (free_list s !! j). Qed.

Lemma nrf_unlink s p k j :
  nrf (unlink s p k) j = if decide (j = k) then u32 (nrf s k - 1) else nrf s j.
Proof. unfold nrf, unlink. cbn. rewrite lookup_insert. repeat case_decide; by subst. Qed.

Lemma head_flags k pg :
  PageReserved (SetPageProperty (set_property k pg)) = PageReserved pg /\
  PageProperty (SetPageProperty (set_property k pg)) = true.
Proof.
  unfold PageReserved, PageProperty, SetPageProperty, set_flags, set_property, PG_reserved, PG_property.
  cbn [flags]. autorewrite with bits. done.
Qed.

Lemma link_headed s p k pg : pages s !! p = Some pg -> headed s (link s p k pg) p k.
Proof.
  intros Hp. destruct (head_flags k pg). exists pg, (SetPageProperty (set_property k pg)).
  split_and!; try done. cbn. by rewrite insert_insert_eq.
Qed.

(** No free block of order [k] is the buddy of [p]. *)
Definition no_buddy s z b p k : Prop :=
  k < MAX_ORDER -> forall q, q ∈ flist s k -> mgd s z q -> q <> b + Z.lxor (p - b) (2 ^ k).

Lemma link_spec D s z b p k pg :
  Inv D s -> 0 <= k <= MAX_ORDER -> pend s z b p k -> pages s !! p = Some pg -> no_buddy s z b p k ->
  Inv D (link s p k pg) /\ same_layout s (link s p k pg) /\
  (forall x, is_free (link s p k pg) x <-> is_free s x \/ in_blk p k x) /\
  tot (link s p k pg) = tot s + 2 ^ k /\
  (forall x, x <> p -> pages (link s p k pg) !! x = pages s !! x).
Proof.
  intros HI Hk Hpe Hp Hnb. split_and!.
  - eapply (Inv_add D s _ z b p k); try done; eauto using flist_link, nrf_link, link_headed.
  - eapply (add_layout s _ z b p k); try done; eauto using flist_link, nrf_link, link_headed.
  - intros x. eapply add_free; try done; eauto using flist_link.
  - rewrite (tot_change s (link s p k pg) k 1); [lia|done|].
    intros j Hj. eapply (add_nr D s _ k); try done; eauto using nrf_link.
  - intros x ?. cbn. by rewrite !lookup_insert_ne.
Qed.

Lemma unlink_spec D s p k z b :
  Inv D s -> p ∈ flist s k -> blk_at s z b p k ->
  Inv (fun x => D x \/ x = p) (unlink s p k) /\ same_layout s (unlink s p k) /\
  pend (unlink s p k) z b p k /\
  (forall x, is_free (unlink s p k) x <-> is_free s x /\ ~ in_blk p k x) /\
  tot (unlink s p k) = tot s - 2 ^ k.
Proof.
  intros HI Hp Hb. pose proof (i_order D s HI k p Hp) as Hk. split_and!.
  - eapply (Inv_remove D s _ p k); try done; eauto using flist_unlink, nrf_unlink.
  - by eapply remove_layout.
  - eapply (remove_pend D s _ p k); try done; eauto using flist_unlink.
  - intros x. eapply remove_free; try done; eauto using flist_unlink.
  - rewrite (tot_change s (unlink s p k) k (-1)); [lia|done|].
    intros j Hj. erewrite (remove_nr D s _ p k); try done; eauto using nrf_unlink.
Qed.
End Link.

(** ** Merging and freeing one block *)

(** What a routine that frees the pages [P], [c] of them, achieves. *)
Definition freed (s s' : pmm) (P : Z -> Prop) (c : Z) : Prop :=
  Inv none s' /\ same_layout s s' /\
  (forall x, is_free s' x <-> is_free s x \/ P x) /\
  tot s' = tot s + c /\
  (forall x, ~ is_free s x -> ~ P x -> pages s' !! x = pages s !! x).

Section Free.
  Implicit Types (s : pmm).

Lemma freed_trans s1 s2 s3 P Q R c d :
  freed s1 s2 P c -> freed s2 s3 Q d -> (forall x, R x <-> P x \/ Q x) -> freed s1 s3 R (c + d).
Proof.
  intros (?&?&F1&T1&U1) (?&?&F2&T2&U2) HR. split_and!; [done|by etrans| | |].
  - intros x. rewrite F2, F1, HR. tauto.
  - lia.
  - intros x Hf Hx. rewrite HR in Hx. rewrite U2, U1; [done|tauto|tauto|rewrite F1; tauto|tauto].
Qed.

Definition reset_page (pg : Page) : Page := set_page_ref 0 (set_flags 0 pg).

Lemma free_reset_runs n p s :
  (forall x, p <= x < p + Z.of_nat n -> exists pg, pages s !! x = Some pg /\
      PageReserved pg = false /\ PageProperty pg = false) ->
  runs (free_reset n p) s (fun _ s' => exists m, s' = upd_pages (fun _ => m) s /\
    forall x, m !! x = if decide (p <= x < p + Z.of_nat n) then reset_page <$> pages s !! x else pages s !! x).
Proof.
  revert p s. induction n as [|n IH]; intros p s Hx; cbn [free_reset].
  - runs_steps. exists (pages s). split; [by destruct s|]. intros x. by rewrite decide_False by lia.
  - destruct (Hx p) as (pg&Hp&Hr&Hf); [lia|]. runs_steps. eapply rd_page_runs; [done|]. runs_steps.
    apply runs_assert; [by rewrite Hr, Hf|]. runs_steps. eapply upd_page_runs; [done|]. runs_steps.
    eapply upd_page_runs; [cbn; apply lookup_insert_eq|].
    eapply runs_mono; [apply IH|].
    + intros x Hxr. destruct (Hx x) as (g&?&?&?); [lia|]. exists g. cbn.
      by rewrite !lookup_insert_ne by lia.
    + cbn. intros _ s' (m&->&Hm). exists m. split; [done|]. intros x. rewrite Hm.
      destruct (decide (x = p)) as [->|].
      * rewrite decide_False, decide_True by lia. rewrite lookup_insert_eq, Hp. done.
      * rewrite !lookup_insert_ne by done. repeat case_decide; try done; lia.
Qed.

(** A block and its buddy together are the block of the next order. *)
Lemma merge_blocks s z b idx k :
  0 <= k -> 0 <= idx -> blk_at s z b (b + idx) k -> blk_at s z b (b + Z.lxor idx (2 ^ k)) k ->
  blk_at s z b (b + Z.land idx (Z.lxor idx (2 ^ k))) (k + 1) /\
  0 <= Z.land idx (Z.lxor idx (2 ^ k)) /\
  forall x, in_blk (b + Z.land idx (Z.lxor idx (2 ^ k))) (k + 1) x <->
    in_blk (b + idx) k x \/ in_blk (b + Z.lxor idx (2 ^ k)) k x.
Proof.
  intros Hk Hi (Hz&Hb&He&Ha&Hm) (_&Hb2&He2&Ha2&Hm2).
  replace (b + idx - b) with idx in Ha by lia.
  pose proof (aligned_next idx k Hk Ha) as Hal.
  rewrite land_flip, lxor_pow2 in * by done.
  assert (Hin : forall x, in_blk (b + (if Z.testbit idx k then idx - 2 ^ k else idx)) (k + 1) x <->
    in_blk (b + idx) k x \/ in_blk (b + (if Z.testbit idx k then idx - 2 ^ k else idx + 2 ^ k)) k x).
  { intros x. unfold in_blk. rewrite Z.pow_add_r, Z.pow_1_r by lia. pose proof (pow2_pos k Hk).
    destruct (Z.testbit idx k); lia. }
  split_and!; [|destruct (Z.testbit idx k); lia|exact Hin].
  unfold blk_at. rewrite Z.pow_add_r, Z.pow_1_r in * by lia. pose proof (pow2_pos k Hk).
  split_and!; try done; try (destruct (Z.testbit idx k); lia).
  - rewrite Z.add_simpl_l. destruct (Z.testbit idx k); [|done]. rewrite Zminus_mod, Hal.
    rewrite (Z.mod_small (2 ^ k)) by lia. rewrite Z.sub_diag. apply Z.mod_0_l. lia.
  - intros x [?|?]%Hin; auto.
Qed.

Lemma page_is_buddy_runs s z b q k :
  Inv none s -> 0 <= q < W32 - 1 -> zones s !! z = Some b ->
  runs (page_is_buddy q k z) s (fun r s' => s' = s /\
    (r = true -> q ∈ flist s k /\ mgd s z q) /\
    (r = false -> ~ (q ∈ flist s k /\ mgd s z q))).
Proof.
  intros HI Hq Hz. unfold page_is_buddy. runs_steps. rewrite u32_small by (unfold is_u32, W32 in *; lia).
  destruct (Z.ltb_spec q (npage s)) as [Hlt|Hge].
  - destruct (i_pages none s HI q ltac:(lia)) as [pg Hp]. runs_steps. eapply rd_page_runs; [done|].
    destruct (Z.eqb_spec (zone_num pg) z) as [Hzn|Hzn]; runs_steps; (split; [done|]).
    + split.
      * rewrite !andb_true_iff, negb_true_iff, Z.eqb_eq. intros [[Hr Hf] Ho]. subst k. split.
        -- apply (i_flag none s HI); auto. lia.
        -- by exists pg.
      * intros Hfalse [Hin (g&Hg&Hr&_)]. simplify_eq. destruct (i_head none s HI k q Hin) as (g&?&Hf&Ho).
        simplify_eq. rewrite Hr, Hf, Z.eqb_refl in Hfalse. done.
    + split; [done|]. intros _ [_ (g&Hg&_&?)]. by simplify_eq.
  - runs_steps. split; [done|]. split; [done|]. intros _ [Hin _].
    assert (0 <= q < npage s) by (eapply free_in_range; [done|by eapply head_free]). lia.
Qed.
End Free.

Section FreeSub.
  Implicit Types (s : pmm).

(** Taking the free buddy out of its list and dropping its flag. *)
Definition detach (s : pmm) (q k : Z) (pg : Page) : pmm :=
  upd_pages (fun m => <[q := ClearPageProperty pg]> m) (unlink s q k).

Lemma detach_spec s q k z b pg :
  Inv none s -> q ∈ flist s k -> blk_at s z b q k -> pages s !! q = Some pg ->
  Inv none (detach s q k pg) /\ same_layout s (detach s q k pg) /\ pend (detach s q k pg) z b q k /\
  (forall x, is_free (detach s q k pg) x <-> is_free s x /\ ~ in_blk q k x) /\
  tot (detach s q k pg) = tot s - 2 ^ k /\
  (forall x, x <> q -> pages (detach s q k pg) !! x = pages s !! x).
Proof.
  intros HI Hq Hb Hp. destruct (unlink_spec none s q k z b HI Hq Hb) as (HI1&HL1&HP1&HF1&HT1).
  assert (Hk : 0 <= k) by (pose proof (i_order none s HI k q Hq); lia).
  assert (Hnf : ~ is_free (unlink s q k) q).
  { rewrite HF1. intros [_ H]. apply H. by eapply blk_at_head. }
  assert (Hsl : same_lists (unlink s q k) (detach s q k pg)) by (by split_and!).
  assert (HL : same_layout (unlink s q k) (detach s q k pg)) by (by eapply clear_layout).
  assert (HF : forall x, is_free (detach s q k pg) x <-> is_free (unlink s q k) x)
    by (intros x; by apply sim_free).
  split_and!.
  - by eapply (Inv_clear none).
  - by etrans.
  - destruct HP1 as [? Hx]. split; [by eapply blk_at_layout|]. intros x Hxb.
    destruct (Hx x Hxb) as [(g&Hg&?) ?]. rewrite HF. split; [|done].
    destruct (decide (x = q)) as [->|].
    + exists (ClearPageProperty pg). split; [apply lookup_insert_eq|]. cbn in Hg. by simplify_eq.
    + exists g. split; [|done]. cbn. by rewrite lookup_insert_ne.
  - intros x. by rewrite HF.
  - done.
  - intros x ?. cbn. by rewrite lookup_insert_ne.
Qed.

Definition merged_to (s s' : pmm) (z b p k p' k' : Z) : Prop :=
  Inv none s' /\ same_layout s s' /\ pend s' z b p' k' /\ no_buddy s' z b p' k' /\
  k <= k' <= MAX_ORDER /\
  (forall x, is_free s' x \/ in_blk p' k' x <-> is_free s x \/ in_blk p k x) /\
  tot s' + 2 ^ k' = tot s + 2 ^ k /\
  (forall x, ~ is_free s x -> pages s' !! x = pages s !! x).

Lemma free_merge_runs n s z b idx k :
  Inv none s -> pend s z b (b + idx) k -> 0 <= k <= MAX_ORDER -> 0 <= idx ->
  MAX_ORDER - k <= Z.of_nat n ->
  runs (free_merge n k idx z) s (fun r s' =>
    0 <= snd r /\ merged_to s s' z b (b + idx) k (b + snd r) (fst r)).
Proof.
  revert s idx k. induction n as [|n IH]; intros s idx k HI Hpe Hk Hi Hn.
  - cbn [free_merge]. assert (k = MAX_ORDER) as -> by lia. rewrite Z.ltb_irrefl. runs_steps. cbn.
    split; [done|]. unfold merged_to. split_and!; try done; try lia.
  - cbn [free_merge]. destruct (Z.ltb_spec k MAX_ORDER) as [Hlt|Hge].
    + rewrite Z.shiftl_1_l. pose proof Hpe as [Hb Hpx]. pose proof Hb as (Hz&Hbb&He&Hal&_).
      rewrite Z.add_simpl_l in Hal. pose proof (i_npage none s HI) as Hnp.
      set (bi := Z.lxor idx (2 ^ k)). pose proof (pow2_pos k ltac:(lia)).
      assert (Hbi : 0 <= bi /\ b + bi <= 2 * npage s).
      { pose proof (aligned_next idx k ltac:(lia) Hal) as Ha1. unfold bi. rewrite lxor_pow2 by lia.
        destruct (Z.testbit idx k) eqn:Hbit; [|lia]. split; [|lia].
        destruct (Z.eq_dec idx 0) as [->|]; [by rewrite Z.bits_0 in Hbit|].
        pose proof (Z.div_mod idx (2 ^ k) ltac:(lia)). assert (0 < idx / 2 ^ k) by nia. nia. }
      runs_steps. unfold idx2page at 1. runs_steps. eapply runs_deref; [exact Hz|]. runs_steps.
      eapply runs_mono; [apply (page_is_buddy_runs s z b (b + bi) k HI); [unfold W32; lia|done]|].
      intros r ? (->&Htrue&Hfalse). destruct r.
      * destruct (Htrue eq_refl) as [Hq Hm].
        destruct (i_block none s HI k (b + bi) Hq) as (z'&b'&Hqb).
        destruct (blk_at_zone s z' b' z b (b + bi) k (b + bi) Hqb) as [<- <-]; try done.
        { eapply blk_at_head; [lia|done]. }
        destruct (i_head none s HI k (b + bi) Hq) as (pg&Hpg&_).
        destruct (detach_spec s (b + bi) k z b pg HI Hq Hqb Hpg) as (HI1&HL1&HP1&HF1&HT1&HU1).
        unfold nr_free_dec, page_list_del. runs_steps. eapply upd_page_runs; [exact Hpg|].
        change (upd_pages _ _) with (detach s (b + bi) k pg).
        destruct (merge_blocks (detach s (b + bi) k pg) z b idx k) as (Hb'&Hi'&Hin');
          [lia|done|by eapply blk_at_layout|by eapply blk_at_layout|].
        fold bi in Hb', Hi', Hin'.
        assert (pend (detach s (b + bi) k pg) z b (b + Z.land idx bi) (k + 1)) as Hpe1.
        { split; [done|]. intros x [Hx|Hx]%Hin'; [|by apply HP1].
          destruct (Hpx x Hx) as [(g&Hg&?) Hnf]. rewrite HF1. split; [|by intros [? _]].
          exists g. split; [|done]. rewrite HU1; [done|]. intros ->. apply Hnf. by eapply head_free. }
        eapply runs_mono; [apply (IH (detach s (b + bi) k pg) (Z.land idx bi) (k + 1)); [done|done|unfold MAX_ORDER in *; lia|done|lia]|].
        intros [k' i'] s' (Hi2&HI2&HL2&HP2&HN2&Hk2&HF2&HT2&HU2). cbn [fst snd] in *.
        split; [done|]. unfold merged_to. split_and!; try done; try lia.
        -- by etrans.
        -- intros x. rewrite HF2, HF1, Hin'. split.
           ++ intros [[? _]|[?|?]]; auto. left. by exists k, (b + bi).
           ++ intros [Hfx|?]; [|tauto].
              assert (in_blk (b + bi) k x \/ ~ in_blk (b + bi) k x) as [?|?] by (unfold in_blk; lia); tauto.
        -- rewrite Z.pow_add_r, Z.pow_1_r in HT2 by lia. lia.
        -- intros x Hx. rewrite HU2, HU1; [done| |rewrite HF1; tauto].
           intros ->. apply Hx. by eapply head_free.
      * runs_steps. cbn [fst snd]. split; [done|]. unfold merged_to. split_and!; try done; try lia.
        intros _ q Hq Hmq. rewrite Z.add_simpl_l. intros ->. by apply (Hfalse eq_refl).
    + assert (k = MAX_ORDER) as -> by lia. runs_steps. cbn.
      split; [done|]. unfold merged_to. split_and!; try done; try lia.
Qed.
End FreeSub.

Section FreePages.
  Implicit Types (s : pmm).

Lemma page2idx_runs s z b p k (Q : Z -> pmm -> Prop) :
  Inv none s -> 0 <= k -> blk_at s z b p k -> Q (p - b) s -> runs (page2idx p) s Q.
Proof.
  intros HI Hk Hb HQ. pose proof Hb as (Hz&?&?&_&Hm).
  destruct (Hm p) as (pg&Hp&_&<-); [by eapply blk_at_head|]. pose proof (i_npage none s HI).
  pose proof (pow2_pos k Hk).
  unfold page2idx. runs_steps. eapply rd_page_runs; [done|]. runs_steps.
  eapply runs_deref; [done|]. runs_steps. rewrite u32_small; [done|]. unfold is_u32, W32. lia.
Qed.

Lemma land_mask a k : 0 <= k -> Z.land a (Z.shiftl 1 k - 1) = a mod 2 ^ k.
Proof. intros. rewrite Z.shiftl_1_l, <- Z.land_ones, Z.ones_equiv by done. f_equal. Qed.

(** Resetting the descriptors of a block that is not free keeps the
    invariant and makes the block ready to be linked. *)
Lemma reset_pend s z b p k m :
  Inv none s -> 0 <= k -> blk_at s z b p k -> (forall x, in_blk p k x -> ~ is_free s x) ->
  (forall x, m !! x = if decide (p <= x < p + Z.of_nat (Z.to_nat (2 ^ k)))
                      then reset_page <$> pages s !! x else pages s !! x) ->
  let s' := upd_pages (fun _ => m) s in
  Inv none s' /\ pend s' z b p k /\ same_layout s s' /\
  (forall x, is_free s' x <-> is_free s x) /\
  (forall x, ~ in_blk p k x -> pages s' !! x = pages s !! x).
Proof.
  intros HI Hk Hb Hnf Hm s'. pose proof (pow2_pos k Hk). rewrite Z2Nat.id in Hm by lia.
  assert (Hl : same_lists s s') by done.
  assert (Hpg : forall x, in_blk p k x -> exists pg, pages s !! x = Some pg /\
            PageReserved pg = false /\ PageProperty pg = false).
  { intros x Hx. pose proof Hb as (_&?&?&_&Hmg). destruct (Hmg x Hx) as (pg&Hp&Hr&_).
    exists pg. split_and!; auto. eapply not_free_unflagged; eauto. unfold in_blk in Hx. lia. }
  assert (Hs : forall x pg', pages s' !! x = Some pg' ->
     exists pg, pages s !! x = Some pg /\ page_sim s x pg pg').
  { intros x pg'. cbn. rewrite Hm. case_decide as Hx; [|intros Hp; exists pg'; by split].
    destruct (Hpg x Hx) as (pg&Hp&Hr&Hf). rewrite Hp. intros [= <-]. exists pg. split; [done|].
    unfold page_sim. rewrite Hr, Hf. split_and!; try done. by intros ?%(Hnf x Hx). }
  assert (Hs' : forall x, is_Some (pages s !! x) -> is_Some (pages s' !! x)).
  { intros x [pg Hp]. cbn. rewrite Hm. case_decide; [rewrite Hp|]; eauto. }
  assert (HL : same_layout s s') by (by apply sim_layout).
  split_and!; auto.
  - by eapply Inv_sim.
  - split; [by eapply blk_at_layout|]. intros x Hx. split.
    + destruct (Hpg x Hx) as (pg&Hp&_). exists (reset_page pg). cbn. rewrite Hm, decide_True by done. by rewrite Hp.
    + rewrite (sim_free s s') by done. by apply Hnf.
  - intros x Hx. cbn. rewrite Hm. by rewrite decide_False.
Qed.

Lemma free_sub_runs s z b p k :
  Inv none s -> 0 <= k <= MAX_ORDER -> blk_at s z b p k -> (forall x, in_blk p k x -> ~ is_free s x) ->
  runs (buddy_free_pages_sub p k) s (fun _ s' => freed s s' (in_blk p k) (2 ^ k)).
Proof.
  intros HI Hk Hb Hnf. pose proof (pow2_pos k ltac:(lia)). unfold buddy_free_pages_sub. runs_steps.
  eapply page2idx_runs; [done| |done|]; [lia|]. runs_steps. pose proof Hb as (_&Hbb&He&Hal&Hmg).
  apply runs_assert; [rewrite land_mask, Hal by lia; done|]. runs_steps. rewrite Z.shiftl_1_l.
  eapply runs_mono.
  { apply free_reset_runs. rewrite Z2Nat.id by lia. intros x Hx. destruct (Hmg x Hx) as (pg&Hp&Hr&_).
    exists pg. split_and!; auto. eapply not_free_unflagged; eauto. lia. }
  cbn beta. intros _ ? (m&->&Hm).
  destruct (reset_pend s z b p k m) as (HI1&HP1&HL1&HF1&HU1); try done; [lia|].
  set (s1 := upd_pages _ s) in *. runs_steps.
  assert (in_blk p k p) as Hpp by (eapply blk_at_head; [lia|done]).
  pose proof HP1 as [(_&_&_&_&Hmg1) _]. destruct (Hmg1 p Hpp) as (pg&Hp&_&Hzn).
  eapply rd_page_runs; [done|]. rewrite Hzn. runs_steps.
  eapply runs_mono; [apply (free_merge_runs _ s1 z b (p - b) k)|]; try done; try lia.
  { by replace (b + (p - b)) with p by lia. }
  replace (b + (p - b)) with p by lia.
  intros [k' i'] s2 (Hi2&HI2&HL2&HP2&HN2&Hk2&HF2&HT2&HU2). cbn [fst snd] in *.
  unfold idx2page. runs_steps. eapply runs_deref; [apply HP2|]. runs_step.
  pose proof HP2 as [Hb2 Hx2]. assert (in_blk (b + i') k' (b + i')) as Hhd by (eapply blk_at_head; [lia|done]).
  destruct (Hx2 _ Hhd) as [(pg2&Hp2&_) _].
  eapply link_runs_last; [exact Hp2|].
  destruct (link_spec none s2 z b (b + i') k' pg2) as (HI3&HL3&HF3&HT3&HU3); try done; [lia|].
  split_and!; [done|by do 2 (etrans; [eassumption|])| | |].
  - intros x. rewrite HF3, HF2, HF1. done.
  - rewrite HT3, <- (tot_same s s1) by done. lia.
  - intros x Hfx Hx. rewrite HU3, HU2, HU1; try done.
    intros ->. destruct (proj1 (HF2 (b + i'))) as [H'|H']; [by right| |done]. by apply HF1 in H'.
Qed.

(** A run of [n] managed pages of zone [z] from [p] on. *)
Definition run_at s z b p n : Prop :=
  zones s !! z = Some b /\ 0 <= b <= p /\ p + n <= npage s /\ forall x, p <= x < p + n -> mgd s z x.

Lemma run_at_layout s s' z b p n : same_layout s s' -> run_at s z b p n -> run_at s' z b p n.
Proof.
  intros (Hn&Hz&_&Hm) (?&?&?&Hx). unfold run_at. rewrite Hn, Hz. split_and!; try done; try lia.
  intros x Hin. by apply Hm, Hx.
Qed.

Lemma run_at_blk s z b p n k :
  0 <= k -> 2 ^ k <= n -> (p - b) mod 2 ^ k = 0 -> run_at s z b p n -> blk_at s z b p k.
Proof.
  intros Hk Hn Ha (?&?&?&Hm). unfold blk_at, in_blk. split_and!; try done; try lia.
  intros x Hx. apply Hm. lia.
Qed.

Lemma run_at_tail s z b p n c : 0 <= c <= n -> run_at s z b p n -> run_at s z b (p + c) (n - c).
Proof. intros Hc (?&?&?&Hm). unfold run_at. split_and!; try done; try lia. intros x Hx. apply Hm. lia. Qed.

Definition in_run (p n x : Z) : Prop := p <= x < p + n.

Lemma freed_none s p : Inv none s -> freed s s (in_run p 0) 0.
Proof. intros HI. unfold freed, in_run. split_and!; try done; try lia; intros x; lia || (split; [auto|intros [?|?]; [done|lia]]). Qed.
End FreePages.

Section FreeRuns.
  Implicit Types (s : pmm).

Lemma freed_run s1 s2 s3 p n m :
  0 <= m <= n -> freed s1 s2 (in_run p m) m -> freed s2 s3 (in_run (p + m) (n - m)) (n - m) ->
  freed s1 s3 (in_run p n) n.
Proof.
  intros Hm H1 H2. replace n with (m + (n - m)) at 2 by lia.
  eapply freed_trans; [exact H1|exact H2|]. intros x. unfold in_run. lia.
Qed.

Lemma aligned_step d k : 0 <= k -> d mod 2 ^ k = 0 -> Z.testbit d k = true -> (d + 2 ^ k) mod 2 ^ (k + 1) = 0.
Proof.
  intros Hk Ha Hb. pose proof (aligned_next d k Hk Ha) as H. rewrite Hb in H. pose proof (pow2_pos k Hk).
  rewrite Zplus_mod, H, Z.pow_add_r, Z.pow_1_r by lia. rewrite (Z.mod_small (2 ^ k)) by lia.
  replace (2 ^ k + 2 ^ k) with (2 ^ k * 2) by lia. apply Z.mod_same. lia.
Qed.

Lemma aligned_add d k : 0 <= k -> d mod 2 ^ k = 0 -> (d + 2 ^ k) mod 2 ^ k = 0.
Proof.
  intros Hk Ha. pose proof (pow2_pos k Hk). rewrite <- Zplus_mod_idemp_l, Ha. apply Z.mod_same. lia.
Qed.

Lemma free_up_runs f s z b p n k :
  Inv none s -> run_at s z b p n -> (forall x, in_run p n x -> ~ is_free s x) ->
  0 <= n < 2 ^ 11 -> 0 <= k <= 11 -> (p - b) mod 2 ^ k = 0 -> 11 - k <= Z.of_nat f ->
  runs (free_up f p n k (2 ^ k)) s (fun r s' =>
    let '(p', n', k', sz) := r in
    freed s s' (in_run p (n - n')) (n - n') /\ p' = p + (n - n') /\ 0 <= n' <= n /\
    0 <= k' <= 11 /\ sz = 2 ^ k' /\ n' < 2 ^ k' /\ (p' - b) mod 2 ^ k' = 0).
Proof.
  revert s p n k. induction f as [|f IH]; intros s p n k HI Hr Hnf Hn Hk Ha Hf; cbn [free_up].
  - assert (k = 11) as -> by lia. destruct (Z.leb_spec (2 ^ 11) n) as [|Hlt]; [lia|]. runs_steps.
    rewrite Z.sub_diag, Z.add_0_r. split_and!; try done; try lia. by apply freed_none.
  - destruct (Z.leb_spec (2 ^ k) n) as [Hle|Hlt].
    + assert (k < 11) as Hk11 by (apply (Z.pow_lt_mono_r_iff 2); lia).
      pose proof (run_at_blk s z b p n k ltac:(lia) Hle Ha Hr) as Hb.
      pose proof (pow2_pos k ltac:(lia)) as Hpos.
      runs_steps. apply runs_assert; [apply Z.leb_le; unfold MAX_ORDER; lia|]. runs_steps.
      eapply page2idx_runs; [done| |exact Hb|]; [lia|].
      rewrite <- Z.shiftl_1_l at 1. fold (test_bit k (p - b)). rewrite test_bit_spec by lia.
      replace (Z.shiftl (2 ^ k) 1) with (2 ^ (k + 1)) by (rewrite Z.shiftl_mul_pow2, Z.pow_add_r by lia; lia).
      destruct (Z.testbit (p - b) k) eqn:Hbit.
      * runs_steps. eapply runs_mono.
        { apply (free_sub_runs s z b p k HI); [unfold MAX_ORDER; lia|done|].
          intros x Hx. apply Hnf. unfold in_run, in_blk in *. lia. }
        cbn beta. intros _ s1 Hfr. pose proof Hfr as (HI1&HL1&HF1&_&_).
        eapply runs_mono.
        { apply (IH s1 (p + 2 ^ k) (n - 2 ^ k) (k + 1)); try done; try lia.
          - eapply run_at_layout; [done|]. apply run_at_tail; [lia|done].
          - intros x Hx Hx1. apply HF1 in Hx1 as [Hx1|Hx1]; [apply (Hnf x); [|done]|]; unfold in_run, in_blk in *; lia.
          - replace (p + 2 ^ k - b) with ((p - b) + 2 ^ k) by lia. by apply aligned_step; [lia| |]. }
        intros [[[p' n'] k'] sz] s' (Hfr2&->&?&?&->&?&Ha'). split_and!; try done; try lia.
        -- eapply (freed_run s s1 s' p (n - n') (2 ^ k)); [lia|exact Hfr|].
           replace (n - n' - 2 ^ k) with (n - 2 ^ k - n') by lia. done.
      * eapply runs_mono; [apply (IH s p n (k + 1)); try done; try lia|].
        -- rewrite (aligned_next (p - b) k) by (done || lia). by rewrite Hbit.
        -- done.
    + runs_steps. rewrite Z.sub_diag, Z.add_0_r. split_and!; try done; try lia.
      by apply freed_none.
Qed.
End FreeRuns.

Section FreeDown.
  Implicit Types (s : pmm).

Lemma shrink_runs f s n k :
  0 <= k -> 1 <= n < 2 ^ k -> k <= Z.of_nat f ->
  runs (shrink f n k (2 ^ k)) s (fun r s' => s' = s /\
    0 <= fst r < k /\ snd r = 2 ^ fst r /\ 2 ^ fst r <= n < 2 ^ (fst r + 1)).
Proof.
  revert k. induction f as [|f IH]; intros k Hk Hn Hf; cbn [shrink].
  - assert (k = 0) as -> by lia. change (2 ^ 0) with 1 in *. lia.
  - destruct (Z.ltb_spec n (2 ^ k)) as [_|]; [|lia].
    assert (0 < k) as Hk0. { destruct (Z.eq_dec k 0) as [->|]; [change (2 ^ 0) with 1 in *; lia|lia]. }
    replace (Z.shiftr (2 ^ k) 1) with (2 ^ (k - 1)).
    2:{ rewrite Z.shiftr_div_pow2 by lia. replace k with (k - 1 + 1) at 2 by lia.
        rewrite Z.pow_add_r by lia. by rewrite Z.div_mul by lia. }
    destruct (Z.ltb_spec n (2 ^ (k - 1))) as [Hlt|Hge].
    + eapply runs_mono; [apply IH; lia|]. cbn beta. intros [o sz] s' (->&?&?&?). cbn [fst snd] in *.
      split_and!; done || lia.
    + destruct f as [|f]; cbn [shrink]; rewrite (proj2 (Z.ltb_ge _ _) Hge); runs_steps; cbn [fst snd];
        replace (k - 1 + 1) with k by lia; split_and!; done || lia.
Qed.

Lemma free_down_runs f s z b p n k sz :
  Inv none s -> run_at s z b p n -> (forall x, in_run p n x -> ~ is_free s x) ->
  sz = 2 ^ k -> 0 <= k <= 11 -> 0 <= n < 2 ^ k -> (p - b) mod 2 ^ k = 0 -> k < Z.of_nat f ->
  runs (free_down f p n k sz) s (fun _ s' => freed s s' (in_run p n) n).
Proof.
  intros HI Hr Hnf -> Hk Hn Ha Hf. revert s p n k HI Hr Hnf Hk Hn Ha Hf.
  induction f as [|f IH]; intros s p n k HI Hr Hnf Hk Hn Ha Hf; [lia|]. cbn [free_down].
  destruct (Z.eqb_spec n 0) as [->|Hn0].
  - runs_steps. by apply freed_none.
  - runs_steps. eapply runs_mono; [apply (shrink_runs _ s n k); lia|]. cbn beta.
    intros [o sz] ? (->&Ho&Hsz&Hno). cbn [fst snd] in *. subst sz. pose proof (pow2_pos o ltac:(lia)) as Hpos.
    rewrite Z.pow_add_r in Hno by lia.
    assert ((p - b) mod 2 ^ o = 0) as Hao by (apply (aligned_down _ o k); [lia|done]).
    runs_steps. eapply runs_mono.
    { apply (free_sub_runs s z b p o HI); [unfold MAX_ORDER; lia| |].
      - eapply run_at_blk; eauto; lia.
      - intros x Hx. apply Hnf. unfold in_run, in_blk in *. lia. }
    cbn beta. intros _ s1 Hfr. pose proof Hfr as (HI1&HL1&HF1&_&_).
    eapply runs_mono.
    { apply (IH s1 (p + 2 ^ o) (n - 2 ^ o) o); try done; try lia.
      - eapply run_at_layout; [done|]. apply run_at_tail; [lia|done].
      - intros x Hx Hx1. apply HF1 in Hx1 as [Hx1|Hx1]; [apply (Hnf x); [|done]|]; unfold in_run, in_blk in *; lia.
      - replace (p + 2 ^ o - b) with ((p - b) + 2 ^ o) by lia. by apply aligned_add; [lia|]. }
    cbn beta. intros _ s2 Hfr2. eapply (freed_run s s1 s2 p n (2 ^ o)); [lia|exact Hfr|exact Hfr2].
Qed.

Lemma buddy_free_pages_runs s z b p n :
  Inv none s -> run_at s z b p n -> (forall x, in_run p n x -> ~ is_free s x) -> 0 < n < 2 ^ 11 ->
  runs (buddy_free_pages p n) s (fun _ s' => freed s s' (in_run p n) n).
Proof.
  intros HI Hr Hnf Hn. unfold buddy_free_pages. runs_steps.
  apply runs_assert; [apply Z.ltb_lt; lia|]. destruct (Z.eqb_spec n 1) as [->|Hn1].
  - eapply runs_mono.
    { apply (free_sub_runs s z b p 0 HI); [done| |].
      - eapply run_at_blk; eauto; [lia|done|]. apply Z.mod_1_r.
      - intros x Hx. apply Hnf. exact Hx. }
    cbn beta. intros _ s' Hfr. exact Hfr.
  - runs_steps. change (free_up 12 p n 0 1) with (free_up 12 p n 0 (2 ^ 0)). eapply runs_mono.
    { apply (free_up_runs 12 s z b p n 0); try done; try lia. apply Z.mod_1_r. }
    cbn beta. intros [[[p' n'] k'] sz] s1 (Hfr&->&?&?&->&?&?). pose proof Hfr as (HI1&HL1&HF1&_&_).
    eapply runs_mono.
    { apply (free_down_runs 12 s1 z b (p + (n - n')) n' k' (2 ^ k')); try done; try lia.
      - eapply run_at_layout; [done|]. replace n' with (n - (n - n')) at 2 by lia.
        apply run_at_tail; [lia|done].
      - intros x Hx Hx1. apply HF1 in Hx1 as [Hx1|Hx1]; [apply (Hnf x); [|done]|]; unfold in_run in *; lia. }
    cbn beta. intros _ s2 Hfr2. eapply (freed_run s s1 s2 p n (n - n')); [lia|exact Hfr|].
    by replace (n - (n - n')) with n' by lia.
Qed.
End FreeDown.

(** ** Allocation *)

(** What a routine that hands out the pages [P], [c] of them, achieves. *)
Definition taken (s s' : pmm) (P : Z -> Prop) (c : Z) : Prop :=
  Inv none s' /\ same_layout s s' /\
  (forall x, P x -> is_free s x) /\
  (forall x, is_free s' x <-> is_free s x /\ ~ P x) /\
  tot s' = tot s - c /\
  (forall x, P x -> ref0 s' x) /\
  (forall x, ~ is_free s x -> pages s' !! x = pages s !! x).

Section Alloc.
  Implicit Types (s : pmm).

(** The first half of a pending block stays pending when the second half is
    linked. *)
Lemma split_step D s z b p k pg :
  Inv D s -> D p -> 0 <= k < MAX_ORDER -> pend s z b p (k + 1) -> pages s !! (p + 2 ^ k) = Some pg ->
  let s' := link s (p + 2 ^ k) k pg in
  Inv D s' /\ same_layout s s' /\ pend s' z b p k /\
  (forall x, is_free s' x <-> is_free s x \/ in_blk (p + 2 ^ k) k x) /\
  tot s' = tot s + 2 ^ k /\ (forall x, x <> p + 2 ^ k -> pages s' !! x = pages s !! x).
Proof.
  intros HI HD Hk [Hb Hx] Hp s'. pose proof (pow2_pos k ltac:(lia)) as Hpos.
  pose proof Hb as (Hz&Hbp&He&Ha&Hm).
  assert (Hal : (p - b) mod 2 ^ k = 0) by (apply (aligned_down _ k (k + 1)); [lia|done]).
  assert (Hbit : Z.testbit (p - b) k = false).
  { pose proof (aligned_next (p - b) k ltac:(lia) Hal) as H. rewrite Ha in H. destruct (Z.testbit _ _); [lia|done]. }
  assert (Hsub : forall x, in_blk p k x \/ in_blk (p + 2 ^ k) k x <-> in_blk p (k + 1) x).
  { intros x. unfold in_blk. rewrite Z.pow_add_r, Z.pow_1_r by lia. lia. }
  rewrite Z.pow_add_r, Z.pow_1_r in He by lia.
  assert (Hpe2 : pend s z b (p + 2 ^ k) k).
  { split; [|intros x ?; apply Hx, Hsub; auto]. unfold blk_at. split_and!; try done; try lia.
    - replace (p + 2 ^ k - b) with ((p - b) + 2 ^ k) by lia. apply aligned_add; [lia|done].
    - intros x ?. apply Hm, Hsub. auto. }
  assert (Hnb : no_buddy s z b (p + 2 ^ k) k).
  { intros _ q Hq _ ->. replace (p + 2 ^ k - b) with ((p - b) + 2 ^ k) in Hq by lia.
    assert (Z.lxor (p - b + 2 ^ k) (2 ^ k) = p - b) as Heq.
    { pose proof (lxor_pow2 (p - b) k ltac:(lia)) as Hfl. rewrite Hbit in Hfl.
      rewrite <- Hfl. apply lxor_pow2_involutive. }
    rewrite Heq in Hq. replace (b + (p - b)) with p in Hq by lia.
    apply (Hx p); [apply Hsub; left; unfold in_blk; lia|]. by eapply head_free. }
  destruct (link_spec D s z b (p + 2 ^ k) k pg) as (HI1&HL1&HF1&HT1&HU1); try done; [lia|].
  fold s' in HI1, HL1, HF1, HT1, HU1. split_and!; try done. split.
  - eapply blk_at_layout; [done|]. unfold blk_at. split_and!; try done; try lia.
    intros x ?. apply Hm, Hsub. auto.
  - intros x Hxk. destruct (Hx x) as [(g&Hg&?) Hnf]; [apply Hsub; auto|]. split.
    + exists g. split; [|done]. rewrite HU1; [done|]. unfold in_blk in Hxk. lia.
    + rewrite HF1. intros [?|?]; [done|]. unfold in_blk in *. lia.
Qed.

Lemma alloc_split_runs D f s z b p cur k :
  Inv D s -> D p -> pend s z b p cur -> 0 <= k <= cur -> cur <= MAX_ORDER -> cur - k <= Z.of_nat f ->
  runs (alloc_split f p cur k (2 ^ cur)) s (fun _ s' =>
    Inv D s' /\ same_layout s s' /\ pend s' z b p k /\
    (forall x, is_free s' x <-> is_free s x \/ in_run (p + 2 ^ k) (2 ^ cur - 2 ^ k) x) /\
    tot s' = tot s + (2 ^ cur - 2 ^ k) /\
    (forall x, ~ in_run (p + 2 ^ k) (2 ^ cur - 2 ^ k) x -> pages s' !! x = pages s !! x)).
Proof.
  revert s cur. induction f as [|f IH]; intros s cur HI HD Hpe Hk Hc Hf.
  - assert (cur = k) as -> by lia. cbn [alloc_split]. rewrite Z.ltb_irrefl. runs_steps.
    split_and!; try done; try lia.
      intros x. unfold in_run. split; [auto|]. intros [?|?]; [done|lia].
  - cbn [alloc_split]. destruct (Z.ltb_spec k cur) as [Hlt|Hge].
    + replace (Z.shiftr (2 ^ cur) 1) with (2 ^ (cur - 1)).
      2:{ rewrite Z.shiftr_div_pow2 by lia. replace cur with (cur - 1 + 1) at 2 by lia.
          rewrite Z.pow_add_r by lia. by rewrite Z.div_mul by lia. }
      assert (Hpow : 2 ^ cur = 2 * 2 ^ (cur - 1)) by (rewrite <- Z.pow_succ_r by lia; f_equal; lia).
      pose proof (pow2_pos (cur - 1) ltac:(lia)) as Hpos. pose proof (pow2_pos k ltac:(lia)).
      assert (2 ^ k <= 2 ^ (cur - 1)) by (apply Z.pow_le_mono_r; lia).
      pose proof Hpe as [(_&_&_&_&Hm) _].
      destruct (Hm (p + 2 ^ (cur - 1))) as (pg&Hp&_&_); [unfold in_blk; lia|].
      replace cur with (cur - 1 + 1) in Hpe by lia.
      destruct (split_step D s z b p (cur - 1) pg HI HD ltac:(lia) Hpe Hp) as (HI1&HL1&HP1&HF1&HT1&HU1).
      eapply link_runs; [exact Hp|]. set (s1 := link s _ _ _) in *.
      eapply runs_mono; [apply (IH s1 (cur - 1)); done || lia|]. cbn beta.
      intros _ s2 (HI2&HL2&HP2&HF2&HT2&HU2). split_and!; try done.
      * by etrans.
      * intros x. rewrite HF2, HF1. unfold in_run, in_blk.
        split; [intros [[?|?]|?]; auto; right; lia|]. intros [?|?]; [auto|].
        assert (x < p + 2 ^ (cur - 1) \/ p + 2 ^ (cur - 1) <= x) as [?|?] by lia; [right|left; right]; lia.
      * lia.
      * intros x Hx. rewrite HU2, HU1; [done| |]; unfold in_run in *; lia.
    + assert (cur = k) as -> by lia. runs_steps. split_and!; try done; try lia.
      intros x. unfold in_run. split; [auto|]. intros [?|?]; [done|lia].
Qed.

(** Allocation of one block: either no block of order [>= k] is free, or the
    first one found is cut down to order [k]. *)
Lemma alloc_search_runs n s cur k :
  Inv none s -> 0 <= k <= cur -> cur + Z.of_nat n = MAX_ORDER + 1 ->
  (forall j, k <= j < cur -> flist s j = []) ->
  runs (alloc_search n cur k) s (fun r s' =>
    match r with
    | None => s' = s /\ forall j, k <= j -> flist s j = []
    | Some p => taken s s' (in_blk p k) (2 ^ k) /\ exists z b, blk_at s' z b p k
    end).
Proof.
  revert cur. induction n as [|n IH]; intros cur HI Hk Hn Hemp; cbn [alloc_search].
  - runs_steps. split; [done|]. intros j Hj. destruct (decide (j < cur)); [apply Hemp; lia|].
    destruct (flist s j) as [|q l] eqn:Hl; [done|].
    assert (0 <= j <= MAX_ORDER) by (apply (i_order none s HI j q); rewrite Hl; constructor). lia.
  - runs_steps. destruct (flist s cur) as [|p l] eqn:Hl.
    + apply IH; try done; try lia. intros j Hj. destruct (decide (j = cur)) as [->|]; [done|]. apply Hemp. lia.
    + assert (p ∈ flist s cur) as Hin by (rewrite Hl; constructor).
      destruct (i_block none s HI cur p Hin) as (z&b&Hb).
      destruct (i_head none s HI cur p Hin) as (pg&Hp&_).
      destruct (unlink_spec none s p cur z b HI Hin Hb) as (HI1&HL1&HP1&HF1&HT1).
      unfold nr_free_dec, page_list_del. runs_steps.
      change (upd_lists _ _) with (unlink s p cur). rewrite Z.shiftl_1_l.
      eapply runs_mono.
      { apply (alloc_split_runs (fun x => none x \/ x = p) _ (unlink s p cur) z b p cur k); try done; try lia. }
      cbn beta. intros _ s2 (HI2&HL2&HP2&HF2&HT2&HU2). pose proof (pow2_pos k ltac:(lia)).
      assert (2 ^ k <= 2 ^ cur) by (apply Z.pow_le_mono_r; lia).
      assert (pages s2 !! p = Some pg) as Hp2 by (rewrite HU2; [done|unfold in_run; lia]).
      assert (in_blk p k p) as Hpp by (unfold in_blk; lia).
      pose proof HP2 as [Hb2 Hx2]. runs_steps. eapply upd_page_runs; [exact Hp2|]. set (s3 := upd_pages _ s2).
      assert (same_lists s2 s3) as Hsl by done.
      assert (Inv none s3) as HI3 by (eapply (Inv_clear none s2 s3 p pg); try done; by apply Hx2).
      assert (same_layout s2 s3) as HL3 by (by eapply (clear_layout s2 s3 p pg)).
      runs_steps. split; [|exists z, b; by eapply blk_at_layout].
      split_and!; [done|by do 2 (etrans; [eassumption|])| | | | |].
      * intros x Hx. exists cur, p. split; [done|]. unfold in_blk in *. lia.
      * intros x. rewrite (sim_free s2 s3), HF2, HF1 by done. unfold in_blk, in_run. split.
        -- intros [[? ?]|Hx]; [split; [done|lia]|]. split; [|lia]. exists cur, p. split; [done|]. unfold in_blk. lia.
        -- intros [? ?]. assert (x < p \/ p + 2 ^ cur <= x \/ p + 2 ^ k <= x < p + 2 ^ cur) as [?|[?|?]] by lia;
             [left|left|right]; (split; [done|lia]) || lia.
      * rewrite (tot_same s2 s3) by done. lia.
      * intros x Hx. destruct (Hx2 x Hx) as [(g&Hg&?) _]. destruct (decide (x = p)) as [->|].
        -- exists (ClearPageProperty pg). split; [apply lookup_insert_eq|]. by simplify_eq.
        -- exists g. split; [|done]. cbn. by rewrite lookup_insert_ne.
      * intros x Hx. assert (~ in_blk p cur x) as Hnx by (intros ?; apply Hx; by exists cur, p).
        unfold in_blk in *. cbn. rewrite lookup_insert_ne by lia. rewrite HU2; [done|]. unfold in_run. lia.
Qed.
End Alloc.

Section AllocPages.
  Implicit Types (s : pmm).

Lemma getorder_loop_runs m s k n :
  0 <= k -> k + Z.of_nat m = MAX_ORDER + 1 -> n <= 2 ^ MAX_ORDER -> (k = 0 \/ 2 ^ (k - 1) < n) ->
  (0 < m)%nat ->
  runs (getorder_loop m k (2 ^ k) n) s (fun r s' => s' = s /\
    k <= r <= MAX_ORDER /\ n <= 2 ^ r /\ (r = 0 \/ 2 ^ (r - 1) < n)).
Proof.
  revert k. induction m as [|m IH]; intros k Hk Hm Hn Hl Hpos; [lia|]. cbn [getorder_loop].
  destruct (Z.leb_spec n (2 ^ k)) as [Hle|Hgt].
  - runs_steps. split_and!; try done; lia.
  - assert (k < MAX_ORDER) as Hk' by (apply (Z.pow_lt_mono_r_iff 2); unfold MAX_ORDER in *; lia).
    replace (u32 (Z.shiftl (2 ^ k) 1)) with (2 ^ (k + 1)).
    2:{ rewrite Z.shiftl_mul_pow2, Z.pow_add_r by lia. symmetry. apply u32_small. unfold is_u32, W32.
        assert (2 ^ k <= 2 ^ 10) by (apply Z.pow_le_mono_r; unfold MAX_ORDER in *; lia).
        pose proof (pow2_pos k Hk). lia. }
    eapply runs_mono; [apply IH; [lia|lia|done| |lia]|].
    + right. by replace (k + 1 - 1) with k by lia.
    + cbn beta. intros r s' (->&?&?&?). split_and!; try done; lia.
Qed.

Lemma getorder_runs s n :
  n <= 2 ^ MAX_ORDER ->
  runs (getorder n) s (fun r s' => s' = s /\ 0 <= r <= MAX_ORDER /\ n <= 2 ^ r /\ (r = 0 \/ 2 ^ (r - 1) < n)).
Proof. intros Hn. apply (getorder_loop_runs 11 s 0 n); [lia|done|done|by left|lia]. Qed.

Lemma taken_then_freed s s1 s2 p n c :
  0 <= n <= c -> taken s s1 (in_run p c) c -> freed s1 s2 (in_run (p + n) (c - n)) (c - n) ->
  taken s s2 (in_run p n) n.
Proof.
  intros Hn (HI1&HL1&HP1&HF1&HT1&HR1&HU1) (HI2&HL2&HF2&HT2&HU2).
  assert (Hsub : forall x, in_run p n x -> in_run p c x /\ ~ in_run (p + n) (c - n) x)
    by (intros x; unfold in_run; lia).
  split_and!; [done|by etrans| | |lia| |].
  - intros x Hx. apply HP1, Hsub, Hx.
  - intros x. rewrite HF2, HF1. split.
    + intros [[? Hx]|Hx]; [split; [done|]; intros ?%Hsub; tauto|].
      split; [apply HP1; unfold in_run in *; lia|unfold in_run in *; lia].
    + intros [? Hx]. assert (in_run (p + n) (c - n) x \/ ~ in_run p c x) as [?|?]; [|by right|by left].
      unfold in_run in *. lia.
  - intros x Hx. destruct (Hsub x Hx) as [Hx1 Hx2]. destruct (HR1 x Hx1) as (g&Hg&?).
    exists g. split; [|done]. rewrite HU2; [done| |done]. rewrite HF1. tauto.
  - intros x Hx. rewrite HU2, HU1; [done|done| |].
    + rewrite HF1. tauto.
    + intros Hx'. apply Hx, HP1. unfold in_run in *. lia.
Qed.

Lemma buddy_alloc_pages_runs s n :
  Inv none s -> 0 < n <= 2 ^ MAX_ORDER ->
  runs (buddy_alloc_pages n) s (fun r s' =>
    match r with
    | None => s' = s /\ forall k, n <= 2 ^ k -> flist s k = []
    | Some p => taken s s' (in_run p n) n /\
        exists z b k, run_at s' z b p n /\ 0 <= k /\ n <= 2 ^ k /\ (k = 0 \/ 2 ^ (k - 1) < n) /\
          (p - b) mod 2 ^ k = 0
    end).
Proof.
  intros HI Hn. unfold buddy_alloc_pages. runs_steps. apply runs_assert; [apply Z.ltb_lt; lia|]. runs_steps.
  eapply runs_mono; [apply getorder_runs; lia|]. cbn beta. intros k ? (->&Hk&Hnk&Hmin). runs_steps.
  unfold buddy_alloc_pages_sub. runs_steps. apply runs_assert; [apply Z.leb_le; lia|].
  eapply runs_mono; [apply (alloc_search_runs _ s k k HI); [lia|unfold MAX_ORDER in *; lia|intros; lia]|].
  cbn beta. rewrite Z.shiftl_1_l. intros [p|] s1.
  - intros [Htk (z&b&Hb)]. pose proof Hb as (?&?&?&?&Hm).
    assert (run_at s1 z b p n) as Hr1.
    { unfold run_at. split_and!; try done; try lia. intros x Hx. apply Hm. unfold in_blk. lia. }
    destruct (Z.eqb_spec n (2 ^ k)) as [->|Hne]; cbn [negb].
    + runs_steps. split; [done|]. exists z, b, k. split_and!; try done; lia.
    + runs_steps. pose proof Htk as (HI1&HL1&HP1&HF1&HT1&HR1&HU1).
      assert (2 ^ k <= 2 ^ MAX_ORDER) by (apply Z.pow_le_mono_r; lia). unfold MAX_ORDER in *.
      eapply runs_mono.
      { apply (buddy_free_pages_runs s1 z b (p + n) (2 ^ k - n) HI1); [| |lia].
        - apply run_at_tail; [lia|]. unfold run_at. split_and!; done || lia.
        - intros x Hx. rewrite HF1. intros [_ Hnx]. apply Hnx. unfold in_run, in_blk in *. lia. }
      cbn beta. intros _ s2 Hfr. runs_steps. split; [by eapply (taken_then_freed s s1 s2 p n (2 ^ k)); [lia| |]|].
      exists z, b, k. split_and!; try done; try lia. eapply run_at_layout; [apply Hfr|done].
  - intros [-> Hemp]. runs_steps. split; [done|]. intros j Hj.
    destruct (flist s j) as [|q l] eqn:Hl; [done|]. exfalso.
    assert (0 <= j) by (apply (i_order none s HI j q); rewrite Hl; constructor).
    assert (k <= j) as Hkj. { destruct Hmin as [->|Hmin]; [done|].
      assert (2 ^ (k - 1) < 2 ^ j) as Hlt by lia. apply Z.pow_lt_mono_r_iff in Hlt; lia. }
    rewrite Hemp in Hl by done. done.
Qed.
End AllocPages.
