(* ===== verification/BuddyThm.v ===== *)
(** * Theorems on the buddy allocator

    Initialisation, the number of free pages, the canonical form of the free
    lists, and the theorems on the operations of [buddy_pmm_manager]. *)

From stdpp Require Import base gmap list.
From Stdlib Require Import ZArith Lia Bool.
From S2P Require Import Prelude.
From S2P Require Import Dlist.
From S2P Require Import Atomic.
From S2P Require Import Buddy.
From S2P Require Import BuddyInv.
From S2P Require Import BuddyOps.

(** ** The number of free pages is what [buddy_nr_free_pages] counts *)

Section Count.
  Implicit Types (s : pmm).

(** The pages of the free blocks of the orders [o .. o+n-1]. *)
Fixpoint free_pages_from (n : nat) (o : Z) (s : pmm) : list Z :=
  match n with
  | O => []
  | S n => concat ((fun p => seqZ p (2 ^ o)) <$> flist s o) ++ free_pages_from n (o + 1) s
  end.

Lemma elem_of_blocks (l : list Z) o x :
  x ∈ concat ((fun p => seqZ p (2 ^ o)) <$> l) <-> exists p, p ∈ l /\ in_blk p o x.
Proof.
  rewrite list_elem_of_In, in_concat. setoid_rewrite <- list_elem_of_In. split.
  - intros (b&Hb&Hx). apply list_elem_of_fmap in Hb as (p&->&Hp). exists p. split; [done|].
    apply elem_of_seqZ in Hx. unfold in_blk. lia.
  - intros (p&Hp&Hx). exists (seqZ p (2 ^ o)). split; [apply list_elem_of_fmap; eauto|].
    apply elem_of_seqZ. unfold in_blk in Hx. lia.
Qed.

Lemma elem_of_free_from n o s x :
  x ∈ free_pages_from n o s <-> exists k p, o <= k < o + Z.of_nat n /\ p ∈ flist s k /\ in_blk p k x.
Proof.
  revert o. induction n as [|n IH]; intros o; cbn [free_pages_from].
  - split; [by intros ?%elem_of_nil|]. intros (k&p&?&_). lia.
  - rewrite elem_of_app, elem_of_blocks, IH. split.
    + intros [(p&?&?)|(k&p&?&?&?)]; [exists o, p|exists k, p]; (split; [lia|done]).
    + intros (k&p&Hk&?&?). destruct (decide (k = o)) as [->|]; [left; eauto|].
      right. exists k, p. split; [lia|done].
Qed.

Lemma NoDup_blocks D s o (l : list Z) :
  Inv D s -> NoDup l -> (forall p, p ∈ l -> p ∈ flist s o) -> NoDup (concat ((fun p => seqZ p (2 ^ o)) <$> l)).
Proof.
  intros HI Hnd Hin. induction l as [|p l IH]; cbn; [apply NoDup_nil_2|].
  apply NoDup_cons in Hnd as [Hp Hnd]. apply NoDup_app. split_and!.
  - apply NoDup_seqZ.
  - intros x Hx (q&Hq&Hxq)%elem_of_blocks. apply elem_of_seqZ in Hx.
    destruct (i_disj D s HI o o p q x) as [-> _]; try done; apply Hin; set_solver.
  - apply IH; [done|]. intros q Hq. apply Hin. set_solver.
Qed.

Lemma free_from_spec D n o s :
  Inv D s -> 0 <= o -> o + Z.of_nat n <= MAX_ORDER + 1 ->
  NoDup (free_pages_from n o s) /\ Z.of_nat (length (free_pages_from n o s)) = nr_free_sum n o s.
Proof.
  intros HI. revert o. induction n as [|n IH]; intros o Ho Hn; cbn [free_pages_from nr_free_sum].
  - split; [apply NoDup_nil_2|done].
  - destruct (IH (o + 1)) as [Hnd Hlen]; [lia|lia|]. split.
    + apply NoDup_app. split_and!; [eapply NoDup_blocks; eauto; apply HI| |done].
      intros x (p&Hp&Hx)%elem_of_blocks (k&q&Hk&Hq&Hxq)%elem_of_free_from.
      destruct (i_disj D s HI o k p q x) as [_ ?]; try done. lia.
    + rewrite length_app, Nat2Z.inj_add, Hlen, (i_nr D s HI), Z.shiftl_1_l by lia. f_equal.
      pose proof (pow2_pos o Ho). clear -H. induction (flist s o) as [|p l IHl]; cbn [fmap list_fmap concat length]; [done|].
      rewrite length_app, Nat2Z.inj_add, length_seqZ, Nat2Z.inj_succ.
      change (list_fmap Z (list Z) (fun p0 => seqZ p0 (2 ^ o)) l) with ((fun p0 => seqZ p0 (2 ^ o)) <$> l). lia.
Qed.

Definition free_page_list s : list Z := free_pages_from 11 0 s.

Lemma free_page_list_spec D s :
  Inv D s -> NoDup (free_page_list s) /\ (forall x, x ∈ free_page_list s <-> is_free s x) /\
  Z.of_nat (length (free_page_list s)) = tot s.
Proof.
  intros HI. destruct (free_from_spec D 11 0 s HI) as [? ?]; [lia|done|]. split_and!; try done.
  intros x. unfold free_page_list. rewrite elem_of_free_from. split.
  - intros (k&p&_&?&?). by exists k, p.
  - intros (k&p&Hp&?). exists k, p. pose proof (i_order D s HI k p Hp). unfold MAX_ORDER in *.
    split_and!; try done; lia.
Qed.

Lemma tot_range D s : Inv D s -> 0 <= tot s <= npage s.
Proof.
  intros HI. destruct (free_page_list_spec D s HI) as (Hnd&Hel&<-). pose proof (i_npage D s HI).
  split; [lia|]. rewrite (length_bound _ (npage s)); [lia|done|].
  intros x Hx%Hel. by eapply free_in_range.
Qed.
End Count.

(** ** Canonical form: the free set determines the free lists *)

Section Canonical.
  Implicit Types (s : pmm).

(** Aligned blocks are nested or disjoint. *)
Lemma laminar b p q j k x :
  0 <= k <= j -> (p - b) mod 2 ^ k = 0 -> (q - b) mod 2 ^ j = 0 -> in_blk p k x -> in_blk q j x ->
  forall y, in_blk p k y -> in_blk q j y.
Proof.
  intros Hk Hp Hq Hxp Hxq y. unfold in_blk in *.
  assert (Hpow : 2 ^ j = 2 ^ k * 2 ^ (j - k)) by (rewrite <- Z.pow_add_r by lia; f_equal; lia).
  pose proof (pow2_pos k ltac:(lia)). pose proof (pow2_pos (j - k) ltac:(lia)).
  apply Z.mod_divide in Hp as [u Hu]; [|lia]. apply Z.mod_divide in Hq as [v Hv]; [|nia].
  assert (q <= p /\ p + 2 ^ k <= q + 2 ^ j); [|lia].
  rewrite Hpow in *. split.
  - assert (v * 2 ^ (j - k) <= u); nia.
  - assert (u + 1 <= v * 2 ^ (j - k) + 2 ^ (j - k)); nia.
Qed.

(** A block whose pages are all free lies inside one block of a free list. *)
Lemma free_region_in_block s z b p k :
  Inv none s -> 0 <= k <= MAX_ORDER -> blk_at s z b p k -> (forall x, in_blk p k x -> is_free s x) ->
  exists q j, q ∈ flist s j /\ k <= j /\ (forall x, in_blk p k x -> in_blk q j x).
Proof.
  intros HI [Hk0 HkM]. revert p HkM. pattern k. revert k Hk0. refine (natlike_ind _ _ _).
  - intros p _ Hb Hfree. destruct (Hfree p) as (j&q&Hq&Hp); [eapply blk_at_head; [lia|done]|].
    exists q, j. split_and!; [done|apply (i_order none s HI j q Hq)|]. intros x. unfold in_blk in *.
    change (2 ^ 0) with 1. intros ?. assert (x = p) as -> by lia. done.
  - intros k Hk IH p HkM Hb Hfree. unfold Z.succ in *.
    assert (Hpow : 2 ^ (k + 1) = 2 ^ k * 2) by (by rewrite Z.pow_add_r by lia).
    pose proof (pow2_pos k Hk). pose proof Hb as (Hz&Hbp&He&Ha&Hm).
    assert (Hal : (p - b) mod 2 ^ k = 0) by (apply (aligned_down _ k (k + 1)); [lia|done]).
    assert (Hb1 : blk_at s z b p k).
    { unfold blk_at. split_and!; try done; try lia. intros x Hx. apply Hm. unfold in_blk in *. lia. }
    assert (Hb2 : blk_at s z b (p + 2 ^ k) k).
    { unfold blk_at. split_and!; try done; try lia.
      - replace (p + 2 ^ k - b) with ((p - b) + 2 ^ k) by lia. apply aligned_add; [lia|done].
      - intros x Hx. apply Hm. unfold in_blk in *. lia. }
    destruct (IH p) as (q1&j1&Hq1&Hj1&Hs1); [lia|done|intros x Hx; apply Hfree; unfold in_blk in *; lia|].
    destruct (IH (p + 2 ^ k)) as (q2&j2&Hq2&Hj2&Hs2); [lia|done|intros x Hx; apply Hfree; unfold in_blk in *; lia|].
    assert (Hbig : forall q j, q ∈ flist s j -> k + 1 <= j -> (exists x, in_blk p (k + 1) x /\ in_blk q j x) ->
              exists q' j', q' ∈ flist s j' /\ k + 1 <= j' /\ (forall x, in_blk p (k + 1) x -> in_blk q' j' x)).
    { intros q j Hq Hj (x&Hxp&Hxq). exists q, j. split_and!; try done.
      destruct (i_block none s HI j q Hq) as (z'&b'&Hbq). destruct (Hm x Hxp) as (g&Hg).
      destruct (blk_at_zone s z' b' z b q j x Hbq Hxq) as [<- <-]; [by exists g|done|].
      eapply (laminar b p q j (k + 1) x); [lia|done|apply Hbq|done|done]. }
    assert (in_blk p k p) as Hpp by (unfold in_blk; lia).
    assert (in_blk (p + 2 ^ k) k (p + 2 ^ k)) as Hpp2 by (unfold in_blk; lia).
    destruct (decide (k + 1 <= j1)) as [?|Hj1'].
    { apply (Hbig q1 j1); [done|done|]. exists p. split; [unfold in_blk; lia|auto]. }
    destruct (decide (k + 1 <= j2)) as [?|Hj2'].
    { apply (Hbig q2 j2); [done|done|]. exists (p + 2 ^ k). split; [unfold in_blk; lia|auto]. }
    assert (j1 = k) as -> by lia. assert (j2 = k) as -> by lia.
    assert (q1 = p) as ->.
    { pose proof (Hs1 p Hpp). pose proof (Hs1 (p + 2 ^ k - 1) ltac:(unfold in_blk; lia)). unfold in_blk in *. lia. }
    assert (q2 = p + 2 ^ k) as ->.
    { pose proof (Hs2 _ Hpp2). pose proof (Hs2 (p + 2 ^ k + 2 ^ k - 1) ltac:(unfold in_blk; lia)). unfold in_blk in *. lia. }
    exfalso. eapply (i_merged none s HI k z b p (p + 2 ^ k)); try done; [lia|by apply Hb2|].
    rewrite lxor_pow2 by lia.
    assert (Z.testbit (p - b) k = false) as ->; [|lia].
    pose proof (aligned_next (p - b) k ltac:(lia) Hal) as Hn. rewrite Ha in Hn. destruct (Z.testbit _ _); [lia|done].
Qed.

Lemma canonical_sub s s' :
  Inv none s -> Inv none s' -> same_layout s s' -> (forall x, is_free s x <-> is_free s' x) ->
  forall k p, p ∈ flist s k -> p ∈ flist s' k.
Proof.
  intros HI HI' HL HF k p Hp. pose proof (i_order none s HI k p Hp) as Hk. pose proof (pow2_pos k ltac:(lia)).
  destruct (i_block none s HI k p Hp) as (z&b&Hb).
  destruct (free_region_in_block s' z b p k HI' Hk) as (q&j&Hq&Hj&Hsub).
  { by eapply blk_at_layout. }
  { intros x Hx. apply HF. by exists k, p. }
  pose proof (i_order none s' HI' j q Hq) as Hjo. pose proof (pow2_pos j ltac:(lia)).
  destruct (i_block none s' HI' j q Hq) as (z'&b'&Hbq).
  destruct (free_region_in_block s z' b' q j HI Hjo) as (r&i&Hr&Hi&Hsub2).
  { eapply blk_at_layout; [|done]. by symmetry. }
  { intros x Hx. apply HF. by exists j, q. }
  destruct (i_disj none s HI i k r p p) as [-> ->]; try done; [apply Hsub2, Hsub; unfold in_blk; lia|unfold in_blk; lia|].
  assert (j = k) as -> by lia.
  assert (q = p) as ->; [|done].
  pose proof (Hsub p ltac:(unfold in_blk; lia)). pose proof (Hsub (p + 2 ^ k - 1) ltac:(unfold in_blk; lia)).
  unfold in_blk in *. lia.
Qed.

Lemma canonical s s' :
  Inv none s -> Inv none s' -> same_layout s s' -> (forall x, is_free s x <-> is_free s' x) ->
  forall k, flist s k ≡ₚ flist s' k /\ (0 <= k <= MAX_ORDER -> nrf s k = nrf s' k).
Proof.
  intros HI HI' HL HF k.
  assert (Hperm : flist s k ≡ₚ flist s' k).
  { apply NoDup_Permutation; [apply HI|apply HI'|]. intros p. split; apply canonical_sub; try done;
    intros x; by rewrite HF. }
  split; [done|]. intros Hk. rewrite (i_nr none s HI), (i_nr none s' HI') by done.
  by rewrite Hperm.
Qed.
End Canonical.

(** ** Initialisation *)

Section Memmap.
  Implicit Types (s : pmm).

Lemma memmap_reset_runs n p z s :
  (forall x, in_run p (Z.of_nat n) x -> exists pg, pages s !! x = Some pg /\ PageReserved pg = true) ->
  runs (memmap_reset n p z) s (fun _ s' => exists m, s' = upd_pages (fun _ => m) s /\
    forall x, m !! x = if decide (in_run p (Z.of_nat n) x) then Some (mkPage 0 0 0 z) else pages s !! x).
Proof.
  unfold in_run. revert p s. induction n as [|n IH]; intros p s Hx; cbn [memmap_reset].
  - runs_steps. exists (pages s). split; [by destruct s|]. intros x. by rewrite decide_False by lia.
  - destruct (Hx p) as (pg&Hp&Hr); [lia|]. runs_steps. eapply rd_page_runs; [done|]. runs_steps.
    apply runs_assert; [done|]. runs_steps. eapply upd_page_runs; [done|].
    eapply runs_mono; [apply IH|].
    + intros x Hxr. destruct (Hx x) as (g&?&?); [lia|]. exists g. cbn. by rewrite lookup_insert_ne by lia.
    + cbn. intros _ s' (m&->&Hm). exists m. split; [done|]. intros x. rewrite Hm.
      destruct (decide (x = p)) as [->|].
      * rewrite decide_False, decide_True by lia. apply lookup_insert_eq.
      * rewrite lookup_insert_ne by done. repeat case_decide; try done; lia.
Qed.

(** A fresh zone over reserved memory: the pages become managed, none is
    free yet. *)
Lemma memmap_zone s base n m :
  Inv none s -> 0 <= base -> base + n <= npage s ->
  (forall x, in_run base n x -> exists pg, pages s !! x = Some pg /\ PageReserved pg = true) ->
  zones s !! zone_cnt s = None -> (forall x, ~ mgd s (zone_cnt s) x) ->
  (forall x, m !! x = if decide (in_run base n x) then Some (mkPage 0 0 0 (zone_cnt s)) else pages s !! x) ->
  let s1 := mkPmm m (npage s) (free_list s) (nr_free s) (<[zone_cnt s := base]> (zones s)) (zone_cnt s + 1) in
  Inv none s1 /\ run_at s1 (zone_cnt s) base base n /\ (forall x, is_free s1 x <-> is_free s x) /\
  (forall x, in_run base n x -> ref0 s1 x /\ ~ is_free s1 x) /\
  (forall x, mgd s1 (zone_cnt s) x -> x < base + n).
Proof.
  intros HI Hb0 Hbn Hres Hz Hfresh Hm s1.
  assert (Hold : forall z x, mgd s z x -> ~ in_run base n x).
  { intros z x (pg&Hp&Hr&_) Hx. destruct (Hres x Hx) as (pg'&?&?). congruence. }
  assert (Hkeep : forall z x, mgd s z x -> mgd s1 z x).
  { intros z x Hmg. pose proof (Hold z x Hmg). destruct Hmg as (pg&?). exists pg. cbn. by rewrite Hm, decide_False. }
  assert (Hnew : forall z x, ~ in_run base n x -> mgd s1 z x -> mgd s z x).
  { intros z x Hx (pg&Hp&?). cbn in Hp. rewrite Hm, decide_False in Hp by done. by exists pg. }
  assert (Hlt : forall z b p k, blk_at s z b p k -> blk_at s1 z b p k).
  { intros z b p k (?&?&?&?&Hmg). unfold blk_at. split_and!; try done; try lia.
    - cbn. rewrite lookup_insert_ne; [done|]. intros <-. congruence.
    - intros x Hx. by apply Hkeep, Hmg. }
  assert (Hnf : forall x, in_run base n x -> ~ is_free s x).
  { intros x Hx (z&Hmg)%(free_mgd none s x HI). by apply (Hold z x). }
  assert (Hpg : forall x, is_free s x -> pages s1 !! x = pages s !! x).
  { intros x Hx. cbn. rewrite Hm, decide_False; [done|]. intros ?. by apply (Hnf x). }
  split_and!; try done.
  - constructor; try apply HI.
    + intros x Hx. cbn. rewrite Hm. case_decide; [eauto|]. by apply (i_pages none s HI).
    + intros k p (z&b&?)%(i_block none s HI). eauto.
    + intros k p Hp. unfold is_head. rewrite Hpg by (by eapply head_free). by apply (i_head none s HI).
    + intros x Hx. unfold ref0. rewrite Hpg by done. by apply (i_ref none s HI).
    + intros p pg Hp Hr HD Hre Hpr. cbn in Hp. rewrite Hm in Hp. case_decide.
      * by injection Hp as <-.
      * by apply (i_flag none s HI).
    + intros k z b p q Hk Hp Hq Hb Hmq.
      destruct (i_block none s HI k p Hp) as (z'&b'&Hb').
      destruct (blk_at_zone s1 z' b' z b p k p) as [-> ->]; [by apply Hlt|eapply blk_at_head; [lia|done]| |apply Hb|].
      { apply Hb. eapply blk_at_head; [lia|done]. }
      eapply (i_merged none s HI k z' b' p q); try done. apply Hnew; [|done].
      intros Hx. apply (Hnf q Hx). by eapply head_free.
  - unfold run_at. split_and!; try done; try lia.
    + cbn. apply lookup_insert_eq.
    + intros x Hx. exists (mkPage 0 0 0 (zone_cnt s)). cbn. by rewrite Hm, decide_True.
  - intros x Hx. split; [|by apply (Hnf x)]. exists (mkPage 0 0 0 (zone_cnt s)).
    cbn. by rewrite Hm, decide_True.
  - intros x Hmg. destruct (decide (in_run base n x)) as [Hx|Hx]; [unfold in_run in Hx; lia|].
    by apply (Hnew _ x Hx) in Hmg as ?%Hfresh.
Qed.

(** Remaining memory of the zone, ready to be cut into blocks. *)
Definition rest (s : pmm) (z b p n : Z) : Prop :=
  run_at s z b p n /\ (forall x, in_run p n x -> ref0 s x /\ ~ is_free s x) /\
  (forall x, mgd s z x -> x < p + n).

Lemma rest_freed s s' z b p n c :
  0 <= c <= n -> rest s z b p n -> freed s s' (in_run p c) c -> rest s' z b (p + c) (n - c).
Proof.
  intros Hc (Hr&Hx&Hm) (HI&HL&HF&HT&HU). split_and!.
  - eapply run_at_layout; [done|]. by apply run_at_tail.
  - intros x Hxr. destruct (Hx x) as [(g&Hg&?) Hnf]; [unfold in_run in *; lia|].
    assert (~ in_run p c x) by (unfold in_run in *; lia). split.
    + exists g. split; [|done]. by rewrite HU.
    + rewrite HF. tauto.
  - intros x Hmg. apply HL in Hmg. apply Hm in Hmg. lia.
Qed.

Lemma memmap_block s z b p n k pg :
  Inv none s -> 0 <= k <= MAX_ORDER -> rest s z b p n -> 2 ^ k <= n -> (p - b) mod 2 ^ k = 0 ->
  (k < MAX_ORDER -> (p - b) mod 2 ^ (k + 1) = 0) -> pages s !! p = Some pg ->
  freed s (link s p k pg) (in_run p (2 ^ k)) (2 ^ k).
Proof.
  intros HI Hk (Hr&Hx&Hm) Hn Ha Ha1 Hp. pose proof (pow2_pos k ltac:(lia)).
  assert (pend s z b p k) as Hpe.
  { split; [eapply run_at_blk; eauto; lia|]. intros x ?. apply Hx. unfold in_run, in_blk in *. lia. }
  destruct (link_spec none s z b p k pg) as (HI1&HL1&HF1&HT1&HU1); try done.
  - intros Hlt q Hq Hmg. rewrite lxor_pow2 by lia.
    assert (Z.testbit (p - b) k = false) as ->.
    { pose proof (aligned_next (p - b) k ltac:(lia) Ha) as Hn1. rewrite Ha1 in Hn1 by done.
      destruct (Z.testbit _ _); [lia|done]. }
    intros ->. apply Hm in Hmg. apply (Hx (b + (p - b + 2 ^ k))); [unfold in_run; lia|].
    by eapply head_free.
  - split_and!; try done. intros x Hnf Hnx. apply HU1. intros ->. apply Hnx. unfold in_run. lia.
Qed.

Lemma memmap_inner_runs f s z b p n k :
  Inv none s -> 0 <= k <= MAX_ORDER -> rest s z b p n -> 0 <= n < Z.of_nat f -> (p - b) mod 2 ^ k = 0 ->
  (k < MAX_ORDER -> n < 2 ^ k \/ n < 2 ^ (k + 1) /\ (p - b) mod 2 ^ (k + 1) = 0) ->
  runs (memmap_inner f k (2 ^ k) p n) s (fun r s' =>
    0 <= snd r < 2 ^ k /\ snd r <= n /\ fst r = p + (n - snd r) /\ (fst r - b) mod 2 ^ k = 0 /\
    freed s s' (in_run p (n - snd r)) (n - snd r)).
Proof.
  revert s p n. induction f as [|f IH]; intros s p n HI Hk Hre Hf Ha Hlow; [lia|]. cbn [memmap_inner].
  pose proof (pow2_pos k ltac:(lia)). destruct (Z.leb_spec (2 ^ k) n) as [Hle|Hlt].
  - pose proof Hre as ((_&_&_&Hmg)&Hx&_). destruct (Hmg p) as (pg&Hp&_); [lia|].
    assert (freed s (link s p k pg) (in_run p (2 ^ k)) (2 ^ k)) as Hfr.
    { eapply memmap_block; eauto. intros Hk'. destruct (Hlow Hk'); [lia|tauto]. }
    runs_steps. eapply upd_page_runs; [done|]. runs_steps.
    eapply upd_page_runs; [cbn; apply lookup_insert_eq|]. unfold free_list_add, nr_free_inc. runs_steps.
    change (upd_nr _ _) with (link s p k pg).
    eapply runs_mono.
    { apply (IH (link s p k pg) (p + 2 ^ k) (n - 2 ^ k)); try done; try lia.
      - apply Hfr.
      - by eapply rest_freed; [lia| |].
      - replace (p + 2 ^ k - b) with ((p - b) + 2 ^ k) by lia. by apply aligned_add; [lia|].
      - intros Hk'. left. rewrite Z.pow_add_r in Hlow by lia. destruct (Hlow Hk'); lia. }
    cbn beta. intros [p' n'] s' (?&?&->&?&Hfr2). cbn [fst snd] in *. split_and!; try done; try lia.
    eapply (freed_run s (link s p k pg) s' p (n - n') (2 ^ k)); [lia|done|].
    by replace (n - n' - 2 ^ k) with (n - 2 ^ k - n') by lia.
  - runs_steps. cbn. rewrite Z.sub_diag, Z.add_0_r. split_and!; try done; try lia. by apply freed_none.
Qed.

Lemma memmap_outer_runs f s z b p n k :
  Inv none s -> k = Z.of_nat f - 1 -> k <= MAX_ORDER -> rest s z b p n -> 0 <= n ->
  (0 <= k -> (p - b) mod 2 ^ k = 0) ->
  (0 <= k < MAX_ORDER -> n < 2 ^ (k + 1) /\ (p - b) mod 2 ^ (k + 1) = 0) -> (k < 0 -> n = 0) ->
  runs (memmap_outer f k (if decide (0 <= k) then 2 ^ k else 0) p n) s
    (fun _ s' => freed s s' (in_run p n) n).
Proof.
  revert s p n k. induction f as [|f IH]; intros s p n k HI -> HkM Hre Hn Ha Hlow Hneg; cbn [memmap_outer].
  - rewrite (Hneg ltac:(lia)). cbn. runs_steps. by apply freed_none.
  - destruct (Z.eqb_spec n 0) as [->|Hn0]; [runs_steps; by apply freed_none|].
    rewrite decide_True by lia. runs_steps.
    eapply runs_mono.
    { apply (memmap_inner_runs _ s z b p n); [done|lia|done|lia|apply Ha; lia|].
      intros Hk'. right. apply Hlow. lia. }
    cbn beta. intros [p' n'] s1 (Hn'&?&Hp'&Ha'&Hfr). cbn [fst snd] in *. subst p'.
    replace (Z.shiftr (2 ^ (Z.of_nat (S f) - 1)) 1) with
      (if decide (0 <= Z.of_nat (S f) - 1 - 1) then 2 ^ (Z.of_nat (S f) - 1 - 1) else 0).
    2:{ rewrite Z.shiftr_div_pow2 by lia. case_decide as Hc.
        - replace (Z.of_nat (S f) - 1) with (Z.of_nat (S f) - 1 - 1 + 1) at 2 by lia.
          rewrite Z.pow_add_r by lia. by rewrite Z.div_mul.
        - by replace (Z.of_nat (S f) - 1) with 0 by lia. }
    eapply runs_mono.
    { apply (IH s1 (p + (n - n')) n' (Z.of_nat (S f) - 1 - 1)); try lia.
      - apply Hfr.
      - replace n' with (n - (n - n')) at 2 by lia. by eapply rest_freed; [lia| |].
      - intros ?. by apply (aligned_down _ _ (Z.of_nat (S f) - 1)); [lia|].
      - intros ?. replace (Z.of_nat (S f) - 1 - 1 + 1) with (Z.of_nat (S f) - 1) by lia. split; [lia|done].
      - intros ?. replace (Z.of_nat (S f) - 1) with 0 in Hn' by lia. change (2 ^ 0) with 1 in Hn'. lia. }
    cbn beta. intros _ s2 Hfr2. eapply (freed_run s s1 s2 p n (n - n')); [lia|done|].
    by replace (n - (n - n')) with n' by lia.
Qed.
End Memmap.

(** ** Theorems on the operations *)

(** Memory before [buddy_init]: every page descriptor is reserved and the
    allocator's own variables have their initial values. *)
Definition boot_state (s : pmm) : Prop :=
  0 <= npage s <= 1048576 /\ (forall x, 0 <= x < npage s -> is_Some (pages s !! x)) /\
  (forall x pg, pages s !! x = Some pg -> PageReserved pg = true) /\
  free_list s = ∅ /\ nr_free s = ∅ /\ zones s = ∅ /\ zone_cnt s = 0.

Lemma buddy_init_loop_spec k i s :
  buddy_init_loop k i s =
    Ok (tt, mkPmm (pages s) (npage s) (fold_left (fun m j => <[j := []]> m) (seqZ i (Z.of_nat k)) (free_list s))
             (fold_left (fun m j => <[j := 0]> m) (seqZ i (Z.of_nat k)) (nr_free s)) (zones s) (zone_cnt s)).
Proof.
  revert i s. induction k as [|k IH]; intros i s.
  - cbn. by destruct s.
  - rewrite seqZ_cons by lia. cbn [buddy_init_loop fold_left]. unfold bind, modify. cbn. rewrite IH. cbn.
    replace (Z.pred (Z.of_nat (S k))) with (Z.of_nat k) by lia. replace (Z.succ i) with (i + 1) by lia. done.
Qed.

Lemma buddy_init_runs s :
  boot_state s ->
  runs buddy_init s (fun _ s' => Inv none s' /\ (forall x, ~ is_free s' x) /\ pages s' = pages s /\
    npage s' = npage s /\ zones s' = zones s /\ zone_cnt s' = zone_cnt s).
Proof.
  intros (Hn&Hp&Hres&Hfl&Hnr&_&_). unfold runs, buddy_init. rewrite buddy_init_loop_spec, Hfl, Hnr.
  change (seqZ 0 (Z.of_nat 11)) with [0; 1; 2; 3; 4; 5; 6; 7; 8; 9; 10]. cbn [fold_left].
  set (s' := mkPmm _ _ _ _ _ _).
  assert (Hempty : forall k, flist s' k = []).
  { intros k. unfold flist. cbn [s' free_list]. repeat (rewrite lookup_insert; case_decide; [done|]). done. }
  assert (Hnone : forall k p, p ∉ flist s' k) by (intros k p; rewrite Hempty; apply not_elem_of_nil).
  assert (Hnf : forall x, ~ is_free s' x) by (intros x (k&p&?&_); by apply (Hnone k p)).
  split_and!; try done. constructor; try done; try (intros k p ?; exfalso; by apply (Hnone k p)).
  - intros x ?. by exfalso; apply (Hnf x).
  - intros p pg Hpg _ _ Hr _. rewrite (Hres p pg) in Hr by done. done.
  - intros j k p q x ?. exfalso. by apply (Hnone j p).
  - intros k. rewrite Hempty. apply NoDup_nil_2.
  - intros k Hk. rewrite Hempty. unfold nrf. cbn [s' nr_free]. repeat (rewrite lookup_insert; case_decide; [done|]). done.
  - intros k z b p q _ ?. exfalso. by apply (Hnone k p).
Qed.

Lemma buddy_init_memmap_runs s base n :
  Inv none s -> 0 <= base -> 0 < n -> base + n <= npage s ->
  (forall x, in_run base n x -> exists pg, pages s !! x = Some pg /\ PageReserved pg = true) ->
  0 <= zone_cnt s < MAX_ZONE_NUM -> zones s !! zone_cnt s = None -> (forall x, ~ mgd s (zone_cnt s) x) ->
  runs (buddy_init_memmap base n) s (fun _ s' => Inv none s' /\ npage s' = npage s /\
    (forall x, is_free s' x <-> is_free s x \/ in_run base n x) /\ tot s' = tot s + n /\
    run_at s' (zone_cnt s) base base n).
Proof.
  intros HI Hb0 Hn Hbn Hres Hzc Hz Hfresh. unfold buddy_init_memmap. runs_steps.
  apply runs_assert.
  { apply andb_true_iff. split; apply Z.ltb_lt; lia. }
  runs_steps. eapply runs_mono.
  { apply memmap_reset_runs. rewrite Z2Nat.id by lia. exact Hres. }
  rewrite Z2Nat.id by lia. cbn beta. intros _ ? (m&->&Hm). runs_steps.
  destruct (memmap_zone s base n m HI Hb0 Hbn Hres Hz Hfresh Hm) as (HI1&Hr1&HF1&Hx1&Hm1).
  match goal with |- runs _ ?t _ => set (s1 := t) in * end. change (mkPmm _ _ _ _ _ _) with s1 in HI1, Hr1, HF1, Hx1, Hm1.
  eapply runs_mono.
  { apply (memmap_outer_runs 11 s1 (zone_cnt s) base base n 10);
      [done|done|done|done|lia| |unfold MAX_ORDER; lia|lia]. intros _. by rewrite Z.sub_diag. }
  cbn beta. intros _ s2 (HI2&HL2&HF2&HT2&HU2). split_and!; try done.
  - by destruct HL2 as (->&_).
  - by eapply run_at_layout.
Qed.

Lemma buddy_boot_runs s base n :
  boot_state s -> 0 <= base -> 0 < n -> base + n <= npage s ->
  runs (do! buddy_init in buddy_init_memmap base n) s (fun _ s' =>
    Inv none s' /\ (forall x, is_free s' x <-> base <= x < base + n) /\
    u32 (nr_free_sum 11 0 s') = n /\ run_at s' 0 base base n).
Proof.
  intros Hs Hb Hn Hbn. runs_steps. eapply runs_mono; [by apply buddy_init_runs|]. cbn beta.
  intros _ s1 (HI1&Hnf1&Hp1&Hn1&Hz1&Hc1). pose proof Hs as (HnB&Hp&Hres&_&_&Hz&Hc).
  eapply runs_mono.
  { apply (buddy_init_memmap_runs s1 base n HI1); try done; try lia.
    - intros x Hx. rewrite Hp1. destruct (Hp x) as [pg Hpg]; [unfold in_run in Hx; lia|]. eauto.
    - rewrite Hc1, Hc. done.
    - by rewrite Hz1, Hz, Hc1, Hc.
    - intros x (pg&Hpg&Hr&_). rewrite Hp1 in Hpg. rewrite (Hres x pg Hpg) in Hr. done. }
  cbn beta. intros _ s2 (HI2&Hn2&HF2&HT2&Hr2). rewrite Hc1, Hc in Hr2. split_and!; try done.
  - intros x. rewrite HF2. unfold in_run. split; [intros [?|?]; [by exfalso; apply (Hnf1 x)|done]|auto].
  - fold (tot s2). rewrite HT2.
    assert (tot s1 = 0) as ->.
    { destruct (free_page_list_spec none s1 HI1) as (_&Hel&<-).
      destruct (free_page_list s1) as [|x l]; [done|]. exfalso. apply (Hnf1 x), Hel. constructor. }
    apply u32_small. unfold is_u32, W32. lia.
Qed.

(** Boot: [buddy_init] and [buddy_init_memmap base n] over reserved memory
    establish the invariant with exactly the pages [base .. base+n-1] free. *)
Theorem buddy_boot_correct s base n :
  boot_state s -> 0 <= base -> 0 < n -> base + n <= npage s ->
  runs (do! buddy_init in buddy_init_memmap base n) s (fun _ s' =>
    Inv none s' /\ (forall x, is_free s' x <-> base <= x < base + n) /\
    u32 (nr_free_sum 11 0 s') = n /\ run_at s' 0 base base n).
Proof. apply buddy_boot_runs. Qed.

(** C1: [buddy_alloc_pages n], [n <= 1024]: no panic; a returned page starts a run
    of [n] pages that were free, are removed from the free set, carry reference
    count 0 and start at a multiple of the least [2^k >= n] within their zone;
    nothing else is handed out or lost.  The routine gives up only when memory
    holds no free aligned block of [2^k >= n] pages, and then changes nothing. *)
Theorem buddy_alloc_pages_correct s n :
  Inv none s -> 0 < n <= 2 ^ MAX_ORDER ->
  runs (buddy_alloc_pages n) s (fun r s' =>
    Inv none s' /\
    match r with
    | Some p =>
        (forall x, p <= x < p + n -> is_free s x /\ ref0 s' x) /\
        (forall x, is_free s' x <-> is_free s x /\ ~ (p <= x < p + n)) /\
        nr_free_sum 11 0 s' = nr_free_sum 11 0 s - n /\
        (exists z b k, run_at s' z b p n /\ n <= 2 ^ k /\ (k = 0 \/ 2 ^ (k - 1) < n) /\ (p - b) mod 2 ^ k = 0)
    | None => s' = s /\ forall z b p k, 0 <= k <= MAX_ORDER -> n <= 2 ^ k -> blk_at s z b p k ->
                ~ (forall x, p <= x < p + 2 ^ k -> is_free s x)
    end).
Proof.
  intros HI Hn. eapply runs_mono; [by apply buddy_alloc_pages_runs|]. cbn beta. intros [p|] s'.
  - intros [(HI'&HL&HP&HF&HT&HR&HU) (z&b&k&?&?&?&?&?)]. unfold in_run in *. split; [done|].
    split_and!; try done; [by auto|]. exists z, b, k. done.
  - intros [-> Hemp]. split; [done|]. split; [done|]. intros z b p k Hk Hnk Hb Hfree.
    destruct (free_region_in_block s z b p k HI Hk Hb Hfree) as (q&j&Hq&Hkj&_).
    rewrite Hemp in Hq; [by apply elem_of_nil in Hq|].
    assert (2 ^ k <= 2 ^ j) by (apply Z.pow_le_mono_r; lia). lia.
Qed.

(** C24: [buddy_free_pages base n]: freeing a run of allocated pages of one zone
    never panics, adds exactly these pages to the free set, counts them and
    leaves the descriptors of all other allocated pages alone. *)
Theorem buddy_free_pages_correct s z b p n :
  Inv none s -> run_at s z b p n -> (forall x, p <= x < p + n -> ~ is_free s x) -> 0 < n < 2048 ->
  runs (buddy_free_pages p n) s (fun _ s' =>
    Inv none s' /\ same_layout s s' /\
    (forall x, is_free s' x <-> is_free s x \/ p <= x < p + n) /\
    nr_free_sum 11 0 s' = nr_free_sum 11 0 s + n /\
    (forall x, ~ is_free s x -> ~ (p <= x < p + n) -> pages s' !! x = pages s !! x)).
Proof. intros HI Hr Hnf Hn. apply (buddy_free_pages_runs s z b p n HI Hr Hnf). lia. Qed.

(** Allocating and freeing the same run restores every free list up to the
    order of its blocks: all splits are merged back. *)
Theorem buddy_alloc_free_roundtrip s n :
  Inv none s -> 0 < n <= 2 ^ MAX_ORDER ->
  runs (let! r := buddy_alloc_pages n in
        match r with Some p => buddy_free_pages p n | None => ret tt end) s
    (fun _ s' => forall k, flist s' k ≡ₚ flist s k /\ (0 <= k <= MAX_ORDER -> nrf s' k = nrf s k)).
Proof.
  intros HI Hn. runs_steps. eapply runs_mono; [by apply buddy_alloc_pages_runs|]. cbn beta. intros [p|] s1.
  - intros [(HI1&HL1&HP1&HF1&HT1&HR1&HU1) (z&b&k&Hr1&_)].
    eapply runs_mono.
    { apply (buddy_free_pages_runs s1 z b p n HI1 Hr1); [|unfold MAX_ORDER in Hn; lia].
      intros x Hx. rewrite HF1. tauto. }
    cbn beta. intros _ s2 (HI2&HL2&HF2&HT2&HU2) j.
    apply (canonical s2 s); try done.
    + symmetry. by etrans.
    + intros x. rewrite HF2, HF1. split; [intros [[? _]|?]; auto|]. intros ?.
      destruct (decide (p <= x < p + n)); [by right|by left].
  - intros [-> _]. runs_steps. done.
Qed.

(** [buddy_nr_free_pages] is the number of free pages. *)
Theorem buddy_nr_free_pages_exact s :
  Inv none s ->
  exists l, NoDup l /\ (forall x, x ∈ l <-> is_free s x) /\
    buddy_nr_free_pages s = Ok (Z.of_nat (length l), s).
Proof.
  intros HI. exists (free_page_list s). destruct (free_page_list_spec none s HI) as (?&?&Hlen).
  split_and!; try done. unfold buddy_nr_free_pages, gets. fold (tot s). rewrite Hlen, u32_small; [done|].
  pose proof (tot_range none s HI). pose proof (i_npage none s HI). unfold is_u32, W32. lia.
Qed.

(** A request for more than [2^MAX_ORDER] pages does not fail with NULL: it
    stops the kernel in [getorder]. *)
Theorem buddy_alloc_pages_too_big s n : 2 ^ MAX_ORDER < n -> buddy_alloc_pages n s = Panic.
Proof.
  unfold MAX_ORDER. intros Hn. change (2 ^ 10) with 1024 in Hn.
  unfold buddy_alloc_pages, bind, assert_. rewrite (proj2 (Z.ltb_lt 0 n)) by lia. cbn [ret].
  unfold getorder. cbn [getorder_loop].
  repeat match goal with
  | |- context [n <=? ?m] => let v := eval vm_compute in m in change m with v; rewrite (proj2 (Z.leb_gt n v)) by lia
  end. done.
Qed.

(** ** A concrete machine: 64 pages, of which 5 .. 63 are given to the
    allocator *)

Definition ex_boot : pmm :=
  mkPmm (list_to_map ((fun i => (i, mkPage 0 1 0 0)) <$> seqZ 0 64)) 64 ∅ ∅ ∅ 0.

Definition state_of {A} (o : outcome (A * pmm)) : pmm :=
  match o with Ok (_, s) => s | _ => ex_boot end.

Definition ex_pmm : pmm := Eval vm_compute in state_of ((do! buddy_init in buddy_init_memmap 5 59) ex_boot).

Lemma ex_boot_state : boot_state ex_boot.
Proof.
  split_and!; try done.
  - intros x Hx. assert (Forall (fun x => is_Some (pages ex_boot !! x)) (seqZ 0 64)) as HF.
    { apply (bool_decide_unpack _). vm_compute. exact I. }
    rewrite Forall_forall in HF. apply HF, elem_of_seqZ. cbn in Hx. lia.
  - assert (map_Forall (fun _ pg => PageReserved pg = true) (pages ex_boot)) as HF.
    { apply (bool_decide_unpack _). vm_compute. exact I. }
    intros x pg Hx. by apply (HF x).
Qed.

Lemma ex_pmm_spec :
  Inv none ex_pmm /\ (forall x, is_free ex_pmm x <-> 5 <= x < 64) /\ run_at ex_pmm 0 5 5 59.
Proof.
  assert (Heq : (do! buddy_init in buddy_init_memmap 5 59) ex_boot = Ok (tt, ex_pmm)) by (vm_compute; reflexivity).
  destruct (runs_elim _ _ _ _ _ (buddy_boot_runs ex_boot 5 59 ex_boot_state ltac:(lia) ltac:(lia) ltac:(cbn; lia)) Heq)
    as (HI&HF&_&Hr).
  split_and!; [exact HI|exact HF|exact Hr].
Qed.

Lemma buddy_boot_correct_witness :
  runs (do! buddy_init in buddy_init_memmap 5 59) ex_boot (fun _ s' =>
    Inv none s' /\ (forall x, is_free s' x <-> 5 <= x < 5 + 59) /\
    u32 (nr_free_sum 11 0 s') = 59 /\ run_at s' 0 5 5 59).
Proof. apply (buddy_boot_correct ex_boot 5 59 ex_boot_state); cbn; lia. Defined.

Lemma buddy_alloc_pages_correct_witness :
  0 < 6 <= 2 ^ MAX_ORDER /\
  runs (buddy_alloc_pages 6) ex_pmm (fun r s' => Inv none s' /\
    match r with Some p => nr_free_sum 11 0 s' = 53 | None => s' = ex_pmm end).
Proof.
  split; [done|].
  eapply runs_mono; [apply (buddy_alloc_pages_correct ex_pmm 6 (proj1 ex_pmm_spec)); done|].
  cbn beta. intros [p|] s' [HI H]; (split; [exact HI|]); [|exact (proj1 H)].
  rewrite (proj1 (proj2 (proj2 H))). vm_compute. reflexivity.
Defined.

(** Pages 53 .. 58 allocated, and given back in two parts of 3. *)
Definition ex_pmm6 : pmm := Eval vm_compute in state_of (buddy_alloc_pages 6 ex_pmm).

Lemma ex_pmm6_spec :
  Inv none ex_pmm6 /\ run_at ex_pmm6 0 5 53 3 /\ (forall x, 53 <= x < 53 + 3 -> ~ is_free ex_pmm6 x).
Proof.
  destruct ex_pmm_spec as (HI&_&Hr).
  assert (Heq : buddy_alloc_pages 6 ex_pmm = Ok (Some 53, ex_pmm6)) by (vm_compute; reflexivity).
  destruct (runs_elim _ _ _ _ _ (buddy_alloc_pages_runs ex_pmm 6 HI ltac:(done)) Heq) as [(HI'&HL&HP&HF&_) _].
  split_and!.
  - done.
  - eapply run_at_layout; [done|]. destruct Hr as (?&?&?&Hm). unfold run_at. split_and!; try done; try lia.
    intros x Hx. apply Hm. lia.
  - intros x Hx. rewrite HF. intros [_ Hn]. apply Hn. unfold in_run. lia.
Qed.

Lemma buddy_free_pages_correct_witness :
  runs (buddy_free_pages 53 3) ex_pmm6 (fun _ s' => Inv none s' /\ nr_free_sum 11 0 s' = 56).
Proof.
  destruct ex_pmm6_spec as (HI&Hr&Hnf).
  eapply runs_mono; [apply (buddy_free_pages_correct ex_pmm6 0 5 53 3 HI Hr Hnf); lia|].
  cbn beta. intros _ s' (?&_&_&->&_). split; [done|]. vm_compute. reflexivity.
Defined.

Lemma buddy_alloc_free_roundtrip_witness :
  runs (let! r := buddy_alloc_pages 6 in
        match r with Some p => buddy_free_pages p 6 | None => ret tt end) ex_pmm
    (fun _ s' => flist s' 3 ≡ₚ [53] /\ flist s' 1 ≡ₚ [61]).
Proof.
  eapply runs_mono; [apply (buddy_alloc_free_roundtrip ex_pmm 6 (proj1 ex_pmm_spec)); done|].
  cbn beta. intros _ s' H. split; [apply (H 3)|apply (H 1)].
Defined.

Lemma buddy_nr_free_pages_exact_witness :
  exists l, NoDup l /\ (forall x, x ∈ l <-> is_free ex_pmm x) /\
    buddy_nr_free_pages ex_pmm = Ok (Z.of_nat (length l), ex_pmm).
Proof. apply (buddy_nr_free_pages_exact ex_pmm (proj1 ex_pmm_spec)). Defined.

Lemma buddy_alloc_pages_too_big_witness : buddy_alloc_pages 1025 ex_pmm = Panic.
Proof. apply (buddy_alloc_pages_too_big ex_pmm 1025). done. Defined.
