(* ===== verification/Pmm.v ===== *)
(** * Physical pages and page tables (kern/mm/pmm.[ch], mmu.h, memlayout.h,
      thumips_tlb.[ch])

    The state adds to the allocator's the kernel's memory, read and written in
    32-bit words through kseg0 addresses, the emulated CR3 and the TLB.  As in
    the source, [page2pa] already includes KERNBASE, so that a "physical"
    address and the kernel virtual address of a page are the same number.

    The page allocator is reached through [struct pmm_manager], a record of
    operations; [PmmOk] is what the rest of the kernel relies on. *)

From stdpp Require Import base gmap list.
From Stdlib Require Import ZArith Lia Bool.
From S2P Require Import Prelude.
From S2P Require Import Atomic.
From S2P Require Import Buddy.
From S2P Require Import BuddyInv.
From S2P Require Import BuddyOps.
From S2P Require Import BuddyThm.

(** ** Address arithmetic *)

Definition KERNBASE : Z := 0x80000000.
Definition KMEMSIZE : Z := 0x2000000.
Definition KERNTOP : Z := KERNBASE + KMEMSIZE.
Definition USERBASE : Z := 0x10000000.
Definition USERTOP : Z := 0x80000000.
Definition PGSIZE : Z := 4096.
Definition PGSHIFT : Z := 12.
Definition PTSIZE : Z := 4194304.
Definition PTSHIFT : Z := 22.
Definition PTE_P : Z := 1.
Definition PTE_W : Z := 2.
Definition PTE_U : Z := 4.
Definition PTE_USER : Z := Z.lor PTE_U (Z.lor PTE_W PTE_P).

Definition PDX (la : Z) : Z := Z.land (Z.shiftr la 22) 0x3FF.
Definition PTX (la : Z) : Z := Z.land (Z.shiftr la 12) 0x3FF.
Definition PPN (la : Z) : Z := Z.shiftr (u32 (la - KERNBASE)) 12.
Definition PGOFF (la : Z) : Z := Z.land la 0xFFF.
Definition PTE_ADDR (pte : Z) : Z := Z.land pte (lnot32 0xFFF).
Definition PDE_ADDR (pde : Z) : Z := PTE_ADDR pde.

Definition USER_ACCESS (start end_ : Z) : bool :=
  (USERBASE <=? start) && (start <? end_) && (end_ <=? USERTOP).
Definition KERN_ACCESS (start end_ : Z) : bool :=
  (KERNBASE <=? start) && (start <? end_) && (end_ <=? KERNTOP).

(** ** Interface of a physical memory manager *)

(** [struct pmm_manager] (the name and the self test are left out). *)
Record pmm_manager := {
  pm_init : M pmm unit;
  pm_init_memmap : Z -> Z -> M pmm unit;
  pm_alloc_pages : Z -> M pmm (option Z);
  pm_free_pages : Z -> Z -> M pmm unit;
  pm_nr_free_pages : M pmm Z
}.

Definition buddy_pmm_manager : pmm_manager := {|
  pm_init := buddy_init;
  pm_init_memmap := buddy_init_memmap;
  pm_alloc_pages := buddy_alloc_pages;
  pm_free_pages := buddy_free_pages;
  pm_nr_free_pages := buddy_nr_free_pages
|}.

(** What a client may rely on.  [pm_owned s x]: page [x] is managed and handed
    out; [pm_nfree s]: the number of pages that are not, which is what the manager
    counts.  A single page is refused only when there is none. *)
Class PmmOk (pm : pmm_manager) := {
  pm_inv : pmm -> Prop;
  pm_owned : pmm -> Z -> Prop;
  pm_nfree : pmm -> Z;
  pm_owned_page s x : pm_inv s -> pm_owned s x -> 0 <= x < npage s /\ is_Some (pages s !! x);
  pm_nfree_nonneg s : pm_inv s -> 0 <= pm_nfree s;
  pm_nfree_counted s : pm_inv s -> runs (pm_nr_free_pages pm) s (fun r s' => r = pm_nfree s /\ s' = s);
  pm_alloc_page s : pm_inv s ->
    runs (pm_alloc_pages pm 1) s (fun r s' =>
      match r with
      | None => s' = s /\ pm_nfree s = 0
      | Some p => pm_inv s' /\ npage s' = npage s /\ ~ pm_owned s p /\ ref0 s' p /\ pm_owned s' p /\
          (forall x, pm_owned s x -> pm_owned s' x /\ pages s' !! x = pages s !! x) /\
          (forall x, pm_owned s' x -> x = p \/ pm_owned s x) /\ pm_nfree s' = pm_nfree s - 1
      end);
  pm_free_page s p : pm_inv s -> pm_owned s p ->
    runs (pm_free_pages pm p 1) s (fun _ s' =>
      pm_inv s' /\ npage s' = npage s /\ ~ pm_owned s' p /\
      (forall x, x <> p -> pm_owned s x -> pm_owned s' x /\ pages s' !! x = pages s !! x) /\
      (forall x, pm_owned s' x -> pm_owned s x) /\ pm_nfree s' = pm_nfree s + 1);
  pm_set_ref s p pg r : pm_inv s -> pm_owned s p -> pages s !! p = Some pg ->
    let s' := upd_pages (fun m => <[p := set_page_ref r pg]> m) s in
    pm_inv s' /\ (forall x, pm_owned s x <-> pm_owned s' x) /\ pm_nfree s' = pm_nfree s
}.

(** The buddy allocator provides it. *)
Definition buddy_owned (s : pmm) (x : Z) : Prop := (exists z b, run_at s z b x 1) /\ ~ is_free s x.

Lemma run_at_1 s z x : mgd s z x -> forall b, zones s !! z = Some b -> 0 <= b <= x -> x + 1 <= npage s -> run_at s z b x 1.
Proof. intros Hm b Hz Hb Hn. unfold run_at. split_and!; try done; try lia. intros y ?. by replace y with x by lia. Qed.

Lemma run_at_sub s z b p n x : run_at s z b p n -> p <= x < p + n -> run_at s z b x 1.
Proof. intros (Hz&Hb&Hn&Hm) Hx. apply run_at_1; [by apply Hm|done|lia|lia]. Qed.

Lemma buddy_set_ref s p pg r :
  Inv none s -> buddy_owned s p -> pages s !! p = Some pg ->
  let s' := upd_pages (fun m => <[p := set_page_ref r pg]> m) s in
  Inv none s' /\ (forall x, buddy_owned s x <-> buddy_owned s' x) /\ tot s' = tot s.
Proof.
  intros HI [_ Hnf] Hp s'.
  assert (Hl : same_lists s s') by done.
  assert (Hs : forall x pg', pages s' !! x = Some pg' -> exists pg0, pages s !! x = Some pg0 /\ page_sim s x pg0 pg').
  { intros x pg'. cbn. rewrite lookup_insert. case_decide as Hx; [subst x|].
    - intros [= <-]. exists pg. split; [done|]. unfold page_sim. by split_and!.
    - intros ?. exists pg'. split; [done|]. unfold page_sim. by split_and!. }
  assert (Hs' : forall x, is_Some (pages s !! x) -> is_Some (pages s' !! x)).
  { intros x [g Hg]. cbn. rewrite lookup_insert. case_decide; eauto. }
  split; [by eapply (Inv_sim none s s')|].
  pose proof (sim_layout s s' Hl Hs Hs') as HL. assert (HL' : same_layout s' s) by (by symmetry).
  split; [|done]. intros x. unfold buddy_owned. rewrite (sim_free s s') by done.
  split; intros [(z&b&Hr) ?]; (split; [exists z, b; by eapply run_at_layout|done]).
Qed.

(** An aligned block of free pages that holds [n]. *)
Definition buddy_fits (s : pmm) (n : Z) : Prop :=
  exists z b p k, 0 <= k <= MAX_ORDER /\ n <= 2 ^ k /\ blk_at s z b p k /\ forall x, p <= x < p + 2 ^ k -> is_free s x.

Lemma no_list_no_fit s n : Inv none s -> (forall k, n <= 2 ^ k -> flist s k = []) -> ~ buddy_fits s n.
Proof.
  intros HI Hemp (z&b&p&k&Hk&Hnk&Hb&Hfree). destruct (free_region_in_block s z b p k HI Hk Hb Hfree) as (q&j&Hq&Hkj&_).
  rewrite Hemp in Hq; [by apply elem_of_nil in Hq|]. assert (2 ^ k <= 2 ^ j) by (apply Z.pow_le_mono_r; lia). lia.
Qed.

Lemma free_fits s x : Inv none s -> is_free s x -> buddy_fits s 1.
Proof.
  intros HI (k&p&Hp&_). pose proof (i_order _ _ HI _ _ Hp) as Hk. destruct (i_block _ _ HI _ _ Hp) as (z&b&Hb).
  exists z, b, p, k. split; [done|]. split; [pose proof (pow2_pos k); lia|]. split; [done|]. intros y Hy. by exists k, p.
Qed.

Lemma no_free_tot s : Inv none s -> (forall x, ~ is_free s x) <-> tot s = 0.
Proof.
  intros HI. destruct (free_page_list_spec none s HI) as (_&Hel&Hlen). rewrite <- Hlen. split.
  - intros Hno. destruct (free_page_list s) as [|x l] eqn:He; [done|]. destruct (Hno x). apply Hel. left.
  - intros H0 x Hx%Hel. destruct (free_page_list s); [by apply elem_of_nil in Hx|done].
Qed.

Lemma no_list_tot s : Inv none s -> (forall k, 1 <= 2 ^ k -> flist s k = []) -> tot s = 0.
Proof.
  intros HI Hemp. apply no_free_tot; [done|]. intros x (k&p&Hp&_). pose proof (i_order _ _ HI _ _ Hp) as Hk.
  rewrite Hemp in Hp; [by apply elem_of_nil in Hp|]. pose proof (pow2_pos k). lia.
Qed.

#[export] Instance buddy_pmm_ok : PmmOk buddy_pmm_manager.
Proof.
  refine {| pm_inv := Inv none; pm_owned := buddy_owned; pm_nfree := tot |}.
  - intros s x HI [(z&b&_&?&?&_) _]. assert (0 <= x < npage s) by lia. split; [done|]. by apply (i_pages none s HI).
  - intros s HI. by apply (tot_range none).
  - intros s HI. cbn. unfold buddy_nr_free_pages. runs_steps. fold (tot s). split; [|done]. apply u32_small.
    pose proof (tot_range none s HI). pose proof (i_npage none s HI). cbv [is_u32 W32]. cbn in *. lia.
  - intros s HI. cbn. eapply runs_mono; [by apply buddy_alloc_pages_runs|]. cbn beta. intros [p|] s'.
    2: { intros [-> Hemp]. split; [done|]. by apply no_list_tot. }
    intros [(HI'&HL&HP&HF&HT&HR&HU) (z&b&k&Hr&_)]. assert (HL' : same_layout s' s) by (by symmetry).
    assert (in_run p 1 p) as Hpp by (unfold in_run; lia).
    split_and!; [done|by destruct HL as (?&_)|intros [_ Hnf]; by apply Hnf, HP|by apply HR| | | |done].
    + split; [by exists z, b|]. rewrite HF. tauto.
    + intros x [(z'&b'&?) Hnf]. split; [|by apply HU]. split; [exists z', b'; by eapply run_at_layout|]. rewrite HF. tauto.
    + intros x [(z'&b'&?) Hnf]. rewrite HF in Hnf. destruct (decide (x = p)) as [|Hne]; [by left|right].
      split; [exists z', b'; by eapply run_at_layout|]. intros Hf. apply Hnf. split; [done|]. unfold in_run. lia.
  - intros s p HI [(z&b&Hr) Hnf]. cbn. eapply runs_mono.
    { apply (buddy_free_pages_runs s z b p 1 HI Hr); [|lia]. intros x ?. unfold in_run in *. by replace x with p by lia. }
    cbn beta. intros _ s' (HI'&HL&HF&HT&HU). assert (HL' : same_layout s' s) by (by symmetry).
    split_and!; [done|by destruct HL as (?&_)| | | |done].
    + intros [_ Hnf']. apply Hnf', HF. right. unfold in_run. lia.
    + intros x Hx [(z'&b'&?) Hnfx]. assert (~ in_run p 1 x) by (unfold in_run; lia).
      split; [|by apply HU]. split; [exists z', b'; by eapply run_at_layout|]. rewrite HF. tauto.
    + intros x [(z'&b'&?) Hnf']. split; [exists z', b'; by eapply run_at_layout|]. rewrite HF in Hnf'. tauto.
  - apply buddy_set_ref.
Defined.

(** Pages of the slab allocator are marked. *)
Definition PageSlab (p : Page) : bool := test_bit PG_slab (flags p).
Definition SetPageSlab (p : Page) : Page := set_flags (set_bit PG_slab (flags p)) p.
Definition ClearPageSlab (p : Page) : Page := set_flags (clear_bit PG_slab (flags p)) p.
Definition mark_slab (b : bool) (p : Page) : Page := if b then SetPageSlab p else ClearPageSlab p.

Lemma PageSlab_mark b p : PageSlab (mark_slab b p) = b.
Proof. unfold PageSlab, mark_slab, SetPageSlab, ClearPageSlab, PG_slab. destruct b; cbn [flags set_flags]; [rewrite test_set_bit by lia|rewrite test_clear_bit by lia]; done. Qed.

Lemma mark_slab_sim s x b p : page_sim s x p (mark_slab b p).
Proof.
  unfold page_sim, PageReserved, PageProperty, mark_slab, SetPageSlab, ClearPageSlab, PG_reserved, PG_property, PG_slab.
  destruct b; cbn [ref flags property zone_num set_flags]; rewrite ?test_set_bit, ?test_clear_bit by lia; by split_and!.
Qed.

Lemma buddy_set_slab s p pg b :
  Inv none s -> buddy_owned s p -> pages s !! p = Some pg ->
  let s' := upd_pages (fun m => <[p := mark_slab b pg]> m) s in
  Inv none s' /\ (forall x, buddy_owned s x <-> buddy_owned s' x) /\ same_layout s s' /\ (forall x, is_free s' x <-> is_free s x) /\ tot s' = tot s.
Proof.
  intros HI Ho Hp s'. assert (Hl : same_lists s s') by done.
  assert (Hs : forall x pg', pages s' !! x = Some pg' -> exists pg0, pages s !! x = Some pg0 /\ page_sim s x pg0 pg').
  { intros x pg'. cbn. rewrite lookup_insert. case_decide as Hx; [subst x|].
    - intros [= <-]. exists pg. split; [done|]. apply mark_slab_sim.
    - intros ?. exists pg'. split; [done|]. unfold page_sim. by split_and!. }
  assert (Hs' : forall x, is_Some (pages s !! x) -> is_Some (pages s' !! x)).
  { intros x [g Hg]. cbn. rewrite lookup_insert. case_decide; eauto. }
  pose proof (sim_layout s s' Hl Hs Hs') as HL. assert (HL' : same_layout s' s) by (by symmetry).
  split; [by eapply (Inv_sim none s s')|]. split; [|split; [done|split; [by apply sim_free|done]]].
  intros x. unfold buddy_owned. rewrite (sim_free s s') by done.
  split; intros [(z&b'&Hr) ?]; (split; [exists z, b'; by eapply run_at_layout|done]).
Qed.

(** Runs of several pages, as kernel stacks are.  [pm_run s p n]: the pages from [p]
    to [p + n - 1] are handed out and may be given back together; [pm_fits s n]: there
    is room for [n] pages in one piece, without which alone they are refused. *)
Class PmmRunOk (pm : pmm_manager) `{!PmmOk pm} := {
  pm_run : pmm -> Z -> Z -> Prop;
  pm_fits : pmm -> Z -> Prop;
  pm_fits_le s n m : n <= m -> pm_fits s m -> pm_fits s n;
  pm_fits_one s : pm_inv s -> 0 < pm_nfree s -> pm_fits s 1;
  pm_run_owned s p n x : pm_run s p n -> p <= x < p + n -> pm_owned s x;
  pm_alloc_run s n : pm_inv s -> 1 <= n <= 1024 ->
    runs (pm_alloc_pages pm n) s (fun r s' =>
      match r with
      | None => s' = s /\ ~ pm_fits s n
      | Some p => pm_inv s' /\ npage s' = npage s /\ pm_run s' p n /\ (forall x, p <= x < p + n -> ~ pm_owned s x) /\
          (forall x, pm_owned s x -> pm_owned s' x /\ pages s' !! x = pages s !! x) /\
          (forall q m, pm_run s q m -> pm_run s' q m) /\
          (forall x, pm_owned s' x -> p <= x < p + n \/ pm_owned s x) /\ pm_nfree s' = pm_nfree s - n
      end);
  pm_free_run s p n : pm_inv s -> pm_run s p n -> 1 <= n <= 1024 ->
    runs (pm_free_pages pm p n) s (fun _ s' =>
      pm_inv s' /\ npage s' = npage s /\ (forall x, p <= x < p + n -> ~ pm_owned s' x) /\
      (forall x, ~ p <= x < p + n -> pm_owned s x -> pm_owned s' x /\ pages s' !! x = pages s !! x) /\
      (forall q m, pm_run s q m -> (forall x, p <= x < p + n -> ~ q <= x < q + m) -> pm_run s' q m) /\
      (forall x, pm_owned s' x -> pm_owned s x) /\ pm_nfree s' = pm_nfree s + n);
  pm_set_slab s p pg b : pm_inv s -> pm_owned s p -> pages s !! p = Some pg ->
    let s' := upd_pages (fun m => <[p := mark_slab b pg]> m) s in
    pm_inv s' /\ (forall x, pm_owned s x <-> pm_owned s' x) /\ (forall q m, pm_run s q m -> pm_run s' q m) /\ pm_nfree s' = pm_nfree s
}.

#[export] Instance buddy_run_ok : PmmRunOk buddy_pmm_manager.
Proof.
  refine {| pm_run s p n := (exists z b, run_at s z b p n) /\ forall x, p <= x < p + n -> ~ is_free s x; pm_fits := buddy_fits |}.
  - intros s n m Hnm (z&b&p&k&?&?&?&?). exists z, b, p, k. split; [done|]. split; [lia|done].
  - intros s HI Hfr. destruct (free_page_list_spec none s HI) as (_&Hel&Hlen). change (0 < tot s) in Hfr. rewrite <- Hlen in Hfr.
    destruct (free_page_list s) as [|x l]; [done|]. apply (free_fits s x HI), Hel. left.
  - intros s p n x [(z&b&Hr) Hf] Hx. split; [exists z, b; by eapply run_at_sub|by apply Hf].
  - intros s n HI Hn. cbn. eapply runs_mono; [apply buddy_alloc_pages_runs; [done|unfold MAX_ORDER; lia]|]. cbn beta. intros [p|] s'.
    2: { intros [-> Hemp]. split; [done|]. by apply no_list_no_fit. }
    intros [(HI'&HL&HP&HF&HT&HR&HU) (z&b&k&Hr&_)]. assert (HL' : same_layout s' s) by (by symmetry).
    split; [done|]. split; [by destruct HL as (?&_)|]. split; [|split; [|split; [|split; [|split; [|done]]]]].
    + split; [by exists z, b|]. intros x Hx. rewrite HF. unfold in_run. tauto.
    + intros x Hx [_ Hnf]. apply Hnf, HP. done.
    + intros x [(z'&b'&?) Hnf]. split; [|by apply HU]. split; [exists z', b'; by eapply run_at_layout|]. rewrite HF. tauto.
    + intros q m [(z'&b'&?) Hnf]. split; [exists z', b'; by eapply run_at_layout|]. intros x Hx. rewrite HF. intros [? _]. by apply (Hnf x).
    + intros x [(z'&b'&?) Hnf]. rewrite HF in Hnf. destruct (decide (p <= x < p + n)) as [|Hne]; [by left|right].
      split; [exists z', b'; by eapply run_at_layout|]. intros Hf. apply Hnf. by split.
  - intros s p n HI [(z&b&Hr) Hnf] Hn. cbn. eapply runs_mono.
    { apply (buddy_free_pages_runs s z b p n HI Hr); [|lia]. intros x ?. by apply Hnf. }
    cbn beta. intros _ s' (HI'&HL&HF&HT&HU). assert (HL' : same_layout s' s) by (by symmetry).
    split; [done|]. split; [by destruct HL as (?&_)|]. split; [|split; [|split; [|split; [|done]]]].
    + intros x Hx [_ Hnf']. apply Hnf', HF. by right.
    + intros x Hx [(z'&b'&?) Hnfx]. assert (~ in_run p n x) by (unfold in_run; lia).
      split; [|by apply HU]. split; [exists z', b'; by eapply run_at_layout|]. rewrite HF. tauto.
    + intros q m [(z'&b'&?) Hnfq] Hd. split; [exists z', b'; by eapply run_at_layout|]. intros x Hx. rewrite HF.
      intros [Hf|Hin]; [by apply (Hnfq x)|]. by apply (Hd x).
    + intros x [(z'&b'&?) Hnf']. split; [exists z', b'; by eapply run_at_layout|]. rewrite HF in Hnf'. tauto.
  - intros s p pg b HI Ho Hp. destruct (buddy_set_slab s p pg b HI Ho Hp) as (HI'&Hown&HL&Hfr&HT). split; [done|]. split; [done|]. split; [|done].
    intros q m [(z'&b'&?) Hnfq]. split; [exists z', b'; by eapply run_at_layout|]. intros x Hx. rewrite Hfr. by apply Hnfq.
Defined.
