(* ===== verification/PageTable.v ===== *)
(** * Page tables and the TLB (kern/mm/pmm.c from [alloc_pages] on, pmm.h,
      thumips_tlb.[ch], glue_pgmap.h)

    The state adds to the allocator's the kernel's memory, read and written in
    32-bit words through kseg0 addresses, [current_pgdir] (the emulated CR3),
    the CP0 status word and the TLB.  A page pointer is an index into [pages];
    a [pde_t*] or [pte_t*] is a kernel address, NULL is [None].  As in the
    source, [page2pa] already includes KERNBASE, so that a "physical" address
    and the kernel virtual address of a page are the same number.

    The page allocator is the argument [pm], reached only through
    [struct pmm_manager]. *)

From stdpp Require Import base gmap list.
From Stdlib Require Import ZArith Lia Bool Ascii.
From S2P Require Import Prelude.
From S2P Require Import Atomic.
From S2P Require Import Buddy.
From S2P Require Import Pmm.

Record tlb_entry := mkTlb { t_hi : Z; t_lo0 : Z; t_lo1 : Z }.

Record vm := mkVm {
  vpm : pmm;
  mem : Z -> Z;
  current_pgdir : Z;
  status : Z;
  tlb : gmap Z tlb_entry;
  tlb_index : Z  (* the static [index] of [tlb_refill] *)
}.

Definition upd_mem (f : (Z -> Z) -> Z -> Z) (s : vm) : vm :=
  mkVm (vpm s) (f (mem s)) (current_pgdir s) (status s) (tlb s) (tlb_index s).
Definition set_vpm (p : pmm) (s : vm) : vm :=
  mkVm p (mem s) (current_pgdir s) (status s) (tlb s) (tlb_index s).
Definition set_tlb (t : gmap Z tlb_entry) (s : vm) : vm :=
  mkVm (vpm s) (mem s) (current_pgdir s) (status s) t (tlb_index s).

(** Words of memory; [memset] to zero and [memcpy] of [n] bytes, word-aligned. *)
Definition ldw (a : Z) : M vm Z := gets (fun s => mem s a).
Definition upd_word (a v : Z) (m : Z -> Z) : Z -> Z := fun x => if x =? a then v else m x.
Definition fill0 (a n : Z) (m : Z -> Z) : Z -> Z :=
  fun x => if (a <=? x) && (x <? a + n) then 0 else m x.
Definition copyw (dst src n : Z) (m : Z -> Z) : Z -> Z :=
  fun x => if (dst <=? x) && (x <? dst + n) then m (x - dst + src) else m x.
Definition stw (a v : Z) : M vm unit := modify (upd_mem (upd_word a v)).
Definition memset0 (a n : Z) : M vm unit := modify (upd_mem (fill0 a n)).
Definition memcpy (dst src n : Z) : M vm unit := modify (upd_mem (copyw dst src n)).

(** ** Address conversions of pmm.h *)

Definition PADDR (kva : Z) : M vm Z := if kva <? KERNBASE then panic else ret kva.
Definition KADDR (pa : Z) : M vm Z :=
  let! s := get in
  if npage (vpm s) <=? PPN pa then panic else ret pa.
Definition page2ppn (page : Z) : Z := page.
Definition page2pa (page : Z) : Z := u32 (KERNBASE + Z.shiftl (page2ppn page) PGSHIFT).
Definition pa2page (pa : Z) : M vm Z :=
  let! s := get in
  if npage (vpm s) <=? PPN pa then panic else ret (PPN pa).
Definition page2kva (page : Z) : M vm Z := KADDR (page2pa page).
Definition kva2page (kva : Z) : M vm Z := let! pa := PADDR kva in pa2page pa.
Definition pte2page (pte : Z) : M vm Z :=
  if Z.land pte PTE_P =? 0 then panic else pa2page (PTE_ADDR pte).
Definition pde2page (pde : Z) : M vm Z := pa2page (PDE_ADDR pde).

Definition on_pmm {A} (m : M pmm A) : M vm A := zoom vpm set_vpm m.
Definition page_ref (p : Z) : M vm Z := on_pmm (let! pg := rd_page p in ret (ref pg)).
Definition page_ref_inc (p : Z) : M vm unit :=
  on_pmm (upd_page p (fun pg => set_page_ref (atomic_add_return 1 (ref pg)) pg)).
Definition page_ref_dec (p : Z) : M vm unit :=
  on_pmm (upd_page p (fun pg => set_page_ref (atomic_sub_return 1 (ref pg)) pg)).

(** ** The TLB *)

Definition write_one_tlb (index hi low0 low1 : Z) : M vm unit :=
  modify (fun s => set_tlb (<[index := mkTlb hi low0 low1]> (tlb s)) s).

Fixpoint tlb_invalidate_loop (k : nat) (i : Z) : M vm unit :=
  match k with
  | O => ret tt
  | S k =>
      do! write_one_tlb i (u32 (0x80000000 + Z.shiftl i 20)) 0 0 in
      tlb_invalidate_loop k (i + 1)
  end.
Definition tlb_invalidate_all : M vm unit := tlb_invalidate_loop 128 0.
Definition tlb_invalidate (pgdir la : Z) : M vm unit := tlb_invalidate_all.

Definition ptep_invalid (pte : Z) : bool := pte =? 0.
Definition ptep_present (pte : Z) : bool := negb (Z.land pte PTE_P =? 0).
Definition ptep_s_write (pte : Z) : bool := negb (Z.land pte PTE_W =? 0).
Definition ptep_u_read (pte : Z) : bool := negb (Z.land pte PTE_U =? 0).
Definition ptep_u_write (pte : Z) : bool :=
  negb (Z.land pte PTE_U =? 0) && negb (Z.land pte PTE_W =? 0).

(** THUMIPS_TLB_ENTRYL_V, _G, _D. *)
Definition pte2tlblow (pte : Z) : Z :=
  let t := u32 (Z.shiftl (Z.shiftr (u32 (pte - KERNBASE)) 12) 6) in
  if negb (ptep_present pte) then 0
  else
    let t := Z.lor (Z.lor (Z.lor t 2) 1) (Z.shiftl 2 3) in
    if ptep_s_write pte then Z.lor t 4 else t.

Definition tlb_refill (badaddr : Z) (pte : option Z) : M vm unit :=
  match pte with
  | None => ret tt
  | Some pte =>
      let pte := if negb (Z.land badaddr (Z.shiftl 1 12) =? 0) then pte - 4 else pte in
      let! lo0 := ldw pte in
      let! lo1 := ldw (pte + 4) in
      let! s := get in
      do! write_one_tlb (Z.land (tlb_index s) 0xF) (Z.land badaddr (lnot32 0x1FFF))
            (pte2tlblow lo0) (pte2tlblow lo1) in
      modify (fun s => mkVm (vpm s) (mem s) (current_pgdir s) (status s) (tlb s)
                            (u32 (tlb_index s + 1)))
  end.

Definition lcr3 (cr3 : Z) : M vm unit :=
  modify (fun s => mkVm (vpm s) (mem s) cr3 (status s) (tlb s) (tlb_index s)).

(** ** Page operations *)

Section Ops.
    Variable pm : pmm_manager.

(** [local_intr_save; ...; local_intr_restore] around a call of the manager. *)
Definition locked {A} (body : M pmm A) : M vm A :=
  zoom (fun s => (status s, vpm s))
       (fun t s => mkVm (snd t) (mem s) (current_pgdir s) (fst t) (tlb s) (tlb_index s))
       (critical body).

Definition alloc_pages (n : Z) : M vm (option Z) := locked (pm_alloc_pages pm n).
Definition free_pages (base n : Z) : M vm unit := locked (pm_free_pages pm base n).
Definition nr_free_pages : M vm Z := locked (pm_nr_free_pages pm).
Definition init_memmap (base n : Z) : M vm unit := on_pmm (pm_init_memmap pm base n).
Definition alloc_page : M vm (option Z) := alloc_pages 1.
Definition free_page (p : Z) : M vm unit := free_pages p 1.

Definition get_pte (pgdir la : Z) (create : bool) : M vm (option Z) :=
  let pdep := u32 (pgdir + 4 * PDX la) in
  let! pde := ldw pdep in
  let! ok :=
    (if Z.land pde PTE_P =? 0 then
       if negb create then ret false
       else
         let! new_pte := alloc_page in
         match new_pte with
         | None => ret false
         | Some new_pte =>
             do! page_ref_inc new_pte in
             let! pa := page2kva new_pte in
             do! memset0 pa PGSIZE in
             let! v := PADDR pa in
             do! stw pdep v in
             let! v := ldw pdep in
             do! stw pdep (Z.lor v (Z.lor PTE_U (Z.lor PTE_P PTE_W))) in
             ret true
         end
     else ret true) in
  if ok : bool then
    let! pde := ldw pdep in
    let! r := KADDR (u32 (PDE_ADDR pde + 4 * PTX la)) in
    ret (Some r)
  else ret None.

(** The result and what is stored through [ptep_store]. *)
Definition get_page (pgdir la : Z) : M vm (option Z * option Z) :=
  let! ptep := get_pte pgdir la false in
  match ptep with
  | Some a =>
      let! pte := ldw a in
      if negb (Z.land pte PTE_P =? 0) then
        let! p := pa2page pte in ret (Some p, ptep)
      else ret (None, ptep)
  | None => ret (None, ptep)
  end.

Definition page_remove_pte (pgdir la : Z) (ptep : option Z) : M vm unit :=
  do! match ptep with
      | Some a =>
          let! pte := ldw a in
          if negb (Z.land pte PTE_P =? 0) then
            let! page := pte2page pte in
            do! page_ref_dec page in
            let! r := page_ref page in
            do! (if r =? 0 then free_page page else ret tt) in
            stw a 0
          else ret tt
      | None => ret tt
      end in
  tlb_invalidate_all.

Definition page_remove (pgdir la : Z) : M vm unit :=
  let! ptep := get_pte pgdir la false in
  match ptep with
  | Some _ => page_remove_pte pgdir la ptep
  | None => ret tt
  end.

Definition page_insert (pgdir page la perm : Z) : M vm Z :=
  let! ptep := get_pte pgdir la true in
  match ptep with
  | None => ret (- E_NO_MEM)
  | Some a =>
      do! page_ref_inc page in
      let! pte := ldw a in
      do! (if negb (Z.land pte PTE_P =? 0) then
             let! p := pte2page pte in
             if p =? page then page_ref_dec page
             else page_remove_pte pgdir la ptep
           else ret tt) in
      do! stw a (Z.lor (Z.lor (page2pa page) PTE_P) perm) in
      do! tlb_invalidate pgdir la in
      ret 0
  end.

(** [swap_init_ok] is 0 and never assigned: the panic after it is unreachable. *)
Definition pgdir_alloc_page (pgdir la perm : Z) : M vm (option Z) :=
  let! page := alloc_page in
  match page with
  | Some p =>
      let! r := page_insert pgdir p la perm in
      if negb (r =? 0) then do! free_page p in ret None
      else ret (Some p)
  | None => ret None
  end.

Fixpoint boot_map_loop (n : nat) (pgdir la pa perm : Z) : M vm unit :=
  match n with
  | O => ret tt
  | S n =>
      let! ptep := get_pte pgdir la true in
      match ptep with
      | None => panic
      | Some a =>
          do! stw a (Z.lor (Z.lor pa PTE_P) perm) in
          boot_map_loop n pgdir (u32 (la + PGSIZE)) (u32 (pa + PGSIZE)) perm
      end
  end.
Definition boot_map_segment (pgdir la size pa perm : Z) : M vm unit :=
  do! assert_ (PGOFF la =? PGOFF pa) in
  let n := Z.shiftr (ROUNDUP_2N (u32 (size + PGOFF la)) PGSHIFT) PGSHIFT in
  boot_map_loop (Z.to_nat n) pgdir (ROUNDDOWN_2N la PGSHIFT) (ROUNDDOWN_2N pa PGSHIFT) perm.

Definition boot_alloc_page : M vm Z :=
  let! p := alloc_page in
  match p with None => panic | Some p => page2kva p end.

(** The body of the loop of [unmap_range]: the next [start]. *)
Definition unmap_step (pgdir start : Z) : M vm Z :=
  let! ptep := get_pte pgdir start false in
  match ptep with
  | None => ret (ROUNDDOWN_2N (u32 (start + PTSIZE)) PTSHIFT)
  | Some a =>
      let! pte := ldw a in
      do! (if negb (pte =? 0) then page_remove_pte pgdir start ptep else ret tt) in
      ret (u32 (start + PGSIZE))
  end.
(** [do { ... } while (start != 0 && start < end)] *)
Fixpoint unmap_loop (fuel : nat) (pgdir start end_ : Z) : M vm unit :=
  match fuel with
  | O => nofuel
  | S fuel =>
      let! start := unmap_step pgdir start in
      if negb (start =? 0) && (start <? end_) then unmap_loop fuel pgdir start end_ else ret tt
  end.
(** Every round advances [start] by at least a page. *)
Definition pages_fuel (start end_ : Z) : nat := S (Z.to_nat (Z.shiftr (end_ - start) PGSHIFT)).
Definition unmap_range (pgdir start end_ : Z) : M vm unit :=
  do! assert_ ((start mod PGSIZE =? 0) && (end_ mod PGSIZE =? 0)) in
  do! assert_ (USER_ACCESS start end_) in
  unmap_loop (pages_fuel start end_) pgdir start end_.

(** The body of the loop of [exit_range]. *)
Definition exit_step (pgdir start : Z) : M vm unit :=
  let pdep := u32 (pgdir + 4 * PDX start) in
  let! pde := ldw pdep in
  if negb (Z.land pde PTE_P =? 0) then
    let! p := pde2page pde in
    do! free_page p in
    stw pdep 0
  else ret tt.
Fixpoint exit_loop (fuel : nat) (pgdir start end_ : Z) : M vm unit :=
  match fuel with
  | O => nofuel
  | S fuel =>
      do! exit_step pgdir start in
      let start := u32 (start + PTSIZE) in
      if negb (start =? 0) && (start <? end_) then exit_loop fuel pgdir start end_ else ret tt
  end.
Definition exit_range (pgdir start end_ : Z) : M vm unit :=
  do! assert_ ((start mod PGSIZE =? 0) && (end_ mod PGSIZE =? 0)) in
  do! assert_ (USER_ACCESS start end_) in
  exit_loop (pages_fuel start end_) pgdir (ROUNDDOWN_2N start PTSHIFT) end_.

(** One round of [copy_range]: the next [start], or an error to return. *)
Definition copy_step (to from start : Z) : M vm (Z + Z) :=
  let! ptep := get_pte from start false in
  match ptep with
  | None => ret (inl (ROUNDDOWN_2N (u32 (start + PTSIZE)) PGSHIFT))
  | Some a =>
      let! pte := ldw a in
      if negb (Z.land pte PTE_P =? 0) then
        let! nptep := get_pte to start true in
        match nptep with
        | None => ret (inr (- E_NO_MEM))
        | Some _ =>
            let! pte := ldw a in
            let perm := Z.land pte PTE_USER in
            let! page := pte2page pte in
            let! npage := alloc_page in
            match npage with
            | None => panic
            | Some npage =>
                let! dst := page2kva npage in
                let! src := page2kva page in
                do! memcpy dst src PGSIZE in
                let! _ := page_insert to npage start perm in
                ret (inl (u32 (start + PGSIZE)))
            end
        end
      else ret (inl (u32 (start + PGSIZE)))
  end.
Fixpoint copy_loop (fuel : nat) (to from start end_ : Z) : M vm Z :=
  match fuel with
  | O => nofuel
  | S fuel =>
      let! r := copy_step to from start in
      match r with
      | inr e => ret e
      | inl start =>
          if negb (start =? 0) && (start <? end_) then copy_loop fuel to from start end_ else ret 0
      end
  end.
Definition copy_range (to from start end_ : Z) (share : bool) : M vm Z :=
  do! assert_ ((start mod PGSIZE =? 0) && (end_ mod PGSIZE =? 0)) in
  do! assert_ (USER_ACCESS start end_) in
  copy_loop (pages_fuel start end_) to from start end_.

End Ops.

(** ** Listing a page table *)

Local Open Scope char_scope.
Definition perm2str (perm : Z) : list ascii :=
  [ if negb (Z.land perm PTE_U =? 0)%Z then "u" else "-"; "r";
    if negb (Z.land perm PTE_W =? 0)%Z then "w" else "-" ].
Local Close Scope char_scope.

(** [while (start < right && !c(start)) start ++;] *)
Fixpoint scan (fuel : nat) (stop : Z -> bool) (start right : Z) : Z :=
  match fuel with
  | O => start
  | S fuel => if (start <? right) && negb (stop start) then scan fuel stop (start + 1) right else start
  end.

(** Permission (0 for none), and what is stored through [left_store] and
    [right_store]. *)
Definition get_pgtable_items (right start : Z) (table : Z -> Z) : Z * option (Z * Z) :=
  if right <=? start then (0, None)
  else
    let start := scan (Z.to_nat (right - start)) (fun i => negb (Z.land (table i) PTE_P =? 0)) start right in
    if start <? right then
      let left := start in
      let perm := Z.land (table start) PTE_USER in
      let start := start + 1 in
      let start := scan (Z.to_nat (right - start)) (fun i => negb (Z.land (table i) PTE_USER =? perm)) start right in
      (perm, Some (left, start))
    else (0, None).
