(* ===== verification/PageTableInv.v ===== *)
(** * What the page tables represent

    An abstract address-space state: the page directories, their page tables,
    the mappings [(directory, virtual page) -> (page, permission bits)] and the
    pages handed to user mappings.  [VRep] relates it to the words of memory
    and to the reference counts; the lemmas are the arithmetic of entries and
    the effect of one memory write on [VRep]. *)

From stdpp Require Import base gmap list fin_map_dom.
From Stdlib Require Import ZArith Lia Bool.
From S2P Require Import Prelude.
From S2P Require Import Atomic.
From S2P Require Import Buddy.
From S2P Require Import BuddyInv.
From S2P Require Import BuddyOps.
From S2P Require Import Pmm.
From S2P Require Import PageTable.

(** ** Arithmetic of addresses and entries *)

Definition kva (x : Z) : Z := KERNBASE + 4096 * x.
(** The [k]-th word of page [x]. *)
Definition slot (x k : Z) : Z := kva x + 4 * k.
Definition MAXPAGE : Z := 524288.
(** Virtual page number. *)
Definition vpn (la : Z) : Z := la / 4096.
(** The entry that maps page [p]. *)
Definition entry (p perm : Z) : Z := Z.lor (Z.lor (kva p) PTE_P) perm.

Ltac addr := unfold slot, entry, vpn, kva, KERNBASE, MAXPAGE, PGSIZE, PTSIZE, is_u32, u32, W32, PGSHIFT, PTSHIFT,
  page2ppn in *.

Lemma page2pa_kva x : 0 <= x < MAXPAGE -> page2pa x = kva x.
Proof. intros Hx. unfold page2pa. addr. rewrite Z.shiftl_mul_pow2 by lia. mlia. Qed.

Lemma PPN_kva x o : 0 <= x < MAXPAGE -> 0 <= o < 4096 -> PPN (kva x + o) = x.
Proof. intros Hx Ho. unfold PPN. addr. rewrite Z.shiftr_div_pow2 by lia. change (2 ^ 12) with 4096. mlia. Qed.

Lemma PTE_ADDR_kva x o : 0 <= x < MAXPAGE -> 0 <= o < 4096 -> PTE_ADDR (kva x + o) = kva x.
Proof.
  intros Hx Ho. unfold PTE_ADDR. change 0xFFF with (Z.ones 12). rewrite land_lnot32 by (addr; lia).
  change (2 ^ 12) with 4096. addr. mlia.
Qed.

Lemma lor_small a b : 0 <= a < 4096 -> 0 <= b < 4096 -> 0 <= Z.lor a b < 4096.
Proof.
  intros Ha Hb. assert (0 <= Z.lor a b) by (apply Z.lor_nonneg; lia). split; [done|].
  destruct (decide (Z.lor a b = 0)); [lia|]. apply (Z.log2_lt_pow2 _ 12); [lia|].
  rewrite Z.log2_lor by lia. apply Z.max_lub_lt.
  - destruct (decide (a = 0)) as [->|]; [done|]. apply Z.log2_lt_pow2; lia.
  - destruct (decide (b = 0)) as [->|]; [done|]. apply Z.log2_lt_pow2; lia.
Qed.

Lemma entry_split p perm :
  0 <= p < MAXPAGE -> 0 <= perm < 4096 -> exists o, entry p perm = kva p + o /\ 0 <= o < 4096 /\ Z.testbit o 0 = true.
Proof.
  intros Hp Hperm. exists (Z.lor 1 perm). unfold entry, PTE_P. rewrite <- Z.lor_assoc.
  assert (0 <= Z.lor 1 perm < 4096) by (apply lor_small; lia).
  split_and!; try lia.
  - apply (lor_low_high 12); [lia| |done]. change (2 ^ 12) with 4096. addr. mlia.
  - by rewrite Z.lor_spec.
Qed.

Lemma land_1 w : Z.land w 1 = if Z.testbit w 0 then 1 else 0.
Proof. apply land_IE. Qed.

Lemma kva_even p o : Z.testbit (kva p + o) 0 = Z.testbit o 0.
Proof. rewrite !Z.bit0_odd. unfold kva, KERNBASE. rewrite !Z.odd_add, Z.odd_mul. by destruct (Z.odd o). Qed.

(** What the code reads off an entry. *)
Lemma entry_present p perm : 0 <= p < MAXPAGE -> 0 <= perm < 4096 -> Z.land (entry p perm) PTE_P = 1.
Proof. intros Hp Hm. destruct (entry_split p perm) as (o&->&_&Ho); [done..|]. unfold PTE_P. by rewrite land_1, kva_even, Ho. Qed.
Lemma entry_PPN p perm : 0 <= p < MAXPAGE -> 0 <= perm < 4096 -> PPN (entry p perm) = p.
Proof. intros Hp Hm. destruct (entry_split p perm) as (o&->&?&_); [done..|]. by apply PPN_kva. Qed.
Lemma entry_ADDR p perm : 0 <= p < MAXPAGE -> 0 <= perm < 4096 -> PTE_ADDR (entry p perm) = kva p.
Proof. intros Hp Hm. destruct (entry_split p perm) as (o&->&?&_); [done..|]. by apply PTE_ADDR_kva. Qed.
Lemma entry_nonzero p perm : 0 <= p < MAXPAGE -> 0 <= perm < 4096 -> entry p perm <> 0.
Proof. intros Hp Hm. destruct (entry_split p perm) as (o&->&?&_); [done..|]. addr. lia. Qed.

Lemma PDX_spec la : is_u32 la -> PDX la = vpn la / 1024 /\ 0 <= PDX la < 1024.
Proof.
  intros Hla. unfold PDX. change 0x3FF with (Z.ones 10). rewrite Z.land_ones, Z.shiftr_div_pow2 by lia.
  change (2 ^ 22) with 4194304. change (2 ^ 10) with 1024. addr. mlia.
Qed.
Lemma PTX_spec la : is_u32 la -> PTX la = vpn la mod 1024 /\ 0 <= PTX la < 1024.
Proof.
  intros Hla. unfold PTX. change 0x3FF with (Z.ones 10). rewrite Z.land_ones, Z.shiftr_div_pow2 by lia.
  change (2 ^ 12) with 4096. change (2 ^ 10) with 1024. addr. mlia.
Qed.

Lemma slot_inj x y j k : 0 <= j < 1024 -> 0 <= k < 1024 -> slot x j = slot y k -> x = y /\ j = k.
Proof. addr. lia. Qed.

Lemma upd_word_slot x y j k v m :
  0 <= j < 1024 -> 0 <= k < 1024 ->
  upd_word (slot x j) v m (slot y k) = if decide (x = y /\ j = k) then v else m (slot y k).
Proof.
  intros Hj Hk. unfold upd_word. case_decide as Hd.
  - destruct Hd as [-> ->]. by rewrite Z.eqb_refl.
  - destruct (Z.eqb_spec (slot y k) (slot x j)) as [He|]; [|done].
    apply slot_inj in He; [|done..]. naive_solver.
Qed.

Lemma fill0_slot x y k m :
  0 <= k < 1024 -> fill0 (kva x) PGSIZE m (slot y k) = if decide (x = y) then 0 else m (slot y k).
Proof.
  intros Hk. unfold fill0. case_decide as Hd.
  - subst y. replace (kva x <=? slot x k) with true by (symmetry; apply Z.leb_le; addr; lia).
    by replace (slot x k <? kva x + PGSIZE) with true by (symmetry; apply Z.ltb_lt; addr; lia).
  - destruct (Z.leb_spec (kva x) (slot y k)); [|done]. destruct (Z.ltb_spec (slot y k) (kva x + PGSIZE)); [|done].
    exfalso. addr. lia.
Qed.

(** ** Abstract address spaces *)

Record aspace := mkAs {
  dirs : gset Z;
  tbls : gmap (Z * Z) Z;            (* (directory, index) -> page table *)
  maps : gmap (Z * Z) (Z * Z);      (* (directory, vpn) -> (page, perm) *)
  upages : gset Z                   (* pages handed to user mappings *)
}.

Definition is_table (a : aspace) (x : Z) : Prop := exists k, tbls a !! k = Some x.

(** Page [y] belongs to the address spaces: a directory, a table or a user page. *)
Definition as_page (a : aspace) (y : Z) : Prop := y ∈ dirs a \/ is_table a y \/ y ∈ upages a.

#[export] Instance is_table_dec a x : Decision (is_table a x).
Proof.
  destruct (decide (map_Exists (fun _ t => t = x) (tbls a))) as [H|H]; [left|right].
  - destruct H as (k&t&Hk&->). by exists k.
  - intros [k Hk]. apply H. by exists k, x.
Defined.
#[export] Instance as_page_dec a y : Decision (as_page a y).
Proof. unfold as_page. apply _. Defined.

(** The number of mappings of page [p]. *)
Definition count (p : Z) (m : gmap (Z * Z) (Z * Z)) : Z :=
  Z.of_nat (size (filter (fun kv => fst (snd kv) = p) m)).

Lemma count_nonneg p m : 0 <= count p m.
Proof. unfold count. lia. Qed.

Lemma count_insert q k p perm m :
  m !! k = None -> count q (<[k := (p, perm)]> m) = count q m + (if decide (p = q) then 1 else 0).
Proof.
  intros Hk. unfold count. case_decide as Hp.
  - rewrite map_filter_insert_True by done. rewrite map_size_insert_None; [lia|].
    apply map_lookup_filter_None. by left.
  - rewrite map_filter_insert_False by done. rewrite delete_id by done. lia.
Qed.

Lemma count_delete q k p perm m :
  m !! k = Some (p, perm) -> count q (delete k m) = count q m - (if decide (p = q) then 1 else 0).
Proof.
  intros Hk. rewrite <- (insert_delete_id m k (p, perm)) at 2 by done.
  rewrite count_insert by (by rewrite lookup_delete_eq). lia.
Qed.

Lemma count_update q k p perm perm' m :
  m !! k = Some (p, perm) -> count q (<[k := (p, perm')]> m) = count q m.
Proof.
  intros Hk. rewrite <- insert_delete_eq. rewrite count_insert by (by rewrite lookup_delete_eq).
  rewrite (count_delete q k p perm) by done. lia.
Qed.

Lemma count_zero p m : count p m = 0 <-> forall k perm, m !! k <> Some (p, perm).
Proof.
  unfold count. split.
  - intros H0 k perm Hk. assert (size (filter (fun kv => fst (snd kv) = p) m) = 0%nat) as Hs by lia.
    apply map_size_empty_inv in Hs.
    assert (filter (fun kv : (Z * Z) * (Z * Z) => fst (snd kv) = p) m !! k = Some (p, perm)) as Hf
      by (by apply map_lookup_filter_Some).
    by rewrite Hs, lookup_empty in Hf.
  - intros H0. replace (filter _ m) with (∅ : gmap (Z * Z) (Z * Z)); [by rewrite map_size_empty|].
    symmetry. apply map_empty. intros k. apply map_lookup_filter_None. right.
    intros [q perm] Hk Hq. cbn in Hq. subst. by eapply H0.
Qed.

Section Rep.
Context {pm : pmm_manager} `{!PmmOk pm}.
Implicit Types (a : aspace) (s : vm) (d : Z -> Z).

(** [dl p]: references of [p] taken but not yet (or no longer) visible in an
    entry; zero between operations. *)
Record VRep dl a s : Prop := {
  r_inv : pm_inv (vpm s);
  r_npage : npage (vpm s) <= MAXPAGE;
  r_status : is_u32 (status s);
  r_dir : forall x, x ∈ dirs a -> pm_owned (vpm s) x /\ (x ∉ upages a) /\ ~ is_table a x;
  r_tbl : forall x i t, tbls a !! (x, i) = Some t ->
            (x ∈ dirs a) /\ 0 <= i < 1024 /\ pm_owned (vpm s) t /\ (t ∉ upages a);
  r_tbl_inj : forall k k' t, tbls a !! k = Some t -> tbls a !! k' = Some t -> k = k';
  r_pde : forall x i, x ∈ dirs a -> 0 <= i < 1024 ->
            mem s (slot x i) = match tbls a !! (x, i) with Some t => entry t PTE_USER | None => 0 end;
  r_pte : forall x i t j, tbls a !! (x, i) = Some t -> 0 <= j < 1024 ->
            mem s (slot t j) = match maps a !! (x, 1024 * i + j) with
                               | Some (p, perm) => entry p perm | None => 0 end;
  r_map : forall x v p perm, maps a !! (x, v) = Some (p, perm) ->
            0 <= v < 1048576 /\ is_Some (tbls a !! (x, v / 1024)) /\ (p ∈ upages a) /\ 0 <= perm < 4096;
  r_upage : forall p, p ∈ upages a -> pm_owned (vpm s) p /\
            exists pg, pages (vpm s) !! p = Some pg /\ ref pg = count p (maps a) + dl p
}.

Lemma owned_bound dl a s x : VRep dl a s -> pm_owned (vpm s) x -> 0 <= x < MAXPAGE.
Proof.
  intros HV Ho. destruct (pm_owned_page (vpm s) x (r_inv _ _ _ HV) Ho) as [? _].
  pose proof (r_npage _ _ _ HV). lia.
Qed.

Lemma upage_bound dl a s x : VRep dl a s -> x ∈ upages a -> 0 <= x < MAXPAGE.
Proof. intros HV Hx. eapply owned_bound; [done|]. by apply (r_upage _ _ _ HV). Qed.

(** A page is mapped at most once per table entry, and the tables fit in
    physical memory: reference counts stay far below 2^31. *)
Lemma count_bound dl a s p : VRep dl a s -> count p (maps a) <= 1024 * MAXPAGE.
Proof.
  intros HV. set (F := filter (fun kv : (Z * Z) * (Z * Z) => fst (snd kv) = p) (maps a)).
  set (f := fun k : Z * Z => 1024 * default 0 (tbls a !! (fst k, snd k / 1024)) + snd k mod 1024).
  assert (HF : forall k, k ∈ (map_to_list F).*1 -> exists t, tbls a !! (fst k, snd k / 1024) = Some t /\
             0 <= t < MAXPAGE /\ 0 <= snd k < 1048576).
  { intros k Hk. apply list_elem_of_fmap in Hk as ([k' [q perm]]&->&Hk').
    apply elem_of_map_to_list in Hk'. apply map_lookup_filter_Some in Hk' as [Hk' _].
    destruct k' as [x v]. destruct (r_map _ _ _ HV _ _ _ _ Hk') as (Hv&[t Ht]&_). exists t.
    destruct (r_tbl _ _ _ HV _ _ _ Ht) as (_&_&Ho&_). destruct (owned_bound _ _ _ _ HV Ho). done. }
  assert (Hnd : NoDup (f <$> (map_to_list F).*1)).
  { apply NoDup_fmap_2_strong; [|apply NoDup_fst_map_to_list].
    intros k k' Hk Hk' Hf. destruct (HF k Hk) as (t&Ht&?&?), (HF k' Hk') as (t'&Ht'&?&?).
    unfold f in Hf. rewrite Ht, Ht' in Hf. cbn in Hf.
    assert (t = t' /\ snd k mod 1024 = snd k' mod 1024) as [-> Hm] by mlia.
    pose proof (r_tbl_inj _ _ _ HV _ _ _ Ht Ht') as Hi. destruct k as [x v], k' as [x' v']. cbn in *.
    injection Hi as -> Hi. f_equal. mlia. }
  assert (Hsub : (f <$> (map_to_list F).*1) ⊆ seqZ 0 (1024 * MAXPAGE)).
  { intros z Hz. apply list_elem_of_fmap in Hz as (k&->&Hk). destruct (HF k Hk) as (t&Ht&?&?).
    apply elem_of_seqZ. unfold f. rewrite Ht. cbn. unfold MAXPAGE in *. mlia. }
  apply NoDup_submseteq in Hsub; [|done]. apply submseteq_length in Hsub.
  rewrite !length_fmap, length_map_to_list, length_seqZ in Hsub. unfold count. fold F. unfold MAXPAGE in *. lia.
Qed.

(** ** The ledger of pages *)

Lemma as_page_owned dl a s y : VRep dl a s -> as_page a y -> pm_owned (vpm s) y.
Proof.
  intros HV [Hd|[[[x i] Ht]|Hu]]; [by apply (r_dir _ _ _ HV)| |by apply (r_upage _ _ _ HV)].
  by destruct (r_tbl _ _ _ HV _ _ _ Ht) as (_&_&?&_).
Qed.

(** From [a] and [ps] to [a'] and [ps'] no page is lost and none is taken away from
    others: the pages handed out are those of the address spaces and those that were
    handed out to others, and what the address spaces got was free. *)
Definition ledger a (ps : pmm) a' (ps' : pmm) : Prop :=
  (forall y, pm_owned ps' y <-> as_page a' y \/ (pm_owned ps y /\ ~ as_page a y)) /\
  (forall y, as_page a' y -> pm_owned ps y -> as_page a y).

Lemma ledger_trans a1 a2 a3 ps1 ps2 ps3 : ledger a1 ps1 a2 ps2 -> ledger a2 ps2 a3 ps3 -> ledger a1 ps1 a3 ps3.
Proof.
  intros [Ho1 Hn1] [Ho2 Hn2]. split.
  - intros y. rewrite Ho2, Ho1. specialize (Hn1 y). tauto.
  - intros y H3 Ho. destruct (decide (as_page a1 y)) as [|Hna]; [done|]. apply Hn1; [|done]. apply Hn2; [done|]. apply Ho1. by right.
Qed.

(** Address spaces that give up pages, all of which are freed. *)
Lemma ledger_shrink dl a s a' ps' : VRep dl a s ->
  (forall y, as_page a' y -> as_page a y) -> (forall y, pm_owned ps' y -> pm_owned (vpm s) y) ->
  (forall y, pm_owned (vpm s) y -> (as_page a y -> as_page a' y) -> pm_owned ps' y) ->
  (forall y, as_page a y -> ~ as_page a' y -> ~ pm_owned ps' y) -> ledger a (vpm s) a' ps'.
Proof.
  intros HV Hsub Hback Hkeep Hfree. split; [|by auto]. intros y. split.
  - intros Ho. destruct (decide (as_page a' y)) as [|Hn]; [by left|right]. split; [by auto|]. intros Ha. by apply (Hfree y).
  - intros [Ha'|[Ho Hna]]; apply Hkeep; try done. by eapply as_page_owned; [|apply Hsub].
Qed.

Lemma ledger_same dl a s a' ps' : VRep dl a s ->
  (forall y, as_page a' y <-> as_page a y) -> (forall y, pm_owned ps' y <-> pm_owned (vpm s) y) -> ledger a (vpm s) a' ps'.
Proof. intros HV Ha Ho. apply (ledger_shrink dl); [done|..]; intros y; rewrite ?Ha, ?Ho; tauto. Qed.

Lemma ledger_refl dl a s : VRep dl a s -> ledger a (vpm s) a (vpm s).
Proof. intros HV. by apply (ledger_same dl). Qed.

(** Address spaces that take pages, all of which were free. *)
Lemma ledger_grow dl a s a' ps' : VRep dl a s ->
  (forall y, as_page a y -> as_page a' y) -> (forall y, as_page a' y -> as_page a y \/ ~ pm_owned (vpm s) y /\ pm_owned ps' y) ->
  (forall y, pm_owned (vpm s) y -> pm_owned ps' y) ->
  (forall y, pm_owned ps' y -> pm_owned (vpm s) y \/ as_page a' y) -> ledger a (vpm s) a' ps'.
Proof.
  intros HV Hsub Hnew Hkeep Hback. split; [|intros y Hy; destruct (Hnew y Hy) as [|[]]; tauto]. intros y. split.
  - intros Ho. destruct (decide (as_page a' y)) as [|Hn]; [by left|right]. split; [|by auto]. destruct (Hback y Ho); tauto.
  - intros [Ha'|[Ho _]]; [|by auto]. destruct (Hnew y Ha') as [Ha|[_ ?]]; [|done]. by eapply Hkeep, as_page_owned.
Qed.

(** ** Elementary changes of the represented state *)

Definition bump (dl : Z -> Z) (p c : Z) : Z -> Z := fun q => if decide (q = p) then dl q + c else dl q.
Definition with_ref (p r : Z) (ps : pmm) : pmm :=
  upd_pages (fun m => match m !! p with Some pg => <[p := set_page_ref r pg]> m | None => m end) ps.

(** Only the allocator state, the memory and the status word matter, and the
    memory only where a directory or a table is. *)
Lemma VRep_ext dl dl' a s s' :
  VRep dl a s -> vpm s' = vpm s -> is_u32 (status s') -> (forall q, dl' q = dl q) ->
  (forall x k, x ∈ dirs a \/ is_table a x -> 0 <= k < 1024 -> mem s' (slot x k) = mem s (slot x k)) ->
  VRep dl' a s'.
Proof.
  intros [] Hv Hs Hd Hm. split; rewrite ?Hv; try done.
  - intros x i Hx Hi. rewrite Hm by auto. by apply r_pde0.
  - intros x i t j Ht Hj. rewrite Hm; [by eapply r_pte0| |done]. right. by eexists.
  - intros p Hp. rewrite Hd. by apply r_upage0.
Qed.

Lemma VRep_ref dl a s s' p c pg :
  VRep dl a s -> p ∈ upages a -> pages (vpm s) !! p = Some pg ->
  vpm s' = upd_pages (fun m => <[p := set_page_ref (ref pg + c) pg]> m) (vpm s) ->
  mem s' = mem s -> status s' = status s ->
  VRep (bump dl p c) a s'.
Proof.
  intros HV Hp Hpg Hv Hm Hs. pose proof (r_upage _ _ _ HV p Hp) as [Ho (pg'&Hpg'&Hr)].
  rewrite Hpg in Hpg'. injection Hpg' as <-.
  destruct (pm_set_ref (vpm s) p pg (ref pg + c) (r_inv _ _ _ HV) Ho Hpg) as (HI&Hown&_).
  cbn zeta in *. rewrite <- Hv in HI. assert (Hown' : forall x, pm_owned (vpm s) x <-> pm_owned (vpm s') x)
    by (intros x; rewrite Hv; apply Hown).
  destruct HV. split; rewrite ?Hm, ?Hs; try done.
  - by rewrite Hv.
  - intros x Hx. rewrite <- Hown'. by apply r_dir0.
  - intros x i t Ht. rewrite <- Hown'. by apply r_tbl0.
  - intros q Hq. rewrite <- Hown'. destruct (r_upage0 q Hq) as [? (pq&Hpq&Hrq)]. split; [done|].
    rewrite Hv. cbn. rewrite lookup_insert. unfold bump. destruct (decide (p = q)) as [<-|Hne].
    + eexists. split; [done|]. rewrite decide_True by done. cbn. assert (pq = pg) by congruence. subst. lia.
    + exists pq. split; [done|]. rewrite decide_False by done. done.
Qed.

(** Link the fresh page [t] as the table of directory [x] at index [i]. *)
Lemma VRep_table dl a s s' x i t :
  VRep dl a s -> x ∈ dirs a -> 0 <= i < 1024 -> tbls a !! (x, i) = None ->
  pm_inv (vpm s') -> npage (vpm s') = npage (vpm s) -> status s' = status s ->
  ~ pm_owned (vpm s) t -> pm_owned (vpm s') t ->
  (forall y, pm_owned (vpm s) y -> pm_owned (vpm s') y /\ pages (vpm s') !! y = pages (vpm s) !! y) ->
  (forall y k, 0 <= k < 1024 -> mem s' (slot y k) =
     if decide (x = y /\ i = k) then entry t PTE_USER else if decide (t = y) then 0 else mem s (slot y k)) ->
  VRep dl (mkAs (dirs a) (<[(x, i) := t]> (tbls a)) (maps a) (upages a)) s'.
Proof.
  intros HV Hx Hi Hnone HI Hn Hst Hno Ho Hpres Hmem.
  assert (Hxt : x <> t) by (intros ->; by apply Hno, (r_dir _ _ _ HV)).
  assert (Htd : t ∉ dirs a) by (intros Hd; by apply Hno, (r_dir _ _ _ HV)).
  assert (Htu : t ∉ upages a) by (intros Hd; by apply Hno, (r_upage _ _ _ HV)).
  assert (Htt : forall k, tbls a !! k <> Some t).
  { intros [y j] Hk. apply Hno. by destruct (r_tbl _ _ _ HV _ _ _ Hk) as (_&_&?&_). }
  destruct HV. split; cbn; rewrite ?Hst, ?Hn; try done.
  - intros y Hy. destruct (r_dir0 y Hy) as (Hoy&?&Hty). split_and!; [by apply Hpres|done|].
    intros [k Hk]. cbn in Hk. rewrite lookup_insert in Hk. case_decide; [congruence|]. apply Hty. by exists k.
  - intros y j t' Hk. rewrite lookup_insert in Hk. case_decide as Hd; [|by destruct (r_tbl0 _ _ _ Hk) as (?&?&?&?); split_and!; try done; try lia; by apply Hpres].
    injection Hd as <- <-. injection Hk as <-. done.
  - intros k k' t'. rewrite !lookup_insert. case_decide as H1; case_decide as H2; try congruence; eauto.
  - intros y j Hy Hj. rewrite Hmem by done. rewrite lookup_insert.
    destruct (decide (x = y /\ i = j)) as [[-> ->]|Hne]; [by rewrite decide_True|].
    rewrite !decide_False by (intros ?; simplify_eq; naive_solver). by apply r_pde0.
  - intros y j t' k Hk Hkk. rewrite Hmem by done. rewrite lookup_insert in Hk. case_decide as Hd.
    + injection Hd as <- <-. injection Hk as <-. rewrite decide_False by naive_solver. rewrite decide_True by done.
      destruct (maps a !! (x, 1024 * i + k)) as [[p perm]|] eqn:Hmap; [|done].
      destruct (r_map0 _ _ _ _ Hmap) as (_&[t' Ht']&_). replace ((1024 * i + k) / 1024) with i in Ht' by mlia. congruence.
    + rewrite decide_False by (intros [-> ->]; destruct (r_dir0 _ Hx) as (_&_&Hty); apply Hty; by eexists).
      rewrite decide_False by (intros ->; by eapply Htt). by apply r_pte0.
  - intros y v p perm Hmap. destruct (r_map0 _ _ _ _ Hmap) as (?&[t' Ht']&?&?). split_and!; try done; try lia.
    rewrite lookup_insert. case_decide; eauto.
  - intros p Hp. destruct (r_upage0 p Hp) as [Hop ?]. destruct (Hpres p Hop) as [? ->]. done.
Qed.

(** Clear the entry of a mapped page. *)
Lemma VRep_unmap dl a s s' x v p perm t :
  VRep dl a s -> maps a !! (x, v) = Some (p, perm) -> tbls a !! (x, v / 1024) = Some t ->
  vpm s' = vpm s -> status s' = status s -> mem s' = upd_word (slot t (v mod 1024)) 0 (mem s) ->
  VRep (bump dl p 1) (mkAs (dirs a) (tbls a) (delete (x, v) (maps a)) (upages a)) s'.
Proof.
  intros HV Hmap Ht Hv Hs Hm. assert (0 <= v mod 1024 < 1024) by mlia.
  assert (Htd : t ∉ dirs a) by (intros Hd; destruct (r_dir _ _ _ HV _ Hd) as (_&_&Htb); apply Htb; by eexists).
  destruct HV. split; cbn; rewrite ?Hv, ?Hs, ?Hm; try done.
  - intros y i Hy Hi. rewrite upd_word_slot by done. rewrite decide_False by naive_solver. by apply r_pde0.
  - intros y i t' j Ht' Hj. rewrite upd_word_slot by done. rewrite lookup_delete. case_decide as Hd.
    + destruct Hd as [<- <-]. pose proof (r_tbl_inj0 _ _ _ Ht Ht') as [= <- <-].
      rewrite decide_True; [done|]. f_equal. mlia.
    + rewrite decide_False; [by apply r_pte0|]. intros [= <- ->]. apply Hd.
      replace ((1024 * i + j) / 1024) with i in Ht by mlia. split; [congruence|]. mlia.
  - intros y v' p' perm'. rewrite lookup_delete. case_decide; [done|]. apply r_map0.
  - intros q Hq. destruct (r_upage0 q Hq) as [? (pg&?&?)]. split; [done|]. exists pg. split; [done|].
    rewrite (count_delete q _ p perm) by done. unfold bump. destruct (decide (p = q)) as [<-|].
    + rewrite decide_True by done. lia.
    + rewrite decide_False by done. lia.
Qed.

(** Write an entry for [p] where there is none, or over one for [p] itself. *)
Lemma VRep_map dl a s s' x v p perm t :
  VRep dl a s -> 0 <= v < 1048576 -> (forall q perm', maps a !! (x, v) = Some (q, perm') -> q = p) ->
  tbls a !! (x, v / 1024) = Some t -> p ∈ upages a -> 0 <= perm < 4096 ->
  vpm s' = vpm s -> status s' = status s -> mem s' = upd_word (slot t (v mod 1024)) (entry p perm) (mem s) ->
  VRep (bump dl p (if decide (maps a !! (x, v) = None) then -1 else 0))
       (mkAs (dirs a) (tbls a) (<[(x, v) := (p, perm)]> (maps a)) (upages a)) s'.
Proof.
  intros HV Hvr Hsame Ht Hp Hperm Hv Hs Hm. assert (0 <= v mod 1024 < 1024) by mlia.
  assert (Htd : t ∉ dirs a) by (intros Hd; destruct (r_dir _ _ _ HV _ Hd) as (_&_&Htb); apply Htb; by eexists).
  destruct HV. split; cbn; rewrite ?Hv, ?Hs, ?Hm; try done.
  - intros y i Hy Hi. rewrite upd_word_slot by done. rewrite decide_False by naive_solver. by apply r_pde0.
  - intros y i t' j Ht' Hj. rewrite upd_word_slot by done. rewrite lookup_insert. case_decide as Hd.
    + destruct Hd as [<- <-]. pose proof (r_tbl_inj0 _ _ _ Ht Ht') as [= <- <-].
      rewrite decide_True; [done|]. f_equal. mlia.
    + rewrite decide_False; [by apply r_pte0|]. intros [= <- ->]. apply Hd.
      replace ((1024 * i + j) / 1024) with i in Ht by mlia. split; [congruence|]. mlia.
  - intros y v' p' perm'. rewrite lookup_insert. case_decide as Hd; [|apply r_map0].
    intros [= <- <-]. injection Hd as <- <-. split_and!; try done; try lia.
  - intros q Hq. destruct (r_upage0 q Hq) as [? (pg&?&?)]. split; [done|]. exists pg. split; [done|].
    unfold bump. destruct (decide (maps a !! (x, v) = None)) as [Hn|Hn].
    + rewrite count_insert by done. destruct (decide (p = q)) as [<-|].
      * rewrite decide_True by done. lia.
      * rewrite decide_False by done. lia.
    + destruct (maps a !! (x, v)) as [[q' perm']|] eqn:Hmap; [|done].
      rewrite (Hsame _ _ eq_refl) in Hmap.
      rewrite (count_update q _ p perm') by done. case_decide; lia.
Qed.

(** Give up a page that is no longer mapped, and take a fresh one. *)
Lemma VRep_drop dl a s s' p :
  VRep dl a s -> p ∈ upages a -> count p (maps a) = 0 ->
  pm_inv (vpm s') -> npage (vpm s') = npage (vpm s) -> status s' = status s -> mem s' = mem s ->
  (forall y, y <> p -> pm_owned (vpm s) y -> pm_owned (vpm s') y /\ pages (vpm s') !! y = pages (vpm s) !! y) ->
  VRep dl (mkAs (dirs a) (tbls a) (maps a) (upages a ∖ {[p]})) s'.
Proof.
  intros HV Hp Hc HI Hn Hs Hm Hpres. rewrite count_zero in Hc.
  assert (Hpd : p ∉ dirs a) by (intros Hd; by destruct (r_dir _ _ _ HV _ Hd) as (_&?&_)).
  assert (Hpt : forall k, tbls a !! k <> Some p) by (intros [y j] Hk; by destruct (r_tbl _ _ _ HV _ _ _ Hk) as (_&_&_&?)).
  destruct HV. split; cbn; rewrite ?Hn, ?Hs, ?Hm; try done.
  - intros y Hy. destruct (r_dir0 y Hy) as (Hoy&?&?). split_and!; [by apply Hpres; [congruence|]|set_solver|done].
  - intros y i t Ht. destruct (r_tbl0 _ _ _ Ht) as (?&?&?&?). split_and!; try done; try lia; [|set_solver].
    apply Hpres; [|done]. intros ->. by eapply Hpt.
  - intros y v q perm Hq. destruct (r_map0 _ _ _ _ Hq) as (?&?&?&?). split_and!; try done; try lia.
    apply elem_of_difference. split; [done|]. rewrite elem_of_singleton. intros ->. by eapply Hc.
  - intros q [Hq Hne]%elem_of_difference. rewrite elem_of_singleton in Hne.
    destruct (r_upage0 q Hq) as [Hoq ?]. destruct (Hpres q Hne Hoq) as [? ->]. done.
Qed.

Lemma VRep_take dl a s s' p :
  VRep dl a s -> dl p = 0 -> ~ pm_owned (vpm s) p -> pm_owned (vpm s') p -> ref0 (vpm s') p ->
  pm_inv (vpm s') -> npage (vpm s') = npage (vpm s) -> status s' = status s -> mem s' = mem s ->
  (forall y, pm_owned (vpm s) y -> pm_owned (vpm s') y /\ pages (vpm s') !! y = pages (vpm s) !! y) ->
  VRep dl (mkAs (dirs a) (tbls a) (maps a) ({[p]} ∪ upages a)) s'.
Proof.
  intros HV Hdl Hno Ho (pg&Hpg&Hr) HI Hn Hs Hm Hpres.
  assert (Hpu : p ∉ upages a) by (intros Hu; by apply Hno, (r_upage _ _ _ HV)).
  assert (Hc : count p (maps a) = 0).
  { apply count_zero. intros [y v] perm Hk. by destruct (r_map _ _ _ HV _ _ _ _ Hk) as (_&_&?&_). }
  destruct HV. split; cbn; rewrite ?Hn, ?Hs, ?Hm; try done.
  - intros y Hy. destruct (r_dir0 y Hy) as (Hoy&?&?). split_and!; [by apply Hpres| |done].
    rewrite elem_of_union, elem_of_singleton. intros [->|]; naive_solver.
  - intros y i t Ht. destruct (r_tbl0 _ _ _ Ht) as (?&?&Hot&?). split_and!; try done; try lia; [by apply Hpres|].
    rewrite elem_of_union, elem_of_singleton. intros [->|]; naive_solver.
  - intros y v q perm Hq. destruct (r_map0 _ _ _ _ Hq) as (?&?&?&?). split_and!; try done; try lia. set_solver.
  - intros q [->%elem_of_singleton|Hq]%elem_of_union.
    + split; [done|]. exists pg. split; [done|]. lia.
    + destruct (r_upage0 q Hq) as [Hoq ?]. destruct (Hpres q Hoq) as [? ->]. done.
Qed.

(** Unlink and give up an empty table. *)
Lemma VRep_untable dl a s s' x i t :
  VRep dl a s -> tbls a !! (x, i) = Some t -> (forall v, v / 1024 = i -> maps a !! (x, v) = None) ->
  pm_inv (vpm s') -> npage (vpm s') = npage (vpm s) -> status s' = status s ->
  mem s' = upd_word (slot x i) 0 (mem s) ->
  (forall y, y <> t -> pm_owned (vpm s) y -> pm_owned (vpm s') y /\ pages (vpm s') !! y = pages (vpm s) !! y) ->
  VRep dl (mkAs (dirs a) (delete (x, i) (tbls a)) (maps a) (upages a)) s'.
Proof.
  intros HV Ht Hno HI Hn Hs Hm Hpres. destruct (r_tbl _ _ _ HV _ _ _ Ht) as (Hx&Hi&Hot&Htu).
  assert (Htd : t ∉ dirs a) by (intros Hd; destruct (r_dir _ _ _ HV _ Hd) as (_&_&Htb); apply Htb; by eexists).
  destruct HV. split; cbn; rewrite ?Hn, ?Hs, ?Hm; try done.
  - intros y Hy. destruct (r_dir0 y Hy) as (Hoy&?&Hty). split_and!; [apply Hpres; [by intros ->|done]|done|].
    intros [k Hk]. cbn in Hk. rewrite lookup_delete in Hk. case_decide; [done|]. apply Hty. by exists k.
  - intros y j t' Hk. rewrite lookup_delete in Hk. case_decide as Hd; [done|].
    destruct (r_tbl0 _ _ _ Hk) as (?&?&?&?). refine (conj _ (conj _ (conj _ _))); try done.
    apply Hpres; [|done]. intros ->. apply Hd. by eapply r_tbl_inj0.
  - intros k k' t' Hk Hk'. rewrite lookup_delete in Hk, Hk'. repeat case_decide; try done. by eapply r_tbl_inj0.
  - intros y j Hy Hj. rewrite upd_word_slot by done. rewrite lookup_delete.
    destruct (decide (x = y /\ i = j)) as [[-> ->]|Hne]; [by rewrite decide_True|].
    rewrite decide_False by (intros ?; simplify_eq; naive_solver). by apply r_pde0.
  - intros y j t' k Hk Hkk. rewrite lookup_delete in Hk. case_decide as Hd; [done|]. rewrite upd_word_slot by done.
    rewrite decide_False; [by eapply r_pte0|]. intros [-> _]. destruct (r_dir0 _ Hx) as (_&_&Htb). apply Htb. by eexists.
  - intros y v p perm Hk. destruct (r_map0 _ _ _ _ Hk) as (?&[t' Ht']&?&?). refine (conj _ (conj _ (conj _ _))); try done.
    rewrite lookup_delete. case_decide as Hd; [|by eexists]. injection Hd as <- Hd. rewrite Hno in Hk; done.
  - intros p Hp. destruct (r_upage0 p Hp) as [Hop ?]. assert (p <> t) as Hne by congruence.
    destruct (Hpres p Hne Hop) as [? ->]. done.
Qed.
End Rep.
