(* ===== verification/PageTableOps.v ===== *)
(** * Triples for the page-table operations

    Each operation of pmm.c against the abstract address spaces of
    PageTableInv.v, for any page manager that satisfies [PmmOk]. *)

From stdpp Require Import base gmap list.
From Stdlib Require Import ZArith Lia Bool.
From S2P Require Import Prelude.
From S2P Require Import Atomic.
From S2P Require Import Buddy.
From S2P Require Import BuddyInv.
From S2P Require Import BuddyOps.
From S2P Require Import Pmm.
From S2P Require Import PageTable.
From S2P Require Import PageTableInv.

(** No slot of the TLB is valid. *)
Definition tlb_flushed (s : vm) : Prop :=
  forall i e, 0 <= i < 128 -> tlb s !! i = Some e -> t_lo0 e = 0 /\ t_lo1 e = 0.

Definition slot_ok (a : aspace) (d v lo : Z) : Prop :=
  lo = 0 \/ exists p perm, maps a !! (d, v) = Some (p, perm) /\ lo = pte2tlblow (entry p perm).
(** Every valid translation in the TLB is the one of the current directory. *)
Definition TlbOk (a : aspace) (s : vm) : Prop :=
  forall i e d, 0 <= i < 128 -> tlb s !! i = Some e -> current_pgdir s = kva d -> d ∈ dirs a ->
    slot_ok a d (vpn (t_hi e)) (t_lo0 e) /\ slot_ok a d (vpn (t_hi e) + 1) (t_lo1 e).

Lemma flushed_ok a s : tlb_flushed s -> TlbOk a s.
Proof. intros Hf i e d Hi He _ _. destruct (Hf i e Hi He) as [-> ->]. split; by left. Qed.

Lemma tlb_invalidate_loop_runs k : forall i s,
  runs (tlb_invalidate_loop k i) s (fun _ s' => exists T, s' = set_tlb T s /\
    forall j, T !! j = if decide (i <= j < i + Z.of_nat k)
                       then Some (mkTlb (u32 (0x80000000 + Z.shiftl j 20)) 0 0) else tlb s !! j).
Proof.
  induction k as [|k IH]; intros i s; cbn [tlb_invalidate_loop].
  - runs_steps. exists (tlb s). split; [by destruct s|]. intros j. rewrite decide_False by lia. done.
  - runs_steps. unfold write_one_tlb. runs_steps. eapply runs_mono; [apply IH|]. cbn beta. intros _ s' (T&->&HT).
    exists T. split; [done|]. intros j. rewrite HT. cbn. rewrite lookup_insert.
    destruct (decide (i = j)) as [->|]; [rewrite (decide_False (P := j + 1 <= j < _)), decide_True by lia; done|].
    destruct (decide (i + 1 <= j < i + 1 + Z.of_nat k)); [rewrite decide_True by lia|rewrite decide_False by lia]; done.
Qed.

Lemma tlb_invalidate_all_runs s :
  runs tlb_invalidate_all s (fun _ s' => exists T, s' = set_tlb T s /\ tlb_flushed s').
Proof.
  unfold tlb_invalidate_all. eapply runs_mono; [apply tlb_invalidate_loop_runs|]. cbn beta.
  intros _ s' (T&->&HT). exists T. split; [done|]. intros i e Hi He. cbn in He. rewrite HT, decide_True in He by lia.
  by injection He as <-.
Qed.

Section Ops.
Context {pm : pmm_manager} `{!PmmOk pm}.
Implicit Types (a : aspace) (s : vm).

Lemma locked_runs {A} (body : M pmm A) s Q :
  is_u32 (status s) -> runs body (vpm s) Q ->
  runs (locked body) s (fun r s' => s' = set_vpm (vpm s') s /\ Q r (vpm s')).
Proof.
  intros Hs Hb. unfold locked. runs_steps. eapply runs_mono; [by apply critical_runs|].
  cbn beta. intros r [st p] [Hst HQ]. cbn in *. by subst.
Qed.

(** What [alloc_page] leaves alone. *)
Definition fresh_page s s' p : Prop :=
  s' = set_vpm (vpm s') s /\ pm_inv (vpm s') /\ npage (vpm s') = npage (vpm s) /\
  ~ pm_owned (vpm s) p /\ ref0 (vpm s') p /\ pm_owned (vpm s') p /\
  (forall x, pm_owned (vpm s) x -> pm_owned (vpm s') x /\ pages (vpm s') !! x = pages (vpm s) !! x) /\
  (forall x, pm_owned (vpm s') x -> x = p \/ pm_owned (vpm s) x) /\ pm_nfree (vpm s') = pm_nfree (vpm s) - 1.

Lemma alloc_page_runs s :
  is_u32 (status s) -> pm_inv (vpm s) ->
  runs (alloc_page pm) s (fun r s' => match r with None => s' = s /\ pm_nfree (vpm s) = 0 | Some p => fresh_page s s' p end).
Proof.
  intros Hs HI. eapply runs_mono; [apply locked_runs; [done|by apply pm_alloc_page]|]. cbn beta.
  intros [p|] s' [He Hp]; [done|]. destruct Hp as [Hp ?]. rewrite Hp in He. split; [by destruct s|done].
Qed.

Lemma free_page_runs s p :
  is_u32 (status s) -> pm_inv (vpm s) -> pm_owned (vpm s) p ->
  runs (free_page pm p) s (fun _ s' => s' = set_vpm (vpm s') s /\
    pm_inv (vpm s') /\ npage (vpm s') = npage (vpm s) /\ ~ pm_owned (vpm s') p /\
    (forall x, x <> p -> pm_owned (vpm s) x -> pm_owned (vpm s') x /\ pages (vpm s') !! x = pages (vpm s) !! x) /\
    (forall x, pm_owned (vpm s') x -> pm_owned (vpm s) x) /\ pm_nfree (vpm s') = pm_nfree (vpm s) + 1).
Proof. intros Hs HI Ho. by eapply runs_mono; [apply locked_runs; [done|by apply pm_free_page]|]. Qed.

(** Reference counting of an owned page. *)
Definition reffed s p pg r : vm :=
  set_vpm (upd_pages (fun m => <[p := set_page_ref r pg]> m) (vpm s)) s.

Lemma page_ref_inc_runs s p pg :
  pages (vpm s) !! p = Some pg -> 0 <= ref pg < 2147483647 ->
  runs (page_ref_inc p) s (fun _ s' => s' = reffed s p pg (ref pg + 1)).
Proof.
  intros Hp Hr. unfold page_ref_inc, on_pmm, upd_page, rd_page. runs_steps. eapply runs_deref; [done|].
  runs_steps. unfold reffed, atomic_add_return. by rewrite s32_small by lia.
Qed.

Lemma page_ref_dec_runs s p pg :
  pages (vpm s) !! p = Some pg -> 0 <= ref pg < 2147483648 ->
  runs (page_ref_dec p) s (fun _ s' => s' = reffed s p pg (ref pg - 1)).
Proof.
  intros Hp Hr. unfold page_ref_dec, on_pmm, upd_page, rd_page. runs_steps. eapply runs_deref; [done|].
  runs_steps. unfold reffed, atomic_sub_return, atomic_add_return. by rewrite s32_small by lia.
Qed.

Lemma page_ref_runs s p pg :
  pages (vpm s) !! p = Some pg -> runs (page_ref p) s (fun r s' => r = ref pg /\ s' = s).
Proof.
  intros Hp. unfold page_ref, on_pmm, rd_page. runs_steps. eapply runs_deref; [done|]. runs_steps.
  split; [done|]. by destruct s.
Qed.

Lemma KADDR_runs s x o :
  0 <= x < npage (vpm s) -> npage (vpm s) <= MAXPAGE -> 0 <= o < 4096 ->
  runs (KADDR (kva x + o)) s (fun r s' => r = kva x + o /\ s' = s).
Proof.
  intros Hx Hn Ho. unfold KADDR. runs_steps. rewrite PPN_kva by (unfold MAXPAGE in *; lia).
  destruct (Z.leb_spec (npage (vpm s)) x); [lia|]. by runs_steps.
Qed.

Lemma page2kva_runs s x :
  0 <= x < npage (vpm s) -> npage (vpm s) <= MAXPAGE -> runs (page2kva x) s (fun r s' => r = kva x /\ s' = s).
Proof.
  intros Hx Hn. unfold page2kva. rewrite page2pa_kva by lia. rewrite <- (Z.add_0_r (kva x)).
  apply KADDR_runs; lia.
Qed.

Lemma pte2page_runs s p perm :
  0 <= p < npage (vpm s) -> npage (vpm s) <= MAXPAGE -> 0 <= perm < 4096 ->
  runs (pte2page (entry p perm)) s (fun r s' => r = p /\ s' = s).
Proof.
  intros Hp Hn Hm. unfold pte2page, pa2page. rewrite entry_present, entry_ADDR by lia. cbn.
  runs_steps. rewrite <- (Z.add_0_r (kva p)), PPN_kva by lia.
  destruct (Z.leb_spec (npage (vpm s)) p); [lia|]. by runs_steps.
Qed.

Lemma owned_npage dl a s x : VRep dl a s -> pm_owned (vpm s) x -> 0 <= x < npage (vpm s).
Proof. intros HV Ho. by destruct (pm_owned_page (vpm s) x (r_inv _ _ _ HV) Ho). Qed.

(** ** [get_pte] *)

Definition with_table a (x i t : Z) : aspace := mkAs (dirs a) (<[(x, i) := t]> (tbls a)) (maps a) (upages a).

(** [s'] has the table [t] at index [i] of directory [x], and otherwise what
    [s] has. *)
(** At most the table [k] is new. *)
Definition grow_tbls (T T' : gmap (Z * Z) Z) (k : Z * Z) : Prop := T ⊆ T' /\ forall k' t, T' !! k' = Some t -> k' = k \/ T !! k' = Some t.
Lemma grow_tbls_refl T k : grow_tbls T T k.
Proof. split; [done|by right]. Qed.
Lemma grow_tbls_trans T1 T2 T3 k : grow_tbls T1 T2 k -> grow_tbls T2 T3 k -> grow_tbls T1 T3 k.
Proof. intros [? H1] [? H2]. split; [by etrans|]. intros k' t Ht. destruct (H2 _ _ Ht) as [?|?]; [by left|]. by apply H1. Qed.

Definition grown dl a s (x i t : Z) a' s' : Prop :=
  VRep dl a' s' /\ dirs a' = dirs a /\ maps a' = maps a /\ upages a' = upages a /\
  grow_tbls (tbls a) (tbls a') (x, i) /\ tbls a' !! (x, i) = Some t /\
  (forall y, is_table a' y -> is_table a y \/ ~ pm_owned (vpm s) y) /\
  s' = mkVm (vpm s') (mem s') (current_pgdir s) (status s) (tlb s) (tlb_index s) /\
  npage (vpm s') = npage (vpm s) /\
  (forall y, pm_owned (vpm s) y -> pm_owned (vpm s') y /\ pages (vpm s') !! y = pages (vpm s) !! y) /\
  (forall y k, pm_owned (vpm s) y -> y ∉ dirs a -> 0 <= k < 1024 -> mem s' (slot y k) = mem s (slot y k)) /\
  (forall y, pm_owned (vpm s') y -> pm_owned (vpm s) y \/ is_table a' y).

Lemma grown_ledger dl a s x i t a' s' : VRep dl a s -> grown dl a s x i t a' s' -> ledger a (vpm s) a' (vpm s').
Proof.
  intros HV (HV'&Hd&_&Hu&[Hsub _]&_&Hnew&_&_&Hpres&_&Hback).
  apply (ledger_grow dl); [done|..]; unfold as_page; rewrite ?Hd, ?Hu.
  - intros y [?|[[k Hk]|?]]; [by left| |by right; right]. right. left. exists k. by eapply lookup_weaken.
  - intros y [?|[Ht|?]]; [left; by left| |left; by right; right]. destruct (Hnew y Ht); [left; by right; left|]. right. split; [done|].
    eapply as_page_owned; [exact HV'|]. right. by left.
  - intros y Hy. by apply Hpres.
  - intros y Hy. destruct (Hback y Hy); [by left|right]. right. by left.
Qed.

Lemma grown_refl dl a s x i t : VRep dl a s -> tbls a !! (x, i) = Some t -> grown dl a s x i t a s.
Proof. intros HV Ht. unfold grown. split_and!; try done; auto; [apply grow_tbls_refl|by destruct s]. Qed.

(** The memory after the new table is cleared and linked. *)
Definition table_mem (x i t : Z) (m : Z -> Z) : Z -> Z :=
  upd_word (slot x i) (entry t PTE_USER) (upd_word (slot x i) (kva t) (fill0 (kva t) PGSIZE m)).

Lemma table_mem_slot x i t m y k :
  0 <= i < 1024 -> 0 <= k < 1024 ->
  table_mem x i t m (slot y k) =
    if decide (x = y /\ i = k) then entry t PTE_USER else if decide (t = y) then 0 else m (slot y k).
Proof.
  intros Hi Hk. unfold table_mem. rewrite upd_word_slot by done. case_decide; [done|].
  rewrite upd_word_slot by done. rewrite decide_False by done. by apply fill0_slot.
Qed.

Lemma new_table_grown dl a s s1 x i t pg :
  VRep dl a s -> x ∈ dirs a -> 0 <= i < 1024 -> tbls a !! (x, i) = None ->
  fresh_page s s1 t -> pages (vpm s1) !! t = Some pg ->
  grown dl a s x i t (with_table a x i t)
    (upd_mem (table_mem x i t) (reffed s1 t pg (ref pg + 1))).
Proof.
  intros HV Hx Hi Hnone (He&HI&Hn&Hno&_&Ho&Hpres&Hback&_) Hpg.
  destruct (pm_set_ref (vpm s1) t pg (ref pg + 1) HI Ho Hpg) as (HI'&Hown&_). cbn zeta in *.
  set (s2 := upd_mem _ _).
  assert (Hst : status s2 = status s) by (unfold s2; rewrite He; done).
  assert (Hmem : mem s2 = table_mem x i t (mem s)) by (unfold s2; rewrite He; done).
  assert (Hvp : vpm s2 = upd_pages (fun m => <[t := set_page_ref (ref pg + 1) pg]> m) (vpm s1)) by done.
  assert (Hpres' : forall y, pm_owned (vpm s) y -> pm_owned (vpm s2) y /\ pages (vpm s2) !! y = pages (vpm s) !! y).
  { intros y Hy. destruct (Hpres y Hy) as [Hy' Hpy]. rewrite Hvp. split; [by apply Hown|].
    cbn. rewrite lookup_insert_ne; [done|]. by intros ->. }
  unfold grown. split_and!; try done.
  - apply (VRep_table _ _ s); try done; [by apply Hown|].
    intros y k Hk. rewrite Hmem. by apply table_mem_slot.
  - split; [by apply insert_subseteq|]. intros k' t' Hk. cbn in Hk. rewrite lookup_insert in Hk. case_decide; [by left|by right].
  - cbn. by rewrite lookup_insert_eq.
  - intros y [k Hk]. cbn in Hk. rewrite lookup_insert in Hk. case_decide; [right; congruence|left; by exists k].
  - unfold s2. rewrite He. done.
  - intros y k Hy Hd Hk. rewrite Hmem, table_mem_slot by done. rewrite decide_False by naive_solver.
    by rewrite decide_False by congruence.
  - intros y Hy. rewrite Hvp in Hy. apply Hown, Hback in Hy as [->|]; [right|by left]. exists (x, i). apply lookup_insert_eq.
Qed.

Lemma PTE_USER_small : 0 <= PTE_USER < 4096.
Proof. done. Qed.

Lemma entry_user t : Z.lor (kva t) (Z.lor PTE_U (Z.lor PTE_P PTE_W)) = entry t PTE_USER.
Proof. unfold entry, PTE_USER. by rewrite <- Z.lor_assoc. Qed.

Lemma upd_word_eq b v m : upd_word b v m b = v.
Proof. unfold upd_word. by rewrite Z.eqb_refl. Qed.

Lemma pdep_slot x la : 0 <= x < MAXPAGE -> is_u32 la -> u32 (kva x + 4 * PDX la) = slot x (PDX la).
Proof. intros Hx Hla. destruct (PDX_spec la Hla). apply u32_small. addr. lia. Qed.

(** The last line of [get_pte]: the address of the entry in table [t]. *)
Lemma get_pte_tail s t la :
  0 <= t < npage (vpm s) -> npage (vpm s) <= MAXPAGE -> is_u32 la ->
  runs (KADDR (u32 (PDE_ADDR (entry t PTE_USER) + 4 * PTX la))) s
       (fun r s' => r = slot t (PTX la) /\ s' = s).
Proof.
  intros Ht Hn Hla. destruct (PTX_spec la Hla) as [_ ?]. unfold PDE_ADDR. rewrite entry_ADDR by (apply PTE_USER_small || lia).
  rewrite u32_small by (addr; lia). apply KADDR_runs; lia.
Qed.

Lemma get_pte_runs dl a s x la create :
  VRep dl a s -> x ∈ dirs a -> is_u32 la ->
  runs (get_pte pm (kva x) la create) s (fun r s' =>
    match r with
    | None => s' = s /\ tbls a !! (x, PDX la) = None /\ (create = true -> pm_nfree (vpm s) = 0)
    | Some w => exists t a', w = slot t (PTX la) /\ grown dl a s x (PDX la) t a' s' /\
                  (create = false \/ is_Some (tbls a !! (x, PDX la)) -> s' = s /\ a' = a)
    end).
Proof.
  intros HV Hx Hla. destruct (PDX_spec la Hla) as [_ Hi]. pose proof (r_npage _ _ _ HV) as Hnp.
  assert (Hxb : 0 <= x < npage (vpm s)) by (eapply owned_npage, (r_dir _ _ _ HV _ Hx); done).
  unfold get_pte. rewrite pdep_slot by (done || lia). unfold ldw. runs_steps. rewrite (r_pde _ _ _ HV) by done.
  destruct (tbls a !! (x, PDX la)) as [t|] eqn:Ht.
  - assert (Htb : 0 <= t < npage (vpm s)) by (eapply owned_npage; [done|by apply (r_tbl _ _ _ HV _ _ _ Ht)]).
    rewrite entry_present by (apply PTE_USER_small || lia). change (1 =? 0) with false. cbv iota. runs_steps. rewrite (r_pde _ _ _ HV), Ht by done.
    eapply runs_mono; [by apply get_pte_tail|]. cbn beta. intros r s' [-> ->]. runs_steps.
    exists t, a. split_and!; try done. by apply grown_refl.
  - change (Z.land 0 PTE_P =? 0) with true. cbv iota. destruct create; cbn [negb]; cbv iota; [|by runs_steps].
    runs_steps. eapply runs_mono; [apply alloc_page_runs; apply HV|]. cbn beta.
    intros [t|] s1; [|intros [-> ?]; by runs_steps]. intros Hf. pose proof Hf as (He&HI&Hn&Hno&(pg&Hpg&Hr0)&Ho&Hpres&_).
    assert (Htb : 0 <= t < npage (vpm s1)) by (by destruct (pm_owned_page _ _ HI Ho)).
    runs_steps. eapply runs_mono; [apply page_ref_inc_runs; [done|lia]|]. cbn beta. intros _ s2 ->. runs_steps.
    eapply runs_mono; [apply page2kva_runs; [done|cbn; lia]|]. cbn beta. intros r s2 [-> ->]. unfold memset0. runs_steps.
    unfold PADDR. destruct (Z.ltb_spec (kva t) KERNBASE); [exfalso; addr; lia|]. unfold stw, ldw. runs_steps. cbn [mem upd_mem].
    rewrite !upd_word_eq, entry_user.
    pose proof (new_table_grown dl a s s1 x (PDX la) t pg HV Hx Hi Ht Hf Hpg) as Hg.
    set (s4 := upd_mem (upd_word _ (entry t PTE_USER)) _).
    change (upd_mem (table_mem x (PDX la) t) (reffed s1 t pg (ref pg + 1))) with s4 in Hg.
    assert (Hn4 : npage (vpm s4) = npage (vpm s1)) by reflexivity. clearbody s4.
    eapply runs_mono; [apply get_pte_tail; [by rewrite Hn4|lia|done]|]. cbn beta. intros r s' [-> ->]. runs_steps.
    exists t, (with_table a x (PDX la) t). split_and!; try done. intros [?|[??]]; congruence.
Qed.

(** ** Reading and removing a mapping *)

Lemma pte_read dl a s x la t :
  VRep dl a s -> is_u32 la -> tbls a !! (x, PDX la) = Some t ->
  mem s (slot t (PTX la)) = match maps a !! (x, vpn la) with Some (p, perm) => entry p perm | None => 0 end.
Proof.
  intros HV Hla Ht. destruct (PDX_spec la Hla) as [Hd _], (PTX_spec la Hla) as [Hp Hpr].
  rewrite (r_pte _ _ _ HV x (PDX la) t) by done. replace (1024 * PDX la + PTX la) with (vpn la); [done|].
  rewrite Hd, Hp. pose proof (Z.div_mod (vpn la) 1024). lia.
Qed.

Lemma no_table_no_map dl a s x la :
  VRep dl a s -> is_u32 la -> tbls a !! (x, PDX la) = None -> maps a !! (x, vpn la) = None.
Proof.
  intros HV Hla Ht. destruct (maps a !! (x, vpn la)) as [[p perm]|] eqn:Hm; [|done].
  destruct (r_map _ _ _ HV _ _ _ _ Hm) as (_&[t Ht']&_). destruct (PDX_spec la Hla) as [Hd _]. congruence.
Qed.

Lemma mapped_page dl a s x v p perm :
  VRep dl a s -> maps a !! (x, v) = Some (p, perm) ->
  (p ∈ upages a) /\ 0 <= perm < 4096 /\ 0 <= p < npage (vpm s) /\ pm_owned (vpm s) p /\
  exists pg, pages (vpm s) !! p = Some pg /\ ref pg = count p (maps a) + dl p.
Proof.
  intros HV Hm. destruct (r_map _ _ _ HV _ _ _ _ Hm) as (_&_&Hu&Hperm). destruct (r_upage _ _ _ HV _ Hu) as [Ho Hpg].
  pose proof (owned_npage _ _ _ _ HV Ho). done.
Qed.

Lemma get_page_runs dl a s x la :
  VRep dl a s -> x ∈ dirs a -> is_u32 la ->
  runs (get_page pm (kva x) la) s (fun r s' =>
    s' = s /\ fst r = fst <$> (maps a !! (x, vpn la)) /\
    snd r = (fun t => slot t (PTX la)) <$> (tbls a !! (x, PDX la))).
Proof.
  intros HV Hx Hla. unfold get_page. runs_steps. eapply runs_mono; [by eapply get_pte_runs|]. cbn beta.
  intros [w|] s'.
  - intros (t&a'&->&Hg&He). destruct He as [-> ->]; [by left|].
    destruct Hg as (_&_&_&_&_&Ht&_). unfold ldw. runs_steps. erewrite pte_read by done.
    destruct (maps a !! (x, vpn la)) as [[p perm]|] eqn:Hm.
    + destruct (mapped_page _ _ _ _ _ _ _ HV Hm) as (_&Hperm&Hp&_). pose proof (r_npage _ _ _ HV).
      rewrite entry_present by lia. unfold pa2page. change (negb (1 =? 0)) with true. cbv iota. runs_steps.
      rewrite entry_PPN by lia. destruct (Z.leb_spec (npage (vpm s)) p); [lia|]. runs_steps. cbn. by rewrite Ht.
    + change (negb (Z.land 0 PTE_P =? 0)) with false. cbv iota. runs_steps. cbn. by rewrite Ht.
  - intros (->&Ht&_). runs_steps. cbn. rewrite Ht. by erewrite no_table_no_map by done.
Qed.

(** The address spaces without the mapping at [(x, v)]; a page is given up with
    its last mapping. *)
Definition unmap_as a (x v : Z) : aspace :=
  mkAs (dirs a) (tbls a) (delete (x, v) (maps a))
    (match maps a !! (x, v) with
     | Some (p, _) => if decide (count p (maps a) = 1) then upages a ∖ {[p]} else upages a
     | None => upages a
     end).

(** [s'] differs from [s] in the TLB, in words of page tables and in user
    pages only; the pages given up are free. *)
Definition kept a s a' s' : Prop :=
  s' = mkVm (vpm s') (mem s') (current_pgdir s) (status s) (tlb s') (tlb_index s) /\
  npage (vpm s') = npage (vpm s) /\
  (forall y, pm_owned (vpm s) y -> (y ∈ upages a -> y ∈ upages a') -> pm_owned (vpm s') y) /\
  (forall y, pm_owned (vpm s) y -> y ∉ upages a -> pages (vpm s') !! y = pages (vpm s) !! y) /\
  (forall y, y ∈ upages a -> y ∉ upages a' -> ~ pm_owned (vpm s') y) /\
  (forall y, pm_owned (vpm s') y -> pm_owned (vpm s) y) /\
  (forall y k, ~ is_table a y -> 0 <= k < 1024 -> mem s' (slot y k) = mem s (slot y k)).

(** Directories and tables as before, user pages at most fewer: exactly these are free. *)
Lemma kept_ledger dl a s a' s' : VRep dl a s -> dirs a' = dirs a -> tbls a' = tbls a -> upages a' ⊆ upages a ->
  kept a s a' s' -> ledger a (vpm s) a' (vpm s').
Proof.
  intros HV Hd Ht Hu (_&_&Hown&_&Hfree&Hback&_). apply (ledger_shrink dl); [done|..]; unfold as_page, is_table; rewrite ?Hd, ?Ht.
  - intros y [?|[?|?]]; [by left|by right; left|right; right; by apply Hu].
  - done.
  - intros y Hy Has. apply Hown; [done|]. intros Hyu. destruct (Has ltac:(by right; right)) as [Hyd|[[[x i] Hyt]|?]]; [| |done].
    + by destruct (r_dir _ _ _ HV _ Hyd) as (_&?&_).
    + by destruct (r_tbl _ _ _ HV _ _ _ Hyt) as (_&_&_&?).
  - intros y [?|[?|Hyu]] Hn; [destruct Hn; by left|destruct Hn; by right; left|]. apply Hfree; [done|]. intros ?. apply Hn. by right; right.
Qed.

Lemma unmap_upages a x v : upages (unmap_as a x v) ⊆ upages a.
Proof. unfold unmap_as. cbn. destruct (maps a !! (x, v)) as [[p ?]|]; [|done]. case_decide; set_solver. Qed.

Lemma kept_tlb a s a' s' T : kept a s a' s' -> kept a s a' (set_tlb T s').
Proof. intros (He&Hr). split; [|exact Hr]. rewrite He. done. Qed.

Lemma unmap_none a x v : maps a !! (x, v) = None -> unmap_as a x v = a.
Proof. intros Hm. unfold unmap_as. rewrite Hm, delete_id by done. by destruct a. Qed.

Lemma bump_cancel dl p c q : bump (bump dl p (- c)) p c q = dl q.
Proof. unfold bump. case_decide; lia. Qed.

Lemma kept_refl a s : kept a s a s.
Proof.
  split; [by destruct s|]. split; [done|]. split; [intros y Hy _; exact Hy|]. split; [intros y _ _; reflexivity|].
  split; [intros y Hy Hn; by destruct (Hn Hy)|]. split; [intros y Hy; exact Hy|]. intros y k _ _. reflexivity.
Qed.

(** Drop a reference; with the last one the page goes back to the manager. *)
Definition unref (p : Z) : M vm unit :=
  do! page_ref_dec p in
  let! r := page_ref p in
  if r =? 0 then free_page pm p else ret tt.

Lemma unref_then p m s (Q : unit -> vm -> Prop) :
  runs (unref p) s (fun _ s' => runs m s' Q) ->
  runs (do! page_ref_dec p in
        let! r := page_ref p in
        do! (if r =? 0 then free_page pm p else ret tt) in m) s Q.
Proof.
  unfold unref, runs, bind. destruct (page_ref_dec p s) as [[? s1]| | |]; [|exact id..].
  destruct (page_ref p s1) as [[r s2]| | |]; [|exact id..].
  destruct ((if r =? 0 then free_page pm p else ret tt) s2) as [[? s3]| | |]; exact id.
Qed.

Definition unreffed s p pg s' : Prop :=
  s' = set_vpm (vpm s') s /\ pm_inv (vpm s') /\ npage (vpm s') = npage (vpm s) /\
  (forall y, pm_owned (vpm s) y -> y <> p -> pm_owned (vpm s') y /\ pages (vpm s') !! y = pages (vpm s) !! y) /\
  (forall y, pm_owned (vpm s') y -> pm_owned (vpm s) y) /\
  if decide (ref pg = 1) then ~ pm_owned (vpm s') p else s' = reffed s p pg (ref pg - 1) /\ pm_owned (vpm s') p.

Lemma unref_runs s p pg :
  is_u32 (status s) -> pm_inv (vpm s) -> pm_owned (vpm s) p -> pages (vpm s) !! p = Some pg ->
  0 < ref pg < 2147483648 -> runs (unref p) s (fun _ s' => unreffed s p pg s').
Proof.
  intros Hs HI Ho Hpg Hr. unfold unref, unreffed. runs_steps.
  eapply runs_mono; [apply page_ref_dec_runs; [done|lia]|]. cbn beta. intros _ s1 ->. runs_steps.
  eapply runs_mono; [apply page_ref_runs; cbn; by rewrite lookup_insert_eq|]. cbn beta. intros ? ? [-> ->].
  cbn [ref set_page_ref]. destruct (pm_set_ref (vpm s) p pg (ref pg - 1) HI Ho Hpg) as (HI1&Hown&_). cbn zeta in *.
  assert (Hpg1 : forall y, y <> p -> pages (vpm (reffed s p pg (ref pg - 1))) !! y = pages (vpm s) !! y)
    by (intros y Hy; cbn; by rewrite lookup_insert_ne).
  change (upd_pages _ (vpm s)) with (vpm (reffed s p pg (ref pg - 1))) in HI1, Hown.
  destruct (Z.eqb_spec (ref pg - 1) 0).
  - eapply runs_mono; [apply free_page_runs; [done|exact HI1|by apply Hown]|]. cbn beta.
    intros _ s2 (He&HI2&Hn2&Hno&Hpres&Hback&_). split; [by rewrite He|]. split; [done|]. split; [done|].
    split; [|split; [intros y Hy; by apply Hown, Hback|by rewrite decide_True by lia]].
    intros y Hy Hne. rewrite <- Hpg1 by done. apply Hpres; [done|]. by apply Hown.
  - runs_steps. split; [done|]. split; [done|]. split; [done|]. split.
    + intros y Hy Hne. split; [by apply Hown|]. by apply Hpg1.
    + split; [intros y Hy; by apply Hown|]. rewrite decide_False by lia. split; [done|]. by apply Hown.
Qed.

(** Dropping the reference and clearing the entry removes the mapping. *)
Lemma unref_unmap dl a s s1 x la t p perm pg :
  VRep dl a s -> is_u32 la -> tbls a !! (x, PDX la) = Some t -> maps a !! (x, vpn la) = Some (p, perm) ->
  pages (vpm s) !! p = Some pg -> dl p = 0 -> ref pg = count p (maps a) -> unreffed s p pg s1 ->
  let s2 := upd_mem (upd_word (slot t (PTX la)) 0) s1 in
  VRep dl (unmap_as a x (vpn la)) s2 /\ kept a s (unmap_as a x (vpn la)) s2.
Proof.
  intros HV Hla Ht Hm Hpg Hdl Hr (He&HI1&Hn1&Hpres&Hback&Hcase) s2.
  destruct (mapped_page _ _ _ _ _ _ _ HV Hm) as (Hu&_&_&Ho&_).
  destruct (PDX_spec la Hla) as [Hd _], (PTX_spec la Hla) as [Hpx Hpb].
  set (clr := upd_word (slot t (PTX la)) 0) in *. set (sr := reffed s p pg (ref pg - 1)).
  assert (HV2 : VRep dl (mkAs (dirs a) (tbls a) (delete (x, vpn la) (maps a)) (upages a)) (upd_mem clr sr)).
  { eapply VRep_ext; [eapply (VRep_unmap (bump dl p (-1)) a sr (upd_mem clr sr) x (vpn la) p perm t)
      |done|apply HV|intros q; symmetry; apply (bump_cancel dl p 1)|done]; try done.
    - by eapply (VRep_ref dl a s sr p (-1) pg).
    - by rewrite <- Hd.
    - by rewrite <- Hpx. }
  assert (Hmem : forall y k, ~ is_table a y -> 0 <= k < 1024 -> mem s2 (slot y k) = mem s (slot y k)).
  { intros y k Hy Hk. unfold s2. rewrite He. cbn. unfold clr. rewrite upd_word_slot by done.
    rewrite decide_False; [done|]. intros [<- _]. apply Hy. by eexists. }
  assert (Hreg : s2 = mkVm (vpm s2) (mem s2) (current_pgdir s) (status s) (tlb s2) (tlb_index s))
    by (unfold s2; rewrite He; done).
  unfold unmap_as. rewrite Hm. rewrite Hr in Hcase. case_decide as Hc.
  - split.
    + apply (VRep_drop dl _ (upd_mem clr sr) s2 p HV2); try done; [|by unfold s2; rewrite He..|].
      * cbn. rewrite (count_delete p _ p perm), decide_True by done. lia.
      * intros y Hy Hoy. cbn [vpm upd_mem] in Hoy.
        destruct (pm_set_ref (vpm s) p pg (ref pg - 1) (r_inv _ _ _ HV) Ho Hpg) as (_&Hown&_).
        destruct (Hpres y) as [? Hpy]; [by apply Hown|done|]. split; [done|]. cbn. rewrite lookup_insert_ne by done. exact Hpy.
    + split; [exact Hreg|]. split; [exact Hn1|]. split; [|split; [|split; [|split; [exact Hback|exact Hmem]]]].
      * cbn. intros y Hy Hup. apply Hpres; [done|]. intros ->. set_solver.
      * intros y Hy Hnu. apply Hpres; [done|]. congruence.
      * cbn. intros y Hy Hny. rewrite elem_of_difference, elem_of_singleton in Hny.
        destruct (decide (y = p)) as [->|]; [done|tauto].
  - destruct Hcase as [He1 Ho1]. split.
    + unfold s2. rewrite He1. rewrite <- Hr. exact HV2.
    + split; [exact Hreg|]. split; [exact Hn1|]. split; [|split; [|split; [|split; [exact Hback|exact Hmem]]]].
      * intros y Hy _. destruct (decide (y = p)) as [->|]; [done|]. by apply Hpres.
      * intros y Hy Hnu. apply Hpres; [done|]. congruence.
      * cbn. intros y Hy Hny. done.
Qed.

Lemma page_remove_pte_runs dl a s x la t :
  VRep dl a s -> is_u32 la -> tbls a !! (x, PDX la) = Some t ->
  (forall p perm, maps a !! (x, vpn la) = Some (p, perm) -> dl p = 0) ->
  runs (page_remove_pte pm (kva x) la (Some (slot t (PTX la)))) s (fun _ s' =>
    VRep dl (unmap_as a x (vpn la)) s' /\ kept a s (unmap_as a x (vpn la)) s' /\ tlb_flushed s').
Proof.
  intros HV Hla Ht Hdl. unfold page_remove_pte, ldw. runs_steps. erewrite pte_read by done.
  assert (Hflush : forall s1, VRep dl (unmap_as a x (vpn la)) s1 /\ kept a s (unmap_as a x (vpn la)) s1 ->
    runs tlb_invalidate_all s1 (fun _ s' =>
      VRep dl (unmap_as a x (vpn la)) s' /\ kept a s (unmap_as a x (vpn la)) s' /\ tlb_flushed s')).
  { intros s1 [HV1 Hk1]. eapply runs_mono; [apply tlb_invalidate_all_runs|]. cbn beta. intros _ s' (T&->&Hf).
    split; [|split; [by apply kept_tlb|done]]. eapply VRep_ext; [exact HV1|done|apply HV1|done|done]. }
  destruct (maps a !! (x, vpn la)) as [[p perm]|] eqn:Hm.
  - destruct (mapped_page _ _ _ _ _ _ _ HV Hm) as (Hu&Hperm&Hp&Ho&pg&Hpg&Hr). pose proof (r_npage _ _ _ HV).
    specialize (Hdl _ _ eq_refl). rewrite Hdl, Z.add_0_r in Hr. pose proof (count_bound _ _ _ p HV).
    assert (Hc0 : count p (maps a) <> 0) by (rewrite count_zero; naive_solver). pose proof (count_nonneg p (maps a)).
    rewrite entry_present by lia. change (negb (1 =? 0)) with true. cbv iota. runs_steps.
    eapply runs_mono; [apply pte2page_runs; done|]. cbn beta. intros ? ? [-> ->].
    assert (Hun : runs (unref p) s (fun _ s' => unreffed s p pg s'))
      by (apply unref_runs; [apply (r_status _ _ _ HV)|apply (r_inv _ _ _ HV)|done|done|unfold MAXPAGE in *; lia]).
    apply unref_then. eapply runs_mono; [exact Hun|]. cbn beta. intros _ s3 Hs3. unfold stw. runs_steps. apply Hflush. by apply (unref_unmap dl a s s3 x la t p perm pg).
  - change (negb (Z.land 0 PTE_P =? 0)) with false. cbv iota. runs_steps. apply Hflush. rewrite unmap_none by done.
    split; [done|apply kept_refl].
Qed.

Definition nodl : Z -> Z := fun _ => 0.

Lemma page_remove_runs a s x la :
  VRep nodl a s -> x ∈ dirs a -> is_u32 la -> TlbOk a s ->
  runs (page_remove pm (kva x) la) s (fun _ s' =>
    VRep nodl (unmap_as a x (vpn la)) s' /\ kept a s (unmap_as a x (vpn la)) s' /\
    TlbOk (unmap_as a x (vpn la)) s').
Proof.
  intros HV Hx Hla Htlb. unfold page_remove. runs_steps. eapply runs_mono; [by eapply get_pte_runs|]. cbn beta.
  intros [w|] s'.
  - intros (t&a'&->&Hg&He). destruct He as [-> ->]; [by left|]. destruct Hg as (_&_&_&_&_&Ht&_).
    eapply runs_mono; [by eapply page_remove_pte_runs|]. cbn beta. intros _ s' (?&?&?).
    split; [done|]. split; [done|]. by apply flushed_ok.
  - intros (->&Ht&_). runs_steps. rewrite unmap_none by (by eapply no_table_no_map).
    split; [done|]. split; [apply kept_refl|done].
Qed.

(** ** Inserting a mapping *)

Definition insert_as a (x v p perm : Z) (a' : aspace) : Prop :=
  dirs a' = dirs a /\ grow_tbls (tbls a) (tbls a') (x, v / 1024) /\ maps a' = <[(x, v) := (p, perm)]> (maps a) /\
  upages a' = {[p]} ∪ upages (unmap_as a x v).

(** Kernel pages keep descriptor and contents, user pages keep contents. *)
Definition data_kept a s s' : Prop :=
  s' = mkVm (vpm s') (mem s') (current_pgdir s) (status s) (tlb s') (tlb_index s) /\
  npage (vpm s') = npage (vpm s) /\
  (forall y, pm_owned (vpm s) y -> y ∉ upages a -> pm_owned (vpm s') y /\ pages (vpm s') !! y = pages (vpm s) !! y) /\
  (forall y k, pm_owned (vpm s) y -> y ∉ dirs a -> ~ is_table a y -> 0 <= k < 1024 ->
     mem s' (slot y k) = mem s (slot y k)).

(** Writing the entry and flushing the TLB. *)
Lemma insert_tail dl a s x la p perm t :
  VRep dl a s -> is_u32 la -> tbls a !! (x, PDX la) = Some t -> p ∈ upages a -> 0 <= perm < 4096 ->
  (forall q perm', maps a !! (x, vpn la) = Some (q, perm') -> q = p) ->
  (forall q, dl q = if decide (q = p /\ maps a !! (x, vpn la) = None) then 1 else 0) ->
  runs (do! stw (slot t (PTX la)) (Z.lor (Z.lor (page2pa p) PTE_P) perm) in
        do! tlb_invalidate (kva x) la in ret 0) s (fun r s' =>
    r = 0 /\ VRep nodl (mkAs (dirs a) (tbls a) (<[(x, vpn la) := (p, perm)]> (maps a)) (upages a)) s' /\
    tlb_flushed s' /\ exists T, s' = set_tlb T (upd_mem (upd_word (slot t (PTX la)) (entry p perm)) s)).
Proof.
  intros HV Hla Ht Hp Hperm Hsame Hdl. destruct (PDX_spec la Hla) as [Hd Hdb], (PTX_spec la Hla) as [Hpx _].
  rewrite page2pa_kva by (by eapply upage_bound). fold (entry p perm). unfold stw. runs_steps.
  eapply runs_mono; [apply tlb_invalidate_all_runs|]. cbn beta. intros _ s' (T&->&Hf). runs_steps.
  split; [done|]. split; [|split; [done|by exists T]].
  eapply VRep_ext; [eapply (VRep_map dl a s (upd_mem (upd_word (slot t (PTX la)) (entry p perm)) s) x (vpn la) p perm t)
    |done|apply HV| |done]; try done.
  - unfold vpn. addr. mlia.
  - by rewrite <- Hd.
  - by rewrite <- Hpx.
  - intros q. unfold bump, nodl. rewrite Hdl. destruct (decide (q = p)) as [->|].
    + case_decide as Hn; [rewrite decide_True by naive_solver; lia|rewrite decide_False by naive_solver; lia].
    + rewrite decide_False by naive_solver. done.
Qed.

(** [s'] from [s] through a [get_pte], changes of user pages ([kept]) and a
    write to the entry. *)
Lemma grown_data_kept dl a s x i t a1 s1 s2 :
  VRep dl a s -> grown dl a s x i t a1 s1 ->
  s2 = mkVm (vpm s2) (mem s2) (current_pgdir s1) (status s1) (tlb s2) (tlb_index s1) ->
  npage (vpm s2) = npage (vpm s1) ->
  (forall y, pm_owned (vpm s1) y -> y ∉ upages a1 -> pm_owned (vpm s2) y /\ pages (vpm s2) !! y = pages (vpm s1) !! y) ->
  (forall y k, ~ is_table a1 y -> 0 <= k < 1024 -> mem s2 (slot y k) = mem s1 (slot y k)) ->
  data_kept a s s2.
Proof.
  intros HV (_&Hd&_&Hu&_&_&Htb&He&Hn&Hpres&Hmem) He2 Hn2 Hpres2 Hmem2. split; [rewrite He2, He; done|].
  split; [by rewrite Hn2|]. split.
  - intros y Hy Hnu. destruct (Hpres y Hy) as [Ho1 <-]. apply Hpres2; [done|]. by rewrite Hu.
  - intros y k Hy Hnd Hnt Hk. rewrite Hmem2 by (done || (intros Ht; by destruct (Htb y Ht))). by apply Hmem.
Qed.

Lemma write_entry_mem a t x i la v m y k :
  tbls a !! (x, i) = Some t -> is_u32 la -> ~ is_table a y -> 0 <= k < 1024 ->
  upd_word (slot t (PTX la)) v m (slot y k) = m (slot y k).
Proof.
  intros Ht Hla Hy Hk. rewrite upd_word_slot by (done || apply PTX_spec, Hla). rewrite decide_False; [done|].
  intros [<- _]. apply Hy. by eexists.
Qed.

Definition inserted a s (x la p perm r : Z) s' : Prop :=
  (r = - E_NO_MEM /\ s' = s /\ pm_nfree (vpm s) = 0 /\ tbls a !! (x, PDX la) = None) \/
  (r = 0 /\ tlb_flushed s' /\ data_kept a s s' /\
   exists a', VRep nodl a' s' /\ insert_as a x (vpn la) p perm a' /\ ledger a (vpm s) a' (vpm s')).

(** After [get_pte] and [page_ref_inc]. *)
Section Inserting.
Variables (a a1 : aspace) (s s1 s2 : vm) (x la p perm t : Z).
Hypothesis HV : VRep nodl a s.
Hypothesis Hla : is_u32 la.
Hypothesis Hp : p ∈ upages a.
Hypothesis Hperm : 0 <= perm < 4096.
Hypothesis Hg : grown nodl a s x (PDX la) t a1 s1.
Hypothesis He2 : exists pg r, s2 = reffed s1 p pg r.
Hypothesis HV2 : VRep (bump nodl p 1) a1 s2.
Hypothesis Hown : forall y, pm_owned (vpm s2) y <-> pm_owned (vpm s1) y.

Let Ht1 : tbls a1 !! (x, PDX la) = Some t.
Proof. by destruct Hg as (_&_&_&_&_&?&_). Qed.
Let Hp1 : p ∈ upages a1.
Proof. destruct Hg as (_&_&_&Hu&_). by rewrite Hu. Qed.

Lemma reffed_pages y : y ∉ upages a1 -> pages (vpm s2) !! y = pages (vpm s1) !! y.
Proof. destruct He2 as (pg&r&->). intros Hy. cbn. rewrite lookup_insert_ne; [done|]. congruence. Qed.

(** The accounts after the entry is written. *)
Lemma insert_ledger a2 a' ps : dirs a' = dirs a2 -> tbls a' = tbls a2 -> upages a' = upages a2 ->
  ledger a1 (vpm s1) a2 ps -> ledger a (vpm s) a' ps.
Proof.
  intros Hd Ht Hu Hl. eapply ledger_trans; [by eapply grown_ledger; [|exact Hg]|].
  unfold ledger, as_page, is_table in *. by rewrite Hd, Ht, Hu.
Qed.
Lemma same_ledger ps : (forall y, pm_owned ps y <-> pm_owned (vpm s1) y) -> ledger a1 (vpm s1) a1 ps.
Proof. intros Ho. eapply ledger_same; [apply Hg|done|done]. Qed.

Lemma insert_fresh_runs : maps a1 !! (x, vpn la) = None ->
  runs (do! stw (slot t (PTX la)) (Z.lor (Z.lor (page2pa p) PTE_P) perm) in
        do! tlb_invalidate (kva x) la in ret 0) s2 (fun r s' => inserted a s x la p perm r s').
Proof.
  intros Hm. eapply runs_mono.
  { apply (insert_tail (bump nodl p 1) a1 s2 x la p perm t); try done; [by rewrite Hm|]. intros q. unfold bump, nodl.
    destruct (decide (q = p)); [rewrite decide_True by done; lia|rewrite decide_False by naive_solver; done]. }
  cbn beta. intros r s' (->&HV'&Hf&T&->). right. split; [done|]. split; [done|]. split.
  - eapply grown_data_kept; [exact HV|exact Hg|..].
    + destruct He2 as (pg&r&->). done.
    + destruct He2 as (pg&r&->). done.
    + intros y Hy Hnu. split; [by apply Hown|]. by apply reffed_pages.
    + intros y k Hy Hk. cbn. erewrite write_entry_mem by done. destruct He2 as (pg&r&->). done.
  - eexists. split; [exact HV'|]. destruct Hg as (_&Hd&Hms&Hu&Hsub&_). rewrite Hms in Hm. rewrite (proj1 (PDX_spec la Hla)) in Hsub.
    split; [|apply (insert_ledger a1); [done..|by apply same_ledger]].
    unfold insert_as. cbn. rewrite Hd, Hms, Hu. split_and!; try done. unfold unmap_as. rewrite Hm. cbn. clear -Hp. set_solver.
Qed.

Lemma insert_same_runs s3 perm0 :
  VRep nodl a1 s3 -> (exists pg r, s3 = reffed s2 p pg r) ->
  (forall y, pm_owned (vpm s3) y <-> pm_owned (vpm s1) y) -> maps a1 !! (x, vpn la) = Some (p, perm0) ->
  runs (do! stw (slot t (PTX la)) (Z.lor (Z.lor (page2pa p) PTE_P) perm) in
        do! tlb_invalidate (kva x) la in ret 0) s3 (fun r s' => inserted a s x la p perm r s').
Proof.
  intros HV3 He3 Hown3 Hm. eapply runs_mono.
  { apply (insert_tail nodl a1 s3 x la p perm t); try done; [naive_solver|]. intros q.
    rewrite decide_False by (rewrite Hm; naive_solver). done. }
  cbn beta. intros r s' (->&HV'&Hf&T&->). right. split; [done|]. split; [done|]. split.
  - eapply grown_data_kept; [exact HV|exact Hg|..].
    + destruct He2 as (?&?&->), He3 as (?&?&->). done.
    + destruct He2 as (?&?&->), He3 as (?&?&->). done.
    + intros y Hy Hnu. split; [by apply Hown3|]. rewrite <- (reffed_pages y) by done. destruct He3 as (?&?&->). cbn.
      rewrite lookup_insert_ne; [done|]. congruence.
    + intros y k Hy Hk. cbn. erewrite write_entry_mem by done. destruct He2 as (?&?&->), He3 as (?&?&->). done.
  - eexists. split; [exact HV'|]. destruct Hg as (_&Hd&Hms&Hu&Hsub&_). rewrite Hms in Hm. rewrite (proj1 (PDX_spec la Hla)) in Hsub.
    split; [|apply (insert_ledger a1); [done..|by apply same_ledger]].
    unfold insert_as. cbn. rewrite Hd, Hms, Hu. split_and!; try done. unfold unmap_as. rewrite Hm. cbn. clear -Hp.
    case_decide; [|set_solver]. apply set_eq. intros y. rewrite elem_of_union, elem_of_difference, elem_of_singleton.
    destruct (decide (y = p)) as [->|]; tauto.
Qed.

Lemma insert_other_runs s3 q perm0 :
  maps a1 !! (x, vpn la) = Some (q, perm0) -> q <> p ->
  VRep (bump nodl p 1) (unmap_as a1 x (vpn la)) s3 -> kept a1 s2 (unmap_as a1 x (vpn la)) s3 ->
  runs (do! stw (slot t (PTX la)) (Z.lor (Z.lor (page2pa p) PTE_P) perm) in
        do! tlb_invalidate (kva x) la in ret 0) s3 (fun r s' => inserted a s x la p perm r s').
Proof.
  intros Hm Hqp HV3 Hk3. pose proof Hk3 as (Hr3&Hn3&Ho3&Hp3&_&_&Hm3).
  assert (Hu3 : p ∈ upages (unmap_as a1 x (vpn la))).
  { unfold unmap_as. cbn. rewrite Hm. case_decide; [|done]. apply elem_of_difference. rewrite elem_of_singleton. naive_solver. }
  eapply runs_mono.
  { apply (insert_tail (bump nodl p 1) (unmap_as a1 x (vpn la)) s3 x la p perm t); try done; cbn; rewrite lookup_delete_eq; [done|].
    intros y. unfold bump, nodl.
    destruct (decide (y = p)); [rewrite decide_True by done; lia|rewrite decide_False by naive_solver; done]. }
  cbn beta. intros r s' (->&HV'&Hf&T&->). right. split; [done|]. split; [done|]. split.
  - eapply grown_data_kept; [exact HV|exact Hg|..].
    + rewrite Hr3. destruct He2 as (?&?&->). done.
    + cbn. rewrite Hn3. destruct He2 as (?&?&->). done.
    + intros y Hy Hnu. split; [apply Ho3; [by apply Hown|done]|]. rewrite <- (reffed_pages y) by done. apply Hp3; [by apply Hown|done].
    + intros y k Hy Hk. cbn. erewrite write_entry_mem by done. rewrite Hm3 by done. destruct He2 as (?&?&->). done.
  - eexists. split; [exact HV'|]. destruct Hg as (_&Hd&Hms&Hu&Hsub&_). rewrite Hms in Hm. rewrite (proj1 (PDX_spec la Hla)) in Hsub.
    split.
    2: { eapply (insert_ledger (unmap_as a1 x (vpn la))); [done..|]. apply (ledger_trans _ a1 _ _ (vpm s2)); [by apply same_ledger|].
         apply (kept_ledger _ _ s2 _ s3 HV2); [done|done|apply unmap_upages|done]. }
    unfold insert_as. cbn. rewrite Hd, Hms, Hu, insert_delete_eq. split_and!; try done. unfold unmap_as. rewrite Hm. cbn. clear -Hp Hqp.
    case_decide; [|set_solver]. apply set_eq. intros y. rewrite elem_of_union, elem_of_difference, !elem_of_singleton.
    destruct (decide (y = p)) as [->|]; naive_solver.
Qed.
End Inserting.

Lemma page_insert_runs a s x la p perm :
  VRep nodl a s -> x ∈ dirs a -> is_u32 la -> p ∈ upages a -> 0 <= perm < 4096 ->
  runs (page_insert pm (kva x) p la perm) s (fun r s' => inserted a s x la p perm r s').
Proof.
  intros HV Hx Hla Hp Hperm. unfold page_insert. runs_steps. eapply runs_mono; [by eapply get_pte_runs|]. cbn beta.
  intros [w|] s1; [|intros (->&Ht&Hz); runs_steps; left; split_and!; auto]. intros (t&a1&->&Hg&_).
  pose proof Hg as (HV1&Hd&Hms&Hu&_&Ht&_).
  assert (Hp1 : p ∈ upages a1) by (by rewrite Hu). destruct (r_upage _ _ _ HV1 _ Hp1) as [Ho1 (pg&Hpg&Hr)].
  pose proof (count_bound _ _ _ p HV1). pose proof (count_nonneg p (maps a1)). unfold nodl in Hr.
  runs_steps. eapply runs_mono; [apply page_ref_inc_runs; [done|unfold MAXPAGE in *; lia]|]. cbn beta. intros _ s2 ->.
  set (s2 := reffed s1 p pg (ref pg + 1)).
  assert (He2 : exists pg r, s2 = reffed s1 p pg r) by (by eexists _, _).
  assert (HV2 : VRep (bump nodl p 1) a1 s2) by (by eapply (VRep_ref nodl a1 s1 s2 p 1 pg)).
  assert (Hown : forall y, pm_owned (vpm s2) y <-> pm_owned (vpm s1) y)
    by (intros y; symmetry; apply (pm_set_ref (vpm s1) p pg (ref pg + 1) (r_inv _ _ _ HV1) Ho1 Hpg)).
  unfold ldw. runs_steps. rewrite (pte_read _ _ _ x la t HV2 Hla Ht).
  destruct (maps a1 !! (x, vpn la)) as [[q perm0]|] eqn:Hm.
  - destruct (mapped_page _ _ _ _ _ _ _ HV2 Hm) as (_&Hperm0&Hq&_). pose proof (r_npage _ _ _ HV2).
    rewrite entry_present by lia. change (negb (1 =? 0)) with true. cbv iota. runs_steps.
    eapply runs_mono; [by apply pte2page_runs|]. cbn beta. intros ? ? [-> ->]. destruct (Z.eqb_spec q p) as [->|Hqp].
    + set (pg2 := set_page_ref (ref pg + 1) pg).
      eapply runs_mono; [apply (page_ref_dec_runs s2 p pg2); [cbn; by rewrite lookup_insert_eq|cbn; unfold MAXPAGE in *; lia]|].
      cbn beta. intros _ s3 ->. set (s3 := reffed s2 p pg2 (ref pg2 - 1)).
      assert (Hpg2 : pages (vpm s2) !! p = Some pg2) by (cbn; by rewrite lookup_insert_eq).
      destruct (r_upage _ _ _ HV2 _ Hp1) as [Ho2 _].
      apply (insert_same_runs a a1 s s1 s2 x la p perm t HV Hla Hp Hperm Hg He2 HV2 Hown s3 perm0); [|by eexists _, _| |done].
      * eapply VRep_ext; [eapply (VRep_ref _ a1 s2 s3 p (-1) pg2 HV2 Hp1 Hpg2); done|done|apply HV2| |done].
        intros y. unfold bump, nodl. case_decide; done.
      * intros y. rewrite <- Hown. symmetry. apply (pm_set_ref (vpm s2) p pg2 (ref pg2 - 1) (r_inv _ _ _ HV2) Ho2 Hpg2).
    + eapply runs_mono; [eapply (page_remove_pte_runs _ a1 s2 x la t HV2 Hla Ht)|].
      { rewrite Hm. intros ? ? [= <- _]. unfold bump. by rewrite decide_False. }
      cbn beta. intros _ s3 (HV3&Hk3&_). by eapply (insert_other_runs a a1 s s1 s2 x la p perm t HV Hla Hp Hperm Hg He2 HV2 Hown s3 q perm0).
  - change (negb (Z.land 0 PTE_P =? 0)) with false. cbv iota. apply runs_ret.
    by apply (insert_fresh_runs a a1 s s1 s2 x la p perm t HV Hla Hp Hperm Hg He2 HV2 Hown).
Qed.
End Ops.
