(* ===== verification/PageTableThm.v ===== *)
(** * Theorems on page tables

    Mapping, unmapping and looking up pages refine updates of a finite map
    from virtual pages to physical pages; reference counts are exact, and the
    TLB never holds a stale user translation. *)

From stdpp Require Import base gmap list.
From Stdlib Require Import ZArith Lia Bool.
From S2P Require Import Prelude.
From S2P Require Import Atomic.
From S2P Require Import Buddy.
From S2P Require Import BuddyInv.
From S2P Require Import BuddyOps.
From S2P Require Import BuddyThm.
From S2P Require Import Pmm.
From S2P Require Import PageTable.
From S2P Require Import PageTableInv.
From S2P Require Import PageTableOps.

(** ** Removing a range of mappings *)

Definition in_range (x lo hi : Z) (k : Z * Z) : Prop := fst k = x /\ lo <= snd k < hi.

(** [a'] is [a] without the mappings of directory [x] in [lo, hi). *)
Definition unmap_range_as (a : aspace) (x lo hi : Z) (a' : aspace) : Prop :=
  dirs a' = dirs a /\ tbls a' = tbls a /\
  (forall k, in_range x lo hi k -> maps a' !! k = None) /\
  (forall k, ~ in_range x lo hi k -> maps a' !! k = maps a !! k) /\
  (forall p, p ∈ upages a' <-> p ∈ upages a /\ (count p (maps a') = 0 -> count p (maps a) = 0)).

Lemma count_zero_sub (p : Z) (m m' : gmap (Z * Z) (Z * Z)) : m' ⊆ m -> count p m = 0 -> count p m' = 0.
Proof. rewrite !count_zero. intros Hsub H0 k perm Hk. eapply H0, lookup_weaken; done. Qed.

Lemma range_as_sub a x lo hi a' : unmap_range_as a x lo hi a' -> maps a' ⊆ maps a.
Proof.
  intros (_&_&Hin&Hout&_). apply map_subseteq_spec. intros k m Hk.
  destruct (decide (fst k = x /\ lo <= snd k < hi)) as [Hr|Hr]; [rewrite Hin in Hk; done|by rewrite <- Hout].
Qed.

Lemma range_as_trans a a1 a2 x lo mid hi :
  lo <= mid <= hi -> unmap_range_as a x lo mid a1 -> unmap_range_as a1 x mid hi a2 -> unmap_range_as a x lo hi a2.
Proof.
  intros Hm H1 H2. pose proof (range_as_sub _ _ _ _ _ H1) as Hs1. pose proof (range_as_sub _ _ _ _ _ H2) as Hs2.
  destruct H1 as (Hd1&Ht1&Hin1&Hout1&Hu1), H2 as (Hd2&Ht2&Hin2&Hout2&Hu2). unfold in_range in *.
  split_and!; try congruence.
  - intros k [Hk Hr]. destruct (decide (mid <= snd k)); [apply Hin2; lia|]. rewrite Hout2 by lia. apply Hin1. lia.
  - intros k Hk. rewrite Hout2, Hout1 by (intros [? ?]; apply Hk; split; [done|lia]). done.
  - intros p. rewrite Hu2, Hu1. pose proof (count_zero_sub p _ _ Hs1). pose proof (count_zero_sub p _ _ Hs2). tauto.
Qed.

Lemma range_as_none a x lo hi : (forall v, lo <= v < hi -> maps a !! (x, v) = None) -> unmap_range_as a x lo hi a.
Proof. intros Hn. split_and!; try done; [|tauto]. intros [y v] [Hy Hv]. cbn in *. subst. by apply Hn. Qed.

Lemma range_as_one a x v :
  (forall p perm, maps a !! (x, v) = Some (p, perm) -> p ∈ upages a) ->
  unmap_range_as a x v (v + 1) (unmap_as a x v).
Proof.
  intros Hup. split_and!; try done.
  - intros [y w] [Hy Hw]. cbn in *. replace w with v by lia. subst. apply lookup_delete_eq.
  - intros [y w] Hk. cbn. apply lookup_delete_ne. intros [= <- <-]. apply Hk. unfold in_range. cbn. lia.
  - intros q. cbn. destruct (maps a !! (x, v)) as [[p perm]|] eqn:Hm; [|rewrite delete_id by done; tauto].
    rewrite (count_delete q _ p perm) by done. specialize (Hup _ _ eq_refl).
    destruct (decide (count p (maps a) = 1)) as [H1|H1].
    + rewrite elem_of_difference, elem_of_singleton. destruct (decide (p = q)) as [<-|Hne]; [|split; intros [? ?]; (split; [done|]); intros; lia || congruence].
      rewrite H1. split; [tauto|]. intros [_ Hx]. specialize (Hx eq_refl). done.
    + destruct (decide (p = q)) as [<-|Hne]; [|split; [intros ?; split; [done|lia]|tauto]].
      split; [intros ?; split; [done|lia]|tauto].
Qed.

Lemma kept_trans {pm} `{!PmmOk pm} a s a1 s1 a2 s2 :
  tbls a1 = tbls a -> upages a1 ⊆ upages a -> upages a2 ⊆ upages a1 ->
  kept a s a1 s1 -> kept a1 s1 a2 s2 -> kept a s a2 s2.
Proof.
  intros Ht Hu1 Hu2 (He1&Hn1&Ho1&Hp1&Hf1&Hb1&Hm1) (He2&Hn2&Ho2&Hp2&Hf2&Hb2&Hm2).
  assert (Hit : forall y, is_table a1 y <-> is_table a y) by (intros y; unfold is_table; by rewrite Ht).
  split; [rewrite He2, He1; done|]. split; [congruence|]. split; [|split; [|split; [|split]]].
  - intros y Hy Hup. apply Ho2; [apply Ho1; [done|]; auto|]. auto.
  - intros y Hy Hnu. rewrite Hp2; [by apply Hp1| |set_solver]. apply Ho1; [done|]. done.
  - intros y Hy Hny Hoy. destruct (decide (y ∈ upages a1)); [by eapply Hf2|]. eapply Hf1; eauto.
  - auto.
  - intros y k Hy Hk. rewrite Hm2 by (by rewrite ?Hit). by apply Hm1.
Qed.

Section Ranges.
Context {pm : pmm_manager} `{!PmmOk pm}.
Implicit Types (a : aspace) (s : vm).

Definition range_unmapped a s (x lo hi : Z) s' : Prop :=
  exists a', unmap_range_as a x lo hi a' /\ VRep nodl a' s' /\ kept a s a' s' /\ TlbOk a' s'.

(** A table that is not there maps nothing up to its end. *)
Lemma no_table_range dl a s x la :
  VRep dl a s -> is_u32 la -> tbls a !! (x, PDX la) = None ->
  forall v, vpn la <= v < 1024 * (PDX la + 1) -> maps a !! (x, v) = None.
Proof.
  intros HV Hla Ht v Hv. destruct (maps a !! (x, v)) as [[p perm]|] eqn:Hm; [|done].
  destruct (r_map _ _ _ HV _ _ _ _ Hm) as (_&[t Ht']&_). destruct (PDX_spec la Hla) as [Hd _].
  replace (v / 1024) with (PDX la) in Ht' by (rewrite Hd in *; mlia). congruence.
Qed.

Lemma next_table la :
  is_u32 la -> la < USERTOP ->
  let la' := ROUNDDOWN_2N (u32 (la + PTSIZE)) PTSHIFT in
  la' = 4194304 * (PDX la + 1) /\ la < la' /\ la' mod 4096 = 0 /\ vpn la' = 1024 * (PDX la + 1).
Proof.
  intros Hla Ht. cbv zeta. destruct (PDX_spec la Hla) as [Hd _]. rewrite u32_small by (unfold USERTOP in *; addr; lia).
  rewrite rounddown_spec by (unfold USERTOP in *; addr; lia). change (2 ^ PTSHIFT) with 4194304. rewrite Hd.
  unfold USERTOP in *. addr. mlia.
Qed.

Lemma next_page la : is_u32 la -> la < USERTOP -> la mod 4096 = 0 ->
  u32 (la + PGSIZE) = la + 4096 /\ (la + 4096) mod 4096 = 0 /\ vpn (la + 4096) = vpn la + 1.
Proof. intros Hla Ht Ha. unfold USERTOP in *. addr. mlia. Qed.

Lemma unmap_step_runs a s x start hi :
  vpn start < hi -> VRep nodl a s -> x ∈ dirs a -> TlbOk a s -> is_u32 start -> start < USERTOP -> start mod 4096 = 0 ->
  runs (unmap_step pm (kva x) start) s (fun start' s' =>
    start < start' /\ start' mod 4096 = 0 /\ range_unmapped a s x (vpn start) (Z.min hi (vpn start')) s').
Proof.
  intros Hhi HV Hx Htlb Hst Htop Hal. unfold unmap_step. runs_steps. eapply runs_mono; [by eapply get_pte_runs|]. cbn beta.
  destruct (next_page start Hst Htop Hal) as (Hnp&Hnal&Hnv).
  intros [w|] s1.
  - intros (t&a1&->&Hg&He). destruct He as [-> ->]; [by left|]. destruct Hg as (_&_&_&_&_&Ht&_). unfold ldw. runs_steps.
    rewrite (pte_read _ _ _ x start t HV Hst Ht), Hnp.
    assert (Hone : unmap_range_as a x (vpn start) (Z.min hi (vpn (start + 4096))) (unmap_as a x (vpn start))).
    { rewrite Hnv, Z.min_r by lia. apply range_as_one. intros p perm Hm. by destruct (mapped_page _ _ _ _ _ _ _ HV Hm). }
    destruct (maps a !! (x, vpn start)) as [[p perm]|] eqn:Hm.
    + destruct (mapped_page _ _ _ _ _ _ _ HV Hm) as (_&Hperm&Hp&_). pose proof (r_npage _ _ _ HV).
      destruct (Z.eqb_spec (entry p perm) 0); [by destruct (entry_nonzero p perm); lia|]. cbn [negb].
      eapply runs_mono; [by eapply page_remove_pte_runs|]. cbn beta. intros _ s' (HV'&Hk'&Hf'). runs_steps.
      split; [lia|]. split; [done|]. exists (unmap_as a x (vpn start)). split_and!; try done. by apply flushed_ok.
    + change (negb (0 =? 0)) with false. cbv iota. runs_steps. split; [lia|]. split; [done|].
      rewrite unmap_none in Hone by done. exists a. split_and!; try done. apply kept_refl.
  - intros (->&Ht&_). runs_steps. destruct (next_table start Hst Htop) as (->&Hlt&Hal'&Hv'). split; [done|]. split; [done|].
    exists a. split_and!; try done; [|apply kept_refl]. rewrite Hv'. apply range_as_none.
    intros v Hv. eapply no_table_range; [done..|]. lia.
Qed.

Lemma range_unmapped_trans a s x lo mid hi s1 s2 a1 :
  lo <= mid <= hi -> unmap_range_as a x lo mid a1 -> kept a s a1 s1 ->
  range_unmapped a1 s1 x mid hi s2 -> range_unmapped a s x lo hi s2.
Proof.
  intros Hm H1 Hk1 (a2&H2&HV2&Hk2&Ht2). exists a2. split_and!; try done; [by eapply range_as_trans|].
  destruct H1 as (_&Ht&_&_&Hu1), H2 as (_&_&_&_&Hu2).
  eapply kept_trans; [done| | |exact Hk1|exact Hk2]; intros y Hy; [by apply Hu1|by apply Hu2].
Qed.

Lemma unmap_loop_runs x end_ fuel : forall a s start,
  VRep nodl a s -> x ∈ dirs a -> TlbOk a s -> 0 <= start -> start < end_ -> end_ <= USERTOP ->
  start mod 4096 = 0 -> end_ mod 4096 = 0 -> end_ - start <= 4096 * Z.of_nat fuel ->
  runs (unmap_loop pm fuel (kva x) start end_) s (fun _ s' =>
    range_unmapped a s x (vpn start) (vpn end_) s').
Proof.
  induction fuel as [|fuel IH]; intros a s start HV Hx Htlb H0 Hlt Htop Hal Hale Hf; [lia|]. cbn [unmap_loop]. runs_steps.
  assert (is_u32 start) by (unfold USERTOP in *; addr; lia).
  eapply runs_mono; [apply (unmap_step_runs a s x start (vpn end_)); try done; [addr; mlia|lia]|]. cbn beta.
  intros start' s1 (Hadv&Hal'&a1&HU&HV1&Hk1&Ht1). rewrite (proj2 (Z.eqb_neq start' 0)) by lia. cbn [negb andb].
  assert (4096 <= start' - start) by mlia.
  destruct (Z.ltb_spec start' end_) as [Hc|Hc].
  - rewrite Z.min_r in HU by (addr; mlia). assert (dirs a1 = dirs a) as Hd by apply HU.
    eapply runs_mono; [apply IH; try done; try lia; by rewrite Hd|]. cbn beta. intros _ s2 Hr.
    eapply range_unmapped_trans; [|exact HU|exact Hk1|exact Hr]. addr; mlia.
  - runs_steps. rewrite Z.min_l in HU by (addr; mlia). by exists a1.
Qed.

Lemma unmap_range_runs a s x start end_ :
  VRep nodl a s -> x ∈ dirs a -> TlbOk a s -> USER_ACCESS start end_ = true ->
  start mod 4096 = 0 -> end_ mod 4096 = 0 ->
  runs (unmap_range pm (kva x) start end_) s (fun _ s' => range_unmapped a s x (vpn start) (vpn end_) s').
Proof.
  intros HV Hx Htlb Hacc Hal Hale. unfold unmap_range. runs_steps. apply runs_assert.
  { unfold PGSIZE. by rewrite Hal, Hale. }
  runs_steps. apply runs_assert; [done|]. unfold USER_ACCESS in Hacc.
  rewrite !andb_true_iff, !Z.leb_le, Z.ltb_lt in Hacc. unfold USERBASE in Hacc. apply unmap_loop_runs; try done; try lia.
  unfold pages_fuel. rewrite Z.shiftr_div_pow2 by (cbv; done). change (2 ^ PGSHIFT) with 4096. mlia.
Qed.
End Ranges.

(** ** Giving up page tables *)

Section Tables.
Context {pm : pmm_manager} `{!PmmOk pm}.
Implicit Types (a : aspace) (s : vm).

(** [a'] is [a] without the tables [lo, hi) of directory [x], which are free. *)
Definition freed_as a s (x lo hi : Z) a' s' : Prop :=
    VRep nodl a' s' /\ dirs a' = dirs a /\ maps a' = maps a /\ upages a' = upages a /\
    (forall y i, tbls a' !! (y, i) = if decide (y = x /\ lo <= i < hi) then None else tbls a !! (y, i)) /\
    s' = mkVm (vpm s') (mem s') (current_pgdir s) (status s) (tlb s) (tlb_index s) /\
    (forall y, pm_owned (vpm s') y -> pm_owned (vpm s) y) /\
    (forall i t, lo <= i < hi -> tbls a !! (x, i) = Some t -> ~ pm_owned (vpm s') t) /\
    (forall y, pm_owned (vpm s) y -> (forall i, lo <= i < hi -> tbls a !! (x, i) <> Some y) -> pm_owned (vpm s') y).
Definition tables_freed a s (x lo hi : Z) s' : Prop := exists a', freed_as a s x lo hi a' s'.

Lemma exit_step_runs a s x start :
  VRep nodl a s -> x ∈ dirs a -> is_u32 start -> (forall v, v / 1024 = PDX start -> maps a !! (x, v) = None) ->
  runs (exit_step pm (kva x) start) s (fun _ s' => tables_freed a s x (PDX start) (PDX start + 1) s').
Proof.
  intros HV Hx Hst Hno. destruct (PDX_spec start Hst) as [_ Hi]. pose proof (r_npage _ _ _ HV) as Hnp.
  assert (Hxb : 0 <= x < npage (vpm s)) by (eapply owned_npage, (r_dir _ _ _ HV _ Hx); done).
  unfold exit_step. rewrite pdep_slot by (done || lia). unfold ldw. runs_steps. rewrite (r_pde _ _ _ HV) by done.
  destruct (tbls a !! (x, PDX start)) as [t|] eqn:Ht.
  - destruct (r_tbl _ _ _ HV _ _ _ Ht) as (_&_&Hot&_). pose proof (owned_npage _ _ _ _ HV Hot).
    rewrite entry_present by (apply PTE_USER_small || lia). change (negb (1 =? 0)) with true. cbv iota.
    unfold pde2page, pa2page, PDE_ADDR. rewrite entry_ADDR by (apply PTE_USER_small || lia). runs_steps.
    rewrite <- (Z.add_0_r (kva t)), PPN_kva by lia. destruct (Z.leb_spec (npage (vpm s)) t); [lia|]. runs_steps.
    eapply runs_mono; [apply free_page_runs; [apply HV|apply HV|done]|]. cbn beta.
    intros _ s1 (He&HI1&Hn1&Hno1&Hpres1&Hback&_). unfold stw. runs_steps.
    exists (mkAs (dirs a) (delete (x, PDX start) (tbls a)) (maps a) (upages a)). unfold freed_as. cbn.
    split; [eapply (VRep_untable nodl a s); try done; by rewrite He|]. split_and!; try done.
    + intros y i. rewrite lookup_delete. destruct (decide ((x, PDX start) = (y, i))) as [[= <- <-]|Hne];
        [rewrite decide_True by (split; [done|lia]); done|].
      rewrite decide_False; [done|]. intros [-> ?]. apply Hne. f_equal. lia.
    + rewrite He. done.
    + intros i t' Hii. replace i with (PDX start) by lia. rewrite Ht. intros [= <-]. done.
    + intros y Hy Hny. apply Hpres1; [|done]. intros ->. apply (Hny (PDX start)); [lia|done].
  - change (negb (Z.land 0 PTE_P =? 0)) with false. cbv iota. runs_steps. exists a. unfold freed_as. split_and!; try done.
    + intros y i. case_decide as Hc; [|done]. destruct Hc as [-> ?]. by replace i with (PDX start) by lia.
    + by destruct s.
    + intros i t Hii. replace i with (PDX start) by lia. by rewrite Ht.
Qed.

Lemma freed_as_trans a s x lo mid hi a1 s1 a2 s2 :
  lo <= mid <= hi -> freed_as a s x lo mid a1 s1 -> freed_as a1 s1 x mid hi a2 s2 -> freed_as a s x lo hi a2 s2.
Proof.
  intros Hm (HV1&Hd1&Hm1&Hu1&Ht1&He1&Hb1&Hf1&Hk1) (HV2&Hd2&Hm2&Hu2&Ht2&He2&Hb2&Hf2&Hk2).
  unfold freed_as. split_and!; try done; try congruence.
  - intros y i. rewrite Ht2, Ht1. repeat case_decide; try done; lia.
  - rewrite He2, He1. done.
  - auto.
  - intros i t Hi Ht Ho. destruct (decide (i < mid)); [by apply (Hf1 i t); [lia|done|apply Hb2]|].
    apply (Hf2 i t); [lia| |done]. rewrite Ht1, decide_False by lia. done.
  - intros y Hy Hny. apply Hk2; [apply Hk1; [done|]; intros i Hi; apply Hny; lia|].
    intros i Hi. rewrite Ht1. case_decide; [done|]. apply Hny. lia.
Qed.

Lemma exit_loop_runs x end_ fuel : forall a s start,
  VRep nodl a s -> x ∈ dirs a -> 0 <= start -> start < end_ -> end_ <= USERTOP -> start mod 4194304 = 0 ->
  (forall v, start / 4096 <= v < 1024 * ((end_ + 4194303) / 4194304) -> maps a !! (x, v) = None) ->
  end_ - start <= 4194304 * Z.of_nat fuel ->
  runs (exit_loop pm fuel (kva x) start end_) s (fun _ s' =>
    tables_freed a s x (start / 4194304) ((end_ + 4194303) / 4194304) s').
Proof.
  induction fuel as [|fuel IH]; intros a s start HV Hx H0 Hlt Htop Hal Hno Hf; [lia|].
  assert (Hst : is_u32 start) by (unfold USERTOP in *; addr; lia). destruct (PDX_spec start Hst) as [Hd _].
  assert (Hd' : PDX start = start / 4194304) by (rewrite Hd; addr; mlia).
  cbn [exit_loop]. runs_steps. eapply runs_mono; [apply (exit_step_runs a s x start HV Hx Hst)|].
  { intros v Hv. apply Hno. rewrite Hd' in Hv. mlia. }
  cbn beta. intros _ s1 Hfr. rewrite Hd' in Hfr. cbv zeta.
  rewrite u32_small by (unfold USERTOP in *; addr; lia). unfold PTSIZE. rewrite (proj2 (Z.eqb_neq _ 0)) by lia. cbn [negb andb].
  destruct (Z.ltb_spec (start + 4194304) end_) as [Hc|Hc].
  - destruct Hfr as (a1&Hfr). pose proof Hfr as (HV1&Hd1&Hm1&_). eapply runs_mono.
    { apply (IH a1 s1); [done|by rewrite Hd1|lia|lia|done|mlia| |lia]. intros v Hv. rewrite Hm1. apply Hno. mlia. }
    cbn beta. intros _ s2 (a2&Hfr2). exists a2. eapply freed_as_trans; [|exact Hfr|].
    + mlia.
    + replace (start / 4194304 + 1) with ((start + 4194304) / 4194304) by mlia. exact Hfr2.
  - runs_steps. replace ((end_ + 4194303) / 4194304) with (start / 4194304 + 1) by mlia. done.
Qed.

(** Every table that meets [start, end_) is given up; the range's tables must
    be empty. *)
Lemma exit_range_runs a s x start end_ :
  VRep nodl a s -> x ∈ dirs a -> USER_ACCESS start end_ = true -> start mod 4096 = 0 -> end_ mod 4096 = 0 ->
  (forall v, 1024 * (start / 4194304) <= v < 1024 * ((end_ + 4194303) / 4194304) -> maps a !! (x, v) = None) ->
  runs (exit_range pm (kva x) start end_) s (fun _ s' =>
    tables_freed a s x (start / 4194304) ((end_ + 4194303) / 4194304) s').
Proof.
  intros HV Hx Hacc Hal Hale Hno. unfold exit_range. runs_steps. apply runs_assert.
  { unfold PGSIZE. by rewrite Hal, Hale. }
  runs_steps. apply runs_assert; [done|]. unfold USER_ACCESS in Hacc.
  rewrite !andb_true_iff, !Z.leb_le, Z.ltb_lt in Hacc. unfold USERBASE in Hacc.
  assert (Hst : is_u32 start) by (unfold USERTOP in *; addr; lia).
  rewrite rounddown_spec by (done || addr; lia). change (2 ^ PTSHIFT) with 4194304.
  replace (start / 4194304) with ((start - start mod 4194304) / 4194304) by mlia.
  apply exit_loop_runs; try done; try lia.
  - mlia.
  - mlia.
  - mlia.
  - intros v Hv. apply Hno. mlia.
  - unfold pages_fuel. rewrite Z.shiftr_div_pow2 by (cbv; done). change (2 ^ PGSHIFT) with 4096. mlia.
Qed.

Lemma freed_ledger a s x lo hi a' s' : VRep nodl a s -> freed_as a s x lo hi a' s' -> ledger a (vpm s) a' (vpm s').
Proof.
  intros HV (HV'&Hd&_&Hu&Ht&_&Hback&Hfree&Hkeep).
  assert (Hsub : forall k t, tbls a' !! k = Some t -> tbls a !! k = Some t) by (intros [y i] t; rewrite Ht; by case_decide).
  apply (ledger_shrink nodl); [done|..].
  - unfold as_page. rewrite Hd, Hu. intros y [?|[[k Hk]|?]]; [by left|right; left; exists k; by apply Hsub|by right; right].
  - done.
  - intros y Hy Has. destruct (decide (as_page a y)) as [Ha|Hna]; [by eapply as_page_owned, Has|]. apply Hkeep; [done|].
    intros i _ Hi. apply Hna. right. left. by eexists.
  - unfold as_page. rewrite Hd, Hu. intros y [?|[[[z i] Hk]|?]] Hn; [destruct Hn; by left| |destruct Hn; by right; right].
    specialize (Ht z i). case_decide as Hz.
    + destruct Hz as [-> Hi]. by apply (Hfree i y).
    + destruct Hn. right. left. exists (z, i). by rewrite Ht.
Qed.
End Tables.

(** ** Allocating and mapping a page *)

Section Alloc.
Context {pm : pmm_manager} `{!PmmOk pm}.
Implicit Types (a : aspace) (s : vm).

Definition with_upage a (p : Z) : aspace := mkAs (dirs a) (tbls a) (maps a) ({[p]} ∪ upages a).

Lemma take_upage a s s1 p : VRep nodl a s -> fresh_page s s1 p -> VRep nodl (with_upage a p) s1.
Proof.
  intros HV (He&HI&Hn&Hno&Hr&Ho&Hpres&_). apply (VRep_take nodl a s s1 p); try done; by rewrite He.
Qed.

Lemma take_ledger a s s1 p : VRep nodl a s -> fresh_page s s1 p -> ledger a (vpm s) (with_upage a p) (vpm s1).
Proof.
  intros HV (_&_&_&Hno&_&Ho&Hpres&Hback&_). apply (ledger_grow nodl); [done|..]; unfold as_page, is_table; cbn.
  - set_solver.
  - intros y [?|[?|[->%elem_of_singleton|?]%elem_of_union]]; [left; by left|left; by right; left|by right|left; by right; right].
  - intros y Hy. by apply Hpres.
  - intros y Hy. destruct (Hback y Hy) as [->|]; [right; set_solver|by left].
Qed.

(** A failed [page_insert] gives the page back; nothing represented changes. *)
Lemma give_back_upage a s s' p :
  VRep nodl (with_upage a p) s -> p ∉ upages a -> count p (maps a) = 0 ->
  s' = set_vpm (vpm s') s -> pm_inv (vpm s') -> npage (vpm s') = npage (vpm s) ->
  (forall y, y <> p -> pm_owned (vpm s) y -> pm_owned (vpm s') y /\ pages (vpm s') !! y = pages (vpm s) !! y) ->
  VRep nodl a s'.
Proof.
  intros HV Hp Hc He HI Hn Hpres.
  assert (HV' : VRep nodl (mkAs (dirs a) (tbls a) (maps a) (({[p]} ∪ upages a) ∖ {[p]})) s').
  { apply (VRep_drop nodl (with_upage a p) s s' p); try done; [cbn; set_solver|by rewrite He..]. }
  replace (({[p]} ∪ upages a) ∖ {[p]}) with (upages a) in HV'; [by destruct a|].
  apply set_eq. intros y. rewrite elem_of_difference, elem_of_union, elem_of_singleton.
  destruct (decide (y = p)) as [->|]; tauto.
Qed.

Definition page_mapped a s (x la perm : Z) (r : option Z) s' : Prop :=
  match r with
  | None => VRep nodl a s' /\ tlb s' = tlb s /\ current_pgdir s' = current_pgdir s /\ (forall y, pm_owned (vpm s') y <-> pm_owned (vpm s) y) /\
      (pm_nfree (vpm s') = 0 \/ pm_nfree (vpm s') = 1 /\ tbls a !! (x, PDX la) = None)
  | Some p => ~ pm_owned (vpm s) p /\ tlb_flushed s' /\ current_pgdir s' = current_pgdir s /\
      exists a', VRep nodl a' s' /\ insert_as (with_upage a p) x (vpn la) p perm a' /\ ledger a (vpm s) a' (vpm s')
  end.

(** What is in use stays in use, unless the new mapping replaces another. *)
Definition in_use_kept a s (x la : Z) s' : Prop :=
  npage (vpm s') = npage (vpm s) /\ (maps a !! (x, vpn la) = None -> forall y, pm_owned (vpm s) y -> pm_owned (vpm s') y).

Lemma pgdir_alloc_page_full a s x la perm :
  VRep nodl a s -> x ∈ dirs a -> is_u32 la -> 0 <= perm < 4096 ->
  runs (pgdir_alloc_page pm (kva x) la perm) s (fun r s' => page_mapped a s x la perm r s' /\ in_use_kept a s x la s').
Proof.
  intros HV Hx Hla Hperm. unfold pgdir_alloc_page. runs_steps.
  eapply runs_mono; [apply alloc_page_runs; apply HV|]. cbn beta. intros [p|] s1; [|intros [-> Hz]; runs_steps; cbn; split_and!; try done; by left].
  intros Hf. pose proof Hf as (He&HI&Hn&Hno&_&Ho&Hpres1&Hback1&Hfr1). pose proof (take_upage a s s1 p HV Hf) as HV1.
  assert (Hp : p ∈ upages (with_upage a p)) by (cbn; set_solver).
  runs_steps. eapply runs_mono; [by apply (page_insert_runs _ s1 x la p perm HV1)|]. cbn beta.
  intros r s2 [(->&->&Hz&Hnt)|(->&Hfl&(Hregs&Hn2&Hpres2&_)&a'&HV'&Hins&Hled)].
  - change (negb (- E_NO_MEM =? 0)) with true. cbv iota. runs_steps.
    eapply runs_mono; [apply free_page_runs; [apply HV1|done|done]|]. cbn beta.
    intros _ s3 (He3&HI3&Hn3&Hno3&Hpres3&Hback3&Hfr3). runs_steps. cbn. split.
    + split; [|split; [by rewrite He3, He|split; [by rewrite He3, He|split; [|right; split; [lia|done]]]]].
      2: { intros y. split; [intros Hy; by destruct (Hback1 y (Hback3 y Hy)) as [->|]|]. intros Hy. apply Hpres3; [by intros ->|by apply Hpres1]. }
      assert (p ∉ upages a) by (intros Hu; by apply Hno, (r_upage _ _ _ HV)).
      apply (give_back_upage a s1 s3 p); try done.
      apply count_zero. intros [y v] q Hq. by destruct (r_map _ _ _ HV _ _ _ _ Hq) as (_&_&?&_).
    + split; [congruence|]. intros _ y Hy. apply Hpres3; [intros ->; done|by apply Hpres1].
  - cbn [negb]. runs_steps. cbn. split; [split; [done|]; split; [done|]; split; [rewrite Hregs; cbn; by rewrite He|]; exists a'; split; [done|]; split; [done|]; eapply ledger_trans; [by eapply take_ledger|done]|].
    split; [congruence|]. intros Hnone y Hy. destruct (decide (y ∈ upages a)) as [Hu|Hu].
    + apply (r_upage _ _ _ HV'). destruct Hins as (_&_&_&->). cbn. rewrite Hnone. clear -Hu. set_solver.
    + apply Hpres2; [by apply Hpres1|]. cbn. assert (y <> p) by (intros ->; done). clear -Hu H. set_solver.
Qed.
Lemma pgdir_alloc_page_runs a s x la perm :
  VRep nodl a s -> x ∈ dirs a -> is_u32 la -> 0 <= perm < 4096 ->
  runs (pgdir_alloc_page pm (kva x) la perm) s (page_mapped a s x la perm).
Proof. intros HV Hx Hla Hperm. eapply runs_mono; [by apply pgdir_alloc_page_full|]. by intros r s' []. Qed.

(** ** TLB refill *)

Lemma land_4096 la : is_u32 la -> (Z.land la (Z.shiftl 1 12) =? 0) = (vpn la mod 2 =? 0).
Proof.
  intros Hla. assert (Hb : Z.testbit la 12 = (vpn la mod 2 =? 1)).
  { rewrite Z.testbit_eqb by lia. done. }
  pose proof (test_bit_spec 12 la ltac:(lia)) as Ht. unfold test_bit in Ht. rewrite Hb in Ht.
  apply (f_equal negb) in Ht. rewrite negb_involutive in Ht. rewrite Ht.
  destruct (Z.eqb_spec (vpn la mod 2) 1), (Z.eqb_spec (vpn la mod 2) 0); try done; mlia.
Qed.

Lemma pte_word_tlb a s x v t :
  VRep nodl a s -> tbls a !! (x, v / 1024) = Some t -> slot_ok a x v (pte2tlblow (mem s (slot t (v mod 1024)))).
Proof.
  intros HV Ht. rewrite (r_pte _ _ _ HV x (v / 1024) t) by (done || mlia).
  replace (1024 * (v / 1024) + v mod 1024) with v by mlia.
  destruct (maps a !! (x, v)) as [[p perm]|] eqn:Hm; [right; by exists p, perm|left; done].
Qed.

Definition pair_base (la : Z) : Z := 2 * (vpn la / 2).

Lemma tlb_refill_runs a s x la t :
  VRep nodl a s -> TlbOk a s -> current_pgdir s = kva x -> is_u32 la -> tbls a !! (x, PDX la) = Some t ->
  runs (tlb_refill la (Some (slot t (PTX la)))) s (fun _ s' =>
    VRep nodl a s' /\ TlbOk a s' /\ current_pgdir s' = current_pgdir s /\
    exists e, tlb s' !! Z.land (tlb_index s) 15 = Some e /\ vpn (t_hi e) = pair_base la /\
      slot_ok a x (pair_base la) (t_lo0 e) /\ slot_ok a x (pair_base la + 1) (t_lo1 e) /\
      forall p perm, maps a !! (x, vpn la) = Some (p, perm) ->
        (if vpn la mod 2 =? 0 then t_lo0 e else t_lo1 e) = pte2tlblow (entry p perm)).
Proof.
  intros HV Htlb Hcur Hla Ht. unfold tlb_refill. rewrite land_4096 by done. unfold ldw, write_one_tlb. runs_steps.
  destruct (PDX_spec la Hla) as [Hd _], (PTX_spec la Hla) as [Hp _].
  set (w := if negb (vpn la mod 2 =? 0) then slot t (PTX la) - 4 else slot t (PTX la)).
  assert (Hw0 : w = slot t (pair_base la mod 1024)).
  { unfold w, pair_base, slot. rewrite Hp. destruct (Z.eqb_spec (vpn la mod 2) 0); cbn [negb]; mlia. }
  assert (Hw1 : w + 4 = slot t ((pair_base la + 1) mod 1024)) by (rewrite Hw0; unfold pair_base, slot; mlia).
  assert (Ht0 : tbls a !! (x, pair_base la / 1024) = Some t)
    by (replace (pair_base la / 1024) with (PDX la) by (rewrite Hd; unfold pair_base; mlia); done).
  assert (Ht1 : tbls a !! (x, (pair_base la + 1) / 1024) = Some t)
    by (replace ((pair_base la + 1) / 1024) with (PDX la) by (rewrite Hd; unfold pair_base; mlia); done).
  pose proof (pte_word_tlb a s x _ t HV Ht0) as Hs0. pose proof (pte_word_tlb a s x _ t HV Ht1) as Hs1.
  rewrite <- Hw0 in Hs0. rewrite <- Hw1 in Hs1.
  assert (Hhi : vpn (Z.land la (lnot32 0x1FFF)) = pair_base la).
  { change 0x1FFF with (Z.ones 13). rewrite land_lnot32 by (done || lia). change (2 ^ 13) with 8192. unfold pair_base. addr. mlia. }
  set (e := mkTlb _ _ _).
  split; [eapply VRep_ext; [exact HV|done|apply HV|done|done]|]. split; [|split; [done|]].
  - intros i e' d Hi He' Hc Hdd. cbn in He', Hc. rewrite lookup_insert in He'. case_decide; [|by eapply Htlb].
    injection He' as <-. assert (d = x) as -> by (rewrite Hcur in Hc; unfold kva in Hc; lia). cbn. rewrite Hhi. done.
  - exists e. cbn. rewrite lookup_insert_eq. split_and!; try done. intros p perm Hm.
    assert (Hword : mem s (slot t (PTX la)) = entry p perm).
    { rewrite (pte_read _ _ _ x la t HV Hla Ht), Hm. done. }
    destruct (Z.eqb_spec (vpn la mod 2) 0) as [Hev|Hod].
    + rewrite <- Hword. do 2 f_equal.
    + rewrite <- Hword. do 2 f_equal. unfold w, slot. cbn [negb]. lia.
Qed.

(** What the hardware reads off the entry: valid, global, dirty iff writable,
    and the frame number of the page. *)
Lemma pte2tlblow_decode p perm :
  0 <= p < MAXPAGE -> 0 <= perm < 4096 ->
  let lo := pte2tlblow (entry p perm) in
  Z.shiftr lo 6 = p /\ Z.testbit lo 1 = true /\ Z.testbit lo 0 = true /\ Z.testbit lo 2 = Z.testbit perm 1.
Proof.
  intros Hp Hperm. cbv zeta. destruct (entry_split p perm Hp Hperm) as (o&He&Ho&Hb).
  assert (Hw : Z.testbit (entry p perm) 1 = Z.testbit perm 1).
  { unfold entry. rewrite !Z.lor_spec. replace (Z.testbit (kva p) 1) with false; [done|].
    symmetry. rewrite <- (Z.mod_pow2_bits_low _ 12) by lia. replace (kva p mod 2 ^ 12) with 0; [done|].
    change (2 ^ 12) with 4096. addr. mlia. }
  unfold pte2tlblow. unfold ptep_present. rewrite entry_present by done. cbn [negb Z.eqb].
  assert (Hpf : u32 (Z.shiftl (Z.shiftr (u32 (entry p perm - KERNBASE)) 12) 6) = 64 * p).
  { rewrite He. rewrite Z.shiftl_mul_pow2, Z.shiftr_div_pow2 by lia. change (2 ^ 12) with 4096. change (2 ^ 6) with 64. addr. mlia. }
  rewrite Hpf. unfold ptep_s_write, PTE_W. pose proof (test_bit_spec 1 (entry p perm) ltac:(lia)) as Ht. unfold test_bit in Ht.
  change (Z.shiftl 1 1) with 2 in Ht. rewrite Ht, Hw. change (Z.shiftl 2 3) with 16.
  assert (Hsplit : forall c, 0 <= c < 64 -> Z.lor (64 * p) c = 64 * p + c)
    by (intros c Hc; apply (lor_low_high 6); [lia|change (2 ^ 6) with 64; mlia|done]).
  assert (Hbits : forall c i, 0 <= c < 64 -> 0 <= i < 6 -> Z.testbit (64 * p + c) i = Z.testbit c i).
  { intros c i Hc Hi. rewrite <- (Z.mod_pow2_bits_low (64 * p + c) 6) by lia. f_equal. change (2 ^ 6) with 64. mlia. }
  destruct (Z.testbit perm 1); rewrite <- !Z.lor_assoc;
    [change (Z.lor 2 (Z.lor 1 (Z.lor 16 4))) with 23|change (Z.lor 2 (Z.lor 1 16)) with 19];
    rewrite Hsplit, Z.shiftr_div_pow2, !Hbits by lia; change (2 ^ 6) with 64; (split; [mlia|done]).
Qed.
End Alloc.

(** ** Theorems *)

Section Theorems.
Context {pm : pmm_manager} `{!PmmOk pm}.
Implicit Types (a : aspace) (s : vm).

(** C2: [page_insert] refines the update of the mapping at [(x, vpn la)]: either
    a page table is needed but no page is free, and nothing changes, or exactly that
    mapping is set, the page mapped there before loses a reference, all reference
    counts equal the number of mappings, the TLB is empty of stale entries, and the
    contents of all data pages and the descriptors of kernel pages are as before.
    No page is lost or stolen ([ledger]): the pages handed out afterwards are the
    directories, tables and user pages of the address spaces (without the page that was
    mapped there before, if that was its last mapping: it is free again) and those that
    were handed out for something else. *)
Theorem page_insert_refines a s x la p perm :
  VRep nodl a s -> x ∈ dirs a -> is_u32 la -> p ∈ upages a -> 0 <= perm < 4096 ->
  runs (page_insert pm (kva x) p la perm) s (fun r s' =>
    (r = - E_NO_MEM /\ s' = s /\ pm_nfree (vpm s) = 0 /\ tbls a !! (x, PDX la) = None) \/
    (r = 0 /\ tlb_flushed s' /\ data_kept a s s' /\
     exists a', VRep nodl a' s' /\ dirs a' = dirs a /\ grow_tbls (tbls a) (tbls a') (x, PDX la) /\
       maps a' = <[(x, vpn la) := (p, perm)]> (maps a) /\
       upages a' = {[p]} ∪ upages (unmap_as a x (vpn la)) /\
       ledger a (vpm s) a' (vpm s'))).
Proof.
  intros HV Hx Hla Hp Hperm. eapply runs_mono; [by apply (page_insert_runs a s x la p perm)|]. cbn beta.
  intros r s' [?|(?&?&?&a'&?&(?&Hg&?&?)&?)]; [by left|right]. do 3 (split; [done|]). exists a'.
  rewrite (proj1 (PDX_spec la Hla)). by split_and!.
Qed.

(** Insert then look up: a page inserted at [la] is what [get_page] finds at
    every address of that page, and every other address (of any directory)
    keeps its page. *)
Theorem page_insert_get_roundtrip a s x y la la' p perm :
  VRep nodl a s -> x ∈ dirs a -> y ∈ dirs a -> is_u32 la -> is_u32 la' -> p ∈ upages a -> 0 <= perm < 4096 ->
  runs (let! r := page_insert pm (kva x) p la perm in
        let! g := get_page pm (kva y) la' in ret (r, fst g)) s (fun rg _ =>
    rg = (- E_NO_MEM, fst <$> (maps a !! (y, vpn la'))) \/
    rg = (0, if decide ((x, vpn la) = (y, vpn la')) then Some p else fst <$> (maps a !! (y, vpn la')))).
Proof.
  intros HV Hx Hy Hla Hla' Hp Hperm. runs_steps. eapply runs_mono; [by apply page_insert_runs|]. cbn beta.
  intros r s' [(->&->&_)|(->&_&_&a'&HV'&(Hd&_&Hm&_)&_)]; runs_steps.
  - eapply runs_mono; [by eapply get_page_runs|]. cbn beta. intros g s1 (_&->&_). runs_steps. by left.
  - eapply runs_mono; [eapply get_page_runs; [done|by rewrite Hd|done]|]. cbn beta. intros g s1 (_&->&_). runs_steps.
    right. rewrite Hm, lookup_insert. by case_decide.
Qed.

(** [page_remove] refines the deletion of the mapping at [(x, vpn la)], frees
    the page exactly when that was its last mapping, and leaves no stale
    translation behind. *)
Theorem page_remove_refines a s x la :
  VRep nodl a s -> x ∈ dirs a -> is_u32 la -> TlbOk a s ->
  runs (page_remove pm (kva x) la) s (fun _ s' =>
    VRep nodl (unmap_as a x (vpn la)) s' /\ TlbOk (unmap_as a x (vpn la)) s' /\
    kept a s (unmap_as a x (vpn la)) s' /\
    forall p perm, maps a !! (x, vpn la) = Some (p, perm) ->
      (pm_owned (vpm s') p <-> count p (maps a) <> 1)).
Proof.
  intros HV Hx Hla Ht. eapply runs_mono; [by apply page_remove_runs|]. cbn beta. intros _ s' (HV'&Hk&Ht').
  split_and!; try done. intros p perm Hm. destruct (mapped_page _ _ _ _ _ _ _ HV Hm) as (Hu&_&_&Ho&_).
  destruct Hk as (_&_&Hown&_&Hfr&_). unfold unmap_as in *. rewrite Hm in *. cbn in *. case_decide as Hc.
  - split; [|done]. intros Ho'. exfalso. eapply Hfr; [exact Hu| |exact Ho']. set_solver.
  - split; [done|]. intros _. apply Hown; [done|]. done.
Qed.

(** C28: [unmap_range] returns for every page-aligned user range and removes
    exactly the mappings of the range; a page stays allocated iff it is still
    mapped somewhere. *)
Theorem unmap_range_refines a s x start end_ :
  VRep nodl a s -> x ∈ dirs a -> TlbOk a s -> USER_ACCESS start end_ = true ->
  start mod 4096 = 0 -> end_ mod 4096 = 0 ->
  runs (unmap_range pm (kva x) start end_) s (fun _ s' => exists a',
    VRep nodl a' s' /\ TlbOk a' s' /\ kept a s a' s' /\ dirs a' = dirs a /\ tbls a' = tbls a /\
    (forall y v, maps a' !! (y, v) =
       if decide (y = x /\ vpn start <= v < vpn end_) then None else maps a !! (y, v)) /\
    (forall p, p ∈ upages a' <-> p ∈ upages a /\ (count p (maps a') = 0 -> count p (maps a) = 0))).
Proof.
  intros HV Hx Ht Hacc Hal Hale. eapply runs_mono; [by apply unmap_range_runs|]. cbn beta.
  intros _ s' (a'&(Hd&Htb&Hin&Hout&Hu)&HV'&Hk&Ht'). exists a'. split_and!; try done.
  intros y v. case_decide as Hc; [by apply Hin|by apply Hout].
Qed.

(** [tlb_refill] keeps the TLB coherent with the current directory and makes
    the faulting address translate: the slot holds the frame number of the
    mapped page, is valid, and is writable iff the entry is. *)
Theorem tlb_refill_coherent a s x la t p perm :
  VRep nodl a s -> TlbOk a s -> current_pgdir s = kva x -> is_u32 la ->
  tbls a !! (x, PDX la) = Some t -> maps a !! (x, vpn la) = Some (p, perm) ->
  runs (tlb_refill la (Some (slot t (PTX la)))) s (fun _ s' =>
    VRep nodl a s' /\ TlbOk a s' /\
    exists e lo, tlb s' !! Z.land (tlb_index s) 15 = Some e /\
      lo = (if vpn la mod 2 =? 0 then t_lo0 e else t_lo1 e) /\
      vpn (t_hi e) = 2 * (vpn la / 2) /\
      Z.shiftr lo 6 = p /\ Z.testbit lo 1 = true /\ Z.testbit lo 2 = Z.testbit perm 1).
Proof.
  intros HV Ht Hc Hla Htb Hm. eapply runs_mono; [by apply tlb_refill_runs|]. cbn beta.
  intros _ s' (HV'&Ht'&_&e&He&Hhi&_&_&Hlo). split; [done|]. split; [done|]. exists e, (pte2tlblow (entry p perm)).
  destruct (mapped_page _ _ _ _ _ _ _ HV Hm) as (_&Hperm&Hp&_). pose proof (r_npage _ _ _ HV).
  destruct (pte2tlblow_decode p perm) as (?&?&_&?); [lia|done|]. split_and!; try done. by rewrite (Hlo _ _ Hm).
Qed.

(** C35: [copy_range] loses pages: when there is no page table at [start] it advances
    by 4 MB from [start] instead of to the next table boundary.  So for every range of at
    most 4 MB that starts where the source directory has no table, it reports success and
    copies nothing at all: a page that the source has mapped further on in the range
    (after the table boundary) is still there, and the destination has at its address
    what it had before. *)
Theorem copy_range_skips_pages a s x y start end_ va share p perm :
  VRep nodl a s -> x ∈ dirs a -> y ∈ dirs a -> USER_ACCESS start end_ = true -> start mod 4096 = 0 -> end_ mod 4096 = 0 ->
  tbls a !! (x, PDX start) = None -> end_ <= start + PTSIZE -> start <= va < end_ -> maps a !! (x, vpn va) = Some (p, perm) ->
  runs (let! r := copy_range pm (kva y) (kva x) start end_ share in
        let! src := get_page pm (kva x) va in
        let! dst := get_page pm (kva y) va in
        ret (r, fst src, fst dst)) s (fun res s' => res = (0, Some p, fst <$> (maps a !! (y, vpn va))) /\ s' = s).
Proof.
  intros HV Hx Hy Hacc Hal Hale Hnt Hend Hva Hm. unfold copy_range. runs_steps. apply runs_assert; [unfold PGSIZE; by rewrite Hal, Hale|].
  runs_steps. apply runs_assert; [done|]. unfold USER_ACCESS in Hacc. rewrite !andb_true_iff, !Z.leb_le, Z.ltb_lt in Hacc. unfold USERBASE, USERTOP in Hacc.
  assert (Hst : is_u32 start /\ is_u32 va) by (addr; lia). destruct Hst as [Hst Hvau].
  assert (Hfu : exists n, pages_fuel start end_ = S n).
  { destruct (pages_fuel start end_) as [|n] eqn:He; [|by exists n]. unfold pages_fuel in He. rewrite Z.shiftr_div_pow2 in He by done. change (2 ^ PGSHIFT) with 4096 in He. mlia. }
  destruct Hfu as [n ->]. cbn [copy_loop]. unfold copy_step. runs_steps. eapply runs_mono; [by eapply get_pte_runs|]. cbn beta.
  intros [w|] s1; [intros (t&a1&_&Hg&He); destruct He as [_ ->]; [by left|]; destruct Hg as (_&_&_&_&_&Ht&_); congruence|]. intros (->&_&_). runs_steps.
  assert (Hnext : ROUNDDOWN_2N (u32 (start + PTSIZE)) PGSHIFT = start + PTSIZE).
  { rewrite u32_small, rounddown_spec by (addr; lia). change (2 ^ PGSHIFT) with 4096. addr. mlia. }
  rewrite Hnext, (proj2 (Z.ltb_ge (start + PTSIZE) end_)), andb_false_r by done. runs_steps.
  eapply runs_mono; [by eapply get_page_runs|]. cbn beta. intros g s1 (->&->&_). runs_steps.
  eapply runs_mono; [by eapply get_page_runs|]. cbn beta. intros g' s2 (->&->&_). runs_steps. rewrite Hm. done.
Qed.
End Theorems.

(** ** A concrete machine: 64 pages, pages 53 .. 58 allocated *)

Definition ex_mem (y : Z) : Z :=
  if y =? slot 53 65 then entry 55 PTE_USER else if y =? slot 55 0 then entry 56 PTE_USER else 0.
(** Directories 53 and 54; directory 53 has the table 55 and maps page 56 at
    0x10400000. *)
Definition ex_vm : vm := mkVm (upd_pages (alter (set_page_ref 1) 56) ex_pmm6) ex_mem (kva 53) 1 ∅ 0.
Definition ex_as : aspace := mkAs {[53; 54]} {[(53, 65) := 55]} {[(53, 66560) := (56, PTE_USER)]} {[56; 57]}.

Lemma ex_owned x : 53 <= x < 59 -> buddy_owned ex_pmm6 x.
Proof.
  destruct ex_pmm_spec as (HI&_&Hr).
  assert (Heq : buddy_alloc_pages 6 ex_pmm = Ok (Some 53, ex_pmm6)) by (vm_compute; reflexivity).
  destruct (runs_elim _ _ _ _ _ (buddy_alloc_pages_runs ex_pmm 6 HI ltac:(done)) Heq) as [(HI'&HL&HP&HF&_) _].
  intros Hx. split.
  - exists 0, 5. eapply run_at_layout; [done|]. eapply run_at_sub; [exact Hr|lia].
  - rewrite HF. intros [_ Hn]. apply Hn. unfold in_run. lia.
Qed.

Lemma elem_of_two (x y z : Z) : x ∈@{gset Z} {[y; z]} <-> x = y \/ x = z.
Proof. set_solver. Qed.

Lemma ex_vm_rep : VRep (pm := buddy_pmm_manager) nodl ex_as ex_vm.
Proof.
  assert (Hpg : exists pg, pages ex_pmm6 !! 56 = Some pg) by (eexists; vm_compute; reflexivity).
  destruct Hpg as [pg Hpg].
  assert (Hvp : vpm ex_vm = upd_pages (fun m => <[56 := set_page_ref 1 pg]> m) ex_pmm6).
  { unfold ex_vm, upd_pages. cbn [vpm]. f_equal. apply map_eq. intros y. rewrite lookup_insert, lookup_alter.
    case_decide; [subst y; by rewrite Hpg|done]. }
  destruct (buddy_set_ref ex_pmm6 56 pg 1 (proj1 ex_pmm6_spec) (ex_owned 56 ltac:(lia)) Hpg) as [HI Hown]. cbn zeta in *.
  assert (Ho : forall x, 53 <= x < 59 -> buddy_owned (vpm ex_vm) x) by (intros x Hx; rewrite Hvp; by apply Hown, ex_owned).
  split; cbn [dirs tbls maps upages ex_as status ex_vm].
  - change (Inv none (vpm ex_vm)). rewrite Hvp. exact HI.
  - vm_compute. discriminate.
  - done.
  - intros x Hx. pose proof (proj1 (elem_of_two _ _ _) Hx) as Hx'. split_and!.
    + apply Ho. lia.
    + rewrite elem_of_two. lia.
    + intros [k Hk]. cbn in Hk. apply lookup_singleton_Some in Hk as [_ ?]. lia.
  - intros x i t [[= <- <-] <-]%lookup_singleton_Some. refine (conj _ (conj _ (conj (Ho 55 _) _))); [|lia|lia|]; rewrite elem_of_two; lia.
  - intros k k' t [<- _]%lookup_singleton_Some [<- _]%lookup_singleton_Some. done.
  - intros x i Hx Hi. pose proof (proj1 (elem_of_two _ _ _) Hx) as Hx'. cbn [mem ex_vm]. unfold ex_mem.
    destruct (Z.eqb_spec (slot x i) (slot 53 65)) as [He|He].
    + apply slot_inj in He as [-> ->]; [|lia..]. done.
    + rewrite lookup_singleton_ne by (intros [= <- <-]; done).
      destruct (Z.eqb_spec (slot x i) (slot 55 0)) as [He'|]; [|done]. apply slot_inj in He'; lia.
  - intros x i t j [[= <- <-] <-]%lookup_singleton_Some Hj. cbn [mem ex_vm]. unfold ex_mem.
    destruct (Z.eqb_spec (slot 55 j) (slot 53 65)) as [He|He]; [apply slot_inj in He; lia|].
    destruct (Z.eqb_spec (slot 55 j) (slot 55 0)) as [He'|He'].
    + apply slot_inj in He' as [_ ->]; [|lia..]. done.
    + rewrite lookup_singleton_ne; [done|]. intros [= Hj0]. apply He'. f_equal. lia.
  - intros x v p perm [[= <- <-] [= <- <-]]%lookup_singleton_Some. by split_and!.
  - intros p Hp. pose proof (proj1 (elem_of_two _ _ _) Hp) as Hp'. split; [apply Ho; lia|].
    destruct Hp' as [-> | ->]; (eexists; split; [vm_compute; reflexivity|vm_compute; reflexivity]).
Qed.

Lemma ex_vm_tlb : TlbOk ex_as ex_vm.
Proof. intros i e d _ He. discriminate. Qed.

Lemma page_insert_refines_witness :
  runs (page_insert buddy_pmm_manager (kva 53) 57 0x10400000 6) ex_vm (fun r s' =>
    r = 0 /\ ~ buddy_owned (vpm s') 56 /\ exists a', VRep (pm := buddy_pmm_manager) nodl a' s' /\ maps a' !! (53, 66560) = Some (57, 6)).
Proof.
  eapply runs_mono; [apply (page_insert_refines ex_as ex_vm 53 0x10400000 57 6 ex_vm_rep)|].
  - apply (bool_decide_unpack _). reflexivity.
  - split; reflexivity || lia.
  - apply (bool_decide_unpack _). reflexivity.
  - lia.
  - cbn beta. intros r s' [(_&_&_&Ht)|(->&_&_&a'&HV&Hd&[Hs Hg]&Hm&Hu&[Ho _])]; [by vm_compute in Ht|]. split; [done|].
    split; [|exists a'; split; [done|]; rewrite Hm; apply lookup_insert_eq].
    rewrite Ho. unfold as_page. rewrite Hd, Hu. intros [[Hx|[[k Hk]|Hx]]|[_ Hn]].
    + revert Hx. apply (bool_decide_unpack (~ _)). reflexivity.
    + assert (H55 : tbls a' !! (53, 65) = Some 55) by (by eapply lookup_weaken; [|exact Hs]).
      destruct (Hg _ _ Hk) as [->|Hk']; [change (PDX 0x10400000) with 65 in Hk; congruence|cbn in Hk'; by apply lookup_singleton_Some in Hk' as [_ ?]].
    + revert Hx. apply (bool_decide_unpack (~ _)). vm_compute. reflexivity.
    + apply Hn. right. right. apply (bool_decide_unpack _). reflexivity.
Defined.

Lemma page_insert_get_roundtrip_witness :
  runs (let! r := page_insert buddy_pmm_manager (kva 54) 57 0x10000000 6 in
        let! g := get_page buddy_pmm_manager (kva 53) 0x10400000 in ret (r, fst g)) ex_vm (fun rg _ =>
    rg = (- E_NO_MEM, Some 56) \/ rg = (0, Some 56)).
Proof.
  apply (page_insert_get_roundtrip ex_as ex_vm 54 53 0x10000000 0x10400000 57 6 ex_vm_rep).
  - apply (bool_decide_unpack _). reflexivity.
  - apply (bool_decide_unpack _). reflexivity.
  - split; reflexivity || lia.
  - split; reflexivity || lia.
  - apply (bool_decide_unpack _). reflexivity.
  - lia.
Defined.

Lemma page_remove_refines_witness :
  runs (page_remove buddy_pmm_manager (kva 53) 0x10400000) ex_vm (fun _ s' => ~ buddy_owned (vpm s') 56).
Proof.
  eapply runs_mono; [apply (page_remove_refines ex_as ex_vm 53 0x10400000 ex_vm_rep)|].
  - apply (bool_decide_unpack _). reflexivity.
  - split; reflexivity || lia.
  - exact ex_vm_tlb.
  - cbn beta. intros _ s' (_&_&_&Hf) Ho. apply (Hf 56 PTE_USER) in Ho; [|reflexivity]. apply Ho. reflexivity.
Defined.

Lemma unmap_range_refines_witness :
  runs (unmap_range buddy_pmm_manager (kva 53) 0x10001000 0x10402000) ex_vm (fun _ s' => exists a',
    VRep (pm := buddy_pmm_manager) nodl a' s' /\ maps a' !! (53, 66560) = None).
Proof.
  eapply runs_mono; [apply (unmap_range_refines ex_as ex_vm 53 0x10001000 0x10402000 ex_vm_rep)|].
  - apply (bool_decide_unpack _). reflexivity.
  - exact ex_vm_tlb.
  - reflexivity.
  - reflexivity.
  - reflexivity.
  - cbn beta. intros _ s' (a'&HV&_&_&_&_&Hm&_). exists a'. split; [exact HV|]. rewrite Hm. reflexivity.
Defined.

Lemma tlb_refill_coherent_witness :
  runs (tlb_refill 0x10400abc (Some (slot 55 0))) ex_vm (fun _ s' => exists e,
    tlb s' !! 0 = Some e /\ Z.shiftr (t_lo0 e) 6 = 56 /\ Z.testbit (t_lo0 e) 2 = true).
Proof.
  eapply runs_mono; [apply (tlb_refill_coherent ex_as ex_vm 53 0x10400abc 55 56 PTE_USER ex_vm_rep ex_vm_tlb)|].
  - reflexivity.
  - split; reflexivity || lia.
  - reflexivity.
  - reflexivity.
  - cbn beta. intros _ s' (_&_&e&lo&He&Hlo&_&Hp&_&Hd). exists e. split; [exact He|].
    change (vpn 0x10400abc mod 2 =? 0) with true in Hlo. cbv iota in Hlo. rewrite <- Hlo. split; [exact Hp|exact Hd].
Defined.

Lemma copy_range_skips_pages_witness :
  runs (let! r := copy_range buddy_pmm_manager (kva 54) (kva 53) 0x10001000 0x10401000 false in
        let! src := get_page buddy_pmm_manager (kva 53) 0x10400000 in
        let! dst := get_page buddy_pmm_manager (kva 54) 0x10400000 in
        ret (r, fst src, fst dst)) ex_vm (fun res s' => res = (0, Some 56, None) /\ s' = ex_vm).
Proof.
  apply (copy_range_skips_pages ex_as ex_vm 53 54 0x10001000 0x10401000 0x10400000 false 56 PTE_USER ex_vm_rep);
    try reflexivity; try done; try lia; apply (bool_decide_unpack _); reflexivity.
Defined.
