(* ===== verification/Kmalloc.v ===== *)
(** * The slab allocator (kern/mm/kmalloc.c)

    Thirteen caches, one per object size from 32 bytes to 128 KB.  A cache keeps two
    lists of slabs; a slab is a run of pages cut into objects, with a control part
    ([slab_t] and one [kmem_bufctl_t] per object) at its start or, for large objects,
    in an object of a smaller cache.  [slab_t] and its array of indices are a record
    at the address of the control part; [page_link.next] and [page_link.prev] of a
    page in a slab hold its cache and its slab.  The brackets
    [local_intr_save/restore] around list operations are as in Atomic.v. *)

From stdpp Require Import base gmap list.
From Stdlib Require Import ZArith Lia Bool.
From S2P Require Import Prelude.
From S2P Require Import Atomic.
From S2P Require Import Dlist.
From S2P Require Import Buddy.
From S2P Require Import Pmm.
From S2P Require Import PageTable.

Definition BUFCTL_END : Z := 0xFFFFFFFF.
Definition SLAB_LIMIT : Z := 0xFFFFFFFE.
Definition KMALLOC_MAX_ORDER : Z := 10.
Definition MIN_SIZE_ORDER : Z := 5.
Definition MAX_SIZE_ORDER : Z := 17.
Definition SLAB_CACHE_NUM : Z := MAX_SIZE_ORDER - MIN_SIZE_ORDER + 1.
Definition ALIGN_SHIFT : Z := 4.
(** [sizeof(slab_t)], [sizeof(kmem_bufctl_t)] *)
Definition sizeof_slab : Z := 24.
Definition sizeof_bufctl : Z := 4.

Record slab_t := mkSlab { s_mem : Z; inuse : Z; s_offset : Z; s_free : Z; bufctl : list Z }.
(** [slab_cachep]: the index of the cache. *)
Record kmem_cache := mkCache {
  slabs_full : list Z; slabs_notfull : list Z; objsize : Z; objsize_shift : Z; num : Z; c_offset : Z;
  off_slab : bool; page_order : Z; slab_cachep : Z
}.
Record kheap := mkHeap {
  hvm : vm;
  slab_cache : gmap Z kmem_cache;
  slabs : gmap Z slab_t;
  page_cache : gmap Z Z;   (* page_link.next of a page in a slab *)
  page_slab : gmap Z Z     (* page_link.prev *)
}.

Definition set_hvm v h := mkHeap v (slab_cache h) (slabs h) (page_cache h) (page_slab h).
Definition set_caches v h := mkHeap (hvm h) v (slabs h) (page_cache h) (page_slab h).
Definition set_slabs v h := mkHeap (hvm h) (slab_cache h) v (page_cache h) (page_slab h).
Definition set_page_links c s h := mkHeap (hvm h) (slab_cache h) (slabs h) c s.
Definition set_full v c := mkCache v (slabs_notfull c) (objsize c) (objsize_shift c) (num c) (c_offset c) (off_slab c) (page_order c) (slab_cachep c).
Definition set_notfull v c := mkCache (slabs_full c) v (objsize c) (objsize_shift c) (num c) (c_offset c) (off_slab c) (page_order c) (slab_cachep c).

Definition rd_cache (c : Z) : M kheap kmem_cache := let! h := get in deref (slab_cache h !! c).
Definition upd_cache (c : Z) (f : kmem_cache -> kmem_cache) : M kheap unit :=
  let! x := rd_cache c in modify (fun h => set_caches (<[c := f x]> (slab_cache h)) h).
Definition rd_slab (p : Z) : M kheap slab_t := let! h := get in deref (slabs h !! p).
Definition wr_slab (p : Z) (x : slab_t) : M kheap unit := modify (fun h => set_slabs (<[p := x]> (slabs h)) h).
Definition on_hvm {A} (m : M vm A) : M kheap A := zoom hvm set_hvm m.

(** ** The geometry of the caches *)

Definition slab_mgmt_size (n : Z) : Z := ROUNDUP_2N (u32 (sizeof_slab + n * sizeof_bufctl)) ALIGN_SHIFT.

(** [__slab_div_table[order][i]]; rows not given are zero in the one row there is, and
    there is no second row. *)
Definition slab_div_table (order i : Z) : option Z :=
  if order =? 0 then [113; 59; 30; 15; 0; 0; 0; 0] !! Z.to_nat i else None.

(** [while (slab_mgmt_size(nr_objs) + nr_objs * objsize > slab_size) nr_objs --;] *)
Fixpoint estimate_loop (fuel : nat) (nr_objs objsize slab_size : Z) : M kheap Z :=
  if slab_size <? u32 (slab_mgmt_size nr_objs + u32 (nr_objs * objsize)) then
    match fuel with O => nofuel | S fuel => estimate_loop fuel (u32 (nr_objs - 1)) objsize slab_size end
  else ret nr_objs.

(** [*remainder] and [*num]. *)
Definition cache_estimate (order objsize_shift : Z) (off_slab : bool) : M kheap (Z * Z) :=
  let slab_size := u32 (Z.shiftl PGSIZE order) in
  let objsize := u32 (Z.shiftl 1 objsize_shift) in
  if off_slab then
    let nr_objs := Z.shiftr slab_size objsize_shift in
    let nr_objs := if SLAB_LIMIT <? nr_objs then SLAB_LIMIT else nr_objs in
    ret (u32 (slab_size - nr_objs * objsize), nr_objs)
  else
    let! n0 := deref (slab_div_table order (objsize_shift - 5)) in
    let! nr_objs := estimate_loop (Z.to_nat n0) n0 objsize slab_size in
    let nr_objs := if SLAB_LIMIT <? nr_objs then SLAB_LIMIT else nr_objs in
    ret (u32 (slab_size - nr_objs * objsize - slab_mgmt_size nr_objs), nr_objs).

(** [for (order = 0; order <= KMALLOC_MAX_ORDER; order ++)]: [num], [page_order] and
    [left_over]. *)
Fixpoint slab_order_loop (k : nat) (order objsize_shift : Z) (off_slab : bool) : M kheap (Z * Z * Z) :=
  match k with
  | O => panic
  | S k =>
      let! r := cache_estimate order objsize_shift off_slab in
      let '(remainder, n) := r in
      let objsize := u32 (Z.shiftl 1 objsize_shift) in
      if negb (n =? 0) then
        do! (if off_slab && (Z.div (u32 (objsize - sizeof_slab)) sizeof_bufctl <? n) then panic else ret tt) in
        if u32 (remainder * 8) <=? u32 (Z.shiftl PGSIZE order) then ret (n, order, remainder)
        else slab_order_loop k (order + 1) objsize_shift off_slab
      else slab_order_loop k (order + 1) objsize_shift off_slab
  end.
Definition calculate_slab_order (objsize_shift : Z) (off_slab : bool) : M kheap (Z * Z * Z) :=
  slab_order_loop (Z.to_nat (KMALLOC_MAX_ORDER + 1)) 0 objsize_shift off_slab.

Fixpoint size_order_loop (k : nat) (n order : Z) : M kheap Z :=
  match k with
  | O => panic
  | S k => if n <=? Z.shiftl 1 order then ret order else size_order_loop k n (order + 1)
  end.
(** [getorder] of kmalloc.c. *)
Definition size_order (n : Z) : M kheap Z := size_order_loop (Z.to_nat SLAB_CACHE_NUM) n MIN_SIZE_ORDER.

Definition init_kmem_cache (c objsize : Z) : M kheap unit :=
  let objsize := ROUNDUP_2N objsize ALIGN_SHIFT in
  let off := Z.shiftr PGSIZE 3 <=? objsize in
  let! shift := size_order objsize in
  let! r := calculate_slab_order shift off in
  let '(n, order, left_over) := r in
  do! assert_ (0 <? n) in
  let mgmt_size := slab_mgmt_size n in
  let off := off && negb (mgmt_size <=? left_over) in
  let! cp := (if off then let! o := size_order mgmt_size in ret (o - MIN_SIZE_ORDER) else ret 0) in
  modify (fun h => set_caches (<[c := mkCache [] [] objsize shift n (if off then 0 else mgmt_size) off order cp]> (slab_cache h)) h).

(** [for (i = 0; i < SLAB_CACHE_NUM; i ++)]; the self-test [check_slab] is left out. *)
Fixpoint slab_init_loop (k : nat) (i : Z) : M kheap unit :=
  match k with
  | O => ret tt
  | S k => do! init_kmem_cache i (Z.shiftl 1 (i + MIN_SIZE_ORDER)) in slab_init_loop k (i + 1)
  end.
Definition slab_init : M kheap unit := slab_init_loop (Z.to_nat SLAB_CACHE_NUM) 0.

(** ** Allocation *)

Section Slab.
Variable pm : pmm_manager.

Definition upd_page_flags (p : Z) (f : Page -> Page) : M kheap unit :=
  on_hvm (on_pmm (upd_page p f)).

(** [alloc]: [kmem_cache_alloc], which this is called by. *)
Definition kmem_cache_slabmgmt (alloc : Z -> M kheap (option Z)) (c page : Z) : M kheap (option Z) :=
  let! cp := rd_cache c in
  let! objp := on_hvm (page2kva page) in
  let! slabp := (if off_slab cp then alloc (slab_cachep cp) else ret (Some objp)) in
  match slabp with
  | None => ret None
  | Some sp => do! wr_slab sp (mkSlab (u32 (objp + c_offset cp)) 0 (c_offset cp) 0 []) in ret (Some sp)
  end.

(** [do { ... } while (-- order_size);] *)
Fixpoint mark_pages (k : nat) (page c sp : Z) : M kheap unit :=
  match k with
  | O => ret tt
  | S k =>
      do! modify (fun h => set_page_links (<[page := c]> (page_cache h)) (<[page := sp]> (page_slab h)) h) in
      do! upd_page_flags page SetPageSlab in
      mark_pages k (page + 1) c sp
  end.

Definition kmem_cache_grow (alloc : Z -> M kheap (option Z)) (c : Z) : M kheap bool :=
  let! cp := rd_cache c in
  let n := Z.shiftl 1 (page_order cp) in
  let! page := on_hvm (alloc_pages pm n) in
  match page with
  | None => ret false
  | Some page =>
      let! slabp := kmem_cache_slabmgmt alloc c page in
      match slabp with
      | None => do! on_hvm (free_pages pm page n) in ret false
      | Some sp =>
          do! mark_pages (Z.to_nat n) page c sp in
          let! x := rd_slab sp in
          let links := <[Z.to_nat (num cp - 1) := BUFCTL_END]> ((fun i => i + 1) <$> seqZ 0 (num cp)) in
          do! wr_slab sp (mkSlab (s_mem x) (inuse x) (s_offset x) 0 links) in
          do! upd_cache c (fun cp => set_notfull (sp :: slabs_notfull cp) cp) in
          ret true
      end
  end.

Definition kmem_cache_alloc_one (c sp : Z) : M kheap Z :=
  let! cp := rd_cache c in
  let! x := rd_slab sp in
  let objp := u32 (s_mem x + u32 (s_free x * objsize cp)) in
  let! next := deref (bufctl x !! Z.to_nat (s_free x)) in
  do! wr_slab sp (mkSlab (s_mem x) (u32 (inuse x + 1)) (s_offset x) next (bufctl x)) in
  do! (if next =? BUFCTL_END then
         upd_cache c (fun cp => set_full (sp :: slabs_full cp) (set_notfull (ldel sp (slabs_notfull cp)) cp))
       else ret tt) in
  ret objp.

(** [try_again:]; one fuel per slab that is made. *)
Fixpoint kmem_cache_alloc (fuel : nat) (c : Z) : M kheap (option Z) :=
  let! cp := rd_cache c in
  match slabs_notfull cp with
  | sp :: _ => let! o := kmem_cache_alloc_one c sp in ret (Some o)
  | [] =>
      match fuel with
      | O => nofuel
      | S fuel =>
          let! ok := kmem_cache_grow (kmem_cache_alloc fuel) c in
          if ok then kmem_cache_alloc fuel c else ret None
      end
  end.

(** Two rounds are enough: the control part of a slab of large objects is in a slab
    that has its own control part inside. *)
Definition kmalloc (size : Z) : M kheap (option Z) :=
  do! assert_ (0 <? size) in
  let! order := size_order size in
  if MAX_SIZE_ORDER <? order then ret None else kmem_cache_alloc 2 (order - MIN_SIZE_ORDER).

(** ** Freeing *)

Fixpoint unmark_pages (k : nat) (p : Z) : M kheap unit :=
  match k with
  | O => ret tt
  | S k =>
      let! pg := on_hvm (on_pmm (rd_page p)) in
      do! assert_ (PageSlab pg) in
      do! upd_page_flags p ClearPageSlab in
      unmark_pages k (p + 1)
  end.

(** [free]: [kmem_cache_free]. *)
Definition kmem_slab_destroy (free : Z -> Z -> M kheap unit) (c sp : Z) : M kheap unit :=
  let! cp := rd_cache c in
  let! x := rd_slab sp in
  let! page := on_hvm (kva2page (u32 (s_mem x - s_offset x))) in
  let n := Z.shiftl 1 (page_order cp) in
  do! unmark_pages (Z.to_nat n) page in
  do! on_hvm (free_pages pm page n) in
  do! modify (fun h => set_slabs (delete sp (slabs h)) h) in
  if off_slab cp then free (slab_cachep cp) sp else ret tt.

Definition kmem_cache_free_one (free : Z -> Z -> M kheap unit) (c sp objp : Z) : M kheap unit :=
  let! cp := rd_cache c in
  let! x := rd_slab sp in
  let objnr := Z.shiftr (u32 (objp - s_mem x)) (objsize_shift cp) in
  do! deref (bufctl x !! Z.to_nat objnr) in
  let inuse' := u32 (inuse x - 1) in
  do! wr_slab sp (mkSlab (s_mem x) inuse' (s_offset x) objnr (<[Z.to_nat objnr := s_free x]> (bufctl x))) in
  if inuse' =? 0 then
    do! upd_cache c (fun cp => set_full (ldel sp (slabs_full cp)) (set_notfull (ldel sp (slabs_notfull cp)) cp)) in
    kmem_slab_destroy free c sp
  else if inuse' =? u32 (num cp - 1) then
    upd_cache c (fun cp => set_notfull (sp :: ldel sp (slabs_notfull cp)) (set_full (ldel sp (slabs_full cp)) cp))
  else ret tt.

(** One fuel per slab whose control part is elsewhere. *)
Fixpoint kmem_cache_free (fuel : nat) (c objp : Z) : M kheap unit :=
  let! page := on_hvm (kva2page objp) in
  let! pg := on_hvm (on_pmm (rd_page page)) in
  if negb (PageSlab pg) then panic
  else
    let! h := get in
    let! sp := deref (page_slab h !! page) in
    kmem_cache_free_one (match fuel with O => fun _ _ => nofuel | S fuel => kmem_cache_free fuel end) c sp objp.

Definition kfree (objp : Z) : M kheap unit :=
  let! page := on_hvm (kva2page objp) in
  let! h := get in
  let! c := deref (page_cache h !! page) in
  kmem_cache_free 1 c objp.
End Slab.

(** [slab_allocated], the answer of [kallocated]. *)
Definition slab_allocated (h : kheap) : Z :=
  u32 (foldr Z.add 0 ((fun i =>
    match slab_cache h !! i with
    | None => 0
    | Some c => Z.of_nat (length (slabs_full c)) * (num c * objsize c) +
                foldr Z.add 0 ((fun sp => match slabs h !! sp with Some x => inuse x * objsize c | None => 0 end) <$> slabs_notfull c)
    end) <$> seqZ 0 SLAB_CACHE_NUM)).
