(* ===== verification/KmallocInv.v ===== *)
(** * What the slab allocator represents

    The geometry of the thirteen caches, a ghost description of the slabs ([gslab]: the
    cache, the first page and the chain of free objects of a slab), the invariant
    [KRep] that relates it to the heap, and the blocks that clients hold ([live]):
    allocated objects that are not the control part of another slab. *)

From stdpp Require Import base gmap list.
From Stdlib Require Import ZArith Lia Bool.
From S2P Require Import Prelude.
From S2P Require Import Dlist.
From S2P Require Import Buddy.
From S2P Require Import Pmm.
From S2P Require Import PageTable.
From S2P Require Import PageTableInv.
From S2P Require Import Kmalloc.

(** ** Geometry *)

(** What [slab_init] computes, by class: 32 bytes to 128 KB. *)
Definition slab_geometry : list kmem_cache := [
  mkCache [] [] 32 5 113 480 false 0 0; mkCache [] [] 64 6 59 272 false 0 0;
  mkCache [] [] 128 7 30 144 false 0 0; mkCache [] [] 256 8 15 96 false 0 0;
  mkCache [] [] 512 9 8 0 true 0 1; mkCache [] [] 1024 10 4 0 true 0 1;
  mkCache [] [] 2048 11 2 0 true 0 0; mkCache [] [] 4096 12 1 0 true 0 0;
  mkCache [] [] 8192 13 1 0 true 1 0; mkCache [] [] 16384 14 1 0 true 2 0;
  mkCache [] [] 32768 15 1 0 true 3 0; mkCache [] [] 65536 16 1 0 true 4 0;
  mkCache [] [] 131072 17 1 0 true 5 0].
Definition geo (c : Z) : kmem_cache := nth (Z.to_nat c) slab_geometry (mkCache [] [] 0 0 0 0 false 0 0).
Definition is_class (c : Z) : Prop := 0 <= c < SLAB_CACHE_NUM.
(** Pages of a slab of class [c]. *)
Definition npg (c : Z) : Z := Z.shiftl 1 (page_order (geo c)).

Definition geo_okb (c : Z) : bool :=
  let g := geo c in
  (objsize g =? 2 ^ (c + 5)) && (objsize_shift g =? c + 5) && (1 <=? num g) && (num g <=? 113) &&
  (1 <=? npg c) && (npg c <=? 32) && (0 <=? c_offset g) && (c_offset g <=? 4095) && (c_offset g mod 16 =? 0) && (objsize g mod 16 =? 0) &&
  (1 <=? objsize g) && (c_offset g + num g * objsize g <=? 4096 * npg c) &&
  (if off_slab g then
     (c_offset g =? 0) && (0 <=? slab_cachep g) && (slab_cachep g <? SLAB_CACHE_NUM) &&
     negb (off_slab (geo (slab_cachep g))) && (sizeof_slab + num g * sizeof_bufctl <=? objsize (geo (slab_cachep g)))
   else sizeof_slab + num g * sizeof_bufctl <=? c_offset g).

Record geo_spec (c : Z) : Prop := {
  gs_size : objsize (geo c) = 2 ^ (c + 5);
  gs_shift : objsize_shift (geo c) = c + 5;
  gs_num : 1 <= num (geo c) <= 113;
  gs_npg : 1 <= npg c <= 32;
  gs_off : 0 <= c_offset (geo c) <= 4095 /\ c_offset (geo c) mod 16 = 0;
  gs_obj : 1 <= objsize (geo c) /\ objsize (geo c) mod 16 = 0;
  gs_fit : c_offset (geo c) + num (geo c) * objsize (geo c) <= 4096 * npg c;
  gs_in : off_slab (geo c) = false -> 28 <= sizeof_slab + num (geo c) * sizeof_bufctl <= c_offset (geo c);
  gs_out : off_slab (geo c) = true -> is_class (slab_cachep (geo c)) /\
    off_slab (geo (slab_cachep (geo c))) = false /\
    sizeof_slab + num (geo c) * sizeof_bufctl <= objsize (geo (slab_cachep (geo c)))
}.

Lemma geo_okb_all : forallb geo_okb (seqZ 0 SLAB_CACHE_NUM) = true.
Proof. vm_compute. reflexivity. Qed.

Lemma geo_ok c : is_class c -> geo_spec c.
Proof.
  intros Hc. assert (Hok : geo_okb c = true).
  { apply (proj1 (forallb_forall _ _) geo_okb_all). apply list_elem_of_In, elem_of_seqZ. unfold is_class in Hc. lia. }
  unfold geo_okb in Hok. cbn zeta in Hok. repeat (apply andb_true_iff in Hok as [Hok ?]).
  repeat match goal with H : (_ =? _) = true |- _ => apply Z.eqb_eq in H | H : (_ <=? _) = true |- _ => apply Z.leb_le in H end.
  split; try done; unfold sizeof_slab, sizeof_bufctl, is_class in *.
  - intros Hf. rewrite Hf in *. lia.
  - intros Hf. rewrite Hf in *. match goal with H : (_ && _) = true |- _ => repeat (apply andb_true_iff in H as [H ?]) end.
    repeat match goal with H : (_ <? _) = true |- _ => apply Z.ltb_lt in H | H : (_ <=? _) = true |- _ => apply Z.leb_le in H | H : negb _ = true |- _ => apply negb_true_iff in H end.
    done.
Qed.

(** ** Slabs and blocks *)

Record gslab := mkG { g_cache : Z; g_page : Z; g_free : list Z }.
Definition set_gfree l g := mkG (g_cache g) (g_page g) l.
Abbreviation ggeo g := (geo (g_cache g)).
Abbreviation gnpg g := (npg (g_cache g)).

Definition in_slab (g : gslab) (q : Z) : Prop := g_page g <= q < g_page g + gnpg g.
Definition obj_addr (g : gslab) (i : Z) : Z := kva (g_page g) + c_offset (ggeo g) + i * objsize (ggeo g).

Definition allocated (G : gmap Z gslab) (a c : Z) : Prop :=
  exists sp g i, G !! sp = Some g /\ g_cache g = c /\ 0 <= i < num (geo c) /\ (i ∉ g_free g) /\ a = obj_addr g i.
(** The control part of a slab, kept in an object of another one. *)
Definition is_ctl (G : gmap Z gslab) (a : Z) : Prop := exists g, G !! a = Some g /\ off_slab (ggeo g) = true.
Definition live (G : gmap Z gslab) (a c : Z) : Prop := allocated G a c /\ ~ is_ctl G a.
Definition slab_page (G : gmap Z gslab) (q : Z) : Prop := exists sp g, G !! sp = Some g /\ in_slab g q.

(** The free objects [l], linked through the [bufctl] array from index [i]. *)
Fixpoint chain (b : list Z) (i : Z) (l : list Z) : Prop :=
  match l with
  | [] => i = BUFCTL_END
  | j :: l => i = j /\ exists n, b !! Z.to_nat j = Some n /\ chain b n l
  end.

(** ** The invariant *)

Section Inv.
Context {pm : pmm_manager} `{!PmmOk pm} `{!PmmRunOk pm}.
Implicit Types (h : kheap) (G : gmap Z gslab) (g : gslab).
Abbreviation hpm h := (vpm (hvm h)).

(** A page that belongs to the slab [sp] of class [c]. *)
Definition page_ok h (c sp q : Z) : Prop :=
  page_cache h !! q = Some c /\ page_slab h !! q = Some sp /\ exists pg, pages (hpm h) !! q = Some pg /\ PageSlab pg = true.

Record SlabOk h (sp : Z) g : Prop := {
  so_class : is_class (g_cache g);
  so_slab : exists x, slabs h !! sp = Some x /\ s_mem x = kva (g_page g) + c_offset (ggeo g) /\
    s_offset x = c_offset (ggeo g) /\ chain (bufctl x) (s_free x) (g_free g) /\
    Z.of_nat (length (bufctl x)) = num (ggeo g) /\ inuse x = num (ggeo g) - Z.of_nat (length (g_free g));
  so_free : NoDup (g_free g) /\ (forall i, i ∈ g_free g -> 0 <= i < num (ggeo g));
  so_run : pm_run (hpm h) (g_page g) (gnpg g);
  so_pages : forall q, in_slab g q -> page_ok h (g_cache g) sp q;
  so_in : off_slab (ggeo g) = false -> sp = kva (g_page g)
}.

(** The two lists of cache [c]. *)
Record ListsOk G (c : Z) (cp : kmem_cache) : Prop := {
  lo_geo : cp = set_full (slabs_full cp) (set_notfull (slabs_notfull cp) (geo c));
  lo_nodup : NoDup (slabs_full cp) /\ NoDup (slabs_notfull cp);
  lo_full sp : sp ∈ slabs_full cp <-> exists g, G !! sp = Some g /\ g_cache g = c /\ g_free g = [];
  lo_notfull sp : sp ∈ slabs_notfull cp <-> exists g, G !! sp = Some g /\ g_cache g = c /\ g_free g <> []
}.

(** [E]: the one slab that may have no object in use. *)
Record KRep (E : option Z) h G : Prop := {
  k_inv : pm_inv (hpm h);
  k_npage : npage (hpm h) <= MAXPAGE;
  k_status : is_u32 (status (hvm h));
  k_caches c : is_class c -> exists cp, slab_cache h !! c = Some cp /\ ListsOk G c cp;
  k_slabs sp g : G !! sp = Some g -> SlabOk h sp g;
  k_used sp g : G !! sp = Some g -> E <> Some sp -> Z.of_nat (length (g_free g)) < num (ggeo g);
  k_ctl sp g : G !! sp = Some g -> off_slab (ggeo g) = true -> allocated G sp (slab_cachep (ggeo g))
}.

Lemma in_slab_owned E h G sp g q : KRep E h G -> G !! sp = Some g -> in_slab g q -> pm_owned (hpm h) q.
Proof. intros HK Hg Hq. eapply pm_run_owned; [apply (k_slabs _ _ _ HK sp g Hg)|done]. Qed.

Lemma in_slab_bound E h G sp g q : KRep E h G -> G !! sp = Some g -> in_slab g q -> 0 <= q < npage (hpm h).
Proof. intros HK Hg Hq. destruct (pm_owned_page (hpm h) q (k_inv _ _ _ HK)); [by eapply in_slab_owned|done]. Qed.

Lemma slab_page_owned E h G q : KRep E h G -> slab_page G q -> pm_owned (hpm h) q.
Proof. intros HK (sp&g&?&?). by eapply in_slab_owned. Qed.

(** A page is in one slab only. *)
Lemma in_slab_inj E h G sp g sp' g' q :
  KRep E h G -> G !! sp = Some g -> G !! sp' = Some g' -> in_slab g q -> in_slab g' q -> sp = sp' /\ g = g'.
Proof.
  intros HK Hg Hg' Hq Hq'. destruct (so_pages _ _ _ (k_slabs _ _ _ HK sp g Hg) q Hq) as (_&Hs&_).
  destruct (so_pages _ _ _ (k_slabs _ _ _ HK sp' g' Hg') q Hq') as (_&Hs'&_). rewrite Hs in Hs'. injection Hs' as ->. split; [done|congruence].
Qed.

(** Where the bytes of an object are. *)
Lemma obj_addr_page E h G sp g i o :
  KRep E h G -> G !! sp = Some g -> 0 <= i < num (ggeo g) -> 0 <= o < objsize (ggeo g) ->
  exists q r, obj_addr g i + o = kva q + r /\ 0 <= r < 4096 /\ in_slab g q.
Proof.
  intros HK Hg Hi Ho. pose proof (geo_ok _ (so_class _ _ _ (k_slabs _ _ _ HK sp g Hg))) as Hgo.
  destruct (gs_off _ Hgo), (gs_obj _ Hgo). pose proof (gs_fit _ Hgo).
  set (d := c_offset (ggeo g) + i * objsize (ggeo g) + o). assert (0 <= d < 4096 * gnpg g) by (subst d; nia).
  exists (g_page g + d / 4096), (d mod 4096). unfold in_slab, obj_addr, kva. split; [subst d; mlia|]. split; mlia.
Qed.

Lemma obj_page E h G sp g i :
  KRep E h G -> G !! sp = Some g -> 0 <= i < num (ggeo g) -> exists q r, obj_addr g i = kva q + r /\ 0 <= r < 4096 /\ in_slab g q.
Proof.
  intros HK Hg Hi. pose proof (gs_obj _ (geo_ok _ (so_class _ _ _ (k_slabs _ _ _ HK sp g Hg)))).
  destruct (obj_addr_page E h G sp g i 0 HK Hg Hi) as (q&r&He&?&?); [lia|]. exists q, r. by rewrite Z.add_0_r in He.
Qed.

(** ** Blocks do not overlap *)

Lemma obj_disjoint E h G sp g i sp' g' i' :
  KRep E h G -> G !! sp = Some g -> G !! sp' = Some g' -> 0 <= i < num (ggeo g) -> 0 <= i' < num (ggeo g') ->
  (sp = sp' /\ i = i') \/ obj_addr g i + objsize (ggeo g) <= obj_addr g' i' \/ obj_addr g' i' + objsize (ggeo g') <= obj_addr g i.
Proof.
  intros HK Hg Hg' Hi Hi'. pose proof (geo_ok _ (so_class _ _ _ (k_slabs _ _ _ HK sp g Hg))) as Hgo.
  pose proof (geo_ok _ (so_class _ _ _ (k_slabs _ _ _ HK sp' g' Hg'))) as Hgo'.
  destruct (gs_off _ Hgo), (gs_obj _ Hgo), (gs_off _ Hgo'), (gs_obj _ Hgo').
  destruct (decide (sp = sp')) as [<-|Hne].
  - assert (g' = g) as -> by congruence. destruct (decide (i = i')); [by left|]. right. unfold obj_addr.
    destruct (decide (i < i')); [left|right]; nia.
  - right. pose proof (gs_fit _ Hgo). pose proof (gs_fit _ Hgo'). pose proof (gs_npg _ Hgo). pose proof (gs_npg _ Hgo').
    assert (Hd : forall q, in_slab g q -> ~ in_slab g' q) by (intros q Hq1 Hq2; destruct (in_slab_inj E h G sp g sp' g' q HK Hg Hg' Hq1 Hq2); done).
    assert (g_page g + gnpg g <= g_page g' \/ g_page g' + gnpg g' <= g_page g).
    { unfold in_slab in Hd. destruct (decide (g_page g <= g_page g')); [specialize (Hd (g_page g'))|specialize (Hd (g_page g))]; lia. }
    unfold obj_addr, kva. nia.
Qed.

Lemma obj_inj E h G sp g i sp' g' i' :
  KRep E h G -> G !! sp = Some g -> G !! sp' = Some g' -> 0 <= i < num (ggeo g) -> 0 <= i' < num (ggeo g') ->
  obj_addr g i = obj_addr g' i' -> sp = sp' /\ g = g' /\ i = i'.
Proof.
  intros HK Hg Hg' Hi Hi' He. destruct (obj_disjoint E h G sp g i sp' g' i' HK Hg Hg' Hi Hi') as [[-> ->]|Hd]; [split; [done|split; [congruence|done]]|].
  pose proof (gs_obj _ (geo_ok _ (so_class _ _ _ (k_slabs _ _ _ HK sp g Hg)))). pose proof (gs_obj _ (geo_ok _ (so_class _ _ _ (k_slabs _ _ _ HK sp' g' Hg')))). lia.
Qed.

(** The class of a block, and that it is not the control part of a slab of small
    objects either. *)
Lemma allocated_class E h G a c c' : KRep E h G -> allocated G a c -> allocated G a c' -> c = c'.
Proof.
  intros HK (sp&g&i&Hg&<-&Hi&_&->) (sp'&g'&i'&Hg'&<-&Hi'&_&He). by destruct (obj_inj E h G sp g i sp' g' i' HK Hg Hg' Hi Hi' He) as (_&->&_).
Qed.

Lemma obj_not_slab E h G sp g i g' :
  KRep E h G -> G !! sp = Some g -> 0 <= i < num (ggeo g) -> G !! obj_addr g i = Some g' -> off_slab (ggeo g') = true.
Proof.
  intros HK Hg Hi Hg'. destruct (off_slab (ggeo g')) eqn:Hf; [done|]. exfalso.
  pose proof (k_slabs _ _ _ HK _ _ Hg') as Hs'. pose proof (so_in _ _ _ Hs' Hf) as Hk.
  destruct (obj_page E h G sp g i HK Hg Hi) as (q&r&He&Hr&Hq). rewrite Hk in He.
  assert (q = g_page g' /\ r = 0) as [-> ->] by (unfold kva in He; lia).
  pose proof (geo_ok _ (so_class _ _ _ Hs')) as Hgo. pose proof (gs_npg _ Hgo).
  destruct (in_slab_inj E h G sp g (obj_addr g i) g' (g_page g') HK Hg Hg' Hq) as [_ ->]; [unfold in_slab; lia|].
  pose proof (gs_in _ Hgo Hf). destruct (gs_obj _ Hgo). unfold obj_addr in Hk. nia.
Qed.

Lemma live_fresh E h G a c : KRep E h G -> live G a c -> G !! a = None.
Proof.
  intros HK [(sp&g&i&Hg&<-&Hi&_&->) Hn]. destruct (G !! obj_addr g i) as [g'|] eqn:Hg'; [|done]. exfalso. apply Hn.
  exists g'. split; [done|]. exact (obj_not_slab E h G sp g i g' HK Hg Hi Hg').
Qed.
End Inv.
