(* ===== verification/KmallocOps.v ===== *)
(** * The steps of the slab allocator

    Triples for the operations of kmalloc.c on one slab: taking and giving back an
    object, marking and unmarking pages, linking a new slab and unlinking an empty one,
    each against [KRep]. *)

From stdpp Require Import base gmap list.
From Stdlib Require Import ZArith Lia Bool.
From S2P Require Import Prelude.
From S2P Require Import Dlist.
From S2P Require Import Buddy.
From S2P Require Import Pmm.
From S2P Require Import PageTable.
From S2P Require Import PageTableInv.
From S2P Require Import PageTableOps.
From S2P Require Import Kmalloc.
From S2P Require Import KmallocInv.

(** ** Chains of free objects *)

Lemma chain_insert b l : forall i k v, chain b i l -> Z.to_nat k ∉ (Z.to_nat <$> l) -> chain (<[Z.to_nat k := v]> b) i l.
Proof.
  induction l as [|j l IH]; intros i k v Hc Hk; [done|]. destruct Hc as (->&n&Hn&Hc). rewrite fmap_cons, not_elem_of_cons in Hk.
  split; [done|]. exists n. rewrite list_lookup_insert_ne by tauto. split; [done|]. apply IH; tauto.
Qed.

Lemma chain_next b n l m : chain b n l -> (forall i, i ∈ l -> 0 <= i < m) -> m <= 113 -> (n =? BUFCTL_END) = bool_decide (l = []).
Proof.
  intros Hc Hl Hm. destruct l as [|j l]; cbn in Hc; [by subst|]. destruct Hc as [-> _]. assert (0 <= j < m) by (apply Hl; left).
  rewrite bool_decide_false by done. apply Z.eqb_neq. unfold BUFCTL_END. lia.
Qed.

(** The array that [kmem_cache_grow] fills. *)
Definition fresh_links (n : Z) : list Z := <[Z.to_nat (n - 1) := BUFCTL_END]> ((fun i => i + 1) <$> seqZ 0 n).

Lemma fresh_length n : 0 <= n -> Z.of_nat (length (fresh_links n)) = n.
Proof. intros. unfold fresh_links. rewrite length_insert, length_fmap, length_seqZ. lia. Qed.

Lemma fresh_lookup n i : 0 <= i < n -> fresh_links n !! Z.to_nat i = Some (if i =? n - 1 then BUFCTL_END else i + 1).
Proof.
  intros Hi. unfold fresh_links. destruct (Z.eqb_spec i (n - 1)) as [->|].
  - rewrite list_lookup_insert_eq; [done|]. rewrite length_fmap, length_seqZ. lia.
  - rewrite list_lookup_insert_ne by lia. rewrite list_lookup_fmap, lookup_seqZ_lt by lia. cbn. f_equal. lia.
Qed.

Lemma fresh_chain_from k : forall i n, 0 <= i -> n = i + Z.of_nat k -> (k > 0)%nat -> chain (fresh_links n) i (seqZ i (Z.of_nat k)).
Proof.
  induction k as [|k IH]; intros i n Hi Hn Hk; [lia|]. rewrite seqZ_cons by lia. split; [done|].
  rewrite fresh_lookup by lia. eexists. split; [done|]. replace (Z.pred (Z.of_nat (S k))) with (Z.of_nat k) by lia.
  destruct (Z.eqb_spec i (n - 1)); [by replace k with O by lia|]. apply IH; lia.
Qed.

Lemma fresh_chain n : 1 <= n -> chain (fresh_links n) 0 (seqZ 0 n).
Proof. intros. replace n with (0 + Z.of_nat (Z.to_nat n)) at 1 by lia. rewrite <- (Z2Nat.id n) at 2 by lia. apply fresh_chain_from; lia. Qed.

(** ** Lists of slabs *)

Section Ops.
Context {pm : pmm_manager} `{!PmmOk pm} `{!PmmRunOk pm}.
Implicit Types (h : kheap) (G : gmap Z gslab) (g : gslab) (cp : kmem_cache).
Abbreviation hpm h := (vpm (hvm h)).

Lemma ListsOk_other G G' c cp :
  (forall sp, (exists g, G' !! sp = Some g /\ g_cache g = c /\ g_free g = []) <-> (exists g, G !! sp = Some g /\ g_cache g = c /\ g_free g = [])) ->
  (forall sp, (exists g, G' !! sp = Some g /\ g_cache g = c /\ g_free g <> []) <-> (exists g, G !! sp = Some g /\ g_cache g = c /\ g_free g <> [])) ->
  ListsOk G c cp -> ListsOk G' c cp.
Proof. intros H1 H2 []. split; [done|done| |]; intros sp; [by rewrite H1|by rewrite H2]. Qed.

(** Changing one slab of class [c] does not matter to the others. *)
Lemma ListsOk_upd G sp g c c' cp : (forall g0, G !! sp = Some g0 -> g_cache g0 = c) -> g_cache g = c -> c' <> c -> ListsOk G c' cp -> ListsOk (<[sp := g]> G) c' cp.
Proof.
  intros Hold Hg Hc. apply ListsOk_other; intros s; (destruct (decide (s = sp)) as [->|]; [rewrite lookup_insert_eq|by rewrite lookup_insert_ne]);
    (split; intros (g0&Hg0&?&?); [injection Hg0 as <-; congruence|]; specialize (Hold _ Hg0); congruence).
Qed.

Lemma ListsOk_delete_other G sp g c' cp : G !! sp = Some g -> c' <> g_cache g -> ListsOk G c' cp -> ListsOk (delete sp G) c' cp.
Proof.
  intros Hg Hc. apply ListsOk_other; intros s; (destruct (decide (s = sp)) as [->|]; [rewrite lookup_delete_eq|by rewrite lookup_delete_ne]);
    (split; intros (g0&Hg0&?&?); [done|congruence]).
Qed.

(** The lists of [c] after slab [sp] moved to the front of one of them. *)
Lemma ListsOk_move G sp g c cp :
  ListsOk G c cp -> (forall g0, G !! sp = Some g0 -> g_cache g0 = c) -> g_cache g = c ->
  let f := ldel sp (slabs_full cp) in let n := ldel sp (slabs_notfull cp) in
  ListsOk (<[sp := g]> G) c (if bool_decide (g_free g = []) then set_full (sp :: f) (set_notfull n cp) else set_full f (set_notfull (sp :: n) cp)).
Proof.
  intros [Hge [Hn1 Hn2] Hf Hn] Hold Hg f n. assert (Hnf : sp ∉ f) by (unfold f; rewrite elem_of_ldel; tauto). assert (Hnn : sp ∉ n) by (unfold n; rewrite elem_of_ldel; tauto).
  assert (NoDup f /\ NoDup n) as [? ?] by (split; by apply NoDup_ldel).
  case_bool_decide as He; (split; [rewrite Hge at 1; by destruct cp|cbn; rewrite !NoDup_cons; tauto| |]); intros s; cbn; rewrite ?elem_of_cons; unfold f, n; rewrite elem_of_ldel;
    (destruct (decide (s = sp)) as [->|]; [rewrite lookup_insert_eq|rewrite lookup_insert_ne by done; rewrite ?Hf, ?Hn; intuition congruence]); split; intros Hx;
    try (destruct Hx as (?&[= <-]&?&?)); try (by left); try (exfalso; tauto); eauto; done.
Qed.

(** The lists do not change when the chain of a slab does and stays empty or not. *)
Lemma ListsOk_keep G sp g g' c cp :
  ListsOk G c cp -> G !! sp = Some g -> g_cache g' = g_cache g -> (g_free g = [] <-> g_free g' = []) -> ListsOk (<[sp := g']> G) c cp.
Proof.
  intros HL Hg Hc He. revert HL. apply ListsOk_other; intros s; (destruct (decide (s = sp)) as [->|]; [rewrite lookup_insert_eq, Hg|by rewrite lookup_insert_ne]);
    (split; intros (g0&Hg0&?&?); injection Hg0 as <-; eexists; (split; [reflexivity|]); (split; [congruence|tauto])).
Qed.

Lemma ListsOk_delete G sp c cp :
  ListsOk G c cp -> ListsOk (delete sp G) c (set_full (ldel sp (slabs_full cp)) (set_notfull (ldel sp (slabs_notfull cp)) cp)).
Proof.
  intros [Hge [Hn1 Hn2] Hf Hn]. split; [rewrite Hge; reflexivity|cbn; split; by apply NoDup_ldel| |]; intros s; cbn; rewrite elem_of_ldel, ?Hf, ?Hn;
    (destruct (decide (s = sp)) as [->|]; [rewrite lookup_delete_eq; split; [tauto|by intros (?&?&_)]|rewrite lookup_delete_ne by done; tauto]).
Qed.

(** ** Frames *)

Lemma SlabOk_frame h h' sp g :
  SlabOk h sp g -> slabs h' !! sp = slabs h !! sp -> pm_run (hpm h') (g_page g) (gnpg g) ->
  (forall q, in_slab g q -> page_cache h' !! q = page_cache h !! q /\ page_slab h' !! q = page_slab h !! q /\ pages (hpm h') !! q = pages (hpm h) !! q) ->
  SlabOk h' sp g.
Proof.
  intros [? Hx ? ? Hp ?] Hs Hr Hq. split; try done; [by rewrite Hs|]. intros q Hin. destruct (Hq q Hin) as (He1&He2&He3), (Hp q Hin) as (?&?&?).
  unfold page_ok. by rewrite He1, He2, He3.
Qed.

Lemma KRep_frame E h h' G :
  KRep E h G -> pm_inv (hpm h') -> npage (hpm h') = npage (hpm h) -> status (hvm h') = status (hvm h) -> slab_cache h' = slab_cache h ->
  (forall sp, is_Some (G !! sp) -> slabs h' !! sp = slabs h !! sp) ->
  (forall sp g, G !! sp = Some g -> pm_run (hpm h') (g_page g) (gnpg g)) ->
  (forall q, slab_page G q -> page_cache h' !! q = page_cache h !! q /\ page_slab h' !! q = page_slab h !! q /\ pages (hpm h') !! q = pages (hpm h) !! q) ->
  KRep E h' G.
Proof.
  intros [? ? ? ? Hsl ? ?] HI Hn Hst Hc Hs Hr Hq. split; rewrite ?Hn, ?Hst, ?Hc; try done. intros sp g Hg.
  eapply (SlabOk_frame h); [by apply Hsl|by apply Hs|by eapply Hr|]. intros q Hin. apply Hq. by exists sp, g.
Qed.

(** What an operation leaves alone: the machine but for the page allocator, and every
    page that was handed out. *)
Definition kframe h h' : Prop :=
  hvm h' = set_vpm (hpm h') (hvm h) /\ npage (hpm h') = npage (hpm h) /\
  (forall x, pm_owned (hpm h) x -> pm_owned (hpm h') x /\ pages (hpm h') !! x = pages (hpm h) !! x) /\
  (forall q m, pm_run (hpm h) q m -> pm_run (hpm h') q m).

Lemma kframe_hvm h h' : hvm h' = hvm h -> kframe h h'.
Proof. intros He. unfold kframe. rewrite He. split; [by destruct (hvm h)|]. split; [done|]. by split. Qed.

Lemma kframe_trans h1 h2 h3 : kframe h1 h2 -> kframe h2 h3 -> kframe h1 h3.
Proof.
  intros (H1&?&Ho1&Hr1) (H2&?&Ho2&Hr2). split; [rewrite H2, H1; by cbn|]. split; [congruence|]. split; [|auto].
  intros x Hx. destruct (Ho1 x Hx) as [Hx2 ?]. destruct (Ho2 x Hx2). split; [done|congruence].
Qed.

Lemma KRep_kframe E h h' G :
  KRep E h G -> pm_inv (hpm h') -> kframe h h' -> slab_cache h' = slab_cache h -> slabs h' = slabs h -> page_cache h' = page_cache h -> page_slab h' = page_slab h ->
  KRep E h' G.
Proof.
  intros HK HI (Hv&Hn&Ho&Hr) Hc Hs Hpc Hps. eapply (KRep_frame E h); try done.
  - by rewrite Hv.
  - by rewrite Hs.
  - intros sp g Hg. apply Hr, (k_slabs _ _ _ HK sp g Hg).
  - intros q Hq. rewrite Hpc, Hps. split; [done|]. split; [done|]. by apply Ho, (slab_page_owned E h G).
Qed.

(** ** Pages of a slab *)

(** The flag of the [k] pages from [page] is [b]. *)
Definition marked (b : bool) (page k : Z) (s s' : pmm) : Prop :=
  pm_inv s' /\ npage s' = npage s /\ (forall x, pm_owned s x <-> pm_owned s' x) /\ (forall q m, pm_run s q m -> pm_run s' q m) /\ pm_nfree s' = pm_nfree s /\
  (forall q, pages s' !! q = if decide (page <= q < page + k) then mark_slab b <$> pages s !! q else pages s !! q).

Lemma marked_nil b page s : pm_inv s -> marked b page 0 s s.
Proof. intros HI. unfold marked. split_and!; try done. intros q. by rewrite decide_False by lia. Qed.

Lemma marked_cons b page k s pg s' :
  pm_inv s -> pm_owned s page -> pages s !! page = Some pg -> 0 <= k ->
  marked b (page + 1) k (upd_pages (fun m => <[page := mark_slab b pg]> m) s) s' -> marked b page (k + 1) s s'.
Proof.
  intros HI Ho Hp Hk (HI'&Hn&Hown&Hr&Hnf&Hpg). destruct (pm_set_slab s page pg b HI Ho Hp) as (_&Hown1&Hr1&Hnf1).
  split; [done|]. split; [done|]. split; [intros x; by rewrite Hown1|]. split; [auto|]. split; [congruence|]. intros q. rewrite Hpg. cbn. rewrite lookup_insert.
  destruct (decide (page = q)) as [<-|]; [rewrite decide_False, decide_True, Hp by lia; done|].
  destruct (decide (page + 1 <= q < page + 1 + k)); [rewrite decide_True by lia|rewrite decide_False by lia]; done.
Qed.

Lemma upd_page_flags_runs h p pg f Q :
  pages (hpm h) !! p = Some pg -> Q tt (set_hvm (set_vpm (upd_pages (fun m => <[p := f pg]> m) (hpm h)) (hvm h)) h) -> runs (upd_page_flags p f) h Q.
Proof. intros Hp HQ. unfold upd_page_flags, on_hvm, on_pmm, upd_page, rd_page. runs_steps. eapply runs_deref; [done|]. by runs_steps. Qed.

Lemma owned_pg s p : pm_inv s -> pm_owned s p -> exists pg, pages s !! p = Some pg.
Proof. intros HI Ho. by destruct (pm_owned_page s p HI Ho) as [_ [pg ?]]; exists pg. Qed.

Lemma mark_pages_runs c sp k : forall page h,
  pm_inv (hpm h) -> (forall q, page <= q < page + Z.of_nat k -> pm_owned (hpm h) q) ->
  runs (mark_pages k page c sp) h (fun _ h' => exists s pc ps, h' = mkHeap (set_vpm s (hvm h)) (slab_cache h) (slabs h) pc ps /\
    marked true page (Z.of_nat k) (hpm h) s /\
    (forall q, pc !! q = if decide (page <= q < page + Z.of_nat k) then Some c else page_cache h !! q) /\
    (forall q, ps !! q = if decide (page <= q < page + Z.of_nat k) then Some sp else page_slab h !! q)).
Proof.
  induction k as [|k IH]; intros page h HI Ho; cbn [mark_pages]; runs_steps.
  - exists (hpm h), (page_cache h), (page_slab h). split; [by destruct h as [[]]|]. split; [by apply marked_nil|]. split; intros q; by rewrite decide_False by lia.
  - assert (Hop : pm_owned (hpm h) page) by (apply Ho; lia). destruct (owned_pg _ _ HI Hop) as [pg Hpg].
    eapply upd_page_flags_runs; [exact Hpg|]. cbn beta.
    destruct (pm_set_slab (hpm h) page pg true HI Hop Hpg) as (HI1&Ho1&_).
    eapply runs_mono; [apply IH; [exact HI1|]|].
    + intros q Hq. apply (Ho1 q), Ho. lia.
    + cbn beta. intros _ h' (s&pc&ps&->&Hm&Hpc&Hps). exists s, pc, ps. split; [done|].
      split; [replace (Z.of_nat (S k)) with (Z.of_nat k + 1) by lia; apply (marked_cons true page _ _ pg); try done; lia|].
      split; intros q; [rewrite Hpc|rewrite Hps]; cbn; rewrite lookup_insert; (destruct (decide (page = q)) as [<-|]; [rewrite decide_False, decide_True by lia; done|]);
        (destruct (decide (page + 1 <= q < page + 1 + Z.of_nat k)); [rewrite decide_True by lia|rewrite decide_False by lia]; done).
Qed.

Lemma unmark_pages_runs k : forall page h,
  pm_inv (hpm h) -> (forall q, page <= q < page + Z.of_nat k -> pm_owned (hpm h) q /\ exists pg, pages (hpm h) !! q = Some pg /\ PageSlab pg = true) ->
  runs (unmark_pages k page) h (fun _ h' => exists s, h' = set_hvm (set_vpm s (hvm h)) h /\ marked false page (Z.of_nat k) (hpm h) s).
Proof.
  induction k as [|k IH]; intros page h HI Ho; cbn [unmark_pages]; runs_steps.
  - exists (hpm h). split; [by destruct h as [[]]|by apply marked_nil].
  - destruct (Ho page) as (Hop&pg&Hpg&Hfl); [lia|]. unfold on_hvm, on_pmm, rd_page at 1. runs_steps. eapply runs_deref; [exact Hpg|]. runs_steps.
    apply runs_assert; [done|]. runs_steps. eapply upd_page_flags_runs; [exact Hpg|]. cbn beta.
    destruct (pm_set_slab (hpm h) page pg false HI Hop Hpg) as (HI1&Ho1&_).
    eapply runs_mono; [apply IH; [exact HI1|]|].
    + intros q Hq. cbn [hvm set_hvm vpm set_vpm]. rewrite <- (Ho1 q). cbn. rewrite lookup_insert_ne by lia. apply Ho. lia.
    + cbn beta. intros _ h' (s&->&Hm). exists s. split; [done|]. replace (Z.of_nat (S k)) with (Z.of_nat k + 1) by lia.
      apply (marked_cons false page _ _ pg); try done; lia.
Qed.

(** ** Taking and giving back an object *)

(** The record of slab [sp] and the lists of its cache, and nothing else. *)
Definition touched h h' (c sp : Z) cp' x' : Prop :=
  hvm h' = hvm h /\ page_cache h' = page_cache h /\ page_slab h' = page_slab h /\ slabs h' = <[sp := x']> (slabs h) /\
  slab_cache h' = <[c := cp']> (slab_cache h).

Definition links_ok g l x' : Prop :=
  s_mem x' = kva (g_page g) + c_offset (ggeo g) /\ s_offset x' = c_offset (ggeo g) /\ chain (bufctl x') (s_free x') l /\
  Z.of_nat (length (bufctl x')) = num (ggeo g) /\ inuse x' = num (ggeo g) - Z.of_nat (length l).

Lemma KRep_relink E E' h h' G sp g l x' cp' :
  KRep E h G -> G !! sp = Some g -> touched h h' (g_cache g) sp cp' x' -> links_ok g l x' ->
  NoDup l -> (forall i, i ∈ l -> 0 <= i < num (ggeo g)) ->
  ListsOk (<[sp := set_gfree l g]> G) (g_cache g) cp' ->
  (E' <> Some sp -> Z.of_nat (length l) < num (ggeo g)) -> (forall s, s <> sp -> E' <> Some s -> E <> Some s) ->
  (forall s g0, G !! s = Some g0 -> off_slab (ggeo g0) = true -> allocated (<[sp := set_gfree l g]> G) s (slab_cachep (ggeo g0))) ->
  KRep E' h' (<[sp := set_gfree l g]> G).
Proof.
  intros [HI Hn Hst Hca Hsl Hu Hctl] Hg (Hv&Hpc&Hps&Hs&Hc) Hx Hnd Hrg HL Hle HE Hal. split; rewrite ?Hv; try done.
  - intros c Hcl. rewrite Hc. destruct (decide (c = g_cache g)) as [->|Hne]; [rewrite lookup_insert_eq; by exists cp'|].
    rewrite lookup_insert_ne by done. destruct (Hca c Hcl) as (cp&?&?). exists cp. split; [done|].
    apply (ListsOk_upd G sp (set_gfree l g) (g_cache g)); [by intros ? [= <-]%(eq_trans (eq_sym Hg))|done|done|done].
  - intros s g0 Hg0. destruct (decide (s = sp)) as [->|Hne].
    + rewrite lookup_insert_eq in Hg0. apply (inj Some) in Hg0 as <-. destruct (Hsl sp g Hg) as [? _ _ ? Hp Hin].
      split; cbn [g_cache g_page g_free set_gfree]; try done; [|by rewrite Hv|by unfold page_ok; rewrite Hpc, Hps, Hv].
      exists x'. rewrite Hs, lookup_insert_eq. done.
    + rewrite lookup_insert_ne in Hg0 by done. eapply (SlabOk_frame h); [by apply Hsl|by rewrite Hs, lookup_insert_ne|rewrite Hv; apply (Hsl s g0 Hg0)|].
      intros q _. by rewrite Hpc, Hps, Hv.
  - intros s g0 Hg0 HE'. destruct (decide (s = sp)) as [->|Hne].
    + rewrite lookup_insert_eq in Hg0. apply (inj Some) in Hg0 as <-. by apply Hle.
    + rewrite lookup_insert_ne in Hg0 by done. apply (Hu s); [done|]. by apply HE.
  - intros s g0 Hg0. destruct (decide (s = sp)) as [->|Hne].
    + rewrite lookup_insert_eq in Hg0. apply (inj Some) in Hg0 as <-. intros Ho. by apply (Hal sp g Hg).
    + rewrite lookup_insert_ne in Hg0 by done. intros Ho. by apply (Hal s g0 Hg0).
Qed.

(** What is allocated when the chain of a slab changes. *)
Lemma allocated_relink G sp g l a c :
  G !! sp = Some g ->
  allocated (<[sp := set_gfree l g]> G) a c <->
  (exists i, g_cache g = c /\ 0 <= i < num (geo c) /\ (i ∉ l) /\ a = obj_addr g i) \/
  (exists s g0 i, s <> sp /\ G !! s = Some g0 /\ g_cache g0 = c /\ 0 <= i < num (geo c) /\ (i ∉ g_free g0) /\ a = obj_addr g0 i).
Proof.
  intros Hg. split.
  - intros (s&g0&i&Hg0&Hr). destruct (decide (s = sp)) as [->|]; [|rewrite lookup_insert_ne in Hg0 by done; right; by exists s, g0, i].
    rewrite lookup_insert_eq in Hg0. apply (inj Some) in Hg0 as <-. left. by exists i.
  - intros [(i&Hr)|(s&g0&i&Hs&Hr)]; [exists sp, (set_gfree l g), i; by rewrite lookup_insert_eq|exists s, g0, i; by rewrite lookup_insert_ne].
Qed.

Lemma allocated_pop E h G sp g i l a c :
  KRep E h G -> G !! sp = Some g -> g_free g = i :: l ->
  (allocated (<[sp := set_gfree l g]> G) a c <-> allocated G a c \/ (a = obj_addr g i /\ c = g_cache g)).
Proof.
  intros HK Hg Hl. pose proof (k_slabs _ _ _ HK sp g Hg) as [_ _ [Hnd Hrg] _ _ _]. rewrite Hl in *. apply NoDup_cons in Hnd as [Hni Hnd].
  rewrite (allocated_relink G sp g l) by done. split.
  - intros [(j&Hc&Hj&Hnj&->)|(s&g0&j&_&Hg0&Hr)]; [|left; by exists s, g0, j]. destruct (decide (j = i)) as [->|]; [by right|].
    left. exists sp, g, j. rewrite Hl, not_elem_of_cons. done.
  - intros [(s&g0&j&Hg0&Hc&Hj&Hnj&->)|[-> ->]]; [|left; exists i; split; [done|]; split; [apply Hrg; by left|done]].
    destruct (decide (s = sp)) as [->|]; [|right; by exists s, g0, j]. assert (g0 = g) as -> by congruence. left. exists j.
    rewrite Hl, not_elem_of_cons in Hnj. tauto.
Qed.

Lemma allocated_push E h G sp g i a c :
  KRep E h G -> G !! sp = Some g -> 0 <= i < num (ggeo g) -> i ∉ g_free g ->
  (allocated (<[sp := set_gfree (i :: g_free g) g]> G) a c <-> allocated G a c /\ a <> obj_addr g i).
Proof.
  intros HK Hg Hi Hni. rewrite allocated_relink by done. split.
  - intros [(j&Hc&Hj&Hnj&->)|(s&g0&j&Hs&Hg0&<-&Hj&Hnj&->)].
    + rewrite not_elem_of_cons in Hnj. split; [exists sp, g, j; tauto|]. subst c. intros He. destruct (obj_inj E h G sp g j sp g i HK Hg Hg Hj Hi He) as (_&_&?). tauto.
    + split; [by exists s, g0, j|]. intros He. by destruct (obj_inj E h G s g0 j sp g i HK Hg0 Hg Hj Hi He).
  - intros [(s&g0&j&Hg0&Hc&Hj&Hnj&->) Hne]. destruct (decide (s = sp)) as [->|]; [|right; by exists s, g0, j].
    assert (g0 = g) as -> by congruence. left. exists j. split; [done|]. split; [done|]. split; [|done]. rewrite not_elem_of_cons. split; [congruence|done].
Qed.

Lemma obj_addr_u32 E h G sp g i :
  KRep E h G -> G !! sp = Some g -> 0 <= i < num (ggeo g) ->
  u32 (kva (g_page g) + c_offset (ggeo g) + u32 (i * objsize (ggeo g))) = obj_addr g i /\ is_u32 (obj_addr g i).
Proof.
  intros HK Hg Hi. destruct (obj_page E h G sp g i HK Hg Hi) as (q&r&He&Hr&Hq). pose proof (in_slab_bound E h G sp g q HK Hg Hq) as Hb. pose proof (k_npage _ _ _ HK).
  assert (Hu : is_u32 (obj_addr g i)) by (rewrite He; addr; lia). split; [|done].
  pose proof (geo_ok _ (so_class _ _ _ (k_slabs _ _ _ HK sp g Hg))) as Hgo. pose proof (gs_fit _ Hgo). pose proof (gs_npg _ Hgo). destruct (gs_off _ Hgo), (gs_obj _ Hgo).
  rewrite (u32_small (i * _)) by (unfold is_u32, W32; nia). by apply u32_small.
Qed.

Lemma free_count E h G sp g : KRep E h G -> G !! sp = Some g -> Z.of_nat (length (g_free g)) <= num (ggeo g).
Proof.
  intros HK Hg. destruct (so_free _ _ _ (k_slabs _ _ _ HK sp g Hg)) as [Hnd Hrg].
  pose proof (gs_num _ (geo_ok _ (so_class _ _ _ (k_slabs _ _ _ HK sp g Hg)))).
  assert (Hle : (length (g_free g) <= length (seqZ 0 (num (ggeo g))))%nat); [|rewrite length_seqZ in Hle; lia].
  apply submseteq_length, NoDup_submseteq; [done|]. intros j Hj. apply elem_of_seqZ. specialize (Hrg j Hj). lia.
Qed.

Lemma cache_runs E h G c Q : KRep E h G -> is_class c -> (forall cp, slab_cache h !! c = Some cp -> ListsOk G c cp -> Q cp h) -> runs (rd_cache c) h Q.
Proof. intros HK Hc HQ. destruct (k_caches _ _ _ HK c Hc) as (cp&Hcp&HL). unfold rd_cache. runs_steps. eapply runs_deref; [done|]. by apply HQ. Qed.

Lemma slab_runs h sp x Q : slabs h !! sp = Some x -> Q x h -> runs (rd_slab sp) h Q.
Proof. intros Hx HQ. unfold rd_slab. runs_steps. by eapply runs_deref. Qed.

Lemma upd_cache_runs h c cp f Q : slab_cache h !! c = Some cp -> Q tt (set_caches (<[c := f cp]> (slab_cache h)) h) -> runs (upd_cache c f) h Q.
Proof. intros Hc HQ. unfold upd_cache, rd_cache. runs_steps. eapply runs_deref; [done|]. by runs_steps. Qed.

(** The fields of a cache that do not change are those of the table. *)
Lemma lists_geo G c cp : ListsOk G c cp ->
  objsize cp = objsize (geo c) /\ objsize_shift cp = objsize_shift (geo c) /\ num cp = num (geo c) /\ c_offset cp = c_offset (geo c) /\
  off_slab cp = off_slab (geo c) /\ page_order cp = page_order (geo c) /\ slab_cachep cp = slab_cachep (geo c).
Proof. intros [-> _ _ _]. by cbn. Qed.

Lemma alloc_one_runs E h G sp g i l :
  KRep E h G -> (E = None \/ E = Some sp) -> G !! sp = Some g -> g_free g = i :: l ->
  runs (kmem_cache_alloc_one (g_cache g) sp) h (fun r h' => r = obj_addr g i /\ hvm h' = hvm h /\ KRep None h' (<[sp := set_gfree l g]> G)).
Proof.
  intros HK HE Hg Hl. pose proof (k_slabs _ _ _ HK sp g Hg) as [Hc (x&Hx&Hm&Ho&Hch&Hlen&Hin) [Hnd Hrg] _ _ _].
  assert (Hi : 0 <= i < num (ggeo g)) by (apply Hrg; rewrite Hl; left). pose proof (geo_ok _ Hc) as Hgo. pose proof (gs_num _ Hgo).
  unfold kmem_cache_alloc_one. runs_steps. eapply cache_runs; [exact HK|exact Hc|]. intros cp Hcp HL. destruct (lists_geo _ _ _ HL) as (Hsz&_).
  runs_steps. eapply slab_runs; [exact Hx|]. runs_steps. rewrite Hl in Hch. destruct Hch as (Hfr&n&Hn&Hch). rewrite Hfr.
  eapply runs_deref; [exact Hn|]. runs_steps. unfold wr_slab. runs_steps. rewrite Hm, Hsz. destruct (obj_addr_u32 E h G sp g i HK Hg Hi) as [-> _].
  assert (Hl' : forall j, j ∈ l -> 0 <= j < num (ggeo g)) by (intros j Hj; apply Hrg; rewrite Hl; by right).
  assert (Hlen' : Z.of_nat (length (g_free g)) = Z.of_nat (length l) + 1) by (rewrite Hl; cbn; lia).
  pose proof (free_count _ _ _ _ _ HK Hg).
  rewrite (chain_next _ _ _ _ Hch Hl') by lia.
  set (x' := mkSlab _ _ _ n _). set (cp' := if bool_decide (l = []) then set_full (sp :: slabs_full cp) (set_notfull (ldel sp (slabs_notfull cp)) cp) else cp).
  assert (Hrep : forall h', touched h h' (g_cache g) sp cp' x' -> KRep None h' (<[sp := set_gfree l g]> G)).
  { intros h' Ht. eapply KRep_relink; [exact HK|exact Hg|exact Ht| | |exact Hl'| |lia| |].
    - unfold links_ok, x'. cbn [s_mem s_offset s_free bufctl inuse]. rewrite u32_small by (unfold is_u32, W32; lia). split_and!; try done. lia.
    - rewrite Hl in Hnd. by apply NoDup_cons in Hnd as [_ ?].
    - unfold cp'. case_bool_decide as Hl0.
      + pose proof (ListsOk_move G sp (set_gfree l g) (g_cache g) cp HL ltac:(by intros ? [= <-]%(eq_trans (eq_sym Hg))) ltac:(done)) as HM. cbn zeta in HM.
        rewrite bool_decide_true in HM by done. assert (Hf : ldel sp (slabs_full cp) = slabs_full cp); [|by rewrite Hf in HM].
        apply ldel_notin. intros Hy. apply (lo_full _ _ _ HL) in Hy as (g0&Hg0&_&He). rewrite Hg in Hg0. injection Hg0 as <-. by rewrite Hl in He.
      + apply (ListsOk_keep G sp g); [done|done|done|]. cbn. rewrite Hl. done.
    - intros s Hs _. destruct HE as [-> | ->]; congruence.
    - intros s g0 Hg0 Hof. apply (allocated_pop E h G sp g i l); [done|done|done|]. left. by apply (k_ctl _ _ _ HK). }
  case_bool_decide as Hl0.
  - eapply upd_cache_runs; [exact Hcp|]. runs_steps. split; [done|]. split; [done|]. apply Hrep. done.
  - runs_steps. split; [done|]. split; [done|]. apply Hrep. unfold touched, cp'. cbn. by rewrite (insert_id (slab_cache h)).
Qed.
End Ops.
