(* ===== verification/KmallocThm.v ===== *)
(** * Correctness of the slab allocator

    [kmalloc] and [kfree] against a map from the addresses of the blocks that clients
    hold to their size classes; the blocks never overlap; a heap without blocks holds no
    pages.  The recursion of [kmem_cache_alloc] through [kmem_cache_slabmgmt], and that
    of [kmem_cache_free] through [kmem_slab_destroy], stop after one level. *)

From stdpp Require Import base gmap list.
From Stdlib Require Import ZArith Lia Bool.
From S2P Require Import Prelude.
From S2P Require Import Dlist.
From S2P Require Import Buddy.
From S2P Require Import Pmm.
From S2P Require Import PageTable.
From S2P Require Import PageTableInv.
From S2P Require Import PageTableOps.
From S2P Require Import Kmalloc.
From S2P Require Import KmallocInv.
From S2P Require Import KmallocOps.
From S2P Require Import BuddyThm.

Section Slab.
Context {pm : pmm_manager} `{!PmmOk pm} `{!PmmRunOk pm}.
Implicit Types (h : kheap) (G : gmap Z gslab) (g : gslab) (cp : kmem_cache).
Abbreviation hpm h := (vpm (hvm h)).

(** ** Pages *)

Lemma on_hvm_runs {A} (m : M vm A) h Q : runs m (hvm h) (fun r v => Q r (set_hvm v h)) -> runs (on_hvm m) h Q.
Proof. intros Hm. unfold on_hvm. by runs_steps. Qed.

Lemma set_hvm_id h : set_hvm (hvm h) h = h.
Proof. by destruct h. Qed.

Lemma alloc_run_runs h n :
  pm_inv (hpm h) -> is_u32 (status (hvm h)) -> 1 <= n <= 1024 ->
  runs (on_hvm (alloc_pages pm n)) h (fun r h' =>
    match r with
    | None => h' = h /\ ~ pm_fits (hpm h) n
    | Some p => h' = set_hvm (hvm h') h /\ kframe h h' /\ pm_inv (hpm h') /\ pm_run (hpm h') p n /\ (forall x, p <= x < p + n -> ~ pm_owned (hpm h) x) /\
        (forall x, pm_owned (hpm h') x -> p <= x < p + n \/ pm_owned (hpm h) x) /\ pm_nfree (hpm h') = pm_nfree (hpm h) - n
    end).
Proof.
  intros HI Hs Hn. apply on_hvm_runs. eapply runs_mono; [apply locked_runs; [done|by apply pm_alloc_run]|]. cbn beta. intros [p|] v [Hv Hr].
  - destruct Hr as (HI'&Hnp&Hrun&Hfr&Hown&Hruns&?). split; [done|]. split; [|done]. unfold kframe. cbn. done.
  - destruct Hr as [Hr Hnf]. rewrite Hr in Hv. rewrite Hv. split; [by destruct h as [[]]|done].
Qed.

Lemma free_run_runs h p n :
  pm_inv (hpm h) -> is_u32 (status (hvm h)) -> 1 <= n <= 1024 -> pm_run (hpm h) p n ->
  runs (on_hvm (free_pages pm p n)) h (fun _ h' => h' = set_hvm (set_vpm (hpm h') (hvm h)) h /\ pm_inv (hpm h') /\ npage (hpm h') = npage (hpm h) /\
    (forall x, p <= x < p + n -> ~ pm_owned (hpm h') x) /\
    (forall x, ~ p <= x < p + n -> pm_owned (hpm h) x -> pm_owned (hpm h') x /\ pages (hpm h') !! x = pages (hpm h) !! x) /\
    (forall q m, pm_run (hpm h) q m -> (forall x, p <= x < p + n -> ~ q <= x < q + m) -> pm_run (hpm h') q m) /\
    (forall x, pm_owned (hpm h') x -> pm_owned (hpm h) x) /\ pm_nfree (hpm h') = pm_nfree (hpm h) + n).
Proof.
  intros HI Hs Hn Hr. apply on_hvm_runs. eapply runs_mono; [apply locked_runs; [done|by apply (pm_free_run _ p n)]|]. cbn beta.
  intros _ v (Hv&HI'&Hnp&Hno&Hown&Hruns). cbn. split; [by rewrite <- Hv|]. done.
Qed.

Lemma kva2page_runs h q r Q :
  0 <= q < npage (hpm h) -> npage (hpm h) <= MAXPAGE -> 0 <= r < 4096 -> Q q h -> runs (on_hvm (kva2page (kva q + r))) h Q.
Proof.
  intros Hq Hn Hr HQ. apply on_hvm_runs. unfold kva2page, PADDR, pa2page. runs_steps. destruct (Z.ltb_spec (kva q + r) KERNBASE); [addr; lia|]. runs_steps.
  rewrite PPN_kva by lia. destruct (Z.leb_spec (npage (hpm h)) q); [lia|]. runs_steps. by rewrite set_hvm_id.
Qed.

(** ** A new slab *)

Lemma allocated_add G sp g a c :
  G !! sp = None -> g_free g = seqZ 0 (num (ggeo g)) -> (allocated (<[sp := g]> G) a c <-> allocated G a c).
Proof.
  intros Hn Hf. split.
  - intros (s&g0&i&Hg0&Hc&Hi&Hni&->). destruct (decide (s = sp)) as [->|]; [|rewrite lookup_insert_ne in Hg0 by done; by exists s, g0, i].
    rewrite lookup_insert_eq in Hg0. apply (inj Some) in Hg0 as <-. exfalso. apply Hni. rewrite Hf, Hc. apply elem_of_seqZ. lia.
  - intros (s&g0&i&Hg0&?). exists s, g0, i. by rewrite lookup_insert_ne by congruence.
Qed.

Lemma is_ctl_add G sp g a : G !! sp = None -> (is_ctl (<[sp := g]> G) a <-> is_ctl G a \/ (a = sp /\ off_slab (ggeo g) = true)).
Proof.
  intros Hn. unfold is_ctl. destruct (decide (a = sp)) as [->|].
  - rewrite lookup_insert_eq, Hn. split; [intros (?&[= <-]&?); by right|]. intros [(?&?&_)|[_ ?]]; [done|by eexists].
  - rewrite lookup_insert_ne by done. split; [by left|]. by intros [?|[? _]].
Qed.

Lemma slab_page_add G sp g q : G !! sp = None -> (slab_page (<[sp := g]> G) q <-> slab_page G q \/ in_slab g q).
Proof.
  intros Hn. split.
  - intros (s&g0&Hg0&Hq). destruct (decide (s = sp)) as [->|]; [rewrite lookup_insert_eq in Hg0; apply (inj Some) in Hg0 as <-; by right|].
    rewrite lookup_insert_ne in Hg0 by done. left. by exists s, g0.
  - intros [(s&g0&Hg0&?)|?]; [exists s, g0; by rewrite lookup_insert_ne by congruence|exists sp, g; by rewrite lookup_insert_eq].
Qed.

Lemma KRep_add h h' G sp g cp :
  KRep None h G -> G !! sp = None -> slab_cache h !! g_cache g = Some cp ->
  pm_inv (hpm h') -> npage (hpm h') = npage (hpm h) -> status (hvm h') = status (hvm h) ->
  slab_cache h' = <[g_cache g := set_notfull (sp :: slabs_notfull cp) cp]> (slab_cache h) ->
  (forall s, s <> sp -> slabs h' !! s = slabs h !! s) -> (forall q m, pm_run (hpm h) q m -> pm_run (hpm h') q m) ->
  (forall q, slab_page G q -> page_cache h' !! q = page_cache h !! q /\ page_slab h' !! q = page_slab h !! q /\ pages (hpm h') !! q = pages (hpm h) !! q) ->
  SlabOk h' sp g -> g_free g = seqZ 0 (num (ggeo g)) -> (off_slab (ggeo g) = true -> allocated G sp (slab_cachep (ggeo g))) ->
  KRep (Some sp) h' (<[sp := g]> G).
Proof.
  intros [HI Hn Hst Hca Hsl Hu Hctl] Hf Hcp HI' Hn' Hst' Hc Hs Hr Hq Hok Hfree Hal. split; rewrite ?Hn', ?Hst'; try done.
  - intros c Hcl. rewrite Hc. destruct (Hca c Hcl) as (cp0&Hcp0&HL). destruct (decide (c = g_cache g)) as [->|Hne].
    + rewrite lookup_insert_eq. eexists. split; [done|]. assert (cp0 = cp) as -> by congruence.
      pose proof (ListsOk_move G sp g (g_cache g) cp HL ltac:(by rewrite Hf) eq_refl) as HM. cbn zeta in HM.
      rewrite bool_decide_false in HM by (rewrite Hfree; pose proof (gs_num _ (geo_ok _ Hcl)); rewrite seqZ_cons by lia; done).
      rewrite !ldel_notin in HM; [by destruct cp| |]; intros Hin; [apply (lo_notfull _ _ _ HL) in Hin|apply (lo_full _ _ _ HL) in Hin]; destruct Hin as (?&?&_); congruence.
    + rewrite lookup_insert_ne by done. exists cp0. split; [done|]. eapply ListsOk_upd; [|done|exact Hne|done]. by rewrite Hf.
  - intros s g0 Hg0. destruct (decide (s = sp)) as [->|]; [rewrite lookup_insert_eq in Hg0; by apply (inj Some) in Hg0 as <-|].
    rewrite lookup_insert_ne in Hg0 by done. eapply (SlabOk_frame h); [by apply Hsl|by apply Hs|apply Hr, (Hsl s g0 Hg0)|]. intros q Hin. apply Hq. by exists s, g0.
  - intros s g0 Hg0 Hne. rewrite lookup_insert_ne in Hg0 by congruence. by apply (Hu s).
  - intros s g0 Hg0 Hof. apply allocated_add; [done|done|]. destruct (decide (s = sp)) as [->|]; [rewrite lookup_insert_eq in Hg0; apply (inj Some) in Hg0 as <-; by apply Hal|].
    rewrite lookup_insert_ne in Hg0 by done. by apply Hctl.
Qed.

Lemma fresh_key E h G p : KRep E h G -> ~ slab_page G p -> G !! kva p = None.
Proof.
  intros HK Hp. destruct (G !! kva p) as [g|] eqn:Hg; [|done]. exfalso. apply Hp. pose proof (k_slabs _ _ _ HK _ _ Hg) as Hs.
  destruct (off_slab (ggeo g)) eqn:Hof.
  - destruct (k_ctl _ _ _ HK _ _ Hg Hof) as (s&g0&i&Hg0&Hc&Hi&_&He). rewrite <- Hc in Hi. destruct (obj_page E h G s g0 i HK Hg0 Hi) as (q&r&He'&Hr&Hq).
    exists s, g0. split; [done|]. rewrite <- He in He'. replace p with q by (unfold kva in He'; lia). done.
  - exists (kva p), g. split; [done|]. pose proof (so_in _ _ _ Hs Hof) as He. replace p with (g_page g) by (unfold kva in He; lia).
    pose proof (gs_npg _ (geo_ok _ (so_class _ _ _ Hs))). unfold in_slab. lia.
Qed.

(** ** Allocation *)

(** No page was taken that is not given back. *)
Definition unspent h h' : Prop := (forall x, pm_owned (hpm h') x -> pm_owned (hpm h) x) /\ pm_nfree (hpm h') = pm_nfree (hpm h).
(** Every page that was taken is in a slab. *)
Definition grabbed h G h' G' : Prop := (forall q, slab_page G q -> slab_page G' q) /\ (forall q, pm_owned (hpm h') q -> pm_owned (hpm h) q \/ slab_page G' q).

Lemma unspent_refl h : unspent h h.
Proof. done. Qed.
Lemma grabbed_trans h1 G1 h2 G2 h3 G3 : grabbed h1 G1 h2 G2 -> grabbed h2 G2 h3 G3 -> grabbed h1 G1 h3 G3.
Proof. intros [Hs1 Ho1] [Hs2 Ho2]. split; [auto|]. intros q Hq. destruct (Ho2 q Hq) as [H2|]; [|by right]. destruct (Ho1 q H2); [by left|right; auto]. Qed.

(** No slab of class [c] has a free object. *)
Definition class_full h (c : Z) : Prop := exists cp, slab_cache h !! c = Some cp /\ slabs_notfull cp = [].
(** There is no room for a new slab of class [c]: not for its pages, or, when these are
    taken, not for those of the slab that is to hold its control part. *)
Definition no_room h (c : Z) : Prop :=
  class_full h c /\
  (~ pm_fits (hpm h) (npg c) \/
   off_slab (geo c) = true /\ class_full h (slab_cachep (geo c)) /\
   exists p s, (forall x, pm_owned s x <-> p <= x < p + npg c \/ pm_owned (hpm h) x) /\ pm_nfree s = pm_nfree (hpm h) - npg c /\
     ~ pm_fits s (npg (slab_cachep (geo c)))).

(** An object of class [c] is handed out, or there is no room and nothing happens. *)
Definition alloc_post h G (c : Z) (r : option Z) h' : Prop :=
  kframe h h' /\
  match r with
  | None => KRep None h' G /\ unspent h h' /\ no_room h c
  | Some a => exists G', KRep None h' G' /\ grabbed h G h' G' /\ (forall a' c', live G' a' c' <-> live G a' c' \/ (a' = a /\ c' = c)) /\
      (forall c', ~ live G a c') /\ (forall q, slab_page G' q -> slab_page G q \/ ~ pm_owned (hpm h) q)
  end.

(** The slab [sp] has been prepared for the pages from [page]; [G2] is what is there
    without it. *)
Definition prepared h G (c page sp : Z) h2 G2 : Prop :=
  KRep None h2 G2 /\ kframe h h2 /\ grabbed h G h2 G2 /\ G2 !! sp = None /\ (off_slab (geo c) = false -> sp = kva page) /\
  (off_slab (geo c) = true -> allocated G2 sp (slab_cachep (geo c))) /\
  (forall a c', live G a c' <-> live G2 a c' /\ (off_slab (geo c) = true -> a <> sp)) /\
  (forall q, slab_page G2 q -> slab_page G q \/ ~ pm_owned (hpm h) q).

Lemma slabmgmt_runs alloc h G c page :
  KRep None h G -> is_class c -> 0 <= page < npage (hpm h) -> ~ slab_page G page ->
  (off_slab (geo c) = true -> runs (alloc (slab_cachep (geo c))) h (alloc_post h G (slab_cachep (geo c)))) ->
  runs (kmem_cache_slabmgmt alloc c page) h (fun r h' =>
    match r with
    | None => KRep None h' G /\ kframe h h' /\ unspent h h' /\ off_slab (geo c) = true /\ no_room h (slab_cachep (geo c))
    | Some sp => exists h2 G2, prepared h G c page sp h2 G2 /\
        h' = set_slabs (<[sp := mkSlab (kva page + c_offset (geo c)) 0 (c_offset (geo c)) 0 []]> (slabs h2)) h2
    end).
Proof.
  intros HK Hc Hp Hns Hal. unfold kmem_cache_slabmgmt. runs_steps. eapply cache_runs; [exact HK|exact Hc|]. intros cp _ HL.
  destruct (lists_geo _ _ _ HL) as (_&_&_&Hof&Hoff&_&Hsc). runs_steps. apply on_hvm_runs. pose proof (k_npage _ _ _ HK).
  eapply runs_mono; [apply page2kva_runs; lia|]. cbn beta. intros objp v [-> ->]. rewrite set_hvm_id. runs_steps. rewrite Hoff, Hof, Hsc.
  assert (Hu : u32 (kva page + c_offset (geo c)) = kva page + c_offset (geo c)) by (destruct (gs_off _ (geo_ok c Hc)); apply u32_small; addr; lia).
  rewrite Hu. destruct (off_slab (geo c)) eqn:He.
  - eapply runs_mono; [by apply Hal|]. cbn beta. intros [sp|] h2 [Hfr HP]; [|destruct HP as (?&?&?); by runs_steps]. destruct HP as (G2&HK2&Hgr&Hl&Hnl&Hsp). unfold wr_slab. runs_steps.
    exists h2, G2. split; [|done]. assert (Hlsp : live G2 sp (slab_cachep (geo c))) by (apply Hl; by right). unfold prepared. rewrite He.
    split; [done|]. split; [done|]. split; [done|]. split; [by eapply live_fresh|]. split; [done|]. split; [by intros _; destruct Hlsp|]. split; [|done].
    intros a c'. rewrite Hl. split; [intros Hla; split; [by left|]; intros _ ->; by apply (Hnl c')|]. intros [[?|[-> _]] Hne]; [done|]. by destruct Hne.
  - unfold wr_slab. runs_steps. exists h, G. split; [|done]. unfold prepared. rewrite He. split; [done|]. split; [by apply kframe_hvm|].
    split; [by split; [|left]|]. split; [by apply (fresh_key None h)|]. split; [done|]. split; [done|]. split; [|by left]. intros a c'. split; [done|]. by intros [? _].
Qed.

Definition grow_post h G (c : Z) (ok : bool) h' : Prop :=
  kframe h h' /\
  if ok then exists sp g G', KRep (Some sp) h' G' /\ G' !! sp = Some g /\ g_cache g = c /\ g_free g = seqZ 0 (num (geo c)) /\
    (exists cp rest, slab_cache h' !! c = Some cp /\ slabs_notfull cp = sp :: rest) /\
    (forall a c', live G' a c' <-> live G a c') /\ (forall q, slab_page G' q -> slab_page G q \/ ~ pm_owned (hpm h) q) /\ grabbed h G h' G'
  else KRep None h' G /\ unspent h h' /\ (class_full h c -> no_room h c).

(** The pages are given back when there is no control part. *)
Lemma grow_undo_runs h h1 h2 G p n :
  KRep None h G -> kframe h h1 -> kframe h1 h2 -> KRep None h2 G -> pm_run (hpm h1) p n -> 1 <= n <= 1024 -> (forall x, p <= x < p + n -> ~ pm_owned (hpm h) x) ->
  (forall x, pm_owned (hpm h1) x -> p <= x < p + n \/ pm_owned (hpm h) x) -> pm_nfree (hpm h1) = pm_nfree (hpm h) - n -> unspent h1 h2 ->
  runs (on_hvm (free_pages pm p n)) h2 (fun _ h' => kframe h h' /\ KRep None h' G /\ unspent h h').
Proof.
  intros HK F1 F2 HK2 Hrun Hn Hfr Hback Hnf [Hub Hun]. pose proof (kframe_trans _ _ _ F1 F2) as (Hv&Hnp&Hown&Hruns). destruct F2 as (_&_&_&Hr2).
  eapply runs_mono; [apply (free_run_runs h2 p n); [apply HK2|apply HK2|done|by apply Hr2]|]. cbn beta. intros _ h' (->&HI&Hnp'&Hno'&Hown'&Hruns'&Hback'&Hnf').
  cbn [hvm set_hvm vpm set_vpm] in *.
  assert (Hrun' : forall q m, pm_run (hpm h) q m -> pm_run (hpm h') q m).
  { intros q m Hq. apply Hruns'; [by apply Hruns|]. intros x Hx Hxq. apply (Hfr x Hx). by eapply pm_run_owned. }
  assert (Hpg : forall x, pm_owned (hpm h) x -> pm_owned (hpm h') x /\ pages (hpm h') !! x = pages (hpm h) !! x).
  { intros x Hx. destruct (Hown x Hx) as [Hx2 Hp2]. destruct (Hown' x) as [? Hp']; [intros ?; by apply (Hfr x)|done|]. split; [done|congruence]. }
  split.
  - unfold kframe. cbn. split; [by rewrite Hv|]. split; [congruence|]. done.
  - split; [|split; [|cbn; lia]].
    2: { intros x Hx. cbn in Hx. destruct (Hback x (Hub x (Hback' x Hx))) as [Hin|]; [by destruct (Hno' x Hin)|done]. }
    eapply (KRep_frame None h2); try done.
    + intros s g Hg. apply Hrun', (k_slabs _ _ _ HK s g Hg).
    + intros q Hq. split; [done|]. split; [done|]. pose proof (slab_page_owned _ _ _ _ HK Hq) as Ho. cbn. destruct (Hpg q Ho) as [_ ->], (Hown q Ho) as [_ ->]. done.
Qed.

Lemma grow_link h h1 G c page sp h2 G2 cp s pc ps :
  let n := npg c in let g := mkG c page (seqZ 0 (num (geo c))) in
  let x := mkSlab (kva page + c_offset (geo c)) 0 (c_offset (geo c)) 0 (fresh_links (num (geo c))) in
  let h' := mkHeap (set_vpm s (hvm h2)) (<[c := set_notfull (sp :: slabs_notfull cp) cp]> (slab_cache h2)) (<[sp := x]> (slabs h2)) pc ps in
  is_class c -> kframe h h1 -> prepared h1 G c page sp h2 G2 -> pm_run (hpm h1) page n -> (forall x, page <= x < page + n -> ~ pm_owned (hpm h) x) ->
  (forall x, pm_owned (hpm h1) x -> page <= x < page + n \/ pm_owned (hpm h) x) ->
  (forall q, slab_page G q -> pm_owned (hpm h) q) -> slab_cache h2 !! c = Some cp ->
  marked true page n (hpm h2) s ->
  (forall q, pc !! q = if decide (page <= q < page + n) then Some c else page_cache h2 !! q) ->
  (forall q, ps !! q = if decide (page <= q < page + n) then Some sp else page_slab h2 !! q) ->
  grow_post h G c true h'.
Proof.
  intros n g x h' Hc F1 (HK2&F2&[Hgs Hgo]&Hsp&Hin&Hout&Hlive&Hpages) Hrun Hfr Hback HGo Hcp (HI&Hnp&Hown&Hruns&_&Hpg) Hpc Hps.
  pose proof (kframe_trans _ _ _ F1 F2) as (Hv&Hnp2&Ho2&Hr2). destruct F2 as (_&_&Hk2&Hrk2). pose proof (gs_num _ (geo_ok c Hc)).
  assert (Hdis : forall q, slab_page G2 q -> ~ page <= q < page + n).
  { intros q Hq Hin'. destruct (Hpages q Hq) as [Hq'|Hq']; [by apply (Hfr q Hin'), HGo|]. apply Hq'. by eapply pm_run_owned. }
  assert (Hok : SlabOk h' sp g).
  { split; cbn [g_cache g_page g_free g hvm vpm set_vpm h']; try done.
    - exists x. cbn [slabs h']. rewrite lookup_insert_eq. split_and!; try done.
      + apply fresh_chain. lia.
      + apply fresh_length. lia.
      + cbn [inuse x]. rewrite length_seqZ. lia.
    - split; [apply NoDup_seqZ|]. intros i Hi%elem_of_seqZ. lia.
    - by apply Hruns, Hrk2.
    - intros q Hq. unfold page_ok. cbn [page_cache page_slab hvm vpm set_vpm h']. unfold in_slab in Hq. cbn in Hq.
      rewrite Hpc, Hps, Hpg, !decide_True by done. split; [done|]. split; [done|].
      destruct (owned_pg (hpm h2) q) as [pg ->]; [apply HK2|apply (Hk2 q); by eapply pm_run_owned|]. eexists. split; [done|]. apply PageSlab_mark. }
  split.
  - split; [cbn; by rewrite Hv|]. split; [cbn; congruence|]. split; [|intros q m Hq; by apply Hruns, Hr2].
    intros y Hy. cbn. destruct (Ho2 y Hy) as [Hy2 <-]. rewrite <- (Hown y). split; [done|]. rewrite Hpg, decide_False; [done|]. intros ?. by apply (Hfr y).
  - exists sp, g, (<[sp := g]> G2). split.
    { apply (KRep_add h2 h' G2 sp g cp); try done.
      - intros t Ht. cbn. by rewrite lookup_insert_ne.
      - intros q Hq. cbn. rewrite Hpc, Hps, Hpg, !decide_False by (by apply Hdis). done. }
    split; [by rewrite lookup_insert_eq|]. split; [done|]. split; [done|]. split; [eexists _, _; cbn; rewrite lookup_insert_eq; done|]. split.
    + intros a c'. rewrite Hlive. unfold live. rewrite allocated_add, is_ctl_add by done. cbn [g_cache g]. destruct (off_slab (geo c)); intuition congruence.
    + split; [intros q [Hq|Hq]%slab_page_add; [| |done]|split].
      * destruct (Hpages q Hq) as [?|Hq']; [by left|]. right. intros Ho. by apply Hq', F1.
      * right. by apply Hfr.
      * intros q Hq. apply slab_page_add; [done|]. left. by apply Hgs.
      * intros q Hq. rewrite slab_page_add by done. cbn in Hq. apply Hown in Hq. destruct (Hgo q Hq) as [Hq1|]; [|by right; left].
        destruct (Hback q Hq1); [right; by right|by left].
Qed.

Lemma grow_runs alloc h G c :
  KRep None h G -> is_class c ->
  (off_slab (geo c) = true -> forall h1, KRep None h1 G -> runs (alloc (slab_cachep (geo c))) h1 (alloc_post h1 G (slab_cachep (geo c)))) ->
  runs (kmem_cache_grow pm alloc c) h (grow_post h G c).
Proof.
  intros HK Hc Hal. pose proof (gs_npg _ (geo_ok c Hc)) as Hn. pose proof (gs_num _ (geo_ok c Hc)).
  unfold kmem_cache_grow. runs_steps. eapply cache_runs; [exact HK|exact Hc|]. intros cp _ HL.
  destruct (lists_geo _ _ _ HL) as (_&_&Hnum&_&_&Hord&_). rewrite Hord. fold (npg c). runs_steps.
  eapply runs_mono; [apply (alloc_run_runs h (npg c)); [apply HK|apply HK|lia]|]. cbn beta. intros [page|] h1; [|intros [-> Hnf]; runs_steps; split; [by apply kframe_hvm|]; split; [done|]; split; [done|]; intros Hfull; split; [done|by left]].
  intros (Hh1&F1&HI1&Hrun&Hfr&Hback&Hnf). assert (HK1 : KRep None h1 G) by (eapply (KRep_kframe None h); [done|done|done|by rewrite Hh1..]).
  assert (Hop : pm_owned (hpm h1) page) by (eapply pm_run_owned; [exact Hrun|lia]).
  assert (Hns : ~ slab_page G page) by (intros Hs; apply (Hfr page); [lia|by eapply slab_page_owned]).
  runs_steps. eapply runs_mono; [apply (slabmgmt_runs alloc h1 G c page HK1 Hc); [by apply (pm_owned_page (hpm h1) page)|done|by intros He; apply Hal]|].
  cbn beta. intros [sp|] h2'.
  - intros (h2&G2&Hprep&->). destruct Hprep as [HK2 Hprep']. destruct (Hprep') as [F2 _]. runs_steps.
    eapply runs_mono; [apply (mark_pages_runs c sp (Z.to_nat (npg c)) page); [apply HK2|]|].
    { intros q Hq. cbn. apply F2. eapply pm_run_owned; [exact Hrun|lia]. }
    cbn beta. rewrite Z2Nat.id by lia. intros _ h3 (s&pc&ps&->&Hm&Hpc&Hps). cbn [hvm set_slabs slab_cache slabs page_cache page_slab] in *. runs_steps.
    eapply slab_runs; [cbn; apply lookup_insert_eq|]. runs_steps. unfold wr_slab. runs_steps. destruct (k_caches _ _ _ HK2 c Hc) as (cp2&Hcp2&_).
    eapply upd_cache_runs; [exact Hcp2|]. runs_steps. rewrite Hnum. cbn. rewrite insert_insert_eq.
    by apply (grow_link h h1 G c page sp h2 G2 cp2 s pc ps Hc F1 (conj HK2 Hprep') Hrun Hfr Hback (fun q Hq => slab_page_owned _ _ _ _ HK Hq) Hcp2 Hm Hpc Hps).
  - intros (HK2&F2&Hun&Hoff&Hfull&Hno). runs_steps. eapply runs_mono; [apply (grow_undo_runs h h1 h2' G page (npg c)); done || lia|]. cbn beta. intros _ h' (HF'&HK'&Hun').
    runs_steps. split; [done|]. split; [done|]. split; [done|]. intros Hcf. split; [done|]. right. split; [done|].
    destruct (gs_out _ (geo_ok c Hc) Hoff) as (_&Hoff'&_). split; [by rewrite Hh1 in Hfull|]. exists page, (hpm h1).
    split; [|split; [done|destruct Hno as [|[? _]]; [done|congruence]]].
    intros y. split; [apply Hback|]. intros [Hy|Hy]; [by eapply pm_run_owned|by apply F1].
Qed.

(** The first slab of the list has a free object. *)
Lemma alloc_head_runs fuel E h G sp rest c cp :
  KRep E h G -> is_class c -> slab_cache h !! c = Some cp -> slabs_notfull cp = sp :: rest -> (E = None \/ E = Some sp) ->
  runs (kmem_cache_alloc pm fuel c) h (fun r h' => exists a, r = Some a /\ alloc_post h G c r h').
Proof.
  intros HK Hc Hcp Hnf HE. destruct (k_caches _ _ _ HK c Hc) as (cp0&Hcp0&HL). assert (cp0 = cp) as -> by congruence.
  destruct (proj1 (lo_notfull _ _ _ HL sp)) as (g&Hg&<-&Hne); [rewrite Hnf; left|]. destruct (g_free g) as [|i l] eqn:Hl; [done|].
  assert (Hi : 0 <= i < num (ggeo g)) by (apply (so_free _ _ _ (k_slabs _ _ _ HK sp g Hg)); rewrite Hl; left).
  assert (Hrun : runs (let! o := kmem_cache_alloc_one (g_cache g) sp in ret (Some o)) h (fun r h' => exists a, r = Some a /\ alloc_post h G (g_cache g) r h')).
  { runs_steps. eapply runs_mono; [by apply (alloc_one_runs E h G sp g i l)|]. cbn beta. intros a h' (->&Hv&HK'). runs_steps.
    eexists. split; [done|]. split; [by apply kframe_hvm|]. eexists. split; [exact HK'|].
    assert (Hna : forall c', ~ allocated G (obj_addr g i) c').
    { intros c' (s&g0&j&Hg0&<-&Hj&Hnj&He). destruct (obj_inj E h G sp g i s g0 j HK Hg Hg0 Hi Hj He) as (_&->&->). apply Hnj. rewrite Hl. left. }
    assert (Hkey : forall a, is_ctl (<[sp := set_gfree l g]> G) a <-> is_ctl G a).
    { intros a. unfold is_ctl. destruct (decide (a = sp)) as [->|]; [rewrite lookup_insert_eq, Hg|by rewrite lookup_insert_ne].
      split; intros (?&[= <-]&?); by eexists. }
    split; [split; [|intros q Hq; left; by rewrite Hv in Hq]|split; [|split]].
    - intros q (s&g0&Hg0&Hq). destruct (decide (s = sp)) as [->|]; [exists sp, (set_gfree l g); rewrite lookup_insert_eq; split; [done|]; assert (g0 = g) as -> by congruence; done|].
      exists s, g0. by rewrite lookup_insert_ne.
    - intros a' c'. unfold live. rewrite Hkey, (allocated_pop E h G sp g i l) by done. split; [tauto|]. intros [[? ?]|[-> ->]]; [tauto|]. split; [by right|].
      intros (g0&Hg0&Hof). by apply (Hna (slab_cachep (ggeo g0))), (k_ctl _ _ _ HK).
    - intros c' [Ha _]. by apply (Hna c').
    - intros q (s&g0&Hg0&Hq). left. destruct (decide (s = sp)) as [->|]; [rewrite lookup_insert_eq in Hg0; apply (inj Some) in Hg0 as <-; by exists sp, g|].
      rewrite lookup_insert_ne in Hg0 by done. by exists s, g0. }
  destruct fuel; cbn [kmem_cache_alloc]; apply runs_bind; unfold rd_cache; runs_steps; (eapply runs_deref; [exact Hcp|]); rewrite Hnf; done.
Qed.

Lemma alloc_step_runs fuel h G c :
  KRep None h G -> is_class c ->
  (off_slab (geo c) = true -> forall h1, KRep None h1 G -> runs (kmem_cache_alloc pm fuel (slab_cachep (geo c))) h1 (alloc_post h1 G (slab_cachep (geo c)))) ->
  runs (kmem_cache_alloc pm (S fuel) c) h (alloc_post h G c).
Proof.
  intros HK Hc Hal. destruct (k_caches _ _ _ HK c Hc) as (cp&Hcp&HL). destruct (slabs_notfull cp) as [|sp rest] eqn:Hnf.
  - cbn [kmem_cache_alloc]. runs_steps. unfold rd_cache. runs_steps. eapply runs_deref; [exact Hcp|]. rewrite Hnf. runs_steps.
    eapply runs_mono; [by apply (grow_runs _ h G c)|]. cbn beta. intros [] h1 [F1 HP]; [|runs_steps; destruct HP as (?&?&Hno); split; [done|]; split; [done|]; split; [done|]; apply Hno; by exists cp].
    destruct HP as (sp&g&G1&HK1&_&_&_&(cp1&rest&Hcp1&Hnf1)&Hlive&Hsp&Hgr).
    eapply runs_mono; [eapply (alloc_head_runs fuel (Some sp) h1 G1 sp rest c cp1); by (done || right)|]. cbn beta.
    intros r h2 (a&->&F2&G2&HK2&Hgr2&Hl2&Hnl&Hsp2). split; [by eapply kframe_trans|]. exists G2. split; [done|]. split; [by eapply grabbed_trans|]. split; [intros a' c'; by rewrite Hl2, Hlive|].
    split; [intros c'; rewrite <- Hlive; apply Hnl|]. intros q Hq. destruct (Hsp2 q Hq) as [Hq1|Hq1]; [by apply Hsp|]. right. intros Ho. by apply Hq1, F1.
  - eapply runs_mono; [eapply (alloc_head_runs (S fuel) None h G sp rest c cp); by (done || left)|]. cbn beta. by intros r h' (a&_&HP).
Qed.

(** One level for slabs with the control part inside, two for the others. *)
Lemma kmem_cache_alloc_runs h G c : KRep None h G -> is_class c -> runs (kmem_cache_alloc pm 2 c) h (alloc_post h G c).
Proof.
  intros HK Hc. apply alloc_step_runs; [done|done|]. intros He h1 HK1. destruct (gs_out _ (geo_ok c Hc) He) as (Hc'&He'&_).
  apply alloc_step_runs; [done|done|]. congruence.
Qed.

(** ** Freeing *)

(** The block [a] of class [c] is given back. *)
Definition free_post h G (a c : Z) h' : Prop :=
  hvm h' = set_vpm (hpm h') (hvm h) /\ npage (hpm h') = npage (hpm h) /\
  (forall x, pm_owned (hpm h) x -> ~ slab_page G x -> pm_owned (hpm h') x /\ pages (hpm h') !! x = pages (hpm h) !! x) /\
  (forall q m, pm_run (hpm h) q m -> (forall x, q <= x < q + m -> ~ slab_page G x) -> pm_run (hpm h') q m) /\
  exists G', KRep None h' G' /\ (forall a' c', live G' a' c' <-> live G a' c' /\ a' <> a) /\ (forall q, slab_page G' q -> slab_page G q).

(** The last object in use of a slab. *)
Definition last_object G (sp : Z) g (i : Z) : Prop :=
  G !! sp = Some g /\ 0 <= i < num (ggeo g) /\ (i ∉ g_free g) /\ Z.of_nat (length (g_free g)) + 1 = num (ggeo g).

Lemma last_object_only E h G sp g i j : KRep E h G -> last_object G sp g i -> 0 <= j < num (ggeo g) -> j ∉ g_free g -> j = i.
Proof.
  intros HK (Hg&Hi&Hni&Hlen) Hj Hnj. destruct (decide (j = i)) as [|Hne]; [done|]. exfalso. destruct (so_free _ _ _ (k_slabs _ _ _ HK sp g Hg)) as [Hnd Hrg].
  assert (Hle : (length (j :: i :: g_free g) <= length (seqZ 0 (num (ggeo g))))%nat); [|rewrite length_seqZ in Hle; cbn [length] in Hle; lia].
  apply submseteq_length, NoDup_submseteq; [rewrite !NoDup_cons, not_elem_of_cons; done|].
  intros k. rewrite !elem_of_cons. intros [-> | [-> | Hk]]; apply elem_of_seqZ; [lia|lia|]. specialize (Hrg k Hk). lia.
Qed.

Lemma allocated_delete E h G sp g i a c :
  KRep E h G -> last_object G sp g i -> (allocated (delete sp G) a c <-> allocated G a c /\ a <> obj_addr g i).
Proof.
  intros HK Hlast. pose proof Hlast as (Hg&Hi&Hni&_). split.
  - intros (s&g0&j&Hg0&<-&Hj&Hnj&->). apply lookup_delete_Some in Hg0 as [Hne Hg0]. split; [by exists s, g0, j|]. intros He.
    by destruct (obj_inj E h G s g0 j sp g i HK Hg0 Hg Hj Hi He) as [-> _].
  - intros [(s&g0&j&Hg0&<-&Hj&Hnj&->) Hne]. exists s, g0, j. split; [|done]. rewrite lookup_delete_ne; [done|]. intros ->. assert (g0 = g) as -> by congruence.
    apply Hne. f_equal. by eapply last_object_only.
Qed.

(** Deleting the slab: its control part, if it is elsewhere, is then a block of its own. *)
Lemma live_delete E h G sp g i a c :
  KRep E h G -> last_object G sp g i ->
  (live (delete sp G) a c <-> (live G a c /\ a <> obj_addr g i) \/ (a = sp /\ off_slab (ggeo g) = true /\ c = slab_cachep (ggeo g) /\ a <> obj_addr g i)).
Proof.
  intros HK Hlast. pose proof Hlast as (Hg&_). unfold live. rewrite (allocated_delete E h G sp g i) by done.
  assert (Hct : is_ctl (delete sp G) a <-> is_ctl G a /\ a <> sp).
  { unfold is_ctl. setoid_rewrite lookup_delete_Some. split; [intros (?&(?&?)&?); split; [by eexists|done]|]. intros [(?&?&?) ?]. by eexists. }
  rewrite Hct. split.
  - intros [[Ha Hne] Hn]. destruct (decide (a = sp)) as [->|]; [|left; tauto]. destruct (off_slab (ggeo g)) eqn:Ho.
    + right. split; [done|]. split; [done|]. split; [|done]. eapply (allocated_class E h G); [done|exact Ha|by apply (k_ctl _ _ _ HK)].
    + exfalso. destruct Ha as (s&g0&j&Hg0&<-&Hj&_&He). rewrite He in Hg. rewrite (obj_not_slab E h G s g0 j g HK Hg0 Hj Hg) in Ho. done.
  - intros [[[? ?] ?]|(->&Ho&->&Hne)]; [tauto|]. split; [split; [by apply (k_ctl _ _ _ HK)|done]|tauto].
Qed.

Lemma KRep_delete h h' G sp g i cp :
  KRep None h G -> last_object G sp g i -> ~ is_ctl G (obj_addr g i) -> slab_cache h !! g_cache g = Some cp ->
  pm_inv (hpm h') -> npage (hpm h') = npage (hpm h) -> status (hvm h') = status (hvm h) ->
  slab_cache h' = <[g_cache g := set_full (ldel sp (slabs_full cp)) (set_notfull (ldel sp (slabs_notfull cp)) cp)]> (slab_cache h) ->
  (forall s, s <> sp -> slabs h' !! s = slabs h !! s) ->
  (forall s g0, delete sp G !! s = Some g0 -> pm_run (hpm h') (g_page g0) (gnpg g0)) ->
  (forall q, slab_page (delete sp G) q -> page_cache h' !! q = page_cache h !! q /\ page_slab h' !! q = page_slab h !! q /\ pages (hpm h') !! q = pages (hpm h) !! q) ->
  KRep None h' (delete sp G).
Proof.
  intros HK Hlast Hnc Hcp HI' Hn' Hst' Hc Hs Hr Hq. pose proof Hlast as (Hg&_). pose proof HK as [HI Hn Hst Hca Hsl Hu Hctl]. split; rewrite ?Hn', ?Hst'; try done.
  - intros c Hcl. rewrite Hc. destruct (Hca c Hcl) as (cp0&Hcp0&HL). destruct (decide (c = g_cache g)) as [->|Hne].
    + rewrite lookup_insert_eq. eexists. split; [done|]. assert (cp0 = cp) as -> by congruence. by apply ListsOk_delete.
    + rewrite lookup_insert_ne by done. exists cp0. split; [done|]. by eapply ListsOk_delete_other.
  - intros s g0 Hg0. pose proof Hg0 as [Hne Hg0']%lookup_delete_Some. eapply (SlabOk_frame h); [by apply Hsl|by apply Hs|by eapply Hr|].
    intros q Hin. apply Hq. by exists s, g0.
  - intros s g0 [_ Hg0]%lookup_delete_Some _. by apply (Hu s).
  - intros s g0 [_ Hg0]%lookup_delete_Some Ho. apply (allocated_delete None h G sp g i); [done|done|]. split; [by apply Hctl|]. intros ->. apply Hnc. by exists g0.
Qed.

(** [kmem_slab_destroy], from the state in which [kmem_cache_free_one] calls it: the slab
    is unlinked and its record is [x]. *)
Lemma destroy_runs free h h1 G sp g i cp x :
  KRep None h G -> last_object G sp g i -> ~ is_ctl G (obj_addr g i) -> slab_cache h !! g_cache g = Some cp -> ListsOk G (g_cache g) cp ->
  touched h h1 (g_cache g) sp (set_full (ldel sp (slabs_full cp)) (set_notfull (ldel sp (slabs_notfull cp)) cp)) x ->
  s_mem x = kva (g_page g) + c_offset (ggeo g) -> s_offset x = c_offset (ggeo g) ->
  (off_slab (ggeo g) = true -> forall h2 G2, KRep None h2 G2 -> live G2 sp (slab_cachep (ggeo g)) ->
     runs (free (slab_cachep (ggeo g)) sp) h2 (fun _ h' => free_post h2 G2 sp (slab_cachep (ggeo g)) h')) ->
  runs (kmem_slab_destroy pm free (g_cache g) sp) h1 (fun _ h' => free_post h G (obj_addr g i) (g_cache g) h').
Proof.
  intros HK Hlast Hnc Hcp HL (Hv&Hpc&Hps&Hs&Hc) Hm Ho Hfree. pose proof Hlast as (Hg&Hi&Hni&_). pose proof (k_slabs _ _ _ HK sp g Hg) as Hso.
  pose proof (geo_ok _ (so_class _ _ _ Hso)) as Hgo. pose proof (gs_npg _ Hgo) as Hn. destruct (lists_geo _ _ _ HL) as (_&_&_&_&Hoff&Hord&Hsc).
  assert (Hpage : in_slab g (g_page g)) by (unfold in_slab; lia). pose proof (in_slab_bound None h G sp g _ HK Hg Hpage) as Hb. pose proof (k_npage _ _ _ HK) as Hnp.
  unfold kmem_slab_destroy, rd_cache. runs_steps. eapply runs_deref; [rewrite Hc; apply lookup_insert_eq|]. runs_steps. eapply slab_runs; [rewrite Hs; apply lookup_insert_eq|].
  runs_steps. replace (u32 (s_mem x - s_offset x)) with (kva (g_page g) + 0) by (rewrite Hm, Ho, u32_small; [lia|addr; lia]).
  apply kva2page_runs; [by rewrite Hv|by rewrite Hv|lia|]. cbn [page_order off_slab slab_cachep set_full set_notfull]. rewrite Hord, Hoff, Hsc. fold (npg (g_cache g)). runs_steps.
  eapply runs_mono; [apply unmark_pages_runs|]; [rewrite Hv; apply HK| |].
  { rewrite Z2Nat.id by lia. rewrite Hv. intros q Hq. split; [by eapply in_slab_owned|]. by destruct (so_pages _ _ _ Hso q Hq) as (_&_&?). }
  cbn beta. rewrite Z2Nat.id by lia. intros _ h2 (s&->&HI2&Hnp2&Hown2&Hruns2&_&Hpg2). rewrite Hv in *. runs_steps.
  eapply runs_mono; [apply free_run_runs; cbn [hvm set_hvm vpm set_vpm status]; [done|apply HK|lia|by apply Hruns2, Hso]|]. cbn beta.
  intros _ h3 (->&HI3&Hnp3&Hno3&Hown3&Hruns3&_). cbn [hvm set_hvm vpm set_vpm] in *. runs_steps.
  set (h4 := set_slabs _ _).
  assert (Hdis : forall q, slab_page (delete sp G) q -> ~ in_slab g q).
  { intros q (t&g0&[Hne Hg0]%lookup_delete_Some&Hq) Hq'. by destruct (in_slab_inj None h G sp g t g0 q HK Hg Hg0 Hq' Hq). }
  assert (Hkeep : forall y, pm_owned (hpm h) y -> ~ in_slab g y -> pm_owned (hpm h3) y /\ pages (hpm h3) !! y = pages (hpm h) !! y).
  { intros y Hy Hny. destruct (Hown3 y) as [? ->]; [done|by apply Hown2|]. split; [done|]. rewrite Hpg2, decide_False by done. done. }
  assert (Hkr : forall q m, pm_run (hpm h) q m -> (forall y, q <= y < q + m -> ~ in_slab g y) -> pm_run (hpm h3) q m).
  { intros q m Hq Hd. apply Hruns3; [by apply Hruns2|]. intros y Hy Hy'. by apply (Hd y). }
  assert (Hsub : forall q, slab_page (delete sp G) q -> slab_page G q) by (intros q (t&g0&[_ Hg0]%lookup_delete_Some&?); by exists t, g0).
  assert (HK4 : KRep None h4 (delete sp G)).
  { apply (KRep_delete h h4 G sp g i cp); try done; unfold h4; cbn.
    - congruence.
    - intros t Ht. rewrite lookup_delete_ne, Hs, lookup_insert_ne by done. done.
    - intros t g0 Hg0. pose proof Hg0 as [Hne Hg0']%lookup_delete_Some. apply Hkr; [apply (k_slabs _ _ _ HK t g0 Hg0')|]. intros y Hy. apply Hdis. by exists t, g0.
    - intros q Hq. rewrite Hpc, Hps. split; [done|]. split; [done|]. apply Hkeep; [by eapply slab_page_owned, Hsub|by apply Hdis]. }
  assert (Hnotin : forall y, ~ slab_page G y -> ~ in_slab g y) by (intros y Hy Hin; apply Hy; by exists sp, g).
  assert (Hv4 : hvm h4 = set_vpm (hpm h3) (hvm h)) by (unfold h4; cbn; by rewrite ?Hv).
  destruct (off_slab (ggeo g)) eqn:Hof.
  - assert (Hne : sp <> obj_addr g i) by (intros He; apply Hnc; exists g; by rewrite <- He).
    eapply runs_mono; [apply (Hfree eq_refl h4 (delete sp G) HK4), (live_delete None h G sp g i _ _ HK Hlast); by right|]. cbn beta.
    intros _ h5 (Hv5&Hnp5&Hown5&Hruns5&G5&HK5&Hl5&Hsp5). rewrite Hv4 in *. cbn [vpm set_vpm npage] in *. split; [by rewrite Hv5|]. split; [congruence|]. split; [|split].
    + intros y Hy Hny. destruct (Hkeep y Hy (Hnotin y Hny)) as [? <-]. apply Hown5; [done|]. intros Hs'. by apply Hny, Hsub.
    + intros q m Hq Hd. apply Hruns5; [apply Hkr; [done|]|]; intros y Hy; [by apply Hnotin, Hd|]. intros Hs'. by apply (Hd y Hy), Hsub.
    + exists G5. split; [done|]. split; [|auto]. intros a' c'. rewrite Hl5, (live_delete None h G sp g i _ _ HK Hlast). split; [|intros [Hla ?]; split; [left; done|]; intros ->; destruct Hla as [_ Hnc']; apply Hnc'; by exists g].
      intros [[?|(->&_)] ?]; done.
  - runs_steps. split; [by rewrite Hv4|]. split; [rewrite Hv4; cbn; congruence|]. rewrite Hv4. cbn [vpm set_vpm]. split; [auto|]. split; [eauto|].
    exists (delete sp G). split; [done|]. split; [|done]. intros a' c'. rewrite (live_delete None h G sp g i _ _ HK Hlast), Hof. intuition congruence.
Qed.

(** [(objp - slabp->s_mem) >> objsize_shift] is the index of the object. *)
Lemma objnr_spec E h G sp g i :
  KRep E h G -> G !! sp = Some g -> 0 <= i < num (ggeo g) ->
  Z.shiftr (u32 (obj_addr g i - (kva (g_page g) + c_offset (ggeo g)))) (objsize_shift (ggeo g)) = i.
Proof.
  intros HK Hg Hi. pose proof (geo_ok _ (so_class _ _ _ (k_slabs _ _ _ HK sp g Hg))) as Hgo. pose proof (so_class _ _ _ (k_slabs _ _ _ HK sp g Hg)) as Hc. unfold is_class in Hc.
  pose proof (gs_fit _ Hgo). pose proof (gs_npg _ Hgo). destruct (gs_off _ Hgo), (gs_obj _ Hgo). rewrite (gs_shift _ Hgo), Z.shiftr_div_pow2, <- (gs_size _ Hgo) by lia.
  unfold obj_addr. rewrite u32_small by (unfold is_u32, W32; nia). replace (_ - _) with (i * objsize (ggeo g)) by lia. apply Z.div_mul. lia.
Qed.

Lemma free_post_relink h h' G sp g i :
  KRep None h G -> G !! sp = Some g -> 0 <= i < num (ggeo g) -> i ∉ g_free g -> hvm h' = hvm h ->
  KRep None h' (<[sp := set_gfree (i :: g_free g) g]> G) -> free_post h G (obj_addr g i) (g_cache g) h'.
Proof.
  intros HK Hg Hi Hni Hv HK'. unfold free_post. rewrite Hv. split; [by destruct (hvm h)|]. split; [done|]. split; [done|]. split; [done|].
  eexists. split; [exact HK'|]. split.
  - intros a c. unfold live. rewrite (allocated_push None h) by done.
    assert (Hkey : is_ctl (<[sp := set_gfree (i :: g_free g) g]> G) a <-> is_ctl G a); [|rewrite Hkey; tauto].
    unfold is_ctl. destruct (decide (a = sp)) as [->|]; [rewrite lookup_insert_eq, Hg|by rewrite lookup_insert_ne]. split; intros (?&[= <-]&?); by eexists.
  - intros q (s&g0&Hg0&Hq). destruct (decide (s = sp)) as [->|]; [rewrite lookup_insert_eq in Hg0; apply (inj Some) in Hg0 as <-; by exists sp, g|].
    rewrite lookup_insert_ne in Hg0 by done. by exists s, g0.
Qed.

Lemma free_one_runs free h G sp g i :
  KRep None h G -> G !! sp = Some g -> 0 <= i < num (ggeo g) -> i ∉ g_free g -> ~ is_ctl G (obj_addr g i) ->
  (off_slab (ggeo g) = true -> forall h2 G2, KRep None h2 G2 -> live G2 sp (slab_cachep (ggeo g)) ->
     runs (free (slab_cachep (ggeo g)) sp) h2 (fun _ h' => free_post h2 G2 sp (slab_cachep (ggeo g)) h')) ->
  runs (kmem_cache_free_one pm free (g_cache g) sp (obj_addr g i)) h (fun _ h' => free_post h G (obj_addr g i) (g_cache g) h').
Proof.
  intros HK Hg Hi Hni Hnc Hfree. pose proof (k_slabs _ _ _ HK sp g Hg) as [Hc (x&Hx&Hm&Ho&Hch&Hlen&Hin) [Hnd Hrg] _ _ _].
  pose proof (geo_ok _ Hc) as Hgo. pose proof (gs_num _ Hgo).
  assert (Hcnt : Z.of_nat (length (g_free g)) + 1 <= num (ggeo g)) by (pose proof (k_used _ _ _ HK sp g Hg ltac:(done)); lia).
  unfold kmem_cache_free_one. runs_steps. eapply cache_runs; [exact HK|exact Hc|]. intros cp Hcp HL. destruct (lists_geo _ _ _ HL) as (_&Hsh&Hnum&_).
  runs_steps. eapply slab_runs; [exact Hx|]. runs_steps. rewrite Hm, Hsh, (objnr_spec None h G sp g i HK Hg Hi), Hnum.
  destruct (lookup_lt_is_Some_2 (bufctl x) (Z.to_nat i)) as [v Hv]; [lia|]. eapply runs_deref; [exact Hv|]. runs_steps. unfold wr_slab. runs_steps.
  rewrite Hin, !u32_small by (unfold is_u32, W32; lia). set (k := num (ggeo g) - Z.of_nat (length (g_free g)) - 1). set (x' := mkSlab _ k _ i _).
  assert (Hrep : forall h' cp', touched h h' (g_cache g) sp cp' x' -> ListsOk (<[sp := set_gfree (i :: g_free g) g]> G) (g_cache g) cp' -> k <> 0 ->
            free_post h G (obj_addr g i) (g_cache g) h').
  { intros h' cp' Ht HL' Hk. apply (free_post_relink h h' G sp); try done; [apply Ht|].
    eapply KRep_relink; [exact HK|exact Hg|exact Ht| | | |exact HL'| |done|].
    - unfold links_ok, x'. cbn [s_mem s_offset s_free bufctl inuse length]. rewrite length_insert. split_and!; try done; [|subst k; lia].
      split; [done|]. exists (s_free x). rewrite list_lookup_insert_eq by lia. split; [done|]. apply chain_insert; [done|].
      rewrite list_elem_of_fmap. intros (j&He&Hj). apply Hni. specialize (Hrg j Hj). by replace i with j by lia.
    - by apply NoDup_cons.
    - intros j [-> | Hj]%elem_of_cons; [done|by apply Hrg].
    - intros _. cbn [length]. subst k. lia.
    - intros s g0 Hg0 Hof. apply (allocated_push None h); try done. split; [by apply (k_ctl _ _ _ HK)|]. intros ->. apply Hnc. by exists g0. }
  destruct (Z.eqb_spec k 0) as [Hk|Hk]; [|destruct (Z.eqb_spec k (num (ggeo g) - 1)) as [Hk'|Hk']].
  - runs_steps. eapply upd_cache_runs; [exact Hcp|]. eapply (destroy_runs free h); try done. split; [done|]. split; [done|]. split; [done|]. subst k. lia.
  - eapply upd_cache_runs; [exact Hcp|]. eapply Hrep; [done| |done].
    pose proof (ListsOk_move G sp (set_gfree (i :: g_free g) g) (g_cache g) cp HL ltac:(by intros ? [= <-]%(eq_trans (eq_sym Hg))) ltac:(done)) as HM.
    cbn zeta in HM. by rewrite bool_decide_false in HM by done.
  - runs_steps. apply (Hrep _ cp); [|apply (ListsOk_keep G sp g); try done|done].
    + unfold touched. cbn. by rewrite (insert_id (slab_cache h)).
    + cbn. split; [|done]. intros He. subst k. rewrite He in Hk'. cbn in Hk'. lia.
Qed.

(** The first step finds the slab through the page of the block. *)
Lemma free_step_runs fuel h G a c :
  KRep None h G -> live G a c ->
  (off_slab (geo c) = true -> forall h2 G2 sp, KRep None h2 G2 -> live G2 sp (slab_cachep (geo c)) ->
     runs (match fuel with O => fun _ _ => nofuel | S fuel => kmem_cache_free pm fuel end (slab_cachep (geo c)) sp) h2 (fun _ h' => free_post h2 G2 sp (slab_cachep (geo c)) h')) ->
  runs (kmem_cache_free pm fuel c a) h (fun _ h' => free_post h G a c h').
Proof.
  intros HK [(sp&g&i&Hg&<-&Hi&Hni&->) Hnc] Hfree. destruct (obj_page None h G sp g i HK Hg Hi) as (q&r&He&Hr&Hq).
  pose proof (in_slab_bound None h G sp g q HK Hg Hq) as Hb. destruct (so_pages _ _ _ (k_slabs _ _ _ HK sp g Hg) q Hq) as (_&Hs&pg&Hpg&Hfl).
  assert (Hrun : runs (let! page := on_hvm (kva2page (obj_addr g i)) in let! pg := on_hvm (on_pmm (rd_page page)) in
    if negb (PageSlab pg) then panic else let! h := get in let! sp := deref (page_slab h !! page) in
      kmem_cache_free_one pm (match fuel with O => fun _ _ => nofuel | S fuel => kmem_cache_free pm fuel end) (g_cache g) sp (obj_addr g i)) h
    (fun _ h' => free_post h G (obj_addr g i) (g_cache g) h')).
  { runs_steps. rewrite He at 1. apply kva2page_runs; [done|apply HK|done|]. runs_steps. unfold on_hvm, on_pmm, rd_page. runs_steps. eapply runs_deref; [exact Hpg|].
    runs_steps. replace (set_hvm _ h) with h by (by destruct h as [[]]). rewrite Hfl. cbn [negb]. runs_steps. eapply runs_deref; [exact Hs|].
    eapply free_one_runs; try done. intros Hof h2 G2. by apply Hfree. }
  destruct fuel; exact Hrun.
Qed.

Lemma kmem_cache_free_runs h G a c : KRep None h G -> live G a c -> runs (kmem_cache_free pm 1 c a) h (fun _ h' => free_post h G a c h').
Proof.
  intros HK Hl. assert (Hc : is_class c) by (destruct Hl as [(sp&g&i&Hg&<-&_) _]; apply (k_slabs _ _ _ HK sp g Hg)).
  apply (free_step_runs _ h G); [done|done|]. intros Hof h2 G2 sp HK2 Hl2. apply free_step_runs; [done|done|].
  destruct (gs_out _ (geo_ok c Hc) Hof) as (_&He&_). congruence.
Qed.

(** ** The heap of blocks *)

(** [L]: the blocks that clients hold, with their classes. *)
Definition HeapRep h (L : gmap Z Z) : Prop := exists G, KRep None h G /\ forall a c, L !! a = Some c <-> live G a c.

(** Pages that are not the allocator's stay as they are. *)
Definition others_same h h' : Prop :=
  hvm h' = set_vpm (hpm h') (hvm h) /\
  forall x pg, pm_owned (hpm h) x -> pages (hpm h) !! x = Some pg -> PageSlab pg = false -> pm_owned (hpm h') x /\ pages (hpm h') !! x = Some pg.

Lemma size_order_loop_runs k : forall n o h, 0 < n <= 2 ^ (o + Z.of_nat k - 1) -> 0 <= o -> (k > 0)%nat -> (o = 5 \/ 2 ^ (o - 1) < n) ->
  runs (size_order_loop k n o) h (fun r h' => h' = h /\ o <= r < o + Z.of_nat k /\ n <= 2 ^ r /\ (r = 5 \/ 2 ^ (r - 1) < n)).
Proof.
  induction k as [|k IH]; intros n o h Hn Ho Hk Hlow; [lia|]. cbn [size_order_loop]. rewrite Z.shiftl_1_l. destruct (Z.leb_spec n (2 ^ o)).
  - runs_steps. split; [done|]. split; [lia|]. done.
  - destruct k as [|k]; [replace (o + Z.of_nat 1 - 1) with o in Hn by lia; lia|].
    eapply runs_mono; [apply IH; [by replace (o + 1 + Z.of_nat (S k) - 1) with (o + Z.of_nat (S (S k)) - 1) by lia|lia|lia|right; by replace (o + 1 - 1) with o by lia]|].
    cbn beta. intros r h' (?&?&?&?). split; [done|]. split; [lia|]. done.
Qed.

Lemma size_order_runs n h : 0 < n <= 131072 ->
  runs (size_order n) h (fun r h' => h' = h /\ 5 <= r <= 17 /\ n <= 2 ^ r /\ (r = 5 \/ 2 ^ (r - 1) < n)).
Proof.
  intros Hn. unfold size_order. eapply runs_mono; [apply size_order_loop_runs; [exact Hn|done|vm_compute; lia|by left]|]. cbn beta.
  intros r h' (?&Hr&?&?). change (Z.of_nat (Z.to_nat SLAB_CACHE_NUM)) with 13 in Hr. unfold MIN_SIZE_ORDER in Hr. split; [done|]. split; [lia|done].
Qed.

Lemma kframe_others h h' : kframe h h' -> others_same h h'.
Proof. intros (Hv&_&Ho&_). split; [done|]. intros x pg Hx Hp _. destruct (Ho x Hx) as [? ->]. done. Qed.

Lemma heap_kmalloc_runs h L size :
  HeapRep h L -> 0 < size <= 131072 ->
  runs (kmalloc pm size) h (fun r h' => kframe h h' /\
    exists c, is_class c /\ size <= 2 ^ (c + 5) /\ (c = 0 \/ 2 ^ (c + 4) < size) /\
    match r with
    | None => HeapRep h' L /\ unspent h h' /\ no_room h c
    | Some a => L !! a = None /\ HeapRep h' (<[a := c]> L) /\
        forall q, pm_owned (hpm h') q -> pm_owned (hpm h) q \/ exists pg, pages (hpm h') !! q = Some pg /\ PageSlab pg = true
    end).
Proof.
  intros (G&HK&HL) Hs. unfold kmalloc. runs_steps. apply runs_assert; [lia|]. runs_steps. eapply runs_mono; [by apply size_order_runs|]. cbn beta.
  intros o h0 (->&Ho&Hle&Hlow). destruct (Z.ltb_spec MAX_SIZE_ORDER o); [unfold MAX_SIZE_ORDER in *; lia|].
  assert (Hc : is_class (o - MIN_SIZE_ORDER)) by (unfold is_class, SLAB_CACHE_NUM, MAX_SIZE_ORDER, MIN_SIZE_ORDER; lia).
  eapply runs_mono; [by apply (kmem_cache_alloc_runs h G)|]. cbn beta. intros r h' [HF HP]. split; [done|]. exists (o - MIN_SIZE_ORDER). split; [done|].
  unfold MIN_SIZE_ORDER in *. replace (o - 5 + 5) with o by lia. replace (o - 5 + 4) with (o - 1) by lia.
  split; [done|]. split; [destruct Hlow; [left; lia|by right]|]. destruct r as [a|]; [|destruct HP as (?&?&?); split; [by exists G|done]].
  destruct HP as (G'&HK'&[_ Hgr]&Hl&Hnl&_). assert (HLa : L !! a = None).
  { destruct (L !! a) as [c|] eqn:Hla; [|done]. exfalso. apply (Hnl c). by apply HL. }
  split; [done|]. split.
  2: { intros q Hq. destruct (Hgr q Hq) as [|(sp&g&Hg&Hin)]; [by left|right]. by apply (so_pages _ _ _ (k_slabs _ _ _ HK' sp g Hg) q Hin). }
  exists G'. split; [done|]. intros b c. rewrite Hl, <- HL, lookup_insert_Some. destruct (decide (a = b)) as [<-|]; [rewrite HLa|]; intuition congruence.
Qed.

Lemma kfree_runs h L a c :
  HeapRep h L -> L !! a = Some c -> runs (kfree pm a) h (fun _ h' => others_same h h' /\ HeapRep h' (delete a L)).
Proof.
  intros (G&HK&HL) Ha. apply HL in Ha. pose proof Ha as [(sp&g&i&Hg&Hc&Hi&_&He) _]. rewrite <- Hc in Hi. destruct (obj_page None h G sp g i HK Hg Hi) as (q&r&He'&Hr&Hq).
  pose proof (in_slab_bound None h G sp g q HK Hg Hq) as Hb. destruct (so_pages _ _ _ (k_slabs _ _ _ HK sp g Hg) q Hq) as (Hpc&_).
  unfold kfree. runs_steps. rewrite He at 1. rewrite He'. apply kva2page_runs; [done|apply HK|done|]. runs_steps. eapply runs_deref; [exact Hpc|]. rewrite Hc.
  eapply runs_mono; [by apply (kmem_cache_free_runs h G)|]. cbn beta. intros _ h' (Hv&_&Ho&_&G'&HK'&Hl&_). split.
  - split; [done|]. intros x pg Hx Hp Hns. rewrite <- Hp. apply Ho; [done|]. intros (s&g0&Hg0&Hx0).
    destruct (so_pages _ _ _ (k_slabs _ _ _ HK s g0 Hg0) x Hx0) as (_&_&pg'&Hp'&?). congruence.
  - exists G'. split; [done|]. intros b d. rewrite lookup_delete_Some, Hl, <- HL. intuition congruence.
Qed.

(** An empty heap has no slab. *)
Lemma no_live_no_slab h G : KRep None h G -> (forall a c, ~ live G a c) -> G = ∅.
Proof.
  intros HK Hno.
  assert (Hall : forall sp g, G !! sp = Some g -> exists i, 0 <= i < num (ggeo g) /\ i ∉ g_free g).
  { intros sp g Hg. pose proof (k_used _ _ _ HK sp g Hg ltac:(done)) as Hu. destruct (decide (Exists (fun i => i ∉ g_free g) (seqZ 0 (num (ggeo g))))) as [Hex|Hex].
    - apply Exists_exists in Hex as (i&Hi%elem_of_seqZ&?). exists i. split; [lia|done].
    - exfalso. assert (Hle : (length (seqZ 0 (num (ggeo g))) <= length (g_free g))%nat); [|rewrite length_seqZ in Hle; lia].
      apply submseteq_length, NoDup_submseteq; [apply NoDup_seqZ|]. intros i Hi. destruct (decide (i ∈ g_free g)); [done|]. exfalso. apply Hex, Exists_exists. by exists i. }
  assert (Hoff : forall sp g, G !! sp = Some g -> off_slab (ggeo g) = false).
  { intros sp g Hg. destruct (off_slab (ggeo g)) eqn:Hof; [|done]. exfalso. destruct (Hall sp g Hg) as (i&Hi&Hni).
    apply (Hno (obj_addr g i) (g_cache g)). split; [by exists sp, g, i|]. intros (g'&Hg'&Hof').
    destruct (k_ctl _ _ _ HK _ _ Hg' Hof') as (s&g2&j&Hg2&Hc2&Hj&_&He). rewrite <- Hc2 in Hj. destruct (obj_inj None h G sp g i s g2 j HK Hg Hg2 Hi Hj He) as (_&<-&_).
    destruct (gs_out _ (geo_ok _ (so_class _ _ _ (k_slabs _ _ _ HK _ _ Hg'))) Hof') as (_&Hf&_). rewrite <- Hc2 in Hf. congruence. }
  apply map_empty. intros sp. destruct (G !! sp) as [g|] eqn:Hg; [|done]. exfalso. destruct (Hall sp g Hg) as (i&Hi&Hni).
  apply (Hno (obj_addr g i) (g_cache g)). split; [by exists sp, g, i|]. intros (g'&Hg'&Hof'). rewrite (Hoff _ _ Hg') in Hof'. done.
Qed.

(** C21: a block of [kmalloc] is of the smallest class that fits and is not one that a
    client already holds; the blocks that were held still are, every page that was
    handed out is as it was, and every page taken from the page allocator is in a slab.
    NULL comes only when no slab of the class has a free object and a new slab cannot
    be made, because the page allocator has no room for its pages or, with these taken,
    for the slab that is to hold its control part, which is full as well; then nothing
    changes, and no page stays taken. *)
Theorem kmalloc_correct h L size :
  HeapRep h L -> 0 < size <= 131072 ->
  runs (kmalloc pm size) h (fun r h' => kframe h h' /\
    exists c, is_class c /\ size <= 2 ^ (c + 5) /\ (c = 0 \/ 2 ^ (c + 4) < size) /\
    match r with
    | None => HeapRep h' L /\ unspent h h' /\ no_room h c
    | Some a => L !! a = None /\ HeapRep h' (<[a := c]> L) /\
        forall q, pm_owned (hpm h') q -> pm_owned (hpm h) q \/ exists pg, pages (hpm h') !! q = Some pg /\ PageSlab pg = true
    end).
Proof. apply heap_kmalloc_runs. Qed.

(** C22: [kfree] gives back exactly the block it is called with; pages that are not the
    allocator's stay as they are. *)
Theorem kfree_correct h L a c :
  HeapRep h L -> L !! a = Some c -> runs (kfree pm a) h (fun _ h' => others_same h h' /\ HeapRep h' (delete a L)).
Proof. apply kfree_runs. Qed.

(** blocks lie in pages the allocator holds, are aligned to 16 bytes, and no two of
    them share a byte. *)
Theorem heap_blocks_disjoint h L a c :
  HeapRep h L -> L !! a = Some c ->
  a mod 16 = 0 /\ (forall b, a <= b < a + 2 ^ (c + 5) -> exists q o, b = kva q + o /\ 0 <= o < 4096 /\ pm_owned (hpm h) q) /\
  (forall a' c', L !! a' = Some c' -> a' <> a -> a + 2 ^ (c + 5) <= a' \/ a' + 2 ^ (c' + 5) <= a).
Proof.
  intros (G&HK&HL) Ha. apply HL in Ha as [(sp&g&i&Hg&<-&Hi&_&->) _]. pose proof (geo_ok _ (so_class _ _ _ (k_slabs _ _ _ HK sp g Hg))) as Hgo.
  rewrite <- (gs_size _ Hgo). split; [|split].
  - destruct (gs_off _ Hgo) as [_ Ho], (gs_obj _ Hgo) as [_ Hs]. apply Z.mod_divide in Ho as [x Ho]; [|lia]. apply Z.mod_divide in Hs as [y Hs]; [|lia].
    unfold obj_addr. rewrite Ho, Hs. apply Z.mod_divide; [lia|]. exists (134217728 + 256 * g_page g + x + i * y). unfold kva, KERNBASE. lia.
  - intros b Hb. destruct (obj_addr_page None h G sp g i (b - obj_addr g i) HK Hg Hi) as (q&o&He&Ho&Hq); [lia|]. exists q, o. split; [lia|]. split; [done|]. by eapply in_slab_owned.
  - intros a' c' Ha' Hne. apply HL in Ha' as [(sp'&g'&i'&Hg'&<-&Hi'&_&->) _]. pose proof (geo_ok _ (so_class _ _ _ (k_slabs _ _ _ HK sp' g' Hg'))) as Hgo'.
    rewrite <- (gs_size _ Hgo'). destruct (obj_disjoint None h G sp g i sp' g' i' HK Hg Hg' Hi Hi') as [[-> ->]|?]; [|done]. assert (g' = g) as -> by congruence. done.
Qed.

(** ** Set-up *)

Lemma init_kmem_cache_runs c h : is_class c -> runs (init_kmem_cache c (Z.shiftl 1 (c + MIN_SIZE_ORDER))) h (fun _ h' => h' = set_caches (<[c := geo c]> (slab_cache h)) h).
Proof.
  intros Hc. assert (Hr : c = 0 \/ c = 1 \/ c = 2 \/ c = 3 \/ c = 4 \/ c = 5 \/ c = 6 \/ c = 7 \/ c = 8 \/ c = 9 \/ c = 10 \/ c = 11 \/ c = 12)
    by (unfold is_class, SLAB_CACHE_NUM, MAX_SIZE_ORDER, MIN_SIZE_ORDER in Hc; lia).
  repeat (destruct Hr as [->|Hr]; [vm_compute; reflexivity|]). subst c. vm_compute. reflexivity.
Qed.

Lemma slab_init_loop_runs k : forall i h, 0 <= i -> i + Z.of_nat k <= SLAB_CACHE_NUM ->
  runs (slab_init_loop k i) h (fun _ h' => exists cs, h' = set_caches cs h /\ forall c, cs !! c = if decide (i <= c < i + Z.of_nat k) then Some (geo c) else slab_cache h !! c).
Proof.
  induction k as [|k IH]; intros i h Hi Hk; cbn [slab_init_loop].
  - runs_steps. exists (slab_cache h). split; [by destruct h|]. intros c. by rewrite decide_False by lia.
  - runs_steps. eapply runs_mono; [apply init_kmem_cache_runs; unfold is_class; lia|]. cbn beta. intros _ h1 ->. eapply runs_mono; [apply IH; lia|]. cbn beta.
    intros _ h' (cs&->&Hcs). exists cs. split; [done|]. intros c. rewrite Hcs. cbn. rewrite lookup_insert.
    destruct (decide (i = c)) as [<-|]; [rewrite decide_False, decide_True by lia; done|].
    destruct (decide (i + 1 <= c < i + 1 + Z.of_nat k)); [rewrite decide_True by lia|rewrite decide_False by lia]; done.
Qed.

Lemma slab_init_runs h : pm_inv (hpm h) -> npage (hpm h) <= MAXPAGE -> is_u32 (status (hvm h)) -> runs slab_init h (fun _ h' => hvm h' = hvm h /\ HeapRep h' ∅).
Proof.
  intros HI Hn Hs. eapply runs_mono; [apply (slab_init_loop_runs _ 0); [lia|vm_compute; discriminate]|]. cbn beta. change (Z.of_nat (Z.to_nat SLAB_CACHE_NUM)) with SLAB_CACHE_NUM.
  intros _ h' (cs&->&Hcs). split; [done|]. exists ∅. split; [|intros a c; split; [done|by intros [(?&?&?&?&_) _]]]. split; try done.
  intros c Hc. exists (geo c). cbn [slab_cache set_caches]. rewrite Hcs, decide_True by (unfold is_class in Hc; lia). split; [done|]. assert (Hl : slabs_full (geo c) = [] /\ slabs_notfull (geo c) = []).
  { unfold geo. destruct (nth_in_or_default (Z.to_nat c) slab_geometry (mkCache [] [] 0 0 0 0 false 0 0)) as [Hin| ->]; [|done].
    revert Hin. generalize (nth (Z.to_nat c) slab_geometry (mkCache [] [] 0 0 0 0 false 0 0)). intros x Hx. cbn in Hx. repeat (destruct Hx as [<-|Hx]; [done|]). done. }
  destruct Hl as [Hf Hnf]. split; [rewrite Hf, Hnf; destruct (geo c); cbn in *; by subst|rewrite Hf, Hnf; split; apply NoDup_nil_2| |]; intros sp; rewrite ?Hf, ?Hnf; (split; [by intros ?%elem_of_nil|]); by intros (?&?&_).
Qed.

(** [slab_init] makes an empty heap, and in a heap without blocks no cache has a slab
    ([check_slab_empty]) and nothing counts as allocated: every page has been given back. *)
Theorem heap_empty h :
  (pm_inv (hpm h) -> npage (hpm h) <= MAXPAGE -> is_u32 (status (hvm h)) -> runs slab_init h (fun _ h' => hvm h' = hvm h /\ HeapRep h' ∅)) /\
  (HeapRep h ∅ -> slab_allocated h = 0 /\ forall c, is_class c -> exists cp, slab_cache h !! c = Some cp /\ slabs_full cp = [] /\ slabs_notfull cp = []).
Proof.
  split; [apply slab_init_runs|]. intros (G&HK&HL). assert (G = ∅) as -> by (apply (no_live_no_slab h); [done|]; intros a c Hl; by apply HL in Hl).
  assert (He : forall c, is_class c -> exists cp, slab_cache h !! c = Some cp /\ slabs_full cp = [] /\ slabs_notfull cp = []).
  { intros c Hc. destruct (k_caches _ _ _ HK c Hc) as (cp&Hcp&HL'). exists cp. split; [done|].
    split; [destruct (slabs_full cp) as [|sp l] eqn:Hf|destruct (slabs_notfull cp) as [|sp l] eqn:Hf]; try done; exfalso;
      [destruct (proj1 (lo_full _ _ _ HL' sp)) as (?&?&_)|destruct (proj1 (lo_notfull _ _ _ HL' sp)) as (?&?&_)]; rewrite ?Hf; by (done || left). }
  split; [|done]. unfold slab_allocated. assert (Hz : forall l, (forall c, c ∈ l -> is_class c) -> foldr Z.add 0 ((fun i =>
    match slab_cache h !! i with
    | None => 0
    | Some c => Z.of_nat (length (slabs_full c)) * (num c * objsize c) +
                foldr Z.add 0 ((fun sp => match slabs h !! sp with Some x => inuse x * objsize c | None => 0 end) <$> slabs_notfull c)
    end) <$> l) = 0); [|rewrite Hz; [done|]; intros c Hc%elem_of_seqZ; unfold is_class; lia].
  induction l as [|c l IH]; intros Hl; [done|]. rewrite fmap_cons. cbn [foldr]. rewrite IH by (intros; apply Hl; by right).
  destruct (He c) as (cp&->&->&->); [apply Hl; by left|]. cbn. lia.
Qed.
End Slab.

(** ** A concrete heap: 64 pages, a block of 100 bytes and one of 1000 *)

Definition kh0 : kheap := mkHeap (mkVm ex_pmm (fun _ => 0) 0 1 ∅ 0) ∅ ∅ ∅ ∅.
Definition heap_of {A} (r : outcome (A * kheap)) : kheap := match r with Ok (_, h) => h | _ => kh0 end.
Definition kh1 : kheap := Eval vm_compute in heap_of (slab_init kh0).
Definition kh2 : kheap := Eval vm_compute in heap_of (kmalloc buddy_pmm_manager 100 kh1).
Definition kh3 : kheap := Eval vm_compute in heap_of (kmalloc buddy_pmm_manager 1000 kh2).
Abbreviation BHeap := (HeapRep (pm := buddy_pmm_manager)).

Lemma kh0_ok : pm_inv (pm := buddy_pmm_manager) (vpm (hvm kh0)) /\ npage (vpm (hvm kh0)) <= MAXPAGE /\ is_u32 (status (hvm kh0)).
Proof. split; [apply ex_pmm_spec|]. split; vm_compute; [discriminate|]. split; [discriminate|reflexivity]. Qed.

Lemma kh1_rep : BHeap kh1 ∅.
Proof.
  destruct kh0_ok as (H1&H2&H3). assert (He : slab_init kh0 = Ok (tt, kh1)) by (vm_compute; reflexivity).
  apply (runs_elim _ _ _ _ _ (slab_init_runs (pm := buddy_pmm_manager) kh0 H1 H2 H3) He).
Qed.

Definition kb1 : Z := kva 63 + 144.
Definition kb2 : Z := kva 61.
Lemma kh2_rep : BHeap kh2 {[kb1 := 2]}.
Proof.
  assert (He : kmalloc buddy_pmm_manager 100 kh1 = Ok (Some kb1, kh2)) by (vm_compute; reflexivity).
  destruct (runs_elim _ _ _ _ _ (heap_kmalloc_runs (pm := buddy_pmm_manager) kh1 ∅ 100 kh1_rep ltac:(lia)) He) as (_&c&Hc&Hle&Hlow&_&HR&_).
  assert (c = 2) as ->; [|exact HR]. assert (Hin : c ∈ seqZ 0 13) by (apply elem_of_seqZ; unfold is_class, SLAB_CACHE_NUM, MAX_SIZE_ORDER, MIN_SIZE_ORDER in Hc; lia).
  revert Hin Hle Hlow. vm_compute seqZ. rewrite !elem_of_cons, elem_of_nil. intros Hin. repeat (destruct Hin as [->|Hin]; [cbn; lia|]). done.
Qed.
Lemma kh3_rep : BHeap kh3 {[kb2 := 5; kb1 := 2]}.
Proof.
  assert (He : kmalloc buddy_pmm_manager 1000 kh2 = Ok (Some kb2, kh3)) by (vm_compute; reflexivity).
  destruct (runs_elim _ _ _ _ _ (heap_kmalloc_runs (pm := buddy_pmm_manager) kh2 {[kb1 := 2]} 1000 kh2_rep ltac:(lia)) He) as (_&c&Hc&Hle&Hlow&_&HR&_).
  assert (c = 5) as ->; [|exact HR]. assert (Hin : c ∈ seqZ 0 13) by (apply elem_of_seqZ; unfold is_class, SLAB_CACHE_NUM, MAX_SIZE_ORDER, MIN_SIZE_ORDER in Hc; lia).
  revert Hin Hle Hlow. vm_compute seqZ. rewrite !elem_of_cons, elem_of_nil. intros Hin. repeat (destruct Hin as [->|Hin]; [cbn; lia|]). done.
Qed.

Lemma kmalloc_correct_witness :
  BHeap kh2 {[kb1 := 2]} /\
  runs (kmalloc buddy_pmm_manager 1000) kh2 (fun r h' => kframe (pm := buddy_pmm_manager) kh2 h' /\
    exists c, is_class c /\ 1000 <= 2 ^ (c + 5) /\ (c = 0 \/ 2 ^ (c + 4) < 1000) /\
    match r with
    | None => BHeap h' {[kb1 := 2]} /\ unspent (pm := buddy_pmm_manager) kh2 h' /\ no_room (pm := buddy_pmm_manager) kh2 c
    | Some a => ({[kb1 := 2]} : gmap Z Z) !! a = None /\ BHeap h' (<[a := c]> {[kb1 := 2]}) /\
        forall q, buddy_owned (vpm (hvm h')) q -> buddy_owned (vpm (hvm kh2)) q \/ exists pg, pages (vpm (hvm h')) !! q = Some pg /\ PageSlab pg = true
    end).
Proof. split; [exact kh2_rep|]. apply (kmalloc_correct kh2 {[kb1 := 2]} 1000 kh2_rep). lia. Defined.

Lemma kfree_correct_witness :
  ({[kb2 := 5; kb1 := 2]} : gmap Z Z) !! kb2 = Some 5 /\
  runs (kfree buddy_pmm_manager kb2) kh3 (fun _ h' => others_same (pm := buddy_pmm_manager) kh3 h' /\ BHeap h' (delete kb2 {[kb2 := 5; kb1 := 2]})).
Proof. split; [reflexivity|]. apply (kfree_correct kh3 {[kb2 := 5; kb1 := 2]} kb2 5 kh3_rep). reflexivity. Defined.

Lemma heap_blocks_disjoint_witness :
  kb2 mod 16 = 0 /\ (forall b, kb2 <= b < kb2 + 2 ^ (5 + 5) -> exists q o, b = kva q + o /\ 0 <= o < 4096 /\ pm_owned (PmmOk := buddy_pmm_ok) (vpm (hvm kh3)) q) /\
  (forall a' c', ({[kb2 := 5; kb1 := 2]} : gmap Z Z) !! a' = Some c' -> a' <> kb2 -> kb2 + 2 ^ (5 + 5) <= a' \/ a' + 2 ^ (c' + 5) <= kb2).
Proof. apply (heap_blocks_disjoint kh3 {[kb2 := 5; kb1 := 2]} kb2 5 kh3_rep). reflexivity. Defined.

Lemma heap_empty_witness :
  slab_allocated kh1 = 0 /\ forall c, is_class c -> exists cp, slab_cache kh1 !! c = Some cp /\ slabs_full cp = [] /\ slabs_notfull cp = [].
Proof. apply (proj2 (heap_empty (pm := buddy_pmm_manager) kh1)). exact kh1_rep. Defined.
