(* ===== verification/Vmm.v ===== *)
(** * Virtual memory areas (kern/mm/vmm.[ch])

    An [mm_struct] holds its areas in the order of [mmap_list].  Areas are not
    changed after [vma_create], so the list and the cache hold them by value;
    the list walks of the source are recursion over the list.  Whether
    [kmalloc] finds memory is an argument ([true]: it does). *)

From stdpp Require Import base gmap list.
From Stdlib Require Import ZArith Lia Bool.
From S2P Require Import Prelude.
From S2P Require Import Atomic.
From S2P Require Import Buddy.
From S2P Require Import Pmm.
From S2P Require Import PageTable.

Definition VM_READ : Z := 1.
Definition VM_WRITE : Z := 2.
Definition VM_EXEC : Z := 4.
Definition VM_STACK : Z := 8.

Record vma_struct := mkVma { vm_start : Z; vm_end : Z; vm_flags : Z }.

Record mm_struct := mkMm {
  mmap_list : list vma_struct;
  mmap_cache : option vma_struct;
  pgdir : Z;
  map_count : Z;
  mm_count : Z;
  mm_sem : Z  (* the value of the semaphore *)
}.

Definition set_cache (c : option vma_struct) (mm : mm_struct) : mm_struct :=
  mkMm (mmap_list mm) c (pgdir mm) (map_count mm) (mm_count mm) (mm_sem mm).

Definition mm_create (kmalloc_ok : bool) : option mm_struct :=
  if kmalloc_ok then Some (mkMm [] None 0 0 0 1) else None.

Definition vma_create (kmalloc_ok : bool) (start end_ flags : Z) : option vma_struct :=
  if kmalloc_ok then Some (mkVma start end_ flags) else None.

Definition mm_count_inc : M mm_struct Z :=
  let! mm := get in
  let c := atomic_add_return 1 (mm_count mm) in
  do! put (mkMm (mmap_list mm) (mmap_cache mm) (pgdir mm) (map_count mm) c (mm_sem mm)) in ret c.
Definition mm_count_dec : M mm_struct Z :=
  let! mm := get in
  let c := atomic_sub_return 1 (mm_count mm) in
  do! put (mkMm (mmap_list mm) (mmap_cache mm) (pgdir mm) (map_count mm) c (mm_sem mm)) in ret c.

(** ** Lookup *)

(** [while ((le = list_next(le)) != list)]: the first area that ends after
    [addr]. *)
Fixpoint find_loop (l : list vma_struct) (addr : Z) : option vma_struct :=
  match l with
  | [] => None
  | vma :: l => if addr <? vm_end vma then Some vma else find_loop l addr
  end.

Definition cache_hit (c : option vma_struct) (addr : Z) : bool :=
  match c with Some vma => (vm_start vma <=? addr) && (addr <? vm_end vma) | None => false end.

Definition find_vma (addr : Z) : M mm_struct (option vma_struct) :=
  let! mm := get in
  let vma := if cache_hit (mmap_cache mm) addr then mmap_cache mm
             else find_loop (mmap_list mm) addr in
  match vma with
  | Some _ => do! put (set_cache vma mm) in ret vma
  | None => ret None
  end.

(** ** Insertion *)

Definition check_vma_overlap (prev next : vma_struct) : M mm_struct unit :=
  do! assert_ (vm_start prev <? vm_end prev) in
  do! assert_ (vm_end prev <=? vm_start next) in
  assert_ (vm_start next <? vm_end next).

(** The areas up to [le_prev], and those from [le_next] on. *)
Fixpoint insert_split (l : list vma_struct) (start : Z) : list vma_struct * list vma_struct :=
  match l with
  | [] => ([], [])
  | v :: l' => if start <? vm_start v then ([], l)
               else let (pre, post) := insert_split l' start in (v :: pre, post)
  end.

Definition insert_vma_struct (vma : vma_struct) : M mm_struct unit :=
  do! assert_ (vm_start vma <? vm_end vma) in
  let! mm := get in
  let (pre, post) := insert_split (mmap_list mm) (vm_start vma) in
  do! match last pre with Some prev => check_vma_overlap prev vma | None => ret tt end in
  do! match head post with Some next => check_vma_overlap vma next | None => ret tt end in
  put (mkMm (pre ++ vma :: post) (mmap_cache mm) (pgdir mm) (map_count mm + 1) (mm_count mm) (mm_sem mm)).

(** Return value and what is stored through [vma_store]. *)
Definition mm_map (kmalloc_ok : bool) (addr len flags : Z) : M mm_struct (Z * option vma_struct) :=
  let start := ROUNDDOWN_2N addr PGSHIFT in
  let end_ := ROUNDUP_2N (u32 (addr + len)) PGSHIFT in
  if negb (USER_ACCESS start end_) then ret (- E_INVAL, None)
  else
    let! vma := find_vma start in
    if match vma with Some v => vm_start v <? end_ | None => false end then ret (- E_INVAL, None)
    else match vma_create kmalloc_ok start end_ flags with
         | None => ret (- E_NO_MEM, None)
         | Some vma => do! insert_vma_struct vma in ret (0, Some vma)
         end.

(** [while ((le = list_next(list)) != list) { list_del(le); kfree(...); }];
    the areas freed. *)
Fixpoint destroy_loop (l : list vma_struct) : list vma_struct :=
  match l with [] => [] | v :: l => v :: destroy_loop l end.
Definition mm_destroy (mm : mm_struct) : outcome (list vma_struct) :=
  if mm_count mm =? 0 then Ok (destroy_loop (mmap_list mm)) else Panic.

(** ** Checking user buffers *)

(** [while (start < end) { ... }] *)
Fixpoint user_mem_loop (fuel : nat) (start end_ : Z) (write : bool) : M mm_struct bool :=
  if start <? end_ then
    match fuel with
    | O => nofuel
    | S fuel =>
        let! vma := find_vma start in
        match vma with
        | None => ret false
        | Some v =>
            if start <? vm_start v then ret false
            else if Z.land (vm_flags v) (if write then VM_WRITE else VM_READ) =? 0 then ret false
            else if write && negb (Z.land (vm_flags v) VM_STACK =? 0) && (start <? u32 (vm_start v + PGSIZE)) then ret false
            else user_mem_loop fuel (vm_end v) end_ write
        end
    end
  else ret true.

Definition user_mem_check (addr len : Z) (write : bool) : M mm_struct bool :=
  if negb (USER_ACCESS addr (u32 (addr + len))) then ret false
  else
    let! mm := get in
    user_mem_loop (S (length (mmap_list mm))) addr (u32 (addr + len)) write.
(** With [mm == NULL]. *)
Definition user_mem_check_kernel (addr len : Z) : bool := KERN_ACCESS addr (u32 (addr + len)).

(** Byte memory as the copy routines see it. *)
Definition bytes := Z -> Z.
Definition bcopy (dst src n : Z) (m : bytes) : bytes :=
  fun x => if (dst <=? x) && (x <? dst + n) then m (x - dst + src) else m x.
Definition on_mm {A} (m : M mm_struct A) : M (mm_struct * bytes) A := zoom fst (fun x t => (x, snd t)) m.

Definition copy_from_user (dst src len : Z) (writable : bool) : M (mm_struct * bytes) bool :=
  let! ok := on_mm (user_mem_check src len writable) in
  if negb ok then ret false
  else do! modify (fun t => (fst t, bcopy dst src len (snd t))) in ret true.

Definition copy_to_user (dst src len : Z) : M (mm_struct * bytes) bool :=
  let! ok := on_mm (user_mem_check dst len true) in
  if negb ok then ret false
  else do! modify (fun t => (fst t, bcopy dst src len (snd t))) in ret true.

(** [strnlen]: bytes before the first NUL, at most [len]. *)
Fixpoint strnlen (len : nat) (s : Z) (m : bytes) : Z :=
  match len with
  | O => 0
  | S len => if m s =? 0 then 0 else 1 + strnlen len (s + 1) m
  end.

(** [while (1) { ... }] *)
Fixpoint copy_string_loop (fuel : nat) (dst src maxn part : Z) : M (mm_struct * bytes) bool :=
  match fuel with
  | O => nofuel
  | S fuel =>
      let part := if maxn <? part then maxn else part in
      let! ok := on_mm (user_mem_check src part false) in
      if negb ok then ret false
      else
        let! t := get in
        let alen := strnlen (Z.to_nat part) src (snd t) in
        if alen <? part then
          do! modify (fun t => (fst t, bcopy dst src (alen + 1) (snd t))) in ret true
        else if part =? maxn then ret false
        else
          do! modify (fun t => (fst t, bcopy dst src part (snd t))) in
          copy_string_loop fuel (u32 (dst + part)) (u32 (src + part)) (maxn - part) PGSIZE
  end.
Definition copy_string (dst src maxn : Z) : M (mm_struct * bytes) bool :=
  let part := u32 (ROUNDDOWN_2N (u32 (src + PGSIZE)) PGSHIFT - src) in
  copy_string_loop (S (S (Z.to_nat (Z.shiftr maxn PGSHIFT)))) dst src maxn part.

(** ** Operations on areas and page tables *)

Section Paged.
Variable pm : pmm_manager.

(** [pgfault_num] is a counter of the handler. *)
Record fault_state := mkFs { fmm : mm_struct; fvm : vm; pgfault_num : Z }.
Definition in_mm {A} (m : M mm_struct A) : M fault_state A :=
  zoom fmm (fun x t => mkFs x (fvm t) (pgfault_num t)) m.
Definition in_vm {A} (m : M vm A) : M fault_state A :=
  zoom fvm (fun x t => mkFs (fmm t) x (pgfault_num t)) m.

(** The [switch (error_code & 3)]: may the access go ahead? *)
Definition access_ok (error_code flags : Z) : bool :=
  let e := Z.land error_code 3 in
  if e =? 1 then false
  else if e =? 0 then negb (Z.land flags (Z.lor VM_READ VM_EXEC) =? 0)
  else negb (Z.land flags VM_WRITE =? 0).

Definition do_pgfault (error_code addr : Z) : M fault_state Z :=
  let! vma := in_mm (find_vma addr) in
  do! modify (fun t => mkFs (fmm t) (fvm t) (u32 (pgfault_num t + 1))) in
  match vma with
  | None => ret (- E_INVAL)
  | Some v =>
      if addr <? vm_start v then ret (- E_INVAL)
      else if negb (access_ok error_code (vm_flags v)) then ret (- E_INVAL)
      else
        let perm := if negb (Z.land (vm_flags v) VM_WRITE =? 0) then Z.lor PTE_U PTE_W else PTE_U in
        let addr := ROUNDDOWN_2N addr PGSHIFT in
        let! t := get in
        let! ptep := in_vm (get_pte pm (pgdir (fmm t)) addr true) in
        match ptep with
        | None => ret (- E_NO_MEM)
        | Some a =>
            let! pte := in_vm (ldw a) in
            if pte =? 0 then
              let! r := in_vm (pgdir_alloc_page pm (pgdir (fmm t)) addr perm) in
              match r with None => ret (- E_NO_MEM) | Some _ => ret 0 end
            else ret (- E_NO_MEM)
        end
  end.

(** [while ((le = list_prev(le)) != list)] over the areas of [from], last
    first; [oks] are the outcomes of the [kmalloc]s. *)
Fixpoint dup_loop (rl : list vma_struct) (oks : list bool) (from_pgdir : Z) : M (mm_struct * vm) Z :=
  match rl with
  | [] => ret 0
  | v :: rl =>
      match vma_create (default false (head oks)) (vm_start v) (vm_end v) (vm_flags v) with
      | None => ret (- E_NO_MEM)
      | Some nvma =>
          do! zoom fst (fun x t => (x, snd t)) (insert_vma_struct nvma) in
          let! t := get in
          let! r := zoom snd (fun x t => (fst t, x))
                      (copy_range pm (pgdir (fst t)) from_pgdir (vm_start v) (vm_end v) false) in
          if negb (r =? 0) then ret (- E_NO_MEM) else dup_loop rl (tail oks) from_pgdir
      end
  end.
Definition dup_mmap (oks : list bool) (from : mm_struct) : M (mm_struct * vm) Z :=
  dup_loop (rev (mmap_list from)) oks (pgdir from).

Fixpoint exit_unmap (l : list vma_struct) (pgdir : Z) : M vm unit :=
  match l with
  | [] => ret tt
  | v :: l => do! unmap_range pm pgdir (vm_start v) (vm_end v) in exit_unmap l pgdir
  end.
Fixpoint exit_tables (l : list vma_struct) (pgdir : Z) : M vm unit :=
  match l with
  | [] => ret tt
  | v :: l => do! exit_range pm pgdir (vm_start v) (vm_end v) in exit_tables l pgdir
  end.
Definition exit_mmap (mm : mm_struct) : M vm unit :=
  do! assert_ (mm_count mm =? 0) in
  do! exit_unmap (mmap_list mm) (pgdir mm) in
  exit_tables (mmap_list mm) (pgdir mm).

(** [setup_pgdir] and [put_pgdir] of proc.c; [boot_pgdir] is a kernel page. *)
Definition setup_pgdir (boot_pgdir : Z) : M vm (Z * option Z) :=
  let! page := alloc_page pm in
  match page with
  | None => ret (- E_NO_MEM, None)
  | Some page =>
      let! pgdir := page2kva page in
      do! memcpy pgdir boot_pgdir PGSIZE in
      ret (0, Some pgdir)
  end.
Definition put_pgdir (mm : mm_struct) : M vm unit :=
  let! p := kva2page (pgdir mm) in free_page pm p.
End Paged.
