(* ===== verification/VmmThm.v ===== *)
(** * Theorems on virtual memory areas

    The list of areas stays sorted and disjoint; the cached lookup is the
    plain one; [mm_map] accepts exactly the ranges that fit;
    [user_mem_check] accepts exactly the buffers all of whose bytes are
    covered; the page-fault handler maps the faulting page. *)

From stdpp Require Import base gmap list.
From Stdlib Require Import ZArith Lia Bool.
From S2P Require Import Prelude.
From S2P Require Import Atomic.
From S2P Require Import Buddy.
From S2P Require Import BuddyInv.
From S2P Require Import Pmm.
From S2P Require Import PageTable.
From S2P Require Import PageTableInv.
From S2P Require Import PageTableOps.
From S2P Require Import PageTableThm.
From S2P Require Import Vmm.

(** ** The invariant *)

Definition vma_ok (v : vma_struct) : Prop :=
  USERBASE <= vm_start v < vm_end v /\ vm_end v <= USERTOP /\
  vm_start v mod 4096 = 0 /\ vm_end v mod 4096 = 0.

Fixpoint ordered (l : list vma_struct) : Prop :=
  match l with
  | [] => True
  | v :: l => vma_ok v /\ (forall w, w ∈ l -> vm_end v <= vm_start w) /\ ordered l
  end.

Definition mm_wf (mm : mm_struct) : Prop :=
  ordered (mmap_list mm) /\ (forall v, mmap_cache mm = Some v -> v ∈ mmap_list mm) /\
  map_count mm = Z.of_nat (length (mmap_list mm)).

Definition covers (v : vma_struct) (x : Z) : Prop := vm_start v <= x < vm_end v.
Definition overlap (start end_ : Z) (v : vma_struct) : Prop := vm_start v < end_ /\ start < vm_end v.

Lemma ordered_ok l v : ordered l -> v ∈ l -> vma_ok v.
Proof.
  induction l as [|w l IH]; [by intros _ ?%elem_of_nil|]. intros (?&_&?) [->|]%elem_of_cons; [done|auto].
Qed.

(** Disjointness, and the search in a sorted list. *)
Lemma ordered_sep l v w : ordered l -> v ∈ l -> w ∈ l -> v = w \/ vm_end v <= vm_start w \/ vm_end w <= vm_start v.
Proof.
  induction l as [|u l IH]; [by intros _ ?%elem_of_nil|].
  intros (_&Hu&Ho) [->|Hv]%elem_of_cons [->|Hw]%elem_of_cons; auto.
Qed.

Lemma find_loop_none l addr : find_loop l addr = None <-> forall v, v ∈ l -> vm_end v <= addr.
Proof.
  induction l as [|w l IH]; cbn; [split; [intros _ v ?%elem_of_nil; done|done]|].
  destruct (Z.ltb_spec addr (vm_end w)).
  - split; [done|]. intros Hall. specialize (Hall w ltac:(left)). lia.
  - rewrite IH. split; [intros Hall v [->|]%elem_of_cons; auto|]. intros Hall v Hv. apply Hall. by right.
Qed.

Lemma find_loop_some l addr v :
  ordered l -> find_loop l addr = Some v ->
  (v ∈ l) /\ addr < vm_end v /\ forall w, w ∈ l -> w = v \/ vm_end w <= addr \/ vm_end v <= vm_start w.
Proof.
  induction l as [|u l IH]; cbn; [done|]. intros (Hok&Hu&Ho). destruct (Z.ltb_spec addr (vm_end u)).
  - intros [= ->]. split; [left|]. split; [done|]. intros w [->|Hw]%elem_of_cons; auto.
  - intros Hf. destruct (IH Ho Hf) as (Hv&?&Hall). split; [by right|]. split; [done|].
    intros w [->|Hw]%elem_of_cons; [by right; left|auto].
Qed.

Lemma find_loop_covers l addr v : ordered l -> v ∈ l -> covers v addr -> find_loop l addr = Some v.
Proof.
  unfold covers. intros Ho Hv Hc. destruct (find_loop l addr) as [w|] eqn:Hf.
  - destruct (find_loop_some l addr w Ho Hf) as (Hw&?&Hall). destruct (Hall v Hv) as [->|]; [done|].
    pose proof (ordered_ok _ _ Ho Hw) as [? _]. lia.
  - rewrite find_loop_none in Hf. specialize (Hf v Hv). lia.
Qed.

(** ** [find_vma] *)

Definition same_areas (mm mm' : mm_struct) : Prop := mm_wf mm' /\ mm' = set_cache (mmap_cache mm') mm.

Lemma same_areas_refl mm : mm_wf mm -> same_areas mm mm.
Proof. intros H. split; [done|by destruct mm]. Qed.

Lemma same_areas_trans mm1 mm2 mm3 : same_areas mm1 mm2 -> same_areas mm2 mm3 -> same_areas mm1 mm3.
Proof. intros [_ H1] [H2 H3]. split; [done|]. rewrite H3, H1. done. Qed.

Lemma same_areas_list mm mm' : same_areas mm mm' -> mmap_list mm' = mmap_list mm /\ pgdir mm' = pgdir mm.
Proof. intros [_ ->]. done. Qed.

Lemma find_vma_runs mm addr :
  mm_wf mm -> runs (find_vma addr) mm (fun r mm' => r = find_loop (mmap_list mm) addr /\ same_areas mm mm').
Proof.
  intros (Ho&Hc&Hn). unfold find_vma. runs_steps.
  assert (Hv : (if cache_hit (mmap_cache mm) addr then mmap_cache mm else find_loop (mmap_list mm) addr)
               = find_loop (mmap_list mm) addr).
  { destruct (mmap_cache mm) as [v|] eqn:Hcv; [|done]. cbn. destruct (Z.leb_spec (vm_start v) addr); [|done].
    destruct (Z.ltb_spec addr (vm_end v)); [|done]. cbn. symmetry. apply find_loop_covers; [done|by apply Hc|done]. }
  rewrite Hv. destruct (find_loop (mmap_list mm) addr) as [v|] eqn:Hf.
  - runs_steps. split; [done|]. split; [|done]. split; [done|]. split; [|done]. intros w [= <-].
    by apply (find_loop_some _ addr).
  - runs_steps. split; [done|]. by apply same_areas_refl.
Qed.

(** ** Insertion *)

Lemma insert_split_spec l start end_ :
  ordered l -> (forall w, w ∈ l -> ~ overlap start end_ w) -> start < end_ ->
  let (pre, post) := insert_split l start in
  l = pre ++ post /\ (forall w, w ∈ pre -> vm_end w <= start) /\ (forall w, w ∈ post -> end_ <= vm_start w).
Proof.
  induction l as [|v l IH]; cbn; intros Ho Hno Hlt; [split_and!; [done|intros w ?%elem_of_nil; done..]|].
  destruct Ho as (Hok&Hv&Ho). unfold vma_ok in Hok. pose proof (Hno v ltac:(left)) as Hnv. unfold overlap in Hnv.
  destruct (Z.ltb_spec start (vm_start v)).
  - split_and!; [done|intros w ?%elem_of_nil; done|]. intros w [->|Hw]%elem_of_cons; [lia|]. specialize (Hv w Hw). lia.
  - specialize (IH Ho ltac:(intros w Hw; apply Hno; by right) Hlt). destruct (insert_split l start) as [pre post].
    destruct IH as (->&Hpre&Hpost). split_and!; [done| |done].
    intros w [->|Hw]%elem_of_cons; [lia|auto].
Qed.

Lemma ordered_app l1 l2 :
  ordered (l1 ++ l2) <-> ordered l1 /\ ordered l2 /\ forall v w, v ∈ l1 -> w ∈ l2 -> vm_end v <= vm_start w.
Proof.
  induction l1 as [|u l1 IH]; cbn.
  - split; [intros ?; split_and!; try done; by intros v w ?%elem_of_nil|tauto].
  - rewrite IH. split.
    + intros (?&Hu&?&?&Hx). split_and!; try done; [intros w Hw; apply Hu, elem_of_app; by left|].
      intros v w [->|Hv]%elem_of_cons Hw; [apply Hu, elem_of_app; by right|auto].
    + intros ((?&Hu&?)&?&Hx). split_and!; try done.
      * intros w [Hw|Hw]%elem_of_app; [auto|]. apply Hx; [left|done].
      * intros v w Hv Hw. apply Hx; [by right|done].
Qed.

Lemma check_overlap_runs mm v w :
  vm_start v < vm_end v -> vm_end v <= vm_start w -> vm_start w < vm_end w ->
  runs (check_vma_overlap v w) mm (fun _ mm' => mm' = mm).
Proof.
  intros. unfold check_vma_overlap. runs_steps. apply runs_assert; [by apply Z.ltb_lt|]. runs_steps.
  apply runs_assert; [by apply Z.leb_le|]. by apply runs_assert; [apply Z.ltb_lt|].
Qed.

Lemma insert_vma_runs mm v :
  mm_wf mm -> vma_ok v -> (forall w, w ∈ mmap_list mm -> ~ overlap (vm_start v) (vm_end v) w) ->
  runs (insert_vma_struct v) mm (fun _ mm' =>
    mm_wf mm' /\ mmap_list mm' ≡ₚ v :: mmap_list mm /\ pgdir mm' = pgdir mm /\ mm_count mm' = mm_count mm).
Proof.
  intros (Ho&Hc&Hn) Hok Hno. pose proof Hok as (Hs&_). unfold insert_vma_struct. runs_steps.
  apply runs_assert; [apply Z.ltb_lt; lia|]. runs_steps.
  pose proof (insert_split_spec (mmap_list mm) (vm_start v) (vm_end v) Ho Hno ltac:(lia)) as Hsp.
  destruct (insert_split (mmap_list mm) (vm_start v)) as [pre post]. destruct Hsp as (Hl&Hpre&Hpost).
  rewrite Hl in Ho. apply ordered_app in Ho as (Ho1&Ho2&Hx).
  assert (Hp : runs match last pre with Some prev => check_vma_overlap prev v | None => ret tt end mm (fun _ mm' => mm' = mm)).
  { destruct (last pre) as [w|] eqn:Hlast; [|done]. apply last_Some_elem_of in Hlast.
    pose proof (ordered_ok _ _ Ho1 Hlast) as (?&_). apply check_overlap_runs; [lia|by apply Hpre|lia]. }
  assert (Hq : runs match head post with Some next => check_vma_overlap v next | None => ret tt end mm (fun _ mm' => mm' = mm)).
  { destruct post as [|w post]; [done|]. cbn. pose proof (ordered_ok _ w Ho2 ltac:(left)) as (?&_).
    apply check_overlap_runs; [lia|apply Hpost; left|lia]. }
  runs_steps. eapply runs_mono; [exact Hp|]. cbn beta. intros _ mm1 ->. runs_steps.
  eapply runs_mono; [exact Hq|]. cbn beta. intros _ mm1 ->. runs_steps. cbn.
  split; [|split; [rewrite Hl; by rewrite Permutation_middle|done]]. split_and!; cbn.
  - apply ordered_app. split_and!; try done; intros u w Hu Hw. apply elem_of_cons in Hw as [->|Hw]; [by apply Hpre|by apply Hx].
  - intros u Hu. specialize (Hc u Hu). rewrite Hl in Hc. apply elem_of_app in Hc as [?|?]; apply elem_of_app;
      [by left|right; by right].
  - rewrite Hn, Hl, !length_app. cbn. lia.
Qed.

Lemma overlap_dec start end_ l :
  ordered l -> start < end_ ->
  (match find_loop l start with Some v => vm_start v <? end_ | None => false end) = true <->
  exists w, (w ∈ l) /\ overlap start end_ w.
Proof.
  intros Ho Hlt. unfold overlap. destruct (find_loop l start) as [v|] eqn:Hf.
  - destruct (find_loop_some l start v Ho Hf) as (Hv&Hend&Hall). rewrite Z.ltb_lt. split.
    + intros ?. exists v. split; [done|lia].
    + intros (w&Hw&?&?). destruct (Hall w Hw) as [->|]; [done|]. pose proof (ordered_ok _ _ Ho Hv) as (?&_). lia.
  - rewrite find_loop_none in Hf. split; [done|]. intros (w&Hw&?&?). specialize (Hf w Hw). lia.
Qed.

Definition fits (mm : mm_struct) (start end_ : Z) : Prop :=
  USER_ACCESS start end_ = true /\ forall w, w ∈ mmap_list mm -> ~ overlap start end_ w.

Lemma mm_map_runs ok addr len flags mm :
  mm_wf mm -> is_u32 addr ->
  let start := ROUNDDOWN_2N addr PGSHIFT in
  let end_ := ROUNDUP_2N (u32 (addr + len)) PGSHIFT in
  runs (mm_map ok addr len flags) mm (fun r mm' =>
    mm_wf mm' /\ pgdir mm' = pgdir mm /\ mm_count mm' = mm_count mm /\
    ((~ fits mm start end_ /\ r = (- E_INVAL, None) /\ mmap_list mm' = mmap_list mm) \/
     (fits mm start end_ /\ ok = false /\ r = (- E_NO_MEM, None) /\ mmap_list mm' = mmap_list mm) \/
     (fits mm start end_ /\ ok = true /\ r = (0, Some (mkVma start end_ flags)) /\
      mmap_list mm' ≡ₚ mkVma start end_ flags :: mmap_list mm))).
Proof.
  intros Hwf Haddr start end_. unfold mm_map. fold start end_. unfold fits.
  destruct (USER_ACCESS start end_) eqn:Hacc; cbn [negb]; cycle 1.
  { runs_steps. split_and!; try done. left. split; [by intros [? _]|done]. }
  pose proof Hacc as Hacc'. unfold USER_ACCESS in Hacc'. rewrite !andb_true_iff, !Z.leb_le, Z.ltb_lt in Hacc'.
  pose proof Hwf as (Ho&_). runs_steps. eapply runs_mono; [by apply find_vma_runs|]. cbn beta. intros r mm1 (->&Hsame).
  destruct (same_areas_list _ _ Hsame) as [Hl Hpg]. pose proof Hsame as [Hwf1 He1].
  assert (Hcnt : mm_count mm1 = mm_count mm) by (rewrite He1; done).
  pose proof (overlap_dec start end_ (mmap_list mm) Ho ltac:(lia)) as Hov.
  destruct (match find_loop (mmap_list mm) start with Some v => vm_start v <? end_ | None => false end).
  { runs_steps. split_and!; try done. left. split; [|done]. intros [_ Hno].
    destruct (proj1 Hov eq_refl) as (w&Hw&Hwo). by apply (Hno w). }
  assert (Hfit : forall w, w ∈ mmap_list mm -> ~ overlap start end_ w).
  { intros w Hw Hwo. assert (false = true) by (apply Hov; by exists w). done. }
  destruct ok; cbn [vma_create]; [|runs_steps; split_and!; try done; right; left; done].
  assert (Hok : vma_ok (mkVma start end_ flags)).
  { unfold vma_ok. cbn. split_and!; try lia; unfold start, end_, ROUNDUP_2N; rewrite rounddown_spec by (done || apply u32_range);
      change (2 ^ PGSHIFT) with 4096; mlia. }
  runs_steps. eapply runs_mono; [apply insert_vma_runs; [done|exact Hok|by rewrite Hl]|]. cbn beta.
  intros _ mm2 (Hwf2&Hp2&Hpg2&Hc2). runs_steps. rewrite Hl in Hp2. split_and!; try congruence; try done. right. right. done.
Qed.

Lemma mm_map_fits ok addr len flags mm :
  mm_wf mm -> is_u32 addr -> 0 <= len -> addr + len + 4095 < W32 ->
  runs (mm_map ok addr len flags) mm (fun r mm' =>
    let start := addr - addr mod 4096 in
    let end_ := ROUNDUP_2N (addr + len) PGSHIFT in
    mm_wf mm' /\ pgdir mm' = pgdir mm /\ mm_count mm' = mm_count mm /\ addr + len <= end_ < addr + len + 4096 /\
    ((~ fits mm start end_ /\ r = (- E_INVAL, None) /\ mmap_list mm' = mmap_list mm) \/
     (fits mm start end_ /\ ok = false /\ r = (- E_NO_MEM, None) /\ mmap_list mm' = mmap_list mm) \/
     (fits mm start end_ /\ ok = true /\ r = (0, Some (mkVma start end_ flags)) /\
      mmap_list mm' ≡ₚ mkVma start end_ flags :: mmap_list mm))).
Proof.
  intros Hwf Ha Hlen Hov. assert (Hal : is_u32 (addr + len)) by (unfold is_u32 in *; lia).
  pose proof (mm_map_runs ok addr len flags mm Hwf Ha) as H. cbv zeta in H.
  rewrite u32_small, rounddown_spec in H by (done || addr; lia). change (2 ^ PGSHIFT) with 4096 in H.
  destruct (roundup_spec (addr + len) PGSHIFT Hal) as [_ Hr]; [done|change (2 ^ PGSHIFT) with 4096; lia|].
  change (2 ^ PGSHIFT) with 4096 in Hr.
  eapply runs_mono; [exact H|]. cbv beta zeta. intros r mm' (?&?&?&?). split_and!; try done; lia.
Qed.

(** ** [user_mem_check] *)

Definition vma_grants (write : bool) (v : vma_struct) (x : Z) : Prop :=
  covers v x /\ Z.land (vm_flags v) (if write then VM_WRITE else VM_READ) <> 0 /\
  (write = true -> Z.land (vm_flags v) VM_STACK <> 0 -> vm_start v + PGSIZE <= x).
Definition byte_ok (l : list vma_struct) (write : bool) (x : Z) : Prop :=
  exists v, (v ∈ l) /\ vma_grants write v x.

(** The areas that can still be met from [start] on. *)
Definition ahead (l : list vma_struct) (start : Z) : list vma_struct := filter (fun v => start < vm_end v) l.

Lemma ahead_lt l v start : v ∈ l -> start < vm_end v -> (length (ahead l (vm_end v)) < length (ahead l start))%nat.
Proof.
  intros Hv Hs. unfold ahead. induction l as [|w l IH]; [by apply elem_of_nil in Hv|].
  assert (Hle : (length (filter (fun u => (vm_end v < vm_end u)%Z) l) <= length (filter (fun u => (start < vm_end u)%Z) l))%nat).
  { clear IH Hv. induction l as [|u l IH]; [done|]. rewrite !filter_cons. repeat case_decide; cbn; lia. }
  rewrite !filter_cons. apply elem_of_cons in Hv as [<-|Hv].
  - rewrite decide_False, decide_True by lia. cbn. lia.
  - specialize (IH Hv). repeat case_decide; cbn; lia.
Qed.

Lemma byte_ok_unique l write v x : ordered l -> v ∈ l -> covers v x -> byte_ok l write x -> vma_grants write v x.
Proof.
  unfold covers. intros Ho Hv Hc (w&Hw&Hg). pose proof Hg as [Hcw _]. unfold covers in Hcw.
  destruct (ordered_sep l v w Ho Hv Hw) as [->|?]; [done|lia].
Qed.

Lemma user_mem_loop_runs end_ write fuel : forall start mm,
  mm_wf mm -> 0 <= start -> (length (ahead (mmap_list mm) start) < fuel)%nat ->
  runs (user_mem_loop fuel start end_ write) mm (fun b mm' =>
    same_areas mm mm' /\ (b = true <-> forall x, start <= x < end_ -> byte_ok (mmap_list mm) write x)).
Proof.
  induction fuel as [|fuel IH]; intros start mm Hwf H0 Hf; [lia|]. cbn [user_mem_loop].
  destruct (Z.ltb_spec start end_) as [Hlt|Hge].
  2:{ runs_steps. split; [by apply same_areas_refl|]. split; [intros _ x Hx; lia|done]. }
  pose proof Hwf as (Ho&_). runs_steps. eapply runs_mono; [by apply find_vma_runs|]. cbn beta. intros r mm1 (->&Hsame).
  destruct (same_areas_list _ _ Hsame) as [Hl _].
  assert (Hneg : forall mm1, same_areas mm mm1 -> ~ byte_ok (mmap_list mm) write start ->
    runs (ret false) mm1 (fun b mm' => same_areas mm mm' /\
      (b = true <-> forall x, start <= x < end_ -> byte_ok (mmap_list mm) write x))).
  { intros mm' Hs Hn. runs_steps. split; [done|]. split; [done|]. intros Hall. destruct Hn. apply Hall. lia. }
  destruct (find_loop (mmap_list mm) start) as [v|] eqn:Hfl.
  2:{ apply Hneg; [done|]. intros (w&Hw&Hc&_). rewrite find_loop_none in Hfl. specialize (Hfl w Hw). unfold covers in Hc. lia. }
  destruct (find_loop_some _ start v Ho Hfl) as (Hv&Hend&_).
  pose proof (ordered_ok _ _ Ho Hv) as (Hvs&Hve&_). unfold USERBASE, USERTOP in *.
  destruct (Z.ltb_spec start (vm_start v)) as [Hb|Hb].
  { apply Hneg; [done|]. intros (w&Hw&Hc&_). rewrite (find_loop_covers _ start w Ho Hw Hc) in Hfl.
    injection Hfl as ->. unfold covers in Hc. lia. }
  assert (Hcov : covers v start) by (unfold covers; lia).
  destruct (Z.eqb_spec (Z.land (vm_flags v) (if write then VM_WRITE else VM_READ)) 0) as [Hfz|Hfl0].
  { apply Hneg; [done|]. intros Hb'. by destruct (byte_ok_unique _ _ v start Ho Hv Hcov Hb') as (_&?&_). }
  rewrite u32_small by (unfold is_u32, W32, PGSIZE; lia).
  destruct (write && negb (Z.land (vm_flags v) VM_STACK =? 0) && (start <? vm_start v + PGSIZE)) eqn:Hst.
  { rewrite !andb_true_iff, negb_true_iff, Z.eqb_neq, Z.ltb_lt in Hst. destruct Hst as [[Hw Hsf] Hsl].
    apply Hneg; [done|]. intros Hb'. destruct (byte_ok_unique _ _ v start Ho Hv Hcov Hb') as (_&_&Hg). specialize (Hg Hw Hsf). lia. }
  assert (Hgr : forall x, start <= x < vm_end v -> vma_grants write v x).
  { intros x Hx. split; [unfold covers; lia|]. split; [done|]. intros Hw Hsf. subst write.
    apply Z.eqb_neq in Hsf. rewrite Hsf in Hst. cbn in Hst. apply Z.ltb_ge in Hst. lia. }
  eapply runs_mono; [apply (IH (vm_end v) mm1); [by destruct Hsame|lia|]|].
  { rewrite Hl. pose proof (ahead_lt (mmap_list mm) v start Hv Hend). lia. }
  cbn beta. intros b mm2 (Hs2&Hb2). split; [by eapply same_areas_trans|]. rewrite Hb2, Hl. split.
  - intros Hall x Hx. destruct (decide (x < vm_end v)); [exists v; split; [done|]; apply Hgr; lia|]. apply Hall. lia.
  - intros Hall x Hx. apply Hall. lia.
Qed.

Lemma user_mem_check_runs mm addr len write :
  mm_wf mm ->
  runs (user_mem_check addr len write) mm (fun b mm' =>
    same_areas mm mm' /\
    (b = true <-> USER_ACCESS addr (u32 (addr + len)) = true /\
       forall x, addr <= x < u32 (addr + len) -> byte_ok (mmap_list mm) write x)).
Proof.
  intros Hwf. unfold user_mem_check. destruct (USER_ACCESS addr (u32 (addr + len))) eqn:Hacc; cbn [negb].
  - runs_steps. eapply runs_mono; [apply user_mem_loop_runs; [done| |]|].
    + unfold USER_ACCESS, USERBASE in Hacc. rewrite !andb_true_iff, !Z.leb_le in Hacc. lia.
    + pose proof (length_filter (fun v => addr < vm_end v) (mmap_list mm)). unfold ahead. lia.
    + cbn beta. intros b mm' [Hs Hb]. split; [done|]. rewrite Hb. tauto.
  - runs_steps. split; [by apply same_areas_refl|]. split; [done|]. by intros [? _].
Qed.

(** ** The page-fault handler *)

Definition fault_perm (v : vma_struct) : Z :=
  if negb (Z.land (vm_flags v) VM_WRITE =? 0) then Z.lor PTE_U PTE_W else PTE_U.

Section Fault.
Context {pm : pmm_manager} `{!PmmOk pm}.

(** The outcome of [do_pgfault] started in [t]. *)
Definition fault_handled (a : aspace) (t : fault_state) (x e addr r : Z) (t' : fault_state) : Prop :=
  same_areas (fmm t) (fmm t') /\
  ((r = - E_INVAL /\ fvm t' = fvm t /\
    ~ exists v, (v ∈ mmap_list (fmm t)) /\ covers v addr /\ access_ok e (vm_flags v) = true) \/
   (exists v, (v ∈ mmap_list (fmm t)) /\ covers v addr /\ access_ok e (vm_flags v) = true /\
    ((r = - E_NO_MEM /\ (is_Some (maps a !! (x, vpn addr)) \/ pm_nfree (vpm (fvm t')) = 0) /\ exists a', VRep nodl a' (fvm t') /\ maps a' = maps a) \/
     (r = 0 /\ maps a !! (x, vpn addr) = None /\ exists p a', VRep nodl a' (fvm t') /\
        ~ pm_owned (vpm (fvm t)) p /\ tlb_flushed (fvm t') /\
        maps a' = <[(x, vpn addr) := (p, fault_perm v)]> (maps a))))).

(** The same in full: of the tables at most the one of the address is new, and the TLB
    is left alone unless a page is mapped. *)
Definition fault_full (a : aspace) (t : fault_state) (x e addr r : Z) (t' : fault_state) : Prop :=
  same_areas (fmm t) (fmm t') /\
  ((r = - E_INVAL /\ fvm t' = fvm t /\
    ~ exists v, (v ∈ mmap_list (fmm t)) /\ covers v addr /\ access_ok e (vm_flags v) = true) \/
   (exists v a', (v ∈ mmap_list (fmm t)) /\ covers v addr /\ access_ok e (vm_flags v) = true /\
    VRep nodl a' (fvm t') /\ dirs a' = dirs a /\ grow_tbls (tbls a) (tbls a') (x, PDX addr) /\ current_pgdir (fvm t') = current_pgdir (fvm t) /\
    ledger a (vpm (fvm t)) a' (vpm (fvm t')) /\
    ((r = - E_NO_MEM /\ (is_Some (maps a !! (x, vpn addr)) \/ pm_nfree (vpm (fvm t')) = 0) /\ maps a' = maps a /\ upages a' = upages a /\ tlb (fvm t') = tlb (fvm t)) \/
     (r = 0 /\ maps a !! (x, vpn addr) = None /\ tlb_flushed (fvm t') /\ exists p, ~ pm_owned (vpm (fvm t)) p /\
        maps a' = <[(x, vpn addr) := (p, fault_perm v)]> (maps a) /\ upages a' = {[p]} ∪ upages a)))).

Lemma fault_addr addr : is_u32 addr -> is_u32 (ROUNDDOWN_2N addr PGSHIFT) /\ vpn (ROUNDDOWN_2N addr PGSHIFT) = vpn addr /\ PDX (ROUNDDOWN_2N addr PGSHIFT) = PDX addr.
Proof.
  intros H. assert (H' : is_u32 (ROUNDDOWN_2N addr PGSHIFT) /\ vpn (ROUNDDOWN_2N addr PGSHIFT) = vpn addr) by (rewrite rounddown_spec by done; change (2 ^ PGSHIFT) with 4096; addr; mlia).
  destruct H' as [Hu Hv]. split; [done|]. split; [done|]. by rewrite (proj1 (PDX_spec addr H)), (proj1 (PDX_spec _ Hu)), Hv.
Qed.

Lemma do_pgfault_full a t x e addr :
  mm_wf (fmm t) -> VRep nodl a (fvm t) -> x ∈ dirs a -> pgdir (fmm t) = kva x -> is_u32 addr ->
  runs (do_pgfault pm e addr) t (fault_full a t x e addr).
Proof.
  intros Hwf HV Hx Hpg Hla. pose proof Hwf as (Ho&_). unfold do_pgfault, in_mm. runs_steps.
  eapply runs_mono; [by apply find_vma_runs|]. cbn beta. intros r mm1 (->&Hsame). runs_steps. cbn [fmm fvm].
  destruct (same_areas_list _ _ Hsame) as [Hl Hpg1].
  assert (Hneg : forall t', fmm t' = mm1 -> fvm t' = fvm t ->
    (~ exists v, (v ∈ mmap_list (fmm t)) /\ covers v addr /\ access_ok e (vm_flags v) = true) ->
    runs (ret (- E_INVAL)) t' (fault_full a t x e addr)).
  { intros t' Ht1 Ht2 Hn. runs_steps. split; [by rewrite Ht1|]. left. done. }
  destruct (find_loop (mmap_list (fmm t)) addr) as [v|] eqn:Hf.
  2:{ apply Hneg; [done..|]. intros (w&Hw&Hc&_). rewrite find_loop_none in Hf. specialize (Hf w Hw). unfold covers in Hc. lia. }
  destruct (find_loop_some _ addr v Ho Hf) as (Hv&Hend&_).
  destruct (Z.ltb_spec addr (vm_start v)) as [Hb|Hb].
  { apply Hneg; [done..|]. intros (w&Hw&Hc&_). rewrite (find_loop_covers _ addr w Ho Hw Hc) in Hf.
    injection Hf as ->. unfold covers in Hc. lia. }
  assert (Hcov : covers v addr) by (unfold covers; lia).
  destruct (access_ok e (vm_flags v)) eqn:Hacc; cbn [negb].
  2:{ apply Hneg; [done..|]. intros (w&Hw&Hc&Hwa). rewrite (find_loop_covers _ addr w Ho Hw Hc) in Hf. congruence. }
  fold (fault_perm v). destruct (fault_addr addr Hla) as (Hla'&Hvpn&Hpdx). unfold in_vm. runs_steps. cbn [fvm fmm]. rewrite Hpg1, Hpg.
  eapply runs_mono; [by eapply get_pte_runs|]. cbn beta. cbn [fvm fmm pgfault_num]. rewrite Hpdx.
  assert (Hmem : forall t' a', fmm t' = mm1 -> VRep nodl a' (fvm t') -> dirs a' = dirs a -> grow_tbls (tbls a) (tbls a') (x, PDX addr) -> current_pgdir (fvm t') = current_pgdir (fvm t) ->
    maps a' = maps a -> upages a' = upages a -> tlb (fvm t') = tlb (fvm t) -> ledger a (vpm (fvm t)) a' (vpm (fvm t')) ->
    is_Some (maps a !! (x, vpn addr)) \/ pm_nfree (vpm (fvm t')) = 0 -> runs (ret (- E_NO_MEM)) t' (fault_full a t x e addr)).
  { intros t' a' Ht1 HV' Hd Htb Hc Hm Hu Ht Hl' Hz. runs_steps. split; [by rewrite Ht1|]. right. exists v, a'. do 8 (split; [done|]). left. done. }
  intros [w|] s1; [|intros (->&_&Hz); apply (Hmem _ a); try done; [apply grow_tbls_refl|by eapply ledger_refl|right; by apply Hz]].
  intros (tb&a1&->&Hg&_). pose proof (grown_ledger _ _ _ _ _ _ _ _ HV Hg) as Hl1. pose proof Hg as (HV1&Hd1&Hm1&Hu1&Hgr&Ht1&_&He1&_&Hpres&_).
  assert (Hc1 : current_pgdir s1 = current_pgdir (fvm t) /\ tlb s1 = tlb (fvm t)) by (by rewrite He1). destruct Hc1 as [Hc1 Htl1]. rewrite <-Hpdx in Ht1.
  unfold ldw. runs_steps. cbn [fvm fmm pgfault_num]. rewrite (pte_read _ _ _ x _ tb HV1 Hla' Ht1), Hvpn, Hm1.
  destruct (maps a !! (x, vpn addr)) as [[q qp]|] eqn:Hmq.
  { assert (Hmq1 : maps a1 !! (x, vpn addr) = Some (q, qp)) by (by rewrite Hm1).
    destruct (mapped_page _ _ _ _ _ _ _ HV1 Hmq1) as (_&Hqp&Hq&_). pose proof (r_npage _ _ _ HV1).
    destruct (Z.eqb_spec (entry q qp) 0); [by destruct (entry_nonzero q qp); lia|]. apply (Hmem _ a1); try done. by left. }
  cbn [Z.eqb]. runs_steps. cbn [fvm fmm pgfault_num].
  eapply runs_mono; [apply (pgdir_alloc_page_runs a1 s1 x _ (fault_perm v) HV1); [by rewrite Hd1|done|]|].
  { unfold fault_perm. by destruct (negb _). }
  cbn beta. cbn [fvm fmm pgfault_num]. intros [p|] s2.
  - intros (Hno&Hfl&Hc2&a'&HV'&(Hd'&Hgr'&Hm'&Hu')&Hl2). rewrite Hvpn in *. runs_steps. split; [done|]. right. exists v, a'. do 4 (split; [done|]).
    split; [by rewrite Hd'|]. cbn in Hgr', Hm', Hu'. rewrite <-(proj1 (PDX_spec addr Hla)) in Hgr'. split; [by eapply grow_tbls_trans|]. split; [cbn; by rewrite Hc2|]. split; [by eapply ledger_trans|]. right.
    split; [done|]. split; [done|]. split; [done|]. exists p. split; [intros Hop; by apply Hno, Hpres|]. split; [by rewrite Hm', Hm1|].
    rewrite Hu', Hm1, Hmq, Hu1. clear. set_solver.
  - intros (HV2&Ht2&Hc2&Ho2&Hz). apply (Hmem _ a1); try done; cbn; try congruence.
    + eapply ledger_trans; [exact Hl1|]. by apply (ledger_same nodl).
    + right. destruct Hz as [|[_ Hz]]; [done|]. congruence.
Qed.

Lemma do_pgfault_runs a t x e addr :
  mm_wf (fmm t) -> VRep nodl a (fvm t) -> x ∈ dirs a -> pgdir (fmm t) = kva x -> is_u32 addr ->
  runs (do_pgfault pm e addr) t (fault_handled a t x e addr).
Proof.
  intros Hwf HV0 Hx Hpg Hla. eapply runs_mono; [by apply (do_pgfault_full a t x e addr)|]. cbn beta. intros r t' [Hs [H|(v&a'&Hv&Hc&Ho&HV&_&_&_&_&H)]]; (split; [done|]); [by left|right].
  exists v. do 3 (split; [done|]). destruct H as [(->&Hz&Hm&_)|(->&Hn&Hf&p&Hp&Hm&_)]; [left|right]; (split; [done|]); [split; [done|]; by exists a'|]. split; [done|]. by exists p, a'.
Qed.
End Fault.

(** ** Tearing down an address space *)

Section Exit.
Context {pm : pmm_manager} `{!PmmOk pm}.
Implicit Types (a : aspace) (s : vm) (l : list vma_struct).

Definition in_areas l (v : Z) : Prop := exists w, (w ∈ l) /\ covers w (4096 * v).
Definition table_of_areas l (i : Z) : Prop :=
  exists w, (w ∈ l) /\ vm_start w / 4194304 <= i < (vm_end w + 4194303) / 4194304.

Lemma vma_access w : vma_ok w -> USER_ACCESS (vm_start w) (vm_end w) = true /\
  vm_start w mod 4096 = 0 /\ vm_end w mod 4096 = 0 /\
  forall v, vpn (vm_start w) <= v < vpn (vm_end w) <-> covers w (4096 * v).
Proof.
  intros (?&?&?&?). split_and!; try done.
  - unfold USER_ACCESS. rewrite !andb_true_iff, !Z.leb_le, Z.ltb_lt. lia.
  - intros v. unfold covers, vpn. mlia.
Qed.

(** The user pages that are left are those with a mapping (or that had none before). *)
Definition still_mapped a a' : Prop :=
  forall p, p ∈ upages a' <-> p ∈ upages a /\ (count p (maps a') = 0 -> count p (maps a) = 0).

Lemma still_mapped_trans a1 a2 a3 : maps a2 ⊆ maps a1 -> maps a3 ⊆ maps a2 -> still_mapped a1 a2 -> still_mapped a2 a3 -> still_mapped a1 a3.
Proof.
  intros Hs1 Hs2 H1 H2 p. rewrite (H2 p), (H1 p). pose proof (count_zero_sub p _ _ Hs1). pose proof (count_zero_sub p _ _ Hs2). tauto.
Qed.

Lemma exit_unmap_runs x l : forall a s,
  (forall w, w ∈ l -> vma_ok w) -> VRep nodl a s -> TlbOk a s -> x ∈ dirs a ->
  runs (exit_unmap pm l (kva x)) s (fun _ s' => exists a',
    VRep nodl a' s' /\ TlbOk a' s' /\ dirs a' = dirs a /\ tbls a' = tbls a /\ maps a' ⊆ maps a /\
    (forall v, in_areas l v -> maps a' !! (x, v) = None) /\
    (forall y v, ~ (y = x /\ in_areas l v) -> maps a' !! (y, v) = maps a !! (y, v)) /\ still_mapped a a' /\ ledger a (vpm s) a' (vpm s')).
Proof.
  induction l as [|w l IH]; intros a s Hok HV Ht Hx; cbn [exit_unmap].
  - runs_steps. exists a. split_and!; try done; [intros v (w&Hw&_); by apply elem_of_nil in Hw|intros p; tauto|by eapply ledger_refl].
  - destruct (vma_access w (Hok w ltac:(left))) as (Hacc&Ha1&Ha2&Hcov). runs_steps.
    eapply runs_mono; [by apply unmap_range_runs|]. cbn beta. intros _ s1 (a1&HU&HV1&Hk1&Htl1).
    pose proof (range_as_sub _ _ _ _ _ HU) as Hsub1. destruct HU as (Hd1&Ht1&Hin1&Hout1&Hu1).
    assert (Hl1 : ledger a (vpm s) a1 (vpm s1)) by (apply (kept_ledger nodl); try done; intros p Hp; by apply Hu1).
    eapply runs_mono; [apply (IH a1 s1); [intros u Hu; apply Hok; by right|done|done|by rewrite Hd1]|]. cbn beta.
    intros _ s2 (a2&HV2&Htl2&Hd2&Ht2&Hsub2&Hin2&Hout2&Hu2&Hl2). exists a2. split_and!; try done; try congruence; [by etrans| | |by apply (still_mapped_trans a a1 a2)|by eapply ledger_trans].
    + intros v (u&[->|Hu]%elem_of_cons&Hc); [|apply Hin2; by exists u].
      eapply lookup_weaken_None; [|exact Hsub2]. apply Hin1. split; [done|]. by apply Hcov.
    + intros y v Hn. rewrite Hout2, Hout1; [done| |].
      * intros [Hy Hv]. cbn in *. apply Hn. split; [done|]. exists w. split; [left|]. by apply Hcov.
      * intros [Hy (u&Hu&Hc)]. apply Hn. split; [done|]. exists u. split; [by right|done].
Qed.

Lemma exit_tables_runs x l : forall a s,
  (forall w, w ∈ l -> vma_ok w) -> VRep nodl a s -> x ∈ dirs a -> (forall v, maps a !! (x, v) = None) ->
  runs (exit_tables pm l (kva x)) s (fun _ s' => exists a',
    VRep nodl a' s' /\ dirs a' = dirs a /\ maps a' = maps a /\ tbls a' ⊆ tbls a /\
    (forall i, table_of_areas l i -> tbls a' !! (x, i) = None) /\
    (forall y i, ~ (y = x /\ table_of_areas l i) -> tbls a' !! (y, i) = tbls a !! (y, i)) /\
    tlb s' = tlb s /\ current_pgdir s' = current_pgdir s /\ upages a' = upages a /\ ledger a (vpm s) a' (vpm s')).
Proof.
  induction l as [|w l IH]; intros a s Hok HV Hx Hno; cbn [exit_tables].
  - runs_steps. exists a. split_and!; try done; [intros i (w&Hw&_); by apply elem_of_nil in Hw|by eapply ledger_refl].
  - destruct (vma_access w (Hok w ltac:(left))) as (Hacc&Ha1&Ha2&_). runs_steps.
    eapply runs_mono; [apply (exit_range_runs a s x); try done; intros v _; apply Hno|]. cbn beta. intros _ s1 (a1&Hfr1). pose proof (freed_ledger _ _ _ _ _ _ _ HV Hfr1) as Hl1. destruct Hfr1 as (HV1&Hd1&Hm1&Hu1&Ht1&He1&_).
    assert (Hsub1 : tbls a1 ⊆ tbls a).
    { apply map_subseteq_spec. intros [y i] t Hk. rewrite Ht1 in Hk. by case_decide. }
    eapply runs_mono; [apply (IH a1 s1); [intros u Hu; apply Hok; by right|done|by rewrite Hd1|intros v; by rewrite Hm1]|].
    cbn beta. intros _ s2 (a2&HV2&Hd2&Hm2&Hsub2&Hin2&Hout2&Htl2&Hcr2&Hu2&Hl2).
    exists a2. split_and!; try done; try congruence; [by etrans| | |by rewrite Htl2, He1|by rewrite Hcr2, He1|by eapply ledger_trans].
    + intros i (u&[->|Hu]%elem_of_cons&Hc); [|apply Hin2; by exists u].
      eapply lookup_weaken_None; [|exact Hsub2]. by rewrite Ht1, decide_True.
    + intros y i Hn. rewrite Hout2, Ht1; [rewrite decide_False; [done|]|].
      * intros [Hy Hi]. apply Hn. split; [done|]. exists w. split; [left|done].
      * intros [Hy (u&Hu&Hc)]. apply Hn. split; [done|]. exists u. split; [by right|done].
Qed.

Lemma exit_mmap_runs a s mm x :
  mm_wf mm -> mm_count mm = 0 -> VRep nodl a s -> TlbOk a s -> pgdir mm = kva x -> x ∈ dirs a ->
  (forall v p, maps a !! (x, v) = Some p -> in_areas (mmap_list mm) v) ->
  runs (exit_mmap pm mm) s (fun _ s' => exists a',
    VRep nodl a' s' /\ TlbOk a' s' /\ dirs a' = dirs a /\
    (forall v, maps a' !! (x, v) = None) /\
    (forall y v, y <> x -> maps a' !! (y, v) = maps a !! (y, v)) /\
    (forall i, table_of_areas (mmap_list mm) i -> tbls a' !! (x, i) = None) /\
    (forall y i, y <> x -> tbls a' !! (y, i) = tbls a !! (y, i)) /\ tbls a' ⊆ tbls a /\
    still_mapped a a' /\ ledger a (vpm s) a' (vpm s')).
Proof.
  intros (Ho&_) Hc HV Ht Hpg Hx Hin. unfold exit_mmap. runs_steps. apply runs_assert; [by apply Z.eqb_eq|]. rewrite Hpg. runs_steps.
  assert (Hok : forall w, w ∈ mmap_list mm -> vma_ok w) by (intros w; by apply ordered_ok).
  eapply runs_mono; [by apply exit_unmap_runs|]. cbn beta. intros _ s1 (a1&HV1&Htl1&Hd1&Ht1&Hsub&Hin1&Hout1&Hu1&Hl1).
  assert (Hnone : forall v, maps a1 !! (x, v) = None).
  { intros v. destruct (maps a1 !! (x, v)) as [p|] eqn:Hm; [|done].
    rewrite Hin1 in Hm; [done|]. eapply Hin, lookup_weaken; done. }
  eapply runs_mono; [apply (exit_tables_runs x _ a1 s1 Hok HV1); [by rewrite Hd1|done]|]. cbn beta.
  intros _ s2 (a2&HV2&Hd2&Hm2&Hts2&Hin2&Hout2&Htl2&Hcr2&Hu2&Hl2). exists a2. split_and!; try done; try congruence.
  - intros i e d Hi He Hcd Hdd. rewrite Htl2 in He. rewrite Hcr2 in Hcd. rewrite Hd2 in Hdd. unfold slot_ok. rewrite Hm2.
    exact (Htl1 i e d Hi He Hcd Hdd).
  - intros y v Hy. rewrite Hm2. apply Hout1. by intros [? _].
  - intros y i Hy. rewrite Hout2, Ht1; [done|]. by intros [? _].
  - by rewrite <- Ht1.
  - intros p. rewrite Hu2, Hm2. apply Hu1.
  - by eapply ledger_trans.
Qed.
End Exit.

(** ** Copying a string from user space *)

Lemma strnlen_spec n : forall src m,
  0 <= strnlen n src m <= Z.of_nat n /\
  (forall i, 0 <= i < strnlen n src m -> m (src + i) <> 0) /\
  (strnlen n src m < Z.of_nat n -> m (src + strnlen n src m) = 0).
Proof.
  induction n as [|n IH]; intros src m; cbn [strnlen]; [split_and!; try lia; intros; lia|].
  destruct (Z.eqb_spec (m src) 0) as [Hz|Hz].
  - split; [lia|]. split; [intros; lia|]. by rewrite Z.add_0_r.
  - destruct (IH (src + 1) m) as (Hb&Hne&He). split; [lia|]. split.
    + intros i Hi. destruct (decide (i = 0)) as [->|]; [by rewrite Z.add_0_r|].
      replace (src + i) with (src + 1 + (i - 1)) by lia. apply Hne. lia.
    + intros Hlt. replace (src + (1 + strnlen n (src + 1) m)) with (src + 1 + strnlen n (src + 1) m) by lia. apply He. lia.
Qed.

(** [n] bytes and then a NUL, all readable, at [src]. *)
Definition user_string (l : list vma_struct) (m : bytes) (src n : Z) : Prop :=
  (forall i, 0 <= i < n -> m (src + i) <> 0) /\ m (src + n) = 0 /\
  forall i, 0 <= i <= n -> byte_ok l false (src + i).
Definition no_overlap (dst src n : Z) : Prop := dst + n <= src \/ src + n <= dst.

Lemma bcopy_out dst src n m x : x < dst \/ dst + n <= x -> bcopy dst src n m x = m x.
Proof. intros Hx. unfold bcopy. destruct (Z.leb_spec dst x), (Z.ltb_spec x (dst + n)); try done; lia. Qed.
Lemma bcopy_in dst src n m i : 0 <= i < n -> bcopy dst src n m (dst + i) = m (src + i).
Proof.
  intros Hi. unfold bcopy. rewrite (proj2 (Z.leb_le _ _)), (proj2 (Z.ltb_lt _ _)) by lia. cbn. f_equal. lia.
Qed.

(** What a successful copy leaves: the string of length [n] at [dst], and
    nothing else changed. *)
Definition string_copied (l : list vma_struct) (m : bytes) (dst src maxn : Z) (b : bool) (m' : bytes) : Prop :=
  (forall x, x < dst \/ dst + maxn <= x -> m' x = m x) /\
  (b = true -> exists n, 0 <= n < maxn /\ user_string l m src n /\ forall i, 0 <= i <= n -> m' (dst + i) = m (src + i)) /\
  (b = false -> ~ exists n, 0 <= n < maxn /\ user_string l m src n).

Section CopyString.
Variables (l : list vma_struct) (mm : mm_struct).
Hypothesis Hwf : mm_wf mm.
Hypothesis Hl : mmap_list mm = l.

(** The areas are page-aligned: within a page, readable is all or nothing. *)
Lemma page_all_or_nothing src part i :
  0 < part -> src / 4096 = (src + part - 1) / 4096 -> 0 <= i < part ->
  byte_ok l false src -> byte_ok l false (src + i).
Proof.
  destruct Hwf as (Ho&_). rewrite Hl in Ho. intros Hp Hpg Hi (v&Hv&Hc&Hf&_). exists v. split; [done|].
  destruct (ordered_ok _ _ Ho Hv) as (_&_&Ha1&Ha2). unfold vma_grants, covers in *. split; [|split; [done|done]]. mlia.
Qed.

Lemma byte_ok_user x : byte_ok l false x -> USERBASE <= x < USERTOP.
Proof.
  destruct Hwf as (Ho&_). rewrite Hl in Ho. intros (v&Hv&Hc&_). destruct (ordered_ok _ _ Ho Hv) as (?&?&_). unfold covers in Hc. lia.
Qed.

(** The check of one part. *)
Lemma part_check mm1 src part :
  same_areas mm mm1 -> 0 < part -> src / 4096 = (src + part - 1) / 4096 ->
  runs (user_mem_check src part false) mm1 (fun b mm2 =>
    same_areas mm mm2 /\ (b = true <-> byte_ok l false src)).
Proof.
  intros Hs Hp Hpg. destruct (same_areas_list _ _ Hs) as [Hl1 _]. eapply runs_mono; [apply user_mem_check_runs, Hs|].
  cbn beta. intros b mm2 [Hs2 Hb]. split; [by eapply same_areas_trans|]. rewrite Hb, Hl1, Hl. split.
  - intros [Hacc Hall]. apply Hall. unfold USER_ACCESS in Hacc. rewrite !andb_true_iff, !Z.leb_le, Z.ltb_lt in Hacc. lia.
  - intros Hok. pose proof (byte_ok_user _ Hok) as Hu. assert (Hend : byte_ok l false (src + (part - 1)))
      by (apply (page_all_or_nothing src part); [done..|lia|done]).
    pose proof (byte_ok_user _ Hend) as Hue. unfold USERBASE, USERTOP in *.
    rewrite u32_small by (unfold is_u32, W32; lia). split.
    + unfold USER_ACCESS, USERBASE, USERTOP. rewrite !andb_true_iff, !Z.leb_le, Z.ltb_lt. lia.
    + intros x Hx. replace x with (src + (x - src)) by lia. apply (page_all_or_nothing src part); [done..|lia|done].
Qed.

Lemma copy_string_loop_runs fuel : forall dst src maxn part mm1 m,
  same_areas mm mm1 -> 0 <= src -> 0 < maxn -> 0 < part <= 4096 -> (src + part) mod 4096 = 0 ->
  src / 4096 = (src + part - 1) / 4096 ->
  maxn <= part + 4096 * (Z.of_nat fuel - 1) -> 0 <= dst -> dst + maxn <= W32 -> no_overlap dst src maxn ->
  runs (copy_string_loop fuel dst src maxn part) (mm1, m) (fun b t' =>
    same_areas mm (fst t') /\ string_copied l m dst src maxn b (snd t')).
Proof.
  induction fuel as [|fuel IH]; intros dst src maxn part mm1 m Hs H0 Hn Hp Hpal Hpg Hf Hd Hdw Hnov; [lia|].
  cbn [copy_string_loop]. set (q := if maxn <? part then maxn else part).
  assert (Hq : q = Z.min maxn part) by (unfold q; destruct (Z.ltb_spec maxn part); lia). clearbody q.
  assert (Hqp : 0 < q <= part) by lia. assert (Hqpg : src / 4096 = (src + q - 1) / 4096) by mlia.
  unfold on_mm. runs_steps. cbn [fst snd]. eapply runs_mono; [apply part_check; [done|lia|done]|]. cbn beta. intros b mm2 [Hs2 Hb].
  destruct b; cbn [negb]; cycle 1.
  { runs_steps. cbn. split; [done|]. split; [done|]. split; [done|]. intros _ (n&Hn'&(_&_&Hr)).
    assert (false = true) by (apply Hb; rewrite <- (Z.add_0_r src); apply Hr; lia). done. }
  pose proof (proj1 Hb eq_refl) as Hok. pose proof (byte_ok_user _ Hok) as Hu.
  assert (Hread : forall i, 0 <= i < q -> byte_ok l false (src + i)) by (intros i Hi; apply (page_all_or_nothing src q); [lia|done|lia|done]).
  runs_steps. cbn [fst snd]. destruct (strnlen_spec (Z.to_nat q) src m) as (Hlen&Hnz&Hz).
  set (alen := strnlen (Z.to_nat q) src m) in *. destruct (Z.ltb_spec alen q) as [Hal|Hal].
  - runs_steps. cbn [fst snd]. split; [done|]. unfold no_overlap in Hnov. split; [|split; [|done]].
    + intros x Hx. apply bcopy_out. lia.
    + intros _. exists alen. split; [lia|]. split.
      * split; [done|]. split; [apply Hz; lia|]. intros i Hi. apply Hread. lia.
      * intros i Hi. apply bcopy_in. lia.
  - assert (Hnz' : forall i, 0 <= i < q -> m (src + i) <> 0) by (intros i Hi; apply Hnz; lia).
    destruct (Z.eqb_spec q maxn) as [Hqm|Hqm].
    + runs_steps. cbn. split; [done|]. split; [done|]. split; [done|]. intros _ (n&Hn'&(_&Hz0&_)). by apply (Hnz' n); [lia|].
    + assert (Hlt : part < maxn) by lia. assert (q = part) as -> by lia. clear Hq. runs_steps. cbn [fst snd].
      assert (Hend : byte_ok l false (src + (part - 1))) by (apply Hread; lia). pose proof (byte_ok_user _ Hend) as Hue.
      unfold USERBASE, USERTOP, no_overlap, PGSIZE in *.
      rewrite !u32_small by (unfold is_u32, W32 in *; lia).
      eapply runs_mono; [apply (IH (dst + part) (src + part) (maxn - part) 4096 mm2 (bcopy dst src part m)); try done; try lia; try mlia; unfold no_overlap; lia|].
      cbn beta. intros b t' [Hs' (Hout&Htrue&Hfalse)]. split; [done|].
      assert (Hsrc : forall x, src + part <= x < src + maxn -> bcopy dst src part m x = m x) by (intros x Hx; apply bcopy_out; lia).
      split; [|split].
      * intros x Hx. rewrite Hout by lia. apply bcopy_out. lia.
      * intros Hbt. destruct (Htrue Hbt) as (n&Hn'&(Hnz2&Hz2&Hr2)&Hcp). exists (part + n). split; [lia|]. split.
        -- split; [|split].
           ++ intros i Hi. destruct (decide (i < part)); [apply Hnz'; lia|].
              replace (src + i) with (src + part + (i - part)) by lia. rewrite <- Hsrc by lia. apply Hnz2. lia.
           ++ rewrite <- Hz2. rewrite Hsrc by lia. f_equal. lia.
           ++ intros i Hi. destruct (decide (i < part)); [apply Hread; lia|].
              replace (src + i) with (src + part + (i - part)) by lia. apply Hr2. lia.
        -- intros i Hi. destruct (decide (i < part)).
           ++ rewrite Hout by lia. apply bcopy_in. lia.
           ++ replace (dst + i) with (dst + part + (i - part)) by lia. rewrite Hcp, Hsrc by lia. f_equal. lia.
      * intros Hbf (n&Hn'&(Hnz2&Hz2&Hr2)). assert (part <= n).
        { destruct (decide (n < part)); [|lia]. exfalso. by apply (Hnz' n); [lia|]. }
        apply (Hfalse Hbf). exists (n - part). split; [lia|]. split; [|split].
        -- intros i Hi. rewrite Hsrc by lia. replace (src + part + i) with (src + (part + i)) by lia. apply Hnz2. lia.
        -- rewrite Hsrc by lia. rewrite <- Hz2. f_equal. lia.
        -- intros i Hi. replace (src + part + i) with (src + (part + i)) by lia. apply Hr2. lia.
Qed.
End CopyString.

(** ** Theorems *)

(** The cache does not change what [find_vma] answers: it is the first area
    that ends after [addr], whatever was looked up before, and the only area
    that can contain [addr]. *)
Theorem find_vma_equiv mm addr :
  mm_wf mm ->
  runs (find_vma addr) mm (fun r mm' =>
    r = find_loop (mmap_list mm) addr /\ same_areas mm mm' /\
    forall v, v ∈ mmap_list mm -> covers v addr -> r = Some v).
Proof.
  intros Hwf. eapply runs_mono; [by apply find_vma_runs|]. cbn beta. intros r mm' [-> Hs]. split_and!; try done.
  intros v Hv Hc. by apply find_loop_covers; [apply Hwf|..].
Qed.

(** [mm_map] never trips the overlap assertions: it rejects a range that is
    not in user space or meets an area, reports exhausted memory, and otherwise
    adds exactly the page-rounded range; the areas stay sorted and disjoint. *)
Theorem mm_map_correct ok addr len flags mm :
  mm_wf mm -> is_u32 addr -> 0 <= len -> addr + len + 4095 < W32 ->
  runs (mm_map ok addr len flags) mm (fun r mm' =>
    let start := addr - addr mod 4096 in
    let end_ := ROUNDUP_2N (addr + len) PGSHIFT in
    mm_wf mm' /\ pgdir mm' = pgdir mm /\ addr + len <= end_ < addr + len + 4096 /\
    ((~ fits mm start end_ /\ r = (- E_INVAL, None) /\ mmap_list mm' = mmap_list mm) \/
     (fits mm start end_ /\ ok = false /\ r = (- E_NO_MEM, None) /\ mmap_list mm' = mmap_list mm) \/
     (fits mm start end_ /\ ok = true /\ r = (0, Some (mkVma start end_ flags)) /\
      mmap_list mm' ≡ₚ mkVma start end_ flags :: mmap_list mm))).
Proof. intros. eapply runs_mono; [by apply mm_map_fits|]. cbv beta zeta. tauto. Qed.

(** C3: [user_mem_check], called with any 32-bit address and length, terminates and says
    yes exactly when the buffer is not empty, does not run past the end of user space (so
    one that wraps around the address space is refused) and every byte of it is in an
    area with the permission asked for, where a write may not touch the lowest page of a
    stack area, its guard page.  Only the cached area of the address space may change. *)
Theorem user_mem_check_exact mm addr len write :
  mm_wf mm -> is_u32 addr -> is_u32 len ->
  runs (user_mem_check addr len write) mm (fun b mm' =>
    same_areas mm mm' /\
    (b = true <-> 0 < len /\ USERBASE <= addr /\ addr + len <= USERTOP /\
       forall x, addr <= x < addr + len -> byte_ok (mmap_list mm) write x)).
Proof.
  intros Hwf Ha Hl. eapply runs_mono; [by apply user_mem_check_runs|]. cbn beta. intros b mm' [Hs Hb].
  split; [done|]. rewrite Hb. unfold USER_ACCESS. rewrite !andb_true_iff, !Z.leb_le, Z.ltb_lt.
  destruct (decide (addr + len < W32)) as [Hov|Hov].
  - rewrite u32_small by (unfold is_u32 in *; lia). intuition lia.
  - assert (He : u32 (addr + len) = addr + len - W32) by (unfold is_u32, u32, W32 in *; mlia). rewrite He.
    unfold is_u32, USERTOP, W32 in *. split; intros H; exfalso; lia.
Qed.

(** The page-fault handler refuses exactly the accesses no area allows; else it
    either runs out of memory (or finds the page mapped already) without
    changing a mapping, or maps one fresh page at the faulting page, writable
    iff the area is. *)
Theorem do_pgfault_correct {pm} `{!PmmOk pm} a t x e addr :
  mm_wf (fmm t) -> VRep nodl a (fvm t) -> x ∈ dirs a -> pgdir (fmm t) = kva x -> is_u32 addr ->
  runs (do_pgfault pm e addr) t (fun r t' => fault_handled a t x e addr r t').
Proof. intros. by apply do_pgfault_runs. Qed.

(** [exit_mmap] returns and leaves the process without a mapping and without
    the page tables of its areas; other processes keep theirs. *)
Theorem exit_mmap_clears {pm} `{!PmmOk pm} a s mm x :
  mm_wf mm -> mm_count mm = 0 -> VRep nodl a s -> TlbOk a s -> pgdir mm = kva x -> x ∈ dirs a ->
  (forall v p, maps a !! (x, v) = Some p -> in_areas (mmap_list mm) v) ->
  (forall i t, tbls a !! (x, i) = Some t -> table_of_areas (mmap_list mm) i) ->
  runs (exit_mmap pm mm) s (fun _ s' => exists a',
    VRep nodl a' s' /\ TlbOk a' s' /\ dirs a' = dirs a /\
    (forall v, maps a' !! (x, v) = None) /\ (forall i, tbls a' !! (x, i) = None) /\
    (forall y v, y <> x -> maps a' !! (y, v) = maps a !! (y, v) /\ tbls a' !! (y, v) = tbls a !! (y, v))).
Proof.
  intros Hwf Hc HV Ht Hpg Hx Hin Htb. eapply runs_mono; [by apply (exit_mmap_runs a s mm x)|]. cbn beta.
  intros _ s' (a'&HV'&Ht'&Hd&Hm1&Hm2&Ht1&Ht2&Hsub&_). exists a'. split_and!; try done; [|auto].
  intros i. destruct (tbls a' !! (x, i)) as [t|] eqn:Hti; [|done]. pose proof (lookup_weaken _ _ _ _ Hti Hsub) as Hold.
  rewrite (Ht1 i) in Hti; [done|]. by eapply Htb.
Qed.

(** C29: [copy_string] terminates and succeeds exactly when a readable,
    NUL-terminated string shorter than [maxn] starts at [src]; then the buffer
    holds it, and nothing outside the buffer changes. *)
Theorem copy_string_correct mm m dst src maxn :
  mm_wf mm -> 0 <= src -> src + 4096 < W32 -> 0 < maxn -> 0 <= dst -> dst + maxn <= W32 -> no_overlap dst src maxn ->
  runs (copy_string dst src maxn) (mm, m) (fun b t' =>
    same_areas mm (fst t') /\
    (b = true <-> exists n, 0 <= n < maxn /\ user_string (mmap_list mm) m src n) /\
    (b = true -> exists n, 0 <= n < maxn /\ user_string (mmap_list mm) m src n /\
       forall i, 0 <= i <= n -> snd t' (dst + i) = m (src + i)) /\
    (forall x, x < dst \/ dst + maxn <= x -> snd t' x = m x)).
Proof.
  intros Hwf H0 Hs Hn Hd Hdw Hnov. unfold copy_string, PGSIZE. rewrite (u32_small (src + 4096)) by (unfold is_u32; lia).
  rewrite rounddown_spec by (addr; lia). change (2 ^ PGSHIFT) with 4096.
  set (part := u32 (src + 4096 - (src + 4096) mod 4096 - src)).
  assert (Hp : part = 4096 - src mod 4096) by (unfold part; rewrite u32_small by (addr; mlia); mlia).
  eapply runs_mono.
  { apply (copy_string_loop_runs (mmap_list mm) mm Hwf eq_refl); try done; try lia; try mlia; [by apply same_areas_refl|].
    rewrite Z.shiftr_div_pow2 by (cbv; done). change (2 ^ PGSHIFT) with 4096. mlia. }
  cbn beta. intros b t' [Hs' (Hout&Ht&Hf)]. split; [done|]. split; [|done]. split.
  - intros Hb. destruct (Ht Hb) as (n&?&?&_). by exists n.
  - intros Hex. destruct b; [done|]. by destruct (Hf eq_refl).
Qed.

(** ** Concrete areas: one page of data and a stack *)

Definition ex_data : vma_struct := mkVma 0x10400000 0x10401000 (Z.lor VM_READ VM_WRITE).
Definition ex_stack : vma_struct := mkVma 0x7fff0000 0x80000000 (Z.lor VM_WRITE (Z.lor VM_READ VM_STACK)).
Definition ex_mm : mm_struct := mkMm [ex_data; ex_stack] (Some ex_stack) (kva 53) 2 0 1.

Lemma ex_mm_wf : mm_wf ex_mm.
Proof.
  split_and!; try done.
  - cbn. unfold vma_ok. cbn. unfold USERBASE, USERTOP. split_and!; try lia; try done.
    + intros w ->%list_elem_of_singleton. cbn. lia.
    + by intros w ?%elem_of_nil.
  - intros v [= <-]. right. left.
Qed.

Lemma find_vma_equiv_witness : runs (find_vma 0x10400abc) ex_mm (fun r _ => r = Some ex_data).
Proof.
  eapply runs_mono; [apply (find_vma_equiv ex_mm 0x10400abc ex_mm_wf)|]. cbn beta. intros r mm' (->&_). reflexivity.
Defined.

Lemma mm_map_correct_witness :
  runs (mm_map true 0x10401800 0x1000 VM_READ) ex_mm (fun r mm' => mm_wf mm' /\
    (r = (- E_INVAL, None) \/ exists v, r = (0, Some v) /\ vm_start v = 0x10401000 /\ v ∈ mmap_list mm')).
Proof.
  eapply runs_mono; [apply (mm_map_correct true 0x10401800 0x1000 VM_READ ex_mm ex_mm_wf)|].
  - split; reflexivity || lia.
  - lia.
  - reflexivity.
  - cbv beta zeta. intros r mm' (Hwf&_&_&[(_&->&_)|[(_&[=]&_)|(_&_&->&Hp)]]); (split; [exact Hwf|]); [left; reflexivity|].
    right. eexists. split; [reflexivity|]. split; [reflexivity|]. rewrite Hp. left.
Defined.

Lemma user_mem_check_exact_witness :
  runs (user_mem_check 0x7fff0800 16 true) ex_mm (fun b _ => b <> true) /\
  runs (user_mem_check 0x10400800 0xF0000000 false) ex_mm (fun b _ => b <> true).
Proof.
  split; (eapply runs_mono; [apply (user_mem_check_exact ex_mm); [exact ex_mm_wf|split; reflexivity || lia|split; reflexivity || lia]|]).
  2: { cbn beta. intros b mm' [_ Hb] ->. destruct (proj1 Hb eq_refl) as (_&_&Hle&_). unfold USERTOP in Hle. lia. }
  - cbn beta. intros b mm' [_ Hb] ->. destruct (proj1 Hb eq_refl) as (_&_&_&Hall).
    destruct (Hall 0x7fff0800 ltac:(lia)) as (v&Hv&Hc&_&Hg). unfold covers in Hc.
    apply elem_of_cons in Hv as [->|Hv]; [cbn in Hc; lia|]. apply list_elem_of_singleton in Hv as ->.
    specialize (Hg eq_refl ltac:(cbn; done)). cbn in Hg. unfold PGSIZE in Hg. lia.
Defined.

Lemma do_pgfault_correct_witness :
  runs (do_pgfault buddy_pmm_manager 2 0x7ffff123) (mkFs ex_mm ex_vm 0) (fun r t' =>
    (r = - E_NO_MEM \/ r = 0) /\ exists a', VRep (pm := buddy_pmm_manager) nodl a' (fvm t')).
Proof.
  eapply runs_mono; [apply (do_pgfault_correct ex_as (mkFs ex_mm ex_vm 0) 53 2 0x7ffff123 ex_mm_wf ex_vm_rep)|].
  - apply (bool_decide_unpack _). reflexivity.
  - reflexivity.
  - split; reflexivity || lia.
  - cbn beta. intros r t' (_&[(_&_&Hn)|(v&_&_&_&[(->&_&a'&HV&_)|(->&_&p&a'&HV&_)])]).
    + destruct Hn. exists ex_stack. split; [right; left|]. split; [unfold covers; cbn; lia|reflexivity].
    + split; [left; reflexivity|]. exists a'. exact HV.
    + split; [right; reflexivity|]. exists a'. exact HV.
Defined.

Lemma exit_mmap_clears_witness :
  runs (exit_mmap buddy_pmm_manager ex_mm) ex_vm (fun _ s' => exists a',
    VRep (pm := buddy_pmm_manager) nodl a' s' /\ forall v, maps a' !! (53, v) = None).
Proof.
  eapply runs_mono; [apply (exit_mmap_clears ex_as ex_vm ex_mm 53 ex_mm_wf)|].
  - reflexivity.
  - exact ex_vm_rep.
  - exact ex_vm_tlb.
  - reflexivity.
  - apply (bool_decide_unpack _). reflexivity.
  - intros v p Hp. cbn in Hp. apply lookup_singleton_Some in Hp as [[= <-] _].
    exists ex_data. split; [left|]. unfold covers. cbn. lia.
  - intros i t Hp. cbn in Hp. apply lookup_singleton_Some in Hp as [[= <-] _].
    exists ex_data. split; [left|]. vm_compute. split; [discriminate|reflexivity].
  - cbn beta. intros _ s' (a'&HV&_&_&Hm&_). exists a'. split; [exact HV|exact Hm].
Defined.

(** "ab" at 0x10400ffd, copied to the kernel buffer at 0x80100000. *)
Definition ex_bytes : bytes :=
  fun x => if x =? 0x10400ffd then 97 else if x =? 0x10400ffe then 98 else 0.

Lemma copy_string_correct_witness :
  runs (copy_string 0x80100000 0x10400ffd 64) (ex_mm, ex_bytes) (fun b _ => b = true).
Proof.
  eapply runs_mono; [apply (copy_string_correct ex_mm ex_bytes 0x80100000 0x10400ffd 64 ex_mm_wf)|].
  - lia.
  - reflexivity.
  - lia.
  - lia.
  - discriminate.
  - right. lia.
  - cbn beta. intros b t' (_&Hb&_). apply Hb. exists 2. split; [lia|]. split; [|split; [reflexivity|]].
    + intros i Hi. assert (i = 0 \/ i = 1) as [-> | ->] by lia; discriminate.
    + intros i Hi. exists ex_data. split; [left|]. split; [unfold covers; cbn; lia|]. split; discriminate.
Defined.
