(* ===== verification/RbTree.v ===== *)
(** * Red-black trees (kern/libs/rb_tree.c)

    Nodes with colour and three pointers on a heap.  Two nodes are special: [nil] stands
    for no node, and the tree hangs on the left of [root].  The C macros that are
    expanded for left and right are one definition with a direction. *)

From stdpp Require Import base gmap list.
From Stdlib Require Import ZArith Lia Bool.
From S2P Require Import Prelude.

Record rb_node := mkRb { n_red : bool; n_parent : Z; n_left : Z; n_right : Z }.
Record rb_tree := mkRbTree { nil : Z; root : Z }.
Abbreviation rbheap := (gmap Z rb_node).

Inductive dir := Left | Right.
Definition opp (d : dir) : dir := match d with Left => Right | Right => Left end.
Definition child (d : dir) (n : rb_node) : Z := match d with Left => n_left n | Right => n_right n end.
Definition set_red (v : bool) (n : rb_node) : rb_node := mkRb v (n_parent n) (n_left n) (n_right n).
Definition set_up (v : Z) (n : rb_node) : rb_node := mkRb (n_red n) v (n_left n) (n_right n).
Definition set_child (d : dir) (v : Z) (n : rb_node) : rb_node :=
  match d with Left => mkRb (n_red n) (n_parent n) v (n_right n) | Right => mkRb (n_red n) (n_parent n) (n_left n) v end.

Definition nd (p : Z) : M rbheap rb_node := let! h := get in deref (h !! p).
Definition upd (p : Z) (f : rb_node -> rb_node) : M rbheap unit := let! n := nd p in modify (fun h => <[p := f n]> h).

(** [None]: the [kmalloc] fails. *)
Definition rb_node_create (p : option Z) : M rbheap (option Z) :=
  match p with None => ret None | Some p => do! modify (fun h => <[p := mkRb false 0 0 0]> h) in ret (Some p) end.
Definition kfree_node (p : Z) : M rbheap unit := modify (fun h => delete p h).

Definition rb_tree_empty (tree : rb_tree) : M rbheap bool := let! r := nd (root tree) in ret (n_left r =? nil tree).

(** [mem]: whether the [kmalloc] of the [rb_tree] succeeds. *)
Definition rb_tree_create (mem : bool) (nil_at root_at : option Z) : M rbheap (option rb_tree) :=
  if negb mem then ret None
  else
    let! n := rb_node_create nil_at in
    match n with
    | None => ret None
    | Some n =>
        do! upd n (set_child Right n) in
        do! upd n (set_child Left n) in
        do! upd n (set_up n) in
        do! upd n (set_red false) in
        let! r := rb_node_create root_at in
        match r with
        | None => do! kfree_node n in ret None
        | Some r =>
            do! upd r (set_child Right n) in
            do! upd r (set_child Left n) in
            do! upd r (set_up n) in
            do! upd r (set_red false) in
            ret (Some (mkRbTree n r))
        end
    end.

Section Tree.
Variable compare : Z -> Z -> Z.
Variable tree : rb_tree.

(** [FUNC_ROTATE(func_name, _left, _right)]; [d] is [_left]. *)
Definition rotate (d : dir) (x : Z) : M rbheap unit :=
  let! nx := nd x in
  let y := child (opp d) nx in
  do! assert_ (negb (x =? root tree) && negb (x =? nil tree) && negb (y =? nil tree)) in
  let! ny := nd y in
  do! upd x (set_child (opp d) (child d ny)) in
  let! ny := nd y in
  do! (if negb (child d ny =? nil tree) then upd (child d ny) (set_up x) else ret tt) in
  let! nx := nd x in
  do! upd y (set_up (n_parent nx)) in
  let! nx := nd x in
  let! np := nd (n_parent nx) in
  do! (if x =? child d np then upd (n_parent nx) (set_child d y) else upd (n_parent nx) (set_child (opp d) y)) in
  do! upd y (set_child d x) in
  do! upd x (set_up y) in
  let! n := nd (nil tree) in
  assert_ (negb (n_red n)).
Definition rb_left_rotate : Z -> M rbheap unit := rotate Left.
Definition rb_right_rotate : Z -> M rbheap unit := rotate Right.

(** ** Insertion *)

Fixpoint insert_loop (fuel : nat) (node x y : Z) : M rbheap Z :=
  if x =? nil tree then ret y
  else
    match fuel with
    | O => nofuel
    | S fuel => let! n := nd x in insert_loop fuel node (if 0 <? compare x node then n_left n else n_right n) x
    end.
Definition rb_insert_binary (node : Z) : M rbheap unit :=
  let z := node in
  do! upd z (set_child Right (nil tree)) in
  do! upd z (set_child Left (nil tree)) in
  let! h := get in
  let! r := nd (root tree) in
  let! y := insert_loop (size h) node (n_left r) (root tree) in
  do! upd z (set_up y) in
  if (y =? root tree) || (0 <? compare y z) then upd y (set_child Left z) else upd y (set_child Right z).

Definition parent_of (x : Z) : M rbheap Z := let! n := nd x in ret (n_parent n).
Definition child_of (d : dir) (x : Z) : M rbheap Z := let! n := nd x in ret (child d n).
Definition red_of (x : Z) : M rbheap bool := let! n := nd x in ret (n_red n).

(** [RB_INSERT_SUB(_left, _right)]; result: the new [x]. *)
Definition insert_sub (d : dir) (x : Z) : M rbheap Z :=
  let! p := parent_of x in
  let! g := parent_of p in
  let! y := child_of (opp d) g in
  let! yr := red_of y in
  if (yr : bool) then
    do! upd p (set_red false) in
    do! upd y (set_red false) in
    let! p := parent_of x in
    let! g := parent_of p in
    do! upd g (set_red true) in
    let! p := parent_of x in
    parent_of p
  else
    let! inner := child_of (opp d) p in
    let! x := (if x =? inner then do! rotate d p in ret p else ret x) in
    let! p := parent_of x in
    do! upd p (set_red false) in
    let! p := parent_of x in
    let! g := parent_of p in
    do! upd g (set_red true) in
    let! p := parent_of x in
    let! g := parent_of p in
    do! rotate (opp d) g in ret x.
Fixpoint insert_fixup (fuel : nat) (x : Z) : M rbheap unit :=
  let! p := parent_of x in
  let! pr := red_of p in
  if (pr : bool) then
    match fuel with
    | O => nofuel
    | S fuel =>
        let! g := parent_of p in
        let! l := child_of Left g in
        let! x := insert_sub (if p =? l then Left else Right) x in
        insert_fixup fuel x
    end
  else ret tt.
Definition rb_insert (node : Z) : M rbheap unit :=
  do! rb_insert_binary node in
  do! upd node (set_red true) in
  let! h := get in
  do! insert_fixup (size h) node in
  let! l := child_of Left (root tree) in
  do! upd l (set_red false) in
  let! a := red_of (nil tree) in
  let! b := red_of (root tree) in
  assert_ (negb a && negb b).

(** ** Order and search *)

(** [while (y->left != nil) y = y->left], and its mirror image. *)
Fixpoint down_loop (fuel : nat) (d : dir) (y : Z) : M rbheap Z :=
  let! l := child_of d y in
  if l =? nil tree then ret y else match fuel with O => nofuel | S fuel => down_loop fuel d l end.
Fixpoint succ_loop (fuel : nat) (x y : Z) : M rbheap Z :=
  let! r := child_of Right y in
  if x =? r then match fuel with O => nofuel | S fuel => let! p := parent_of y in succ_loop fuel y p end else ret y.
Definition rb_tree_successor (node : Z) : M rbheap Z :=
  let! h := get in
  let! y := child_of Right node in
  if negb (y =? nil tree) then down_loop (size h) Left y
  else
    let! y := parent_of node in
    let! y := succ_loop (size h) node y in
    ret (if y =? root tree then nil tree else y).
Fixpoint pred_loop (fuel : nat) (x y : Z) : M rbheap Z :=
  let! l := child_of Left y in
  if x =? l then
    if y =? root tree then ret (nil tree)
    else match fuel with O => nofuel | S fuel => let! p := parent_of y in pred_loop fuel y p end
  else ret y.
Definition rb_tree_predecessor (node : Z) : M rbheap Z :=
  let! h := get in
  let! y := child_of Left node in
  if negb (y =? nil tree) then down_loop (size h) Right y
  else let! y := parent_of node in pred_loop (size h) node y.

(** [None]: NULL. *)
Definition or_null (x : Z) : option Z := if x =? nil tree then None else Some x.
Fixpoint rb_search_loop {K} (fuel : nat) (cmp : Z -> K -> Z) (key : K) (node : Z) : M rbheap (option Z) :=
  if node =? nil tree then ret None
  else
    let r := cmp node key in
    if r =? 0 then ret (Some node)
    else
      match fuel with
      | O => nofuel
      | S fuel => let! n := child_of (if 0 <? r then Left else Right) node in rb_search_loop fuel cmp key n
      end.
Definition rb_search {K} (cmp : Z -> K -> Z) (key : K) : M rbheap (option Z) :=
  let! h := get in let! n := child_of Left (root tree) in rb_search_loop (size h) cmp key n.
Definition rb_node_prev (node : Z) : M rbheap (option Z) := let! p := rb_tree_predecessor node in ret (or_null p).
Definition rb_node_next (node : Z) : M rbheap (option Z) := let! p := rb_tree_successor node in ret (or_null p).
Definition rb_node_root : M rbheap (option Z) := let! p := child_of Left (root tree) in ret (or_null p).
Definition rb_node_left (node : Z) : M rbheap (option Z) := let! p := child_of Left node in ret (or_null p).
Definition rb_node_right (node : Z) : M rbheap (option Z) := let! p := child_of Right node in ret (or_null p).

(** ** Deletion *)

(** The parts of [RB_DELETE_FIXUP_SUB(_left, _right)]; [p], [w], [rt]: the variables
    [x->parent], [w], [root]; result: the new [w]. *)
Definition sibling_black (d : dir) (p x w : Z) (wr : bool) : M rbheap Z :=
  if wr then
    do! upd w (set_red false) in
    do! upd p (set_red true) in
    let! p := parent_of x in
    do! rotate d p in
    let! p := parent_of x in child_of (opp d) p
  else ret w.
Definition nephew_red (d : dir) (x w : Z) (wrr : bool) : M rbheap Z :=
  if negb wrr then
    let! l := child_of d w in
    do! upd l (set_red false) in
    do! upd w (set_red true) in
    do! rotate (opp d) w in
    let! p := parent_of x in child_of (opp d) p
  else ret w.
Definition delete_done (d : dir) (rt x w : Z) : M rbheap Z :=
  let! p := parent_of x in
  let! pr := red_of p in
  do! upd w (set_red pr) in
  let! p := parent_of x in
  do! upd p (set_red false) in
  let! r := child_of (opp d) w in
  do! upd r (set_red false) in
  let! p := parent_of x in
  do! rotate d p in
  ret rt.
(** Result: the new [x]. *)
Definition delete_sub (d : dir) (rt x : Z) : M rbheap Z :=
  let! p := parent_of x in
  let! w := child_of (opp d) p in
  let! wr := red_of w in
  let! w := sibling_black d p x w wr in
  let! wl := child_of d w in
  let! wlr := red_of wl in
  let! wr := child_of (opp d) w in
  let! wrr := red_of wr in
  if negb wlr && negb wrr then do! upd w (set_red true) in parent_of x
  else let! w := nephew_red d x w wrr in delete_done d rt x w.
Fixpoint delete_loop (fuel : nat) (rt x : Z) : M rbheap Z :=
  let! xr := red_of x in
  if negb (x =? rt) && negb xr then
    match fuel with
    | O => nofuel
    | S fuel =>
        let! p := parent_of x in
        let! l := child_of Left p in
        let! x := delete_sub (if x =? l then Left else Right) rt x in
        delete_loop fuel rt x
    end
  else ret x.
Definition rb_delete_fixup (node : Z) : M rbheap unit :=
  let! h := get in
  let! rt := child_of Left (root tree) in
  let! x := delete_loop (size h) rt node in
  upd x (set_red false).

(** The parts of [rb_delete]: [x] takes the place of [y]; [y] takes the place of [z]. *)
Definition splice (y x : Z) : M rbheap unit :=
  let! yp := parent_of y in
  do! upd x (set_up yp) in
  let! yp := parent_of y in
  let! l := child_of Left yp in
  if y =? l then upd yp (set_child Left x) else upd yp (set_child Right x).
Definition transplant (z y : Z) : M rbheap unit :=
  let! zp := parent_of z in
  let! l := child_of Left zp in
  do! (if z =? l then upd zp (set_child Left y) else upd zp (set_child Right y)) in
  let! r := child_of Right z in
  do! upd r (set_up y) in
  let! l := child_of Left z in
  do! upd l (set_up y) in
  let! nz := nd z in
  upd y (fun _ => nz).
Definition delete_at (z y : Z) : M rbheap unit :=
  let! yl := child_of Left y in
  let! yr := child_of Right y in
  let x := if negb (yl =? nil tree) then yl else yr in
  do! assert_ (negb (y =? root tree) && negb (y =? nil tree)) in
  do! splice y x in
  let! yred := red_of y in
  do! (if negb (y =? z) then transplant z y else ret tt) in
  if negb yred then rb_delete_fixup x else ret tt.
Definition rb_delete (node : Z) : M rbheap unit :=
  let z := node in
  let! zl := child_of Left z in
  let! zr := child_of Right z in
  let! y := (if (zl =? nil tree) || (zr =? nil tree) then ret z else rb_tree_successor z) in
  delete_at z y.

Definition rb_tree_destroy : M rbheap unit := do! kfree_node (root tree) in kfree_node (nil tree).

(** ** The checker of the self-test *)

Fixpoint check_tree (fuel : nat) (node : Z) : M rbheap Z :=
  match fuel with
  | O => nofuel
  | S fuel =>
      let! n := nd node in
      if node =? nil tree then do! assert_ (negb (n_red n)) in ret 1
      else
        do! (if negb (n_left n =? nil tree) then
               do! assert_ (0 <=? compare node (n_left n)) in
               let! p := parent_of (n_left n) in assert_ (p =? node)
             else ret tt) in
        do! (if negb (n_right n =? nil tree) then
               do! assert_ (compare node (n_right n) <=? 0) in
               let! p := parent_of (n_right n) in assert_ (p =? node)
             else ret tt) in
        do! (if n_red n then
               let! a := red_of (n_left n) in
               let! b := red_of (n_right n) in assert_ (negb a && negb b)
             else ret tt) in
        let! hb_left := check_tree fuel (n_left n) in
        let! hb_right := check_tree fuel (n_right n) in
        do! assert_ (hb_left =? hb_right) in
        ret (if n_red n then hb_left else hb_left + 1)
  end.
End Tree.

(** Ten nodes with the keys of their addresses modulo 7, inserted, checked, and deleted. *)
Definition rb_demo : M rbheap (Z * bool) :=
  let! t := rb_tree_create true (Some 1000) (Some 1001) in
  let! t := deref t in
  let cmp := fun a b => a mod 7 - b mod 7 in
  let fix ins l := match l with [] => ret tt | x :: l => let! _ := rb_node_create (Some x) in do! rb_insert cmp t x in ins l end in
  let fix del l := match l with [] => ret tt | x :: l => do! rb_delete t x in do! (let! r := child_of Left (root t) in let! _ := check_tree cmp t 50 r in ret tt) in del l end in
  do! ins (seqZ 1 20) in
  let! r := child_of Left (root t) in
  let! b := check_tree cmp t 50 r in
  do! del (seqZ 1 20) in
  let! e := rb_tree_empty t in ret (b, e).
Example rb_demo_runs : fst <$> (match rb_demo ∅ with Ok r => Some r | _ => None end) = Some (4, true).
Proof. vm_compute. reflexivity. Qed.
