(* ===== verification/RbTreeInv.v ===== *)
(** * Red-black trees: the heap as a tree

    [Foc h k t]: the nodes on the heap are the tree [fill k t], looked at from its
    subtree [t]; [k] is the path from there up to the root, with the siblings.  Recolouring
    and rotating act on [t] only. *)

From stdpp Require Import base gmap list.
From Stdlib Require Import ZArith Lia Bool.
From S2P Require Import Prelude.
From S2P Require Import RbTree.

Inductive tree := E | T (c : bool) (x : Z) (l r : tree).
(** With the [d]-side subtree first. *)
Definition mk (d : dir) (c : bool) (x : Z) (a b : tree) : tree := match d with Left => T c x a b | Right => T c x b a end.
Record frame := Fr { f_dir : dir; f_red : bool; f_node : Z; f_sib : tree }.
Abbreviation path := (list frame).

Fixpoint elems (t : tree) : list Z := match t with E => [] | T _ x l r => elems l ++ x :: elems r end.
Definition redness (t : tree) : bool := match t with E => false | T c _ _ _ => c end.
Fixpoint fill (k : path) (t : tree) : tree := match k with [] => t | Fr d c x s :: k => fill k (mk d c x t s) end.
Fixpoint around (k : path) : list Z := match k with [] => [] | Fr _ _ x s :: k => x :: elems s ++ around k end.

(** Black height (nil counts one), no red node with a red child. *)
Fixpoint bal (t : tree) (n : nat) : Prop :=
  match t with E => n = 1 | T c _ l r => exists m, bal l m /\ bal r m /\ n = if c then m else S m end%nat.
Fixpoint rr (t : tree) : Prop :=
  match t with E => True | T c _ l r => (c = true -> redness l = false /\ redness r = false) /\ rr l /\ rr r end.
Definition upred (k : path) : bool := match k with [] => false | f :: _ => f_red f end.
(** A path into whose hole a tree of black height [n] fits, whose root is black. *)
Fixpoint cok (k : path) (n : nat) : Prop :=
  match k with
  | [] => True
  | Fr d c x s :: k => bal s n /\ rr s /\ (c = true -> redness s = false /\ upred k = false /\ k <> []) /\ cok k (if c then n else S n)
  end.

Lemma elems_mk d c x a b : elems (mk d c x a b) ≡ₚ x :: elems a ++ elems b.
Proof. destruct d; cbn; [|rewrite (Permutation_app_comm (elems a))]; by rewrite <-Permutation_middle. Qed.
Lemma around_perm (x : Z) (A B C : list Z) : (x :: A ++ B) ++ C ≡ₚ B ++ x :: C ++ A.
Proof.
  rewrite <-Permutation_middle. cbn. constructor. rewrite <-app_assoc, (Permutation_app_comm A). by rewrite <-app_assoc.
Qed.
Lemma elems_fill k t : elems (fill k t) ≡ₚ around k ++ elems t.
Proof.
  revert t. induction k as [|[d c x s] k IH]; intros t; [done|]. cbn [fill around]. by rewrite IH, elems_mk, around_perm.
Qed.
Lemma elems_fill_eq k t t' : elems t = elems t' -> elems (fill k t) = elems (fill k t').
Proof. revert t t'. induction k as [|[d c x s] k IH]; intros t t' He; [done|]. apply IH. destruct d; cbn; by rewrite He. Qed.
Lemma elems_rotate d c c2 c3 c4 x y a b e : elems (mk d c x a (mk d c2 y b e)) = elems (mk d c3 y (mk d c4 x a b) e).
Proof. destruct d; cbn; by rewrite <-app_assoc. Qed.
Lemma redness_mk d c x a b : redness (mk d c x a b) = c.
Proof. by destruct d. Qed.
Lemma bal_mk d c x a b n : bal (mk d c x a b) n <-> exists m, bal a m /\ bal b m /\ n = if c then m else S m.
Proof. destruct d; cbn; firstorder. Qed.
Lemma rr_mk d c x a b : rr (mk d c x a b) <-> (c = true -> redness a = false /\ redness b = false) /\ rr a /\ rr b.
Proof. destruct d; cbn; firstorder. Qed.
Lemma mk_opp d c x a b : mk (opp d) c x a b = mk d c x b a.
Proof. by destruct d. Qed.
Lemma bal_unique t n m : bal t n -> bal t m -> n = m.
Proof.
  revert n m. induction t as [|c x l IHl r IHr]; cbn; [congruence|]. intros n m (i&H1&_&->) (j&H2&_&->). by rewrite (IHl i j).
Qed.

(** A valid subtree in a valid path is a valid tree. *)
Lemma fill_ok k t n : cok k n -> bal t n -> rr t -> (redness t = true -> upred k = false /\ k <> []) -> redness (fill k t) = false /\ rr (fill k t) /\ exists m, bal (fill k t) m.
Proof.
  revert t n. induction k as [|[d c x s] k IH]; intros t n; cbn [fill cok upred f_red].
  - intros _ Hb Hr Hred. split; [|split; [done|by exists n]]. destruct (redness t); [|done]. by destruct (Hred eq_refl) as [_ ?].
  - intros (Hs&Hrs&Hc&Hk) Hb Hr Hred. apply (IH _ (if c then n else S n)); [done| | |rewrite redness_mk; tauto].
    + apply bal_mk. exists n. destruct c; done.
    + apply rr_mk. split; [|done]. intros ->. split; [|by apply Hc]. destruct (redness t); [|done]. destruct Hred; done.
Qed.

Section Heap.
Variable tr : rb_tree.
Abbreviation nil := (nil tr).
Abbreviation root := (root tr).
Implicit Types (h : rbheap) (t : tree) (k : path).

Definition ptr t : Z := match t with E => nil | T _ x _ _ => x end.
Definition node (d : dir) (c : bool) (p a b : Z) : rb_node := match d with Left => mkRb c p a b | Right => mkRb c p b a end.
Definition above k : Z := match k with [] => root | f :: _ => f_node f end.

Fixpoint rep h (par : Z) t : Prop :=
  match t with E => True | T c x l r => h !! x = Some (mkRb c par (ptr l) (ptr r)) /\ rep h x l /\ rep h x r end.
(** [q]: what is in the hole. *)
Fixpoint crep h (q : Z) k : Prop :=
  match k with
  | [] => h !! root = Some (mkRb false nil q nil)
  | Fr d c x s :: k => h !! x = Some (node d c (above k) q (ptr s)) /\ rep h x s /\ crep h x k
  end.
Definition distinct (l : list Z) : Prop := NoDup (nil :: root :: l).
Definition nil_black h : Prop := exists n, h !! nil = Some n /\ n_red n = false.
Record Foc h k t : Prop := {
  fo_path : crep h (ptr t) k;
  fo_tree : rep h (above k) t;
  fo_nodes : distinct (around k ++ elems t);
  fo_nil : nil_black h
}.

Lemma ptr_mk d c x a b : ptr (mk d c x a b) = x.
Proof. by destruct d. Qed.
Lemma rep_mk h par d c x a b : rep h par (mk d c x a b) <-> h !! x = Some (node d c par (ptr a) (ptr b)) /\ rep h x a /\ rep h x b.
Proof. destruct d; cbn; tauto. Qed.
Lemma child_d d c p a b : child d (node d c p a b) = a. Proof. by destruct d. Qed.
Lemma child_opp d c p a b : child (opp d) (node d c p a b) = b. Proof. by destruct d. Qed.
Lemma red_node d c p a b : n_red (node d c p a b) = c. Proof. by destruct d. Qed.
Lemma parent_node d c p a b : n_parent (node d c p a b) = p. Proof. by destruct d. Qed.
Lemma set_child_d d c p a b v : set_child d v (node d c p a b) = node d c p v b. Proof. by destruct d. Qed.
Lemma set_child_opp d c p a b v : set_child (opp d) v (node d c p a b) = node d c p a v. Proof. by destruct d. Qed.
Lemma set_up_node d c p a b v : set_up v (node d c p a b) = node d c v a b. Proof. by destruct d. Qed.

Lemma distinct_perm l l' : l ≡ₚ l' -> distinct l -> distinct l'.
Proof. intros H. unfold distinct. by rewrite H. Qed.

(** Moving the focus. *)
Lemma foc_up h k d c x s t : Foc h (Fr d c x s :: k) t <-> Foc h k (mk d c x t s).
Proof.
  assert (Hp : around (Fr d c x s :: k) ++ elems t ≡ₚ around k ++ elems (mk d c x t s)).
  { cbn [around]. by rewrite elems_mk, around_perm. }
  split; intros [H1 H2 H3 H4].
  - destruct H1 as (Hx&Hs&Hk). split; [by rewrite ptr_mk|by apply rep_mk|by eapply distinct_perm|done].
  - rewrite ptr_mk in H1. apply rep_mk in H2 as (Hx&Ht&Hs). split; [done|done|by eapply distinct_perm|done].
Qed.
Lemma foc_push h k d c x s t : Foc h (Fr d c x s :: k) t -> Foc h k (mk d c x t s).
Proof. by apply foc_up. Qed.
Lemma foc_pull h k d c x a b : Foc h k (mk d c x a b) -> Foc h (Fr d c x b :: k) a.
Proof. by apply foc_up. Qed.
Lemma foc_pull_opp h k d c x a b : Foc h k (mk d c x a b) -> Foc h (Fr (opp d) c x a :: k) b.
Proof. intros HF. apply foc_up. by rewrite mk_opp. Qed.
Lemma foc_push_opp h k d c x a b : Foc h (Fr (opp d) c x a :: k) b -> Foc h k (mk d c x a b).
Proof. intros HF. apply foc_up in HF. by rewrite mk_opp in HF. Qed.
Lemma foc_fill h k t : Foc h k t <-> Foc h [] (fill k t).
Proof. revert t. induction k as [|[d c x s] k IH]; intros t; [done|]. cbn [fill]. rewrite foc_up. apply IH. Qed.

(** What a heap means depends on the nodes only. *)
Lemma rep_frame h h' par t : (forall y, y ∈ elems t -> h' !! y = h !! y) -> rep h par t -> rep h' par t.
Proof.
  revert par. induction t as [|c x l IHl r IHr]; intros par Hh; [done|]. cbn. intros (Hx&Hl&Hr). cbn in Hh.
  split; [rewrite Hh; [done|rewrite elem_of_app, elem_of_cons; auto]|]. split; [apply IHl|apply IHr]; try done; intros y Hy; apply Hh; rewrite elem_of_app, elem_of_cons; auto.
Qed.
Lemma crep_frame h h' q k : (forall y, y = root \/ y ∈ around k -> h' !! y = h !! y) -> crep h q k -> crep h' q k.
Proof.
  revert q. induction k as [|[d c x s] k IH]; intros q Hh; cbn; [rewrite Hh; auto|]. intros (Hx&Hs&Hk). cbn in Hh.
  split; [rewrite Hh; [done|right; rewrite elem_of_cons; auto]|]. split; [eapply rep_frame; [|done]|apply IH; [|done]]; intros y Hy; apply Hh.
  - right. rewrite elem_of_cons, elem_of_app. auto.
  - destruct Hy as [->|Hy]; [by left|right]. rewrite elem_of_cons, elem_of_app. auto.
Qed.
(** A new parent for a subtree. *)
Lemma rep_reparent h h' par q t : rep h par t -> NoDup (elems t) -> (forall n, t <> E -> h !! ptr t = Some n -> h' !! ptr t = Some (set_up q n)) ->
  (forall z, z ∈ elems t -> z <> ptr t -> h' !! z = h !! z) -> rep h' q t.
Proof.
  destruct t as [|c x l r]; [done|]. cbn. intros (Hx&Hl&Hr) Hnd Hp Ho. apply NoDup_app in Hnd as (_&Hlr&Hnd). apply NoDup_cons in Hnd as [Hxr _].
  split; [by rewrite (Hp _ ltac:(done) Hx)|]. split; (eapply rep_frame; [|done]); intros y Hy; (apply Ho; [rewrite elem_of_app, elem_of_cons; auto|intros ->]).
  - apply (Hlr x Hy). left.
  - done.
Qed.

(** Another node in the hole. *)
Definition redirect (d : dir) (q q' : Z) (n : rb_node) : rb_node := if q =? child d n then set_child d q' n else set_child (opp d) q' n.
Lemma ptr_in t : ptr t = nil \/ ptr t ∈ elems t.
Proof. destruct t as [|c x l r]; [by left|right]. cbn. rewrite elem_of_app, elem_of_cons. auto. Qed.

Lemma crep_redirect h h' q q' k d : crep h q k -> q <> nil -> q ∉ around k -> NoDup (root :: around k) ->
  (forall n, h !! above k = Some n -> h' !! above k = Some (redirect d q q' n)) -> (forall z, z = root \/ z ∈ around k -> z <> above k -> h' !! z = h !! z) -> crep h' q' k.
Proof.
  intros Hk Hn Hq Hnd Hu Ho. apply NoDup_cons in Hnd as [Hr Hnd]. destruct k as [|[d' c x s] k]; cbn in *.
  - rewrite (Hu _ Hk). f_equal. unfold redirect. destruct d; cbn; [by rewrite Z.eqb_refl|by rewrite (proj2 (Z.eqb_neq q nil))].
  - destruct Hk as (Hx&Hs&Hk). apply NoDup_cons in Hnd as [Hxn Hnd]. rewrite not_elem_of_cons, not_elem_of_app in Hq. rewrite not_elem_of_app in Hxn.
    assert (Hqs : q <> ptr s) by (destruct (ptr_in s) as [->|Hin]; [done|intros ->; tauto]). split; [|split].
    + rewrite (Hu _ Hx). f_equal. unfold redirect. destruct d, d'; cbn; rewrite ?Z.eqb_refl, ?(proj2 (Z.eqb_neq q _)) by done; done.
    + eapply rep_frame; [|exact Hs]. intros y Hy. apply Ho; [right; rewrite elem_of_cons, elem_of_app; auto|intros ->; tauto].
    + eapply crep_frame; [|exact Hk]. intros y Hy. apply Ho; [destruct Hy; [by left|right; rewrite elem_of_cons, elem_of_app; auto]|].
      intros ->. destruct Hy as [->|Hy]; [apply Hr; left|tauto].
Qed.

(** ** Steps *)

Lemma nd_runs h p n (Q : rb_node -> rbheap -> Prop) : h !! p = Some n -> Q n h -> runs (nd p) h Q.
Proof. intros Hp HQ. unfold nd. runs_steps. by eapply runs_deref. Qed.
Lemma upd_runs h p f n (Q : unit -> rbheap -> Prop) : h !! p = Some n -> Q tt (<[p := f n]> h) -> runs (upd p f) h Q.
Proof. intros Hp HQ. unfold upd. runs_steps. eapply nd_runs; [done|]. by runs_steps. Qed.

Lemma foc_distinct h k t : Foc h k t -> distinct (around k ++ elems t).
Proof. by intros []. Qed.

(** Recolouring the node in focus. *)
Lemma foc_recolor h k c v x l r : Foc h k (T c x l r) -> runs (upd x (set_red v)) h (fun _ h' => Foc h' k (T v x l r) /\ h' !! nil = h !! nil).
Proof.
  intros [Hk Ht Hd Hn]. pose proof Ht as (Hx&Hl&Hr). eapply upd_runs; [exact Hx|]. cbn [set_red n_parent n_left n_right].
  assert (Hf : nil <> x /\ root <> x /\ (x ∉ around k) /\ (x ∉ elems l) /\ (x ∉ elems r)).
  { eapply distinct_perm in Hd; [|rewrite (elems_mk Left c x l r : elems (T c x l r) ≡ₚ _), <-Permutation_middle; reflexivity]. unfold distinct in Hd.
    rewrite !NoDup_cons, !not_elem_of_cons, !not_elem_of_app in Hd. naive_solver. }
  destruct Hf as (Hnx&Hrx&Hkx&Hlx&Hrx'). split; [|by apply lookup_insert_ne]. split.
  - eapply crep_frame; [|exact Hk]. intros y Hy. apply lookup_insert_ne. intros ->. destruct Hy as [Hy|Hy]; congruence || done.
  - cbn. split; [apply lookup_insert_eq|]. split; (eapply rep_frame; [|done]); intros y Hy; apply lookup_insert_ne; intros ->; done.
  - done.
  - destruct Hn as (n&Hn&Hnr). exists n. by rewrite lookup_insert_ne.
Qed.

(** The nodes that a rotation touches are different. *)
Record apart2 k a b e (x y : Z) : Prop := {
  ap_nil : nil <> x /\ nil <> y /\ nil <> root /\ (nil ∉ around k) /\ (nil ∉ elems b);
  ap_root : root <> x /\ root <> y /\ (root ∉ around k) /\ (root ∉ elems a) /\ (root ∉ elems b) /\ (root ∉ elems e);
  ap_x : x <> y /\ (x ∉ around k) /\ (x ∉ elems a) /\ (x ∉ elems b) /\ (x ∉ elems e);
  ap_y : (y ∉ around k) /\ (y ∉ elems a) /\ (y ∉ elems b) /\ (y ∉ elems e);
  ap_k : forall z, z ∈ around k -> (z ∉ elems a) /\ (z ∉ elems b) /\ (z ∉ elems e);
  ap_b : NoDup (elems b) /\ NoDup (around k) /\ forall z, z ∈ elems b -> (z ∉ elems a) /\ (z ∉ elems e)
}.
Lemma foc_apart2 h k d c x a c2 y b e : Foc h k (mk d c x a (mk d c2 y b e)) -> apart2 k a b e x y.
Proof.
  intros [_ _ Hd _]. eapply distinct_perm in Hd; [|rewrite !elems_mk, <-(Permutation_middle (elems a)), <-!(Permutation_middle (around k)); reflexivity].
  unfold distinct in Hd. rewrite !NoDup_cons, !NoDup_app, !not_elem_of_cons, !not_elem_of_app in Hd.
  destruct Hd as ((H1&H2&H3&H4&H5&H6&H7)&(R2&R3&R4&R5&R6&R7)&(X3&X4&X5&X6&X7)&(Y4&Y5&Y6&Y7)&Hk&Hka&Ha&Hab&Hb&Hbe&He).
  split; auto 10.
  - intros z Hz. specialize (Hka z Hz). rewrite !not_elem_of_app in Hka. tauto.
  - split; [done|]. split; [done|]. intros z Hz. split; [|by apply Hbe]. intros Hza. apply (Hab z Hza). apply elem_of_app. by left.
Qed.
Lemma up_in k : above k = root \/ above k ∈ around k.
Proof. destruct k as [|[d c x s] k]; [by left|right]. left. Qed.
Lemma crep_up h q k : crep h q k -> exists n, h !! above k = Some n.
Proof. destruct k as [|[d c x s] k]; cbn; [|intros (Hx&_)]; eauto. Qed.

Ltac lk := repeat first [rewrite lookup_insert_eq | rewrite lookup_insert_ne by (congruence || done)].
Ltac rd := runs_steps; eapply nd_runs; [lk; first [reflexivity | eassumption]|]; runs_steps.
Ltac upr := runs_steps; eapply upd_runs; [lk; first [reflexivity | eassumption]|]; runs_steps.

Lemma upd_redirect h p d x y np (Q : unit -> rbheap -> Prop) : h !! p = Some np -> Q tt (<[p := redirect d x y np]> h) ->
  runs (if x =? child d np then upd p (set_child d y) else upd p (set_child (opp d) y)) h Q.
Proof. intros Hp HQ. unfold redirect in HQ. destruct (x =? child d np); by eapply upd_runs. Qed.

(** Rotation: the [d]-rotation at [x]. *)
Lemma rotate_runs h k d c x a c2 y b e : Foc h k (mk d c x a (mk d c2 y b e)) ->
  runs (rotate tr d x) h (fun _ h' => Foc h' k (mk d c2 y (mk d c x a b) e) /\ h' !! nil = h !! nil).
Proof.
  intros HF. pose proof (foc_apart2 _ _ _ _ _ _ _ _ _ _ HF) as [(N1&N2&N3&N4&N5) (R1&R2&R3&R4&R5&R6) (X1&X2&X3&X4&X5) (Y1&Y2&Y3&Y4) HK (HB&HKn&HBd)]. destruct HF as [Hk Ht Hd Hn].
  rewrite ptr_mk in Hk. apply rep_mk in Ht as (Hx&Ha&Hy). rewrite ptr_mk in Hx. apply rep_mk in Hy as (Hy&Hb&He).
  set (p := above k) in *. destruct (crep_up _ _ _ Hk) as [np Hp]. fold p in Hp.
  assert (Hpd : p <> x /\ p <> y /\ p <> nil /\ (p ∉ elems a) /\ (p ∉ elems b) /\ (p ∉ elems e)).
  { destruct (up_in k) as [Hu|Hu]; fold p in Hu; [rewrite Hu; auto 10|]. destruct (HK p Hu) as (?&?&?). split; [intros ->; done|]. split; [intros ->; done|]. split; [intros ->; done|auto]. }
  destruct Hpd as (Px&Py&Pn&Pa&Pb&Pe). assert (Hbp : ptr b <> x /\ ptr b <> y /\ ptr b <> p).
  { destruct (ptr_in b) as [->|Hin]; [auto|]. split; [intros Hq; by rewrite Hq in Hin|]. split; intros Hq; by rewrite Hq in Hin. }
  destruct Hbp as (Bx&By&Bp).
  assert (Hfin : forall h', h' !! x = Some (node d c y (ptr a) (ptr b)) -> h' !! y = Some (node d c2 p x (ptr e)) -> h' !! p = Some (redirect d x y np) ->
    (forall n, b <> E -> h !! ptr b = Some n -> h' !! ptr b = Some (set_up x n)) -> (forall z, z <> x -> z <> y -> z <> p -> z <> ptr b \/ b = E -> h' !! z = h !! z) ->
    Foc h' k (mk d c2 y (mk d c x a b) e) /\ h' !! nil = h !! nil).
  { intros h' Fx Fy Fp Fb Fo. assert (Fn : h' !! nil = h !! nil).
    { apply Fo; try congruence. destruct (ptr_in b) as [Hq|Hq]; [|left; intros Heq; by rewrite <-Heq in Hq]. destruct b as [|cb xb bl br]; [by right|left]. cbn in Hq. intros Heq. apply N5. cbn.
      rewrite elem_of_app, elem_of_cons. auto. }
    split; [|done]. split.
    - rewrite ptr_mk. apply (crep_redirect h h' x y k d Hk); [congruence|done|apply NoDup_cons; done| |].
      + fold p. intros n Hnn. rewrite Hp in Hnn. by injection Hnn as <-.
      + fold p. intros z Hz Hzp. assert (Hz' : z <> x /\ z <> y /\ (z ∉ elems b)) by (destruct Hz as [->|Hz]; [auto|split; [intros ->; done|split; [intros ->; done|by apply HK]]]).
        destruct Hz' as (Hzx&Hzy&Hzb). apply Fo; try done. destruct b as [|cb xb bl br]; [by right|left]. intros ->. apply Hzb. cbn. rewrite elem_of_app, elem_of_cons. auto.
    - fold p. apply rep_mk. rewrite ptr_mk. split; [done|]. split; [|eapply rep_frame; [|exact He]].
      + apply rep_mk. split; [done|]. split; [eapply rep_frame; [|exact Ha]|apply (rep_reparent h h' y x b Hb HB Fb)].
        * intros z Hz. apply Fo; [intros ->; done|intros ->; done|intros ->; done|]. destruct b as [|cb xb bl br]; [by right|left]. intros ->. apply (proj1 (HBd xb ltac:(cbn; rewrite elem_of_app, elem_of_cons; auto)) Hz).
        * intros z Hz Hzb. apply Fo; [intros ->; done|intros ->; done|intros ->; done|by left].
      + intros z Hz. apply Fo; [intros ->; done|intros ->; done|intros ->; done|]. destruct b as [|cb xb bl br]; [by right|left]. intros ->. apply (proj2 (HBd xb ltac:(cbn; rewrite elem_of_app, elem_of_cons; auto)) Hz).
    - eapply distinct_perm; [|exact Hd]. by rewrite (elems_rotate d c c2 c2 c x y a b e).
    - destruct Hn as (n&Hn&Hnr). exists n. by rewrite Fn. }
  unfold rotate. destruct Hn as (nn&Hnn&Hnr). rd. rewrite child_opp. apply runs_assert; [rewrite !(proj2 (Z.eqb_neq _ _)) by congruence; done|]. rd. upr. rewrite child_d, set_child_opp. rd. rewrite child_d.
  assert (Hq : b = E \/ exists cb xb bl br, b = T cb xb bl br) by (destruct b; eauto 10). destruct Hq as [->|(cb&xb&bl&br&->)]; cbn [ptr] in *.
  - rewrite Z.eqb_refl. cbn [negb]. rd. rewrite parent_node. upr. rewrite set_up_node. rd. rewrite parent_node. rd.
    eapply upd_redirect; [lk; exact Hp|]. upr. rewrite set_child_d. upr. rewrite set_up_node. rd. rewrite Hnr. apply runs_assert; [done|].
    apply Hfin; [lk; done|lk; done|lk; done|done|]. intros z Hzx Hzy Hzp _. by lk.
  - rewrite (proj2 (Z.eqb_neq xb nil)) by (intros Hq; apply N5; cbn; rewrite elem_of_app, elem_of_cons; auto). cbn [negb]. destruct Hb as (Hxb&Hbl&Hbr). upr. rd. rewrite parent_node. upr. rewrite set_up_node. rd. rewrite parent_node. rd.
    eapply upd_redirect; [lk; exact Hp|]. upr. rewrite set_child_d. upr. rewrite set_up_node. assert (Hnb : nil <> xb) by (intros Hq; apply N5; cbn; rewrite elem_of_app, elem_of_cons; auto). rd.
    rewrite Hnr. apply runs_assert; [done|].
    apply Hfin; [lk; done|lk; done|lk; done| |].
    + intros n _ Hxb'. rewrite Hxb in Hxb'. injection Hxb' as <-. by lk.
    + intros z Hzx Hzy Hzp [Hzb|]; [|done]. by lk.
Qed.
End Heap.
