(* ===== verification/RbTreeIns.v ===== *)
(** * Red-black trees: the steps of insertion *)

From stdpp Require Import base gmap list sorting.
From Stdlib Require Import ZArith Lia Bool.
From S2P Require Import Prelude.
From S2P Require Import RbTree.
From S2P Require Import RbTreeInv.

Section Reads.
Variable tr : rb_tree.
Abbreviation nil := (nil tr).
Abbreviation root := (root tr).
Abbreviation Foc := (Foc tr).
Abbreviation ptr := (ptr tr).
Abbreviation above := (above tr).
Implicit Types (h : rbheap) (t : tree) (k : path).

Lemma parent_of_runs h p n (Q : Z -> rbheap -> Prop) : h !! p = Some n -> Q (n_parent n) h -> runs (parent_of p) h Q.
Proof. intros Hp HQ. unfold parent_of. runs_steps. eapply nd_runs; [done|]. by runs_steps. Qed.
Lemma child_of_runs h d p n (Q : Z -> rbheap -> Prop) : h !! p = Some n -> Q (child d n) h -> runs (child_of d p) h Q.
Proof. intros Hp HQ. unfold child_of. runs_steps. eapply nd_runs; [done|]. by runs_steps. Qed.
Lemma red_of_runs h p n (Q : bool -> rbheap -> Prop) : h !! p = Some n -> Q (n_red n) h -> runs (red_of p) h Q.
Proof. intros Hp HQ. unfold red_of. runs_steps. eapply nd_runs; [done|]. by runs_steps. Qed.

(** What the pointers of the focus are. *)
Lemma foc_at h k d c x a b : Foc h k (mk d c x a b) -> h !! x = Some (node d c (above k) (ptr a) (ptr b)).
Proof. intros [_ Ht _ _]. by apply rep_mk in Ht as [? _]. Qed.
Lemma foc_above h k d c p s t : Foc h (Fr d c p s :: k) t -> h !! p = Some (node d c (above k) (ptr t) (ptr s)).
Proof. intros [Hk _ _ _]. by destruct Hk as [? _]. Qed.
Lemma foc_root h t : Foc h [] t -> h !! root = Some (mkRb false nil (ptr t) nil).
Proof. by intros []. Qed.
Lemma foc_red h k t : Foc h k t -> exists n, h !! ptr t = Some n /\ n_red n = redness t.
Proof. intros [_ Ht _ Hn]. destruct t as [|c x l r]; [exact Hn|]. destruct Ht as (Hx&_). eexists. by split. Qed.
Lemma foc_upred h k t : Foc h k t -> exists n, h !! above k = Some n /\ n_red n = upred k.
Proof. intros HF. destruct k as [|[d c p s] k]; [eexists; split; [by apply foc_root|done]|]. eexists. split; [by eapply foc_above|apply red_node]. Qed.
Lemma foc_down h k d c x a b : Foc h k (mk d c x a b) -> Foc h (Fr d c x b :: k) a /\ Foc h (Fr (opp d) c x a :: k) b.
Proof. intros HF. split; apply foc_up; [done|by rewrite mk_opp]. Qed.
Lemma foc_not_in h k d c x a b : Foc h k (mk d c x a b) -> x <> ptr a /\ x <> ptr b /\ x <> nil /\ x <> root /\ (ptr a = ptr b -> ptr a = nil).
Proof.
  intros [_ _ Hd _]. eapply distinct_perm in Hd; [|rewrite elems_mk, <-(Permutation_middle (around k)); reflexivity]. unfold distinct in Hd.
  rewrite !NoDup_cons, !NoDup_app, !not_elem_of_cons, !not_elem_of_app in Hd. destruct Hd as ((H1&H2&H3&H4&H5)&(R2&R3&R4&R5)&(X1&X2&X3)&_&_&_&Hab&_).
  assert (Hx : forall u, (x ∉ elems u) -> x <> ptr u) by (intros u Hu Hq; destruct (ptr_in tr u) as [Hn|Hin]; [by rewrite Hn in Hq|by rewrite Hq in Hu]).
  split; [by apply Hx|]. split; [by apply Hx|]. split; [congruence|]. split; [congruence|]. intros Hq.
  destruct (ptr_in tr a) as [Hn|Hin]; [done|]. destruct (ptr_in tr b) as [Hn|Hin']; [congruence|]. rewrite Hq in Hin. by destruct (Hab _ Hin).
Qed.
Lemma recolor_runs h k d c v x a b : Foc h k (mk d c x a b) -> runs (upd x (set_red v)) h (fun _ h' => Foc h' k (mk d v x a b)).
Proof. intros HF. destruct d; (eapply runs_mono; [apply (foc_recolor tr h k c v x _ _ HF)|]; by intros _ h' [? _]). Qed.

(** The nodes are all on the heap. *)
Lemma rep_some h par t y : rep tr h par t -> y ∈ elems t -> is_Some (h !! y).
Proof.
  revert par. induction t as [|c x l IHl r IHr]; cbn; [intros par _ []%elem_of_nil|]. intros par (Hx&Hl&Hr). rewrite elem_of_app, elem_of_cons. intros [Hy|[->|Hy]]; eauto.
Qed.
Lemma crep_some h q k y : crep tr h q k -> y ∈ around k -> is_Some (h !! y).
Proof.
  revert q. induction k as [|[d c x s] k IH]; cbn; [intros q _ []%elem_of_nil|]. intros q (Hx&Hs&Hk). rewrite elem_of_cons, elem_of_app. intros [->|[Hy|Hy]]; eauto using rep_some.
Qed.
Lemma foc_size h k t : Foc h k t -> (length k + length (elems t) <= size h)%nat.
Proof.
  intros [Hk Ht Hd _]. unfold distinct in Hd. apply NoDup_cons in Hd as [_ Hd]. apply NoDup_cons in Hd as [_ Hd].
  assert (Hlen : (length (around k ++ elems t) <= size h)%nat).
  { rewrite <-size_dom. rewrite <-(size_list_to_set (C := gset Z) _ Hd). apply subseteq_size. intros y Hy. apply elem_of_list_to_set, elem_of_app in Hy. apply elem_of_dom.
    destruct Hy; [by eapply crep_some|by eapply rep_some]. }
  rewrite length_app in Hlen. assert (length k <= length (around k))%nat; [|lia]. clear. induction k as [|[d c x s] k IH]; cbn; [lia|]. rewrite length_app. lia.
Qed.
End Reads.

(** ** Insertion *)

Section Insert.
Variable tr : rb_tree.
Abbreviation nil := (nil tr).
Abbreviation root := (root tr).
Abbreviation Foc := (Foc tr).
Abbreviation ptr := (ptr tr).
Abbreviation above := (above tr).
Implicit Types (h : rbheap) (t : tree) (k : path).

Definition dir_eqb (a b : dir) : bool := match a, b with Left, Left | Right, Right => true | _, _ => false end.
Lemma opp_eqb d d1 : dir_eqb d1 d = false -> d1 = opp d.
Proof. by destruct d, d1. Qed.
Lemma opp_opp d : opp (opp d) = d.
Proof. by destruct d. Qed.

(** The uncle is red: the colours move up. *)
Lemma insert_red h k d c g d1 p x s xl xr u ul ur : Foc h k (mk d c g (mk d1 true p (T true x xl xr) s) (T true u ul ur)) ->
  runs (insert_sub tr d x) h (fun x' h' => x' = g /\ Foc h' k (mk d true g (mk d1 false p (T true x xl xr) s) (T false u ul ur))).
Proof.
  intros HF. pose proof HF as [_ Hrep _ _]. rewrite rep_mk, rep_mk in Hrep. destruct Hrep as (Hg&(Hp&(Hx&_)&_)&(Hu&_)). rewrite !ptr_mk in *. cbn [RbTreeInv.ptr] in *.
  unfold insert_sub. runs_steps. eapply parent_of_runs; [exact Hx|]. cbn [n_parent]. runs_steps. eapply parent_of_runs; [exact Hp|]. rewrite parent_node. runs_steps.
  eapply child_of_runs; [exact Hg|]. rewrite child_opp. runs_steps. eapply red_of_runs; [exact Hu|]. cbn [n_red]. runs_steps.
  runs_by (recolor_runs tr h _ d1 true false p _ _ (foc_pull tr _ _ _ _ _ _ _ HF)). intros _ h1 HF1. apply foc_push, foc_pull_opp in HF1. runs_steps.
  runs_by (recolor_runs tr h1 _ Left true false u ul ur HF1). intros _ h2 HF2. apply foc_push_opp in HF2. runs_steps.
  pose proof HF2 as [_ Hrep _ _]. rewrite rep_mk, rep_mk in Hrep. destruct Hrep as (Hg2&(Hp2&(Hx2&_)&_)&_). rewrite !ptr_mk in *.
  eapply parent_of_runs; [exact Hx2|]. cbn [n_parent]. runs_steps. eapply parent_of_runs; [exact Hp2|]. rewrite parent_node. runs_steps.
  runs_by (recolor_runs tr h2 _ d c true g _ _ HF2). intros _ h3 HF3. runs_steps. pose proof HF3 as [_ Hrep _ _]. rewrite rep_mk, rep_mk in Hrep. destruct Hrep as (_&(Hp3&(Hx3&_)&_)&_).
  eapply parent_of_runs; [exact Hx3|]. cbn [n_parent]. eapply parent_of_runs; [exact Hp3|]. rewrite parent_node. done.
Qed.

(** The uncle is black: at most two rotations, and done. *)
Definition turned (d d1 : dir) (g p x : Z) (xa xb s u : tree) : tree :=
  if dir_eqb d1 d then mk (opp d) false p (mk (opp d) true g u s) (mk d true x xa xb) else mk (opp d) false x (mk (opp d) true g u xb) (mk d true p s xa).

Lemma insert_outer h k d c g p x xa xb s u : Foc h k (mk d c g (mk d true p (mk d true x xa xb) s) u) ->
  runs (let! p := parent_of x in
    do! upd p (set_red false) in
    let! p := parent_of x in
    let! g := parent_of p in
    do! upd g (set_red true) in
    let! p := parent_of x in
    let! g := parent_of p in
    do! rotate tr (opp d) g in ret x) h (fun x' h' => x' = x /\ Foc h' k (mk (opp d) false p (mk (opp d) true g u s) (mk d true x xa xb))).
Proof.
  intros HF. pose proof HF as [_ Hrep _ _]. rewrite !rep_mk in Hrep. destruct Hrep as (Hg&(Hp&(Hx&_)&_)&_). rewrite !ptr_mk in *.
  runs_steps. eapply parent_of_runs; [exact Hx|]. rewrite parent_node. runs_steps. runs_by (recolor_runs tr h _ d true false p _ _ (foc_pull tr _ _ _ _ _ _ _ HF)). intros _ h1 HF1. apply foc_push in HF1.
  runs_steps. pose proof HF1 as [_ Hrep _ _]. rewrite !rep_mk in Hrep. destruct Hrep as (Hg1&(Hp1&(Hx1&_)&_)&_). rewrite !ptr_mk in *.
  eapply parent_of_runs; [exact Hx1|]. rewrite parent_node. runs_steps. eapply parent_of_runs; [exact Hp1|]. rewrite parent_node. runs_steps.
  runs_by (recolor_runs tr h1 _ d c true g _ _ HF1). intros _ h2 HF2. runs_steps. pose proof HF2 as [_ Hrep _ _]. rewrite !rep_mk in Hrep. destruct Hrep as (Hg2&(Hp2&(Hx2&_)&_)&_). rewrite !ptr_mk in *.
  eapply parent_of_runs; [exact Hx2|]. rewrite parent_node. runs_steps. eapply parent_of_runs; [exact Hp2|]. rewrite parent_node. runs_steps.
  rewrite <-(mk_opp d true g), <-(mk_opp d false p) in HF2. runs_by (rotate_runs tr h2 _ (opp d) true g u false p s _ HF2). intros _ h3 [HF3 _]. runs_steps. done.
Qed.

Lemma insert_black h k d c g d1 p x xa xb s u : Foc h k (mk d c g (mk d1 true p (mk d true x xa xb) s) u) -> redness u = false ->
  runs (insert_sub tr d x) h (fun x' h' => exists k' t', fill k' t' = turned d d1 g p x xa xb s u /\ Foc h' (k' ++ k) t' /\ x' = ptr t' /\ upred k' = false /\ k' <> [] /\ redness t' = true).
Proof.
  intros HF Hur. pose proof HF as [_ Hrep _ _]. rewrite !rep_mk in Hrep. destruct Hrep as (Hg&(Hp&(Hx&_)&_)&_). rewrite !ptr_mk in *.
  destruct (foc_red _ _ _ _ (foc_pull_opp tr _ _ _ _ _ _ _ HF)) as (nu&Hu&Hnu). rewrite Hur in Hnu. unfold insert_sub. runs_steps.
  eapply parent_of_runs; [exact Hx|]. rewrite parent_node. runs_steps. eapply parent_of_runs; [exact Hp|]. rewrite parent_node. runs_steps. eapply child_of_runs; [exact Hg|]. rewrite child_opp. runs_steps.
  eapply red_of_runs; [exact Hu|]. rewrite Hnu. runs_steps. eapply child_of_runs; [exact Hp|]. apply runs_bind. unfold turned. pose proof (foc_pull tr _ _ _ _ _ _ _ HF) as HFp. destruct (dir_eqb d1 d) eqn:Hd.
  - assert (d1 = d) as -> by (by destruct d1, d). rewrite child_opp. destruct (foc_not_in tr _ _ _ _ _ _ _ HFp) as (_&_&_&_&Hne). rewrite ptr_mk in Hne.
    destruct (foc_not_in tr _ _ _ _ _ _ _ (foc_pull tr _ _ _ _ _ _ _ HFp)) as (_&_&Hxn&_&_).
    rewrite (proj2 (Z.eqb_neq x (ptr s))) by (intros Hq; apply Hxn; by apply Hne). cbv iota. apply runs_ret.
    runs_by (insert_outer h k d c g p x xa xb s u HF). intros x' h' [-> HF'].
    exists [Fr d false p (mk (opp d) true g u s)], (mk d true x xa xb). rewrite ptr_mk, redness_mk. split; [cbn; by rewrite (mk_opp d false p)|].
    split; [|done]. cbn [app]. apply foc_up. by rewrite (mk_opp d false p) in HF'.
  - apply opp_eqb in Hd as ->. rewrite child_d, Z.eqb_refl. cbv iota. rewrite mk_opp in HFp. apply runs_bind. runs_by (rotate_runs tr h _ d true p s true x xa xb HFp). intros _ h1 [HF1 _].
    apply foc_push in HF1. apply runs_ret. runs_by (insert_outer h1 k d c g x p s xa xb u HF1). intros x' h' [-> HF'].
    exists [Fr d false x (mk (opp d) true g u xb)], (mk d true p s xa). rewrite ptr_mk, redness_mk. split; [cbn; by rewrite (mk_opp d false x)|].
    split; [|done]. cbn [app]. apply foc_up. by rewrite (mk_opp d false x) in HF'.
Qed.

Lemma fill_app k k' t : fill (k ++ k') t = fill k' (fill k t).
Proof. revert t. induction k as [|[d c x s] k IH]; intros t; cbn; [done|apply IH]. Qed.
Lemma foc_filled h k t : Foc h k t -> Foc h [] (fill k t).
Proof. intros HF. by apply (foc_fill tr h k t). Qed.
Lemma mk_ex d c x l r : exists a b, T c x l r = mk d c x a b.
Proof. destruct d; [by exists l, r|by exists r, l]. Qed.
Lemma turned_ok d d1 g p x xa xb s u n : bal (mk d true x xa xb) n -> bal s n -> bal u n -> rr (mk d true x xa xb) -> rr s -> rr u -> redness s = false -> redness u = false ->
  elems (turned d d1 g p x xa xb s u) = elems (mk d false g (mk d1 true p (mk d true x xa xb) s) u) /\ redness (turned d d1 g p x xa xb s u) = false /\
  bal (turned d d1 g p x xa xb s u) (S n) /\ rr (turned d d1 g p x xa xb s u).
Proof.
  intros Hx Hs Hu Rx Rs Ru Fs Fu. apply bal_mk in Hx as (m&Ha&Hb&->). apply rr_mk in Rx as (Hc&Ra&Rb). destruct (Hc eq_refl) as [Fa Fb].
  unfold turned. destruct (dir_eqb d1 d) eqn:Hd; rewrite redness_mk, !bal_mk, !rr_mk, !redness_mk.
  - assert (d1 = d) as -> by (by destruct d1, d). split; [rewrite <-(elems_rotate (opp d) false true), !(mk_opp d); done|]. split; [done|]. split; [|naive_solver]. exists m. rewrite !bal_mk. eauto 10.
  - apply opp_eqb in Hd as ->. split; [destruct d; cbn; rewrite <-?app_assoc; cbn; rewrite <-?app_assoc; done|]. split; [done|]. split; [|naive_solver]. exists m. rewrite !bal_mk. eauto 10.
Qed.

(** Done: no red node has a red child above the focus. *)
Lemma fixup_stops fuel h k t : Foc h k t -> redness t = true -> upred k = false -> runs (insert_fixup tr fuel (ptr t)) h (fun _ h' => h' = h).
Proof.
  intros HF Ht Hk. destruct t as [|c x l r]; [done|]. destruct (foc_upred tr _ _ _ HF) as (n&Hn&Hr). rewrite Hk in Hr. cbn [RbTreeInv.ptr]. pose proof HF as [_ (Hx&_) _ _].
  destruct fuel; cbn [insert_fixup]; (runs_steps; eapply parent_of_runs; [exact Hx|]; runs_steps; eapply red_of_runs; [exact Hn|]; rewrite Hr; by runs_steps).
Qed.
Definition fixed h k t : Prop := exists t', Foc h [] t' /\ elems t' = elems (fill k t) /\ rr t' /\ exists m, bal t' m.

Lemma insert_fixup_runs fuel : forall h k x l r n, Foc h k (T true x l r) -> cok k n -> bal l n -> bal r n -> rr (T true x l r) -> (length k <= fuel)%nat ->
  runs (insert_fixup tr fuel x) h (fun _ h' => fixed h' k (T true x l r)).
Proof.
  induction fuel as [fuel IH] using lt_wf_ind. intros h k x l r n HF Hk Hl Hr Hrr Hlen.
  assert (Hbal : bal (T true x l r) n) by (exists n; auto). destruct (upred k) eqn:Hu; cycle 1.
  - runs_by (fixup_stops fuel h k (T true x l r) HF eq_refl Hu). intros _ h' ->. exists (fill k (T true x l r)). split; [by apply foc_filled|]. split; [done|].
    destruct k as [|f k]; [by split; [|exists n]|]. destruct (fill_ok (f :: k) (T true x l r) n Hk Hbal Hrr) as (_&?&?); done.
  - destruct k as [|[d c p s] [|[d2 c2 g u] k2]]; cbn in Hu; [done|subst c; destruct Hk as (_&_&Hk&_); by destruct (Hk eq_refl) as (_&_&?)|]. subst c. destruct Hk as (Hs&Rs&Hc&Hub&Ru&_&Hk2). destruct (Hc eq_refl) as (Fs&Hc2&_). cbn in Hc2. subst c2.
    cbn [length] in Hlen. destruct fuel as [|fuel]; [lia|].
    destruct (mk_ex d2 true x l r) as (xa&xb&HX). assert (HF2 : Foc h k2 (mk d2 false g (mk d true p (mk d2 true x xa xb) s) u)) by (rewrite <-HX; by do 2 apply (foc_push tr)). rewrite HX in Hbal, Hrr.
    pose proof HF2 as [_ Hrep _ _]. rewrite !rep_mk in Hrep. destruct Hrep as (Hg&(Hp&(Hx&_)&_)&_). rewrite !ptr_mk in *.
    cbn [insert_fixup]. runs_steps. eapply parent_of_runs; [exact Hx|]. rewrite parent_node. runs_steps. eapply red_of_runs; [exact Hp|]. rewrite red_node. runs_steps.
    eapply parent_of_runs; [exact Hp|]. rewrite parent_node. runs_steps. eapply child_of_runs; [exact Hg|]. runs_steps.
    assert (Hdir : (if p =? child Left (node d2 false (above k2) p (ptr u)) then Left else Right) = d2).
    { destruct d2; cbn; [by rewrite Z.eqb_refl|]. destruct (foc_not_in tr _ _ _ _ _ _ _ HF2) as (_&_&_&_&Hne). rewrite ptr_mk in Hne. apply foc_pull in HF2. destruct (foc_not_in tr _ _ _ _ _ _ _ HF2) as (_&_&Hpn&_&_).
      rewrite (proj2 (Z.eqb_neq p (ptr u))); [done|]. intros Hq. apply Hpn. by apply Hne. }
    rewrite Hdir. cbn [fill]. unfold fixed. cbn [fill]. rewrite HX. destruct (redness u) eqn:Fu.
    + destruct u as [|cu u ul ur]; [done|]. cbn in Fu. subst cu. rewrite <-HX in HF2, Hbal, Hrr.
      runs_by (insert_red h k2 d2 false g d p x s l r u ul ur HF2). intros x' h' [-> HF']. destruct Hub as (m&Hul&Hur&->). destruct Ru as (Hcu&Rul&Rur).
      rewrite HX in HF'. set (A := mk d false p (mk d2 true x xa xb) s) in *. set (B := T false u ul ur) in *.
      assert (HA : bal A (S m) /\ rr A /\ redness A = false) by (unfold A; rewrite bal_mk, rr_mk, <-HX; (split; [exists m; auto|split; [split; [intros Hq; discriminate Hq|by split]|apply redness_mk]])).
      assert (HB : bal B (S m) /\ rr B /\ redness B = false) by (split; [exists m; auto|split; [split; [intros Hq; discriminate Hq|by split]|done]]). destruct HA as (Ha&Ra&Fa), HB as (Hb&Rb&Fb).
      assert (Hgo : exists a b, mk d2 true g A B = T true g a b /\ bal a (S m) /\ bal b (S m) /\ rr a /\ rr b /\ redness a = false /\ redness b = false) by (destruct d2; cbn [mk]; eauto 12).
      destruct Hgo as (a&b&Heq&Ha'&Hb'&Ra'&Rb'&Fa'&Fb'). rewrite Heq in HF'. runs_by (IH fuel ltac:(lia) h' k2 g a b (S m) HF' Hk2 Ha' Hb').
      * by cbn.
      * lia.
      * intros _ h2 (t'&HF3&He&Hrr'&Hbal'). exists t'. split; [done|]. split; [|done]. rewrite He, <-Heq. apply elems_fill_eq. destruct d2, d; done.
    + runs_by (insert_black h k2 d2 false g d p x xa xb s u HF2 Fu). intros x' h' (k'&t'&Hfill&HF'&->&Huk&Hnk&Ft).
      assert (Huk' : upred (k' ++ k2) = false) by (by destruct k'). runs_by (fixup_stops fuel h' _ t' HF' Ft Huk'). intros _ h2 ->. exists (fill (k' ++ k2) t'). split; [by apply foc_filled|].
      rewrite fill_app, Hfill. destruct (turned_ok d2 d g p x xa xb s u n) as (He&Fn&Hbn&Rn); try done. split; [by apply elems_fill_eq|].
      destruct (fill_ok k2 (turned d2 d g p x xa xb s u) (S n) Hk2 Hbn Rn) as (_&?&?); [by rewrite Fn|done].
Qed.

(** ** The leaf *)

Variable compare : Z -> Z -> Z.

Fixpoint descend (z : Z) t k : path :=
  match t with E => k | T c x l r => if 0 <? compare x z then descend z l (Fr Left c x r :: k) else descend z r (Fr Right c x l :: k) end.
Fixpoint graft (z : Z) t X : tree :=
  match t with E => X | T c x l r => if 0 <? compare x z then T c x (graft z l X) r else T c x l (graft z r X) end.
Lemma descend_graft z t k X : fill (descend z t k) X = fill k (graft z t X).
Proof. revert k. induction t as [|c x l IHl r IHr]; intros k; [done|]. cbn [descend graft]. destruct (0 <? compare x z); [by rewrite IHl|by rewrite IHr]. Qed.
Lemma descend_cok z t k n : cok k n -> bal t n -> rr t -> (redness t = true -> upred k = false /\ k <> []) -> cok (descend z t k) 1.
Proof.
  revert k n. induction t as [|c x l IHl r IHr]; intros k n; cbn [descend bal rr redness]; [by intros Hk -> _ _|].
  intros Hk (m&Hl&Hr&->) (Hc&Rl&Rr) Hred. destruct (0 <? compare x z); [apply (IHl _ m)|apply (IHr _ m)]; try done; cbn [cok upred f_red].
  - split; [done|]. split; [done|]. split; [naive_solver|by destruct c].
  - intros Hrl. split; [|done]. destruct c; [|done]. destruct (Hc eq_refl). congruence.
  - split; [done|]. split; [done|]. split; [naive_solver|by destruct c].
  - intros Hrl. split; [|done]. destruct c; [|done]. destruct (Hc eq_refl). congruence.
Qed.
(** The side of the last step. *)
Lemma descend_dir z t k : (descend z t k = k /\ t = E) \/ exists c x s k', descend z t k = Fr (if 0 <? compare x z then Left else Right) c x s :: k'.
Proof.
  revert k. induction t as [|c x l IHl r IHr]; intros k; [by left|]. right. cbn [descend].
  destruct (0 <? compare x z) eqn:Hc; [destruct (IHl (Fr Left c x r :: k)) as [[-> _]|H]|destruct (IHr (Fr Right c x l :: k)) as [[-> _]|H]]; try done; do 4 eexists; by rewrite Hc.
Qed.

Fixpoint height t : nat := match t with E => 0 | T _ _ l r => S (Nat.max (height l) (height r)) end.
Lemma height_elems t : (height t <= length (elems t))%nat.
Proof. induction t as [|c x l IHl r IHr]; cbn; [lia|]. rewrite length_app. cbn. lia. Qed.

Lemma insert_loop_runs fuel h k t z : Foc h k t -> (height t <= fuel)%nat ->
  runs (insert_loop compare tr fuel z (ptr t) (above k)) h (fun y h' => h' = h /\ y = above (descend z t k) /\ Foc h (descend z t k) E).
Proof.
  revert k t. induction fuel as [|fuel IH]; intros k t HF Hh; (destruct t as [|c x l r]; [cbn [insert_loop RbTreeInv.ptr]; rewrite Z.eqb_refl; by apply runs_ret|]); cbn [height] in Hh; [lia|].
  destruct (foc_not_in tr h k Left c x l r HF) as (_&_&Hn&_&_). cbn [insert_loop RbTreeInv.ptr descend]. rewrite (proj2 (Z.eqb_neq x nil) Hn). runs_steps.
  eapply nd_runs; [apply HF|]. cbn [n_left n_right]. destruct (0 <? compare x z).
  - apply (IH (Fr Left c x r :: k) l); [by apply (foc_pull tr)|lia].
  - apply (IH (Fr Right c x l :: k) r); [by apply (foc_pull_opp tr h k Left)|lia].
Qed.

(** Filling the hole. *)
Lemma crep_hole h k z : crep tr h nil k -> NoDup (root :: around k) -> forall n d, h !! above k = Some n -> (k = [] -> d = Left) -> (forall f k', k = f :: k' -> d = f_dir f) -> crep tr (<[above k := set_child d z n]> h) z k.
Proof.
  intros Hk Hnd n d Hu H0 H1. apply NoDup_cons in Hnd as [Hr Hnd]. destruct k as [|[d' c x s] k]; cbn [RbTreeInv.above f_node crep] in *.
  - rewrite (H0 eq_refl). rewrite Hk in Hu. injection Hu as <-. apply lookup_insert_eq.
  - rewrite (H1 _ _ eq_refl). cbn [f_dir]. destruct Hk as (Hx&Hs&Hk). rewrite Hx in Hu. injection Hu as <-. rewrite set_child_d. cbn [around] in *. apply NoDup_cons in Hnd as [Hxn Hnd]. rewrite not_elem_of_app in Hxn.
    split; [apply lookup_insert_eq|]. split; [eapply rep_frame; [|done]|eapply crep_frame; [|done]]; intros y Hy; apply lookup_insert_ne; intros ->; [tauto|].
    destruct Hy as [->|Hy]; [apply Hr; left|tauto].
Qed.
Lemma foc_frame h h' k t : Foc h k t -> (forall y, y = nil \/ y = root \/ y ∈ around k ++ elems t -> h' !! y = h !! y) -> Foc h' k t.
Proof.
  intros [Hk Ht Hd (n&Hn&Hr)] Hh. split; [eapply crep_frame; [|done]|eapply rep_frame; [|done]|done|exists n; split; [rewrite Hh; auto|done]].
  - intros y [->|Hy]; apply Hh; [auto|]. rewrite elem_of_app. auto.
  - intros y Hy. apply Hh. rewrite elem_of_app. auto.
Qed.
(** A node that the tree does not have. *)
Definition fresh h t (z : Z) : Prop := z <> nil /\ z <> root /\ (z ∉ elems t) /\ is_Some (h !! z).
Lemma hang h k z c p n d : Foc h k E -> z <> nil -> z <> root -> (z ∉ around k) -> h !! z = Some (mkRb c p nil nil) -> h !! above k = Some n -> (k = [] -> d = Left) -> (forall f k', k = f :: k' -> d = f_dir f) ->
  Foc (<[above k := set_child d z n]> (<[z := mkRb c (above k) nil nil]> h)) k (T c z E E).
Proof.
  intros [Hk _ Hd Hnil] Hzn Hzr Hzk Hz Hu H0 H1. cbn [elems] in Hd. rewrite app_nil_r in Hd. unfold distinct in Hd.
  apply NoDup_cons in Hd as [Hnk Hd]. rewrite not_elem_of_cons in Hnk. destruct Hnk as [Hnr Hnk].
  assert (Huk : above k <> z) by (destruct (up_in tr k) as [->|Hin]; [done|by intros Hq; rewrite Hq in Hin]).
  assert (Hun : above k <> nil) by (destruct (up_in tr k) as [->|Hin]; [done|by intros Hq; rewrite Hq in Hin]).
  split; [|split; [|done]| |].
  - cbn [RbTreeInv.ptr]. eapply crep_hole; [|done|by rewrite lookup_insert_ne|done|done]. eapply crep_frame; [|done]. intros y Hy. apply lookup_insert_ne. intros ->. by destruct Hy.
  - rewrite lookup_insert_ne by done. by rewrite lookup_insert_eq.
  - cbn [elems app]. eapply distinct_perm; [by rewrite <-Permutation_middle, app_nil_r; reflexivity|]. unfold distinct. apply NoDup_cons in Hd as [Hrk Hd].
    rewrite !NoDup_cons, !not_elem_of_cons. naive_solver.
  - destruct Hnil as (m&Hm&Hr). exists m. by rewrite !lookup_insert_ne.
Qed.

Lemma rb_insert_binary_runs h t z : Foc h [] t -> fresh h t z -> runs (rb_insert_binary compare tr z) h (fun _ h' => exists c, Foc h' (descend z t []) (T c z E E)).
Proof.
  intros HF (Hzn&Hzr&Hzt&nz&Hz). unfold rb_insert_binary. runs_steps. eapply upd_runs; [exact Hz|]. runs_steps. eapply upd_runs; [apply lookup_insert_eq|]. runs_steps.
  rewrite insert_insert_eq. destruct nz as [c p l r]. cbn [set_child n_red n_parent n_left n_right]. set (h1 := <[z := _]> h).
  assert (HF1 : Foc h1 [] t) by (eapply foc_frame; [exact HF|]; intros y Hy; apply lookup_insert_ne; intros ->; naive_solver).
  eapply nd_runs; [by apply foc_root|]. cbn [n_left]. runs_steps. pose proof (foc_size tr _ _ _ HF1) as Hsz. pose proof (height_elems t) as Hht. cbn [length] in Hsz.
  runs_by (insert_loop_runs (size h1) h1 [] t z HF1 ltac:(lia)). intros y h2 (->&->&HFk). set (k := descend z t []) in *. runs_steps.
  eapply upd_runs; [apply lookup_insert_eq|]. cbn [set_up n_red n_left n_right]. destruct (foc_upred tr _ _ _ HFk) as (n&Hn&_).
  pose proof (foc_distinct _ _ _ _ HFk) as Hd. unfold distinct in Hd. cbn [elems] in Hd. rewrite app_nil_r, !NoDup_cons in Hd. destruct Hd as (_&Hrk&_).
  assert (Hzk : z ∉ around k).
  { intros Hin. apply Hzt. assert (Hp : elems (fill k E) = elems t); [|rewrite <-Hp, elems_fill, app_nil_r; done].
    unfold k. rewrite descend_graft. cbn [fill]. clear. induction t as [|c x l IHl r IHr]; cbn; [done|]. destruct (0 <? compare x z); cbn; by rewrite ?IHl, ?IHr. }
  assert (Huz : above k <> z) by (destruct (up_in tr k) as [->|Hin]; [done|by intros Hq; rewrite Hq in Hin]).
  assert (Hres : forall d, (k = [] -> d = Left) -> (forall f k', k = f :: k' -> d = f_dir f) -> runs (upd (above k) (set_child d z)) (<[z := mkRb c (above k) nil nil]> h1) (fun _ h' => exists c, Foc h' k (T c z E E))).
  { intros d H0 H1. eapply upd_runs; [by rewrite lookup_insert_ne|]. exists c. eapply hang; try done. by apply lookup_insert_eq. }
  destruct (descend_dir z t []) as [[Hk _]|(c'&x&s&k'&Hk)]; fold k in Hk; rewrite Hk in Hres; cbn [RbTreeInv.above f_node] in Hres; rewrite Hk; cbn [RbTreeInv.above f_node].
  - rewrite Z.eqb_refl. cbn [orb]. by apply Hres.
  - rewrite (proj2 (Z.eqb_neq x root)) by (intros ->; apply Hrk; rewrite Hk; left). cbn [orb]. destruct (0 <? compare x z); apply Hres; try done; by intros f k2 [= <- _].
Qed.
End Insert.
