(* ===== verification/RbTreeThm.v ===== *)
(** * Red-black trees: insertion, search and traversal are correct

    [valid tr h t]: the heap holds the red-black tree [t].  Its nodes in order are [elems t]. *)

From stdpp Require Import base gmap list sorting.
From Stdlib Require Import ZArith Lia Bool.
From S2P Require Import Prelude.
From S2P Require Import RbTree.
From S2P Require Import RbTreeInv.
From S2P Require Import RbTreeIns.

Definition valid (tr : rb_tree) (h : rbheap) (t : tree) : Prop := Foc tr h [] t /\ redness t = false /\ rr t /\ exists n, bal t n.

Section Thm.
Variable tr : rb_tree.
Abbreviation nil := (nil tr).
Abbreviation root := (root tr).
Abbreviation Foc := (Foc tr).
Abbreviation ptr := (ptr tr).
Abbreviation above := (above tr).
Abbreviation valid := (valid tr).
Implicit Types (h : rbheap) (t : tree) (k : path).

(** ** Insertion *)

Section Insert.
Variable compare : Z -> Z -> Z.
Definition not_after (a b : Z) : Prop := compare a b <= 0.

Lemma graft_nonempty z t c : graft compare z t (T c z E E) <> E.
Proof. destruct t; cbn; [done|]. by destruct (_ <? _). Qed.
Lemma rb_insert_runs h t z : valid h t -> fresh tr h t z ->
  runs (rb_insert compare tr z) h (fun _ h' => exists t', valid h' t' /\ elems t' = elems (graft compare z t (T true z E E))).
Proof.
  intros (HF&Hred&Hrr&n&Hb) Hz. unfold rb_insert. runs_steps. runs_by (rb_insert_binary_runs tr compare h t z HF Hz). intros _ h1 (c&HF1). set (k := descend compare z t []) in *. runs_steps.
  runs_by (recolor_runs tr h1 k Left c true z E E HF1). intros _ h2 HF2. cbn [mk] in HF2. runs_steps.
  assert (Hk : cok k 1) by (eapply descend_cok; [done|exact Hb|done|by rewrite Hred]). pose proof (foc_size tr _ _ _ HF2) as Hsz.
  runs_by (insert_fixup_runs tr (size h2) h2 k z E E 1 HF2 Hk eq_refl eq_refl); [done|lia|]. intros _ h3 (t'&HF3&He&Hrr'&m&Hb'). runs_steps.
  unfold k in He. rewrite descend_graft in He. cbn [fill] in He. destruct t' as [|c' x l r].
  - exfalso. pose proof (graft_nonempty z t true) as Hne. destruct (graft compare z t (T true z E E)) as [|? ? ?]; [done|]. cbn in He. by apply app_cons_not_nil in He.
  - eapply child_of_runs; [by apply (foc_root tr)|]. cbn [child n_left RbTreeInv.ptr]. runs_steps. runs_by (recolor_runs tr h3 [] Left c' false x l r HF3). intros _ h4 HF4. cbn [mk] in HF4. runs_steps.
    pose proof HF4 as [Hroot _ _ (n4&Hn4&Hr4)]. eapply red_of_runs; [exact Hn4|]. rewrite Hr4. runs_steps. eapply red_of_runs; [exact Hroot|]. apply runs_assert; [done|].
    exists (T false x l r). split; [|done]. split; [done|]. split; [done|]. destruct Hrr' as (_&Hl&Hr). split; [by split|]. destruct Hb' as (i&Hi1&Hi2&_). exists (S i), i. done.
Qed.

Hypothesis compare_total : forall a b, 0 < compare a b -> compare b a <= 0.
Hypothesis compare_trans : forall a b c, compare a b <= 0 -> compare b c <= 0 -> compare a c <= 0.

(** The new node goes after its equals. *)
Lemma graft_split z t X : StronglySorted not_after (elems t) -> exists L R, elems t = L ++ R /\ elems (graft compare z t X) = L ++ elems X ++ R /\ Forall (fun a => compare a z <= 0) L /\ Forall (fun b => 0 < compare b z) R.
Proof.
  induction t as [|c x l IHl r IHr]; cbn [elems graft]; [exists [], []; cbn; by rewrite app_nil_r|]. intros Hs. apply StronglySorted_app in Hs as (Hlr&Hl&Hr). inversion_clear Hr as [|? ? Hr' Hx].
  destruct (Z.ltb_spec 0 (compare x z)) as [Hc|Hc].
  - destruct (IHl Hl) as (L&R&He&Hg&HL&HR). exists L, (R ++ x :: elems r). rewrite He. cbn [elems]. rewrite Hg. split; [by rewrite <-app_assoc|]. split; [by rewrite <-!app_assoc|]. split; [done|].
    apply Forall_app_2; [done|]. constructor; [done|]. eapply Forall_impl; [exact Hx|]. cbn. intros b Hb. destruct (Z.ltb_spec 0 (compare b z)); [done|]. unfold not_after in Hb. pose proof (compare_trans x b z). lia.
  - destruct (IHr Hr') as (L&R&He&Hg&HL&HR). exists (elems l ++ x :: L), R. rewrite He. cbn [elems]. rewrite Hg. split; [by rewrite <-app_assoc|]. split; [by rewrite <-!app_assoc|]. split; [|done].
    apply Forall_app_2; [|by constructor]. apply Forall_forall. intros a Ha. apply (compare_trans a x z); [|done]. apply (Hlr a x Ha). left.
Qed.

(** C18: insertion into a red-black tree.  [rb_insert] of a node that the tree does not have returns
    (no assertion fails, [nil] and [root] stay black); the heap then holds a red-black tree again: same
    black height on every path, no red node with a red child, black root, all parent pointers right.
    Its nodes in order are those before with the new one behind every node that is not greater
    and before all the others, so they are in order. *)
Theorem rb_insert_correct h t z : valid h t -> StronglySorted not_after (elems t) -> fresh tr h t z ->
  runs (rb_insert compare tr z) h (fun _ h' => exists t' L R, valid h' t' /\ elems t = L ++ R /\ elems t' = L ++ z :: R /\
    Forall (fun a => compare a z <= 0) L /\ Forall (fun b => 0 < compare b z) R /\ StronglySorted not_after (elems t')).
Proof.
  intros Hv Hs Hz. runs_by (rb_insert_runs h t z Hv Hz). intros _ h' (t'&Hv'&He'). destruct (graft_split z t (T true z E E) Hs) as (L&R&He&Hg&HL&HR). rewrite Hg in He'. cbn [elems app] in He'.
  exists t', L, R. split; [done|]. split; [done|]. split; [done|]. split; [done|]. split; [done|]. rewrite He'. rewrite He in Hs. apply StronglySorted_app in Hs as (HLR&HsL&HsR).
  apply StronglySorted_app_2; [|done|].
  - intros a b Ha [->|Hb]%elem_of_cons; [by apply (proj1 (Forall_forall _ _) HL)|by apply HLR].
  - constructor; [done|]. eapply Forall_impl; [exact HR|]. intros b Hb. by apply compare_total.
Qed.
End Insert.

(** ** Search *)

(** A red-black tree is balanced. *)
Lemma bal_height t n : bal t n -> rr t -> (height t + 2 <= 2 * n + if redness t then 1 else 0)%nat.
Proof.
  revert n. induction t as [|c x l IHl r IHr]; intros n; cbn [bal rr height redness]; [intros -> _; lia|]. intros (m&Hl&Hr&->) (Hc&Rl&Rr). specialize (IHl m Hl Rl). specialize (IHr m Hr Rr).
  destruct c; [|destruct (redness l), (redness r); lia]. destruct (Hc eq_refl) as [Fl Fr]. rewrite Fl, Fr in *. lia.
Qed.
Lemma bal_size t n : bal t n -> (2 ^ n <= 2 * (length (elems t) + 1))%nat.
Proof.
  revert n. induction t as [|c x l IHl r IHr]; intros n; cbn [bal elems]; [intros ->; cbn; lia|]. intros (m&Hl&Hr&->). specialize (IHl m Hl). specialize (IHr m Hr). rewrite length_app. cbn [length].
  destruct c; rewrite ?Nat.pow_succ_r'; lia.
Qed.
Lemma valid_height h t : valid h t -> (height t <= 2 * Nat.log2 (length (elems t) + 1))%nat.
Proof.
  intros (_&Hred&Hrr&n&Hb). pose proof (bal_height t n Hb Hrr) as Hh. rewrite Hred in Hh. apply bal_size in Hb. destruct n as [|n]; [lia|]. rewrite Nat.pow_succ_r' in Hb.
  assert (n <= Nat.log2 (length (elems t) + 1))%nat; [|lia]. apply Nat.log2_le_pow2; lia.
Qed.

Section Search.
Context {K : Type}.
Variable cmp : Z -> K -> Z.
Variable key : K.
(** The order of the nodes fits the key: those below it, the matches, those above it. *)
Definition fits (a b : Z) : Prop := (0 <= cmp a key -> 0 <= cmp b key) /\ (0 < cmp a key -> 0 < cmp b key).
(** The match that is highest in the tree: no other node than those below it matches. *)
Definition found t (r : option Z) : Prop :=
  match r with
  | None => forall x, x ∈ elems t -> cmp x key <> 0
  | Some x => cmp x key = 0 /\ exists k c a b, t = fill k (T c x a b) /\ forall y, y ∈ around k -> cmp y key <> 0
  end.
Lemma around_app k k' : around (k ++ k') = around k ++ around k'.
Proof. induction k as [|[d c x s] k IH]; cbn; [done|]. by rewrite IH, app_assoc. Qed.
Lemma found_up d c x t s r : found t r -> cmp x key <> 0 -> (forall y, y ∈ elems s -> cmp y key <> 0) -> found (mk d c x t s) r.
Proof.
  intros Hf Hx Hs. destruct r as [y|]; cbn in *.
  - destruct Hf as (Hy&k&c'&a&b&->&Hk). split; [done|]. exists (k ++ [Fr d c x s]), c', a, b. rewrite fill_app. split; [done|]. intros z. rewrite around_app. cbn. rewrite app_nil_r, elem_of_app, elem_of_cons. intros [Hz|[->|Hz]]; auto.
  - intros y. rewrite elems_mk, elem_of_cons, elem_of_app. intros [->|[Hy|Hy]]; auto.
Qed.

Lemma rb_search_loop_runs fuel h par t : rep tr h par t -> (nil ∉ elems t) -> StronglySorted fits (elems t) -> (height t <= fuel)%nat ->
  runs (rb_search_loop tr fuel cmp key (ptr t)) h (fun r h' => h' = h /\ found t r).
Proof.
  revert par t. induction fuel as [|fuel IH]; intros par t Hrep Hn Hs Hh; (destruct t as [|c x l r]; [cbn [rb_search_loop RbTreeInv.ptr]; rewrite Z.eqb_refl; apply runs_ret; split; [done|intros x Hx; by apply elem_of_nil in Hx]|]); cbn [height] in Hh; [lia|].
  destruct Hrep as (Hx&Hl&Hr). cbn [elems] in *. rewrite not_elem_of_app, not_elem_of_cons in Hn. destruct Hn as (Hnl&Hnx&Hnr). apply StronglySorted_app in Hs as (Hlr&Hsl&Hsr). inversion_clear Hsr as [|? ? Hsr' Hxr]. rewrite Forall_forall in Hxr.
  cbn [rb_search_loop RbTreeInv.ptr]. rewrite (proj2 (Z.eqb_neq x nil)) by congruence. destruct (Z.eqb_spec (cmp x key) 0) as [H0|H0].
  - apply runs_ret. split; [done|]. split; [done|]. exists [], c, l, r. split; [done|]. by intros y []%elem_of_nil.
  - runs_steps. eapply child_of_runs; [exact Hx|]. destruct (Z.ltb_spec 0 (cmp x key)) as [Hlt|Hlt]; cbn [child n_left n_right].
    + runs_by (IH x l Hl Hnl Hsl ltac:(lia)). intros y h' [-> Hf]. split; [done|]. apply (found_up Left c x l r y Hf H0). intros z Hz. destruct (Hxr z Hz) as [_ Hp]. specialize (Hp Hlt). lia.
    + runs_by (IH x r Hr Hnr Hsr' ltac:(lia)). intros y h' [-> Hf]. split; [done|]. apply (found_up Right c x r l y Hf H0). intros z Hz Hq. destruct (Hlr z x Hz ltac:(left)) as [Hp _]. specialize (Hp ltac:(lia)). lia.
Qed.

(** C20: [rb_search] goes down at most 2 log2(n + 1) steps in a tree of n nodes whose order fits the key.
    It changes nothing and returns the node highest in the tree that compares equal to
    the key, or NULL when no node does; so does its loop with any fuel that is at least that bound. *)
Theorem rb_search_correct h t : valid h t -> StronglySorted fits (elems t) ->
  runs (rb_search tr cmp key) h (fun r h' => h' = h /\ found t r) /\
  forall steps, (2 * Nat.log2 (length (elems t) + 1) <= steps)%nat -> runs (rb_search_loop tr steps cmp key (ptr t)) h (fun r h' => h' = h /\ found t r).
Proof.
  intros Hv Hs. pose proof (valid_height h t Hv) as Hlog. destruct Hv as (HF&_). assert (Hn : nil ∉ elems t) by (pose proof (foc_distinct _ _ _ _ HF) as Hd; unfold distinct in Hd; rewrite !NoDup_cons, not_elem_of_cons in Hd; tauto).
  split.
  - unfold rb_search. runs_steps. eapply child_of_runs; [by apply (foc_root tr)|]. cbn [child n_left]. apply (rb_search_loop_runs _ h root); [by destruct HF|done|done|].
    pose proof (foc_size tr _ _ _ HF) as Hsz. pose proof (height_elems t). cbn [length] in Hsz. lia.
  - intros steps Hst. apply (rb_search_loop_runs _ h root); [by destruct HF|done|done|lia].
Qed.
End Search.

(** ** Traversal *)

(** The nodes before and behind the focus. *)
Fixpoint lefts k : list Z := match k with [] => [] | Fr Left _ _ _ :: k => lefts k | Fr Right _ x s :: k => lefts k ++ elems s ++ [x] end.
Fixpoint rights k : list Z := match k with [] => [] | Fr Left _ x s :: k => x :: elems s ++ rights k | Fr Right _ _ _ :: k => rights k end.
Lemma fill_elems k t : elems (fill k t) = lefts k ++ elems t ++ rights k.
Proof.
  revert t. induction k as [|[d c x s] k IH]; intros t; cbn; [by rewrite app_nil_r|]. rewrite IH. destruct d; cbn; rewrite <-?app_assoc; cbn; by rewrite <-?app_assoc.
Qed.
Lemma focus_at t x k : x ∈ elems t -> exists k' c l r, fill k t = fill k' (T c x l r).
Proof.
  revert k. induction t as [|c y l IHl r IHr]; cbn [elems]; intros k; [by intros []%elem_of_nil|]. rewrite elem_of_app, elem_of_cons. intros [Hx|[->|Hx]]; [|eauto 10|].
  - destruct (IHl (Fr Left c y r :: k) Hx) as (k'&c'&l'&r'&He). exists k', c', l', r'. by rewrite <-He.
  - destruct (IHr (Fr Right c y l :: k) Hx) as (k'&c'&l'&r'&He). exists k', c', l', r'. by rewrite <-He.
Qed.
Lemma split_unique (x : Z) A B A' B' : NoDup (A ++ x :: B) -> A ++ x :: B = A' ++ x :: B' -> A = A' /\ B = B'.
Proof.
  revert A'. induction A as [|a A IH]; intros [|a' A']; cbn; intros Hnd He; [by injection He| | |].
  - injection He as <- ->. apply NoDup_cons in Hnd as [Hx _]. destruct Hx. rewrite elem_of_app. right. left.
  - injection He as -> He. apply NoDup_cons in Hnd as [Hx _]. destruct Hx. rewrite elem_of_app. right. left.
  - injection He as <- He. apply NoDup_cons in Hnd as [_ Hnd]. destruct (IH A' Hnd He) as [-> ->]. done.
Qed.
Lemma foc_elems h t : Foc h [] t -> NoDup (elems t) /\ (nil ∉ elems t) /\ (root ∉ elems t).
Proof. intros HF. pose proof (foc_distinct _ _ _ _ HF) as Hd. unfold distinct in Hd. rewrite !NoDup_cons, not_elem_of_cons in Hd. tauto. Qed.
Lemma focus_split h t A x B : Foc h [] t -> elems t = A ++ x :: B -> exists k c l r, t = fill k (T c x l r) /\ Foc h k (T c x l r) /\ A = lefts k ++ elems l /\ B = elems r ++ rights k.
Proof.
  intros HF He. destruct (foc_elems _ _ HF) as (Hnd&_). destruct (focus_at t x [] ltac:(rewrite He, elem_of_app; right; left)) as (k&c&l&r&Hf). cbn [fill] in Hf. exists k, c, l, r.
  split; [done|]. split; [apply (foc_fill tr); by rewrite <-Hf|]. rewrite He in Hnd. apply (split_unique x _ _ _ _ Hnd). rewrite <-He, Hf, fill_elems. cbn [elems]. by rewrite <-!app_assoc.
Qed.

Definition edge (d : dir) (l : list Z) : option Z := match d with Left => head l | Right => last l end.
Lemma down_loop_runs d fuel h k t : Foc h k t -> t <> E -> (height t <= fuel)%nat -> runs (down_loop tr fuel d (ptr t)) h (fun y h' => h' = h /\ edge d (elems t) = Some y).
Proof.
  revert k t. induction fuel as [|fuel IH]; intros k t HF Ht Hh; (destruct t as [|c x l r]; [done|]); cbn [height] in Hh; [lia|]. destruct (mk_ex d c x l r) as (a&b&HT). rewrite HT in HF |- *. rewrite ptr_mk.
  assert (Ha : (height a <= fuel)%nat) by (destruct d; injection HT as -> ->; lia). cbn [down_loop]. runs_steps. eapply child_of_runs; [by eapply foc_at|]. rewrite child_d.
  destruct a as [|ca xa la ra].
  - cbn [RbTreeInv.ptr]. rewrite Z.eqb_refl. apply runs_ret. split; [done|]. destruct d; cbn; [done|]. by rewrite last_snoc.
  - pose proof (foc_pull tr _ _ _ _ _ _ _ HF) as HFa. destruct (foc_not_in tr _ _ Left _ _ _ _ HFa) as (_&_&Hn&_). cbn [RbTreeInv.ptr]. rewrite (proj2 (Z.eqb_neq xa nil)) by done.
    runs_by (IH _ (T ca xa la ra) HFa); [done|done|]. intros y h' [-> He]. split; [done|]. destruct d; cbn [mk elems edge] in *.
    + destruct (elems la ++ xa :: elems ra); done.
    + rewrite last_app, last_cons. by rewrite He.
Qed.
Lemma succ_loop_runs fuel h k t : Foc h k t -> t <> E -> (length k <= fuel)%nat -> runs (succ_loop fuel (ptr t) (above k)) h (fun y h' => h' = h /\ y = default root (head (rights k))).
Proof.
  revert k t. induction fuel as [|fuel IH]; intros k t HF Ht Hh; (assert (Hpt : ptr t <> nil) by (destruct t; [done|]; by destruct (foc_not_in tr _ _ Left _ _ _ _ HF) as (_&_&?&_)));
    (destruct k as [|[d c y s] k]; [cbn [succ_loop RbTreeInv.above]; runs_steps; eapply child_of_runs; [by apply (foc_root tr)|]; cbn [child n_right]; rewrite (proj2 (Z.eqb_neq _ _) Hpt); by runs_steps|]); cbn [length] in Hh; [lia|].
  cbn [succ_loop RbTreeInv.above f_node]. runs_steps. eapply child_of_runs; [by eapply foc_above|]. pose proof (foc_push tr _ _ _ _ _ _ _ HF) as HFy. destruct (foc_not_in tr _ _ _ _ _ _ _ HFy) as (_&_&_&_&Hne). destruct d; cbn [child n_right node rights].
  - rewrite (proj2 (Z.eqb_neq _ _)) by (intros Hq; by apply Hpt, Hne). by runs_steps.
  - rewrite Z.eqb_refl. runs_steps. eapply parent_of_runs; [by eapply foc_above|]. rewrite parent_node. runs_by (IH k (mk Right c y t s) HFy); [done|lia|done].
Qed.
Lemma pred_loop_runs fuel h k t : Foc h k t -> t <> E -> (length k <= fuel)%nat -> runs (pred_loop tr fuel (ptr t) (above k)) h (fun y h' => h' = h /\ y = default nil (last (lefts k))).
Proof.
  revert k t. induction fuel as [|fuel IH]; intros k t HF Ht Hh; (assert (Hpt : ptr t <> nil) by (destruct t; [done|]; by destruct (foc_not_in tr _ _ Left _ _ _ _ HF) as (_&_&?&_)));
    (destruct k as [|[d c y s] k]; [cbn [pred_loop RbTreeInv.above]; runs_steps; eapply child_of_runs; [by apply (foc_root tr)|]; cbn [child n_left]; rewrite !Z.eqb_refl; by runs_steps|]); cbn [length] in Hh; [lia|].
  cbn [pred_loop RbTreeInv.above f_node]. runs_steps. eapply child_of_runs; [by eapply foc_above|]. pose proof (foc_push tr _ _ _ _ _ _ _ HF) as HFy. destruct (foc_not_in tr _ _ _ _ _ _ _ HFy) as (_&_&_&Hyr&Hne). destruct d; cbn [child n_left node lefts].
  - rewrite Z.eqb_refl, (proj2 (Z.eqb_neq y root)) by done. runs_steps. eapply parent_of_runs; [by eapply foc_above|]. rewrite parent_node. runs_by (IH k (mk Left c y t s) HFy); [done|lia|done].
  - rewrite (proj2 (Z.eqb_neq _ _)) by (intros Hq; by apply Hpt, Hne). runs_steps. by rewrite app_assoc, last_snoc.
Qed.

Lemma rb_tree_successor_runs h t A x B : Foc h [] t -> elems t = A ++ x :: B -> runs (rb_tree_successor tr x) h (fun y h' => h' = h /\ y = default nil (head B)).
Proof.
  intros HF He. destruct (focus_split h t A x B HF He) as (k&c&l&r&_&HFx&->&->). pose proof (foc_elems _ _ HF) as (_&Hn&Hr). rewrite He, !elem_of_app, !elem_of_cons, !elem_of_app in Hn, Hr. pose proof (foc_size tr _ _ _ HFx) as Hsz. cbn [elems] in Hsz. rewrite length_app in Hsz. cbn [length] in Hsz.
  unfold rb_tree_successor. runs_steps. eapply child_of_runs; [by apply (foc_at tr h k Right c x r l)|]. rewrite child_d. destruct r as [|cr xr rl rr'].
  - cbn [RbTreeInv.ptr]. rewrite Z.eqb_refl. cbn [negb]. runs_steps. eapply parent_of_runs; [by apply (foc_at tr h k Right c x E l)|]. rewrite parent_node. runs_steps.
    runs_by (succ_loop_runs (size h) h k (T c x l E) HFx); [done|lia|]. intros y h' [-> ->]. apply runs_ret. split; [done|]. cbn [elems app]. destruct (head (rights k)) as [y|] eqn:Hy; simpl; [|by rewrite Z.eqb_refl].
    rewrite (proj2 (Z.eqb_neq y root)); [done|]. intros ->. apply Hr. right. right. right. destruct (rights k); [done|]. injection Hy as ->. left.
  - pose proof (foc_pull tr _ _ Right _ _ _ _ HFx) as HFr. destruct (foc_not_in tr _ _ Left _ _ _ _ HFr) as (_&_&Hrn&_). rewrite (proj2 (Z.eqb_neq _ nil)) by done. cbn [negb].
    pose proof (height_elems (T cr xr rl rr')). runs_by (down_loop_runs Left (size h) h _ _ HFr); [done|lia|]. intros y h' [-> Hy]. split; [done|]. cbn [edge] in Hy. destruct (elems (T cr xr rl rr')); [done|]. by injection Hy as ->.
Qed.
Lemma rb_tree_predecessor_runs h t A x B : Foc h [] t -> elems t = A ++ x :: B -> runs (rb_tree_predecessor tr x) h (fun y h' => h' = h /\ y = default nil (last A)).
Proof.
  intros HF He. destruct (focus_split h t A x B HF He) as (k&c&l&r&_&HFx&->&->). pose proof (foc_size tr _ _ _ HFx) as Hsz. cbn [elems] in Hsz. rewrite length_app in Hsz. cbn [length] in Hsz.
  unfold rb_tree_predecessor. runs_steps. eapply child_of_runs; [by apply (foc_at tr h k Left c x l r)|]. rewrite child_d. destruct l as [|cr xr rl rr'].
  - cbn [RbTreeInv.ptr]. rewrite Z.eqb_refl. cbn [negb]. runs_steps. eapply parent_of_runs; [by apply (foc_at tr h k Left c x E r)|]. rewrite parent_node. runs_steps.
    runs_by (pred_loop_runs (size h) h k (T c x E r) HFx); [done|lia|]. intros y h' [-> ->]. split; [done|]. cbn [elems]. by rewrite app_nil_r.
  - pose proof (foc_pull tr _ _ Left _ _ _ _ HFx) as HFr. destruct (foc_not_in tr _ _ Left _ _ _ _ HFr) as (_&_&Hrn&_). rewrite (proj2 (Z.eqb_neq _ nil)) by done. cbn [negb].
    pose proof (height_elems (T cr xr rl rr')). runs_by (down_loop_runs Right (size h) h _ _ HFr); [done|lia|]. intros y h' [-> Hy]. split; [done|]. cbn [edge] in Hy. rewrite last_app, Hy. done.
Qed.
Lemma or_null_spec (o : option Z) : (forall y, o = Some y -> y <> nil) -> or_null tr (default nil o) = o.
Proof. unfold or_null. intros Ho. destruct o as [y|]; cbn; [|by rewrite Z.eqb_refl]. by rewrite (proj2 (Z.eqb_neq y nil) (Ho y eq_refl)). Qed.

(** traversal.  From the node [x] of a tree whose nodes in order are [A], [x], [B], [rb_node_next]
    returns the first node of [B] and [rb_node_prev] the last one of [A], NULL when there is none; both terminate
    and change nothing. *)
Theorem rb_node_next_prev_correct h t A x B : valid h t -> elems t = A ++ x :: B ->
  runs (rb_node_next tr x) h (fun r h' => h' = h /\ r = head B) /\ runs (rb_node_prev tr x) h (fun r h' => h' = h /\ r = last A).
Proof.
  intros (HF&_) He. pose proof (foc_elems _ _ HF) as (_&Hn&_). rewrite He, elem_of_app, elem_of_cons in Hn. split.
  - unfold rb_node_next. runs_steps. runs_by (rb_tree_successor_runs h t A x B HF He). intros y h' [-> ->]. runs_steps. split; [done|]. apply or_null_spec. intros y Hy ->. apply Hn. right. right. destruct B; [done|]. injection Hy as ->. left.
  - unfold rb_node_prev. runs_steps. runs_by (rb_tree_predecessor_runs h t A x B HF He). intros y h' [-> ->]. runs_steps. split; [done|]. apply or_null_spec. intros y Hy ->. apply Hn. left. by apply elem_of_list_last in Hy || (apply last_Some in Hy as [A' ->]; rewrite elem_of_app; right; left).
Qed.
End Thm.

(** A new tree is empty and valid. *)
Lemma rb_tree_create_runs h n r : n <> r -> runs (rb_tree_create true (Some n) (Some r)) h (fun t h' => exists tr, t = Some tr /\ nil tr = n /\ root tr = r /\ valid tr h' E).
Proof.
  intros Hnr. unfold rb_tree_create, rb_node_create. cbn [negb]. runs_steps.
  repeat (eapply upd_runs; [first [apply lookup_insert_eq | rewrite lookup_insert_ne by congruence; apply lookup_insert_eq]|]; runs_steps).
  exists (mkRbTree n r). split; [done|]. split; [done|]. split; [done|]. rewrite !insert_insert_eq. split; [|by split; [|split; [|exists 1%nat]]]. split; cbn.
  - by rewrite lookup_insert_eq.
  - done.
  - unfold distinct. cbn. rewrite !NoDup_cons, not_elem_of_cons. split; [split; [done|apply not_elem_of_nil]|]. split; [apply not_elem_of_nil|constructor].
  - unfold nil_black. cbn. rewrite lookup_insert_ne by congruence. rewrite lookup_insert_eq. eexists. by split.
Qed.
