(* ===== verification/RbTreeDel.v ===== *)
(** * Red-black trees: deletion *)

From stdpp Require Import base gmap list sorting.
From Stdlib Require Import ZArith Lia Bool.
From S2P Require Import Prelude.
From S2P Require Import RbTree.
From S2P Require Import RbTreeInv.
From S2P Require Import RbTreeIns.
From S2P Require Import RbTreeThm.

Section Delete.
Variable tr : rb_tree.
Abbreviation nil := (nil tr).
Abbreviation root := (root tr).
Abbreviation Foc := (Foc tr).
Abbreviation ptr := (ptr tr).
Abbreviation above := (above tr).
Implicit Types (h : rbheap) (t : tree) (k : path).

(** When the focus is empty, the parent of [nil] is used: it must be the node above. *)
Definition nilup h t (q : Z) : Prop := t = E -> exists n, h !! nil = Some n /\ n_parent n = q.
Lemma nilup_frame h h' t q : h' !! nil = h !! nil -> nilup h t q -> nilup h' t q.
Proof. unfold nilup. by intros ->. Qed.
Lemma parent_x h k t (Q : Z -> rbheap -> Prop) : Foc h k t -> nilup h t (above k) -> Q (above k) h -> runs (parent_of (ptr t)) h Q.
Proof.
  intros [_ Ht _ _] Hn HQ. destruct t as [|c x l r]; [destruct (Hn eq_refl) as (n&Hnn&He); rewrite <-He in HQ; by eapply parent_of_runs|]. destruct Ht as (Hx&_). by eapply parent_of_runs.
Qed.

(** Recolouring near the focus; [nil] keeps its parent. *)
Lemma recolor_keeps h k d c v x a b : Foc h k (mk d c x a b) -> runs (upd x (set_red v)) h (fun _ h' => Foc h' k (mk d v x a b) /\ h' !! nil = h !! nil).
Proof. intros HF. destruct d; apply (foc_recolor tr h k c v x _ _ HF). Qed.
Lemma recolor_sib h k d c p t d2 v cw w a b : Foc h k (mk d c p t (mk d2 cw w a b)) -> runs (upd w (set_red v)) h (fun _ h' => Foc h' k (mk d c p t (mk d2 v w a b)) /\ h' !! nil = h !! nil).
Proof.
  intros HF. apply foc_pull_opp in HF. runs_by (recolor_keeps h _ d2 cw v w a b HF). intros _ h' [HF' Hn]. split; [|done]. by apply foc_push_opp in HF'.
Qed.
Lemma rotate_sib h k d c p t d2 cw w a cl l b e : Foc h k (mk d c p t (mk d2 cw w a (mk d2 cl l b e))) ->
  runs (rotate tr d2 w) h (fun _ h' => Foc h' k (mk d c p t (mk d2 cl l (mk d2 cw w a b) e)) /\ h' !! nil = h !! nil).
Proof.
  intros HF. apply foc_pull_opp in HF. runs_by (rotate_runs tr h _ d2 cw w a cl l b e HF). intros _ h' [HF' Hn]. split; [|done]. by apply foc_push_opp in HF'.
Qed.

Definition blacken t : tree := match t with E => E | T _ x l r => T false x l r end.
Lemma redness_blacken t : redness (blacken t) = false.
Proof. by destruct t. Qed.
Lemma bal_ge t n : bal t n -> (1 <= n)%nat.
Proof. revert n. induction t as [|c x l IHl r IHr]; cbn; [lia|]. intros n (m&Hl&_&->). specialize (IHl m Hl). destruct c; lia. Qed.
Lemma bal_blacken t n : bal t n -> bal (blacken t) (if redness t then S n else n).
Proof. destruct t as [|c x l r]; cbn; [done|]. intros (m&Hl&Hr&->). exists m. by destruct c. Qed.

(** The first node under the sentinel. *)
Fixpoint top k (q : Z) : Z := match k with [] => q | Fr _ _ x _ :: k => top k x end.

(** The sibling is red: rotate it above the parent. *)
Lemma sibling_black_runs h k d c p s t n : Foc h k (mk d c p t s) -> nilup h t p -> cok (Fr d c p s :: k) n -> bal t (pred n) -> (2 <= n)%nat ->
  runs (sibling_black tr d p (ptr t) (ptr s) (redness s)) h (fun w' h' => exists k' c' w a b, w' = w /\ Foc h' k' (mk d c' p t (mk d false w a b)) /\ nilup h' t p /\
    cok (Fr d c' p (mk d false w a b) :: k') n /\ elems (fill k' (mk d c' p t (mk d false w a b))) = elems (fill k (mk d c p t s)) /\
    (k' = k /\ c' = c \/ c' = true /\ (k = [] \/ forall q, top k' q = top k q))).
Proof.
  intros HF Hnu Hk Ht Hn2. unfold sibling_black. destruct s as [|cw w l r]; [destruct Hk as (Hs&_); cbn in Hs; lia|]. cbn [RbTreeInv.ptr redness]. destruct (mk_ex d cw w l r) as (a&b&HT). destruct cw; cycle 1.
  - apply runs_ret. exists k, c, w, a, b. rewrite <-HT. by auto 10.
  - destruct Hk as (Hs&Rs&Hc&Hk). destruct c; [by destruct (Hc eq_refl)|]. rewrite HT in *. apply bal_mk in Hs as (m&Ha&Hb&->). apply rr_mk in Rs as (Hcw&Ra&Rb). destruct (Hcw eq_refl) as [Fa Fb].
    runs_steps. runs_by (recolor_sib h k d false p t d false true w a b HF). intros _ h1 [HF1 N1]. runs_steps. runs_by (recolor_keeps h1 k d false true p t _ HF1). intros _ h2 [HF2 N2]. runs_steps.
    assert (Hu2 : nilup h2 t p) by (eapply nilup_frame; [|done]; congruence). apply (parent_x h2 _ t _ (foc_pull tr _ _ _ _ _ _ _ HF2) Hu2). cbn [RbTreeInv.above f_node]. runs_steps.
    runs_by (rotate_runs tr h2 k d true p t false w a b HF2). intros _ h3 [HF3 N3]. runs_steps. assert (Hu3 : nilup h3 t p) by (by eapply nilup_frame). pose proof (foc_pull tr _ _ _ _ _ _ _ HF3) as HF4.
    apply (parent_x h3 _ t _ (foc_pull tr _ _ _ _ _ _ _ HF4) Hu3). cbn [RbTreeInv.above f_node]. eapply child_of_runs; [by eapply foc_at|]. rewrite child_opp.
    destruct a as [|ca wa la ra]; [cbn in Ha; lia|]. cbn in Fa. subst ca. destruct (mk_ex d false wa la ra) as (a1&a2&HA). rewrite HA in *.
    exists (Fr d false w b :: k), true, wa, a1, a2. split; [by rewrite ptr_mk|]. split; [done|]. split; [done|]. split; [|split].
    + split; [done|]. split; [done|]. split; [intros _; split; [by rewrite redness_mk|done]|]. split; [done|]. split; [done|]. split; [done|done].
    + cbn [fill]. apply elems_fill_eq. by rewrite (elems_rotate d false true false true).
    + right. split; [done|]. destruct k as [|[d' c' x' s'] k]; [by left|]. right. done.
Qed.

(** The nephew on the far side is red: recolour, rotate, done. *)
Lemma delete_done_runs rt h k d c p t w a b1 : Foc h k (mk d c p t (mk d false w a b1)) -> redness b1 = true -> nilup h t p ->
  runs (delete_done tr d rt (ptr t) w) h (fun x' h' => x' = rt /\ Foc h' k (mk d c w (mk d false p t a) (blacken b1))).
Proof.
  intros HF Hb Hnu. destruct b1 as [|cb b l r]; [done|]. cbn in Hb. subst cb. unfold delete_done. runs_steps.
  apply (parent_x h _ t _ (foc_pull tr _ _ _ _ _ _ _ HF) Hnu). cbn [RbTreeInv.above f_node]. runs_steps. eapply red_of_runs; [by eapply foc_at|]. rewrite red_node. runs_steps.
  runs_by (recolor_sib h k d c p t d c false w a _ HF). intros _ h1 [HF1 N1]. pose proof (nilup_frame _ _ _ _ N1 Hnu) as Hu1. runs_steps.
  apply (parent_x h1 _ t _ (foc_pull tr _ _ _ _ _ _ _ HF1) Hu1). cbn [RbTreeInv.above f_node]. runs_steps. runs_by (recolor_keeps h1 k d c false p t _ HF1). intros _ h2 [HF2 N2]. pose proof (nilup_frame _ _ _ _ N2 Hu1) as Hu2. runs_steps.
  pose proof (foc_pull_opp tr _ _ _ _ _ _ _ HF2) as HFw. eapply child_of_runs; [by eapply foc_at|]. rewrite child_opp. cbn [RbTreeInv.ptr]. runs_steps.
  pose proof (foc_pull_opp tr _ _ _ _ _ _ _ HFw) as HFb. runs_by (recolor_keeps h2 _ Left true false b l r HFb). cbn [mk]. intros _ h3 [HF3 N3]. pose proof (nilup_frame _ _ _ _ N3 Hu2) as Hu3.
  apply foc_push_opp, foc_push_opp in HF3. runs_steps. apply (parent_x h3 _ t _ (foc_pull tr _ _ _ _ _ _ _ HF3) Hu3). cbn [RbTreeInv.above f_node]. runs_steps.
  runs_by (rotate_runs tr h3 k d false p t c w a _ HF3). intros _ h4 [HF4 _]. by runs_steps.
Qed.
(** Only the near one is red: rotate it between. *)
Lemma nephew_red_runs h k d c p t w l a1 a2 b : Foc h k (mk d c p t (mk d false w (mk d true l a1 a2) b)) -> nilup h t p ->
  runs (nephew_red tr d (ptr t) w false) h (fun w' h' => w' = l /\ Foc h' k (mk d c p t (mk d false l a1 (mk d true w a2 b))) /\ nilup h' t p).
Proof.
  intros HF Hnu. unfold nephew_red. cbn [negb]. runs_steps. pose proof (foc_pull_opp tr _ _ _ _ _ _ _ HF) as HFw. eapply child_of_runs; [by eapply foc_at|]. rewrite child_d, ptr_mk. runs_steps.
  runs_by (recolor_keeps h _ d true false l a1 a2 (foc_pull tr _ _ _ _ _ _ _ HFw)). intros _ h1 [HF1 N1]. apply foc_push, foc_push_opp in HF1. runs_steps.
  runs_by (recolor_sib h1 k d c p t d true false w _ b HF1). intros _ h2 [HF2 N2]. runs_steps. rewrite <-(mk_opp d true w), <-(mk_opp d false l) in HF2.
  runs_by (rotate_sib h2 k d c p t (opp d) true w b false l a2 a1 HF2). intros _ h3 [HF3 N3]. rewrite !mk_opp in HF3. runs_steps.
  assert (Hu3 : nilup h3 t p) by (eapply nilup_frame; [|done]; congruence). apply (parent_x h3 _ t _ (foc_pull tr _ _ _ _ _ _ _ HF3) Hu3). cbn [RbTreeInv.above f_node].
  eapply child_of_runs; [by eapply foc_at|]. by rewrite child_opp, ptr_mk.
Qed.

(** The subtree in focus has one black node too few. *)
Record short h k t (n : nat) : Prop := {
  sh_foc : Foc h k t;
  sh_path : cok k (S n);
  sh_bal : bal t n;
  sh_rr : rr (blacken t);
  sh_nil : nilup h t (above k)
}.
(** Repaired; [rt] is black. *)
Definition settled h (rt : Z) (es : list Z) : Prop :=
  exists t, Foc h [] t /\ elems t = es /\ redness t = false /\ rr t /\ (exists m, bal t m) /\ exists n, h !! rt = Some n /\ n_red n = false.

Lemma elems_blacken t : elems (blacken t) = elems t.
Proof. by destruct t. Qed.
Lemma blacken_mk d c x a b : blacken (mk d c x a b) = mk d false x a b.
Proof. by destruct d. Qed.
Lemma rr_black t : rr (blacken t) -> redness t = false -> rr t.
Proof. destruct t as [|[] x l r]; cbn; done. Qed.
Lemma rr_blacken t : rr t -> rr (blacken t).
Proof. destruct t as [|c x l r]; cbn; [done|]. by intros (_&Hl&Hr). Qed.
Lemma top_black h k t q n : Foc h k t -> cok k n -> k <> [] -> exists nr, h !! top k q = Some nr /\ n_red nr = false.
Proof.
  revert t q n. induction k as [|[d c x s] k IH]; intros t q n HF Hk Hne; [done|]. cbn [top]. destruct Hk as (_&_&Hc&Hk). pose proof (foc_push tr _ _ _ _ _ _ _ HF) as HFx.
  destruct k as [|f k]; [|by eapply IH]. cbn [top]. eexists. split; [by eapply foc_at|]. rewrite red_node. destruct c; [|done]. destruct (Hc eq_refl) as (_&_&?). done.
Qed.
Lemma cok_top d c p s k n : cok (Fr d c p s :: k) n -> (k = [] -> c = false) /\ (c = true -> redness s = false /\ upred k = false /\ k <> []).
Proof. intros (_&_&Hc&_). split; [intros ->; destruct c; [|done]; by destruct (Hc eq_refl) as (_&_&?)|done]. Qed.

Lemma settle h k d c p t w a b n es rt : Foc h k (mk d c w (mk d false p t a) (blacken b)) -> cok k (if c then S n else S (S n)) -> (c = true -> upred k = false /\ k <> []) ->
  bal t n -> bal a n -> bal b n -> redness b = true -> rr t -> rr a -> rr b -> elems (fill k (mk d c w (mk d false p t a) (blacken b))) = es -> rt = p \/ rt = top k p -> settled h rt es.
Proof.
  intros HF Hk Hc Ht Ha Hb Fb Rt Ra Rb He Hrt. exists (fill k (mk d c w (mk d false p t a) (blacken b))). pose proof (bal_blacken b n Hb) as Hb'. rewrite Fb in Hb'.
  destruct (fill_ok k (mk d c w (mk d false p t a) (blacken b)) _ Hk) as (F1&F2&F3).
  - apply bal_mk. exists (S n). split; [apply bal_mk; by exists n|]. split; [done|]. by destruct c.
  - apply rr_mk. rewrite redness_mk, redness_blacken. split; [done|]. split; [|by apply rr_blacken]. apply rr_mk. split; [intros Hq; discriminate Hq|done].
  - by rewrite redness_mk.
  - split; [by apply foc_filled|]. split; [done|]. split; [done|]. split; [done|]. split; [done|]. assert (Hp : exists nr, h !! p = Some nr /\ n_red nr = false).
    { eexists. split; [apply (foc_at tr h _ d false p t a (foc_pull tr _ _ _ _ _ _ _ HF))|apply red_node]. }
    destruct Hrt as [->| ->]; [done|]. destruct k as [|f k]; [done|]. by eapply top_black.
Qed.

Lemma delete_sub_runs h k d c p s t n : short h (Fr d c p s :: k) t n -> redness t = false ->
  runs (delete_sub tr d (top k p) (ptr t)) h (fun x' h' =>
    (exists k' t' n', x' = ptr t' /\ short h' k' t' n' /\ elems (fill k' t') = elems (fill k (mk d c p t s)) /\ (redness t' = true \/ k' = k /\ ptr t' = p)) \/
    x' = top k p /\ settled h' (top k p) (elems (fill k (mk d c p t s)))).
Proof.
  intros [HF Hk Ht Rt Hnu] Fred. pose proof (rr_black t Rt Fred) as Rt'. pose proof (bal_ge t n Ht) as Hn. unfold delete_sub. runs_steps. apply (parent_x h _ t _ HF Hnu). cbn [RbTreeInv.above f_node] in *. runs_steps.
  pose proof (foc_push tr _ _ _ _ _ _ _ HF) as HFp. eapply child_of_runs; [by eapply foc_at|]. rewrite child_opp. runs_steps. destruct (foc_red tr _ _ _ (foc_pull_opp tr _ _ _ _ _ _ _ HFp)) as (ns&Hs&Hsr). eapply red_of_runs; [exact Hs|]. rewrite Hsr. runs_steps.
  runs_by (sibling_black_runs h k d c p s t (S n) HFp Hnu Hk Ht ltac:(lia)). intros w' h1 (k'&c'&w&a&b&->&HF1&Hnu1&Hk1&He1&Hor). rewrite <-He1. clear HF Hnu HFp Hs Hsr.
  pose proof (cok_top _ _ _ _ _ _ Hk1) as [Hkc Hcc]. destruct Hk1 as (Hs&Rs&_&Hk1). apply bal_mk in Hs as (m&Ha&Hb&Hm). injection Hm as <-. apply rr_mk in Rs as (_&Ra&Rb).
  assert (Hrt : top k p = p \/ top k p = top k' p) by (destruct Hor as [[-> _]|[_ [->|Hq]]]; auto).
  pose proof (foc_pull_opp tr _ _ _ _ _ _ _ HF1) as HFw. runs_steps. eapply child_of_runs; [by eapply foc_at|]. rewrite child_d. destruct (foc_red tr _ _ _ (foc_pull tr _ _ _ _ _ _ _ HFw)) as (na&Hna&Har). runs_steps. eapply red_of_runs; [exact Hna|]. rewrite Har. runs_steps.
  eapply child_of_runs; [by eapply foc_at|]. rewrite child_opp. destruct (foc_red tr _ _ _ (foc_pull_opp tr _ _ _ _ _ _ _ HFw)) as (nb&Hnb&Hbr). runs_steps. eapply red_of_runs; [exact Hnb|]. rewrite Hbr.
  destruct (redness b) eqn:Fb; [rewrite andb_false_r|destruct (redness a) eqn:Fa]; cbn [negb andb].
  - unfold nephew_red. cbn [negb]. runs_steps. runs_by (delete_done_runs (top k p) h1 k' d c' p t w a b HF1 Fb Hnu1). intros x' h2 [-> HF2]. right. split; [done|].
    eapply settle; try done; [naive_solver|]. apply elems_fill_eq. rewrite <-(elems_rotate d c' false). destruct d; cbn; by rewrite elems_blacken.
  - destruct a as [|ca l la ra]; [done|]. cbn in Fa. subst ca. destruct (mk_ex d true l la ra) as (a1&a2&HA). rewrite HA in *. apply runs_bind. runs_by (nephew_red_runs h1 k' d c' p t w l a1 a2 b HF1 Hnu1). intros w' h2 (->&HF2&Hnu2).
    runs_by (delete_done_runs (top k p) h2 k' d c' p t l a1 (mk d true w a2 b) HF2 (redness_mk _ _ _ _ _) Hnu2). intros x' h3 [-> HF3]. right. split; [done|].
    apply bal_mk in Ha as (m&Ha1&Ha2&->). apply rr_mk in Ra as (Hc&Ra1&Ra2). destruct (Hc eq_refl) as [Fa1 Fa2]. eapply settle; try done; [naive_solver|apply bal_mk; by exists m|apply redness_mk|by apply rr_mk|].
    rewrite blacken_mk. apply elems_fill_eq. rewrite <-(elems_rotate d c' false). destruct d; cbn; rewrite <-!app_assoc; cbn; by rewrite <-?app_assoc.
  - runs_steps. runs_by (recolor_sib h1 k' d c' p t d true false w a b HF1). intros _ h2 [HF2 N2]. pose proof (nilup_frame _ _ _ _ N2 Hnu1) as Hnu2.
    apply (parent_x h2 _ t _ (foc_pull tr _ _ _ _ _ _ _ HF2) Hnu2). cbn [RbTreeInv.above f_node]. left. exists k', (mk d c' p t (mk d true w a b)), (if c' then n else S n). split; [by rewrite ptr_mk|]. split; [|split].
    + split; [done| | | |].
      * by destruct c'.
      * apply bal_mk. exists n. split; [done|]. split; [apply bal_mk; by exists n|by destruct c'].
      * rewrite blacken_mk. apply rr_mk. split; [intros Hq; discriminate Hq|]. split; [done|]. by apply rr_mk.
      * intros Hq. by destruct d.
    + apply elems_fill_eq. by destruct d.
    + rewrite redness_mk, ptr_mk. destruct Hor as [[-> ->]|[-> _]]; auto.
Qed.

Definition back h (es : list Z) : Prop := exists t, valid tr h t /\ elems t = es.
Lemma foc_nil h k t n : Foc h k t -> n_red n = false -> Foc (<[nil := n]> h) k t.
Proof.
  intros HF Hn. pose proof HF as [Hk Ht Hd _]. unfold distinct in Hd. rewrite !NoDup_cons, not_elem_of_cons, not_elem_of_app in Hd. destruct Hd as ((Hr&Hkn&Htn)&_). split; [| |by destruct HF|].
  - eapply crep_frame; [|done]. intros y Hy. apply lookup_insert_ne. intros Hq. rewrite <-Hq in Hy. by destruct Hy.
  - eapply rep_frame; [|done]. intros y Hy. apply lookup_insert_ne. intros Hq. by rewrite <-Hq in Hy.
  - exists n. by rewrite lookup_insert_eq.
Qed.
Lemma ptr_fill k t : ptr (fill k t) = top k (ptr t).
Proof. revert t. induction k as [|[d c x s] k IH]; intros t; cbn; [done|]. by rewrite IH, ptr_mk. Qed.
Lemma focus_red h k t n : short h k t n -> redness t = true \/ k = [] -> runs (upd (ptr t) (set_red false)) h (fun _ h' => back h' (elems (fill k t))).
Proof.
  intros [HF Hk Hb Hr _] Hor. destruct t as [|c x l r].
  - destruct Hor as [|Hk0]; [done|subst k]. pose proof HF as [_ _ _ (nn&Hnn&Hnr)]. cbn [RbTreeInv.ptr]. eapply upd_runs; [exact Hnn|]. exists E. split; [|done]. split; [by apply foc_nil|]. split; [done|]. split; [done|by exists 1%nat].
  - runs_by (recolor_keeps h k Left c false x l r HF). cbn [mk]. intros _ h' [HF' _]. exists (fill k (T false x l r)). split; [|by apply elems_fill_eq]. split; [by apply foc_filled|].
    pose proof (bal_blacken _ _ Hb) as Hb'. cbn [blacken redness] in *. destruct c; [by apply (fill_ok k (T false x l r) (S n))|]. destruct Hor as [|Hk0]; [done|subst k]. split; [done|]. split; [done|by exists n].
Qed.

Lemma delete_loop_runs fuel h k t n : forall rt, short h k t n -> redness t = true \/ rt = top k (ptr t) /\ (length k <= fuel)%nat ->
  runs (let! x := delete_loop tr fuel rt (ptr t) in upd x (set_red false)) h (fun _ h' => back h' (elems (fill k t))).
Proof.
  revert h k t n. induction fuel as [|fuel IH]; intros h k t n rt Hsh Hor; pose proof Hsh as [HF _ _ _ Hnu]; destruct (foc_red tr _ _ _ HF) as (nt&Hnt&Hred); cbn [delete_loop]; runs_steps; (eapply red_of_runs; [exact Hnt|]); rewrite Hred;
    (destruct (redness t) eqn:Ft; [rewrite andb_false_r; runs_steps; eapply focus_red; auto|]); destruct Hor as [|[-> Hlen]]; try done;
    (destruct k as [|[d c p s] k]; [cbn [top]; rewrite Z.eqb_refl; cbn [negb andb]; runs_steps; eapply focus_red; eauto|]); cbn [length] in Hlen; [lia|].
  assert (Hne : ptr t <> top (Fr d c p s :: k) (ptr t)).
  { pose proof (foc_distinct _ _ _ _ HF) as Hd. unfold distinct in Hd. rewrite !NoDup_cons, not_elem_of_cons in Hd. destruct Hd as ((_&Hn)&_&Hd). assert (Hin : top (Fr d c p s :: k) (ptr t) ∈ around (Fr d c p s :: k)).
    { clear. cbn [top]. revert d c p s. induction k as [|[d' c' x' s'] k IH]; intros d c p s; [left|]. cbn [top around]. right. apply elem_of_app. right. apply (IH d' c'). }
    apply NoDup_app in Hd as (_&Hd&_). intros Hq. rewrite <-Hq in Hin. destruct (ptr_in tr t) as [He|He]; [apply Hn; rewrite elem_of_app, <-He; auto|by apply (Hd _ Hin)]. }
  rewrite (proj2 (Z.eqb_neq _ _) Hne). cbn [negb andb top]. runs_steps. apply (parent_x h _ t _ HF Hnu). cbn [RbTreeInv.above f_node]. runs_steps. eapply child_of_runs; [by eapply foc_above|]. runs_steps.
  assert (Hdir : (if ptr t =? child Left (node d c (above k) (ptr t) (ptr s)) then Left else Right) = d).
  { destruct d; cbn; [by rewrite Z.eqb_refl|]. rewrite (proj2 (Z.eqb_neq _ _)); [done|]. intros Hq. destruct (foc_not_in tr _ _ _ _ _ _ _ (foc_push tr _ _ _ _ _ _ _ HF)) as (_&_&_&_&Hne2). specialize (Hne2 Hq).
    destruct Hsh as [_ (Hs&_) Hb _ _]. assert (Hsn : ptr s = nil) by congruence. destruct s as [|cs xs ls rs]; [cbn in Hs; pose proof (bal_ge _ _ Hb); lia|].
    destruct (foc_not_in tr _ _ Left _ _ _ _ (foc_pull_opp tr _ _ _ _ _ _ _ (foc_push tr _ _ _ _ _ _ _ HF))) as (_&_&Hxn&_). by apply Hxn. }
  rewrite Hdir. runs_by (delete_sub_runs h k d c p s t n Hsh Ft). intros x' h' [(k'&t'&n'&->&Hsh'&He&Hor)|[-> (t'&HF'&He&F1&F2&F3&nr&Hnr&Fnr)]]; cbn [fill]; rewrite <-He.
  - specialize (IH h' k' t' n' (top k p) Hsh'). unfold runs, bind in IH |- *. destruct (delete_loop tr fuel (top k p) (ptr t') h') as [[]| | |]; apply IH; destruct Hor as [|[-> <-]]; auto; right; (split; [done|lia]).
  - assert (Hstop : runs (delete_loop tr fuel (top k p) (top k p)) h' (fun x h2 => x = top k p /\ h2 = h')) by (destruct fuel; cbn [delete_loop]; runs_steps; (eapply red_of_runs; [exact Hnr|]); rewrite Z.eqb_refl; by runs_steps).
    runs_by Hstop. intros x2 h2 [-> ->]. eapply upd_runs; [exact Hnr|]. exists t'. split; [|done]. split; [|done]. assert (Heq : set_red false nr = nr) by (destruct nr; cbn in *; by rewrite Fnr). rewrite Heq, insert_id; done.
Qed.

Lemma rb_delete_fixup_runs h k t n : short h k t n -> runs (rb_delete_fixup tr (ptr t)) h (fun _ h' => back h' (elems (fill k t))).
Proof.
  intros Hsh. pose proof Hsh as [HF _ _ _ _]. unfold rb_delete_fixup. apply runs_bind, runs_get, runs_bind. eapply child_of_runs; [by apply (foc_root tr), (foc_filled tr)|]. cbn [child n_left]. rewrite ptr_fill.
  apply (delete_loop_runs _ h k t n); [done|]. right. split; [done|]. pose proof (foc_size tr _ _ _ HF). lia.
Qed.

(** ** Taking a node out *)

(** The nodes of the focus, the path and the sentinels are different. *)
Lemma foc_apart h k c x l r : Foc h k (T c x l r) ->
  (nil <> root /\ nil <> x /\ (nil ∉ around k) /\ (nil ∉ elems l) /\ (nil ∉ elems r)) /\ (root <> x /\ (root ∉ around k) /\ (root ∉ elems l) /\ (root ∉ elems r)) /\
  ((x ∉ around k) /\ (x ∉ elems l) /\ (x ∉ elems r)) /\ (NoDup (around k) /\ NoDup (elems l) /\ NoDup (elems r)) /\ (forall z, z ∈ around k -> (z ∉ elems l) /\ (z ∉ elems r)) /\ (forall z, z ∈ elems l -> z ∉ elems r).
Proof.
  intros [_ _ Hd _]. eapply distinct_perm in Hd; [|rewrite (elems_mk Left c x l r : elems (T c x l r) ≡ₚ _), <-Permutation_middle; reflexivity]. unfold distinct in Hd.
  rewrite !NoDup_cons, !NoDup_app, !not_elem_of_cons, !not_elem_of_app in Hd. destruct Hd as ((H1&H2&H3&H4&H5)&(R2&R3&R4&R5)&(X3&X4&X5)&Hk&Hka&Hl&Hlr&Hr).
  split; [auto|]. split; [auto|]. split; [auto|]. split; [auto|]. split; [|done]. intros z Hz. specialize (Hka z Hz). rewrite not_elem_of_app in Hka. tauto.
Qed.
Lemma ptr_notin t x : (x ∉ elems t) -> x <> nil -> ptr t <> x.
Proof. intros Hx Hn Hq. destruct (ptr_in tr t) as [He|He]; congruence. Qed.
Lemma foc_ptr h k t : Foc h k t -> exists n, h !! ptr t = Some n.
Proof. intros HF. destruct (foc_red tr _ _ _ HF) as (n&Hn&_). eauto. Qed.

Ltac lks := repeat first [rewrite lookup_insert_eq | rewrite lookup_insert_ne by (congruence || done)].

Lemma splice_runs h k d c y sx : Foc h k (mk d c y sx E) -> runs (splice y (ptr sx)) h (fun _ h' => Foc h' k sx /\ nilup h' sx (above k) /\ h' !! y = h !! y).
Proof.
  intros HF. assert (HF0 : Foc h k (T c y sx E) \/ Foc h k (T c y E sx)) by (destruct d; auto). assert (Hap : (nil <> root /\ nil <> y /\ (nil ∉ around k) /\ (nil ∉ elems sx)) /\ (root <> y /\ (root ∉ around k) /\ (root ∉ elems sx)) /\ ((y ∉ around k) /\ (y ∉ elems sx)) /\ NoDup (around k) /\ NoDup (elems sx) /\ (forall z, z ∈ around k -> z ∉ elems sx)).
  { destruct HF0 as [H|H]; apply foc_apart in H as (?&?&?&(?&?&?)&Hz&?); (split; [tauto|split; [tauto|split; [tauto|split; [done|split; [done|intros z Hin; by apply Hz]]]]]). }
  clear HF0. destruct Hap as ((N1&N2&N3&N4)&(R1&R2&R3)&(Y1&Y2)&HK&HS&HKS). pose proof (foc_pull tr _ _ _ _ _ _ _ HF) as HFs. destruct (foc_ptr _ _ _ HFs) as (nx&Hnx). pose proof (foc_at tr _ _ _ _ _ _ _ HF) as Hy.
  destruct HF as [Hk Ht Hd Hn]. rewrite ptr_mk in Hk. apply rep_mk in Ht as (_&Hsx&_). destruct (crep_up _ _ _ _ Hk) as [np Hp].
  assert (Hpd : above k <> y /\ above k <> nil /\ (above k ∉ elems sx)) by (destruct (up_in tr k) as [->|Hin]; [auto|split; [intros Hq; by rewrite Hq in Hin|split; [intros Hq; by rewrite Hq in Hin|by apply HKS]]]).
  destruct Hpd as (Py&Pn&Ps). pose proof (ptr_notin _ _ Ps Pn) as Psx. pose proof (ptr_notin _ _ Y2 ltac:(congruence)) as Ysx.
  unfold splice. runs_steps. eapply parent_of_runs; [exact Hy|]. rewrite parent_node. runs_steps. eapply upd_runs; [exact Hnx|]. runs_steps. eapply parent_of_runs; [by lks|]. rewrite parent_node. runs_steps.
  eapply child_of_runs; [lks; exact Hp|]. eapply upd_redirect with (d := Left); [lks; exact Hp|]. set (h' := <[above k := _]> _).
  assert (Fo : forall z, z <> above k -> z <> ptr sx -> h' !! z = h !! z) by (intros z Hz1 Hz2; unfold h'; by lks). assert (Fx : h' !! ptr sx = Some (set_up (above k) nx)) by (unfold h'; by lks).
  split; [split|split].
  - eapply (crep_redirect tr h h' y (ptr sx) k Left Hk); [congruence|done|by apply NoDup_cons| |].
    + intros n Hpn. rewrite Hp in Hpn. injection Hpn as <-. unfold h'. by lks.
    + intros z Hz Hzu. apply Fo; [done|]. destruct Hz as [->|Hz]; [intros Hq; symmetry in Hq; revert Hq; apply ptr_notin; [done|congruence]|]. intros Hq; symmetry in Hq; revert Hq. apply ptr_notin; [by apply HKS|intros ->; done].
  - apply (rep_reparent tr h h' y (above k) sx Hsx HS).
    + intros n _ Hpn. rewrite Hnx in Hpn. by injection Hpn as <-.
    + intros z Hz Hzp. apply Fo; [intros ->; done|done].
  - eapply distinct_perm in Hd; [|rewrite elems_mk, <-Permutation_middle; reflexivity]. unfold distinct in *. cbn [elems] in Hd. rewrite app_nil_r, !NoDup_cons, !not_elem_of_cons in *. naive_solver.
  - destruct Hn as (nn&Hnn&Hnr). destruct (decide (nil = ptr sx)) as [Hq|Hq]; [exists (set_up (above k) nx); rewrite Hq; split; [done|]; rewrite <-Hq, Hnn in Hnx; by injection Hnx as <-|exists nn; by rewrite Fo by done].
  - intros ->. cbn [RbTreeInv.ptr] in *. eexists. split; [exact Fx|done].
  - by apply Fo.
Qed.

Lemma transplant_runs h k c z l r y ny : Foc h k (T c z l r) -> l <> E -> h !! y = Some ny -> y <> nil -> y <> root -> (y ∉ around k ++ elems (T c z l r)) ->
  runs (transplant z y) h (fun _ h' => Foc h' k (T c y l r) /\ nilup h' r y /\ (r <> E -> h' !! nil = h !! nil)).
Proof.
  intros HF Hle Hy Hyn Hyr Hyt. rewrite elem_of_app in Hyt. cbn [elems] in Hyt. rewrite elem_of_app, elem_of_cons in Hyt. pose proof (foc_apart _ _ _ _ _ _ HF) as ((N1&N2&N3&N4&N5)&(R1&R2&R3&R4)&(Z1&Z2&Z3)&(HK&HL&HR)&HKZ&HLR).
  destruct (foc_ptr _ _ _ (foc_pull tr h k Left _ _ _ _ HF)) as (nl&Hnl). destruct (foc_ptr _ _ _ (foc_pull_opp tr h k Left _ _ _ _ HF)) as (nr&Hnr). destruct HF as [Hk (Hz&Hl&Hr) Hd Hn]. cbn [RbTreeInv.ptr] in Hk. destruct (crep_up _ _ _ _ Hk) as [np Hp].
  assert (Hpd : above k <> z /\ above k <> y /\ above k <> nil /\ (above k ∉ elems l) /\ (above k ∉ elems r)).
  { destruct (up_in tr k) as [->|Hin]; [auto 10|]. destruct (HKZ _ Hin). split; [congruence|]. split; [intros Hq; rewrite Hq in Hin; tauto|]. split; [congruence|auto]. }
  destruct Hpd as (Pz&Py&Pn&Pl&Pr). pose proof (ptr_notin _ _ Pl Pn) as Pl'. pose proof (ptr_notin _ _ Pr Pn) as Pr'. pose proof (ptr_notin _ _ Z2 ltac:(congruence)) as Zl. pose proof (ptr_notin _ _ Z3 ltac:(congruence)) as Zr.
  assert (Yl : ptr l <> y) by (apply ptr_notin; tauto). assert (Yr : ptr r <> y) by (apply ptr_notin; tauto). assert (Hll : ptr l ∈ elems l) by (destruct l; [done|]; cbn; rewrite elem_of_app, elem_of_cons; auto).
  assert (Hrl : ptr r <> ptr l) by (apply ptr_notin; [by apply HLR|intros Hq; by rewrite Hq in Hll]). assert (Hln : ptr l <> nil) by (intros Hq; by rewrite Hq in Hll).
  unfold transplant. runs_steps. eapply parent_of_runs; [exact Hz|]. cbn [n_parent]. runs_steps. eapply child_of_runs; [exact Hp|]. runs_steps. eapply upd_redirect with (d := Left); [exact Hp|]. runs_steps. eapply child_of_runs; [lks; exact Hz|]. cbn [child n_right]. runs_steps.
  eapply upd_runs; [lks; exact Hnr|]. runs_steps. eapply child_of_runs; [lks; exact Hz|]. cbn [child n_left]. runs_steps. eapply upd_runs; [lks; exact Hnl|]. runs_steps. eapply nd_runs; [lks; exact Hz|]. runs_steps. eapply upd_runs; [lks; exact Hy|].
  set (h' := <[y := _]> _). assert (Fo : forall x, x <> above k -> x <> ptr r -> x <> ptr l -> x <> y -> h' !! x = h !! x) by (intros x X1 X2 X3 X4; unfold h'; by lks).
  assert (Fl : h' !! ptr l = Some (set_up y nl)) by (unfold h'; by lks). assert (Fr : h' !! ptr r = Some (set_up y nr)) by (unfold h'; by lks).
  split; [split|split].
  - cbn [RbTreeInv.ptr]. eapply (crep_redirect tr h h' z y k Left Hk); [congruence|done|by apply NoDup_cons| |].
    + intros n Hpn. rewrite Hp in Hpn. injection Hpn as <-. unfold h'. by lks.
    + intros x Hx Hxu. assert (Hx' : (x ∉ elems l) /\ (x ∉ elems r) /\ x <> nil /\ x <> y) by (destruct Hx as [->|Hx]; [auto|destruct (HKZ _ Hx); split; [done|split; [done|split; intros ->; tauto]]]).
      destruct Hx' as (Xl&Xr&Xn&Xy). apply Fo; [done| | |done]; intros Hq; symmetry in Hq; revert Hq; by apply ptr_notin.
  - split; [unfold h'; by lks|]. split; [apply (rep_reparent tr h h' z y l Hl HL)|apply (rep_reparent tr h h' z y r Hr HR)].
    + intros n _ Hpn. rewrite Hnl in Hpn. by injection Hpn as <-.
    + intros x Hx Hxp. apply Fo; [congruence| |done|intros ->; tauto]. intros Hq; symmetry in Hq; revert Hq. apply ptr_notin; [by apply HLR|intros ->; done].
    + intros n _ Hpn. rewrite Hnr in Hpn. by injection Hpn as <-.
    + intros x Hx Hxp. apply Fo; [congruence|done| |intros ->; tauto]. intros ->. by apply (HLR _ Hll).
  - eapply distinct_perm in Hd; [|rewrite (elems_mk Left c z l r : elems (T c z l r) ≡ₚ _), <-Permutation_middle; reflexivity].
    eapply distinct_perm; [rewrite (elems_mk Left c y l r : elems (T c y l r) ≡ₚ _), <-Permutation_middle; reflexivity|]. unfold distinct in *. rewrite !NoDup_cons, !not_elem_of_cons, !not_elem_of_app in *.
    destruct Hd as ((D1&D2&D3)&(D4&D5)&D6&D7). split; [split; [done|split; [congruence|done]]|]. split; [split; [congruence|done]|]. split; [tauto|done].
  - destruct Hn as (nn&Hnn&Hnnr). destruct (decide (nil = ptr r)) as [Hq|Hq]; [exists (set_up y nr); rewrite Hq; split; [done|]; rewrite <-Hq, Hnn in Hnr; by injection Hnr as <-|exists nn; by rewrite Fo by congruence].
  - intros ->. cbn [RbTreeInv.ptr] in *. eexists. split; [exact Fr|done].
  - intros Hre. apply Fo; try congruence. destruct r as [|cr xr rl rr']; [done|]. intros Hq. apply N5. rewrite Hq. cbn. rewrite elem_of_app, elem_of_cons. auto.
Qed.

(** ** The whole *)

Lemma unfill k t n : redness (fill k t) = false -> rr (fill k t) -> bal (fill k t) n -> exists m, cok k m /\ bal t m /\ rr t /\ (redness t = true -> upred k = false /\ k <> []).
Proof.
  revert t n. induction k as [|[d c x s] k IH]; intros t n Hred Hr Hb; cbn [fill] in *; [exists n; rewrite Hred; done|].
  destruct (IH _ _ Hred Hr Hb) as (m&Hk&Hbm&Hrm&Hc). rewrite redness_mk in Hc. apply bal_mk in Hbm as (i&Hbt&Hbs&->). apply rr_mk in Hrm as (Hcc&Rt&Rs). exists i. cbn [cok upred f_red].
  split; [|split; [done|split; [done|]]].
  - split; [done|]. split; [done|]. split; [|done]. intros Hct. split; [by apply Hcc|by apply Hc].
  - intros Ht. split; [|done]. destruct c; [|done]. destruct (Hcc eq_refl). congruence.
Qed.
Lemma cok_rename kr d c x y s k n : cok (kr ++ Fr d c x s :: k) n -> cok (kr ++ Fr d c y s :: k) n.
Proof.
  revert n. induction kr as [|[d' c' x' s'] kr IH]; intros n; [done|]. cbn [app cok]. intros (Hs&Hr&Hc&Hk). split; [done|]. split; [done|]. split; [|by apply IH].
  intros Hct. destruct (Hc Hct) as (?&Hu&?). split; [done|]. split; [destruct kr; done|destruct kr; done].
Qed.
Lemma leftmost t k : t <> E -> exists kr c y ry, fill k t = fill (kr ++ k) (T c y E ry) /\ lefts kr = [].
Proof.
  revert k. induction t as [|c x l IHl r _]; intros k Ht; [done|]. destruct l as [|cl xl ll lr]; [exists [], c, x, r; done|]. destruct (IHl (Fr Left c x r :: k) ltac:(done)) as (kr&c'&y&ry&Hf&Hl).
  exists (kr ++ [Fr Left c x r]), c', y, ry. rewrite <-app_assoc. split; [done|]. clear - Hl. induction kr as [|[[] ? ? ?] kr IH]; cbn in *; [done|by apply IH|]. apply app_nil in Hl as [_ Hl]. by apply app_nil in Hl as [_ Hl].
Qed.
Lemma foc_app h kr k t : Foc h (kr ++ k) t <-> Foc h k (fill kr t).
Proof. rewrite (foc_fill tr h (kr ++ k) t), (foc_fill tr h k (fill kr t)), fill_app. done. Qed.

Lemma fixup_or_not h k t n (c : bool) : Foc h k t -> nilup h t (above k) -> cok k (if c then n else S n) -> bal t n -> rr t -> (c = true -> redness t = false) ->
  runs (if negb c then rb_delete_fixup tr (ptr t) else ret tt) h (fun _ h' => back h' (elems (fill k t))).
Proof.
  intros HF Hn Hk Hb Hr Hc. destruct c; cbn [negb].
  - apply runs_ret. exists (fill k t). split; [|done]. split; [by apply (foc_filled tr)|]. apply (fill_ok k t n); try done. by rewrite (Hc eq_refl).
  - eapply rb_delete_fixup_runs with (n := n). split; try done. by apply rr_blacken.
Qed.

(** [y], which has a free side, is cut out; [k2] is the path after its transplantation, if any. *)
Lemma delete_at_runs h k d (c : bool) y sx z k2 n : Foc h k (mk d c y sx E) -> bal sx n -> rr sx -> (c = true -> redness sx = false) -> cok k2 (if c then n else S n) ->
  (forall h1, Foc h1 k sx -> nilup h1 sx (above k) -> h1 !! y = h !! y -> runs (if negb (y =? z) then transplant z y else ret tt) h1 (fun _ h2 => Foc h2 k2 sx /\ nilup h2 sx (above k2))) ->
  runs (delete_at tr z y) h (fun _ h' => back h' (elems (fill k2 sx))).
Proof.
  intros HF Hb Hr Hc Hk Htp. destruct (foc_not_in tr _ _ _ _ _ _ _ HF) as (_&_&Hyn&Hyr&_). pose proof (foc_at tr _ _ _ _ _ _ _ HF) as Hy. unfold delete_at. runs_steps.
  eapply child_of_runs; [exact Hy|]. runs_steps. eapply child_of_runs; [exact Hy|]. apply runs_bind.
  assert (Hx : (if negb (child Left (node d c (above k) (ptr sx) (ptr E)) =? nil) then child Left (node d c (above k) (ptr sx) (ptr E)) else child Right (node d c (above k) (ptr sx) (ptr E))) = ptr sx).
  { destruct d; cbn; [|by rewrite Z.eqb_refl]. destruct (Z.eqb_spec (ptr sx) nil); by cbn. }
  rewrite Hx. apply runs_assert; [by rewrite !(proj2 (Z.eqb_neq _ _))|]. runs_steps. runs_by (splice_runs h k d c y sx HF). intros _ h1 (HF1&Hn1&Hy1). runs_steps. eapply red_of_runs; [rewrite Hy1; exact Hy|]. rewrite red_node. runs_steps.
  runs_by (Htp h1 HF1 Hn1 Hy1). intros _ h2 (HF2&Hn2). by apply (fixup_or_not h2 k2 sx n c).
Qed.

Lemma fill_nonempty f kr t : fill (f :: kr) t <> E.
Proof. revert f t. induction kr as [|f' kr IH]; intros [d c x s] t; [by destruct d|]. apply (IH f'). Qed.
Lemma transplant_path h1 k kr c z l ry y ny : Foc h1 (kr ++ Fr Right c z l :: k) ry -> nilup h1 ry (above (kr ++ Fr Right c z l :: k)) -> l <> E -> h1 !! y = Some ny -> y <> nil -> y <> root -> (y ∉ around (kr ++ Fr Right c z l :: k) ++ elems ry) ->
  runs (transplant z y) h1 (fun _ h2 => Foc h2 (kr ++ Fr Right c y l :: k) ry /\ nilup h2 ry (above (kr ++ Fr Right c y l :: k))).
Proof.
  intros HF Hnu Hl Hy Hyn Hyr Hyt. pose proof (proj1 (foc_app _ _ _ _) HF) as HF'. apply (foc_push tr) in HF'. cbn [mk] in HF'.
  rewrite <-elems_fill, fill_app in Hyt. cbn [fill mk] in Hyt. rewrite elems_fill in Hyt. runs_by (transplant_runs h1 k c z l _ y ny HF' Hl Hy Hyn Hyr Hyt). intros _ h2 (HF2&Hn2&Hs). split.
  - apply foc_app. by apply (foc_pull tr h2 k Right).
  - destruct kr as [|f kr]; [done|]. eapply nilup_frame; [by apply Hs, fill_nonempty|done].
Qed.

Lemma rb_delete_runs h t A z B : valid tr h t -> elems t = A ++ z :: B -> runs (rb_delete tr z) h (fun _ h' => back h' (A ++ B)).
Proof.
  intros (HF&Hred&Hrr&N&Hbal) He. destruct (focus_split tr h t A z B HF He) as (k&c&l&r&Ht&HFz&->&HB). pose proof HFz as [_ (Hz&_) _ _]. rewrite Ht in Hred, Hrr, Hbal.
  unfold rb_delete. runs_steps. eapply child_of_runs; [exact Hz|]. runs_steps. eapply child_of_runs; [exact Hz|]. cbn [child n_left n_right]. apply runs_bind.
  assert (Hone : forall d sx, T c z l r = mk d c z sx E -> elems sx = elems l ++ elems r -> runs (delete_at tr z z) h (fun _ h' => back h' ((lefts k ++ elems l) ++ B))).
  { intros d sx HT Hes. rewrite HT in *. destruct (unfill _ _ _ Hred Hrr Hbal) as (m&Hk&Hb&Hr&_). apply bal_mk in Hb as (i&Hb&_&->). apply rr_mk in Hr as (Hc&Hr&_).
    rewrite HB, <-app_assoc, (app_assoc (elems l)), <-Hes, <-fill_elems. apply (delete_at_runs h k d c z sx z k i HFz Hb Hr); [naive_solver|done|]. intros h1 HF1 Hn1 _. rewrite Z.eqb_refl. cbn [negb]. by apply runs_ret. }
  destruct (Z.eqb_spec (ptr l) nil) as [Hl|Hl]; [|destruct (Z.eqb_spec (ptr r) nil) as [Hr|Hr]]; cbn [orb].
  - apply runs_ret. destruct l as [|cl xl ll lr]; [by apply (Hone Right r)|]. by destruct (foc_not_in tr _ _ Left _ _ _ _ (foc_pull tr h k Left _ _ _ _ HFz)) as (_&_&?&_).
  - apply runs_ret. destruct r as [|cl xl ll lr]; [apply (Hone Left l); [done|cbn; by rewrite app_nil_r]|]. by destruct (foc_not_in tr _ _ Left _ _ _ _ (foc_pull_opp tr h k Left _ _ _ _ HFz)) as (_&_&?&_).
  - runs_by (rb_tree_successor_runs tr h t _ z B HF He). intros y' h' [-> ->]. destruct (leftmost r []) as (kr&cy&y&ry&Hf&Hlk); [by intros ->|]. rewrite app_nil_r in Hf. cbn [fill] in Hf. assert (Hle : l <> E) by (by intros ->).
    rewrite Hf in *. rewrite HB. rewrite (fill_elems kr), Hlk. cbn [elems app head default]. set (K := kr ++ Fr Right c z l :: k).
    assert (HFy : Foc h K (mk Right cy y ry E)) by (apply foc_app; by apply (foc_pull tr h k Right)). assert (Hfill : fill k (T c z l (fill kr (T cy y E ry))) = fill K (mk Right cy y ry E)) by (unfold K; by rewrite fill_app).
    rewrite Hfill in *. destruct (unfill _ _ _ Hred Hrr Hbal) as (m&Hk&Hb&Hrb&_). apply bal_mk in Hb as (i&Hb&_&->). apply rr_mk in Hrb as (Hc&Hrb&_).
    destruct (foc_apart h K cy y E ry HFy) as ((_&Hyn&_)&(Hyr&_)&(HyK&_&Hyry)&_). pose proof (foc_at tr _ _ _ _ _ _ _ HFy) as Hy.
    assert (Hes : (lefts k ++ elems l) ++ y :: (elems ry ++ rights kr) ++ rights k = elems (fill (kr ++ Fr Right c y l :: k) ry)).
    { rewrite fill_app. cbn [fill mk]. rewrite fill_elems. cbn [elems]. rewrite (fill_elems kr ry), Hlk. cbn [app]. rewrite <-!app_assoc. cbn [app]. by rewrite <-?app_assoc. }
    rewrite Hes. apply (delete_at_runs h K Right cy y ry z _ i HFy Hb Hrb); [naive_solver|by eapply cok_rename|].
    intros h1 HF1 Hn1 Hy1. rewrite (proj2 (Z.eqb_neq y z)) by (intros ->; apply HyK; unfold K; clear; induction kr as [|[? ? ? ?] kr IH]; cbn; [left|right; apply elem_of_app; auto]). cbn [negb].
    apply (transplant_path h1 k kr c z l ry y (node Right cy (above K) (ptr ry) nil)); try done; [by rewrite Hy1|]. rewrite elem_of_app. fold K. tauto.
Qed.

(** C19: deletion from a red-black tree.  [rb_delete] of a node of the tree returns (the assertions hold, the
    repairing loop ends); the heap then holds a red-black tree again, whose nodes in order are
    those before without the deleted one. *)
Theorem rb_delete_correct h t A z B : valid tr h t -> elems t = A ++ z :: B ->
  runs (rb_delete tr z) h (fun _ h' => exists t', valid tr h' t' /\ elems t' = A ++ B).
Proof. apply rb_delete_runs. Qed.
End Delete.
