(* ===== verification/RbTreeEx.v ===== *)
(** * Red-black trees: a concrete tree

    Three nodes with the sentinels, and a fourth one that is not in the tree. *)

From stdpp Require Import base gmap list sorting.
From Stdlib Require Import ZArith Lia Bool.
From S2P Require Import Prelude.
From S2P Require Import RbTree.
From S2P Require Import RbTreeInv.
From S2P Require Import RbTreeIns.
From S2P Require Import RbTreeThm.
From S2P Require Import RbTreeDel.

Definition ex_tree : rb_tree := mkRbTree 1000 1001.
Definition ex_rb : rbheap :=
  list_to_map [(1000, mkRb false 2 1000 1000); (1001, mkRb false 1000 2 1000); (2, mkRb false 1001 1 3); (1, mkRb true 2 1000 1000); (3, mkRb true 2 1000 1000); (4, mkRb false 0 0 0)].
Definition ex_shape : tree := T false 2 (T true 1 E E) (T true 3 E E).

Lemma ex_rb_valid : valid ex_tree ex_rb ex_shape.
Proof.
  split; [split|].
  - reflexivity.
  - cbn. repeat split; reflexivity.
  - apply (bool_decide_unpack _). vm_compute. exact I.
  - exists (mkRb false 2 1000 1000). split; reflexivity.
  - split; [done|]. split; [by cbn|]. exists 2%nat, 1%nat. split; [by exists 1%nat|]. split; [by exists 1%nat|done].
Qed.
Lemma ex_rb_sorted : StronglySorted (not_after Z.sub) (elems ex_shape).
Proof. cbn. repeat constructor; unfold not_after; lia. Qed.
Lemma ex_rb_fresh : fresh ex_tree ex_rb ex_shape 4.
Proof. split; [done|]. split; [done|]. split; [by apply (bool_decide_unpack _)|by eexists]. Qed.

Lemma rb_insert_correct_witness :
  runs (rb_insert Z.sub ex_tree 4) ex_rb (fun _ h' => exists t' L R, valid ex_tree h' t' /\ elems ex_shape = L ++ R /\ elems t' = L ++ 4 :: R /\
    Forall (fun a => a - 4 <= 0) L /\ Forall (fun b => 0 < b - 4) R /\ StronglySorted (not_after Z.sub) (elems t')).
Proof. apply (rb_insert_correct ex_tree Z.sub); [lia|lia|exact ex_rb_valid|exact ex_rb_sorted|exact ex_rb_fresh]. Defined.

Lemma rb_delete_correct_witness : runs (rb_delete ex_tree 2) ex_rb (fun _ h' => exists t', valid ex_tree h' t' /\ elems t' = [1] ++ [3]).
Proof. apply (rb_delete_correct ex_tree ex_rb ex_shape [1] 2 [3] ex_rb_valid). reflexivity. Defined.

Lemma rb_search_correct_witness : let cmp := fun x k => x - k in
  runs (rb_search ex_tree cmp 3) ex_rb (fun r h' => h' = ex_rb /\ found cmp 3 ex_shape r) /\
  forall steps, (2 * Nat.log2 (3 + 1) <= steps)%nat -> runs (rb_search_loop ex_tree steps cmp 3 2) ex_rb (fun r h' => h' = ex_rb /\ found cmp 3 ex_shape r).
Proof.
  intros cmp. apply (rb_search_correct ex_tree cmp 3 ex_rb ex_shape ex_rb_valid). cbn. repeat constructor; unfold cmp; lia.
Defined.

Lemma rb_node_next_prev_correct_witness :
  runs (rb_node_next ex_tree 2) ex_rb (fun r h' => h' = ex_rb /\ r = Some 3) /\ runs (rb_node_prev ex_tree 2) ex_rb (fun r h' => h' = ex_rb /\ r = Some 1).
Proof. apply (rb_node_next_prev_correct ex_tree ex_rb ex_shape [1] 2 [3] ex_rb_valid). reflexivity. Defined.
