(* ===== verification/Str.v ===== *)
(** * Strings and blocks of memory (kern/libs/string.c, the division routines of
      kern/include/thumips.h)

    The routines on a memory of bytes (values 0 .. 255).  A routine that stops at a NUL
    takes the number of bytes it may look at as fuel.  The other components use [bcopy]
    and [Vmm.strnlen] for [memcpy], [memmove] and [strnlen]; here the loops of the source
    are shown to be just that. *)

From stdpp Require Import base gmap list.
From Stdlib Require Import ZArith Lia Bool.
From S2P Require Import Prelude.
From S2P Require Import Vmm.
From S2P Require Import VmmThm.

(** ** Division without a divider (Hacker's Delight) *)

Definition __mulu10 (n : Z) : Z := u32 (u32 (Z.shiftl n 3) + u32 (Z.shiftl n 1)).

Definition __divu10 (n : Z) : Z :=
  let q := u32 (Z.shiftr n 1 + Z.shiftr n 2) in
  let q := u32 (q + Z.shiftr q 4) in
  let q := u32 (q + Z.shiftr q 8) in
  let q := u32 (q + Z.shiftr q 16) in
  let q := Z.shiftr q 3 in
  let r := u32 (n - __mulu10 q) in
  u32 (q + Z.shiftr (u32 (r + 6)) 4).

Definition __divu5 (n : Z) : Z :=
  let q := u32 (Z.shiftr n 3 + Z.shiftr n 4) in
  let q := u32 (q + Z.shiftr q 4) in
  let q := u32 (q + Z.shiftr q 8) in
  let q := u32 (q + Z.shiftr q 16) in
  let r := u32 (n - u32 (q * 5)) in
  u32 (q + Z.shiftr (u32 (13 * r)) 6).

(** ** The routines *)

Definition ld (a : Z) : M bytes Z := gets (fun m => m a).
Definition upd_byte (a v : Z) (m : bytes) : bytes := fun x => if x =? a then v else m x.
Definition st (a v : Z) : M bytes unit := modify (upd_byte a v).

Fixpoint strlen_loop (fuel : nat) (s cnt : Z) : M bytes Z :=
  let! c := ld s in
  if c =? 0 then ret cnt
  else match fuel with O => nofuel | S fuel => strlen_loop fuel (s + 1) (cnt + 1) end.
Definition strlen (fuel : nat) (s : Z) : M bytes Z := strlen_loop fuel s 0.

(** [while (cnt < len && *s ++ != '\0')]; [k]: [len - cnt]. *)
Fixpoint strnlen_loop (k : nat) (s cnt : Z) : M bytes Z :=
  match k with
  | O => ret cnt
  | S k => let! c := ld s in if c =? 0 then ret cnt else strnlen_loop k (s + 1) (cnt + 1)
  end.
Definition strnlen (s len : Z) : M bytes Z := strnlen_loop (Z.to_nat len) s 0.

Fixpoint strcpy_loop (fuel : nat) (p src : Z) : M bytes unit :=
  let! c := ld src in
  do! st p c in
  if c =? 0 then ret tt
  else match fuel with O => nofuel | S fuel => strcpy_loop fuel (p + 1) (src + 1) end.
Definition strcpy (fuel : nat) (dst src : Z) : M bytes Z := do! strcpy_loop fuel dst src in ret dst.

Fixpoint strncpy_loop (len : nat) (p src : Z) : M bytes unit :=
  match len with
  | O => ret tt
  | S len =>
      let! c := ld src in
      do! st p c in
      strncpy_loop len (p + 1) (if negb (c =? 0) then src + 1 else src)
  end.
Definition strncpy (dst src len : Z) : M bytes Z := do! strncpy_loop (Z.to_nat len) dst src in ret dst.

Fixpoint strcmp (fuel : nat) (s1 s2 : Z) : M bytes Z :=
  let! c1 := ld s1 in
  let! c2 := ld s2 in
  if negb (c1 =? 0) && (c1 =? c2) then match fuel with O => nofuel | S fuel => strcmp fuel (s1 + 1) (s2 + 1) end
  else ret (c1 - c2).

Fixpoint strncmp_loop (n : nat) (s1 s2 : Z) : M bytes Z :=
  match n with
  | O => ret 0
  | S n =>
      let! c1 := ld s1 in
      let! c2 := ld s2 in
      if negb (c1 =? 0) && (c1 =? c2) then strncmp_loop n (s1 + 1) (s2 + 1) else ret (c1 - c2)
  end.
Definition strncmp (s1 s2 n : Z) : M bytes Z := strncmp_loop (Z.to_nat n) s1 s2.

Fixpoint strchr (fuel : nat) (s c : Z) : M bytes (option Z) :=
  let! x := ld s in
  if x =? 0 then ret None
  else if x =? c then ret (Some s)
  else match fuel with O => nofuel | S fuel => strchr fuel (s + 1) c end.

Fixpoint strfind (fuel : nat) (s c : Z) : M bytes Z :=
  let! x := ld s in
  if x =? 0 then ret s
  else if x =? c then ret s
  else match fuel with O => nofuel | S fuel => strfind fuel (s + 1) c end.

Fixpoint memset_loop (n : nat) (p c : Z) : M bytes unit :=
  match n with
  | O => ret tt
  | S n => do! st p c in memset_loop n (p + 1) c
  end.
Definition memset (s c n : Z) : M bytes Z := do! memset_loop (Z.to_nat n) s c in ret s.

(** [while (n -- > 0) *d ++ = *s ++;] *)
Fixpoint copy_up (n : nat) (d s : Z) : M bytes unit :=
  match n with
  | O => ret tt
  | S n => let! c := ld s in do! st d c in copy_up n (d + 1) (s + 1)
  end.
(** [while (n -- > 0) *-- d = *-- s;] *)
Fixpoint copy_down (n : nat) (d s : Z) : M bytes unit :=
  match n with
  | O => ret tt
  | S n => let! c := ld (s - 1) in do! st (d - 1) c in copy_down n (d - 1) (s - 1)
  end.
Definition memcpy (dst src n : Z) : M bytes Z := do! copy_up (Z.to_nat n) dst src in ret dst.
Definition memmove (dst src n : Z) : M bytes Z :=
  do! (if (src <? dst) && (dst <? src + n) then copy_down (Z.to_nat n) (dst + n) (src + n)
       else copy_up (Z.to_nat n) dst src) in
  ret dst.

Fixpoint memcmp_loop (n : nat) (s1 s2 : Z) : M bytes Z :=
  match n with
  | O => ret 0
  | S n =>
      let! c1 := ld s1 in
      let! c2 := ld s2 in
      if negb (c1 =? c2) then ret (c1 - c2) else memcmp_loop n (s1 + 1) (s2 + 1)
  end.
Definition memcmp (v1 v2 n : Z) : M bytes Z := memcmp_loop (Z.to_nat n) v1 v2.

(** [kmalloc]: the answer of [kmalloc], by size. *)
Definition strdup (fuel : nat) (kmalloc : Z -> option Z) (src : Z) : M bytes (option Z) :=
  let! len := strlen fuel src in
  match kmalloc (len + 1) with
  | Some dst => do! memcpy dst src len in do! st (dst + len) 0 in ret (Some dst)
  | None => ret None
  end.
Definition stradd (fuel : nat) (kmalloc : Z -> option Z) (src1 src2 : Z) : M bytes (option Z) :=
  let! len1 := strlen fuel src1 in
  let! len2 := strlen fuel src2 in
  match kmalloc (len1 + len2 + 1) with
  | Some dst =>
      do! memcpy dst src1 len1 in
      do! memcpy (dst + len1) src2 len2 in
      do! st (dst + len1 + len2) 0 in
      ret (Some dst)
  | None => ret None
  end.

(** ** Division *)

Lemma shiftr_div n k : 0 <= k -> Z.shiftr n k = n / 2 ^ k.
Proof. intros. by rewrite Z.shiftr_div_pow2. Qed.

Lemma mulu10_spec n : 0 <= n -> 10 * n < W32 -> __mulu10 n = 10 * n.
Proof. intros Hn Hb. unfold __mulu10. rewrite !Z.shiftl_mul_pow2 by lia. unfold W32 in Hb. rewrite (u32_small (n * 2 ^ 3)), (u32_small (n * 2 ^ 1)), u32_small by (unfold is_u32, W32; lia). lia. Qed.

Lemma divu10_spec n : is_u32 n -> __divu10 n = n / 10.
Proof.
  unfold is_u32, W32. intros Hn. unfold __divu10. cbv zeta. rewrite !shiftr_div by lia.
  change (2 ^ 1) with 2. change (2 ^ 2) with 4. change (2 ^ 4) with 16. change (2 ^ 8) with 256. change (2 ^ 16) with 65536. change (2 ^ 3) with 8.
  set (q0 := n / 2 + n / 4). assert (0 <= q0 < 4294967296) by (subst q0; mlia). rewrite (u32_small q0) by (unfold is_u32, W32; lia).
  set (q1 := q0 + q0 / 16). assert (0 <= q1 < 4294967296) by (subst q1 q0; mlia). rewrite (u32_small q1) by (unfold is_u32, W32; lia).
  set (q2 := q1 + q1 / 256). assert (0 <= q2 < 4294967296) by (subst q2 q1 q0; mlia). rewrite (u32_small q2) by (unfold is_u32, W32; lia).
  set (q3 := q2 + q2 / 65536). assert (0 <= q3 < 4294967296) by (subst q3 q2 q1 q0; mlia). rewrite (u32_small q3) by (unfold is_u32, W32; lia).
  set (q4 := q3 / 8). assert (0 <= q4 /\ 0 <= n - 10 * q4 < 20) as [Hq4 Hr] by (subst q4 q3 q2 q1 q0; mlia).
  rewrite mulu10_spec by (unfold W32; lia). rewrite (u32_small (n - _)), (u32_small (_ + 6)), u32_small by (unfold is_u32, W32; mlia). mlia.
Qed.

Lemma divu5_spec n : is_u32 n -> __divu5 n = n / 5.
Proof.
  unfold is_u32, W32. intros Hn. unfold __divu5. cbv zeta. rewrite !shiftr_div by lia.
  change (2 ^ 3) with 8. change (2 ^ 4) with 16. change (2 ^ 8) with 256. change (2 ^ 16) with 65536. change (2 ^ 6) with 64.
  set (q0 := n / 8 + n / 16). assert (0 <= q0 < 4294967296) by (subst q0; mlia). rewrite (u32_small q0) by (unfold is_u32, W32; lia).
  set (q1 := q0 + q0 / 16). assert (0 <= q1 < 4294967296) by (subst q1 q0; mlia). rewrite (u32_small q1) by (unfold is_u32, W32; lia).
  set (q2 := q1 + q1 / 256). assert (0 <= q2 < 4294967296) by (subst q2 q1 q0; mlia). rewrite (u32_small q2) by (unfold is_u32, W32; lia).
  set (q3 := q2 + q2 / 65536). assert (0 <= q3 /\ 0 <= n - 5 * q3 < 30) as [Hq3 Hr] by (subst q3 q2 q1 q0; mlia).
  rewrite (u32_small q3) by (unfold is_u32, W32; lia).
  rewrite (u32_small (q3 * 5)), (u32_small (n - _)), (u32_small (13 * _)), u32_small by (unfold is_u32, W32; mlia). mlia.
Qed.

Lemma divu_step n : is_u32 n -> __divu10 n = n / 10 /\ u32 (n - __mulu10 (__divu10 n)) = n mod 10.
Proof.
  intros Hn. rewrite divu10_spec by done. split; [done|]. unfold is_u32, W32 in *.
  rewrite mulu10_spec by (unfold W32; mlia). rewrite u32_small by (unfold is_u32, W32; mlia). mlia.
Qed.

(** ** Blocks *)

Definition same_bytes (m m' : bytes) : Prop := forall x, m' x = m x.

Lemma upd_byte_at a v m : upd_byte a v m a = v.
Proof. unfold upd_byte. by rewrite Z.eqb_refl. Qed.
Lemma upd_byte_ne a v m x : x <> a -> upd_byte a v m x = m x.
Proof. intros. unfold upd_byte. by rewrite (proj2 (Z.eqb_neq x a)). Qed.

Lemma bcopy_lookup dst src n m x : bcopy dst src n m x = if decide (dst <= x < dst + n) then m (x - dst + src) else m x.
Proof. unfold bcopy. destruct (Z.leb_spec dst x), (Z.ltb_spec x (dst + n)); cbn; [rewrite decide_True by lia|rewrite decide_False by lia..]; done. Qed.

Lemma copy_up_runs n : forall d s m, ~ s < d < s + Z.of_nat n -> runs (copy_up n d s) m (fun _ m' => forall x, m' x = bcopy d s (Z.of_nat n) m x).
Proof.
  induction n as [|n IH]; intros d s m Hov; cbn [copy_up]; [runs_steps; intros x; rewrite bcopy_lookup, decide_False by lia; done|].
  unfold ld, st. runs_steps. eapply runs_mono; [apply IH; lia|]. cbn beta. intros _ m' Hm x. rewrite Hm, !bcopy_lookup.
  destruct (decide (d + 1 <= x < d + 1 + Z.of_nat n)).
  - rewrite decide_True by lia. replace (x - (d + 1) + (s + 1)) with (x - d + s) by lia. apply upd_byte_ne. lia.
  - destruct (decide (x = d)) as [->|]; [rewrite upd_byte_at, decide_True by lia; f_equal; lia|]. rewrite upd_byte_ne, decide_False by lia. done.
Qed.

Lemma copy_down_runs n : forall d s m, s < d -> runs (copy_down n d s) m (fun _ m' => forall x, m' x = bcopy (d - Z.of_nat n) (s - Z.of_nat n) (Z.of_nat n) m x).
Proof.
  induction n as [|n IH]; intros d s m Hov; cbn [copy_down]; [runs_steps; intros x; rewrite bcopy_lookup, decide_False by lia; done|].
  unfold ld, st. runs_steps. eapply runs_mono; [apply IH; lia|]. cbn beta. intros _ m' Hm x. rewrite Hm, !bcopy_lookup.
  destruct (decide (d - 1 - Z.of_nat n <= x < d - 1 - Z.of_nat n + Z.of_nat n)).
  - rewrite decide_True by lia. rewrite upd_byte_ne by lia. f_equal. lia.
  - destruct (decide (x = d - 1)) as [->|]; [rewrite upd_byte_at, decide_True by lia; f_equal; lia|]. rewrite upd_byte_ne, decide_False by lia. done.
Qed.

Lemma memcpy_runs dst src n m : 0 <= n -> ~ src < dst < src + n -> runs (memcpy dst src n) m (fun r m' => r = dst /\ forall x, m' x = bcopy dst src n m x).
Proof.
  intros Hn Hov. unfold memcpy. runs_steps. eapply runs_mono; [apply copy_up_runs; lia|]. cbn beta. intros _ m' Hm. runs_steps. rewrite Z2Nat.id in Hm by lia. done.
Qed.

(** C40: [memmove] copies as if through a buffer, however the blocks overlap, and so does
    [memcpy] unless the destination begins inside the source: both are [bcopy], which
    stands for them elsewhere. *)
Theorem memmove_correct dst src n m :
  0 <= n ->
  runs (memmove dst src n) m (fun r m' => r = dst /\ forall x, m' x = bcopy dst src n m x) /\
  (~ src < dst < src + n -> runs (memcpy dst src n) m (fun r m' => r = dst /\ forall x, m' x = bcopy dst src n m x)).
Proof.
  intros Hn. split; [|by apply memcpy_runs]. unfold memmove. runs_steps. destruct (Z.ltb_spec src dst), (Z.ltb_spec dst (src + n)); cbn [andb];
    (eapply runs_mono; [apply copy_down_runs || apply copy_up_runs; lia|]); cbn beta; intros _ m' Hm; runs_steps; rewrite Z2Nat.id in Hm by lia; (split; [done|]);
    try done; intros x; rewrite Hm; f_equal; lia.
Qed.

Lemma memset_loop_runs c n : forall p m, runs (memset_loop n p c) m (fun _ m' => forall x, m' x = if decide (p <= x < p + Z.of_nat n) then c else m x).
Proof.
  induction n as [|n IH]; intros p m; cbn [memset_loop]; [runs_steps; intros x; by rewrite decide_False by lia|].
  unfold st. runs_steps. eapply runs_mono; [apply IH|]. cbn beta. intros _ m' Hm x. rewrite Hm.
  destruct (decide (p + 1 <= x < p + 1 + Z.of_nat n)); [rewrite decide_True by lia; done|].
  destruct (decide (x = p)) as [->|]; [rewrite upd_byte_at, decide_True by lia; done|]. rewrite upd_byte_ne, decide_False by lia. done.
Qed.

(** ** Strings *)

(** The string [l] at [a]. *)
Definition is_str (m : bytes) (a : Z) (l : list Z) : Prop :=
  Forall (fun c => 0 < c < 256) l /\ (forall i c, l !! i = Some c -> m (a + Z.of_nat i) = c) /\ m (a + Z.of_nat (length l)) = 0.

Lemma is_str_nil m a : is_str m a [] -> m a = 0.
Proof. intros (_&_&H). cbn in H. by rewrite Z.add_0_r in H. Qed.

Lemma is_str_cons m a c l : is_str m a (c :: l) <-> 0 < c < 256 /\ m a = c /\ is_str m (a + 1) l.
Proof.
  split.
  - intros ([Hc Hf]%Forall_cons&Hl&He). split; [done|]. split; [specialize (Hl O c eq_refl); by rewrite Z.add_0_r in Hl|]. split; [done|]. split.
    + intros i d Hd. specialize (Hl (S i) d Hd). by replace (a + 1 + Z.of_nat i) with (a + Z.of_nat (S i)) by lia.
    + cbn [length] in He. by replace (a + 1 + Z.of_nat (length l)) with (a + Z.of_nat (S (length l))) by lia.
  - intros (Hc&Ha&Hf&Hl&He). split; [by apply Forall_cons|]. split.
    + intros [|i] d Hd; [injection Hd as <-; by rewrite Z.add_0_r|]. specialize (Hl i d Hd). by replace (a + Z.of_nat (S i)) with (a + 1 + Z.of_nat i) by lia.
    + cbn [length]. by replace (a + Z.of_nat (S (length l))) with (a + 1 + Z.of_nat (length l)) by lia.
Qed.

Lemma is_str_ext m m' a l : is_str m a l -> (forall i, 0 <= i <= Z.of_nat (length l) -> m' (a + i) = m (a + i)) -> is_str m' a l.
Proof.
  intros (Hf&Hl&He) Hm. split; [done|]. split; [|rewrite Hm; [done|lia]]. intros i c Hc. rewrite Hm; [by apply Hl|]. apply lookup_lt_Some in Hc. lia.
Qed.

Lemma strlen_loop_runs l : forall fuel m a cnt, is_str m a l -> (length l <= fuel)%nat -> runs (strlen_loop fuel a cnt) m (fun r m' => r = cnt + Z.of_nat (length l) /\ m' = m).
Proof.
  induction l as [|c l IH]; intros fuel m a cnt Hs Hf.
  - destruct fuel; cbn [strlen_loop]; unfold ld; runs_steps; rewrite (is_str_nil _ _ Hs); cbn; runs_steps; (split; [lia|done]).
  - apply is_str_cons in Hs as (Hc&Ha&Hs). cbn [length] in Hf. destruct fuel as [|fuel]; [lia|]. cbn [strlen_loop]. unfold ld. runs_steps.
    rewrite Ha, (proj2 (Z.eqb_neq c 0)) by lia. eapply runs_mono; [apply (IH fuel m (a + 1)); [done|lia]|]. cbn beta. intros r m' [-> ->]. cbn [length]. split; [lia|done].
Qed.

Lemma strlen_runs fuel m a l : is_str m a l -> (length l <= fuel)%nat -> runs (strlen fuel a) m (fun r m' => r = Z.of_nat (length l) /\ m' = m).
Proof. intros. unfold strlen. eapply runs_mono; [by eapply strlen_loop_runs|]. cbn beta. intros r m' [-> ->]. done. Qed.

(** Dictionary order. *)
Fixpoint lex (l1 l2 : list Z) : comparison :=
  match l1, l2 with
  | [], [] => Eq
  | [], _ :: _ => Lt
  | _ :: _, [] => Gt
  | x :: l1, y :: l2 => match x ?= y with Eq => lex l1 l2 | c => c end
  end.

Lemma lex_eq l1 : forall l2, lex l1 l2 = Eq <-> l1 = l2.
Proof.
  induction l1 as [|x l1 IH]; intros [|y l2]; cbn; try done. destruct (Z.compare_spec x y) as [->|Hl|Hl]; [rewrite IH; split; [by intros ->|by intros [= ->]]|..];
    (split; [done|intros [= -> _]; lia]).
Qed.

Lemma strcmp_runs l1 : forall fuel m a1 a2 l2, is_str m a1 l1 -> is_str m a2 l2 -> (length l1 <= fuel)%nat ->
  runs (strcmp fuel a1 a2) m (fun r m' => m' = m /\ (r ?= 0) = lex l1 l2).
Proof.
  induction l1 as [|x l1 IH]; intros fuel m a1 a2 l2 H1 H2 Hf.
  - pose proof (is_str_nil _ _ H1) as Hz. destruct fuel; cbn [strcmp]; unfold ld; runs_steps; rewrite Hz; cbn [Z.eqb negb andb]; runs_steps; (split; [done|]);
      (destruct l2 as [|y l2]; [rewrite (is_str_nil _ _ H2); done|apply is_str_cons in H2 as (?&->&_); apply Z.compare_lt_iff; lia]).
  - apply is_str_cons in H1 as (Hx&Ha&H1). cbn [length] in Hf. destruct fuel as [|fuel]; [lia|]. cbn [strcmp]. unfold ld. runs_steps.
    rewrite Ha, (proj2 (Z.eqb_neq x 0)) by lia. cbn [negb andb].
    destruct l2 as [|y l2]; [rewrite (is_str_nil _ _ H2), (proj2 (Z.eqb_neq x 0)) by lia; runs_steps; split; [done|]; apply Z.compare_gt_iff; lia|].
    apply is_str_cons in H2 as (Hy&Ha2&H2). rewrite Ha2. cbn [lex]. destruct (Z.compare_spec x y) as [->|Hl|Hl].
    + rewrite Z.eqb_refl. apply IH; [done|done|lia].
    + rewrite (proj2 (Z.eqb_neq x y)) by lia. runs_steps. split; [done|]. apply Z.compare_lt_iff. lia.
    + rewrite (proj2 (Z.eqb_neq x y)) by lia. runs_steps. split; [done|]. apply Z.compare_gt_iff. lia.
Qed.

(** [strcmp] compares two strings in dictionary order, and answers 0 exactly when they
    are the same. *)
Theorem strcmp_correct fuel m a1 a2 l1 l2 :
  is_str m a1 l1 -> is_str m a2 l2 -> (length l1 <= fuel)%nat ->
  runs (strcmp fuel a1 a2) m (fun r m' => m' = m /\ (r = 0 <-> l1 = l2) /\ (r < 0 <-> lex l1 l2 = Lt)).
Proof.
  intros H1 H2 Hf. eapply runs_mono; [by eapply strcmp_runs|]. cbn beta. intros r m' [-> Hr]. split; [done|]. rewrite <- lex_eq, <- Hr, <- Z.compare_eq_iff, Z.compare_lt_iff. done.
Qed.

(** Two blocks, not overlapping. *)
Definition apart (a n b k : Z) : Prop := a + n <= b \/ b + k <= a.

Lemma is_str_bcopy m m' src dst l :
  is_str m src l -> (forall i, 0 <= i < Z.of_nat (length l) -> m' (dst + i) = m (src + i)) -> m' (dst + Z.of_nat (length l)) = 0 -> is_str m' dst l.
Proof.
  intros (Hf&Hl&_) Hm Hz. split; [done|]. split; [|done]. intros i c Hc. rewrite Hm; [by apply Hl|]. apply lookup_lt_Some in Hc. lia.
Qed.

Lemma is_str_app m a l1 l2 : Forall (fun c => 0 < c < 256) l1 -> (forall i c, l1 !! i = Some c -> m (a + Z.of_nat i) = c) -> is_str m (a + Z.of_nat (length l1)) l2 -> is_str m a (l1 ++ l2).
Proof.
  intros Hf1 Hl1 (Hf2&Hl2&Hz). split; [by apply Forall_app|]. split.
  - intros i c Hc. apply lookup_app_Some in Hc as [Hc|[Hi Hc]]; [by apply Hl1|]. specialize (Hl2 _ _ Hc). by replace (a + Z.of_nat i) with (a + Z.of_nat (length l1) + Z.of_nat (i - length l1)) by lia.
  - rewrite length_app. by replace (a + Z.of_nat (length l1 + length l2)) with (a + Z.of_nat (length l1) + Z.of_nat (length l2)) by lia.
Qed.

(** [stradd] of two strings, into a block that [kmalloc] found apart from both, is their
    concatenation, and leaves the rest of the memory alone. *)
Theorem stradd_correct fuel kmalloc m a1 a2 l1 l2 dst :
  is_str m a1 l1 -> is_str m a2 l2 -> (length l1 <= fuel)%nat -> (length l2 <= fuel)%nat ->
  kmalloc (Z.of_nat (length l1 + length l2) + 1) = Some dst ->
  apart a1 (Z.of_nat (length l1) + 1) dst (Z.of_nat (length l1 + length l2) + 1) ->
  apart a2 (Z.of_nat (length l2) + 1) dst (Z.of_nat (length l1 + length l2) + 1) ->
  runs (stradd fuel kmalloc a1 a2) m (fun r m' => r = Some dst /\ is_str m' dst (l1 ++ l2) /\
    forall x, ~ dst <= x <= dst + Z.of_nat (length l1 + length l2) -> m' x = m x).
Proof.
  intros H1 H2 Hf1 Hf2 Hk Ha1 Ha2. unfold apart in *. unfold stradd. runs_steps. eapply runs_mono; [by apply strlen_runs|]. cbn beta. intros n1 m0 [-> ->].
  runs_steps. eapply runs_mono; [by apply strlen_runs|]. cbn beta. intros n2 m0 [-> ->].
  rewrite Nat2Z.inj_add in *. rewrite Hk. runs_steps. eapply runs_mono; [apply memcpy_runs; lia|]. cbn beta. intros _ m1 [_ Hm1].
  runs_steps. eapply runs_mono; [apply memcpy_runs; lia|]. cbn beta. intros _ m2 [_ Hm2]. unfold st. runs_steps. split; [done|].
  set (n1 := Z.of_nat (length l1)) in *. set (n2 := Z.of_nat (length l2)) in *.
  assert (Hout : forall x, ~ dst <= x < dst + (n1 + n2) -> m2 x = m x).
  { intros x Hx. rewrite Hm2, bcopy_lookup, decide_False, Hm1, bcopy_lookup, decide_False by lia. done. }
  split; [|intros x Hx; rewrite upd_byte_ne by lia; apply Hout; lia]. apply is_str_app.
  - apply H1.
  - intros i c Hc. pose proof (lookup_lt_Some _ _ _ Hc). rewrite upd_byte_ne, Hm2, bcopy_lookup, decide_False, Hm1, bcopy_lookup, decide_True by lia.
    replace (dst + Z.of_nat i - dst + a1) with (a1 + Z.of_nat i) by lia. by apply H1.
  - fold n1. apply (is_str_bcopy m _ a2); [done| |fold n2; by rewrite upd_byte_at]. fold n2. intros i Hi. rewrite upd_byte_ne, Hm2, bcopy_lookup, decide_True by lia.
    rewrite Hm1, bcopy_lookup, decide_False by lia. f_equal. lia.
Qed.

(** The loop of [strnlen] is the function the copy routines use. *)
Lemma strnlen_equiv n : forall s cnt m, runs (strnlen_loop n s cnt) m (fun r m' => r = cnt + Vmm.strnlen n s m /\ m' = m).
Proof.
  induction n as [|n IH]; intros s cnt m; cbn [strnlen_loop Vmm.strnlen]; unfold ld; runs_steps; [split; [lia|done]|].
  destruct (m s =? 0); [runs_steps; split; [lia|done]|]. eapply runs_mono; [apply IH|]. cbn beta. intros r m' [-> ->]. split; [lia|done].
Qed.

(** the division routines, made of shifts and additions modulo 2^32, are exact for every
    32-bit number. *)
Theorem divu_correct n : is_u32 n -> __divu10 n = n / 10 /\ u32 (n - __mulu10 (__divu10 n)) = n mod 10 /\ __divu5 n = n / 5.
Proof. intros Hn. destruct (divu_step n Hn) as [H1 H2]. split; [done|]. split; [done|]. by apply divu5_spec. Qed.

(** ** Examples *)

Definition ex_text (x : Z) : Z := nth (Z.to_nat (x - 100)) [99; 97; 116; 0; 99; 111; 119; 0] 0.
Lemma ex_cat : is_str ex_text 100 [99; 97; 116].
Proof. split; [repeat constructor; lia|]. split; [|done]. intros i c Hc. do 3 (destruct i as [|i]; [by injection Hc as <-|]). done. Qed.
Lemma ex_cow : is_str ex_text 104 [99; 111; 119].
Proof. split; [repeat constructor; lia|]. split; [|done]. intros i c Hc. do 3 (destruct i as [|i]; [by injection Hc as <-|]). done. Qed.

Lemma memmove_correct_witness :
  runs (memmove 102 100 5) ex_text (fun r m' => r = 102 /\ forall x, m' x = bcopy 102 100 5 ex_text x) /\
  (~ 100 < 102 < 100 + 5 -> runs (memcpy 102 100 5) ex_text (fun r m' => r = 102 /\ forall x, m' x = bcopy 102 100 5 ex_text x)).
Proof. apply (memmove_correct 102 100 5 ex_text). lia. Defined.

Lemma strcmp_correct_witness :
  runs (strcmp 3 100 104) ex_text (fun r m' => m' = ex_text /\ (r = 0 <-> [99; 97; 116] = [99; 111; 119]) /\ (r < 0 <-> lex [99; 97; 116] [99; 111; 119] = Lt)).
Proof. apply (strcmp_correct 3 ex_text 100 104 _ _ ex_cat ex_cow). cbn. lia. Defined.

Lemma stradd_correct_witness :
  runs (stradd 3 (fun _ => Some 200) 100 104) ex_text (fun r m' => r = Some 200 /\ is_str m' 200 [99; 97; 116; 99; 111; 119] /\ forall x, ~ 200 <= x <= 206 -> m' x = ex_text x).
Proof. apply (stradd_correct 3 (fun _ => Some 200) ex_text 100 104 _ _ 200 ex_cat ex_cow); unfold apart; cbn; lia || done. Defined.

Lemma divu_correct_witness : __divu10 4294967295 = 429496729 /\ u32 (4294967295 - __mulu10 (__divu10 4294967295)) = 5 /\ __divu5 4294967295 = 858993459.
Proof. apply (divu_correct 4294967295). unfold is_u32, W32. lia. Defined.
