(* ===== verification/Printf.v ===== *)
(** * Formatted output (kern/libs/printfmt.c, the number printers of kern/libs/stdio.c)

    What [putch] does never changes what is printed, so a routine of printfmt.c is the
    list of the characters it hands to [putch], in order; [va_list] is a list of
    arguments, an argument of the wrong kind a fault.  The format is the list of its
    characters before the NUL. *)

From stdpp Require Import base gmap list.
From Stdlib Require Import ZArith Lia Bool Ascii String.
From S2P Require Import Prelude.
From S2P Require Import Vmm.
From S2P Require Import Str.

#[local] Abbreviation length := Datatypes.length.

Inductive varg := VInt (z : Z) | VLong (z : Z) | VStr (p : option (list Z)).

Definition chars (s : string) : list Z := (fun a => Z.of_nat (nat_of_ascii a)) <$> list_ascii_of_string s.
(** A [char] widened to [int]. *)
Definition s8 (c : Z) : Z := if c <? 128 then c else c - 256.
Definition s64 (z : Z) : Z := (z + 9223372036854775808) mod 18446744073709551616 - 9223372036854775808.

Definition getuint (lflag : Z) (ap : list varg) : outcome (Z * list varg) :=
  match ap with
  | VLong z :: ap => if 2 <=? lflag then Ok (z mod 18446744073709551616, ap) else Fault
  | VInt z :: ap => if 2 <=? lflag then Fault else Ok (u32 z, ap)
  | _ => Fault
  end.
Definition getint (lflag : Z) (ap : list varg) : outcome (Z * list varg) :=
  match ap with
  | VLong z :: ap => if 2 <=? lflag then Ok (s64 z, ap) else Fault
  | VInt z :: ap => if 2 <=? lflag then Fault else Ok (s32 z, ap)
  | _ => Fault
  end.

(** ["0123456789abcdef"[mod]] *)
Definition digit (d : Z) : Z := if d <? 10 then 48 + d else 87 + d.

(** One fuel per digit. *)
Fixpoint printnum (fuel : nat) (num base width padc : Z) : outcome (list Z) :=
  let '(result, mod_) :=
    if base =? 10 then let t := __divu10 num in (t, u32 (num - __mulu10 t))
    else if base =? 8 then (Z.shiftr num 3, Z.land num 7)
    else (Z.shiftr num 4, Z.land num 15) in
  if base <=? num then
    match fuel with
    | O => NoFuel
    | S fuel =>
        match printnum fuel result base (width - 1) padc with
        | Ok l => Ok (l ++ [digit mod_])
        | Panic => Panic | Fault => Fault | NoFuel => NoFuel
        end
    end
  else Ok (repeat padc (Z.to_nat (width - 1)) ++ [digit mod_]).

Record spec := mkSpec { padc : Z; width : Z; precision : Z; lflag : Z; altflag : bool }.

(** [for (precision = 0; ; ++ fmt)] from a first digit on. *)
Fixpoint digits (fmt : list Z) (prec : Z) : Z * list Z :=
  match fmt with
  | d :: fmt' => if (48 <=? d) && (d <=? 57) then digits fmt' (s32 (prec * 10 + d - 48)) else (prec, fmt)
  | [] => (prec, [])
  end.
(** [process_precision:] *)
Definition process_precision (sp : spec) (p : Z) : spec :=
  if width sp <? 0 then mkSpec (padc sp) p (-1) (lflag sp) (altflag sp) else mkSpec (padc sp) (width sp) p (lflag sp) (altflag sp).

(** [reswitch:] up to the conversion character (0 at the end of the format). *)
Fixpoint reswitch (fuel : nat) (fmt : list Z) (sp : spec) (ap : list varg) : outcome (Z * list Z * spec * list varg) :=
  match fuel with
  | O => NoFuel
  | S fuel =>
      match fmt with
      | [] => Ok (0, [], sp, ap)
      | ch :: fmt =>
          if ch =? 45 then reswitch fuel fmt (mkSpec 45 (width sp) (precision sp) (lflag sp) (altflag sp)) ap
          else if ch =? 48 then reswitch fuel fmt (mkSpec 48 (width sp) (precision sp) (lflag sp) (altflag sp)) ap
          else if (49 <=? ch) && (ch <=? 57) then
            let '(p, fmt) := digits fmt (ch - 48) in reswitch fuel fmt (process_precision sp p) ap
          else if ch =? 42 then
            match ap with VInt z :: ap => reswitch fuel fmt (process_precision sp (s32 z)) ap | _ => Fault end
          else if ch =? 46 then
            reswitch fuel fmt (mkSpec (padc sp) (if width sp <? 0 then 0 else width sp) (precision sp) (lflag sp) (altflag sp)) ap
          else if ch =? 35 then reswitch fuel fmt (mkSpec (padc sp) (width sp) (precision sp) (lflag sp) true) ap
          else if ch =? 108 then reswitch fuel fmt (mkSpec (padc sp) (width sp) (precision sp) (lflag sp + 1) (altflag sp)) ap
          else Ok (ch, fmt, sp, ap)
      end
  end.

(** [for (; (ch = *p ++) != '\0' && (precision < 0 || -- precision >= 0); width --)] *)
Fixpoint str_loop (p : list Z) (precision width : Z) (alt : bool) : list Z * Z :=
  match p with
  | [] => ([], width)
  | c :: p =>
      let ch := s8 c in
      if (precision <? 0) || (0 <=? precision - 1) then
        let out := if alt && ((ch <? 32) || (126 <? ch)) then 63 else ch in
        let '(l, w) := str_loop p (if precision <? 0 then precision else precision - 1) (width - 1) alt in (out :: l, w)
      else ([], width)
  end.
Definition put_str (p : option (list Z)) (sp : spec) : list Z :=
  let p := match p with Some l => l | None => chars "(null)"%string end in
  let n := if precision sp <? 0 then Z.of_nat (length p) else Z.min (Z.of_nat (length p)) (precision sp) in
  let just := (0 <? width sp) && negb (padc sp =? 45) in
  let left_ := if just then repeat (padc sp) (Z.to_nat (width sp - n)) else [] in
  let w := if just then Z.min (width sp - n) 0 else width sp in
  let '(l, w) := str_loop p (precision sp) w (altflag sp) in
  left_ ++ l ++ repeat 32 (Z.to_nat w).

Definition MAXERROR : Z := 24.
Definition error_string (err : Z) : option (list Z) :=
  chars <$> (match err with
             | 1 => Some "unspecified error" | 2 => Some "bad process" | 3 => Some "invalid parameter" | 4 => Some "out of memory"
             | 5 => Some "out of processes" | 6 => Some "segmentation fault" | 8 => Some "invalid elf file" | 9 => Some "process is killed"
             | 10 => Some "panic failure" | 13 => Some "no such device" | 14 => Some "device not available" | 15 => Some "device/file is busy"
             | 16 => Some "no such file or directory" | 17 => Some "is a directory" | 18 => Some "not a directory" | 19 => Some "cross device link"
             | 20 => Some "unimplemented feature" | 21 => Some "illegal seek" | 22 => Some "too many files are open"
             | 23 => Some "file or directory already exists" | 24 => Some "directory is not empty" | _ => None
             end)%string.

(** Number of digits of a 32-bit number in a base of at least 8. *)
Definition NUM_FUEL : nat := 11.

(** One fuel per character, and one for a nested call. *)
Fixpoint vprintfmt (fuel : nat) (fmt : list Z) (ap : list varg) : outcome (list Z) :=
  match fuel with
  | O => NoFuel
  | S fuel =>
      let put (o : outcome (list Z)) (fmt : list Z) (ap : list varg) :=
        match o with
        | Ok l => match vprintfmt fuel fmt ap with Ok l' => Ok (l ++ l') | Panic => Panic | Fault => Fault | NoFuel => NoFuel end
        | Panic => Panic | Fault => Fault | NoFuel => NoFuel
        end in
      match fmt with
      | [] => Ok []
      | c :: fmt0 =>
          if negb (c =? 37) then put (Ok [c]) fmt0 ap
          else
            match reswitch (S (length fmt0)) fmt0 (mkSpec 32 (-1) (-1) 0 false) ap with
            | Ok (ch, fmt, sp, ap) =>
                if ch =? 99 then match ap with VInt z :: ap => put (Ok [s32 z]) fmt ap | _ => Fault end
                else if ch =? 101 then
                  match ap with
                  | VInt z :: ap =>
                      let err := if s32 z <? 0 then s32 (- s32 z) else s32 z in
                      if err <? 0 then Fault
                      else
                        match (if MAXERROR <? err then None else error_string err) with
                        | None => put (vprintfmt fuel (chars "error %d"%string) [VInt err]) fmt ap
                        | Some p => put (vprintfmt fuel (chars "%s"%string) [VStr (Some p)]) fmt ap
                        end
                  | _ => Fault
                  end
                else if ch =? 115 then match ap with VStr p :: ap => put (Ok (put_str p sp)) fmt ap | _ => Fault end
                else if ch =? 100 then
                  match getint (lflag sp) ap with
                  | Ok (num, ap) =>
                      let neg := num <? 0 in
                      let num := if neg then (- num) mod 18446744073709551616 else num in
                      put (match printnum NUM_FUEL (u32 num) 10 (width sp) (padc sp) with Ok l => Ok ((if neg then [45] else []) ++ l) | o => o end) fmt ap
                  | Panic => Panic | Fault => Fault | NoFuel => NoFuel
                  end
                else if ch =? 112 then
                  match ap with
                  | VInt z :: ap => put (match printnum NUM_FUEL (u32 z) 16 (width sp) (padc sp) with Ok l => Ok ([48; 120] ++ l) | o => o end) fmt ap
                  | _ => Fault
                  end
                else if ch =? 120 then
                  match getuint (lflag sp) ap with
                  | Ok (num, ap) => put (printnum NUM_FUEL (u32 num) 16 (width sp) (padc sp)) fmt ap
                  | Panic => Panic | Fault => Fault | NoFuel => NoFuel
                  end
                else if ch =? 37 then put (Ok [37]) fmt ap
                else put (Ok [37]) fmt0 ap
            | Panic => Panic | Fault => Fault | NoFuel => NoFuel
            end
      end
  end.

(** ** Printing into a buffer *)

Record sprintbuf := mkSb { buf : Z; ebuf : Z; cnt : Z }.
Definition sprintputch (ch : Z) (b : sprintbuf) : M bytes sprintbuf :=
  let cnt' := s32 (cnt b + 1) in
  if buf b <? ebuf b then do! st (buf b) (ch mod 256) in ret (mkSb (buf b + 1) (ebuf b) cnt')
  else ret (mkSb (buf b) (ebuf b) cnt').
Fixpoint sprint_all (l : list Z) (b : sprintbuf) : M bytes sprintbuf :=
  match l with [] => ret b | ch :: l => let! b := sprintputch ch b in sprint_all l b end.

(** [str == NULL]: 0. *)
Definition vsnprintf (fuel : nat) (str size : Z) (fmt : list Z) (ap : list varg) : M bytes Z :=
  let b := mkSb str (u32 (str + size - 1)) 0 in
  if (str =? 0) || (ebuf b <? buf b) then ret (- E_INVAL)
  else
    match vprintfmt fuel fmt ap with
    | Ok l => let! b := sprint_all l b in do! st (buf b) 0 in ret (cnt b)
    | Panic => panic | Fault => fault | NoFuel => nofuel
    end.

(** ** stdio.c *)

Fixpoint printhex_loop (k : nat) (x : Z) (tmp : list Z) : list Z :=
  match k with
  | O => tmp
  | S k => printhex_loop k (Z.shiftr x 4) ((let d := Z.land x 15 in if d <? 10 then 48 + d else 55 + d) :: tmp)
  end.
Definition printhex (x : Z) : list Z := printhex_loop 8 x [].

(** [while (x >= 10)]; [buf] filled from index 0, printed from the last to the first. *)
Fixpoint base10_loop (fuel : nat) (x : Z) (buf : list Z) : outcome (list Z) :=
  if 10 <=? x then
    match fuel with
    | O => NoFuel
    | S fuel => let t := __divu10 x in base10_loop fuel (s32 t) ((48 + (x - __mulu10 t)) :: buf)
    end
  else Ok ((48 + x) :: buf).
Definition printbase10 (x : Z) : outcome (list Z) :=
  match base10_loop 15 (if x <? 0 then s32 (- x) else x) [] with
  | Ok l => Ok ((if x <? 0 then [45] else []) ++ l)
  | o => o
  end.

(** ** Numerals *)

(** The number that digits spell, the first one the most significant. *)
Definition val (base : Z) (ds : list Z) : Z := fold_left (fun a d => a * base + d) ds 0.
Definition is_base (b : Z) : Prop := b = 8 \/ b = 10 \/ b = 16.

Lemma val_snoc base ds d : val base (ds ++ [d]) = val base ds * base + d.
Proof. unfold val. by rewrite fold_left_app. Qed.

(** [ds] is the numeral of [n]. *)
Definition numeral (base n : Z) (ds : list Z) : Prop :=
  Forall (fun d => 0 <= d < base) ds /\ val base ds = n /\ (exists d ds', ds = d :: ds' /\ (d = 0 -> ds' = [])).

Lemma numeral_one base n : 0 <= n < base -> numeral base n [n].
Proof. intros Hn. split; [by apply Forall_singleton|]. split; [cbn; lia|]. by exists n, []. Qed.

Lemma numeral_snoc base n ds d : 0 < n -> 0 <= d < base -> numeral base n ds -> numeral base (n * base + d) (ds ++ [d]).
Proof.
  intros Hn Hd (Hf&Hv&d0&ds'&->&H0). split; [apply Forall_app; split; [done|by apply Forall_singleton]|]. split; [rewrite val_snoc; lia|].
  exists d0, (ds' ++ [d]). split; [done|]. intros Hz. rewrite (H0 Hz) in Hv. cbn in Hv. lia.
Qed.

(** The quotient and the digit that one step computes. *)
Lemma num_step num base : is_u32 num -> is_base base ->
  (if base =? 10 then let t := __divu10 num in (t, u32 (num - __mulu10 t)) else if base =? 8 then (Z.shiftr num 3, Z.land num 7) else (Z.shiftr num 4, Z.land num 15))
  = (num / base, num mod base).
Proof.
  intros Hn [-> | [-> | ->]]; cbn [Z.eqb Pos.eqb].
  - rewrite Z.shiftr_div_pow2 by lia. change 7 with (Z.ones 3). rewrite Z.land_ones by lia. done.
  - destruct (divu_step num Hn) as [H1 H2]. cbv zeta. rewrite H2, H1. done.
  - rewrite Z.shiftr_div_pow2 by lia. change 15 with (Z.ones 4). rewrite Z.land_ones by lia. done.
Qed.

Lemma printnum_runs padc fuel : forall num base width, is_u32 num -> is_base base -> num < base ^ (Z.of_nat fuel + 1) ->
  exists ds, printnum fuel num base width padc = Ok (repeat padc (Z.to_nat (width - Z.of_nat (length ds))) ++ (digit <$> ds)) /\ numeral base num ds.
Proof.
  induction fuel as [|fuel IH]; intros num base width Hn Hb Hlt; cbn [printnum]; rewrite num_step by done; cbv iota beta;
    (assert (Hbp : 8 <= base <= 16) by (destruct Hb as [-> | [-> | ->]]; lia)); unfold is_u32 in Hn.
  - cbn in Hlt. rewrite Z.pow_1_r in Hlt. destruct (Z.leb_spec base num); [lia|]. exists [num]. rewrite Z.mod_small by lia. split; [done|]. apply numeral_one. lia.
  - destruct (Z.leb_spec base num) as [Hge|Hl].
    + destruct (IH (num / base) base (width - 1)) as (ds&Heq&Hds).
      { unfold is_u32. split; [apply Z.div_pos; lia|]. apply Z.div_lt_upper_bound; [lia|]. unfold W32 in *. nia. }
      { done. }
      { apply Z.div_lt_upper_bound; [lia|]. rewrite <- Z.pow_succ_r by lia. by replace (Z.succ (Z.of_nat fuel + 1)) with (Z.of_nat (S fuel) + 1) by lia. }
      rewrite Heq. exists (ds ++ [num mod base]). split.
      * rewrite fmap_app, length_app, app_assoc. cbn [length fmap list_fmap]. do 4 f_equal. lia.
      * rewrite (Z.div_mod num base) at 1 by lia. rewrite (Z.mul_comm base). apply numeral_snoc; [|apply Z.mod_pos_bound; lia|done].
        apply Z.div_str_pos. lia.
    + exists [num]. rewrite Z.mod_small by lia. split; [done|]. apply numeral_one. lia.
Qed.

(** ** Formats *)

(** Reading a number back. *)
Definition undigit (c : Z) : option Z := if (48 <=? c) && (c <=? 57) then Some (c - 48) else if (97 <=? c) && (c <=? 102) then Some (c - 87) else None.
Definition parse_num (base : Z) (l : list Z) : option Z := val base <$> mapM undigit l.
Definition parse_int (l : list Z) : option Z := match l with 45 :: l => Z.opp <$> parse_num 10 l | _ => parse_num 10 l end.

Lemma undigit_digit d : 0 <= d < 16 -> undigit (digit d) = Some d.
Proof.
  intros Hd. unfold undigit, digit. destruct (Z.ltb_spec d 10).
  - rewrite (proj2 (Z.leb_le 48 _)), (proj2 (Z.leb_le _ 57)) by lia. cbn [andb]. f_equal. lia.
  - rewrite (proj2 (Z.leb_le 48 _)), (proj2 (Z.leb_gt _ 57)), (proj2 (Z.leb_le 97 _)), (proj2 (Z.leb_le _ 102)) by lia. cbn [andb]. f_equal. lia.
Qed.

Lemma parse_digits base n ds : base <= 16 -> numeral base n ds -> parse_num base (digit <$> ds) = Some n.
Proof.
  intros Hb (Hf&<-&_). unfold parse_num. assert (mapM undigit (digit <$> ds) = Some ds) as ->; [|done].
  apply mapM_Some_2, Forall2_fmap_l, Forall_Forall2_diag. eapply Forall_impl; [exact Hf|]. cbn beta. intros d Hd. apply undigit_digit. lia.
Qed.

Lemma val_zeros base k ds : val base (repeat 0 k ++ ds) = val base ds.
Proof. unfold val. rewrite fold_left_app. f_equal. induction k as [|k IH]; [done|]. cbn [repeat fold_left]. by rewrite Z.mul_0_l. Qed.

Lemma parse_padded base n ds k : base <= 16 -> numeral base n ds -> parse_num base (repeat 48 k ++ (digit <$> ds)) = Some n.
Proof.
  intros Hb (Hf&<-&_). unfold parse_num. assert (mapM undigit (repeat 48 k ++ (digit <$> ds)) = Some (repeat 0 k ++ ds)) as ->; [|cbn; by rewrite val_zeros].
  apply mapM_Some_2, Forall2_app.
  - induction k as [|k IH]; cbn; [constructor|]. by constructor.
  - apply Forall2_fmap_l, Forall_Forall2_diag. eapply Forall_impl; [exact Hf|]. cbn beta. intros d Hd. apply undigit_digit. lia.
Qed.

Lemma vprintfmt_plain pre : forall fuel post ap l, Forall (fun c => c <> 37) pre -> vprintfmt fuel post ap = Ok l -> vprintfmt (length pre + fuel) (pre ++ post) ap = Ok (pre ++ l).
Proof.
  induction pre as [|c pre IH]; intros fuel post ap l Hp Hl; [done|]. apply Forall_cons in Hp as [Hc Hp]. cbn [length Nat.add app vprintfmt].
  rewrite (proj2 (Z.eqb_neq c 37)) by done. cbn [negb]. by rewrite (IH fuel post ap l Hp Hl).
Qed.

Lemma u32_lt_pow base : is_base base -> W32 <= base ^ (Z.of_nat NUM_FUEL + 1).
Proof. intros [-> | [-> | ->]]; vm_compute; discriminate. Qed.

Lemma printnum_full num base width padc : is_u32 num -> is_base base ->
  exists ds, printnum NUM_FUEL num base width padc = Ok (repeat padc (Z.to_nat (width - Z.of_nat (length ds))) ++ (digit <$> ds)) /\ numeral base num ds.
Proof. intros Hn Hb. apply printnum_runs; [done|done|]. pose proof (u32_lt_pow base Hb). unfold is_u32 in Hn. lia. Qed.

Lemma numeral_length_ub base n ds k : 1 < base -> numeral base n ds -> 0 < k -> n < base ^ k -> Z.of_nat (length ds) <= k.
Proof.
  intros Hb (Hf&Hv&d&ds'&->&H0) Hk Hn. destruct (decide (d = 0)) as [Hd|Hd]; [rewrite (H0 Hd); cbn; lia|].
  assert (Hge : forall l a, Forall (fun d => 0 <= d < base) l -> 0 <= a -> a * base ^ Z.of_nat (length l) <= fold_left (fun a d => a * base + d) l a).
  { induction l as [|x l IH]; intros a Hl Ha; [cbn; lia|]. apply Forall_cons in Hl as [Hx Hl]. cbn [fold_left length]. etransitivity; [|apply IH; [done|nia]].
    rewrite Nat2Z.inj_succ, Z.pow_succ_r by lia. assert (0 <= base ^ Z.of_nat (length l)) by (apply Z.pow_nonneg; lia). nia. }
  apply Forall_cons in Hf as [Hd' Hf]. unfold val in Hv. cbn [fold_left] in Hv. specialize (Hge ds' d Hf ltac:(lia)). rewrite Z.mul_0_l, Z.add_0_l in Hv. rewrite Hv in Hge.
  destruct (decide (Z.of_nat (length (d :: ds')) <= k)) as [|Hlen]; [done|]. exfalso. cbn [length] in Hlen.
  assert (base ^ k <= base ^ Z.of_nat (length ds')) by (apply Z.pow_le_mono_r; lia). assert (0 <= base ^ Z.of_nat (length ds')) by (apply Z.pow_nonneg; lia). nia.
Qed.

Lemma printf_hex8 pre post ap z fuel rest :
  Forall (fun c => c <> 37) pre -> s32 z = z -> vprintfmt fuel post ap = Ok rest ->
  exists l, vprintfmt (length pre + S fuel) (pre ++ chars "%08x" ++ post) (VInt z :: ap) = Ok (pre ++ l ++ rest) /\ length l = 8%nat /\ parse_num 16 l = Some (u32 z).
Proof.
  intros Hpre Hz Hrest. destruct (printnum_full (u32 z) 16 8 48 (u32_range z) ltac:(by right; right)) as (ds&Hp&Hds).
  assert (Hlen : Z.of_nat (length ds) <= 8) by (apply (numeral_length_ub 16 (u32 z)); [lia|done|lia|]; pose proof (u32_range z) as Hr; unfold is_u32, W32 in Hr; cbn; lia).
  exists (repeat 48 (Z.to_nat (8 - Z.of_nat (length ds))) ++ (digit <$> ds)). split; [|split; [rewrite length_app, repeat_length, length_fmap; lia|by apply parse_padded; [lia|]]].
  apply vprintfmt_plain; [done|]. change (chars "%08x" ++ post) with (37 :: 48 :: 56 :: 120 :: post). cbn -[NUM_FUEL printnum Z.modulo u32 s32]. rewrite (u32_small (u32 z)) by apply u32_range. change (56 - 48) with 8. rewrite Hp. by rewrite Hrest.
Qed.

(** C39: [%d] prints a decimal numeral that reads back as the [int] it was given, for every
    32-bit value; [%08x] prints eight hexadecimal digits that read back as the word; what
    is around the conversion is printed as it is. *)
Theorem printf_roundtrip pre post ap z fuel rest :
  Forall (fun c => c <> 37) pre -> s32 z = z -> vprintfmt fuel post ap = Ok rest ->
  (exists l, vprintfmt (length pre + S fuel) (pre ++ chars "%d" ++ post) (VInt z :: ap) = Ok (pre ++ l ++ rest) /\ parse_int l = Some z) /\
  (exists l, vprintfmt (length pre + S fuel) (pre ++ chars "%08x" ++ post) (VInt z :: ap) = Ok (pre ++ l ++ rest) /\ length l = 8%nat /\ parse_num 16 l = Some (u32 z)).
Proof.
  intros Hpre Hz Hrest. assert (Hzr : -2147483648 <= z < 2147483648) by (rewrite <- Hz; unfold s32, W32; mlia). split.
  - set (n := if z <? 0 then (- z) mod 18446744073709551616 else z).
    assert (Hn : n = Z.abs z /\ is_u32 n) by (unfold n, is_u32, W32; destruct (Z.ltb_spec z 0); [rewrite Z.mod_small by lia|]; lia). destruct Hn as [Hn Hu].
    destruct (printnum_full n 10 (-1) 32 Hu ltac:(by right; left)) as (ds&Hp&Hds). replace (Z.to_nat (-1 - Z.of_nat (length ds))) with O in Hp by lia.
    exists ((if z <? 0 then [45] else []) ++ (digit <$> ds)). split.
    + apply vprintfmt_plain; [done|]. change (chars "%d" ++ post) with (37 :: 100 :: post). cbn -[NUM_FUEL printnum Z.modulo s32 u32 Z.ltb]. rewrite Hz. fold n. rewrite (u32_small n Hu), Hp. cbn [repeat app]. by rewrite Hrest.
    + assert (Hpd : parse_num 10 (digit <$> ds) = Some n) by (apply parse_digits; [lia|done]). destruct (Z.ltb_spec z 0).
      * unfold parse_int. cbn [app]. rewrite Hpd. cbn. f_equal. lia.
      * unfold parse_int. cbn [app]. destruct Hds as (Hf&_&d&ds'&->&_). apply Forall_cons in Hf as [Hd _]. rewrite fmap_cons.
        assert (digit d <> 45) by (unfold digit; destruct (d <? 10); lia). rewrite fmap_cons in Hpd. destruct (digit d) as [|p|]; [| |done]; rewrite ?Hpd; try (f_equal; lia).
        destruct (Pos.eq_dec p 45) as [->|Hne]; [done|]. transitivity (parse_num 10 (Z.pos p :: (digit <$> ds'))); [|rewrite Hpd; f_equal; lia].
        do 6 (destruct p as [p|p|]; try done).
  - by apply printf_hex8.
Qed.

(** ** Buffers *)

Lemma s32_step x y : s32 (s32 x + y) = s32 (x + y).
Proof. unfold s32, W32. mlia. Qed.
Lemma s32_range x : -2147483648 <= s32 x < 2147483648.
Proof. unfold s32, W32. mlia. Qed.
(** The count wraps around at the range of [int]. *)
Lemma sprint_all_runs l : forall b m, -2147483648 <= cnt b < 2147483648 -> buf b <= ebuf b ->
  let k := Z.min (Z.of_nat (length l)) (ebuf b - buf b) in
  runs (sprint_all l b) m (fun b' m' => b' = mkSb (buf b + k) (ebuf b) (s32 (cnt b + Z.of_nat (length l))) /\
    (forall i c, Z.of_nat i < k -> l !! i = Some c -> m' (buf b + Z.of_nat i) = c mod 256) /\ (forall x, ~ buf b <= x < buf b + k -> m' x = m x)).
Proof.
  induction l as [|c l IH]; intros b m Hc Hbe k; cbn [sprint_all].
  - runs_steps. cbn in k. split; [destruct b; cbn in *; rewrite Z.add_0_r, s32_small by lia; f_equal; subst k; lia|]. split; [by intros i c _ ?|done].
  - cbn [length] in *. unfold sprintputch. pose proof (s32_range (cnt b + 1)). assert (Hcnt : s32 (s32 (cnt b + 1) + Z.of_nat (length l)) = s32 (cnt b + Z.of_nat (S (length l)))) by (rewrite s32_step; f_equal; lia).
    destruct (Z.ltb_spec (buf b) (ebuf b)) as [Hl|Hl]; unfold st; runs_steps;
      (eapply runs_mono; [apply IH; cbn; lia|]); cbn beta; cbn [buf ebuf cnt]; intros b' m' (->&Hin&Hout).
    + set (k1 := Z.min (Z.of_nat (length l)) (ebuf b - (buf b + 1))) in *. assert (Hk : k = k1 + 1) by (subst k k1; lia). rewrite Hk, Hcnt. split; [f_equal; lia|]. split.
      * intros [|i] d Hi Hd; [injection Hd as ->; rewrite Hout by lia; rewrite Z.add_0_r; apply upd_byte_at|].
        replace (buf b + Z.of_nat (S i)) with (buf b + 1 + Z.of_nat i) by lia. apply Hin; [lia|done].
      * intros x Hx. rewrite Hout by lia. apply upd_byte_ne. lia.
    + assert (Hk : k = 0) by (subst k; lia). replace (Z.min (Z.of_nat (length l)) (ebuf b - buf b)) with 0 in * by lia. rewrite Hk, Hcnt. split; [f_equal; lia|].
      split; [intros; lia|]. intros x _. apply Hout. lia.
Qed.

(** The arguments are what the format asks for: each conversion finds one of its kind
    ([ll] asks for a [long long]), and [%e] is not given the one [int] that has no
    opposite.  [reswitch] takes the arguments of the stars. *)
Fixpoint args_match (fuel : nat) (fmt : list Z) (ap : list varg) : bool :=
  match fuel, fmt with
  | O, _ => false
  | S _, [] => true
  | S fuel, c :: fmt0 =>
      if negb (c =? 37) then args_match fuel fmt0 ap
      else
        match reswitch (S (length fmt0)) fmt0 (mkSpec 32 (-1) (-1) 0 false) ap with
        | Ok (ch, fmt, sp, ap) =>
            if (ch =? 99) || (ch =? 112) then match ap with VInt _ :: ap => args_match fuel fmt ap | _ => false end
            else if ch =? 101 then match ap with VInt z :: ap => negb (s32 z =? -2147483648) && args_match fuel fmt ap | _ => false end
            else if ch =? 115 then match ap with VStr _ :: ap => args_match fuel fmt ap | _ => false end
            else if (ch =? 100) || (ch =? 120) then
              match ap with
              | VInt _ :: ap => negb (2 <=? lflag sp) && args_match fuel fmt ap
              | VLong _ :: ap => (2 <=? lflag sp) && args_match fuel fmt ap
              | _ => false
              end
            else if ch =? 37 then args_match fuel fmt ap
            else args_match fuel fmt0 ap
        | _ => false
        end
  end.

Lemma digits_length fmt : forall prec p r, digits fmt prec = (p, r) -> (length r <= length fmt)%nat.
Proof.
  induction fmt as [|d fmt IH]; intros prec p r; cbn [digits]; [by intros [= <- <-]|].
  destruct ((48 <=? d) && (d <=? 57)); [intros H%IH; cbn; lia|by intros [= <- <-]].
Qed.

(** One round per character is enough to find the conversion. *)
Lemma reswitch_answers fuel : forall fmt sp ap, (length fmt < fuel)%nat ->
  reswitch fuel fmt sp ap = Fault \/ exists ch r sp' ap', reswitch fuel fmt sp ap = Ok (ch, r, sp', ap') /\ (length r <= length fmt)%nat.
Proof.
  induction fuel as [|fuel IH]; intros fmt sp ap Hf; [lia|]. destruct fmt as [|ch fmt]; cbn [reswitch]; [right; by eauto 6|]. cbn [length] in Hf.
  assert (Hgo : forall fmt' sp' ap', (length fmt' <= length fmt)%nat -> reswitch fuel fmt' sp' ap' = Fault \/
            exists ch0 r sp0 ap0, reswitch fuel fmt' sp' ap' = Ok (ch0, r, sp0, ap0) /\ (length r <= length (ch :: fmt))%nat).
  { intros fmt' sp' ap' Hl. destruct (IH fmt' sp' ap') as [|(c0&r&sp0&ap0&He&Hr)]; [lia|by left|]. right. exists c0, r, sp0, ap0. split; [done|cbn; lia]. }
  repeat case_match; try (by left); try (apply Hgo; try done; by eapply digits_length); right; eexists _, _, _, _; (split; [done|cbn; lia]).
Qed.

(** The nested calls of [%e]. *)
Lemma vprintfmt_error fuel err : s32 err = err -> (8 <= fuel)%nat -> exists l, vprintfmt fuel (chars "error %d"%string) [VInt err] = Ok l.
Proof.
  intros He Hf. assert (Hr : -2147483648 <= err < 2147483648) by (rewrite <- He; unfold s32, W32; mlia).
  set (n := if err <? 0 then (- err) mod 18446744073709551616 else err).
  destruct (printnum_full (u32 n) 10 (-1) 32 (u32_range n) ltac:(by right; left)) as (ds&Hp&_).
  exists (chars "error "%string ++ ((if err <? 0 then [45] else []) ++ repeat 32 (Z.to_nat (-1 - Z.of_nat (length ds))) ++ (digit <$> ds)) ++ []).
  replace fuel with (length (chars "error "%string) + S (S (fuel - 8)))%nat by (cbn; lia).
  change (chars "error %d"%string) with (chars "error "%string ++ [37; 100]). apply vprintfmt_plain; [repeat constructor; discriminate|].
  cbn -[NUM_FUEL printnum Z.modulo s32 u32 Z.ltb]. rewrite He. fold n. by rewrite Hp.
Qed.
Lemma vprintfmt_str fuel p : (2 <= fuel)%nat -> exists l, vprintfmt fuel (chars "%s"%string) [VStr p] = Ok l.
Proof. intros Hf. destruct fuel as [|[|fuel]]; [lia..|]. eexists. change (chars "%s"%string) with [37; 115]. cbn -[put_str]. done. Qed.

(** It always comes to an end: with the whole text when the arguments match the
    format, with a fault when they do not. *)
Lemma vprintfmt_answers fuel : forall n fmt ap, (length fmt + 8 <= fuel)%nat -> (length fmt < n)%nat ->
  exists l, vprintfmt fuel fmt ap = if args_match n fmt ap then Ok l else Fault.
Proof.
  induction fuel as [|fuel IH]; intros n fmt ap Hf Hn; [lia|]. destruct n as [|n]; [lia|].
  destruct fmt as [|c fmt0]; cbn [vprintfmt args_match]; [by eexists|]. cbn [length] in Hf, Hn.
  assert (Hput : forall l fmt ap, (length fmt <= length fmt0)%nat -> exists l',
            match vprintfmt fuel fmt ap with Ok l' => Ok (l ++ l') | Panic => Panic | Fault => Fault | NoFuel => NoFuel end
            = if args_match n fmt ap then Ok l' else Fault).
  { intros l fmt' ap' Hl. destruct (IH n fmt' ap') as [l' ->]; [lia..|]. exists (l ++ l'). by destruct (args_match n fmt' ap'). }
  destruct (c =? 37); cbn [negb]; [|by apply Hput].
  destruct (reswitch_answers (S (length fmt0)) fmt0 (mkSpec 32 (-1) (-1) 0 false) ap) as [-> | (ch&r&sp&ap'&->&Hr)]; [lia|by exists []|].
  destruct (Z.eqb_spec ch 99) as [->|H99]; cbn [orb]; [destruct ap' as [|[z|z|p] ap']; try (by exists []); by apply Hput|].
  destruct (Z.eqb_spec ch 112) as [->|H112]; cbn [orb Z.eqb Pos.eqb].
  { destruct ap' as [|[z|z|p] ap']; try (by exists []). destruct (printnum_full (u32 z) 16 (width sp) (padc sp) (u32_range z) ltac:(by right; right)) as (ds&->&_). by apply Hput. }
  destruct (Z.eqb_spec ch 101) as [->|H101].
  { destruct ap' as [|[z|z|p] ap']; try (by exists []).
    assert (Hz : -2147483648 <= s32 z < 2147483648) by (unfold s32, W32; mlia).
    set (err := if s32 z <? 0 then s32 (- s32 z) else s32 z).
    destruct (Z.eqb_spec (s32 z) (-2147483648)) as [Hmin|Hmin]; cbn [negb andb].
    { subst err. rewrite Hmin. exists []. done. }
    assert (He : 0 <= err < 2147483648 /\ s32 err = err) by (subst err; destruct (Z.ltb_spec (s32 z) 0); (rewrite (s32_small (- s32 z)) by lia) || idtac; (split; [lia|apply s32_small; lia])).
    destruct He as [Her He]. rewrite (proj2 (Z.ltb_ge err 0)) by lia.
    destruct (if MAXERROR <? err then None else error_string err) as [p|].
    - destruct (vprintfmt_str fuel (Some p)) as [l ->]; [lia|]. by apply Hput.
    - destruct (vprintfmt_error fuel err He) as [l ->]; [lia|]. by apply Hput. }
  destruct (Z.eqb_spec ch 115) as [->|H115]; [destruct ap' as [|[z|z|p] ap']; try (by exists []); by apply Hput|].
  destruct (Z.eqb_spec ch 100) as [->|H100]; cbn [orb Z.eqb Pos.eqb].
  { unfold getint. destruct ap' as [|[z|z|p] ap']; try (by exists []); destruct (2 <=? lflag sp); cbn [negb andb]; try (by exists []);
      (match goal with |- context [printnum NUM_FUEL ?x 10 ?w ?q] =>
         destruct (printnum_full x 10 w q (u32_range _) ltac:(by right; left)) as (ds&->&_) end); by apply Hput. }
  destruct (Z.eqb_spec ch 120) as [->|H120]; cbn [orb].
  { unfold getuint. destruct ap' as [|[z|z|p] ap']; try (by exists []); destruct (2 <=? lflag sp); cbn [negb andb]; try (by exists []);
      (match goal with |- context [printnum NUM_FUEL ?x 16 ?w ?q] =>
         destruct (printnum_full x 16 w q (u32_range _) ltac:(by right; right)) as (ds&->&_) end); by apply Hput. }
  destruct (ch =? 37); by apply Hput.
Qed.

(** C36: [vsnprintf], given any format and arguments that match it, comes to an end: it
    never writes outside the [size] bytes it is given, ends what it wrote with a NUL,
    writes as much of the text as fits, and returns the length of the whole text (as an
    [int], which a text of 2 GB and more overflows). *)
Theorem vsnprintf_bounded fuel str size fmt ap m :
  0 < str -> 1 <= size -> str + size <= W32 -> (length fmt + 8 <= fuel)%nat -> args_match (S (length fmt)) fmt ap = true ->
  exists l, vprintfmt fuel fmt ap = Ok l /\
  let k := Z.min (Z.of_nat (length l)) (size - 1) in
  runs (vsnprintf fuel str size fmt ap) m (fun r m' => r = s32 (Z.of_nat (length l)) /\
    (forall i c, Z.of_nat i < k -> l !! i = Some c -> m' (str + Z.of_nat i) = c mod 256) /\ m' (str + k) = 0 /\
    (forall x, ~ str <= x < str + size -> m' x = m x)).
Proof.
  intros Hs Hz Hov Hf Ha. destruct (vprintfmt_answers fuel (S (length fmt)) fmt ap Hf ltac:(lia)) as [l Hl]. rewrite Ha in Hl. exists l. split; [done|].
  intros k. unfold vsnprintf. rewrite u32_small by (unfold is_u32; lia). cbn [buf ebuf]. rewrite (proj2 (Z.eqb_neq str 0)), (proj2 (Z.ltb_ge _ _)) by lia.
  cbn [orb]. rewrite Hl. runs_steps. eapply runs_mono; [apply sprint_all_runs; cbn; lia|]. cbn beta. cbn [buf ebuf cnt].
  replace (str + size - 1 - str) with (size - 1) by lia. fold k. intros b' m' (->&Hin&Hout). unfold st. runs_steps. cbn [buf cnt]. split; [f_equal; lia|]. split; [|split].
  - intros i c Hi Hc. rewrite upd_byte_ne by lia. by apply Hin.
  - apply upd_byte_at.
  - intros x Hx. rewrite upd_byte_ne by lia. apply Hout. lia.
Qed.

(** ** The number printers of stdio.c *)

Lemma base10_loop_runs fuel : forall x buf, 0 <= x < 2147483648 -> x < 10 ^ (Z.of_nat fuel + 1) ->
  exists ds, base10_loop fuel x buf = Ok ((digit <$> ds) ++ buf) /\ numeral 10 x ds.
Proof.
  induction fuel as [|fuel IH]; intros x buf Hx Hlt; cbn [base10_loop].
  - cbn in Hlt. destruct (Z.leb_spec 10 x); [lia|]. exists [x]. split; [|apply numeral_one; lia]. cbn. unfold digit. by rewrite (proj2 (Z.ltb_lt x 10)).
  - destruct (Z.leb_spec 10 x).
    + assert (Hu : is_u32 x) by (unfold is_u32, W32; lia). rewrite divu10_spec, s32_small by (done || mlia). rewrite mulu10_spec by (unfold W32; mlia).
      destruct (IH (x / 10) ((48 + (x - 10 * (x / 10))) :: buf)) as (ds&->&Hds); [mlia|apply Z.div_lt_upper_bound; [lia|]; rewrite <- Z.pow_succ_r by lia; by replace (Z.succ (Z.of_nat fuel + 1)) with (Z.of_nat (S fuel) + 1) by lia|].
      exists (ds ++ [x mod 10]). split.
      * assert (Hd : digit (x mod 10) = 48 + (x - 10 * (x / 10))) by (unfold digit; rewrite (proj2 (Z.ltb_lt (x mod 10) 10)) by mlia; mlia).
        rewrite fmap_app, <- app_assoc. cbn [fmap list_fmap app]. by rewrite Hd.
      * replace x with (x / 10 * 10 + x mod 10) at 1 by mlia. apply numeral_snoc; [mlia|mlia|done].
    + exists [x]. split; [|apply numeral_one; lia]. cbn. unfold digit. by rewrite (proj2 (Z.ltb_lt x 10)).
Qed.

Lemma printbase10_spec x : -2147483648 < x < 2147483648 -> exists ds, printbase10 x = Ok ((if x <? 0 then [45] else []) ++ (digit <$> ds)) /\ numeral 10 (Z.abs x) ds.
Proof.
  intros Hx. unfold printbase10. destruct (base10_loop_runs 15 (Z.abs x) []) as (ds&He&Hds); [lia|cbn; lia|]. exists ds. split; [|done].
  assert (Ha : (if x <? 0 then s32 (- x) else x) = Z.abs x) by (destruct (Z.ltb_spec x 0); [rewrite s32_small by lia|]; lia). rewrite Ha, He, app_nil_r. done.
Qed.

(** ** Examples *)

Lemma printf_roundtrip_witness :
  (exists l, vprintfmt (2 + 3) (chars "n=" ++ chars "%d" ++ chars ".") [VInt (-2147483648)] = Ok (chars "n=" ++ l ++ chars ".") /\ parse_int l = Some (-2147483648)) /\
  (exists l, vprintfmt (2 + 3) (chars "n=" ++ chars "%08x" ++ chars ".") [VInt (-2147483648)] = Ok (chars "n=" ++ l ++ chars ".") /\ length l = 8%nat /\ parse_num 16 l = Some (u32 (-2147483648))).
Proof. apply (printf_roundtrip (chars "n=") (chars ".") [] (-2147483648) 2 (chars ".")); [repeat constructor; done|reflexivity|reflexivity]. Defined.

Lemma vsnprintf_bounded_witness :
  runs (vsnprintf 12 4096 4 (chars "<%d>") [VInt 1234]) (fun _ => 7) (fun r m' => r = 6 /\
    (forall i c, Z.of_nat i < 3 -> chars "<1234>" !! i = Some c -> m' (4096 + Z.of_nat i) = c mod 256) /\ m' (4096 + 3) = 0 /\ (forall x, ~ 4096 <= x < 4096 + 4 -> m' x = 7)).
Proof.
  destruct (vsnprintf_bounded 12 4096 4 (chars "<%d>") [VInt 1234] (fun _ => 7)) as (l&Hl&Hruns); [lia|lia|done|cbn; lia|reflexivity|].
  assert (He : vprintfmt 12 (chars "<%d>") [VInt 1234] = Ok (chars "<1234>")) by (vm_compute; reflexivity).
  rewrite He in Hl. injection Hl as <-. exact Hruns.
Defined.
