(* ===== verification/Console.v ===== *)
(** * The console (kern/driver/console.c, kern/libs/readline.c, getchar of stdio.c)

    The text screen is an array of 30 * 80 characters, mirrored in the display memory;
    an index outside it is a fault.  The serial port is the list of characters that
    wait in it and the list of those sent.  The brackets [local_intr_save/restore] are
    as in Atomic.v. *)

From stdpp Require Import base gmap list.
From Stdlib Require Import ZArith Lia Bool.
From S2P Require Import Prelude.

Definition CONSBUFSIZE : Z := 512.
Definition BUFSIZE : Z := 1024.
Definition BS : Z := 8.   (* '\b' *)
Definition NL : Z := 10.  (* '\n' *)
Definition CR : Z := 13.  (* '\r' *)
Definition SP : Z := 32.  (* ' ' *)

Record console := mkCon {
  row : Z; column : Z; VGAdata : Z -> Z; vga_mem : Z -> Z;
  serial_exists : bool; serial_in : list Z; serial_out : list Z;
  cons_buf : Z -> Z; rpos : Z; wpos : Z
}.

Definition set_pos r c s := mkCon r c (VGAdata s) (vga_mem s) (serial_exists s) (serial_in s) (serial_out s) (cons_buf s) (rpos s) (wpos s).
Definition set_vga d v s := mkCon (row s) (column s) d v (serial_exists s) (serial_in s) (serial_out s) (cons_buf s) (rpos s) (wpos s).
Definition set_serial e i o s := mkCon (row s) (column s) (VGAdata s) (vga_mem s) e i o (cons_buf s) (rpos s) (wpos s).
Definition set_ring b r w s := mkCon (row s) (column s) (VGAdata s) (vga_mem s) (serial_exists s) (serial_in s) (serial_out s) b r w.

(** ** The screen *)

Definition upd (i v : Z) (f : Z -> Z) : Z -> Z := fun x => if x =? i then v else f x.
(** [VGAdata[i] = c; *(((char* )vgabase) + i) = c;] *)
Definition vga_set (i c : Z) : M console unit :=
  if (0 <=? i) && (i <? 2400) then modify (fun s => set_vga (upd i c (VGAdata s)) (upd i c (vga_mem s)) s) else fault.
Definition vga_get (i : Z) : M console Z :=
  if (0 <=? i) && (i <? 2400) then gets (fun s => VGAdata s i) else fault.

(** [for (j ...; j < 80; j++)] of row [i], blank or from the row below. *)
Fixpoint blank_row (k : nat) (i j : Z) : M console unit :=
  match k with O => ret tt | S k => do! vga_set (i * 80 + j) SP in blank_row k i (j + 1) end.
Fixpoint copy_row (k : nat) (i j : Z) : M console unit :=
  match k with
  | O => ret tt
  | S k => let! c := vga_get ((i + 1) * 80 + j) in do! vga_set (i * 80 + j) c in copy_row k i (j + 1)
  end.
Fixpoint blank_rows (k : nat) (i : Z) : M console unit :=
  match k with O => ret tt | S k => do! blank_row 80 i 0 in blank_rows k (i + 1) end.
Fixpoint copy_rows (k : nat) (i : Z) : M console unit :=
  match k with O => ret tt | S k => do! copy_row 80 i 0 in copy_rows k (i + 1) end.

Definition vga_init : M console unit := blank_rows 30 0.

Definition vga_putc (c : Z) : M console unit :=
  let ch := c mod 256 in
  let! s := get in
  do! (if c =? NL then modify (set_pos (row s + 1) 0)
       else if c =? BS then
         if (0 <? row s) || (0 <? column s) then
           if 0 <? column s then
             do! modify (set_pos (row s) (column s - 1)) in vga_set (row s * 80 + (column s - 1)) SP
           else
             do! modify (set_pos (row s - 1) 79) in vga_set ((row s - 1) * 80 + 79) SP
         else ret tt
       else
         do! vga_set (row s * 80 + column s) ch in
         if column s + 1 =? 80 then modify (set_pos (row s + 1) 0) else modify (set_pos (row s) (column s + 1))) in
  let! s := get in
  if row s =? 30 then
    do! copy_rows 29 0 in
    do! blank_row 80 29 0 in
    modify (set_pos 29 0)
  else ret tt.

(** ** The serial port *)

Definition serial_init : M console unit :=
  modify (fun s => set_serial true (serial_in s) (serial_out s) s).
Definition serial_putc_sub (c : Z) : M console unit :=
  modify (fun s => set_serial (serial_exists s) (serial_in s) (serial_out s ++ [c mod 256]) s).
Definition serial_putc (c : Z) : M console unit :=
  if c =? BS then do! serial_putc_sub BS in do! serial_putc_sub SP in serial_putc_sub BS else serial_putc_sub c.

(** The next character, or -1. *)
Definition serial_proc_data : M console Z :=
  let! s := get in
  match serial_in s with
  | [] => ret (-1)
  | c :: l => do! modify (set_serial (serial_exists s) l (serial_out s)) in ret (if c =? 127 then BS else c)
  end.

(** [while ((c = ( *proc)()) != -1)] with [serial_proc_data]. *)
Fixpoint cons_intr (fuel : nat) : M console unit :=
  let! c := serial_proc_data in
  if c =? -1 then ret tt
  else
    match fuel with
    | O => nofuel
    | S fuel =>
        do! (if negb (c =? 0) then
               modify (fun s => let w := wpos s + 1 in set_ring (upd (wpos s) (c mod 256) (cons_buf s)) (rpos s) (if w =? CONSBUFSIZE then 0 else w) s)
             else ret tt) in
        cons_intr fuel
    end.
Definition serial_intr : M console unit :=
  let! s := get in if serial_exists s then cons_intr (length (serial_in s)) else ret tt.

Definition cons_init : M console unit := do! serial_init in vga_init.
Definition cons_putc (c : Z) : M console unit := do! serial_putc c in vga_putc c.

Definition cons_getc : M console Z :=
  do! serial_intr in
  let! s := get in
  if negb (rpos s =? wpos s) then
    let r := rpos s + 1 in
    do! modify (set_ring (cons_buf s) (if r =? CONSBUFSIZE then 0 else r) (wpos s)) in ret (cons_buf s (rpos s))
  else ret 0.

(** Characters come in at the port between two looks at it. *)
Definition arrive (l : list Z) : M console unit :=
  modify (fun s => set_serial (serial_exists s) (serial_in s ++ l) (serial_out s) s).

(** [while ((c = cons_getc()) == 0)].  [arr]: what arrives before each of the next looks at
    the port, after which nothing more comes (to wait then is to wait for ever); the
    character and the arrivals that are left. *)
Fixpoint getchar (arr : list (list Z)) : M console (Z * list (list Z)) :=
  match arr with
  | [] => let! c := cons_getc in if c =? 0 then nofuel else ret (c, [])
  | l :: arr => do! arrive l in let! c := cons_getc in if c =? 0 then getchar arr else ret (c, arr)
  end.

(** Index [i] of [buf] can be written. *)
Definition buf_ok (i : Z) : M console unit := if (0 <=? i) && (i <? BUFSIZE) then ret tt else fault.

(** [readline] after the prompt: the line it returns, with its terminator cut off.
    [buf] is the part of the buffer before index [i]. *)
Fixpoint readline (fuel : nat) (arr : list (list Z)) (buf : list Z) : M console (option (list Z)) :=
  match fuel with
  | O => nofuel
  | S fuel =>
      let! ca := getchar arr in
      let '(c, arr) := ca in
      let i := Z.of_nat (length buf) in
      if c <? 0 then ret None
      else if (SP <=? c) && (i <? BUFSIZE - 1) then do! cons_putc c in do! buf_ok i in readline fuel arr (buf ++ [c])
      else if (c =? BS) && (0 <? i) then do! cons_putc c in readline fuel arr (take (length buf - 1) buf)
      else if (c =? NL) || (c =? CR) then do! cons_putc c in do! buf_ok i in ret (Some buf)
      else readline fuel arr buf
  end.

(** ** A screen of lines *)

(** Cursor and cells of the screen. *)
Record screen := mkScr { s_row : Z; s_col : Z; cell : Z -> Z -> Z }.

Definition put_cell (r c v : Z) (f : Z -> Z -> Z) : Z -> Z -> Z := fun r' c' => if decide (r' = r /\ c' = c) then v else f r' c'.
(** One line up; the last line is blank. *)
Definition scroll (t : screen) : screen :=
  if s_row t =? 30 then mkScr 29 0 (fun r c => if r =? 29 then SP else cell t (r + 1) c) else t.
Definition type_char (c : Z) (t : screen) : screen :=
  scroll (
    if c =? NL then mkScr (s_row t + 1) 0 (cell t)
    else if c =? BS then
      if 0 <? s_col t then mkScr (s_row t) (s_col t - 1) (put_cell (s_row t) (s_col t - 1) SP (cell t))
      else if 0 <? s_row t then mkScr (s_row t - 1) 79 (put_cell (s_row t - 1) 79 SP (cell t))
      else t
    else
      let f := put_cell (s_row t) (s_col t) (c mod 256) (cell t) in
      if s_col t =? 79 then mkScr (s_row t + 1) 0 f else mkScr (s_row t) (s_col t + 1) f).

(** The array shows the screen [t]; cursor below the last line only inside [vga_putc]. *)
Definition shows (s : console) (f : Z -> Z -> Z) : Prop :=
  forall r c, 0 <= r < 30 -> 0 <= c < 80 -> VGAdata s (r * 80 + c) = f r c /\ vga_mem s (r * 80 + c) = f r c.
Definition ScrRep (s : console) (t : screen) : Prop :=
  row s = s_row t /\ column s = s_col t /\ 0 <= s_row t < 30 /\ 0 <= s_col t < 80 /\ shows s (cell t).

Definition same_io (s s' : console) : Prop :=
  serial_exists s' = serial_exists s /\ serial_in s' = serial_in s /\ serial_out s' = serial_out s /\ cons_buf s' = cons_buf s /\ rpos s' = rpos s /\ wpos s' = wpos s.

Lemma index_inj r c r' c' : 0 <= c < 80 -> 0 <= c' < 80 -> r * 80 + c = r' * 80 + c' -> r = r' /\ c = c'.
Proof. lia. Qed.

Lemma vga_set_runs s f r c v Q : 0 <= r < 30 -> 0 <= c < 80 -> shows s f ->
  (forall s', shows s' (put_cell r c v f) -> s' = set_vga (VGAdata s') (vga_mem s') s -> Q tt s') -> runs (vga_set (r * 80 + c) v) s Q.
Proof.
  intros Hr Hc Hs HQ. unfold vga_set. rewrite (proj2 (Z.leb_le 0 _)), (proj2 (Z.ltb_lt _ 2400)) by lia. cbn [andb]. runs_steps. apply HQ; [|done].
  intros r' c' Hr' Hc'. cbn. unfold upd, put_cell. destruct (decide (r' = r /\ c' = c)) as [[-> ->]|Hne]; [by rewrite Z.eqb_refl|].
  rewrite (proj2 (Z.eqb_neq _ _)); [by apply Hs|]. intros He. apply Hne. by apply index_inj in He.
Qed.

Lemma blank_row_runs k : forall s f r j, 0 <= r < 30 -> 0 <= j -> j + Z.of_nat k = 80 -> shows s f ->
  runs (blank_row k r j) s (fun _ s' => s' = set_vga (VGAdata s') (vga_mem s') s /\ shows s' (fun r' c' => if decide (r' = r /\ j <= c' < 80) then SP else f r' c')).
Proof.
  induction k as [|k IH]; intros s f r j Hr Hj Hk Hs; cbn [blank_row]; runs_steps.
  - split; [by destruct s|]. intros r' c' Hr' Hc'. rewrite decide_False by lia. by apply Hs.
  - apply (vga_set_runs s f r j SP); [done|lia|done|]. intros s1 Hs1 He1. eapply runs_mono; [eapply (IH s1 _ r (j + 1)); [done|lia|lia|exact Hs1]|]. cbn beta. intros _ s' [He Hs']. split; [rewrite He, He1; done|].
    intros r' c' Hr' Hc'. destruct (Hs' r' c' Hr' Hc') as [-> ->]. unfold put_cell. destruct (decide (r' = r /\ j + 1 <= c' < 80)).
    + rewrite decide_True by lia. done.
    + destruct (decide (r' = r /\ c' = j)); [rewrite decide_True by lia|rewrite decide_False by lia]; done.
Qed.

Lemma copy_row_runs k : forall s f r j, 0 <= r < 29 -> 0 <= j -> j + Z.of_nat k = 80 -> shows s f ->
  runs (copy_row k r j) s (fun _ s' => s' = set_vga (VGAdata s') (vga_mem s') s /\ shows s' (fun r' c' => if decide (r' = r /\ j <= c' < 80) then f (r + 1) c' else f r' c')).
Proof.
  induction k as [|k IH]; intros s f r j Hr Hj Hk Hs; cbn [copy_row]; runs_steps.
  - split; [by destruct s|]. intros r' c' Hr' Hc'. rewrite decide_False by lia. by apply Hs.
  - unfold vga_get. rewrite (proj2 (Z.leb_le 0 _)), (proj2 (Z.ltb_lt _ 2400)) by lia. cbn [andb]. runs_steps. destruct (Hs (r + 1) j ltac:(lia) ltac:(lia)) as [-> _].
    apply (vga_set_runs s f r j); [lia|lia|done|]. intros s1 Hs1 He1. eapply runs_mono; [eapply (IH s1 _ r (j + 1)); [done|lia|lia|exact Hs1]|]. cbn beta. intros _ s' [He Hs']. split; [rewrite He, He1; done|].
    intros r' c' Hr' Hc'. destruct (Hs' r' c' Hr' Hc') as [-> ->]. unfold put_cell. destruct (decide (r' = r /\ j + 1 <= c' < 80)).
    + rewrite (decide_True (P := r' = r /\ j <= c' < 80)), decide_False by lia. done.
    + destruct (decide (r' = r /\ c' = j)) as [[-> ->]|]; [rewrite decide_True by lia|rewrite decide_False by lia]; done.
Qed.

Lemma copy_rows_runs k : forall s f i, 0 <= i -> i + Z.of_nat k = 29 -> shows s f ->
  runs (copy_rows k i) s (fun _ s' => s' = set_vga (VGAdata s') (vga_mem s') s /\ shows s' (fun r c => if decide (i <= r < 29) then f (r + 1) c else f r c)).
Proof.
  induction k as [|k IH]; intros s f i Hi Hk Hs; cbn [copy_rows]; runs_steps.
  - split; [by destruct s|]. intros r c Hr Hc. rewrite decide_False by lia. by apply Hs.
  - eapply runs_mono; [apply (copy_row_runs 80 s f i 0); [lia|lia|done|done]|]. cbn beta. intros _ s1 [He1 Hs1].
    eapply runs_mono; [eapply (IH s1 _ (i + 1)); [lia|lia|exact Hs1]|]. cbn beta. intros _ s' [He Hs']. split; [rewrite He, He1; done|].
    intros r c Hr Hc. destruct (Hs' r c Hr Hc) as [-> ->]. destruct (decide (i + 1 <= r < 29)).
    + rewrite decide_False, decide_True by lia. done.
    + destruct (decide (r = i /\ 0 <= c < 80)) as [[-> _]|]; [rewrite decide_True by lia|rewrite decide_False by lia]; done.
Qed.

(** The end of [vga_putc]. *)
Lemma scroll_runs s t : row s = s_row t -> column s = s_col t -> 0 <= s_row t <= 30 -> 0 <= s_col t < 80 -> shows s (cell t) ->
  runs (let! s := get in if row s =? 30 then do! copy_rows 29 0 in do! blank_row 80 29 0 in modify (set_pos 29 0) else ret tt) s
    (fun _ s' => ScrRep s' (scroll t) /\ same_io s s').
Proof.
  intros Hr Hc Hrb Hcb Hs. runs_steps. rewrite Hr. unfold scroll. destruct (Z.eqb_spec (s_row t) 30) as [H30|H30].
  - runs_steps. eapply runs_mono; [apply (copy_rows_runs 29 s (cell t) 0); [lia|lia|done]|]. cbn beta. intros _ s1 [He1 Hs1]. runs_steps.
    eapply runs_mono; [eapply (blank_row_runs 80 s1 _ 29 0); [lia|lia|done|exact Hs1]|]. cbn beta. intros _ s2 [He2 Hs2]. runs_steps.
    split; [|unfold same_io; rewrite He2, He1; done]. unfold ScrRep. cbn [s_row s_col cell row column set_pos]. split; [done|]. split; [done|]. split; [lia|]. split; [lia|].
    intros r c Hr' Hc'. cbn [VGAdata vga_mem set_pos]. destruct (Hs2 r c Hr' Hc') as [-> ->]. destruct (Z.eqb_spec r 29) as [->|].
    + rewrite decide_True by lia. done.
    + rewrite decide_False, decide_True by lia. done.
  - runs_steps. split; [|done]. unfold ScrRep. rewrite Hr, Hc. split; [done|]. split; [done|]. split; [lia|done].
Qed.

Lemma vga_putc_runs s t c : ScrRep s t -> runs (vga_putc c) s (fun _ s' => ScrRep s' (type_char c t) /\ same_io s s').
Proof.
  intros (Hr&Hc&Hrb&Hcb&Hs). unfold vga_putc, type_char. set (tail := let! s := get in if row s =? 30 then _ else _).
  assert (Htail : forall s1 t', row s1 = s_row t' -> column s1 = s_col t' -> 0 <= s_row t' <= 30 -> 0 <= s_col t' < 80 -> shows s1 (cell t') -> same_io s s1 ->
            runs tail s1 (fun _ s' => ScrRep s' (scroll t') /\ same_io s s')).
  { intros s1 t' ? ? ? ? ? Hio. eapply runs_mono; [by apply scroll_runs|]. cbn beta. intros _ s' [HS Hio']. split; [done|].
    destruct Hio as (?&?&?&?&?&?), Hio' as (?&?&?&?&?&?). unfold same_io. split_and!; congruence. }
  runs_steps. rewrite Hr, Hc. destruct (Z.eqb_spec c NL) as [->|Hnl]; [runs_steps; by apply Htail; try done; cbn; lia|].
  destruct (Z.eqb_spec c BS) as [->|Hbs].
  - destruct (Z.ltb_spec 0 (s_col t)).
    + rewrite orb_true_r. runs_steps. eapply (vga_set_runs _ (cell t) (s_row t) (s_col t - 1) SP); [lia|lia|exact Hs|]. intros s1 Hs1 He1. apply Htail; cbn; try lia; try done; by rewrite He1.
    + rewrite orb_false_r. destruct (Z.ltb_spec 0 (s_row t)).
      * runs_steps. eapply (vga_set_runs _ (cell t) (s_row t - 1) 79 SP); [lia|lia|exact Hs|]. intros s1 Hs1 He1. apply Htail; cbn; try lia; try done; by rewrite He1.
      * runs_steps. apply Htail; try done; lia.
  - runs_steps. eapply (vga_set_runs _ (cell t) (s_row t) (s_col t)); [lia|lia|exact Hs|]. intros s1 Hs1 He1. replace (s_col t + 1 =? 80) with (s_col t =? 79) by (destruct (Z.eqb_spec (s_col t) 79), (Z.eqb_spec (s_col t + 1) 80); lia || done).
    destruct (Z.eqb_spec (s_col t) 79); runs_steps; apply Htail; cbn; try lia; try done; by rewrite He1.
Qed.

(** C37: the text screen: started with the cursor inside the screen, [vga_putc] writes only
    inside the 30 x 80 array, keeps the display memory equal to it, and does to the
    screen what typing the character does: it is shown at the cursor, a line that is
    full or ended moves the cursor to the next one, and past the last line everything
    scrolls up by one. *)
Theorem vga_putc_refines s t c : ScrRep s t -> runs (vga_putc c) s (fun _ s' => ScrRep s' (type_char c t) /\ same_io s s').
Proof. apply vga_putc_runs. Qed.

(** ** Input *)

(** What a character from the serial port becomes; NULs are dropped. *)
Definition keys (l : list Z) : list Z := (fun c => if c =? 127 then BS else c) <$> filter (fun c => c <> 0) l.

(** The characters waiting in the ring. *)
Definition RingRep (s : console) (q : list Z) : Prop :=
  Z.of_nat (length q) < CONSBUFSIZE /\ 0 <= rpos s < CONSBUFSIZE /\ wpos s = (rpos s + Z.of_nat (length q)) mod CONSBUFSIZE /\
  (forall i c, q !! i = Some c -> cons_buf s ((rpos s + Z.of_nat i) mod CONSBUFSIZE) = c) /\ Forall (fun c => 0 < c < 256) q.

Lemma next_pos w : 0 <= w < CONSBUFSIZE -> (if w + 1 =? CONSBUFSIZE then 0 else w + 1) = (w + 1) mod CONSBUFSIZE.
Proof. unfold CONSBUFSIZE. intros Hw. destruct (Z.eqb_spec (w + 1) 512) as [->|]; [done|]. rewrite Z.mod_small by lia. done. Qed.

Lemma ring_push s q c : RingRep s q -> 0 < c < 256 -> Z.of_nat (length q) + 1 < CONSBUFSIZE ->
  RingRep (set_ring (upd (wpos s) c (cons_buf s)) (rpos s) (if wpos s + 1 =? CONSBUFSIZE then 0 else wpos s + 1) s) (q ++ [c]).
Proof.
  intros (_&Hr&Hw&Hb&Hf) Hc Hl. assert (Hwb : 0 <= wpos s < CONSBUFSIZE) by (rewrite Hw; apply Z.mod_pos_bound; unfold CONSBUFSIZE; lia).
  unfold RingRep. cbn [rpos wpos cons_buf set_ring]. rewrite next_pos by done. rewrite length_app. cbn [length]. split; [lia|]. split; [done|]. split.
  - rewrite Hw, Zplus_mod_idemp_l. f_equal. lia.
  - split; [|apply Forall_app; split; [done|by apply Forall_singleton]]. intros i d Hd. unfold upd. apply lookup_app_Some in Hd as [Hd|[Hi Hd]].
    + pose proof (lookup_lt_Some _ _ _ Hd) as Hi. rewrite (proj2 (Z.eqb_neq _ _)); [by apply Hb|]. rewrite Hw. unfold CONSBUFSIZE in *. mlia.
    + apply list_lookup_singleton_Some in Hd as [Hi0 <-]. replace (Z.of_nat i) with (Z.of_nat (length q)) by lia. rewrite <- Hw. by rewrite Z.eqb_refl.
Qed.

Lemma ring_pop s c q : RingRep s (c :: q) ->
  rpos s <> wpos s /\ cons_buf s (rpos s) = c /\ RingRep (set_ring (cons_buf s) (if rpos s + 1 =? CONSBUFSIZE then 0 else rpos s + 1) (wpos s) s) q.
Proof.
  intros (Hl&Hr&Hw&Hb&[Hc Hf]%Forall_cons). cbn [length] in Hl, Hw. split; [rewrite Hw; unfold CONSBUFSIZE in *; mlia|]. split.
  - specialize (Hb O c eq_refl). by rewrite Z.add_0_r, Z.mod_small in Hb.
  - unfold RingRep. cbn [rpos wpos cons_buf set_ring]. rewrite next_pos by done. split; [lia|]. split; [apply Z.mod_pos_bound; unfold CONSBUFSIZE; lia|]. split; [|split; [|done]].
    + rewrite Hw, Zplus_mod_idemp_l. f_equal. lia.
    + intros i d Hd. rewrite Zplus_mod_idemp_l. specialize (Hb (S i) d Hd). by replace (rpos s + 1 + Z.of_nat i) with (rpos s + Z.of_nat (S i)) by lia.
Qed.

(** The screen and what was sent do not matter to the input. *)
Definition in_frame (s s' : console) : Prop :=
  row s' = row s /\ column s' = column s /\ VGAdata s' = VGAdata s /\ vga_mem s' = vga_mem s /\ serial_exists s' = serial_exists s /\ serial_out s' = serial_out s.

Lemma cons_intr_runs l : forall s q fuel, serial_in s = l -> RingRep s q -> Forall (fun c => 0 <= c < 256) l ->
  Z.of_nat (length q + length (keys l)) < CONSBUFSIZE -> (length l <= fuel)%nat ->
  runs (cons_intr fuel) s (fun _ s' => RingRep s' (q ++ keys l) /\ serial_in s' = [] /\ in_frame s s').
Proof.
  induction l as [|c l IH]; intros s q fuel Hin HR Hf Hlen Hfu; destruct fuel as [|fuel]; cbn [cons_intr]; unfold serial_proc_data; runs_steps; rewrite Hin; try (cbn in Hfu; lia).
  1-2: runs_steps; cbn [Z.eqb]; runs_steps; rewrite app_nil_r; by split_and!.
  apply Forall_cons in Hf as [Hc Hf]. runs_steps. set (d := if c =? 127 then BS else c). assert (Hd : 0 <= d < 256) by (unfold d, BS; destruct (c =? 127); lia).
  rewrite (proj2 (Z.eqb_neq d (-1))) by lia. runs_steps. rewrite (Z.mod_small d) by lia. unfold keys in *. rewrite filter_cons in *. destruct (decide (c <> 0)) as [Hc0|Hc0].
  - assert (Hd0 : d <> 0) by (unfold d, BS; destruct (c =? 127); lia). rewrite (proj2 (Z.eqb_neq d 0)) by done. cbn [negb]. runs_steps. rewrite fmap_cons in *. cbn [length] in *.
    eapply runs_mono; [eapply (IH _ (q ++ [d])); [done|apply (ring_push (set_serial (serial_exists s) l (serial_out s) s)); [done|lia|lia]|done|rewrite length_app; cbn [length]; lia|lia]|].
    cbn beta. intros _ s' (HR'&Hi'&Hfr). rewrite <- app_assoc in HR'. split; [done|]. split; [done|]. exact Hfr.
  - assert (c = 0) as -> by (destruct (decide (c = 0)); tauto). cbn [Z.eqb] in d. subst d. cbn [Z.eqb negb]. runs_steps. cbn [length] in *.
    eapply runs_mono; [eapply (IH _ q); [done|exact HR|done|lia|lia]|]. cbn beta. intros _ s' (?&?&Hfr). done.
Qed.

(** The characters that will be read, in order: those in the ring and those that
    still wait in the port. *)
Definition Pending (s : console) (q : list Z) : Prop :=
  serial_exists s = true /\ Forall (fun c => 0 <= c < 256) (serial_in s) /\
  exists q0, RingRep s q0 /\ q = q0 ++ keys (serial_in s) /\ Z.of_nat (length q) < CONSBUFSIZE.

Lemma cons_getc_runs s q : Pending s q -> runs cons_getc s (fun r s' => r = hd 0 q /\ Pending s' (tl q) /\ in_frame s s').
Proof.
  intros (He&Hf&q0&HR&->&Hlen). unfold cons_getc, serial_intr. runs_steps. rewrite He. rewrite length_app in Hlen.
  eapply runs_mono; [by apply (cons_intr_runs (serial_in s) s q0)|]. cbn beta. intros _ s1 (HR1&Hi1&Hfr). pose proof Hfr as (?&?&?&?&He1&?). runs_steps.
  destruct (q0 ++ keys (serial_in s)) as [|c q] eqn:Hq.
  - destruct HR1 as (_&Hr&Hw&_). cbn in Hw. rewrite Z.add_0_r, Z.mod_small in Hw by done. rewrite Hw, Z.eqb_refl. cbn [negb]. runs_steps. split; [done|]. split; [|done].
    split; [congruence|]. rewrite Hi1. split; [constructor|]. exists []. split; [|done]. unfold RingRep. cbn [length]. rewrite Hw, Z.add_0_r, Z.mod_small by done. split_and!; try done; lia.
  - destruct (ring_pop s1 c q HR1) as (Hne&Hc&HR2). rewrite (proj2 (Z.eqb_neq _ _)) by done. cbn [negb]. runs_steps. split; [done|]. split; [|done].
    split; [cbn; congruence|]. cbn [serial_in set_ring tl]. rewrite Hi1. split; [constructor|]. exists q. split; [done|]. rewrite app_nil_r. split; [done|].
    destruct HR2 as (?&_). done.
Qed.

(** the input ring is a queue: while fewer than 512 characters wait, [cons_getc] returns
    the oldest of them (0 when there is none) and keeps the others in order, whether they
    are in the ring already or still in the serial port. *)
Theorem cons_getc_fifo s q : Pending s q -> runs cons_getc s (fun r s' => r = hd 0 q /\ Pending s' (tl q) /\ in_frame s s').
Proof. apply cons_getc_runs. Qed.

(** ** Reading a line *)

(** Characters sent for one that is echoed. *)
Definition echo (c : Z) : list Z := if c =? BS then [BS; SP; BS] else [c mod 256].

(** The line that the keys [q] type after [buf], the keys left over and those echoed. *)
Fixpoint edit (q buf : list Z) : option (list Z * list Z * list Z) :=
  match q with
  | [] => None
  | c :: q =>
      let n := length buf in
      let typed := if (SP <=? c) && (Z.of_nat n <? 1023) then edit q (buf ++ [c]) else if (c =? BS) && (0 <? Z.of_nat n) then edit q (take (n - 1) buf) else edit q buf in
      if (c =? NL) || (c =? CR) then Some (buf, q, [c])
      else if (SP <=? c) && (Z.of_nat n <? 1023) || (c =? BS) && (0 <? Z.of_nat n) then (fun '(l, r, e) => (l, r, c :: e)) <$> typed else typed
  end.

Lemma RingRep_ext s s' q : RingRep s q -> cons_buf s' = cons_buf s -> rpos s' = rpos s -> wpos s' = wpos s -> RingRep s' q.
Proof. intros (?&?&?&?&?) Hb Hr Hw. unfold RingRep. rewrite Hb, Hr, Hw. done. Qed.

Lemma Pending_ext s s' q : Pending s q -> cons_buf s' = cons_buf s -> rpos s' = rpos s -> wpos s' = wpos s -> serial_exists s' = serial_exists s -> serial_in s' = serial_in s -> Pending s' q.
Proof. intros (?&?&q0&?&?) Hb Hr Hw He Hi. unfold Pending. rewrite He, Hi. split; [done|]. split; [done|]. exists q0. split; [by eapply RingRep_ext|done]. Qed.

Lemma cons_putc_runs s t q c : ScrRep s t -> Pending s q ->
  runs (cons_putc c) s (fun _ s' => ScrRep s' (type_char c t) /\ Pending s' q /\ serial_out s' = serial_out s ++ echo c).
Proof.
  intros HS HP. unfold cons_putc, serial_putc. runs_steps. set (o := serial_out s ++ echo c).
  assert (Hrest : forall s1, s1 = set_serial (serial_exists s) (serial_in s) o s -> runs (vga_putc c) s1 (fun _ s' => ScrRep s' (type_char c t) /\ Pending s' q /\ serial_out s' = o)).
  { intros s1 ->. eapply runs_mono; [apply (vga_putc_runs _ t); exact HS|]. cbn beta. intros _ s' [HS' (?&?&?&?&?&?)]. split; [done|]. split; [by eapply Pending_ext|done]. }
  subst o. unfold echo in *. destruct (Z.eqb_spec c BS); unfold serial_putc_sub; runs_steps; apply Hrest; [|done]. cbn. by rewrite <- !app_assoc.
Qed.

(** The ring never overflows: before each look fewer than 512 characters wait. *)
Fixpoint fits (q : list Z) (arr : list (list Z)) : bool :=
  match arr with
  | [] => true
  | l :: arr => forallb (fun c => (0 <=? c) && (c <? 256)) l && (Z.of_nat (length (q ++ keys l)) <? CONSBUFSIZE) && fits (tl (q ++ keys l)) arr
  end.

Lemma fits_cons q l arr : fits q (l :: arr) = true <->
  Forall (fun c => 0 <= c < 256) l /\ Z.of_nat (length (q ++ keys l)) < CONSBUFSIZE /\ fits (tl (q ++ keys l)) arr = true.
Proof.
  cbn [fits]. rewrite !andb_true_iff, Z.ltb_lt, forallb_forall, Forall_forall.
  enough (forall P Q R S : Prop, (P <-> S) -> ((P /\ Q) /\ R <-> S /\ Q /\ R)) as Hiff by (apply Hiff; clear; split; intros H x Hx; specialize (H x); rewrite ?list_elem_of_In in *; specialize (H Hx); rewrite andb_true_iff, Z.leb_le, Z.ltb_lt in *; done); tauto.
Qed.

Lemma keys_app l l' : keys (l ++ l') = keys l ++ keys l'.
Proof. unfold keys. by rewrite filter_app, fmap_app. Qed.

Lemma arrive_runs s q l Q : Pending s q -> Forall (fun c => 0 <= c < 256) l -> Z.of_nat (length (q ++ keys l)) < CONSBUFSIZE ->
  (forall s', Pending s' (q ++ keys l) -> in_frame s s' -> Q tt s') -> runs (arrive l) s Q.
Proof.
  intros (He&Hf&q0&HR&->&Hlen) Hl Hfit HQ. unfold arrive. runs_steps. apply HQ; [|done]. split; [done|]. split; [by apply Forall_app|].
  exists q0. cbn [serial_in set_serial]. split; [done|]. rewrite keys_app, app_assoc. by split.
Qed.

Lemma Pending_pos s c q : Pending s (c :: q) -> 0 < c < 256.
Proof.
  intros (_&Hf&q0&(_&_&_&_&Hq)&He&_). assert (Hall : Forall (fun c => 0 < c < 256) (c :: q)); [|by apply Forall_cons in Hall as [? _]].
  rewrite He. apply Forall_app. split; [done|]. unfold keys. apply Forall_fmap, Forall_forall. intros x Hx. cbn. apply list_elem_of_filter in Hx as [Hx0 Hx].
  rewrite Forall_forall in Hf. specialize (Hf x Hx). unfold BS. destruct (x =? 127); lia.
Qed.

Lemma in_frame_trans s s1 s2 : in_frame s s1 -> in_frame s1 s2 -> in_frame s s2.
Proof. unfold in_frame. intros (?&?&?&?&?&?) (?&?&?&?&?&?). split_and!; congruence. Qed.

(** [getchar] gives the oldest of the keys typed, the waiting ones and those still to arrive. *)
Lemma getchar_runs arr : forall s q c Q', Pending s q -> fits q arr = true -> q ++ keys (concat arr) = c :: Q' ->
  runs (getchar arr) s (fun r s' => exists k q', r = (c, drop k arr) /\ 0 < c /\ Pending s' q' /\ fits q' (drop k arr) = true /\
    q' ++ keys (concat (drop k arr)) = Q' /\ in_frame s s').
Proof.
  induction arr as [|l arr IH]; intros s q c Q' HP Hfit Hq; cbn [getchar]; runs_steps.
  - cbn in Hq. rewrite app_nil_r in Hq. subst q. pose proof (Pending_pos _ _ _ HP). eapply runs_mono; [by apply cons_getc_runs|]. cbn beta.
    cbn [hd tl]. intros r s' (->&HP'&Hfr). rewrite (proj2 (Z.eqb_neq c 0)) by lia. runs_steps. exists O, Q'. cbn. rewrite app_nil_r. split_and!; try done. lia.
  - apply fits_cons in Hfit as (Hl&Hlen&Hfit). change (concat (l :: arr)) with (l ++ concat arr) in Hq. rewrite keys_app, app_assoc in Hq. apply (arrive_runs s q); [done..|]. intros s1 HP1 Hfr1. runs_steps.
    eapply runs_mono; [by apply (cons_getc_runs s1 (q ++ keys l))|]. cbn beta. intros r s2 (->&HP2&Hfr2). pose proof (in_frame_trans _ _ _ Hfr1 Hfr2) as Hfr.
    destruct (q ++ keys l) as [|c0 q1] eqn:He; cbn [hd tl] in *.
    + cbn. eapply runs_mono; [by apply (IH s2 [] c Q')|]. cbn beta. intros r s' (k&q'&->&Hc&HP'&Hfit'&Hq'&Hfr'). exists (S k), q'.
      split_and!; try done. by eapply in_frame_trans.
    + cbn [app] in Hq. injection Hq as -> Hq. pose proof (Pending_pos _ _ _ HP1). rewrite (proj2 (Z.eqb_neq c 0)) by lia. runs_steps.
      exists 1%nat, q1. cbn. rewrite drop_0. split_and!; try done. lia.
Qed.

Lemma ScrRep_frame s s' t : ScrRep s t -> in_frame s s' -> ScrRep s' t.
Proof. intros (?&?&?&?&Hs) (Hr&Hc&Hv&Hm&_). unfold ScrRep, shows. rewrite Hr, Hc, Hv, Hm. done. Qed.

(** What [readline] leaves: [rest] is what waits and what has not arrived yet. *)
Definition typed (s : console) (t : screen) (arr : list (list Z)) (line rest ech : list Z) (r : option (list Z)) (s' : console) : Prop :=
  r = Some line /\ (length line <= 1023)%nat /\ (exists k q', Pending s' q' /\ q' ++ keys (concat (drop k arr)) = rest) /\
  ScrRep s' (fold_left (fun t c => type_char c t) ech t) /\ serial_out s' = serial_out s ++ (ech ≫= echo).

Lemma buf_ok_runs i s Q : 0 <= i < BUFSIZE -> Q tt s -> runs (buf_ok i) s Q.
Proof. intros Hi HQ. unfold buf_ok. rewrite (proj2 (Z.leb_le 0 i)), (proj2 (Z.ltb_lt i _)) by lia. by runs_steps. Qed.

Lemma readline_runs fuel : forall arr s t q buf line rest ech, ScrRep s t -> Pending s q -> fits q arr = true -> (length buf <= 1023)%nat ->
  edit (q ++ keys (concat arr)) buf = Some (line, rest, ech) -> (length (q ++ keys (concat arr)) <= fuel)%nat ->
  runs (readline fuel arr buf) s (typed s t arr line rest ech).
Proof.
  induction fuel as [|fuel IH]; intros arr s t q buf line rest ech HS HP Hfit Hb He Hf;
    (destruct (q ++ keys (concat arr)) as [|c Q'] eqn:HQ; [done|]); cbn [length] in Hf; [lia|]. cbn [readline]. runs_steps.
  eapply runs_mono; [by apply (getchar_runs arr s q c Q')|]. cbn beta. intros r s1 (k&q1&->&Hc&HP1&Hfit1&HQ1&Hfr).
  pose proof (ScrRep_frame _ _ _ HS Hfr) as HS1. assert (Ho1 : serial_out s1 = serial_out s) by apply Hfr. set (arr1 := drop k arr) in *.
  assert (Hdrop : forall k', drop k' arr1 = drop (k + k') arr) by (intros k'; subst arr1; by rewrite drop_drop).
  rewrite (proj2 (Z.ltb_ge c 0)) by lia. change (BUFSIZE - 1) with 1023. cbn [edit] in He. subst Q'.
  assert (Hskip : edit (q1 ++ keys (concat arr1)) buf = Some (line, rest, ech) -> runs (readline fuel arr1 buf) s1 (typed s t arr line rest ech)).
  { intros He'. eapply runs_mono; [apply (IH arr1 s1 t q1 buf line rest ech); try done; lia|]. intros r s3 (?&?&(k'&q'&?&?)&?&Ho3).
    split; [done|]. split; [done|]. split; [exists (k + k')%nat, q'; by rewrite <- Hdrop|]. split; [done|]. by rewrite Ho3, Ho1. }
  assert (Hgo : forall buf' ech' s2, (length buf' <= 1023)%nat -> edit (q1 ++ keys (concat arr1)) buf' = Some (line, rest, ech') ->
    ScrRep s2 (type_char c t) -> Pending s2 q1 -> serial_out s2 = serial_out s1 ++ echo c ->
    runs (readline fuel arr1 buf') s2 (typed s t arr line rest (c :: ech'))).
  { intros buf' ech' s2 Hb' He' HS2 HP2 Ho2. eapply runs_mono; [apply (IH arr1 s2 (type_char c t) q1 buf' line rest ech'); try done; lia|].
    intros r s3 (?&?&(k'&q'&?&?)&?&Ho3). split; [done|]. split; [done|]. split; [exists (k + k')%nat, q'; by rewrite <- Hdrop|]. split; [done|].
    rewrite Ho3, Ho2, Ho1, <- app_assoc. done. }
  destruct (Z.leb_spec SP c) as [Hsp|Hsp].
  - assert ((c =? NL) = false /\ (c =? CR) = false /\ (c =? BS) = false) as (Hn1&Hn2&Hn3) by (unfold SP, NL, CR, BS in *; rewrite !Z.eqb_neq; lia).
    rewrite Hn1, Hn2, Hn3 in *. cbn [orb andb] in *. destruct (Z.ltb_spec (Z.of_nat (length buf)) 1023); cbn [orb] in He; [|by apply Hskip].
    destruct (edit _ (buf ++ [c])) as [[[l0 r0] e0]|] eqn:Hed; [|done]. cbn in He. injection He as -> -> <-. runs_steps.
    eapply runs_mono; [by apply (cons_putc_runs s1 t q1)|]. cbn beta. intros _ s2 (HS2&HP2&Ho2). runs_steps. apply buf_ok_runs; [unfold BUFSIZE; lia|].
    apply Hgo; try done. rewrite length_app. cbn. lia.
  - cbn [andb] in *. destruct (Z.eqb_spec c BS) as [->|Hbs]; cbn [andb orb] in *.
    + change ((BS =? NL) || (BS =? CR)) with false in *. cbn [orb] in He. destruct (Z.ltb_spec 0 (Z.of_nat (length buf))); [|by apply Hskip].
      destruct (edit _ (take (length buf - 1) buf)) as [[[l0 r0] e0]|] eqn:Hed; [|done]. cbn in He. injection He as -> -> <-. runs_steps.
      eapply runs_mono; [by apply (cons_putc_runs s1 t q1)|]. cbn beta. intros _ s2 (HS2&HP2&Ho2). apply Hgo; try done. rewrite length_take. lia.
    + destruct ((c =? NL) || (c =? CR)) eqn:Hnl; [|by apply Hskip]. injection He as -> <- <-. runs_steps.
      eapply runs_mono; [by apply (cons_putc_runs s1 t q1)|]. cbn beta. intros _ s2 (HS2&HP2&Ho2). runs_steps. apply buf_ok_runs; [unfold BUFSIZE; lia|].
      runs_steps. split; [done|]. split; [done|]. split; [by exists k, q1|]. split; [done|]. rewrite Ho2, Ho1. cbn. by rewrite app_nil_r.
Qed.

(** C38: [readline] returns the line as edited, however long the input is and however it
    arrives, as long as the input ring does not overflow: printable characters are
    appended up to 1023 of them (no write leaves the 1024 bytes of the buffer), a backspace
    deletes the last one, other control characters are ignored and a line feed or carriage
    return ends it; exactly the keys it used are consumed, and exactly those that had an
    effect are echoed, on the screen and the serial port. *)
Theorem readline_correct s t q arr line rest ech :
  ScrRep s t -> Pending s q -> fits q arr = true -> edit (q ++ keys (concat arr)) [] = Some (line, rest, ech) ->
  runs (readline (length (q ++ keys (concat arr))) arr []) s (fun r s' => r = Some line /\ (length line <= 1023)%nat /\
    (exists k q', Pending s' q' /\ q' ++ keys (concat (drop k arr)) = rest) /\
    ScrRep s' (fold_left (fun t c => type_char c t) ech t) /\ serial_out s' = serial_out s ++ (ech ≫= echo)).
Proof. intros HS HP Hfit He. apply (readline_runs _ arr s t q [] line rest ech); try done; cbn; lia. Qed.

(** ** Examples *)

(** A blank screen; "hi", a rubout, "o", a line feed and "x" wait in the port. *)
Definition con0 : console := mkCon 29 79 (fun _ => SP) (fun _ => SP) true [104; 105; 127; 111; 0; 10; 120] [] (fun _ => 0) 511 511.
Definition scr0 : screen := mkScr 29 79 (fun _ _ => SP).

Lemma con0_screen : ScrRep con0 scr0.
Proof. split; [done|]. split; [done|]. split; [cbn; lia|]. split; [cbn; lia|]. intros r c _ _. done. Qed.
Lemma con0_pending : Pending con0 [104; 105; 8; 111; 10; 120].
Proof.
  split; [done|]. split; [repeat constructor; lia|]. exists []. split; [|split; [reflexivity|cbn; unfold CONSBUFSIZE; lia]].
  split; [cbn; unfold CONSBUFSIZE; lia|]. split; [cbn; unfold CONSBUFSIZE; lia|]. split; [reflexivity|]. split; [done|constructor].
Qed.

Lemma vga_putc_refines_witness : runs (vga_putc 65) con0 (fun _ s' => ScrRep s' (type_char 65 scr0) /\ same_io con0 s').
Proof. apply (vga_putc_refines con0 scr0 65). exact con0_screen. Defined.
Lemma cons_getc_fifo_witness : runs cons_getc con0 (fun r s' => r = 104 /\ Pending s' [105; 8; 111; 10; 120] /\ in_frame con0 s').
Proof. apply (cons_getc_fifo con0 [104; 105; 8; 111; 10; 120]). exact con0_pending. Defined.
(** 1030 letters arrive in three parts, the first at once and the others while it reads, and
    then a line feed. *)
Definition con_arr : list (list Z) := repeat 65 500 :: (repeat [] 450 ++ [repeat 66 400] ++ repeat [] 450 ++ [repeat 67 130 ++ [10]]).
Definition con_keys : list Z := [104; 105; 8; 111; 10; 120].
Definition con_line : list Z := repeat 65 500 ++ repeat 66 400 ++ repeat 67 123.

Lemma con1_pending : Pending (set_serial true [] [] con0) [].
Proof.
  split; [done|]. split; [constructor|]. exists []. split; [|done].
  split; [reflexivity|]. split; [cbn; unfold CONSBUFSIZE; lia|]. split; [reflexivity|]. split; [done|constructor].
Qed.

Lemma readline_correct_witness :
  runs (readline (length (con_keys ++ keys (concat [[]; [121]]))) [[]; [121]] []) con0 (fun r s' => r = Some [104; 111] /\ (2 <= 1023)%nat /\
    (exists k q', Pending s' q' /\ q' ++ keys (concat (drop k [[]; [121]])) = [120; 121]) /\
    ScrRep s' (fold_left (fun t c => type_char c t) [104; 105; 8; 111; 10] scr0) /\ serial_out s' = [104; 105; 8; 32; 8; 111; 10]) /\
  runs (readline (length ([] ++ keys (concat con_arr))) con_arr []) (set_serial true [] [] con0) (fun r s' => r = Some con_line /\ (length con_line <= 1023)%nat /\
    (exists k q', Pending s' q' /\ q' ++ keys (concat (drop k con_arr)) = []) /\
    ScrRep s' (fold_left (fun t c => type_char c t) (con_line ++ [10]) scr0) /\ serial_out s' = [] ++ ((con_line ++ [10]) ≫= echo)) /\
  length con_line = 1023%nat.
Proof.
  split; [|split; [|reflexivity]].
  - refine (readline_correct con0 scr0 con_keys [[]; [121]] [104; 111] [120; 121] [104; 105; 8; 111; 10] con0_screen con0_pending _ _).
    + reflexivity.
    + reflexivity.
  - refine (readline_correct (set_serial true [] [] con0) scr0 [] con_arr con_line [] (con_line ++ [10]) con0_screen con1_pending _ _).
    + vm_compute. reflexivity.
    + vm_compute. reflexivity.
Defined.
