(* ===== verification/KState.v ===== *)
(** * The kernel's process state (proc.h, sched.h, wait.h, sem.h)

    Pointers to [proc_struct], [timer_t], [wait_t], [wait_queue_t] and
    [semaphore_t] are keys of finite maps.  A linked list of such objects is
    the sequence of their pointers, and an object's link is empty
    ([list_empty(&x->link)]) when it is not in the sequence (Dlist.v).  The
    routines modelled on this state run with interrupts off
    ([Atomic.critical]): each is one atomic step of the machine. *)

From stdpp Require Import base gmap list.
From Stdlib Require Import ZArith Lia Bool.
From S2P Require Import Prelude.
From S2P Require Import Dlist.
From S2P Require Import PageTable.

Inductive proc_state := PROC_UNINIT | PROC_SLEEPING | PROC_RUNNABLE | PROC_ZOMBIE.

#[export] Instance proc_state_eq : EqDecision proc_state.
Proof. solve_decision. Defined.

Definition WT_INTERRUPTED : Z := 0x80000000.
Definition WT_CHILD : Z := Z.lor 1 WT_INTERRUPTED.
Definition WT_KSEM : Z := 0x100.
Definition WT_TIMER : Z := Z.lor 2 WT_INTERRUPTED.
Definition WT_KBD : Z := Z.lor 4 WT_INTERRUPTED.
Definition PF_EXITING : Z := 1.
Definition MAX_PROCESS : Z := 4096.
Definition MAX_PID : Z := MAX_PROCESS * 2.

Record proc_struct := mkProc {
  state : proc_state;
  pid : Z;
  p_runs : Z;
  kstack : Z;
  need_resched : bool;
  parent : option Z;
  p_mm : option Z;
  cr3 : Z;
  p_flags : Z;
  exit_code : Z;
  wait_state : Z;
  cptr : option Z;
  yptr : option Z;
  optr : option Z;
  time_slice : Z
}.

Definition set_state v p := mkProc v (pid p) (p_runs p) (kstack p) (need_resched p) (parent p) (p_mm p) (cr3 p) (p_flags p) (exit_code p) (wait_state p) (cptr p) (yptr p) (optr p) (time_slice p).
Definition set_pid v p := mkProc (state p) v (p_runs p) (kstack p) (need_resched p) (parent p) (p_mm p) (cr3 p) (p_flags p) (exit_code p) (wait_state p) (cptr p) (yptr p) (optr p) (time_slice p).
Definition set_runs v p := mkProc (state p) (pid p) v (kstack p) (need_resched p) (parent p) (p_mm p) (cr3 p) (p_flags p) (exit_code p) (wait_state p) (cptr p) (yptr p) (optr p) (time_slice p).
Definition set_kstack v p := mkProc (state p) (pid p) (p_runs p) v (need_resched p) (parent p) (p_mm p) (cr3 p) (p_flags p) (exit_code p) (wait_state p) (cptr p) (yptr p) (optr p) (time_slice p).
Definition set_need_resched v p := mkProc (state p) (pid p) (p_runs p) (kstack p) v (parent p) (p_mm p) (cr3 p) (p_flags p) (exit_code p) (wait_state p) (cptr p) (yptr p) (optr p) (time_slice p).
Definition set_parent v p := mkProc (state p) (pid p) (p_runs p) (kstack p) (need_resched p) v (p_mm p) (cr3 p) (p_flags p) (exit_code p) (wait_state p) (cptr p) (yptr p) (optr p) (time_slice p).
Definition set_p_mm v p := mkProc (state p) (pid p) (p_runs p) (kstack p) (need_resched p) (parent p) v (cr3 p) (p_flags p) (exit_code p) (wait_state p) (cptr p) (yptr p) (optr p) (time_slice p).
Definition set_p_flags v p := mkProc (state p) (pid p) (p_runs p) (kstack p) (need_resched p) (parent p) (p_mm p) (cr3 p) v (exit_code p) (wait_state p) (cptr p) (yptr p) (optr p) (time_slice p).
Definition set_exit_code v p := mkProc (state p) (pid p) (p_runs p) (kstack p) (need_resched p) (parent p) (p_mm p) (cr3 p) (p_flags p) v (wait_state p) (cptr p) (yptr p) (optr p) (time_slice p).
Definition set_wait_state v p := mkProc (state p) (pid p) (p_runs p) (kstack p) (need_resched p) (parent p) (p_mm p) (cr3 p) (p_flags p) (exit_code p) v (cptr p) (yptr p) (optr p) (time_slice p).
Definition set_cptr v p := mkProc (state p) (pid p) (p_runs p) (kstack p) (need_resched p) (parent p) (p_mm p) (cr3 p) (p_flags p) (exit_code p) (wait_state p) v (yptr p) (optr p) (time_slice p).
Definition set_yptr v p := mkProc (state p) (pid p) (p_runs p) (kstack p) (need_resched p) (parent p) (p_mm p) (cr3 p) (p_flags p) (exit_code p) (wait_state p) (cptr p) v (optr p) (time_slice p).
Definition set_optr v p := mkProc (state p) (pid p) (p_runs p) (kstack p) (need_resched p) (parent p) (p_mm p) (cr3 p) (p_flags p) (exit_code p) (wait_state p) (cptr p) (yptr p) v (time_slice p).
Definition set_time_slice v p := mkProc (state p) (pid p) (p_runs p) (kstack p) (need_resched p) (parent p) (p_mm p) (cr3 p) (p_flags p) (exit_code p) (wait_state p) (cptr p) (yptr p) (optr p) v.

(** [timer_t] and [wait_t]. *)
Record timer_t := mkTimer { expires : Z; t_proc : Z }.
Record wait_t := mkWait { w_proc : Z; wakeup_flags : Z; w_queue : Z }.
(** [struct run_queue]. *)
Record run_queue := mkRq { run_list : list Z; proc_num : Z; max_time_slice : Z }.

Record kst := mkK {
  procs : gmap Z proc_struct;
  current : Z;
  idleproc : Z;
  initproc : Z;
  rq : run_queue;
  timers : gmap Z timer_t;
  timer_list : list Z;
  waits : gmap Z wait_t;
  queues : gmap Z (list Z);   (* wait queues *)
  sems : gmap Z Z;            (* semaphore values; the queue has the same key *)
  proc_list : list Z;
  hash_list : gmap Z (list Z);
  nr_process : Z;
  next_safe : Z;              (* statics of [get_pid] *)
  last_pid : Z;
  kvm : vm
}.

Definition set_procs v s := mkK v (current s) (idleproc s) (initproc s) (rq s) (timers s) (timer_list s) (waits s) (queues s) (sems s) (proc_list s) (hash_list s) (nr_process s) (next_safe s) (last_pid s) (kvm s).
Definition set_current v s := mkK (procs s) v (idleproc s) (initproc s) (rq s) (timers s) (timer_list s) (waits s) (queues s) (sems s) (proc_list s) (hash_list s) (nr_process s) (next_safe s) (last_pid s) (kvm s).
Definition set_rq v s := mkK (procs s) (current s) (idleproc s) (initproc s) v (timers s) (timer_list s) (waits s) (queues s) (sems s) (proc_list s) (hash_list s) (nr_process s) (next_safe s) (last_pid s) (kvm s).
Definition set_timers v s := mkK (procs s) (current s) (idleproc s) (initproc s) (rq s) v (timer_list s) (waits s) (queues s) (sems s) (proc_list s) (hash_list s) (nr_process s) (next_safe s) (last_pid s) (kvm s).
Definition set_timer_list v s := mkK (procs s) (current s) (idleproc s) (initproc s) (rq s) (timers s) v (waits s) (queues s) (sems s) (proc_list s) (hash_list s) (nr_process s) (next_safe s) (last_pid s) (kvm s).
Definition set_waits v s := mkK (procs s) (current s) (idleproc s) (initproc s) (rq s) (timers s) (timer_list s) v (queues s) (sems s) (proc_list s) (hash_list s) (nr_process s) (next_safe s) (last_pid s) (kvm s).
Definition set_queues v s := mkK (procs s) (current s) (idleproc s) (initproc s) (rq s) (timers s) (timer_list s) (waits s) v (sems s) (proc_list s) (hash_list s) (nr_process s) (next_safe s) (last_pid s) (kvm s).
Definition set_sems v s := mkK (procs s) (current s) (idleproc s) (initproc s) (rq s) (timers s) (timer_list s) (waits s) (queues s) v (proc_list s) (hash_list s) (nr_process s) (next_safe s) (last_pid s) (kvm s).
Definition set_proc_list v s := mkK (procs s) (current s) (idleproc s) (initproc s) (rq s) (timers s) (timer_list s) (waits s) (queues s) (sems s) v (hash_list s) (nr_process s) (next_safe s) (last_pid s) (kvm s).
Definition set_hash_list v s := mkK (procs s) (current s) (idleproc s) (initproc s) (rq s) (timers s) (timer_list s) (waits s) (queues s) (sems s) (proc_list s) v (nr_process s) (next_safe s) (last_pid s) (kvm s).
Definition set_nr_process v s := mkK (procs s) (current s) (idleproc s) (initproc s) (rq s) (timers s) (timer_list s) (waits s) (queues s) (sems s) (proc_list s) (hash_list s) v (next_safe s) (last_pid s) (kvm s).
Definition set_pids ns lp s := mkK (procs s) (current s) (idleproc s) (initproc s) (rq s) (timers s) (timer_list s) (waits s) (queues s) (sems s) (proc_list s) (hash_list s) (nr_process s) ns lp (kvm s).
Definition set_kvm v s := mkK (procs s) (current s) (idleproc s) (initproc s) (rq s) (timers s) (timer_list s) (waits s) (queues s) (sems s) (proc_list s) (hash_list s) (nr_process s) (next_safe s) (last_pid s) v.

(** ** Access to objects *)

Definition rd_proc (p : Z) : M kst proc_struct := let! s := get in deref (procs s !! p).
Definition upd_proc (p : Z) (f : proc_struct -> proc_struct) : M kst unit :=
  let! g := rd_proc p in modify (fun s => set_procs (<[p := f g]> (procs s)) s).
Definition rd_timer (t : Z) : M kst timer_t := let! s := get in deref (timers s !! t).
Definition set_expires (t e : Z) : M kst unit :=
  let! x := rd_timer t in modify (fun s => set_timers (<[t := mkTimer e (t_proc x)]> (timers s)) s).
Definition rd_wait (w : Z) : M kst wait_t := let! s := get in deref (waits s !! w).
Definition queue_of (s : kst) (q : Z) : list Z := default [] (queues s !! q).
Definition on_kvm {A} (m : M vm A) : M kst A := zoom kvm set_kvm m.

(** Whether an object is in a list: its link is not empty. *)
Definition mem_list (x : Z) (l : list Z) : bool := bool_decide (x ∈ l).

Lemma mem_list_true x l : mem_list x l = true <-> x ∈ l.
Proof. apply bool_decide_eq_true. Qed.
Lemma mem_list_false x l : mem_list x l = false <-> x ∉ l.
Proof. apply bool_decide_eq_false. Qed.

Section Access.
Implicit Types (s : kst).

Lemma rd_proc_runs s p g Q : procs s !! p = Some g -> Q g s -> runs (rd_proc p) s Q.
Proof. intros Hp HQ. unfold rd_proc. runs_steps. by eapply runs_deref. Qed.

Lemma upd_proc_runs s p f g (Q : unit -> kst -> Prop) :
  procs s !! p = Some g -> Q tt (set_procs (<[p := f g]> (procs s)) s) -> runs (upd_proc p f) s Q.
Proof. intros Hp HQ. unfold upd_proc. runs_steps. eapply rd_proc_runs; [done|]. by runs_steps. Qed.

Lemma rd_timer_runs s t x Q : timers s !! t = Some x -> Q x s -> runs (rd_timer t) s Q.
Proof. intros Hp HQ. unfold rd_timer. runs_steps. by eapply runs_deref. Qed.

Lemma set_expires_runs s t e x (Q : unit -> kst -> Prop) :
  timers s !! t = Some x -> Q tt (set_timers (<[t := mkTimer e (t_proc x)]> (timers s)) s) -> runs (set_expires t e) s Q.
Proof. intros Hp HQ. unfold set_expires. runs_steps. eapply rd_timer_runs; [done|]. by runs_steps. Qed.

Lemma rd_wait_runs s w x Q : waits s !! w = Some x -> Q x s -> runs (rd_wait w) s Q.
Proof. intros Hp HQ. unfold rd_wait. runs_steps. by eapply runs_deref. Qed.
End Access.
