(* ===== verification/Sched.v ===== *)
(** * The scheduler and the timer list (kern/schedule)

    [struct sched_class] is a record of operations, [RR] its one instance.
    [schedule] is the part the calling process executes up to [switch_to]
    (assembly): from then on [current] is the process switched to. *)

From stdpp Require Import base gmap list.
From Stdlib Require Import ZArith Lia Bool.
From S2P Require Import Prelude.
From S2P Require Import Dlist.
From S2P Require Import PageTable.
From S2P Require Import KState.

(** ** Scheduling classes *)

Record sched_class := {
  sc_init : M kst unit;
  sc_enqueue : Z -> M kst unit;
  sc_dequeue : Z -> M kst unit;
  sc_pick_next : M kst (option Z);
  sc_proc_tick : Z -> M kst unit
}.

Definition RR_init : M kst unit :=
  modify (fun s => set_rq (mkRq [] 0 (max_time_slice (rq s))) s).

Definition RR_enqueue (proc : Z) : M kst unit :=
  let! s := get in
  do! assert_ (negb (mem_list proc (run_list (rq s)))) in
  do! modify (fun s => set_rq (mkRq (run_list (rq s) ++ [proc]) (proc_num (rq s)) (max_time_slice (rq s))) s) in
  let! g := rd_proc proc in
  do! (if (time_slice g =? 0) || (max_time_slice (rq s) <? time_slice g)
       then upd_proc proc (set_time_slice (max_time_slice (rq s))) else ret tt) in
  modify (fun s => set_rq (mkRq (run_list (rq s)) (u32 (proc_num (rq s) + 1)) (max_time_slice (rq s))) s).

Definition RR_dequeue (proc : Z) : M kst unit :=
  let! s := get in
  do! assert_ (mem_list proc (run_list (rq s))) in
  modify (fun s => set_rq (mkRq (ldel proc (run_list (rq s))) (u32 (proc_num (rq s) - 1)) (max_time_slice (rq s))) s).

Definition RR_pick_next : M kst (option Z) := gets (fun s => head (run_list (rq s))).

Definition RR_proc_tick (proc : Z) : M kst unit :=
  let! g := rd_proc proc in
  do! (if 0 <? time_slice g then upd_proc proc (set_time_slice (time_slice g - 1)) else ret tt) in
  let! g := rd_proc proc in
  if time_slice g =? 0 then upd_proc proc (set_need_resched true) else ret tt.

Definition default_sched_class : sched_class := {|
  sc_init := RR_init;
  sc_enqueue := RR_enqueue;
  sc_dequeue := RR_dequeue;
  sc_pick_next := RR_pick_next;
  sc_proc_tick := RR_proc_tick
|}.

Section Core.
Variable sc : sched_class.

Definition sched_class_enqueue (proc : Z) : M kst unit :=
  let! s := get in if negb (proc =? idleproc s) then sc_enqueue sc proc else ret tt.
Definition sched_class_dequeue (proc : Z) : M kst unit := sc_dequeue sc proc.
Definition sched_class_pick_next : M kst (option Z) := sc_pick_next sc.
Definition sched_class_proc_tick (proc : Z) : M kst unit :=
  let! s := get in
  if negb (proc =? idleproc s) then sc_proc_tick sc proc else upd_proc proc (set_need_resched true).

Definition sched_init : M kst unit :=
  do! modify (set_timer_list []) in
  do! modify (fun s => set_rq (mkRq (run_list (rq s)) (proc_num (rq s)) 20) s) in
  sc_init sc.

Definition wakeup_proc (proc : Z) : M kst unit :=
  let! g := rd_proc proc in
  do! assert_ (bool_decide (state g <> PROC_ZOMBIE)) in
  if decide (state g <> PROC_RUNNABLE) then
    do! upd_proc proc (set_state PROC_RUNNABLE) in
    do! upd_proc proc (set_wait_state 0) in
    let! s := get in
    if negb (proc =? current s) then sched_class_enqueue proc else ret tt
  else ret tt.

(** [proc_run] of proc.c: [current], the page directory and the TLB. *)
Definition proc_run (proc : Z) : M kst unit :=
  let! s := get in
  if negb (proc =? current s) then
    do! modify (set_current proc) in
    let! g := rd_proc proc in
    do! on_kvm (lcr3 (cr3 g)) in
    on_kvm tlb_invalidate_all
  else ret tt.

Definition schedule : M kst unit :=
  let! s := get in
  do! upd_proc (current s) (set_need_resched false) in
  let! g := rd_proc (current s) in
  do! (if decide (state g = PROC_RUNNABLE) then sched_class_enqueue (current s) else ret tt) in
  let! next := sched_class_pick_next in
  do! match next with Some n => sched_class_dequeue n | None => ret tt end in
  let next := default (idleproc s) next in
  do! (let! g := rd_proc next in upd_proc next (set_runs (p_runs g + 1))) in
  if negb (next =? current s) then proc_run next else ret tt.

(** ** Timers *)

Definition timer_init (timer proc exp : Z) : M kst unit :=
  modify (fun s => set_timers (<[timer := mkTimer (u32 exp) proc]> (timers s)) s).

(** [while (le != &timer_list) { ... }] from position [le] on; what is left of
    [timer->expires], the sequence with the timer linked before [le]. *)
Fixpoint add_timer_loop (timer : Z) (les : list Z) : M kst (list Z) :=
  match les with
  | [] => ret [timer]
  | le :: les' =>
      let! t := rd_timer timer in
      let! n := rd_timer le in
      if expires t <? expires n then
        do! set_expires le (u32 (expires n - expires t)) in ret (timer :: les)
      else
        do! set_expires timer (u32 (expires t - expires n)) in
        let! r := add_timer_loop timer les' in ret (le :: r)
  end.

Definition add_timer (timer : Z) : M kst unit :=
  let! t := rd_timer timer in
  do! assert_ (0 <? expires t) in
  let! s := get in
  do! assert_ (negb (mem_list timer (timer_list s))) in
  let! l := add_timer_loop timer (timer_list s) in
  modify (set_timer_list l).

(** The element after [x]. *)
Fixpoint list_next_of (x : Z) (l : list Z) : option Z :=
  match l with
  | [] => None
  | y :: l => if y =? x then head l else list_next_of x l
  end.

Definition del_timer (timer : Z) : M kst unit :=
  let! s := get in
  if mem_list timer (timer_list s) then
    let! t := rd_timer timer in
    do! (if negb (expires t =? 0) then
           match list_next_of timer (timer_list s) with
           | Some next => let! n := rd_timer next in set_expires next (u32 (expires n + expires t))
           | None => ret tt
           end
         else ret tt) in
    modify (fun s => set_timer_list (ldel timer (timer_list s)) s)
  else ret tt.

(** [while (timer->expires == 0) { ... }] on the list from [timer] on. *)
Fixpoint run_timers (les : list Z) : M kst unit :=
  match les with
  | [] => ret tt
  | timer :: les =>
      let! t := rd_timer timer in
      if expires t =? 0 then
        let! g := rd_proc (t_proc t) in
        do! (if negb (wait_state g =? 0)
             then assert_ (negb (Z.land (wait_state g) WT_INTERRUPTED =? 0)) else ret tt) in
        do! wakeup_proc (t_proc t) in
        do! del_timer timer in
        run_timers les
      else ret tt
  end.

Definition run_timer_list : M kst unit :=
  let! s := get in
  do! match timer_list s with
      | [] => ret tt
      | timer :: _ =>
          let! t := rd_timer timer in
          do! assert_ (negb (expires t =? 0)) in
          do! set_expires timer (expires t - 1) in
          run_timers (timer_list s)
      end in
  let! s := get in
  sched_class_proc_tick (current s).
End Core.
