(* ===== verification/SchedThm.v ===== *)
(** * Theorems on the scheduler

    [SchedOk] is what the core scheduler relies on in a scheduling class; the
    theorems on [wakeup_proc] and [schedule] are proved for any such class,
    round robin provides it, and the order in which round robin serves the
    processes is a theorem of its own. *)

From stdpp Require Import base gmap list.
From Stdlib Require Import ZArith Lia Bool.
From S2P Require Import Prelude.
From S2P Require Import Dlist.
From S2P Require Import PageTable.
From S2P Require Import PageTableOps.
From S2P Require Import KState.
From S2P Require Import Sched.

(** ** What a scheduling class may change *)

(** [g'] is [g] up to the fields the scheduler owns. *)
Definition psim (g g' : proc_struct) : Prop :=
  g' = set_time_slice (time_slice g') (set_need_resched (need_resched g') g).

#[export] Instance psim_refl : Reflexive psim.
Proof. intros []. done. Qed.
#[export] Instance psim_trans : Transitive psim.
Proof. intros g1 g2 g3 H1 H2. unfold psim in *. rewrite H2, H1. done. Qed.

Definition procs_sim (m m' : gmap Z proc_struct) : Prop := forall x, option_relation psim (fun _ => False) (fun _ => False) (m !! x) (m' !! x).

Lemma procs_sim_some m m' x g : procs_sim m m' -> m !! x = Some g -> exists g', m' !! x = Some g' /\ psim g g'.
Proof. intros H Hx. specialize (H x). rewrite Hx in H. destruct (m' !! x) as [g'|]; [by exists g'|done]. Qed.
Lemma procs_sim_back m m' x g' : procs_sim m m' -> m' !! x = Some g' -> exists g, m !! x = Some g /\ psim g g'.
Proof. intros H Hx. specialize (H x). rewrite Hx in H. destruct (m !! x) as [g|]; [by exists g|done]. Qed.

#[export] Instance procs_sim_refl : Reflexive procs_sim.
Proof. intros m x. destruct (m !! x); cbn; [reflexivity|done]. Qed.
#[export] Instance procs_sim_trans : Transitive procs_sim.
Proof.
  intros m1 m2 m3 H1 H2 x. specialize (H1 x). specialize (H2 x).
  destruct (m1 !! x), (m2 !! x), (m3 !! x); cbn in *; try done. by etrans.
Qed.

Lemma procs_sim_insert m p g g' : m !! p = Some g -> psim g g' -> procs_sim m (<[p := g']> m).
Proof.
  intros Hp Hs x. destruct (decide (x = p)) as [->|]; [by rewrite lookup_insert_eq, Hp|].
  rewrite lookup_insert_ne by done. apply procs_sim_refl.
Qed.

(** Only the run queue and the scheduler's fields differ. *)
Definition sched_frame (s s' : kst) : Prop :=
  s' = set_procs (procs s') (set_rq (rq s') s) /\ procs_sim (procs s) (procs s').

Lemma frame_refl s : sched_frame s s.
Proof. split; [by destruct s|reflexivity]. Qed.
Lemma frame_trans s1 s2 s3 : sched_frame s1 s2 -> sched_frame s2 s3 -> sched_frame s1 s3.
Proof. intros [H1 H2] [H3 H4]. split; [rewrite H3, H1; done|by etrans]. Qed.
Lemma frame_proc s p g f :
  procs s !! p = Some g -> psim g (f g) -> sched_frame s (set_procs (<[p := f g]> (procs s)) s).
Proof. intros Hp Hs. split; [by destruct s|]. by eapply procs_sim_insert. Qed.

Class SchedOk (sc : sched_class) := {
  sc_queue : run_queue -> list Z;   (* the processes waiting for the CPU *)
  sc_enqueue_ok s p g : NoDup (sc_queue (rq s)) -> p ∉ sc_queue (rq s) -> procs s !! p = Some g ->
    runs (sc_enqueue sc p) s (fun _ s' => sched_frame s s' /\ sc_queue (rq s') ≡ₚ p :: sc_queue (rq s));
  sc_dequeue_ok s p : NoDup (sc_queue (rq s)) -> p ∈ sc_queue (rq s) ->
    runs (sc_dequeue sc p) s (fun _ s' => sched_frame s s' /\ sc_queue (rq s) ≡ₚ p :: sc_queue (rq s'));
  sc_pick_ok s : runs (sc_pick_next sc) s (fun r s' => s' = s /\
    match r with Some n => n ∈ sc_queue (rq s) | None => sc_queue (rq s) = [] end);
  sc_tick_ok s p g : procs s !! p = Some g ->
    runs (sc_proc_tick sc p) s (fun _ s' => sched_frame s s' /\ sc_queue (rq s') = sc_queue (rq s))
}.

(** ** Round robin provides it *)

Lemma RR_enqueue_runs s p g :
  p ∉ run_list (rq s) -> procs s !! p = Some g ->
  runs (RR_enqueue p) s (fun _ s' => sched_frame s s' /\ run_list (rq s') = run_list (rq s) ++ [p] /\
    max_time_slice (rq s') = max_time_slice (rq s) /\
    exists g', procs s' !! p = Some g' /\
      time_slice g' = if (time_slice g =? 0) || (max_time_slice (rq s) <? time_slice g)
                      then max_time_slice (rq s) else time_slice g).
Proof.
  intros Hp Hg. unfold RR_enqueue. runs_steps. apply runs_assert; [by rewrite (proj2 (mem_list_false _ _) Hp)|].
  runs_steps. eapply rd_proc_runs; [done|]. runs_steps.
  destruct ((time_slice g =? 0) || (max_time_slice (rq s) <? time_slice g)).
  - eapply upd_proc_runs; [done|]. runs_steps. split; [|split; [done|split; [done|]]].
    + split; [done|]. cbn. eapply procs_sim_insert; [done|]. by destruct g.
    + eexists. cbn. rewrite lookup_insert_eq. done.
  - runs_steps. split; [|split; [done|split; [done|by exists g]]]. split; [by destruct s|]. cbn. reflexivity.
Qed.

Lemma RR_dequeue_runs s p :
  p ∈ run_list (rq s) ->
  runs (RR_dequeue p) s (fun _ s' => sched_frame s s' /\ run_list (rq s') = ldel p (run_list (rq s)) /\
    max_time_slice (rq s') = max_time_slice (rq s) /\ procs s' = procs s).
Proof.
  intros Hp. unfold RR_dequeue. runs_steps. apply runs_assert; [by apply mem_list_true|]. runs_steps.
  split; [|done]. split; [by destruct s|reflexivity].
Qed.

Lemma ldel_perm x l : NoDup l -> x ∈ l -> l ≡ₚ x :: ldel x l.
Proof.
  intros Hnd (l1&l2&->)%list_elem_of_split. rewrite ldel_middle by done. by rewrite Permutation_middle.
Qed.

Lemma RR_tick_runs s p g :
  procs s !! p = Some g ->
  runs (RR_proc_tick p) s (fun _ s' => sched_frame s s' /\ rq s' = rq s /\
    exists g', procs s' !! p = Some g' /\ time_slice g' = Z.max 0 (time_slice g - 1) + Z.min 0 (time_slice g) /\
      need_resched g' = (need_resched g || (time_slice g' =? 0))).
Proof.
  intros Hp. unfold RR_proc_tick. runs_steps. eapply rd_proc_runs; [done|].
  assert (Hend : forall s1 g1, sched_frame s s1 -> rq s1 = rq s -> procs s1 !! p = Some g1 ->
    time_slice g1 = Z.max 0 (time_slice g - 1) + Z.min 0 (time_slice g) -> need_resched g1 = need_resched g ->
    runs (let! g := rd_proc p in if time_slice g =? 0 then upd_proc p (set_need_resched true) else ret tt) s1
      (fun _ s' => sched_frame s s' /\ rq s' = rq s /\
        exists g', procs s' !! p = Some g' /\ time_slice g' = Z.max 0 (time_slice g - 1) + Z.min 0 (time_slice g) /\
          need_resched g' = (need_resched g || (time_slice g' =? 0)))).
  { intros s1 g1 Hf Hq Hp1 Ht Hn. runs_steps. eapply rd_proc_runs; [done|].
    destruct (Z.eqb_spec (time_slice g1) 0) as [Hz|Hz].
    - eapply upd_proc_runs; [done|]. split; [|split; [done|]].
      + eapply frame_trans; [done|]. eapply frame_proc; [done|]. by destruct g1.
      + eexists. cbn. rewrite lookup_insert_eq. split; [done|]. cbn. rewrite Hz in *. by rewrite orb_true_r.
    - runs_steps. split; [done|]. split; [done|]. exists g1. split_and!; try done.
      rewrite (proj2 (Z.eqb_neq _ _)) by done. by rewrite orb_false_r. }
  runs_steps. destruct (Z.ltb_spec 0 (time_slice g)).
  - eapply upd_proc_runs; [done|]. apply (Hend _ (set_time_slice (time_slice g - 1) g)); cbn; try done; [|apply lookup_insert_eq|lia].
    eapply frame_proc; [done|]. by destruct g.
  - apply runs_ret. eapply Hend; try done; [apply frame_refl|lia].
Qed.

#[export] Instance RR_ok : SchedOk default_sched_class.
Proof.
  refine {| sc_queue := run_list |}; cbn.
  - intros s p g _ Hp Hg. eapply runs_mono; [by eapply RR_enqueue_runs|]. cbn beta. intros _ s' (?&->&_). split; [done|].
    by rewrite Permutation_app_comm.
  - intros s p Hnd Hp. eapply runs_mono; [by apply RR_dequeue_runs|]. cbn beta. intros _ s' (?&->&_). split; [done|].
    by apply ldel_perm.
  - intros s. unfold RR_pick_next. runs_steps. split; [done|]. destruct (run_list (rq s)); cbn; [done|left].
  - intros s p g Hp. eapply runs_mono; [by eapply RR_tick_runs|]. cbn beta. intros _ s' (?&->&_). done.
Defined.

(** ** The core scheduler *)

(** What of a process no scheduling decision changes. *)
Definition score (g : proc_struct) : proc_struct := set_time_slice 0 (set_need_resched false (set_runs 0 g)).
Definition same_procs (m m' : gmap Z proc_struct) : Prop := score <$> m = score <$> m'.

Lemma psim_score g g' : psim g g' -> score g' = score g.
Proof. intros ->. done. Qed.

Lemma procs_sim_same m m' : procs_sim m m' -> same_procs m m'.
Proof.
  intros H. apply map_eq. intros x. rewrite !lookup_fmap. specialize (H x).
  destruct (m !! x), (m' !! x); cbn in *; try done. by rewrite (psim_score _ _ H).
Qed.

Lemma same_procs_insert m p g g' : m !! p = Some g -> score g' = score g -> same_procs m (<[p := g']> m).
Proof.
  intros Hp Hs. apply map_eq. intros x. rewrite !lookup_fmap, lookup_insert.
  case_decide; [subst; rewrite Hp; exact (f_equal Some (eq_sym Hs))|done].
Qed.

Lemma same_procs_some m m' x g :
  same_procs m m' -> m !! x = Some g -> exists g', m' !! x = Some g' /\ score g' = score g.
Proof.
  intros H Hx. apply (f_equal (fun m => m !! x)) in H. rewrite !lookup_fmap, Hx in H.
  destruct (m' !! x) as [g'|]; [|done]. exists g'. split; [done|]. by apply (inj Some) in H.
Qed.

Lemma score_state g g' : score g' = score g -> state g' = state g /\ wait_state g' = wait_state g /\ cr3 g' = cr3 g.
Proof.
  intros H. split_and!; [apply (f_equal state) in H|apply (f_equal wait_state) in H|apply (f_equal cr3) in H]; done.
Qed.

Section CoreThm.
Context {sc : sched_class} `{!SchedOk sc}.
Implicit Types (s : kst).
Abbreviation q s := (sc_queue (rq s)).

(** The queue holds exactly the runnable processes that are not running;
    the idle process is runnable and never queued. *)
Record SInv s : Prop := {
  si_nodup : NoDup (q s);
  si_queued : forall p, p ∈ q s -> p <> idleproc s /\ p <> current s /\
                exists g, procs s !! p = Some g /\ state g = PROC_RUNNABLE;
  si_all : forall p g, procs s !! p = Some g -> state g = PROC_RUNNABLE ->
                p = current s \/ p = idleproc s \/ p ∈ q s;
  si_current : is_Some (procs s !! current s);
  si_idle : exists g, procs s !! idleproc s = Some g /\ state g = PROC_RUNNABLE
}.

Lemma same_procs_sym (m m' : gmap Z proc_struct) : same_procs m m' -> same_procs m' m.
Proof. unfold same_procs. congruence. Qed.

(** Changing the queue and the scheduler's fields only. *)
Lemma SInv_change s s' :
  SInv s -> same_procs (procs s) (procs s') -> idleproc s' = idleproc s -> is_Some (procs s !! current s') ->
  NoDup (q s') -> (forall p, p ∈ q s' -> p <> current s' /\ p <> idleproc s /\
     exists g, procs s !! p = Some g /\ state g = PROC_RUNNABLE) ->
  (forall p g, procs s !! p = Some g -> state g = PROC_RUNNABLE -> p = current s' \/ p = idleproc s \/ p ∈ q s') ->
  SInv s'.
Proof.
  intros HI Hsame Hid [gc Hc] Hnd Hq Hall. split; rewrite ?Hid; try done.
  - intros p Hp. destruct (Hq p Hp) as (?&?&g&Hg&Hst). split_and!; try done.
    destruct (same_procs_some _ _ _ _ Hsame Hg) as (g'&Hg'&Hs). exists g'. split; [done|].
    destruct (score_state _ _ Hs) as (->&_). done.
  - intros p g' Hg' Hst'. destruct (same_procs_some _ _ _ _ (same_procs_sym _ _ Hsame) Hg') as (g&Hg&Hs).
    eapply Hall; [done|]. destruct (score_state _ _ Hs) as (->&_). done.
  - destruct (same_procs_some _ _ _ _ Hsame Hc) as (g'&?&_). by eexists.
  - destruct (si_idle s HI) as (g&Hg&Hst). destruct (same_procs_some _ _ _ _ Hsame Hg) as (g'&?&Hs). exists g'. split; [done|].
    destruct (score_state _ _ Hs) as (->&_). done.
Qed.

(** [wakeup_proc]: only the state of the process woken changes. *)
Definition awake (g : proc_struct) : proc_struct := set_wait_state 0 (set_state PROC_RUNNABLE g).

Lemma enqueue_runs s p g :
  NoDup (q s) -> p ∉ q s -> procs s !! p = Some g ->
  runs (sched_class_enqueue sc p) s (fun _ s' => sched_frame s s' /\
    if decide (p = idleproc s) then q s' = q s else q s' ≡ₚ p :: q s).
Proof.
  intros Hnd Hp Hg. unfold sched_class_enqueue. runs_steps. destruct (Z.eqb_spec p (idleproc s)) as [->|Hne]; cbn [negb].
  - runs_steps. split; [apply frame_refl|]. by rewrite decide_True.
  - eapply runs_mono; [by eapply sc_enqueue_ok|]. cbn beta. intros _ s' [? ?]. rewrite decide_False by done. done.
Qed.

Lemma wakeup_runs s p g :
  SInv s -> procs s !! p = Some g -> state g <> PROC_ZOMBIE ->
  runs (wakeup_proc sc p) s (fun _ s' => SInv s' /\ s' = set_procs (procs s') (set_rq (rq s') s) /\
    same_procs (procs s') (if decide (state g = PROC_RUNNABLE) then procs s else <[p := awake g]> (procs s))).
Proof.
  intros HI Hp Hz. unfold wakeup_proc. runs_steps. eapply rd_proc_runs; [done|]. runs_steps.
  apply runs_assert; [by apply bool_decide_eq_true|]. destruct (decide (state g <> PROC_RUNNABLE)) as [Hnr|Hr].
  2:{ runs_steps. split; [done|]. split; [by destruct s|]. rewrite decide_True; [done|]. by destruct (decide (state g = PROC_RUNNABLE)). }
  rewrite decide_False by done. runs_steps. eapply upd_proc_runs; [done|]. runs_steps.
  eapply upd_proc_runs; [cbn; by rewrite lookup_insert_eq|]. runs_steps. cbn [procs set_procs current].
  rewrite insert_insert_eq. set (s1 := set_procs (<[p := awake g]> (procs s)) s).
  change (set_procs (<[p:=set_wait_state 0 (set_state PROC_RUNNABLE g)]> (procs s)) (set_procs _ s)) with s1.
  assert (Hpid : p <> idleproc s) by (intros ->; destruct (si_idle s HI) as (?&?&?); congruence).
  assert (Hpq : p ∉ q s) by (intros Hq; destruct (si_queued s HI p Hq) as (_&_&?&?&?); congruence).
  assert (Hlook : forall x, procs s1 !! x = if decide (p = x) then Some (awake g) else procs s !! x)
    by (intros x; cbn; by rewrite lookup_insert).
  assert (Hold : forall x, x ∈ q s -> x <> idleproc s /\ x <> current s /\ exists gx, procs s1 !! x = Some gx /\ state gx = PROC_RUNNABLE).
  { intros x Hx. destruct (si_queued s HI x Hx) as (?&?&gx&?&?). split; [done|]. split; [done|]. exists gx.
    split; [|done]. rewrite Hlook, decide_False by congruence. done. }
  assert (Hcur : is_Some (procs s1 !! current s)).
  { rewrite Hlook. case_decide; [by eexists|]. apply HI. }
  assert (Hidle : exists gi, procs s1 !! idleproc s = Some gi /\ state gi = PROC_RUNNABLE).
  { destruct (si_idle s HI) as (gi&?&?). exists gi. by rewrite Hlook, decide_False. }
  assert (Hall : forall x gx, procs s1 !! x = Some gx -> state gx = PROC_RUNNABLE -> x = p \/ x = current s \/ x = idleproc s \/ x ∈ q s).
  { intros x gx. rewrite Hlook. case_decide; [by left|]. intros. right. by eapply (si_all s HI). }
  destruct (Z.eqb_spec p (current s)) as [Hpc|Hpc]; cbn [negb].
  - runs_steps. split; [|split; [by destruct s|done]]. split; cbn; try done; [apply HI|].
    intros x gx Hx Hst. destruct (Hall x gx Hx Hst) as [->|]; [by left|done].
  - eapply runs_mono; [apply (enqueue_runs s1 p (awake g)); [apply HI|done|cbn; apply lookup_insert_eq]|]. cbn beta.
    intros _ s' [[He Hsim] Hq]. rewrite decide_False in Hq by done. pose proof (procs_sim_same _ _ Hsim) as Hsame.
    change (q s1) with (q s) in Hq. split; [|split; [rewrite He; by destruct s|]].
    2:{ apply same_procs_sym. exact Hsame. }
    assert (Hcs : current s' = current s) by (rewrite He; done). assert (Hids : idleproc s' = idleproc s) by (rewrite He; done).
    assert (Hget : forall x gx, procs s1 !! x = Some gx -> exists g', procs s' !! x = Some g' /\ state g' = state gx).
    { intros x gx Hx. destruct (same_procs_some _ _ _ _ Hsame Hx) as (g'&?&Hs). exists g'. split; [done|]. by apply score_state. }
    split; rewrite ?Hcs, ?Hids.
    + rewrite Hq. constructor; [done|apply HI].
    + intros x Hx. rewrite Hq in Hx. apply elem_of_cons in Hx as [->|Hx].
      * split; [done|]. split; [done|]. destruct (Hget p (awake g)) as (g'&?&?); [cbn; apply lookup_insert_eq|]. by exists g'.
      * destruct (Hold x Hx) as (?&?&gx&Hgx&Hst). split; [done|]. split; [done|]. destruct (Hget x gx Hgx) as (g'&?&He'). exists g'. by rewrite He'.
    + intros x g' Hx Hst. destruct (same_procs_some _ _ _ _ (same_procs_sym _ _ Hsame) Hx) as (gx&Hgx&Hs).
      destruct (score_state _ _ Hs) as (Hse&_). rewrite Hq, elem_of_cons.
      destruct (Hall x gx Hgx) as [->|[?|[?|?]]]; [congruence|tauto..].
    + destruct Hcur as [gc Hgc]. destruct (Hget _ _ Hgc) as (g'&?&_). by eexists.
    + destruct Hidle as (gi&Hgi&Hst). destruct (Hget _ _ Hgi) as (g'&?&He'). exists g'. by rewrite He'.
Qed.

(** The timers, wait queues, semaphores, process lists and physical memory. *)
Definition sync_same s s' : Prop :=
  timers s' = timers s /\ timer_list s' = timer_list s /\ waits s' = waits s /\ queues s' = queues s /\ sems s' = sems s /\
  proc_list s' = proc_list s /\ hash_list s' = hash_list s /\ initproc s' = initproc s /\ nr_process s' = nr_process s /\
  (vpm (kvm s'), mem (kvm s'), status (kvm s')) = (vpm (kvm s), mem (kvm s), status (kvm s)).

(** [proc_run] and the page directory. *)
Definition on_cpu s (p : Z) : Prop :=
  current s = p /\ (exists g, procs s !! p = Some g /\ current_pgdir (kvm s) = cr3 g) /\ tlb_flushed (kvm s).

Lemma proc_run_runs s p g :
  procs s !! p = Some g -> p <> current s ->
  runs (proc_run p) s (fun _ s' => on_cpu s' p /\ procs s' = procs s /\ rq s' = rq s /\ idleproc s' = idleproc s /\ sync_same s s').
Proof.
  intros Hg Hp. unfold proc_run. runs_steps. rewrite (proj2 (Z.eqb_neq _ _)) by done. cbn [negb]. runs_steps.
  eapply rd_proc_runs; [done|]. runs_steps. unfold on_kvm, lcr3. runs_steps.
  eapply runs_mono; [apply tlb_invalidate_all_runs|]. cbn beta. intros _ v (T&->&Hf). split; [|done].
  split; [done|]. split; [|done]. exists g. done.
Qed.

(** After [schedule]: who runs, and that nobody is lost. *)
Definition scheduled s s' : Prop :=
  sync_same s s' /\ SInv s' /\ same_procs (procs s) (procs s') /\
  (exists g, procs s' !! current s' = Some g /\ state g = PROC_RUNNABLE) /\
  (current s' = idleproc s -> forall p g, procs s !! p = Some g -> state g = PROC_RUNNABLE -> p = idleproc s) /\
  (current s' <> current s -> on_cpu s' (current s')).

(** The tail of [schedule], once the next process is chosen and off the queue. *)
Lemma dispatch_runs s s2 n gn :
  SInv s -> s2 = set_procs (procs s2) (set_rq (rq s2) s) -> same_procs (procs s) (procs s2) ->
  procs s2 !! n = Some gn -> state gn = PROC_RUNNABLE -> NoDup (q s2) -> n ∉ q s2 ->
  (forall x, x ∈ q s2 -> x <> idleproc s /\ exists g, procs s !! x = Some g /\ state g = PROC_RUNNABLE) ->
  (forall x g, procs s !! x = Some g -> state g = PROC_RUNNABLE -> x = n \/ x = idleproc s \/ x ∈ q s2) ->
  (n = idleproc s -> q s2 = []) ->
  runs (do! (let! g := rd_proc n in upd_proc n (set_runs (p_runs g + 1))) in
        if negb (n =? current s) then proc_run n else ret tt) s2 (fun _ s' => scheduled s s').
Proof.
  intros HI He2 Hsame Hn Hst Hnd Hnq Hq Hall Hidle. runs_steps. eapply rd_proc_runs; [done|]. eapply upd_proc_runs; [done|].
  set (g' := set_runs (p_runs gn + 1) gn). set (s3 := set_procs (<[n := g']> (procs s2)) s2).
  assert (Hs3 : same_procs (procs s) (procs s3)).
  { unfold same_procs in *. rewrite Hsame. by apply same_procs_insert with gn. }
  assert (Hn3 : procs s3 !! n = Some g') by (cbn; apply lookup_insert_eq).
  assert (Hid : idleproc s2 = idleproc s) by (rewrite He2; done). assert (Hc2 : current s2 = current s) by (rewrite He2; done).
  assert (Hfin : forall s', procs s' = procs s3 -> rq s' = rq s2 -> idleproc s' = idleproc s -> current s' = n -> sync_same s s' ->
    (n <> current s -> on_cpu s' n) -> scheduled s s').
  { intros s' Hp' Hq' Hi' Hc' Hsy Hon. unfold scheduled. rewrite Hc'. split; [done|]. split; [|split; [by rewrite Hp'|split; [|split; [|done]]]].
    - apply (SInv_change s s'); try done; rewrite ?Hq', ?Hc'; try done.
      + by rewrite Hp'.
      + destruct (same_procs_some _ _ _ _ (same_procs_sym _ _ Hsame) Hn) as (g0&?&_). by eexists.
      + intros x Hx. destruct (Hq x Hx). split; [by intros ->|done].
    - rewrite Hp'. by exists g'.
    - intros Hni x g Hx Hsx. destruct (Hall x g Hx Hsx) as [->|[?|Hx']]; [done..|]. rewrite (Hidle Hni) in Hx'. by apply elem_of_nil in Hx'. }
  destruct (Z.eqb_spec n (current s)) as [Hnc|Hnc]; cbn [negb].
  - runs_steps. apply Hfin; try done; [by rewrite Hnc|]. unfold s3. rewrite He2. done.
  - eapply runs_mono; [apply (proc_run_runs s3 n g' Hn3); cbn; by rewrite Hc2|]. cbn beta.
    intros _ s' (Hon&Hp'&Hq'&Hi'&Hsy). apply Hfin; try done; [by rewrite Hi'|apply Hon|].
    unfold sync_same in *. unfold s3 in Hsy. rewrite He2 in Hsy. done.
Qed.

Lemma schedule_runs s : SInv s -> runs (schedule sc) s (fun _ s' => scheduled s s').
Proof.
  intros HI. destruct (si_current s HI) as [gc Hgc]. unfold schedule. runs_steps. eapply upd_proc_runs; [done|]. runs_steps.
  set (gc1 := set_need_resched false gc). set (s1 := set_procs (<[current s := gc1]> (procs s)) s).
  assert (Hgc1 : procs s1 !! current s = Some gc1) by (cbn; apply lookup_insert_eq).
  eapply rd_proc_runs; [done|]. runs_steps.
  assert (Hs1 : same_procs (procs s) (procs s1)) by (by apply same_procs_insert with gc).
  assert (Hcq : current s ∉ q s) by (intros Hq; by destruct (si_queued s HI _ Hq) as (_&?&_)).
  assert (Hst1 : state gc1 = state gc) by done.
  (* the queue after the running process is put back *)
  assert (Henq : runs (if decide (state gc1 = PROC_RUNNABLE) then sched_class_enqueue sc (current s) else ret tt) s1
    (fun _ s2 => sched_frame s1 s2 /\ NoDup (q s2) /\ (idleproc s ∉ q s2) /\
      (forall x, x ∈ q s2 -> exists g, procs s !! x = Some g /\ state g = PROC_RUNNABLE) /\
      (forall x g, procs s !! x = Some g -> state g = PROC_RUNNABLE -> x = idleproc s \/ x ∈ q s2))).
  { assert (Hid : idleproc s ∉ q s) by (intros Hq; by destruct (si_queued s HI _ Hq) as (?&_)).
    assert (Hrun : forall x, x ∈ q s -> exists g, procs s !! x = Some g /\ state g = PROC_RUNNABLE)
      by (intros x Hx; by destruct (si_queued s HI x Hx) as (_&_&?)).
    case_decide as Hr.
    - eapply runs_mono; [apply (enqueue_runs s1 (current s) gc1); [apply HI|done|done]|]. cbn beta. intros _ s2 [Hf Hq2].
      split; [done|]. change (idleproc s1) with (idleproc s) in Hq2. change (q s1) with (q s) in Hq2. case_decide as Hci.
      + rewrite Hq2. split_and!; try done; [apply HI|]. intros x g Hx Hsx. destruct (si_all s HI x g Hx Hsx) as [->|?]; [by left|done].
      + split; [rewrite Hq2; constructor; [done|apply HI]|]. split; [rewrite Hq2, elem_of_cons; intros [?|?]; congruence|]. split.
        * intros x. rewrite Hq2, elem_of_cons. intros [->|Hx]; [by exists gc|auto].
        * intros x g Hx Hsx. rewrite Hq2, elem_of_cons. destruct (si_all s HI x g Hx Hsx) as [?|[?|?]]; tauto.
    - runs_steps. split; [apply frame_refl|]. split_and!; try done; [apply HI|]. intros x g Hx Hsx.
      destruct (si_all s HI x g Hx Hsx) as [->|?]; [congruence|done]. }
  eapply runs_mono; [exact Henq|]. cbn beta. clear Henq. intros _ s2 ([He2 Hsim2]&Hnd2&Hid2&Hrun2&Hall2). runs_steps.
  pose proof (procs_sim_same _ _ Hsim2) as Hsame2. assert (Hs2 : same_procs (procs s) (procs s2)) by (unfold same_procs in *; congruence).
  unfold sched_class_pick_next. eapply runs_mono; [apply sc_pick_ok|]. cbn beta. intros r s2' [-> Hr]. apply runs_bind.
  destruct r as [n|].
  - unfold sched_class_dequeue. eapply runs_mono; [by apply sc_dequeue_ok|]. cbn beta. intros _ s3 [[He3 Hsim3] Hq3]. cbn [default].
    pose proof (procs_sim_same _ _ Hsim3) as Hsame3. destruct (Hrun2 n Hr) as (g0&Hg0&Hst0).
    assert (Hs3 : same_procs (procs s) (procs s3)) by (unfold same_procs in *; congruence).
    destruct (same_procs_some _ _ _ _ Hs3 Hg0) as (gn&Hgn&Hsc). rewrite Hq3 in Hnd2. apply NoDup_cons in Hnd2 as [Hnn Hnd3].
    assert (Hin : forall x, x ∈ q s2 <-> x = n \/ x ∈ q s3) by (intros x; by rewrite Hq3, elem_of_cons).
    apply (dispatch_runs s s3 n gn); try done.
    + rewrite He3, He2. done.
    + destruct (score_state _ _ Hsc) as (->&_). done.
    + intros x Hx. split; [intros ->; apply Hid2, Hin; by right|]. apply Hrun2, Hin. by right.
    + intros x g Hx Hsx. destruct (Hall2 x g Hx Hsx) as [?|Hx2]; [tauto|]. apply Hin in Hx2. tauto.
    + intros ->. done.
  - apply runs_ret. cbn [default]. destruct (si_idle s HI) as (gi&Hgi&Hsti).
    destruct (same_procs_some _ _ _ _ Hs2 Hgi) as (gn&Hgn&Hsc).
    apply (dispatch_runs s s2 (idleproc s) gn); try done.
    + destruct (score_state _ _ Hsc) as (->&_). done.
    + intros x Hx. rewrite Hr in Hx. by apply elem_of_nil in Hx.
    + intros x g Hx Hsx. destruct (Hall2 x g Hx Hsx); tauto.
Qed.
End CoreThm.

(** ** The order of round robin *)

(** The queue [schedule] picks from: the running process, if it still wants to
    run, goes to the end. *)
Definition rr_queue (s : kst) : list Z :=
  run_list (rq s) ++
  match procs s !! current s with
  | Some g => if decide (state g = PROC_RUNNABLE /\ current s <> idleproc s) then [current s] else []
  | None => []
  end.

Lemma ldel_head x l : NoDup (x :: l) -> ldel x (x :: l) = l.
Proof. intros Hnd. apply (ldel_middle x [] l). done. Qed.

Lemma RR_schedule_runs s :
  SInv (sc := default_sched_class) s ->
  runs (schedule default_sched_class) s (fun _ s' =>
    current s' = default (idleproc s) (head (rr_queue s)) /\ run_list (rq s') = tail (rr_queue s)).
Proof.
  intros HI. destruct (si_current s HI) as [gc Hgc]. unfold schedule, rr_queue. rewrite Hgc.
  assert (Hcq : current s ∉ run_list (rq s)) by (intros Hq; by destruct (si_queued s HI _ Hq) as (_&?&_)).
  pose proof (si_nodup s HI) as Hnd. cbn [sc_queue RR_ok] in Hnd. pose proof (si_idle s HI) as (gi&Hgi&_).
  runs_steps. eapply upd_proc_runs; [done|]. runs_steps. eapply rd_proc_runs; [cbn; apply lookup_insert_eq|]. runs_steps.
  cbn [state set_need_resched]. set (s1 := set_procs _ s).
  set (Q := run_list (rq s) ++ _).
  assert (Henq : runs (if decide (state gc = PROC_RUNNABLE) then sched_class_enqueue default_sched_class (current s) else ret tt) s1
    (fun _ s2 => run_list (rq s2) = Q /\ NoDup Q /\ current s2 = current s /\
       (forall x, is_Some (procs s !! x) -> is_Some (procs s2 !! x)))).
  { assert (Hs1 : forall x, is_Some (procs s !! x) -> is_Some (procs s1 !! x)).
    { intros x Hx. cbn. rewrite lookup_insert. case_decide; [by eexists|done]. }
    assert (Hend : NoDup (run_list (rq s) ++ [current s])).
    { apply NoDup_app. split; [done|]. split; [|apply NoDup_singleton]. intros x Hx ->%list_elem_of_singleton. done. }
    unfold Q. case_decide as Hr; [unfold sched_class_enqueue; runs_steps|].
    - change (idleproc s1) with (idleproc s). destruct (Z.eqb_spec (current s) (idleproc s)) as [Hi|Hi]; cbn [negb].
      + runs_steps. rewrite decide_False by tauto. rewrite app_nil_r. done.
      + rewrite decide_True by done. eapply runs_mono; [eapply (RR_enqueue_runs s1 (current s)); [done|cbn; apply lookup_insert_eq]|].
        cbn beta. intros _ s2 ([He Hsim]&Hl&_). split; [done|]. split; [done|]. split; [rewrite He; done|].
        intros x Hx. destruct (Hs1 x Hx) as [g Hg]. destruct (procs_sim_some _ _ _ _ Hsim Hg) as (g'&?&_). by eexists.
    - runs_steps. rewrite decide_False by tauto. rewrite app_nil_r. done. }
  eapply runs_mono; [exact Henq|]. cbn beta. intros _ s2 (Hl2&HndQ&Hc2&Hp2). runs_steps.
  unfold sched_class_pick_next. cbn [sc_pick_next default_sched_class]. unfold RR_pick_next. runs_steps. rewrite Hl2.
  assert (Hfin : forall n s3, current s3 = current s -> is_Some (procs s3 !! n) ->
    runs (do! (let! g := rd_proc n in upd_proc n (set_runs (p_runs g + 1))) in
          if negb (n =? current s) then proc_run n else ret tt) s3
      (fun _ s' => current s' = n /\ run_list (rq s') = run_list (rq s3))).
  { intros n s3 Hc3 [g Hg]. runs_steps. eapply rd_proc_runs; [done|]. eapply upd_proc_runs; [done|].
    destruct (Z.eqb_spec n (current s)) as [->|Hne]; cbn [negb]; [by runs_steps|].
    eapply runs_mono; [eapply proc_run_runs; [cbn; apply lookup_insert_eq|by cbn; rewrite Hc3]|]. cbn beta.
    intros _ s' ((->&_)&_&->&_&_). done. }
  assert (HQ : forall x, x ∈ Q -> is_Some (procs s !! x)).
  { intros x [Hx|Hx]%elem_of_app; [by destruct (si_queued s HI x Hx) as (_&_&?&?&_); eexists|].
    case_decide; [|by apply elem_of_nil in Hx]. apply list_elem_of_singleton in Hx as ->. by eexists. }
  destruct Q as [|n Q']; cbn [head default tail].
  - apply runs_ret. eapply runs_mono; [apply Hfin; [done|apply Hp2; by eexists]|]. cbn beta. intros _ s' [-> ->]. done.
  - unfold sched_class_dequeue. cbn [sc_dequeue default_sched_class].
    eapply runs_mono; [apply RR_dequeue_runs; rewrite Hl2; left|]. cbn beta. intros _ s3 ([He3 _]&Hl3&_&Hp3).
    eapply runs_mono; [apply Hfin; [rewrite He3; done|rewrite Hp3; apply Hp2, HQ; left]|]. cbn beta. intros _ s' [-> ->].
    split; [done|]. rewrite Hl3, Hl2. by apply ldel_head.
Qed.

(** [n] calls of [schedule] in a row. *)
Fixpoint schedules (n : nat) : M kst unit :=
  match n with O => ret tt | S n => do! schedule default_sched_class in schedules n end.

Lemma RR_turn_runs l1 : forall s p l2,
  SInv (sc := default_sched_class) s -> run_list (rq s) = l1 ++ p :: l2 ->
  runs (schedules (S (length l1))) s (fun _ s' => current s' = p).
Proof.
  induction l1 as [|x l1 IH]; intros s p l2 HI Hl; cbn [length schedules]; runs_steps.
  - eapply runs_mono; [by apply RR_schedule_runs|]. cbn beta. intros _ s' [Hc _]. runs_steps. rewrite Hc.
    unfold rr_queue. rewrite Hl. done.
  - eapply runs_mono; [apply runs_conj; [by apply RR_schedule_runs|by apply schedule_runs]|]. cbn beta.
    intros _ s' [[_ Hl'] (_&HI'&_)]. unfold rr_queue in Hl'. rewrite Hl in Hl'. cbn in Hl'.
    rewrite <- app_assoc in Hl'. cbn in Hl'. eapply IH; done.
Qed.

(** ** Theorems *)

(** Waking a process makes it runnable exactly once: it joins the run queue
    unless it is running (or already runnable); no other process changes, and
    the queue keeps holding exactly the runnable processes not running. *)
Theorem wakeup_proc_correct {sc} `{!SchedOk sc} s p g :
  SInv (sc := sc) s -> procs s !! p = Some g -> state g <> PROC_ZOMBIE ->
  runs (wakeup_proc sc p) s (fun _ s' => SInv (sc := sc) s' /\
    (exists g', procs s' !! p = Some g' /\ state g' = PROC_RUNNABLE) /\
    (forall x, x <> p -> score <$> procs s' !! x = score <$> procs s !! x)).
Proof.
  intros HI Hp Hz. eapply runs_mono; [by eapply wakeup_runs|]. cbn beta. intros _ s' (HI'&_&Hsame).
  assert (Hin : forall x, score <$> procs s' !! x =
     score <$> (if decide (state g = PROC_RUNNABLE) then procs s else <[p := awake g]> (procs s)) !! x)
    by (intros x; rewrite <- !lookup_fmap; by rewrite Hsame).
  split; [done|]. split.
  - assert (Hex : exists g1, (if decide (state g = PROC_RUNNABLE) then procs s else <[p := awake g]> (procs s)) !! p = Some g1 /\
      state g1 = PROC_RUNNABLE).
    { case_decide; [by exists g|]. exists (awake g). by rewrite lookup_insert_eq. }
    destruct Hex as (g1&Hg1&Hst). destruct (same_procs_some _ _ _ _ (same_procs_sym _ _ Hsame) Hg1) as (g'&?&Hs).
    exists g'. split; [done|]. destruct (score_state _ _ Hs) as (->&_). done.
  - intros x Hx. rewrite Hin. case_decide; [done|]. by rewrite lookup_insert_ne.
Qed.

(** C25: [schedule], for any scheduling class: the process that runs next is
    runnable; it is the idle process only when no other process is runnable; no
    runnable process is lost; and on a switch the page directory is the new
    process's and the TLB holds nothing of the old one. *)
Theorem schedule_correct {sc} `{!SchedOk sc} s :
  SInv (sc := sc) s ->
  runs (schedule sc) s (fun _ s' =>
    SInv (sc := sc) s' /\ same_procs (procs s) (procs s') /\
    (exists g, procs s' !! current s' = Some g /\ state g = PROC_RUNNABLE) /\
    (current s' = idleproc s -> forall p g, procs s !! p = Some g -> state g = PROC_RUNNABLE -> p = idleproc s) /\
    (current s' <> current s -> on_cpu s' (current s'))).
Proof. intros HI. eapply runs_mono; [by apply schedule_runs|]. cbn beta. by intros _ s' [_ ?]. Qed.

(** C31: Round robin is fair: the process at position [n] of the queue runs after
    exactly [n + 1] calls of [schedule], whatever joins the queue meanwhile. *)
Theorem RR_fair s l1 p l2 :
  SInv (sc := default_sched_class) s -> run_list (rq s) = l1 ++ p :: l2 ->
  runs (schedules (S (length l1))) s (fun _ s' => current s' = p).
Proof. intros HI Hl. by eapply RR_turn_runs. Qed.

(** ** A concrete machine: idle 1, running 2, ready 3 and 4, asleep 5 *)

Definition ex_proc (st : proc_state) (n w : Z) : proc_struct :=
  mkProc st n 0 0 false (Some 1) None (0x80000000 + 4096 * n) 0 0 w None None None 0.
Definition ex_kvm : vm := mkVm (Buddy.mkPmm ∅ 0 ∅ ∅ ∅ 0) (fun _ => 0) 0x80000000 1 ∅ 0.
Definition ex_k : kst :=
  mkK {[1 := ex_proc PROC_RUNNABLE 0 0; 2 := ex_proc PROC_RUNNABLE 1 0; 3 := ex_proc PROC_RUNNABLE 2 0;
        4 := ex_proc PROC_RUNNABLE 3 0; 5 := ex_proc PROC_SLEEPING 4 WT_TIMER]}
      2 1 2 (mkRq [3; 4] 2 20) {[100 := mkTimer 1 5; 101 := mkTimer 7 5]} [100] ∅ ∅ ∅ [2; 3; 4; 5] ∅ 4 8192 4 ex_kvm.

Lemma ex_procs x g : procs ex_k !! x = Some g ->
  (x = 1 /\ g = ex_proc PROC_RUNNABLE 0 0) \/ (x = 2 /\ g = ex_proc PROC_RUNNABLE 1 0) \/
  (x = 3 /\ g = ex_proc PROC_RUNNABLE 2 0) \/ (x = 4 /\ g = ex_proc PROC_RUNNABLE 3 0) \/
  (x = 5 /\ g = ex_proc PROC_SLEEPING 4 WT_TIMER).
Proof.
  cbn. rewrite !lookup_insert, lookup_singleton. repeat case_decide; try (intros [= <-]; naive_solver).
Qed.

Lemma ex_k_inv : SInv (sc := default_sched_class) ex_k.
Proof.
  split.
  - apply (bool_decide_unpack _). vm_compute. exact I.
  - intros p Hp. change (p ∈ [3; 4]) in Hp. rewrite elem_of_cons, list_elem_of_singleton in Hp.
    destruct Hp as [-> | ->]; (split; [done|]; split; [done|]; eexists; split; reflexivity).
  - intros p g Hp Hst. destruct (ex_procs p g Hp) as [[-> ->]|[[-> ->]|[[-> ->]|[[-> ->]|[-> ->]]]]]; cbn; try done.
    + by right; left.
    + by left.
    + right. right. left.
    + right. right. right. left.
  - by eexists.
  - by eexists.
Qed.

Lemma wakeup_proc_correct_witness :
  runs (wakeup_proc default_sched_class 5) ex_k (fun _ s' =>
    exists g', procs s' !! 5 = Some g' /\ state g' = PROC_RUNNABLE).
Proof.
  eapply runs_mono; [apply (wakeup_proc_correct ex_k 5 (ex_proc PROC_SLEEPING 4 WT_TIMER) ex_k_inv)|].
  - reflexivity.
  - discriminate.
  - cbn beta. intros _ s' (_&H&_). exact H.
Defined.

Lemma schedule_correct_witness :
  runs (schedule default_sched_class) ex_k (fun _ s' =>
    SInv (sc := default_sched_class) s' /\ exists g, procs s' !! current s' = Some g /\ state g = PROC_RUNNABLE).
Proof.
  eapply runs_mono; [apply (schedule_correct ex_k ex_k_inv)|]. cbn beta. intros _ s' (H1&_&H2&_). split; [exact H1|exact H2].
Defined.

Lemma RR_fair_witness : runs (schedules 2) ex_k (fun _ s' => current s' = 4).
Proof. apply (RR_fair ex_k [3] 4 [] ex_k_inv). reflexivity. Defined.
