(* ===== verification/TimerThm.v ===== *)
(** * Theorems on the timer list

    The list keeps each timer's expiry relative to the one before it.  It
    refines a list of absolute deadlines, sorted, first come first served:
    [add_timer] inserts, [del_timer] removes, a tick brings every deadline one
    step closer and wakes the processes whose deadline is reached. *)

From stdpp Require Import base gmap list.
From Stdlib Require Import ZArith Lia Bool.
From S2P Require Import Prelude.
From S2P Require Import Dlist.
From S2P Require Import KState.
From S2P Require Import Sched.
From S2P Require Import SchedThm.

(** ** Deadlines *)

(** The differences in [tm] from [acc] on are those of the deadlines [D]. *)
Fixpoint trep (tm : gmap Z timer_t) (acc : Z) (D : list (Z * Z)) : Prop :=
  match D with
  | [] => True
  | (t, d) :: D => acc <= d < W32 /\ (exists p, tm !! t = Some (mkTimer (d - acc) p)) /\ trep tm d D
  end.

Definition TRep0 (s : kst) (D : list (Z * Z)) : Prop :=
  timer_list s = D.*1 /\ NoDup D.*1 /\ trep (timers s) 0 D.
(** Between operations no deadline has passed. *)
Definition TRep (s : kst) (D : list (Z * Z)) : Prop := TRep0 s D /\ forall t d, (t, d) ∈ D -> 0 < d.

(** Insertion after the deadlines that are not later. *)
Fixpoint ins (t T : Z) (D : list (Z * Z)) : list (Z * Z) :=
  match D with
  | [] => [(t, T)]
  | (u, d) :: D' => if T <? d then (t, T) :: D else (u, d) :: ins t T D'
  end.

Fixpoint lastd (acc : Z) (D : list (Z * Z)) : Z :=
  match D with [] => acc | (_, d) :: D => lastd d D end.

Lemma trep_app tm acc D1 D2 : trep tm acc (D1 ++ D2) <-> trep tm acc D1 /\ trep tm (lastd acc D1) D2.
Proof. revert acc. induction D1 as [|[t d] D1 IH]; intros acc; cbn; [tauto|]. rewrite IH. tauto. Qed.

Lemma trep_frame tm tm' D : forall acc, (forall t, t ∈ D.*1 -> tm' !! t = tm !! t) -> trep tm acc D -> trep tm' acc D.
Proof.
  induction D as [|[t d] D IH]; intros acc Hf; [done|]. intros (?&?&?). cbn. split; [done|].
  rewrite Hf by (cbn; left). split; [done|]. apply IH; [|done]. intros u Hu. apply Hf. cbn. by right.
Qed.

Lemma trep_bound tm D : forall acc t d, trep tm acc D -> (t, d) ∈ D -> acc <= d.
Proof.
  induction D as [|[u e] D IH]; intros acc t d HD Hin; [by apply elem_of_nil in Hin|]. destruct HD as (?&_&HD).
  apply elem_of_cons in Hin as [[= -> ->]|Hin]; [lia|]. specialize (IH e t d HD Hin). lia.
Qed.

Lemma lastd_ge tm D acc : trep tm acc D -> acc <= lastd acc D.
Proof. revert acc. induction D as [|[t d] D IH]; intros acc; cbn; [lia|]. intros (?&_&?%IH). lia. Qed.

Lemma elem_of_ins t T D u d : (u, d) ∈ ins t T D <-> (u, d) = (t, T) \/ (u, d) ∈ D.
Proof.
  induction D as [|[v e] D IH]; cbn; [by rewrite list_elem_of_singleton, elem_of_nil; tauto|].
  destruct (T <? e); rewrite !elem_of_cons; [tauto|]. rewrite IH. tauto.
Qed.

Lemma ins_fst t T D : (ins t T D).*1 ≡ₚ t :: D.*1.
Proof. induction D as [|[v e] D IH]; cbn; [done|]. destruct (T <? e); cbn; [done|]. rewrite IH. constructor. Qed.

(** ** [add_timer] *)

Lemma add_timer_loop_runs timer T p D : forall acc s,
  trep (timers s) acc D -> timers s !! timer = Some (mkTimer (T - acc) p) ->
  timer ∉ D.*1 -> NoDup D.*1 -> 0 <= acc <= T -> T < W32 ->
  runs (add_timer_loop timer D.*1) s (fun l s' =>
    s' = set_timers (timers s') s /\ l = (ins timer T D).*1 /\ trep (timers s') acc (ins timer T D) /\
    forall x, x ∉ timer :: D.*1 -> timers s' !! x = timers s !! x).
Proof.
  induction D as [|[u d] D IH]; intros acc s HD Ht Hn Hnd Hacc HT; cbn [fmap list_fmap fst add_timer_loop].
  - runs_steps. split; [by destruct s|]. split; [done|]. split; [|done]. cbn. split; [lia|]. by split; [exists p|].
  - destruct HD as (Hd&(pu&Hu)&HD). apply not_elem_of_cons in Hn as [Hne Hn]. apply NoDup_cons in Hnd as [Hun Hnd].
    cbn in Hne, Hun. runs_steps. eapply rd_timer_runs; [done|]. runs_steps. eapply rd_timer_runs; [done|]. cbn [expires ins].
    replace (T - acc <? d - acc) with (T <? d) by (destruct (Z.ltb_spec T d), (Z.ltb_spec (T - acc) (d - acc)); lia).
    destruct (Z.ltb_spec T d) as [Hlt|Hge].
    + runs_steps. eapply set_expires_runs; [done|]. runs_steps. cbn [t_proc]. split; [by destruct s|]. split; [done|].
      rewrite u32_small by (unfold is_u32; lia). cbn. split.
      { split; [lia|]. split; [exists p; by rewrite lookup_insert_ne|].
        split; [lia|]. split; [exists pu; rewrite lookup_insert_eq; do 2 f_equal; lia|].
        eapply trep_frame; [|exact HD]. intros v Hv. rewrite lookup_insert_ne; [done|]. by intros ->. }
      intros x Hx. rewrite !not_elem_of_cons in Hx. rewrite lookup_insert_ne; [done|]. naive_solver.
    + runs_steps. eapply set_expires_runs; [done|]. runs_steps. cbn [t_proc].
      rewrite u32_small by (unfold is_u32; lia). replace (T - acc - (d - acc)) with (T - d) by lia.
      eapply runs_mono; [apply (IH d); cbn; [|apply lookup_insert_eq|done|done|lia|lia]|].
      * eapply trep_frame; [|exact HD]. intros v Hv. rewrite lookup_insert_ne; [done|]. by intros ->.
      * cbn beta. intros l s' (He&->&HD'&Hfr). runs_steps. cbn in Hfr. split; [rewrite He; by destruct s|]. split; [done|]. split.
        { cbn. split; [lia|]. split; [|done]. exists pu. rewrite Hfr by (rewrite not_elem_of_cons; naive_solver).
          rewrite lookup_insert_ne by done. rewrite Hu. done. }
        intros x Hx. rewrite !not_elem_of_cons in Hx. rewrite Hfr by (rewrite not_elem_of_cons; naive_solver).
        rewrite lookup_insert_ne; [done|]. naive_solver.
Qed.

Lemma add_timer_runs s D timer T p :
  TRep s D -> timers s !! timer = Some (mkTimer T p) -> timer ∉ timer_list s -> 0 < T < W32 ->
  runs (add_timer timer) s (fun _ s' =>
    TRep s' (ins timer T D) /\ s' = set_timers (timers s') (set_timer_list (timer_list s') s)).
Proof.
  intros [(Hl&Hnd&HD) Hpos] Ht Hn HT. unfold add_timer. runs_steps. eapply rd_timer_runs; [done|]. runs_steps. cbn [expires].
  apply runs_assert; [apply Z.ltb_lt; lia|]. runs_steps. apply runs_assert; [by rewrite (proj2 (mem_list_false _ _) Hn)|].
  runs_steps. rewrite Hl in *. eapply runs_mono.
  { apply (add_timer_loop_runs timer T p D 0 s); try done; try lia. by rewrite Z.sub_0_r. }
  cbn beta. intros l s' (He&->&HD'&_). runs_steps. split; [|rewrite He; by destruct s].
  split; [split; [done|]; split; [|done]|].
  - cbn. rewrite ins_fst. by constructor.
  - intros t d Hin. apply elem_of_ins in Hin as [[= -> ->]|Hin]; [lia|by eapply Hpos].
Qed.

(** ** [del_timer] *)

Definition dremove (t : Z) (D : list (Z * Z)) : list (Z * Z) := filter (fun x => fst x <> t) D.

Lemma dremove_middle t d D1 D2 : t ∉ D1.*1 -> t ∉ D2.*1 -> dremove t (D1 ++ (t, d) :: D2) = D1 ++ D2.
Proof.
  intros H1 H2. unfold dremove. rewrite filter_app, filter_cons_False by naive_solver.
  assert (Hid : forall D : list (Z * Z), t ∉ D.*1 -> filter (fun x => fst x <> t) D = D).
  { intros D HD. induction D as [|[u e] D IH]; [done|]. cbn in HD. rewrite not_elem_of_cons in HD.
    rewrite filter_cons_True by naive_solver. f_equal. apply IH. naive_solver. }
  by rewrite !Hid.
Qed.

Lemma list_next_of_middle x l1 l2 : x ∉ l1 -> list_next_of x (l1 ++ x :: l2) = head l2.
Proof.
  induction l1 as [|y l1 IH]; cbn; intros Hx; [by rewrite Z.eqb_refl|].
  rewrite not_elem_of_cons in Hx. rewrite (proj2 (Z.eqb_neq _ _)) by naive_solver. apply IH. naive_solver.
Qed.

Lemma del_timer_runs s D timer :
  TRep0 s D ->
  runs (del_timer timer) s (fun _ s' => TRep0 s' (dremove timer D) /\
    s' = set_timers (timers s') (set_timer_list (timer_list s') s) /\
    (forall u, t_proc <$> timers s' !! u = t_proc <$> timers s !! u)).
Proof.
  intros (Hl&Hnd&HD). unfold del_timer. runs_steps. destruct (mem_list timer (timer_list s)) eqn:Hm; cycle 1.
  { apply mem_list_false in Hm. rewrite Hl in Hm. runs_steps.
    assert (Hid : dremove timer D = D).
    { unfold dremove. clear -Hm. induction D as [|[u e] D IH]; [done|]. cbn in Hm. rewrite not_elem_of_cons in Hm.
      rewrite filter_cons_True by naive_solver. f_equal. apply IH. naive_solver. }
    rewrite Hid. split; [done|]. split; [by destruct s|done]. }
  apply mem_list_true in Hm. rewrite Hl in Hm. apply list_elem_of_fmap in Hm as ([t d]&->&Hin). cbn [fst].
  apply list_elem_of_split in Hin as (D1&D2&->). rewrite fmap_app, fmap_cons in *. cbn [fst] in *.
  apply NoDup_app in Hnd as (Hnd1&Hdisj&Hnd2). apply NoDup_cons in Hnd2 as [Ht2 Hnd2].
  assert (Ht1 : t ∉ D1.*1) by (intros Hx; by apply (Hdisj t Hx); left).
  rewrite dremove_middle by done. apply trep_app in HD as [HD1 HD2]. cbn in HD2. destruct HD2 as (Hd&(p&Hp)&HD2).
  set (acc := lastd 0 D1) in *. pose proof (lastd_ge _ _ _ HD1) as Hacc. fold acc in Hacc.
  runs_steps. eapply rd_timer_runs; [done|]. cbn [expires]. runs_steps. rewrite Hl, list_next_of_middle by done.
  assert (Hfin : forall s1, s1 = set_timers (timers s1) s ->
    (forall u, t_proc <$> timers s1 !! u = t_proc <$> timers s !! u) ->
    trep (timers s1) 0 D1 -> trep (timers s1) acc D2 ->
    runs (modify (fun s => set_timer_list (ldel t (timer_list s)) s)) s1 (fun _ s' =>
      TRep0 s' (D1 ++ D2) /\ s' = set_timers (timers s') (set_timer_list (timer_list s') s) /\
      (forall u, t_proc <$> timers s' !! u = t_proc <$> timers s !! u))).
  { intros s1 He Hp1 H1 H2. runs_steps. split; [|split; [rewrite He; by destruct s|done]].
    assert (Hl1 : timer_list s1 = D1.*1 ++ t :: D2.*1) by (rewrite He; done).
    split; [cbn; rewrite Hl1, ldel_middle; [by rewrite fmap_app|]|].
    - apply NoDup_app. split; [done|]. split; [done|]. by constructor.
    - split; [rewrite fmap_app; apply NoDup_app; split; [done|]; split; [|done]; intros x Hx Hx2; apply (Hdisj x Hx); by right|].
      by apply trep_app. }
  destruct (Z.eqb_spec (d - acc) 0) as [Hz|Hz]; cbn [negb].
  { apply runs_ret. apply Hfin; [by destruct s|done|done|]. by replace acc with d by lia. }
  destruct D2 as [|[u e] D2]; cbn [fmap list_fmap head fst].
  { apply runs_ret. apply Hfin; [by destruct s|done|done|done]. }
  destruct HD2 as (He&(pu&Hu)&HD2). cbn in Ht2, Hnd2. rewrite not_elem_of_cons in Ht2. apply NoDup_cons in Hnd2 as [Hu2 Hnd2].
  runs_steps. eapply rd_timer_runs; [done|]. eapply set_expires_runs; [done|]. cbn [expires t_proc].
  rewrite u32_small by (unfold is_u32; lia). replace (e - d + (d - acc)) with (e - acc) by lia. apply Hfin.
  - by destruct s.
  - intros v. cbn. rewrite lookup_insert. case_decide; [subst; by rewrite Hu|done].
  - cbn. eapply trep_frame; [|exact HD1]. intros v Hv. rewrite lookup_insert_ne; [done|]. intros <-.
    apply (Hdisj u Hv). right. left.
  - cbn. split; [lia|]. split; [exists pu; by rewrite lookup_insert_eq|]. eapply trep_frame; [|exact HD2].
    intros v Hv. rewrite lookup_insert_ne; [done|]. by intros ->.
Qed.

(** ** A tick *)

Definition dtick (D : list (Z * Z)) : list (Z * Z) := (fun x => (fst x, snd x - 1)) <$> D.
Definition live (D : list (Z * Z)) : list (Z * Z) := filter (fun x => 0 < snd x) D.

Lemma dtick_fst D : (dtick D).*1 = D.*1.
Proof. unfold dtick. rewrite <- list_fmap_compose. done. Qed.

Lemma trep_dtick tm D : forall acc, trep tm acc D -> trep tm (acc - 1) (dtick D).
Proof.
  induction D as [|[t d] D IH]; intros acc; [done|]. intros (?&(p&Hp)&HD). cbn. split; [lia|]. split; [|by apply IH].
  exists p. rewrite Hp. do 2 f_equal. lia.
Qed.

Lemma live_all tm D acc : 0 < acc -> trep tm acc D -> live D = D.
Proof.
  revert acc. induction D as [|[t d] D IH]; intros acc Hacc; [done|]. intros (?&_&HD). unfold live.
  rewrite filter_cons_True by (cbn; lia). f_equal. apply (IH d); [lia|done].
Qed.

(** The process a timer wakes must be there, not dead, and interruptible. *)
Definition wakeable (g : proc_struct) : Prop :=
  state g <> PROC_ZOMBIE /\ (wait_state g = 0 \/ Z.land (wait_state g) WT_INTERRUPTED <> 0).
Definition proc_ok (m : gmap Z proc_struct) (p : Z) : Prop := exists g, m !! p = Some g /\ wakeable g.
Definition runnable (m : gmap Z proc_struct) (p : Z) : Prop := exists g, m !! p = Some g /\ state g = PROC_RUNNABLE.
Definition timer_proc (s : kst) (t p : Z) : Prop := t_proc <$> timers s !! t = Some p.

Lemma same_procs_ok m m' p : same_procs m m' -> (proc_ok m p -> proc_ok m' p) /\ (runnable m p -> runnable m' p).
Proof.
  intros H. split; intros (g&Hg&Hw); destruct (same_procs_some _ _ _ _ H Hg) as (g'&Hg'&Hs); exists g'; (split; [done|]);
    destruct (score_state _ _ Hs) as (Hst&Hws&_); unfold wakeable in *; rewrite Hst, ?Hws; done.
Qed.

Section Tick.
Context {sc : sched_class} `{!SchedOk sc}.
Implicit Types (s : kst) (D : list (Z * Z)).

(** Waking [p]: nothing but [p]'s state changes. *)
Lemma wakeup_effect s p g :
  SInv (sc := sc) s -> procs s !! p = Some g -> state g <> PROC_ZOMBIE ->
  runs (wakeup_proc sc p) s (fun _ s' => SInv (sc := sc) s' /\ s' = set_procs (procs s') (set_rq (rq s') s) /\ runnable (procs s') p /\
    (forall x, proc_ok (procs s) x -> proc_ok (procs s') x) /\ (forall x, runnable (procs s) x -> runnable (procs s') x) /\
    (forall x, x <> p -> score <$> procs s' !! x = score <$> procs s !! x)).
Proof.
  intros HI Hg Hz. eapply runs_mono; [by eapply wakeup_runs|]. cbn beta. intros _ s' (HI'&He&Hsame).
  pose proof (fun x => same_procs_ok _ _ x (same_procs_sym _ _ Hsame)) as Hok.
  assert (Hin : forall x, score <$> procs s' !! x =
     score <$> (if decide (state g = PROC_RUNNABLE) then procs s else <[p := awake g]> (procs s)) !! x).
  { intros x. rewrite <- !lookup_fmap. by rewrite Hsame. }
  split; [done|]. split; [done|].
  case_decide as Hr.
  - split; [apply Hok; by exists g|]. split; [apply Hok|]. split; [apply Hok|]. intros x _. apply Hin.
  - split; [apply Hok; exists (awake g); by rewrite lookup_insert_eq|]. split; [|split].
    + intros x (gx&Hx&Hwx). apply Hok. destruct (decide (x = p)) as [->|].
      * exists (awake g). rewrite lookup_insert_eq. split; [done|]. split; [done|]. by left.
      * exists gx. by rewrite lookup_insert_ne.
    + intros x (gx&Hx&Hwx). apply Hok. destruct (decide (x = p)) as [->|].
      * exists (awake g). by rewrite lookup_insert_eq.
      * exists gx. by rewrite lookup_insert_ne.
    + intros x Hx. rewrite Hin, lookup_insert_ne by done. done.
Qed.

Definition ticked s D s' : Prop :=
  SInv (sc := sc) s' /\ TRep0 s' (live D) /\ current s' = current s /\
  (forall t p, (t, 0) ∈ D -> timer_proc s t p -> runnable (procs s') p) /\
  (forall x, runnable (procs s) x -> runnable (procs s') x) /\
  (forall x, (forall t, (t, 0) ∈ D -> ~ timer_proc s t x) -> score <$> procs s' !! x = score <$> procs s !! x).

Lemma run_timers_runs D : forall s,
  SInv (sc := sc) s -> TRep0 s D -> (forall t d p, (t, d) ∈ D -> timer_proc s t p -> proc_ok (procs s) p) ->
  runs (run_timers sc D.*1) s (fun _ s' => ticked s D s').
Proof.
  induction D as [|[t d] D IH]; intros s HI HT Hok; cbn [fmap list_fmap fst run_timers].
  { runs_steps. split_and!; try done. intros t p Hx. by apply elem_of_nil in Hx. }
  pose proof HT as (Hl&Hnd&(Hd&(p&Hp)&HD)). cbn in Hnd. apply NoDup_cons in Hnd as [Htn Hnd].
  runs_steps. eapply rd_timer_runs; [done|]. cbn [expires t_proc]. rewrite Z.sub_0_r.
  assert (Htp : timer_proc s t p) by (unfold timer_proc; by rewrite Hp).
  destruct (Z.eqb_spec d 0) as [->|Hnz].
  - destruct (Hok t 0 p ltac:(left) Htp) as (g&Hg&Hwk). runs_steps. eapply rd_proc_runs; [done|]. runs_steps.
    assert (Hassert : forall Q : unit -> kst -> Prop, Q tt s ->
      runs (if negb (wait_state g =? 0) then assert_ (negb (Z.land (wait_state g) WT_INTERRUPTED =? 0)) else ret tt) s Q).
    { intros Q HQ. destruct (Z.eqb_spec (wait_state g) 0) as [|Hw]; [done|]. apply runs_assert; [|done].
      destruct Hwk as [_ [?|?]]; [done|]. by apply negb_true_iff, Z.eqb_neq. }
    apply Hassert. runs_steps. eapply runs_mono; [apply (wakeup_effect s p g HI Hg (proj1 Hwk))|]. cbn beta.
    intros _ s1 (HI1&He1&Hr1&Hok1&Hrun1&Hs1). runs_steps.
    assert (Htm1 : timers s1 = timers s) by (rewrite He1; done). assert (Htl1 : timer_list s1 = timer_list s) by (rewrite He1; done).
    assert (Hc1 : current s1 = current s) by (rewrite He1; done).
    assert (HT1 : TRep0 s1 ((t, 0) :: D)) by (unfold TRep0; rewrite Htm1, Htl1; done).
    eapply runs_mono; [by apply del_timer_runs|]. cbn beta. intros _ s2 (HT2&He2&Hp2).
    pose proof (dremove_middle t 0 [] D (not_elem_of_nil t) Htn) as Hrm. cbn [app] in Hrm. rewrite Hrm in HT2.
    assert (HI2 : SInv (sc := sc) s2) by (rewrite He2; destruct HI1; by split).
    assert (Hps : procs s2 = procs s1) by (rewrite He2; done).
    assert (Htp2 : forall u q, timer_proc s2 u q <-> timer_proc s u q) by (intros u q; unfold timer_proc; by rewrite Hp2, Htm1).
    eapply runs_mono; [apply (IH s2 HI2 HT2)|].
    { intros u e q Hu Hq. rewrite Hps. apply Hok1. eapply (Hok u e); [by right|]. by apply Htp2. }
    cbn beta. intros _ s3 (HI3&HT3&Hc3&Hf3&Hr3&Hs3). rewrite Hps in *. split; [done|]. split.
    { unfold live. rewrite filter_cons_False by (cbn; lia). exact HT3. }
    split; [rewrite Hc3, He2; exact Hc1|]. split; [|split; [auto|]].
    + intros u q [[= ->]|Hu]%elem_of_cons Hq.
      * assert (q = p) as -> by (unfold timer_proc in *; congruence). by apply Hr3.
      * apply (Hf3 u); [done|]. by apply Htp2.
    + intros x Hx. rewrite Hs3.
      * apply Hs1. intros ->. by apply (Hx t); [left|].
      * intros u Hu Hq. apply (Hx u); [by right|]. by apply Htp2.
  - runs_steps. split; [done|]. split.
    { replace (live ((t, d) :: D)) with ((t, d) :: D); [done|]. unfold live. rewrite filter_cons_True by (cbn; lia). f_equal.
      symmetry. apply (live_all (timers s) D d); [lia|done]. }
    split; [done|]. split; [|done].
    intros u q [[= -> <-]|Hu]%elem_of_cons; [done|]. pose proof (trep_bound _ _ _ _ _ HD Hu). lia.
Qed.

Lemma tick_current_runs s D s0 :
  ticked s0 D s -> TRep0 s (live D) ->
  runs (let! s := get in sched_class_proc_tick sc (current s)) s (fun _ s' => ticked s0 D s').
Proof.
  intros (HI&HT&Hc&Hf&Hr&Hs) _. unfold sched_class_proc_tick. runs_steps. destruct (si_current s HI) as [g Hg].
  assert (Hfin : forall s', sched_frame s s' -> sc_queue (rq s') = sc_queue (rq s) -> ticked s0 D s').
  { intros s' [He Hsim] Hq. pose proof (procs_sim_same _ _ Hsim) as Hsame.
    assert (Hin : forall x, score <$> procs s' !! x = score <$> procs s !! x)
      by (intros x; rewrite <- !lookup_fmap; by rewrite Hsame).
    assert (Hc' : current s' = current s) by (rewrite He; done). assert (Hi' : idleproc s' = idleproc s) by (rewrite He; done).
    split; [|split; [|split; [congruence|split; [|split]]]].
    - apply (SInv_change s s'); try done; rewrite ?Hq, ?Hc'; try done; [apply HI| |].
      + intros x Hx. destruct (si_queued s HI x Hx) as (?&?&?). done.
      + intros x gx. apply (si_all s HI).
    - unfold TRep0. rewrite He. exact HT.
    - intros t p Ht Hp. apply (proj2 (same_procs_ok _ _ p Hsame)). by eapply Hf.
    - intros x Hx. apply (proj2 (same_procs_ok _ _ x Hsame)). auto.
    - intros x Hx. rewrite Hin. auto. }
  destruct (negb (current s =? idleproc s)).
  - eapply runs_mono; [by eapply sc_tick_ok|]. cbn beta. intros _ s' [? ?]. auto.
  - eapply upd_proc_runs; [done|]. apply Hfin; [|done]. eapply frame_proc; [done|]. by destruct g.
Qed.

Lemma run_timer_list_runs s D :
  SInv (sc := sc) s -> TRep s D -> (forall t d p, (t, d) ∈ D -> timer_proc s t p -> proc_ok (procs s) p) ->
  runs (run_timer_list sc) s (fun _ s' => ticked s (dtick D) s').
Proof.
  intros HI [(Hl&Hnd&HD) Hpos] Hok. unfold run_timer_list. runs_steps. destruct D as [|[t d] D].
  { cbn in Hl. rewrite Hl. runs_steps.
    assert (Ht : ticked s [] s).
    { split; [done|]. split; [by split_and!|]. split_and!; try done. intros t p Hx. by apply elem_of_nil in Hx. }
    apply (tick_current_runs s [] s Ht). by split_and!. }
  rewrite Hl. cbn [fmap list_fmap fst]. destruct HD as (Hd&(p&Hp)&HD). rewrite Z.sub_0_r in Hp.
  pose proof (Hpos t d ltac:(left)) as Hd0. runs_steps. eapply rd_timer_runs; [done|]. runs_steps. cbn [expires].
  apply runs_assert; [by apply negb_true_iff, Z.eqb_neq; lia|]. runs_steps. eapply set_expires_runs; [done|]. cbn [t_proc].
  set (s1 := set_timers _ s).
  cbn in Hnd. pose proof Hnd as Hnd0. apply NoDup_cons in Hnd0 as [Htn _].
  assert (HT1 : TRep0 s1 (dtick ((t, d) :: D))).
  { split; [by rewrite dtick_fst|]. split; [by rewrite dtick_fst|]. cbn. split; [lia|]. split.
    - exists p. rewrite lookup_insert_eq, Z.sub_0_r. done.
    - eapply trep_frame; [|apply (trep_dtick _ _ _ HD)]. intros u Hu. change (u ∈ (dtick D).*1) in Hu. rewrite dtick_fst in Hu.
      rewrite lookup_insert_ne; [done|]. by intros ->. }
  assert (Htp : forall u q, timer_proc s1 u q <-> timer_proc s u q).
  { intros u q. unfold timer_proc. cbn. rewrite lookup_insert. case_decide; [subst; by rewrite Hp|done]. }
  assert (HI1 : SInv (sc := sc) s1) by (destruct HI; by split).
  pose proof (dtick_fst ((t, d) :: D)) as Hdt. cbn [fmap list_fmap fst] in Hdt.
  match goal with |- runs (run_timers sc ?l) _ _ => replace l with (dtick ((t, d) :: D)).*1 by (exact Hdt) end.
  eapply runs_mono; [apply (run_timers_runs _ s1 HI1 HT1)|].
  { intros u e q Hu Hq. apply list_elem_of_fmap in Hu as ([u' e']&[= -> _]&Hin). eapply (Hok u' e'); [done|]. by apply Htp. }
  cbn beta. intros _ s2 Hs2. destruct Hs2 as (HI2&HT2&Hc2&Hf2&Hr2&Hss2).
  eapply tick_current_runs; [|done]. split; [done|]. split; [done|]. split; [done|]. split; [|split; [done|]].
  - intros u q Hu Hq. apply (Hf2 u); [done|]. by apply Htp.
  - intros x Hx. apply Hss2. intros u Hu Hq. apply (Hx u Hu). by apply Htp.
Qed.
End Tick.

(** ** Theorems *)

(** [add_timer] refines the insertion of the deadline [T] steps from now:
    behind every deadline that is not later, with all others unchanged. *)
Theorem add_timer_refines s D timer T p :
  TRep s D -> timers s !! timer = Some (mkTimer T p) -> timer ∉ timer_list s -> 0 < T < W32 ->
  runs (add_timer timer) s (fun _ s' => TRep s' (ins timer T D) /\ procs s' = procs s).
Proof.
  intros. eapply runs_mono; [by eapply add_timer_runs|]. cbn beta. intros _ s' [? ->]. done.
Qed.

(** [del_timer] refines the removal of the timer's deadline; every other timer
    still expires when it would have. *)
Theorem del_timer_refines s D timer :
  TRep s D -> runs (del_timer timer) s (fun _ s' => TRep s' (dremove timer D) /\ procs s' = procs s).
Proof.
  intros [HT Hpos]. eapply runs_mono; [by eapply del_timer_runs|]. cbn beta. intros _ s' (HT'&->&_). split; [|done].
  split; [done|]. intros t d [_ Hin]%list_elem_of_filter. by eapply Hpos.
Qed.

(** C26: A clock tick brings every deadline one step closer, drops those reached,
    makes their processes runnable, changes no other process's state, and keeps
    the scheduler's invariant. *)
Theorem run_timer_list_refines {sc} `{!SchedOk sc} s D :
  SInv (sc := sc) s -> TRep s D -> (forall t d p, (t, d) ∈ D -> timer_proc s t p -> proc_ok (procs s) p) ->
  runs (run_timer_list sc) s (fun _ s' =>
    SInv (sc := sc) s' /\ TRep s' (live (dtick D)) /\
    (forall t p, (t, 1) ∈ D -> timer_proc s t p -> runnable (procs s') p) /\
    (forall x, (forall t, (t, 1) ∈ D -> ~ timer_proc s t x) -> score <$> procs s' !! x = score <$> procs s !! x)).
Proof.
  intros HI HT Hok. eapply runs_mono; [by apply run_timer_list_runs|]. cbn beta. intros _ s' (HI'&HT'&_&Hf&_&Hs).
  assert (Hin : forall t, (t, 0) ∈ dtick D <-> (t, 1) ∈ D).
  { intros t. unfold dtick. rewrite list_elem_of_fmap. split.
    - intros ([u e]&[= -> He]&Hu). by replace 1 with e by lia.
    - intros Ht. by exists (t, 1). }
  split; [done|]. split; [split; [done|]|split].
  - intros t d [Hd _]%list_elem_of_filter. done.
  - intros t p Ht. apply (Hf t). by apply Hin.
  - intros x Hx. apply Hs. intros t Ht. apply Hx. by apply Hin.
Qed.

Lemma ex_k_timers : TRep ex_k [(100, 1)].
Proof.
  split; [split; [reflexivity|]; split|].
  - apply NoDup_singleton.
  - cbn. unfold W32. split; [lia|]. split; [|done]. exists 5. reflexivity.
  - intros t d Hin. apply list_elem_of_singleton in Hin as [= -> ->]. lia.
Qed.

Lemma add_timer_refines_witness :
  runs (add_timer 101) ex_k (fun _ s' => TRep s' [(100, 1); (101, 7)]).
Proof.
  eapply runs_mono; [apply (add_timer_refines ex_k [(100, 1)] 101 7 5 ex_k_timers)|].
  - reflexivity.
  - apply (bool_decide_unpack _). vm_compute. exact I.
  - split; reflexivity.
  - cbn beta. intros _ s' [H _]. exact H.
Defined.

Lemma del_timer_refines_witness : runs (del_timer 100) ex_k (fun _ s' => TRep s' []).
Proof.
  eapply runs_mono; [apply (del_timer_refines ex_k [(100, 1)] 100 ex_k_timers)|]. cbn beta. intros _ s' [H _]. exact H.
Defined.

Lemma run_timer_list_refines_witness :
  runs (run_timer_list default_sched_class) ex_k (fun _ s' => TRep s' [] /\ runnable (procs s') 5).
Proof.
  eapply runs_mono; [apply (run_timer_list_refines ex_k [(100, 1)] ex_k_inv ex_k_timers)|].
  - intros t d p Hin Hp. apply list_elem_of_singleton in Hin as [= -> ->]. cbv in Hp. injection Hp as <-.
    exists (ex_proc PROC_SLEEPING 4 WT_TIMER). split; [reflexivity|]. split; [discriminate|]. right. discriminate.
  - cbn beta. intros _ s' (_&HT&Hr&_). split; [exact HT|]. apply (Hr 100); [left|reflexivity].
Defined.
