(* ===== verification/Sync.v ===== *)
(** * Wait queues and semaphores (kern/sync/wait.[ch], sem.[ch])

    A wait queue is the sequence of the [wait_t]s linked in it.  [__down] and
    [wait_current_set] block in the middle ([schedule]); the model has the two
    halves, before and after the process sleeps, as the atomic steps they
    are. *)

From stdpp Require Import base gmap list.
From Stdlib Require Import ZArith Lia Bool.
From S2P Require Import Prelude.
From S2P Require Import Dlist.
From S2P Require Import KState.
From S2P Require Import Sched.

Definition wait_init (w proc : Z) : M kst unit :=
  modify (fun s => set_waits (<[w := mkWait proc WT_INTERRUPTED (default 0 (w_queue <$> waits s !! w))]> (waits s)) s).

Definition wait_queue_init (q : Z) : M kst unit :=
  modify (fun s => set_queues (<[q := []]> (queues s)) s).

(** [!list_empty(&wait->wait_link)]: a wait is linked in the queue it was last
    added to. *)
Definition wait_in_queue (w : Z) : M kst bool :=
  let! x := rd_wait w in gets (fun s => mem_list w (queue_of s (w_queue x))).

Definition wait_queue_add (q w : Z) : M kst unit :=
  let! linked := wait_in_queue w in
  do! assert_ (negb linked) in
  let! x := rd_wait w in
  do! modify (fun s => set_waits (<[w := mkWait (w_proc x) (wakeup_flags x) q]> (waits s)) s) in
  modify (fun s => set_queues (<[q := queue_of s q ++ [w]]> (queues s)) s).

Definition wait_queue_del (q w : Z) : M kst unit :=
  let! linked := wait_in_queue w in
  let! x := rd_wait w in
  do! assert_ (linked && (w_queue x =? q)) in
  modify (fun s => set_queues (<[q := ldel w (queue_of s q)]> (queues s)) s).

Definition wait_queue_next (q w : Z) : M kst (option Z) :=
  let! linked := wait_in_queue w in
  let! x := rd_wait w in
  do! assert_ (linked && (w_queue x =? q)) in
  gets (fun s => list_next_of w (queue_of s q)).

Definition wait_queue_prev (q w : Z) : M kst (option Z) :=
  let! linked := wait_in_queue w in
  let! x := rd_wait w in
  do! assert_ (linked && (w_queue x =? q)) in
  gets (fun s => list_next_of w (rev (queue_of s q))).

Definition wait_queue_first (q : Z) : M kst (option Z) := gets (fun s => head (queue_of s q)).
Definition wait_queue_last (q : Z) : M kst (option Z) := gets (fun s => last (queue_of s q)).
Definition wait_queue_empty (q : Z) : M kst bool := gets (fun s => match queue_of s q with [] => true | _ => false end).

Section Wake.
Variable sc : sched_class.

Definition wakeup_wait (q w flags : Z) (del : bool) : M kst unit :=
  do! (if del then wait_queue_del q w else ret tt) in
  let! x := rd_wait w in
  do! modify (fun s => set_waits (<[w := mkWait (w_proc x) flags (w_queue x)]> (waits s)) s) in
  wakeup_proc sc (w_proc x).

Definition wakeup_first (q flags : Z) (del : bool) : M kst unit :=
  let! w := wait_queue_first q in
  match w with Some w => wakeup_wait q w flags del | None => ret tt end.

(** The two [do ... while] loops of [wakeup_queue]. *)
Fixpoint wakeup_all_del (fuel : nat) (q flags w : Z) : M kst unit :=
  match fuel with
  | O => nofuel
  | S fuel =>
      do! wakeup_wait q w flags true in
      let! n := wait_queue_first q in
      match n with Some w => wakeup_all_del fuel q flags w | None => ret tt end
  end.
Fixpoint wakeup_all_keep (fuel : nat) (q flags w : Z) : M kst unit :=
  match fuel with
  | O => nofuel
  | S fuel =>
      do! wakeup_wait q w flags false in
      let! n := wait_queue_next q w in
      match n with Some w => wakeup_all_keep fuel q flags w | None => ret tt end
  end.
Definition wakeup_queue (q flags : Z) (del : bool) : M kst unit :=
  let! s := get in
  let fuel := length (queue_of s q) in
  let! w := wait_queue_first q in
  match w with
  | Some w => if del then wakeup_all_del fuel q flags w else wakeup_all_keep fuel q flags w
  | None => ret tt
  end.

Definition wait_current_set (q w wst : Z) : M kst unit :=
  let! s := get in
  do! wait_init w (current s) in
  do! upd_proc (current s) (set_state PROC_SLEEPING) in
  do! upd_proc (current s) (set_wait_state wst) in
  wait_queue_add q w.

Definition wait_current_del (q w : Z) : M kst unit :=
  let! linked := wait_in_queue w in
  if linked : bool then wait_queue_del q w else ret tt.

(** ** Semaphores *)

Definition sem_init (sem value : Z) : M kst unit :=
  do! modify (fun s => set_sems (<[sem := value]> (sems s)) s) in wait_queue_init sem.

Definition rd_sem (sem : Z) : M kst Z := let! s := get in deref (sems s !! sem).
Definition wr_sem (sem v : Z) : M kst unit := modify (fun s => set_sems (<[sem := v]> (sems s)) s).

Definition __up (sem wst : Z) : M kst unit :=
  let! w := wait_queue_first sem in
  match w with
  | None => let! v := rd_sem sem in wr_sem sem (s32 (v + 1))
  | Some w =>
      let! x := rd_wait w in
      let! g := rd_proc (w_proc x) in
      do! assert_ (wait_state g =? wst) in
      wakeup_wait sem w wst true
  end.

(** [__down] up to [schedule()]: [true] when the process must sleep on the
    wait [w] (on its stack). *)
Definition __down_enter (sem wst w : Z) : M kst bool :=
  let! v := rd_sem sem in
  if 0 <? v then do! wr_sem sem (s32 (v - 1)) in ret false
  else do! wait_current_set sem w wst in ret true.
(** [__down] after [schedule()]: the return value. *)
Definition __down_leave (sem wst w : Z) : M kst Z :=
  do! wait_current_del sem w in
  let! x := rd_wait w in
  ret (if negb (wakeup_flags x =? wst) then wakeup_flags x else 0).

Definition up (sem : Z) : M kst unit := __up sem WT_KSEM.
(** [down] when it does not have to sleep, and its end when it did. *)
Definition down_enter (sem w : Z) : M kst bool := __down_enter sem WT_KSEM w.
Definition down_leave (sem w : Z) : M kst unit :=
  let! flags := __down_leave sem WT_KSEM w in assert_ (flags =? 0).

Definition try_down (sem : Z) : M kst bool :=
  let! v := rd_sem sem in
  if 0 <? v then do! wr_sem sem (s32 (v - 1)) in ret true else ret false.
End Wake.
