(* ===== verification/SyncThm.v ===== *)
(** * Theorems on semaphores

    The machine of one semaphore: the running process enters [down], goes to sleep in it
    or leaves it, or does [up], and the scheduler switches processes.  The value, the
    processes inside and those let in but not yet back from [down] add up to a constant,
    a process in [down] sleeps only while it is queued and the value is zero, waiters are
    served in order, and none of the assertions of the code can fail. *)

From stdpp Require Import base gmap list.
From Stdlib Require Import ZArith Lia Bool.
From S2P Require Import Prelude.
From S2P Require Import Dlist.
From S2P Require Import KState.
From S2P Require Import Sched.
From S2P Require Import SchedThm.
From S2P Require Import TimerThm.
From S2P Require Import Sync.

Section SemInv.
Context {sc : sched_class} `{!SchedOk sc}.
Implicit Types (s : kst).

(** [w] is the wait of the sleeping process [p] on [sem]. *)
Definition waiting s (sem w p : Z) : Prop :=
  exists x g, waits s !! w = Some x /\ w_queue x = sem /\ w_proc x = p /\
    procs s !! p = Some g /\ state g = PROC_SLEEPING /\ wait_state g = WT_KSEM.

Record SemInv s (sem v : Z) : Prop := {
  sm_val : sems s !! sem = Some v;
  sm_range : 0 <= v < 2147483647;
  sm_empty : 0 < v -> queue_of s sem = [];
  sm_nodup : NoDup (queue_of s sem);
  sm_wait : forall w, w ∈ queue_of s sem -> exists p, waiting s sem w p;
  sm_inj : forall w w' p, w ∈ queue_of s sem -> w' ∈ queue_of s sem ->
             waiting s sem w p -> waiting s sem w' p -> w = w'
}.

Lemma waiting_fun s sem w p p' : waiting s sem w p -> waiting s sem w p' -> p = p'.
Proof. intros (x&?&Hx&_&<-&_) (x'&?&Hx'&_&<-&_). congruence. Qed.

(** States that agree on the queue, the waits in it and their processes. *)
Lemma SemInv_frame s s' sem v v' :
  SemInv s sem v -> sems s' !! sem = Some v' -> 0 <= v' < 2147483647 -> (0 < v' -> queue_of s' sem = []) ->
  NoDup (queue_of s' sem) -> (forall w, w ∈ queue_of s' sem -> w ∈ queue_of s sem) ->
  (forall w p, w ∈ queue_of s' sem -> waiting s sem w p <-> waiting s' sem w p) -> SemInv s' sem v'.
Proof.
  intros HS Hv Hr He Hnd Hsub Hw. split; try done.
  - intros w Hin. destruct (sm_wait _ _ _ HS w (Hsub w Hin)) as [p Hp]. exists p. by apply Hw.
  - intros w w' p Hin Hin' Hp Hp'. apply (sm_inj _ _ _ HS w w' p); try (by apply Hsub); by apply Hw.
Qed.

Lemma waiting_same s s' sem w p :
  waits s' !! w = waits s !! w -> same_procs (procs s) (procs s') -> waiting s sem w p <-> waiting s' sem w p.
Proof.
  intros Hw Hp. unfold waiting. rewrite Hw. split; intros (x&g&?&?&?&Hg&Hst&Hws).
  - destruct (same_procs_some _ _ _ _ Hp Hg) as (g'&?&Hs). destruct (score_state _ _ Hs) as (?&?&_). exists x, g'. split_and!; congruence.
  - destruct (same_procs_some _ _ _ _ (same_procs_sym _ _ Hp) Hg) as (g'&?&Hs). destruct (score_state _ _ Hs) as (?&?&_). exists x, g'. split_and!; congruence.
Qed.

(** ** [up] *)

Definition set_flags_of (w flags : Z) (x : wait_t) s : kst :=
  set_waits (<[w := mkWait (w_proc x) flags (w_queue x)]> (waits s)) s.

(** After [up]: the value is raised, or the first waiter is let in. *)
Definition upped s (sem v : Z) s' : Prop :=
  SInv (sc := sc) s' /\ current s' = current s /\ (forall x, runnable (procs s) x -> runnable (procs s') x) /\
  match queue_of s sem with
  | [] => SemInv s' sem (v + 1) /\ procs s' = procs s /\ queues s' = queues s /\ waits s' = waits s
  | w :: ws => SemInv s' sem v /\ queue_of s' sem = ws /\
      exists x, waits s' !! w = Some x /\ wakeup_flags x = WT_KSEM /\ w_queue x = sem /\ runnable (procs s') (w_proc x) /\
        waiting s sem w (w_proc x) /\ (forall u, u <> w -> waits s' !! u = waits s !! u) /\
        forall u p, u ∈ ws -> waiting s sem u p -> waiting s' sem u p
  end.

Lemma up_empty_runs s sem v :
  SInv (sc := sc) s -> SemInv s sem v -> v + 1 < 2147483647 -> queue_of s sem = [] ->
  runs (up sc sem) s (fun _ s' => upped s sem v s').
Proof.
  intros HI HS Hv Hq. unfold up, __up, wait_queue_first. runs_steps. rewrite Hq. cbn [head]. unfold rd_sem. runs_steps.
  pose proof (sm_range _ _ _ HS). eapply runs_deref; [apply (sm_val _ _ _ HS)|]. unfold wr_sem. runs_steps.
  rewrite s32_small by lia. split; [destruct HI; by split|]. split; [done|]. split; [done|]. rewrite Hq. split; [|done].
  apply (SemInv_frame s _ sem v (v + 1) HS); cbn; try done; try lia.
  - apply lookup_insert_eq.
  - unfold queue_of in *. cbn. rewrite Hq. constructor.
Qed.

Lemma up_wake_runs s sem v w ws :
  SInv (sc := sc) s -> SemInv s sem v -> queue_of s sem = w :: ws ->
  runs (up sc sem) s (fun _ s' => upped s sem v s').
Proof.
  intros HI HS Hq. pose proof HS as []. destruct (sm_wait0 w ltac:(rewrite Hq; left)) as [p Hw].
  pose proof Hw as (x&g&Hx&Hxq&Hxp&Hg&Hst&Hws).
  assert (Hwq : mem_list w (queue_of s sem) = true) by (apply mem_list_true; rewrite Hq; left).
  unfold up, __up, wait_queue_first. runs_steps. rewrite Hq. cbn [head]. runs_steps. eapply rd_wait_runs; [done|]. runs_steps.
  rewrite Hxp. eapply rd_proc_runs; [done|]. runs_steps. apply runs_assert; [by apply Z.eqb_eq|].
  unfold wakeup_wait, wait_queue_del, wait_in_queue. runs_steps. eapply rd_wait_runs; [done|]. runs_steps.
  rewrite Hxq, Hwq. eapply rd_wait_runs; [done|]. runs_steps. apply runs_assert; [rewrite Hxq; by rewrite Z.eqb_refl|]. runs_steps.
  eapply rd_wait_runs; [done|]. runs_steps. rewrite Hxp. rewrite Hq in sm_nodup0. rewrite Hq, ldel_head by done.
  set (s1 := set_waits _ _).
  assert (Hq1 : queue_of s1 sem = ws) by (unfold queue_of, s1; cbn; by rewrite lookup_insert_eq).
  assert (HI1 : SInv (sc := sc) s1) by (destruct HI; by split).
  eapply runs_mono; [apply (wakeup_effect s1 p g HI1 Hg); by rewrite Hst|]. cbn beta.
  intros _ s' (HI'&He'&Hrun&_&Hr'&Hsc). assert (Hws' : waits s' = waits s1) by (rewrite He'; done).
  assert (Hqs : queue_of s' sem = ws) by (rewrite <- Hq1, He'; done).
  split; [done|]. split; [rewrite He'; done|]. split; [exact Hr'|]. rewrite Hq. apply NoDup_cons in sm_nodup0 as [Hwn Hnd].
  assert (Hkeep : forall u q, u ∈ ws -> waiting s sem u q <-> waiting s' sem u q).
  { intros u q Hu. assert (u <> w) as Hne by congruence.
    assert (Hnp : forall q', waiting s sem u q' -> q' <> p).
    { intros q' Hq' ->. apply Hne. apply (sm_inj0 u w p); try done; rewrite Hq; [by right|left]. }
    destruct (sm_wait0 u ltac:(rewrite Hq; by right)) as [q0 Hq0]. specialize (Hnp q0 Hq0).
    assert (Hwu : waits s' !! u = waits s !! u) by (rewrite Hws'; cbn; by rewrite lookup_insert_ne).
    pose proof Hq0 as (xu&gu&Hxu&Hxuq&Hxup&Hgu&Hstu&Hwsu). pose proof (Hsc q0 Hnp) as Hsq. cbn in Hsq. rewrite Hgu in Hsq.
    destruct (procs s' !! q0) as [gu'|] eqn:Hgu'; [|done]. apply (inj Some) in Hsq. destruct (score_state _ _ Hsq) as (Hs1&Hs2&_).
    assert (Hq0' : waiting s' sem u q0) by (exists xu, gu'; rewrite Hwu; split_and!; congruence).
    split; intros Hw0; [rewrite (waiting_fun _ _ _ _ _ Hw0 Hq0)|rewrite (waiting_fun _ _ _ _ _ Hw0 Hq0')]; done. }
  split; [|split; [done|]].
  - apply (SemInv_frame s s' sem v v HS); try done; rewrite ?Hqs; try done.
    + rewrite He'. done.
    + intros Hv. rewrite (sm_empty0 Hv) in Hq. done.
    + intros u Hu. rewrite Hq. by right.
  - eexists. rewrite Hws'. cbn. rewrite lookup_insert_eq. split; [done|]. cbn. rewrite ?Hxp. do 4 (split; [done|]).
    split; [intros u Hu; by rewrite lookup_insert_ne|]. intros u q Hu. by apply Hkeep.
Qed.

Lemma up_runs s sem v :
  SInv (sc := sc) s -> SemInv s sem v -> v + 1 < 2147483647 -> runs (up sc sem) s (fun _ s' => upped s sem v s').
Proof.
  intros HI HS Hv. destruct (queue_of s sem) as [|w ws] eqn:Hq; [by apply up_empty_runs|by eapply up_wake_runs].
Qed.

(** ** [down] *)

Definition asleep (g : proc_struct) : proc_struct := set_wait_state WT_KSEM (set_state PROC_SLEEPING g).

(** The running process is allowed in, or sleeps at the end of the queue. *)
Definition entered s (sem v w : Z) (b : bool) s' : Prop :=
  SInv (sc := sc) s' /\ current s' = current s /\
  (if b then v = 0 /\ SemInv s' sem v /\ queue_of s' sem = queue_of s sem ++ [w] /\ waiting s' sem w (current s) /\
     (forall u, u <> w -> waits s' !! u = waits s !! u) /\ (forall p, p <> current s -> procs s' !! p = procs s !! p)
   else 0 < v /\ SemInv s' sem (v - 1) /\ procs s' = procs s /\ queues s' = queues s /\ waits s' = waits s).

Lemma sleep_SInv s g w q :
  SInv (sc := sc) s -> procs s !! current s = Some g -> current s <> idleproc s ->
  SInv (sc := sc) (set_queues q (set_waits w (set_procs (<[current s := asleep g]> (procs s)) s))).
Proof.
  intros HI Hg Hid. split; cbn.
  - apply HI.
  - intros p Hp. destruct (si_queued s HI p Hp) as (?&?&gp&?&?). split; [done|]. split; [done|]. exists gp. by rewrite lookup_insert_ne.
  - intros p gp. rewrite lookup_insert. case_decide; [by left|]. apply (si_all s HI).
  - rewrite lookup_insert_eq. by eexists.
  - destruct (si_idle s HI) as (gi&?&?). exists gi. by rewrite lookup_insert_ne.
Qed.

Lemma down_enter_runs s sem v w :
  SInv (sc := sc) s -> SemInv s sem v -> runnable (procs s) (current s) -> current s <> idleproc s ->
  (forall q, w ∉ queue_of s q) -> runs (down_enter sem w) s (entered s sem v w).
Proof.
  intros HI HS (g&Hg&Hst) Hid Hw. pose proof (sm_range _ _ _ HS). unfold down_enter, __down_enter, rd_sem. runs_steps.
  eapply runs_deref; [apply (sm_val _ _ _ HS)|]. destruct (Z.ltb_spec 0 v) as [Hv|Hv].
  - unfold wr_sem. runs_steps. rewrite s32_small by lia. split; [destruct HI; by split|]. split; [done|]. split; [done|]. split; [|done].
    apply (SemInv_frame s _ sem v (v - 1) HS); cbn; try done; try lia; [apply lookup_insert_eq| |apply (sm_nodup _ _ _ HS)].
    intros _. by apply (sm_empty _ _ _ HS).
  - unfold wait_current_set, wait_init, wait_queue_add, wait_in_queue. runs_steps. eapply upd_proc_runs; [done|]. runs_steps.
    eapply upd_proc_runs; [cbn; apply lookup_insert_eq|]. runs_steps. cbn [procs set_procs set_waits waits current]. rewrite insert_insert_eq.
    eapply rd_wait_runs; [cbn; apply lookup_insert_eq|]. runs_steps. eapply (runs_assert); [|].
    { cbn [w_queue]. apply negb_true_iff, mem_list_false. apply Hw. }
    runs_steps. eapply rd_wait_runs; [cbn; apply lookup_insert_eq|]. runs_steps. cbn [w_proc wakeup_flags].
    set (s' := set_queues _ _). set (x' := mkWait (current s) WT_INTERRUPTED sem).
    assert (Hs' : s' = set_queues (<[sem := queue_of s sem ++ [w]]> (queues s)) (set_waits (<[w := x']> (waits s))
       (set_procs (<[current s := asleep g]> (procs s)) s))).
    { unfold s'. cbn. rewrite insert_insert_eq. done. }
    assert (Hq' : queue_of s' sem = queue_of s sem ++ [w]) by (rewrite Hs'; unfold queue_of; cbn; by rewrite lookup_insert_eq).
    assert (Hww : waiting s' sem w (current s)).
    { rewrite Hs'. exists x', (asleep g). cbn. rewrite !lookup_insert_eq. done. }
    assert (Hold : forall u p, u ∈ queue_of s sem -> waiting s sem u p <-> waiting s' sem u p).
    { intros u p Hu. assert (u <> w) by (intros ->; by apply (Hw sem)). rewrite Hs'. unfold waiting. cbn.
      rewrite lookup_insert_ne by done. split; intros (x&gx&?&?&?&Hgx&?&?).
      - assert (p <> current s) by (intros ->; congruence). exists x, gx. rewrite lookup_insert_ne by done. done.
      - rewrite lookup_insert in Hgx. case_decide as Hc; [|exists x, gx; done]. exfalso. subst p.
        destruct (sm_wait _ _ _ HS u Hu) as (p'&x0&g0&Hx0&_&Hp0&Hg0&Hs0&_). assert (p' = current s) by congruence. subst p'. congruence. }
    assert (Hnw : forall u, u ∈ queue_of s sem -> ~ waiting s' sem u (current s)).
    { intros u Hu Hwu. apply Hold in Hwu; [|done]. destruct Hwu as (?&g0&_&_&_&Hg0&Hs0&_). congruence. }
    split; [rewrite Hs'; by apply sleep_SInv|]. split; [rewrite Hs'; done|]. split; [lia|]. split.
    2: { split; [done|]. split; [done|]. rewrite Hs'. cbn. split; intros u Hu; by rewrite lookup_insert_ne. }
    split; try done.
    + rewrite Hs'. apply (sm_val _ _ _ HS).
    + lia.
    + rewrite Hq'. apply NoDup_app. split; [apply (sm_nodup _ _ _ HS)|]. split; [|apply NoDup_singleton].
      intros u Hu ->%list_elem_of_singleton. by apply (Hw sem).
    + intros u. rewrite Hq'. intros [Hu| ->%list_elem_of_singleton]%elem_of_app; [|by eexists].
      destruct (sm_wait _ _ _ HS u Hu) as [p Hp]. exists p. by apply Hold.
    + intros u u' p. rewrite Hq'. intros [Hu| ->%list_elem_of_singleton]%elem_of_app [Hu'| ->%list_elem_of_singleton]%elem_of_app Hp Hp'; [| | |done].
      * apply (sm_inj _ _ _ HS u u' p); try done; by apply Hold.
      * rewrite (waiting_fun _ _ _ _ _ Hp' Hww) in Hp. by destruct (Hnw u Hu).
      * rewrite (waiting_fun _ _ _ _ _ Hp Hww) in Hp'. by destruct (Hnw u' Hu').
Qed.

(** A process let in by [up] leaves [down] without tripping its assertion. *)
Lemma down_leave_runs s sem w x :
  waits s !! w = Some x -> wakeup_flags x = WT_KSEM -> w ∉ queue_of s (w_queue x) ->
  runs (down_leave sem w) s (fun _ s' => s' = s).
Proof.
  intros Hx Hf Hq. unfold down_leave, __down_leave, wait_current_del, wait_in_queue. runs_steps.
  eapply rd_wait_runs; [done|]. runs_steps. rewrite (proj2 (mem_list_false _ _) Hq). runs_steps.
  eapply rd_wait_runs; [done|]. runs_steps. rewrite Hf, Z.eqb_refl. done.
Qed.

(** ** The machine *)

(** A state of the kernel, the processes inside, and the processes that are between the
    two halves of [down], each with its wait. *)
Record config := mkConfig { ckst : kst; inside : list Z; between : list (Z * Z) }.

(** A process may call [down] with the wait [w] on its stack. *)
Definition may_down (c : config) (w : Z) : Prop :=
  let s := ckst c in
  runnable (procs s) (current s) /\ current s <> idleproc s /\ (forall q, w ∉ queue_of s q) /\ (current s ∉ (between c).*1) /\ (w ∉ (between c).*2).

Inductive sem_step (sem : Z) : config -> config -> Prop :=
  | step_enter s w s' H B : may_down (mkConfig s H B) w -> down_enter sem w s = Ok (false, s') ->
      sem_step sem (mkConfig s H B) (mkConfig s' (current s :: H) B)
  | step_sleep s w s' H B : may_down (mkConfig s H B) w -> down_enter sem w s = Ok (true, s') ->
      sem_step sem (mkConfig s H B) (mkConfig s' H ((current s, w) :: B))
  | step_leave s w s' H B1 B2 : runnable (procs s) (current s) -> down_leave sem w s = Ok (tt, s') ->
      sem_step sem (mkConfig s H (B1 ++ (current s, w) :: B2)) (mkConfig s' (current s :: H) (B1 ++ B2))
  | step_up s s' H1 H2 B : (current s ∉ B.*1) -> up sc sem s = Ok (tt, s') ->
      sem_step sem (mkConfig s (H1 ++ current s :: H2) B) (mkConfig s' (H1 ++ H2) B)
  | step_schedule s s' H B : schedule sc s = Ok (tt, s') -> sem_step sem (mkConfig s H B) (mkConfig s' H B).

(** Let in, but not yet back from [down]. *)
Definition granted s (sem : Z) (B : list (Z * Z)) : list (Z * Z) := filter (fun e => e.2 ∉ queue_of s sem) B.
(** A process in [down]: asleep in the queue, or let in and runnable. *)
Definition in_down s (sem p w : Z) : Prop :=
  (w ∈ queue_of s sem /\ waiting s sem w p) \/
  ((w ∉ queue_of s sem) /\ runnable (procs s) p /\ exists x, waits s !! w = Some x /\ wakeup_flags x = WT_KSEM /\ w_queue x = sem).

Record sem_ok (sem N : Z) (c : config) (v : Z) : Prop := {
  so_inv : SInv (sc := sc) (ckst c);
  so_sem : SemInv (ckst c) sem v;
  so_count : v + Z.of_nat (length (inside c)) + Z.of_nat (length (granted (ckst c) sem (between c))) = N;
  so_nodup : NoDup (between c).*2;
  so_queue : forall w, w ∈ queue_of (ckst c) sem -> w ∈ (between c).*2;
  so_down : forall p w, (p, w) ∈ between c -> in_down (ckst c) sem p w
}.

Lemma granted_ext s s' sem B : (forall p w, (p, w) ∈ B -> w ∈ queue_of s' sem <-> w ∈ queue_of s sem) -> granted s' sem B = granted s sem B.
Proof.
  intros H. unfold granted. induction B as [|[p w] B IH]; [done|]. rewrite !filter_cons, IH by (intros q u Hu; apply (H q u); by right). cbn [snd].
  pose proof (H p w ltac:(left)). repeat case_decide; tauto.
Qed.
Lemma granted_app s sem B1 p w B2 : granted s sem (B1 ++ (p, w) :: B2) = granted s sem B1 ++ (if decide (w ∉ queue_of s sem) then [(p, w)] else []) ++ granted s sem B2.
Proof. unfold granted. rewrite filter_app, filter_cons. cbn [snd]. by case_decide. Qed.
(** One waiter is taken off the queue. *)
Lemma granted_grant s s' sem B w ws : NoDup B.*2 -> queue_of s sem = w :: ws -> queue_of s' sem = ws -> NoDup (w :: ws) -> w ∈ B.*2 ->
  length (granted s' sem B) = S (length (granted s sem B)).
Proof.
  intros Hnd Hq Hq' Hqn Hin. apply NoDup_cons in Hqn as [Hw _]. apply list_elem_of_fmap in Hin as ([p w']&->&Hin). cbn [snd] in *. apply list_elem_of_split in Hin as (B1&B2&->).
  rewrite fmap_app, fmap_cons in Hnd. apply NoDup_app in Hnd as (_&Hd&Hnd). apply NoDup_cons in Hnd as [H2 _]. cbn [snd] in *.
  rewrite !granted_app, Hq, Hq'. rewrite decide_True, decide_False by (try done; intros H0; apply H0; left).
  assert (Hext : forall B, (forall q u, (q, u) ∈ B -> u <> w') -> granted s' sem B = granted s sem B) by (intros B HB; apply granted_ext; intros q u Hu; rewrite Hq, Hq', elem_of_cons; specialize (HB q u Hu); tauto).
  rewrite (Hext B1), (Hext B2), !length_app; [cbn; lia| |].
  - intros q u Hu ->. apply H2. apply list_elem_of_fmap. by exists (q, w').
  - intros q u Hu ->. apply (Hd w'); [apply list_elem_of_fmap; by exists (q, w')|left].
Qed.

Lemma in_down_same s s' sem p w : queue_of s' sem = queue_of s sem -> waits s' !! w = waits s !! w -> same_procs (procs s) (procs s') -> in_down s sem p w -> in_down s' sem p w.
Proof.
  intros Hq Hw Hp [[Hin Hwt]|(Hin&(g&Hg&Hst)&Hx)].
  - left. rewrite Hq. split; [done|]. by apply (waiting_same s s').
  - right. rewrite Hq. split; [done|]. rewrite Hw. split; [|done]. destruct (same_procs_some _ _ _ _ Hp Hg) as (g'&Hg'&Hs). destruct (score_state _ _ Hs) as (Hs1&_). exists g'. split; [done|congruence].
Qed.

Section Steps.
Variables (sem N : Z).
Hypothesis HN : N < 2147483647.
Implicit Types (v : Z).

Lemma enter_ok s w s' H B v : sem_ok sem N (mkConfig s H B) v -> may_down (mkConfig s H B) w -> down_enter sem w s = Ok (false, s') -> sem_ok sem N (mkConfig s' (current s :: H) B) (v - 1).
Proof.
  intros [HI HS Hc Hnd Hq Hd] (Hr&Hid&Hw&_) He. cbn [ckst inside between] in *. destruct (runs_elim _ _ _ _ _ (down_enter_runs s sem v w HI HS Hr Hid Hw) He) as (HI'&_&Hv&HS'&Hp&Hqs&Hws).
  assert (Hqe : queue_of s' sem = queue_of s sem) by (unfold queue_of; by rewrite Hqs). split; cbn [ckst inside between]; try done.
  - rewrite (granted_ext s s') by (intros; by rewrite Hqe). cbn [length]. lia.
  - by rewrite Hqe.
  - intros p u Hu. apply (in_down_same s s'); [done|by rewrite Hws|by rewrite Hp|by apply Hd].
Qed.
Lemma sleep_ok s w s' H B v : sem_ok sem N (mkConfig s H B) v -> may_down (mkConfig s H B) w -> down_enter sem w s = Ok (true, s') -> sem_ok sem N (mkConfig s' H ((current s, w) :: B)) v.
Proof.
  intros [HI HS Hc Hnd Hq Hd] (Hr&Hid&Hw&Hcb&Hwb) He. cbn [ckst inside between] in *. destruct (runs_elim _ _ _ _ _ (down_enter_runs s sem v w HI HS Hr Hid Hw) He) as (HI'&_&Hv&HS'&Hqe&Hww&Hws&Hps).
  assert (Hne : forall p u, (p, u) ∈ B -> p <> current s /\ u <> w).
  { intros p u Hu. split; intros ->; [apply Hcb|apply Hwb]; apply list_elem_of_fmap; [by exists (current s, u)|by exists (p, w)]. }
  split; cbn [ckst inside between]; try done.
  - unfold granted. rewrite filter_cons. cbn [snd]. rewrite decide_False by (rewrite Hqe; intros Hn; apply Hn, elem_of_app; right; left). fold (granted s' sem B).
    rewrite (granted_ext s s'); [done|]. intros p u Hu. destruct (Hne p u Hu). rewrite Hqe, elem_of_app, list_elem_of_singleton. tauto.
  - by apply NoDup_cons.
  - intros u. rewrite Hqe. intros [Hu| ->%list_elem_of_singleton]%elem_of_app; [right; by apply Hq|left].
  - intros p u [[= -> ->]|Hu]%elem_of_cons; [left; split; [rewrite Hqe; apply elem_of_app; right; left|done]|]. destruct (Hne p u Hu) as [Hp Hu']. unfold in_down, waiting, runnable. rewrite Hqe, Hws, Hps by done.
    destruct (Hd p u Hu) as [[Hin Hwt]|(Hin&Hrn&Hx)]; [left; split; [apply elem_of_app; by left|done]|right]. split; [|done]. rewrite elem_of_app, list_elem_of_singleton. tauto.
Qed.
Lemma leave_ok s w s' H B1 B2 v : sem_ok sem N (mkConfig s H (B1 ++ (current s, w) :: B2)) v -> runnable (procs s) (current s) -> down_leave sem w s = Ok (tt, s') -> sem_ok sem N (mkConfig s' (current s :: H) (B1 ++ B2)) v.
Proof.
  intros [HI HS Hc Hnd Hq Hd] (g&Hg&Hst) He. cbn [ckst inside between] in *. destruct (Hd (current s) w) as [[_ (x&g'&_&_&_&Hg'&Hsl&_)]|(Hin&_&x&Hx&Hf&Hxq)]; [apply elem_of_app; right; left|congruence|].
  assert (s' = s) as -> by (apply (runs_elim _ _ _ _ _ (down_leave_runs s sem w x Hx Hf ltac:(by rewrite Hxq)) He)). rewrite granted_app, decide_True in Hc by done. rewrite !length_app in Hc. cbn [length] in Hc.
  rewrite fmap_app, fmap_cons in Hnd, Hq. cbn [snd] in *. pose proof (NoDup_Permutation_proper _ _ (Permutation_middle B1.*2 B2.*2 w)) as Hperm. apply Hperm in Hnd. apply NoDup_cons in Hnd as [_ Hnd]. split; cbn [ckst inside between]; try done.
  - unfold granted in *. rewrite filter_app, length_app. cbn [length]. lia.
  - by rewrite fmap_app.
  - intros u Hu. rewrite fmap_app. specialize (Hq u Hu). rewrite elem_of_app, elem_of_cons in Hq. rewrite elem_of_app. assert (u <> w) by congruence. tauto.
  - intros p u Hu. apply Hd. rewrite elem_of_app in *. rewrite elem_of_cons. tauto.
Qed.
Lemma up_ok s s' H1 H2 B v : sem_ok sem N (mkConfig s (H1 ++ current s :: H2) B) v -> up sc sem s = Ok (tt, s') -> exists v', sem_ok sem N (mkConfig s' (H1 ++ H2) B) v'.
Proof.
  intros [HI HS Hc Hnd Hq Hd] He. cbn [ckst inside between] in *. rewrite length_app in Hc. cbn [length] in Hc. destruct (runs_elim _ _ _ _ _ (up_runs s sem v HI HS ltac:(lia)) He) as (HI'&_&Hrun&Hu). destruct (queue_of s sem) as [|w ws] eqn:Hqs.
  - destruct Hu as (HS'&Hp&Hqq&Hw). exists (v + 1). assert (Hqe : queue_of s' sem = queue_of s sem) by (unfold queue_of; by rewrite Hqq). split; cbn [ckst inside between]; try done.
    + rewrite (granted_ext s s') by (intros; by rewrite Hqe). rewrite length_app. lia.
    + by rewrite Hqe, Hqs.
    + intros p u Hu. apply (in_down_same s s'); [done|by rewrite Hw|by rewrite Hp|by apply Hd].
  - destruct Hu as (HS'&Hqe&x&Hx&Hf&Hxq&Hr&Hwt&Hws&Hkeep). exists v. pose proof (sm_nodup _ _ _ HS) as Hqn. rewrite Hqs in Hqn. split; cbn [ckst inside between]; try done.
    + rewrite (granted_grant s s' sem B w ws), length_app; [lia|done|done|done|done|apply Hq; left].
    + intros u. rewrite Hqe. intros Hin. apply Hq. by right.
    + intros p u Hin. unfold in_down. rewrite Hqe. destruct (Hd p u Hin) as [[Hu Hpw]|(Hu&Hrn&xu&Hxu)]; rewrite Hqs in Hu.
      * apply elem_of_cons in Hu as [->|Hu]; [right|left; split; [done|by apply Hkeep]]. split; [by apply NoDup_cons in Hqn as [? _]|].
        rewrite (waiting_fun _ _ _ _ _ Hpw Hwt). split; [done|]. by exists x.
      * right. rewrite elem_of_cons in Hu. split; [tauto|]. split; [by apply Hrun|]. exists xu. by rewrite Hws by tauto.
Qed.
Lemma schedule_ok s s' H B v : sem_ok sem N (mkConfig s H B) v -> schedule sc s = Ok (tt, s') -> sem_ok sem N (mkConfig s' H B) v.
Proof.
  intros [HI HS Hc Hnd Hq Hd] He. cbn [ckst inside between] in *. destruct (runs_elim _ _ _ _ _ (schedule_runs s HI) He) as ((Ht&_&Hws&Hqs&Hss&_)&HI'&Hsame&_).
  assert (Hqe : queue_of s' sem = queue_of s sem) by (unfold queue_of; by rewrite Hqs). split; cbn [ckst inside between]; try done.
  - apply (SemInv_frame s s' sem v v HS); rewrite ?Hqe, ?Hss; try apply HS; try done. intros u p _. apply waiting_same; [by rewrite Hws|done].
  - by rewrite (granted_ext s s') by (intros; by rewrite Hqe).
  - by rewrite Hqe.
  - intros p u Hu. apply (in_down_same s s'); [done|by rewrite Hws|done|by apply Hd].
Qed.

Lemma sem_step_ok c c' : (exists v, sem_ok sem N c v) -> sem_step sem c c' -> exists v, sem_ok sem N c' v.
Proof. intros [v Hok] Hst. revert Hok. destruct Hst; intros Hok; [eexists; by eapply enter_ok|eexists; by eapply sleep_ok|eexists; by eapply leave_ok|by eapply up_ok|eexists; by eapply schedule_ok]. Qed.
Lemma sem_reach_ok c c' : rtc (sem_step sem) c c' -> (exists v, sem_ok sem N c v) -> exists v, sem_ok sem N c' v.
Proof. induction 1 as [c|c1 c2 c3 Hst _ IH]; [done|]. intros H0. apply IH. by eapply sem_step_ok. Qed.
End Steps.
End SemInv.

(** ** Theorems *)

(** C23: In every state the machine reaches from a fresh semaphore of value [N], the
    value, the processes inside and those let in that are not yet back from [down] add
    up to [N]: with [N = 1] (the lock of an address space) at most one process is inside
    or on its way in.  A process that is in [down] either sleeps in the queue, and then
    the value is zero, or it has been let in, and then it is runnable and the rest of its
    [down] returns without tripping an assertion; so no wakeup is lost.  The queue holds
    the waits of such processes only, and the [up] of a process inside does not fail. *)
Theorem semaphore_counts {sc} `{!SchedOk sc} sem N s0 s H B :
  SInv (sc := sc) s0 -> SemInv s0 sem N -> queue_of s0 sem = [] -> rtc (sem_step (sc := sc) sem) (mkConfig s0 [] []) (mkConfig s H B) ->
  exists v, SemInv s sem v /\ v + Z.of_nat (length H) + Z.of_nat (length (granted s sem B)) = N /\ 0 <= v /\
    (N = 1 -> (length H + length (granted s sem B) <= 1)%nat) /\
    (forall p w, (p, w) ∈ B ->
       (w ∈ queue_of s sem /\ v = 0 /\ waiting s sem w p) \/
       ((w ∉ queue_of s sem) /\ runnable (procs s) p /\ runs (down_leave sem w) s (fun _ s' => s' = s))) /\
    (forall w, w ∈ queue_of s sem -> exists p, (p, w) ∈ B) /\
    (H <> [] -> runs (up sc sem) s (fun _ _ => True)).
Proof.
  intros HI HS Hq0 Hr. pose proof (sm_range _ _ _ HS) as HN.
  destruct (sem_reach_ok (sc := sc) sem N ltac:(lia) _ _ Hr) as [v [HI' HS' Hn Hnd Hq Hd]].
  { exists N. split; cbn [ckst inside between]; try done; [unfold granted; cbn; lia|constructor|rewrite Hq0; by intros w []%elem_of_nil|by intros p w []%elem_of_nil]. }
  cbn [ckst inside between] in *. pose proof (sm_range _ _ _ HS') as Hrg. exists v. split; [done|]. split; [done|]. split; [lia|]. split; [lia|]. split.
  - intros p w Hin. destruct (Hd p w Hin) as [[Hw Hwt]|(Hw&Hrn&x&Hx&Hf&Hxq)]; [left|right].
    + split; [done|]. split; [|done]. destruct (decide (0 < v)) as [Hv|]; [|lia]. rewrite (sm_empty _ _ _ HS' Hv) in Hw. by apply elem_of_nil in Hw.
    + split; [done|]. split; [done|]. apply (down_leave_runs s sem w x Hx Hf). by rewrite Hxq.
  - split; [intros w Hw; apply Hq, list_elem_of_fmap in Hw as ([p w']&->&Hin); by exists p|]. intros HH. destruct H as [|h H]; [done|]. cbn [length] in Hn.
    eapply runs_mono; [apply (up_runs s sem v HI' HS'); lia|done].
Qed.

(** [up] never fails in a state of the machine: with nobody waiting it raises
    the value; otherwise the process that has waited longest is taken off the
    queue and made runnable, and its [down] will return normally. *)
Theorem up_serves_first {sc} `{!SchedOk sc} s sem v :
  SInv (sc := sc) s -> SemInv s sem v -> v + 1 < 2147483647 ->
  runs (up sc sem) s (fun _ s' => SInv (sc := sc) s' /\
    match queue_of s sem with
    | [] => SemInv s' sem (v + 1)
    | w :: ws => SemInv s' sem v /\ queue_of s' sem = ws /\
        exists x, waits s' !! w = Some x /\ waiting s sem w (w_proc x) /\ runnable (procs s') (w_proc x) /\
          runs (down_leave sem w) s' (fun _ s'' => s'' = s')
    end).
Proof.
  intros HI HS Hv. eapply runs_mono; [by apply up_runs|]. cbn beta. intros _ s' (HI'&_&_&Hu). split; [done|].
  pose proof (sm_nodup _ _ _ HS) as Hnd. destruct (queue_of s sem) as [|w ws] eqn:Hq; [by destruct Hu|].
  destruct Hu as (HS'&Hq'&x&Hx&Hf&Hqe&Hr&Hw&_). split; [done|]. split; [done|]. exists x. split_and!; try done.
  apply (down_leave_runs s' sem w x Hx Hf). rewrite Hqe, Hq'. by apply NoDup_cons in Hnd as [? _].
Qed.

(** ** A semaphore of the concrete machine: value 0, process 5 waiting *)

Definition ex_sem : kst :=
  set_sems {[200 := 0]} (set_queues {[200 := [300]]} (set_waits {[300 := mkWait 5 WT_INTERRUPTED 200]}
    (set_procs (<[5 := ex_proc PROC_SLEEPING 4 WT_KSEM]> (procs ex_k)) ex_k))).
Definition ex_mutex : kst := set_sems {[200 := 1]} ex_k.

Lemma ex_sem_inv : SInv (sc := default_sched_class) ex_sem.
Proof.
  pose proof ex_k_inv as HI. split; cbn.
  - apply HI.
  - intros p Hp. destruct (si_queued ex_k HI p Hp) as (?&?&g&Hg&Hst). split; [done|]. split; [done|]. exists g.
    rewrite lookup_insert_ne; [done|]. intros <-. cbn in Hg. by injection Hg as <-.
  - intros p g. rewrite lookup_insert. case_decide; [intros [= <-]; done|]. apply (si_all ex_k HI).
  - by eexists.
  - by eexists.
Qed.

Lemma ex_sem_rep : SemInv ex_sem 200 0.
Proof.
  assert (Hw : waiting ex_sem 200 300 5) by (eexists _, _; split_and!; reflexivity).
  split; try done.
  - apply NoDup_singleton.
  - intros w Hin. change (w ∈ [300]) in Hin. apply list_elem_of_singleton in Hin as ->. by exists 5.
  - intros w w' p Hin Hin' _ _. change (w ∈ [300]) in Hin. change (w' ∈ [300]) in Hin'.
    apply list_elem_of_singleton in Hin as ->. by apply list_elem_of_singleton in Hin' as ->.
Qed.

Lemma ex_mutex_rep : SInv (sc := default_sched_class) ex_mutex /\ SemInv ex_mutex 200 1.
Proof.
  split; [pose proof ex_k_inv as []; by split|]. split; try done.
  - apply NoDup_nil_2.
  - intros w Hin. change (w ∈ @nil Z) in Hin. by apply elem_of_nil in Hin.
  - intros w w' p Hin. change (w ∈ @nil Z) in Hin. by apply elem_of_nil in Hin.
Qed.

(** Process 2 takes the lock, 3 finds it taken and sleeps, 4 runs, and 2 gives the lock to 3. *)
Definition state_after {A} (o : outcome (A * kst)) : kst := match o with Ok (_, s) => s | _ => ex_k end.
Definition ex_mutex1 : kst := Eval vm_compute in state_after (down_enter 200 301 ex_mutex).
Definition ex_mutex2 : kst := Eval vm_compute in state_after (schedule default_sched_class ex_mutex1).
Definition ex_mutex3 : kst := Eval vm_compute in state_after (down_enter 200 302 ex_mutex2).
Definition ex_mutex4 : kst := Eval vm_compute in state_after (schedule default_sched_class ex_mutex3).
Definition ex_mutex5 : kst := Eval vm_compute in state_after (schedule default_sched_class ex_mutex4).
Definition ex_mutex6 : kst := Eval vm_compute in state_after (up default_sched_class 200 ex_mutex5).

Lemma not_in_empty (x : Z) : x ∉ @nil Z.
Proof. by intros []%elem_of_nil. Qed.
Lemma ex_may_down s H w : queues s = ∅ -> (exists g, procs s !! current s = Some g /\ state g = PROC_RUNNABLE) -> current s <> idleproc s -> may_down (mkConfig s H []) w.
Proof. intros Hq Hr Hi. split; [exact Hr|]. split; [done|]. split; [|split; apply not_in_empty]. intros q. unfold queue_of. cbn [ckst]. rewrite Hq, lookup_empty. apply not_in_empty. Qed.
Lemma ex_sem_run : rtc (sem_step (sc := default_sched_class) 200) (mkConfig ex_mutex [] []) (mkConfig ex_mutex5 [2] [(3, 302)]).
Proof.
  eapply rtc_l; [apply (step_enter 200 ex_mutex 301 ex_mutex1); [apply ex_may_down; [done|by eexists|done]|vm_compute; reflexivity]|].
  eapply rtc_l; [apply (step_schedule 200 ex_mutex1 ex_mutex2); vm_compute; reflexivity|].
  eapply rtc_l; [apply (step_sleep 200 ex_mutex2 302 ex_mutex3); [apply ex_may_down; [done|by eexists|done]|vm_compute; reflexivity]|].
  eapply rtc_l; [apply (step_schedule 200 ex_mutex3 ex_mutex4); vm_compute; reflexivity|].
  eapply rtc_l; [apply (step_schedule 200 ex_mutex4 ex_mutex5); vm_compute; reflexivity|apply rtc_refl].
Qed.

Lemma semaphore_counts_witness :
  waiting ex_mutex5 200 302 3 /\ runnable (procs ex_mutex6) 3 /\ runs (down_leave 200 302) ex_mutex6 (fun _ s' => s' = ex_mutex6).
Proof.
  pose proof ex_sem_run as Hr. split.
  - destruct (semaphore_counts (sc := default_sched_class) 200 1 ex_mutex ex_mutex5 [2] [(3, 302)] (proj1 ex_mutex_rep) (proj2 ex_mutex_rep) eq_refl Hr) as (v&_&_&_&_&Hd&_).
    destruct (Hd 3 302 ltac:(left)) as [(_&_&Hw)|[Hq _]]; [exact Hw|]. exfalso. apply Hq. change (302 ∈ [302]). left.
  - destruct (semaphore_counts (sc := default_sched_class) 200 1 ex_mutex ex_mutex6 [] [(3, 302)] (proj1 ex_mutex_rep) (proj2 ex_mutex_rep) eq_refl) as (v&_&_&_&_&Hd&_).
    + eapply rtc_r; [exact Hr|]. apply (step_up 200 ex_mutex5 ex_mutex6 [] []); [|vm_compute; reflexivity]. cbn. intros [Hn|Hn]%elem_of_cons; [discriminate Hn|by apply elem_of_nil in Hn].
    + destruct (Hd 3 302 ltac:(left)) as [[Hq _]|(_&H3&H4)]; [|split; [exact H3|exact H4]]. exfalso. revert Hq. change (302 ∉ @nil Z). apply not_in_empty.
Defined.

Lemma up_serves_first_witness :
  runs (up default_sched_class 200) ex_sem (fun _ s' => queue_of s' 200 = [] /\
    exists x, waits s' !! 300 = Some x /\ runnable (procs s') (w_proc x)).
Proof.
  eapply runs_mono; [apply (up_serves_first ex_sem 200 0 ex_sem_inv ex_sem_rep)|].
  - reflexivity.
  - cbn beta. intros _ s' (_&_&Hq&x&Hx&_&Hr&_). split; [exact Hq|]. exists x. split; [exact Hx|exact Hr].
Defined.
