(* ===== verification/Vfs.v ===== *)
(** * Inodes, the virtual file system and open files (kern/fs)

    Models inode.c, vfs.c, vfsdev.c, vfslookup.c, vfspath.c, vfsfile.c, file.c,
    fs.c and iobuf.c.  Pointers to [struct inode], [struct fs] and
    [struct fs_struct] are integers; a [struct file *] is the owner of the file
    map with the index in it.  A file system enters through the two tables of
    function pointers the code reaches it by, [inode_ops] and the [fs_get_root]
    of [struct fs]; what is private to it is the type parameter [X].  A C string
    is the list of its bytes before the NUL.  Whether [kmalloc] finds memory, and
    where, is an argument.  The semaphores around the lists (Sync.v) only make
    each operation uninterrupted, which is how it is modelled. *)

From stdpp Require Import base gmap list.
From Stdlib Require Import ZArith Lia Bool.
From S2P Require Import Prelude.
From S2P Require Import Atomic.
From S2P Require Import Vmm.

Definition E_TOO_BIG := 12.
Definition E_NO_DEV := 13.
Definition E_NA_DEV := 14.
Definition E_NOENT := 16.
Definition E_ISDIR := 17.
Definition E_NOTDIR := 18.
Definition E_UNIMP := 20.
Definition E_EXISTS := 23.

Definition O_RDONLY : Z := 0.
Definition O_WRONLY : Z := 1.
Definition O_RDWR : Z := 2.
Definition O_CREAT : Z := 4.
Definition O_EXCL : Z := 8.
Definition O_TRUNC : Z := 16.
Definition O_APPEND : Z := 32.
Definition O_ACCMODE : Z := 3.
Definition NO_FD : Z := -0x9527.
Definition LSEEK_SET : Z := 0.
Definition LSEEK_CUR : Z := 1.
Definition LSEEK_END : Z := 2.
Definition FS_MAX_DNAME_LEN : Z := 31.
Definition S_IFMT : Z := 28672.
Definition S_IFREG : Z := 4096.
Definition S_IFDIR : Z := 8192.
Definition S_IFLNK : Z := 12288.
Definition S_IFCHR : Z := 16384.
Definition S_IFBLK : Z := 20480.
Definition S_ISDIR (mode : Z) : bool := Z.land mode S_IFMT =? S_IFDIR.
Definition MAX_INODE_COUNT : Z := 0x10000.
(** [FS_STRUCT_BUFSIZE / sizeof(struct file)] = (4096 - 24) / 28. *)
Definition FS_STRUCT_NENTRY : Z := 145.

(** ** I/O buffers *)

Record iobuf := mkIob { io_base : Z; io_offset : Z; io_len : Z; io_resid : Z }.

Definition iobuf_init (base len offset : Z) : iobuf := mkIob base offset len len.
Definition iobuf_used (iob : iobuf) : Z := u32 (io_len iob - io_resid iob).

(** The kernel's byte memory is the state of the two routines that move data. *)
Definition iobuf_skip (iob : iobuf) (n : Z) : M bytes iobuf :=
  do! assert_ (n <=? io_resid iob) in
  ret (mkIob (u32 (io_base iob + n)) (s32 (io_offset iob + n)) (io_len iob) (io_resid iob - n)).

(** Return value, the buffer and [*copiedp]. *)
Definition iobuf_move (iob : iobuf) (data len : Z) (m2b : bool) : M bytes (Z * iobuf * Z) :=
  let alen := if len <? io_resid iob then len else io_resid iob in
  let! r := (if 0 <? alen then
               let src := if m2b then data else io_base iob in
               let dst := if m2b then io_base iob else data in
               do! modify (bcopy dst src alen) in
               let! iob' := iobuf_skip iob alen in ret (iob', len - alen)
             else ret (iob, len)) in
  ret (if snd r =? 0 then 0 else - E_NO_MEM, fst r, alen).

Definition bzero (dst n : Z) (m : bytes) : bytes :=
  fun x => if (dst <=? x) && (x <? dst + n) then 0 else m x.
Definition iobuf_move_zeros (iob : iobuf) (len : Z) : M bytes (Z * iobuf * Z) :=
  let alen := if len <? io_resid iob then len else io_resid iob in
  let! r := (if 0 <? alen then
               do! modify (bzero (io_base iob) alen) in
               let! iob' := iobuf_skip iob alen in ret (iob', len - alen)
             else ret (iob, len)) in
  ret (if snd r =? 0 then 0 else - E_NO_MEM, fst r, alen).

(** ** The state *)

Definition path := list Z.
Definition SLASH : Z := 47.
Definition COLON : Z := 58.

Record stat := mkStat { st_mode : Z; st_nlinks : Z; st_blocks : Z; st_size : Z }.

Record inode := mkInode { ref_count : Z; open_count : Z; in_type : Z; in_fs : option Z; in_ops : Z }.
Definition inode_type_device_info : Z := 0x1234.
Definition inode_type_sfs_inode_info : Z := 0x1235.

Inductive fd_status := FD_NONE | FD_INIT | FD_OPENED | FD_CLOSED.
#[export] Instance fd_status_eq : EqDecision fd_status.
Proof. solve_decision. Defined.

Record file := mkFile {
  status : fd_status; readable : bool; writable : bool;
  f_fd : Z; pos : Z; node : option Z; f_count : Z
}.
Definition set_status v f := mkFile v (readable f) (writable f) (f_fd f) (pos f) (node f) (f_count f).
Definition set_mode r w f := mkFile (status f) r w (f_fd f) (pos f) (node f) (f_count f).
Definition set_pos v f := mkFile (status f) (readable f) (writable f) (f_fd f) v (node f) (f_count f).
Definition set_node v f := mkFile (status f) (readable f) (writable f) (f_fd f) (pos f) v (f_count f).
Definition set_f_count v f := mkFile (status f) (readable f) (writable f) (f_fd f) (pos f) (node f) v.

Record fs_struct := mkFsS { pwd : option Z; fs_count : Z }.
Record vfs_dev_t := mkVdev { devname : path; devnode : option Z; vdev_fs : option Z; mountable : bool }.

Record fst_ (X : Type) := mkFst {
  inodes : gmap Z inode;
  files : gmap (Z * Z) file;
  fss : gmap Z fs_struct;
  curfs : option Z;            (* current->fs_struct *)
  vdev_list : list vfs_dev_t;
  bootfs_node : option Z;
  fmem : bytes;
  priv : X
}.
Arguments mkFst {X}. Arguments inodes {X}. Arguments files {X}. Arguments fss {X}. Arguments curfs {X}.
Arguments vdev_list {X}. Arguments bootfs_node {X}. Arguments fmem {X}. Arguments priv {X}.

Section Vfs.
Context {X : Type}.
Abbreviation st := (fst_ X).

Definition set_inodes v (s : st) : st := mkFst v (files s) (fss s) (curfs s) (vdev_list s) (bootfs_node s) (fmem s) (priv s).
Definition set_files v (s : st) : st := mkFst (inodes s) v (fss s) (curfs s) (vdev_list s) (bootfs_node s) (fmem s) (priv s).
Definition set_fss v (s : st) : st := mkFst (inodes s) (files s) v (curfs s) (vdev_list s) (bootfs_node s) (fmem s) (priv s).
Definition set_vdev_list v (s : st) : st := mkFst (inodes s) (files s) (fss s) (curfs s) v (bootfs_node s) (fmem s) (priv s).
Definition set_bootfs v (s : st) : st := mkFst (inodes s) (files s) (fss s) (curfs s) (vdev_list s) v (fmem s) (priv s).
Definition set_fmem v (s : st) : st := mkFst (inodes s) (files s) (fss s) (curfs s) (vdev_list s) (bootfs_node s) v (priv s).
Definition set_priv v (s : st) : st := mkFst (inodes s) (files s) (fss s) (curfs s) (vdev_list s) (bootfs_node s) (fmem s) v.

Record inode_ops := mkOps {
  op_open : option (Z -> Z -> M st Z);
  op_close : option (Z -> M st Z);
  op_read : option (Z -> iobuf -> M st (Z * iobuf));
  op_write : option (Z -> iobuf -> M st (Z * iobuf));
  op_fstat : option (Z -> M st (Z * stat));
  op_fsync : option (Z -> M st Z);
  op_namefile : option (Z -> iobuf -> M st (Z * iobuf));
  op_getdirentry : option (Z -> iobuf -> M st (Z * iobuf));
  op_reclaim : option (Z -> M st Z);
  op_gettype : option (Z -> M st (Z * Z));
  op_tryseek : option (Z -> Z -> M st Z);
  op_truncate : option (Z -> Z -> M st Z);
  op_create : option (Z -> path -> bool -> M st (Z * option Z));
  op_lookup : option (Z -> path -> M st (Z * option Z))
}.
(** The operations of [struct fs]. *)
Record fs_ops := mkFsOps {
  fs_sync : Z -> M st Z;
  fs_get_root : Z -> M st Z;
  fs_unmount : Z -> M st Z;
  fs_cleanup : Z -> M st unit
}.

(** The tables [in_ops] points to, and the operations of a mounted file system. *)
Variable optab : Z -> inode_ops.
Variable fsop : fs_ops.

Definition on_mem {A} (m : M bytes A) : M st A := zoom fmem set_fmem m.

(** ** inode.c *)

Definition rd_inode (n : Z) : M st inode := let! s := get in deref (inodes s !! n).
Definition wr_inode (n : Z) (i : inode) : M st unit := modify (fun s => set_inodes (<[n := i]> (inodes s)) s).
Definition set_ref v i := mkInode v (open_count i) (in_type i) (in_fs i) (in_ops i).
Definition set_open v i := mkInode (ref_count i) v (in_type i) (in_fs i) (in_ops i).

Definition alloc_inode (new : option Z) (type : Z) : M st (option Z) :=
  match new with
  | None => ret None
  | Some n => do! wr_inode n (mkInode 0 0 type None 0) in ret (Some n)
  end.

Definition inode_ref_inc (n : Z) : M st Z :=
  let! i := rd_inode n in
  let c := atomic_add_return 1 (ref_count i) in
  do! wr_inode n (set_ref c i) in ret c.

Definition inode_init (n ops : Z) (fs : option Z) : M st unit :=
  let! i := rd_inode n in
  do! wr_inode n (mkInode 0 0 (in_type i) fs ops) in
  do! inode_ref_inc n in ret tt.

Definition inode_kill (n : Z) : M st unit :=
  let! i := rd_inode n in
  do! assert_ (ref_count i =? 0) in
  do! assert_ (open_count i =? 0) in
  modify (fun s => set_inodes (delete n (inodes s)) s).

Definition inode_check (i : inode) : M st unit :=
  do! assert_ ((open_count i <=? ref_count i) && (0 <=? open_count i)) in
  assert_ ((ref_count i <? MAX_INODE_COUNT) && (open_count i <? MAX_INODE_COUNT)).

(** [__vop_op]: the function the table holds, after the check. *)
Definition vop {A} (sym : inode_ops -> option A) (n : Z) : M st A :=
  let! i := rd_inode n in
  match sym (optab (in_ops i)) with
  | None => panic
  | Some f => do! inode_check i in ret f
  end.

Definition inode_ref_dec (n : Z) : M st Z :=
  let! i := rd_inode n in
  do! assert_ (0 <? ref_count i) in
  let c := atomic_sub_return 1 (ref_count i) in
  do! wr_inode n (set_ref c i) in
  do! (if c =? 0 then let! f := vop op_reclaim n in do! f n in ret tt else ret tt) in
  ret c.

Definition inode_open_inc (n : Z) : M st Z :=
  let! i := rd_inode n in
  let c := atomic_add_return 1 (open_count i) in
  do! wr_inode n (set_open c i) in ret c.

Definition inode_open_dec (n : Z) : M st Z :=
  let! i := rd_inode n in
  do! assert_ (0 <? open_count i) in
  let c := atomic_sub_return 1 (open_count i) in
  do! wr_inode n (set_open c i) in
  do! (if c =? 0 then let! f := vop op_close n in do! f n in ret tt else ret tt) in
  ret c.

(** ** vfs.c, vfspath.c *)

Definition curfs_ptr : M st Z := let! s := get in deref (curfs s).
Definition rd_fs (p : Z) : M st fs_struct := let! s := get in deref (fss s !! p).
Definition wr_fs (p : Z) (v : fs_struct) : M st unit := modify (fun s => set_fss (<[p := v]> (fss s)) s).

Definition get_cwd_nolock : M st (option Z) := let! p := curfs_ptr in let! v := rd_fs p in ret (pwd v).
Definition set_cwd_nolock (d : option Z) : M st unit :=
  let! p := curfs_ptr in let! v := rd_fs p in wr_fs p (mkFsS d (fs_count v)).

Definition vfs_get_curdir : M st (Z * option Z) :=
  let! node := get_cwd_nolock in
  match node with
  | Some n => do! inode_ref_inc n in ret (0, Some n)
  | None => ret (- E_NOENT, None)
  end.

Definition vfs_set_curdir (dir : option Z) : M st Z :=
  let! old_dir := get_cwd_nolock in
  if decide (old_dir = dir) then ret 0
  else
    let! r := match dir with
              | Some d =>
                  let! f := vop op_gettype d in
                  let! rt := f d in
                  if negb (fst rt =? 0) then ret (fst rt)
                  else if negb (S_ISDIR (snd rt)) then ret (- E_NOTDIR)
                  else do! inode_ref_inc d in ret 0
              | None => ret 0
              end in
    if negb (r =? 0) then ret r
    else
      do! set_cwd_nolock dir in
      do! match old_dir with Some o => do! inode_ref_dec o in ret tt | None => ret tt end in
      ret 0.

Definition change_bootfs (node : option Z) : M st unit :=
  let! s := get in
  let old := bootfs_node s in
  do! modify (set_bootfs node) in
  match old with Some o => do! inode_ref_dec o in ret tt | None => ret tt end.

Definition vfs_get_bootfs : M st (Z * option Z) :=
  let! s := get in
  match bootfs_node s with
  | Some n => do! inode_ref_inc n in ret (0, Some n)
  | None => ret (- E_NOENT, None)
  end.

(** ** vfsdev.c *)

Definition streq (a b : path) : bool := bool_decide (a = b).

(** [while ((le = list_next(le)) != list)] of the lookups by name. *)
Fixpoint find_vdev (l : list vfs_dev_t) (name : path) : option vfs_dev_t :=
  match l with
  | [] => None
  | v :: l => if streq name (devname v) then Some v else find_vdev l name
  end.

Definition vfs_get_root (name : path) : M st (Z * option Z) :=
  let! s := get in
  match find_vdev (vdev_list s) name with
  | None => ret (- E_NO_DEV, None)
  | Some v =>
      let! found := match vdev_fs v with
                    | Some fs => let! n := fs_get_root fsop fs in ret (Some n)
                    | None => if negb (mountable v) then
                                let! d := deref (devnode v) in
                                do! inode_ref_inc d in ret (Some d)
                              else ret None
                    end in
      match found with
      | Some n => ret (0, Some n)
      | None => ret (- E_NA_DEV, None)
      end
  end.

Fixpoint vfs_get_devname (l : list vfs_dev_t) (fs : Z) : option path :=
  match l with
  | [] => None
  | v :: l => if decide (vdev_fs v = Some fs) then Some (devname v) else vfs_get_devname l fs
  end.

Fixpoint check_devname_conflict (l : list vfs_dev_t) (name : path) : bool :=
  match l with
  | [] => true
  | v :: l => if streq (devname v) name then false else check_devname_conflict l name
  end.

(** [strdup_ok], [kmalloc_ok]: the two allocations. *)
Definition vfs_do_add (strdup_ok kmalloc_ok : bool) (name : path) (dn fs : option Z) (mnt : bool) : M st Z :=
  do! match dn with
      | None => assert_ (negb mnt)
      | Some d => let! i := rd_inode d in assert_ (in_type i =? inode_type_device_info)
      end in
  if FS_MAX_DNAME_LEN <? Z.of_nat (length name) then ret (- E_TOO_BIG)
  else if negb strdup_ok then ret (- E_NO_MEM)
  else if negb kmalloc_ok then ret (- E_NO_MEM)
  else
    let! s := get in
    if negb (check_devname_conflict (vdev_list s) name) then ret (- E_EXISTS)
    else do! modify (set_vdev_list (mkVdev name dn fs mnt :: vdev_list s)) in ret 0.

Definition vfs_add_fs (ok1 ok2 : bool) (name : path) (fs : option Z) : M st Z := vfs_do_add ok1 ok2 name None fs false.
Definition vfs_add_dev (ok1 ok2 : bool) (name : path) (dn : option Z) (mnt : bool) : M st Z :=
  vfs_do_add ok1 ok2 name dn None mnt.

Fixpoint find_mount (l : list vfs_dev_t) (name : path) : option vfs_dev_t :=
  match l with
  | [] => None
  | v :: l => if mountable v && streq (devname v) name then Some v else find_mount l name
  end.

(** A write to [vdev->fs] of the entry called [name]; names are unique. *)
Definition set_vdev_fs (name : path) (fs : option Z) : M st unit :=
  modify (fun s => set_vdev_list
    (map (fun v => if streq (devname v) name then mkVdev (devname v) (devnode v) fs (mountable v) else v) (vdev_list s)) s).

(** [mountfunc] stores the file system it made. *)
Definition vfs_mount (name : path) (mountfunc : Z -> M st (Z * option Z)) : M st Z :=
  let! s := get in
  match find_mount (vdev_list s) name with
  | None => ret (- E_NO_DEV)
  | Some v =>
      if bool_decide (is_Some (vdev_fs v)) then ret (- E_BUSY)
      else
        do! assert_ (mountable v) in
        let! d := deref (devnode v) in
        let! i := rd_inode d in
        do! assert_ (in_type i =? inode_type_device_info) in
        let! r := mountfunc d in
        do! (if fst r =? 0 then do! assert_ (bool_decide (is_Some (snd r))) in set_vdev_fs name (snd r) else ret tt) in
        ret (fst r)
  end.

Definition vfs_unmount (name : path) : M st Z :=
  let! s := get in
  match find_mount (vdev_list s) name with
  | None => ret (- E_NO_DEV)
  | Some v =>
      match vdev_fs v with
      | None => ret (- E_INVAL)
      | Some fs =>
          do! assert_ (mountable v) in
          let! r := fs_sync fsop fs in
          if negb (r =? 0) then ret r
          else
            let! r := fs_unmount fsop fs in
            do! (if r =? 0 then set_vdev_fs name None else ret tt) in ret r
      end
  end.

Fixpoint unmount_loop (l : list vfs_dev_t) : M st unit :=
  match l with
  | [] => ret tt
  | v :: l =>
      do! match vdev_fs v with
          | Some fs => if mountable v then
                         let! r := fs_sync fsop fs in
                         if negb (r =? 0) then ret tt
                         else let! r := fs_unmount fsop fs in
                              if negb (r =? 0) then ret tt else set_vdev_fs (devname v) None
                       else ret tt
          | None => ret tt
          end in
      unmount_loop l
  end.
Definition vfs_unmount_all : M st Z := let! s := get in do! unmount_loop (vdev_list s) in ret 0.

Fixpoint cleanup_loop (l : list vfs_dev_t) : M st unit :=
  match l with
  | [] => ret tt
  | v :: l => do! match vdev_fs v with Some fs => fs_cleanup fsop fs | None => ret tt end in cleanup_loop l
  end.
Definition vfs_cleanup : M st unit := let! s := get in cleanup_loop (vdev_list s).

(** ** vfslookup.c *)

(** The loop over [path[i]]: [(colon, slash)], -1 where absent. *)
Fixpoint scan_path (p : path) (i : Z) : Z * Z :=
  match p with
  | [] => (-1, -1)
  | c :: p => if c =? COLON then (i, -1) else if c =? SLASH then (-1, i) else scan_path p (i + 1)
  end.
(** The [while] that steps over ['/'] bytes. *)
Fixpoint skip_slashes (p : path) : path :=
  match p with
  | [] => []
  | c :: p' => if c =? SLASH then skip_slashes p' else p
  end.

(** What [get_device] hands back: return value, subpath, inode, and what is left
    in the [path] buffer, where the colon is overwritten by NUL. *)
Record lookup_res := mkLk { lk_ret : Z; lk_sub : path; lk_node : option Z; lk_path : path }.

Definition get_device (p : path) : M st lookup_res :=
  let (colon, slash) := scan_path p 0 in
  if (colon <? 0) && negb (slash =? 0) then
    let! r := vfs_get_curdir in ret (mkLk (fst r) p (snd r) p)
  else if 0 <? colon then
    let dev := firstn (Z.to_nat colon) p in
    let sub := skip_slashes (skipn (Z.to_nat colon + 1) p) in
    let! r := vfs_get_root dev in ret (mkLk (fst r) sub (snd r) dev)
  else
    let sub := skip_slashes (tail p) in
    match p with
    | c :: _ =>
        if c =? SLASH then
          let! r := vfs_get_bootfs in
          if negb (fst r =? 0) then ret (mkLk (fst r) p None p) else ret (mkLk 0 sub (snd r) p)
        else
          do! assert_ (c =? COLON) in
          let! r := vfs_get_curdir in
          match snd r with
          | None => ret (mkLk (fst r) p None p)
          | Some n =>
              let! i := rd_inode n in
              match in_fs i with
              | None => panic
              | Some fs =>
                  let! root := fs_get_root fsop fs in
                  do! inode_ref_dec n in
                  ret (mkLk 0 sub (Some root) p)
              end
          end
    | [] => panic
    end.

(** Return value, inode, and the [path] buffer afterwards. *)
Definition vfs_lookup (p : path) : M st (Z * option Z * path) :=
  let! g := get_device p in
  if negb (lk_ret g =? 0) then ret (lk_ret g, None, lk_path g)
  else
    match lk_sub g with
    | [] => ret (0, lk_node g, lk_path g)
    | _ =>
        let! n := deref (lk_node g) in
        let! f := vop op_lookup n in
        let! r := f n (lk_sub g) in
        do! inode_ref_dec n in
        ret (fst r, snd r, lk_path g)
    end.

Definition vfs_lookup_parent (p : path) : M st (Z * option Z * path) :=
  let! g := get_device p in
  if negb (lk_ret g =? 0) then ret (lk_ret g, None, [])
  else ret (0, lk_node g, lk_sub g).

Definition vfs_chdir (p : path) : M st Z :=
  let! r := vfs_lookup p in
  let '(ret0, node, _) := r in
  if ret0 =? 0 then
    let! n := deref node in
    let! r := vfs_set_curdir (Some n) in
    do! inode_ref_dec n in ret r
  else ret ret0.

(** [(s = strchr(fsname, ':')) == NULL || s[1] != '\0'] fails: the only colon ends the name. *)
Fixpoint colon_ends (p : path) : bool :=
  match p with
  | [] => false
  | c :: p => if c =? COLON then match p with [] => true | _ => false end else colon_ends p
  end.
Definition vfs_set_bootfs (fsname : option path) : M st Z :=
  match fsname with
  | None => do! change_bootfs None in ret 0
  | Some p =>
      if negb (colon_ends p) then ret (- E_INVAL)
      else
        let! r := vfs_chdir p in
        if negb (r =? 0) then ret r
        else
          let! r := vfs_get_curdir in
          if negb (fst r =? 0) then ret (fst r) else do! change_bootfs (snd r) in ret 0
  end.

(** ** vfsfile.c *)

Definition vfs_open (p : path) (open_flags : Z) : M st (Z * option Z) :=
  let acc := Z.land open_flags O_ACCMODE in
  if negb ((acc =? O_RDONLY) || (acc =? O_WRONLY) || (acc =? O_RDWR)) then ret (- E_INVAL, None)
  else
    let can_write := (acc =? O_WRONLY) || (acc =? O_RDWR) in
    if negb (Z.land open_flags O_TRUNC =? 0) && negb can_write then ret (- E_INVAL, None)
    else
      let excl := negb (Z.land open_flags O_EXCL =? 0) in
      let create := negb (Z.land open_flags O_CREAT =? 0) in
      let! lk := vfs_lookup p in
      let '(r0, node, p') := lk in
      let! got := (if negb (r0 =? 0) then
                     if (r0 =? -16) && create then
                       let! d := vfs_lookup_parent p' in
                       let '(r1, dir, name) := d in
                       if negb (r1 =? 0) then ret (inl r1)
                       else
                         let! dn := deref dir in
                         let! f := vop op_create dn in
                         let! c := f dn name excl in
                         ret (inr (snd c))
                     else ret (inl r0)
                   else if excl && create then ret (inl (- E_EXISTS))
                   else ret (inr node)) in
      match got with
      | inl r => ret (r, None)
      | inr None => panic
      | inr (Some n) =>
          let! f := vop op_open n in
          let! r := f n open_flags in
          if negb (r =? 0) then do! inode_ref_dec n in ret (r, None)
          else
            do! inode_open_inc n in
            let! r := (if negb (Z.land open_flags O_TRUNC =? 0) || create then
                         let! f := vop op_truncate n in f n 0
                       else ret 0) in
            if negb (r =? 0) then
              do! inode_open_dec n in
              do! inode_ref_dec n in ret (r, None)
            else ret (0, Some n)
      end.

Definition vfs_close (n : Z) : M st Z :=
  do! inode_open_dec n in
  do! inode_ref_dec n in ret 0.

(** [devname] is a buffer of the kernel at [name_at]; [colon_at] holds [:]. *)
Definition vfs_getcwd (iob : iobuf) (name_at colon_at : Z) : M st (Z * iobuf) :=
  let! c := vfs_get_curdir in
  match snd c with
  | None => ret (fst c, iob)
  | Some n =>
      let! i := rd_inode n in
      match in_fs i with
      | None => panic
      | Some fs =>
          let! s := get in
          let! name := deref (vfs_get_devname (vdev_list s) fs) in
          let! m := on_mem (iobuf_move iob name_at (Z.of_nat (length name)) true) in
          let '(r, iob, _) := m in
          let! out := (if negb (r =? 0) then ret (r, iob)
                       else
                         let! m := on_mem (iobuf_move iob colon_at 1 true) in
                         let '(r, iob, _) := m in
                         if negb (r =? 0) then ret (r, iob)
                         else let! f := vop op_namefile n in f n iob) in
          do! inode_ref_dec n in ret out
      end
  end.

(** ** file.c *)

Abbreviation fptr := (Z * Z)%type.
Definition rd_file (f : fptr) : M st file := let! s := get in deref (files s !! f).
Definition upd_file (f : fptr) (g : file -> file) : M st unit :=
  let! x := rd_file f in modify (fun s => set_files (<[f := g x]> (files s)) s).

Definition testfd (fd : Z) : bool := (0 <=? fd) && (fd <? FS_STRUCT_NENTRY).

Definition get_filemap : M st Z :=
  let! s := get in
  match curfs s with
  | None => panic
  | Some p => let! v := rd_fs p in do! assert_ (0 <? fs_count v) in ret p
  end.

(** [for (fd = 0; fd < FS_STRUCT_NENTRY; ...)]; [k] entries are left.  The fields
    the loop does not set hold what the memory held, here zeros. *)
Fixpoint filemap_init_loop (k : nat) (m fd : Z) : M st unit :=
  match k with
  | O => ret tt
  | S k =>
      do! modify (fun s => set_files (<[(m, fd) := mkFile FD_NONE false false fd 0 None 0]> (files s)) s) in
      filemap_init_loop k m (fd + 1)
  end.
Definition filemap_init (m : Z) : M st unit := filemap_init_loop (Z.to_nat FS_STRUCT_NENTRY) m 0.

Fixpoint filemap_search (k : nat) (m fd : Z) : M st (option Z) :=
  match k with
  | O => ret None
  | S k =>
      let! f := rd_file (m, fd) in
      if decide (status f = FD_NONE) then ret (Some fd) else filemap_search k m (fd + 1)
  end.

Definition filemap_alloc (fd : Z) : M st (Z * option fptr) :=
  let! m := get_filemap in
  let! found := (if fd =? NO_FD then
                   let! r := filemap_search (Z.to_nat FS_STRUCT_NENTRY) m 0 in
                   match r with Some fd => ret (inr fd) | None => ret (inl (- E_MAX_OPEN)) end
                 else if testfd fd then
                   let! f := rd_file (m, fd) in
                   if decide (status f = FD_NONE) then ret (inr fd) else ret (inl (- E_BUSY))
                 else ret (inl (- E_INVAL))) in
  match found with
  | inl r => ret (r, None)
  | inr fd =>
      let! f := rd_file (m, fd) in
      do! assert_ (f_count f =? 0) in
      do! upd_file (m, fd) (fun f => set_node None (set_status FD_INIT f)) in
      ret (0, Some (m, fd))
  end.

Definition filemap_free (f : fptr) : M st unit :=
  let! x := rd_file f in
  do! assert_ (bool_decide (status x = FD_INIT \/ status x = FD_CLOSED)) in
  do! assert_ (f_count x =? 0) in
  do! (if decide (status x = FD_CLOSED) then let! n := deref (node x) in do! vfs_close n in ret tt else ret tt) in
  upd_file f (set_status FD_NONE).

Definition fopen_count_inc (f : fptr) : M st Z :=
  let! x := rd_file f in
  let c := atomic_add_return 1 (f_count x) in
  do! upd_file f (set_f_count c) in ret c.
Definition fopen_count_dec (f : fptr) : M st Z :=
  let! x := rd_file f in
  let c := atomic_sub_return 1 (f_count x) in
  do! upd_file f (set_f_count c) in ret c.

Definition filemap_acquire (f : fptr) : M st unit :=
  let! x := rd_file f in
  do! assert_ (bool_decide (status x = FD_OPENED)) in
  do! fopen_count_inc f in ret tt.

Definition filemap_release (f : fptr) : M st unit :=
  let! x := rd_file f in
  do! assert_ (bool_decide (status x = FD_OPENED \/ status x = FD_CLOSED)) in
  do! assert_ (0 <? f_count x) in
  let! c := fopen_count_dec f in
  if c =? 0 then filemap_free f else ret tt.

Definition filemap_open (f : fptr) : M st unit :=
  let! x := rd_file f in
  do! assert_ (bool_decide (status x = FD_INIT /\ is_Some (node x))) in
  do! upd_file f (set_status FD_OPENED) in
  do! fopen_count_inc f in ret tt.

Definition filemap_close (f : fptr) : M st unit :=
  let! x := rd_file f in
  do! assert_ (bool_decide (status x = FD_OPENED)) in
  do! assert_ (0 <? f_count x) in
  do! upd_file f (set_status FD_CLOSED) in
  let! c := fopen_count_dec f in
  if c =? 0 then filemap_free f else ret tt.

Definition filemap_dup (to from : fptr) : M st unit :=
  let! t := rd_file to in
  let! x := rd_file from in
  do! assert_ (bool_decide (status t = FD_INIT /\ status x = FD_OPENED)) in
  do! upd_file to (set_pos (pos x)) in
  do! upd_file to (set_mode (readable x) (writable x)) in
  let! n := deref (node x) in
  do! inode_ref_inc n in
  do! inode_open_inc n in
  do! upd_file to (set_node (Some n)) in
  filemap_open to.

Definition fd2file (fd : Z) : M st (Z * option fptr) :=
  if testfd fd then
    let! m := get_filemap in
    let! x := rd_file (m, fd) in
    if bool_decide (status x = FD_OPENED /\ f_fd x = fd) then ret (0, Some (m, fd)) else ret (- E_INVAL, None)
  else ret (- E_INVAL, None).

Definition file_testfd (fd : Z) (rd wr : bool) : M st bool :=
  let! r := fd2file fd in
  match snd r with
  | None => ret false
  | Some f =>
      let! x := rd_file f in
      if rd && negb (readable x) then ret false
      else if wr && negb (writable x) then ret false
      else ret true
  end.

Definition file_open (p : path) (open_flags : Z) : M st Z :=
  let acc := Z.land open_flags O_ACCMODE in
  if negb ((acc =? O_RDONLY) || (acc =? O_WRONLY) || (acc =? O_RDWR)) then ret (- E_INVAL)
  else
    let rd := (acc =? O_RDONLY) || (acc =? O_RDWR) in
    let wr := (acc =? O_WRONLY) || (acc =? O_RDWR) in
    let! a := filemap_alloc NO_FD in
    match snd a with
    | None => ret (fst a)
    | Some f =>
        let! o := vfs_open p open_flags in
        match snd o with
        | None => do! filemap_free f in ret (fst o)
        | Some n =>
            do! upd_file f (set_pos 0) in
            let! r := (if negb (Z.land open_flags O_APPEND =? 0) then
                         let! g := vop op_fstat n in
                         let! st := g n in
                         if negb (fst st =? 0) then
                           do! vfs_close n in do! filemap_free f in ret (fst st)
                         else do! upd_file f (set_pos (s32 (st_size (snd st)))) in ret 0
                       else ret 0) in
            if negb (r =? 0) then ret r
            else
              do! upd_file f (set_node (Some n)) in
              do! upd_file f (set_mode rd wr) in
              do! filemap_open f in
              let! x := rd_file f in ret (f_fd x)
        end
    end.

Definition file_close (fd : Z) : M st Z :=
  let! r := fd2file fd in
  match snd r with
  | None => ret (fst r)
  | Some f => do! filemap_close f in ret 0
  end.

(** Return value and [*copied_store]. *)
Definition file_rw (may : file -> bool) (op : inode_ops -> option (Z -> iobuf -> M st (Z * iobuf)))
    (fd base len : Z) : M st (Z * Z) :=
  let! r := fd2file fd in
  match snd r with
  | None => ret (fst r, 0)
  | Some f =>
      let! x := rd_file f in
      if negb (may x) then ret (- E_INVAL, 0)
      else
        do! filemap_acquire f in
        let! n := deref (node x) in
        let! g := vop op n in
        let! o := g n (iobuf_init base len (pos x)) in
        let copied := iobuf_used (snd o) in
        let! x := rd_file f in
        do! (if decide (status x = FD_OPENED) then upd_file f (set_pos (s32 (pos x + copied))) else ret tt) in
        do! filemap_release f in
        ret (fst o, copied)
  end.
Definition file_read := file_rw readable op_read.
Definition file_write := file_rw writable op_write.

Definition file_seek (fd p whence : Z) : M st Z :=
  let! r := fd2file fd in
  match snd r with
  | None => ret (fst r)
  | Some f =>
      do! filemap_acquire f in
      let! x := rd_file f in
      let! n := deref (node x) in
      let! rp := (if whence =? LSEEK_SET then ret (0, p)
                  else if whence =? LSEEK_CUR then ret (0, s32 (p + pos x))
                  else if whence =? LSEEK_END then
                    let! g := vop op_fstat n in
                    let! st := g n in
                    ret (fst st, if fst st =? 0 then s32 (p + st_size (snd st)) else p)
                  else ret (- E_INVAL, p)) in
      let! r := (if fst rp =? 0 then
                   let! g := vop op_tryseek n in
                   let! r := g n (snd rp) in
                   do! (if r =? 0 then upd_file f (set_pos (snd rp)) else ret tt) in ret r
                 else ret (fst rp)) in
      do! filemap_release f in ret r
  end.

Definition file_fstat (fd : Z) : M st (Z * option stat) :=
  let! r := fd2file fd in
  match snd r with
  | None => ret (fst r, None)
  | Some f =>
      do! filemap_acquire f in
      let! x := rd_file f in
      let! n := deref (node x) in
      let! g := vop op_fstat n in
      let! st := g n in
      do! filemap_release f in ret (fst st, Some (snd st))
  end.

Definition file_fsync (fd : Z) : M st Z :=
  let! r := fd2file fd in
  match snd r with
  | None => ret (fst r)
  | Some f =>
      do! filemap_acquire f in
      let! x := rd_file f in
      let! n := deref (node x) in
      let! g := vop op_fsync n in
      let! r := g n in
      do! filemap_release f in ret r
  end.

(** The [struct dirent] is at [direntp]: its offset and its name of 256 bytes;
    return value and the new offset. *)
Definition file_getdirentry (fd name offset : Z) : M st (Z * Z) :=
  let! r := fd2file fd in
  match snd r with
  | None => ret (fst r, offset)
  | Some f =>
      do! filemap_acquire f in
      let! x := rd_file f in
      let! n := deref (node x) in
      let! g := vop op_getdirentry n in
      let! o := g n (iobuf_init name 256 offset) in
      let offset := if fst o =? 0 then s32 (offset + iobuf_used (snd o)) else offset in
      do! filemap_release f in ret (fst o, offset)
  end.

Definition file_dup (fd1 fd2 : Z) : M st Z :=
  let! r := fd2file fd1 in
  match snd r with
  | None => ret (fst r)
  | Some file1 =>
      let! a := filemap_alloc fd2 in
      match snd a with
      | None => ret (fst a)
      | Some file2 =>
          do! filemap_dup file2 file1 in
          let! x := rd_file file2 in ret (f_fd x)
      end
  end.

(** ** fs.c *)

Definition fs_create (new : option Z) : M st (option Z) :=
  match new with
  | None => ret None
  | Some p => do! wr_fs p (mkFsS None 0) in do! filemap_init p in ret (Some p)
  end.

Definition fs_count_inc (p : Z) : M st Z :=
  let! v := rd_fs p in
  let c := atomic_add_return 1 (fs_count v) in do! wr_fs p (mkFsS (pwd v) c) in ret c.
Definition fs_count_dec (p : Z) : M st Z :=
  let! v := rd_fs p in
  let c := atomic_sub_return 1 (fs_count v) in do! wr_fs p (mkFsS (pwd v) c) in ret c.

(** [for (i = 0; i < FS_STRUCT_NENTRY; i ++, file ++)]. *)
Fixpoint fs_destroy_loop (k : nat) (p i : Z) : M st unit :=
  match k with
  | O => ret tt
  | S k =>
      let! x := rd_file (p, i) in
      do! (if decide (status x = FD_OPENED) then filemap_close (p, i) else ret tt) in
      let! x := rd_file (p, i) in
      do! assert_ (bool_decide (status x = FD_NONE)) in
      fs_destroy_loop k p (i + 1)
  end.
(** [kfree] ends the life of the structure and of the file map behind it. *)
Definition fs_kfree (p : Z) (s : st) : st :=
  set_files (filter (fun kv => fst (fst kv) <> p) (files s)) (set_fss (delete p (fss s)) s).
Definition fs_destroy (p : Z) : M st unit :=
  let! v := rd_fs p in
  do! assert_ (fs_count v =? 0) in
  do! match pwd v with Some d => do! inode_ref_dec d in ret tt | None => ret tt end in
  do! fs_destroy_loop (Z.to_nat FS_STRUCT_NENTRY) p 0 in
  modify (fs_kfree p).

Fixpoint fs_closeall_loop (k : nat) (p i : Z) : M st unit :=
  match k with
  | O => ret tt
  | S k =>
      let! x := rd_file (p, i) in
      do! (if decide (status x = FD_OPENED) then filemap_close (p, i) else ret tt) in
      fs_closeall_loop k p (i + 1)
  end.
Definition fs_closeall (p : Z) : M st unit :=
  let! v := rd_fs p in
  do! assert_ (0 <? fs_count v) in
  fs_closeall_loop (Z.to_nat (FS_STRUCT_NENTRY - 2)) p 2.

Fixpoint dup_fs_loop (k : nat) (to from i : Z) : M st unit :=
  match k with
  | O => ret tt
  | S k =>
      let! x := rd_file (from, i) in
      do! (if decide (status x = FD_OPENED) then
             do! upd_file (to, i) (set_status FD_INIT) in filemap_dup (to, i) (from, i)
           else ret tt) in
      dup_fs_loop k to from (i + 1)
  end.
Definition dup_fs (to from : Z) : M st Z :=
  let! t := rd_fs to in
  let! v := rd_fs from in
  do! assert_ ((fs_count t =? 0) && (0 <? fs_count v)) in
  do! wr_fs to (mkFsS (pwd v) (fs_count t)) in
  do! match pwd v with Some d => do! inode_ref_inc d in ret tt | None => ret tt end in
  do! dup_fs_loop (Z.to_nat FS_STRUCT_NENTRY) to from 0 in
  ret 0.
End Vfs.
