(* ===== verification/VfsInv.v ===== *)
(** * Reference counting of inodes (invariant of Vfs.v)

    [CInv s o r]: every inode's [open_count] and [ref_count] are [o] and [r],
    every inode with references is there, and the file system's private state is
    sound.  [InodeOk] is what the file layer relies on in a file system's
    [inode_ops]; [FInv] ties the counts to the file maps and working directories. *)

From stdpp Require Import base gmap list.
From Stdlib Require Import ZArith Lia Bool.
From S2P Require Import Prelude.
From S2P Require Import Atomic.
From S2P Require Import Vfs.

Definition imeta (i : inode) : Z * option Z * Z := (in_type i, in_fs i, in_ops i).

(** Everything but the inodes, the memory and the private state is unchanged. *)
Definition fframe {X} (s s' : fst_ X) : Prop :=
  files s' = files s /\ fss s' = fss s /\ curfs s' = curfs s /\ vdev_list s' = vdev_list s /\ bootfs_node s' = bootfs_node s.

Lemma fframe_refl {X} (s : fst_ X) : fframe s s.
Proof. by repeat split. Qed.
Lemma fframe_trans {X} (s1 s2 s3 : fst_ X) : fframe s1 s2 -> fframe s2 s3 -> fframe s1 s3.
Proof. intros (?&?&?&?&?) (?&?&?&?&?). repeat split; congruence. Qed.

Class InodeOk {X} (optab : Z -> @inode_ops X) := {
  iok_inv : gmap Z (Z * option Z * Z) -> X -> Prop;
  iok_close : forall s n i,
    inodes s !! n = Some i -> iok_inv (imeta <$> inodes s) (priv s) ->
    exists f, op_close (optab (in_ops i)) = Some f /\
      runs (f n) s (fun _ s' => fframe s s' /\ inodes s' = inodes s /\ iok_inv (imeta <$> inodes s) (priv s'));
  iok_reclaim : forall s n i f,
    inodes s !! n = Some i -> iok_inv (imeta <$> inodes s) (priv s) ->
    op_reclaim (optab (in_ops i)) = Some f -> ref_count i = 0 -> open_count i = 0 ->
    runs (f n) s (fun _ s' => fframe s s' /\ (inodes s' = inodes s \/ inodes s' = delete n (inodes s)) /\
      iok_inv (imeta <$> inodes s') (priv s'));
  (* a read of the keyboard may sleep for ever; what holds when it returns *)
  iok_rw : forall s n i f iob o s',
    inodes s !! n = Some i -> iok_inv (imeta <$> inodes s) (priv s) ->
    op_read (optab (in_ops i)) = Some f \/ op_write (optab (in_ops i)) = Some f ->
    0 <= io_resid iob <= io_len iob -> io_len iob < W32 -> f n iob s = Ok (o, s') ->
    fframe s s' /\ inodes s' = inodes s /\ iok_inv (imeta <$> inodes s) (priv s') /\
    io_len (snd o) = io_len iob /\ 0 <= io_resid (snd o) <= io_resid iob
}.

Definition fupd (r : Z -> Z) (n d : Z) : Z -> Z := fun m => if m =? n then r m + d else r m.

Lemma fupd_eq r n d : fupd r n d n = r n + d.
Proof. unfold fupd. by rewrite Z.eqb_refl. Qed.
Lemma fupd_ne r n d m : m <> n -> fupd r n d m = r m.
Proof. unfold fupd. intros. by destruct (Z.eqb_spec m n). Qed.

Section Counts.
Context {X : Type} (optab : Z -> @inode_ops X) `{IO : !InodeOk optab}.
Abbreviation st := (fst_ X).

Record CInv (s : st) (o r : Z -> Z) : Prop := {
  ci_counts : forall n i, inodes s !! n = Some i -> open_count i = o n /\ ref_count i = r n;
  ci_dom : forall n, 0 < r n -> is_Some (inodes s !! n);
  ci_range : forall n, 0 <= o n <= r n /\ r n < MAX_INODE_COUNT;
  ci_priv : iok_inv (imeta <$> inodes s) (priv s)
}.

Lemma CInv_ext s o r o' r' :
  CInv s o r -> (forall n, o' n = o n) -> (forall n, r' n = r n) -> CInv s o' r'.
Proof.
  intros H Ho Hr. split.
  - intros n i Hi. rewrite Ho, Hr. by apply (ci_counts _ _ _ H).
  - intros n. rewrite Hr. apply (ci_dom _ _ _ H).
  - intros n. rewrite Ho, Hr. apply (ci_range _ _ _ H).
  - apply (ci_priv _ _ _ H).
Qed.

(** The inodes are all [CInv] looks at, apart from the private state. *)
Lemma CInv_frame s s' o r :
  CInv s o r -> inodes s' = inodes s -> iok_inv (imeta <$> inodes s) (priv s') -> CInv s' o r.
Proof. intros [H1 H2 H3 H4] Hi Hp. split; rewrite ?Hi; done. Qed.

Lemma CInv_inode s o r n :
  CInv s o r -> 0 < r n -> exists i, inodes s !! n = Some i /\ open_count i = o n /\ ref_count i = r n.
Proof.
  intros H Hr. destruct (ci_dom _ _ _ H n Hr) as [i Hi]. exists i. split; [done|]. by apply (ci_counts _ _ _ H).
Qed.

(** Writing the counts of one inode. *)
Lemma CInv_write s o r n i i' do dr :
  CInv s o r -> inodes s !! n = Some i -> imeta i' = imeta i ->
  open_count i' = o n + do -> ref_count i' = r n + dr ->
  0 <= o n + do <= r n + dr -> r n + dr < MAX_INODE_COUNT ->
  CInv (set_inodes (<[n := i']> (inodes s)) s) (fupd o n do) (fupd r n dr).
Proof.
  intros H Hi Hm Ho Hr Hle Hlt. split; cbn.
  - intros m j. destruct (decide (m = n)) as [->|Hne].
    + rewrite lookup_insert_eq. intros [= <-]. by rewrite !fupd_eq.
    + rewrite lookup_insert_ne, !fupd_ne by done. apply (ci_counts _ _ _ H).
  - intros m Hpos. destruct (decide (m = n)) as [->|Hne].
    + rewrite lookup_insert_eq. by eexists.
    + rewrite lookup_insert_ne by done. rewrite fupd_ne in Hpos by done. by apply (ci_dom _ _ _ H).
  - intros m. destruct (decide (m = n)) as [->|Hne].
    + rewrite !fupd_eq. done.
    + rewrite !fupd_ne by done. apply (ci_range _ _ _ H).
  - rewrite fmap_insert, Hm. rewrite insert_id by (by rewrite lookup_fmap, Hi). apply (ci_priv _ _ _ H).
Qed.

Lemma fupd0 r n m : fupd r n 0 m = r m.
Proof. unfold fupd. destruct (m =? n); lia. Qed.

Lemma rd_inode_runs (s : st) n i Q : inodes s !! n = Some i -> Q i s -> runs (rd_inode n) s Q.
Proof. intros Hi HQ. unfold rd_inode. runs_steps. by eapply runs_deref. Qed.

Lemma atomic_add_small a b : 0 <= a + b < MAX_INODE_COUNT -> atomic_add_return a b = a + b.
Proof. intros H. unfold atomic_add_return. rewrite s32_small; unfold MAX_INODE_COUNT in H; lia. Qed.

Lemma inode_check_runs i (s : st) (Q : unit -> st -> Prop) o r n :
  CInv s o r -> inodes s !! n = Some i -> Q tt s -> runs (inode_check i) s Q.
Proof.
  intros H Hi HQ. destruct (ci_counts _ _ _ H _ _ Hi) as [Ho Hr]. pose proof (ci_range _ _ _ H n) as Hrg.
  unfold inode_check. runs_steps. apply runs_assert.
  - rewrite Ho, Hr. apply andb_true_intro. split; apply Z.leb_le; lia.
  - apply runs_assert; [|done]. rewrite Ho, Hr. apply andb_true_intro. split; apply Z.ltb_lt; lia.
Qed.

Lemma vop_runs {A} (sym : inode_ops -> option A) n s i f o r Q :
  CInv s o r -> inodes s !! n = Some i -> sym (optab (in_ops i)) = Some f -> Q f s ->
  runs (vop optab sym n) s Q.
Proof.
  intros H Hi Hf HQ. unfold vop. runs_steps. eapply rd_inode_runs; [done|]. rewrite Hf.
  runs_steps. eapply inode_check_runs; [done..|]. by runs_steps.
Qed.

Lemma inode_ref_inc_runs s o r n :
  CInv s o r -> 0 < r n -> r n + 1 < MAX_INODE_COUNT ->
  runs (inode_ref_inc n) s (fun c s' => c = r n + 1 /\ fframe s s' /\ CInv s' o (fupd r n 1) /\
    (imeta <$> inodes s') = (imeta <$> inodes s)).
Proof.
  intros H Hpos Hlt. destruct (CInv_inode _ _ _ _ H Hpos) as (i&Hi&Ho&Hr). pose proof (ci_range _ _ _ H n) as Hrg.
  unfold inode_ref_inc, wr_inode. runs_steps. eapply rd_inode_runs; [done|]. runs_steps.
  rewrite atomic_add_small by lia. split; [lia|]. split; [by repeat split|]. split.
  - eapply CInv_ext; [eapply (CInv_write s o r n i _ 0 1 H Hi)|..]; cbn; try done; try lia. intros m. by rewrite fupd0.
  - cbn. rewrite fmap_insert. apply insert_id. by rewrite lookup_fmap, Hi.
Qed.

Lemma inode_open_inc_runs s o r n :
  CInv s o r -> o n < r n ->
  runs (inode_open_inc n) s (fun c s' => c = o n + 1 /\ fframe s s' /\ CInv s' (fupd o n 1) r /\
    (imeta <$> inodes s') = (imeta <$> inodes s)).
Proof.
  intros H Hlt. pose proof (ci_range _ _ _ H n) as Hrg. destruct (CInv_inode s o r n H) as (i&Hi&Ho&Hr); [lia|].
  unfold inode_open_inc, wr_inode. runs_steps. eapply rd_inode_runs; [done|]. runs_steps.
  rewrite atomic_add_small by lia. split; [lia|]. split; [by repeat split|]. split.
  - eapply CInv_ext; [eapply (CInv_write s o r n i _ 1 0 H Hi)|..]; cbn; try done; try lia. intros m. by rewrite fupd0.
  - cbn. rewrite fmap_insert. apply insert_id. by rewrite lookup_fmap, Hi.
Qed.

Lemma inode_open_dec_runs s o r n :
  CInv s o r -> 0 < o n ->
  runs (inode_open_dec optab n) s (fun c s' => c = o n - 1 /\ fframe s s' /\ CInv s' (fupd o n (-1)) r /\
    (imeta <$> inodes s') = (imeta <$> inodes s)).
Proof.
  intros H Hpos. pose proof (ci_range _ _ _ H n) as Hrg. destruct (CInv_inode s o r n H) as (i&Hi&Ho&Hr); [lia|].
  unfold inode_open_dec, wr_inode. runs_steps. eapply rd_inode_runs; [done|]. runs_steps.
  apply runs_assert; [apply Z.ltb_lt; lia|]. unfold atomic_sub_return. runs_steps.
  rewrite (atomic_add_small (-1)) by lia.
  set (i' := set_open (-1 + open_count i) i). set (s1 := set_inodes _ s).
  assert (H1 : CInv s1 (fupd o n (-1)) r).
  { eapply CInv_ext; [eapply (CInv_write s o r n i i' (-1) 0 H Hi)|..]; cbn; try done; try lia. intros m. by rewrite fupd0. }
  assert (Hm : (imeta <$> inodes s1) = (imeta <$> inodes s)).
  { cbn. rewrite fmap_insert. apply insert_id. by rewrite lookup_fmap, Hi. }
  assert (Hi1 : inodes s1 !! n = Some i') by apply lookup_insert_eq.
  case_eq (-1 + open_count i =? 0); intros Hz.
  - destruct (iok_close s1 n i' Hi1 (ci_priv _ _ _ H1)) as (f&Hf&Hrun).
    runs_steps. eapply vop_runs; [exact H1|exact Hi1|exact Hf|]. runs_steps.
    eapply runs_mono; [exact Hrun|]. cbn beta. intros _ s2 (Hfr&Hi2&Hp2). runs_steps.
    split; [lia|]. split; [exact Hfr|]. split; [|by rewrite Hi2]. by eapply CInv_frame.
  - runs_steps. split; [lia|]. split; [by repeat split|]. by split.
Qed.

Lemma inode_ref_dec_runs s o r n :
  CInv s o r -> o n < r n ->
  (r n = 1 -> forall i, inodes s !! n = Some i -> is_Some (op_reclaim (optab (in_ops i)))) ->
  runs (inode_ref_dec optab n) s (fun c s' => c = r n - 1 /\ fframe s s' /\ CInv s' o (fupd r n (-1)) /\
    ((imeta <$> inodes s') = (imeta <$> inodes s) \/ r n = 1 /\ (imeta <$> inodes s') = delete n (imeta <$> inodes s))).
Proof.
  intros H Hpos Hev. pose proof (ci_range _ _ _ H n) as Hrg. destruct (CInv_inode s o r n H) as (i&Hi&Ho&Hr); [lia|].
  unfold inode_ref_dec, wr_inode. runs_steps. eapply rd_inode_runs; [done|]. runs_steps.
  apply runs_assert; [apply Z.ltb_lt; lia|]. unfold atomic_sub_return. runs_steps.
  rewrite (atomic_add_small (-1)) by lia.
  set (i' := set_ref (-1 + ref_count i) i). set (s1 := set_inodes _ s).
  assert (H1 : CInv s1 o (fupd r n (-1))).
  { eapply CInv_ext; [eapply (CInv_write s o r n i i' 0 (-1) H Hi)|..]; cbn; try done; try lia. intros m. by rewrite fupd0. }
  assert (Hm : (imeta <$> inodes s1) = (imeta <$> inodes s)).
  { cbn. rewrite fmap_insert. apply insert_id. by rewrite lookup_fmap, Hi. }
  assert (Hi1 : inodes s1 !! n = Some i') by apply lookup_insert_eq.
  case_eq (-1 + ref_count i =? 0); intros Hz.
  - apply Z.eqb_eq in Hz. destruct (Hev ltac:(lia) i Hi) as [f Hf].
    runs_steps. eapply vop_runs; [exact H1|exact Hi1|exact Hf|]. runs_steps.
    eapply runs_mono; [eapply (iok_reclaim s1 n i' f Hi1 (ci_priv _ _ _ H1) Hf); cbn; lia|].
    cbn beta. intros _ s2 (Hfr&Hi2&Hp2). runs_steps.
    split; [lia|]. split; [exact Hfr|]. destruct Hi2 as [Hi2|Hi2].
    + split; [|left; by rewrite Hi2]. eapply CInv_frame; [done..|]. by rewrite <-Hi2.
    + split; [|right; split; [lia|]; by rewrite Hi2, fmap_delete, Hm]. split.
      * intros m j. rewrite Hi2, lookup_delete_Some. intros [_ Hj]. by apply (ci_counts _ _ _ H1).
      * intros m Hm0. rewrite Hi2. assert (m <> n) by (intros ->; rewrite fupd_eq in Hm0; lia).
        rewrite lookup_delete_ne by done. by apply (ci_dom _ _ _ H1).
      * apply (ci_range _ _ _ H1).
      * exact Hp2.
  - runs_steps. split; [lia|]. split; [by repeat split|]. split; [done|by left].
Qed.

Lemma vfs_close_runs s o r n :
  CInv s o r -> 0 < o n ->
  (r n = 1 -> forall i, inodes s !! n = Some i -> is_Some (op_reclaim (optab (in_ops i)))) ->
  runs (vfs_close optab n) s (fun c s' => c = 0 /\ fframe s s' /\ CInv s' (fupd o n (-1)) (fupd r n (-1)) /\
    ((imeta <$> inodes s') = (imeta <$> inodes s) \/ r n = 1 /\ (imeta <$> inodes s') = delete n (imeta <$> inodes s))).
Proof.
  intros H Hpos Hev. unfold vfs_close. runs_steps. runs_by inode_open_dec_runs; [done|done|].
  intros _ s1 (_&Hf1&H1&Hm1). runs_steps. runs_by inode_ref_dec_runs; [exact H1|..].
  - rewrite fupd_eq. pose proof (ci_range _ _ _ H n) as Hrg. lia.
  - intros Hr i Hi. assert (Hmi : (imeta <$> inodes s) !! n = Some (imeta i)) by (rewrite <-Hm1, lookup_fmap, Hi; done).
    rewrite lookup_fmap in Hmi. apply fmap_Some in Hmi as (j&Hj&Hij). injection Hij as _ _ ->. by apply Hev.
  - cbn beta. intros c s2 (_&Hf2&H2&Hm2). runs_steps. split; [done|].
    split; [by eapply fframe_trans|]. split; [done|]. by rewrite <-Hm1.
Qed.
End Counts.
