(* ===== verification/FileThm.v ===== *)
(** * Open files (kern/fs/file.c, fs.c): the counts are exact

    [GInv s e]: an inode's [open_count] is the number of open entries of all file
    maps that name it, its [ref_count] that number plus [e].  Closing, duplicating,
    forking and destroying file maps keep it; an inode is reclaimed exactly when
    the last reference goes. *)

From stdpp Require Import base gmap list.
From Stdlib Require Import ZArith Lia Bool.
From S2P Require Import Prelude.
From S2P Require Import Atomic.
From S2P Require Import Vfs.
From S2P Require Import VfsInv.

(** ** Counting entries of a map *)

Section Mcount.
Context {K V : Type} `{Countable K}.
Implicit Types (m : gmap K V) (P : V -> bool).

Definition mcount P m : Z := Z.of_nat (size (filter (fun kv => P (snd kv) = true) m)).

Lemma mcount_nonneg P m : 0 <= mcount P m.
Proof. unfold mcount. lia. Qed.

Lemma mcount_insert P m k v :
  m !! k = None -> mcount P (<[k := v]> m) = mcount P m + Z.b2z (P v).
Proof.
  intros Hk. unfold mcount. destruct (P v) eqn:HP; cbn.
  - rewrite map_filter_insert_True by done. rewrite map_size_insert_None; [lia|]. apply map_lookup_filter_None. by left.
  - rewrite map_filter_insert_False by (cbn; congruence). rewrite delete_id by done. lia.
Qed.

Lemma mcount_delete P m k v :
  m !! k = Some v -> mcount P (delete k m) = mcount P m - Z.b2z (P v).
Proof.
  intros Hk. rewrite <-(insert_id m k v) at 2 by done. rewrite <-insert_delete_eq.
  rewrite mcount_insert by apply lookup_delete_eq. lia.
Qed.

Lemma mcount_update P m k v v' :
  m !! k = Some v -> mcount P (<[k := v']> m) = mcount P m - Z.b2z (P v) + Z.b2z (P v').
Proof.
  intros Hk. rewrite <-insert_delete_eq. rewrite mcount_insert by apply lookup_delete_eq.
  by rewrite (mcount_delete P m k v).
Qed.

Lemma mcount_pos P m k v : m !! k = Some v -> P v = true -> 0 < mcount P m.
Proof.
  intros Hk HP. pose proof (mcount_delete P m k v Hk) as Hd. rewrite HP in Hd. cbn in Hd.
  pose proof (mcount_nonneg P (delete k m)). lia.
Qed.

(** Dropping entries [P] does not count. *)
Lemma mcount_filter P m (Q : K * V -> Prop) `{!forall x, Decision (Q x)} :
  (forall k v, m !! k = Some v -> P v = true -> Q (k, v)) -> mcount P (filter Q m) = mcount P m.
Proof.
  intros HQ. unfold mcount. do 2 f_equal. apply map_eq. intros k. apply option_eq. intros v.
  rewrite !map_lookup_filter_Some. cbn. naive_solver.
Qed.
End Mcount.

Definition holds (n : Z) (x : file) : bool :=
  bool_decide ((status x = FD_OPENED \/ status x = FD_CLOSED) /\ node x = Some n).

Lemma holds_spec n x : holds n x = true <-> (status x = FD_OPENED \/ status x = FD_CLOSED) /\ node x = Some n.
Proof. apply bool_decide_eq_true. Qed.

(** What an entry of a file map looks like between operations. *)
Definition file_ok (fd : Z) (x : file) : Prop :=
  f_fd x = fd /\ testfd fd = true /\ 0 <= f_count x < 2147483647 /\
  match status x with
  | FD_NONE | FD_INIT => f_count x = 0
  | FD_OPENED | FD_CLOSED => 0 < f_count x /\ is_Some (node x)
  end.

Section Files.
Context {X : Type} (optab : Z -> @inode_ops X) `{IO : !InodeOk optab}.
Abbreviation st := (fst_ X).
Implicit Types (s : st) (e : Z -> Z).

Definition slots s (n : Z) : Z := mcount (holds n) (files s).
Definition pwds s (n : Z) : Z := mcount (fun v => bool_decide (pwd v = Some n)) (fss s).

Record GInv s e : Prop := {
  gi_c : CInv optab s (slots s) (fun n => slots s n + e n);
  gi_file : forall m fd x, files s !! (m, fd) = Some x -> file_ok fd x;
  gi_map : forall p v fd, fss s !! p = Some v -> testfd fd = true -> is_Some (files s !! (p, fd));
  gi_own : forall m fd x, files s !! (m, fd) = Some x -> is_Some (fss s !! m);
  gi_pin : forall n i, inodes s !! n = Some i -> op_reclaim (optab (in_ops i)) = None -> 0 < e n
}.

(** References: working directories, and [xr] others (the boot file system, the
    device list, a lookup under way); a device inode always has one of the latter. *)
Definition FInv s (xr : Z -> Z) : Prop :=
  GInv s (fun n => pwds s n + xr n) /\ (forall n, 0 <= xr n) /\
  (forall n i, inodes s !! n = Some i -> op_reclaim (optab (in_ops i)) = None -> 0 < xr n).

Definition msub s s' : Prop := (imeta <$> inodes s') ⊆ (imeta <$> inodes s).

Lemma msub_refl s : msub s s.
Proof. unfold msub. reflexivity. Qed.
Lemma msub_same s s' : inodes s' = inodes s -> msub s s'.
Proof. unfold msub. by intros ->. Qed.
Lemma msub_trans s1 s2 s3 : msub s1 s2 -> msub s2 s3 -> msub s1 s3.
Proof. unfold msub. intros. by etrans. Qed.

Lemma msub_ops s s' n i' : msub s s' -> inodes s' !! n = Some i' -> exists i, inodes s !! n = Some i /\ in_ops i = in_ops i'.
Proof.
  intros Hs Hi. assert (Hm : (imeta <$> inodes s) !! n = Some (imeta i')).
  { eapply lookup_weaken; [|exact Hs]. by rewrite lookup_fmap, Hi. }
  rewrite lookup_fmap in Hm. apply fmap_Some in Hm as (i&Hi'&Heq). exists i. split; [done|]. by injection Heq.
Qed.

Lemma rd_file_runs s f x Q : files s !! f = Some x -> Q x s -> runs (rd_file f) s Q.
Proof. intros Hf HQ. unfold rd_file. runs_steps. by eapply runs_deref. Qed.

Lemma upd_file_runs s f g x (Q : unit -> st -> Prop) :
  files s !! f = Some x -> Q tt (set_files (<[f := g x]> (files s)) s) -> runs (upd_file f g) s Q.
Proof. intros Hf HQ. unfold upd_file. runs_steps. eapply rd_file_runs; [done|]. by runs_steps. Qed.

Lemma set_files_twice s f x y :
  set_files (<[f := y]> (files (set_files (<[f := x]> (files s)) s))) (set_files (<[f := x]> (files s)) s) =
  set_files (<[f := y]> (files s)) s.
Proof. unfold set_files. cbn. by rewrite insert_insert_eq. Qed.

Lemma slots_update s s' f x x' n :
  files s !! f = Some x -> files s' = <[f := x']> (files s) ->
  slots s' n = slots s n - Z.b2z (holds n x) + Z.b2z (holds n x').
Proof. intros Hf Hs. unfold slots. rewrite Hs. by apply mcount_update. Qed.

(** One entry of one file map changed, the counts with it. *)
Lemma GInv_update s s' e e' m fd x x' o r :
  GInv s e -> files s !! (m, fd) = Some x -> files s' = <[(m, fd) := x']> (files s) ->
  fss s' = fss s -> file_ok fd x' -> CInv optab s' o r -> msub s s' ->
  (forall n, o n = slots s n - Z.b2z (holds n x) + Z.b2z (holds n x')) ->
  (forall n, r n = slots s n - Z.b2z (holds n x) + Z.b2z (holds n x') + e' n) ->
  (forall n, 0 < e n -> 0 < e' n) ->
  GInv s' e'.
Proof.
  intros HG Hx Hfs Hss Hok HC Hsub Ho Hr He. split.
  - eapply CInv_ext; [exact HC|..]; intros n; rewrite ?Ho, ?Hr; by rewrite (slots_update s s' (m, fd) x x').
  - intros m' fd' y. rewrite Hfs. destruct (decide ((m', fd') = (m, fd))) as [[= -> ->]|Hne].
    + rewrite lookup_insert_eq. by intros [= <-].
    + rewrite lookup_insert_ne by done. apply (gi_file _ _ HG).
  - intros p v fd' Hp Ht. rewrite Hfs. rewrite Hss in Hp. apply lookup_insert_is_Some.
    destruct (decide ((m, fd) = (p, fd'))); [by left|right]. split; [done|]. by eapply (gi_map _ _ HG).
  - intros m' fd' y. rewrite Hfs, Hss. destruct (decide ((m', fd') = (m, fd))) as [[= -> ->]|Hne].
    + rewrite lookup_insert_eq. intros _. by eapply (gi_own _ _ HG).
    + rewrite lookup_insert_ne by done. apply (gi_own _ _ HG).
  - intros n i Hi Hop. destruct (msub_ops s s' n i Hsub Hi) as (j&Hj&Heq). apply He.
    apply (gi_pin _ _ HG n j Hj). by rewrite Heq.
Qed.

(** A state that differs in what [GInv] does not look at. *)
Lemma GInv_slot s e f x : GInv s e -> files s !! f = Some x -> file_ok (snd f) x.
Proof. intros HG Hf. destruct f. by apply (gi_file _ _ HG _ _ _ Hf). Qed.

Lemma fcount_dec a : 0 < a < 2147483647 -> atomic_sub_return 1 a = a - 1.
Proof. intros Ha. unfold atomic_sub_return, atomic_add_return. rewrite s32_small; lia. Qed.
Lemma fcount_inc a : 0 <= a < 2147483646 -> atomic_add_return 1 a = a + 1.
Proof. intros Ha. unfold atomic_add_return. rewrite s32_small; lia. Qed.

(** What [filemap_close] makes of an open entry. *)
Definition closed_entry (x : file) : file :=
  if f_count x =? 1 then set_status FD_NONE (set_f_count 0 x)
  else set_f_count (f_count x - 1) (set_status FD_CLOSED x).

Definition keeps s s' : Prop := fss s' = fss s /\ curfs s' = curfs s /\ vdev_list s' = vdev_list s /\ bootfs_node s' = bootfs_node s.

Lemma b2z_holds_node n x y : status x = status y -> node x = node y -> holds n x = holds n y.
Proof. unfold holds. by intros -> ->. Qed.

Lemma holds_none n x : status x = FD_NONE \/ status x = FD_INIT -> holds n x = false.
Proof. intros H. unfold holds. apply bool_decide_eq_false. naive_solver congruence. Qed.

Lemma holds_open m x n : status x = FD_OPENED \/ status x = FD_CLOSED -> node x = Some n -> holds m x = (m =? n).
Proof.
  intros Hs Hn. destruct (Z.eqb_spec m n) as [->|Hne]; [by apply holds_spec|].
  unfold holds. apply bool_decide_eq_false. naive_solver congruence.
Qed.

Lemma evict_slot s e f x n :
  GInv s e -> files s !! f = Some x -> holds n x = true ->
  slots s n + e n = 1 -> forall i, inodes s !! n = Some i -> is_Some (op_reclaim (optab (in_ops i))).
Proof.
  intros HG Hf Hh Hr i Hi. destruct (op_reclaim (optab (in_ops i))) eqn:Hop; [by eexists|].
  pose proof (gi_pin _ _ HG n i Hi Hop). pose proof (mcount_pos (holds n) _ _ _ Hf Hh). unfold slots in Hr. lia.
Qed.

Lemma GInv_open_node s e f x :
  GInv s e -> files s !! f = Some x -> status x = FD_OPENED \/ status x = FD_CLOSED ->
  exists n, node x = Some n /\ 0 < slots s n.
Proof.
  intros HG Hf Hs. pose proof (GInv_slot _ _ _ _ HG Hf) as (_&_&_&Hok).
  assert (Hn : is_Some (node x)) by (destruct Hs as [Hs|Hs]; rewrite Hs in Hok; apply Hok).
  destruct Hn as [n Hn]. exists n. split; [done|]. eapply mcount_pos; [exact Hf|]. by apply holds_spec.
Qed.

Lemma filemap_close_runs s e f x :
  GInv s e -> files s !! f = Some x -> status x = FD_OPENED ->
  runs (filemap_close optab f) s (fun _ s' => GInv s' e /\ files s' = <[f := closed_entry x]> (files s) /\
    keeps s s' /\ msub s s').
Proof.
  intros HG Hf Hst. pose proof (GInv_slot _ _ _ _ HG Hf) as (Hfd&Htest&Hcr&Hok). rewrite Hst in Hok. destruct Hok as [Hc [n Hn]].
  unfold filemap_close. runs_steps. eapply rd_file_runs; [done|]. runs_steps.
  apply runs_assert; [by apply bool_decide_eq_true|]. runs_steps. apply runs_assert; [by apply Z.ltb_lt|]. runs_steps.
  eapply upd_file_runs; [done|]. unfold fopen_count_dec. runs_steps. eapply rd_file_runs; [apply lookup_insert_eq|].
  runs_steps. eapply upd_file_runs; [apply lookup_insert_eq|]. rewrite set_files_twice. cbn [f_count set_status].
  rewrite fcount_dec by lia. runs_steps. unfold closed_entry. set (x1 := set_f_count _ _). set (s1 := set_files _ s).
  assert (HC1 : CInv optab s1 (slots s) (fun n => slots s n + e n)).
  { eapply CInv_frame; [apply (gi_c _ _ HG)|done|]. apply (ci_priv _ _ _ _ (gi_c _ _ HG)). }
  assert (Hf1 : files s1 !! f = Some x1) by apply lookup_insert_eq.
  assert (Hh : holds n x = true) by (apply holds_spec; auto).
  destruct (Z.eqb_spec (f_count x - 1) 0) as [Hz|Hz].
  - rewrite (proj2 (Z.eqb_eq (f_count x) 1)) by lia. unfold filemap_free. runs_steps.
    eapply rd_file_runs; [exact Hf1|]. runs_steps. apply runs_assert; [apply bool_decide_eq_true; by right|]. runs_steps.
    apply runs_assert; [by apply Z.eqb_eq|]. runs_steps. rewrite decide_True by done. runs_steps.
    eapply runs_deref; [exact Hn|]. runs_steps. runs_by vfs_close_runs; [exact HC1|..].
    { by apply (mcount_pos _ _ _ _ Hf). }
    { exact (evict_slot _ _ _ _ _ HG Hf Hh). }
    cbn beta. intros _ s2 (_&(Hff&Hfs&Hfc&Hfv&Hfb)&HC2&Hm2). runs_steps. eapply upd_file_runs; [rewrite Hff; exact Hf1|].
    rewrite Hff. cbn [files s1 set_files]. rewrite insert_insert_eq.
    assert (Hsub : msub s s2) by (unfold msub; destruct Hm2 as [->|[_ ->]]; [reflexivity|apply delete_subseteq]).
    assert (Hx' : set_status FD_NONE x1 = set_status FD_NONE (set_f_count 0 x)).
    { unfold x1, set_status, set_f_count. cbn. by rewrite Hz. }
    rewrite Hx'. split_and!; [|done| |done].
    + destruct f as [m fd]. eapply (GInv_update s _ e e m fd x _ _ _ HG Hf); [done|exact Hfs|done| |exact Hsub|..|done].
      * eapply CInv_frame; [exact HC2|done|apply (ci_priv _ _ _ _ HC2)].
      * intros k. rewrite (holds_none k (set_status _ _)) by by left. rewrite (holds_open k x n) by auto. unfold fupd.
        destruct (k =? n); cbn; lia.
      * intros k. rewrite (holds_none k (set_status _ _)) by by left. rewrite (holds_open k x n) by auto. unfold fupd.
        destruct (k =? n); cbn; lia.
    + by repeat split.
  - rewrite (proj2 (Z.eqb_neq (f_count x) 1)) by lia. runs_steps. split_and!; [|done|by repeat split|by apply msub_same].
    destruct f as [m fd]. eapply (GInv_update s _ e e m fd x x1 _ _ HG Hf); [done|done| |exact HC1|by apply msub_same|..|done].
    + split; [done|]. split; [done|]. cbn. split; [lia|]. split; [lia|]. by exists n.
    + intros k. rewrite (holds_open k x n), (holds_open k x1 n) by auto. lia.
    + intros k. rewrite (holds_open k x n), (holds_open k x1 n) by auto. lia.
Qed.

(** What [filemap_dup] makes of the entry [t] it copies [x] to. *)
Definition dup_entry (t x : file) : file :=
  mkFile FD_OPENED (readable x) (writable x) (f_fd t) (pos x) (node x) 1.

Lemma filemap_dup_runs s e to from t x n :
  GInv s e -> files s !! to = Some t -> status t = FD_INIT -> files s !! from = Some x -> status x = FD_OPENED ->
  node x = Some n -> slots s n + e n + 1 < MAX_INODE_COUNT ->
  runs (filemap_dup to from) s (fun _ s' => GInv s' e /\ files s' = <[to := dup_entry t x]> (files s) /\
    keeps s s' /\ msub s s').
Proof.
  intros HG Ht Hst Hx Hsx Hn Hlt. pose proof (GInv_slot _ _ _ _ HG Ht) as (Hfd&Htest&Hcr&Hok). rewrite Hst in Hok.
  assert (Hpos : 0 < slots s n) by (eapply mcount_pos; [exact Hx|apply holds_spec; auto]).
  pose proof (ci_range _ _ _ _ (gi_c _ _ HG) n) as Hrg. cbn beta in Hrg.
  unfold filemap_dup. runs_steps. eapply rd_file_runs; [done|]. runs_steps. eapply rd_file_runs; [done|]. runs_steps.
  apply runs_assert; [by apply bool_decide_eq_true|]. runs_steps. eapply upd_file_runs; [done|]. runs_steps.
  eapply upd_file_runs; [apply lookup_insert_eq|]. rewrite set_files_twice. runs_steps. eapply runs_deref; [exact Hn|]. runs_steps.
  set (t1 := set_mode _ _ _). set (s1 := set_files _ s).
  assert (HC1 : CInv optab s1 (slots s) (fun n => slots s n + e n)).
  { eapply CInv_frame; [apply (gi_c _ _ HG)|done|]. apply (ci_priv _ _ _ _ (gi_c _ _ HG)). }
  runs_by inode_ref_inc_runs; [exact HC1|cbn; lia|cbn; lia|]. cbn beta. intros _ s2 (_&Hf2&HC2&Hm2). runs_steps.
  runs_by inode_open_inc_runs; [exact HC2|rewrite fupd_eq; lia|]. cbn beta. intros _ s3 (_&Hf3&HC3&Hm3).
  destruct (fframe_trans _ _ _ Hf2 Hf3) as (Hff&Hfs&Hfc&Hfv&Hfb). runs_steps.
  eapply upd_file_runs; [rewrite Hff; apply lookup_insert_eq|]. unfold filemap_open, fopen_count_inc. runs_steps.
  eapply rd_file_runs; [apply lookup_insert_eq|]. runs_steps.
  apply runs_assert; [apply bool_decide_eq_true; split; [exact Hst|by eexists]|]. runs_steps.
  eapply upd_file_runs; [apply lookup_insert_eq|]. rewrite set_files_twice. runs_steps.
  eapply rd_file_runs; [apply lookup_insert_eq|]. runs_steps. eapply upd_file_runs; [apply lookup_insert_eq|].
  rewrite set_files_twice. runs_steps. rewrite Hff. cbn [files s1 set_files]. rewrite insert_insert_eq.
  cbn [f_count set_status set_node t1 set_mode set_pos]. rewrite Hok. rewrite (fcount_inc 0) by lia.
  assert (Heq : set_f_count (0 + 1) (set_status FD_OPENED (set_node (Some n) t1)) = dup_entry t x).
  { unfold dup_entry. by rewrite Hn. }
  rewrite Heq. assert (Hsub : msub s s3) by (unfold msub; by rewrite Hm3, Hm2).
  split_and!; [|done|by repeat split|exact Hsub].
  destruct to as [m fd]. eapply (GInv_update s _ e e m fd t (dup_entry t x) _ _ HG Ht); [done|exact Hfs| | |exact Hsub|..|done].
  - split; [done|]. split; [done|]. cbn. split; [lia|]. split; [lia|]. by exists n.
  - eapply CInv_frame; [exact HC3|done|apply (ci_priv _ _ _ _ HC3)].
  - intros k. rewrite (holds_none k t) by by right. rewrite (holds_open k (dup_entry t x) n) by auto. unfold fupd.
    destruct (k =? n); cbn; lia.
  - intros k. rewrite (holds_none k t) by by right. rewrite (holds_open k (dup_entry t x) n) by auto. unfold fupd.
    destruct (k =? n); cbn; lia.
Qed.

(** [FD_INIT] and back: an entry that holds nothing. *)
Lemma GInv_status s e m fd x x' :
  GInv s e -> files s !! (m, fd) = Some x -> (forall n, holds n x = false) -> (forall n, holds n x' = false) -> file_ok fd x' ->
  GInv (set_files (<[(m, fd) := x']> (files s)) s) e.
Proof.
  intros HG Hx Hh Hh' Hok. eapply (GInv_update s _ e e m fd x x' _ _ HG Hx); [done|done|done| |by apply msub_same|..|done].
  - eapply CInv_frame; [apply (gi_c _ _ HG)|done|apply (ci_priv _ _ _ _ (gi_c _ _ HG))].
  - intros n. rewrite Hh, Hh'. cbn. lia.
  - intros n. cbn beta. rewrite Hh, Hh'. cbn. lia.
Qed.

Lemma fkeeps_refl s : keeps s s.
Proof. by repeat split. Qed.
Lemma fkeeps_trans s1 s2 s3 : keeps s1 s2 -> keeps s2 s3 -> keeps s1 s3.
Proof. intros (?&?&?&?) (?&?&?&?). repeat split; congruence. Qed.

(** ** Copying a file map: fork *)

(** The child's entry [i] when the parent's is [x] and the child's was [t]. *)
Definition forked (t x : file) : file := if decide (status x = FD_OPENED) then dup_entry t x else t.

Lemma slots_le s s' f x x' n :
  files s !! f = Some x -> files s' = <[f := x']> (files s) -> slots s' n <= slots s n + 1.
Proof.
  intros Hf Hs. rewrite (slots_update s s' f x x') by done. destruct (holds n x), (holds n x'); cbn; lia.
Qed.

Lemma dup_fs_loop_runs k : forall s e to from i,
  GInv s e -> to <> from -> is_Some (fss s !! to) -> is_Some (fss s !! from) ->
  0 <= i -> i + Z.of_nat k = FS_STRUCT_NENTRY ->
  (forall j t, i <= j -> files s !! (to, j) = Some t -> status t = FD_NONE) ->
  (forall n, slots s n + e n + Z.of_nat k < MAX_INODE_COUNT) ->
  runs (dup_fs_loop k to from i) s (fun _ s' => GInv s' e /\ keeps s s' /\ msub s s' /\
    (forall f, files s' !! f =
       if decide (fst f = to /\ i <= snd f < FS_STRUCT_NENTRY)
       then t ← files s !! f; x ← files s !! (from, snd f); Some (forked t x)
       else files s !! f)).
Proof.
  induction k as [|k IH]; intros s e to from i HG Hne [vt Hto] [vf Hfrom] Hi Hk Hnone Hmax; cbn [dup_fs_loop].
  { runs_steps. split_and!; [done|apply fkeeps_refl|apply msub_refl|]. intros f. rewrite decide_False by lia. done. }
  assert (Htest : testfd i = true) by (unfold testfd; apply andb_true_intro; split; [apply Z.leb_le|apply Z.ltb_lt]; lia).
  destruct (gi_map _ _ HG _ _ i Hto Htest) as [t Ht]. destruct (gi_map _ _ HG _ _ i Hfrom Htest) as [x Hx].
  runs_steps. eapply rd_file_runs; [exact Hx|]. runs_steps.
  (* one step *)
  assert (Hstep : runs (if decide (status x = FD_OPENED)
      then do! upd_file (to, i) (set_status FD_INIT) in filemap_dup (to, i) (from, i) else ret tt) s
      (fun _ s' => GInv s' e /\ files s' = <[(to, i) := forked t x]> (files s) /\ keeps s s' /\ msub s s')).
  { unfold forked. destruct (decide (status x = FD_OPENED)) as [Hop|Hop].
    - destruct (GInv_open_node _ _ _ _ HG Hx (or_introl Hop)) as (n&Hn&_). runs_steps. eapply upd_file_runs; [exact Ht|].
      pose proof (GInv_slot _ _ _ _ HG Ht) as (Hfd&_&Hcr&Hok). rewrite (Hnone i t) in Hok by (done || lia).
      assert (HG1 : GInv (set_files (<[(to, i) := set_status FD_INIT t]> (files s)) s) e).
      { apply (GInv_status _ _ _ _ t); [done|done|..].
        - intros k'. apply holds_none. left. apply (Hnone i); [lia|done].
        - intros k'. apply holds_none. by right.
        - split; [done|]. split; [done|]. by split. }
      runs_by filemap_dup_runs; [exact HG1|apply lookup_insert_eq|done| |exact Hop|exact Hn| |].
      { cbn. rewrite lookup_insert_ne by congruence. exact Hx. }
      { pose proof (Hmax n). rewrite (slots_update s _ (to, i) t (set_status FD_INIT t) n Ht) by done.
        rewrite (holds_none n t) by (left; apply (Hnone i); [lia|done]). rewrite holds_none by by right. cbn. lia. }
      cbn beta. intros _ s2 (HG2&Hf2&Hk2&Hs2). split_and!; [done| |done|done].
      rewrite Hf2. cbn. by rewrite insert_insert_eq.
    - runs_steps. split_and!; [done| |apply fkeeps_refl|apply msub_refl]. by rewrite insert_id. }
  eapply runs_mono; [exact Hstep|]. cbn beta. intros _ s1 (HG1&Hf1&(Hs1&Hc1&Hv1&Hb1)&Hm1).
  runs_by (IH s1 e to from (i + 1)); [exact HG1|done|rewrite Hs1; by eexists|rewrite Hs1; by eexists|lia|lia|..].
  - intros j t' Hj. rewrite Hf1, lookup_insert_ne by (intros [=]; lia). apply Hnone. lia.
  - intros n. pose proof (Hmax n). pose proof (slots_le s s1 _ _ _ n Ht Hf1). lia.
  - cbn beta. intros _ s2 (HG2&Hk2&Hm2&Hf2). split_and!; [done| |by eapply msub_trans|].
    + eapply fkeeps_trans; [|exact Hk2]. by repeat split.
    + intros [g j]. rewrite Hf2. cbn [fst snd]. rewrite Hf1.
      rewrite (lookup_insert_ne _ (to, i) (from, j)) by congruence.
      destruct (decide (g = to)) as [->|Hg].
      * destruct (decide (j = i)) as [->|Hj].
        { rewrite decide_False by lia. rewrite decide_True by (unfold FS_STRUCT_NENTRY in *; lia).
          rewrite lookup_insert_eq, Ht, Hx. done. }
        rewrite lookup_insert_ne by congruence.
        destruct (decide (to = to /\ i + 1 <= j < FS_STRUCT_NENTRY)).
        { rewrite decide_True by lia. done. } { rewrite decide_False by lia. done. }
      * rewrite !decide_False by tauto. by rewrite lookup_insert_ne by congruence.
Qed.

Lemma FInv_msub_pin s s' (xr : Z -> Z) :
  (forall n i, inodes s !! n = Some i -> op_reclaim (optab (in_ops i)) = None -> 0 < xr n) -> msub s s' ->
  forall n i, inodes s' !! n = Some i -> op_reclaim (optab (in_ops i)) = None -> 0 < xr n.
Proof.
  intros Hp Hsub n i Hi Hop. destruct (msub_ops s s' n i Hsub Hi) as (j&Hj&Heq). apply (Hp n j Hj). by rewrite Heq.
Qed.

Lemma pwds_nonneg s n : 0 <= pwds s n.
Proof. apply mcount_nonneg. Qed.

(** The file maps are untouched, references move. *)
Lemma GInv_refs s s' e e' :
  GInv s e -> files s' = files s -> (forall p, is_Some (fss s' !! p) <-> is_Some (fss s !! p)) ->
  CInv optab s' (slots s) (fun n => slots s n + e' n) -> msub s s' ->
  (forall n i, inodes s !! n = Some i -> op_reclaim (optab (in_ops i)) = None -> 0 < e' n) ->
  GInv s' e'.
Proof.
  intros HG Hf Hss HC Hsub He. assert (Hsl : forall n, slots s' n = slots s n) by (intros n; unfold slots; by rewrite Hf). split.
  - eapply CInv_ext; [exact HC|..]; intros n; by rewrite Hsl.
  - rewrite Hf. apply (gi_file _ _ HG).
  - intros p v fd Hp. rewrite Hf. destruct (proj1 (Hss p) (mk_is_Some _ _ Hp)) as [w Hw]. by apply (gi_map _ _ HG _ w).
  - rewrite Hf. intros m fd x Hx. apply Hss. by eapply (gi_own _ _ HG).
  - by eapply FInv_msub_pin.
Qed.

Lemma rd_fs_runs s p v Q : fss s !! p = Some v -> Q v s -> runs (rd_fs p) s Q.
Proof. intros Hp HQ. unfold rd_fs. runs_steps. by eapply runs_deref. Qed.

Lemma pwds_update s s' p v v' n :
  fss s !! p = Some v -> fss s' = <[p := v']> (fss s) ->
  pwds s' n = pwds s n - Z.b2z (bool_decide (pwd v = Some n)) + Z.b2z (bool_decide (pwd v' = Some n)).
Proof. intros Hp Hs. unfold pwds. rewrite Hs. by apply (mcount_update (fun v => bool_decide (pwd v = Some n))). Qed.

Lemma fss_update_dom {A} (m : gmap Z A) p v v' q : m !! p = Some v -> is_Some (<[p := v']> m !! q) <-> is_Some (m !! q).
Proof.
  intros Hp. rewrite lookup_insert_is_Some. destruct (decide (p = q)) as [->|Hne]; [|naive_solver].
  rewrite Hp. split; intros; [by eexists|by left].
Qed.

Lemma bool_decide_Some_eq (d n : Z) : Z.b2z (bool_decide (Some d = Some n)) = if n =? d then 1 else 0.
Proof. destruct (Z.eqb_spec n d) as [->|]; [by rewrite bool_decide_true|]. by rewrite bool_decide_false by congruence. Qed.

Lemma dup_fs_runs s xr to from v :
  FInv s xr -> to <> from -> fss s !! to = Some (mkFsS None 0) -> fss s !! from = Some v -> 0 < fs_count v ->
  (forall j t, files s !! (to, j) = Some t -> status t = FD_NONE) ->
  (forall n, slots s n + pwds s n + xr n + FS_STRUCT_NENTRY + 1 < MAX_INODE_COUNT) ->
  runs (dup_fs to from) s (fun r s' => r = 0 /\ FInv s' xr /\ fss s' = <[to := mkFsS (pwd v) 0]> (fss s) /\
    curfs s' = curfs s /\ msub s s' /\
    (forall f, files s' !! f =
       if decide (fst f = to /\ 0 <= snd f < FS_STRUCT_NENTRY)
       then t ← files s !! f; x ← files s !! (from, snd f); Some (forked t x)
       else files s !! f)).
Proof.
  intros (HG&Hx0&Hpin) Hne Hto Hfrom Hc Hnone Hmax. unfold dup_fs. runs_steps.
  eapply rd_fs_runs; [exact Hto|]. runs_steps. eapply rd_fs_runs; [exact Hfrom|]. runs_steps.
  apply runs_assert; [cbn; by apply Z.ltb_lt|]. unfold wr_fs. runs_steps. cbn [fs_count].
  set (s1 := set_fss _ s).
  assert (Hp1 : forall n, pwds s1 n = pwds s n + Z.b2z (bool_decide (pwd v = Some n))).
  { intros n. rewrite (pwds_update s s1 to _ _ n Hto) by done. cbn [pwd]. rewrite (bool_decide_false (None = Some n)) by done. cbn [Z.b2z]. lia. }
  assert (Hstep : runs (match pwd v with Some d => do! inode_ref_inc d in ret tt | None => ret tt end) s1
    (fun _ s2 => GInv s2 (fun n => pwds s2 n + xr n) /\ files s2 = files s /\ fss s2 = fss s1 /\ curfs s2 = curfs s /\ msub s s2)).
  { assert (HC1 : CInv optab s1 (slots s) (fun n => slots s n + (pwds s n + xr n))).
    { eapply CInv_frame; [apply (gi_c _ _ HG)|done|apply (ci_priv _ _ _ _ (gi_c _ _ HG))]. }
    destruct (pwd v) as [d|] eqn:Hd.
    - assert (0 < pwds s d) by (eapply mcount_pos; [exact Hfrom|by apply bool_decide_eq_true]).
      pose proof (ci_range _ _ _ _ (gi_c _ _ HG) d) as Hrg. cbn beta in Hrg. pose proof (Hmax d) as Hmd. pose proof (Hx0 d) as Hxd.
      runs_steps. runs_by inode_ref_inc_runs; [exact HC1|lia|unfold FS_STRUCT_NENTRY in *; lia|].
      cbn beta. intros _ s2 (_&(Hff&Hfs&Hfc&_&_)&HC2&Hm2). runs_steps.
      assert (Hsub : msub s s2) by (unfold msub; by rewrite Hm2).
      split_and!; [|done|done|done|done]. apply (GInv_refs s _ (fun n => pwds s n + xr n)); [done|done| | |done|].
      + intros q. rewrite Hfs. cbn. by eapply fss_update_dom.
      + eapply CInv_ext; [exact HC2|done|]. intros n. unfold fupd, pwds. rewrite Hfs. fold (pwds s1 n). rewrite Hp1, bool_decide_Some_eq.
        unfold pwds. destruct (n =? d); lia.
      + intros n i Hi Hop. pose proof (pwds_nonneg s2 n). pose proof (Hpin n i Hi Hop). lia.
    - runs_steps. split_and!; [|done|done|done|by apply msub_same]. apply (GInv_refs s _ (fun n => pwds s n + xr n)); [done|done| | |by apply msub_same|].
      + intros q. by eapply fss_update_dom.
      + eapply CInv_ext; [exact HC1|done|]. intros n. rewrite Hp1. rewrite bool_decide_false by done. cbn. lia.
      + intros n i Hi Hop. pose proof (pwds_nonneg s1 n). pose proof (Hpin n i Hi Hop). lia. }
  eapply runs_mono; [exact Hstep|]. cbn beta. intros _ s2 (HG2&Hf2&Hs2&Hc2&Hm2). runs_steps.
  assert (Hp2 : forall n, pwds s2 n <= pwds s n + 1).
  { intros n. unfold pwds. rewrite Hs2. fold (pwds s1 n) (pwds s n). rewrite Hp1. destruct (bool_decide _); cbn; lia. }
  runs_by (dup_fs_loop_runs _ s2 (fun n => pwds s2 n + xr n) to from 0); [exact HG2|done|..].
  - rewrite Hs2. cbn. rewrite lookup_insert_eq. by eexists.
  - rewrite Hs2. cbn. rewrite lookup_insert_ne by done. by eexists.
  - lia.
  - unfold FS_STRUCT_NENTRY. lia.
  - intros j t _. rewrite Hf2. apply Hnone.
  - intros n. pose proof (Hmax n). pose proof (Hp2 n). unfold slots in *. rewrite Hf2. unfold FS_STRUCT_NENTRY in *. lia.
  - cbn beta. intros _ s3 (HG3&(Hk1&Hk2&_)&Hm3&Hf3). runs_steps. split; [done|].
    assert (Hsub : msub s s3) by (by eapply msub_trans).
    assert (Hp3 : forall n, pwds s3 n = pwds s2 n) by (intros n; unfold pwds; by rewrite Hk1).
    split_and!; [|by rewrite Hk1, Hs2|by rewrite Hk2|done|by rewrite <-Hf2].
    split; [|split; [done|by eapply FInv_msub_pin]].
    apply (GInv_refs s3 _ (fun n => pwds s2 n + xr n)); [done|done|done| |by apply msub_same|].
    + eapply CInv_ext; [apply (gi_c _ _ HG3)|done|]. intros n. by rewrite Hp3.
    + intros n i Hi Hop. pose proof (pwds_nonneg s3 n). pose proof (FInv_msub_pin s s3 xr Hpin Hsub n i Hi Hop). lia.
Qed.

(** ** Creating and destroying a file map *)

Definition fresh_entry (fd : Z) : file := mkFile FD_NONE false false fd 0 None 0.

Lemma filemap_init_loop_runs k : forall s m fd,
  (forall j, fd <= j -> files s !! (m, j) = None) ->
  runs (filemap_init_loop k m fd) s (fun _ s' => s' = set_files (files s') s /\ (forall n, slots s' n = slots s n) /\
    forall f, files s' !! f =
      if decide (fst f = m /\ fd <= snd f < fd + Z.of_nat k) then Some (fresh_entry (snd f)) else files s !! f).
Proof.
  induction k as [|k IH]; intros s m fd Hnone; cbn [filemap_init_loop].
  { runs_steps. split; [by destruct s|]. split; [done|]. intros f. rewrite decide_False by lia. done. }
  runs_steps. runs_by IH.
  - cbn. intros j Hj. rewrite lookup_insert_ne by (intros [=]; lia). apply Hnone. lia.
  - cbn beta. intros _ s' (Hs&Hsl&Hf). split; [|split].
    + rewrite Hs. done.
    + intros n. rewrite Hsl. unfold slots. cbn. rewrite mcount_insert by (apply Hnone; lia).
      rewrite (holds_none n) by by left. cbn. lia.
    + intros [g j]. rewrite Hf. cbn. destruct (decide (g = m)) as [->|Hg].
      * destruct (decide (j = fd)) as [->|Hj].
        { rewrite decide_False by lia. rewrite decide_True by lia. apply lookup_insert_eq. }
        destruct (decide (m = m /\ fd + 1 <= j < fd + 1 + Z.of_nat k)).
        { rewrite decide_True by lia. done. } { rewrite decide_False by lia. by rewrite lookup_insert_ne by congruence. }
      * rewrite !decide_False by tauto. by rewrite lookup_insert_ne by congruence.
Qed.

Lemma testfd_spec fd : testfd fd = true <-> 0 <= fd < FS_STRUCT_NENTRY.
Proof. unfold testfd. rewrite andb_true_iff, Z.leb_le, Z.ltb_lt. done. Qed.

Lemma fs_create_runs s xr p :
  FInv s xr -> fss s !! p = None ->
  runs (fs_create (Some p)) s (fun r s' => r = Some p /\ FInv s' xr /\ fss s' = <[p := mkFsS None 0]> (fss s) /\
    curfs s' = curfs s /\ inodes s' = inodes s /\ (forall n, slots s' n = slots s n /\ pwds s' n = pwds s n) /\
    forall f, files s' !! f = if decide (fst f = p /\ 0 <= snd f < FS_STRUCT_NENTRY) then Some (fresh_entry (snd f)) else files s !! f).
Proof.
  intros (HG&Hx0&Hpin) Hp. assert (Hfr : forall j, files s !! (p, j) = None).
  { intros j. destruct (files s !! (p, j)) eqn:He; [|done]. destruct (gi_own _ _ HG _ _ _ He). congruence. }
  unfold fs_create, wr_fs, filemap_init. runs_steps. runs_by filemap_init_loop_runs; [cbn; intros; apply Hfr|].
  cbn beta. intros _ s' (Hs&Hsl&Hf). runs_steps. change (0 + Z.of_nat (Z.to_nat FS_STRUCT_NENTRY)) with FS_STRUCT_NENTRY in Hf.
  cbn [files set_fss] in Hf. assert (Hpw : forall n, pwds s' n = pwds s n).
  { intros n. rewrite Hs. unfold pwds. cbn [fss set_fss set_files]. rewrite mcount_insert by done. cbn [pwd].
    rewrite bool_decide_false by done. cbn [Z.b2z]. lia. }
  assert (Hsl' : forall n, slots s' n = slots s n) by (intros n; by rewrite Hsl).
  assert (Hin : inodes s' = inodes s) by by rewrite Hs.
  split; [done|]. split_and!; [|by rewrite Hs|by rewrite Hs|done|by split|done].
  split; [|split; [done|by rewrite Hin]]. split.
  - eapply CInv_ext; [eapply CInv_frame; [apply (gi_c _ _ HG)|done|]|..].
    + rewrite Hs. apply (ci_priv _ _ _ _ (gi_c _ _ HG)).
    + done.
    + intros n. by rewrite Hsl', Hpw.
  - intros m fd x. rewrite Hf. cbn [fst snd]. case_decide as Hd.
    + intros [= <-]. split; [done|]. split; [apply testfd_spec; tauto|]. cbn. lia.
    + apply (gi_file _ _ HG).
  - intros q w fd. rewrite Hs. cbn. intros Hq Ht. rewrite Hf. cbn [fst snd]. case_decide as Hd; [by eexists|].
    destruct (decide (q = p)) as [->|Hne]; [exfalso; apply Hd; split; [done|by apply testfd_spec]|].
    rewrite lookup_insert_ne in Hq by done. by eapply (gi_map _ _ HG).
  - intros m fd x. rewrite Hf, Hs. cbn. case_decide as Hd.
    + intros _. destruct Hd as [-> _]. rewrite lookup_insert_eq. by eexists.
    + intros Hx. apply lookup_insert_is_Some'. right. by eapply (gi_own _ _ HG).
  - intros n i. rewrite Hin. intros Hi Hop. pose proof (Hpin n i Hi Hop). pose proof (pwds_nonneg s' n). lia.
Qed.

(** An entry no operation is using: free, or open once. *)
Definition quiet (x : file) : Prop := status x = FD_NONE \/ status x = FD_OPENED /\ f_count x = 1.

Lemma closed_quiet x : status x = FD_OPENED -> f_count x = 1 -> closed_entry x = set_status FD_NONE (set_f_count 0 x).
Proof. intros _ Hc. unfold closed_entry. by rewrite Hc. Qed.

Lemma fs_destroy_loop_runs k : forall s e p i,
  GInv s e -> is_Some (fss s !! p) -> 0 <= i -> i + Z.of_nat k = FS_STRUCT_NENTRY ->
  (forall j x, i <= j -> files s !! (p, j) = Some x -> quiet x) ->
  runs (fs_destroy_loop optab k p i) s (fun _ s' => GInv s' e /\ keeps s s' /\ msub s s' /\
    (forall j x, i <= j -> files s' !! (p, j) = Some x -> status x = FD_NONE) /\
    (forall f, fst f <> p \/ snd f < i -> files s' !! f = files s !! f)).
Proof.
  induction k as [|k IH]; intros s e p i HG [v Hp] Hi Hk Hq; cbn [fs_destroy_loop].
  { runs_steps. split_and!; [done|apply fkeeps_refl|apply msub_refl| |done].
    intros j x Hj Hx. pose proof (gi_file _ _ HG _ _ _ Hx) as (_&Ht&_). apply testfd_spec in Ht. lia. }
  assert (Htest : testfd i = true) by (apply testfd_spec; unfold FS_STRUCT_NENTRY in *; lia).
  destruct (gi_map _ _ HG _ _ i Hp Htest) as [x Hx]. runs_steps. eapply rd_file_runs; [exact Hx|]. runs_steps.
  assert (Hstep : runs (if decide (status x = FD_OPENED) then filemap_close optab (p, i) else ret tt) s
    (fun _ s' => GInv s' e /\ keeps s s' /\ msub s s' /\ exists y, files s' = <[(p, i) := y]> (files s) /\ status y = FD_NONE)).
  { destruct (decide (status x = FD_OPENED)) as [Hop|Hop].
    - runs_by filemap_close_runs; [exact HG|exact Hx|exact Hop|]. cbn beta. intros _ s1 (HG1&Hf1&Hk1&Hm1). split_and!; [done..|].
      eexists. split; [exact Hf1|]. destruct (Hq i x) as [Hs|[_ Hc]]; [lia|done|congruence|]. by rewrite closed_quiet.
    - runs_steps. split_and!; [done|apply fkeeps_refl|apply msub_refl|]. exists x. split; [by rewrite insert_id|].
      destruct (Hq i x) as [Hs|[? _]]; [lia|done|done|congruence]. }
  eapply runs_mono; [exact Hstep|]. cbn beta. intros _ s1 (HG1&Hk1&Hm1&y&Hf1&Hy). runs_steps.
  eapply rd_file_runs; [rewrite Hf1; apply lookup_insert_eq|]. runs_steps. apply runs_assert; [by apply bool_decide_eq_true|].
  runs_by (IH s1 e p (i + 1)); [exact HG1|rewrite (proj1 Hk1); by eexists|lia|lia|..].
  - intros j z Hj. rewrite Hf1, lookup_insert_ne by (intros [=]; lia). apply Hq. lia.
  - cbn beta. intros _ s2 (HG2&Hk2&Hm2&Hn2&Hf2). split_and!; [done|by eapply fkeeps_trans|by eapply msub_trans|..].
    + intros j z Hj Hz. destruct (decide (j = i)) as [->|Hne]; [|by apply (Hn2 j); [lia|]].
      rewrite Hf2, Hf1, lookup_insert_eq in Hz by (right; cbn; lia). by injection Hz as <-.
    + intros [g j] Hg. cbn in Hg. rewrite Hf2 by (cbn; lia). rewrite Hf1, lookup_insert_ne; [done|]. intros [=]; lia.
Qed.

Lemma fs_destroy_runs s xr p v :
  FInv s xr -> fss s !! p = Some v -> fs_count v = 0 ->
  (forall j x, files s !! (p, j) = Some x -> quiet x) ->
  runs (fs_destroy optab p) s (fun _ s' => FInv s' xr /\ fss s' = delete p (fss s) /\ curfs s' = curfs s /\
    (forall j, files s' !! (p, j) = None) /\ (forall f, fst f <> p -> files s' !! f = files s !! f)).
Proof.
  intros (HG&Hx0&Hpin) Hp Hc Hq. unfold fs_destroy. runs_steps. eapply rd_fs_runs; [exact Hp|]. runs_steps.
  apply runs_assert; [by apply Z.eqb_eq|]. runs_steps.
  set (own := fun n => Z.b2z (bool_decide (pwd v = Some n))). set (e := fun n => pwds s n - own n + xr n).
  assert (Hown : forall n, 0 <= own n <= pwds s n).
  { intros n. unfold own. case_bool_decide as Hd; cbn; [|pose proof (pwds_nonneg s n); lia].
    split; [lia|]. assert (0 < pwds s n); [|lia]. eapply mcount_pos; [exact Hp|by apply bool_decide_eq_true]. }
  assert (Hstep : runs (match pwd v with Some d => do! inode_ref_dec optab d in ret tt | None => ret tt end) s
    (fun _ s1 => GInv s1 e /\ files s1 = files s /\ fss s1 = fss s /\ curfs s1 = curfs s /\ msub s s1)).
  { destruct (pwd v) as [d|] eqn:Hd.
    - assert (Hod : own d = 1) by (unfold own; by rewrite bool_decide_true).
      pose proof (Hown d) as Hwd. pose proof (Hx0 d) as Hxd. pose proof (mcount_nonneg (holds d) (files s)) as Hsd. fold (slots s d) in Hsd.
      runs_steps. runs_by (inode_ref_dec_runs optab s _ _ d (gi_c _ _ HG)).
      + cbn beta. lia.
      + cbn beta. intros Hr i Hi. destruct (op_reclaim (optab (in_ops i))) eqn:Hop; [by eexists|].
        pose proof (Hpin d i Hi Hop). lia.
      + cbn beta. intros _ s1 (_&(Hff&Hfs&Hfc&_&_)&HC1&Hm1). runs_steps.
        assert (Hsub : msub s s1) by (unfold msub; destruct Hm1 as [->|[_ ->]]; [reflexivity|apply delete_subseteq]).
        split_and!; [|done..]. apply (GInv_refs s _ (fun n => pwds s n + xr n)); [done|done|by rewrite Hfs| |done|].
        * eapply CInv_ext; [exact HC1|done|]. intros n. unfold e, own, fupd. rewrite bool_decide_Some_eq. destruct (n =? d); lia.
        * intros n i Hi Hop. pose proof (Hown n). pose proof (Hpin n i Hi Hop). unfold e. lia.
    - runs_steps. split_and!; [|done..|apply msub_refl]. apply (GInv_refs s _ (fun n => pwds s n + xr n)); [done|done|done| |apply msub_refl|].
      + eapply CInv_ext; [apply (gi_c _ _ HG)|done|]. intros n. unfold e, own. rewrite bool_decide_false by done. cbn. lia.
      + intros n i Hi Hop. pose proof (Hown n). pose proof (Hpin n i Hi Hop). unfold e. lia. }
  eapply runs_mono; [exact Hstep|]. cbn beta. intros _ s1 (HG1&Hf1&Hs1&Hc1&Hm1). runs_steps.
  runs_by (fs_destroy_loop_runs _ s1 e p 0); [exact HG1|rewrite Hs1; by eexists|lia|unfold FS_STRUCT_NENTRY; lia| |].
  { intros j x _. rewrite Hf1. apply Hq. }
  cbn beta. intros _ s2 (HG2&(Hk1&Hk2&_)&Hm2&Hn2&Hf2). runs_steps.
  set (s3 := fs_kfree p s2). assert (Hp2 : fss s2 !! p = Some v) by (by rewrite Hk1, Hs1).
  assert (Hff : forall f x, files s3 !! f = Some x <-> files s2 !! f = Some x /\ fst f <> p) by (intros f x; apply map_lookup_filter_Some).
  assert (Hsl : forall n, slots s3 n = slots s2 n).
  { intros n. apply mcount_filter. intros [g j] x Hx Hh Hg. cbn in Hg. subst g.
    pose proof (gi_file _ _ HG2 _ _ _ Hx) as (_&Ht&_). apply testfd_spec in Ht.
    rewrite (holds_none n x) in Hh; [done|]. left. by apply (Hn2 j); [lia|]. }
  assert (Hpw : forall n, pwds s3 n = pwds s n - own n).
  { intros n. unfold pwds. cbn [fss s3 fs_kfree set_files set_fss]. rewrite (mcount_delete _ _ _ _ Hp2), Hk1, Hs1. done. }
  assert (Hsub : msub s s3) by (eapply msub_trans; [exact Hm1|exact Hm2]).
  split_and!; [split|by cbn; rewrite Hk1, Hs1|by cbn; rewrite Hk2| |].
  - split.
    + eapply CInv_ext; [eapply CInv_frame; [apply (gi_c _ _ HG2)|done|apply (ci_priv _ _ _ _ (gi_c _ _ HG2))]|done|].
      intros n. rewrite Hsl, Hpw. unfold e. lia.
    + intros m fd x Hx. apply Hff in Hx as [Hx _]. by apply (gi_file _ _ HG2 m).
    + intros q w fd. cbn. rewrite lookup_delete_Some. intros [Hne Hw] Ht. destruct (gi_map _ _ HG2 q w fd Hw Ht) as [x Hx].
      exists x. apply Hff. by split.
    + intros m fd x Hx. apply Hff in Hx as [Hx Hne]. cbn. rewrite lookup_delete_ne by done. by eapply (gi_own _ _ HG2).
    + intros n i Hi Hop. pose proof (FInv_msub_pin s s3 xr Hpin Hsub n i Hi Hop). pose proof (pwds_nonneg s3 n). lia.
  - split; [done|]. by eapply FInv_msub_pin.
  - intros j. destruct (files s3 !! (p, j)) eqn:He; [|done]. apply Hff in He as [_ []]. done.
  - intros f Hf. apply option_eq. intros x. rewrite Hff, Hf2, Hf1 by by left. tauto.
Qed.

Lemma FInv_keeps s s' xr :
  FInv s xr -> fss s' = fss s -> msub s s' -> GInv s' (fun n => pwds s n + xr n) -> FInv s' xr.
Proof.
  intros (HG&Hx0&Hpin) Hs Hm HG'. assert (Hp : forall n, pwds s' n = pwds s n) by (intros n; unfold pwds; by rewrite Hs).
  split; [|split; [done|by eapply FInv_msub_pin]].
  apply (GInv_refs s' _ (fun n => pwds s n + xr n)); [done|done|done| |apply msub_refl|].
  - eapply CInv_ext; [apply (gi_c _ _ HG')|done|]. intros n. by rewrite Hp.
  - intros n i Hi Hop. rewrite Hp. apply (gi_pin _ _ HG' n i Hi Hop).
Qed.

(** ** The theorems *)

Lemma get_filemap_runs s m v Q :
  curfs s = Some m -> fss s !! m = Some v -> 0 < fs_count v -> Q m s -> runs get_filemap s Q.
Proof.
  intros Hc Hm Hv HQ. unfold get_filemap. runs_steps. rewrite Hc. runs_steps. eapply rd_fs_runs; [exact Hm|]. runs_steps.
  apply runs_assert; [by apply Z.ltb_lt|]. by runs_steps.
Qed.

(** The entry a system call reaches by descriptor [fd]. *)
Definition at_fd s (fd : Z) (m : Z) (x : file) : Prop :=
  curfs s = Some m /\ (exists v, fss s !! m = Some v /\ 0 < fs_count v) /\ files s !! (m, fd) = Some x.

Lemma fd2file_runs s e fd m x Q :
  GInv s e -> at_fd s fd m x -> status x = FD_OPENED -> Q (0, Some (m, fd)) s -> runs (fd2file fd) s Q.
Proof.
  intros HG (Hc&(v&Hv&Hpos)&Hx) Hst HQ. pose proof (gi_file _ _ HG _ _ _ Hx) as (Hfd&Ht&_).
  unfold fd2file. rewrite Ht. runs_steps. eapply get_filemap_runs; [done..|]. runs_steps. eapply rd_file_runs; [exact Hx|].
  rewrite bool_decide_true by done. by runs_steps.
Qed.

(** [file_close] frees the descriptor and drops the inode's two counts (the
    invariant says what they are afterwards), whether or not the inode goes away
    with them; while another thread is inside an operation on the file, it only
    marks it closed. *)
Theorem file_close_correct s xr fd m x :
  FInv s xr -> at_fd s fd m x -> status x = FD_OPENED ->
  runs (file_close optab fd) s (fun r s' => r = 0 /\ FInv s' xr /\
    files s' = <[(m, fd) := closed_entry x]> (files s) /\ fss s' = fss s).
Proof.
  intros HF Hat Hst. pose proof HF as (HG&_&_). pose proof Hat as (Hc&Hv&Hx). unfold file_close. runs_steps.
  eapply fd2file_runs; [done..|]. cbn [snd]. runs_steps. runs_by filemap_close_runs; [exact HG|exact Hx|exact Hst|].
  cbn beta. intros _ s' (HG'&Hf&(Hs&_)&Hm). runs_steps. split; [done|]. split; [|done].
  by apply (FInv_keeps s).
Qed.

(** C4: A fork's file map (a new [fs_create] filled by [dup_fs]): every open entry of
    the parent is open in the child at the same descriptor, with the same inode,
    position and mode and one user; every other entry of the child is a free
    descriptor, and it has no entry that the parent lacks.  All other maps, the
    parent's among them, are untouched, and the counts of every inode are exact
    afterwards. *)
Theorem dup_fs_correct s xr to from v :
  FInv s xr -> fss s !! to = None -> fss s !! from = Some v -> 0 < fs_count v ->
  (forall n, slots s n + pwds s n + xr n + FS_STRUCT_NENTRY + 1 < MAX_INODE_COUNT) ->
  runs (let! r := fs_create (Some to) in dup_fs to from) s (fun r s' => r = 0 /\ FInv s' xr /\
    fss s' = <[to := mkFsS (pwd v) 0]> (fss s) /\
    (forall f, fst f <> to -> files s' !! f = files s !! f) /\
    forall fd, files s' !! (to, fd) =
      (fun x => if decide (status x = FD_OPENED) then mkFile FD_OPENED (readable x) (writable x) fd (pos x) (node x) 1
                else mkFile FD_NONE false false fd 0 None 0) <$> files s !! (from, fd)).
Proof.
  intros HF Hto Hfrom Hc Hmax. runs_steps. assert (Hne : to <> from) by congruence.
  runs_by (fs_create_runs s xr to HF Hto). cbn beta. intros _ s1 (_&HF1&Hs1&_&_&Hsl&Hf1).
  assert (Hold : forall f, fst f <> to -> files s1 !! f = files s !! f) by (intros f Hf; by rewrite Hf1, decide_False by tauto).
  assert (Hnone : forall j, files s !! (to, j) = None).
  { intros j. destruct (files s !! (to, j)) as [t|] eqn:Ht; [|done]. destruct (gi_own _ _ (proj1 HF) _ _ _ Ht). congruence. }
  runs_by (dup_fs_runs s1 xr to from v HF1 Hne).
  - rewrite Hs1. apply lookup_insert_eq.
  - rewrite Hs1, lookup_insert_ne by done. done.
  - done.
  - intros j t. rewrite Hf1. cbn [fst snd]. case_decide as Hd; [by intros [= <-]|]. by rewrite Hnone.
  - intros n. destruct (Hsl n) as [-> ->]. apply Hmax.
  - cbn beta. intros r s2 (->&HF2&Hs2&_&_&Hf2). split; [done|]. split; [done|]. split; [by rewrite Hs2, Hs1, insert_insert_eq|].
    split; [intros f Hf; rewrite Hf2, decide_False by tauto; by apply Hold|].
    intros fd. rewrite Hf2. cbn [fst snd]. rewrite (Hold (from, fd)) by (cbn; congruence). rewrite Hf1. cbn [fst snd].
    destruct (decide (to = to /\ 0 <= fd < FS_STRUCT_NENTRY)) as [[_ Hr]|Hr].
    + destruct (gi_map _ _ (proj1 HF) from v fd Hfrom) as [x Hx]; [by apply testfd_spec|].
      rewrite Hx. cbn. unfold forked, dup_entry, fresh_entry. by case_decide.
    + rewrite Hnone. destruct (files s !! (from, fd)) as [x|] eqn:Hx; [|done]. destruct Hr. split; [done|].
      pose proof (gi_file _ _ (proj1 HF) _ _ _ Hx) as (_&Ht&_). by apply testfd_spec in Ht.
Qed.

(** When the last process that shares a file map exits ([fs_count] 0) and no
    operation is under way on it, [fs_destroy] closes every open entry, drops the
    working directory, and leaves the counts of all inodes exact: nothing leaks. *)
Theorem fs_destroy_releases s xr p v :
  FInv s xr -> fss s !! p = Some v -> fs_count v = 0 ->
  (forall j x, files s !! (p, j) = Some x -> quiet x) ->
  runs (fs_destroy optab p) s (fun _ s' => FInv s' xr /\ fss s' = delete p (fss s) /\
    (forall j, files s' !! (p, j) = None) /\ (forall f, fst f <> p -> files s' !! f = files s !! f)).
Proof.
  intros HF Hp Hc Hq. runs_by (fs_destroy_runs s xr p v HF Hp Hc Hq). cbn beta. intros _ s' (H1&H2&_&H3&H4). done.
Qed.

(** The state in which [file_read] and [file_write] call the file system. *)
Definition acquired s (f : Z * Z) (x : file) : st := set_files (<[f := set_f_count (f_count x + 1) x]> (files s)) s.

Lemma file_rw_runs may op s xr fd m x base len n i g o s2 :
  op = op_read \/ op = op_write ->
  FInv s xr -> at_fd s fd m x -> status x = FD_OPENED -> may x = true -> node x = Some n -> f_count x < 2147483646 ->
  0 <= len < W32 -> inodes s !! n = Some i -> op (optab (in_ops i)) = Some g ->
  g n (iobuf_init base len (pos x)) (acquired s (m, fd) x) = Ok (o, s2) ->
  runs (file_rw optab may op fd base len) s (fun r s' =>
    r = (fst o, len - io_resid (snd o)) /\ 0 <= len - io_resid (snd o) <= len /\ FInv s' xr /\
    files s' = <[(m, fd) := set_pos (s32 (pos x + (len - io_resid (snd o)))) x]> (files s) /\ fmem s' = fmem s2).
Proof.
  intros Hop HF Hat Hst Hmay Hn Hcnt Hlen Hi Hg Hrun. pose proof HF as (HG&Hx0&Hpin). pose proof Hat as (Hc&Hv&Hx).
  pose proof (gi_file _ _ HG _ _ _ Hx) as Hok. pose proof Hok as (Hfd&Ht&Hcr&Hst'). rewrite Hst in Hst'. destruct Hst' as [Hpos _].
  unfold file_rw. runs_steps. eapply fd2file_runs; [done..|]. cbn [snd]. runs_steps. eapply rd_file_runs; [exact Hx|].
  rewrite Hmay. cbn [negb]. unfold filemap_acquire, fopen_count_inc. runs_steps. eapply rd_file_runs; [exact Hx|]. runs_steps.
  apply runs_assert; [by apply bool_decide_eq_true|]. runs_steps. eapply rd_file_runs; [exact Hx|]. runs_steps.
  eapply upd_file_runs; [exact Hx|]. rewrite fcount_inc by lia. fold (acquired s (m, fd) x). runs_steps.
  eapply runs_deref; [exact Hn|]. runs_steps. set (s1 := acquired s (m, fd) x) in *.
  assert (HC1 : CInv optab s1 (slots s) (fun n => slots s n + (pwds s n + xr n))).
  { eapply CInv_frame; [apply (gi_c _ _ HG)|done|apply (ci_priv _ _ _ _ (gi_c _ _ HG))]. }
  eapply vop_runs; [exact HC1|exact Hi|exact Hg|]. runs_steps. apply runs_ok. exists o, s2. split; [exact Hrun|].
  assert (Hrw : op_read (optab (in_ops i)) = Some g \/ op_write (optab (in_ops i)) = Some g) by (destruct Hop as [-> | ->]; auto).
  destruct (iok_rw s1 n i g (iobuf_init base len (pos x)) o s2 Hi (ci_priv _ _ _ _ HC1) Hrw ltac:(cbn; lia) ltac:(cbn; lia) Hrun) as ((Hff&Hfs&_)&Hin&Hiok&Hl&Hr).
  cbn in Hl, Hr. assert (Hused : iobuf_used (snd o) = len - io_resid (snd o)).
  { unfold iobuf_used. rewrite Hl. apply u32_small. unfold is_u32. lia. }
  rewrite Hused. runs_steps. assert (Hx2 : files s2 !! (m, fd) = Some (set_f_count (f_count x + 1) x)) by (rewrite Hff; apply lookup_insert_eq).
  eapply rd_file_runs; [exact Hx2|]. runs_steps. rewrite decide_True by done.
  eapply upd_file_runs; [exact Hx2|]. unfold filemap_release, fopen_count_dec. runs_steps.
  eapply rd_file_runs; [apply lookup_insert_eq|]. runs_steps. apply runs_assert; [apply bool_decide_eq_true; by left|]. runs_steps.
  apply runs_assert; [apply Z.ltb_lt; cbn; lia|]. runs_steps. eapply rd_file_runs; [apply lookup_insert_eq|]. runs_steps.
  eapply upd_file_runs; [apply lookup_insert_eq|]. rewrite set_files_twice. cbn [f_count set_pos set_f_count pos].
  rewrite fcount_dec by lia. replace (f_count x + 1 - 1) with (f_count x) by lia. runs_steps. rewrite (proj2 (Z.eqb_neq (f_count x) 0)) by lia.
  runs_steps. rewrite Hff. cbn [files s1 acquired set_files]. rewrite insert_insert_eq.
  set (x' := set_pos _ x). assert (Hx' : set_f_count (f_count x) (set_pos (s32 (pos x + (len - io_resid (snd o)))) (set_f_count (f_count x + 1) x)) = x') by done.
  rewrite Hx'. split; [done|]. split; [lia|]. split; [|done].
  apply (FInv_keeps s); [done|exact Hfs|by apply msub_same|].
  eapply (GInv_update s _ _ _ m fd x x' _ _ HG Hx); [done|exact Hfs|exact Hok| |by apply msub_same|..|done].
  - eapply CInv_frame; [exact HC1|exact Hin|]. exact Hiok.
  - intros k. rewrite (b2z_holds_node k x' x) by done. lia.
  - intros k. rewrite (b2z_holds_node k x' x) by done. lia.
Qed.

(** A read through a descriptor open for reading returns what the file system's
    [vop_read] returned at the file's position, moves the position by exactly the
    bytes transferred, and leaves counts, other descriptors and the open count of
    the file as they were. *)
Theorem file_read_correct s xr fd m x base len n i g o s2 :
  FInv s xr -> at_fd s fd m x -> status x = FD_OPENED -> readable x = true -> node x = Some n -> f_count x < 2147483646 ->
  0 <= len < W32 -> inodes s !! n = Some i -> op_read (optab (in_ops i)) = Some g ->
  g n (iobuf_init base len (pos x)) (acquired s (m, fd) x) = Ok (o, s2) ->
  runs (file_read optab fd base len) s (fun r s' =>
    r = (fst o, len - io_resid (snd o)) /\ 0 <= len - io_resid (snd o) <= len /\ FInv s' xr /\
    files s' = <[(m, fd) := set_pos (s32 (pos x + (len - io_resid (snd o)))) x]> (files s) /\ fmem s' = fmem s2).
Proof. intros. eapply file_rw_runs; eauto. Qed.
End Files.
