(* ===== verification/Dev.v ===== *)
(** * Devices (kern/fs/devs, driver/ide.c, driver/ramdisk.c)

    The inode operations of devices ([dev_node_ops]) over the three drivers:
    the keyboard ring of stdin, stdout, and disk0 on the RAM disk.  A driver is a
    constructor of [driver]; the pointers [d_io], ... of [struct device] select
    by it.  While a reader of stdin sleeps, interrupts fill the ring: what
    happens during each sleep is read off [arrivals] (the bytes typed, or [None]
    when the sleeper is woken for another reason). *)

From stdpp Require Import base gmap list.
From Stdlib Require Import ZArith Lia Bool.
From S2P Require Import Prelude.
From S2P Require Import Vmm.
From S2P Require Import Vfs.

Definition STDIN_BUFSIZE : Z := 2048.
Definition SECTSIZE : Z := 512.
Definition DISK0_BLKSIZE : Z := 4096.
Definition DISK0_BUFSIZE : Z := 4 * DISK0_BLKSIZE.
Definition DISK0_BLK_NSECT : Z := DISK0_BLKSIZE / SECTSIZE.

Inductive driver := Stdin | Stdout | Disk0.
#[export] Instance driver_eq : EqDecision driver.
Proof. solve_decision. Defined.
Record device := mkDev { d_blocks : Z; d_blocksize : Z; d_driver : driver }.

(** [struct ide_device] of the RAM disk: size in sectors, address. *)
Record ide_device := mkIde { ide_size : Z; iobase : Z }.

Record devst := mkDevst {
  devs : gmap Z device;
  stdin_buffer : Z -> Z;
  p_rpos : Z;
  p_wpos : Z;
  arrivals : list (option (list Z));
  console : list Z;                     (* bytes put by [kputchar], last first *)
  ramdisk : ide_device;
  disk0_buffer : Z
}.
Definition set_ring b r w d := mkDevst (devs d) b r w (arrivals d) (console d) (ramdisk d) (disk0_buffer d).
Definition set_arrivals v d := mkDevst (devs d) (stdin_buffer d) (p_rpos d) (p_wpos d) v (console d) (ramdisk d) (disk0_buffer d).
Definition set_console v d := mkDevst (devs d) (stdin_buffer d) (p_rpos d) (p_wpos d) (arrivals d) v (ramdisk d) (disk0_buffer d).

Abbreviation dst := (fst_ devst).
Definition on_dev {A} (m : M devst A) : M dst A := zoom priv set_priv m.

(** ** dev_stdin.c *)

(** In the keyboard interrupt; waking the queue is [Sync.wakeup_queue]. *)
Definition dev_stdin_write (c : Z) : M devst unit :=
  if negb (c =? 0) then
    let! d := get in
    let w := p_wpos d in
    let b := fun i => if i =? Z.rem w STDIN_BUFSIZE then c else stdin_buffer d i in
    put (set_ring b (p_rpos d) (if s32 (w - p_rpos d) <? STDIN_BUFSIZE then s32 (w + 1) else w) d)
  else ret tt.

Fixpoint dev_stdin_type (cs : list Z) : M devst unit :=
  match cs with [] => ret tt | c :: cs => do! dev_stdin_write c in dev_stdin_type cs end.

(** [for (; ret < len; ret ++, p_rpos ++)] with [try_again]. *)
Fixpoint stdin_read_loop (fuel : nat) (buf r len : Z) : M dst Z :=
  if r <? len then
    match fuel with
    | O => nofuel
    | S fuel =>
        let! s := get in
        let d := priv s in
        if p_rpos d <? p_wpos d then
          do! modify (fun s => set_fmem (fun x => if x =? buf then stdin_buffer d (Z.rem (p_rpos d) STDIN_BUFSIZE) else fmem s x) s) in
          do! on_dev (put (set_ring (stdin_buffer d) (s32 (p_rpos d + 1)) (p_wpos d) d)) in
          stdin_read_loop fuel (u32 (buf + 1)) (r + 1) len
        else
          match arrivals d with
          | [] => nofuel
          | a :: rest =>
              do! on_dev (put (set_arrivals rest d)) in
              match a with
              | Some cs => do! on_dev (dev_stdin_type cs) in stdin_read_loop fuel buf r len
              | None => ret r
              end
          end
    end
  else ret r.
Definition dev_stdin_read (buf len : Z) : M dst Z :=
  let! s := get in
  stdin_read_loop (Z.to_nat len + length (arrivals (priv s))) buf 0 len.

Definition stdin_open (open_flags : Z) : Z := if negb (open_flags =? O_RDONLY) then - E_INVAL else 0.
Definition stdin_io (iob : iobuf) (write : bool) : M dst (Z * iobuf) :=
  if negb write then
    let! r := dev_stdin_read (io_base iob) (io_resid iob) in
    ret (r, if 0 <? r then mkIob (io_base iob) (io_offset iob) (io_len iob) (io_resid iob - r) else iob)
  else ret (- E_INVAL, iob).

(** ** dev_stdout.c *)

Definition stdout_open (open_flags : Z) : Z := if negb (open_flags =? O_WRONLY) then - E_INVAL else 0.

(** [for (; iob->io_resid != 0; iob->io_resid --)]; [k] is [io_resid]. *)
Fixpoint stdout_loop (k : nat) (data : Z) : M dst unit :=
  match k with
  | O => ret tt
  | S k =>
      do! modify (fun s => set_priv (set_console (fmem s data :: console (priv s)) (priv s)) s) in
      stdout_loop k (u32 (data + 1))
  end.
Definition stdout_io (iob : iobuf) (write : bool) : M dst (Z * iobuf) :=
  if write then
    do! stdout_loop (Z.to_nat (io_resid iob)) (io_base iob) in
    ret (0, mkIob (io_base iob) (io_offset iob) (io_len iob) 0)
  else ret (- E_INVAL, iob).

(** ** ramdisk.c, ide.c, dev_disk0.c *)

Definition ramdisk_read (dev : ide_device) (secno dst nsecs : Z) : M bytes Z :=
  let nsecs := if nsecs <? u32 (ide_size dev - secno) then nsecs else u32 (ide_size dev - secno) in
  do! modify (bcopy dst (u32 (iobase dev + secno * SECTSIZE)) (u32 (nsecs * SECTSIZE))) in ret 0.
Definition ramdisk_write (dev : ide_device) (secno src nsecs : Z) : M bytes Z :=
  let nsecs := if nsecs <? u32 (ide_size dev - secno) then nsecs else u32 (ide_size dev - secno) in
  do! modify (bcopy (u32 (iobase dev + secno * SECTSIZE)) src (u32 (nsecs * SECTSIZE))) in ret 0.
(** [CHECK_CALL]: an absent disk (size 0) does nothing. *)
Definition ide_read_secs (dev : ide_device) (secno dst nsecs : Z) : M bytes Z :=
  if negb (ide_size dev =? 0) then ramdisk_read dev secno dst nsecs else ret 0.
Definition ide_write_secs (dev : ide_device) (secno src nsecs : Z) : M bytes Z :=
  if negb (ide_size dev =? 0) then ramdisk_write dev secno src nsecs else ret 0.

Definition disk0_read_blks_nolock (blkno nblks : Z) : M dst unit :=
  let! s := get in
  let! r := on_mem (ide_read_secs (ramdisk (priv s)) (u32 (blkno * DISK0_BLK_NSECT)) (disk0_buffer (priv s)) (u32 (nblks * DISK0_BLK_NSECT))) in
  if negb (r =? 0) then panic else ret tt.
Definition disk0_write_blks_nolock (blkno nblks : Z) : M dst unit :=
  let! s := get in
  let! r := on_mem (ide_write_secs (ramdisk (priv s)) (u32 (blkno * DISK0_BLK_NSECT)) (disk0_buffer (priv s)) (u32 (nblks * DISK0_BLK_NSECT))) in
  if negb (r =? 0) then panic else ret tt.

(** [while (resid != 0)]. *)
Fixpoint disk0_loop (fuel : nat) (iob : iobuf) (resid blkno : Z) (write : bool) : M dst iobuf :=
  if negb (resid =? 0) then
    match fuel with
    | O => nofuel
    | S fuel =>
        let! s := get in
        let buf := disk0_buffer (priv s) in
        if write then
          let! m := on_mem (iobuf_move iob buf DISK0_BUFSIZE false) in
          let '(_, iob, copied) := m in
          do! assert_ (negb (copied =? 0) && (copied <=? resid) && (copied mod DISK0_BLKSIZE =? 0)) in
          let nblks := copied / DISK0_BLKSIZE in
          do! disk0_write_blks_nolock blkno nblks in
          disk0_loop fuel iob (resid - copied) (u32 (blkno + nblks)) write
        else
          let alen := if resid <? DISK0_BUFSIZE then resid else DISK0_BUFSIZE in
          let nblks := alen / DISK0_BLKSIZE in
          do! disk0_read_blks_nolock blkno nblks in
          let! m := on_mem (iobuf_move iob buf alen true) in
          let '(_, iob, copied) := m in
          do! assert_ ((copied =? alen) && (copied mod DISK0_BLKSIZE =? 0)) in
          disk0_loop fuel iob (resid - copied) (u32 (blkno + nblks)) write
    end
  else ret iob.

Definition disk0_io (dev : device) (iob : iobuf) (write : bool) : M dst (Z * iobuf) :=
  let offset := io_offset iob in
  let resid := io_resid iob in
  let blkno := u32 (Z.quot offset DISK0_BLKSIZE) in
  let nblks := resid / DISK0_BLKSIZE in
  if negb (Z.rem offset DISK0_BLKSIZE =? 0) || negb (resid mod DISK0_BLKSIZE =? 0) then ret (- E_INVAL, iob)
  else if d_blocks dev <? u32 (blkno + nblks) then ret (- E_INVAL, iob)
  else if nblks =? 0 then ret (0, iob)
  else let! iob := disk0_loop (Z.to_nat nblks) iob resid blkno write in ret (0, iob).

(** ** dev.c *)

(** [vop_info(node, device)]. *)
Definition vop_info_device (n : Z) : M dst device :=
  let! i := rd_inode n in
  do! assert_ (in_type i =? inode_type_device_info) in
  let! s := get in deref (devs (priv s) !! n).

Definition dop_open (dev : device) (open_flags : Z) : Z :=
  match d_driver dev with Stdin => stdin_open open_flags | Stdout => stdout_open open_flags | Disk0 => 0 end.
(** [stdin_close], [stdout_close], [disk0_close]. *)
Definition dop_close (dev : device) : Z := 0.
Definition dop_io (dev : device) (iob : iobuf) (write : bool) : M dst (Z * iobuf) :=
  match d_driver dev with Stdin => stdin_io iob write | Stdout => stdout_io iob write | Disk0 => disk0_io dev iob write end.

Definition dev_open (n open_flags : Z) : M dst Z :=
  if negb (Z.land open_flags (Z.lor O_CREAT (Z.lor O_TRUNC (Z.lor O_EXCL O_APPEND))) =? 0) then ret (- E_INVAL)
  else let! dev := vop_info_device n in ret (dop_open dev open_flags).
Definition dev_close (n : Z) : M dst Z := let! dev := vop_info_device n in ret (dop_close dev).
Definition dev_read (n : Z) (iob : iobuf) : M dst (Z * iobuf) := let! dev := vop_info_device n in dop_io dev iob false.
Definition dev_write (n : Z) (iob : iobuf) : M dst (Z * iobuf) := let! dev := vop_info_device n in dop_io dev iob true.
Definition dev_gettype (n : Z) : M dst (Z * Z) :=
  let! dev := vop_info_device n in ret (0, if 0 <? d_blocks dev then S_IFBLK else S_IFCHR).
Definition dev_fstat (n : Z) : M dst (Z * stat) :=
  let! t := dev_gettype n in
  let! dev := vop_info_device n in
  ret (0, mkStat (snd t) 1 (d_blocks dev) (u32 (d_blocks dev * d_blocksize dev))).

(** [while (poss >= dev->d_blocksize) poss -= dev->d_blocksize;] *)
Fixpoint sub_loop (fuel : nat) (poss bs : Z) : M dst Z :=
  if bs <=? poss then match fuel with O => nofuel | S fuel => sub_loop fuel (poss - bs) bs end else ret poss.
Definition dev_tryseek (n p : Z) : M dst Z :=
  let! dev := vop_info_device n in
  if 0 <? d_blocks dev then
    let! poss := sub_loop (Z.to_nat (u32 p / d_blocksize dev)) (u32 p) (d_blocksize dev) in
    if poss =? 0 then
      if (0 <=? p) && (p <? u32 (d_blocks dev * d_blocksize dev)) then ret 0 else ret (- E_INVAL)
    else ret (- E_INVAL)
  else ret (- E_INVAL).
Definition dev_lookup (n : Z) (p : path) : M dst (Z * option Z) :=
  match p with
  | [] => do! inode_ref_inc n in ret (0, Some n)
  | _ => ret (- E_NOENT, None)
  end.

Definition dev_node_ops : @inode_ops devst :=
  mkOps (Some dev_open) (Some dev_close) (Some dev_read) (Some dev_write) (Some dev_fstat) None None None None
        (Some dev_gettype) (Some dev_tryseek) None None (Some dev_lookup).

(** [dev_create_inode] and [*_device_init]; [at_] is where [dev_node_ops] is. *)
Definition dev_create_inode (new : option Z) (at_ : Z) : M dst (option Z) :=
  let! r := alloc_inode new inode_type_device_info in
  match r with
  | None => ret None
  | Some n => do! inode_init n at_ None in ret (Some n)
  end.
Definition set_device (n : Z) (dev : device) (d : devst) : devst :=
  mkDevst (<[n := dev]> (devs d)) (stdin_buffer d) (p_rpos d) (p_wpos d) (arrivals d) (console d) (ramdisk d) (disk0_buffer d).
Definition stdin_device_init (n : Z) : M devst unit :=
  modify (fun d => set_ring (stdin_buffer d) 0 0 (set_device n (mkDev 0 1 Stdin) d)).
Definition stdout_device_init (n : Z) : M devst unit := modify (set_device n (mkDev 0 1 Stdout)).
(** [buffer]: what [kmalloc(DISK0_BUFSIZE)] returned. *)
Definition disk0_device_init (n : Z) (buffer : option Z) : M devst unit :=
  let! d := get in
  if ide_size (ramdisk d) =? 0 then panic
  else
    do! modify (set_device n (mkDev (ide_size (ramdisk d) / DISK0_BLK_NSECT) DISK0_BLKSIZE Disk0)) in
    match buffer with
    | None => panic
    | Some b => modify (fun d => mkDevst (devs d) (stdin_buffer d) (p_rpos d) (p_wpos d) (arrivals d) (console d) (ramdisk d) b)
    end.
