(* ===== verification/DevThm.v ===== *)
(** * The devices: an instance of the inode interface, the RAM disk, the keyboard ring *)

From stdpp Require Import base gmap list.
From Stdlib Require Import ZArith Lia Bool.
From S2P Require Import Prelude.
From S2P Require Import Vmm.
From S2P Require Import Vfs.
From S2P Require Import VfsInv.
From S2P Require Import FileThm.
From S2P Require Import Dev.

(** ** What holds when a routine returns *)

Definition upon {S A} (m : M S A) (s : S) (Q : A -> S -> Prop) : Prop := forall a s', m s = Ok (a, s') -> Q a s'.

Section Upon.
Context {S : Type}.
Lemma upon_ret {A} (a : A) (s : S) (Q : A -> S -> Prop) : Q a s -> upon (ret a) s Q.
Proof. by intros HQ a' s' [= <- <-]. Qed.
Lemma upon_bind {A B} (m : M S A) (k : A -> M S B) s Q : upon m s (fun a s' => upon (k a) s' Q) -> upon (bind m k) s Q.
Proof. intros H b s'. unfold bind. destruct (m s) as [[a s1]| | |] eqn:Hm; [|done..]. by apply H. Qed.
Lemma upon_mono {A} (m : M S A) s (P Q : A -> S -> Prop) : upon m s P -> (forall a s', P a s' -> Q a s') -> upon m s Q.
Proof. intros H HPQ a s' Hm. by apply HPQ, H. Qed.
Lemma upon_get (s : S) (Q : S -> S -> Prop) : Q s s -> upon get s Q.
Proof. by intros HQ a' s' [= <- <-]. Qed.
Lemma upon_put (s s' : S) (Q : unit -> S -> Prop) : Q tt s' -> upon (put s') s Q.
Proof. by intros HQ a' s1 [= <- <-]. Qed.
Lemma upon_modify f (s : S) (Q : unit -> S -> Prop) : Q tt (f s) -> upon (modify f) s Q.
Proof. by intros HQ a' s' [= <- <-]. Qed.
Lemma upon_assert b (s : S) (Q : unit -> S -> Prop) : (b = true -> Q tt s) -> upon (assert_ b) s Q.
Proof. intros HQ a' s'. destruct b; [|done]. intros [= <- <-]. by apply HQ. Qed.
Lemma upon_deref {A} (o : option A) (s : S) (Q : A -> S -> Prop) : (forall a, o = Some a -> Q a s) -> upon (deref o) s Q.
Proof. intros HQ a' s'. destruct o; [|done]. intros [= <- <-]. by apply HQ. Qed.
Lemma upon_zoom {T A} (pr : T -> S) inj (m : M S A) t (Q : A -> T -> Prop) :
  upon m (pr t) (fun a s' => Q a (inj s' t)) -> upon (zoom pr inj m) t Q.
Proof. intros H a t'. unfold zoom. destruct (m (pr t)) as [[b s1]| | |] eqn:Hm; [|done..]. intros [= <- <-]. by apply H. Qed.
Lemma upon_runs {A} (m : M S A) s Q : runs m s Q -> upon m s Q.
Proof. intros H a s' Hm. by eapply runs_elim. Qed.
End Upon.

Ltac upon_step :=
  lazymatch goal with
  | |- upon (bind _ _) _ _ => apply upon_bind
  | |- upon (ret _) _ _ => apply upon_ret
  | |- upon get _ _ => apply upon_get
  | |- upon (put _) _ _ => apply upon_put
  | |- upon (modify _) _ _ => apply upon_modify
  | |- upon (assert_ _) _ _ => apply upon_assert; intros ?
  | |- upon (deref _) _ _ => apply upon_deref; intros ? ?
  | |- upon panic _ _ => by intros ? ?
  | |- upon nofuel _ _ => by intros ? ?
  | |- upon (on_dev _) _ _ => apply upon_zoom
  | |- upon (on_mem _) _ _ => apply upon_zoom
  | |- upon (if ?b then _ else _) _ _ => destruct b eqn:?
  end; cbn beta.
Ltac upon_steps := repeat upon_step.

(** ** Devices satisfy the inode interface *)

Definition dframe (s s' : dst) : Prop := fframe s s' /\ inodes s' = inodes s /\ devs (priv s') = devs (priv s).

Lemma dframe_refl s : dframe s s.
Proof. by repeat split. Qed.
Lemma dframe_trans s1 s2 s3 : dframe s1 s2 -> dframe s2 s3 -> dframe s1 s3.
Proof. intros (?&?&?) (?&?&?). split; [by eapply fframe_trans|]. split; congruence. Qed.

Lemma dev_stdin_write_devs c (d : devst) : upon (dev_stdin_write c) d (fun _ d' => devs d' = devs d).
Proof. unfold dev_stdin_write. by upon_steps. Qed.

Lemma dev_stdin_type_devs cs : forall d : devst, upon (dev_stdin_type cs) d (fun _ d' => devs d' = devs d).
Proof.
  induction cs as [|c cs IH]; intros d; cbn [dev_stdin_type]; upon_steps; [done|].
  eapply upon_mono; [apply dev_stdin_write_devs|]. cbn beta. intros _ d1 H1. eapply upon_mono; [apply IH|]. cbn beta.
  intros _ d2 ->. done.
Qed.

Lemma stdin_read_loop_frame fuel : forall (s : dst) buf r len,
  0 <= r <= len -> upon (stdin_read_loop fuel buf r len) s (fun a s' => dframe s s' /\ r <= a <= len).
Proof.
  induction fuel as [|fuel IH]; intros s buf r len Hr; cbn [stdin_read_loop]; (destruct (Z.ltb_spec r len); [|upon_steps; split; [apply dframe_refl|lia]]).
  { by upon_steps. }
  upon_steps.
  - eapply upon_mono; [apply IH; lia|]. cbn beta. intros a s' [Hf Ha]. split; [|lia]. eapply dframe_trans; [|exact Hf]. by repeat split.
  - destruct (arrivals (priv s)) as [|[cs|] rest]; upon_steps.
    + eapply upon_mono; [apply dev_stdin_type_devs|]. cbn beta. intros _ d1 Hd. eapply upon_mono; [apply IH; lia|]. cbn beta.
      intros a s' [Hf Ha]. split; [|lia]. eapply dframe_trans; [|exact Hf]. by repeat split.
    + split; [by repeat split|lia].
Qed.

Lemma stdout_loop_frame k : forall (s : dst) data, upon (stdout_loop k data) s (fun _ s' => dframe s s').
Proof.
  induction k as [|k IH]; intros s data; cbn [stdout_loop]; upon_steps; [apply dframe_refl|].
  eapply upon_mono; [apply IH|]. cbn beta. intros _ s' Hf. eapply dframe_trans; [|exact Hf]. by repeat split.
Qed.

Lemma iobuf_move_frame iob data len m2b (mem : bytes) :
  0 <= io_resid iob -> 0 <= len ->
  upon (iobuf_move iob data len m2b) mem (fun o _ =>
    io_len (snd (fst o)) = io_len iob /\ 0 <= io_resid (snd (fst o)) <= io_resid iob).
Proof.
  intros Hr Hl. unfold iobuf_move, iobuf_skip. upon_steps; cbn; (split; [done|]);
    repeat match goal with H : (_ <=? _) = true |- _ => apply Z.leb_le in H | H : (_ <? _) = _ |- _ => destruct (Z.ltb_spec _ _) in H end; try lia.
Qed.

Lemma disk0_rw_frame (write : bool) blkno nblks (s : dst) :
  upon (if write then disk0_write_blks_nolock blkno nblks else disk0_read_blks_nolock blkno nblks) s (fun _ s' => dframe s s').
Proof.
  destruct write; unfold disk0_write_blks_nolock, disk0_read_blks_nolock, ide_write_secs, ide_read_secs, ramdisk_write, ramdisk_read;
    upon_steps; by repeat split.
Qed.

Lemma disk0_loop_frame fuel : forall (s : dst) iob resid blkno write,
  0 <= io_resid iob -> 0 <= resid ->
  upon (disk0_loop fuel iob resid blkno write) s (fun iob' s' => dframe s s' /\
    io_len iob' = io_len iob /\ 0 <= io_resid iob' <= io_resid iob).
Proof.
  induction fuel as [|fuel IH]; intros s iob resid blkno write Hr Hresid; cbn [disk0_loop];
    (destruct (Z.eqb_spec resid 0) as [Hz|Hz]; cbn [negb]; [upon_steps; split; [apply dframe_refl|lia]|]); [by upon_steps|].
  upon_steps.
  - eapply upon_mono; [apply iobuf_move_frame; [lia|unfold DISK0_BUFSIZE, DISK0_BLKSIZE; lia]|]. cbn beta.
    intros [[r1 iob1] copied] mem1 (Hl1&Hr1). cbn in Hl1, Hr1. upon_steps.
    apply andb_prop in H as [H _]. apply andb_prop in H as [_ H]. apply Z.leb_le in H.
    eapply upon_mono; [apply (disk0_rw_frame true)|]. cbn beta. intros _ s2 Hf2. eapply upon_mono; [apply IH; lia|]. cbn beta.
    intros iob' s' (Hf&Hl&Hrr). split; [|split; [congruence|lia]]. eapply dframe_trans; [|exact Hf]. eapply dframe_trans; [|exact Hf2]. by repeat split.
  - eapply upon_mono; [apply (disk0_rw_frame false)|]. cbn beta. intros _ s1 Hf1. upon_steps.
    assert (Ha : 0 <= (if resid <? DISK0_BUFSIZE then resid else DISK0_BUFSIZE) <= resid).
    { unfold DISK0_BUFSIZE, DISK0_BLKSIZE. destruct (Z.ltb_spec resid (4 * 4096)); lia. }
    eapply upon_mono; [apply iobuf_move_frame; [lia|apply Ha]|]. cbn beta. intros [[r1 iob1] copied] mem1 (Hl1&Hr1). cbn in Hl1, Hr1. upon_steps.
    apply andb_prop in H as [H _]. apply Z.eqb_eq in H. subst copied.
    eapply upon_mono; [apply IH; lia|]. cbn beta. intros iob' s' (Hf&Hl&Hrr). split; [|split; [congruence|lia]].
    eapply dframe_trans; [|exact Hf]. eapply dframe_trans; [exact Hf1|]. by repeat split.
Qed.

Lemma dop_io_frame dev iob write (s : dst) :
  0 <= io_resid iob <= io_len iob ->
  upon (dop_io dev iob write) s (fun o s' => dframe s s' /\ io_len (snd o) = io_len iob /\ 0 <= io_resid (snd o) <= io_resid iob).
Proof.
  intros Hr. unfold dop_io. destruct (d_driver dev).
  - unfold stdin_io, dev_stdin_read. upon_steps; [|cbn; split; [apply dframe_refl|lia]].
    eapply upon_mono; [apply stdin_read_loop_frame; lia|]. cbn beta. intros a s' [Hf Ha]. upon_steps; cbn.
    split; [done|]. split; [by destruct (0 <? a)|]. destruct (Z.ltb_spec 0 a); cbn; lia.
  - unfold stdout_io. upon_steps; [|cbn; split; [apply dframe_refl|lia]].
    eapply upon_mono; [apply stdout_loop_frame|]. cbn beta. intros _ s' Hf. upon_steps. cbn. split; [done|lia].
  - unfold disk0_io. upon_steps; try (cbn; split; [apply dframe_refl|lia]).
    eapply upon_mono; [apply disk0_loop_frame; lia|]. cbn beta. intros iob' s' (Hf&Hl&Hrr). upon_steps. cbn. done.
Qed.

#[export] Instance dev_inodes_ok : InodeOk (fun _ => dev_node_ops).
Proof.
  refine {| iok_inv := fun m d => forall n t, m !! n = Some t -> fst (fst t) = inode_type_device_info /\ is_Some (devs d !! n) |}.
  - intros s n i Hi Hinv. destruct (Hinv n (imeta i)) as [Ht [dev Hdev]]; [by rewrite lookup_fmap, Hi|]. exists dev_close. split; [done|].
    unfold dev_close, vop_info_device. runs_steps. eapply rd_inode_runs; [exact Hi|]. runs_steps.
    apply runs_assert; [by apply Z.eqb_eq|]. runs_steps. eapply runs_deref; [exact Hdev|]. by runs_steps.
  - done.
  - intros s n i f iob o s' Hi Hinv Hop Hr Hl Hrun.
    assert (Hf : exists w, upon (f n iob) s (fun o s' => exists dev, (dop_io dev iob w) s = Ok (o, s'))).
    { destruct Hop as [[= <-]|[= <-]]; [exists false|exists true]; unfold dev_read, dev_write, vop_info_device, rd_inode; upon_steps;
        intros a' s1 Hd; by eexists. }
    destruct Hf as [w Hf]. destruct (Hf _ _ Hrun) as [dev Hd].
    destruct (dop_io_frame dev iob w s Hr _ _ Hd) as ((Hfr&Hin&Hdv)&Hll&Hrr). split_and!; try done; try lia.
    intros n' t Ht. rewrite Hdv. by apply Hinv.
Defined.

(** ** disk0 on the RAM disk *)

(** Block transfers of [len] bytes at block [blkno]: the buffer, the driver's
    bounce buffer and the disk do not overlap, and the disk is long enough. *)
Record io_fits (d : devst) (base len blkno : Z) : Prop := {
  if_base : 0 <= base /\ base + len < W32;
  if_buf : 0 <= disk0_buffer d /\ disk0_buffer d + DISK0_BUFSIZE < W32;
  if_disk : 0 <= iobase (ramdisk d) /\ iobase (ramdisk d) + ide_size (ramdisk d) * SECTSIZE < W32;
  if_len : 0 <= len /\ len mod DISK0_BLKSIZE = 0;
  if_blk : 0 <= blkno /\ blkno * DISK0_BLKSIZE + len <= ide_size (ramdisk d) * SECTSIZE;
  if_sep1 : base + len <= disk0_buffer d \/ disk0_buffer d + DISK0_BUFSIZE <= base;
  if_sep2 : base + len <= iobase (ramdisk d) \/ iobase (ramdisk d) + ide_size (ramdisk d) * SECTSIZE <= base;
  if_sep3 : iobase (ramdisk d) + ide_size (ramdisk d) * SECTSIZE <= disk0_buffer d \/ disk0_buffer d + DISK0_BUFSIZE <= iobase (ramdisk d)
}.

Definition in_range (x a n : Z) : bool := (a <=? x) && (x <? a + n).

Lemma in_range_spec x a n : in_range x a n = true <-> a <= x < a + n.
Proof. unfold in_range. rewrite andb_true_iff, Z.leb_le, Z.ltb_lt. done. Qed.
Lemma in_range_false x a n : in_range x a n = false <-> ~ (a <= x < a + n).
Proof. rewrite <-in_range_spec. by destruct (in_range x a n). Qed.

(** The transfer of [n] bytes from [src] to [dst] as seen outside the bounce buffer [buf]. *)
Definition moved (buf dst src n : Z) (m m' : bytes) : Prop :=
  forall x, in_range x buf DISK0_BUFSIZE = false -> m' x = if in_range x dst n then m (x - dst + src) else m x.

(** Two copies through a bounce buffer. *)
Lemma bounce_moved buf dst src n m :
  0 <= n <= DISK0_BUFSIZE -> (dst + n <= buf \/ buf + DISK0_BUFSIZE <= dst) -> (src + n <= buf \/ buf + DISK0_BUFSIZE <= src) ->
  moved buf dst src n m (bcopy dst buf n (bcopy buf src n m)).
Proof.
  intros Hn Hd Hs x Hx. apply in_range_false in Hx. unfold bcopy. fold (in_range x dst n).
  destruct (in_range x dst n) eqn:Hr.
  - apply in_range_spec in Hr. rewrite (proj2 (andb_true_iff _ _)) by (split; [apply Z.leb_le|apply Z.ltb_lt]; lia). f_equal. lia.
  - apply in_range_false in Hr. fold (in_range x buf n). rewrite (proj2 (in_range_false x buf n)); [done|lia].
Qed.

Lemma moved_trans buf dst src n1 n2 m1 m2 m3 :
  0 <= n1 -> 0 <= n2 ->
  (src + n1 + n2 <= buf \/ buf + DISK0_BUFSIZE <= src) -> (src + n1 + n2 <= dst \/ dst + n1 <= src) ->
  moved buf dst src n1 m1 m2 -> moved buf (dst + n1) (src + n1) n2 m2 m3 -> moved buf dst src (n1 + n2) m1 m3.
Proof.
  intros Hn1 Hn2 Hs Hsd H1 H2 x Hx. rewrite H2 by done. destruct (in_range x (dst + n1) n2) eqn:Hr.
  - apply in_range_spec in Hr. rewrite (proj2 (in_range_spec x dst (n1 + n2))) by lia.
    rewrite H1 by (apply in_range_false; lia). rewrite (proj2 (in_range_false _ dst n1)) by lia. f_equal. lia.
  - apply in_range_false in Hr. rewrite H1 by done. destruct (in_range x dst n1) eqn:Hr1.
    + apply in_range_spec in Hr1. by rewrite (proj2 (in_range_spec x dst (n1 + n2))) by lia.
    + apply in_range_false in Hr1. by rewrite (proj2 (in_range_false x dst (n1 + n2))) by lia.
Qed.

(** [iobuf_move] moves what is asked for or what is left. *)
Lemma iobuf_move_runs iob data len (m2b : bool) mem Q n :
  n = Z.min len (io_resid iob) -> 0 < n -> is_u32 (io_base iob + n) ->
  (forall r off, Q (r, mkIob (io_base iob + n) off (io_len iob) (io_resid iob - n), n)
     (bcopy (if m2b then io_base iob else data) (if m2b then data else io_base iob) n mem)) ->
  runs (iobuf_move iob data len m2b) mem Q.
Proof.
  intros Hn Hl Hb HQ. unfold iobuf_move.
  assert (Ha : (if len <? io_resid iob then len else io_resid iob) = n) by (destruct (Z.ltb_spec len (io_resid iob)); lia).
  rewrite Ha. rewrite (proj2 (Z.ltb_lt 0 n)) by lia. runs_steps. unfold iobuf_skip. runs_steps.
  apply runs_assert; [apply Z.leb_le; lia|]. runs_steps. cbn [fst snd]. rewrite u32_small by done. destruct m2b; apply HQ.
Qed.

Lemma ramdisk_args d base len blkno n :
  io_fits d base len blkno -> 0 < n <= len -> n mod DISK0_BLKSIZE = 0 ->
  let nsecs := u32 (n / DISK0_BLKSIZE * DISK0_BLK_NSECT) in let secno := u32 (blkno * DISK0_BLK_NSECT) in
  (ide_size (ramdisk d) =? 0) = false /\
  u32 ((if nsecs <? u32 (ide_size (ramdisk d) - secno) then nsecs else u32 (ide_size (ramdisk d) - secno)) * SECTSIZE) = n /\
  u32 (iobase (ramdisk d) + secno * SECTSIZE) = iobase (ramdisk d) + blkno * DISK0_BLKSIZE.
Proof.
  intros [Hb Hbuf Hd Hl Hk _ _ _] Hn Hm. cbn zeta. unfold DISK0_BLK_NSECT, DISK0_BLKSIZE, SECTSIZE, W32 in *. change (4096 / 512) with 8.
  set (q := n / 4096). assert (Hq : n = 4096 * q) by (unfold q; mlia).
  assert (Hs1 : u32 (q * 8) = q * 8) by (apply u32_small; unfold is_u32, W32; lia).
  assert (Hs2 : u32 (blkno * 8) = blkno * 8) by (apply u32_small; unfold is_u32, W32; lia).
  assert (Hs3 : u32 (ide_size (ramdisk d) - blkno * 8) = ide_size (ramdisk d) - blkno * 8) by (apply u32_small; unfold is_u32, W32; lia).
  rewrite Hs1, Hs2, Hs3. split; [apply Z.eqb_neq; lia|]. split; [|rewrite u32_small; unfold is_u32, W32; lia].
  destruct (Z.ltb_spec (q * 8) (ide_size (ramdisk d) - blkno * 8)); rewrite u32_small; unfold is_u32, W32; lia.
Qed.

Lemma disk0_write_blks_runs (s : dst) base len blkno n Q :
  io_fits (priv s) base len blkno -> 0 < n <= len -> n mod DISK0_BLKSIZE = 0 ->
  Q tt (set_fmem (bcopy (iobase (ramdisk (priv s)) + blkno * DISK0_BLKSIZE) (disk0_buffer (priv s)) n (fmem s)) s) ->
  runs (disk0_write_blks_nolock blkno (n / DISK0_BLKSIZE)) s Q.
Proof.
  intros Hfit Hn Hm HQ. destruct (ramdisk_args _ _ _ _ n Hfit Hn Hm) as (Hz&Hlen&Hpos).
  unfold disk0_write_blks_nolock, ide_write_secs, ramdisk_write. runs_steps. unfold on_mem. runs_steps.
  rewrite Hz. cbn [negb]. runs_steps. rewrite Hlen, Hpos. done.
Qed.

Lemma disk0_read_blks_runs (s : dst) base len blkno n Q :
  io_fits (priv s) base len blkno -> 0 < n <= len -> n mod DISK0_BLKSIZE = 0 ->
  Q tt (set_fmem (bcopy (disk0_buffer (priv s)) (iobase (ramdisk (priv s)) + blkno * DISK0_BLKSIZE) n (fmem s)) s) ->
  runs (disk0_read_blks_nolock blkno (n / DISK0_BLKSIZE)) s Q.
Proof.
  intros Hfit Hn Hm HQ. destruct (ramdisk_args _ _ _ _ n Hfit Hn Hm) as (Hz&Hlen&Hpos).
  unfold disk0_read_blks_nolock, ide_read_secs, ramdisk_read. runs_steps. unfold on_mem. runs_steps.
  rewrite Hz. cbn [negb]. runs_steps. rewrite Hlen, Hpos. done.
Qed.

(** What is left of a transfer after its first [n] bytes. *)
Lemma io_fits_next d base len blkno n :
  io_fits d base len blkno -> 0 <= n <= len -> n mod DISK0_BLKSIZE = 0 ->
  io_fits d (base + n) (len - n) (blkno + n / DISK0_BLKSIZE) /\
  (blkno + n / DISK0_BLKSIZE) * DISK0_BLKSIZE = blkno * DISK0_BLKSIZE + n /\ u32 (blkno + n / DISK0_BLKSIZE) = blkno + n / DISK0_BLKSIZE.
Proof.
  intros [H1 H2 H3 H4 H5 H6 H7 H8] Hn Hm. unfold DISK0_BLKSIZE, SECTSIZE, DISK0_BUFSIZE, W32 in *.
  assert (Hq : n = 4096 * (n / 4096)) by mlia. split; [split|split; [lia|apply u32_small; unfold is_u32, W32; lia]];
    unfold DISK0_BLKSIZE, SECTSIZE, DISK0_BUFSIZE, W32; try lia.
  split; [lia|]. clear -H4 Hm. mlia.
Qed.

(** The bytes of one round of the loop. *)
Lemma round_len resid n :
  0 < resid -> resid mod DISK0_BLKSIZE = 0 -> n = Z.min DISK0_BUFSIZE resid ->
  0 < n <= resid /\ n <= DISK0_BUFSIZE /\ n mod DISK0_BLKSIZE = 0 /\ (Z.to_nat ((resid - n) / DISK0_BLKSIZE) < Z.to_nat (resid / DISK0_BLKSIZE))%nat.
Proof. unfold DISK0_BUFSIZE, DISK0_BLKSIZE. intros. repeat split; mlia. Qed.

Lemma disk0_loop_write_runs fuel : forall (s : dst) iob blkno,
  io_fits (priv s) (io_base iob) (io_resid iob) blkno -> (Z.to_nat (io_resid iob / DISK0_BLKSIZE) <= fuel)%nat ->
  runs (disk0_loop fuel iob (io_resid iob) blkno true) s (fun iob' s' => io_resid iob' = 0 /\ exists m', s' = set_fmem m' s /\
    moved (disk0_buffer (priv s)) (iobase (ramdisk (priv s)) + blkno * DISK0_BLKSIZE) (io_base iob) (io_resid iob) (fmem s) m').
Proof.
  induction fuel as [|fuel IH]; intros s iob blkno Hfit Hfuel; pose proof (if_len _ _ _ _ Hfit) as [Hl0 Hlm]; cbn [disk0_loop];
    (destruct (Z.eqb_spec (io_resid iob) 0) as [Hz|Hz]; cbn [negb];
     [runs_steps; split; [done|]; exists (fmem s); split; [by destruct s|]; intros x _; rewrite Hz;
      by rewrite (proj2 (in_range_false x _ 0)) by lia|]).
  { exfalso. unfold DISK0_BLKSIZE in *. mlia. }
  destruct (round_len (io_resid iob) _ ltac:(lia) Hlm eq_refl) as (Hn&Hnb&Hnm&Hdec). set (n := Z.min DISK0_BUFSIZE (io_resid iob)) in *.
  destruct (io_fits_next _ _ _ _ n Hfit ltac:(lia) Hnm) as (Hfit'&Hblk&Hu).
  pose proof (if_base _ _ _ _ Hfit). pose proof (if_blk _ _ _ _ Hfit).
  runs_steps. unfold on_mem at 1. runs_steps. eapply (iobuf_move_runs _ _ _ false _ _ n); [done|lia|unfold is_u32; lia|].
  intros r off. runs_steps. apply runs_assert.
  { rewrite !andb_true_iff. split; [split; [apply negb_true_iff, Z.eqb_neq; lia|apply Z.leb_le; lia]|by apply Z.eqb_eq]. }
  runs_steps. eapply disk0_write_blks_runs; [exact Hfit|lia|exact Hnm|]. rewrite Hu.
  pose proof (IH (set_fmem (bcopy (iobase (ramdisk (priv s)) + blkno * DISK0_BLKSIZE) (disk0_buffer (priv s)) n
     (bcopy (disk0_buffer (priv s)) (io_base iob) n (fmem s))) s) (mkIob (io_base iob + n) off (io_len iob) (io_resid iob - n)) _ Hfit' ltac:(cbn; lia)) as Hrest.
  eapply runs_mono; [exact Hrest|]. cbn [io_resid io_base priv fmem set_fmem]. intros iob' s' (Hr'&m'&->&Hmv). split; [exact Hr'|].
  exists m'. split; [done|]. pose proof (if_sep1 _ _ _ _ Hfit). pose proof (if_sep2 _ _ _ _ Hfit). pose proof (if_sep3 _ _ _ _ Hfit).
  replace (io_resid iob) with (n + (io_resid iob - n)) by lia.
  eapply moved_trans; [lia|lia|lia| | |rewrite <-Z.add_assoc, <-Hblk; exact Hmv].
  - unfold DISK0_BLKSIZE, SECTSIZE in *. lia.
  - apply bounce_moved; [lia| |lia]. unfold DISK0_BLKSIZE, SECTSIZE in *. lia.
Qed.

Lemma disk0_loop_read_runs fuel : forall (s : dst) iob blkno,
  io_fits (priv s) (io_base iob) (io_resid iob) blkno -> (Z.to_nat (io_resid iob / DISK0_BLKSIZE) <= fuel)%nat ->
  runs (disk0_loop fuel iob (io_resid iob) blkno false) s (fun iob' s' => io_resid iob' = 0 /\ exists m', s' = set_fmem m' s /\
    moved (disk0_buffer (priv s)) (io_base iob) (iobase (ramdisk (priv s)) + blkno * DISK0_BLKSIZE) (io_resid iob) (fmem s) m').
Proof.
  induction fuel as [|fuel IH]; intros s iob blkno Hfit Hfuel; pose proof (if_len _ _ _ _ Hfit) as [Hl0 Hlm]; cbn [disk0_loop];
    (destruct (Z.eqb_spec (io_resid iob) 0) as [Hz|Hz]; cbn [negb];
     [runs_steps; split; [done|]; exists (fmem s); split; [by destruct s|]; intros x _; rewrite Hz;
      by rewrite (proj2 (in_range_false x _ 0)) by lia|]).
  { exfalso. unfold DISK0_BLKSIZE in *. mlia. }
  destruct (round_len (io_resid iob) _ ltac:(lia) Hlm eq_refl) as (Hn&Hnb&Hnm&Hdec). set (n := Z.min DISK0_BUFSIZE (io_resid iob)) in *.
  destruct (io_fits_next _ _ _ _ n Hfit ltac:(lia) Hnm) as (Hfit'&Hblk&Hu).
  pose proof (if_base _ _ _ _ Hfit). pose proof (if_blk _ _ _ _ Hfit).
  assert (Ha : (if io_resid iob <? DISK0_BUFSIZE then io_resid iob else DISK0_BUFSIZE) = n) by (destruct (Z.ltb_spec (io_resid iob) DISK0_BUFSIZE); lia).
  runs_steps. rewrite Ha. runs_steps. eapply disk0_read_blks_runs; [exact Hfit|lia|exact Hnm|]. runs_steps.
  unfold on_mem. runs_steps. eapply (iobuf_move_runs _ _ _ true _ _ n); [lia|lia|unfold is_u32; lia|].
  intros r off. runs_steps. apply runs_assert.
  { rewrite andb_true_iff. split; apply Z.eqb_eq; done. }
  rewrite Hu.
  pose proof (IH (set_fmem (bcopy (io_base iob) (disk0_buffer (priv s)) n
     (bcopy (disk0_buffer (priv s)) (iobase (ramdisk (priv s)) + blkno * DISK0_BLKSIZE) n (fmem s))) s) (mkIob (io_base iob + n) off (io_len iob) (io_resid iob - n)) _ Hfit' ltac:(cbn; lia)) as Hrest.
  eapply runs_mono; [exact Hrest|]. cbn [io_resid io_base priv fmem set_fmem]. intros iob' s' (Hr'&m'&->&Hmv). split; [exact Hr'|].
  exists m'. split; [done|]. pose proof (if_sep1 _ _ _ _ Hfit). pose proof (if_sep2 _ _ _ _ Hfit). pose proof (if_sep3 _ _ _ _ Hfit).
  replace (io_resid iob) with (n + (io_resid iob - n)) by lia.
  eapply moved_trans; [lia|lia| | | |rewrite <-(Z.add_assoc (iobase _)), <-Hblk; exact Hmv].
  - unfold DISK0_BLKSIZE, SECTSIZE in *. lia.
  - unfold DISK0_BLKSIZE, SECTSIZE in *. lia.
  - apply bounce_moved; [lia|lia|]. unfold DISK0_BLKSIZE, SECTSIZE in *. lia.
Qed.

Lemma disk0_io_runs (s : dst) dev base len offset (write : bool) :
  0 <= offset < 2147483648 -> offset mod DISK0_BLKSIZE = 0 -> 0 < len < W32 ->
  offset / DISK0_BLKSIZE + len / DISK0_BLKSIZE <= d_blocks dev ->
  io_fits (priv s) base len (offset / DISK0_BLKSIZE) ->
  runs (disk0_io dev (iobuf_init base len offset) write) s (fun o s' => fst o = 0 /\ io_resid (snd o) = 0 /\ exists m', s' = set_fmem m' s /\
    let disk := iobase (ramdisk (priv s)) + offset in
    moved (disk0_buffer (priv s)) (if write then disk else base) (if write then base else disk) len (fmem s) m').
Proof.
  intros Ho Hom Hl Hblks Hfit. pose proof (if_len _ _ _ _ Hfit) as [_ Hlm]. pose proof (if_blk _ _ _ _ Hfit) as Hbk.
  unfold disk0_io. cbn [io_offset io_resid iobuf_init].
  rewrite Z.rem_mod_nonneg, Z.quot_div_nonneg by (unfold DISK0_BLKSIZE; lia). rewrite Hom, Hlm.
  assert (Hu : u32 (offset / DISK0_BLKSIZE) = offset / DISK0_BLKSIZE) by (apply u32_small; unfold is_u32, W32, DISK0_BLKSIZE in *; mlia).
  assert (Hu2 : u32 (offset / DISK0_BLKSIZE + len / DISK0_BLKSIZE) = offset / DISK0_BLKSIZE + len / DISK0_BLKSIZE)
    by (apply u32_small; unfold is_u32, W32, DISK0_BLKSIZE in *; mlia).
  rewrite Hu, Hu2. cbn [negb orb Z.eqb]. rewrite (proj2 (Z.ltb_ge _ _)) by lia.
  assert (Hq : 0 < len / DISK0_BLKSIZE) by (unfold DISK0_BLKSIZE in *; mlia). rewrite (proj2 (Z.eqb_neq _ _)) by lia.
  assert (Hoff : offset / DISK0_BLKSIZE * DISK0_BLKSIZE = offset) by (unfold DISK0_BLKSIZE in *; mlia).
  runs_steps. destruct write.
  - runs_by (disk0_loop_write_runs _ s (iobuf_init base len offset) (offset / DISK0_BLKSIZE)); [exact Hfit|done|].
    cbn beta. rewrite Hoff. intros iob' s' (Hr&Hm). runs_steps. by split_and!.
  - runs_by (disk0_loop_read_runs _ s (iobuf_init base len offset) (offset / DISK0_BLKSIZE)); [exact Hfit|done|].
    cbn beta. rewrite Hoff. intros iob' s' (Hr&Hm). runs_steps. by split_and!.
Qed.

(** Blocks written to disk0 and read back, into any buffer, are the bytes
    written: whole transfers through the four-block bounce buffer, for any number
    of blocks the disk has. *)
Theorem disk0_roundtrip (s : dst) dev base1 base2 len offset :
  0 <= offset < 2147483648 -> offset mod DISK0_BLKSIZE = 0 -> 0 < len < W32 ->
  offset / DISK0_BLKSIZE + len / DISK0_BLKSIZE <= d_blocks dev ->
  io_fits (priv s) base1 len (offset / DISK0_BLKSIZE) -> io_fits (priv s) base2 len (offset / DISK0_BLKSIZE) ->
  runs (let! w := disk0_io dev (iobuf_init base1 len offset) true in
        let! r := disk0_io dev (iobuf_init base2 len offset) false in ret (fst w, fst r)) s
    (fun o s' => o = (0, 0) /\ forall k, 0 <= k < len -> fmem s' (base2 + k) = fmem s (base1 + k)).
Proof.
  intros Ho Hom Hl Hblks Hfit1 Hfit2. runs_steps. runs_by disk0_io_runs; [done..|]. cbn beta zeta.
  intros w s1 (Hw&_&m1&->&Hm1). runs_steps. runs_by disk0_io_runs; [done..|]. cbn beta zeta. cbn [priv fmem set_fmem].
  intros r s2 (Hr&_&m2&->&Hm2). runs_steps. split; [by destruct w, r; cbn in *; subst|]. intros k Hk. cbn.
  pose proof (if_sep1 _ _ _ _ Hfit2). pose proof (if_sep3 _ _ _ _ Hfit2). pose proof (if_blk _ _ _ _ Hfit2). pose proof (if_len _ _ _ _ Hfit2).
  assert (Hoff : offset / DISK0_BLKSIZE * DISK0_BLKSIZE = offset) by (unfold DISK0_BLKSIZE in *; mlia).
  rewrite Hm2 by (apply in_range_false; lia). rewrite (proj2 (in_range_spec _ base2 len)) by lia.
  rewrite Hm1 by (apply in_range_false; lia). rewrite (proj2 (in_range_spec _ _ len)) by lia. f_equal. lia.
Qed.

(** ** The keyboard ring *)

Definition contents (d : devst) : list Z :=
  (fun i => stdin_buffer d (i mod STDIN_BUFSIZE)) <$> seqZ (p_rpos d) (p_wpos d - p_rpos d).

(** [p_rpos] and [p_wpos] are [int]s that only grow: below the overflow. *)
Definition ring_ok (d : devst) : Prop :=
  0 <= p_rpos d <= p_wpos d /\ p_wpos d <= p_rpos d + STDIN_BUFSIZE /\ p_wpos d < 2147483647.

Lemma contents_length d : ring_ok d -> Z.of_nat (length (contents d)) = p_wpos d - p_rpos d.
Proof. intros (?&?&?). unfold contents. rewrite length_fmap, length_seqZ. lia. Qed.

Lemma ring_slot_ne i w : 0 <= i < w -> w < i + STDIN_BUFSIZE -> (i mod STDIN_BUFSIZE =? w mod STDIN_BUFSIZE) = false.
Proof. unfold STDIN_BUFSIZE. intros. apply Z.eqb_neq. mlia. Qed.

(** A key typed when the ring has room goes behind the unread ones.  When the
    ring is full it is not dropped: it replaces the oldest unread byte, and is
    then the first one read. *)
Theorem dev_stdin_write_ring d c :
  ring_ok d -> c <> 0 -> p_wpos d < 2147483646 ->
  runs (dev_stdin_write c) d (fun _ d' => ring_ok d' /\
    contents d' = if Z.of_nat (length (contents d)) <? STDIN_BUFSIZE then contents d ++ [c] else c :: tail (contents d)).
Proof.
  intros Hok Hc Hw. pose proof Hok as (Hr&Hle&Hlt). rewrite (contents_length d Hok).
  unfold dev_stdin_write. rewrite (proj2 (Z.eqb_neq c 0)) by done. cbn [negb]. runs_steps.
  rewrite s32_small by (unfold STDIN_BUFSIZE in *; lia). rewrite Z.rem_mod_nonneg by (unfold STDIN_BUFSIZE; lia).
  destruct (Z.ltb_spec (p_wpos d - p_rpos d) STDIN_BUFSIZE) as [Hroom|Hfull].
  - rewrite s32_small by lia. split; [unfold ring_ok; cbn; unfold STDIN_BUFSIZE in *; lia|].
    unfold contents. cbn [p_rpos p_wpos set_ring stdin_buffer]. replace (p_wpos d + 1 - p_rpos d) with ((p_wpos d - p_rpos d) + 1) by lia.
    rewrite seqZ_app by lia. rewrite fmap_app. f_equal.
    + apply list_fmap_ext. intros k i Hi. apply lookup_seqZ in Hi as [-> Hi]. by rewrite ring_slot_ne by (unfold STDIN_BUFSIZE in *; lia).
    + replace (p_rpos d + (p_wpos d - p_rpos d)) with (p_wpos d) by lia. change (seqZ (p_wpos d) 1) with [p_wpos d]. cbn [fmap list_fmap]. by rewrite Z.eqb_refl.
  - split; [unfold ring_ok; cbn; lia|]. unfold contents. cbn [p_rpos p_wpos set_ring stdin_buffer].
    assert (Hw2 : p_wpos d = p_rpos d + STDIN_BUFSIZE) by lia.
    rewrite (seqZ_cons (p_rpos d)) by (unfold STDIN_BUFSIZE in *; lia). cbn [fmap list_fmap tail].
    replace (p_wpos d mod STDIN_BUFSIZE) with (p_rpos d mod STDIN_BUFSIZE) by (rewrite Hw2; unfold STDIN_BUFSIZE; mlia).
    rewrite Z.eqb_refl. f_equal. apply list_fmap_ext. intros k i Hi. apply lookup_seqZ in Hi as [-> Hi].
    rewrite Z.eqb_sym. by rewrite ring_slot_ne by (unfold STDIN_BUFSIZE in *; lia).
Qed.

(** Reading as many bytes as are unread takes them in the order typed. *)
Lemma stdin_read_loop_runs fuel : forall (s : dst) buf r len,
  ring_ok (priv s) -> 0 <= r <= len -> len - r <= p_wpos (priv s) - p_rpos (priv s) -> (Z.to_nat (len - r) <= fuel)%nat ->
  0 <= buf /\ buf + (len - r) < W32 ->
  runs (stdin_read_loop fuel buf r len) s (fun a s' => a = len /\ ring_ok (priv s') /\
    contents (priv s') = drop (Z.to_nat (len - r)) (contents (priv s)) /\
    (forall k, 0 <= k < len - r -> contents (priv s) !! Z.to_nat k = Some (fmem s' (buf + k))) /\
    (forall x, ~ (buf <= x < buf + (len - r)) -> fmem s' x = fmem s x)).
Proof.
  induction fuel as [|fuel IH]; intros s buf r len Hok Hr Hav Hfuel Hbuf; cbn [stdin_read_loop];
    (destruct (Z.ltb_spec r len) as [Hlt|Hge]; [|runs_steps; replace (len - r) with 0 by lia; split_and!; [lia|done|done|intros; lia|done]]).
  { lia. }
  pose proof Hok as (H1&H2&H3). runs_steps. rewrite (proj2 (Z.ltb_lt _ _)) by lia. runs_steps. unfold on_dev. runs_steps.
  rewrite Z.rem_mod_nonneg by (unfold STDIN_BUFSIZE; lia). rewrite s32_small by lia. rewrite u32_small by (unfold is_u32; lia).
  set (d' := set_ring (stdin_buffer (priv s)) (p_rpos (priv s) + 1) (p_wpos (priv s)) (priv s)).
  assert (Hc : contents (priv s) = stdin_buffer (priv s) (p_rpos (priv s) mod STDIN_BUFSIZE) :: contents d').
  { unfold contents at 1. rewrite seqZ_cons by lia. cbn. f_equal. unfold contents, d'. cbn. f_equal. f_equal; lia. }
  runs_by IH; cbn [priv set_priv set_fmem]; fold d'.
  - unfold d', ring_ok. cbn. lia.
  - lia.
  - cbn. lia.
  - lia.
  - lia.
  - cbn beta. intros a s' (->&Hok'&Hcs&Hm&Hfr). cbn [priv set_priv set_fmem fmem] in *. fold d' in Hcs, Hm. rewrite Hc.
    split_and!; [done|done| | |].
    + rewrite Hcs. replace (Z.to_nat (len - r)) with (S (Z.to_nat (len - (r + 1)))) by lia. done.
    + intros k Hk. destruct (decide (k = 0)) as [->|Hk0].
      * rewrite Z.add_0_r, Hfr by lia. cbn. by rewrite Z.eqb_refl.
      * replace (Z.to_nat k) with (S (Z.to_nat (k - 1))) by lia. cbn. rewrite Hm by lia. do 2 f_equal. lia.
    + intros x Hx. rewrite Hfr by lia. by rewrite (proj2 (Z.eqb_neq x buf)) by lia.
Qed.

(** A read of at most the number of unread bytes does not sleep: it returns the
    number asked for, the buffer holds the oldest unread bytes in the order they
    were typed, they are gone from the ring, and no other memory changes. *)
Theorem dev_stdin_read_fifo (s : dst) buf len :
  ring_ok (priv s) -> 0 <= len <= Z.of_nat (length (contents (priv s))) -> 0 <= buf /\ buf + len < W32 ->
  runs (dev_stdin_read buf len) s (fun a s' => a = len /\ ring_ok (priv s') /\
    contents (priv s') = drop (Z.to_nat len) (contents (priv s)) /\
    (forall k, 0 <= k < len -> contents (priv s) !! Z.to_nat k = Some (fmem s' (buf + k))) /\
    (forall x, ~ (buf <= x < buf + len) -> fmem s' x = fmem s x)).
Proof.
  intros Hok Hl Hb. rewrite contents_length in Hl by done. unfold dev_stdin_read. runs_steps.
  runs_by stdin_read_loop_runs; [done|lia|lia|lia|lia|]. cbn beta. replace (len - 0) with len by lia. done.
Qed.

(** ** A concrete machine: stdin (inode 10), stdout (inode 11), process file map 1 *)

Definition ex_dev : devst :=
  mkDevst (<[10 := mkDev 0 1 Stdin]> {[11 := mkDev 0 1 Stdout]}) (fun i => 97 + i) 0 2 [] [] (mkIde 64 65536) 4096.
Definition ex_ops : Z -> @inode_ops devst := fun _ => dev_node_ops.
Definition ex_in (o : Z) : inode := mkInode (o + 1) o inode_type_device_info None 0.
Definition ex_entry (fd n : Z) : file := mkFile FD_OPENED true (fd =? 1) fd 0 (Some n) 1.
Definition ex_fresh : gmap (Z * Z) file := list_to_map ((fun fd => ((1, fd), fresh_entry fd)) <$> seqZ 0 FS_STRUCT_NENTRY).
Definition ex_files : gmap (Z * Z) file := <[(1, 0) := ex_entry 0 10]> (<[(1, 1) := ex_entry 1 11]> ex_fresh).
Definition ex_fst : fst_ devst :=
  mkFst (<[10 := ex_in 1]> {[11 := ex_in 1]}) ex_files {[1 := mkFsS None 1]} (Some 1) [] None (fun _ => 0) ex_dev.
(** One reference of each device inode is the device list's. *)
Definition ex_xr (n : Z) : Z := if (n =? 10) || (n =? 11) then 1 else 0.

Lemma ex_fresh_lookup m fd x :
  ex_fresh !! (m, fd) = Some x <-> m = 1 /\ 0 <= fd < FS_STRUCT_NENTRY /\ x = fresh_entry fd.
Proof.
  unfold ex_fresh. rewrite <-elem_of_list_to_map.
  - rewrite list_elem_of_fmap. split.
    + intros (j&[= -> -> ->]&Hj). apply elem_of_seqZ in Hj. split; [done|]. split; [lia|done].
    + intros (->&Hr&->). exists fd. split; [done|]. apply elem_of_seqZ. lia.
  - rewrite <-list_fmap_compose. apply NoDup_fmap_2; [intros ? ? [=]; done|]. apply NoDup_seqZ.
Qed.

Lemma mcount_zero {K V} `{Countable K} (P : V -> bool) (m : gmap K V) :
  (forall k v, m !! k = Some v -> P v = false) -> mcount P m = 0.
Proof.
  intros HP. unfold mcount. rewrite (proj2 (map_empty_filter _ m)), map_size_empty; [done|].
  intros k v Hk. cbn. by rewrite (HP k v Hk).
Qed.

Lemma ex_slots n : slots ex_fst n = ex_xr n.
Proof.
  unfold slots. cbn [files ex_fst]. unfold ex_files.
  assert (H1 : ex_fresh !! (1, 1) = Some (fresh_entry 1)) by (apply ex_fresh_lookup; unfold FS_STRUCT_NENTRY; split; [done|]; split; [lia|done]).
  assert (H0 : ex_fresh !! (1, 0) = Some (fresh_entry 0)) by (apply ex_fresh_lookup; unfold FS_STRUCT_NENTRY; split; [done|]; split; [lia|done]).
  rewrite (mcount_update _ _ _ (fresh_entry 0)) by (by rewrite lookup_insert_ne).
  rewrite (mcount_update _ _ _ (fresh_entry 1)) by done. rewrite (holds_none n (fresh_entry 0)), (holds_none n (fresh_entry 1)) by by left.
  rewrite mcount_zero by (intros [m fd] x (->&_&->)%ex_fresh_lookup; apply holds_none; by left).
  rewrite (holds_open n (ex_entry 0 10) 10), (holds_open n (ex_entry 1 11) 11) by (try done; by left).
  unfold ex_xr. destruct (Z.eqb_spec n 10), (Z.eqb_spec n 11); cbn; lia.
Qed.

Lemma ex_pwds n : pwds ex_fst n = 0.
Proof. apply mcount_zero. cbn. intros k v Hk. apply lookup_singleton_Some in Hk as [_ <-]. done. Qed.

Lemma ex_inodes n i : inodes ex_fst !! n = Some i -> (n = 10 \/ n = 11) /\ i = ex_in 1.
Proof.
  cbn. destruct (decide (n = 10)) as [->|H10]; [rewrite lookup_insert_eq; intros [= <-]; auto|].
  rewrite lookup_insert_ne by done. intros [<- <-]%lookup_singleton_Some. auto.
Qed.

Lemma ex_file_ok m fd x : ex_files !! (m, fd) = Some x -> file_ok fd x /\ m = 1.
Proof.
  unfold ex_files. destruct (decide ((m, fd) = (1, 0))) as [[= -> ->]|H0].
  { rewrite lookup_insert_eq. intros [= <-]. split; [|done]. split; [done|]. split; [done|]. cbn. split; [lia|]. split; [lia|by eexists]. }
  rewrite lookup_insert_ne by done. destruct (decide ((m, fd) = (1, 1))) as [[= -> ->]|H1].
  { rewrite lookup_insert_eq. intros [= <-]. split; [|done]. split; [done|]. split; [done|]. cbn. split; [lia|]. split; [lia|by eexists]. }
  rewrite lookup_insert_ne by done. intros (->&Hr&->)%ex_fresh_lookup. split; [|done].
  split; [done|]. split; [by apply testfd_spec|]. cbn. lia.
Qed.

Lemma ex_FInv : FInv ex_ops ex_fst ex_xr.
Proof.
  assert (Hxr : forall n, 0 <= ex_xr n) by (intros n; unfold ex_xr; destruct (_ || _); lia).
  assert (Hpin : forall n i, inodes ex_fst !! n = Some i -> 0 < ex_xr n).
  { intros n i Hi. destruct (ex_inodes n i Hi) as [[-> | ->] _]; cbn; lia. }
  split; [split|split; [done|intros n i Hi _; by eapply Hpin]].
  - split.
    + intros n i Hi. rewrite ex_slots, ex_pwds. destruct (ex_inodes n i Hi) as [[-> | ->] ->]; done.
    + intros n. rewrite ex_slots, ex_pwds. unfold ex_xr. intros Hpos.
      destruct (decide (n = 10)) as [->|H10]; [by eexists|]. destruct (decide (n = 11)) as [->|H11]; [by eexists|].
      rewrite (proj2 (Z.eqb_neq n 10) H10), (proj2 (Z.eqb_neq n 11) H11) in Hpos. cbn in Hpos. lia.
    + intros n. rewrite ex_slots, ex_pwds. pose proof (Hxr n). unfold MAX_INODE_COUNT. unfold ex_xr in *. destruct (_ || _); lia.
    + intros n t. rewrite lookup_fmap. intros (i&Hi&->)%fmap_Some. destruct (ex_inodes n i Hi) as [[-> | ->] ->]; (split; [done|by eexists]).
  - intros m fd x Hx. by apply (ex_file_ok m).
  - intros p v fd Hp Ht. cbn in Hp. apply lookup_singleton_Some in Hp as [<- <-]. cbn [files ex_fst]. unfold ex_files.
    rewrite !lookup_insert_is_Some'. right. right. exists (fresh_entry fd). apply ex_fresh_lookup. by apply testfd_spec in Ht.
  - intros m fd x Hx. destruct (ex_file_ok m fd x Hx) as [_ ->]. by eexists.
  - intros n i Hi _. rewrite ex_pwds. pose proof (Hpin n i Hi). lia.
Qed.

Lemma ex_at_fd0 : at_fd ex_fst 0 1 (ex_entry 0 10).
Proof. split; [done|]. split; [by exists (mkFsS None 1)|]. apply lookup_insert_eq. Qed.

Lemma file_close_correct_witness :
  runs (file_close ex_ops 0) ex_fst (fun r s' => r = 0 /\ exists x, files s' !! (1, 0) = Some x /\ status x = FD_NONE).
Proof.
  eapply runs_mono; [apply (file_close_correct ex_ops ex_fst ex_xr 0 1 (ex_entry 0 10) ex_FInv ex_at_fd0); reflexivity|].
  cbn beta. intros r s' (->&_&->&_). split; [reflexivity|]. rewrite lookup_insert_eq. by eexists.
Defined.

Lemma dup_fs_correct_witness :
  runs (let! r := fs_create (Some 2) in dup_fs 2 1) ex_fst (fun r s' => r = 0 /\ files s' !! (2, 1) = Some (ex_entry 1 11) /\
    files s' !! (2, 5) = Some (mkFile FD_NONE false false 5 0 None 0)).
Proof.
  eapply runs_mono; [apply (dup_fs_correct ex_ops ex_fst ex_xr 2 1 (mkFsS None 1) ex_FInv)|].
  - reflexivity.
  - reflexivity.
  - reflexivity.
  - intros n. rewrite ex_slots, ex_pwds. unfold ex_xr, MAX_INODE_COUNT, FS_STRUCT_NENTRY. destruct (_ || _); lia.
  - cbn beta. intros r s' (->&_&_&_&H). split; [reflexivity|]. split; [rewrite (H 1)|rewrite (H 5)]; vm_compute; reflexivity.
Defined.

(** The same file map when its process has exited. *)
Definition ex_fst0 : fst_ devst := set_fss {[1 := mkFsS None 0]} ex_fst.
Lemma ex_FInv0 : FInv ex_ops ex_fst0 ex_xr.
Proof.
  destruct ex_FInv as (HG&Hx&Hp). split; [|by split].
  assert (Hpw : forall n, pwds ex_fst0 n = pwds ex_fst n).
  { intros n. rewrite ex_pwds. apply mcount_zero. cbn. intros k v Hk. apply lookup_singleton_Some in Hk as [_ <-]. done. }
  apply (GInv_refs ex_ops ex_fst _ (fun n => pwds ex_fst n + ex_xr n)); [exact HG|done| | |by apply msub_same|].
  - intros p. cbn. rewrite !lookup_singleton_is_Some. done.
  - eapply CInv_ext; [eapply CInv_frame; [apply (gi_c _ _ _ HG)|done|apply (ci_priv _ _ _ _ (gi_c _ _ _ HG))]|done|].
    intros n. by rewrite Hpw.
  - intros n i Hi Hop. rewrite Hpw. apply (gi_pin _ _ _ HG n i Hi Hop).
Qed.

Lemma fs_destroy_releases_witness :
  runs (fs_destroy ex_ops 1) ex_fst0 (fun _ s' => FInv ex_ops s' ex_xr /\ fss s' !! 1 = None).
Proof.
  eapply runs_mono; [apply (fs_destroy_releases ex_ops ex_fst0 ex_xr 1 (mkFsS None 0) ex_FInv0)|].
  - reflexivity.
  - reflexivity.
  - intros j x Hx. cbn in Hx. unfold ex_files in Hx. unfold quiet.
    destruct (decide (j = 0)) as [->|H0]; [rewrite lookup_insert_eq in Hx; injection Hx as <-; by right|].
    rewrite lookup_insert_ne in Hx by congruence.
    destruct (decide (j = 1)) as [->|H1]; [rewrite lookup_insert_eq in Hx; injection Hx as <-; by right|].
    rewrite lookup_insert_ne in Hx by congruence. apply ex_fresh_lookup in Hx as (_&_&->). by left.
  - cbn beta. intros _ s' (HF&->&_). split; [exact HF|]. reflexivity.
Defined.

Lemma file_read_correct_witness :
  runs (file_read ex_ops 0 8192 2) ex_fst (fun r s' => r = (2, 2) /\ exists x, files s' !! (1, 0) = Some x /\ pos x = 2).
Proof.
  destruct (dev_read 10 (iobuf_init 8192 2 0) (acquired ex_fst (1, 0) (ex_entry 0 10))) as [[o s2]| | |] eqn:Hrun;
    [|exfalso; apply (f_equal (fun o => match o with Ok _ => true | _ => false end)) in Hrun; vm_compute in Hrun; discriminate..].
  assert (Ho : o = (2, mkIob 8192 0 2 0)).
  { apply (f_equal (fun o => match o with Ok (a, _) => Some a | _ => None end)) in Hrun. vm_compute in Hrun. by injection Hrun as <-. }
  eapply runs_mono; [eapply (file_read_correct ex_ops ex_fst ex_xr 0 1 (ex_entry 0 10) 8192 2 10 (ex_in 1) dev_read o s2 ex_FInv ex_at_fd0)|].
  - reflexivity.
  - reflexivity.
  - reflexivity.
  - reflexivity.
  - unfold W32. lia.
  - reflexivity.
  - reflexivity.
  - exact Hrun.
  - cbn beta. intros r s' (->&_&_&->&_). rewrite Ho. split; [reflexivity|]. rewrite lookup_insert_eq. by eexists.
Defined.

Lemma disk0_roundtrip_witness :
  runs (let! w := disk0_io (mkDev 8 4096 Disk0) (iobuf_init 200000 8192 4096) true in
        let! r := disk0_io (mkDev 8 4096 Disk0) (iobuf_init 300000 8192 4096) false in ret (fst w, fst r)) ex_fst
    (fun o s' => o = (0, 0) /\ fmem s' 300005 = fmem ex_fst 200005).
Proof.
  eapply runs_mono; [apply (disk0_roundtrip ex_fst (mkDev 8 4096 Disk0) 200000 300000 8192 4096)|].
  - lia.
  - reflexivity.
  - unfold W32. lia.
  - discriminate.
  - split; cbn; unfold W32, DISK0_BUFSIZE, DISK0_BLKSIZE, SECTSIZE; try split; try reflexivity; mlia.
  - split; cbn; unfold W32, DISK0_BUFSIZE, DISK0_BLKSIZE, SECTSIZE; try split; try reflexivity; mlia.
  - cbn beta. intros o s' (->&H). split; [reflexivity|]. apply (H 5). lia.
Defined.

Lemma dev_stdin_write_ring_witness :
  runs (dev_stdin_write 120) ex_dev (fun _ d' => contents d' = [97; 98; 120]).
Proof.
  eapply runs_mono; [apply (dev_stdin_write_ring ex_dev 120)|].
  - unfold ring_ok, STDIN_BUFSIZE. cbn. lia.
  - discriminate.
  - cbn. lia.
  - cbn beta. intros _ d' (_&->). reflexivity.
Defined.

Lemma dev_stdin_read_fifo_witness :
  runs (dev_stdin_read 8192 2) ex_fst (fun a s' => a = 2 /\ contents (priv s') = [] /\ fmem s' 8193 = 98).
Proof.
  eapply runs_mono; [apply (dev_stdin_read_fifo ex_fst 8192 2)|].
  - unfold ring_ok, STDIN_BUFSIZE. cbn. lia.
  - vm_compute. split; discriminate.
  - unfold W32. lia.
  - cbn beta. intros a s' (->&_&->&H&_). split; [reflexivity|]. split; [reflexivity|].
    specialize (H 1 ltac:(lia)). vm_compute in H. injection H as H. symmetry. exact H.
Defined.
