(* ===== verification/Bitmap.v ===== *)
(** * Block bitmaps (kern/fs/sfs/bitmap.c)

    One bit per block, set when the block is free, in 32-bit words.  The
    abstraction is the function [bit]: the operations change one index of it, and
    [bitmap_alloc] takes the lowest set one. *)

From stdpp Require Import base list.
From Stdlib Require Import ZArith Lia Bool.
From S2P Require Import Prelude.

Definition WORD_BITS : Z := 32.
Definition WORD_BITS_SHIFT : Z := 5.

Record bitmap := mkBitmap { nbits : Z; nwords : Z; words : list Z }.

(** [for (; overbits < WORD_BITS; overbits ++) bitmap->map[ix] ^= (1 << overbits);]
    on the last word. *)
Fixpoint mask_loop (k : nat) (overbits w : Z) : Z :=
  match k with
  | O => w
  | S k => mask_loop k (overbits + 1) (Z.lxor w (Z.shiftl 1 overbits))
  end.

(** [ok1], [ok2]: the two [kmalloc]s. *)
Definition bitmap_create (ok1 ok2 : bool) (n : Z) : outcome (option bitmap) :=
  if negb (negb (n =? 0) && (n <? u32 (n + WORD_BITS))) then Panic
  else if negb ok1 then Ok None
  else
    let nw := ROUNDUP_DIV_2N n WORD_BITS_SHIFT in
    if negb ok2 then Ok None
    else
      let map := replicate (Z.to_nat nw) 0xFFFFFFFF in
      if negb (n =? u32 (nw * WORD_BITS)) then
        let ix := nw - 1 in
        let overbits := u32 (n - u32 (ix * WORD_BITS)) in
        if negb (n / WORD_BITS =? ix) then Panic
        else if negb ((0 <? overbits) && (overbits <? WORD_BITS)) then Panic
        else Ok (Some (mkBitmap n nw (alter (mask_loop (Z.to_nat (WORD_BITS - overbits)) overbits) (Z.to_nat ix) map)))
      else Ok (Some (mkBitmap n nw map)).

(** The inner loop: the first bit of the word that is set. *)
Fixpoint alloc_bit (k : nat) (offset w : Z) : option Z :=
  match k with
  | O => None
  | S k => if negb (Z.land w (Z.shiftl 1 offset) =? 0) then Some offset else alloc_bit k (offset + 1) w
  end.
(** The outer loop from word [ix] on: the index and the words changed. *)
Fixpoint alloc_word (ws : list Z) (ix : Z) : outcome (option (Z * list Z)) :=
  match ws with
  | [] => Ok None
  | w :: ws =>
      if negb (w =? 0) then
        match alloc_bit (Z.to_nat WORD_BITS) 0 w with
        | Some offset => Ok (Some (u32 (ix * WORD_BITS + offset), Z.lxor w (Z.shiftl 1 offset) :: ws))
        | None => Panic
        end
      else
        match alloc_word ws (ix + 1) with
        | Ok (Some (i, ws')) => Ok (Some (i, w :: ws'))
        | o => o
        end
  end.

Definition bitmap_alloc : M bitmap (Z * option Z) := fun b =>
  match alloc_word (words b) 0 with
  | Ok (Some (i, ws)) => Ok ((0, Some i), mkBitmap (nbits b) (nwords b) ws)
  | Ok None => Ok ((- E_NO_MEM, None), b)
  | Panic => Panic | Fault => Fault | NoFuel => NoFuel
  end.

(** The word's index and the mask. *)
Definition bitmap_translate (index : Z) : M bitmap (nat * Z) :=
  let! b := get in
  do! assert_ (index <? nbits b) in
  ret (Z.to_nat (index / WORD_BITS), Z.shiftl 1 (index mod WORD_BITS)).

Definition bitmap_test (index : Z) : M bitmap bool :=
  let! t := bitmap_translate index in
  let! b := get in
  let! w := deref (words b !! fst t) in
  ret (negb (Z.land w (snd t) =? 0)).

Definition bitmap_free (index : Z) : M bitmap unit :=
  let! t := bitmap_translate index in
  let! b := get in
  let! w := deref (words b !! fst t) in
  do! assert_ (Z.land w (snd t) =? 0) in
  put (mkBitmap (nbits b) (nwords b) (<[fst t := Z.lor w (snd t)]> (words b))).

(** [*len_store]. *)
Definition bitmap_getdata (b : bitmap) : list Z * Z := (words b, u32 (4 * nwords b)).

(** ** The abstraction *)

Definition bit (b : bitmap) (i : Z) : bool := Z.testbit (words b !!! Z.to_nat (i / WORD_BITS)) (i mod WORD_BITS).

Record wf (b : bitmap) : Prop := {
  wf_bits : 0 < nbits b /\ nbits b + WORD_BITS < W32;
  wf_nwords : nwords b = (nbits b + 31) / 32;
  wf_len : Z.of_nat (length (words b)) = nwords b;
  wf_words : Forall (fun w => 0 <= w < W32) (words b);
  (* bits behind the last block are in use *)
  wf_over : forall i, nbits b <= i < WORD_BITS * nwords b -> bit b i = false
}.

Lemma land_shiftl_testbit w o : 0 <= o -> negb (Z.land w (Z.shiftl 1 o) =? 0) = Z.testbit w o.
Proof.
  intros Ho. rewrite Z.shiftl_1_l. destruct (Z.testbit w o) eqn:Hb.
  - apply negb_true_iff, Z.eqb_neq. intros Heq. apply (f_equal (fun z => Z.testbit z o)) in Heq.
    rewrite Z.land_spec, Z.pow2_bits_true, Hb, Z.testbit_0_l in Heq by done. done.
  - apply negb_false_iff, Z.eqb_eq, Z.bits_inj_0. intros n. rewrite Z.land_spec.
    destruct (decide (n = o)) as [->|Hne]; [by rewrite Hb|]. rewrite Z.pow2_bits_false by done. apply andb_false_r.
Qed.

Lemma testbit_lxor_shiftl w o j : 0 <= o -> Z.testbit (Z.lxor w (Z.shiftl 1 o)) j = xorb (Z.testbit w j) (j =? o).
Proof. intros Ho. rewrite Z.lxor_spec, Z.shiftl_1_l, Z.pow2_bits_eqb by done. by rewrite Z.eqb_sym. Qed.

Lemma testbit_lor_shiftl w o j : 0 <= o -> Z.testbit (Z.lor w (Z.shiftl 1 o)) j = Z.testbit w j || (j =? o).
Proof. intros Ho. rewrite Z.lor_spec, Z.shiftl_1_l, Z.pow2_bits_eqb by done. by rewrite Z.eqb_sym. Qed.

Lemma u32_bits w : 0 <= w -> (forall j, 32 <= j -> Z.testbit w j = false) -> w < W32.
Proof.
  intros Hw Hb. change W32 with (2 ^ 32). destruct (decide (w = 0)) as [->|Hne]; [done|].
  apply Z.log2_lt_pow2; [lia|]. apply Z.nle_gt. intros Hle. pose proof (Hb _ Hle) as Hc. rewrite Z.bit_log2 in Hc by lia. done.
Qed.

Lemma u32_high w j : 0 <= w < W32 -> 32 <= j -> Z.testbit w j = false.
Proof.
  intros Hw Hj. destruct (decide (w = 0)) as [->|]; [apply Z.testbit_0_l|]. apply Z.bits_above_log2; [lia|].
  enough (Z.log2 w < 32) by lia. apply Z.log2_lt_pow2; [lia|]. change (2 ^ 32) with W32. lia.
Qed.

Lemma lxor_u32 w o : 0 <= w < W32 -> 0 <= o < 32 -> 0 <= Z.lxor w (Z.shiftl 1 o) < W32.
Proof.
  intros Hw Ho. assert (0 <= Z.lxor w (Z.shiftl 1 o)) by (apply Z.lxor_nonneg; split; intros _; [apply Z.shiftl_nonneg|]; lia).
  split; [done|]. apply u32_bits; [done|]. intros j Hj. rewrite testbit_lxor_shiftl, (u32_high w) by lia. by rewrite (proj2 (Z.eqb_neq j o)) by lia.
Qed.

Lemma lor_u32 w o : 0 <= w < W32 -> 0 <= o < 32 -> 0 <= Z.lor w (Z.shiftl 1 o) < W32.
Proof.
  intros Hw Ho. assert (0 <= Z.lor w (Z.shiftl 1 o)) by (apply Z.lor_nonneg; split; [|apply Z.shiftl_nonneg]; lia).
  split; [done|]. apply u32_bits; [done|]. intros j Hj. rewrite testbit_lor_shiftl, (u32_high w) by lia. by rewrite (proj2 (Z.eqb_neq j o)) by lia.
Qed.

(** Replacing one word changes the bits of that word only. *)
Lemma bit_insert b k w i n nw :
  (k < length (words b))%nat -> 0 <= i ->
  bit (mkBitmap n nw (<[k := w]> (words b))) i =
  if decide (Z.to_nat (i / WORD_BITS) = k) then Z.testbit w (i mod WORD_BITS) else bit b i.
Proof.
  intros Hk Hi. unfold bit. cbn [words]. case_decide as He.
  - rewrite He. by rewrite list_lookup_total_insert_eq.
  - by rewrite list_lookup_total_insert_ne.
Qed.

Lemma index_split i : 0 <= i -> i = WORD_BITS * Z.of_nat (Z.to_nat (i / WORD_BITS)) + i mod WORD_BITS /\ 0 <= i mod WORD_BITS < 32.
Proof. unfold WORD_BITS. intros Hi. split; mlia. Qed.

Lemma same_index i j :
  0 <= i -> 0 <= j -> (i = j <-> Z.to_nat (i / WORD_BITS) = Z.to_nat (j / WORD_BITS) /\ i mod WORD_BITS = j mod WORD_BITS).
Proof.
  intros Hi Hj. destruct (index_split i Hi) as [Ei _], (index_split j Hj) as [Ej _]. split; [by intros ->|]. intros [H1 H2]. rewrite Ei, Ej, H1, H2. done.
Qed.

(** ** Creation *)

Lemma mask_loop_bits k : forall o w j, 0 <= o -> 0 <= j ->
  Z.testbit (mask_loop k o w) j = xorb (Z.testbit w j) ((o <=? j) && (j <? o + Z.of_nat k)).
Proof.
  induction k as [|k IH]; intros o w j Ho Hj; cbn [mask_loop].
  - replace ((o <=? j) && (j <? o + Z.of_nat 0)) with false; [by rewrite xorb_false_r|]. symmetry. apply andb_false_iff.
    destruct (Z.leb_spec o j); [right; apply Z.ltb_ge; lia|by left].
  - rewrite IH, testbit_lxor_shiftl by lia. rewrite xorb_assoc. f_equal.
    destruct (Z.eqb_spec j o) as [->|Hne].
    + replace (o + 1 <=? o) with false by (symmetry; apply Z.leb_gt; lia). cbn. symmetry. apply andb_true_iff.
      split; [apply Z.leb_refl|apply Z.ltb_lt; lia].
    + rewrite xorb_false_l. f_equal; [|f_equal; lia]. destruct (Z.leb_spec (o + 1) j), (Z.leb_spec o j); lia || done.
Qed.

Lemma ones32_bit j : 0 <= j < 32 -> Z.testbit 0xFFFFFFFF j = true.
Proof. intros Hj. change 0xFFFFFFFF with (Z.ones 32). apply Z.ones_spec_low. lia. Qed.

Lemma replicate_lookup_total (x : Z) n k : (k < n)%nat -> replicate n x !!! k = x.
Proof. intros Hk. apply list_lookup_total_correct. by apply lookup_replicate_2. Qed.

Lemma mask_word_range ov : 0 < ov < 32 -> 0 <= mask_loop (Z.to_nat (WORD_BITS - ov)) ov 0xFFFFFFFF < W32.
Proof.
  intros Hov. assert (Hnn : forall k o w, 0 <= w -> 0 <= o -> 0 <= mask_loop k o w).
  { induction k as [|k IH]; intros o w Hw Ho; cbn; [done|]. apply IH; [|lia].
    apply Z.lxor_nonneg. split; intros _; [apply Z.shiftl_nonneg|]; lia. }
  split; [apply Hnn; lia|]. apply u32_bits; [apply Hnn; lia|]. intros j Hj.
  rewrite mask_loop_bits by lia. rewrite (u32_high 0xFFFFFFFF) by (unfold W32; lia).
  rewrite (proj2 (Z.ltb_ge j _)) by (unfold WORD_BITS; lia). by rewrite andb_false_r.
Qed.

(** [bitmap_create] makes a bitmap in which exactly the [n] blocks are free: the
    padding of the last word is marked in use, and no assertion of the routine
    fails for any size that does not overflow. *)
Theorem bitmap_create_correct n :
  0 < n -> n + WORD_BITS < W32 ->
  exists b, bitmap_create true true n = Ok (Some b) /\ nbits b = n /\ wf b /\ forall i, 0 <= i < n -> bit b i = true.
Proof.
  intros Hn Hlt. unfold bitmap_create. unfold WORD_BITS in Hlt.
  rewrite (u32_small (n + WORD_BITS)) by (unfold is_u32, WORD_BITS; lia).
  rewrite (proj2 (Z.eqb_neq n 0)) by lia. rewrite (proj2 (Z.ltb_lt n _)) by (unfold WORD_BITS; lia). cbn [negb andb].
  assert (Hnw : ROUNDUP_DIV_2N n WORD_BITS_SHIFT = (n + 31) / 32).
  { unfold ROUNDUP_DIV_2N, WORD_BITS_SHIFT. change (Z.shiftl 1 5) with 32. rewrite u32_small by (unfold is_u32; lia).
    rewrite Z.shiftr_div_pow2 by lia. change (2 ^ 5) with 32. f_equal. lia. }
  rewrite Hnw. set (nw := (n + 31) / 32) in *. assert (Hr : nw * 32 - 31 <= n <= nw * 32) by (unfold nw; mlia).
  rewrite (u32_small (nw * WORD_BITS)) by (unfold is_u32, WORD_BITS, nw; mlia).
  set (F := replicate (Z.to_nat nw) 0xFFFFFFFF).
  assert (HF : length F = Z.to_nat nw) by apply length_replicate.
  assert (HFw : Forall (fun w => 0 <= w < W32) F).
  { apply Forall_replicate. unfold W32. lia. }
  destruct (Z.eqb_spec n (nw * WORD_BITS)) as [Heq|Hne]; cbn [negb].
  - eexists. split; [done|]. split; [done|]. unfold WORD_BITS in Heq. split.
    + split; cbn [nbits nwords words]; [unfold WORD_BITS; lia|done|rewrite HF; lia|done|unfold WORD_BITS; lia].
    + intros i Hi. unfold bit. cbn [words]. unfold F. rewrite replicate_lookup_total by (unfold WORD_BITS; mlia). apply ones32_bit. unfold WORD_BITS. mlia.
  - unfold WORD_BITS in Hne. assert (Hov : u32 (n - u32 ((nw - 1) * WORD_BITS)) = n - (nw - 1) * 32).
    { rewrite !u32_small; unfold is_u32, WORD_BITS, W32 in *; rewrite ?u32_small; unfold is_u32, W32; lia. }
    rewrite Hov. set (ov := n - (nw - 1) * 32). assert (Ho : 0 < ov < 32) by (unfold ov; lia).
    assert (Hix : n / WORD_BITS = nw - 1) by (unfold WORD_BITS, ov in *; mlia). rewrite Hix, Z.eqb_refl. cbn [negb].
    rewrite (proj2 (Z.ltb_lt 0 ov)), (proj2 (Z.ltb_lt ov WORD_BITS)) by (unfold WORD_BITS; lia). cbn [andb negb].
    eexists. split; [done|]. split; [done|]. set (b := mkBitmap _ _ _).
    assert (Hb : forall i, 0 <= i < 32 * nw -> bit b i = (i <? n)).
    { intros i Hi. destruct (index_split i ltac:(lia)) as [Ei Hm]. unfold bit, b. cbn [words]. unfold WORD_BITS in *.
      destruct (decide (Z.to_nat (i / 32) = Z.to_nat (nw - 1))) as [He|He].
      - rewrite He. rewrite list_lookup_total_alter by (rewrite HF; lia). unfold F. rewrite replicate_lookup_total by lia.
        rewrite decide_True by (rewrite length_replicate; lia). rewrite mask_loop_bits by lia. rewrite ones32_bit by done. unfold ov in *.
        destruct (Z.ltb_spec i n); destruct (Z.leb_spec (n - (nw - 1) * 32) (i mod 32)); try lia; cbn; [done|].
        rewrite (proj2 (Z.ltb_lt _ _)) by lia. done.
      - rewrite list_lookup_total_alter, decide_False by (intros [? _]; congruence). unfold F. rewrite replicate_lookup_total by (rewrite Ei in *; mlia).
        rewrite ones32_bit by done. symmetry. apply Z.ltb_lt. unfold ov in *. mlia. }
    split.
    + split; cbn [nbits nwords words b].
      * unfold WORD_BITS. lia.
      * done.
      * rewrite length_alter, HF. lia.
      * apply Forall_alter; [done|]. intros w Hw _. unfold F in Hw. apply lookup_replicate in Hw as [-> _].
        by apply mask_word_range.
      * intros i Hi. change (bit b i = false). rewrite Hb by (unfold WORD_BITS in *; lia). apply Z.ltb_ge. lia.
    + intros i Hi. rewrite Hb by lia. apply Z.ltb_lt. lia.
Qed.

(** ** Allocation *)

Lemma alloc_bit_spec k : forall o w, 0 <= o ->
  match alloc_bit k o w with
  | Some j => o <= j < o + Z.of_nat k /\ Z.testbit w j = true /\ forall i, o <= i < j -> Z.testbit w i = false
  | None => forall i, o <= i < o + Z.of_nat k -> Z.testbit w i = false
  end.
Proof.
  induction k as [|k IH]; intros o w Ho; cbn [alloc_bit]; [lia|]. rewrite land_shiftl_testbit by done.
  destruct (Z.testbit w o) eqn:Hb; [split; [lia|]; split; [done|lia]|]. specialize (IH (o + 1) w ltac:(lia)).
  destruct (alloc_bit k (o + 1) w) as [j|].
  - destruct IH as (Hj&Ht&Hlow). split; [lia|]. split; [done|]. intros i Hi. destruct (decide (i = o)) as [->|]; [done|]. apply Hlow. lia.
  - intros i Hi. destruct (decide (i = o)) as [->|]; [done|]. apply IH. lia.
Qed.

Lemma word_zero w : 0 <= w < W32 -> (forall i, 0 <= i < 32 -> Z.testbit w i = false) -> w = 0.
Proof.
  intros Hw Hb. apply Z.bits_inj_0. intros i. destruct (Z.lt_ge_cases i 0) as [Hi|Hi]; [by apply Z.testbit_neg_r|].
  destruct (Z.lt_ge_cases i 32); [apply Hb; lia|]. by apply u32_high.
Qed.

Lemma alloc_word_spec ws : forall ix, 0 <= ix -> 32 * (ix + Z.of_nat (length ws)) < W32 -> Forall (fun w => 0 <= w < W32) ws ->
  match alloc_word ws ix with
  | Ok (Some (i, ws')) => exists k w off, ws !! k = Some w /\ 0 <= off < 32 /\ i = (ix + Z.of_nat k) * 32 + off /\
      Z.testbit w off = true /\ (forall j, 0 <= j < off -> Z.testbit w j = false) /\
      (forall k', (k' < k)%nat -> ws !!! k' = 0) /\ ws' = <[k := Z.lxor w (Z.shiftl 1 off)]> ws
  | Ok None => forall k, (k < length ws)%nat -> ws !!! k = 0
  | _ => False
  end.
Proof.
  induction ws as [|w ws IH]; intros ix Hix Hlen Hw; cbn [alloc_word]; [cbn; lia|]. apply Forall_cons in Hw as [Hw Hws].
  cbn [length] in Hlen. destruct (Z.eqb_spec w 0) as [->|Hne]; cbn [negb].
  - specialize (IH (ix + 1) ltac:(lia) ltac:(lia) Hws). destruct (alloc_word ws (ix + 1)) as [[[i ws']|]| | |]; try done.
    + destruct IH as (k&w&off&Hk&Ho&->&Ht&Hlow&Hz&->). exists (S k), w, off. split_and!; try done; try lia.
      intros [|k'] Hk'; [done|]. cbn. apply Hz. lia.
    + intros [|k] Hk; [done|]. cbn in Hk |- *. apply IH. lia.
  - pose proof (alloc_bit_spec (Z.to_nat WORD_BITS) 0 w ltac:(lia)) as Hab. change (0 + Z.of_nat (Z.to_nat WORD_BITS)) with 32 in Hab.
    destruct (alloc_bit (Z.to_nat WORD_BITS) 0 w) as [off|].
    + destruct Hab as (Ho&Ht&Hlow). exists 0%nat, w, off. split_and!; try done; try lia.
      rewrite u32_small; unfold is_u32, WORD_BITS; lia.
    + exfalso. apply Hne. by apply word_zero.
Qed.

Lemma wf_index b i : wf b -> 0 <= i < WORD_BITS * nwords b -> (Z.to_nat (i / WORD_BITS) < length (words b))%nat.
Proof. intros Hwf Hi. pose proof (wf_len b Hwf). unfold WORD_BITS in *. mlia. Qed.

Lemma wf_bound b : wf b -> nbits b <= WORD_BITS * nwords b /\ 32 * Z.of_nat (length (words b)) < W32.
Proof. intros Hwf. pose proof (wf_bits b Hwf). pose proof (wf_nwords b Hwf). pose proof (wf_len b Hwf). unfold WORD_BITS, W32 in *. mlia. Qed.

Lemma wf_change b k w' :
  wf b -> (k < length (words b))%nat -> 0 <= w' < W32 ->
  (forall i, nbits b <= i < WORD_BITS * nwords b -> Z.to_nat (i / WORD_BITS) = k -> Z.testbit w' (i mod WORD_BITS) = false) ->
  wf (mkBitmap (nbits b) (nwords b) (<[k := w']> (words b))).
Proof.
  intros Hwf Hk Hw Hov. split; cbn [nbits nwords words].
  - apply (wf_bits b Hwf).
  - apply (wf_nwords b Hwf).
  - rewrite length_insert. apply (wf_len b Hwf).
  - apply Forall_insert; [apply (wf_words b Hwf)|done].
  - intros i Hi. pose proof (wf_bits b Hwf). rewrite bit_insert by (done || lia). case_decide; [by apply Hov|by apply (wf_over b Hwf)].
Qed.

Lemma bitmap_alloc_runs b :
  wf b ->
  runs bitmap_alloc b (fun r b' => wf b' /\ nbits b' = nbits b /\
    match snd r with
    | Some i => fst r = 0 /\ 0 <= i < nbits b /\ bit b i = true /\ (forall j, 0 <= j < i -> bit b j = false) /\
                forall j, 0 <= j -> bit b' j = bit b j && negb (j =? i)
    | None => fst r = - E_NO_MEM /\ b' = b /\ forall j, 0 <= j < nbits b -> bit b j = false
    end).
Proof.
  intros Hwf. destruct (wf_bound b Hwf) as [Hnb Hlen]. unfold runs, bitmap_alloc.
  pose proof (alloc_word_spec (words b) 0 ltac:(lia) Hlen (wf_words b Hwf)) as Hsp.
  destruct (alloc_word (words b) 0) as [[[i ws']|]| | |]; try done; cbn [fst snd].
  2:{ split; [done|]. split; [done|]. split; [done|]. split; [done|]. intros j Hj. unfold bit. rewrite Hsp; [apply Z.testbit_0_l|]. apply wf_index; [done|lia]. }
  destruct Hsp as (k&w&off&Hk&Ho&->&Ht&Hlow&Hz&->). rewrite Z.add_0_l. set (i := Z.of_nat k * 32 + off).
  assert (Hkl : (k < length (words b))%nat) by (by eapply lookup_lt_Some).
  assert (Hw : 0 <= w < W32) by (pose proof (wf_words b Hwf) as HF; rewrite Forall_lookup in HF; by apply (HF k)).
  assert (Hki : Z.to_nat (i / WORD_BITS) = k /\ i mod WORD_BITS = off) by (unfold i, WORD_BITS; split; mlia).
  destruct Hki as [Hki Hoi]. assert (Hbi : bit b i = true) by (unfold bit; rewrite Hki, Hoi, (list_lookup_total_correct _ _ _ Hk); done).
  assert (Hi : 0 <= i < nbits b).
  { split; [unfold i; lia|]. destruct (Z.lt_ge_cases i (nbits b)) as [|Hge]; [done|]. rewrite (wf_over b Hwf) in Hbi; [done|].
    pose proof (wf_len b Hwf). unfold i, WORD_BITS in *. lia. }
  assert (Hbits : forall j, 0 <= j -> bit (mkBitmap (nbits b) (nwords b) (<[k := Z.lxor w (Z.shiftl 1 off)]> (words b))) j = bit b j && negb (j =? i)).
  { intros j Hj. rewrite bit_insert by done. case_decide as Hjk.
    - rewrite testbit_lxor_shiftl by lia. unfold bit. rewrite Hjk, (list_lookup_total_correct _ _ _ Hk).
      destruct (Z.eqb_spec j i) as [->|Hne]; [rewrite Hoi, Z.eqb_refl, Ht; done|].
      rewrite (proj2 (Z.eqb_neq (j mod WORD_BITS) off)); [by rewrite xorb_false_r, andb_true_r|].
      intros He. apply Hne. apply same_index; [lia..|]. rewrite Hki, Hoi. done.
    - rewrite (proj2 (Z.eqb_neq j i)); [by rewrite andb_true_r|]. intros ->. done. }
  split; [apply wf_change; [done|done|by apply lxor_u32|]|].
  - intros j Hj Hjk. rewrite testbit_lxor_shiftl by lia. pose proof (wf_over b Hwf j Hj) as Hf. unfold bit in Hf.
    rewrite Hjk, (list_lookup_total_correct _ _ _ Hk) in Hf. rewrite Hf, (proj2 (Z.eqb_neq _ _)); [done|]. intros He. rewrite He, Ht in Hf. done.
  - split; [done|]. split; [done|]. split; [done|]. split; [done|]. split; [|done].
    intros j Hj. unfold bit. destruct (decide (Z.to_nat (j / WORD_BITS) = k)) as [He|He].
    + rewrite He, (list_lookup_total_correct _ _ _ Hk). apply Hlow. unfold i, WORD_BITS in *. mlia.
    + rewrite Hz; [apply Z.testbit_0_l|]. unfold i, WORD_BITS in *. mlia.
Qed.

(** [bitmap_alloc] takes the lowest free block and changes no other bit; it
    fails, without changing anything, exactly when no block is free. *)
Theorem bitmap_alloc_correct b :
  wf b ->
  runs bitmap_alloc b (fun r b' => wf b' /\ nbits b' = nbits b /\
    match snd r with
    | Some i => fst r = 0 /\ 0 <= i < nbits b /\ bit b i = true /\ (forall j, 0 <= j < i -> bit b j = false) /\
                forall j, 0 <= j -> bit b' j = bit b j && negb (j =? i)
    | None => fst r = - E_NO_MEM /\ b' = b /\ forall j, 0 <= j < nbits b -> bit b j = false
    end).
Proof. apply bitmap_alloc_runs. Qed.

Lemma bitmap_test_runs b i Q :
  wf b -> 0 <= i < nbits b -> Q (bit b i) b -> runs (bitmap_test i) b Q.
Proof.
  intros Hwf Hi HQ. destruct (wf_bound b Hwf) as [Hnb _]. unfold bitmap_test, bitmap_translate. runs_steps.
  apply runs_assert; [apply Z.ltb_lt; lia|]. runs_steps. destruct (lookup_lt_is_Some_2 (words b) (Z.to_nat (i / WORD_BITS))) as [w Hw]; [apply wf_index; [done|lia]|].
  eapply runs_deref; [exact Hw|]. runs_steps. cbn [snd]. rewrite land_shiftl_testbit by (unfold WORD_BITS; mlia).
  unfold bit in HQ. by rewrite (list_lookup_total_correct _ _ _ Hw) in HQ.
Qed.

Lemma bitmap_free_runs b i :
  wf b -> 0 <= i < nbits b ->
  if bit b i then bitmap_free i b = Panic
  else runs (bitmap_free i) b (fun _ b' => wf b' /\ nbits b' = nbits b /\ forall j, 0 <= j -> bit b' j = bit b j || (j =? i)).
Proof.
  intros Hwf Hi. destruct (wf_bound b Hwf) as [Hnb _].
  destruct (lookup_lt_is_Some_2 (words b) (Z.to_nat (i / WORD_BITS))) as [w Hw]; [apply wf_index; [done|lia]|].
  assert (Hm : 0 <= i mod WORD_BITS < 32) by (unfold WORD_BITS; mlia).
  assert (Hbw : Z.testbit w (i mod WORD_BITS) = bit b i) by (unfold bit; by rewrite (list_lookup_total_correct _ _ _ Hw)).
  pose proof (land_shiftl_testbit w (i mod WORD_BITS) ltac:(lia)) as Hl. rewrite Hbw in Hl.
  assert (Hlt : (i <? nbits b) = true) by (apply Z.ltb_lt; lia).
  destruct (bit b i) eqn:Hb; unfold bitmap_free, bitmap_translate.
  - unfold bind, get, assert_, ret. rewrite Hlt. cbn [fst snd]. rewrite Hw. cbn [deref]. unfold ret. apply negb_true_iff in Hl. by rewrite Hl.
  - runs_steps. apply runs_assert; [done|]. runs_steps. eapply runs_deref; [exact Hw|]. runs_steps. cbn [fst snd].
    apply negb_false_iff in Hl. apply runs_assert; [done|]. runs_steps.
    assert (Hww : 0 <= w < W32) by (pose proof (wf_words b Hwf) as HF; rewrite Forall_lookup in HF; by eapply HF).
    assert (Hk : (Z.to_nat (i / WORD_BITS) < length (words b))%nat) by (by eapply lookup_lt_Some).
    assert (Hbits : forall j, 0 <= j -> bit (mkBitmap (nbits b) (nwords b) (<[Z.to_nat (i / WORD_BITS) := Z.lor w (Z.shiftl 1 (i mod WORD_BITS))]> (words b))) j = bit b j || (j =? i)).
    { intros j Hj. rewrite bit_insert by done. case_decide as Hjk.
      - rewrite testbit_lor_shiftl by lia. unfold bit. rewrite Hjk, (list_lookup_total_correct _ _ _ Hw). f_equal.
        destruct (Z.eqb_spec j i) as [->|Hne]; [apply Z.eqb_refl|]. apply Z.eqb_neq. intros He. apply Hne. by apply same_index; [lia..|].
      - rewrite (proj2 (Z.eqb_neq j i)); [by rewrite orb_false_r|]. intros ->. done. }
    split; [|by split]. apply wf_change; [done|done|by apply lor_u32|]. intros j Hj Hjk.
    rewrite testbit_lor_shiftl by lia. pose proof (wf_over b Hwf j Hj) as Hf. unfold bit in Hf.
    rewrite Hjk, (list_lookup_total_correct _ _ _ Hw) in Hf. rewrite Hf. cbn. apply Z.eqb_neq. intros He.
    assert (j = i) by (apply same_index; [lia..|by split]). lia.
Qed.

(** [bitmap_free] of a block in use frees that block and no other; freeing a free
    block stops the kernel. *)
Theorem bitmap_free_correct b i :
  wf b -> 0 <= i < nbits b ->
  if bit b i then bitmap_free i b = Panic
  else runs (bitmap_free i) b (fun _ b' => wf b' /\ nbits b' = nbits b /\ forall j, 0 <= j -> bit b' j = bit b j || (j =? i)).
Proof. apply bitmap_free_runs. Qed.

(** ** Witnesses *)

Definition ex_bitmap : bitmap := mkBitmap 40 2 [6; 255].

Lemma ex_bitmap_wf : wf ex_bitmap.
Proof.
  split; cbn; unfold WORD_BITS, W32.
  - lia.
  - done.
  - done.
  - repeat constructor; lia.
  - intros i Hi. assert (Hc : exists k, i = 40 + Z.of_nat k /\ (k < 24)%nat) by (exists (Z.to_nat (i - 40)); lia).
    destruct Hc as (k&->&Hk). do 24 (destruct k as [|k]; [reflexivity|]). lia.
Qed.

Lemma bitmap_create_correct_witness : exists b, bitmap_create true true 40 = Ok (Some b) /\ bit b 39 = true /\ bit b 40 = false.
Proof.
  destruct (bitmap_create_correct 40) as (b&Hb&Hn&Hwf&Hall).
  - lia.
  - unfold WORD_BITS, W32. lia.
  - exists b. split; [exact Hb|]. split; [apply Hall; lia|]. apply (wf_over b Hwf). rewrite (wf_nwords b Hwf), Hn. vm_compute. split; [discriminate|reflexivity].
Defined.

Lemma bitmap_alloc_correct_witness : runs bitmap_alloc ex_bitmap (fun r b' => snd r = Some 1 /\ bit b' 1 = false /\ bit b' 2 = true).
Proof.
  pose proof (bitmap_alloc_correct ex_bitmap ex_bitmap_wf) as H. apply runs_ok in H as (r&b'&Hr&_&_&H). apply runs_ok. exists r, b'.
  split; [exact Hr|]. vm_compute in Hr. injection Hr as <- <-. split; [reflexivity|]. cbn [snd] in H. destruct H as (_&_&_&_&H).
  split; [rewrite (H 1 ltac:(lia))|rewrite (H 2 ltac:(lia))]; reflexivity.
Defined.

Lemma bitmap_free_correct_witness : runs (bitmap_free 3) ex_bitmap (fun _ b' => bit b' 3 = true /\ bit b' 4 = false).
Proof.
  pose proof (bitmap_free_correct ex_bitmap 3 ex_bitmap_wf ltac:(cbn; lia)) as H. change (bit ex_bitmap 3) with false in H. cbn iota in H.
  eapply runs_mono; [exact H|]. cbn beta. intros _ b' (_&_&Hb). split; [rewrite (Hb 3 ltac:(lia))|rewrite (Hb 4 ltac:(lia))]; reflexivity.
Defined.
