(* ===== verification/Proc.v ===== *)
(** * Processes (kern/process/proc.c, libs/hash.c)

    The process table lives in [kst] (KState.v); [pst] adds what else a process
    owns: address spaces, file maps, trap frames and saved contexts.  [do_exit],
    [do_wait] and [do_sleep] give up the CPU in [schedule]; what runs before it and
    what runs when the process is switched to again are separate definitions.
    The answers of [kmalloc] are arguments.  [lock_mm] is [Sync.down] on [mm_sem]
    and only keeps others out of the steps modelled here as one. *)

From stdpp Require Import base gmap list.
From Stdlib Require Import ZArith Lia Bool.
From S2P Require Import Prelude.
From S2P Require Import Atomic.
From S2P Require Import Dlist.
From S2P Require Import Buddy.
From S2P Require Import Pmm.
From S2P Require Import PageTable.
From S2P Require Import Vmm.
From S2P Require Import KState.
From S2P Require Import Sched.
From S2P Require Import Vfs.

Definition HASH_SHIFT : Z := 10.
Definition pid_hashfn (x : Z) : Z := hash32 (u32 x) HASH_SHIFT.

Definition CLONE_VM : Z := 0x100.
Definition CLONE_FS : Z := 0x800.
Definition KSTACKPAGE : Z := 2.
Definition KSTACKSIZE : Z := KSTACKPAGE * 4096.

(** ** The process table *)

Definition set_links (proc : Z) : M kst unit :=
  do! modify (fun s => set_proc_list (proc :: proc_list s) s) in
  do! upd_proc proc (set_yptr None) in
  let! g := rd_proc proc in
  let! par := deref (parent g) in
  let! pg := rd_proc par in
  do! upd_proc proc (set_optr (cptr pg)) in
  do! match cptr pg with Some o => upd_proc o (set_yptr (Some proc)) | None => ret tt end in
  do! upd_proc par (set_cptr (Some proc)) in
  modify (fun s => set_nr_process (s32 (nr_process s + 1)) s).

Definition remove_links (proc : Z) : M kst unit :=
  do! modify (fun s => set_proc_list (ldel proc (proc_list s)) s) in
  let! g := rd_proc proc in
  do! match optr g with Some o => upd_proc o (set_yptr (yptr g)) | None => ret tt end in
  do! match yptr g with
      | Some y => upd_proc y (set_optr (optr g))
      | None => let! par := deref (parent g) in upd_proc par (set_cptr (optr g))
      end in
  modify (fun s => set_nr_process (s32 (nr_process s - 1)) s).

(** [while ((le = list_next(le)) != list)] of [get_pid], until the end of the list
    ([false]) or [goto repeat] ([true]); with [last_pid] and [next_safe]. *)
Fixpoint pid_scan (les : list Z) (last ns : Z) : M kst (bool * Z * Z) :=
  match les with
  | [] => ret (false, last, ns)
  | le :: les =>
      let! proc := rd_proc le in
      if pid proc =? last then
        let last := last + 1 in
        if ns <=? last then ret (true, (if MAX_PID <=? last then 1 else last), MAX_PID)
        else pid_scan les last ns
      else if (last <? pid proc) && (pid proc <? ns) then pid_scan les last (pid proc)
      else pid_scan les last ns
  end.
(** [repeat:] *)
Fixpoint pid_repeat (fuel : nat) (last ns : Z) : M kst (Z * Z) :=
  match fuel with
  | O => nofuel
  | S fuel =>
      let! s := get in
      let! r := pid_scan (proc_list s) last ns in
      let '(again, last, ns) := r in
      if (again : bool) then pid_repeat fuel last ns else ret (last, ns)
  end.

Definition get_pid : M kst Z :=
  let! s := get in
  let last := last_pid s + 1 in
  let! r := (if MAX_PID <=? last then pid_repeat (Z.to_nat MAX_PID) 1 MAX_PID
             else if next_safe s <=? last then pid_repeat (Z.to_nat MAX_PID) last MAX_PID
             else ret (last, next_safe s)) in
  do! modify (set_pids (snd r) (fst r)) in
  ret (fst r).

Definition hash_proc (proc : Z) : M kst unit :=
  let! g := rd_proc proc in
  let h := pid_hashfn (pid g) in
  modify (fun s => set_hash_list (<[h := proc :: default [] (hash_list s !! h)]> (hash_list s)) s).
(** [list_del(&(proc->hash_link))]: out of the bucket it is in. *)
Definition unhash_proc (proc : Z) : M kst unit :=
  modify (fun s => set_hash_list (ldel proc <$> hash_list s) s).

Fixpoint find_hash (les : list Z) (p : Z) : M kst (option Z) :=
  match les with
  | [] => ret None
  | le :: les => let! g := rd_proc le in if pid g =? p then ret (Some le) else find_hash les p
  end.
Definition find_proc (p : Z) : M kst (option Z) :=
  if (0 <? p) && (p <? MAX_PID) then
    let! s := get in find_hash (default [] (hash_list s !! pid_hashfn p)) p
  else ret None.

(** The loop of [do_exit] that gives the children of [cur] to [init]; one fuel per child. *)
Fixpoint reparent_loop (sc : sched_class) (fuel : nat) (cur init : Z) : M kst unit :=
  let! c := rd_proc cur in
  match cptr c with
  | None => ret tt
  | Some proc =>
      match fuel with
      | O => nofuel
      | S fuel =>
          let! g := rd_proc proc in
          do! upd_proc cur (set_cptr (optr g)) in
          do! upd_proc proc (set_yptr None) in
          let! ig := rd_proc init in
          do! upd_proc proc (set_optr (cptr ig)) in
          do! match cptr ig with Some o => upd_proc o (set_yptr (Some proc)) | None => ret tt end in
          do! upd_proc proc (set_parent (Some init)) in
          do! upd_proc init (set_cptr (Some proc)) in
          let! g := rd_proc proc in
          do! (if decide (state g = PROC_ZOMBIE) then
                 let! ig := rd_proc init in
                 if wait_state ig =? WT_CHILD then wakeup_proc sc init else ret tt
               else ret tt) in
          reparent_loop sc fuel cur init
      end
  end.

Definition do_yield : M kst Z :=
  let! s := get in do! upd_proc (current s) (set_need_resched true) in ret 0.

Definition do_kill (sc : sched_class) (p : Z) : M kst Z :=
  let! r := find_proc p in
  match r with
  | Some proc =>
      let! g := rd_proc proc in
      if Z.land (p_flags g) PF_EXITING =? 0 then
        do! upd_proc proc (set_p_flags (Z.lor (p_flags g) PF_EXITING)) in
        do! (if negb (Z.land (wait_state g) WT_INTERRUPTED =? 0) then wakeup_proc sc proc else ret tt) in
        ret 0
      else ret (- E_KILLED)
  | None => ret (- E_INVAL)
  end.

(** [timer] is the [timer_t] on the sleeper's stack; [true]: gave up the CPU. *)
Definition do_sleep_enter (sc : sched_class) (timer time : Z) : M kst bool :=
  if time =? 0 then ret false
  else
    let! s := get in
    do! timer_init timer (current s) time in
    do! upd_proc (current s) (set_state PROC_SLEEPING) in
    do! upd_proc (current s) (set_wait_state WT_TIMER) in
    do! add_timer timer in
    do! schedule sc in ret true.
Definition do_sleep_leave (timer : Z) : M kst Z := do! del_timer timer in ret 0.

(** ** What a process owns *)

(** [struct trapframe]; [reg_r] by index. *)
Record trapframe := mkTf {
  tf_vaddr : Z; tf_status : Z; tf_cause : Z; tf_lo : Z; tf_hi : Z; tf_ra : Z; reg_r : Z -> Z; tf_epc : Z
}.
Definition MIPS_REG_V0 : Z := 1.
Definition MIPS_REG_A0 : Z := 3.
Definition MIPS_REG_A1 : Z := 4.
Definition MIPS_REG_A2 : Z := 5.
Definition MIPS_REG_A3 : Z := 6.
Definition MIPS_REG_T0 : Z := 7.
Definition MIPS_REG_GP : Z := 27.
Definition MIPS_REG_SP : Z := 28.
Definition sizeof_trapframe : Z := 148.
Definition set_reg (r v : Z) (tf : trapframe) : trapframe :=
  mkTf (tf_vaddr tf) (tf_status tf) (tf_cause tf) (tf_lo tf) (tf_hi tf) (tf_ra tf) (fun x => if x =? r then v else reg_r tf x) (tf_epc tf).

Record pst (X : Type) := mkP {
  ks : kst;
  mms : gmap Z mm_struct;
  fsys : fst_ X;
  pfs : gmap Z Z;              (* proc->fs_struct *)
  ptf : gmap Z trapframe;      (* *(proc->tf) *)
  pctx : gmap Z (Z * Z);       (* context.sf_ra, context.sf_sp *)
  boot_pgdir : Z;
  boot_cr3 : Z
}.
Arguments mkP {X}. Arguments ks {X}. Arguments mms {X}. Arguments fsys {X}. Arguments pfs {X}.
Arguments ptf {X}. Arguments pctx {X}. Arguments boot_pgdir {X}. Arguments boot_cr3 {X}.

Section Proc.
Context {X : Type}.
Abbreviation st := (pst X).
Variable pm : pmm_manager.
Variable sc : sched_class.
Variable optab : Z -> @inode_ops X.
(** The address of [forkret]. *)
Variable forkret : Z.

Definition set_ks v (s : st) : st := mkP v (mms s) (fsys s) (pfs s) (ptf s) (pctx s) (boot_pgdir s) (boot_cr3 s).
Definition set_mms v (s : st) : st := mkP (ks s) v (fsys s) (pfs s) (ptf s) (pctx s) (boot_pgdir s) (boot_cr3 s).
Definition set_fsys v (s : st) : st := mkP (ks s) (mms s) v (pfs s) (ptf s) (pctx s) (boot_pgdir s) (boot_cr3 s).
Definition set_pfs v (s : st) : st := mkP (ks s) (mms s) (fsys s) v (ptf s) (pctx s) (boot_pgdir s) (boot_cr3 s).
Definition set_ptf v (s : st) : st := mkP (ks s) (mms s) (fsys s) (pfs s) v (pctx s) (boot_pgdir s) (boot_cr3 s).
Definition set_pctx v (s : st) : st := mkP (ks s) (mms s) (fsys s) (pfs s) (ptf s) v (boot_pgdir s) (boot_cr3 s).

Definition on_k {A} (m : M kst A) : M st A := zoom ks set_ks m.
Definition on_fsys {A} (m : M (fst_ X) A) : M st A := zoom fsys set_fsys m.
Definition on_vm {A} (m : M vm A) : M st A := on_k (on_kvm m).

Definition rd_mm (p : Z) : M st mm_struct := let! s := get in deref (mms s !! p).
Definition wr_mm (p : Z) (mm : mm_struct) : M st unit := modify (fun s => set_mms (<[p := mm]> (mms s)) s).
Definition kfree_mm (p : Z) : M st unit := modify (fun s => set_mms (delete p (mms s)) s).
(** Code on the structure at [p]. *)
Definition at_mm {A} (p : Z) (m : M mm_struct A) : M st A :=
  let! mm := rd_mm p in
  match m mm with
  | Ok (a, mm') => do! wr_mm p mm' in ret a
  | Panic => panic | Fault => fault | NoFuel => nofuel
  end.

Definition alloc_proc (new : option Z) : M st (option Z) :=
  match new with
  | None => ret None
  | Some p =>
      let! s := get in
      do! on_k (modify (fun k => set_procs (<[p := mkProc PROC_UNINIT (-1) 0 0 false None None (boot_cr3 s) 0 0 0 None None None 0]> (procs k)) k)) in
      ret (Some p)
  end.
Definition kfree_proc (p : Z) : M st unit := on_k (modify (fun k => set_procs (delete p (procs k)) k)).

Definition setup_kstack (proc : Z) : M st Z :=
  let! page := on_vm (alloc_pages pm KSTACKPAGE) in
  match page with
  | Some pg => let! kva := on_vm (page2kva pg) in do! on_k (upd_proc proc (set_kstack kva)) in ret 0
  | None => ret (- E_NO_MEM)
  end.
Definition put_kstack (proc : Z) : M st unit :=
  let! g := on_k (rd_proc proc) in
  let! pg := on_vm (kva2page (kstack g)) in
  on_vm (free_pages pm pg KSTACKPAGE).

(** The tail every failure after [mm_create] reaches: [mm_destroy(mm)]. *)
Definition destroy_mm (p : Z) : M st unit :=
  let! mm := rd_mm p in
  match mm_destroy mm with Ok _ => kfree_mm p | Panic => panic | Fault => fault | NoFuel => nofuel end.

Definition set_cr3 (v : Z) (p : proc_struct) : proc_struct :=
  mkProc (state p) (pid p) (p_runs p) (kstack p) (need_resched p) (parent p) (p_mm p) v (p_flags p) (exit_code p)
    (wait_state p) (cptr p) (yptr p) (optr p) (time_slice p).

(** [good_mm:] *)
Definition share_mm (proc mm : Z) : M st Z :=
  do! at_mm mm mm_count_inc in
  do! on_k (upd_proc proc (set_p_mm (Some mm))) in
  let! m := rd_mm mm in
  let! pa := on_vm (PADDR (pgdir m)) in
  do! on_k (upd_proc proc (set_cr3 pa)) in ret 0.

(** [new_mm], [oks]: what [mm_create] and the [vma_create]s get. *)
Definition copy_mm (new_mm : option Z) (oks : list bool) (clone_flags proc : Z) : M st Z :=
  let! s := get in
  let! cg := on_k (rd_proc (current (ks s))) in
  match p_mm cg with
  | None => ret 0
  | Some oldmm =>
      if negb (Z.land clone_flags CLONE_VM =? 0) then share_mm proc oldmm
      else
        match new_mm with
        | None => ret (- E_NO_MEM)
        | Some mm =>
            let! m0 := deref (mm_create true) in
            do! wr_mm mm m0 in
            let! r := on_vm (setup_pgdir pm (boot_pgdir s)) in
            match snd r with
            | None => do! destroy_mm mm in ret (- E_NO_MEM)
            | Some pgd =>
                do! wr_mm mm (mkMm (mmap_list m0) (mmap_cache m0) pgd (map_count m0) (mm_count m0) (mm_sem m0)) in
                let! from := rd_mm oldmm in
                let! to := rd_mm mm in
                let! s := get in
                match dup_mmap pm oks from (to, kvm (ks s)) with
                | Ok (r, (to', v')) =>
                    do! wr_mm mm to' in
                    do! on_k (modify (set_kvm v')) in
                    if negb (r =? 0) then
                      do! on_vm (exit_mmap pm to') in
                      do! on_vm (put_pgdir pm to') in
                      do! destroy_mm mm in ret r
                    else share_mm proc mm
                | Panic => panic | Fault => fault | NoFuel => nofuel
                end
            end
        end
  end.

Definition copy_thread (proc esp : Z) (tf : trapframe) : M st unit :=
  let! g := on_k (rd_proc proc) in
  let at_ := u32 (kstack g + KSTACKSIZE - sizeof_trapframe) in
  let esp := if esp =? 0 then u32 (at_ - 32) else esp in
  do! modify (fun s => set_ptf (<[proc := set_reg MIPS_REG_SP esp (set_reg MIPS_REG_V0 0 tf)]> (ptf s)) s) in
  modify (fun s => set_pctx (<[proc := (forkret, u32 (at_ - 32))]> (pctx s)) s).

Definition copy_fs (new_fs : option Z) (clone_flags proc : Z) : M st Z :=
  let! s := get in
  match pfs s !! current (ks s) with
  | None => panic
  | Some old =>
      if negb (Z.land clone_flags CLONE_FS =? 0) then
        do! on_fsys (fs_count_inc old) in
        do! modify (fun s => set_pfs (<[proc := old]> (pfs s)) s) in ret 0
      else
        let! f := on_fsys (fs_create new_fs) in
        match f with
        | None => ret (- E_NO_MEM)
        | Some f =>
            let! r := on_fsys (dup_fs f old) in
            if negb (r =? 0) then do! on_fsys (fs_destroy optab f) in ret r
            else
              do! on_fsys (fs_count_inc f) in
              do! modify (fun s => set_pfs (<[proc := f]> (pfs s)) s) in ret 0
        end
  end.
Definition put_fs (proc : Z) : M st unit :=
  let! s := get in
  match pfs s !! proc with
  | None => ret tt
  | Some f => let! c := on_fsys (fs_count_dec f) in if c =? 0 then on_fsys (fs_destroy optab f) else ret tt
  end.

(** What the allocator answers during one fork. *)
Record fork_mem := mkForkMem { fm_proc : option Z; fm_fs : option Z; fm_mm : option Z; fm_vmas : list bool }.

Definition do_fork (a : fork_mem) (clone_flags stack : Z) (tf : trapframe) : M st Z :=
  let! s := get in
  if MAX_PROCESS <=? nr_process (ks s) then ret (- E_NO_FREE_PROC)
  else
    let! p := alloc_proc (fm_proc a) in
    match p with
    | None => ret (- E_NO_MEM)
    | Some proc =>
        do! on_k (upd_proc proc (set_parent (Some (current (ks s))))) in
        let! r := setup_kstack proc in
        if negb (r =? 0) then do! kfree_proc proc in ret (- E_NO_MEM)
        else
          let! r := copy_fs (fm_fs a) clone_flags proc in
          if negb (r =? 0) then do! put_kstack proc in do! kfree_proc proc in ret (- E_NO_MEM)
          else
            let! r := copy_mm (fm_mm a) (fm_vmas a) clone_flags proc in
            if negb (r =? 0) then
              do! put_fs proc in do! put_kstack proc in do! kfree_proc proc in ret (- E_NO_MEM)
            else
              do! copy_thread proc stack tf in
              let! n := on_k get_pid in
              do! on_k (upd_proc proc (set_pid n)) in
              do! on_k (hash_proc proc) in
              do! on_k (set_links proc) in
              do! on_k (wakeup_proc sc proc) in
              let! g := on_k (rd_proc proc) in
              ret (pid g)
    end.

(** [kernel_thread]; [status], [gp]: the CP0 status and [$28] read there,
    [entry] the address of [kernel_thread_entry]. *)
Definition ST0_KSU : Z := 0x18.
Definition ST0_EXL : Z := 2.
Definition kernel_thread (a : fork_mem) (fn arg clone_flags status gp entry : Z) : M st Z :=
  let tf0 := mkTf 0 0 0 0 0 0 (fun _ => 0) 0 in
  let tf1 := set_reg MIPS_REG_V0 0 (set_reg MIPS_REG_A1 fn (set_reg MIPS_REG_A0 arg tf0)) in
  let status := Z.lor (Z.lor (Z.land status (lnot32 ST0_KSU)) ST0_IE) ST0_EXL in
  let tf2 := set_reg MIPS_REG_GP gp tf1 in
  do_fork a (Z.lor clone_flags CLONE_VM) 0
    (mkTf (tf_vaddr tf2) status (tf_cause tf2) (tf_lo tf2) (tf_hi tf2) (tf_ra tf2) (reg_r tf2) entry).

(** The release of the address space in [do_exit] and [do_execve]. *)
Definition drop_mm (cur : Z) : M st unit :=
  let! s := get in
  let! g := on_k (rd_proc cur) in
  match p_mm g with
  | None => ret tt
  | Some m =>
      do! on_vm (lcr3 (boot_cr3 s)) in
      let! c := at_mm m mm_count_dec in
      do! (if c =? 0 then
             let! mm := rd_mm m in
             do! on_vm (exit_mmap pm mm) in
             do! on_vm (put_pgdir pm mm) in
             destroy_mm m
           else ret tt) in
      on_k (upd_proc cur (set_p_mm None))
  end.

(** Up to [switch_to]: the process does not run again. *)
Definition do_exit (error_code : Z) : M st unit :=
  let! s := get in
  let cur := current (ks s) in
  let init := initproc (ks s) in
  if cur =? idleproc (ks s) then panic
  else if cur =? init then panic
  else
    do! drop_mm cur in
    do! put_fs cur in
    do! on_k (upd_proc cur (set_state PROC_ZOMBIE)) in
    do! on_k (upd_proc cur (set_exit_code error_code)) in
    let! g := on_k (rd_proc cur) in
    let! par := deref (parent g) in
    let! pg := on_k (rd_proc par) in
    do! (if wait_state pg =? WT_CHILD then on_k (wakeup_proc sc par) else ret tt) in
    let! s := get in
    do! on_k (reparent_loop sc (size (procs (ks s))) cur init) in
    on_k (schedule sc).

(** [for (; proc != NULL; proc = proc->optr)]: a zombie among the siblings from
    [proc] on, and whether there was any sibling. *)
Fixpoint zombie_loop (fuel : nat) (proc : option Z) (haskid : bool) : M kst (option Z * bool) :=
  match proc with
  | None => ret (None, haskid)
  | Some p =>
      match fuel with
      | O => nofuel
      | S fuel =>
          let! g := rd_proc p in
          if decide (state g = PROC_ZOMBIE) then ret (Some p, true) else zombie_loop fuel (optr g) true
      end
  end.

(** From [repeat:] to the decision. *)
Definition wait_search (p : Z) : M kst (option Z * bool) :=
  let! s := get in
  if negb (p =? 0) then
    let! r := find_proc p in
    match r with
    | Some proc =>
        let! g := rd_proc proc in
        if decide (parent g = Some (current s)) then
          if decide (state g = PROC_ZOMBIE) then ret (Some proc, true) else ret (None, true)
        else ret (None, false)
    | None => ret (None, false)
    end
  else
    let! g := rd_proc (current s) in
    zombie_loop (size (procs s)) (cptr g) false.

(** [found:]; the exit code goes to [code_store]. *)
Definition reap (proc : Z) : M st Z :=
  let! s := get in
  if (proc =? idleproc (ks s)) || (proc =? initproc (ks s)) then panic
  else
    let! g := on_k (rd_proc proc) in
    do! on_k (unhash_proc proc) in
    do! on_k (remove_links proc) in
    do! put_kstack proc in
    do! kfree_proc proc in
    ret (exit_code g).

Inductive wait_result :=
  | WaitDone (ret_ : Z) (code : option Z)  (* return value; what [*code_store] gets *)
  | WaitSleep.                             (* switched away; resumes in [do_wait_resume] *)

Definition do_wait_pass (p : Z) : M st wait_result :=
  let! r := on_k (wait_search p) in
  match r with
  | (Some proc, _) => let! code := reap proc in ret (WaitDone 0 (Some code))
  | (None, true) =>
      let! s := get in
      do! on_k (upd_proc (current (ks s)) (set_state PROC_SLEEPING)) in
      do! on_k (upd_proc (current (ks s)) (set_wait_state WT_CHILD)) in
      do! on_k (schedule sc) in ret WaitSleep
  | (None, false) => ret (WaitDone (- E_BAD_PROC) None)
  end.

(** [code_store]: the user address, if any. *)
Definition do_wait (p : Z) (code_store : option Z) : M st wait_result :=
  let! s := get in
  let! g := on_k (rd_proc (current (ks s))) in
  let! ok := match code_store with
             | None => ret true
             | Some a => match p_mm g with
                         | Some m => at_mm m (user_mem_check a 4 true)
                         | None => ret (user_mem_check_kernel a 4)
                         end
             end in
  if negb ok then ret (WaitDone (- E_INVAL) None) else do_wait_pass p.

(** [None]: the process was killed while it slept. *)
Definition do_wait_resume (p : Z) : M st (option wait_result) :=
  let! s := get in
  let! g := on_k (rd_proc (current (ks s))) in
  if negb (Z.land (p_flags g) PF_EXITING =? 0) then do! do_exit (- E_KILLED) in ret None
  else let! r := do_wait_pass p in ret (Some r).
End Proc.
