(* ===== verification/ProcThm.v ===== *)
(** * The process table: identifiers and hash lookup

    [get_pid] returns an identifier no process has; [find_proc] finds exactly the
    process with an identifier. *)

From stdpp Require Import base gmap list.
From Stdlib Require Import ZArith Lia Bool.
From S2P Require Import Prelude.
From S2P Require Import Dlist.
From S2P Require Import KState.
From S2P Require Import Sched.
From S2P Require Import SchedThm.
From S2P Require Import Proc.

(** ** Process identifiers *)

Definition pids_known (s : kst) : Prop := forall p, p ∈ proc_list s -> is_Some (procs s !! p).
Definition taken (s : kst) (n : Z) : Prop := exists p g, p ∈ proc_list s /\ procs s !! p = Some g /\ pid g = n.

(** What [get_pid] relies on between calls: no identifier strictly between
    [last_pid] and [next_safe] is in use. *)
Record PidInv (s : kst) : Prop := {
  pi_known : pids_known s;
  pi_last : 0 <= last_pid s <= MAX_PID;
  pi_safe : next_safe s <= MAX_PID;
  pi_gap : forall n, last_pid s < n < next_safe s -> ~ taken s n
}.

(** How many increments, wrapping from [MAX_PID - 1] to 1, lead from [last] to [f]. *)
Definition dist (f last : Z) : Z := if last <=? f then f - last else f + (MAX_PID - 1) - last.
Definition wrap (l : Z) : Z := if MAX_PID <=? l then 1 else l.

Lemma dist_step f last : 1 <= f < MAX_PID -> 1 <= last < MAX_PID -> last <> f -> dist f (wrap (last + 1)) = dist f last - 1.
Proof.
  unfold dist, wrap, MAX_PID, MAX_PROCESS. intros Hf Hl Hne.
  destruct (Z.leb_spec (4096 * 2) (last + 1)), (Z.leb_spec last f);
    repeat match goal with |- context [?a <=? ?b] => destruct (Z.leb_spec a b) end; lia.
Qed.

Lemma dist_range f last : 1 <= f < MAX_PID -> 1 <= last < MAX_PID -> 0 <= dist f last < MAX_PID.
Proof. unfold dist. intros. destruct (Z.leb_spec last f); lia. Qed.

Definition clear_of (s : kst) (l : list Z) (last ns : Z) : Prop :=
  forall p g, p ∈ l -> procs s !! p = Some g -> pid g <> last /\ ~ (last < pid g < ns).

Lemma pid_scan_runs s f : 1 <= f < MAX_PID -> ~ taken s f -> forall les pre last ns,
  (forall p, p ∈ les -> p ∈ proc_list s) -> pids_known s -> 1 <= last < ns -> ns <= MAX_PID -> clear_of s pre last ns ->
  runs (pid_scan les last ns) s (fun r s' => s' = s /\ let '(again, last', ns') := r in 1 <= last' < ns' /\ ns' <= MAX_PID /\
    if again : bool then ns' = MAX_PID /\ dist f last' < dist f last else clear_of s (pre ++ les) last' ns').
Proof.
  intros Hf Hfree. induction les as [|le les IH]; intros pre last ns Hin Hk Hl Hns Hc; cbn [pid_scan].
  { runs_steps. split; [done|]. by rewrite app_nil_r. }
  destruct (Hk le) as [g Hg]; [apply Hin, list_elem_of_here|]. runs_steps. eapply rd_proc_runs; [exact Hg|].
  assert (Hin' : forall p, p ∈ les -> p ∈ proc_list s) by (intros; by apply Hin, list_elem_of_further).
  rewrite (app_assoc pre [le] les : pre ++ le :: les = (pre ++ [le]) ++ les).
  destruct (Z.eqb_spec (pid g) last) as [He|He].
  - assert (Hlf : last <> f) by (intros ->; apply Hfree; exists le, g; split; [apply Hin, list_elem_of_here|done]).
    pose proof (dist_step f last Hf ltac:(lia) Hlf) as Hd. destruct (Z.leb_spec ns (last + 1)) as [Hge|Hlt].
    + runs_steps. split; [done|]. fold (wrap (last + 1)). unfold wrap in *. destruct (Z.leb_spec MAX_PID (last + 1)); unfold MAX_PID, MAX_PROCESS in *; lia.
    + assert (Hw : wrap (last + 1) = last + 1) by (unfold wrap; rewrite (proj2 (Z.leb_gt _ _)) by lia; done). rewrite Hw in Hd.
      eapply runs_mono; [apply (IH (pre ++ [le])); [done|done|lia|lia|]|].
      * intros p h Hp Hh. apply elem_of_app in Hp as [Hp|Hp]; [destruct (Hc p h Hp Hh); lia|].
        apply list_elem_of_singleton in Hp as ->. rewrite Hg in Hh. injection Hh as <-. lia.
      * cbn beta. intros [[again last'] ns'] s' (->&Hr). split; [done|]. destruct Hr as (?&?&Hr). split; [done|]. split; [done|].
        destruct again; [lia|done].
  - assert (Hstep : forall ns2, ns2 <= ns -> last < ns2 -> ~ (last < pid g < ns2) -> clear_of s (pre ++ [le]) last ns2).
    { intros ns2 H2 Hl2 Hng p h Hp Hh. apply elem_of_app in Hp as [Hp|Hp]; [destruct (Hc p h Hp Hh); lia|].
      apply list_elem_of_singleton in Hp as ->. rewrite Hg in Hh. injection Hh as <-. lia. }
    destruct (Z.ltb_spec last (pid g)) as [Hlg|Hlg]; cbn [andb]; [destruct (Z.ltb_spec (pid g) ns) as [Hgn|Hgn]|];
      (eapply runs_mono; [apply (IH (pre ++ [le])); [done|done|lia|lia|apply Hstep; lia]|done]).
Qed.

Lemma pid_repeat_runs s f : 1 <= f < MAX_PID -> ~ taken s f -> pids_known s -> forall fuel last,
  1 <= last < MAX_PID -> dist f last < Z.of_nat fuel ->
  runs (pid_repeat fuel last MAX_PID) s (fun r s' => s' = s /\ 1 <= fst r < snd r /\ snd r <= MAX_PID /\ clear_of s (proc_list s) (fst r) (snd r)).
Proof.
  intros Hf Hfree Hk. induction fuel as [|fuel IH]; intros last Hl Hd; cbn [pid_repeat].
  { pose proof (dist_range f last Hf Hl). lia. }
  runs_steps. runs_by (pid_scan_runs s f Hf Hfree (proc_list s) []); [done|done|lia|lia|by intros ? ? ?%elem_of_nil|].
  cbn beta. intros [[again last'] ns'] s' (->&H1&H2&H3). destruct again.
  - destruct H3 as [-> H3]. apply IH; lia.
  - runs_steps. done.
Qed.

(** Fewer processes than identifiers: one is free. *)
Lemma free_pid s : Z.of_nat (length (proc_list s)) < MAX_PID - 1 -> exists f, 1 <= f < MAX_PID /\ ~ taken s f.
Proof.
  intros Hlen. set (ps := (fun p => from_option pid 0 (procs s !! p)) <$> proc_list s).
  destruct (decide (Forall (fun n => n ∈ ps) (seqZ 1 (MAX_PID - 1)))) as [Hall|Hex].
  - exfalso. assert (Hsub : seqZ 1 (MAX_PID - 1) ⊆+ ps).
    { apply NoDup_submseteq; [apply NoDup_seqZ|]. intros n Hn. rewrite Forall_forall in Hall. by apply Hall. }
    apply submseteq_length in Hsub. rewrite length_seqZ in Hsub. unfold ps in Hsub. rewrite length_fmap in Hsub. lia.
  - apply not_Forall_Exists in Hex; [|apply _]. apply Exists_exists in Hex as (f&Hf&Hn). apply elem_of_seqZ in Hf. exists f. split; [lia|].
    intros (p&g&Hp&Hg&He). apply Hn. unfold ps. apply list_elem_of_fmap. exists p. rewrite Hg. cbn. by split.
Qed.

Lemma get_pid_runs s :
  PidInv s -> Z.of_nat (length (proc_list s)) < MAX_PID - 1 ->
  runs get_pid s (fun n s' => 1 <= n < MAX_PID /\ ~ taken s n /\ last_pid s' = n /\ PidInv s' /\ s' = set_pids (next_safe s') n s).
Proof.
  intros [Hk Hl Hs Hgap] Hlen. destruct (free_pid s Hlen) as (f&Hf&Hfree).
  assert (Hslow : forall l, 1 <= l < MAX_PID ->
    runs (pid_repeat (Z.to_nat MAX_PID) l MAX_PID) s (fun r s' => s' = s /\ 1 <= fst r < snd r /\ snd r <= MAX_PID /\
      (forall n, fst r <= n < snd r -> ~ taken s n))).
  { intros l Hr. pose proof (dist_range f l Hf Hr). runs_by (pid_repeat_runs s f Hf Hfree Hk); [done|unfold MAX_PID, MAX_PROCESS in *; lia|].
    cbn beta. intros r s' (->&H1&H2&Hc). split_and!; try done; try lia. intros n Hn (p&g&Hp&Hg&<-). destruct (Hc p g Hp Hg). lia. }
  unfold get_pid. runs_steps.
  assert (Hall : runs (if MAX_PID <=? last_pid s + 1 then pid_repeat (Z.to_nat MAX_PID) 1 MAX_PID
             else if next_safe s <=? last_pid s + 1 then pid_repeat (Z.to_nat MAX_PID) (last_pid s + 1) MAX_PID
             else ret (last_pid s + 1, next_safe s)) s (fun r s' => s' = s /\ 1 <= fst r < snd r /\ snd r <= MAX_PID /\
      (forall n, fst r <= n < snd r -> ~ taken s n))).
  { destruct (Z.leb_spec MAX_PID (last_pid s + 1)); [apply Hslow; unfold MAX_PID, MAX_PROCESS; lia|].
    destruct (Z.leb_spec (next_safe s) (last_pid s + 1)); [apply Hslow; lia|]. runs_steps. cbn.
    split_and!; try done; try lia. intros n Hn. apply Hgap. lia. }
  eapply runs_mono; [exact Hall|]. cbn beta. intros r s' (->&H1&H2&H3). runs_steps.
  split; [lia|]. split; [apply H3; lia|]. split; [done|]. split; [|done]. split; cbn; [done|lia|lia|].
  intros n Hn (p&g&Hp&Hg&He). apply (H3 n); [lia|]. by exists p, g.
Qed.

(** C27: [get_pid] terminates and returns an identifier in [1, MAX_PID) that no
    process of the table has, whatever the table and the history of calls (the
    two statics stay consistent), as long as fewer processes than identifiers
    exist. *)
Theorem get_pid_unique s :
  PidInv s -> Z.of_nat (length (proc_list s)) < MAX_PID - 1 ->
  runs get_pid s (fun n s' => 1 <= n < MAX_PID /\ ~ taken s n /\ PidInv s').
Proof. intros HI Hl. runs_by (get_pid_runs s HI Hl). cbn beta. intros n s' (H1&H2&_&H3&_). done. Qed.

(** ** The hash of identifiers *)

Definition bucket (s : kst) (h : Z) : list Z := default [] (hash_list s !! h).

Record HashInv (s : kst) : Prop := {
  hi_in : forall h p, p ∈ bucket s h -> p ∈ proc_list s;
  hi_at : forall h p g, p ∈ bucket s h -> procs s !! p = Some g -> h = pid_hashfn (pid g);
  hi_all : forall p g, p ∈ proc_list s -> procs s !! p = Some g -> p ∈ bucket s (pid_hashfn (pid g));
  hi_known : pids_known s;
  hi_uniq : forall p q g h, p ∈ proc_list s -> q ∈ proc_list s -> procs s !! p = Some g -> procs s !! q = Some h -> pid g = pid h -> p = q
}.

Lemma find_hash_runs s n : forall les, (forall p, p ∈ les -> is_Some (procs s !! p)) ->
  runs (find_hash les n) s (fun r s' => s' = s /\
    match r with
    | Some p => p ∈ les /\ exists g, procs s !! p = Some g /\ pid g = n
    | None => forall p g, p ∈ les -> procs s !! p = Some g -> pid g <> n
    end).
Proof.
  induction les as [|le les IH]; intros Hk; cbn [find_hash].
  { runs_steps. split; [done|]. by intros p g ?%elem_of_nil. }
  destruct (Hk le) as [g Hg]; [apply list_elem_of_here|]. runs_steps. eapply rd_proc_runs; [exact Hg|].
  destruct (Z.eqb_spec (pid g) n) as [He|He].
  - runs_steps. split; [done|]. split; [apply list_elem_of_here|]. by exists g.
  - eapply runs_mono; [apply IH; intros; apply Hk; by apply list_elem_of_further|]. cbn beta. intros [p|] s' (->&Hr).
    + split; [done|]. destruct Hr as [Hp Hr]. split; [by apply list_elem_of_further|done].
    + split; [done|]. intros p h [->|Hp]%elem_of_cons Hh; [congruence|]. by eapply Hr.
Qed.

Lemma find_proc_runs s n :
  HashInv s ->
  runs (find_proc n) s (fun r s' => s' = s /\ forall p, r = Some p <->
    0 < n < MAX_PID /\ p ∈ proc_list s /\ exists g, procs s !! p = Some g /\ pid g = n).
Proof.
  intros HI. unfold find_proc. destruct (Z.ltb_spec 0 n) as [H0|H0]; cbn [andb]; [|runs_steps; split; [done|]; intros p; split; [done|lia]].
  destruct (Z.ltb_spec n MAX_PID) as [H1|H1]; [|runs_steps; split; [done|]; intros p; split; [done|lia]].
  runs_steps. fold (bucket s (pid_hashfn n)). runs_by find_hash_runs; [intros p Hp; apply (hi_known s HI), (hi_in s HI _ _ Hp)|].
  cbn beta. intros r s' (->&Hr). split; [done|]. intros p. destruct r as [q|].
  - destruct Hr as (Hq&g&Hg&He). split.
    + intros [= ->]. split; [lia|]. split; [by eapply hi_in|]. by exists g.
    + intros (_&Hp&h&Hh&He'). f_equal. symmetry. eapply (hi_uniq s HI p q); [done|by eapply hi_in|done|done|congruence].
  - split; [done|]. intros (_&Hp&g&Hg&He). exfalso. apply (Hr p g); [|done|done]. rewrite <-He. by apply (hi_all s HI).
Qed.

(** [find_proc] finds exactly the process with a given identifier: the bucket it
    searches holds every process of the table that could have it. *)
Theorem find_proc_correct s n :
  HashInv s ->
  runs (find_proc n) s (fun r s' => s' = s /\ forall p, r = Some p <->
    0 < n < MAX_PID /\ p ∈ proc_list s /\ exists g, procs s !! p = Some g /\ pid g = n).
Proof. apply find_proc_runs. Qed.

(** ** A concrete process table: identifiers 1 to 4 in use *)

Definition ex_table : kst :=
  set_hash_list (list_to_map ((fun p => (pid_hashfn (p - 1), [p])) <$> [2; 3; 4; 5])) ex_k.

Lemma ex_table_in p : p ∈ proc_list ex_table -> p = 2 \/ p = 3 \/ p = 4 \/ p = 5.
Proof. cbn. rewrite !elem_of_cons, elem_of_nil. tauto. Qed.
Lemma ex_table_pid p g : p ∈ proc_list ex_table -> procs ex_table !! p = Some g -> pid g = p - 1.
Proof. intros [-> | [-> | [-> | ->]]]%ex_table_in; intros [= <-]; reflexivity. Qed.
Lemma ex_table_known : pids_known ex_table.
Proof. intros p [-> | [-> | [-> | ->]]]%ex_table_in; by eexists. Qed.

Lemma ex_table_pids : PidInv ex_table.
Proof.
  split; [exact ex_table_known|cbn; unfold MAX_PID, MAX_PROCESS; lia|done|].
  intros n Hn (p&g&Hp&Hg&He). rewrite (ex_table_pid p g Hp Hg) in He. apply ex_table_in in Hp. cbn in Hn. lia.
Qed.

Lemma ex_bucket_in h p : p ∈ bucket ex_table h -> p ∈ proc_list ex_table /\ h = pid_hashfn (p - 1).
Proof.
  unfold bucket. destruct (hash_list ex_table !! h) as [l|] eqn:Hh; [|intros []%elem_of_nil]. intros Hp.
  unfold ex_table in Hh. cbn [hash_list set_hash_list] in Hh. apply elem_of_list_to_map_2 in Hh. apply list_elem_of_fmap in Hh as (q&[= -> ->]&Hq).
  apply list_elem_of_singleton in Hp as ->. done.
Qed.

Lemma ex_table_hash : HashInv ex_table.
Proof.
  split.
  - intros h p Hp. apply ex_bucket_in in Hp as [Hp _]. exact Hp.
  - intros h p g Hp Hg. apply ex_bucket_in in Hp as [Hp ->]. by rewrite (ex_table_pid p g).
  - intros p g Hp Hg. rewrite (ex_table_pid p g Hp Hg). apply ex_table_in in Hp as [-> | [-> | [-> | ->]]]; vm_compute; left.
  - exact ex_table_known.
  - intros p q g h Hp Hq Hg Hh He. rewrite (ex_table_pid p g Hp Hg), (ex_table_pid q h Hq Hh) in He. lia.
Qed.

Lemma get_pid_unique_witness : runs get_pid ex_table (fun n _ => ~ taken ex_table n).
Proof.
  eapply runs_mono; [apply (get_pid_unique ex_table ex_table_pids)|].
  - vm_compute. reflexivity.
  - cbn beta. intros n s' (_&H&_). exact H.
Defined.

Lemma find_proc_correct_witness : runs (find_proc 3) ex_table (fun r s' => s' = ex_table /\ r = Some 4).
Proof.
  eapply runs_mono; [apply (find_proc_correct ex_table 3 ex_table_hash)|].
  cbn beta. intros r s' [-> H]. split; [done|]. apply H. split; [vm_compute; done|]. split; [vm_compute; right; right; left|]. by eexists.
Defined.
