(* ===== verification/Family.v ===== *)
(** * The family tree of processes (set_links, remove_links, do_exit of proc.c)

    Each process points at its youngest child ([cptr]), each child at its parent and
    at its older and younger siblings ([optr], [yptr]).  [Tree m ch] says that these
    pointers spell the lists of children [ch]; linking, unlinking and adopting
    processes are then operations on the lists. *)

From stdpp Require Import base gmap list.
From Stdlib Require Import ZArith Lia Bool.
From S2P Require Import Prelude.
From S2P Require Import Dlist.
From S2P Require Import KState.
From S2P Require Import Sched.
From S2P Require Import SchedThm.
From S2P Require Import Proc.

Implicit Types (m : gmap Z proc_struct) (l : list Z) (ch : Z -> list Z).

Definition hd_or (l : list Z) (o : option Z) : option Z := match l with [] => o | c :: _ => Some c end.
Fixpoint last_or (o : option Z) (l : list Z) : option Z := match l with [] => o | c :: l => last_or (Some c) l end.

(** The siblings [l], children of [par], youngest first; [y] before them, [o] after. *)
Fixpoint seg m (par : Z) (y : option Z) (l : list Z) (o : option Z) : Prop :=
  match l with
  | [] => True
  | c :: l => (exists g, m !! c = Some g /\ parent g = Some par /\ yptr g = y /\ optr g = hd_or l o) /\ seg m par (Some c) l o
  end.

(** [yy p]: what the youngest child of [p] has as younger sibling. *)
Record TreeY (yy : Z -> option Z) m ch : Prop := {
  tr_cptr : forall p g, m !! p = Some g -> cptr g = head (ch p);
  tr_seg : forall p, seg m p (yy p) (ch p) None;
  tr_dom : forall p, ch p <> [] -> is_Some (m !! p);
  tr_nodup : forall p, NoDup (ch p)
}.
Abbreviation Tree := (TreeY (fun _ => None)).

Definition chupd {A} (f : Z -> A) (k : Z) (v : A) : Z -> A := fun x => if decide (x = k) then v else f x.
Lemma chupd_at {A} (f : Z -> A) k v : chupd f k v k = v.
Proof. unfold chupd. by rewrite decide_True. Qed.
Lemma chupd_other {A} (f : Z -> A) k v x : x <> k -> chupd f k v x = f x.
Proof. intros. unfold chupd. by rewrite decide_False. Qed.

(** ** Segments *)

(** What a segment reads of a process. *)
Definition links (g : proc_struct) : option Z * option Z * option Z := (parent g, yptr g, optr g).

(** Changing one field leaves the others. *)
Lemma alter_same {B} (h : proc_struct -> B) f p m x : (forall g, h (f g) = h g) -> h <$> alter f p m !! x = h <$> m !! x.
Proof. intros Hf. rewrite lookup_alter. case_decide as Hx; [subst x|done]. destruct (m !! p) as [g|]; [|done]. cbn. by rewrite Hf. Qed.

Lemma seg_frame m m' par l : forall y o,
  (forall c, c ∈ l -> links <$> m' !! c = links <$> m !! c) -> seg m par y l o -> seg m' par y l o.
Proof.
  induction l as [|c l IH]; intros y o Hl; [done|]. cbn [seg]. intros [(g&Hg&Hp&Hy&Ho) Hs]. split.
  - specialize (Hl c (list_elem_of_here _ _)). rewrite Hg in Hl. apply fmap_Some in Hl as (g'&Hg'&He). injection He as He1 He2 He3.
    exists g'. split; [done|]. by rewrite <-He1, <-He2, <-He3.
  - apply IH; [|done]. intros x Hx. apply Hl. by apply list_elem_of_further.
Qed.

Lemma seg_app m par l1 l2 : forall y o,
  seg m par y (l1 ++ l2) o <-> seg m par y l1 (hd_or l2 o) /\ seg m par (last_or y l1) l2 o.
Proof.
  induction l1 as [|c l1 IH]; intros y o; cbn [app seg last_or]; [tauto|]. rewrite IH.
  replace (hd_or (l1 ++ l2) o) with (hd_or l1 (hd_or l2 o)) by (by destruct l1). tauto.
Qed.

Lemma seg_in m par l c : forall y o, seg m par y l o -> c ∈ l -> exists g, m !! c = Some g /\ parent g = Some par.
Proof.
  induction l as [|x l IH]; intros y o; [by intros _ ?%elem_of_nil|]. intros [(g&?&?&_) Hs] [->|Hc]%elem_of_cons; [by exists g|by eapply IH].
Qed.

Lemma head_hd_or l : head l = hd_or l None.
Proof. by destruct l. Qed.

(** A new predecessor for the first sibling. *)
Lemma seg_set_y m par l y y' o :
  NoDup l -> seg m par y l o -> seg (match l with [] => m | c :: _ => alter (set_yptr y') c m end) par y' l o.
Proof.
  destruct l as [|c l]; [done|]. intros [Hc _]%NoDup_cons [(g&Hg&Hp&_&Ho) Hs]. split.
  - exists (set_yptr y' g). by rewrite lookup_alter_eq, Hg.
  - eapply seg_frame; [|exact Hs]. intros x Hx. rewrite lookup_alter_ne; [done|]. by intros ->.
Qed.

(** A new successor for the last one. *)
Lemma seg_set_o m par l c y o o' : NoDup (l ++ [c]) -> seg m par y (l ++ [c]) o -> seg (alter (set_optr o') c m) par y (l ++ [c]) o'.
Proof.
  intros Hnd. rewrite !seg_app. intros [H1 [(g&Hg&Hp&Hy&_) _]]. apply NoDup_app in Hnd as (_&Hd&_). split.
  - eapply seg_frame; [|exact H1]. intros x Hx. rewrite lookup_alter_ne; [done|]. intros ->. by apply (Hd x Hx), list_elem_of_here.
  - split; [|done]. exists (set_optr o' g). by rewrite lookup_alter_eq, Hg.
Qed.

Section TreeOps.
Context (yy : Z -> option Z).

Lemma tree_parent m ch p c : TreeY yy m ch -> c ∈ ch p -> exists g, m !! c = Some g /\ parent g = Some p.
Proof. intros HT Hc. by eapply seg_in; [apply (tr_seg _ _ _ HT p)|]. Qed.
Lemma tree_one_parent m ch p q c : TreeY yy m ch -> c ∈ ch p -> c ∈ ch q -> p = q.
Proof.
  intros HT Hp Hq. destruct (tree_parent _ _ _ _ HT Hp) as (g&Hg&H1), (tree_parent _ _ _ _ HT Hq) as (g'&Hg'&H2). congruence.
Qed.

(** The tree reads only the family pointers. *)
Definition fam (g : proc_struct) := (cptr g, links g).

Lemma tree_frame m m' ch : TreeY yy m ch -> (forall p, fam <$> m' !! p = fam <$> m !! p) -> TreeY yy m' ch.
Proof.
  intros [H1 H2 H3 H4] Hf.
  assert (Hb : forall p g', m' !! p = Some g' -> exists g, m !! p = Some g /\ fam g' = fam g).
  { intros p g' Hg'. specialize (Hf p). rewrite Hg' in Hf. symmetry in Hf. apply fmap_Some in Hf as (g&Hg&He). by exists g. }
  split; [..|done].
  - intros p g' Hg'. destruct (Hb _ _ Hg') as (g&Hg&He). injection He as -> _. by apply H1.
  - intros p. eapply seg_frame; [|apply H2]. intros c _. specialize (Hf c). destruct (m' !! c), (m !! c); cbn in *; [|done..]. injection Hf as He. unfold links. congruence.
  - intros p Hp. destruct (H3 p Hp) as [g Hg]. specialize (Hf p). rewrite Hg in Hf. destruct (m' !! p); [by eexists|done].
Qed.

Definition unlinked ch (c : Z) : Prop := forall q, c ∉ ch q.

(** Only the processes in the lists matter to the segments. *)
Lemma tree_frame_linked m m' ch :
  TreeY yy m ch -> (forall p, cptr <$> m' !! p = cptr <$> m !! p) ->
  (forall p, ~ unlinked ch p -> links <$> m' !! p = links <$> m !! p) -> TreeY yy m' ch.
Proof.
  intros [H1 H2 H3 H4] Hc Hl. split; [..|done].
  - intros p g' Hg'. specialize (Hc p). rewrite Hg' in Hc. symmetry in Hc. apply fmap_Some in Hc as (g&Hg&He). rewrite He. by apply H1.
  - intros p. eapply seg_frame; [|apply H2]. intros c Hin. apply Hl. intros Hu. by apply (Hu p).
  - intros p Hp. destruct (H3 p Hp) as [g Hg]. specialize (Hc p). rewrite Hg in Hc. destruct (m' !! p); [by eexists|done].
Qed.

(** The list of one process changes; no other list loses its pointers. *)
Lemma tree_change m m' ch par y l :
  TreeY yy m ch -> cptr <$> m' !! par = Some (head l) -> (forall q, q <> par -> cptr <$> m' !! q = cptr <$> m !! q) ->
  seg m' par y l None -> NoDup l -> (forall q x, q <> par -> x ∈ ch q -> links <$> m' !! x = links <$> m !! x) ->
  TreeY (chupd yy par y) m' (chupd ch par l).
Proof.
  intros [H1 H2 H3 H4] Hp Hc Hs Hnd Hl. split; intros q; (destruct (decide (q = par)) as [->|Hq]; [rewrite ?chupd_at|rewrite ?chupd_other by done]).
  - intros g Hg. rewrite Hg in Hp. by injection Hp.
  - intros g Hg. specialize (Hc q Hq). rewrite Hg in Hc. symmetry in Hc. apply fmap_Some in Hc as (h&Hh&He). rewrite He. by apply H1.
  - done.
  - eapply seg_frame; [|apply H2]. intros x Hx. by apply (Hl q).
  - intros _. apply fmap_Some in Hp as (h&Hh&_). by eexists.
  - intros Hne. destruct (H3 q Hne) as [h Hh]. specialize (Hc q Hq). rewrite Hh in Hc. destruct (m' !! q); [by eexists|done].
  - done.
  - apply H4.
Qed.

Lemma alter_cptr v p m : is_Some (m !! p) ->
  cptr <$> alter (set_cptr v) p m !! p = Some v /\ (forall q, q <> p -> cptr <$> alter (set_cptr v) p m !! q = cptr <$> m !! q) /\
  (forall q, links <$> alter (set_cptr v) p m !! q = links <$> m !! q).
Proof.
  intros [g Hg]. split; [by rewrite lookup_alter_eq, Hg|]. split; [intros q Hq; by rewrite lookup_alter_ne|]. intros q. by apply alter_same.
Qed.

(** The youngest child leaves; the next one still points at it. *)
Lemma tree_pop m ch p c l :
  TreeY yy m ch -> ch p = c :: l -> TreeY (chupd yy p (Some c)) (alter (set_cptr (head l)) p m) (chupd ch p l) /\ unlinked (chupd ch p l) c.
Proof.
  intros HT Hc. pose proof (tr_nodup _ _ _ HT p) as Hnd. rewrite Hc in Hnd. apply NoDup_cons in Hnd as [Hn Hnd]. split.
  - destruct (alter_cptr (head l) p m) as (Hp&Hq&Hl); [apply (tr_dom _ _ _ HT); by rewrite Hc|].
    apply (tree_change m); [done|done|done| |done|intros q x _ _; apply Hl]. eapply seg_frame with (m := m); [intros x _; apply Hl|].
    pose proof (tr_seg _ _ _ HT p) as Hs. rewrite Hc in Hs. apply Hs.
  - intros q. destruct (decide (q = p)) as [->|Hq]; [by rewrite chupd_at|rewrite chupd_other by done]. intros Hin. apply Hq.
    eapply (tree_one_parent _ _ q p c HT); [done|]. rewrite Hc. apply list_elem_of_here.
Qed.

(** A process becomes the youngest child of [par]. *)
Lemma tree_link m ch par c g :
  TreeY yy m ch -> unlinked ch c -> is_Some (m !! par) -> m !! c = Some g -> parent g = Some par -> yptr g = None -> optr g = head (ch par) ->
  TreeY (chupd yy par None)
    (alter (set_cptr (Some c)) par (match head (ch par) with None => m | Some o => alter (set_yptr (Some c)) o m end)) (chupd ch par (c :: ch par)).
Proof.
  intros HT Hu Hpar Hg Hgp Hgy Hgo. set (m1 := match head (ch par) with None => m | Some o => alter (set_yptr (Some c)) o m end).
  assert (Hm1 : forall x, cptr <$> m1 !! x = cptr <$> m !! x) by (intros x; unfold m1; destruct (head (ch par)); [by apply alter_same|done]).
  assert (Hl1 : forall x, x ∉ ch par -> m1 !! x = m !! x).
  { intros x Hx. unfold m1. destruct (ch par) as [|o l]; [done|]. cbn [head]. rewrite lookup_alter_ne; [done|]. intros ->. apply Hx, list_elem_of_here. }
  assert (Hp1 : is_Some (m1 !! par)) by (destruct Hpar as [h Hh]; specialize (Hm1 par); rewrite Hh in Hm1; destruct (m1 !! par); [by eexists|done]).
  destruct (alter_cptr (Some c) par m1 Hp1) as (Hp&Hq&Hl). apply (tree_change m); [done|done|intros q Hne; by rewrite Hq| | |].
  - eapply seg_frame with (m := m1); [intros x _; apply Hl|]. cbn [seg]. split.
    + exists g. rewrite Hl1 by apply Hu. by rewrite <-head_hd_or.
    + pose proof (seg_set_y m par (ch par) (yy par) (Some c) None (tr_nodup _ _ _ HT par) (tr_seg _ _ _ HT par)) as Hs. unfold m1. by destruct (ch par).
  - apply NoDup_cons. split; [apply Hu|apply (tr_nodup _ _ _ HT)].
  - intros q x Hne Hx. rewrite Hl. f_equal. apply Hl1. intros Hx2. apply Hne. by eapply (tree_one_parent m ch q par x).
Qed.

(** A child anywhere in the list leaves: its neighbours, or the parent, are
    redirected. *)
Definition unlink (g : proc_struct) (par : Z) m : gmap Z proc_struct :=
  let m1 := match optr g with Some o => alter (set_yptr (yptr g)) o m | None => m end in
  match yptr g with Some y => alter (set_optr (optr g)) y m1 | None => alter (set_cptr (optr g)) par m1 end.
End TreeOps.

Lemma last_or_app o l1 l2 : last_or o (l1 ++ l2) = last_or (last_or o l1) l2.
Proof. revert o. induction l1; intros o; cbn; auto. Qed.

(** The older siblings of the child that leaves, after the first assignment. *)
Lemma unlink_older m par c g l1 l2 :
  seg m par None (l1 ++ c :: l2) None -> NoDup (l1 ++ c :: l2) -> m !! c = Some g ->
  yptr g = last_or None l1 /\ optr g = hd_or l2 None /\
  exists m1, m1 = match optr g with Some o => alter (set_yptr (yptr g)) o m | None => m end /\
  seg m1 par None l1 (Some c) /\ seg m1 par (last_or None l1) l2 None /\ (forall x, x ∉ l2 -> m1 !! x = m !! x) /\
  (forall x, cptr <$> m1 !! x = cptr <$> m !! x).
Proof.
  intros Hs Hnd Hg. apply seg_app in Hs as [Hs1 [(g'&Hg'&_&Hy&Ho) Hs2]]. rewrite Hg in Hg'. injection Hg' as <-. split; [done|]. split; [done|].
  apply NoDup_app in Hnd as (Hn1&Hd&[Hc2 Hn2]%NoDup_cons). eexists. split; [done|]. rewrite Ho, Hy.
  assert (Hl : forall x, x ∉ l2 -> (match hd_or l2 None with Some o => alter (set_yptr (last_or None l1)) o m | None => m end) !! x = m !! x).
  { intros x Hx. destruct l2 as [|o l2]; [done|]. cbn. apply lookup_alter_ne. intros ->. apply Hx, list_elem_of_here. }
  split; [|split; [|split; [done|]]].
  - eapply seg_frame; [|exact Hs1]. intros x Hx. f_equal. apply Hl. specialize (Hd x Hx). rewrite elem_of_cons in Hd. tauto.
  - pose proof (seg_set_y m par l2 (Some c) (last_or None l1) None Hn2 Hs2) as Hx. by destruct l2.
  - intros x. destruct (hd_or l2 None); [by apply alter_same|done].
Qed.

Lemma tree_unlink m ch par c g l1 l2 :
  Tree m ch -> ch par = l1 ++ c :: l2 -> m !! c = Some g -> TreeY (chupd (fun _ => None) par None) (unlink g par m) (chupd ch par (l1 ++ l2)).
Proof.
  intros HT Hch Hg. pose proof (tr_nodup _ _ _ HT par) as Hnd. pose proof (tr_seg _ _ _ HT par) as Hs. rewrite Hch in Hnd, Hs.
  destruct (unlink_older m par c g l1 l2 Hs Hnd Hg) as (Hy&Ho&m1&Hm1&Hseg0&Hseg1&Hl&Hc). unfold unlink. rewrite <-Hm1.
  assert (Hp1 : is_Some (m1 !! par)).
  { destruct (tr_dom _ _ _ HT par) as [h Hh]; [rewrite Hch; by destruct l1|]. specialize (Hc par). rewrite Hh in Hc. destruct (m1 !! par); [by eexists|done]. }
  apply NoDup_app in Hnd as (Hn1&Hd&[Hc2 Hn2]%NoDup_cons).
  assert (Hnd' : NoDup (l1 ++ l2)) by (apply NoDup_app; split; [done|split; [|done]]; intros x Hx Hx2; apply (Hd x Hx); by apply list_elem_of_further).
  assert (Hoth : forall q x, q <> par -> x ∈ ch q -> x ∉ l1 ++ c :: l2) by (intros q x Hq Hx; rewrite <-Hch; intros Hx2; by apply Hq, (tree_one_parent _ m ch q par x HT)).
  destruct l1 as [|y l1' _] using rev_ind.
  - cbn [last_or app] in *. rewrite Hy. destruct (alter_cptr (optr g) par m1 Hp1) as (Hp&Hq&Hk).
    apply (tree_change _ m); [done|by rewrite Hp, head_hd_or, Ho|intros q Hne; by rewrite Hq| |done|].
    + eapply seg_frame; [|exact Hseg1]. intros x _. apply Hk.
    + intros q x Hne Hx. rewrite Hk. f_equal. apply Hl. specialize (Hoth q x Hne Hx). rewrite elem_of_cons in Hoth. tauto.
  - assert (Hyl : last_or None (l1' ++ [y]) = Some y) by (by rewrite last_or_app). rewrite Hyl in *. rewrite Hy.
    assert (Hyin : y ∈ l1' ++ [y]) by (apply elem_of_app; right; apply list_elem_of_here).
    assert (Hk : forall x, cptr <$> alter (set_optr (optr g)) y m1 !! x = cptr <$> m !! x) by (intros x; rewrite <-Hc; by apply alter_same).
    apply (tree_change _ m); [done| |done| |done|].
    + rewrite Hk. destruct (tr_dom _ _ _ HT par) as [h Hh]; [rewrite Hch; by destruct l1'|]. rewrite Hh. cbn. rewrite (tr_cptr _ _ _ HT _ _ Hh), Hch. by destruct l1'.
    + apply seg_app. split; [rewrite <-Ho; by eapply seg_set_o|]. rewrite Hyl. eapply seg_frame; [|exact Hseg1]. intros x Hx. f_equal. apply lookup_alter_ne.
      intros ->. apply (Hd x Hyin). by apply list_elem_of_further.
    + intros q x Hne Hx. specialize (Hoth q x Hne Hx). rewrite elem_of_app, elem_of_cons in Hoth. f_equal. rewrite lookup_alter_ne by (intros ->; tauto). apply Hl. tauto.
Qed.

Lemma tree_yy yy yy' m ch : (forall p, ch p <> [] -> yy p = yy' p) -> TreeY yy m ch -> TreeY yy' m ch.
Proof. intros He [H1 H2 H3 H4]. split; try done. intros p. specialize (H2 p). specialize (He p). destruct (ch p); [done|]. by rewrite <-He. Qed.
Lemma tree_same_yy m ch p o : TreeY (chupd (fun _ => None) p None) m ch -> TreeY (fun _ => None) m ch /\ (ch p = [] -> TreeY (chupd (fun _ => None) p o) m ch).
Proof.
  intros HT. assert (HT' : Tree m ch) by (eapply tree_yy; [|exact HT]; intros q _; unfold chupd; by case_decide). split; [done|].
  intros Hp. eapply tree_yy; [|exact HT']. intros q Hq. unfold chupd. case_decide; [congruence|done].
Qed.
Lemma tree_last_gone m ch p o : TreeY (chupd (fun _ => None) p o) m ch -> ch p = [] -> Tree m ch.
Proof. intros HT Hp. eapply tree_yy; [|exact HT]. intros q Hq. unfold chupd. case_decide; [congruence|done]. Qed.

(** ** The code *)

(** A process without its family. *)
Definition kin (g : proc_struct) : proc_struct := set_parent None (set_cptr None (set_yptr None (set_optr None g))).
Definition same_kin m m' : Prop := kin <$> m' = kin <$> m.

Lemma alter_kin f p m : (forall g, kin (f g) = kin g) -> same_kin m (alter f p m).
Proof. intros Hf. apply map_eq. intros x. rewrite !lookup_fmap. by apply alter_same. Qed.

Lemma upd_alter_runs (s : kst) p f (Q : unit -> kst -> Prop) :
  is_Some (procs s !! p) -> Q tt (set_procs (alter f p (procs s)) s) -> runs (upd_proc p f) s Q.
Proof.
  intros [g Hg] HQ. eapply upd_proc_runs; [exact Hg|]. replace (<[p := f g]> (procs s)) with (alter f p (procs s)); [done|].
  apply map_eq. intros x. rewrite lookup_alter, lookup_insert. case_decide; [subst; by rewrite Hg|done].
Qed.

Lemma alter_is_some f p (m : gmap Z proc_struct) x : is_Some (m !! x) -> is_Some (alter f p m !! x).
Proof. by rewrite lookup_alter_is_Some. Qed.

(** [set_links]: the process becomes the youngest child of its parent and enters the
    list of processes. *)
Lemma set_links_runs s ch par c g :
  Tree (procs s) ch -> unlinked ch c -> is_Some (procs s !! par) -> procs s !! c = Some g -> parent g = Some par ->
  runs (set_links c) s (fun _ s' => exists m',
    s' = set_nr_process (s32 (nr_process s + 1)) (set_procs m' (set_proc_list (c :: proc_list s) s)) /\
    Tree m' (chupd ch par (c :: ch par)) /\ same_kin (procs s) m' /\ (forall x, parent <$> m' !! x = parent <$> procs s !! x)).
Proof.
  intros HT Hu Hpar Hg Hgp. unfold set_links. runs_steps. eapply upd_alter_runs; [by eexists|]. runs_steps.
  cbn [procs set_procs set_proc_list]. set (m1 := alter (set_yptr None) c (procs s)).
  assert (Hg1 : m1 !! c = Some (set_yptr None g)) by (unfold m1; by rewrite lookup_alter_eq, Hg).
  eapply rd_proc_runs; [exact Hg1|]. runs_steps. eapply runs_deref; [exact Hgp|]. runs_steps.
  assert (Hpar1 : is_Some (m1 !! par)) by (by apply alter_is_some). destruct Hpar1 as [pg Hpg].
  eapply rd_proc_runs; [exact Hpg|]. runs_steps. eapply upd_alter_runs; [by eexists|]. runs_steps. cbn [procs set_procs set_proc_list].
  set (m2 := alter (set_optr (cptr pg)) c m1). assert (HT2 : Tree m2 ch).
  { eapply tree_frame_linked; [exact HT| |].
    - intros x. unfold m2. rewrite alter_same by done. by apply alter_same.
    - intros x Hx. unfold m2, m1. rewrite !lookup_alter_ne; [done|by intros ->..]. }
  assert (Hg2 : m2 !! c = Some (set_optr (cptr pg) (set_yptr None g))) by (unfold m2; by rewrite lookup_alter_eq, Hg1).
  assert (Hpg2 : is_Some (m2 !! par)) by (apply alter_is_some; by eexists).
  assert (Hcp : cptr pg = head (ch par)).
  { destruct Hpg2 as [h Hh]. rewrite <-(tr_cptr _ _ _ HT2 _ _ Hh). assert (Hf : cptr <$> m2 !! par = cptr <$> m1 !! par) by (by apply alter_same).
    rewrite Hh, Hpg in Hf. by injection Hf. }
  pose proof (tree_link _ m2 ch par c _ HT2 Hu Hpg2 Hg2 Hgp eq_refl Hcp) as HL. destruct (tree_same_yy _ _ par None HL) as [HT3 _]. rewrite <-Hcp in HT3.
  assert (Hin : forall o, cptr pg = Some o -> is_Some (m2 !! o)).
  { intros o Ho. rewrite Hcp in Ho. destruct (ch par) as [|o' l] eqn:Hc; [done|]. injection Ho as ->.
    destruct (tree_parent _ _ _ par o HT2) as (h&Hh&_); [rewrite Hc; apply list_elem_of_here|]. by eexists. }
  set (m3 := match cptr pg with None => m2 | Some o => alter (set_yptr (Some c)) o m2 end) in *.
  assert (Hstep : runs (match cptr pg with Some o => upd_proc o (set_yptr (Some c)) | None => ret tt end) (set_procs m2 (set_proc_list (c :: proc_list s) s))
    (fun _ s' => s' = set_procs m3 (set_proc_list (c :: proc_list s) s))).
  { unfold m3. destruct (cptr pg) as [o|]; [|by runs_steps]. eapply upd_alter_runs; [by apply Hin|]. done. }
  eapply runs_mono; [exact Hstep|]. cbn beta. intros _ s1 ->. runs_steps. eapply upd_alter_runs; [|runs_steps].
  { cbn. unfold m3. destruct (cptr pg); [by apply alter_is_some|done]. }
  exists (alter (set_cptr (Some c)) par m3). split; [done|]. split; [done|].
  assert (Hpres : forall B (h : proc_struct -> B), (forall v g, h (set_yptr v g) = h g) -> (forall v g, h (set_optr v g) = h g) -> (forall v g, h (set_cptr v g) = h g) ->
    forall x, h <$> alter (set_cptr (Some c)) par m3 !! x = h <$> procs s !! x).
  { intros B h Hy Ho Hc x. rewrite alter_same by done. transitivity (h <$> m2 !! x).
    - unfold m3. destruct (cptr pg); [by apply alter_same|done].
    - unfold m2. rewrite alter_same by done. by apply alter_same. }
  split; [|by apply Hpres]. apply map_eq. intros x. rewrite !lookup_fmap. by apply Hpres.
Qed.

(** [remove_links]: it leaves the list of its parent's children and the list of
    processes. *)
Lemma remove_links_runs s ch par c g l1 l2 :
  Tree (procs s) ch -> ch par = l1 ++ c :: l2 -> procs s !! c = Some g ->
  runs (remove_links c) s (fun _ s' => exists m',
    s' = set_nr_process (s32 (nr_process s - 1)) (set_procs m' (set_proc_list (ldel c (proc_list s)) s)) /\
    Tree m' (chupd ch par (l1 ++ l2)) /\ same_kin (procs s) m' /\ (forall x, parent <$> m' !! x = parent <$> procs s !! x)).
Proof.
  intros HT Hch Hg. destruct (tree_same_yy _ _ par None (tree_unlink _ ch par c g l1 l2 HT Hch Hg)) as [HT' _].
  pose proof (tr_nodup _ _ _ HT par) as Hnd. pose proof (tr_seg _ _ _ HT par) as Hs. rewrite Hch in Hnd, Hs.
  destruct (unlink_older _ par c g l1 l2 Hs Hnd Hg) as (Hy&Ho&_).
  assert (Hall : forall x, x ∈ l1 ++ c :: l2 -> is_Some (procs s !! x)) by (intros x Hx; destruct (seg_in _ _ _ x _ _ Hs Hx) as (h&Hh&_); by eexists).
  assert (Hpg : parent g = Some par) by (destruct (seg_in _ _ _ c _ _ Hs) as (h&Hh&Hp); [apply elem_of_app; right; apply list_elem_of_here|congruence]).
  unfold remove_links. runs_steps. cbn [procs set_proc_list]. eapply rd_proc_runs; [exact Hg|]. unfold unlink in HT'.
  set (m1 := match optr g with Some o => alter (set_yptr (yptr g)) o (procs s) | None => procs s end) in *. set (s0 := set_proc_list (ldel c (proc_list s)) s).
  runs_steps. eapply (runs_mono _ _ (fun _ s1 => s1 = set_procs m1 s0)).
  { unfold m1. destruct (optr g) as [o|] eqn:Hog; [|by runs_steps; destruct s]. eapply upd_alter_runs; [|done]. apply Hall.
    destruct l2 as [|x l2]; [done|]. injection Ho as ->. apply elem_of_app. right. right. left. }
  cbn beta. intros _ s1 ->. runs_steps. assert (Hm1 : forall x, is_Some (procs s !! x) -> is_Some (m1 !! x)) by (intros x Hx; unfold m1; destruct (optr g); [by apply alter_is_some|done]).
  eapply (runs_mono _ _ (fun _ s2 => s2 = set_procs (match yptr g with Some y => alter (set_optr (optr g)) y m1 | None => alter (set_cptr (optr g)) par m1 end) s0)).
  { destruct (yptr g) as [y|] eqn:Hyg.
    - eapply upd_alter_runs; [|done]. cbn. apply Hm1, Hall. destruct l1 as [|z l1 _] using rev_ind; [done|]. rewrite last_or_app in Hy. injection Hy as ->.
      apply elem_of_app. left. apply elem_of_app. right. left.
    - runs_steps. eapply runs_deref; [exact Hpg|]. eapply upd_alter_runs; [|done]. cbn. apply Hm1. apply (tr_dom _ _ _ HT). rewrite Hch. by destruct l1. }
  cbn beta. intros _ s2 ->. runs_steps. eexists. split; [done|]. split; [exact HT'|].
  assert (Hpres : forall B (h : proc_struct -> B), (forall v g, h (set_yptr v g) = h g) -> (forall v g, h (set_optr v g) = h g) -> (forall v g, h (set_cptr v g) = h g) ->
    forall x, h <$> (match yptr g with Some y => alter (set_optr (optr g)) y m1 | None => alter (set_cptr (optr g)) par m1 end) !! x = h <$> procs s !! x).
  { intros B h Hy' Ho' Hc' x. transitivity (h <$> m1 !! x); [destruct (yptr g); by apply alter_same|]. unfold m1. destruct (optr g); [by apply alter_same|done]. }
  split; [|by apply Hpres]. apply map_eq. intros x. rewrite !lookup_fmap. by apply Hpres.
Qed.

(** ** Adoption *)

(** A process without its family and without the scheduler's fields. *)
Definition core (g : proc_struct) : proc_struct := kin (score g).
Definition same_core m m' : Prop := core <$> m' = core <$> m.

#[export] Instance same_core_refl : Reflexive same_core.
Proof. done. Qed.
#[export] Instance same_core_trans : Transitive same_core.
Proof. unfold same_core. intros m1 m2 m3 H1 H2. congruence. Qed.

Lemma same_core_look m m' x g : same_core m m' -> m !! x = Some g -> exists g', m' !! x = Some g' /\ core g' = core g.
Proof.
  intros H Hx. apply (f_equal (fun m => m !! x)) in H. rewrite !lookup_fmap, Hx in H. destruct (m' !! x) as [g'|]; [|done].
  exists g'. split; [done|]. by apply (inj Some) in H.
Qed.
Lemma same_core_sym m m' : same_core m m' -> same_core m' m.
Proof. unfold same_core. congruence. Qed.
Lemma core_kin g : core g = score (kin g).
Proof. done. Qed.
Lemma same_kin_core m m' : same_kin m m' -> same_core m m'.
Proof.
  intros H. apply map_eq. intros x. apply (f_equal (fun m => m !! x)) in H. rewrite !lookup_fmap in *.
  destruct (m !! x), (m' !! x); cbn in *; try done. apply (inj Some) in H. rewrite !core_kin. by rewrite H.
Qed.
Lemma same_procs_core m m' : same_procs m m' -> same_core m m'.
Proof.
  intros H. apply map_eq. intros x. apply (f_equal (fun m => m !! x)) in H. rewrite !lookup_fmap in *.
  destruct (m !! x), (m' !! x); cbn in *; try done. apply (inj Some) in H. unfold core. by rewrite H.
Qed.
Lemma core_fields g g' : core g' = core g ->
  state g' = state g /\ wait_state g' = wait_state g /\ pid g' = pid g /\ exit_code g' = exit_code g /\ p_flags g' = p_flags g /\ p_mm g' = p_mm g /\ kstack g' = kstack g.
Proof.
  intros H. split_and!; [apply (f_equal state) in H|apply (f_equal wait_state) in H|apply (f_equal pid) in H|apply (f_equal exit_code) in H
    |apply (f_equal p_flags) in H|apply (f_equal p_mm) in H|apply (f_equal kstack) in H]; done.
Qed.
Lemma same_core_alter f p m m' : (forall g g', core g' = core g -> core (f g') = core (f g)) -> same_core m m' -> same_core (alter f p m) (alter f p m').
Proof.
  intros Hf H. apply map_eq. intros x. apply (f_equal (fun m => m !! x)) in H. rewrite !lookup_fmap in *. rewrite !lookup_alter.
  case_decide; [subst x|done]. destruct (m !! p), (m' !! p); cbn in *; try done. apply (inj Some) in H. by rewrite (Hf _ _ H).
Qed.
Lemma awake_core g g' : core g' = core g -> core (awake g') = core (awake g).
Proof. intros H. change (core (awake g')) with (awake (core g')). change (core (awake g)) with (awake (core g)). by rewrite H. Qed.

(** The scheduler's fields do not carry the family. *)
Lemma same_procs_fam m m' : same_procs m m' -> forall p, fam <$> m' !! p = fam <$> m !! p.
Proof.
  intros H p. apply (f_equal (fun m => m !! p)) in H. rewrite !lookup_fmap in H. destruct (m !! p) as [g|], (m' !! p) as [g'|]; cbn in *; try done.
  apply (inj Some) in H. f_equal. change (fam (score g') = fam (score g)). congruence.
Qed.

(** The assignments that give [c], the youngest child of [cur], to [init]. *)
Definition adopt (cur init c : Z) (rest l : list Z) m : gmap Z proc_struct :=
  let m1 := alter (set_optr (head l)) c (alter (set_yptr None) c (alter (set_cptr (head rest)) cur m)) in
  let m2 := match head l with Some o => alter (set_yptr (Some c)) o m1 | None => m1 end in
  alter (set_cptr (Some c)) init (alter (set_parent (Some init)) c m2).

Lemma adopt_tree m ch cur init c rest y :
  TreeY (chupd (fun _ => None) cur y) m ch -> ch cur = c :: rest -> cur <> init -> is_Some (m !! init) ->
  TreeY (chupd (fun _ => None) cur (Some c)) (adopt cur init c rest (ch init) m) (chupd (chupd ch cur rest) init (c :: ch init)).
Proof.
  intros HT Hch Hne [gi Hgi]. destruct (tree_parent _ _ _ cur c HT) as (g&Hg&_); [rewrite Hch; apply list_elem_of_here|].
  destruct (tree_pop _ m ch cur c rest HT Hch) as [HT1 Hu]. set (ch1 := chupd ch cur rest) in *. assert (Hci : ch1 init = ch init) by (by apply chupd_other).
  set (mA := alter (set_cptr (head rest)) cur m) in *.
  set (mC := alter (set_parent (Some init)) c (alter (set_optr (head (ch init))) c (alter (set_yptr None) c mA))).
  assert (HgA : exists gA, mA !! c = Some gA) by (apply alter_is_some; by eexists). destruct HgA as [gA HgA].
  assert (HTC : TreeY (chupd (chupd (fun _ => None) cur y) cur (Some c)) mC ch1).
  { eapply tree_frame_linked; [exact HT1| |].
    - intros x. unfold mC. rewrite !alter_same by done. done.
    - intros x Hx. unfold mC. rewrite !lookup_alter_ne; [done|by intros ->..]. }
  assert (HgC : mC !! c = Some (set_parent (Some init) (set_optr (head (ch init)) (set_yptr None gA)))) by (unfold mC; by rewrite !lookup_alter_eq, HgA).
  assert (HiC : is_Some (mC !! init)) by (repeat apply alter_is_some; by eexists).
  pose proof (tree_link _ mC ch1 init c _ HTC Hu HiC HgC eq_refl eq_refl) as HL. rewrite Hci in HL. specialize (HL eq_refl).
  replace (adopt cur init c rest (ch init) m) with (alter (set_cptr (Some c)) init (match head (ch init) with None => mC | Some o => alter (set_yptr (Some c)) o mC end)).
  - eapply tree_yy; [|exact HL]. intros p _. unfold chupd. repeat case_decide; congruence.
  - unfold adopt. f_equal. unfold mC, mA. destruct (head (ch init)) as [o|] eqn:Ho; [|done]. apply alter_alter_ne. intros ->.
    apply (Hu init). rewrite Hci. destruct (ch init); [done|]. injection Ho as ->. apply list_elem_of_here.
Qed.

Lemma adopt_kin m cur init c rest l : same_kin m (adopt cur init c rest l m).
Proof.
  apply map_eq. intros x. rewrite !lookup_fmap. unfold adopt. destruct (head l); by rewrite !alter_same.
Qed.

Section Adopt.
Context {sc : sched_class} `{!SchedOk sc}.
Implicit Types (s : kst).
Abbreviation SInv := (SInv (sc := sc)).

Lemma SInv_core s m' : SInv s -> same_core (procs s) m' -> SInv (set_procs m' s).
Proof.
  intros HI Hc. assert (Hget : forall x g, procs s !! x = Some g -> exists g', m' !! x = Some g' /\ state g' = state g).
  { intros x g Hx. destruct (same_core_look _ _ _ _ Hc Hx) as (g'&?&He). exists g'. split; [done|]. by apply core_fields. }
  split; cbn.
  - apply HI.
  - intros p Hp. destruct (si_queued s HI p Hp) as (?&?&g&Hg&Hst). split; [done|]. split; [done|]. destruct (Hget _ _ Hg) as (g'&?&He). exists g'. by rewrite He.
  - intros p g' Hg' Hst. destruct (same_core_look _ _ _ _ (same_core_sym _ _ Hc) Hg') as (g&Hg&He). apply (si_all s HI p g Hg). destruct (core_fields _ _ He) as (->&_). done.
  - destruct (si_current s HI) as [g Hg]. destruct (Hget _ _ Hg) as (g'&?&_). by eexists.
  - destruct (si_idle s HI) as (g&Hg&Hst). destruct (Hget _ _ Hg) as (g'&?&He). exists g'. by rewrite He.
Qed.

Definition is_zombie m (c : Z) : Prop := exists g, m !! c = Some g /\ state g = PROC_ZOMBIE.
Definition is_waiting m (p : Z) : Prop := exists g, m !! p = Some g /\ wait_state g = WT_CHILD.

#[export] Instance is_zombie_dec m c : Decision (is_zombie m c).
Proof. unfold is_zombie. destruct (m !! c) as [g|] eqn:H; [destruct (decide (state g = PROC_ZOMBIE))|]; [left; eauto|right..]; intros (?&?&?); congruence. Defined.
#[export] Instance is_waiting_dec m p : Decision (is_waiting m p).
Proof. unfold is_waiting. destruct (m !! p) as [g|] eqn:H; [destruct (decide (wait_state g = WT_CHILD))|]; [left; eauto|right..]; intros (?&?&?); congruence. Defined.

(** A process that waits for a child sleeps, and [p] is not a zombie. *)
Definition waiter_ok m (p : Z) : Prop := exists g, m !! p = Some g /\ state g <> PROC_ZOMBIE /\ (wait_state g = WT_CHILD -> state g = PROC_SLEEPING).

(** [if (p->wait_state == WT_CHILD) wakeup_proc(p)] *)
Lemma wake_waiter_runs s p :
  SInv s -> waiter_ok (procs s) p ->
  runs (let! g := rd_proc p in if wait_state g =? WT_CHILD then wakeup_proc sc p else ret tt) s (fun _ s' =>
    SInv s' /\ s' = set_procs (procs s') (set_rq (rq s') s) /\
    (forall x, fam <$> procs s' !! x = fam <$> procs s !! x) /\
    same_core (if decide (is_waiting (procs s) p) then alter awake p (procs s) else procs s) (procs s')).
Proof.
  intros HI (g&Hg&Hz&Hw). runs_steps. eapply rd_proc_runs; [exact Hg|]. destruct (Z.eqb_spec (wait_state g) WT_CHILD) as [He|He].
  - rewrite decide_True by (by exists g). eapply runs_mono; [by apply (wakeup_runs s p g)|]. cbn beta. intros _ s' (HI'&Hs'&Hsame).
    rewrite decide_False in Hsame by (rewrite Hw; done). split; [done|]. split; [done|].
    assert (Hal : <[p := awake g]> (procs s) = alter awake p (procs s)) by (apply map_eq; intros x; rewrite lookup_insert, lookup_alter; case_decide; [subst; by rewrite Hg|done]).
    rewrite Hal in Hsame. apply same_procs_sym in Hsame. split; [|by apply same_procs_core].
    intros x. rewrite (same_procs_fam _ _ Hsame x). by apply alter_same.
  - rewrite decide_False by (intros (g'&Hg'&?); congruence). runs_steps. split; [done|]. split; [by destruct s|]. done.
Qed.

(** The children of [cur] after they were given to [init]. *)
Definition adopted ch (cur init : Z) : Z -> list Z := chupd (chupd ch cur []) init (rev (ch cur) ++ ch init).

Lemma waiter_ok_core m m' p : waiter_ok m p -> same_core m m' -> waiter_ok m' p.
Proof.
  intros (g&Hg&Hz&Hw) Hc. destruct (same_core_look _ _ _ _ Hc Hg) as (g'&Hg'&He). destruct (core_fields _ _ He) as (Hs&Hws&_).
  exists g'. rewrite Hs, Hws. done.
Qed.
Lemma is_zombie_core m m' c : same_core m m' -> is_zombie m c <-> is_zombie m' c.
Proof.
  intros Hc. split; intros (g&Hg&Hz); (eapply same_core_look in Hg as (g'&Hg'&He); [|first [exact Hc|by apply same_core_sym]]);
    exists g'; destruct (core_fields _ _ He) as (->&_); done.
Qed.
Lemma is_waiting_core m m' c : same_core m m' -> is_waiting m c <-> is_waiting m' c.
Proof.
  intros Hc. split; intros (g&Hg&Hz); (eapply same_core_look in Hg as (g'&Hg'&He); [|first [exact Hc|by apply same_core_sym]]);
    exists g'; destruct (core_fields _ _ He) as (_&->&_); done.
Qed.

(** The assignments of one round. *)
Lemma adopt_runs s ch cur init c rest y (k : M kst unit) Q :
  TreeY (chupd (fun _ => None) cur y) (procs s) ch -> ch cur = c :: rest -> cur <> init -> is_Some (procs s !! init) ->
  runs k (set_procs (adopt cur init c rest (ch init) (procs s)) s) Q ->
  runs (let! g := rd_proc c in
        do! upd_proc cur (set_cptr (optr g)) in
        do! upd_proc c (set_yptr None) in
        let! ig := rd_proc init in
        do! upd_proc c (set_optr (cptr ig)) in
        do! match cptr ig with Some o => upd_proc o (set_yptr (Some c)) | None => ret tt end in
        do! upd_proc c (set_parent (Some init)) in
        do! upd_proc init (set_cptr (Some c)) in k) s Q.
Proof.
  intros HT Hch Hne [gi Hgi] Hk. pose proof (tr_seg _ _ _ HT cur) as Hs. rewrite Hch in Hs. destruct Hs as [(g&Hg&_&_&Ho) _]. rewrite <-head_hd_or in Ho.
  destruct (tr_dom _ _ _ HT cur) as [gc Hgc]; [by rewrite Hch|].
  runs_steps. eapply rd_proc_runs; [exact Hg|]. runs_steps. rewrite Ho. eapply upd_alter_runs; [by eexists|]. runs_steps.
  eapply upd_alter_runs; [cbn; apply alter_is_some; by eexists|]. runs_steps. cbn [procs set_procs].
  set (mB := alter (set_yptr None) c (alter (set_cptr (head rest)) cur (procs s))).
  assert (HiB : is_Some (mB !! init)) by (repeat apply alter_is_some; by eexists). destruct HiB as [ig Hig].
  assert (Hcp : cptr ig = head (ch init)).
  { assert (Hf : cptr <$> mB !! init = cptr <$> procs s !! init) by (unfold mB; rewrite alter_same by done; by rewrite lookup_alter_ne).
    rewrite Hig, Hgi in Hf. injection Hf as ->. by apply (tr_cptr _ _ _ HT). }
  eapply rd_proc_runs; [exact Hig|]. rewrite Hcp. runs_steps. eapply upd_alter_runs; [cbn; repeat apply alter_is_some; by eexists|]. runs_steps. cbn [procs set_procs].
  set (mC := alter (set_optr (head (ch init))) c mB). assert (HcC : is_Some (mC !! c)) by (repeat apply alter_is_some; by eexists).
  eapply (runs_mono _ _ (fun _ s1 => s1 = set_procs (match head (ch init) with Some o => alter (set_yptr (Some c)) o mC | None => mC end) s)).
  { destruct (ch init) as [|o l] eqn:Hci; cbn [head]; [by runs_steps|]. eapply upd_alter_runs; [|done]. cbn. repeat apply alter_is_some.
    destruct (tree_parent _ _ _ init o HT) as (h&Hh&_); [rewrite Hci; apply list_elem_of_here|]. by eexists. }
  cbn beta. intros _ s1 ->. runs_steps. assert (HD : forall x, is_Some (mC !! x) -> is_Some ((match head (ch init) with Some o => alter (set_yptr (Some c)) o mC | None => mC end) !! x)).
  { intros x Hx. destruct (head (ch init)); [by apply alter_is_some|done]. }
  eapply upd_alter_runs; [by apply HD|]. runs_steps. eapply upd_alter_runs; [cbn; apply alter_is_some, HD; repeat apply alter_is_some; by eexists|]. exact Hk.
Qed.

Lemma tree_ext yy m ch ch' : (forall p, ch p = ch' p) -> TreeY yy m ch -> TreeY yy m ch'.
Proof. intros He [H1 H2 H3 H4]. split; intros p; rewrite <-He; auto. Qed.

Lemma awake_waiter m p : is_Some (m !! p) -> waiter_ok (alter awake p m) p /\ ~ is_waiting (alter awake p m) p.
Proof.
  intros [g Hg]. assert (Hl : alter awake p m !! p = Some (awake g)) by (by rewrite lookup_alter_eq, Hg). split.
  - by exists (awake g).
  - intros (g'&Hg'&Hw). rewrite Hl in Hg'. injection Hg' as <-. done.
Qed.
Lemma awake_zombie m p c : c <> p -> is_zombie (alter awake p m) c <-> is_zombie m c.
Proof. intros. unfold is_zombie. by rewrite lookup_alter_ne. Qed.

(** The wakeups of two parts of the list make one. *)
Lemma wakes_compose m m2 m3 init c rest :
  is_Some (m !! init) ->
  same_core (if decide (is_waiting m init /\ is_zombie m c) then alter awake init m else m) m2 ->
  same_core (if decide (is_waiting m2 init /\ Exists (is_zombie m2) rest) then alter awake init m2 else m2) m3 ->
  same_core (if decide (is_waiting m init /\ Exists (is_zombie m) (c :: rest)) then alter awake init m else m) m3.
Proof.
  intros Hi H2 H3. destruct (decide (is_waiting m init /\ is_zombie m c)) as [[Hw Hz]|Hn].
  - rewrite (decide_True (P := is_waiting m init /\ _)) by (split; [done|by left]). rewrite decide_False in H3; [by etrans|].
    intros [Hw2 _]. apply (is_waiting_core _ _ _ H2) in Hw2. by eapply awake_waiter.
  - assert (Hiff : is_waiting m2 init /\ Exists (is_zombie m2) rest <-> is_waiting m init /\ Exists (is_zombie m) (c :: rest)).
    { rewrite <-(is_waiting_core _ _ init H2), Exists_cons, !Exists_exists. split.
      - intros [Hw (x&Hx&Hz)]. split; [done|]. right. exists x. split; [done|]. by apply (is_zombie_core _ _ x H2).
      - intros [Hw [Hz|(x&Hx&Hz)]]; [tauto|]. split; [done|]. exists x. split; [done|]. by apply (is_zombie_core _ _ x H2). }
    destruct (decide (is_waiting m2 init /\ _)) as [H|H], (decide (is_waiting m init /\ Exists _ (c :: rest))) as [H'|H']; [|tauto..|by etrans].
    etrans; [|exact H3]. apply same_core_alter; [apply awake_core|done].
Qed.

Lemma reparent_loop_runs cur init : cur <> init -> forall fuel s ch y,
  SInv s -> TreeY (chupd (fun _ => None) cur y) (procs s) ch -> init ∉ ch cur -> waiter_ok (procs s) init -> (length (ch cur) <= fuel)%nat ->
  is_Some (procs s !! cur) ->
  runs (reparent_loop sc fuel cur init) s (fun _ s' =>
    SInv s' /\ s' = set_procs (procs s') (set_rq (rq s') s) /\ Tree (procs s') (adopted ch cur init) /\
    same_core (if decide (is_waiting (procs s) init /\ Exists (is_zombie (procs s)) (ch cur)) then alter awake init (procs s) else procs s) (procs s')).
Proof.
  intros Hne. induction fuel as [|fuel IH]; intros s ch y HI HT Hnin Hw Hfuel [gc Hgc]; pose proof (tr_cptr _ _ _ HT _ _ Hgc) as Hcp;
    (destruct (ch cur) as [|c rest] eqn:Hch; cbn [head] in Hcp; [|cbn [length] in Hfuel]); cbn [reparent_loop]; [|lia| |].
  1, 2: runs_steps; (eapply rd_proc_runs; [exact Hgc|]); rewrite Hcp; runs_steps; (split; [done|]); (split; [by destruct s|]); split;
    [eapply tree_ext; [|by eapply tree_last_gone]; intros p; unfold adopted, chupd; rewrite Hch; repeat case_decide; subst; done
    |rewrite decide_False; [done|]; by intros [_ ?%Exists_nil]].
  runs_steps. eapply rd_proc_runs; [exact Hgc|]. rewrite Hcp. destruct Hw as (gi&Hgi&Hw'). assert (Hw : waiter_ok (procs s) init) by (by exists gi).
  apply (adopt_runs s ch cur init c rest y); [done|done|done|by eexists|]. set (m1 := adopt cur init c rest (ch init) (procs s)).
  pose proof (same_kin_core _ _ (adopt_kin (procs s) cur init c rest (ch init))) as Hc1. fold m1 in Hc1.
  pose proof (adopt_tree _ _ _ _ _ _ _ HT Hch Hne ltac:(by eexists)) as HT1. fold m1 in HT1. set (ch1 := chupd (chupd ch cur rest) init (c :: ch init)) in *.
  assert (Hcin : c ∈ ch cur) by (rewrite Hch; apply list_elem_of_here). destruct (tree_parent _ _ _ _ _ HT Hcin) as (g&Hg&_).
  destruct (same_core_look _ _ _ _ Hc1 Hg) as (g1&Hg1&He1). assert (Hst : state g1 = state g) by (by apply core_fields).
  runs_steps. eapply rd_proc_runs; [exact Hg1|]. runs_steps.
  eapply (runs_mono _ _ (fun _ s2 => SInv s2 /\ s2 = set_procs (procs s2) (set_rq (rq s2) s) /\ (forall x, fam <$> procs s2 !! x = fam <$> m1 !! x) /\
    same_core (if decide (is_waiting (procs s) init /\ is_zombie (procs s) c) then alter awake init (procs s) else procs s) (procs s2))).
  { assert (HI1 : SInv (set_procs m1 s)) by (by apply SInv_core). destruct (decide (state g1 = PROC_ZOMBIE)) as [Hz|Hz].
    - eapply runs_mono; [apply (wake_waiter_runs (set_procs m1 s) init HI1); by eapply waiter_ok_core|]. cbn beta. intros _ s2 (HI2&Hs2&Hf2&Hc2).
      split; [done|]. split; [by rewrite Hs2|]. split; [done|]. cbn [procs set_procs] in Hc2.
      assert (Hzc : is_zombie (procs s) c) by (exists g; by rewrite <-Hst). pose proof (is_waiting_core _ _ init Hc1) as Hwi.
      destruct (decide (is_waiting m1 init)) as [H|H], (decide (is_waiting (procs s) init /\ _)) as [H'|H']; [|tauto..|by etrans].
      etrans; [|exact Hc2]. apply same_core_alter; [apply awake_core|done].
    - runs_steps. split; [done|]. split; [by destruct s|]. split; [done|]. rewrite decide_False; [done|]. intros [_ (g'&Hg'&?)]. congruence. }
  cbn beta. intros _ s2 (HI2&Hs2&Hf2&Hc2). assert (Hcur2 : is_Some (procs s2 !! cur)).
  { destruct (same_core_look _ _ _ _ Hc1 Hgc) as (h&Hh&_). specialize (Hf2 cur). rewrite Hh in Hf2. destruct (procs s2 !! cur); [by eexists|done]. }
  assert (Hr1 : ch1 cur = rest) by (unfold ch1; rewrite chupd_other by done; apply chupd_at).
  eapply runs_mono; [apply (IH s2 ch1 (Some c)); [done|by eapply tree_frame| | |rewrite Hr1; lia|done]|].
  - rewrite Hr1. intros Hx. apply Hnin. by apply list_elem_of_further.
  - eapply waiter_ok_core; [|exact Hc2]. destruct (decide _); [|done]. apply awake_waiter. by eexists.
  - cbn beta. rewrite Hr1. intros _ s3 (HI3&Hs3&HT3&Hc3). split; [done|]. split; [by rewrite Hs3, Hs2|]. split.
    + eapply tree_ext; [|exact HT3]. intros p. unfold adopted. rewrite Hr1, Hch. cbn [rev]. rewrite <-app_assoc.
      unfold ch1, chupd. rewrite (decide_True (P := init = init)) by done. destruct (decide (p = init)); [done|]. by destruct (decide (p = cur)).
    + eapply wakes_compose; [by eexists|exact Hc2|exact Hc3].
Qed.
End Adopt.
