(* ===== verification/ExitThm.v ===== *)
(** * Exiting, waiting and killing (do_exit, do_wait, do_kill of proc.c)

    [do_exit] composes every component: the address space and its page directory are
    released with the last process that uses them (VmmThm.v), so is the file map
    (FileThm.v), the parent is woken, the children go to [init] (Family.v) and
    another process runs (SchedThm.v).  The search of [do_wait] is exact, and
    [do_kill] marks exactly the process asked for. *)

From stdpp Require Import base gmap list.
From Stdlib Require Import ZArith Lia Bool.
From S2P Require Import Prelude.
From S2P Require Import Atomic.
From S2P Require Import Dlist.
From S2P Require Import Buddy.
From S2P Require Import Pmm.
From S2P Require Import PageTable.
From S2P Require Import PageTableInv.
From S2P Require Import PageTableOps.
From S2P Require Import PageTableThm.
From S2P Require Import Vmm.
From S2P Require Import VmmThm.
From S2P Require Import KState.
From S2P Require Import Sched.
From S2P Require Import SchedThm.
From S2P Require Import Vfs.
From S2P Require Import VfsInv.
From S2P Require Import FileThm.
From S2P Require Import Proc.
From S2P Require Import ProcThm.
From S2P Require Import Family.

(** ** The process table *)

(** Lists of children, list and hash of processes agree; identifiers are in range and
    differ. *)
Record PTable (k : kst) (ch : Z -> list Z) : Prop := {
  pt_tree : Tree (procs k) ch;
  pt_hash : HashInv k;
  pt_all : forall c, c ∈ proc_list k <-> exists q, c ∈ ch q;
  pt_nodup : NoDup (proc_list k);
  pt_pid : forall c g, c ∈ proc_list k -> procs k !! c = Some g -> 0 < pid g < MAX_PID
}.

(** The processes keep their identifiers and stay linked. *)
Lemma PTable_pids k k' ch ch' :
  PTable k ch -> Tree (procs k') ch' -> proc_list k' = proc_list k -> hash_list k' = hash_list k ->
  (forall c, pid <$> procs k' !! c = pid <$> procs k !! c) -> (forall c, (exists q, c ∈ ch' q) <-> (exists q, c ∈ ch q)) -> PTable k' ch'.
Proof.
  intros [HT [H1 H2 H3 H4 H5] Ha Hn Hp] HT' Hl Hh Hpid Hch.
  assert (Hb : forall c g', procs k' !! c = Some g' -> exists g, procs k !! c = Some g /\ pid g' = pid g).
  { intros c g' Hg'. specialize (Hpid c). rewrite Hg' in Hpid. symmetry in Hpid. apply fmap_Some in Hpid as (g&Hg&He). by exists g. }
  assert (Hbk : forall h, bucket k' h = bucket k h) by (intros h; unfold bucket; by rewrite Hh). split; [done| |..]; rewrite ?Hl.
  - split; unfold pids_known; rewrite ?Hl.
    + intros h p. rewrite Hbk. apply H1.
    + intros h p g'. rewrite Hbk. intros Hin Hg'. destruct (Hb _ _ Hg') as (g&Hg&->). by apply (H2 h p).
    + intros p g' Hin Hg'. destruct (Hb _ _ Hg') as (g&Hg&->). rewrite Hbk. by apply H3.
    + intros p Hin. destruct (H4 p Hin) as [g Hg]. specialize (Hpid p). rewrite Hg in Hpid. destruct (procs k' !! p); [by eexists|done].
    + intros p q g' h' Hpi Hqi Hg' Hh' He. destruct (Hb _ _ Hg') as (g&Hg&E1), (Hb _ _ Hh') as (h&Hh2&E2). apply (H5 p q g h); congruence.
  - intros c. rewrite Hch. apply Ha.
  - done.
  - intros c g' Hin Hg'. destruct (Hb _ _ Hg') as (g&Hg&->). by apply (Hp c).
Qed.

Lemma elem_of_rev (c : Z) l : c ∈ rev l <-> c ∈ l.
Proof. rewrite !list_elem_of_In. symmetry. apply in_rev. Qed.

Lemma adopted_linked ch cur init c : cur <> init -> (exists q, c ∈ adopted ch cur init q) <-> (exists q, c ∈ ch q).
Proof.
  intros Hne. unfold adopted. split.
  - intros [q Hq]. unfold chupd in Hq. repeat case_decide; [apply elem_of_app in Hq as [Hq|Hq]; [exists cur; by apply elem_of_rev|by exists init]|by apply elem_of_nil in Hq|by exists q].
  - intros [q Hq]. destruct (decide (q = cur)) as [->|]; [exists init; rewrite chupd_at; apply elem_of_app; left; by apply elem_of_rev|].
    destruct (decide (q = init)) as [->|]; [exists init; rewrite chupd_at; apply elem_of_app; by right|]. exists q. by rewrite !chupd_other.
Qed.

Lemma same_core_pid m m' : same_core m m' -> forall c, pid <$> m' !! c = pid <$> m !! c.
Proof.
  intros H c. apply (f_equal (fun m => m !! c)) in H. rewrite !lookup_fmap in H. destruct (m !! c) as [g|], (m' !! c) as [g'|]; cbn in *; try done.
  apply (inj Some) in H. f_equal. by apply core_fields.
Qed.

(** ** The page directory *)

Section Directory.
Context {pm : pmm_manager} `{!PmmOk pm}.
Implicit Types (a : aspace) (s : vm).

(** A directory without page tables is given back. *)
Lemma VRep_undir dl a s s' x :
  VRep dl a s -> x ∈ dirs a -> (forall i, tbls a !! (x, i) = None) ->
  pm_inv (vpm s') -> npage (vpm s') = npage (vpm s) -> PageTable.status s' = PageTable.status s -> mem s' = mem s ->
  (forall y, y <> x -> pm_owned (vpm s) y -> pm_owned (vpm s') y /\ pages (vpm s') !! y = pages (vpm s) !! y) ->
  VRep dl (mkAs (dirs a ∖ {[x]}) (tbls a) (maps a) (upages a)) s'.
Proof.
  intros HV Hx Hno HI Hn Hs Hm Hpres. destruct (r_dir _ _ _ HV _ Hx) as (_&Hxu&Hxt). destruct HV as [_ ? ? r_dir0 r_tbl0 ? r_pde0 ? ? r_upage0]. split; cbn; rewrite ?Hn, ?Hs, ?Hm; try done.
  - intros y [Hy Hne]%elem_of_difference. rewrite elem_of_singleton in Hne. destruct (r_dir0 y Hy) as (Hoy&?&?). split; [by apply Hpres|done].
  - intros y i t Ht. destruct (r_tbl0 _ _ _ Ht) as (Hy&?&?&?). split; [apply elem_of_difference; split; [done|rewrite elem_of_singleton; intros ->; congruence]|].
    split; [done|]. split; [|done]. apply Hpres; [|done]. intros ->. apply Hxt. by eexists.
  - intros y i [Hy _]%elem_of_difference Hi. by apply r_pde0.
  - intros p Hp. destruct (r_upage0 p Hp) as (Hop&pg&Hpg&Hr). assert (p <> x) by (by intros ->). destruct (Hpres p) as [? He]; [done|done|].
    split; [done|]. exists pg. by rewrite He.
Qed.

Lemma put_pgdir_runs a s mm x :
  VRep nodl a s -> TlbOk a s -> pgdir mm = kva x -> x ∈ dirs a -> (forall i, tbls a !! (x, i) = None) ->
  runs (put_pgdir pm mm) s (fun _ s' =>
    let a' := mkAs (dirs a ∖ {[x]}) (tbls a) (maps a) (upages a) in
    VRep nodl a' s' /\ TlbOk a' s' /\ ledger a (vpm s) a' (vpm s')).
Proof.
  intros HV HT Hp Hx Hno. pose proof (r_npage _ _ _ HV) as Hnp.
  assert (Hxb : 0 <= x < npage (vpm s)) by (eapply owned_npage, (r_dir _ _ _ HV _ Hx); done).
  unfold put_pgdir, kva2page, PADDR, pa2page. rewrite Hp. destruct (Z.ltb_spec (kva x) KERNBASE); [exfalso; addr; lia|]. runs_steps.
  rewrite <- (Z.add_0_r (kva x)), PPN_kva by lia. destruct (Z.leb_spec (npage (vpm s)) x); [lia|]. runs_steps.
  eapply runs_mono; [apply free_page_runs; [apply HV|apply HV|by apply (r_dir _ _ _ HV)]|]. cbn beta.
  intros _ s' (He&HI&Hn&Hnox&Hpres&Hback&_). split; [apply (VRep_undir nodl a s); try done; by rewrite He|].
  destruct (r_dir _ _ _ HV _ Hx) as (_&Hxu&Hxt). split.
  2:{ apply (ledger_shrink nodl); [done|..]; unfold as_page, is_table in *; cbn [dirs tbls upages].
      - intros y [[? _]%elem_of_difference|?]; [by left|by right].
      - done.
      - intros y Hy Has. apply Hpres; [|done]. intros ->. destruct (Has (or_introl Hx)) as [[_ Hd]%elem_of_difference|[?|?]]; [|done..]. by apply Hd, elem_of_singleton.
      - intros y [Hy|?] Hn'; [|by destruct Hn'; right]. destruct (decide (y = x)) as [->|Hne]; [done|]. destruct Hn'. left.
        apply elem_of_difference. by rewrite elem_of_singleton. }
  intros i e d Hi Hl Hc [Hd _]%elem_of_difference. rewrite He in Hl, Hc. by apply (HT i e d).
Qed.
End Directory.

(** ** The address space of a process that exits *)

(** The structure [mm] describes the mappings of the directory [x]. *)
Record MmOk `{!PmmOk pm} (a : aspace) (mm : mm_struct) (x : Z) : Prop := {
  mo_wf : mm_wf mm;
  mo_dir : pgdir mm = kva x;
  mo_in : x ∈ dirs a;
  mo_maps : forall v p, maps a !! (x, v) = Some p -> in_areas (mmap_list mm) v;
  mo_tbls : forall i t, tbls a !! (x, i) = Some t -> table_of_areas (mmap_list mm) i;
  mo_count : 1 <= mm_count mm < 2147483648
}.

Definition with_count (c : Z) (mm : mm_struct) : mm_struct :=
  mkMm (mmap_list mm) (mmap_cache mm) (pgdir mm) (map_count mm) c (mm_sem mm).

Section Exit.
Context {X : Type} {pm : pmm_manager} `{!PmmOk pm} {sc : sched_class} `{!SchedOk sc} (optab : Z -> @inode_ops X) `{!InodeOk optab}.
Abbreviation st := (pst X).
Implicit Types (s : st) (a : aspace) (g : proc_struct).
Abbreviation SInv := (SInv (sc := sc)).

Lemma on_k_runs {A} (m : M kst A) s (Q : A -> st -> Prop) : runs m (ks s) (fun r k => Q r (set_ks k s)) -> runs (on_k m) s Q.
Proof. apply runs_zoom. Qed.
Lemma on_vm_runs {A} (m : M vm A) s (Q : A -> st -> Prop) :
  runs m (kvm (ks s)) (fun r v => Q r (set_ks (set_kvm v (ks s)) s)) -> runs (on_vm m) s Q.
Proof. intros H. apply on_k_runs. by apply runs_zoom. Qed.

(** The pages of directory [x] are free again: the directory itself, its tables, and
    every page that is mapped there and nowhere else. *)
Definition pages_freed a (x : Z) (ps' : pmm) : Prop :=
  ~ pm_owned ps' x /\ (forall i t, tbls a !! (x, i) = Some t -> ~ pm_owned ps' t) /\
  (forall v p perm, maps a !! (x, v) = Some (p, perm) -> (forall y w perm', maps a !! (y, w) = Some (p, perm') -> y = x) -> ~ pm_owned ps' p).

(** What becomes of the address space of a process [g] that gives it up. *)
Inductive released s a s' a' g : Prop :=
  | rel_none : p_mm g = None -> a' = a -> mms s' = mms s -> released s a s' a' g
  | rel_shared m mm x : p_mm g = Some m -> mms s !! m = Some mm -> MmOk a mm x -> 1 < mm_count mm ->
      a' = a -> mms s' = <[m := with_count (mm_count mm - 1) mm]> (mms s) -> released s a s' a' g
  | rel_last m mm x : p_mm g = Some m -> mms s !! m = Some mm -> MmOk a mm x -> mm_count mm = 1 ->
      mms s' = delete m (mms s) -> dirs a' = dirs a ∖ {[x]} -> (forall v, maps a' !! (x, v) = None) ->
      (forall y v, y <> x -> maps a' !! (y, v) = maps a !! (y, v) /\ tbls a' !! (y, v) = tbls a !! (y, v)) ->
      pages_freed a x (vpm (kvm (ks s'))) -> released s a s' a' g.

(** Pages that left the address spaces are free. *)
Lemma ledger_gone a ps a' ps' y : ledger a ps a' ps' -> as_page a y -> ~ as_page a' y -> ~ pm_owned ps' y.
Proof. intros [Ho _] Ha Hn. rewrite Ho. tauto. Qed.

Lemma ledger_freed dl a v a' ps' x :
  VRep dl a v -> x ∈ dirs a -> ledger a (vpm v) a' ps' -> dirs a' = dirs a ∖ {[x]} -> (forall i, tbls a' !! (x, i) = None) -> tbls a' ⊆ tbls a ->
  (forall v, maps a' !! (x, v) = None) -> (forall y v, y <> x -> maps a' !! (y, v) = maps a !! (y, v)) -> still_mapped a a' -> pages_freed a x ps'.
Proof.
  intros HV Hx HL Hd Ht Hts Hmx Hmo Hu.
  assert (Hisub : forall y, is_table a' y -> is_table a y) by (intros y [k Hk]; exists k; by eapply lookup_weaken).
  assert (Husub : forall y, y ∈ upages a' -> y ∈ upages a) by (intros y Hy; by apply Hu).
  split; [|split].
  - destruct (r_dir _ _ _ HV _ Hx) as (_&Hxu&Hxt). eapply ledger_gone; [exact HL|by left|]. intros [Hy|[Hy|Hy]]; [|by apply Hxt, Hisub|by apply Hxu, Husub].
    rewrite Hd in Hy. clear -Hy. set_solver.
  - intros i t Hti. destruct (r_tbl _ _ _ HV _ _ _ Hti) as (_&_&_&Htu). eapply ledger_gone; [exact HL|right; left; by eexists|]. intros [Hy|[[k Hk]|Hy]]; [| |by apply Htu, Husub].
    + rewrite Hd in Hy. destruct (r_dir _ _ _ HV t) as (_&_&Hn); [clear -Hy; set_solver|]. apply Hn. by eexists.
    + pose proof (r_tbl_inj _ _ _ HV _ _ _ (lookup_weaken _ _ _ _ Hk Hts) Hti) as ->. by rewrite Ht in Hk.
  - intros w p perm Hm Hall. destruct (r_map _ _ _ HV _ _ _ _ Hm) as (_&_&Hpu&_). eapply ledger_gone; [exact HL|by right; right|].
    intros [Hy|[Hy|Hy]].
    + rewrite Hd in Hy. destruct (r_dir _ _ _ HV p) as (_&Hn&_); [clear -Hy; set_solver|done].
    + apply Hisub in Hy as [[y i] Hk]. by destruct (r_tbl _ _ _ HV _ _ _ Hk) as (_&_&_&?).
    + apply Hu in Hy as [_ Hc]. apply (proj1 (count_zero p (maps a)) (Hc ltac:(apply count_zero; intros [y z] perm' Hk;
        destruct (decide (y = x)) as [->|Hne]; [by rewrite Hmx in Hk|rewrite Hmo in Hk by done; by apply Hne, (Hall y z perm')])) (x, w) perm Hm).
Qed.

Definition mm_held s a g : Prop := forall m, p_mm g = Some m -> exists mm x, mms s !! m = Some mm /\ MmOk a mm x.

Lemma drop_mm_runs s a cur g :
  procs (ks s) !! cur = Some g -> VRep nodl a (kvm (ks s)) -> TlbOk a (kvm (ks s)) -> mm_held s a g ->
  (forall d, boot_cr3 s = kva d -> d ∉ dirs a) ->
  runs (drop_mm pm cur) s (fun _ s' => exists a' v, VRep nodl a' v /\ TlbOk a' v /\ ledger a (vpm (kvm (ks s))) a' (vpm v) /\ released s a s' a' g /\
    s' = set_mms (mms s') (set_ks (set_procs (alter (set_p_mm None) cur (procs (ks s))) (set_kvm v (ks s))) s)).
Proof.
  intros Hg HV HT Hmm Hboot. unfold drop_mm. runs_steps. apply on_k_runs. eapply rd_proc_runs; [exact Hg|].
  assert (Hid : set_ks (ks s) s = s) by (by destruct s). rewrite Hid. destruct (p_mm g) as [m|] eqn:Hm.
  2:{ runs_steps. exists a, (kvm (ks s)). split; [done|]. split; [done|]. split; [by eapply ledger_refl|]. split; [by apply rel_none|].
    rewrite alter_id; [by destruct s as [[]]|]. intros h Hh. rewrite Hg in Hh. injection Hh as <-. destruct g. cbn in *. by rewrite Hm. }
  destruct (Hmm m Hm) as (mm&x&Hl&HM). pose proof (mo_count _ _ _ HM) as Hc. runs_steps. apply on_vm_runs. unfold lcr3. runs_steps.
  set (v0 := mkVm _ _ _ _ _ _). set (s1 := set_ks (set_kvm v0 (ks s)) s).
  assert (HV0 : VRep nodl a v0) by (eapply VRep_ext; [exact HV|done|apply HV|done|done]).
  assert (HT0 : TlbOk a v0) by (intros i e d _ _ Hd Hin; by destruct (Hboot d Hd)).
  unfold at_mm, rd_mm. runs_steps. eapply runs_deref; [exact Hl|]. unfold mm_count_dec. cbn [bind get put ret]. unfold wr_mm. runs_steps.
  assert (Hdec : atomic_sub_return 1 (mm_count mm) = mm_count mm - 1).
  { unfold atomic_sub_return, atomic_add_return. rewrite s32_small; lia. }
  rewrite Hdec. set (mm1 := mkMm (mmap_list mm) _ _ _ (mm_count mm - 1) _). set (s2 := set_mms (<[m := mm1]> (mms s1)) s1).
  destruct (Z.eqb_spec (mm_count mm - 1) 0) as [Hz|Hz].
  - runs_steps. eapply runs_deref; [cbn; apply lookup_insert_eq|]. runs_steps. apply on_vm_runs.
    assert (Hwf1 : mm_wf mm1) by apply (mo_wf _ _ _ HM).
    eapply runs_mono; [apply (exit_mmap_runs a v0 mm1 x Hwf1 Hz HV0 HT0 (mo_dir _ _ _ HM) (mo_in _ _ _ HM) (mo_maps _ _ _ HM))|].
    cbn beta. intros _ v1 (a1&HV1&HT1&Hd1&Hm1&Hm1'&Ht1&Ht1'&Hsub&Hu1&Hl1). runs_steps. apply on_vm_runs.
    assert (Hnt : forall i, tbls a1 !! (x, i) = None).
    { intros i. destruct (tbls a1 !! (x, i)) as [t|] eqn:Hti; [|done]. rewrite (Ht1 i) in Hti; [done|]. eapply (mo_tbls _ _ _ HM). by eapply lookup_weaken. }
    eapply runs_mono; [apply (put_pgdir_runs a1 v1 mm1 x HV1 HT1 (mo_dir _ _ _ HM)); [rewrite Hd1; apply HM|done]|].
    cbn beta. intros _ v2 (HV2&HT2&Hl2). pose proof (ledger_trans _ _ _ _ _ _ Hl1 Hl2) as HL. runs_steps. unfold destroy_mm, rd_mm. runs_steps. eapply runs_deref; [cbn; apply lookup_insert_eq|].
    unfold mm_destroy, kfree_mm. cbn [mm_count mm1]. rewrite Hz. cbn [Z.eqb]. runs_steps. apply on_k_runs. eapply upd_alter_runs; [cbn; by eexists|].
    exists (mkAs (dirs a1 ∖ {[x]}) (tbls a1) (maps a1) (upages a1)), v2. split; [done|]. split; [done|]. split; [exact HL|]. split; [|done].
    eapply (rel_last _ _ _ _ _ m mm x); [done|done|done|lia|cbn; by rewrite delete_insert_eq|cbn; by rewrite Hd1|done|cbn; auto|].
    eapply (ledger_freed nodl a v0); [exact HV0|apply HM|exact HL|cbn; by rewrite Hd1|done|done|done|done|exact Hu1].
  - runs_steps. apply on_k_runs. eapply upd_alter_runs; [cbn; by eexists|]. exists a, v0. split; [done|]. split; [done|]. split; [by apply (ledger_refl nodl a v0)|]. split; [|done].
    eapply (rel_shared _ _ _ _ _ m mm x); [done|done|done|lia|done|done].
Qed.

(** ** Its file map *)

Abbreviation FInv := (FInv optab).

(** The number of users of a file map is of no concern to the inode counts. *)
Lemma FInv_count (f : fst_ X) xr p v c : FInv f xr -> fss f !! p = Some v -> FInv (set_fss (<[p := mkFsS (pwd v) c]> (fss f)) f) xr.
Proof.
  intros (HG&Hx&Hpin) Hp. set (f' := set_fss _ f). assert (Hpw : forall n, pwds f' n = pwds f n).
  { intros n. rewrite (pwds_update f f' p v (mkFsS (pwd v) c) n Hp eq_refl). cbn [pwd]. lia. }
  split; [|by split]. apply (GInv_refs optab f f' (fun n => pwds f n + xr n)); [done|done|intros q; by eapply fss_update_dom| |by apply msub_same|].
  - eapply CInv_ext; [eapply CInv_frame; [apply (gi_c _ _ _ HG)|done|apply (ci_priv _ _ _ _ (gi_c _ _ _ HG))]|done|]. intros n. by rewrite Hpw.
  - intros n i Hi Hop. pose proof (pwds_nonneg f' n). pose proof (Hpin n i Hi Hop). lia.
Qed.

(** The map [p], with [v] in it, is in use by some process; its entries are at rest
    if that is the last one. *)
Definition fs_held (f : fst_ X) (p : Z) : Prop :=
  exists v, fss f !! p = Some v /\ 1 <= fs_count v < 2147483648 /\
    (fs_count v = 1 -> forall j x, files f !! (p, j) = Some x -> quiet x).

Lemma put_fs_runs s xr cur :
  FInv (fsys s) xr -> (forall p, pfs s !! cur = Some p -> fs_held (fsys s) p) ->
  runs (put_fs optab cur) s (fun _ s' => s' = set_fsys (fsys s') s /\ FInv (fsys s') xr /\
    forall p v, pfs s !! cur = Some p -> fss (fsys s) !! p = Some v ->
      fss (fsys s') = if decide (fs_count v = 1) then delete p (fss (fsys s)) else <[p := mkFsS (pwd v) (fs_count v - 1)]> (fss (fsys s))).
Proof.
  intros HF Hh. unfold put_fs. runs_steps. destruct (pfs s !! cur) as [p|] eqn:Hp.
  2:{ runs_steps. split; [by destruct s|]. split; [done|]. done. }
  destruct (Hh p eq_refl) as (v&Hv&Hc&Hq). assert (Hdec : atomic_sub_return 1 (fs_count v) = fs_count v - 1).
  { unfold atomic_sub_return, atomic_add_return. rewrite s32_small; lia. }
  runs_steps. unfold on_fsys. apply runs_zoom. unfold fs_count_dec. runs_steps. eapply rd_fs_runs; [exact Hv|]. unfold wr_fs. runs_steps. rewrite Hdec.
  set (f1 := set_fss (<[p := mkFsS (pwd v) (fs_count v - 1)]> (fss (fsys s))) (fsys s)). assert (HF1 : FInv f1 xr) by (by apply FInv_count).
  destruct (Z.eqb_spec (fs_count v - 1) 0) as [Hz|Hz].
  - apply runs_zoom. eapply runs_mono; [apply (fs_destroy_runs optab f1 xr p (mkFsS (pwd v) (fs_count v - 1)) HF1); [cbn; apply lookup_insert_eq|done|]|].
    + intros j x. cbn. apply Hq. lia.
    + cbn beta. intros _ f2 (HF2&Hss&_). split; [done|]. split; [done|]. intros p' v' [= <-] Hv'. rewrite Hv in Hv'. injection Hv' as <-.
      rewrite decide_True by lia. cbn. rewrite Hss. cbn. by rewrite delete_insert_eq.
  - runs_steps. split; [done|]. split; [done|]. intros p' v' [= <-] Hv'. rewrite Hv in Hv'. injection Hv' as <-. by rewrite decide_False by lia.
Qed.

(** ** [do_exit] *)

Definition ended (code : Z) (g : proc_struct) : proc_struct := set_exit_code code (set_state PROC_ZOMBIE (set_p_mm None g)).
(** The process table after [cur], child of [par], ended: it is a zombie, its parent
    was woken if it waited, and so was [init] if it waited and inherited a zombie. *)
Definition exit_table (m : gmap Z proc_struct) (ch : Z -> list Z) (cur par init code : Z) : gmap Z proc_struct :=
  let m1 := alter (ended code) cur m in
  let m2 := if decide (is_waiting m1 par) then alter awake par m1 else m1 in
  if decide (is_waiting m2 init /\ Exists (is_zombie m2) (ch cur)) then alter awake init m2 else m2.

Lemma exit_table_pid m ch cur par init code c : pid <$> exit_table m ch cur par init code !! c = pid <$> m !! c.
Proof.
  assert (Haw : forall p m0, pid <$> alter awake p m0 !! c = pid <$> m0 !! c) by (intros; by apply alter_same).
  unfold exit_table. set (m2 := if decide (is_waiting _ par) then _ else _).
  assert (Hm2 : pid <$> m2 !! c = pid <$> m !! c) by (unfold m2; destruct (decide (is_waiting _ par)); rewrite ?Haw; by apply alter_same).
  destruct (decide (is_waiting m2 init /\ _)); by rewrite ?Haw.
Qed.

Record Exiting s a xr ch (par : Z) g : Prop := {
  xt_cur : procs (ks s) !! current (ks s) = Some g;
  xt_not_idle : current (ks s) <> idleproc (ks s);
  xt_not_init : current (ks s) <> initproc (ks s);
  xt_sched : SInv (ks s);
  xt_table : PTable (ks s) ch;
  xt_parent : parent g = Some par /\ par <> current (ks s);
  xt_waiters : waiter_ok (procs (ks s)) par /\ waiter_ok (procs (ks s)) (initproc (ks s));
  xt_init : initproc (ks s) ∉ ch (current (ks s));
  xt_vm : VRep nodl a (kvm (ks s)) /\ TlbOk a (kvm (ks s)) /\ mm_held s a g /\ (forall d, boot_cr3 s = kva d -> d ∉ dirs a);
  xt_fs : FInv (fsys s) xr /\ (forall p, pfs s !! current (ks s) = Some p -> fs_held (fsys s) p)
}.

(** The running process may change in any way but cannot be queued. *)
Lemma SInv_current (k : kst) f : SInv k -> current k <> idleproc k -> SInv (set_procs (alter f (current k) (procs k)) k).
Proof.
  intros HI Hne. split; cbn.
  - apply HI.
  - intros p Hp. destruct (si_queued k HI p Hp) as (?&Hpc&g&Hg&Hst). split; [done|]. split; [done|]. exists g. by rewrite lookup_alter_ne.
  - intros p g Hg Hst. destruct (decide (p = current k)) as [->|Hp]; [by left|]. rewrite lookup_alter_ne in Hg by done. by apply (si_all k HI p g).
  - apply alter_is_some, HI.
  - destruct (si_idle k HI) as (g&Hg&Hst). exists g. by rewrite lookup_alter_ne.
Qed.

Lemma SInv_kvm (k : kst) v : SInv k -> SInv (set_kvm v k).
Proof. intros []. split; done. Qed.

Lemma rd_then {A} (k : kst) p g (f : proc_struct -> M kst A) Q :
  procs k !! p = Some g -> runs (let! g := rd_proc p in f g) k Q -> runs (f g) k Q.
Proof. unfold runs, bind, rd_proc, get, deref, bind. intros ->. done. Qed.

Lemma children_fit (m : gmap Z proc_struct) yy ch p : TreeY yy m ch -> (length (ch p) <= size m)%nat.
Proof.
  intros HT. rewrite <-size_dom. assert (Hs : list_to_set (ch p) ⊆ dom m).
  { intros c Hc. apply elem_of_list_to_set in Hc. destruct (tree_parent _ _ _ _ _ HT Hc) as (g&Hg&_). apply elem_of_dom. by eexists. }
  apply subseteq_size in Hs. rewrite size_list_to_set in Hs by apply (tr_nodup _ _ _ HT). done.
Qed.

(** The family, the parent's wakeup, the adoption and the dispatch. *)
Lemma exit_table_runs (k : kst) ch par g code :
  procs k !! current k = Some g -> current k <> idleproc k -> current k <> initproc k -> SInv k -> Tree (procs k) ch ->
  parent g = Some par -> par <> current k -> waiter_ok (procs k) par -> waiter_ok (procs k) (initproc k) -> initproc k ∉ ch (current k) ->
  let k1 := set_procs (alter (ended code) (current k) (procs k)) k in
  runs (let! pg := rd_proc par in if wait_state pg =? WT_CHILD then wakeup_proc sc par else ret tt) k1 (fun _ k2 =>
    current k2 = current k /\ initproc k2 = initproc k /\
    runs (reparent_loop sc (size (procs k2)) (current k) (initproc k)) k2 (fun _ k3 =>
      runs (schedule sc) k3 (fun _ k4 => SInv k4 /\ current k4 <> current k /\
        (exists g4, procs k4 !! current k4 = Some g4 /\ state g4 = PROC_RUNNABLE) /\
        Tree (procs k4) (adopted ch (current k) (initproc k)) /\
        same_core (exit_table (procs k) ch (current k) par (initproc k) code) (procs k4) /\ tlb_flushed (kvm k4) /\
        proc_list k4 = proc_list k /\ hash_list k4 = hash_list k /\
        (vpm (kvm k4), mem (kvm k4), PageTable.status (kvm k4)) = (vpm (kvm k), mem (kvm k), PageTable.status (kvm k))))).
Proof.
  intros Hg Hni Hnn HI HT Hp Hpc Hwp Hwi Hnin k1.
  assert (HI1 : SInv k1) by (by apply SInv_current).
  assert (HT1 : Tree (procs k1) ch) by (eapply tree_frame; [exact HT|]; intros x; by apply alter_same).
  assert (Hw1 : forall p, p <> current k -> waiter_ok (procs k) p -> waiter_ok (procs k1) p) by (intros p Hne (h&Hh&?); exists h; cbn; by rewrite lookup_alter_ne).
  eapply runs_mono; [apply (wake_waiter_runs k1 par HI1); by apply Hw1|]. cbn beta. intros _ k2 (HI2&Hk2&Hf2&Hc2).
  assert (Hcu2 : current k2 = current k) by (by rewrite Hk2). assert (Hin2 : initproc k2 = initproc k) by (by rewrite Hk2). split; [done|]. split; [done|].
  assert (HT2 : Tree (procs k2) ch) by (by eapply tree_frame). fold (exit_table (procs k) ch (current k) par (initproc k) code).
  set (m2 := if decide (is_waiting (procs k1) par) then alter awake par (procs k1) else procs k1) in *.
  assert (Hwi2 : waiter_ok m2 (initproc k)).
  { unfold m2. destruct (decide _); [|by apply Hw1]. destruct (decide (initproc k = par)) as [->|Hne].
    - apply awake_waiter. destruct (Hw1 par Hpc Hwp) as (h&Hh&_). by eexists.
    - destruct (Hw1 (initproc k)) as (h&Hh&?); [done|done|]. exists h. by rewrite lookup_alter_ne. }
  assert (Hg2 : exists g2, procs k2 !! current k = Some g2 /\ state g2 = PROC_ZOMBIE).
  { assert (Hm2 : m2 !! current k = Some (ended code g)).
    { assert (Hk1 : procs k1 !! current k = Some (ended code g)) by (cbn; by rewrite lookup_alter_eq, Hg).
      unfold m2. destruct (decide _); [by rewrite lookup_alter_ne|done]. }
    destruct (same_core_look _ _ _ _ Hc2 Hm2) as (g2&Hg2&He). exists g2. split; [done|]. by destruct (core_fields _ _ He) as (->&_). }
  destruct Hg2 as (g2&Hg2&Hz2).
  eapply runs_mono; [apply (reparent_loop_runs (current k) (initproc k) Hnn _ k2 ch None HI2);
    [eapply tree_yy; [|exact HT2]; intros p _; unfold chupd; by case_decide|done|by eapply waiter_ok_core|by eapply children_fit|by eexists]|].
  cbn beta. intros _ k3 (HI3&Hk3&HT3&Hc3). eapply runs_mono; [apply (schedule_runs k3 HI3)|]. cbn beta. intros _ k4 ((_&_&_&_&_&Hpl&Hhl&_&_&Hvm)&HI4&Hs4&Hrun&_&Hon).
  assert (Hc : same_core (exit_table (procs k) ch (current k) par (initproc k) code) (procs k3)).
  { unfold exit_table. fold k1. change (alter (ended code) (current k) (procs k)) with (procs k1). fold m2.
    pose proof (is_waiting_core _ _ (initproc k) Hc2) as Hwc. pose proof (fun c => is_zombie_core _ _ c Hc2) as Hzc.
    assert (Hex : Exists (is_zombie m2) (ch (current k)) <-> Exists (is_zombie (procs k2)) (ch (current k))) by (rewrite !Exists_exists; split; intros (c&?&?); exists c; by rewrite (Hzc c) in *).
    destruct (decide (is_waiting (procs k2) (initproc k) /\ _)) as [H|H], (decide (is_waiting m2 (initproc k) /\ _)) as [H'|H']; [|tauto..|by etrans].
    etrans; [|exact Hc3]. apply same_core_alter; [apply awake_core|done]. }
  assert (Hne4 : current k4 <> current k); [|split; [done|split; [done|split; [done|split; [eapply tree_frame; [exact HT3|]; by apply same_procs_fam|split; [etrans; [exact Hc|by apply same_procs_core]|]]]]]].
  2:{ split; [apply Hon; by rewrite Hk3, Hk2|]. rewrite Hpl, Hhl, Hvm, Hk3, Hk2. done. }
  intros He. destruct Hrun as (g4&Hg4&Hr). rewrite He in Hg4.
  assert (Hx : (if decide (is_waiting (procs k2) (initproc k) /\ Exists (is_zombie (procs k2)) (ch (current k))) then alter awake (initproc k) (procs k2) else procs k2) !! current k = Some g2).
  { destruct (decide (is_waiting (procs k2) (initproc k) /\ _)); [rewrite lookup_alter_ne by congruence|]; done. }
  destruct (same_core_look _ _ _ _ Hc3 Hx) as (g3&Hg3&He3). destruct (same_procs_some _ _ _ _ Hs4 Hg3) as (g4'&Hg4'&He4).
  destruct (core_fields _ _ He3) as (Hs3&_). destruct (score_state _ _ He4) as (Hs4'&_). congruence.
Qed.

Lemma on_k_then {A} (m : M kst A) s (Q : A -> st -> Prop) (P : A -> kst -> Prop) :
  runs m (ks s) P -> (forall r k, P r k -> Q r (set_ks k s)) -> runs (on_k m) s Q.
Proof. intros H1 H2. apply on_k_runs. eapply runs_mono; [exact H1|]. done. Qed.

Lemma on_k_if (b : bool) (m : M kst unit) s (Q : unit -> st -> Prop) (P : unit -> kst -> Prop) :
  runs (if b then m else ret tt) (ks s) P -> (forall k, P tt k -> Q tt (set_ks k s)) -> runs (if b then on_k m else ret tt) s Q.
Proof.
  intros H1 H2. destruct b; [eapply on_k_then; [exact H1|]; intros [] k; apply H2|]. apply runs_ret. specialize (H2 (ks s) H1). by destruct s.
Qed.

(** What exiting leaves. *)
Definition exited s a xr ch par g (code : Z) s' : Prop :=
  let cur := current (ks s) in let init := initproc (ks s) in
  SInv (ks s') /\ current (ks s') <> cur /\ (exists g', procs (ks s') !! current (ks s') = Some g' /\ state g' = PROC_RUNNABLE) /\
  PTable (ks s') (adopted ch cur init) /\ same_core (exit_table (procs (ks s)) ch cur par init code) (procs (ks s')) /\
  (exists a', released s a s' a' g /\ VRep nodl a' (kvm (ks s')) /\ TlbOk a' (kvm (ks s')) /\
     ledger a (vpm (kvm (ks s))) a' (vpm (kvm (ks s')))) /\ FInv (fsys s') xr /\
  (forall p v, pfs s !! cur = Some p -> fss (fsys s) !! p = Some v ->
     fss (fsys s') = if decide (fs_count v = 1) then delete p (fss (fsys s)) else <[p := mkFsS (pwd v) (fs_count v - 1)]> (fss (fsys s))).

Lemma do_exit_runs s a xr ch par g code : Exiting s a xr ch par g -> runs (do_exit pm sc optab code) s (fun _ s' => exited s a xr ch par g code s').
Proof.
  intros [Hg Hni Hnn HI HPT [Hp Hpc] [Hwp Hwi] Hnin (HV&HTl&Hmm&Hb) (HF&Hfs)]. pose proof (pt_tree _ _ HPT) as HT. unfold do_exit. runs_steps.
  rewrite (proj2 (Z.eqb_neq (current (ks s)) (idleproc (ks s)))), (proj2 (Z.eqb_neq (current (ks s)) (initproc (ks s)))) by done. runs_steps.
  eapply runs_mono; [by apply (drop_mm_runs s a (current (ks s)) g)|]. cbn beta. intros _ s1 (a'&v&HV'&HTl'&Hled&Hrel&Hs1). runs_steps.
  assert (Hf1 : fsys s1 = fsys s) by (by rewrite Hs1). assert (Hp1 : pfs s1 = pfs s) by (by rewrite Hs1).
  eapply runs_mono; [apply (put_fs_runs s1 xr (current (ks s))); [by rewrite Hf1|by rewrite Hp1, Hf1]|]. cbn beta. rewrite Hf1, Hp1. intros _ s2 (Hs2&HF2&Hss).
  assert (Hk2 : ks s2 = set_procs (alter (set_p_mm None) (current (ks s)) (procs (ks s))) (set_kvm v (ks s))) by (by rewrite Hs2, Hs1).
  assert (Hm2 : mms s2 = mms s1) by (by rewrite Hs2). set (k0 := set_kvm v (ks s)). set (k1 := set_procs (alter (ended code) (current (ks s)) (procs (ks s))) k0).
  runs_steps. apply on_k_runs. rewrite Hk2. eapply upd_alter_runs; [cbn; apply alter_is_some; by eexists|]. runs_steps.
  apply on_k_runs. eapply upd_alter_runs; [cbn; repeat apply alter_is_some; by eexists|]. runs_steps. cbn [procs set_procs ks set_ks].
  rewrite !alter_alter_eq. apply on_k_runs. cbn [ks set_ks]. eapply rd_proc_runs; [cbn; by rewrite lookup_alter_eq, Hg|]. runs_steps. eapply runs_deref; [exact Hp|]. runs_steps.
  pose proof (exit_table_runs k0 ch par g code Hg Hni Hnn (SInv_kvm _ _ HI) HT Hp Hpc Hwp Hwi Hnin) as HX. cbv zeta in HX. fold k1 in HX.
  match goal with |- runs _ ?S _ => replace S with (set_ks k1 s2) by reflexivity end.
  assert (Hpar : exists pg, procs k1 !! par = Some pg) by (destruct Hwp as (pg&Hpg&_); exists pg; cbn; by rewrite lookup_alter_ne). destruct Hpar as [pg Hpg].
  apply on_k_runs. eapply rd_proc_runs; [exact Hpg|]. apply (rd_then _ _ _ _ _ Hpg) in HX.
  runs_steps. eapply on_k_if; [exact HX|]. cbn beta. intros k2 (_&_&HX2). runs_steps. eapply on_k_then; [exact HX2|]. cbn beta. intros _ k3 HX3. eapply on_k_then; [exact HX3|]. cbn beta.
  intros _ k4 (HI4&Hc4&Hr4&HT4&Hco4&Htl&Hpl&Hhl&Hvm). injection Hvm as Hv1 Hv2 Hv3. split; [done|]. split; [done|]. split; [done|].
  split; [|split; [done|split; [|by split]]].
  { apply (PTable_pids (ks s) _ ch); [done|done|done|done| |intros c; by apply adopted_linked]. intros c. etrans; [apply (same_core_pid _ _ Hco4 c)|apply exit_table_pid]. }
  exists a'. split; [|split; [eapply VRep_ext; [exact HV'|done|cbn; rewrite Hv3; apply HV'|done|intros; cbn; by rewrite Hv2]|split; [by apply flushed_ok|cbn; by rewrite Hv1]]].
  assert (Hv : kvm (ks s1) = v) by (by rewrite Hs1). destruct Hrel; [eapply rel_none|eapply rel_shared|eapply rel_last]; try done; cbn; rewrite ?Hm2; try done. cbn in Hv1. rewrite Hv1, <- Hv. done.
Qed.

(** C11: [do_exit] returns control to another process.  The exiting process is a zombie with
    its exit code; its address space, page directory and file map are gone exactly
    when it was their last user, and nobody else's mappings or inode counts change.
    What is gone is free: the directory, its tables and the pages mapped nowhere else
    are not handed out afterwards ([pages_freed]), and no other page changes hands
    ([ledger]: the pages handed out are those of the remaining address spaces and those
    that were handed out for something else).  Its parent is woken if it was waiting for
    a child, its children are the children of [init], which is woken if it waits and one
    of them is a zombie; every other process is as it was, and the process table stays
    consistent. *)
Theorem do_exit_correct s a xr ch par g code :
  Exiting s a xr ch par g -> runs (do_exit pm sc optab code) s (fun _ s' => exited s a xr ch par g code s').
Proof. apply do_exit_runs. Qed.
End Exit.
