(* ===== verification/WaitThm.v ===== *)
(** * Waiting for children and killing (do_wait, do_kill of proc.c)

    The search of [do_wait] through the table finds a zombie child exactly when there
    is one to be found; the child found is taken out of every structure, and its
    kernel stack goes back to the page allocator. *)

From stdpp Require Import base gmap list.
From Stdlib Require Import ZArith Lia Bool.
From S2P Require Import Prelude.
From S2P Require Import Dlist.
From S2P Require Import Buddy.
From S2P Require Import Pmm.
From S2P Require Import PageTable.
From S2P Require Import PageTableInv.
From S2P Require Import PageTableOps.
From S2P Require Import PageTableThm.
From S2P Require Import Vmm.
From S2P Require Import KState.
From S2P Require Import Sched.
From S2P Require Import SchedThm.
From S2P Require Import Vfs.
From S2P Require Import Proc.
From S2P Require Import ProcThm.
From S2P Require Import Family.
From S2P Require Import ExitThm.

(** ** The search *)

Section Search.
Implicit Types (k : kst) (ch : Z -> list Z).

(** The children [do_wait(p)] is about. *)
Definition wanted k ch (p c : Z) : Prop :=
  c ∈ ch (current k) /\ (p = 0 \/ exists g, procs k !! c = Some g /\ pid g = p).

Lemma zombie_loop_runs k par l : forall fuel y b,
  seg (procs k) par y l None -> (length l <= fuel)%nat ->
  runs (zombie_loop fuel (head l) b) k (fun r k' => k' = k /\
    match list_find (is_zombie (procs k)) l with
    | Some (_, z) => r = (Some z, true)
    | None => r = (None, b || negb (bool_decide (l = [])))
    end).
Proof.
  induction l as [|c l IH]; intros fuel y b Hs Hf; cbn [length head] in *.
  { destruct fuel; cbn [zombie_loop list_find]; runs_steps; split; [done| |done|]; by rewrite bool_decide_true, orb_false_r by done. }
  destruct fuel as [|fuel]; [lia|]. cbn [zombie_loop]. destruct Hs as [(g&Hg&_&_&Ho) Hs]. runs_steps. eapply rd_proc_runs; [exact Hg|]. cbn [list_find].
  destruct (decide (state g = PROC_ZOMBIE)) as [Hz|Hz].
  - rewrite decide_True by (by exists g). runs_steps. done.
  - rewrite decide_False by (intros (g'&Hg'&?); congruence). rewrite Ho, <-head_hd_or. eapply runs_mono; [apply (IH fuel (Some c) true Hs); lia|]. cbn beta.
    intros r k' [-> Hr]. split; [done|]. destruct (list_find (is_zombie (procs k)) l) as [[i z]|]; [done|].
    assert (He : bool_decide (c :: l = []) = false) by (by apply bool_decide_false). by rewrite He, orb_true_r.
Qed.

Definition search_result k ch p (r : option Z * bool) : Prop :=
  match r with
  | (Some z, _) => wanted k ch p z /\ is_zombie (procs k) z
  | (None, true) => (exists c, wanted k ch p c) /\ forall c, wanted k ch p c -> ~ is_zombie (procs k) c
  | (None, false) => forall c, ~ wanted k ch p c
  end.

Lemma wait_search_runs k ch p :
  PTable k ch -> is_Some (procs k !! current k) -> runs (wait_search p) k (fun r k' => k' = k /\ search_result k ch p r).
Proof.
  intros HP [g Hg]. pose proof (pt_tree _ _ HP) as HT. unfold wait_search. runs_steps. destruct (Z.eqb_spec p 0) as [->|Hp]; cbn [negb].
  - runs_steps. eapply rd_proc_runs; [exact Hg|]. rewrite (tr_cptr _ _ _ HT _ _ Hg).
    eapply runs_mono; [apply (zombie_loop_runs k (current k) (ch (current k)) _ None false); [apply (tr_seg _ _ _ HT)|by eapply children_fit]|].
    cbn beta. intros r k' [-> Hr]. split; [done|]. destruct (list_find _ _) as [[i z]|] eqn:Hl.
    + apply list_find_Some in Hl as (Hi&Hz&_). rewrite Hr. split; [|done]. split; [by eapply list_elem_of_lookup_2|by left].
    + rewrite Hr. apply list_find_None in Hl. rewrite Forall_forall in Hl. cbn [orb]. destruct (ch (current k)) as [|c l] eqn:Hc.
      * rewrite bool_decide_true by done. intros c [Hin _]. rewrite Hc in Hin. by apply elem_of_nil in Hin.
      * rewrite bool_decide_false by done. split; [exists c; split; [rewrite Hc; apply list_elem_of_here|by left]|]. intros x [Hx _]. apply Hl. by rewrite <-Hc.
  - runs_steps. eapply runs_mono; [apply (find_proc_runs k p), HP|]. cbn beta. intros r k' [-> Hr].
    assert (Hw : forall c, wanted k ch p c -> r = Some c).
    { intros c [Hc [?|(h&Hh&He)]]; [done|]. apply Hr. assert (Hin : c ∈ proc_list k) by (apply (pt_all _ _ HP); by eexists).
      pose proof (pt_pid _ _ HP _ _ Hin Hh). split; [lia|]. split; [done|]. by exists h. }
    destruct r as [c|]; [|runs_steps; split; [done|]; intros c Hc; by specialize (Hw c Hc)].
    destruct (proj1 (Hr c) eq_refl) as (_&Hin&h&Hh&He). runs_steps. eapply rd_proc_runs; [exact Hh|].
    assert (Hpar : parent h = Some (current k) <-> c ∈ ch (current k)).
    { split.
      - intros Hpa. apply (pt_all _ _ HP) in Hin as [q Hq]. destruct (tree_parent _ _ _ _ _ HT Hq) as (h'&Hh'&Hpa'). assert (q = current k) as -> by congruence. done.
      - intros Hc. destruct (tree_parent _ _ _ _ _ HT Hc) as (h'&Hh'&Hpa'). congruence. }
    destruct (decide (parent h = Some (current k))) as [Hpa|Hpa].
    + assert (Hwc : wanted k ch p c) by (split; [by apply Hpar|]; right; by exists h).
      destruct (decide (state h = PROC_ZOMBIE)) as [Hz|Hz]; runs_steps; (split; [done|]).
      * split; [done|]. by exists h.
      * split; [by exists c|]. intros x Hx. apply Hw in Hx. injection Hx as <-. intros (h'&Hh'&?). congruence.
    + runs_steps. split; [done|]. intros x Hx. pose proof (Hw x Hx) as [= <-]. apply Hpa, Hpar. apply Hx.
Qed.
End Search.

(** ** Killing *)

Section Kill.
Context {sc : sched_class} `{!SchedOk sc}.
Implicit Types (k : kst).
Abbreviation SInv := (SInv (sc := sc)).

(** The scheduler's invariant reads only the states. *)
Lemma SInv_states k m' : SInv k -> (forall x, state <$> m' !! x = state <$> procs k !! x) -> SInv (set_procs m' k).
Proof.
  intros HI Hst. assert (Hget : forall x g, procs k !! x = Some g -> exists g', m' !! x = Some g' /\ state g' = state g).
  { intros x g Hx. specialize (Hst x). rewrite Hx in Hst. apply fmap_Some in Hst as (g'&Hg'&He). by exists g'. }
  split; cbn.
  - apply HI.
  - intros p Hp. destruct (si_queued k HI p Hp) as (?&?&g&Hg&Hs). split; [done|]. split; [done|]. destruct (Hget _ _ Hg) as (g'&?&He). exists g'. by rewrite He.
  - intros p g' Hg' Hs. specialize (Hst p). rewrite Hg' in Hst. symmetry in Hst. apply fmap_Some in Hst as (g&Hg&He). apply (si_all k HI p g Hg). congruence.
  - destruct (si_current k HI) as [g Hg]. destruct (Hget _ _ Hg) as (g'&?&_). by eexists.
  - destruct (si_idle k HI) as (g&Hg&Hs). destruct (Hget _ _ Hg) as (g'&?&He). exists g'. by rewrite He.
Qed.

Definition killed (g : proc_struct) : proc_struct := set_p_flags (Z.lor (p_flags g) PF_EXITING) g.
Definition interruptible (g : proc_struct) : Prop := Z.land (wait_state g) WT_INTERRUPTED <> 0.

(** [do_kill] marks exactly the process with the identifier, wakes it if its sleep may
    be interrupted, and refuses identifiers nobody has and processes marked before. *)
Theorem do_kill_correct k p :
  SInv k -> HashInv k -> (forall c g, procs k !! c = Some g -> interruptible g -> state g = PROC_SLEEPING) ->
  runs (do_kill sc p) k (fun r k' =>
    (r = - E_INVAL /\ k' = k /\ forall c g, c ∈ proc_list k -> procs k !! c = Some g -> 0 < p < MAX_PID -> pid g <> p) \/
    exists c g, c ∈ proc_list k /\ procs k !! c = Some g /\ pid g = p /\
      ((r = - E_KILLED /\ k' = k /\ Z.land (p_flags g) PF_EXITING <> 0) \/
       (r = 0 /\ Z.land (p_flags g) PF_EXITING = 0 /\ SInv k' /\ k' = set_procs (procs k') (set_rq (rq k') k) /\
        same_procs (procs k') (<[c := if decide (Z.land (wait_state g) WT_INTERRUPTED = 0) then killed g else awake (killed g)]> (procs k))))).
Proof.
  intros HI HH Hint. unfold do_kill. runs_steps. eapply runs_mono; [by apply find_proc_runs|]. cbn beta. intros r k' [-> Hr]. destruct r as [c|].
  2:{ runs_steps. left. split; [done|]. split; [done|]. intros c g Hc Hg Hp He. assert (None = Some c); [|done]. apply Hr. split; [done|]. split; [done|]. by exists g. }
  destruct (proj1 (Hr c) eq_refl) as (_&Hc&g&Hg&He). runs_steps. eapply rd_proc_runs; [exact Hg|].
  destruct (Z.eqb_spec (Z.land (p_flags g) PF_EXITING) 0) as [Hz|Hz].
  2:{ runs_steps. right. exists c, g. split; [done|]. split; [done|]. split; [done|]. by left. }
  runs_steps. eapply upd_proc_runs; [exact Hg|]. fold (killed g). set (k1 := set_procs (<[c := killed g]> (procs k)) k).
  assert (HI1 : SInv k1).
  { apply SInv_states; [done|]. intros x. rewrite lookup_insert. case_decide; [subst; by rewrite Hg|done]. }
  runs_steps. eapply (runs_mono _ _ (fun _ k2 => SInv k2 /\ k2 = set_procs (procs k2) (set_rq (rq k2) k) /\
    same_procs (procs k2) (<[c := if decide (Z.land (wait_state g) WT_INTERRUPTED = 0) then killed g else awake (killed g)]> (procs k)))).
  - destruct (Z.eqb_spec (Z.land (wait_state g) WT_INTERRUPTED) 0) as [Hw|Hw]; cbn [negb].
    + rewrite decide_True by done. runs_steps. split; [done|]. split; [by destruct k|done].
    + rewrite decide_False by done. assert (Hst : state g = PROC_SLEEPING) by (by apply (Hint c)).
      runs_steps. eapply runs_mono; [apply (wakeup_runs k1 c (killed g) HI1); [cbn; apply lookup_insert_eq|cbn; by rewrite Hst]|].
      cbn beta. intros _ k2 (HI2&Hk2&Hs2). rewrite decide_False in Hs2 by (cbn; by rewrite Hst). split; [done|]. split; [by rewrite Hk2|].
      unfold k1 in Hs2. cbn [procs set_procs] in Hs2. by rewrite insert_insert_eq in Hs2.
  - cbn beta. intros _ k2 (HI2&Hk2&Hs2). runs_steps. right. exists c, g. split; [done|]. split; [done|]. split; [done|]. right. done.
Qed.
End Kill.

(** ** Reaping *)

(** A process that is in no list and has no children is forgotten. *)
Lemma tree_delete yy m ch z : TreeY yy m ch -> unlinked ch z -> ch z = [] -> TreeY yy (delete z m) ch.
Proof.
  intros [H1 H2 H3 H4] Hu Hz. split; [..|done].
  - intros p g Hg. apply H1. by apply lookup_delete_Some in Hg as [_ Hg].
  - intros p. eapply seg_frame; [|apply H2]. intros c Hc. rewrite lookup_delete_ne; [done|]. intros ->. by apply (Hu p).
  - intros p Hp. rewrite lookup_delete_ne; [by apply H3|]. by intros ->.
Qed.

Lemma bucket_unhash k z h : bucket (set_hash_list (ldel z <$> hash_list k) k) h = ldel z (bucket k h).
Proof. unfold bucket. cbn. rewrite lookup_fmap. by destruct (hash_list k !! h). Qed.

(** The table without the child [z] of [par]. *)
Definition without (ch : Z -> list Z) (par z : Z) : Z -> list Z := chupd ch par (ldel z (ch par)).

Lemma PTable_remove k k' ch par z :
  PTable k ch -> z ∈ ch par -> procs k' = delete z (procs k') ->
  Tree (procs k') (without ch par z) -> proc_list k' = ldel z (proc_list k) -> hash_list k' = ldel z <$> hash_list k ->
  (forall c, c <> z -> pid <$> procs k' !! c = pid <$> procs k !! c) -> PTable k' (without ch par z).
Proof.
  intros [HT [H1 H2 H3 H4 H5] Ha Hn Hp] Hz Hdel HT' Hl Hh Hpid.
  assert (Hb : forall c g', procs k' !! c = Some g' -> c <> z /\ exists g, procs k !! c = Some g /\ pid g' = pid g).
  { intros c g' Hg'. assert (Hne : c <> z) by (intros ->; rewrite Hdel, lookup_delete_eq in Hg'; done). split; [done|].
    specialize (Hpid c Hne). rewrite Hg' in Hpid. symmetry in Hpid. apply fmap_Some in Hpid as (g&Hg&He). by exists g. }
  assert (Hbk : forall h, bucket k' h = ldel z (bucket k h)) by (intros h; rewrite <-bucket_unhash; unfold bucket; cbn; by rewrite Hh).
  split; [done| |..]; rewrite ?Hl.
  - split; unfold pids_known; rewrite ?Hl.
    + intros h p. rewrite Hbk, !elem_of_ldel. intros [Hx ?]. split; [by eapply H1|done].
    + intros h p g'. rewrite Hbk, elem_of_ldel. intros [Hin _] Hg'. destruct (Hb _ _ Hg') as (_&g&Hg&->). by apply (H2 h p).
    + intros p g'. rewrite elem_of_ldel. intros [Hin Hne] Hg'. destruct (Hb _ _ Hg') as (_&g&Hg&->). rewrite Hbk, elem_of_ldel. split; [by apply H3|done].
    + intros p. rewrite elem_of_ldel. intros [Hin Hne]. destruct (H4 p Hin) as [g Hg]. specialize (Hpid p Hne). rewrite Hg in Hpid. destruct (procs k' !! p); [by eexists|done].
    + intros p q g' h'. rewrite !elem_of_ldel. intros [Hpi _] [Hqi _] Hg' Hh' He. destruct (Hb _ _ Hg') as (_&g&Hg&E1), (Hb _ _ Hh') as (_&h&Hh2&E2). apply (H5 p q g h); congruence.
  - intros c. rewrite elem_of_ldel, Ha. unfold without. split.
    + intros [[q Hq] Hne]. exists q. unfold chupd. case_decide; [subst; by apply elem_of_ldel|done].
    + intros [q Hq]. unfold chupd in Hq. case_decide as Hqp; [apply elem_of_ldel in Hq as [? ?]; split; [by exists par|done]|]. split; [by exists q|].
      intros ->. apply Hqp. by eapply (tree_one_parent _ _ ch q par z).
  - by apply NoDup_ldel.
  - intros c g'. rewrite elem_of_ldel. intros [Hin _] Hg'. destruct (Hb _ _ Hg') as (_&g&Hg&->). by apply (Hp c).
Qed.

(** Unlinking and forgetting a child. *)
Lemma unlink_child_runs k ch par z g :
  PTable k ch -> z ∈ ch par -> procs k !! z = Some g -> ch z = [] -> par <> z ->
  runs (do! unhash_proc z in remove_links z) k (fun _ k1 => exists m1, let k2 := set_procs (delete z m1) k1 in
    procs k1 = m1 /\ same_kin (procs k) m1 /\ PTable k2 (without ch par z) /\
    k1 = set_nr_process (s32 (nr_process k - 1)) (set_procs m1 (set_proc_list (ldel z (proc_list k)) (set_hash_list (ldel z <$> hash_list k) k)))).
Proof.
  intros HP Hz Hg Hc Hne. pose proof (pt_tree _ _ HP) as HT. apply list_elem_of_split in Hz as (l1&l2&Hl). unfold unhash_proc. runs_steps.
  pose proof (tr_nodup _ _ _ HT par) as Hnd. rewrite Hl in Hnd. assert (Hld : ldel z (ch par) = l1 ++ l2) by (rewrite Hl; by apply ldel_middle).
  set (k0 := set_hash_list (ldel z <$> hash_list k) k).
  eapply runs_mono; [apply (remove_links_runs k0 ch par z g l1 l2 HT Hl Hg)|]. cbn beta. intros _ k1 (m1&Hk1&HT1&Hk&_).
  exists m1. split; [by rewrite Hk1|]. split; [done|]. split; [|by rewrite Hk1].
  rewrite <-Hld in HT1. fold (without ch par z) in HT1. assert (Hu : unlinked (without ch par z) z).
  { intros q. unfold without, chupd. case_decide as Hq; [rewrite elem_of_ldel; tauto|]. intros Hin. apply Hq. eapply (tree_one_parent _ _ ch q par z HT); [done|].
    rewrite Hl. apply elem_of_app. right. apply list_elem_of_here. }
  apply (PTable_remove k _ ch par z HP); [rewrite Hl; apply elem_of_app; right; apply list_elem_of_here|cbn; by rewrite delete_delete_eq| |by rewrite Hk1|by rewrite Hk1|].
  - apply tree_delete; [done|done|]. unfold without. by rewrite chupd_other by done.
  - intros c Hcz. cbn. rewrite lookup_delete_ne by done. apply (same_core_pid _ _ (same_kin_core _ _ Hk)).
Qed.

Section Wait.
Context {X : Type} {pm : pmm_manager} `{!PmmOk pm} `{!PmmRunOk pm} {sc : sched_class} `{!SchedOk sc}.
Abbreviation st := (pst X).
Implicit Types (s : st) (a : aspace) (g : proc_struct).
Abbreviation SInv := (SInv (sc := sc)).

(** Pages that no address space uses. *)
Definition foreign a (p n : Z) : Prop := forall x, p <= x < p + n -> (x ∉ dirs a) /\ ~ is_table a x /\ (x ∉ upages a).

Lemma VRep_foreign dl a (v v' : vm) p n :
  VRep dl a v -> foreign a p n -> pm_inv (vpm v') -> npage (vpm v') = npage (vpm v) -> PageTable.status v' = PageTable.status v -> mem v' = mem v ->
  (forall x, ~ p <= x < p + n -> pm_owned (vpm v) x -> pm_owned (vpm v') x /\ pages (vpm v') !! x = pages (vpm v) !! x) -> VRep dl a v'.
Proof.
  intros [? ? ? Hd Ht ? ? ? ? Hu] Hf HI Hn Hs Hm Hpres. split; rewrite ?Hn, ?Hs, ?Hm; try done.
  - intros x Hx. destruct (Hd x Hx) as (Ho&?&?). split; [|done]. apply Hpres; [|done]. intros Hr. by destruct (Hf x Hr).
  - intros x i t Hti. destruct (Ht x i t Hti) as (?&?&Ho&?). split; [done|]. split; [done|]. split; [|done]. apply Hpres; [|done].
    intros Hr. destruct (Hf t Hr) as (_&Hnt&_). apply Hnt. by eexists.
  - intros x Hx. destruct (Hu x Hx) as (Ho&pg&Hpg&Hr). destruct (Hpres x) as [Ho' Hpg']; [intros Hr'; by destruct (Hf x Hr') as (_&_&?)|done|].
    split; [done|]. exists pg. by rewrite Hpg'.
Qed.

(** The kernel stack of [g]: a run of pages of its own. *)
Definition stack_of (v : vm) a g (p : Z) : Prop := kstack g = kva p /\ pm_run (vpm v) p KSTACKPAGE /\ foreign a p KSTACKPAGE.

Lemma put_kstack_runs s a z g p :
  procs (ks s) !! z = Some g -> VRep nodl a (kvm (ks s)) -> TlbOk a (kvm (ks s)) -> stack_of (kvm (ks s)) a g p ->
  runs (put_kstack pm z) s (fun _ s' => exists v, s' = set_ks (set_kvm v (ks s)) s /\ VRep nodl a v /\ TlbOk a v /\
    (forall x, p <= x < p + KSTACKPAGE -> ~ pm_owned (vpm v) x)).
Proof.
  intros Hg HV HT (Hk&Hrun&Hf). pose proof (r_npage _ _ _ HV) as Hnp.
  assert (Hpb : 0 <= p < npage (vpm (kvm (ks s)))) by (eapply owned_npage; [exact HV|]; eapply pm_run_owned; [exact Hrun|unfold KSTACKPAGE; lia]).
  unfold put_kstack. runs_steps. apply on_k_runs. eapply rd_proc_runs; [exact Hg|]. replace (set_ks (ks s) s) with s by (by destruct s).
  runs_steps. apply on_vm_runs. unfold kva2page, PADDR, pa2page. rewrite Hk. destruct (Z.ltb_spec (kva p) KERNBASE); [exfalso; addr; lia|]. runs_steps.
  rewrite <- (Z.add_0_r (kva p)), PPN_kva by lia. destruct (Z.leb_spec (npage (vpm (kvm (ks s)))) p); [lia|]. runs_steps.
  replace (set_ks (set_kvm (kvm (ks s)) (ks s)) s) with s by (by destruct s as [[]]). apply on_vm_runs. unfold free_pages.
  eapply runs_mono; [apply locked_runs; [apply HV|apply (pm_free_run (vpm (kvm (ks s))) p KSTACKPAGE); [apply HV|done|unfold KSTACKPAGE; lia]]|].
  cbn beta. intros _ v (He&HI&Hn&Hno&Hpres&_). exists v. split; [done|]. split; [|split; [|done]].
  - eapply VRep_foreign; [exact HV|exact Hf|done|done|by rewrite He|by rewrite He|done].
  - intros i e d Hi Hl Hc Hd. rewrite He in Hl, Hc. by apply (HT i e d).
Qed.

Lemma SInv_delete (k : kst) z g : SInv k -> procs k !! z = Some g -> state g = PROC_ZOMBIE -> z <> current k -> SInv (set_procs (delete z (procs k)) k).
Proof.
  intros HI Hg Hz Hc. assert (Hi : z <> idleproc k) by (intros ->; destruct (si_idle k HI) as (h&Hh&?); congruence). split; cbn.
  - apply HI.
  - intros p Hp. destruct (si_queued k HI p Hp) as (?&?&h&Hh&Hs). split; [done|]. split; [done|]. exists h. rewrite lookup_delete_ne; [done|]. intros ->. congruence.
  - intros p h Hh. apply lookup_delete_Some in Hh as [_ Hh]. by apply (si_all k HI).
  - rewrite lookup_delete_ne by done. apply HI.
  - destruct (si_idle k HI) as (h&Hh&?). exists h. by rewrite lookup_delete_ne.
Qed.

(** A zombie child that may be reaped. *)
Record Reapable s a ch (par z : Z) g (p : Z) : Prop := {
  rp_child : z ∈ ch par /\ par <> z;
  rp_proc : procs (ks s) !! z = Some g /\ state g = PROC_ZOMBIE;
  rp_ch : ch z = [];
  rp_special : z <> idleproc (ks s) /\ z <> initproc (ks s) /\ z <> current (ks s);
  rp_stack : stack_of (kvm (ks s)) a g p
}.

(** The table after [z] is gone: only the family pointers of the others changed. *)
Definition reaped s a ch par z p s' : Prop :=
  SInv (ks s') /\ PTable (ks s') (without ch par z) /\ procs (ks s') !! z = None /\ current (ks s') = current (ks s) /\
  nr_process (ks s') = s32 (nr_process (ks s) - 1) /\ same_core (delete z (procs (ks s))) (procs (ks s')) /\
  VRep nodl a (kvm (ks s')) /\ TlbOk a (kvm (ks s')) /\ (forall x, p <= x < p + KSTACKPAGE -> ~ pm_owned (vpm (kvm (ks s'))) x) /\
  s' = set_ks (ks s') s.

Lemma reap_runs s a ch par z g p :
  SInv (ks s) -> PTable (ks s) ch -> VRep nodl a (kvm (ks s)) -> TlbOk a (kvm (ks s)) -> Reapable s a ch par z g p ->
  runs (reap pm z) s (fun r s' => r = exit_code g /\ reaped s a ch par z p s').
Proof.
  intros HI HP HV HT [[Hz Hne] [Hg Hst] Hc (Hni&Hnn&Hnc) Hs]. unfold reap. runs_steps.
  rewrite (proj2 (Z.eqb_neq z (idleproc (ks s)))), (proj2 (Z.eqb_neq z (initproc (ks s)))) by done. cbn [orb]. runs_steps.
  apply on_k_runs. eapply rd_proc_runs; [exact Hg|]. replace (set_ks (ks s) s) with s by (by destruct s).
  pose proof (unlink_child_runs (ks s) ch par z g HP Hz Hg Hc Hne) as HU. unfold unhash_proc in *. runs_steps. apply on_k_runs. runs_steps.
  set (k0 := set_hash_list (ldel z <$> hash_list (ks s)) (ks s)). assert (HU' : runs (remove_links z) k0 (fun _ k1 => exists m1, let k2 := set_procs (delete z m1) k1 in
    procs k1 = m1 /\ same_kin (procs (ks s)) m1 /\ PTable k2 (without ch par z) /\
    k1 = set_nr_process (s32 (nr_process (ks s) - 1)) (set_procs m1 (set_proc_list (ldel z (proc_list (ks s))) k0)))) by exact HU.
  eapply on_k_then; [exact HU'|]. cbn beta. intros _ k1 (m1&Hm1&Hk&HP2&Hk1).
  assert (Hg1 : exists g1, m1 !! z = Some g1 /\ core g1 = core g) by (apply (same_core_look (procs (ks s))); [by apply same_kin_core|done]). destruct Hg1 as (g1&Hg1&He1).
  destruct (core_fields _ _ He1) as (Hs1&_&_&_&_&_&Hks1). assert (Hv1 : kvm k1 = kvm (ks s)) by (by rewrite Hk1).
  runs_steps. eapply runs_mono; [apply (put_kstack_runs _ a z g1 p); cbn; [by rewrite Hm1|by rewrite Hv1|by rewrite Hv1|rewrite Hv1; destruct Hs as (?&?&?); split; [congruence|done]]|].
  cbn beta. intros _ s2 (v&->&HV2&HT2&Hno). runs_steps. unfold kfree_proc. apply on_k_runs. runs_steps. cbn [ks set_ks].
  split; [done|]. unfold reaped. cbn [ks set_ks].
  assert (Hpr : procs (set_kvm v k1) = m1) by (by rewrite <-Hm1). rewrite Hpr.
  assert (HI1 : SInv (set_kvm v k1)).
  { replace (set_kvm v k1) with (set_kvm v (set_nr_process (s32 (nr_process (ks s) - 1)) (set_proc_list (ldel z (proc_list (ks s))) (set_hash_list (ldel z <$> hash_list (ks s)) (set_procs m1 (ks s)))))) by (by rewrite Hk1).
    pose proof (SInv_core (ks s) m1 HI (same_kin_core _ _ Hk)) as []. split; done. }
  split; [rewrite <-Hpr; eapply SInv_delete; [done|rewrite Hpr; exact Hg1|by rewrite Hs1|cbn; by rewrite Hk1]|].
  split; [destruct HP2 as [? [] ? ? ?]; split; [done|split; done|done..]|]. split; [cbn; by rewrite lookup_delete_eq|]. split; [cbn; by rewrite Hk1|]. split; [cbn; by rewrite Hk1|].
  split; [|by split]. cbn. unfold same_core. rewrite !fmap_delete. f_equal. by apply same_kin_core.
Qed.

(** ** [do_wait] *)

Record WaitOk s a ch : Prop := {
  wo_sched : SInv (ks s);
  wo_table : PTable (ks s) ch;
  wo_vm : VRep nodl a (kvm (ks s)) /\ TlbOk a (kvm (ks s));
  wo_cur : current (ks s) <> idleproc (ks s);
  wo_kids : forall z, z ∈ ch (current (ks s)) -> is_zombie (procs (ks s)) z -> exists g p, Reapable s a ch (current (ks s)) z g p
}.

Definition asleep g : proc_struct := set_wait_state WT_CHILD (set_state PROC_SLEEPING g).

Definition waited s a ch (p : Z) (r : wait_result) s' : Prop :=
  let cur := current (ks s) in
  match r with
  | WaitDone e (Some code) => e = 0 /\ exists z g q, wanted (ks s) ch p z /\ Reapable s a ch cur z g q /\ code = exit_code g /\ reaped s a ch cur z q s'
  | WaitDone e None => e = - E_BAD_PROC /\ s' = s /\ forall c, ~ wanted (ks s) ch p c
  | WaitSleep => (exists c, wanted (ks s) ch p c) /\ (forall c, wanted (ks s) ch p c -> ~ is_zombie (procs (ks s)) c) /\
      SInv (ks s') /\ current (ks s') <> cur /\ PTable (ks s') ch /\ same_procs (alter asleep cur (procs (ks s))) (procs (ks s'))
  end.

(** C12: One pass of [do_wait(p)] by a process whose children, when they are zombies, are
    complete: it takes a zombie child out of the table (any one for [p] = 0, else the
    one with that identifier), returning its exit code and freeing its kernel stack,
    exactly when there is one; it sleeps exactly when there are such children but
    none is a zombie; it fails exactly when there is no such child. *)
Theorem do_wait_pass_correct s a ch p : WaitOk s a ch -> runs (do_wait_pass pm sc p) s (fun r s' => waited s a ch p r s').
Proof.
  intros [HI HP [HV HT] Hc Hk]. unfold do_wait_pass. runs_steps. eapply on_k_then; [apply (wait_search_runs (ks s) ch p HP), HI|]. cbn beta.
  intros r k [-> Hr]. replace (set_ks (ks s) s) with s by (by destruct s). destruct r as [[z|] [|]].
  1, 2: destruct Hr as [Hw Hz]; destruct (Hk z (proj1 Hw) Hz) as (g&q&HR); runs_steps;
    (eapply runs_mono; [apply (reap_runs s a ch (current (ks s)) z g q HI HP HV HT HR)|]); cbn beta; intros code s' [-> Hre]; runs_steps;
    (split; [done|]); exists z, g, q; done.
  - destruct Hr as [Hw Hnz]. destruct (si_current _ HI) as [g Hg]. runs_steps. apply on_k_runs. eapply upd_alter_runs; [by eexists|]. runs_steps.
    apply on_k_runs. eapply upd_alter_runs; [cbn; apply alter_is_some; by eexists|]. runs_steps. cbn [ks set_ks procs set_procs]. rewrite alter_alter_eq.
    set (k1 := set_procs (alter asleep (current (ks s)) (procs (ks s))) (ks s)). assert (HI1 : SInv k1) by (by apply SInv_current).
    eapply (on_k_then _ _ _ (fun _ k2 => scheduled k1 k2)); [by apply schedule_runs|]. cbn beta. intros _ k2 ((_&_&_&_&_&Hpl&Hhl&_)&HI2&Hs2&(g2&Hg2&Hr2)&_).
    runs_steps. split; [done|]. split; [done|]. cbn [ks set_ks]. split; [done|]. assert (Hne : current k2 <> current (ks s)).
    { intros He. rewrite He in Hg2. assert (Hg1 : procs k1 !! current (ks s) = Some (asleep g)) by (cbn; by rewrite lookup_alter_eq, Hg).
      destruct (same_procs_some _ _ _ _ Hs2 Hg1) as (g2'&Hg2'&He2). destruct (score_state _ _ He2) as (Hst&_). cbn in Hst. congruence. }
    split; [done|]. split; [|done]. apply (PTable_pids (ks s) k2 ch ch); [done| |done|done| |done].
    + eapply (tree_frame _ (procs k1)); [eapply tree_frame; [apply HP|]; intros x; by apply alter_same|]. by apply same_procs_fam.
    + intros c. rewrite (same_core_pid _ _ (same_procs_core _ _ Hs2) c). by apply alter_same.
  - runs_steps. done.
Qed.
End Wait.
