(* ===== verification/ProcEx.v ===== *)
(** * A machine with a family of processes

    idle 1 is the parent of init 2, which waits for a child; shell 3 is init's child
    and runs; its children are 4, a zombie with the kernel stack on pages 57 and 58,
    and 5, which sleeps.  The shell has the address space of VmmThm.v and the open
    files of DevThm.v.  The theorems on exiting, waiting and killing apply to it. *)

From stdpp Require Import base gmap list.
From Stdlib Require Import ZArith Lia Bool.
From S2P Require Import Prelude.
From S2P Require Import Dlist.
From S2P Require Import Buddy.
From S2P Require Import BuddyInv.
From S2P Require Import BuddyOps.
From S2P Require Import BuddyThm.
From S2P Require Import Pmm.
From S2P Require Import PageTable.
From S2P Require Import PageTableInv.
From S2P Require Import PageTableOps.
From S2P Require Import PageTableThm.
From S2P Require Import Vmm.
From S2P Require Import VmmThm.
From S2P Require Import KState.
From S2P Require Import Sched.
From S2P Require Import SchedThm.
From S2P Require Import Vfs.
From S2P Require Import VfsInv.
From S2P Require Import FileThm.
From S2P Require Import Dev.
From S2P Require Import DevThm.
From S2P Require Import Proc.
From S2P Require Import ProcThm.
From S2P Require Import Family.
From S2P Require Import ExitThm.
From S2P Require Import WaitThm.

(** state, identifier, wait state, parent, youngest child, younger and older sibling *)
Definition fam_proc (st : proc_state) (n w : Z) (par c y o : option Z) : proc_struct :=
  mkProc st n 0 (kva (if n =? 3 then 57 else 0)) false par (if n =? 2 then Some 7 else None) 0 0 (if n =? 3 then 42 else 0) w c y o 0.
Definition p_idle := fam_proc PROC_RUNNABLE 0 0 None (Some 2) None None.
Definition p_init := fam_proc PROC_SLEEPING 1 WT_CHILD (Some 1) (Some 3) None None.
Definition p_shell := fam_proc PROC_RUNNABLE 2 0 (Some 2) (Some 5) None None.
Definition p_zombie := fam_proc PROC_ZOMBIE 3 0 (Some 3) None (Some 5) None.
Definition p_sleeper := fam_proc PROC_SLEEPING 4 WT_TIMER (Some 3) None None (Some 4).

Definition fam_procs : gmap Z proc_struct := {[1 := p_idle; 2 := p_init; 3 := p_shell; 4 := p_zombie; 5 := p_sleeper]}.
Definition fam_ch (p : Z) : list Z := if p =? 1 then [2] else if p =? 2 then [3] else if p =? 3 then [5; 4] else [].
Definition fam_k : kst :=
  mkK fam_procs 3 1 2 (mkRq [] 0 20) ∅ [] ∅ ∅ ∅ [5; 4; 3; 2] (list_to_map ((fun p => (pid_hashfn (p - 1), [p])) <$> [2; 3; 4; 5])) 5 8192 4 ex_vm.
Definition fam_s : pst devst :=
  mkP fam_k {[7 := with_count 1 ex_mm]} ex_fst {[3 := 1]} ∅ ∅ (kva 54) (kva 54).
Definition fam_as : aspace := mkAs {[53]} {[(53, 65) := 55]} {[(53, 66560) := (56, PTE_USER)]} {[56]}.

Lemma fam_lookup x g : fam_procs !! x = Some g ->
  (x = 1 /\ g = p_idle) \/ (x = 2 /\ g = p_init) \/ (x = 3 /\ g = p_shell) \/ (x = 4 /\ g = p_zombie) \/ (x = 5 /\ g = p_sleeper).
Proof. unfold fam_procs. rewrite !lookup_insert, lookup_singleton. repeat case_decide; try (intros [= <-]; naive_solver). Qed.

Lemma fam_in p c : c ∈ fam_ch p -> (p = 1 /\ c = 2) \/ (p = 2 /\ c = 3) \/ (p = 3 /\ (c = 5 \/ c = 4)).
Proof.
  unfold fam_ch. destruct (Z.eqb_spec p 1); [|destruct (Z.eqb_spec p 2); [|destruct (Z.eqb_spec p 3)]]; rewrite ?elem_of_cons, ?elem_of_nil; intuition.
Qed.

Lemma fam_tree : Tree fam_procs fam_ch.
Proof.
  split.
  - intros p g Hg. destruct (fam_lookup p g Hg) as [[-> ->]|[[-> ->]|[[-> ->]|[[-> ->]|[-> ->]]]]]; reflexivity.
  - intros p. unfold fam_ch. destruct (Z.eqb_spec p 1) as [->|]; [|destruct (Z.eqb_spec p 2) as [->|]; [|destruct (Z.eqb_spec p 3) as [->|]]]; cbn [seg].
    + split; [|done]. eexists. split; reflexivity || done.
    + split; [|done]. eexists. split; reflexivity || done.
    + split; [eexists; split; reflexivity || done|]. split; [|done]. eexists. split; reflexivity || done.
    + done.
  - intros p. unfold fam_ch. destruct (Z.eqb_spec p 1) as [->|]; [|destruct (Z.eqb_spec p 2) as [->|]; [|destruct (Z.eqb_spec p 3) as [->|]; [|done]]]; by eexists.
  - intros p. unfold fam_ch. destruct (p =? 1); [|destruct (p =? 2); [|destruct (p =? 3)]]; apply (bool_decide_unpack _); vm_compute; exact I.
Qed.

Lemma fam_sched : SInv (sc := default_sched_class) fam_k.
Proof.
  split.
  - apply NoDup_nil_2.
  - intros p Hp. by apply elem_of_nil in Hp.
  - intros p g Hp Hst. destruct (fam_lookup p g Hp) as [[-> ->]|[[-> ->]|[[-> ->]|[[-> ->]|[-> ->]]]]]; cbn; try done; [right; by left|by left].
  - by eexists.
  - by eexists.
Qed.

Lemma fam_table_in p : p ∈ proc_list fam_k <-> p = 2 \/ p = 3 \/ p = 4 \/ p = 5.
Proof. cbn. rewrite !elem_of_cons, elem_of_nil. intuition. Qed.
Lemma fam_pid p g : p ∈ proc_list fam_k -> procs fam_k !! p = Some g -> pid g = p - 1.
Proof. intros [-> | [-> | [-> | ->]]]%fam_table_in; intros [= <-]; reflexivity. Qed.
Lemma fam_known : pids_known fam_k.
Proof. intros p [-> | [-> | [-> | ->]]]%fam_table_in; by eexists. Qed.
Lemma fam_bucket h p : p ∈ bucket fam_k h -> p ∈ proc_list fam_k /\ h = pid_hashfn (p - 1).
Proof.
  unfold bucket. destruct (hash_list fam_k !! h) as [l|] eqn:Hh; [|intros []%elem_of_nil]. intros Hp.
  cbn [hash_list fam_k] in Hh. apply elem_of_list_to_map_2 in Hh. apply list_elem_of_fmap in Hh as (q&[= -> ->]&Hq).
  apply list_elem_of_singleton in Hp as ->. split; [|done]. apply fam_table_in. rewrite !elem_of_cons, elem_of_nil in Hq. tauto.
Qed.

Lemma fam_hash : HashInv fam_k.
Proof.
  split.
  - intros h p Hp. by apply fam_bucket in Hp as [Hp _].
  - intros h p g Hp Hg. apply fam_bucket in Hp as [Hp ->]. by rewrite (fam_pid p g).
  - intros p g Hp Hg. rewrite (fam_pid p g Hp Hg). apply fam_table_in in Hp as [-> | [-> | [-> | ->]]]; vm_compute; left.
  - exact fam_known.
  - intros p q g h Hp Hq Hg Hh He. rewrite (fam_pid p g Hp Hg), (fam_pid q h Hq Hh) in He. lia.
Qed.

Lemma fam_table : PTable fam_k fam_ch.
Proof.
  split; [exact fam_tree|exact fam_hash| | |].
  - intros c. rewrite fam_table_in. split.
    + intros [-> | [-> | [-> | ->]]]; [exists 1|exists 2|exists 3|exists 3]; apply (bool_decide_unpack _); reflexivity.
    + intros [q Hq]. apply fam_in in Hq. lia.
  - apply (bool_decide_unpack _). vm_compute. exact I.
  - intros c g Hc Hg. rewrite (fam_pid c g Hc Hg). apply fam_table_in in Hc. unfold MAX_PID, MAX_PROCESS. lia.
Qed.

Lemma fam_vm : VRep (pm := buddy_pmm_manager) nodl fam_as ex_vm.
Proof.
  destruct ex_vm_rep as [H1 H2 H3 H4 H5 H6 H7 H8 H9 H10]. split; [done|done|done| | |done| |done| |]; cbn [dirs tbls maps upages fam_as].
  - intros x ->%elem_of_singleton. destruct (H4 53) as (?&?&?); [apply elem_of_two; lia|]. split; [done|]. split; [rewrite elem_of_singleton; lia|done].
  - intros x i t Ht. destruct (H5 x i t Ht) as (?&?&?&?). cbn in Ht. apply lookup_singleton_Some in Ht as [[= <- <-] <-].
    split; [by apply elem_of_singleton|]. split; [done|]. split; [done|]. rewrite elem_of_singleton. lia.
  - intros x i ->%elem_of_singleton. apply H7, elem_of_two. lia.
  - intros x v p perm Hm. destruct (H9 x v p perm Hm) as (?&?&?&?). cbn in Hm. apply lookup_singleton_Some in Hm as [[= <- <-] [= <- <-]].
    split; [done|]. split; [done|]. split; [by apply elem_of_singleton|done].
  - intros p ->%elem_of_singleton. apply H10, elem_of_two. lia.
Qed.
Lemma fam_tlb : TlbOk fam_as ex_vm.
Proof. intros i e d _ He. discriminate. Qed.

Lemma fam_stack : stack_of (pm := buddy_pmm_manager) ex_vm fam_as p_zombie 57.
Proof.
  split; [done|]. split.
  - assert (Hpg : exists pg, pages ex_pmm6 !! 56 = Some pg) by (eexists; vm_compute; reflexivity). destruct Hpg as [pg Hpg].
    assert (Hvp : vpm ex_vm = upd_pages (fun m => <[56 := set_page_ref 1 pg]> m) ex_pmm6).
    { unfold ex_vm, upd_pages. cbn [vpm]. f_equal. apply map_eq. intros y. rewrite lookup_insert, lookup_alter. case_decide; [subst y; by rewrite Hpg|done]. }
    assert (Ho : forall x, 57 <= x < 59 -> buddy_owned (vpm ex_vm) x).
    { intros x Hx. rewrite Hvp. destruct (buddy_set_ref ex_pmm6 56 pg 1 (proj1 ex_pmm6_spec) (ex_owned 56 ltac:(lia)) Hpg) as [_ Hown]. apply Hown, ex_owned. lia. }
    split; [|intros x Hx; apply Ho; unfold KSTACKPAGE in Hx; lia]. exists 0, 5. split; [vm_compute; reflexivity|]. split; [lia|]. split; [vm_compute; discriminate|].
    intros x Hx. unfold KSTACKPAGE in Hx. assert (x = 57 \/ x = 58) as [-> | ->] by lia; (eexists; split; [vm_compute; reflexivity|split; reflexivity]).
  - intros x Hx. unfold KSTACKPAGE in Hx. cbn [dirs upages fam_as]. rewrite !elem_of_singleton. split; [lia|]. split; [|lia].
    intros [k Hk]. cbn in Hk. apply lookup_singleton_Some in Hk as [_ ?]. lia.
Qed.

Lemma fam_mm : MmOk (pm := buddy_pmm_manager) fam_as (with_count 1 ex_mm) 53.
Proof.
  split.
  - exact ex_mm_wf.
  - reflexivity.
  - apply (bool_decide_unpack _). reflexivity.
  - intros v p Hp. cbn in Hp. apply lookup_singleton_Some in Hp as [[= <-] _]. exists ex_data. split; [left|]. unfold covers. cbn. lia.
  - intros i t Hp. cbn in Hp. apply lookup_singleton_Some in Hp as [[= <-] _]. exists ex_data. split; [left|]. vm_compute. split; [discriminate|reflexivity].
  - cbn. lia.
Qed.

Lemma fam_files : fs_held ex_fst 1.
Proof.
  exists (mkFsS None 1). split; [done|]. split; [cbn; lia|]. intros _ j x Hx. cbn in Hx. unfold ex_files in Hx. unfold quiet.
  destruct (decide (j = 0)) as [->|H0]; [rewrite lookup_insert_eq in Hx; injection Hx as <-; by right|].
  rewrite lookup_insert_ne in Hx by congruence.
  destruct (decide (j = 1)) as [->|H1]; [rewrite lookup_insert_eq in Hx; injection Hx as <-; by right|].
  rewrite lookup_insert_ne in Hx by congruence. apply ex_fresh_lookup in Hx as (_&_&->). by left.
Qed.

Lemma fam_exiting : Exiting (pm := buddy_pmm_manager) (sc := default_sched_class) ex_ops fam_s fam_as ex_xr fam_ch 2 p_shell.
Proof.
  split.
  - reflexivity.
  - discriminate.
  - discriminate.
  - exact fam_sched.
  - exact fam_table.
  - done.
  - split; exists p_init; done.
  - apply (bool_decide_unpack _). reflexivity.
  - split; [exact fam_vm|]. split; [exact fam_tlb|]. split.
    + intros m [= <-]. exists (with_count 1 ex_mm), 53. split; [reflexivity|exact fam_mm].
    + intros d Hd. change (kva 54 = kva d) in Hd. unfold kva in Hd. cbn [dirs fam_as]. rewrite elem_of_singleton. lia.
  - split; [exact ex_FInv|]. intros p [= <-]. exact fam_files.
Qed.

(** The shell exits with code 9: it is a zombie, [init] is woken, its children are
    [init]'s, its address space and files are gone. *)
Lemma do_exit_correct_witness :
  runs (do_exit buddy_pmm_manager default_sched_class ex_ops 9) fam_s (fun _ s' =>
    PTable (ks s') (adopted fam_ch 3 2) /\ adopted fam_ch 3 2 2 = [4; 5; 3] /\ mms s' = ∅ /\ fss (fsys s') = ∅ /\
    exists g i, procs (ks s') !! 3 = Some g /\ state g = PROC_ZOMBIE /\ exit_code g = 9 /\ procs (ks s') !! 2 = Some i /\ state i = PROC_RUNNABLE).
Proof.
  eapply runs_mono; [apply (do_exit_correct ex_ops fam_s fam_as ex_xr fam_ch 2 p_shell 9 fam_exiting)|].
  cbn beta. intros _ s' (_&_&_&HP&Hc&(a'&Hr&_)&_&Hf). split; [exact HP|]. split; [reflexivity|]. split; [|split].
  - destruct Hr as [Hn|m mm x Hm Hl _ Hgt|m mm x [= <-] Hl _ _ -> _]; [discriminate| |reflexivity].
    injection Hm as <-. change (Some (with_count 1 ex_mm) = Some mm) in Hl. apply (inj Some) in Hl as <-. vm_compute in Hgt. discriminate.
  - rewrite (Hf 1 (mkFsS None 1)) by reflexivity. reflexivity.
  - assert (H3 : exit_table fam_procs fam_ch 3 2 2 9 !! 3 = Some (ended 9 p_shell)) by reflexivity.
    assert (H2 : exit_table fam_procs fam_ch 3 2 2 9 !! 2 = Some (awake p_init)) by reflexivity.
    destruct (same_core_look _ _ _ _ Hc H3) as (g&Hg&E3), (same_core_look _ _ _ _ Hc H2) as (i&Hi&E2).
    destruct (core_fields _ _ E3) as (S3&_&_&C3&_), (core_fields _ _ E2) as (S2&_). exists g, i. rewrite S3, C3, S2. done.
Defined.

Lemma fam_wait : WaitOk (pm := buddy_pmm_manager) (sc := default_sched_class) fam_s fam_as fam_ch.
Proof.
  split; [exact fam_sched|exact fam_table|split; [exact fam_vm|exact fam_tlb]|discriminate|].
  intros z Hz (g&Hg&Hst). destruct (fam_in _ _ Hz) as [[Hp _]|[[Hp _]|[_ [-> | ->]]]]; [discriminate..|injection Hg as <-; discriminate|].
  exists p_zombie, 57. split.
  - split; [exact Hz|discriminate].
  - split; reflexivity.
  - reflexivity.
  - done.
  - exact fam_stack.
Qed.

(** The shell waits for any child: it gets the exit code of 4, which is gone. *)
Lemma do_wait_pass_correct_witness :
  runs (do_wait_pass buddy_pmm_manager default_sched_class 0) fam_s (fun r s' =>
    r = WaitDone 0 (Some 42) /\ procs (ks s') !! 4 = None /\ PTable (ks s') (without fam_ch 3 4) /\ without fam_ch 3 4 3 = [5]).
Proof.
  eapply runs_mono; [apply (do_wait_pass_correct fam_s fam_as fam_ch 0 fam_wait)|].
  assert (Hw : wanted fam_k fam_ch 0 4) by (split; [apply (bool_decide_unpack _); reflexivity|by left]).
  cbn beta. intros r s' H. destruct r as [e [code|]|].
  - destruct H as (->&z&g&q&_&[[Hz _] [Hg Hst] _ _ _]&->&(_&HP&Hn&_)).
    destruct (fam_in _ _ Hz) as [[Hp _]|[[Hp _]|[_ [-> | ->]]]]; [discriminate..|injection Hg as <-; discriminate|].
    injection Hg as <-. split; [reflexivity|]. split; [exact Hn|]. split; [exact HP|reflexivity].
  - destruct H as (_&_&H). destruct (H 4 Hw).
  - destruct H as (_&H&_). destruct (H 4 Hw). by exists p_zombie.
Defined.

(** Killing 4, the identifier of the sleeper 5, marks and wakes it. *)
Lemma do_kill_correct_witness :
  runs (do_kill default_sched_class 4) fam_k (fun r k' => r = 0 /\ exists g, procs k' !! 5 = Some g /\ state g = PROC_RUNNABLE /\ p_flags g = PF_EXITING).
Proof.
  eapply runs_mono; [apply (do_kill_correct fam_k 4 fam_sched fam_hash)|].
  - intros c g Hg Hi. destruct (fam_lookup c g Hg) as [[-> ->]|[[-> ->]|[[-> ->]|[[-> ->]|[-> ->]]]]]; try (destruct Hi; reflexivity); reflexivity.
  - cbn beta. intros r k' [(_&_&H)|(c&g&Hc&Hg&He&H)].
    + destruct (H 5 p_sleeper); [apply fam_table_in; lia|reflexivity|vm_compute; split; reflexivity|reflexivity].
    + rewrite (fam_pid c g Hc Hg) in He. assert (c = 5) as -> by lia. injection Hg as <-. destruct H as [(_&_&H)|(->&_&_&_&Hs)]; [destruct H; reflexivity|].
      split; [reflexivity|]. apply same_procs_sym in Hs.
      destruct (same_procs_some _ _ 5 (awake (killed p_sleeper)) Hs) as (g'&Hg'&E); [rewrite lookup_insert_eq; reflexivity|]. exists g'. split; [exact Hg'|].
      split; [apply (f_equal state) in E; exact E|apply (f_equal p_flags) in E; exact E].
Defined.
