(* ===== verification/Gdb.v ===== *)
(** * The kernel debugger (gdbcmd and debug_handler of kern/trap/trap.c)

    A command line from [readline] is looked at as a buffer of bytes; what is after its
    NUL is whatever earlier lines left there.  The two breakpoint registers are the CP0
    registers that [writewatchlo] and [writewatchhi] set. *)

From stdpp Require Import base gmap list.
From Stdlib Require Import ZArith Lia Bool String.
From S2P Require Import Prelude.
From S2P Require Import Printf.
From S2P Require Import Proc.

#[local] Abbreviation length := Datatypes.length.

Record dbg := mkDbg { d_tf : trapframe; watchlo : Z; watchhi : Z }.
Definition set_tf tf d := mkDbg tf (watchlo d) (watchhi d).
Definition set_watch lo hi d := mkDbg (d_tf d) lo hi.
Definition set_ra v (tf : trapframe) := mkTf (tf_vaddr tf) (tf_status tf) (tf_cause tf) (tf_lo tf) (tf_hi tf) v (reg_r tf) (tf_epc tf).

Definition conv (c : Z) : Z := if (47 <? c) && (c <? 58) then c - 48 else c - 87.

(** [(buf[i] < 48 || buf[i] > 57) && (buf[i] < 97 || buf[i] > 102)] *)
Definition not_hex (c : Z) : bool := ((c <? 48) || (57 <? c)) && ((c <? 97) || (102 <? c)).
(** The [valid] loops: indices from [i], [k] of them. *)
Fixpoint all_hex (buf : Z -> Z) (k : nat) (i : Z) : bool :=
  match k with O => true | S k => negb (not_hex (buf i)) && all_hex buf k (i + 1) end.
(** [for (i = 0; i < 8; i++) ad = ad * 16 + conv(buf[i + ...]);] *)
Fixpoint read_hex (buf : Z -> Z) (k : nat) (i ad : Z) : Z :=
  match k with O => ad | S k => read_hex buf k (i + 1) (u32 (ad * 16 + conv (buf i))) end.

(** The sign-extended 16-bit offset, times four. *)
Definition branch_off (instr : Z) : Z := Z.shiftr (s32 (Z.shiftl (Z.land instr 0xffff) 16)) 14.

(** The breakpoints for one step: [breakPoint1] and [breakPoint2].  In C,
    [currentInstruction & 0x3f == 8] is [currentInstruction & (0x3f == 8)]. *)
Definition step_points (instr pc : Z) (tf : trapframe) : Z * Z :=
  let type := Z.shiftr instr 26 in
  if type =? 0 then
    if negb (Z.land instr (if 0x3f =? 8 then 1 else 0) =? 0) || negb (Z.land instr (if 0x3f =? 9 then 1 else 0) =? 0) then
      let destination := Z.land (Z.shiftr instr 21) 0x1f in
      (u32 (pc + 8), if destination =? 31 then tf_ra tf else if destination =? 0 then 0 else reg_r tf (destination - 1))
    else (u32 (pc + 4), 0)
  else if type =? 1 then
    let rtv := Z.land (Z.shiftr instr 16) 0x1f in
    if (rtv =? 0) || (rtv =? 1) then (u32 (pc + 8), u32 (pc + 4 + branch_off instr)) else (u32 (pc + 4), 0)
  else if (type =? 2) || (type =? 3) then
    (u32 (pc + 8), u32 (Z.land pc 0xf0000000 + Z.land instr 0x03ffffff * 4))
  else if (4 <=? type) && (type <=? 7) then (u32 (pc + 8), u32 (pc + 4 + branch_off instr))
  else (u32 (pc + 4), 0).

(** [fetch]: the word at an address.  The result is -1 to leave the debugger. *)
Definition gdbcmd (fetch : Z -> Z) (buf : Z -> Z) (d : dbg) : Z * dbg :=
  let tf := d_tf d in
  if buf 0 =? 99 then (-1, d)
  else if buf 0 =? 114 then (0, d)
  else if buf 0 =? 98 then
    if negb (buf 1 =? 32) then (0, d)
    else if negb (all_hex buf 8 2) then (0, d)
    else (0, set_watch (read_hex buf 8 2 0) (watchhi d) d)
  else if buf 0 =? 116 then
    if negb (buf 1 =? 32) || negb (buf 4 =? 32) then (0, d)
    else if negb (all_hex buf 2 2) || negb (all_hex buf 8 5) then (0, d)
    else
      let rs := u32 (conv (buf 2) * 16 + conv (buf 3)) in
      if (rs =? 0) || (32 <=? rs) then (0, d)
      else
        let v := read_hex buf 8 5 0 in
        if rs =? 31 then (0, set_tf (set_ra v tf) d) else (0, set_tf (set_reg (rs - 1) v tf) d)
  else if buf 0 =? 115 then
    let '(bp1, bp2) := step_points (fetch (tf_epc tf)) (tf_epc tf) tf in
    (-1, set_watch bp1 bp2 d)
  else (0, d).

(** [debug_handler]: commands until one leaves; [lines]: what [readline] returns. *)
Fixpoint debug_loop (fetch : Z -> Z) (lines : list (Z -> Z)) (d : dbg) : outcome dbg :=
  match lines with
  | [] => NoFuel
  | buf :: lines => let '(r, d) := gdbcmd fetch buf d in if r <? 0 then Ok d else debug_loop fetch lines d
  end.
Definition debug_handler (fetch : Z -> Z) (lines : list (Z -> Z)) (d : dbg) : outcome dbg :=
  debug_loop fetch lines (set_watch 0 0 d).

(** ** Where an instruction can go *)

Definition gpr (tf : trapframe) (r : Z) : Z := if r =? 31 then tf_ra tf else if r =? 0 then 0 else reg_r tf (r - 1).
Definition simm (instr : Z) : Z := let o := instr mod 65536 in if o <? 32768 then o else o - 65536.
Definition opcode (instr : Z) : Z := instr / 67108864.
Definition funct (instr : Z) : Z := instr mod 64.
Definition rs_field (instr : Z) : Z := instr / 2097152 mod 32.
Definition rt_field (instr : Z) : Z := instr / 65536 mod 32.

Definition is_jump_reg (instr : Z) : Prop := opcode instr = 0 /\ (funct instr = 8 \/ funct instr = 9).
Definition is_branch_link (instr : Z) : Prop := opcode instr = 1 /\ (rt_field instr = 16 \/ rt_field instr = 17).
Definition is_branch (instr : Z) : Prop := 4 <= opcode instr <= 7 \/ (opcode instr = 1 /\ (rt_field instr = 0 \/ rt_field instr = 1)) \/ is_branch_link instr.
Definition is_jump (instr : Z) : Prop := opcode instr = 2 \/ opcode instr = 3.

(** MIPS32: the address executed after the instruction at [pc] (and after its delay slot
    if it has one). *)
Inductive succ (tf : trapframe) (instr pc : Z) : Z -> Prop :=
  | succ_next : ~ is_jump_reg instr -> ~ is_branch instr -> ~ is_jump instr -> succ tf instr pc (u32 (pc + 4))
  | succ_jump_reg : is_jump_reg instr -> succ tf instr pc (gpr tf (rs_field instr))
  | succ_taken : is_branch instr -> succ tf instr pc (u32 (pc + 4 + 4 * simm instr))
  | succ_not_taken : is_branch instr -> succ tf instr pc (u32 (pc + 8))
  | succ_jump : is_jump instr -> succ tf instr pc ((pc + 4) / 268435456 * 268435456 + instr mod 67108864 * 4).

Lemma branch_off_spec instr : is_u32 instr -> branch_off instr = 4 * simm instr.
Proof.
  intros Hi. unfold branch_off, simm. change 0xffff with (Z.ones 16). rewrite Z.land_ones by lia. rewrite Z.shiftl_mul_pow2, Z.shiftr_div_pow2 by lia.
  change (2 ^ 16) with 65536. change (2 ^ 14) with 16384. unfold s32, W32. destruct (Z.ltb_spec (instr mod 65536) 32768); mlia.
Qed.

Lemma field_ones x k n : 0 <= n -> 0 <= k -> Z.land (Z.shiftr x n) (Z.ones k) = x / 2 ^ n mod 2 ^ k.
Proof. intros. by rewrite Z.shiftr_div_pow2, Z.land_ones by lia. Qed.

Lemma region pc : is_u32 pc -> Z.land pc 0xf0000000 = pc / 268435456 * 268435456.
Proof.
  intros Hp. change 0xf0000000 with (Z.shiftl (Z.ones 4) 28). apply Z.bits_inj'. intros i Hi. change 268435456 with (2 ^ 28). rewrite <- Z.shiftl_mul_pow2, <- Z.shiftr_div_pow2 by lia.
  rewrite Z.land_spec. destruct (decide (i < 28)); [rewrite !Z.shiftl_spec_low by lia; apply andb_false_r|].
  rewrite !Z.shiftl_spec by lia. rewrite Z.shiftr_spec by lia. replace (i - 28 + 28) with i by lia. destruct (decide (i < 32)).
  - rewrite Z.ones_spec_low by lia. apply andb_true_r.
  - rewrite Z.ones_spec_high, andb_false_r by lia. symmetry. destruct (decide (pc = 0)) as [->|]; [apply Z.bits_0|]. apply Z.bits_above_log2; [unfold is_u32 in Hp; lia|].
    unfold is_u32, W32 in Hp. apply Z.lt_le_trans with 32; [|lia]. apply Z.log2_lt_pow2; lia.
Qed.

Lemma step_points_spec instr pc tf : is_u32 instr -> is_u32 pc ->
  step_points instr pc tf =
    if decide (is_jump instr) then (u32 (pc + 8), u32 (pc / 268435456 * 268435456 + instr mod 67108864 * 4))
    else if decide (is_branch instr /\ ~ is_branch_link instr) then (u32 (pc + 8), u32 (pc + 4 + 4 * simm instr))
    else (u32 (pc + 4), 0).
Proof.
  intros Hi Hp. unfold step_points. cbn [Z.eqb Pos.eqb]. rewrite !Z.land_0_r. cbn [Z.eqb negb orb]. rewrite branch_off_spec, region by done.
  change 0x1f with (Z.ones 5). rewrite (field_ones instr 5 16) by lia. change 0x03ffffff with (Z.ones 26). rewrite Z.land_ones, Z.shiftr_div_pow2 by lia.
  change (2 ^ 26) with 67108864. change (2 ^ 16) with 65536. change (2 ^ 5) with 32. unfold is_branch, is_branch_link, is_jump. fold (opcode instr) (rt_field instr).
  destruct (Z.eqb_spec (opcode instr) 0); [rewrite !decide_False by lia; done|]. destruct (Z.eqb_spec (opcode instr) 1).
  - rewrite (decide_False (P := opcode instr = 2 \/ opcode instr = 3)) by lia.
    destruct (Z.eqb_spec (rt_field instr) 0), (Z.eqb_spec (rt_field instr) 1); cbn [orb]; [rewrite decide_True by lia|rewrite decide_True by lia|rewrite decide_True by lia|rewrite decide_False by lia]; done.
  - destruct (Z.eqb_spec (opcode instr) 2), (Z.eqb_spec (opcode instr) 3); cbn [orb]; try (rewrite decide_True by lia; done).
    rewrite (decide_False (P := opcode instr = 2 \/ opcode instr = 3)) by lia.
    destruct (Z.leb_spec 4 (opcode instr)), (Z.leb_spec (opcode instr) 7); cbn [andb]; [rewrite decide_True by lia|rewrite decide_False by lia..]; done.
Qed.

(** ** Addresses typed by the user *)

(** The buffer holds the characters of [l] from index [i] on. *)
Definition holds (buf : Z -> Z) (i : Z) (l : list Z) : Prop := forall j c, l !! j = Some c -> buf (i + Z.of_nat j) = c.

Lemma holds_cons buf i c l : holds buf i (c :: l) -> buf i = c /\ holds buf (i + 1) l.
Proof.
  intros H. split; [specialize (H 0%nat c eq_refl); by rewrite Z.add_0_r in H|].
  intros j d Hj. specialize (H (S j) d Hj). by replace (i + 1 + Z.of_nat j) with (i + Z.of_nat (S j)) by lia.
Qed.

Lemma undigit_conv c d : undigit c = Some d -> not_hex c = false /\ conv c = d /\ 0 <= d < 16.
Proof.
  unfold undigit, not_hex, conv. destruct (Z.leb_spec 48 c), (Z.leb_spec c 57), (Z.leb_spec 97 c), (Z.leb_spec c 102), (Z.ltb_spec c 48), (Z.ltb_spec 57 c),
    (Z.ltb_spec c 97), (Z.ltb_spec 102 c), (Z.ltb_spec 47 c), (Z.ltb_spec c 58); cbn; intros; simplify_eq; try lia; (split; [done|lia]).
Qed.

Lemma not_hex_undigit c : not_hex c = false -> is_Some (undigit c).
Proof.
  unfold undigit, not_hex. destruct (Z.leb_spec 48 c), (Z.leb_spec c 57), (Z.leb_spec 97 c), (Z.leb_spec c 102), (Z.ltb_spec c 48), (Z.ltb_spec 57 c),
    (Z.ltb_spec c 97), (Z.ltb_spec 102 c); cbn; intros; simplify_eq; try lia; by eexists.
Qed.

Lemma read_hex_spec buf l : forall ds i ad, holds buf i l -> mapM undigit l = Some ds -> 0 <= ad -> ad * 16 ^ Z.of_nat (length l) + 16 ^ Z.of_nat (length l) <= W32 ->
  all_hex buf (length l) i = true /\ read_hex buf (length l) i ad = fold_left (fun a d => a * 16 + d) ds ad /\ 0 <= read_hex buf (length l) i ad < W32.
Proof.
  induction l as [|c l IH]; intros ds i ad Hb Hm Ha Hw.
  - injection Hm as <-. cbn in *. split; [done|]. lia.
  - apply holds_cons in Hb as [Hc Hb]. apply mapM_Some in Hm. inversion Hm as [|? d ? ds' Hd Hds]; subst. apply mapM_Some in Hds.
    destruct (undigit_conv _ d Hd) as (Hn&Hv&Hr). cbn [length all_hex read_hex fold_left] in *. rewrite Nat2Z.inj_succ, Z.pow_succ_r in Hw by lia.
    assert (Hp : 0 < 16 ^ Z.of_nat (length l)) by (apply Z.pow_pos_nonneg; lia). rewrite Hn, Hv, u32_small by (unfold is_u32; nia). cbn [negb andb].
    apply IH; [done|done|lia|nia].
Qed.

Lemma read_hex8 buf l z i : holds buf i l -> length l = 8%nat -> parse_num 16 l = Some z -> all_hex buf 8 i = true /\ read_hex buf 8 i 0 = z /\ is_u32 z.
Proof.
  intros Hb Hl Hz. unfold parse_num in Hz. apply fmap_Some in Hz as (ds&Hds&->). destruct (read_hex_spec buf l ds i 0 Hb Hds) as (H1&H2&H3); [lia|rewrite Hl; vm_compute; discriminate|].
  rewrite Hl in H1, H2, H3. unfold is_u32, val. rewrite <- H2. done.
Qed.

(** The address [debug_handler] prints can be typed back: after the command "b "
    followed by the eight digits that [%08x] printed for a word, the first breakpoint is
    that word and nothing else has changed; "t rr " followed by them sets that register. *)
Theorem gdb_address_roundtrip fetch buf d z l fuel :
  s32 z = z -> vprintfmt (S (S fuel)) (chars "%08x") [VInt z] = Ok l ->
  (holds buf 0 (chars "b " ++ l) -> gdbcmd fetch buf d = (0, set_watch (u32 z) (watchhi d) d)) /\
  (forall r, 0 < r < 31 -> holds buf 0 (chars "t " ++ [digit (r / 16); digit (r mod 16)] ++ chars " " ++ l) ->
     gdbcmd fetch buf d = (0, set_tf (set_reg (r - 1) (u32 z) (d_tf d)) d)).
Proof.
  intros Hz Hp. destruct (printf_hex8 [] [] [] z (S fuel) [] (Forall_nil_2 _) Hz eq_refl) as (l'&Hp'&Hlen&Hv). cbn [length Nat.add] in Hp'.
  change ([] ++ chars "%08x" ++ []) with (chars "%08x") in Hp'. rewrite Hp in Hp'. cbn [app] in Hp'. rewrite app_nil_r in Hp'. injection Hp' as <-. split.
  - intros Hb. change (chars "b " ++ l) with (98 :: 32 :: l) in Hb. apply holds_cons in Hb as [H0 Hb]. apply holds_cons in Hb as [H1 Hb]. change (0 + 1 + 1) with 2 in Hb. change (0 + 1) with 1 in H1.
    destruct (read_hex8 buf l (u32 z) 2 Hb Hlen Hv) as (Hall&Hrd&_). unfold gdbcmd. rewrite H0, H1. cbn [Z.eqb Pos.eqb negb]. by rewrite Hall, Hrd.
  - intros r Hr Hb. change (holds buf 0 (116 :: 32 :: digit (r / 16) :: digit (r mod 16) :: 32 :: l)) in Hb.
    apply holds_cons in Hb as [H0 Hb]. apply holds_cons in Hb as [H1 Hb]. apply holds_cons in Hb as [H2 Hb]. apply holds_cons in Hb as [H3 Hb]. apply holds_cons in Hb as [H4 Hb].
    change (0 + 1 + 1 + 1 + 1 + 1) with 5 in Hb. change (0 + 1 + 1 + 1 + 1) with 4 in H4. change (0 + 1 + 1 + 1) with 3 in H3. change (0 + 1 + 1) with 2 in H2. change (0 + 1) with 1 in H1.
    destruct (read_hex8 buf l (u32 z) 5 Hb Hlen Hv) as (Hall&Hrd&_).
    destruct (undigit_conv _ _ (undigit_digit (r / 16) ltac:(mlia))) as (Hn1&Hc1&_). destruct (undigit_conv _ _ (undigit_digit (r mod 16) ltac:(mlia))) as (Hn2&Hc2&_).
    unfold gdbcmd. rewrite H0, H1, H4. cbn [Z.eqb Pos.eqb negb orb]. rewrite Hall, Hrd. cbn [all_hex]. change (2 + 1) with 3. rewrite H2, H3, Hn1, Hn2, Hc1, Hc2. cbn [negb andb orb].
    replace (r / 16 * 16 + r mod 16) with r by mlia. rewrite u32_small by (unfold is_u32, W32; lia).
    rewrite (proj2 (Z.eqb_neq r 0)), (proj2 (Z.leb_gt 32 r)), (proj2 (Z.eqb_neq r 31)) by lia. done.
Qed.

(** ** Single steps *)

(** The breakpoints that the step command sets catch every continuation of the
    instruction at the exception address, both ways of a conditional branch included,
    unless it jumps to a register, is a branch that links, or is a jump out of the delay
    slot's 256 MB region. *)
Theorem gdb_step_covers fetch buf d t :
  let pc := tf_epc (d_tf d) in let instr := fetch pc in
  buf 0 = 115 -> is_u32 pc -> is_u32 instr -> ~ is_jump_reg instr -> ~ is_branch_link instr ->
  (is_jump instr -> (pc + 4) / 268435456 = pc / 268435456) -> succ (d_tf d) instr pc t ->
  exists lo hi, gdbcmd fetch buf d = (-1, set_watch lo hi d) /\ (t = lo \/ t = hi).
Proof.
  intros pc instr Hs Hp Hi Hjr Hbl Hreg Ht. unfold gdbcmd. fold pc instr. rewrite Hs. cbn [Z.eqb Pos.eqb]. rewrite step_points_spec by done.
  destruct Ht as [Hnr Hnb Hnj|Hr|Hb|Hb|Hj].
  - rewrite !decide_False by tauto. eauto.
  - done.
  - assert (~ is_jump instr) by (unfold is_jump; unfold is_branch, is_branch_link in *; lia). rewrite decide_False, decide_True by tauto. eauto.
  - assert (~ is_jump instr) by (unfold is_jump; unfold is_branch, is_branch_link in *; lia). rewrite decide_False, decide_True by tauto. eauto.
  - rewrite decide_True by done. do 2 eexists. split; [done|]. right. rewrite Hreg by done. rewrite u32_small; [done|]. unfold is_u32, W32 in *. mlia.
Qed.

(** At [jr] and [jalr] the step command puts its breakpoints at the delay slot and at
    0, whatever register holds the target, so unless the target is one of the two the
    program runs on: [currentInstruction & 0x3f == 8] is never true. *)
Theorem gdb_step_misses_jr fetch buf d :
  let pc := tf_epc (d_tf d) in let instr := fetch pc in
  buf 0 = 115 -> is_u32 pc -> is_u32 instr -> is_jump_reg instr -> gdbcmd fetch buf d = (-1, set_watch (u32 (pc + 4)) 0 d).
Proof.
  intros pc instr Hs Hp Hi [Ho _]. unfold gdbcmd. fold pc instr. rewrite Hs. cbn [Z.eqb Pos.eqb]. rewrite step_points_spec by done.
  by rewrite !decide_False by (unfold is_jump, is_branch, is_branch_link; lia).
Qed.

(** ** Examples *)

Definition ex_tf : trapframe := mkTf 0 0 0 0 0 0x80001234 (fun _ => 0) 0x80000100.
Definition ex_dbg : dbg := mkDbg ex_tf 0 0.
Definition ex_buf (l : list Z) (i : Z) : Z := nth (Z.to_nat i) l 0.

Lemma ex_holds l : holds (ex_buf l) 0 l.
Proof. intros j c Hj. unfold ex_buf. rewrite Z.add_0_l, Nat2Z.id. by apply nth_lookup_Some with (d := 0) in Hj. Qed.

Lemma gdb_address_roundtrip_witness :
  gdbcmd (fun _ => 0) (ex_buf (chars "b 80001234")) ex_dbg = (0, set_watch 0x80001234 0 ex_dbg) /\
  gdbcmd (fun _ => 0) (ex_buf (chars "t 1d 80001234")) ex_dbg = (0, set_tf (set_reg 28 0x80001234 ex_tf) ex_dbg).
Proof.
  destruct (gdb_address_roundtrip (fun _ => 0) (ex_buf (chars "b 80001234")) ex_dbg (-2147478988) (chars "80001234") 3) as [Hb _]; [reflexivity|reflexivity|].
  destruct (gdb_address_roundtrip (fun _ => 0) (ex_buf (chars "t 1d 80001234")) ex_dbg (-2147478988) (chars "80001234") 3) as [_ Ht]; [reflexivity|reflexivity|].
  split; [exact (Hb (ex_holds (chars "b 80001234")))|exact (Ht 29 ltac:(lia) (ex_holds (chars "t 1d 80001234")))].
Defined.

(** [bne $0, $0, -2] at 0x80000100. *)
Lemma gdb_step_covers_witness :
  exists lo hi, gdbcmd (fun _ => 0x1400fffe) (ex_buf [115]) ex_dbg = (-1, set_watch lo hi ex_dbg) /\ (0x800000fc = lo \/ 0x800000fc = hi).
Proof.
  apply (gdb_step_covers (fun _ => 0x1400fffe) (ex_buf [115]) ex_dbg); [reflexivity|unfold is_u32, W32; cbn; lia|unfold is_u32, W32; lia|by intros [? _]|by intros [? _]|by intros [?|?]|].
  apply (succ_taken ex_tf 0x1400fffe 0x80000100). left. vm_compute. split; discriminate.
Defined.

(** [jr $ra] at 0x80000100. *)
Lemma gdb_step_misses_jr_witness : gdbcmd (fun _ => 0x03e00008) (ex_buf [115]) ex_dbg = (-1, set_watch 0x80000104 0 ex_dbg) /\ succ ex_tf 0x03e00008 0x80000100 0x80001234.
Proof.
  split; [|apply (succ_jump_reg ex_tf 0x03e00008 0x80000100); split; [reflexivity|by left]].
  apply (gdb_step_misses_jr (fun _ => 0x03e00008) (ex_buf [115]) ex_dbg); [reflexivity|unfold is_u32, W32; cbn; lia|unfold is_u32, W32; lia|split; [reflexivity|by left]].
Defined.
