(* ===== verification/Sfs.v ===== *)
(** * The simple file system (kern/fs/sfs)

    Models sfs_io.c, sfs_inode.c, sfs_fs.c on the state of the virtual file
    system (Vfs.v); what is private to SFS is [sfsx].  The device SFS is mounted on
    is reached through its [d_io], the parameter [dop_io].  An in-memory structure
    that is read from or written to a block ([sfs_disk_inode], [sfs_disk_entry],
    [sfs_super]) is a record with its little-endian layout written out.  Results
    of [kmalloc] are taken from the list [pool] ([None]: no memory); the locks
    (Sync.v) make each operation uninterrupted.  Reading a local variable that was
    not assigned is [fault]. *)

From stdpp Require Import base gmap list.
From Stdlib Require Import ZArith Lia Bool.
From S2P Require Import Prelude.
From S2P Require Import Dlist.
From S2P Require Import Vmm.
From S2P Require Import Vfs.
From S2P Require Import Bitmap.

Definition SFS_MAGIC : Z := 0x2f8dbe2a.
Definition SFS_BLKSIZE : Z := 4096.
Definition SFS_BLKSIZE_SHIFT : Z := 12.
Definition SFS_NDIRECT : Z := 12.
Definition SFS_MAX_INFO_LEN : Z := 31.
Definition SFS_MAX_FNAME_LEN : Z := 255.
Definition SFS_MAX_FILE_SIZE : Z := 1024 * 1024 * 128.
Definition SFS_BLKN_SUPER : Z := 0.
Definition SFS_BLKN_ROOT : Z := 1.
Definition SFS_BLKN_FREEMAP : Z := 2.
Definition SFS_BLKBITS_SHIFT : Z := 15.
Definition SFS_BLK_NENTRY : Z := 1024.
Definition SFS_TYPE_FILE : Z := 1.
Definition SFS_TYPE_DIR : Z := 2.
Definition SFS_TYPE_LINK : Z := 3.
Definition SFS_HLIST_SHIFT : Z := 10.
Definition sfs_dentry_size : Z := SFS_MAX_FNAME_LEN + 1.

(** ** Structures and their layout *)

Record sfs_super := mkSuper { magic : Z; sup_blocks : Z; unused_blocks : Z; info : list Z }.
Record sfs_disk_inode := mkDin { size : Z; din_type : Z; din_nlinks : Z; blocks : Z; direct : list Z; indirect : Z }.
Record sfs_disk_entry := mkEntry { e_ino : Z; e_name : list Z }.
Record sfs_inode := mkSin { din : sfs_disk_inode; ino : Z; dirty : bool; reclaim_count : Z }.

Definition set_size v d := mkDin v (din_type d) (din_nlinks d) (blocks d) (direct d) (indirect d).
Definition set_blocks v d := mkDin (size d) (din_type d) (din_nlinks d) v (direct d) (indirect d).
Definition set_direct v d := mkDin (size d) (din_type d) (din_nlinks d) (blocks d) v (indirect d).
Definition set_indirect v d := mkDin (size d) (din_type d) (din_nlinks d) (blocks d) (direct d) v.
Definition set_din v i := mkSin v (ino i) (dirty i) (reclaim_count i).
Definition set_dirty v i := mkSin (din i) (ino i) v (reclaim_count i).
Definition set_reclaim v i := mkSin (din i) (ino i) (dirty i) v.

Definition get_le (k : nat) (l : list Z) : Z := foldr (fun b acc => b + 256 * acc) 0 (take k l).
Fixpoint put_le (k : nat) (w : Z) : list Z :=
  match k with O => [] | S k => w mod 256 :: put_le k (w / 256) end.
Fixpoint get_words (n : nat) (l : list Z) : list Z :=
  match n with O => [] | S n => get_le 4 l :: get_words n (drop 4 l) end.
Definition put_words (ws : list Z) : list Z := ws ≫= put_le 4.

(** 64, 260 and 44 bytes. *)
Definition din_of_bytes (l : list Z) : sfs_disk_inode :=
  mkDin (get_le 4 l) (get_le 2 (drop 4 l)) (get_le 2 (drop 6 l)) (get_le 4 (drop 8 l))
        (get_words 12 (drop 12 l)) (get_le 4 (drop 60 l)).
Definition din_bytes (d : sfs_disk_inode) : list Z :=
  put_le 4 (size d) ++ put_le 2 (din_type d) ++ put_le 2 (din_nlinks d) ++ put_le 4 (blocks d) ++
  put_words (direct d) ++ put_le 4 (indirect d).
Definition entry_of_bytes (l : list Z) : sfs_disk_entry := mkEntry (get_le 4 l) (drop 4 l).
Definition super_of_bytes (l : list Z) : sfs_super :=
  mkSuper (get_le 4 l) (get_le 4 (drop 4 l)) (get_le 4 (drop 8 l)) (take 32 (drop 12 l)).
Definition super_bytes (s : sfs_super) : list Z :=
  put_le 4 (magic s) ++ put_le 4 (sup_blocks s) ++ put_le 4 (unused_blocks s) ++ info s.

(** The string a NUL-terminated array holds. *)
Fixpoint cstr (l : list Z) : list Z :=
  match l with [] => [] | b :: l => if b =? 0 then [] else b :: cstr l end.

(** [len] bytes of memory from an address, and memory with bytes stored. *)
Definition peek (m : bytes) (a len : Z) : list Z := (fun i => m (a + i)) <$> seqZ 0 len.
Definition poke (a : Z) (l : list Z) (m : bytes) : bytes :=
  fun x => if (a <=? x) && (x <? a + Z.of_nat (length l)) then l !!! Z.to_nat (x - a) else m x.

(** [struct sfs_fs]; [map_addr] is where the words of the freemap are. *)
Record sfs_fs := mkSfs {
  super : sfs_super;
  freemap : bitmap;
  map_addr : Z;
  super_dirty : bool;
  sfs_buffer : Z;
  inode_list : list Z;
  sfs_hash : gmap Z (list Z)
}.
Record sfsx (D : Type) := mkSfsx { xdev : D; xsfs : sfs_fs; sins : gmap Z sfs_inode; pool : list (option Z) }.
Arguments mkSfsx {D}. Arguments xdev {D}. Arguments xsfs {D}. Arguments sins {D}. Arguments pool {D}.

Definition set_super v f := mkSfs v (freemap f) (map_addr f) (super_dirty f) (sfs_buffer f) (inode_list f) (sfs_hash f).
Definition set_freemap v f := mkSfs (super f) v (map_addr f) (super_dirty f) (sfs_buffer f) (inode_list f) (sfs_hash f).
Definition set_super_dirty v f := mkSfs (super f) (freemap f) (map_addr f) v (sfs_buffer f) (inode_list f) (sfs_hash f).
Definition set_inode_lists l h f := mkSfs (super f) (freemap f) (map_addr f) (super_dirty f) (sfs_buffer f) l h.
Definition set_unused v s := mkSuper (magic s) (sup_blocks s) v (info s).

Section Sfs.
Context {D : Type}.
Abbreviation st := (fst_ (sfsx D)).
Variable dop_io : iobuf -> bool -> M st (Z * iobuf).

Definition set_xsfs v (x : sfsx D) : sfsx D := mkSfsx (xdev x) v (sins x) (pool x).
Definition set_sins v (x : sfsx D) : sfsx D := mkSfsx (xdev x) (xsfs x) v (pool x).
Definition set_pool v (x : sfsx D) : sfsx D := mkSfsx (xdev x) (xsfs x) (sins x) v.

Definition rd_sfs : M st sfs_fs := let! s := get in ret (xsfs (priv s)).
Definition upd_sfs (f : sfs_fs -> sfs_fs) : M st unit := modify (fun s => set_priv (set_xsfs (f (xsfs (priv s))) (priv s)) s).
Definition rd_sin (n : Z) : M st sfs_inode := let! s := get in deref (sins (priv s) !! n).
Definition upd_sin (n : Z) (f : sfs_inode -> sfs_inode) : M st unit :=
  let! i := rd_sin n in modify (fun s => set_priv (set_sins (<[n := f i]> (sins (priv s))) (priv s)) s).
Definition upd_din (n : Z) (f : sfs_disk_inode -> sfs_disk_inode) : M st unit := upd_sin n (fun i => set_din (f (din i)) i).
Definition on_map {A} (m : M bitmap A) : M st A :=
  zoom (fun s => freemap (xsfs (priv s))) (fun b s => set_priv (set_xsfs (set_freemap b (xsfs (priv s))) (priv s)) s) m.
Definition kmalloc : M st (option Z) :=
  let! s := get in
  match pool (priv s) with
  | [] => ret None
  | a :: rest => do! put (set_priv (set_pool rest (priv s)) s) in ret a
  end.

(** ** sfs_io.c *)

Definition sfs_rwblock_nolock (buf blkno : Z) (write check : bool) : M st Z :=
  let! f := rd_sfs in
  do! assert_ ((negb (blkno =? 0) || negb check) && (blkno <? sup_blocks (super f))) in
  let! r := dop_io (iobuf_init buf SFS_BLKSIZE (s32 (blkno * SFS_BLKSIZE))) write in
  ret (fst r).

(** [while (nblks != 0)]; [k] is [nblks]. *)
Fixpoint sfs_rwblock (k : nat) (buf blkno : Z) (write : bool) : M st Z :=
  match k with
  | O => ret 0
  | S k =>
      let! r := sfs_rwblock_nolock buf blkno write true in
      if negb (r =? 0) then ret r else sfs_rwblock k (u32 (buf + SFS_BLKSIZE)) (u32 (blkno + 1)) write
  end.
Definition sfs_rblock (buf blkno nblks : Z) : M st Z := sfs_rwblock (Z.to_nat nblks) buf blkno false.
Definition sfs_wblock (buf blkno nblks : Z) : M st Z := sfs_rwblock (Z.to_nat nblks) buf blkno true.

Definition in_block (offset len : Z) : bool := (0 <=? offset) && (offset <? SFS_BLKSIZE) && (u32 (offset + len) <=? SFS_BLKSIZE).

(** [sfs_rbuf] returns the bytes copied out of [sfs_buffer], [sfs_wbuf] takes the
    bytes copied into it. *)
Definition sfs_rbuf (len blkno offset : Z) : M st (Z * list Z) :=
  do! assert_ (in_block offset len) in
  let! f := rd_sfs in
  let! r := sfs_rwblock_nolock (sfs_buffer f) blkno false true in
  if r =? 0 then let! s := get in ret (0, peek (fmem s) (sfs_buffer f + offset) len)
  else ret (r, []).
Definition sfs_wbuf (data : list Z) (blkno offset : Z) : M st Z :=
  do! assert_ (in_block offset (Z.of_nat (length data))) in
  let! f := rd_sfs in
  let! r := sfs_rwblock_nolock (sfs_buffer f) blkno false true in
  if r =? 0 then
    do! on_mem (modify (poke (sfs_buffer f + offset) data)) in
    sfs_rwblock_nolock (sfs_buffer f) blkno true true
  else ret r.

Definition sfs_sync_super : M st Z :=
  let! f := rd_sfs in
  do! on_mem (modify (bzero (sfs_buffer f) SFS_BLKSIZE)) in
  do! on_mem (modify (poke (sfs_buffer f) (super_bytes (super f)))) in
  sfs_rwblock_nolock (sfs_buffer f) SFS_BLKN_SUPER true false.

Definition sfs_freemap_bits (s : sfs_super) : Z := ROUNDUP_2N (sup_blocks s) SFS_BLKBITS_SHIFT.
Definition sfs_freemap_blocks (s : sfs_super) : Z := ROUNDUP_DIV_2N (sup_blocks s) SFS_BLKBITS_SHIFT.
(** The words of the bitmap are at [map_addr]. *)
Definition sfs_sync_freemap : M st Z :=
  let! f := rd_sfs in
  do! on_mem (modify (poke (map_addr f) (put_words (fst (bitmap_getdata (freemap f)))))) in
  sfs_wblock (map_addr f) SFS_BLKN_FREEMAP (sfs_freemap_blocks (super f)).

Fixpoint clear_loop (k : nat) (buf blkno : Z) : M st Z :=
  match k with
  | O => ret 0
  | S k =>
      let! r := sfs_rwblock_nolock buf blkno true true in
      if negb (r =? 0) then ret r else clear_loop k buf (u32 (blkno + 1))
  end.
(** With [nblks = 0] the value returned is not assigned. *)
Definition sfs_clear_block (blkno nblks : Z) : M st Z :=
  let! f := rd_sfs in
  do! on_mem (modify (bzero (sfs_buffer f) SFS_BLKSIZE)) in
  if nblks =? 0 then fault else clear_loop (Z.to_nat nblks) (sfs_buffer f) blkno.

(** ** sfs_inode.c: blocks *)

(** The tables the inode operations are called through. *)
Variable optab : Z -> @inode_ops (sfsx D).

Definition sfs_node_dirops_at : Z := 1.
Definition sfs_node_fileops_at : Z := 2.
Definition sfs_get_ops (type : Z) : M st Z :=
  if type =? SFS_TYPE_DIR then ret sfs_node_dirops_at
  else if type =? SFS_TYPE_FILE then ret sfs_node_fileops_at
  else panic.

Definition sin_hashfn (x : Z) : Z := hash32 x SFS_HLIST_SHIFT.
Definition sfs_hash_list (f : sfs_fs) (i : Z) : list Z := default [] (sfs_hash f !! sin_hashfn i).
Definition sfs_set_links (n : Z) : M st unit :=
  let! sin := rd_sin n in
  upd_sfs (fun f => set_inode_lists (n :: inode_list f)
                      (<[sin_hashfn (ino sin) := n :: sfs_hash_list f (ino sin)]> (sfs_hash f)) f).
Definition sfs_remove_links (n : Z) : M st unit :=
  upd_sfs (fun f => set_inode_lists (ldel n (inode_list f)) (ldel n <$> sfs_hash f) f).

Definition sfs_block_inuse (i : Z) : M st bool :=
  let! f := rd_sfs in
  if negb (i =? 0) && (i <? sup_blocks (super f)) then let! b := on_map (bitmap_test i) in ret (negb b)
  else panic.

Definition add_unused (d : Z) : M st unit :=
  upd_sfs (fun f => set_super_dirty true (set_super (set_unused (u32 (unused_blocks (super f) + d)) (super f)) f)).
Definition sfs_block_alloc : M st (Z * Z) :=
  let! r := on_map bitmap_alloc in
  match snd r with
  | None => ret (fst r, 0)
  | Some i =>
      let! f := rd_sfs in
      do! assert_ (0 <? unused_blocks (super f)) in
      do! add_unused (-1) in
      let! b := sfs_block_inuse i in
      do! assert_ b in
      let! c := sfs_clear_block i 1 in
      ret (c, i)
  end.

Definition sfs_block_free (i : Z) : M st unit :=
  let! b := sfs_block_inuse i in
  do! assert_ b in
  do! on_map (bitmap_free i) in
  add_unused 1.

(** ** sfs_inode.c: the map from the blocks of a file to the blocks of the disk *)

(** The second half of [sfs_bmap_get_sub_nolock], from the allocation of the data
    block on: return value, [*entp] and [*ino_store]. *)
Definition bmap_fill (entp ent offset : Z) : M st (Z * Z * Z) :=
  let failed_cleanup (r : Z) : M st (Z * Z * Z) :=
    do! (if negb (ent =? entp) then sfs_block_free ent else ret tt) in ret (r, entp, 0) in
  let! a := sfs_block_alloc in
  if negb (fst a =? 0) then failed_cleanup (fst a)
  else
    let! w := sfs_wbuf (put_le 4 (snd a)) ent offset in
    if negb (w =? 0) then do! sfs_block_free (snd a) in failed_cleanup w
    else ret (0, ent, snd a).
Definition sfs_bmap_get_sub_nolock (entp index : Z) (create : bool) : M st (Z * Z * Z) :=
  do! assert_ (index <? SFS_BLK_NENTRY) in
  let offset := index * 4 in
  if negb (entp =? 0) then
    let! r := sfs_rbuf 4 entp offset in
    if negb (fst r =? 0) then ret (fst r, entp, 0)
    else
      let i := get_le 4 (snd r) in
      if negb (i =? 0) || negb create then ret (0, entp, i) else bmap_fill entp entp offset
  else if negb create then ret (0, entp, 0)
  else
    let! a := sfs_block_alloc in
    if negb (fst a =? 0) then ret (fst a, entp, 0) else bmap_fill entp (snd a) offset.

(** Beyond the indirect block the code reads [ino] before it is assigned. *)
Definition sfs_bmap_get_nolock (n index : Z) (create : bool) : M st (Z * Z) :=
  let! sin := rd_sin n in
  let d := din sin in
  let out (i : Z) : M st (Z * Z) :=
    do! (if i =? 0 then ret tt else let! b := sfs_block_inuse i in assert_ b) in ret (0, i) in
  if index <? SFS_NDIRECT then
    let! i := deref (direct d !! Z.to_nat index) in
    if (i =? 0) && create then
      let! a := sfs_block_alloc in
      if negb (fst a =? 0) then ret (fst a, 0)
      else
        do! upd_din n (fun d => set_direct (<[Z.to_nat index := snd a]> (direct d)) d) in
        do! upd_sin n (set_dirty true) in
        out (snd a)
    else out i
  else
    let index := index - SFS_NDIRECT in
    if index <? SFS_BLK_NENTRY then
      let! r := sfs_bmap_get_sub_nolock (indirect d) index create in
      let '(e, ent, i) := r in
      if negb (e =? 0) then ret (e, 0)
      else
        do! (if negb (ent =? indirect d) then
               do! assert_ (indirect d =? 0) in
               do! upd_din n (set_indirect ent) in
               upd_sin n (set_dirty true)
             else ret tt) in
        out i
    else fault.

Definition sfs_bmap_free_sub_nolock (ent index : Z) : M st Z :=
  let! b := sfs_block_inuse ent in
  do! assert_ (b && (index <? SFS_BLK_NENTRY)) in
  let offset := index * 4 in
  let! r := sfs_rbuf 4 ent offset in
  if negb (fst r =? 0) then ret (fst r)
  else
    let i := get_le 4 (snd r) in
    if negb (i =? 0) then
      let! w := sfs_wbuf (put_le 4 0) ent offset in
      if negb (w =? 0) then ret w else do! sfs_block_free i in ret 0
    else ret 0.

Definition sfs_bmap_free_nolock (n index : Z) : M st Z :=
  let! sin := rd_sin n in
  let d := din sin in
  if index <? SFS_NDIRECT then
    let! i := deref (direct d !! Z.to_nat index) in
    if negb (i =? 0) then
      do! sfs_block_free i in
      do! upd_din n (fun d => set_direct (<[Z.to_nat index := 0]> (direct d)) d) in
      do! upd_sin n (set_dirty true) in
      ret 0
    else ret 0
  else
    let index := index - SFS_NDIRECT in
    if index <? SFS_BLK_NENTRY then
      if negb (indirect d =? 0) then sfs_bmap_free_sub_nolock (indirect d) index else ret 0
    else ret 0.

Definition sfs_bmap_load_nolock (n index : Z) : M st (Z * Z) :=
  let! sin := rd_sin n in
  do! assert_ (index <=? blocks (din sin)) in
  let create := index =? blocks (din sin) in
  let! r := sfs_bmap_get_nolock n index create in
  if negb (fst r =? 0) then ret (fst r, 0)
  else
    let! b := sfs_block_inuse (snd r) in
    do! assert_ b in
    do! (if create then upd_din n (fun d => set_blocks (u32 (blocks d + 1)) d) else ret tt) in
    ret (0, snd r).

Definition sfs_bmap_truncate_nolock (n : Z) : M st Z :=
  let! sin := rd_sin n in
  do! assert_ (negb (blocks (din sin) =? 0)) in
  let! r := sfs_bmap_free_nolock n (blocks (din sin) - 1) in
  if negb (r =? 0) then ret r
  else
    do! upd_din n (fun d => set_blocks (blocks d - 1) d) in
    do! upd_sin n (set_dirty true) in
    ret 0.

(** ** sfs_inode.c: directories *)

Definition vop_info_sfs (n : Z) : M st sfs_inode :=
  let! i := rd_inode n in
  do! assert_ (in_type i =? inode_type_sfs_inode_info) in
  rd_sin n.
(** [fsop_info(vop_fs(node), sfs)]. *)
Definition check_fs (n : Z) : M st unit :=
  let! i := rd_inode n in assert_ (bool_decide (is_Some (in_fs i))).

(** The address of the [struct fs] that holds the [sfs_fs]: [info2fs]. *)
Variable fs_at : Z.

Definition sfs_create_inode (d : sfs_disk_inode) (i : Z) : M st (Z * option Z) :=
  let! a := kmalloc in
  let! r := alloc_inode a inode_type_sfs_inode_info in
  match r with
  | Some n =>
      let! ops := sfs_get_ops (din_type d) in
      do! inode_init n ops (Some fs_at) in
      do! modify (fun s => set_priv (set_sins (<[n := mkSin d i false 1]> (sins (priv s))) (priv s)) s) in
      ret (0, Some n)
  | None => ret (- E_NO_MEM, None)
  end.

Fixpoint lookup_loop (l : list Z) (i : Z) : M st (option Z) :=
  match l with
  | [] => ret None
  | n :: l =>
      let! sin := rd_sin n in
      if ino sin =? i then
        let! c := inode_ref_inc n in
        do! (if c =? 1 then upd_sin n (fun x => set_reclaim (s32 (reclaim_count x + 1)) x) else ret tt) in
        ret (Some n)
      else lookup_loop l i
  end.
Definition lookup_sfs_nolock (i : Z) : M st (option Z) :=
  let! f := rd_sfs in lookup_loop (sfs_hash_list f i) i.

Definition sfs_load_inode (i : Z) : M st (Z * option Z) :=
  let! found := lookup_sfs_nolock i in
  match found with
  | Some n => ret (0, Some n)
  | None =>
      let! a := kmalloc in
      match a with
      | None => ret (- E_NO_MEM, None)
      | Some _ =>
          let! b := sfs_block_inuse i in
          do! assert_ b in
          let! r := sfs_rbuf 64 i 0 in
          if negb (fst r =? 0) then ret (fst r, None)
          else
            let d := din_of_bytes (snd r) in
            do! assert_ (negb (din_nlinks d =? 0)) in
            let! c := sfs_create_inode d i in
            match snd c with
            | Some n => do! sfs_set_links n in ret (0, Some n)
            | None => ret (fst c, None)
            end
      end
  end.

Definition sfs_dirent_read_nolock (n slot : Z) : M st (Z * sfs_disk_entry) :=
  let! sin := rd_sin n in
  do! assert_ ((din_type (din sin) =? SFS_TYPE_DIR) && ((0 <=? slot) && (slot <? blocks (din sin)))) in
  let! r := sfs_bmap_load_nolock n slot in
  if negb (fst r =? 0) then ret (fst r, mkEntry 0 [])
  else
    let! b := sfs_block_inuse (snd r) in
    do! assert_ b in
    let! e := sfs_rbuf 260 (snd r) 0 in
    if negb (fst e =? 0) then ret (fst e, mkEntry 0 [])
    else
      let x := entry_of_bytes (snd e) in
      ret (0, mkEntry (e_ino x) (<[Z.to_nat SFS_MAX_FNAME_LEN := 0]> (e_name x))).

(** Return value, [*ino_store], [*slot], [*empty_slot]; [k] slots are left. *)
Fixpoint search_loop (k : nat) (n : Z) (name : path) (i empty : Z) : M st (Z * Z * Z * Z) :=
  match k with
  | O => ret (- E_NOENT, 0, 0, empty)
  | S k =>
      let! r := sfs_dirent_read_nolock n i in
      if negb (fst r =? 0) then ret (fst r, 0, 0, empty)
      else if e_ino (snd r) =? 0 then search_loop k n name (i + 1) i
      else if streq name (cstr (e_name (snd r))) then ret (0, e_ino (snd r), i, empty)
      else search_loop k n name (i + 1) empty
  end.
Definition sfs_dirent_search_nolock (n : Z) (name : path) : M st (Z * Z * Z * Z) :=
  do! assert_ (Z.of_nat (length name) <=? SFS_MAX_FNAME_LEN) in
  let! a := kmalloc in
  match a with
  | None => ret (- E_NO_MEM, 0, 0, 0)
  | Some _ =>
      let! sin := rd_sin n in
      let nslots := s32 (blocks (din sin)) in
      search_loop (Z.to_nat nslots) n name 0 nslots
  end.

Fixpoint findino_loop (k : nat) (n i slot : Z) : M st (Z * sfs_disk_entry) :=
  match k with
  | O => ret (- E_NOENT, mkEntry 0 [])
  | S k =>
      let! r := sfs_dirent_read_nolock n slot in
      if negb (fst r =? 0) then ret r
      else if e_ino (snd r) =? i then ret (0, snd r)
      else findino_loop k n i (slot + 1)
  end.
Definition sfs_dirent_findino_nolock (n i : Z) : M st (Z * sfs_disk_entry) :=
  let! sin := rd_sin n in findino_loop (Z.to_nat (s32 (blocks (din sin)))) n i 0.

Definition sfs_lookup_once (n : Z) (name : path) : M st (Z * option Z) :=
  let! r := sfs_dirent_search_nolock n name in
  let '(e, i, _, _) := r in
  if e =? 0 then sfs_load_inode i else ret (e, None).

Definition sfs_opendir (n open_flags : Z) : M st Z :=
  if negb (Z.land open_flags O_ACCMODE =? O_RDONLY) then ret (- E_ISDIR)
  else if negb (Z.land open_flags O_APPEND =? 0) then ret (- E_ISDIR)
  else ret 0.
Definition sfs_openfile (n open_flags : Z) : M st Z := ret 0.
Definition sfs_close (n : Z) : M st Z := let! f := vop optab op_fsync n in f n.

(** ** sfs_inode.c: file contents *)

(** [sfs_buf_op] and [sfs_block_op]: the transfer between [buf] and a part of a
    block, or a whole one. *)
Definition sfs_buf_op (write : bool) (buf len blkno offset : Z) : M st Z :=
  if write then let! s := get in sfs_wbuf (peek (fmem s) buf len) blkno offset
  else
    let! r := sfs_rbuf len blkno offset in
    do! (if fst r =? 0 then on_mem (modify (poke buf (snd r))) else ret tt) in
    ret (fst r).
Definition sfs_block_op (write : bool) (buf blkno : Z) : M st Z :=
  if write then sfs_wblock buf blkno 1 else sfs_rblock buf blkno 1.

(** A step of [sfs_io_nolock] on block [blkno] of the file: [sfs_bmap_load_nolock]
    then the transfer. *)
Definition io_part (n blkno : Z) (op : Z -> M st Z) : M st Z :=
  let! r := sfs_bmap_load_nolock n blkno in
  if negb (fst r =? 0) then ret (fst r) else op (snd r).

(** [while (nblks != 0)]: return value and what was transferred. *)
Fixpoint io_blocks (k : nat) (n buf blkno alen : Z) (write : bool) : M st (Z * Z) :=
  match k with
  | O => ret (0, alen)
  | S k =>
      let! r := io_part n blkno (sfs_block_op write buf) in
      if negb (r =? 0) then ret (r, alen)
      else io_blocks k n (u32 (buf + SFS_BLKSIZE)) (blkno + 1) (alen + SFS_BLKSIZE) write
  end.

(** From [blkoff = offset % SFS_BLKSIZE] to [out:]. *)
Definition io_transfer (n buf offset endpos : Z) (write : bool) : M st (Z * Z) :=
  let blkno := offset / SFS_BLKSIZE in
  let nblks := endpos / SFS_BLKSIZE - blkno in
  let blkoff := offset mod SFS_BLKSIZE in
  let rest (buf blkno nblks alen : Z) : M st (Z * Z) :=
    let! r := io_blocks (Z.to_nat nblks) n buf blkno alen write in
    if negb (fst r =? 0) then ret r
    else
      let tail := endpos mod SFS_BLKSIZE in
      if negb (tail =? 0) then
        let! e := io_part n (blkno + nblks) (fun i => sfs_buf_op write (u32 (buf + nblks * SFS_BLKSIZE)) tail i 0) in
        if negb (e =? 0) then ret (e, snd r) else ret (0, snd r + tail)
      else ret r in
  if negb (blkoff =? 0) then
    let sz := if negb (nblks =? 0) then SFS_BLKSIZE - blkoff else endpos - offset in
    let! e := io_part n blkno (fun i => sfs_buf_op write buf sz i blkoff) in
    if negb (e =? 0) then ret (e, 0)
    else if nblks =? 0 then ret (0, sz)
    else rest (u32 (buf + sz)) (blkno + 1) (nblks - 1) sz
  else rest buf blkno nblks 0.

(** Return value and [*alenp]. *)
Definition sfs_io_nolock (n buf offset alen : Z) (write : bool) : M st (Z * Z) :=
  let! sin := rd_sin n in
  do! assert_ (negb (din_type (din sin) =? SFS_TYPE_DIR)) in
  let endpos := s32 (offset + alen) in
  if (offset <? 0) || (SFS_MAX_FILE_SIZE <=? offset) || (endpos <? offset) then ret (- E_INVAL, 0)
  else if offset =? endpos then ret (0, 0)
  else
    let endpos := if SFS_MAX_FILE_SIZE <? endpos then SFS_MAX_FILE_SIZE else endpos in
    if negb write && (size (din sin) <=? offset) then ret (0, 0)
    else
      let endpos := if negb write && (size (din sin) <? endpos) then size (din sin) else endpos in
      let! r := io_transfer n buf offset endpos write in
      let! sin := rd_sin n in
      do! (if size (din sin) <? offset + snd r then
             do! upd_din n (set_size (offset + snd r)) in upd_sin n (set_dirty true)
           else ret tt) in
      ret r.

Definition sfs_io (n : Z) (iob : iobuf) (write : bool) : M st (Z * iobuf) :=
  do! check_fs n in
  do! vop_info_sfs n in
  let! r := sfs_io_nolock n (io_base iob) (io_offset iob) (io_resid iob) write in
  if negb (snd r =? 0) then let! iob := on_mem (iobuf_skip iob (snd r)) in ret (fst r, iob) else ret (fst r, iob).
Definition sfs_read (n : Z) (iob : iobuf) : M st (Z * iobuf) := sfs_io n iob false.
Definition sfs_write (n : Z) (iob : iobuf) : M st (Z * iobuf) := sfs_io n iob true.

Definition sfs_gettype (n : Z) : M st (Z * Z) :=
  let! sin := vop_info_sfs n in
  let t := din_type (din sin) in
  if t =? SFS_TYPE_DIR then ret (0, S_IFDIR)
  else if t =? SFS_TYPE_FILE then ret (0, S_IFREG)
  else if t =? SFS_TYPE_LINK then ret (0, S_IFLNK)
  else panic.

Definition sfs_fstat (n : Z) : M st (Z * stat) :=
  let! f := vop optab op_gettype n in
  let! r := f n in
  if negb (fst r =? 0) then ret (fst r, mkStat (snd r) 0 0 0)
  else
    let! sin := vop_info_sfs n in
    ret (0, mkStat (snd r) (din_nlinks (din sin)) (blocks (din sin)) (size (din sin))).

Definition sfs_fsync (n : Z) : M st Z :=
  do! check_fs n in
  let! sin := vop_info_sfs n in
  if dirty sin then
    do! upd_sin n (set_dirty false) in
    let! r := sfs_wbuf (din_bytes (din sin)) (ino sin) 0 in
    do! (if negb (r =? 0) then upd_sin n (set_dirty true) else ret tt) in
    ret r
  else ret 0.

(** [while (1)] of [sfs_namefile]: one fuel per directory on the way up.  Return
    value, [node] at the end, [ptr], [resid]. *)
Fixpoint namefile_loop (fuel : nat) (n ptr resid : Z) : M st (Z * option Z * Z * Z) :=
  match fuel with
  | O => nofuel
  | S fuel =>
      let! r := sfs_lookup_once n [46; 46] in
      match snd r with
      | None => ret (fst r, Some n, ptr, resid)
      | Some parent =>
          let! sin := rd_sin n in
          let i := ino sin in
          do! inode_ref_dec optab n in
          if n =? parent then do! inode_ref_dec optab n in ret (0, None, ptr, resid)
          else
            let! psin := vop_info_sfs parent in
            do! assert_ (negb (i =? ino psin) && (din_type (din psin) =? SFS_TYPE_DIR)) in
            let! e := sfs_dirent_findino_nolock parent i in
            if negb (fst e =? 0) then ret (fst e, Some parent, ptr, resid)
            else
              let name := cstr (e_name (snd e)) in
              let alen := Z.of_nat (length name) + 1 in
              if resid <? alen then ret (- E_NO_MEM, Some parent, ptr, resid)
              else
                do! on_mem (modify (poke (u32 (ptr - alen)) (name ++ [SLASH]))) in
                namefile_loop fuel parent (u32 (ptr - alen)) (resid - alen)
      end
  end.
(** The directories above [n] are at most as many as the blocks. *)
Definition sfs_namefile (n : Z) (iob : iobuf) : M st (Z * iobuf) :=
  if io_resid iob <=? 2 then ret (- E_NO_MEM, iob)
  else
    let! a := kmalloc in
    match a with
    | None => ret (- E_NO_MEM, iob)
    | Some _ =>
        do! check_fs n in
        do! vop_info_sfs n in
        do! inode_ref_inc n in
        let! f := rd_sfs in
        let! r := namefile_loop (Z.to_nat (sup_blocks (super f))) n (u32 (io_base iob + io_resid iob)) (io_resid iob - 2) in
        let '(e, last, ptr, resid) := r in
        match last with
        | Some m => do! inode_ref_dec optab m in ret (e, iob)
        | None =>
            let alen := io_resid iob - resid - 2 in
            let! s := get in
            do! on_mem (modify (poke (u32 (io_base iob + 1)) (peek (fmem s) ptr alen))) in
            do! on_mem (modify (poke (io_base iob) [SLASH])) in
            do! on_mem (modify (poke (u32 (io_base iob + 1 + alen)) [0])) in
            let! iob := on_mem (iobuf_skip iob alen) in
            ret (0, iob)
        end
    end.

Fixpoint getdirentry_loop (k : nat) (n slot i : Z) : M st (Z * sfs_disk_entry) :=
  match k with
  | O => ret (- E_NOENT, mkEntry 0 [])
  | S k =>
      let! r := sfs_dirent_read_nolock n i in
      if negb (fst r =? 0) then ret r
      else if negb (e_ino (snd r) =? 0) then
        if slot =? 0 then ret r else getdirentry_loop k n (slot - 1) (i + 1)
      else getdirentry_loop k n slot (i + 1)
  end.
Definition sfs_getdirentry_sub_nolock (n slot : Z) : M st (Z * sfs_disk_entry) :=
  let! sin := rd_sin n in getdirentry_loop (Z.to_nat (s32 (blocks (din sin)))) n slot 0.

(** The entry is at the address [a] that [kmalloc] gave; its name 4 bytes in. *)
Definition sfs_getdirentry (n : Z) (iob : iobuf) : M st (Z * iobuf) :=
  let! a := kmalloc in
  match a with
  | None => ret (- E_NO_MEM, iob)
  | Some a =>
      do! check_fs n in
      let! sin := vop_info_sfs n in
      let offset := io_offset iob in
      if (offset <? 0) || negb (offset mod sfs_dentry_size =? 0) then ret (- E_INVAL, iob)
      else
        let slot := offset / sfs_dentry_size in
        if blocks (din sin) <? slot then ret (- E_NOENT, iob)
        else
          let! r := sfs_getdirentry_sub_nolock n slot in
          if negb (fst r =? 0) then ret (fst r, iob)
          else
            do! on_mem (modify (poke (a + 4) (e_name (snd r)))) in
            let! m := on_mem (iobuf_move iob (a + 4) sfs_dentry_size true) in
            ret (fst (fst m), snd (fst m))
  end.

(** ** sfs_inode.c: truncation, reclaiming, lookup *)

(** [vop_truncate]: grow by [k] blocks from block [nblks] on, or shrink by [k]. *)
Fixpoint grow_loop (k : nat) (n nblks : Z) : M st Z :=
  match k with
  | O => ret 0
  | S k =>
      let! r := sfs_bmap_load_nolock n nblks in
      if negb (fst r =? 0) then ret (fst r) else grow_loop k n (nblks + 1)
  end.
Fixpoint shrink_loop (k : nat) (n : Z) : M st Z :=
  match k with
  | O => ret 0
  | S k =>
      let! r := sfs_bmap_truncate_nolock n in
      if negb (r =? 0) then ret r else shrink_loop k n
  end.
Definition sfs_truncfile (n len : Z) : M st Z :=
  if (len <? 0) || (SFS_MAX_FILE_SIZE <? len) then ret (- E_INVAL)
  else
    do! check_fs n in
    let! sin := vop_info_sfs n in
    let tblks := ROUNDUP_DIV_2N len SFS_BLKSIZE_SHIFT in
    if size (din sin) =? len then do! assert_ (tblks =? blocks (din sin)) in ret 0
    else
      let nblks := blocks (din sin) in
      let! r := (if nblks <? tblks then grow_loop (Z.to_nat (tblks - nblks)) n nblks
                 else if tblks <? nblks then shrink_loop (Z.to_nat (nblks - tblks)) n
                 else ret 0) in
      if negb (r =? 0) then ret r
      else
        let! sin := rd_sin n in
        do! assert_ (blocks (din sin) =? tblks) in
        do! upd_din n (set_size len) in
        do! upd_sin n (set_dirty true) in
        ret 0.

Definition sfs_tryseek (n p : Z) : M st Z :=
  if (p <? 0) || (SFS_MAX_FILE_SIZE <=? p) then ret (- E_INVAL)
  else
    let! sin := vop_info_sfs n in
    if size (din sin) <? p then let! f := vop optab op_truncate n in f n p else ret 0.

Definition sfs_reclaim (n : Z) : M st Z :=
  do! check_fs n in
  let! sin := vop_info_sfs n in
  do! assert_ (0 <? reclaim_count sin) in
  do! upd_sin n (set_reclaim (reclaim_count sin - 1)) in
  let! i := rd_inode n in
  if negb (reclaim_count sin - 1 =? 0) || negb (ref_count i =? 0) then ret (- E_BUSY)
  else
    let! r := (if din_nlinks (din sin) =? 0 then let! f := vop optab op_truncate n in f n 0 else ret 0) in
    if negb (r =? 0) then ret r
    else
      let! sin := rd_sin n in
      let! r := (if dirty sin then let! f := vop optab op_fsync n in f n else ret 0) in
      if negb (r =? 0) then ret r
      else
        do! sfs_remove_links n in
        let! sin := rd_sin n in
        do! (if din_nlinks (din sin) =? 0 then
               do! sfs_block_free (ino sin) in
               if negb (indirect (din sin) =? 0) then sfs_block_free (indirect (din sin)) else ret tt
             else ret tt) in
        do! inode_kill n in
        do! modify (fun s => set_priv (set_sins (delete n (sins (priv s))) (priv s)) s) in
        ret 0.

Definition sfs_lookup (n : Z) (p : path) : M st (Z * option Z) :=
  do! check_fs n in
  do! assert_ (match p with c :: _ => negb (c =? SLASH) | [] => false end) in
  do! inode_ref_inc n in
  let! sin := vop_info_sfs n in
  if negb (din_type (din sin) =? SFS_TYPE_DIR) then
    do! inode_ref_dec optab n in ret (- E_NOTDIR, None)
  else
    let! r := sfs_lookup_once n p in
    do! inode_ref_dec optab n in
    if negb (fst r =? 0) then ret (fst r, None) else ret (0, snd r).

Definition sfs_node_dirops : @inode_ops (sfsx D) :=
  mkOps (Some sfs_opendir) (Some sfs_close) None None (Some sfs_fstat) (Some sfs_fsync) (Some sfs_namefile)
        (Some sfs_getdirentry) (Some sfs_reclaim) (Some sfs_gettype) None None None (Some sfs_lookup).
Definition sfs_node_fileops : @inode_ops (sfsx D) :=
  mkOps (Some sfs_openfile) (Some sfs_close) (Some sfs_read) (Some sfs_write) (Some sfs_fstat) (Some sfs_fsync) None
        None (Some sfs_reclaim) (Some sfs_gettype) (Some sfs_tryseek) (Some sfs_truncfile) None None.

(** ** sfs_fs.c *)

Fixpoint sync_loop (l : list Z) : M st unit :=
  match l with
  | [] => ret tt
  | n :: l => let! f := vop optab op_fsync n in do! f n in sync_loop l
  end.
Definition sfs_sync : M st Z :=
  let! f := rd_sfs in
  do! sync_loop (inode_list f) in
  let! f := rd_sfs in
  if super_dirty f then
    do! upd_sfs (set_super_dirty false) in
    let! r := sfs_sync_super in
    if negb (r =? 0) then do! upd_sfs (set_super_dirty true) in ret r
    else
      let! r := sfs_sync_freemap in
      if negb (r =? 0) then do! upd_sfs (set_super_dirty true) in ret r
      else ret 0
  else ret 0.

Definition sfs_get_root : M st Z :=
  let! r := sfs_load_inode SFS_BLKN_ROOT in
  match snd r with Some n => ret n | None => panic end.

Definition sfs_unmount : M st Z :=
  let! f := rd_sfs in
  match inode_list f with
  | _ :: _ => ret (- E_BUSY)
  | [] => do! assert_ (negb (super_dirty f)) in ret 0
  end.

(** [for (i = 0; i < 32; i ++)]: until a sync succeeds. *)
Fixpoint cleanup_sync (k : nat) : M st unit :=
  match k with
  | O => ret tt
  | S k => let! r := sfs_sync in if r =? 0 then ret tt else cleanup_sync k
  end.
Definition sfs_cleanup : M st unit := cleanup_sync 32.

Definition sfs_init_read (blkno buf : Z) : M st Z :=
  let! r := dop_io (iobuf_init buf SFS_BLKSIZE (s32 (blkno * SFS_BLKSIZE))) false in ret (fst r).
(** The words the freemap's array holds after the reads. *)
Fixpoint init_freemap_loop (k : nat) (blkno data : Z) : M st Z :=
  match k with
  | O => ret 0
  | S k =>
      let! r := sfs_init_read blkno data in
      if negb (r =? 0) then ret r else init_freemap_loop k (u32 (blkno + 1)) (u32 (data + SFS_BLKSIZE))
  end.
Definition sfs_init_freemap (b : bitmap) (data blkno nblks : Z) : M st (Z * bitmap) :=
  let '(_, len) := bitmap_getdata b in
  do! assert_ (len =? u32 (nblks * SFS_BLKSIZE)) in
  let! r := init_freemap_loop (Z.to_nat nblks) blkno data in
  let! s := get in
  ret (r, mkBitmap (nbits b) (nwords b) (get_words (Z.to_nat (nwords b)) (peek (fmem s) data len))).

(** [for (i = 0; i < freemap_size_nbits; i ++)]; [k] bits are left. *)
Fixpoint count_free (k : nat) (i acc : Z) : M bitmap Z :=
  match k with
  | O => ret acc
  | S k => let! b := bitmap_test i in count_free k (i + 1) (if b : bool then acc + 1 else acc)
  end.

(** [bs], [nblk] are [d_blocksize] and [d_blocks] of the device. *)
Definition sfs_do_mount (bs nblk : Z) : M st (Z * option Z) :=
  if negb (bs =? SFS_BLKSIZE) then ret (- E_NA_DEV, None)
  else
    let! fs := kmalloc in
    match fs with
    | None => ret (- E_NO_MEM, None)
    | Some fs =>
        let! buf := kmalloc in
        match buf with
        | None => ret (- E_NO_MEM, None)
        | Some buf =>
            let! r := sfs_init_read SFS_BLKN_SUPER buf in
            if negb (r =? 0) then ret (r, None)
            else
              let! s := get in
              let sup := super_of_bytes (peek (fmem s) buf 44) in
              if negb (magic sup =? SFS_MAGIC) then ret (- E_INVAL, None)
              else if nblk <? sup_blocks sup then ret (- E_INVAL, None)
              else
                let sup := mkSuper (magic sup) (sup_blocks sup) (unused_blocks sup) (<[Z.to_nat SFS_MAX_INFO_LEN := 0]> (info sup)) in
                let! hash := kmalloc in
                match hash with
                | None => ret (- E_NO_MEM, None)
                | Some _ =>
                    let! a1 := kmalloc in
                    let! a2 := (match a1 with Some _ => kmalloc | None => ret None end) in
                    match bitmap_create (bool_decide (is_Some a1)) (bool_decide (is_Some a2)) (sfs_freemap_bits sup), a2 with
                    | Ok (Some b), Some at_ =>
                        let! r := sfs_init_freemap b at_ SFS_BLKN_FREEMAP (sfs_freemap_blocks sup) in
                        if negb (fst r =? 0) then ret (fst r, None)
                        else
                          do! modify (fun s => set_priv (set_xsfs (mkSfs sup (snd r) at_ false buf [] ∅) (priv s)) s) in
                          let! u := on_map (count_free (Z.to_nat (sfs_freemap_bits sup)) 0 0) in
                          do! assert_ (u =? unused_blocks sup) in
                          ret (0, Some fs)
                    | Ok _, _ => ret (- E_NO_MEM, None)
                    | _, _ => panic
                    end
                end
        end
    end.
End Sfs.

(** ** The tables

    The operations call each other through the tables, at most three deep:
    [sfs_lookup] reclaims a node ([vop_ref_dec]), [sfs_reclaim] truncates and syncs
    it. *)
Section Tables.
Context {D : Type}.
Variable dop_io : iobuf -> bool -> M (fst_ (sfsx D)) (Z * iobuf).
Variable fs_at : Z.

Definition no_ops : @inode_ops (sfsx D) := mkOps None None None None None None None None None None None None None None.
Definition sfs_tables (tab : Z -> @inode_ops (sfsx D)) (at_ : Z) : @inode_ops (sfsx D) :=
  if at_ =? sfs_node_dirops_at then sfs_node_dirops dop_io tab fs_at
  else if at_ =? sfs_node_fileops_at then sfs_node_fileops dop_io tab
  else no_ops.
Definition sfs_optab : Z -> @inode_ops (sfsx D) := sfs_tables (sfs_tables (sfs_tables (fun _ => no_ops))).
Definition sfs_fsop : @fs_ops (sfsx D) :=
  mkFsOps (fun _ => sfs_sync dop_io sfs_optab) (fun _ => sfs_get_root dop_io fs_at) (fun _ => sfs_unmount)
          (fun _ => sfs_cleanup dop_io sfs_optab).
End Tables.
