(* ===== verification/SfsInv.v ===== *)
(** * The simple file system: blocks

    The interface to the device under SFS ([BlockDev]): a store of blocks of 4096
    bytes, reached through memory.  The invariant of a mounted file system ([GInv])
    and what the block routines of sfs_io.c and sfs_inode.c do to the bytes of the
    disk and the set of free blocks. *)

From stdpp Require Import base gmap list.
From Stdlib Require Import ZArith Lia Bool.
From S2P Require Import Prelude.
From S2P Require Import Vmm.
From S2P Require Import Vfs.
From S2P Require Import Bitmap.
From S2P Require Import Sfs.

(** ** Bytes in memory *)

Lemma peek_length m a n : length (peek m a n) = Z.to_nat n.
Proof. unfold peek. rewrite length_fmap. apply length_seqZ. Qed.

Lemma peek_lookup m a n i : 0 <= i < n -> peek m a n !! Z.to_nat i = Some (m (a + i)).
Proof.
  intros Hi. unfold peek. rewrite list_lookup_fmap. rewrite (proj2 (lookup_seqZ 0 n (Z.to_nat i) i)) by lia. done.
Qed.

Lemma peek_total m a n i : 0 <= i < n -> peek m a n !!! Z.to_nat i = m (a + i).
Proof. intros Hi. apply list_lookup_total_correct, peek_lookup. done. Qed.

Lemma peek_ext m m' a n : (forall i, 0 <= i < n -> m' (a + i) = m (a + i)) -> peek m' a n = peek m a n.
Proof. intros H. apply list_fmap_ext. intros k i Hi. apply lookup_seqZ in Hi as [-> Hi]. apply H. lia. Qed.

Lemma poke_in a l m x : a <= x < a + Z.of_nat (length l) -> poke a l m x = l !!! Z.to_nat (x - a).
Proof. intros Hx. unfold poke. rewrite (proj2 (Z.leb_le _ _)), (proj2 (Z.ltb_lt _ _)) by lia. done. Qed.
Lemma poke_out a l m x : ~ (a <= x < a + Z.of_nat (length l)) -> poke a l m x = m x.
Proof.
  intros Hx. unfold poke. destruct (Z.leb_spec a x), (Z.ltb_spec x (a + Z.of_nat (length l))); try done. lia.
Qed.
Lemma bzero_in a n m x : a <= x < a + n -> bzero a n m x = 0.
Proof. intros Hx. unfold bzero. rewrite (proj2 (Z.leb_le _ _)), (proj2 (Z.ltb_lt _ _)) by lia. done. Qed.
Lemma bzero_out a n m x : ~ (a <= x < a + n) -> bzero a n m x = m x.
Proof. intros Hx. unfold bzero. destruct (Z.leb_spec a x), (Z.ltb_spec x (a + n)); try done. lia. Qed.

(** ** Little-endian words *)

Definition is_bytes (l : list Z) : Prop := Forall (fun b => 0 <= b < 256) l.

Lemma put_le_length k w : length (put_le k w) = k.
Proof. revert w. induction k as [|k IH]; intros w; cbn; [done|]. by rewrite IH. Qed.
Lemma put_le_bytes k w : is_bytes (put_le k w).
Proof. revert w. induction k as [|k IH]; intros w; cbn; constructor; [mlia|apply IH]. Qed.

Lemma get_put_le k w l : 0 <= w < 256 ^ Z.of_nat k -> get_le k (put_le k w ++ l) = w.
Proof.
  unfold get_le. rewrite take_app_length' by (by rewrite put_le_length).
  revert w. induction k as [|k IH]; intros w Hw; [cbn in *; lia|].
  cbn [put_le foldr]. rewrite Nat2Z.inj_succ, Z.pow_succ_r in Hw by lia.
  rewrite IH by (split; [apply Z.div_pos; lia|apply Z.div_lt_upper_bound; lia]). mlia.
Qed.

Lemma get_le_range k l : is_bytes l -> 0 <= get_le k l < 256 ^ Z.of_nat k.
Proof.
  intros Hl. unfold get_le. revert l Hl. induction k as [|k IH]; intros l Hl; [destruct l; cbn [take foldr]; change (256 ^ Z.of_nat 0) with 1; lia|].
  rewrite Nat2Z.inj_succ, Z.pow_succ_r by lia. destruct l as [|b l]; cbn [take foldr].
  - pose proof (Z.pow_pos_nonneg 256 (Z.of_nat k)). lia.
  - apply Forall_cons in Hl as [Hb Hl]. specialize (IH l Hl). lia.
Qed.

(** The word at byte [a] of a store of bytes. *)
Definition word_at (m : bytes) (a : Z) : Z := get_le 4 (peek m a 4).

Lemma peek4 m a : peek m a 4 = [m (a + 0); m (a + 1); m (a + 2); m (a + 3)].
Proof. reflexivity. Qed.
Lemma word_at_ext m m' a : (forall i, 0 <= i < 4 -> m' (a + i) = m (a + i)) -> word_at m' a = word_at m a.
Proof. intros H. unfold word_at. by rewrite (peek_ext m m') by done. Qed.
Lemma word_at_put m a w : 0 <= w < W32 -> (forall i, 0 <= i < 4 -> m (a + i) = put_le 4 w !!! Z.to_nat i) -> word_at m a = w.
Proof.
  intros Hw Hm. unfold word_at. rewrite <-(get_put_le 4 w []) by (unfold W32 in Hw; lia). f_equal. rewrite peek4, app_nil_r.
  rewrite !Hm by lia. reflexivity.
Qed.
Lemma word_at_zero m a : (forall i, 0 <= i < 4 -> m (a + i) = 0) -> word_at m a = 0.
Proof. intros H. unfold word_at. rewrite peek4, !H by lia. reflexivity. Qed.

(** ** Counting free blocks *)

Definition nfree (b : bitmap) : Z := Z.of_nat (length (filter (fun i => bit b i = true) (seqZ 0 (nbits b)))).

Lemma filter_ext_in (P Q : Z -> Prop) `{!forall x, Decision (P x), !forall x, Decision (Q x)} (l : list Z) :
  (forall x, x ∈ l -> P x <-> Q x) -> filter P l = filter Q l.
Proof.
  induction l as [|x l IH]; intros HPQ; [done|]. rewrite !filter_cons, IH by (intros; apply HPQ; by right).
  rewrite (decide_ext (P x) (Q x)) by (apply HPQ; left). done.
Qed.

Lemma filter_flip (P Q : Z -> Prop) `{!forall x, Decision (P x), !forall x, Decision (Q x)} i (l : list Z) :
  NoDup l -> i ∈ l -> P i -> (forall j, j ∈ l -> Q j <-> P j /\ j <> i) ->
  length (filter P l) = S (length (filter Q l)).
Proof.
  induction l as [|x l IH]; intros Hnd Hin HP HQ; [by apply elem_of_nil in Hin|].
  apply NoDup_cons in Hnd as [Hx Hnd]. rewrite !filter_cons. destruct (decide (x = i)) as [->|Hne].
  - rewrite (decide_True (P := P i)) by done. rewrite (decide_False (P := Q i)) by (rewrite HQ by left; tauto). cbn. f_equal.
    f_equal. apply filter_ext_in. intros j Hj. rewrite HQ by (by right).
    split; [|tauto]. intros ?. split; [done|]. by intros ->.
  - apply elem_of_cons in Hin as [->|Hin]; [done|].
    assert (Heq : P x <-> Q x) by (rewrite HQ by left; tauto). rewrite (decide_ext (P x) (Q x)) by done.
    assert (IH' := IH Hnd Hin HP ltac:(intros; apply HQ; by right)). case_decide; cbn; lia.
Qed.

Lemma nfree_alloc b b' i :
  nbits b' = nbits b -> 0 <= i < nbits b -> bit b i = true -> (forall j, 0 <= j -> bit b' j = bit b j && negb (j =? i)) ->
  nfree b = nfree b' + 1.
Proof.
  intros Hn Hi Hb Hb'. unfold nfree. rewrite Hn.
  rewrite (filter_flip (fun j => bit b j = true) (fun j => bit b' j = true) i (seqZ 0 (nbits b))); [lia|apply NoDup_seqZ|by apply elem_of_seqZ; lia|done|].
  intros j Hj. apply elem_of_seqZ in Hj. rewrite Hb' by lia. rewrite andb_true_iff, negb_true_iff, Z.eqb_neq. done.
Qed.

Lemma nfree_free b b' i :
  nbits b' = nbits b -> 0 <= i < nbits b -> bit b i = false -> (forall j, 0 <= j -> bit b' j = bit b j || (j =? i)) ->
  nfree b' = nfree b + 1.
Proof.
  intros Hn Hi Hb Hb'. apply (nfree_alloc b' b i); [done|lia|rewrite Hb', Z.eqb_refl by lia; apply orb_true_r|].
  intros j Hj. rewrite Hb' by lia. destruct (Z.eqb_spec j i) as [->|]; [by rewrite Hb|]. by rewrite orb_false_r, andb_true_r.
Qed.

Lemma nfree_pos b i : 0 <= i < nbits b -> bit b i = true -> 0 < nfree b.
Proof.
  intros Hi Hb. unfold nfree. assert (Hin : i ∈ filter (fun j => bit b j = true) (seqZ 0 (nbits b))).
  { apply list_elem_of_filter. split; [done|]. apply elem_of_seqZ. lia. }
  destruct (filter _ _) as [|x l] eqn:He; [by apply elem_of_nil in Hin|]. cbn. lia.
Qed.
Lemma nfree_bound b : 0 <= nbits b -> 0 <= nfree b <= nbits b.
Proof.
  intros Hn. unfold nfree. split; [lia|]. etrans; [apply inj_le, length_filter|]. rewrite length_seqZ. lia.
Qed.

(** ** The device under the file system

    [dbyte m o]: byte [o] of the disk when memory is [m] (the disk of this machine
    is a region of memory, but the client does not know which); [client x]: the
    address [x] belongs neither to the disk nor to the driver.  Whole aligned blocks
    are transferred between client memory and the disk. *)
Class BlockDev {D} (dop_io : iobuf -> bool -> M (fst_ (sfsx D)) (Z * iobuf)) (d0 : D) := {
  nblk : Z;
  client : Z -> Prop;
  dbyte : bytes -> Z -> Z;
  bd_size : 0 <= nblk /\ nblk * SFS_BLKSIZE <= 2147483648;
  bd_local m m' o : (forall x, ~ client x -> m' x = m x) -> dbyte m' o = dbyte m o;
  bd_read s b k : xdev (priv s) = d0 -> 0 <= k < nblk -> (forall x, b <= x < b + SFS_BLKSIZE -> client x) ->
    runs (dop_io (iobuf_init b SFS_BLKSIZE (k * SFS_BLKSIZE)) false) s (fun r s' => fst r = 0 /\ exists m', s' = set_fmem m' s /\
      (forall x, client x -> m' x = if decide (b <= x < b + SFS_BLKSIZE) then dbyte (fmem s) (k * SFS_BLKSIZE + (x - b)) else fmem s x) /\
      forall o, 0 <= o < nblk * SFS_BLKSIZE -> dbyte m' o = dbyte (fmem s) o);
  bd_write s b k : xdev (priv s) = d0 -> 0 <= k < nblk -> (forall x, b <= x < b + SFS_BLKSIZE -> client x) ->
    runs (dop_io (iobuf_init b SFS_BLKSIZE (k * SFS_BLKSIZE)) true) s (fun r s' => fst r = 0 /\ exists m', s' = set_fmem m' s /\
      (forall x, client x -> m' x = fmem s x) /\
      forall o, 0 <= o < nblk * SFS_BLKSIZE -> dbyte m' o =
        if decide (k * SFS_BLKSIZE <= o < (k + 1) * SFS_BLKSIZE) then fmem s (b + (o - k * SFS_BLKSIZE)) else dbyte (fmem s) o)
}.

Section Blocks.
Context {D : Type} (dop_io : iobuf -> bool -> M (fst_ (sfsx D)) (Z * iobuf)) (d0 : D) `{!BlockDev dop_io d0}.
Abbreviation st := (fst_ (sfsx D)).
Implicit Types (s : st).

Abbreviation sfs s := (xsfs (priv s)).
(** Byte [o] of block [k] of the disk. *)
Definition dsk s (k o : Z) : Z := dbyte (fmem s) (k * SFS_BLKSIZE + o).
Definition in_buffer s (x : Z) : Prop := sfs_buffer (sfs s) <= x < sfs_buffer (sfs s) + SFS_BLKSIZE.
Definition used s (k : Z) : Prop := 0 < k < sup_blocks (super (sfs s)) /\ bit (freemap (sfs s)) k = false.
Definition free s (k : Z) : Prop := 0 <= k < nbits (freemap (sfs s)) /\ bit (freemap (sfs s)) k = true.

(** A mounted file system: the free map is well formed, its free blocks are blocks
    of the disk other than the superblock, they are counted in the superblock, and
    the buffer is client memory. *)
Record GInv s : Prop := {
  g_dev : xdev (priv s) = d0;
  g_blocks : 0 < sup_blocks (super (sfs s)) <= nblk;
  g_map : wf (freemap (sfs s));
  g_bits : sup_blocks (super (sfs s)) <= nbits (freemap (sfs s));
  g_free : forall k, free s k -> 0 < k < sup_blocks (super (sfs s));
  g_count : unused_blocks (super (sfs s)) = nfree (freemap (sfs s));
  g_buf : 0 <= sfs_buffer (sfs s) /\ forall x, in_buffer s x -> client x
}.

(** Only memory changed. *)
Lemma GInv_fmem s m : GInv s -> GInv (set_fmem m s).
Proof. intros [? ? ? ? ? ? ?]. by split. Qed.

Lemma sfs_offset k : 0 <= k < nblk -> s32 (k * SFS_BLKSIZE) = k * SFS_BLKSIZE.
Proof. intros Hk. pose proof bd_size as [_ Hs]. apply s32_small. unfold SFS_BLKSIZE in *. lia. Qed.

Lemma rwblock_read_runs s b k (check : bool) :
  GInv s -> 0 <= k < sup_blocks (super (sfs s)) -> (check = true -> k <> 0) -> (forall x, b <= x < b + SFS_BLKSIZE -> client x) ->
  runs (sfs_rwblock_nolock dop_io b k false check) s (fun r s' => r = 0 /\ exists m', s' = set_fmem m' s /\
    (forall x, client x -> m' x = if decide (b <= x < b + SFS_BLKSIZE) then dsk s k (x - b) else fmem s x) /\
    forall j o, 0 <= j < nblk -> 0 <= o < SFS_BLKSIZE -> dbyte m' (j * SFS_BLKSIZE + o) = dsk s j o).
Proof.
  intros HG Hk Hc Hb. pose proof (g_blocks s HG) as Hn. unfold sfs_rwblock_nolock, rd_sfs. runs_steps. apply runs_assert.
  { apply andb_true_iff. split; [|by apply Z.ltb_lt; lia]. destruct check; [|by rewrite orb_true_r]. rewrite orb_false_r. apply negb_true_iff, Z.eqb_neq. auto. }
  runs_steps. rewrite sfs_offset by lia. runs_by bd_read; [apply (g_dev s HG)|lia|exact Hb|].
  intros r s' (Hr&m'&->&Hm&Hd). runs_steps. split; [done|]. exists m'. split; [done|]. split; [exact Hm|].
  intros j o Hj Ho. apply Hd. unfold SFS_BLKSIZE in *. lia.
Qed.

Lemma rwblock_write_runs s b k (check : bool) :
  GInv s -> 0 <= k < sup_blocks (super (sfs s)) -> (check = true -> k <> 0) -> (forall x, b <= x < b + SFS_BLKSIZE -> client x) ->
  runs (sfs_rwblock_nolock dop_io b k true check) s (fun r s' => r = 0 /\ exists m', s' = set_fmem m' s /\
    (forall x, client x -> m' x = fmem s x) /\
    forall j o, 0 <= j < nblk -> 0 <= o < SFS_BLKSIZE -> dbyte m' (j * SFS_BLKSIZE + o) = if decide (j = k) then fmem s (b + o) else dsk s j o).
Proof.
  intros HG Hk Hc Hb. pose proof (g_blocks s HG) as Hn. unfold sfs_rwblock_nolock, rd_sfs. runs_steps. apply runs_assert.
  { apply andb_true_iff. split; [|by apply Z.ltb_lt; lia]. destruct check; [|by rewrite orb_true_r]. rewrite orb_false_r. apply negb_true_iff, Z.eqb_neq. auto. }
  runs_steps. rewrite sfs_offset by lia. runs_by bd_write; [apply (g_dev s HG)|lia|exact Hb|].
  intros r s' (Hr&m'&->&Hm&Hd). runs_steps. split; [done|]. exists m'. split; [done|]. split; [exact Hm|].
  intros j o Hj Ho. rewrite Hd by (unfold SFS_BLKSIZE in *; lia). destruct (decide (j = k)) as [->|Hne].
  - rewrite decide_True by (unfold SFS_BLKSIZE in *; lia). f_equal. lia.
  - rewrite decide_False by (unfold SFS_BLKSIZE in *; lia). done.
Qed.

(** ** Changes to memory and disk only

    [touch s s' R W]: nothing but memory changed; client memory only in the block
    buffer and in [R], the disk only where [W] says what is there now. *)
Record touch s s' (R : Z -> Prop) (W : Z -> Z -> option Z) : Prop := {
  to_st : s' = set_fmem (fmem s') s;
  to_mem : forall x, client x -> ~ in_buffer s x -> ~ R x -> fmem s' x = fmem s x;
  to_dsk : forall j o, 0 <= j < nblk -> 0 <= o < SFS_BLKSIZE -> dsk s' j o = default (dsk s j o) (W j o)
}.
Definition nowhere (x : Z) : Prop := False.
Definition asis (j o : Z) : option Z := None.
Definition at_block (k a : Z) (l : list Z) (j o : Z) : option Z := if decide (j = k /\ a <= o < a + Z.of_nat (length l)) then Some (l !!! Z.to_nat (o - a)) else None.

Lemma touch_GInv s s' R W : touch s s' R W -> GInv s -> GInv s'.
Proof. intros [-> _ _] HG. by apply GInv_fmem. Qed.
Lemma touch_sfs s s' R W : touch s s' R W -> sfs s' = sfs s.
Proof. intros [-> _ _]. done. Qed.

Lemma in_block_true off len : 0 <= off < SFS_BLKSIZE -> 0 <= len -> off + len <= SFS_BLKSIZE -> in_block off len = true.
Proof.
  intros. unfold in_block. rewrite u32_small by (unfold is_u32, W32, SFS_BLKSIZE in *; lia).
  rewrite !andb_true_iff, !Z.leb_le, Z.ltb_lt. lia.
Qed.

Lemma sfs_rbuf_runs s len k off :
  GInv s -> 0 < k < sup_blocks (super (sfs s)) -> 0 <= off < SFS_BLKSIZE -> 0 <= len -> off + len <= SFS_BLKSIZE ->
  runs (sfs_rbuf dop_io len k off) s (fun r s' => r = (0, peek (dsk s k) off len) /\ touch s s' nowhere asis).
Proof.
  intros HG Hk Ho Hl Hol. destruct (g_buf s HG) as [Hb0 Hbc]. unfold sfs_rbuf, rd_sfs. runs_steps. apply runs_assert; [by apply in_block_true|]. runs_steps.
  runs_by (rwblock_read_runs s (sfs_buffer (sfs s)) k true HG); [lia|lia|intros x Hx; apply Hbc; exact Hx|].
  intros r s' (->&m'&->&Hm&Hd). cbn [Z.eqb]. runs_steps. split.
  - f_equal. cbn [fmem set_fmem]. apply list_fmap_ext. intros j i Hi. apply lookup_seqZ in Hi as [-> Hi].
    rewrite Hm by (apply Hbc; unfold in_buffer; lia).
    rewrite decide_True by lia. f_equal. lia.
  - split; cbn [fmem set_fmem]; [done| |].
    + intros x Hc Hx _. rewrite Hm by done. by rewrite decide_False.
    + intros j o Hj Hoo. apply Hd; done.
Qed.

Lemma sfs_wbuf_runs s data k off :
  GInv s -> 0 < k < sup_blocks (super (sfs s)) -> 0 <= off < SFS_BLKSIZE -> off + Z.of_nat (length data) <= SFS_BLKSIZE ->
  runs (sfs_wbuf dop_io data k off) s (fun r s' => r = 0 /\ touch s s' nowhere (at_block k off data)).
Proof.
  intros HG Hk Ho Hol. destruct (g_buf s HG) as [Hb0 Hbc]. pose proof (g_blocks s HG) as Hn.
  unfold sfs_wbuf, rd_sfs. runs_steps. apply runs_assert; [apply in_block_true; lia|]. runs_steps.
  runs_by (rwblock_read_runs s (sfs_buffer (sfs s)) k true HG); [lia|lia|intros x Hx; apply Hbc; exact Hx|].
  intros r s' (->&m'&->&Hm&Hd). cbn [Z.eqb]. unfold on_mem. runs_steps. cbn [fmem set_fmem].
  set (m2 := poke (sfs_buffer (sfs s) + off) data m').
  assert (Hl2 : forall o, dbyte m2 o = dbyte m' o).
  { intros o. apply bd_local. intros x Hx. unfold m2. apply poke_out. intros Hr. apply Hx, Hbc. unfold in_buffer. lia. }
  runs_by (rwblock_write_runs (set_fmem m2 s) (sfs_buffer (sfs s)) k true (GInv_fmem s m2 HG)); [cbn; lia|lia|intros x Hx; apply Hbc; exact Hx|].
  intros r s' (->&m3&->&Hm3&Hd3). split; [done|]. cbn [fmem set_fmem] in Hm3. split; cbn [fmem set_fmem]; [done| |].
  - intros x Hc Hx _. rewrite Hm3 by done. unfold m2. rewrite poke_out by (unfold in_buffer in Hx; lia). rewrite Hm by done. by rewrite decide_False.
  - intros j o Hj Hoo. unfold dsk at 1. cbn [fmem set_fmem]. rewrite Hd3 by done. unfold at_block. cbn [fmem set_fmem].
    assert (Hdj : dsk (set_fmem m2 s) j o = dsk s j o) by (unfold dsk at 1; cbn [fmem set_fmem]; rewrite Hl2; by apply Hd).
    destruct (decide (j = k)) as [->|Hne]; [|rewrite decide_False by tauto; exact Hdj].
    destruct (decide (off <= o < off + Z.of_nat (length data))) as [Hi|Hi].
    + rewrite decide_True by done. unfold m2. rewrite poke_in by lia. cbn. f_equal. f_equal. lia.
    + rewrite decide_False by tauto. unfold m2. rewrite poke_out by lia. rewrite Hm by (apply Hbc; unfold in_buffer; lia).
      rewrite decide_True by lia. cbn. f_equal. lia.
Qed.

Lemma sfs_clear_block_runs s k :
  GInv s -> 0 < k < sup_blocks (super (sfs s)) ->
  runs (sfs_clear_block dop_io k 1) s (fun r s' => r = 0 /\
    touch s s' nowhere (fun j o => if decide (j = k) then Some 0 else None)).
Proof.
  intros HG Hk. destruct (g_buf s HG) as [Hb0 Hbc]. pose proof (g_blocks s HG) as Hn.
  unfold sfs_clear_block, rd_sfs, on_mem. runs_steps. cbn [Z.eqb]. change (Z.to_nat 1) with 1%nat. cbn [clear_loop]. runs_steps.
  set (m2 := bzero (sfs_buffer (sfs s)) SFS_BLKSIZE (fmem s)).
  assert (Hl2 : forall o, dbyte m2 o = dbyte (fmem s) o).
  { intros o. apply bd_local. intros x Hx. unfold m2. apply bzero_out. intros Hr. by apply Hx, Hbc. }
  runs_by (rwblock_write_runs (set_fmem m2 s) (sfs_buffer (sfs s)) k true (GInv_fmem s m2 HG)); [cbn; lia|lia|intros x Hx; apply Hbc; exact Hx|].
  intros r s' (->&m3&->&Hm3&Hd3). cbn [negb Z.eqb]. runs_steps. split; [done|]. cbn [fmem set_fmem] in Hm3. split; cbn [fmem set_fmem]; [done| |].
  - intros x Hc Hx _. rewrite Hm3 by done. unfold m2. by rewrite bzero_out.
  - intros j o Hj Hoo. unfold dsk at 1. cbn [fmem set_fmem]. rewrite Hd3 by done. cbn [fmem set_fmem]. case_decide; cbn.
    + unfold m2. apply bzero_in. lia.
    + unfold dsk. cbn [fmem set_fmem]. apply Hl2.
Qed.
(** ** Frames

    [keeps R W s s']: outside the routine's own data nothing changed.  Blocks in use
    and not in [W] stay in use with their bytes; client memory changed at most in
    the block buffer and [R]; of the file system only the free map, the count and
    the dirty mark changed, and the inodes' own records ([sins]). *)
Record keeps (R W : Z -> Prop) s s' : Prop := {
  kp_st : s' = set_priv (set_xsfs (sfs s') (set_sins (sins (priv s')) (priv s))) (set_fmem (fmem s') s);
  kp_fs : sfs s' = mkSfs (set_unused (unused_blocks (super (sfs s'))) (super (sfs s))) (freemap (sfs s')) (map_addr (sfs s))
            (super_dirty (sfs s')) (sfs_buffer (sfs s)) (inode_list (sfs s)) (sfs_hash (sfs s));
  kp_mem : forall x, client x -> ~ in_buffer s x -> ~ R x -> fmem s' x = fmem s x;
  kp_used : forall k, used s k -> ~ W k -> used s' k;
  kp_dsk : forall k o, used s k -> ~ W k -> 0 <= o < SFS_BLKSIZE -> dsk s' k o = dsk s k o
}.

Lemma keeps_refl R W s : keeps R W s s.
Proof. split; try done; [by destruct s as [? ? ? ? ? ? ? []]|by destruct (priv s) as [? [[] ? ? ? ? ? ?] ? ?]]. Qed.

Lemma keeps_buffer R W s s' : keeps R W s s' -> sfs_buffer (sfs s') = sfs_buffer (sfs s) /\ sup_blocks (super (sfs s')) = sup_blocks (super (sfs s)).
Proof. intros HK. rewrite (kp_fs _ _ _ _ HK). done. Qed.

Lemma keeps_trans R1 W1 R2 W2 (R : Z -> Prop) s1 s2 s3 :
  keeps R1 W1 s1 s2 -> keeps R2 W2 s2 s3 -> (forall x, R1 x -> R x) -> (forall x, R2 x -> R x) ->
  (forall k, used s1 k -> W2 k -> W1 k) -> keeps R W1 s1 s3.
Proof.
  intros HK1 HK2 HR1 HR2 HW. pose proof (keeps_buffer _ _ _ _ HK1) as [Hb1 _]. split.
  - rewrite (kp_st _ _ _ _ HK2) at 1. rewrite (kp_st _ _ _ _ HK1) at 1 2. done.
  - rewrite (kp_fs _ _ _ _ HK2) at 1. rewrite (kp_fs _ _ _ _ HK1) at 1 2 3 4 5. done.
  - intros x Hc Hb HnR. rewrite (kp_mem _ _ _ _ HK2 x Hc); [|by unfold in_buffer; rewrite Hb1|auto]. apply (kp_mem _ _ _ _ HK1); auto.
  - intros k Hu HnW. apply (kp_used _ _ _ _ HK2); [by apply (kp_used _ _ _ _ HK1)|auto].
  - intros k o Hu HnW Ho. rewrite (kp_dsk _ _ _ _ HK2); [by apply (kp_dsk _ _ _ _ HK1)|by apply (kp_used _ _ _ _ HK1)|auto|done].
Qed.

Lemma keeps_mono (R W R' W' : Z -> Prop) s s' :
  keeps R W s s' -> (forall x, R x -> R' x) -> (forall k, W k -> W' k) -> keeps R' W' s s'.
Proof. intros [? ? Hm Hu Hd] HR HW. split; auto. Qed.

Lemma touch_keeps (R W : Z -> Prop) s s' R0 W0 :
  GInv s -> touch s s' R0 W0 -> (forall x, R0 x -> R x) -> (forall k o, used s k -> ~ W k -> W0 k o = None) -> keeps R W s s'.
Proof.
  intros HG [Hst Hm Hd] HR HW. pose proof (g_blocks s HG) as Hn. split.
  - rewrite Hst at 1. rewrite Hst. cbn. by destruct s as [? ? ? ? ? ? ? []].
  - rewrite Hst. cbn. by destruct (priv s) as [? [[] ? ? ? ? ? ?] ? ?].
  - intros x Hc Hb Hx. apply Hm; auto.
  - intros k Hu _. rewrite Hst. done.
  - intros k o Hu HnW Ho. rewrite Hd; [|destruct Hu; lia|done]. by rewrite (HW k o).
Qed.

(** A step that leaves memory alone and frees no block outside [W]. *)
Lemma keeps_still R W s s' :
  s' = set_priv (set_xsfs (sfs s') (set_sins (sins (priv s')) (priv s))) s ->
  sfs s' = mkSfs (set_unused (unused_blocks (super (sfs s'))) (super (sfs s))) (freemap (sfs s')) (map_addr (sfs s))
            (super_dirty (sfs s')) (sfs_buffer (sfs s)) (inode_list (sfs s)) (sfs_hash (sfs s)) ->
  (forall k, used s k -> ~ W k -> used s' k) -> keeps R W s s'.
Proof.
  intros Hst Hfs Hu. assert (Hm : fmem s' = fmem s) by (by rewrite Hst). split; [|done| |done|].
  - rewrite Hm. rewrite Hst at 1. by destruct s.
  - intros x _ _ _. by rewrite Hm.
  - intros k o _ _ _. unfold dsk. by rewrite Hm.
Qed.

(** ** Allocating and freeing a block *)

Lemma block_inuse_runs s k Q :
  GInv s -> 0 < k < sup_blocks (super (sfs s)) -> Q (negb (bit (freemap (sfs s)) k)) s -> runs (sfs_block_inuse k) s Q.
Proof.
  intros HG Hk HQ. pose proof (g_bits s HG). unfold sfs_block_inuse, rd_sfs. runs_steps.
  rewrite (proj2 (Z.eqb_neq _ _)), (proj2 (Z.ltb_lt _ _)) by lia. cbn [negb andb]. unfold on_map. runs_steps.
  apply bitmap_test_runs; [apply (g_map s HG)|lia|]. runs_steps.
  replace (set_priv _ s) with s; [done|]. by destruct s as [? ? ? ? ? ? ? [? [] ? ?]].
Qed.

Lemma used_inuse_runs s k (Q : bool -> st -> Prop) : GInv s -> used s k -> Q true s -> runs (sfs_block_inuse k) s Q.
Proof. intros HG [Hk Hb] HQ. apply block_inuse_runs; [done|done|]. by rewrite Hb. Qed.

Definition with_map s (b : bitmap) (dt : bool) (u : Z) : st :=
  set_priv (set_xsfs (set_super_dirty dt (set_super (set_unused u (super (sfs s))) (set_freemap b (sfs s)))) (priv s)) s.

Lemma with_map_GInv s b dt u :
  GInv s -> wf b -> nbits b = nbits (freemap (sfs s)) -> u = nfree b ->
  (forall k, 0 <= k < nbits b -> bit b k = true -> 0 < k < sup_blocks (super (sfs s))) -> GInv (with_map s b dt u).
Proof.
  intros [? ? ? ? ? ? ?] Hwf Hn Hu Hf. split; try done.
  - cbn. by rewrite Hn.
  - intros k [Hk Hb]. by apply Hf.
Qed.

Lemma sfs_block_alloc_runs s :
  GInv s ->
  runs (sfs_block_alloc dop_io) s (fun r s' => GInv s' /\
    ((r = (- E_NO_MEM, 0) /\ s' = s /\ forall k, ~ free s k) \/
     (fst r = 0 /\ free s (snd r) /\ (forall k, used s' k <-> used s k \/ k = snd r) /\
      (forall o, 0 <= o < SFS_BLKSIZE -> dsk s' (snd r) o = 0) /\ sins (priv s') = sins (priv s) /\ keeps nowhere nowhere s s'))).
Proof.
  intros HG. pose proof (g_bits s HG) as Hbits. unfold sfs_block_alloc, on_map. runs_steps.
  runs_by (bitmap_alloc_runs (freemap (sfs s)) (g_map s HG)). intros [e [i|]] b' (Hwf&Hn&Hr); cbn [fst snd] in *.
  2:{ destruct Hr as (->&->&Hnone). runs_steps. replace (set_priv _ s) with s by (by destruct s as [? ? ? ? ? ? ? [? [] ? ?]]).
      split; [done|]. left. split; [done|]. split; [done|]. intros k [Hk Hb]. by rewrite Hnone in Hb. }
  destruct Hr as (->&Hi&Hbi&_&Hb'). assert (Hfree : free s i) by done. pose proof (g_free s HG i Hfree) as Hirange.
  pose proof (nfree_alloc _ _ i Hn Hi Hbi Hb') as Hcnt. pose proof (nfree_bound b' ltac:(lia)) as Hnb.
  pose proof (wf_bits _ Hwf) as [_ Hw]. unfold WORD_BITS in Hw.
  unfold rd_sfs. runs_steps. cbn [xsfs priv set_priv set_xsfs super set_freemap]. rewrite (g_count s HG).
  apply runs_assert; [apply Z.ltb_lt; lia|]. runs_steps. unfold add_unused, upd_sfs. runs_steps. cbn [xsfs priv set_priv set_xsfs super set_freemap].
  rewrite (g_count s HG), u32_small by (unfold is_u32; lia). replace (nfree (freemap (sfs s)) + -1) with (nfree b') by lia.
  match goal with |- runs _ ?t _ => change t with (with_map s b' true (nfree b')) end.
  assert (HG1 : GInv (with_map s b' true (nfree b'))).
  { apply with_map_GInv; [done|done|done|done|]. intros k Hk Hkb. rewrite Hb' in Hkb by lia. apply andb_true_iff in Hkb as [Hkb _].
    apply (g_free s HG). split; [by rewrite <-Hn|done]. }
  assert (Hused : forall k, used (with_map s b' true (nfree b')) k <-> used s k \/ k = i).
  { intros k. unfold used. cbn [xsfs priv set_priv set_xsfs super set_freemap with_map freemap set_super set_super_dirty sup_blocks set_unused]. split.
    - intros [Hk Hkb]. rewrite Hb' in Hkb by lia. destruct (Z.eqb_spec k i); [by right|]. left. rewrite andb_true_r in Hkb. done.
    - intros [[Hk Hkb]| ->]; (split; [done|]); rewrite Hb' by lia; [by rewrite Hkb|by rewrite Z.eqb_refl, andb_false_r]. }
  apply (used_inuse_runs _ i _ HG1); [apply Hused; by right|]. runs_steps. apply runs_assert; [done|]. runs_steps.
  runs_by (sfs_clear_block_runs _ i HG1); [done|]. intros c s' [-> Ht]. runs_steps. split; [by eapply touch_GInv|]. right.
  assert (HK : keeps nowhere (fun k => k = i) (with_map s b' true (nfree b')) s').
  { eapply touch_keeps; [done|exact Ht|done|]. intros k o _ Hk. cbn beta. by rewrite decide_False. }
  assert (HK0 : keeps nowhere nowhere s (with_map s b' true (nfree b'))).
  { apply keeps_still; [by destruct s as [? ? ? ? ? ? ? [? [] ? ?]]|done|]. intros k Hk _. apply Hused. by left. }
  assert (Hus' : forall k, used s' k <-> used s k \/ k = i).
  { intros k. rewrite <-Hused. rewrite (to_st _ _ _ _ Ht). done. }
  cbn [fst snd]. split; [done|]. split; [done|]. split; [done|]. split; [|split].
  - intros o Ho. rewrite (to_dsk _ _ _ _ Ht); [|pose proof (g_blocks s HG); lia|done]. by rewrite decide_True.
  - by rewrite (to_st _ _ _ _ Ht).
  - eapply keeps_trans; [exact HK0|exact HK|done|done|]. intros k [_ Hk] ->. cbn in Hk. destruct Hfree as [_ Hf]. by rewrite Hf in Hk.
Qed.

Lemma sfs_block_free_runs s i :
  GInv s -> used s i ->
  runs (sfs_block_free i) s (fun _ s' => GInv s' /\ (forall k, used s' k <-> used s k /\ k <> i) /\
    fmem s' = fmem s /\ sins (priv s') = sins (priv s) /\ keeps nowhere (fun k => k = i) s s').
Proof.
  intros HG Hu. pose proof Hu as [Hi Hbi]. pose proof (g_bits s HG) as Hbits. unfold sfs_block_free. runs_steps.
  apply (used_inuse_runs _ i _ HG Hu). runs_steps. apply runs_assert; [done|]. unfold on_map. runs_steps.
  pose proof (bitmap_free_runs (freemap (sfs s)) i (g_map s HG) ltac:(lia)) as Hr. rewrite Hbi in Hr.
  runs_by Hr. intros _ b' (Hwf&Hn&Hb'). pose proof (nfree_free _ _ i Hn ltac:(lia) Hbi Hb') as Hcnt. pose proof (nfree_bound b' ltac:(lia)) as Hnb.
  pose proof (wf_bits _ Hwf) as [_ Hw]. unfold WORD_BITS in Hw.
  unfold add_unused, upd_sfs. runs_steps. cbn [xsfs priv set_priv set_xsfs super set_freemap].
  rewrite (g_count s HG), u32_small by (unfold is_u32; lia). rewrite <-Hcnt.
  match goal with |- GInv ?t /\ _ => change t with (with_map s b' true (nfree b')) end.
  assert (Hused : forall k, used (with_map s b' true (nfree b')) k <-> used s k /\ k <> i).
  { intros k. unfold used. cbn [xsfs priv set_priv set_xsfs super set_freemap with_map freemap set_super set_super_dirty sup_blocks set_unused]. split.
    - intros [Hk Hkb]. rewrite Hb' in Hkb by lia. apply orb_false_iff in Hkb as [Hkb He]. apply Z.eqb_neq in He. done.
    - intros [[Hk Hkb] Hne]. split; [done|]. rewrite Hb' by lia. apply orb_false_iff. split; [done|]. by apply Z.eqb_neq. }
  split; [|split; [done|split; [done|split; [done|]]]].
  - apply with_map_GInv; [done|done|done|done|]. intros k Hk Hkb. rewrite Hb' in Hkb by lia. apply orb_true_iff in Hkb as [Hkb|Hkb].
    + apply (g_free s HG). split; [by rewrite <-Hn|done].
    + apply Z.eqb_eq in Hkb as ->. done.
  - apply keeps_still; [by destruct s as [? ? ? ? ? ? ? [? [] ? ?]]|done|]. intros k Hk HnW. apply Hused. done.
Qed.
End Blocks.
