(* ===== verification/SfsThm.v ===== *)
(** * The simple file system: files

    A file is the list of its blocks ([frep]): the block map routines append to it,
    look up in it and drop from it.  On top of that [sfs_io_nolock] reads and writes
    a sequence of bytes. *)

From stdpp Require Import base gmap list.
From Stdlib Require Import ZArith Lia Bool.
From S2P Require Import Prelude.
From S2P Require Import Vmm.
From S2P Require Import Vfs.
From S2P Require Import Bitmap.
From S2P Require Import Sfs.
From S2P Require Import SfsInv.

(** After updates of an inode's record only: name the state by the last one. *)
Ltac fold_sins s1 s2 :=
  lazymatch goal with
  | |- runs ?m (set_priv (set_sins ?v _) _) ?Q => set (s2 := set_priv (set_sins v (priv s1)) s1); change (runs m s2 Q)
  end.

Section Files.
Context {D : Type} (dop_io : iobuf -> bool -> M (fst_ (sfsx D)) (Z * iobuf)) (d0 : D) `{!BlockDev dop_io d0}.
Abbreviation st := (fst_ (sfsx D)).
Abbreviation sfs s := (xsfs (priv s)).
Abbreviation GInv := (GInv dop_io d0).
Abbreviation keeps := (keeps dop_io d0).
Abbreviation touch := (touch dop_io d0).
Abbreviation dsk := (dsk dop_io d0).
Implicit Types (s : st) (blks : list Z).

(** The most blocks a file can have. *)
Definition MAXBLKS : Z := SFS_NDIRECT + SFS_BLK_NENTRY.
Definition own (d : sfs_disk_inode) blks : list Z := blks ++ (if decide (indirect d = 0) then [] else [indirect d]).

(** The inode [d] maps the blocks [blks], in this order. *)
Record frep s (d : sfs_disk_inode) blks : Prop := {
  fr_len : length (direct d) = 12%nat;
  fr_blocks : blocks d = Z.of_nat (length blks) /\ blocks d <= MAXBLKS;
  fr_direct : forall i : nat, (i < 12)%nat -> direct d !! i = Some (default 0 (blks !! i));
  fr_need : (12 < length blks)%nat -> indirect d <> 0;
  fr_ind : indirect d <> 0 -> forall j : nat, (j < 1024)%nat -> word_at (dsk s (indirect d)) (4 * Z.of_nat j) = default 0 (blks !! (12 + j)%nat);
  fr_used : forall k, k ∈ own d blks -> used s k;
  fr_nodup : NoDup (own d blks)
}.

Lemma own_blks d blks k : k ∈ blks -> k ∈ own d blks.
Proof. intros Hk. apply elem_of_app. by left. Qed.
Lemma own_indirect d blks : indirect d <> 0 -> indirect d ∈ own d blks.
Proof. intros Hi. apply elem_of_app. right. rewrite decide_False by done. by apply list_elem_of_singleton. Qed.

Lemma frep_frame s s' d blks :
  frep s d blks -> (forall k, k ∈ own d blks -> used s' k) ->
  (forall o, indirect d <> 0 -> 0 <= o < SFS_BLKSIZE -> dsk s' (indirect d) o = dsk s (indirect d) o) -> frep s' d blks.
Proof.
  intros [? ? ? ? Hi ? ?] Hu Hd. split; try done. intros Hne j Hj. rewrite <-(Hi Hne j Hj). apply word_at_ext. intros i Hii.
  apply Hd; [done|]. unfold SFS_BLKSIZE. lia.
Qed.

Lemma frep_keeps s s' d blks R W :
  keeps R W s s' -> (forall k, k ∈ own d blks -> ~ W k) -> frep s d blks -> frep s' d blks.
Proof.
  intros HK HW HF. apply (frep_frame s); [done| |].
  - intros k Hk. apply (kp_used _ _ _ _ _ _ HK); [by apply (fr_used s d blks HF)|auto].
  - intros o Hi Ho. pose proof (own_indirect d blks Hi). apply (kp_dsk _ _ _ _ _ _ HK); [by apply (fr_used s d blks HF)|auto|done].
Qed.

Lemma frep_touch s s' d blks R W :
  GInv s -> touch s s' R W -> (forall o, W (indirect d) o = None) -> frep s d blks -> frep s' d blks.
Proof.
  intros HG Ht HW HF. apply (frep_frame s); [done| |].
  - intros k Hk. rewrite (to_st _ _ _ _ _ _ Ht). by apply (fr_used s d blks HF).
  - intros o Hi Ho. pose proof (fr_used s d blks HF _ (own_indirect d blks Hi)) as [Hr _]. pose proof (g_blocks _ _ _ HG).
    rewrite (to_dsk _ _ _ _ _ _ Ht) by (done || lia). by rewrite HW.
Qed.

(** ** Looking a block up *)

Lemma rd_sin_runs s n sin Q : sins (priv s) !! n = Some sin -> Q sin s -> runs (rd_sin n) s Q.
Proof. intros Hn HQ. unfold rd_sin. runs_steps. by eapply runs_deref. Qed.
Lemma upd_sin_runs s n f sin (Q : unit -> st -> Prop) :
  sins (priv s) !! n = Some sin -> Q tt (set_priv (set_sins (<[n := f sin]> (sins (priv s))) (priv s)) s) -> runs (upd_sin n f) s Q.
Proof. intros Hn HQ. unfold upd_sin. runs_steps. eapply rd_sin_runs; [done|]. by runs_steps. Qed.

Lemma touch_refl s : touch s s nowhere asis.
Proof. split; try done. by destruct s. Qed.

Lemma inuse_check s k (Q : unit -> st -> Prop) : GInv s -> used s k -> Q tt s -> runs (let! b := sfs_block_inuse k in assert_ b) s Q.
Proof. intros HG Hu HQ. runs_steps. eapply used_inuse_runs; [exact HG|exact Hu|]. by apply runs_assert. Qed.

Lemma bmap_get_old_runs s n sin blks i k :
  GInv s -> sins (priv s) !! n = Some sin -> frep s (din sin) blks -> blks !! i = Some k ->
  runs (sfs_bmap_get_nolock dop_io n (Z.of_nat i) false) s (fun r s' => r = (0, k) /\ touch s s' nowhere asis).
Proof.
  intros HG Hn HF Hk. pose proof (fr_blocks _ _ _ HF) as [Hbl Hmax]. pose proof (lookup_lt_Some _ _ _ Hk) as Hlt.
  assert (Hin : k ∈ blks) by (by eapply list_elem_of_lookup_2). pose proof (fr_used _ _ _ HF k (own_blks _ _ _ Hin)) as Hu. pose proof Hu as [Hkr _].
  assert (Hcheck : forall s' (Q : Z * Z -> st -> Prop), touch s s' nowhere asis -> Q (0, k) s' ->
    runs (do! (if k =? 0 then ret tt else let! b := sfs_block_inuse k in assert_ b) in ret (0, k)) s' Q).
  { intros s' Q Ht HQ. runs_steps. rewrite (proj2 (Z.eqb_neq k 0)) by lia.
    apply (inuse_check s' k); [by eapply touch_GInv|rewrite (to_st _ _ _ _ _ _ Ht); exact Hu|by runs_steps]. }
  unfold sfs_bmap_get_nolock. runs_steps. eapply rd_sin_runs; [exact Hn|]. unfold MAXBLKS, SFS_NDIRECT, SFS_BLK_NENTRY in *.
  destruct (Z.ltb_spec (Z.of_nat i) 12) as [Hd|Hd].
  - runs_steps. eapply runs_deref; [rewrite Nat2Z.id; apply (fr_direct _ _ _ HF); lia|]. rewrite Hk. cbn [default]. rewrite andb_false_r.
    apply Hcheck; [apply touch_refl|]. split; [done|apply touch_refl].
  - rewrite (proj2 (Z.ltb_lt (Z.of_nat i - 12) 1024)) by lia. runs_steps. unfold sfs_bmap_get_sub_nolock, SFS_BLK_NENTRY. runs_steps.
    apply runs_assert; [apply Z.ltb_lt; lia|]. pose proof (fr_need _ _ _ HF ltac:(lia)) as Hne. rewrite (proj2 (Z.eqb_neq _ 0)) by done. cbn [negb].
    pose proof (fr_used _ _ _ HF _ (own_indirect _ blks Hne)) as [Hir _].
    runs_steps. runs_by (sfs_rbuf_runs dop_io d0 s 4 (indirect (din sin)) ((Z.of_nat i - 12) * 4) HG); [done|unfold SFS_BLKSIZE; lia|lia|unfold SFS_BLKSIZE; lia|].
    intros r s' [-> Ht]. cbn [fst snd negb Z.eqb].
    assert (Hw : get_le 4 (peek (dsk s (indirect (din sin))) ((Z.of_nat i - 12) * 4) 4) = k).
    { pose proof (fr_ind _ _ _ HF Hne (i - 12)%nat ltac:(lia)) as Hw. replace (12 + (i - 12))%nat with i in Hw by lia. rewrite Hk in Hw.
      unfold word_at in Hw. replace (4 * Z.of_nat (i - 12)) with ((Z.of_nat i - 12) * 4) in Hw by lia. exact Hw. }
    rewrite Hw. rewrite (proj2 (Z.eqb_neq k 0)) by lia. cbn [negb orb]. runs_steps. cbn [fst snd negb Z.eqb]. rewrite Z.eqb_refl. cbn [negb]. runs_steps.
    rewrite (proj2 (Z.eqb_neq k 0)) by lia. apply (inuse_check s' k); [by eapply touch_GInv|rewrite (to_st _ _ _ _ _ _ Ht); exact Hu|]. runs_steps. done.
Qed.

Lemma bmap_load_old_runs s n sin blks i k :
  GInv s -> sins (priv s) !! n = Some sin -> frep s (din sin) blks -> blks !! i = Some k ->
  runs (sfs_bmap_load_nolock dop_io n (Z.of_nat i)) s (fun r s' => r = (0, k) /\ touch s s' nowhere asis).
Proof.
  intros HG Hn HF Hk. pose proof (fr_blocks _ _ _ HF) as [Hbl _]. pose proof (lookup_lt_Some _ _ _ Hk) as Hlt.
  assert (Hin : k ∈ blks) by (by eapply list_elem_of_lookup_2). pose proof (fr_used _ _ _ HF k (own_blks _ _ _ Hin)) as Hu.
  unfold sfs_bmap_load_nolock. runs_steps. eapply rd_sin_runs; [exact Hn|]. runs_steps. apply runs_assert; [apply Z.leb_le; lia|].
  rewrite (proj2 (Z.eqb_neq _ _)) by lia. runs_steps. runs_by (bmap_get_old_runs s n sin blks i k); [done..|].
  intros r s' [-> Ht]. cbn [fst snd negb Z.eqb]. runs_steps. eapply used_inuse_runs; [by eapply touch_GInv|rewrite (to_st _ _ _ _ _ _ Ht); exact Hu|].
  runs_steps. apply runs_assert; [done|]. runs_steps. done.
Qed.
(** ** Adding a block *)

Lemma free_not_used s k : free s k -> ~ used s k.
Proof. intros [_ Hf] [_ Hu]. congruence. Qed.

Lemma sup_small s k : GInv s -> used s k -> 0 <= k < W32.
Proof. intros HG [Hk _]. pose proof (g_blocks _ _ _ HG). pose proof (bd_size (dop_io := dop_io)). unfold SFS_BLKSIZE, W32 in *. lia. Qed.

Lemma bmap_fill_runs s entp ent off :
  GInv s -> used s ent -> 0 <= off -> off + 4 <= SFS_BLKSIZE ->
  runs (bmap_fill dop_io entp ent off) s (fun r s' => GInv s' /\ sins (priv s') = sins (priv s) /\ keeps nowhere (fun k => k = ent) s s' /\
    ((exists k, r = (0, ent, k) /\ free s k /\ (forall x, used s' x <-> used s x \/ x = k) /\
       (forall o, 0 <= o < SFS_BLKSIZE -> dsk s' k o = 0) /\ word_at (dsk s' ent) off = k /\
       (forall o, 0 <= o < SFS_BLKSIZE -> ~ (off <= o < off + 4) -> dsk s' ent o = dsk s ent o)) \/
     (r = (- E_NO_MEM, entp, 0) /\ (forall k, ~ free s k) /\
      if decide (ent = entp) then s' = s else forall x, used s' x <-> used s x /\ x <> ent))).
Proof.
  intros HG Hu Ho1 Ho2. pose proof Hu as [Her _]. unfold bmap_fill. runs_steps. runs_by (sfs_block_alloc_runs dop_io d0 s HG).
  intros [e k] s1 (HG1&[([= -> ->]&->&Hnone)|(He&Hfree&Hused&Hzero&Hsin&HK)]); cbn [fst snd] in *.
  - cbn [negb]. replace (- E_NO_MEM =? 0) with false by done. cbn [negb]. runs_steps. destruct (decide (ent = entp)) as [->|Hne].
    + rewrite Z.eqb_refl. cbn [negb]. runs_steps. split; [done|]. split; [done|]. split; [apply keeps_refl|]. right. done.
    + rewrite (proj2 (Z.eqb_neq _ _)) by done. cbn [negb]. runs_by (sfs_block_free_runs dop_io d0 s ent HG Hu).
      intros _ s' (HG'&Hus'&_&Hsin&HK). runs_steps. split; [done|]. split; [done|]. split; [done|]. right. done.
  - rewrite He. cbn [negb Z.eqb]. runs_steps. pose proof (keeps_buffer _ _ _ _ _ _ HK) as [_ Hsb].
    assert (Hne : k <> ent) by (intros ->; by apply (free_not_used s ent)).
    assert (Hk1 : used s1 k) by (apply Hused; by right). pose proof Hk1 as [Hkr _].
    runs_by (sfs_wbuf_runs dop_io d0 s1 (put_le 4 k) ent off HG1); [rewrite Hsb; done|lia|rewrite put_le_length; lia|].
    intros w s2 [-> Ht]. cbn [negb Z.eqb]. runs_steps. assert (HG2 : GInv s2) by (by eapply touch_GInv).
    pose proof (g_blocks _ _ _ HG1) as Hn1. split; [done|]. split; [rewrite (to_st _ _ _ _ _ _ Ht); done|]. split.
    { eapply (keeps_trans _ _ nowhere (fun k => k = ent) nowhere (fun k => k = ent)); [|eapply touch_keeps; [exact HG1|exact Ht|done|]|done|done|done].
      - by eapply keeps_mono; [exact HK|..].
      - intros x o _ Hx. unfold at_block. rewrite decide_False by tauto. done. }
    assert (Hat : forall j o, 0 <= j < nblk -> 0 <= o < SFS_BLKSIZE ->
      dsk s2 j o = if decide (j = ent /\ off <= o < off + 4) then put_le 4 k !!! Z.to_nat (o - off) else dsk s1 j o).
    { intros j o Hj Ho. rewrite (to_dsk _ _ _ _ _ _ Ht) by done. unfold at_block. rewrite put_le_length. change (Z.of_nat 4) with 4. by case_decide. }
    left. exists k. split; [done|]. split; [done|]. split; [intros x; rewrite <-Hused, (to_st _ _ _ _ _ _ Ht); done|]. split; [|split].
    + intros o Ho. rewrite Hat by lia. rewrite decide_False by tauto. by apply Hzero.
    + apply word_at_put; [by apply (sup_small s1)|]. intros i Hi. rewrite Hat by lia. rewrite decide_True by lia. f_equal. lia.
    + intros o Ho Hout. rewrite Hat by lia. rewrite decide_False by tauto. apply (kp_dsk _ _ _ _ _ _ HK); [done|intros []|done].
Qed.

(** What adding block [k] at the end of file [n] changes. *)
Definition grown s s' n (sin sin' : sfs_inode) blks k : Prop :=
  sins (priv s') = <[n := sin']> (sins (priv s)) /\ ino sin' = ino sin /\ reclaim_count sin' = reclaim_count sin /\
  size (din sin') = size (din sin) /\ din_type (din sin') = din_type (din sin) /\ din_nlinks (din sin') = din_nlinks (din sin) /\
  free s k /\ (forall o, 0 <= o < SFS_BLKSIZE -> dsk s' k o = 0).

(** The file [n] with the new block [k] at its end, before [blocks] is counted up. *)
Lemma frep_snoc_direct s s' d blks k :
  frep s d blks -> (length blks < 12)%nat -> free s k -> (forall x, used s' x <-> used s x \/ x = k) -> keeps nowhere nowhere s s' ->
  frep s' (set_blocks (blocks d + 1) (set_direct (<[length blks := k]> (direct d)) d)) (blks ++ [k]).
Proof.
  intros HF Hlt Hfree Hus HK. pose proof (fr_blocks _ _ _ HF) as [Hbl Hmax].
  assert (Hown : forall x, x ∈ own d blks -> x <> k) by (intros x Hx ->; by apply (free_not_used s k); [|apply (fr_used _ _ _ HF)]).
  assert (Hperm : own d (blks ++ [k]) ≡ₚ k :: own d blks) by (unfold own; rewrite <-app_assoc; cbn; by rewrite Permutation_middle).
  split; cbn [set_blocks set_direct direct blocks indirect]; unfold MAXBLKS, SFS_NDIRECT, SFS_BLK_NENTRY in *.
  - rewrite length_insert. apply (fr_len _ _ _ HF).
  - rewrite length_app. cbn. lia.
  - intros i Hi. destruct (decide (i = length blks)) as [->|Hne].
    + rewrite list_lookup_insert_eq by (rewrite (fr_len _ _ _ HF); lia). by rewrite lookup_app_r, Nat.sub_diag by lia.
    + rewrite list_lookup_insert_ne by done. rewrite (fr_direct _ _ _ HF) by done. f_equal. f_equal.
      destruct (decide (i < length blks)%nat); [by rewrite lookup_app_l|]. rewrite !lookup_ge_None_2; [done|rewrite length_app; cbn; lia|lia].
  - rewrite length_app. cbn. lia.
  - intros Hi j Hj. assert (Hw : word_at (dsk s' (indirect d)) (4 * Z.of_nat j) = word_at (dsk s (indirect d)) (4 * Z.of_nat j)).
    { apply word_at_ext. intros o Ho. apply (kp_dsk _ _ _ _ _ _ HK); [apply (fr_used _ _ _ HF), own_indirect, Hi|intros []|unfold SFS_BLKSIZE; lia]. }
    rewrite Hw, (fr_ind _ _ _ HF Hi j Hj). rewrite !lookup_ge_None_2; [done|rewrite length_app; cbn; lia|lia].
  - intros x Hx. change (x ∈ own d (blks ++ [k])) in Hx. rewrite Hperm, elem_of_cons in Hx. rewrite Hus. destruct Hx as [->|Hx]; [by right|left]. by apply (fr_used _ _ _ HF).
  - change (NoDup (own d (blks ++ [k]))). rewrite Hperm. apply NoDup_cons. split; [|apply (fr_nodup _ _ _ HF)]. intros Hx. by apply (Hown k Hx).
Qed.

Lemma frep_snoc_indirect s s' d blks k ent :
  frep s d blks -> (12 <= length blks)%nat -> Z.of_nat (length blks) < MAXBLKS ->
  (indirect d <> 0 -> ent = indirect d) -> (indirect d = 0 -> ~ used s ent) -> ent <> 0 -> ent <> k -> ~ used s k ->
  (forall x, used s' x <-> used s x \/ x = k \/ x = ent) ->
  (forall j : nat, (j < 1024)%nat -> word_at (dsk s' ent) (4 * Z.of_nat j) =
     if decide (j = length blks - 12)%nat then k else if decide (indirect d = 0) then 0 else word_at (dsk s ent) (4 * Z.of_nat j)) ->
  frep s' (set_blocks (blocks d + 1) (set_indirect ent d)) (blks ++ [k]).
Proof.
  intros HF Hge Hmx Hent Hfresh Hent0 Hek Hk Hus Hw. pose proof (fr_blocks _ _ _ HF) as [Hbl Hmax].
  assert (Hperm : own (set_indirect ent d) (blks ++ [k]) ≡ₚ k :: ent :: blks).
  { unfold own. cbn [indirect set_indirect]. rewrite decide_False by done. rewrite <-app_assoc. cbn. rewrite <-Permutation_middle. f_equal. by rewrite Permutation_app_comm. }
  assert (Hnd : NoDup (ent :: blks)).
  { apply NoDup_cons. split; [|pose proof (fr_nodup _ _ _ HF) as Hnd; by apply NoDup_app in Hnd as [Hnd _]]. intros Hin. destruct (decide (indirect d = 0)) as [Hz|Hz].
    - by apply (Hfresh Hz), (fr_used _ _ _ HF), own_blks.
    - rewrite (Hent Hz) in Hin. pose proof (fr_nodup _ _ _ HF) as Hnd. unfold own in Hnd. rewrite decide_False in Hnd by done.
      apply NoDup_app in Hnd as (_&Hd&_). by apply (Hd _ Hin), list_elem_of_singleton. }
  split; cbn [set_blocks set_indirect direct blocks indirect]; unfold MAXBLKS, SFS_NDIRECT, SFS_BLK_NENTRY in *.
  - apply (fr_len _ _ _ HF).
  - rewrite length_app. cbn. lia.
  - intros i Hi. rewrite (fr_direct _ _ _ HF) by done. by rewrite lookup_app_l by lia.
  - done.
  - intros _ j Hj. rewrite (Hw j Hj). destruct (decide (j = length blks - 12)%nat) as [Hjl|Hjl].
    + rewrite lookup_app_r by lia. by replace (12 + j - length blks)%nat with 0%nat by lia.
    + assert (Hlk : (blks ++ [k]) !! (12 + j)%nat = blks !! (12 + j)%nat).
      { destruct (decide (12 + j < length blks)%nat); [by rewrite lookup_app_l|]. rewrite !lookup_ge_None_2; [done|lia|rewrite length_app; cbn; lia]. }
      rewrite Hlk. destruct (decide (indirect d = 0)) as [Hz|Hz].
      * rewrite lookup_ge_None_2; [done|]. destruct (decide (12 < length blks)%nat) as [Hl|Hl]; [|lia]. by destruct (fr_need _ _ _ HF Hl).
      * rewrite (Hent Hz). by apply (fr_ind _ _ _ HF).
  - intros x Hx. change (x ∈ own (set_indirect ent d) (blks ++ [k])) in Hx. rewrite Hperm, !elem_of_cons in Hx. rewrite Hus.
    destruct Hx as [->|[->|Hx]]; [tauto|tauto|]. left. by apply (fr_used _ _ _ HF), own_blks.
  - change (NoDup (own (set_indirect ent d) (blks ++ [k]))). rewrite Hperm. apply NoDup_cons. split; [|done]. rewrite elem_of_cons. intros [->|Hin]; [done|].
    by apply Hk, (fr_used _ _ _ HF), own_blks.
Qed.
(** At most one block is free: what [-E_NO_MEM] means. *)
Definition scarce s : Prop := exists x, forall k, free s k -> k = x.

Lemma free_used s k : GInv s -> 0 < k < sup_blocks (super (sfs s)) -> ~ used s k -> free s k.
Proof.
  intros HG Hk Hu. pose proof (g_bits _ _ _ HG). split; [lia|]. destruct (bit (freemap (sfs s)) k) eqn:Hb; [done|]. by destruct Hu.
Qed.

Lemma scarce_none s : (forall k, ~ free s k) -> scarce s.
Proof. intros H. exists 0. intros k Hk. by destruct (H k). Qed.

Lemma scarce_one s s1 i :
  GInv s -> GInv s1 -> keeps nowhere nowhere s s1 -> (forall k, used s1 k <-> used s k \/ k = i) -> (forall k, ~ free s1 k) -> scarce s.
Proof.
  intros HG HG1 HK Hus Hnone. exists i. intros k Hk. pose proof (g_free _ _ _ HG k Hk) as Hr.
  destruct (decide (k = i)) as [|Hne]; [done|]. destruct (Hnone k). apply free_used; [done|by rewrite (proj2 (keeps_buffer _ _ _ _ _ _ HK))|].
  rewrite Hus. intros [Hu|]; [|done]. by apply (free_not_used s k).
Qed.

Definition same_file (sin sin' : sfs_inode) : Prop :=
  ino sin' = ino sin /\ reclaim_count sin' = reclaim_count sin /\ size (din sin') = size (din sin) /\
  din_type (din sin') = din_type (din sin) /\ din_nlinks (din sin') = din_nlinks (din sin).

Lemma GInv_sins s v : GInv s -> GInv (set_priv (set_sins v (priv s)) s).
Proof. intros [? ? ? ? ? ? ?]. by split. Qed.
Lemma frep_sins s v d blks : frep s d blks -> frep (set_priv (set_sins v (priv s)) s) d blks.
Proof. intros [? ? ? ? ? ? ?]. by split. Qed.
Lemma keeps_sins R W s v : keeps R W s (set_priv (set_sins v (priv s)) s).
Proof. apply keeps_still; [by destruct s as [? ? ? ? ? ? ? []]|by destruct (priv s) as [? [[] ? ? ? ? ? ?] ? ?]|done]. Qed.
Lemma keeps_then_sins R W s s' v : keeps R W s s' -> keeps R W s (set_priv (set_sins v (priv s')) s').
Proof. intros HK. eapply keeps_trans; [exact HK|apply (keeps_sins R (fun _ => False))|auto|auto|done]. Qed.

(** The blocks of one file change from [o1] to [o2]: those it gives up are no longer used, those it takes
    were not, and nothing else changes. *)
Definition disk_ledger s (o1 : list Z) s' (o2 : list Z) : Prop :=
  (forall x, used s' x <-> x ∈ o2 \/ (used s x /\ x ∉ o1)) /\ (forall x, x ∈ o2 -> used s x -> x ∈ o1).
Lemma disk_ledger_trans s1 s2 s3 o1 o2 o3 : disk_ledger s1 o1 s2 o2 -> disk_ledger s2 o2 s3 o3 -> disk_ledger s1 o1 s3 o3.
Proof.
  intros [H1 N1] [H2 N2]. split.
  - intros x. rewrite H2, H1. specialize (N1 x). tauto.
  - intros x Hx Hu. destruct (decide (x ∈ o1)); [done|]. apply N1; [|done]. apply N2; [done|]. apply H1. by right.
Qed.
Lemma disk_ledger_same s s' o : (forall x, x ∈ o -> used s x) -> (forall x, used s' x <-> used s x) -> disk_ledger s o s' o.
Proof. intros Ho Hu. split; [|done]. intros x. rewrite Hu. destruct (decide (x ∈ o)); naive_solver. Qed.
Lemma disk_ledger_more s s' o1 o2 (N : Z -> Prop) : (forall x, x ∈ o1 -> used s x) -> (forall x, used s' x <-> used s x \/ N x) -> (forall x, x ∈ o2 <-> x ∈ o1 \/ N x) -> (forall x, N x -> ~ used s x) -> disk_ledger s o1 s' o2.
Proof. intros Ho Hu Ho2 HN. split; intros x; rewrite ?Hu, Ho2; specialize (Ho x); specialize (HN x); destruct (decide (x ∈ o1)); tauto. Qed.
Lemma disk_ledger_less s s' o1 o2 k : (forall x, x ∈ o1 -> used s x) -> (forall x, used s' x <-> used s x /\ x <> k) -> NoDup o1 -> o1 ≡ₚ k :: o2 -> disk_ledger s o1 s' o2.
Proof.
  intros Ho Hu Hnd Hp. rewrite Hp in Hnd. apply NoDup_cons in Hnd as [Hk _]. split; intros x; rewrite ?Hu; setoid_rewrite Hp; rewrite elem_of_cons; [|tauto].
  assert (Hx : x ∈ o2 -> used s x /\ x <> k) by (intros Hx; split; [apply Ho; rewrite Hp; by right|by intros ->]). destruct (decide (x ∈ o2)); [tauto|]. destruct (decide (x = k)); tauto.
Qed.
Lemma elem_of_own d blks x : x ∈ own d blks <-> x ∈ blks \/ (indirect d <> 0 /\ x = indirect d).
Proof. unfold own. rewrite elem_of_app. case_decide; [rewrite elem_of_nil|rewrite list_elem_of_singleton]; tauto. Qed.
Lemma elem_of_own_snoc d blks k x : x ∈ own d (blks ++ [k]) <-> x ∈ own d blks \/ x = k.
Proof. rewrite !elem_of_own, elem_of_app, list_elem_of_singleton. tauto. Qed.
Lemma own_snoc d blks k : own d (blks ++ [k]) ≡ₚ k :: own d blks.
Proof. unfold own. rewrite <-app_assoc. cbn. by rewrite Permutation_middle. Qed.

(** The outcome of a routine that adds a block to file [n]; [bump] is 1 when
    [blocks] is still to be counted up. *)
Definition adds (bump : Z) s n sin blks (r : Z * Z) s' : Prop :=
  GInv s' /\
  ((fst r = - E_NO_MEM /\ sins (priv s') = sins (priv s) /\ scarce s /\ keeps nowhere nowhere s s' /\ forall x, used s' x <-> used s x) \/
   (fst r = 0 /\ free s (snd r) /\ (forall o, 0 <= o < SFS_BLKSIZE -> dsk s' (snd r) o = 0) /\
    keeps nowhere (fun k => k = indirect (din sin)) s s' /\
    exists sin', sins (priv s') = <[n := sin']> (sins (priv s)) /\ same_file sin sin' /\ blocks (din sin') = blocks (din sin) + 1 - bump /\
      (indirect (din sin') = indirect (din sin) \/ ~ used s (indirect (din sin'))) /\
      disk_ledger s (own (din sin) blks) s' (own (din sin') (blks ++ [snd r])) /\
      frep s' (set_blocks (blocks (din sin') + bump) (din sin')) (blks ++ [snd r]))).

Lemma bmap_get_direct_runs s n sin blks :
  GInv s -> sins (priv s) !! n = Some sin -> frep s (din sin) blks -> (length blks < 12)%nat ->
  runs (sfs_bmap_get_nolock dop_io n (Z.of_nat (length blks)) true) s (adds 1 s n sin blks).
Proof.
  intros HG Hn HF Hlt. pose proof (fr_blocks _ _ _ HF) as [Hbl _]. unfold sfs_bmap_get_nolock. runs_steps. eapply rd_sin_runs; [exact Hn|].
  unfold SFS_NDIRECT. rewrite (proj2 (Z.ltb_lt (Z.of_nat (length blks)) 12)) by lia. runs_steps.
  eapply runs_deref; [rewrite Nat2Z.id; by apply (fr_direct _ _ _ HF)|]. rewrite lookup_ge_None_2 by done. cbn [default Z.eqb andb].
  runs_steps. runs_by (sfs_block_alloc_runs dop_io d0 s HG).
  intros [e k] s1 (HG1&[([= -> ->]&->&Hnone)|(He&Hfree&Hused&Hzero&Hsin&HK)]); cbn [fst snd] in *.
  - replace (- E_NO_MEM =? 0) with false by done. cbn [negb]. runs_steps. split; [done|]. left. split; [done|]. split; [done|]. split; [by apply scarce_none|]. split; [apply keeps_refl|done].
  - rewrite He. cbn [negb Z.eqb]. unfold upd_din. runs_steps. eapply upd_sin_runs; [by rewrite Hsin|]. runs_steps.
    eapply upd_sin_runs; [by apply lookup_insert_eq|]. cbn [sins priv set_priv set_sins]. rewrite insert_insert_eq.
    rewrite Nat2Z.id. fold_sins s1 s2. assert (HG2 : GInv s2) by (by apply GInv_sins).
    assert (Hk1 : used s1 k) by (apply Hused; by right). pose proof Hk1 as [Hkr _]. runs_steps. rewrite (proj2 (Z.eqb_neq k 0)) by lia.
    apply (inuse_check s2 k _ HG2); [done|]. runs_steps. split; [done|]. right. split; [done|]. split; [done|]. split; [done|]. split.
    + apply keeps_then_sins. by eapply keeps_mono; [exact HK|..].
    + eexists. split; [unfold s2; cbn; rewrite Hsin; done|]. cbn [din set_dirty set_din]. split; [done|]. split; [cbn; lia|]. cbn [snd]. split; [by left|].
      split; [apply (disk_ledger_more _ _ _ _ (fun x => x = k)); [apply (fr_used _ _ _ HF)|exact Hused|intros x; exact (elem_of_own_snoc (din sin) blks k x)|intros x ->; by apply free_not_used]|].
      apply frep_sins. apply (frep_snoc_direct s s1 (din sin) blks k); done.
Qed.

Lemma bmap_get_indirect_runs s n sin blks :
  GInv s -> sins (priv s) !! n = Some sin -> frep s (din sin) blks -> (12 <= length blks)%nat -> Z.of_nat (length blks) < MAXBLKS ->
  runs (sfs_bmap_get_nolock dop_io n (Z.of_nat (length blks)) true) s (adds 1 s n sin blks).
Proof.
  intros HG Hn HF Hge Hmx. pose proof (fr_blocks _ _ _ HF) as [Hbl _]. unfold sfs_bmap_get_nolock. runs_steps. eapply rd_sin_runs; [exact Hn|].
  unfold MAXBLKS, SFS_NDIRECT, SFS_BLK_NENTRY in *. rewrite (proj2 (Z.ltb_ge (Z.of_nat (length blks)) 12)) by lia.
  rewrite (proj2 (Z.ltb_lt (Z.of_nat (length blks) - 12) 1024)) by lia. set (d := din sin) in *. set (j := (length blks - 12)%nat).
  assert (Hj : Z.of_nat (length blks) - 12 = Z.of_nat j) by lia. rewrite Hj. runs_steps.
  unfold sfs_bmap_get_sub_nolock, SFS_BLK_NENTRY. runs_steps. apply runs_assert; [apply Z.ltb_lt; lia|]. runs_steps.
  assert (Hnomem : forall s' x, GInv s' -> sins (priv s') = sins (priv s) -> scarce s -> keeps nowhere nowhere s s' -> (forall x, used s' x <-> used s x) -> adds 1 s n sin blks (- E_NO_MEM, x) s').
  { intros. split; [done|]. left. done. }
  destruct (decide (indirect d = 0)) as [Hz|Hz].
  - rewrite Hz. cbn [negb Z.eqb]. runs_steps. runs_by (sfs_block_alloc_runs dop_io d0 s HG).
    intros [e ent] s1 (HG1&[([= -> ->]&->&Hnone)|(He&Hfree&Hused&Hzero&Hsin&HK)]); cbn [fst snd] in *.
    { replace (- E_NO_MEM =? 0) with false by done. cbn [negb]. runs_steps. replace (- E_NO_MEM =? 0) with false by done. cbn [negb]. runs_steps.
      apply Hnomem; [done|done|by apply scarce_none|apply keeps_refl|done]. }
    rewrite He. cbn [negb Z.eqb]. assert (Hu1 : used s1 ent) by (apply Hused; by right). pose proof Hu1 as [Her _].
    runs_by (bmap_fill_runs s1 0 ent (Z.of_nat j * 4) HG1 Hu1); [lia|unfold SFS_BLKSIZE; lia|].
    intros r s2 (HG2&Hsin2&HK2&[(k&->&Hfk&Hus2&Hz2&Hw2&Hout2)|(->&Hnone&Hus2)]); cbn [fst snd].
    2:{ replace (- E_NO_MEM =? 0) with false by done. cbn [negb]. runs_steps. rewrite decide_False in Hus2 by lia.
        apply Hnomem; [done|by rewrite Hsin2|by apply (scarce_one s s1 ent)| |].
        - eapply keeps_trans; [exact HK|exact HK2|done|done|]. intros x Hx ->. by apply (free_not_used s ent).
        - intros x. rewrite Hus2, Hused. split; [tauto|]. intros Hx. split; [by left|]. intros ->. by apply (free_not_used s ent). }
    cbn [negb Z.eqb]. rewrite (proj2 (Z.eqb_neq ent 0)) by lia. cbn [negb]. runs_steps. apply runs_assert; [done|]. unfold upd_din. runs_steps.
    eapply upd_sin_runs; [by rewrite Hsin2, Hsin|]. eapply upd_sin_runs; [by apply lookup_insert_eq|]. cbn [sins priv set_priv set_sins]. rewrite insert_insert_eq.
    fold_sins s2 s3. assert (HG3 : GInv s3) by (by apply GInv_sins).
    assert (Huk : used s2 k) by (apply Hus2; by right). pose proof Huk as [Hkr _]. runs_steps. rewrite (proj2 (Z.eqb_neq k 0)) by lia.
    assert (Hnk : ~ used s1 k) by (by apply free_not_used).
    apply (inuse_check s3 k _ HG3); [done|]. runs_steps. split; [done|]. right. split; [done|]. cbn [snd]. split; [|split; [done|split]].
    + apply free_used; [done| |intros Hc; apply Hnk, Hused; by left]. by rewrite <-(proj2 (keeps_buffer _ _ _ _ _ _ HK)), <-(proj2 (keeps_buffer _ _ _ _ _ _ HK2)).
    + apply keeps_then_sins. eapply keeps_trans; [by eapply keeps_mono; [exact HK|..]|exact HK2|done|done|].
      intros x Hx ->. by destruct (free_not_used s ent).
    + eexists. split; [unfold s3; cbn; rewrite Hsin2, Hsin; done|]. cbn [din set_dirty set_din]. split; [done|]. split; [cbn; fold d; lia|].
      fold d. split; [right; by apply free_not_used|]. split.
      { apply (disk_ledger_more _ _ _ _ (fun x => x = ent \/ x = k)); [apply (fr_used _ _ _ HF)|intros x; change (used s3 x) with (used s2 x); rewrite Hus2, Hused; tauto| |intros x [-> | ->]; [by apply free_not_used|intros Hc; apply Hnk, Hused; by left]].
        intros x. rewrite elem_of_own_snoc, !elem_of_own. cbn [set_indirect indirect]. rewrite Hz. assert (ent <> 0) by lia. tauto. }
      apply frep_sins. apply (frep_snoc_indirect s s2 d blks k ent); try done; unfold MAXBLKS, SFS_NDIRECT, SFS_BLK_NENTRY; try lia.
      * intros _. by apply free_not_used.
      * intros ->. by apply Hnk.
      * intros Hc. apply Hnk, Hused. by left.
      * intros x. rewrite Hus2, Hused. tauto.
      * intros j' Hj'. destruct (decide (j' = length blks - 12)%nat) as [->|Hne].
        { fold j. by replace (4 * Z.of_nat j) with (Z.of_nat j * 4) by lia. }
        rewrite decide_True by done. apply word_at_zero. intros i Hi. rewrite Hout2 by (unfold SFS_BLKSIZE; lia). apply Hzero. unfold SFS_BLKSIZE. lia.
  - rewrite (proj2 (Z.eqb_neq _ 0)) by done. cbn [negb]. pose proof (fr_used _ _ _ HF _ (own_indirect d blks Hz)) as Hu. pose proof Hu as [Hir _].
    runs_steps. runs_by (sfs_rbuf_runs dop_io d0 s 4 (indirect d) (Z.of_nat j * 4) HG); [done|unfold SFS_BLKSIZE; lia|lia|unfold SFS_BLKSIZE; lia|].
    intros r s1 [-> Ht]. cbn [fst snd negb Z.eqb]. assert (HG1 : GInv s1) by (by eapply touch_GInv).
    assert (Hw : get_le 4 (peek (dsk s (indirect d)) (Z.of_nat j * 4) 4) = 0).
    { pose proof (fr_ind _ _ _ HF Hz j ltac:(lia)) as Hw. rewrite lookup_ge_None_2 in Hw by lia. unfold word_at in Hw. by replace (4 * Z.of_nat j) with (Z.of_nat j * 4) in Hw by lia. }
    rewrite Hw. cbn [Z.eqb negb orb].
    assert (HK : keeps nowhere nowhere s s1) by (eapply touch_keeps; [done|exact Ht|done|done]).
    assert (Hus1 : forall x, used s1 x <-> used s x) by (intros x; by rewrite (to_st _ _ _ _ _ _ Ht)).
    assert (Hsin : sins (priv s1) = sins (priv s)) by (by rewrite (to_st _ _ _ _ _ _ Ht)).
    assert (Hu1 : used s1 (indirect d)) by (by apply Hus1).
    runs_by (bmap_fill_runs s1 (indirect d) (indirect d) (Z.of_nat j * 4) HG1 Hu1); [lia|unfold SFS_BLKSIZE; lia|].
    intros r s2 (HG2&Hsin2&HK2&[(k&->&Hfk&Hus2&Hz2&Hw2&Hout2)|(->&Hnone&Hus2)]); cbn [fst snd].
    2:{ replace (- E_NO_MEM =? 0) with false by done. cbn [negb]. runs_steps. rewrite decide_True in Hus2 by done. subst s2.
        apply Hnomem; [done|done| |done|done]. apply scarce_none. intros x Hx. apply (Hnone x). by rewrite (to_st _ _ _ _ _ _ Ht). }
    cbn [negb Z.eqb]. rewrite Z.eqb_refl. cbn [negb]. runs_steps.
    assert (Huk : used s2 k) by (apply Hus2; by right). pose proof Huk as [Hkr _]. rewrite (proj2 (Z.eqb_neq k 0)) by lia.
    assert (Hnk : ~ used s k) by (rewrite <-Hus1; by apply free_not_used).
    apply (inuse_check s2 k _ HG2); [done|]. runs_steps. split; [done|]. right. split; [done|]. cbn [snd]. split; [|split; [done|split]].
    + by rewrite (to_st _ _ _ _ _ _ Ht) in Hfk.
    + fold d. eapply keeps_trans; [by eapply keeps_mono; [exact HK|..]|exact HK2|done|done|done].
    + exists sin. split; [by rewrite Hsin2, Hsin, insert_id|]. split; [done|]. split; [lia|]. fold d. split; [by left|]. split.
      { apply (disk_ledger_more _ _ _ _ (fun x => x = k)); [apply (fr_used _ _ _ HF)|intros x; rewrite Hus2, Hus1; tauto|apply elem_of_own_snoc|by intros x ->]. }
      replace (set_blocks (blocks d + 1) d) with (set_blocks (blocks d + 1) (set_indirect (indirect d) d)) by (by destruct d).
      apply (frep_snoc_indirect s s2 d blks k (indirect d)); try done; unfold MAXBLKS, SFS_NDIRECT, SFS_BLK_NENTRY; try lia.
      * intros He. apply Hnk. by rewrite <-He.
      * intros x. rewrite Hus2, Hus1. split; [tauto|]. intros [?|[?| ->]]; tauto.
      * intros j' Hj'. destruct (decide (j' = length blks - 12)%nat) as [->|Hne].
        { fold j. by replace (4 * Z.of_nat j) with (Z.of_nat j * 4) by lia. }
        rewrite decide_False by done. apply word_at_ext. intros i Hi. rewrite Hout2 by (unfold SFS_BLKSIZE; lia).
        apply (kp_dsk _ _ _ _ _ _ HK); [done|intros []|unfold SFS_BLKSIZE; lia].
Qed.
Lemma bmap_load_new_runs s n sin blks :
  GInv s -> sins (priv s) !! n = Some sin -> frep s (din sin) blks -> Z.of_nat (length blks) < MAXBLKS ->
  runs (sfs_bmap_load_nolock dop_io n (Z.of_nat (length blks))) s (adds 0 s n sin blks).
Proof.
  intros HG Hn HF Hmx. pose proof (fr_blocks _ _ _ HF) as [Hbl _]. unfold sfs_bmap_load_nolock. runs_steps. eapply rd_sin_runs; [exact Hn|].
  runs_steps. apply runs_assert; [apply Z.leb_le; lia|]. rewrite Hbl, Z.eqb_refl. runs_steps.
  assert (Hget : runs (sfs_bmap_get_nolock dop_io n (Z.of_nat (length blks)) true) s (adds 1 s n sin blks)).
  { destruct (decide (length blks < 12)%nat); [by apply bmap_get_direct_runs|apply bmap_get_indirect_runs; (done || lia)]. }
  runs_by Hget. intros [e k] s1 (HG1&[(->&Hsin&Hsc&HK&Hsu)|(->&Hfree&Hzero&HK&sin'&Hsin&Hsame&Hb'&Hind&Hled&HF')]); cbn [fst snd] in *.
  - replace (- E_NO_MEM =? 0) with false by done. cbn [negb]. runs_steps. split; [done|]. left. done.
  - cbn [negb Z.eqb]. runs_steps. assert (Huk : used s1 k) by (apply (fr_used _ _ _ HF'), own_blks, elem_of_app; right; by apply list_elem_of_singleton).
    eapply used_inuse_runs; [exact HG1|exact Huk|]. runs_steps. apply runs_assert; [done|]. unfold upd_din. runs_steps.
    eapply upd_sin_runs; [rewrite Hsin; by apply lookup_insert_eq|]. fold_sins s1 s2. runs_steps. cbn [fst snd].
    pose proof Hsame as (?&?&?&?&?). assert (Hu : u32 (blocks (din sin') + 1) = blocks (din sin) + 1).
    { rewrite Hb'. rewrite u32_small; [lia|]. unfold is_u32, W32, MAXBLKS, SFS_NDIRECT, SFS_BLK_NENTRY in *. lia. }
    split; [by apply GInv_sins|]. right. split; [done|]. split; [done|]. split; [done|]. split; [by apply keeps_then_sins|].
    eexists. split; [unfold s2; cbn; rewrite Hsin; by rewrite insert_insert_eq|]. cbn [din set_din blocks set_blocks]. split; [done|]. split; [lia|]. split; [exact Hind|]. split; [exact Hled|].
    rewrite Hu. cbn [set_blocks size din_type din_nlinks direct indirect]. apply frep_sins. rewrite Hb' in HF'.
    replace (blocks (din sin) + 1 - 1 + 1) with (blocks (din sin) + 1 + 0) in HF' by lia. exact HF'.
Qed.

(** ** Dropping the last block *)

Lemma frep_unsnoc_direct s s' d blks k :
  frep s d (blks ++ [k]) -> (length blks < 12)%nat -> keeps nowhere (fun x => x = k) s s' ->
  frep s' (set_blocks (blocks d - 1) (set_direct (<[length blks := 0]> (direct d)) d)) blks.
Proof.
  intros HF Hlt HK. pose proof (fr_blocks _ _ _ HF) as [Hbl Hmax]. rewrite length_app in Hbl. cbn in Hbl.
  assert (Hperm : own d (blks ++ [k]) ≡ₚ k :: own d blks) by (unfold own; rewrite <-app_assoc; cbn; by rewrite Permutation_middle).
  pose proof (fr_nodup _ _ _ HF) as Hnd. rewrite Hperm in Hnd. apply NoDup_cons in Hnd as [Hk Hnd].
  assert (Hin : forall x, x ∈ own d blks -> used s x /\ x <> k).
  { intros x Hx. split; [apply (fr_used _ _ _ HF); rewrite Hperm; by right|]. by intros ->. }
  split; cbn [set_blocks set_direct direct blocks indirect]; unfold MAXBLKS, SFS_NDIRECT, SFS_BLK_NENTRY in *; try lia.
  - rewrite length_insert. apply (fr_len _ _ _ HF).
  - intros i Hi. destruct (decide (i = length blks)) as [->|Hne].
    + rewrite list_lookup_insert_eq by (rewrite (fr_len _ _ _ HF); lia). by rewrite lookup_ge_None_2.
    + rewrite list_lookup_insert_ne by done. rewrite (fr_direct _ _ _ HF) by done. f_equal. f_equal.
      destruct (decide (i < length blks)%nat); [by rewrite lookup_app_l|]. rewrite !lookup_ge_None_2; [done|lia|rewrite length_app; cbn; lia].
  - intros Hi j Hj. destruct (Hin _ (own_indirect d blks Hi)) as [Hui Hne].
    rewrite (word_at_ext (dsk s (indirect d))) by (intros o Ho; apply (kp_dsk _ _ _ _ _ _ HK); [done|done|unfold SFS_BLKSIZE; lia]).
    rewrite (fr_ind _ _ _ HF Hi j Hj). rewrite !lookup_ge_None_2; [done|lia|rewrite length_app; cbn; lia].
  - intros x Hx. destruct (Hin x Hx). by apply (kp_used _ _ _ _ _ _ HK).
  - done.
Qed.

Lemma frep_unsnoc_indirect s s' d blks k :
  frep s d (blks ++ [k]) -> (12 <= length blks)%nat -> (forall x, used s' x <-> used s x /\ x <> k) ->
  (forall j : nat, (j < 1024)%nat -> word_at (dsk s' (indirect d)) (4 * Z.of_nat j) =
     if decide (j = length blks - 12)%nat then 0 else word_at (dsk s (indirect d)) (4 * Z.of_nat j)) ->
  frep s' (set_blocks (blocks d - 1) d) blks.
Proof.
  intros HF Hge Hus Hw. pose proof (fr_blocks _ _ _ HF) as [Hbl Hmax]. rewrite length_app in Hbl. cbn in Hbl.
  assert (Hperm : own d (blks ++ [k]) ≡ₚ k :: own d blks) by (unfold own; rewrite <-app_assoc; cbn; by rewrite Permutation_middle).
  pose proof (fr_nodup _ _ _ HF) as Hnd. rewrite Hperm in Hnd. apply NoDup_cons in Hnd as [Hk Hnd].
  split; cbn [set_blocks set_direct direct blocks indirect]; unfold MAXBLKS, SFS_NDIRECT, SFS_BLK_NENTRY in *; try lia.
  - apply (fr_len _ _ _ HF).
  - intros i Hi. rewrite (fr_direct _ _ _ HF) by done. by rewrite lookup_app_l by lia.
  - intros Hl. apply (fr_need _ _ _ HF). rewrite length_app. cbn. lia.
  - intros Hi j Hj. rewrite (Hw j Hj). destruct (decide (j = length blks - 12)%nat) as [Hjl|Hjl].
    + by rewrite lookup_ge_None_2 by lia.
    + rewrite (fr_ind _ _ _ HF Hi j Hj). f_equal. destruct (decide (12 + j < length blks)%nat); [by rewrite lookup_app_l|].
      rewrite !lookup_ge_None_2; [done|lia|rewrite length_app; cbn; lia].
  - intros x Hx. apply Hus. split; [apply (fr_used _ _ _ HF); rewrite Hperm; by right|]. by intros ->.
  - done.
Qed.

(** The outcome of dropping the last block [k] of file [n]. *)
Definition drops s n sin blks k (r : Z) s' : Prop :=
  r = 0 /\ GInv s' /\ free s' k /\ keeps nowhere (fun x => x = k \/ x = indirect (din sin)) s s' /\
  exists sin', sins (priv s') = <[n := sin']> (sins (priv s)) /\ same_file sin sin' /\ blocks (din sin') = blocks (din sin) - 1 /\
    indirect (din sin') = indirect (din sin) /\ disk_ledger s (own (din sin) (blks ++ [k])) s' (own (din sin') blks) /\ frep s' (din sin') blks.

Lemma bmap_truncate_runs s n sin blks k :
  GInv s -> sins (priv s) !! n = Some sin -> frep s (din sin) (blks ++ [k]) ->
  runs (sfs_bmap_truncate_nolock dop_io n) s (drops s n sin blks k).
Proof.
  intros HG Hn HF. pose proof (fr_blocks _ _ _ HF) as [Hbl Hmax]. rewrite length_app in Hbl. cbn in Hbl.
  assert (Hk : k ∈ own (din sin) (blks ++ [k])) by (apply own_blks, elem_of_app; right; by apply list_elem_of_singleton).
  pose proof (fr_used _ _ _ HF k Hk) as Hu. pose proof Hu as [Hkr _]. unfold sfs_bmap_truncate_nolock, sfs_bmap_free_nolock. runs_steps. eapply rd_sin_runs; [exact Hn|].
  runs_steps. apply runs_assert; [apply negb_true_iff, Z.eqb_neq; lia|]. runs_steps. eapply rd_sin_runs; [exact Hn|]. set (d := din sin) in *.
  replace (blocks d - 1) with (Z.of_nat (length blks)) by lia. unfold MAXBLKS, SFS_NDIRECT, SFS_BLK_NENTRY in *.
  assert (Hlast : (blks ++ [k]) !! length blks = Some k) by (by rewrite lookup_app_r, Nat.sub_diag).
  destruct (Z.ltb_spec (Z.of_nat (length blks)) 12) as [Hlt|Hge].
  - runs_steps. eapply runs_deref; [rewrite Nat2Z.id; apply (fr_direct _ _ _ HF); lia|]. rewrite Hlast. cbn [default from_option id].
    rewrite (proj2 (Z.eqb_neq k 0)) by lia. cbn [negb]. runs_steps. runs_by (sfs_block_free_runs dop_io d0 s k HG Hu).
    intros _ s1 (HG1&Hus1&_&Hsin&HK). unfold upd_din. runs_steps. eapply upd_sin_runs; [by rewrite Hsin|]. runs_steps.
    eapply upd_sin_runs; [by apply lookup_insert_eq|]. cbn [sins priv set_priv set_sins]. rewrite insert_insert_eq. runs_steps. cbn [negb Z.eqb]. runs_steps.
    eapply upd_sin_runs; [by apply lookup_insert_eq|]. cbn [sins priv set_priv set_sins]. rewrite insert_insert_eq. runs_steps.
    eapply upd_sin_runs; [by apply lookup_insert_eq|]. cbn [sins priv set_priv set_sins]. rewrite insert_insert_eq. fold_sins s1 s2. runs_steps.
    split; [done|]. split; [by apply GInv_sins|]. split; [|split].
    + apply free_used; [by apply GInv_sins|unfold s2; cbn; by rewrite (proj2 (keeps_buffer _ _ _ _ _ _ HK))|]. intros Hc. by apply Hus1 in Hc as [_ ?].
    + apply keeps_then_sins. by eapply keeps_mono; [exact HK|auto|auto].
    + eexists. split; [unfold s2; cbn; by rewrite Hsin|]. split; [done|]. cbn [din set_din set_dirty blocks set_blocks set_direct]. fold d. split; [lia|]. split; [done|]. split; [apply (disk_ledger_less _ _ _ _ k); [apply (fr_used _ _ _ HF)|exact Hus1|apply (fr_nodup _ _ _ HF)|exact (own_snoc d blks k)]|].
      rewrite Nat2Z.id. apply frep_sins. by apply (frep_unsnoc_direct s s1 d blks k HF); [lia|].
  - rewrite (proj2 (Z.ltb_lt (Z.of_nat (length blks) - 12) 1024)) by lia. assert (Hne : indirect d <> 0) by (apply (fr_need _ _ _ HF); rewrite length_app; cbn; lia).
    rewrite (proj2 (Z.eqb_neq (indirect d) 0)) by done. cbn [negb]. unfold sfs_bmap_free_sub_nolock. set (j := (length blks - 12)%nat).
    replace (Z.of_nat (length blks) - 12) with (Z.of_nat j) by lia. pose proof (fr_used _ _ _ HF _ (own_indirect d _ Hne)) as Hui. pose proof Hui as [Hir _].
    pose proof (g_blocks _ _ _ HG) as Hsup.
    runs_steps. eapply used_inuse_runs; [exact HG|exact Hui|]. unfold SFS_BLK_NENTRY. runs_steps. apply runs_assert; [cbn [andb]; apply Z.ltb_lt; lia|]. runs_steps.
    runs_by (sfs_rbuf_runs dop_io d0 s 4 (indirect d) (Z.of_nat j * 4) HG); [done|unfold SFS_BLKSIZE; lia|lia|unfold SFS_BLKSIZE; lia|].
    intros r s1 [-> Ht1]. cbn [fst snd negb Z.eqb]. assert (HG1 : GInv s1) by (by eapply touch_GInv).
    assert (Hw : get_le 4 (peek (dsk s (indirect d)) (Z.of_nat j * 4) 4) = k).
    { pose proof (fr_ind _ _ _ HF Hne j ltac:(lia)) as Hw. replace (12 + j)%nat with (length blks) in Hw by lia. rewrite Hlast in Hw. unfold word_at in Hw. by replace (4 * Z.of_nat j) with (Z.of_nat j * 4) in Hw by lia. }
    rewrite Hw. rewrite (proj2 (Z.eqb_neq k 0)) by lia. cbn [negb]. runs_steps.
    assert (Hsup1 : sup_blocks (super (sfs s1)) = sup_blocks (super (sfs s))) by (by rewrite (to_st _ _ _ _ _ _ Ht1)).
    runs_by (sfs_wbuf_runs dop_io d0 s1 (put_le 4 0) (indirect d) (Z.of_nat j * 4) HG1); [by rewrite Hsup1|unfold SFS_BLKSIZE; lia|rewrite put_le_length; unfold SFS_BLKSIZE; lia|].
    intros w s2 [-> Ht2]. cbn [negb Z.eqb]. assert (HG2 : GInv s2) by (by eapply touch_GInv).
    assert (Hus2 : forall x, used s2 x <-> used s x) by (intros x; rewrite (to_st _ _ _ _ _ _ Ht2), (to_st _ _ _ _ _ _ Ht1); done).
    runs_steps. runs_by (sfs_block_free_runs dop_io d0 s2 k HG2); [by apply Hus2|]. intros _ s3 (HG3&Hus3&Hm3&Hsin3&HK3). cbn [negb Z.eqb]. unfold upd_din. runs_steps. cbn [negb Z.eqb]. runs_steps.
    assert (Hsin : sins (priv s3) = sins (priv s)) by (rewrite Hsin3, (to_st _ _ _ _ _ _ Ht2), (to_st _ _ _ _ _ _ Ht1); done).
    eapply upd_sin_runs; [by rewrite Hsin|]. runs_steps.
    eapply upd_sin_runs; [by apply lookup_insert_eq|]. cbn [sins priv set_priv set_sins]. rewrite insert_insert_eq. fold_sins s3 s4. runs_steps.
    assert (HK : keeps nowhere (fun x => x = k \/ x = indirect d) s s3).
    { eapply (keeps_trans _ _ nowhere (fun x => x = k \/ x = indirect d) nowhere (fun x => x = k)); [|exact HK3|auto|auto|auto].
      eapply (keeps_trans _ _ nowhere _ nowhere (fun x => x = indirect d)); [eapply touch_keeps; [exact HG|exact Ht1|done|done]|eapply touch_keeps; [exact HG1|exact Ht2|done|]|auto|auto|auto].
      intros x o _ Hx. unfold at_block. by rewrite decide_False by tauto. }
    split; [done|]. split; [by apply GInv_sins|]. split; [|split].
    + apply free_used; [by apply GInv_sins|unfold s4; cbn; by rewrite (proj2 (keeps_buffer _ _ _ _ _ _ HK))|]. intros Hc. by apply Hus3 in Hc as [_ ?].
    + by apply keeps_then_sins.
    + eexists. split; [unfold s4; cbn; by rewrite Hsin|]. split; [done|]. cbn [din set_din set_dirty blocks set_blocks]. fold d. split; [done|]. split; [done|]. split; [apply (disk_ledger_less _ _ _ _ k); [apply (fr_used _ _ _ HF)|intros x; change (used s4 x) with (used s3 x); by rewrite Hus3, Hus2|apply (fr_nodup _ _ _ HF)|exact (own_snoc d blks k)]|].
      apply frep_sins. apply (frep_unsnoc_indirect s s3 d blks k HF); [lia|intros x; by rewrite Hus3, Hus2|].
      intros j' Hj'. assert (Hd3 : forall o, 0 <= o < SFS_BLKSIZE -> dsk s3 (indirect d) o =
        if decide (Z.of_nat j * 4 <= o < Z.of_nat j * 4 + 4) then 0 else dsk s (indirect d) o).
      { intros o Ho. unfold SfsInv.dsk at 1. rewrite Hm3. fold (SfsInv.dsk dop_io d0 s2 (indirect d) o). rewrite (to_dsk _ _ _ _ _ _ Ht2) by (done || lia).
        rewrite (to_dsk _ _ _ _ _ _ Ht1) by (done || lia). unfold at_block. rewrite put_le_length. change (Z.of_nat 4) with 4.
        destruct (decide (Z.of_nat j * 4 <= o < Z.of_nat j * 4 + 4)) as [Hi|Hi]; [|by rewrite decide_False by tauto]. rewrite decide_True by done. cbn [default].
        destruct (decide (o - Z.of_nat j * 4 = 0 \/ o - Z.of_nat j * 4 = 1 \/ o - Z.of_nat j * 4 = 2 \/ o - Z.of_nat j * 4 = 3)) as [[-> |[-> |[-> | ->]]]|]; [done..|lia]. }
      destruct (decide (j' = length blks - 12)%nat) as [->|Hnej].
      * fold j. apply word_at_zero. intros i Hi. rewrite Hd3 by (unfold SFS_BLKSIZE; lia). by rewrite decide_True by lia.
      * apply word_at_ext. intros i Hi. rewrite Hd3 by (unfold SFS_BLKSIZE; lia). by rewrite decide_False by lia.
Qed.
End Files.
