(* ===== verification/SfsIo.v ===== *)
(** * The simple file system: contents of files

    A file is a sequence of bytes: [sfs_io_nolock] reads from it and writes to it,
    in parts of blocks and whole blocks, growing it as needed. *)

From stdpp Require Import base gmap list.
From Stdlib Require Import ZArith Lia Bool.
From S2P Require Import Prelude.
From S2P Require Import Vmm.
From S2P Require Import Vfs.
From S2P Require Import Bitmap.
From S2P Require Import Sfs.
From S2P Require Import SfsInv.
From S2P Require Import SfsThm.

Section Contents.
Context {D : Type} (dop_io : iobuf -> bool -> M (fst_ (sfsx D)) (Z * iobuf)) (d0 : D) `{!BlockDev dop_io d0}.
Abbreviation st := (fst_ (sfsx D)).
Abbreviation sfs s := (xsfs (priv s)).
Abbreviation GInv := (GInv dop_io d0).
Abbreviation keeps := (keeps dop_io d0).
Abbreviation touch := (touch dop_io d0).
Abbreviation dsk := (dsk dop_io d0).
Abbreviation frep := (frep dop_io d0).
Abbreviation BS := SFS_BLKSIZE.
Implicit Types (s : st) (blks : list Z).

Definition range (a len x : Z) : Prop := a <= x < a + len.

(** A buffer of the caller: client memory other than the block buffer. *)
Definition ubuf s (buf len : Z) : Prop :=
  0 <= buf /\ buf + len < W32 /\ forall x, range buf len x -> client x /\ ~ in_buffer s x.

Lemma ubuf_part s buf len a n : ubuf s buf len -> 0 <= a -> a + n <= len -> 0 <= n -> ubuf s (buf + a) n.
Proof. intros (?&?&Hc) ? ? ?. split; [lia|]. split; [lia|]. intros x Hx. apply Hc. unfold range in *. lia. Qed.
Lemma ubuf_same s s' buf len : sfs_buffer (sfs s') = sfs_buffer (sfs s) -> ubuf s buf len -> ubuf s' buf len.
Proof. intros Hb (?&?&Hc). split; [done|]. split; [done|]. unfold in_buffer. rewrite Hb. exact Hc. Qed.

(** ** Transfers of one part of a block *)

Definition reader (op : Z -> M st Z) (buf sz off : Z) : Prop := forall s k, GInv s -> used s k -> ubuf s buf sz ->
  runs (op k) s (fun r s' => r = 0 /\ touch s s' (range buf sz) asis /\ forall i, 0 <= i < sz -> fmem s' (buf + i) = dsk s k (off + i)).
Definition writer (op : Z -> M st Z) (buf sz off : Z) : Prop := forall s k, GInv s -> used s k -> ubuf s buf sz ->
  runs (op k) s (fun r s' => r = 0 /\ touch s s' nowhere (at_block k off (peek (fmem s) buf sz))).

Lemma used_range s k : used s k -> 0 < k < sup_blocks (super (sfs s)).
Proof. by intros [? _]. Qed.

Lemma buf_op_reader buf sz off : 0 <= off < BS -> 0 <= sz -> off + sz <= BS -> reader (fun k => sfs_buf_op dop_io false buf sz k off) buf sz off.
Proof.
  intros Ho Hs Hos s k HG Hu (Hb0&Hb1&Hbc). unfold sfs_buf_op. runs_steps. runs_by (sfs_rbuf_runs dop_io d0 s sz k off HG); [by apply used_range|done..|].
  intros r s1 [-> Ht]. cbn [fst snd Z.eqb]. unfold on_mem. runs_steps. cbn [fst]. split; [done|].
  assert (Hl : forall o, dbyte (poke buf (peek (dsk s k) off sz) (fmem s1)) o = dbyte (fmem s1) o).
  { intros o. apply bd_local. intros x Hx. apply poke_out. rewrite peek_length. intros Hr. apply Hx. apply Hbc. unfold range. lia. }
  split; [split|]; cbn [fmem set_fmem].
  - rewrite (to_st _ _ _ _ _ _ Ht). done.
  - intros x Hc Hx HnR. rewrite poke_out by (rewrite peek_length; unfold range in HnR; lia). apply (to_mem _ _ _ _ _ _ Ht); [done|done|intros []].
  - intros j o Hj Hoo. unfold SfsInv.dsk at 1. cbn [fmem set_fmem]. rewrite Hl. apply (to_dsk _ _ _ _ _ _ Ht); done.
  - intros i Hi. rewrite poke_in by (rewrite peek_length; lia). replace (buf + i - buf) with i by lia. by apply peek_total.
Qed.

Lemma buf_op_writer buf sz off : 0 <= off < BS -> 0 <= sz -> off + sz <= BS -> writer (fun k => sfs_buf_op dop_io true buf sz k off) buf sz off.
Proof.
  intros Ho Hs Hos s k HG Hu _. unfold sfs_buf_op. runs_steps. apply (sfs_wbuf_runs dop_io d0); [done|by apply used_range|done|]. rewrite peek_length. lia.
Qed.

Lemma block_op_reader buf : reader (sfs_block_op dop_io false buf) buf BS 0.
Proof.
  intros s k HG Hu (Hb0&Hb1&Hbc). pose proof (used_range _ _ Hu) as Hk. unfold sfs_block_op, sfs_rblock. change (Z.to_nat 1) with 1%nat. cbn [sfs_rwblock]. runs_steps.
  runs_by (rwblock_read_runs dop_io d0 s buf k true HG); [lia|lia|intros x Hx; by apply Hbc|].
  intros r s1 (->&m'&->&Hm&Hd). cbn [negb Z.eqb]. runs_steps. split; [done|]. split; [split|]; cbn [fmem set_fmem].
  - done.
  - intros x Hc Hx HnR. rewrite Hm by done. by rewrite decide_False.
  - intros j o Hj Ho. by apply Hd.
  - intros i Hi. rewrite Hm by (apply Hbc; unfold range; lia). rewrite decide_True by lia. f_equal. lia.
Qed.

Lemma block_op_writer buf : writer (sfs_block_op dop_io true buf) buf BS 0.
Proof.
  intros s k HG Hu (Hb0&Hb1&Hbc). pose proof (used_range _ _ Hu) as Hk. unfold sfs_block_op, sfs_wblock. change (Z.to_nat 1) with 1%nat. cbn [sfs_rwblock]. runs_steps.
  runs_by (rwblock_write_runs dop_io d0 s buf k true HG); [lia|lia|intros x Hx; by apply Hbc|].
  intros r s1 (->&m'&->&Hm&Hd). cbn [negb Z.eqb]. runs_steps. split; [done|]. split; cbn [fmem set_fmem].
  - done.
  - intros x Hc Hx _. by apply Hm.
  - intros j o Hj Ho. unfold SfsInv.dsk at 1. cbn [fmem set_fmem]. rewrite Hd by done. unfold at_block. rewrite peek_length.
    destruct (decide (j = k)) as [->|Hne]; [|by rewrite decide_False by tauto]. rewrite decide_True by (unfold SFS_BLKSIZE in *; lia).
    cbn [default from_option id]. rewrite peek_total by lia. f_equal. lia.
Qed.

(** ** The bytes of a file *)

(** Byte [q]; bytes behind the last block are 0. *)
Definition fbyte s blks (q : Z) : Z :=
  match blks !! Z.to_nat (q / BS) with Some k => dsk s k (q mod BS) | None => 0 end.

(** A file with size [sz] occupies exactly the blocks it needs. *)
Record FileAt s n sin blks : Prop := {
  fa_g : GInv s;
  fa_sin : sins (priv s) !! n = Some sin;
  fa_rep : frep s (din sin) blks;
  fa_type : din_type (din sin) <> SFS_TYPE_DIR;
  fa_size : 0 <= size (din sin) /\ BS * (Z.of_nat (length blks) - 1) < size (din sin) <= BS * Z.of_nat (length blks)
}.

Definition content s sin blks : list Z := fbyte s blks <$> seqZ 0 (size (din sin)).

Lemma content_length s sin blks : 0 <= size (din sin) -> Z.of_nat (length (content s sin blks)) = size (din sin).
Proof. intros. unfold content. rewrite length_fmap, length_seqZ. lia. Qed.

Lemma pos_block q : 0 <= q -> 0 <= q mod BS < BS /\ q = BS * (q / BS) + q mod BS /\ 0 <= q / BS.
Proof. unfold SFS_BLKSIZE. intros. split; [mlia|]. split; mlia. Qed.

Lemma pos_split b o : 0 <= o < BS -> (BS * b + o) / BS = b /\ (BS * b + o) mod BS = o.
Proof. unfold SFS_BLKSIZE. intros. split; mlia. Qed.

Lemma fbyte_at s blks b k o : 0 <= b -> blks !! Z.to_nat b = Some k -> 0 <= o < BS -> fbyte s blks (BS * b + o) = dsk s k o.
Proof. intros Hb Hk Ho. unfold fbyte. destruct (pos_split b o Ho) as [-> ->]. by rewrite Hk. Qed.

(** ** Reading *)

Definition reads s s' blks (buf p len : Z) : Prop :=
  touch s s' (range buf len) asis /\ forall i, 0 <= i < len -> fmem s' (buf + i) = fbyte s blks (p + i).

Lemma touch_dsk s s' R k o : touch s s' R asis -> GInv s -> used s k -> 0 <= o < BS -> dsk s' k o = dsk s k o.
Proof. intros Ht HG [Hk _] Ho. pose proof (g_blocks _ _ _ HG). by rewrite (to_dsk _ _ _ _ _ _ Ht) by (done || lia). Qed.

Lemma touch_fbyte s s' R d blks q : GInv s -> frep s d blks -> touch s s' R asis -> 0 <= q -> fbyte s' blks q = fbyte s blks q.
Proof.
  intros HG HF Ht Hq. unfold fbyte. destruct (blks !! Z.to_nat (q / BS)) as [k|] eqn:Hk; [|done].
  eapply touch_dsk; [exact Ht|done| |by apply pos_block]. apply (fr_used _ _ _ _ _ HF), own_blks. by eapply list_elem_of_lookup_2.
Qed.

Lemma touch_trans s1 s2 s3 (R1 R2 R : Z -> Prop) :
  touch s1 s2 R1 asis -> touch s2 s3 R2 asis -> (forall x, R1 x -> R x) -> (forall x, R2 x -> R x) -> touch s1 s3 R asis.
Proof.
  intros [E1 M1 D1] [E2 M2 D2] H1 H2. split.
  - rewrite E2, E1. done.
  - intros x Hc Hb HR. rewrite M2; [apply M1; auto|done|rewrite E1; exact Hb|auto].
  - intros j o Hj Ho. rewrite D2 by done. by apply D1.
Qed.

Lemma reads_trans s1 s2 s3 d blks buf p l1 l2 :
  GInv s1 -> frep s1 d blks -> ubuf s1 buf (l1 + l2) -> 0 <= p -> 0 <= l1 -> 0 <= l2 ->
  reads s1 s2 blks buf p l1 -> reads s2 s3 blks (buf + l1) (p + l1) l2 -> reads s1 s3 blks buf p (l1 + l2).
Proof.
  intros HG HF (_&_&Hbc) Hp H1 H2 [T1 F1] [T2 F2]. split.
  - eapply touch_trans; [exact T1|exact T2|unfold range; intros; lia..].
  - intros i Hi. destruct (decide (i < l1)) as [Hlt|Hge].
    + rewrite (to_mem _ _ _ _ _ _ T2); [by apply F1; lia|apply Hbc; unfold range; lia| |unfold range; lia].
      rewrite (to_st _ _ _ _ _ _ T1). apply Hbc. unfold range. lia.
    + replace (buf + i) with (buf + l1 + (i - l1)) by lia. rewrite F2 by lia. replace (p + l1 + (i - l1)) with (p + i) by lia.
      eapply touch_fbyte; [exact HG|exact HF|exact T1|lia].
Qed.

Lemma reads_nil s blks buf p : reads s s blks buf p 0.
Proof. split; [|intros; lia]. split; try done. by destruct s. Qed.

Lemma io_part_read_runs s n sin blks op buf sz b off :
  GInv s -> sins (priv s) !! n = Some sin -> frep s (din sin) blks -> reader op buf sz off -> ubuf s buf sz ->
  0 <= b < Z.of_nat (length blks) -> 0 <= off -> 0 <= sz -> off + sz <= BS ->
  runs (io_part dop_io n b op) s (fun r s' => r = 0 /\ reads s s' blks buf (BS * b + off) sz).
Proof.
  intros HG Hn HF Hop Hub Hb Ho Hs Hos. destruct (lookup_lt_is_Some_2 blks (Z.to_nat b)) as [k Hk]; [lia|]. unfold io_part. runs_steps.
  rewrite <-(Z2Nat.id b) at 1 by lia. runs_by (bmap_load_old_runs dop_io d0 s n sin blks (Z.to_nat b) k); [done..|].
  intros r s1 [-> Ht]. cbn [fst snd negb Z.eqb]. assert (HG1 : GInv s1) by (by eapply touch_GInv).
  assert (Hu : used s k) by (apply (fr_used _ _ _ _ _ HF), own_blks; by eapply list_elem_of_lookup_2).
  assert (Hu1 : used s1 k) by (by rewrite (to_st _ _ _ _ _ _ Ht)).
  runs_by (Hop s1 k HG1 Hu1); [by apply (ubuf_same s); [rewrite (to_st _ _ _ _ _ _ Ht)|]|]. intros r s2 (->&Ht2&Hf). split; [done|]. split.
  - eapply touch_trans; [exact Ht|exact Ht2|intros x []|done].
  - intros i Hi. rewrite Hf by done. rewrite (touch_dsk s s1 _ _ _ Ht) by (done || lia). replace (BS * b + off + i) with (BS * b + (off + i)) by lia.
    symmetry. apply fbyte_at; [lia|done|lia].
Qed.
Lemma touch_file s s' R n sin blks :
  GInv s -> sins (priv s) !! n = Some sin -> frep s (din sin) blks -> touch s s' R asis ->
  GInv s' /\ sins (priv s') !! n = Some sin /\ frep s' (din sin) blks.
Proof.
  intros HG Hn HF Ht. split; [by eapply touch_GInv|]. split; [by rewrite (to_st _ _ _ _ _ _ Ht)|]. by eapply frep_touch.
Qed.

Lemma io_blocks_read_runs n sin blks k : forall s buf b alen,
  GInv s -> sins (priv s) !! n = Some sin -> frep s (din sin) blks -> ubuf s buf (BS * Z.of_nat k) -> 0 <= b -> b + Z.of_nat k <= Z.of_nat (length blks) ->
  runs (io_blocks dop_io k n buf b alen false) s (fun r s' => r = (0, alen + BS * Z.of_nat k) /\ reads s s' blks buf (BS * b) (BS * Z.of_nat k)).
Proof.
  induction k as [|k IH]; intros s buf b alen HG Hn HF Hub Hb Hle; cbn [io_blocks].
  { runs_steps. split; [f_equal; lia|]. replace (BS * Z.of_nat 0) with 0 by lia. apply reads_nil. }
  rewrite Nat2Z.inj_succ, Z.mul_succ_r in *. set (L := BS * Z.of_nat k) in *. assert (HL : 0 <= L) by (unfold L, SFS_BLKSIZE; lia).
  assert (Hub1 : ubuf s buf BS) by (pose proof (ubuf_part s buf _ 0 BS Hub) as Hp; rewrite Z.add_0_r in Hp; apply Hp; unfold SFS_BLKSIZE; lia).
  runs_steps. runs_by (io_part_read_runs s n sin blks (sfs_block_op dop_io false buf) buf BS b 0); [done|done|done|apply block_op_reader|done|lia|lia|unfold SFS_BLKSIZE; lia|lia|].
  intros r s1 [-> Hr1]. cbn [negb Z.eqb]. rewrite Z.add_0_r in Hr1. destruct (touch_file s s1 _ n sin blks HG Hn HF (proj1 Hr1)) as (HG1&Hn1&HF1).
  rewrite u32_small by (destruct Hub as (?&?&_); unfold is_u32, SFS_BLKSIZE in *; lia).
  runs_by (IH s1 (buf + BS) (b + 1) (alen + BS)); [done|done|done| |lia|lia|].
  - apply (ubuf_same s); [by rewrite (to_st _ _ _ _ _ _ (proj1 Hr1))|]. apply (ubuf_part s buf (L + BS)); [done|unfold SFS_BLKSIZE; lia|lia|done].
  - intros r s2 [-> Hr2]. fold L in Hr2 |- *. split; [f_equal; lia|]. rewrite Z.add_comm. eapply (reads_trans s s1 s2); [done|exact HF|by rewrite Z.add_comm| | |done|exact Hr1|].
    + unfold SFS_BLKSIZE; lia.
    + unfold SFS_BLKSIZE; lia.
    + by replace (BS * b + BS) with (BS * (b + 1)) by lia.
Qed.

Lemma io_transfer_read_runs s n sin blks buf offset endpos :
  GInv s -> sins (priv s) !! n = Some sin -> frep s (din sin) blks -> 0 <= offset -> offset < endpos -> endpos <= BS * Z.of_nat (length blks) ->
  ubuf s buf (endpos - offset) ->
  runs (io_transfer dop_io n buf offset endpos false) s (fun r s' => r = (0, endpos - offset) /\ reads s s' blks buf offset (endpos - offset)).
Proof.
  intros HG Hn HF Ho Hlt Hend Hub. destruct (pos_block offset Ho) as (Hom&Hoe&Hob). destruct (pos_block endpos ltac:(lia)) as (Hem&Hee&Heb).
  set (b0 := offset / BS) in *. set (b1 := endpos / BS) in *. set (o := offset mod BS) in *. set (t := endpos mod BS) in *.
  assert (Hrest : forall s1 buf1 b k alen, GInv s1 -> sins (priv s1) !! n = Some sin -> frep s1 (din sin) blks -> 0 <= b -> 0 <= k -> b + k = b1 ->
    ubuf s1 buf1 (BS * k + t) ->
    runs (let! r := io_blocks dop_io (Z.to_nat k) n buf1 b alen false in
          if negb (fst r =? 0) then ret r
          else if negb (t =? 0) then
            let! e := io_part dop_io n (b + k) (fun i => sfs_buf_op dop_io false (u32 (buf1 + k * BS)) t i 0) in
            if negb (e =? 0) then ret (e, snd r) else ret (0, snd r + t)
          else ret r) s1
      (fun r s' => r = (0, alen + (BS * k + t)) /\ reads s1 s' blks buf1 (BS * b) (BS * k + t))).
  { intros s1 buf1 b k alen HG1 Hn1 HF1 Hb Hk Hbk Hub1. assert (HkB : 0 <= BS * k) by (unfold SFS_BLKSIZE in *; lia). runs_steps.
    runs_by (io_blocks_read_runs n sin blks (Z.to_nat k) s1 buf1 b alen); [done|done|done| |done|unfold SFS_BLKSIZE in *; lia|].
    { rewrite Z2Nat.id by lia. pose proof (ubuf_part s1 buf1 _ 0 (BS * k) Hub1) as Hp. rewrite Z.add_0_r in Hp. apply Hp; lia. }
    rewrite Z2Nat.id by lia. intros r s2 [-> Hr]. cbn [fst snd negb Z.eqb]. destruct (Z.eqb_spec t 0) as [Ht|Ht]; cbn [negb].
    - runs_steps. rewrite Ht, Z.add_0_r. done.
    - destruct (touch_file s1 s2 _ n sin blks HG1 Hn1 HF1 (proj1 Hr)) as (HG2&Hn2&HF2).
      replace (u32 (buf1 + k * BS)) with (buf1 + BS * k) by (destruct Hub1 as (?&?&_); rewrite u32_small; unfold is_u32, SFS_BLKSIZE in *; lia).
      runs_steps. runs_by (io_part_read_runs s2 n sin blks (fun i => sfs_buf_op dop_io false (buf1 + BS * k) t i 0) (buf1 + BS * k) t (b + k) 0); [done|done|done|apply buf_op_reader; unfold SFS_BLKSIZE in *; lia| |unfold SFS_BLKSIZE in *; lia|lia|lia|unfold SFS_BLKSIZE in *; lia|].
      + apply (ubuf_same s1); [by rewrite (to_st _ _ _ _ _ _ (proj1 Hr))|]. by apply (ubuf_part s1 buf1 _ _ _ Hub1); lia.
      + intros r s3 [-> Hr3]. cbn [negb Z.eqb]. runs_steps. split; [f_equal; lia|].
        eapply (reads_trans s1 s2 s3); [done|exact HF1|done|unfold SFS_BLKSIZE in *; lia|done|lia|exact Hr|].
        by replace (BS * b + BS * k) with (BS * (b + k) + 0) by lia. }
  unfold io_transfer. fold b0 b1 o t. destruct (Z.eqb_spec o 0) as [Hz|Hnz]; cbn [negb].
  - runs_by (Hrest s buf b0 (b1 - b0) 0); [done|done|done|done|unfold SFS_BLKSIZE in *; lia|lia| |].
    { replace (BS * (b1 - b0) + t) with (endpos - offset) by lia. done. }
    intros r s' [-> Hr]. replace (BS * (b1 - b0) + t) with (endpos - offset) in * by lia. split; [done|]. by replace offset with (BS * b0) at 1 by lia.
  - set (sz := if negb (b1 - b0 =? 0) then BS - o else endpos - offset). assert (Hsz : 0 < sz /\ o + sz <= BS /\ sz <= endpos - offset).
    { unfold sz. destruct (Z.eqb_spec (b1 - b0) 0); cbn [negb]; unfold SFS_BLKSIZE in *; lia. }
    assert (Hsz0 : sz = if decide (b1 - b0 = 0) then endpos - offset else BS - o) by (unfold sz; destruct (Z.eqb_spec (b1 - b0) 0), (decide (b1 - b0 = 0)); done).
    clearbody sz. runs_steps. assert (Hub0 : ubuf s buf sz) by (pose proof (ubuf_part s buf _ 0 sz Hub) as Hp; rewrite Z.add_0_r in Hp; apply Hp; lia).
    runs_by (io_part_read_runs s n sin blks (fun i => sfs_buf_op dop_io false buf sz i o) buf sz b0 o); [done|done|done|apply buf_op_reader; lia|done|unfold SFS_BLKSIZE in *; lia|lia|lia|lia|].
    intros r s1 [-> Hr]. cbn [negb Z.eqb]. rewrite <-Hoe in Hr. destruct (Z.eqb_spec (b1 - b0) 0) as [He|He].
    + runs_steps. rewrite decide_True in Hsz0 by done. by rewrite <-Hsz0.
    + rewrite decide_False in Hsz0 by done. subst sz. destruct (touch_file s s1 _ n sin blks HG Hn HF (proj1 Hr)) as (HG1&Hn1&HF1).
      rewrite u32_small by (destruct Hub as (?&?&_); unfold is_u32, SFS_BLKSIZE in *; lia).
      assert (Hlen : endpos - offset = BS - o + (BS * (b1 - b0 - 1) + t)) by lia.
      runs_by (Hrest s1 (buf + (BS - o)) (b0 + 1) (b1 - b0 - 1) (BS - o)); [done|done|done|lia|unfold SFS_BLKSIZE in *; lia|lia| |].
      { apply (ubuf_same s); [by rewrite (to_st _ _ _ _ _ _ (proj1 Hr))|]. apply (ubuf_part s buf _ _ _ Hub); lia. }
      intros r s2 [-> Hr2]. rewrite Hlen. split; [done|]. eapply (reads_trans s s1 s2); [done|exact HF|by rewrite <-Hlen|done|lia|unfold SFS_BLKSIZE in *; lia|exact Hr|].
      by replace (offset + (BS - o)) with (BS * (b0 + 1)) by lia.
Qed.

Lemma io_read_runs s n sin blks buf offset len :
  FileAt s n sin blks -> 0 <= offset -> 0 <= len < 2147483648 -> offset + len < 2147483648 -> offset < SFS_MAX_FILE_SIZE -> ubuf s buf len ->
  runs (sfs_io_nolock dop_io n buf offset len false) s (fun r s' => fst r = 0 /\
    snd r = Z.max 0 (Z.min len (size (din sin) - offset)) /\ reads s s' blks buf offset (snd r)).
Proof.
  intros [HG Hn HF Hty Hsz] Ho Hl Hol Hmax Hub. pose proof (fr_blocks _ _ _ _ _ HF) as [Hbl Hbm]. unfold sfs_io_nolock. runs_steps. eapply rd_sin_runs; [exact Hn|]. runs_steps.
  apply runs_assert; [apply negb_true_iff, Z.eqb_neq; done|]. rewrite s32_small by lia.
  rewrite (proj2 (Z.ltb_ge offset 0)), (proj2 (Z.leb_gt SFS_MAX_FILE_SIZE offset)), (proj2 (Z.ltb_ge (offset + len) offset)) by lia. cbn [orb].
  destruct (Z.eqb_spec offset (offset + len)) as [He|He]; [runs_steps; cbn [fst snd]; split; [done|]; split; [lia|]; apply reads_nil|]. cbn [negb andb].
  destruct (Z.leb_spec (size (din sin)) offset) as [Hge|Hlt]; [runs_steps; cbn [fst snd]; split; [done|]; split; [lia|]; apply reads_nil|].
  set (e1 := if SFS_MAX_FILE_SIZE <? offset + len then SFS_MAX_FILE_SIZE else offset + len).
  assert (Hsmall : size (din sin) < SFS_MAX_FILE_SIZE) by (unfold MAXBLKS, SFS_NDIRECT, SFS_BLK_NENTRY, SFS_MAX_FILE_SIZE, SFS_BLKSIZE in *; lia).
  set (e := if size (din sin) <? e1 then size (din sin) else e1).
  assert (Hend : e = Z.min (offset + len) (size (din sin))).
  { unfold e, e1. destruct (Z.ltb_spec SFS_MAX_FILE_SIZE (offset + len)), (Z.ltb_spec (size (din sin)) (if true then SFS_MAX_FILE_SIZE else 0)); cbn;
      repeat match goal with |- context [?a <? ?b] => destruct (Z.ltb_spec a b) end; lia. }
  runs_steps. runs_by (io_transfer_read_runs s n sin blks buf offset e); [done|done|done|lia|lia|lia| |].
  { pose proof (ubuf_part s buf len 0 (e - offset) Hub) as Hp. rewrite Z.add_0_r in Hp. apply Hp; lia. }
  intros r s1 [-> Hr]. cbn [fst snd]. destruct (touch_file s s1 _ n sin blks HG Hn HF (proj1 Hr)) as (_&Hn1&_).
  runs_steps. eapply rd_sin_runs; [exact Hn1|]. runs_steps. rewrite (proj2 (Z.ltb_ge (size (din sin)) (offset + (e - offset)))) by lia. runs_steps. cbn [fst snd]. split; [done|]. split; [lia|done].
Qed.
(** ** Writing *)

Abbreviation same_file := SfsThm.same_file.

(** The file [n] after [len] bytes from [buf] were written at position [p]. *)
Record wrote s s' n sin sin' blks blks' (buf p len : Z) : Prop := {
  w_g : GInv s';
  w_sins : sins (priv s') = <[n := sin']> (sins (priv s));
  w_same : same_file sin sin';
  w_rep : frep s' (din sin') blks';
  w_own : forall k, k ∈ own (din sin') blks' -> k ∈ own (din sin) blks \/ ~ used s k;
  w_bytes : forall q, 0 <= q -> fbyte s' blks' q = if decide (p <= q < p + len) then fmem s (buf + (q - p)) else fbyte s blks q;
  w_keeps : keeps nowhere (fun k => k ∈ own (din sin) blks) s s';
  w_ledger : disk_ledger s (own (din sin) blks) s' (own (din sin') blks')
}.

Lemma same_file_trans a b c : same_file a b -> same_file b c -> same_file a c.
Proof. intros (?&?&?&?&?) (?&?&?&?&?). repeat split; congruence. Qed.

Lemma wrote_trans s1 s2 s3 n sin1 sin2 sin3 blks1 blks2 blks3 buf p l1 l2 :
  ubuf s1 buf (l1 + l2) -> 0 <= p -> 0 <= l1 -> 0 <= l2 ->
  wrote s1 s2 n sin1 sin2 blks1 blks2 buf p l1 -> wrote s2 s3 n sin2 sin3 blks2 blks3 (buf + l1) (p + l1) l2 ->
  wrote s1 s3 n sin1 sin3 blks1 blks3 buf p (l1 + l2).
Proof.
  intros (_&_&Hub) Hp H1 H2 W1 W2. destruct W1 as [_ Hs1 Hf1 _ Ho1 Hb1 Hk1 Hl1], W2 as [Hg2 Hs2 Hf2 Hr2 Ho2 Hb2 Hk2 Hl2].
  assert (Hback : forall k, k ∈ own (din sin2) blks2 -> used s1 k -> k ∈ own (din sin1) blks1).
  { intros k Hk Hu. by destruct (Ho1 k Hk). }
  split; [done|by rewrite Hs2, Hs1, insert_insert_eq|by eapply same_file_trans|done| | | |by eapply disk_ledger_trans].
  - intros k Hk. destruct (decide (k ∈ own (din sin1) blks1)) as [|Hn]; [by left|]. right. intros Hu.
    destruct (Ho2 k Hk) as [Hk2'|Hnu]; [by apply Hn, Hback|]. apply Hnu. by apply (kp_used _ _ _ _ _ _ Hk1).
  - intros q Hq. rewrite Hb2 by done. destruct (decide (p + l1 <= q < p + l1 + l2)) as [Hi|Hi].
    + rewrite decide_True by lia. replace (buf + l1 + (q - (p + l1))) with (buf + (q - p)) by lia.
      assert (Hr : range buf (l1 + l2) (buf + (q - p))) by (unfold range; lia). apply (kp_mem _ _ _ _ _ _ Hk1); [by apply Hub|by apply Hub|intros []].
    + rewrite Hb1 by done. destruct (decide (p <= q < p + l1)); [by rewrite decide_True by lia|by rewrite decide_False by lia].
  - eapply keeps_trans; [exact Hk1|exact Hk2|done|done|]. intros k Hu Hk. by apply Hback.
Qed.

Lemma wrote_nothing s s' n sin blks buf p R :
  GInv s -> sins (priv s) !! n = Some sin -> frep s (din sin) blks -> touch s s' R asis -> (forall x, ~ R x) -> wrote s s' n sin sin blks blks buf p 0.
Proof.
  intros HG Hn HF Ht HR. destruct (touch_file s s' R n sin blks HG Hn HF Ht) as (HG'&Hn'&HF'). split; try done.
  - rewrite insert_id by done. by rewrite (to_st _ _ _ _ _ _ Ht).
  - intros k Hk. by left.
  - intros q Hq. rewrite decide_False by lia. by eapply touch_fbyte.
  - eapply touch_keeps; [done|exact Ht|intros x Hx; by destruct (HR x)|done].
  - apply disk_ledger_same; [apply (fr_used _ _ _ _ _ HF)|]. intros x. by rewrite (to_st _ _ _ _ _ _ Ht).
Qed.

(** A failed allocation: nothing of the file changed. *)
Lemma wrote_keeps s s' n sin blks buf p :
  GInv s' -> sins (priv s) !! n = Some sin -> sins (priv s') = sins (priv s) -> frep s (din sin) blks -> keeps nowhere nowhere s s' -> (forall x, used s' x <-> used s x) ->
  wrote s s' n sin sin blks blks buf p 0.
Proof.
  intros HG' Hn Hs HF HK Hsu. split; try done.
  - by rewrite insert_id.
  - eapply frep_keeps; [exact HK|intros k _ []|done].
  - intros k Hk. by left.
  - intros q Hq. rewrite decide_False by lia. unfold fbyte. destruct (blks !! Z.to_nat (q / BS)) as [k|] eqn:Hk; [|done].
    apply (kp_dsk _ _ _ _ _ _ HK); [apply (fr_used _ _ _ _ _ HF), own_blks; by eapply list_elem_of_lookup_2|intros []|by apply pos_block].
  - eapply keeps_mono; [exact HK|done|by intros k []].
  - apply disk_ledger_same; [apply (fr_used _ _ _ _ _ HF)|done].
Qed.

Lemma blks_not_indirect s d blks k : frep s d blks -> k ∈ blks -> k <> indirect d.
Proof.
  intros HF Hk ->. destruct (decide (indirect d = 0)) as [Hz|Hz].
  - destruct (fr_used _ _ _ _ _ HF _ (own_blks d _ _ Hk)) as [? _]. lia.
  - pose proof (fr_nodup _ _ _ _ _ HF) as Hnd. unfold own in Hnd. rewrite decide_False in Hnd by done. apply NoDup_app in Hnd as (_&Hd&_).
    by apply (Hd _ Hk), list_elem_of_singleton.
Qed.

(** A new block, before anything is written to it. *)
Lemma wrote_adds s s' n sin blks buf p r :
  GInv s -> sins (priv s) !! n = Some sin -> frep s (din sin) blks -> adds dop_io d0 0 s n sin blks r s' ->
  (fst r = - E_NO_MEM /\ scarce s /\ keeps nowhere nowhere s s' /\ wrote s s' n sin sin blks blks buf p 0) \/
  (fst r = 0 /\ exists sin', wrote s s' n sin sin' blks (blks ++ [snd r]) buf p 0).
Proof.
  intros HG Hn HF (HG'&[(->&Hsin&Hsc&HK&Hsu)|(He&Hfree&Hzero&HK&sin'&Hsin&Hsame&Hb&Hind&Hled&HF')]).
  { left. split; [done|]. split; [done|]. split; [done|]. by apply wrote_keeps. }
  right. split; [done|]. exists sin'.
  replace (set_blocks (blocks (din sin') + 0) (din sin')) with (din sin') in HF' by (rewrite Z.add_0_r; by destruct (din sin')).
  split; try done.
  - intros k Hk. apply elem_of_app in Hk as [Hk|Hk]; [apply elem_of_app in Hk as [Hk|Hk]|].
    + left. by apply own_blks.
    + right. apply list_elem_of_singleton in Hk as ->. by apply free_not_used.
    + case_decide as Hz; [by apply elem_of_nil in Hk|]. apply list_elem_of_singleton in Hk as ->. destruct Hind as [Hi|Hi]; [|by right].
      left. rewrite Hi in *. by apply own_indirect.
  - intros q Hq. rewrite decide_False by lia. unfold fbyte. destruct (decide (Z.to_nat (q / BS) < length blks)%nat) as [Hlt|Hge].
    + rewrite lookup_app_l by done. destruct (lookup_lt_is_Some_2 _ _ Hlt) as [k Hk]. rewrite Hk. assert (Hin : k ∈ blks) by (by eapply list_elem_of_lookup_2).
      apply (kp_dsk _ _ _ _ _ _ HK); [by apply (fr_used _ _ _ _ _ HF), own_blks|by eapply blks_not_indirect|by apply pos_block].
    + rewrite (lookup_ge_None_2 blks) by lia. rewrite lookup_app_r by lia.
      destruct (Z.to_nat (q / BS) - length blks)%nat; cbn; [|done]. apply Hzero. by apply pos_block.
  - destruct (decide (indirect (din sin) = 0)) as [Hz|Hz].
    + destruct HK as [? ? ? Hu Hd]. split; try done.
      * intros k Hk _. apply Hu; [done|]. intros ->. destruct Hk as [? _]. lia.
      * intros k o Hk _ Ho. apply Hd; [done| |done]. intros ->. destruct Hk as [? _]. lia.
    + eapply keeps_mono; [exact HK|done|]. intros k ->. by apply own_indirect.
Qed.

(** Writing into block [b] of the file. *)
Lemma wrote_block s s' n sin blks k b buf off sz :
  GInv s -> sins (priv s) !! n = Some sin -> frep s (din sin) blks -> 0 <= b -> blks !! Z.to_nat b = Some k -> 0 <= off -> 0 <= sz -> off + sz <= BS ->
  touch s s' nowhere (at_block k off (peek (fmem s) buf sz)) -> wrote s s' n sin sin blks blks buf (BS * b + off) sz.
Proof.
  intros HG Hn HF Hb Hk Ho Hs Hos Ht. assert (Hin : k ∈ blks) by (by eapply list_elem_of_lookup_2).
  assert (Hat : forall j o, j <> k -> at_block k off (peek (fmem s) buf sz) j o = None) by (intros j o Hj; unfold at_block; by rewrite decide_False by tauto).
  pose proof (blks_not_indirect s _ _ _ HF Hin) as Hni. pose proof (g_blocks _ _ _ HG) as Hsup. split.
  - by eapply touch_GInv.
  - rewrite insert_id by done. by rewrite (to_st _ _ _ _ _ _ Ht).
  - done.
  - eapply frep_touch; [done|exact Ht|intros o; apply Hat; by apply not_eq_sym|done].
  - intros x Hx. by left.
  - intros q Hq. unfold fbyte. destruct (pos_block q Hq) as (Hm&Hqe&Hqb). destruct (blks !! Z.to_nat (q / BS)) as [k'|] eqn:Hk'.
    + assert (Hin' : k' ∈ blks) by (by eapply list_elem_of_lookup_2). pose proof (fr_used _ _ _ _ _ HF _ (own_blks _ _ _ Hin')) as [Hkr _].
      rewrite (to_dsk _ _ _ _ _ _ Ht) by (done || lia). unfold at_block. rewrite peek_length. destruct (decide (k' = k)) as [->|Hne].
      * assert (Hbq : Z.to_nat (q / BS) = Z.to_nat b).
        { assert (Hnd : NoDup blks) by (pose proof (fr_nodup _ _ _ _ _ HF) as Hnd; by apply NoDup_app in Hnd as [? _]). by eapply NoDup_lookup. }
        assert (q / BS = b) by lia. destruct (decide (off <= q mod BS < off + sz)) as [Hi|Hi].
        -- rewrite decide_True by lia. rewrite decide_True by lia. cbn [default from_option id]. rewrite peek_total by lia. f_equal. lia.
        -- rewrite decide_False by lia. by rewrite decide_False by lia.
      * rewrite decide_False by tauto. rewrite decide_False; [done|]. intros Hr. apply Hne. assert (q / BS = b) by (unfold SFS_BLKSIZE in *; mlia). congruence.
    + rewrite decide_False; [done|]. intros Hr. assert (q / BS = b) by (unfold SFS_BLKSIZE in *; mlia). congruence.
  - eapply touch_keeps; [done|exact Ht|done|]. intros x o _ Hx. apply Hat. intros ->. by apply Hx, own_blks.
  - apply disk_ledger_same; [apply (fr_used _ _ _ _ _ HF)|]. intros x. by rewrite (to_st _ _ _ _ _ _ Ht).
Qed.
(** Blocks needed for [q] bytes. *)
Definition needed (q : Z) : Z := (q + BS - 1) / BS.

(** The outcome of a transfer of [len] bytes to position [p]: return value, and [a0]
    plus what was written; short only when the disk is full. *)
Definition wres s n sin blks (buf p len a0 : Z) (r : Z * Z) s' : Prop :=
  exists sin' blks' l, wrote s s' n sin sin' blks blks' buf p l /\ 0 <= l <= len /\ snd r = a0 + l /\
    Z.of_nat (length blks') = Z.max (Z.of_nat (length blks)) (needed (p + l)) /\
    ((fst r = 0 /\ l = len) \/ (fst r = - E_NO_MEM /\ scarce s')).

Lemma needed_mono p l : 0 <= l -> needed p <= needed (p + l).
Proof. intros. unfold needed, SFS_BLKSIZE. mlia. Qed.

Lemma wres_step s s1 s2 n sin sin1 blks blks1 buf p l1 l2 a0 a1 r :
  ubuf s buf (l1 + l2) -> 0 <= p -> 0 <= l1 -> 0 <= l2 -> wrote s s1 n sin sin1 blks blks1 buf p l1 ->
  Z.of_nat (length blks1) = Z.max (Z.of_nat (length blks)) (needed (p + l1)) -> a1 = a0 + l1 ->
  wres s1 n sin1 blks1 (buf + l1) (p + l1) l2 a1 r s2 -> wres s n sin blks buf p (l1 + l2) a0 r s2.
Proof.
  intros Hub Hp H1 H2 W1 HL1 -> (sin2&blks2&l&W2&Hl&Hr&HL2&Hcase). exists sin2, blks2, (l1 + l). split; [|split; [lia|split; [lia|split]]].
  - eapply wrote_trans; [|done|done|lia|exact W1|exact W2]. pose proof (ubuf_part s buf _ 0 (l1 + l) Hub) as Hpt. rewrite Z.add_0_r in Hpt. apply Hpt; lia.
  - rewrite HL2, HL1. pose proof (needed_mono (p + l1) l ltac:(lia)). rewrite Z.add_assoc. lia.
  - destruct Hcase as [[-> ->]|[-> ?]]; [by left|by right].
Qed.

Lemma wres_done s n sin blks buf p a0 : GInv s -> sins (priv s) !! n = Some sin -> frep s (din sin) blks ->
  needed p <= Z.of_nat (length blks) -> wres s n sin blks buf p 0 a0 (0, a0) s.
Proof.
  intros HG Hn HF Hp. exists sin, blks, 0. split; [by eapply wrote_nothing; [..|apply touch_refl|intros x []]|]. rewrite !Z.add_0_r. cbn [fst snd]. split; [lia|]. split; [lia|]. split; [lia|by left].
Qed.

Lemma scarce_keeps s s' : GInv s -> GInv s' -> keeps nowhere nowhere s s' -> scarce s -> scarce s'.
Proof.
  intros HG HG' HK [x Hx]. exists x. intros k Hk. apply Hx. pose proof (g_free _ _ _ HG' k Hk) as Hr.
  rewrite (proj2 (keeps_buffer _ _ _ _ _ _ HK)) in Hr. eapply free_used; [exact HG|done|]. intros Hu. apply (free_not_used s' k Hk). apply (kp_used _ _ _ _ _ _ HK); [done|intros []].
Qed.

Lemma io_part_write_runs s n sin blks op buf sz b off :
  GInv s -> sins (priv s) !! n = Some sin -> frep s (din sin) blks -> writer op buf sz off -> ubuf s buf sz ->
  0 <= b -> BS * b + off <= BS * Z.of_nat (length blks) -> b < MAXBLKS -> 0 <= off -> 0 < sz -> off + sz <= BS ->
  runs (io_part dop_io n b op) s (fun r s' => wres s n sin blks buf (BS * b + off) sz 0 (r, if r =? 0 then sz else 0) s').
Proof.
  intros HG Hn HF Hop Hub Hb Hbo Hmx Ho Hs Hos. unfold io_part. runs_steps.
  assert (Hneed : needed (BS * b + off + sz) = b + 1) by (unfold needed, SFS_BLKSIZE in *; mlia).
  assert (Hneed0 : needed (BS * b + off) <= b + 1) by (unfold needed, SFS_BLKSIZE in *; mlia).
  destruct (decide (b < Z.of_nat (length blks))) as [Hlt|Hge].
  - destruct (lookup_lt_is_Some_2 blks (Z.to_nat b)) as [k Hk]; [lia|]. rewrite <-(Z2Nat.id b) at 1 by lia.
    runs_by (bmap_load_old_runs dop_io d0 s n sin blks (Z.to_nat b) k); [done..|]. intros r s1 [-> Ht]. cbn [fst snd negb Z.eqb].
    destruct (touch_file s s1 _ n sin blks HG Hn HF Ht) as (HG1&Hn1&HF1).
    assert (Hu1 : used s1 k) by (apply (fr_used _ _ _ _ _ HF1), own_blks; by eapply list_elem_of_lookup_2).
    runs_by (Hop s1 k HG1 Hu1); [by apply (ubuf_same s); [rewrite (to_st _ _ _ _ _ _ Ht)|]|]. intros r s2 (->&Ht2). cbn [Z.eqb]. exists sin, blks, (0 + sz).
    split; [|cbn [fst snd]; split; [lia|split; [lia|split; [rewrite Z.add_0_l, Hneed; lia|by left]]]].
    eapply (wrote_trans s s1 s2); [done|unfold SFS_BLKSIZE in *; lia|lia|lia|by eapply wrote_nothing; [..|exact Ht|intros x []]|]. rewrite !Z.add_0_r. eapply wrote_block; [done|done|done|lia|exact Hk|done|lia|lia|exact Ht2].
  - assert (Hbl : b = Z.of_nat (length blks)) by (unfold SFS_BLKSIZE in *; lia). rewrite Hbl at 1. runs_by (bmap_load_new_runs dop_io d0 s n sin blks HG Hn HF); [lia|].
    intros r s1 Hadds. pose proof (proj1 Hadds) as HG1. destruct (wrote_adds s s1 n sin blks buf (BS * b + off) r HG Hn HF Hadds) as [(He&Hsc&HK&W)|(He&sin'&W)].
    + rewrite He. replace (- E_NO_MEM =? 0) with false by done. cbn [negb]. runs_steps. replace (- E_NO_MEM =? 0) with false by done.
      exists sin, blks, 0. split; [exact W|]. cbn [fst snd]. split; [lia|]. split; [lia|]. split; [|right; split; [done|by apply (scarce_keeps s s1)]].
      rewrite Z.add_0_r. unfold needed, SFS_BLKSIZE in *. mlia.
    + rewrite He. cbn [negb Z.eqb]. assert (Hk : (blks ++ [snd r]) !! Z.to_nat b = Some (snd r)) by (rewrite Hbl, Nat2Z.id, lookup_app_r, Nat.sub_diag by lia; done).
      assert (Hu1 : used s1 (snd r)) by (apply (fr_used _ _ _ _ _ (w_rep _ _ _ _ _ _ _ _ _ _ W)), own_blks; by eapply list_elem_of_lookup_2).
      runs_by (Hop s1 (snd r) HG1 Hu1); [apply (ubuf_same s); [by rewrite (proj1 (keeps_buffer _ _ _ _ _ _ (w_keeps _ _ _ _ _ _ _ _ _ _ W)))|done]|].
      intros e s2 (->&Ht2). cbn [Z.eqb]. exists sin', (blks ++ [snd r]), (0 + sz). split; [|cbn [fst snd]; split; [lia|split; [lia|split; [rewrite Z.add_0_l, Hneed, length_app; cbn; lia|by left]]]].
      eapply (wrote_trans s s1 s2); [done|unfold SFS_BLKSIZE in *; lia|lia|lia|exact W|]. rewrite !Z.add_0_r.
      eapply wrote_block; [exact HG1|rewrite (w_sins _ _ _ _ _ _ _ _ _ _ W); apply lookup_insert_eq|apply (w_rep _ _ _ _ _ _ _ _ _ _ W)|lia|exact Hk|done|lia|lia|exact Ht2].
Qed.
(** The two outcomes of one part. *)
Lemma wres_fail s n sin blks buf p sz len a0 r s' :
  wres s n sin blks buf p sz 0 (r, if r =? 0 then sz else 0) s' -> r <> 0 -> 0 <= len -> wres s n sin blks buf p len a0 (r, a0) s'.
Proof.
  intros (sin'&blks'&l&W&Hl&Hr&HL&Hcase) Hne Hlen. cbn [fst snd] in *. rewrite (proj2 (Z.eqb_neq r 0)) in Hr by done. assert (l = 0) as -> by lia.
  exists sin', blks', 0. split; [done|]. cbn [fst snd]. split; [lia|]. split; [lia|]. split; [done|]. destruct Hcase as [[? _]|?]; [done|by right].
Qed.
Lemma wres_ok s n sin blks buf p sz s' r :
  wres s n sin blks buf p sz 0 (r, if r =? 0 then sz else 0) s' -> r = 0 ->
  exists sin' blks', wrote s s' n sin sin' blks blks' buf p sz /\ Z.of_nat (length blks') = Z.max (Z.of_nat (length blks)) (needed (p + sz)) /\
    GInv s' /\ sins (priv s') !! n = Some sin' /\ frep s' (din sin') blks' /\ sfs_buffer (sfs s') = sfs_buffer (sfs s).
Proof.
  intros (sin'&blks'&l&W&Hl&Hr&HL&Hcase) ->. cbn [fst snd Z.eqb] in *. assert (l = sz) as -> by lia. exists sin', blks'.
  split; [done|]. split; [done|]. split; [apply W|]. split; [rewrite (w_sins _ _ _ _ _ _ _ _ _ _ W); apply lookup_insert_eq|]. split; [apply W|].
  apply (keeps_buffer _ _ _ _ _ _ (w_keeps _ _ _ _ _ _ _ _ _ _ W)).
Qed.

Lemma io_blocks_write_runs n k : forall s sin blks buf b alen,
  GInv s -> sins (priv s) !! n = Some sin -> frep s (din sin) blks -> ubuf s buf (BS * Z.of_nat k) ->
  0 <= b <= Z.of_nat (length blks) -> b + Z.of_nat k <= MAXBLKS ->
  runs (io_blocks dop_io k n buf b alen true) s (wres s n sin blks buf (BS * b) (BS * Z.of_nat k) alen).
Proof.
  induction k as [|k IH]; intros s sin blks buf b alen HG Hn HF Hub Hb Hle; cbn [io_blocks].
  { runs_steps. replace (BS * Z.of_nat 0) with 0 by lia. apply wres_done; [done..|]. unfold needed, SFS_BLKSIZE. mlia. }
  rewrite Nat2Z.inj_succ, Z.mul_succ_r in *. set (L := BS * Z.of_nat k) in *. assert (HL : 0 <= L) by (unfold L, SFS_BLKSIZE; lia).
  assert (Hub1 : ubuf s buf BS) by (pose proof (ubuf_part s buf _ 0 BS Hub) as Hp; rewrite Z.add_0_r in Hp; apply Hp; unfold SFS_BLKSIZE; lia).
  runs_steps. runs_by (io_part_write_runs s n sin blks (sfs_block_op dop_io true buf) buf BS b 0); [done|done|done|apply block_op_writer|done|lia|unfold SFS_BLKSIZE; lia|lia|lia|unfold SFS_BLKSIZE; lia|lia|].
  intros r s1 Hr. rewrite Z.add_0_r in Hr. destruct (Z.eqb_spec r 0) as [He|He]; cbn [negb].
  2:{ runs_steps. eapply wres_fail; [|done|unfold SFS_BLKSIZE; lia]. rewrite (proj2 (Z.eqb_neq r 0)) by done. exact Hr. }
  destruct (wres_ok s n sin blks buf (BS * b) BS s1 r) as (sin1&blks1&W&HLen&HG1&Hn1&HF1&Hsb); [by rewrite He; subst r|done|].
  rewrite u32_small by (destruct Hub as (?&?&_); unfold is_u32, SFS_BLKSIZE in *; lia).
  assert (Hnd : needed (BS * b + BS) = b + 1) by (unfold needed, SFS_BLKSIZE; mlia).
  runs_by (IH s1 sin1 blks1 (buf + BS) (b + 1) (alen + BS)); [done|done|done| |lia|lia|].
  - apply (ubuf_same s); [done|]. apply (ubuf_part s buf (L + BS)); [done|unfold SFS_BLKSIZE; lia|lia|done].
  - intros r2 s2 Hr2. rewrite (Z.add_comm L BS). eapply wres_step; [by rewrite Z.add_comm|unfold SFS_BLKSIZE; lia|unfold SFS_BLKSIZE; lia|done|exact W|exact HLen|reflexivity|].
    by replace (BS * b + BS) with (BS * (b + 1)) by lia.
Qed.

Lemma io_transfer_write_runs s n sin blks buf offset endpos :
  GInv s -> sins (priv s) !! n = Some sin -> frep s (din sin) blks -> 0 <= offset -> offset < endpos ->
  offset <= BS * Z.of_nat (length blks) -> endpos <= BS * MAXBLKS -> ubuf s buf (endpos - offset) ->
  runs (io_transfer dop_io n buf offset endpos true) s (wres s n sin blks buf offset (endpos - offset) 0).
Proof.
  intros HG Hn HF Ho Hlt Hin Hend Hub. destruct (pos_block offset Ho) as (Hom&Hoe&Hob). destruct (pos_block endpos ltac:(lia)) as (Hem&Hee&Heb).
  set (b0 := offset / BS) in *. set (b1 := endpos / BS) in *. set (o := offset mod BS) in *. set (t := endpos mod BS) in *.
  assert (Hrest : forall s1 sin1 blks1 buf1 b k alen, GInv s1 -> sins (priv s1) !! n = Some sin1 -> frep s1 (din sin1) blks1 -> 0 <= b <= Z.of_nat (length blks1) ->
    0 <= k -> b + k = b1 -> ubuf s1 buf1 (BS * k + t) ->
    runs (let! r := io_blocks dop_io (Z.to_nat k) n buf1 b alen true in
          if negb (fst r =? 0) then ret r
          else if negb (t =? 0) then
            let! e := io_part dop_io n (b + k) (fun i => sfs_buf_op dop_io true (u32 (buf1 + k * BS)) t i 0) in
            if negb (e =? 0) then ret (e, snd r) else ret (0, snd r + t)
          else ret r) s1
      (wres s1 n sin1 blks1 buf1 (BS * b) (BS * k + t) alen)).
  { intros s1 sin1 blks1 buf1 b k alen HG1 Hn1 HF1 Hb Hk Hbk Hub1. assert (HkB : 0 <= BS * k) by (unfold SFS_BLKSIZE in *; lia). runs_steps.
    runs_by (io_blocks_write_runs n (Z.to_nat k) s1 sin1 blks1 buf1 b alen); [done|done|done| |lia|unfold SFS_BLKSIZE in *; lia|].
    { rewrite Z2Nat.id by lia. pose proof (ubuf_part s1 buf1 _ 0 (BS * k) Hub1) as Hp. rewrite Z.add_0_r in Hp. apply Hp; lia. }
    rewrite Z2Nat.id by lia. intros r s2 (sin2&blks2&l&W&Hl&Hr&HL&Hcase). destruct Hcase as [[He ->]|[He Hsc]].
    2:{ rewrite He. replace (- E_NO_MEM =? 0) with false by done. cbn [negb]. runs_steps. exists sin2, blks2, l. split; [done|]. split; [lia|]. split; [done|]. split; [done|by right]. }
    rewrite He. cbn [negb Z.eqb]. assert (HG2 : GInv s2) by apply W.
    assert (Hn2 : sins (priv s2) !! n = Some sin2) by (rewrite (w_sins _ _ _ _ _ _ _ _ _ _ W); apply lookup_insert_eq).
    pose proof (w_rep _ _ _ _ _ _ _ _ _ _ W) as HF2. destruct (keeps_buffer _ _ _ _ _ _ (w_keeps _ _ _ _ _ _ _ _ _ _ W)) as [Hsb _].
    assert (Hneed : needed (BS * b + BS * k) = b + k) by (unfold needed, SFS_BLKSIZE; mlia).
    destruct (Z.eqb_spec t 0) as [Ht|Ht]; cbn [negb].
    - runs_steps. exists sin2, blks2, (BS * k). rewrite Ht, Z.add_0_r. split; [done|]. split; [lia|]. split; [done|]. split; [done|by left].
    - replace (u32 (buf1 + k * BS)) with (buf1 + BS * k) by (destruct Hub1 as (?&?&_); rewrite u32_small; unfold is_u32, SFS_BLKSIZE in *; lia).
      assert (Hub2 : ubuf s2 (buf1 + BS * k) t) by (apply (ubuf_same s1); [done|]; apply (ubuf_part s1 buf1 _ _ _ Hub1); lia).
      runs_steps. runs_by (io_part_write_runs s2 n sin2 blks2 (fun i => sfs_buf_op dop_io true (buf1 + BS * k) t i 0) (buf1 + BS * k) t (b + k) 0); [done|done|done|apply buf_op_writer; unfold SFS_BLKSIZE in *; lia|done|lia|unfold SFS_BLKSIZE in *; lia|unfold SFS_BLKSIZE in *; lia|lia|lia|unfold SFS_BLKSIZE in *; lia|].
      intros e s3 He3. replace (BS * (b + k) + 0) with (BS * b + BS * k) in He3 by lia. rewrite Hr. destruct (Z.eqb_spec e 0) as [Hez|Hez]; cbn [negb]; runs_steps.
      + eapply wres_step; [done|unfold SFS_BLKSIZE in *; lia|lia|lia|exact W|done|reflexivity|]. destruct He3 as (sin3&blks3&l3&W3&Hl3&Hr3&HL3&Hc3). cbn [fst snd] in *.
        exists sin3, blks3, l3. split; [done|]. split; [done|]. cbn [fst snd]. split; [lia|]. split; [done|]. left. split; [done|lia].
      + eapply wres_step; [done|unfold SFS_BLKSIZE in *; lia|lia|lia|exact W|done|reflexivity|]. eapply wres_fail; [|done|lia]. rewrite (proj2 (Z.eqb_neq e 0)) by done. exact He3. }
  unfold io_transfer. fold b0 b1 o t. destruct (Z.eqb_spec o 0) as [Hz|Hnz]; cbn [negb].
  - runs_by (Hrest s sin blks buf b0 (b1 - b0) 0); [done|done|done|unfold SFS_BLKSIZE in *; lia|unfold SFS_BLKSIZE in *; lia|lia| |].
    { replace (BS * (b1 - b0) + t) with (endpos - offset) by lia. done. }
    intros r s' Hr. replace (BS * (b1 - b0) + t) with (endpos - offset) in Hr by lia. by replace (BS * b0) with offset in Hr by lia.
  - set (sz := if negb (b1 - b0 =? 0) then BS - o else endpos - offset). assert (Hsz : 0 < sz /\ o + sz <= BS /\ sz <= endpos - offset).
    { unfold sz. destruct (Z.eqb_spec (b1 - b0) 0); cbn [negb]; unfold SFS_BLKSIZE in *; lia. }
    assert (Hsz0 : sz = if decide (b1 - b0 = 0) then endpos - offset else BS - o) by (unfold sz; destruct (Z.eqb_spec (b1 - b0) 0), (decide (b1 - b0 = 0)); done).
    clearbody sz. runs_steps. assert (Hub0 : ubuf s buf sz) by (pose proof (ubuf_part s buf _ 0 sz Hub) as Hp; rewrite Z.add_0_r in Hp; apply Hp; lia).
    runs_by (io_part_write_runs s n sin blks (fun i => sfs_buf_op dop_io true buf sz i o) buf sz b0 o); [done|done|done|apply buf_op_writer; lia|done|lia|lia|unfold SFS_BLKSIZE in *; lia|lia|lia|lia|].
    intros e s1 Hr. rewrite <-Hoe in Hr. destruct (Z.eqb_spec e 0) as [Hez|Hez]; cbn [negb].
    2:{ runs_steps. eapply wres_fail; [|done|lia]. rewrite (proj2 (Z.eqb_neq e 0)) by done. exact Hr. }
    destruct (wres_ok s n sin blks buf offset sz s1 e) as (sin1&blks1&W&HL&HG1&Hn1&HF1&Hsb); [by rewrite Hez; subst e|done|].
    destruct (Z.eqb_spec (b1 - b0) 0) as [He|He].
    + runs_steps. rewrite decide_True in Hsz0 by done. exists sin1, blks1, sz. cbn [fst snd]. split; [done|]. split; [lia|]. split; [lia|]. split; [done|by left].
    + rewrite decide_False in Hsz0 by done. subst sz. rewrite u32_small by (destruct Hub as (?&?&_); unfold is_u32, SFS_BLKSIZE in *; lia).
      assert (Hlen : endpos - offset = BS - o + (BS * (b1 - b0 - 1) + t)) by lia.
      assert (Hneed : needed (offset + (BS - o)) = b0 + 1) by (replace (offset + (BS - o)) with (BS * (b0 + 1)) by lia; unfold needed, SFS_BLKSIZE; mlia).
      runs_by (Hrest s1 sin1 blks1 (buf + (BS - o)) (b0 + 1) (b1 - b0 - 1) (BS - o)); [done|done|done|lia|unfold SFS_BLKSIZE in *; lia|lia| |].
      { apply (ubuf_same s); [done|]. apply (ubuf_part s buf _ _ _ Hub); lia. }
      intros r s2 Hr2. rewrite Hlen. eapply wres_step; [by rewrite <-Hlen|done|lia|unfold SFS_BLKSIZE in *; lia|exact W|done|reflexivity|].
      by replace (offset + (BS - o)) with (BS * (b0 + 1)) by lia.
Qed.
Lemma needed_bounds q : 0 <= q -> BS * (needed q - 1) < q <= BS * needed q /\ 0 <= needed q.
Proof. unfold needed, SFS_BLKSIZE. intros. repeat split; mlia. Qed.

(** [r] bytes were written at [offset]: the file is longer if they end behind it. *)
Definition extended s s' n sin blks (buf offset r : Z) : Prop :=
  exists sin' blks', FileAt s' n sin' blks' /\ sins (priv s') = <[n := sin']> (sins (priv s)) /\
    ino sin' = ino sin /\ din_type (din sin') = din_type (din sin) /\ din_nlinks (din sin') = din_nlinks (din sin) /\
    size (din sin') = Z.max (size (din sin)) (offset + r) /\ keeps nowhere (fun k => k ∈ own (din sin) blks) s s' /\
    (forall q, 0 <= q -> fbyte s' blks' q = if decide (offset <= q < offset + r) then fmem s (buf + (q - offset)) else fbyte s blks q).

Lemma frep_size s d blks z : frep s d blks -> frep s (set_size z d) blks.
Proof. intros [? ? ? ? ? ? ?]. by split. Qed.

Lemma FileAt_sins s n sin blks sin' v :
  GInv s -> frep s (din sin) blks -> v !! n = Some sin' -> (exists z, din sin' = set_size z (din sin)) -> din_type (din sin) <> SFS_TYPE_DIR ->
  0 <= size (din sin') -> BS * (Z.of_nat (length blks) - 1) < size (din sin') <= BS * Z.of_nat (length blks) ->
  FileAt (set_priv (set_sins v (priv s)) s) n sin' blks.
Proof.
  intros HG HF Hv [z Hd] Hty H0 Hs. split; [by apply GInv_sins|done| |by rewrite Hd|done]. apply frep_sins. rewrite Hd. by apply frep_size.
Qed.

Lemma fbyte_sins s v blks q : fbyte (set_priv (set_sins v (priv s)) s) blks q = fbyte s blks q.
Proof. done. Qed.

Lemma io_write_runs s n sin blks buf offset len :
  FileAt s n sin blks -> 0 <= offset <= size (din sin) -> 0 < len -> offset + len <= BS * MAXBLKS -> ubuf s buf len ->
  runs (sfs_io_nolock dop_io n buf offset len true) s (fun r s' => 0 <= snd r <= len /\
    ((fst r = 0 /\ snd r = len) \/ (fst r = - E_NO_MEM /\ scarce s')) /\ extended s s' n sin blks buf offset (snd r)).
Proof.
  intros [HG Hn HF Hty Hsz] Ho Hl Hol Hub. pose proof (fr_blocks _ _ _ _ _ HF) as [Hbl Hbm]. unfold sfs_io_nolock. runs_steps. eapply rd_sin_runs; [exact Hn|]. runs_steps.
  assert (HMB : BS * MAXBLKS = 4243456) by done.
  apply runs_assert; [apply negb_true_iff, Z.eqb_neq; done|]. rewrite s32_small by lia. unfold SFS_MAX_FILE_SIZE.
  rewrite (proj2 (Z.ltb_ge offset 0)), (proj2 (Z.leb_gt (1024 * 1024 * 128) offset)), (proj2 (Z.ltb_ge (offset + len) offset)) by lia. cbn [orb].
  rewrite (proj2 (Z.eqb_neq offset (offset + len))) by lia. cbn [negb andb]. rewrite (proj2 (Z.ltb_ge (1024 * 1024 * 128) (offset + len))) by lia.
  runs_steps. runs_by (io_transfer_write_runs s n sin blks buf offset (offset + len)); [done|done|done|lia|lia|lia|lia|by replace (offset + len - offset) with len by lia|].
  replace (offset + len - offset) with len by lia. intros r s1 (sin1&blks1&l&W&Hll&Hr&HL&Hcase). rewrite Z.add_0_l in Hr.
  assert (Hn1 : sins (priv s1) !! n = Some sin1) by (rewrite (w_sins _ _ _ _ _ _ _ _ _ _ W); apply lookup_insert_eq).
  pose proof (w_same _ _ _ _ _ _ _ _ _ _ W) as (Hino&_&Hsize&Htype&Hlink). pose proof (w_rep _ _ _ _ _ _ _ _ _ _ W) as HF1. pose proof (w_g _ _ _ _ _ _ _ _ _ _ W) as HG1.
  destruct (needed_bounds (offset + l) ltac:(lia)) as [Hnb Hn0]. runs_steps. eapply rd_sin_runs; [exact Hn1|]. rewrite Hr, Hsize. destruct (Z.ltb_spec (size (din sin)) (offset + l)) as [Hgrow|Hfit].
  - unfold upd_din. runs_steps. eapply upd_sin_runs; [exact Hn1|]. runs_steps. eapply upd_sin_runs; [by apply lookup_insert_eq|].
    cbn [sins priv set_priv set_sins]. rewrite insert_insert_eq. fold_sins s1 s2. runs_steps. rewrite Hr. split; [lia|]. split.
    { destruct Hcase as [[? ->]|[? Hsc]]; [by left|right]. split; [done|]. exact Hsc. }
    exists (set_dirty true (set_din (set_size (offset + l) (din sin1)) sin1)), blks1. split; [|split; [unfold s2; cbn; by rewrite (w_sins _ _ _ _ _ _ _ _ _ _ W), insert_insert_eq|]].
    + apply (FileAt_sins s1 n sin1); [done|done|by apply lookup_insert_eq|by eexists|by rewrite Htype|cbn; lia|cbn [din set_dirty set_din size set_size]; unfold SFS_BLKSIZE in *; lia].
    + cbn [din set_dirty set_din size set_size ino din_type din_nlinks]. split; [done|]. split; [done|]. split; [done|]. split; [lia|].
      split; [apply keeps_then_sins; apply W|]. intros q Hq. unfold s2. rewrite fbyte_sins. by apply W.
  - runs_steps. rewrite Hr. split; [lia|]. split; [destruct Hcase as [[? ->]|[? Hsc]]; [by left|by right]|].
    exists sin1, blks1. split; [|split; [apply W|]].
    + split; [done|done|done|by rewrite Htype|]. rewrite Hsize. unfold SFS_BLKSIZE in *; lia.
    + split; [done|]. split; [done|]. split; [done|]. split; [lia|]. split; [apply W|]. intros q Hq. by apply W.
Qed.

(** ** Sequences of bytes *)

Lemma seqZ_split {A} (f : Z -> A) a n k : 0 <= k <= n -> f <$> seqZ a n = (f <$> seqZ a k) ++ (f <$> seqZ (a + k) (n - k)).
Proof. intros Hk. rewrite <-fmap_app, <-seqZ_app by lia. do 2 f_equal. lia. Qed.
Lemma take_seqZ {A} (f : Z -> A) a n k : 0 <= k <= n -> take (Z.to_nat k) (f <$> seqZ a n) = f <$> seqZ a k.
Proof. intros Hk. rewrite (seqZ_split f a n k) by done. rewrite take_app_length'; [done|]. by rewrite length_fmap, length_seqZ. Qed.
Lemma drop_seqZ {A} (f : Z -> A) a n k : 0 <= k <= n -> drop (Z.to_nat k) (f <$> seqZ a n) = f <$> seqZ (a + k) (n - k).
Proof. intros Hk. rewrite (seqZ_split f a n k) by done. rewrite drop_app_length'; [done|]. by rewrite length_fmap, length_seqZ. Qed.
Lemma fmap_seqZ_ext {A} (f g : Z -> A) a b n : (forall i, 0 <= i < n -> f (a + i) = g (b + i)) -> f <$> seqZ a n = g <$> seqZ b n.
Proof.
  intros H. apply list_eq. intros i. rewrite !list_lookup_fmap. destruct (decide (Z.of_nat i < n)) as [Hi|Hi].
  - rewrite (proj2 (lookup_seqZ a n i (a + Z.of_nat i))), (proj2 (lookup_seqZ b n i (b + Z.of_nat i))) by lia. cbn. by rewrite H by lia.
  - rewrite !lookup_seqZ_ge by lia. done.
Qed.

Lemma content_splice s s' sin sin' blks blks' buf offset l :
  0 <= offset <= size (din sin) -> 0 <= l -> size (din sin') = Z.max (size (din sin)) (offset + l) ->
  (forall q, 0 <= q -> fbyte s' blks' q = if decide (offset <= q < offset + l) then fmem s (buf + (q - offset)) else fbyte s blks q) ->
  content s' sin' blks' = take (Z.to_nat offset) (content s sin blks) ++ peek (fmem s) buf l ++ drop (Z.to_nat (offset + l)) (content s sin blks).
Proof.
  intros Ho Hl Hsz Hb. unfold content. rewrite Hsz. set (z := size (din sin)) in *. rewrite take_seqZ by done.
  rewrite (seqZ_split _ 0 (Z.max z (offset + l)) offset) by lia. rewrite (seqZ_split _ (0 + offset) (Z.max z (offset + l) - offset) l) by lia. f_equal; [|f_equal].
  - apply fmap_seqZ_ext. intros i Hi. rewrite Hb by lia. by rewrite decide_False by lia.
  - unfold peek. apply fmap_seqZ_ext. intros i Hi. rewrite Hb by lia. rewrite decide_True by lia. f_equal. lia.
  - destruct (decide (offset + l <= z)) as [Hle|Hgt].
    + rewrite drop_seqZ by lia. replace (Z.max z (offset + l) - offset - l) with (z - (offset + l)) by lia.
      apply fmap_seqZ_ext. intros i Hi. rewrite Hb by lia. rewrite decide_False by lia. f_equal.
    + replace (Z.max z (offset + l) - offset - l) with 0 by lia. rewrite drop_ge by (rewrite length_fmap, length_seqZ; lia). done.
Qed.

(** Another file, with blocks of its own, does not notice. *)
Lemma FileAt_keeps s s' R W m sin blks :
  GInv s' -> keeps R W s s' -> sins (priv s') !! m = sins (priv s) !! m -> (forall k, k ∈ own (din sin) blks -> ~ W k) ->
  FileAt s m sin blks -> FileAt s' m sin blks /\ content s' sin blks = content s sin blks.
Proof.
  intros HG' HK Hm HW [HG Hn HF Hty Hsz]. split; [split; [done|by rewrite Hm|by eapply frep_keeps|done|done]|].
  apply fmap_seqZ_ext. intros i Hi. unfold fbyte. destruct (blks !! Z.to_nat ((0 + i) / BS)) as [k|] eqn:Hk; [|done].
  assert (Hin : k ∈ own (din sin) blks) by (by eapply own_blks, list_elem_of_lookup_2).
  apply (kp_dsk _ _ _ _ _ _ HK); [by apply (fr_used _ _ _ _ _ HF)|by apply HW|apply pos_block; lia].
Qed.

(** ** Theorems *)

Lemma io_read_content s n sin blks buf offset len :
  FileAt s n sin blks -> 0 <= offset < SFS_MAX_FILE_SIZE -> 0 <= len -> offset + len < 2147483648 -> ubuf s buf len ->
  runs (sfs_io_nolock dop_io n buf offset len false) s (fun r s' =>
    fst r = 0 /\ FileAt s' n sin blks /\ content s' sin blks = content s sin blks /\
    peek (fmem s') buf (snd r) = take (Z.to_nat len) (drop (Z.to_nat offset) (content s sin blks)) /\
    keeps (range buf len) nowhere s s').
Proof.
  intros HA Ho Hl Hol Hub. runs_by (io_read_runs s n sin blks buf offset len HA); [lia|lia|lia|lia|done|]. intros r s' (He&Hr&Ht&Hf).
  pose proof (fa_size _ _ _ _ HA) as [Hz0 _]. assert (HK : keeps (range buf len) nowhere s s').
  { eapply touch_keeps; [apply HA|exact Ht|unfold range; intros; lia|done]. }
  destruct (FileAt_keeps s s' (range buf len) nowhere n sin blks) as [HA' Hc]; [eapply touch_GInv; [exact Ht|apply HA]|exact HK|by rewrite (to_st _ _ _ _ _ _ Ht)|intros k _ []|done|].
  split; [done|]. split; [done|]. split; [done|]. split; [|done]. destruct (decide (size (din sin) <= offset)) as [Hge|Hlt].
  - rewrite Hr. replace (Z.max 0 _) with 0 by lia. rewrite drop_ge; [by rewrite take_nil|]. unfold content. rewrite length_fmap, length_seqZ. lia.
  - unfold content. rewrite drop_seqZ by lia. destruct (decide (len <= size (din sin) - offset)).
    + rewrite take_seqZ by lia. replace (snd r) with len in * by lia. unfold peek. apply fmap_seqZ_ext. intros i Hi. rewrite Hf by lia. f_equal.
    + rewrite take_ge by (rewrite length_fmap, length_seqZ; lia). replace (snd r) with (size (din sin) - offset) in * by lia. unfold peek. apply fmap_seqZ_ext. intros i Hi. rewrite Hf by lia. f_equal.
Qed.

(** C6: Reading [len] bytes at [offset] delivers the bytes of the file there, as many as
    it has, and changes neither the file system nor any memory but the caller's
    buffer and the block buffer. *)
Theorem sfs_read_content s n sin blks buf offset len :
  FileAt s n sin blks -> 0 <= offset < SFS_MAX_FILE_SIZE -> 0 <= len -> offset + len < 2147483648 -> ubuf s buf len ->
  runs (sfs_io_nolock dop_io n buf offset len false) s (fun r s' =>
    fst r = 0 /\ FileAt s' n sin blks /\ content s' sin blks = content s sin blks /\
    peek (fmem s') buf (snd r) = take (Z.to_nat len) (drop (Z.to_nat offset) (content s sin blks)) /\
    keeps (range buf len) nowhere s s').
Proof. apply io_read_content. Qed.

(** The other files keep their blocks and their content. *)
Definition others_kept s s' n sin blks : Prop :=
  forall m sm bm, m <> n -> FileAt s m sm bm -> (forall k, k ∈ own (din sm) bm -> k ∉ own (din sin) blks) ->
    FileAt s' m sm bm /\ content s' sm bm = content s sm bm.

Lemma keeps_others s s' n sin sin' blks :
  GInv s' -> keeps nowhere (fun k => k ∈ own (din sin) blks) s s' -> sins (priv s') = <[n := sin']> (sins (priv s)) -> others_kept s s' n sin blks.
Proof. intros HG HK Hs m sm bm Hne HAm Hdis. eapply FileAt_keeps; [exact HG|exact HK|by rewrite Hs, lookup_insert_ne|done|done]. Qed.

(** C5: Writing [len] bytes at a position inside the file or at its end replaces the
    bytes there and appends what lies behind the end.  It stops short, with
    [-E_NO_MEM] and the prefix it has written, only when the disk is full.  Every
    other file keeps its bytes. *)
Theorem sfs_write_content s n sin blks buf offset len :
  FileAt s n sin blks -> 0 <= offset <= size (din sin) -> 0 < len -> offset + len <= BS * MAXBLKS -> ubuf s buf len ->
  runs (sfs_io_nolock dop_io n buf offset len true) s (fun r s' => exists sin' blks',
    0 <= snd r <= len /\ ((fst r = 0 /\ snd r = len) \/ (fst r = - E_NO_MEM /\ scarce s')) /\
    FileAt s' n sin' blks' /\
    content s' sin' blks' = take (Z.to_nat offset) (content s sin blks) ++ peek (fmem s) buf (snd r) ++ drop (Z.to_nat (offset + snd r)) (content s sin blks) /\
    others_kept s s' n sin blks).
Proof.
  intros HA Ho Hl Hol Hub. runs_by (io_write_runs s n sin blks buf offset len HA); [done|done|done|done|].
  intros r s' (Hr&Hcase&sin'&blks'&HA'&Hs&_&_&_&Hsz&HK&Hb). exists sin', blks'. split; [done|]. split; [done|]. split; [done|]. split.
  - apply content_splice; [done|lia|done|done].
  - by eapply keeps_others; [apply HA'|..].
Qed.
End Contents.
