(* ===== verification/SfsTrunc.v ===== *)
(** * The simple file system: truncation, directories

    [sfs_truncfile] sets the length of a file; directories are files of one entry
    per block, searched from the first block on. *)

From stdpp Require Import base gmap list.
From Stdlib Require Import ZArith Lia Bool.
From S2P Require Import Prelude.
From S2P Require Import Vmm.
From S2P Require Import Vfs.
From S2P Require Import Bitmap.
From S2P Require Import Sfs.
From S2P Require Import SfsInv.
From S2P Require Import SfsThm.
From S2P Require Import SfsIo.

Section Trunc.
Context {D : Type} (dop_io : iobuf -> bool -> M (fst_ (sfsx D)) (Z * iobuf)) (d0 : D) `{!BlockDev dop_io d0}.
Abbreviation st := (fst_ (sfsx D)).
Abbreviation sfs s := (xsfs (priv s)).
Abbreviation GInv := (GInv dop_io d0).
Abbreviation keeps := (keeps dop_io d0).
Abbreviation touch := (touch dop_io d0).
Abbreviation dsk := (dsk dop_io d0).
Abbreviation frep := (frep dop_io d0).
Abbreviation fbyte := (fbyte dop_io d0).
Abbreviation FileAt := (FileAt dop_io d0).
Abbreviation content := (content dop_io d0).
Abbreviation wrote := (wrote dop_io d0).
Abbreviation others_kept := (others_kept dop_io d0).
Abbreviation BS := SFS_BLKSIZE.
Implicit Types (s : st) (blks : list Z).

(** [vop_info] and [vop_fs] of an inode of SFS succeed. *)
Definition sfs_node s n : Prop := exists i, inodes s !! n = Some i /\ in_type i = inode_type_sfs_inode_info /\ is_Some (in_fs i).

Lemma check_fs_runs s n (Q : unit -> st -> Prop) : sfs_node s n -> Q tt s -> runs (check_fs n) s Q.
Proof.
  intros (i&Hi&_&Hf) HQ. unfold check_fs, rd_inode. runs_steps. eapply runs_deref; [exact Hi|]. apply runs_assert; [by apply bool_decide_eq_true|done].
Qed.
Lemma vop_info_runs s n sin Q : sfs_node s n -> sins (priv s) !! n = Some sin -> Q sin s -> runs (vop_info_sfs n) s Q.
Proof.
  intros (i&Hi&Ht&_) Hn HQ. unfold vop_info_sfs, rd_inode. runs_steps. eapply runs_deref; [exact Hi|]. runs_steps.
  apply runs_assert; [by apply Z.eqb_eq|]. by eapply rd_sin_runs.
Qed.

(** ** Growing and shrinking *)

Lemma ubuf_empty s : ubuf dop_io d0 s 0 0.
Proof. split; [lia|]. split; [done|]. intros x Hx. unfold range in Hx. lia. Qed.

Lemma grow_loop_runs n k : forall s sin blks,
  GInv s -> sins (priv s) !! n = Some sin -> frep s (din sin) blks -> Z.of_nat (length blks) + Z.of_nat k <= MAXBLKS ->
  runs (grow_loop dop_io k n (Z.of_nat (length blks))) s (fun r s' => exists sin' blks', wrote s s' n sin sin' blks blks' 0 0 0 /\
    ((r = 0 /\ length blks' = (length blks + k)%nat) \/ (r = - E_NO_MEM /\ scarce s'))).
Proof.
  induction k as [|k IH]; intros s sin blks HG Hn HF Hmx; cbn [grow_loop].
  { runs_steps. exists sin, blks. split; [by eapply wrote_nothing; [..|apply touch_refl|intros x []]|]. left. split; [done|lia]. }
  runs_steps. runs_by (bmap_load_new_runs dop_io d0 s n sin blks HG Hn HF); [lia|]. intros r s1 Ha. pose proof (proj1 Ha) as HG1.
  destruct (wrote_adds _ _ s s1 n sin blks 0 0 r HG Hn HF Ha) as [(He&Hsc&HK&W)|(He&sin1&W)]; rewrite He.
  - replace (- E_NO_MEM =? 0) with false by done. cbn [negb]. runs_steps. exists sin, blks. split; [done|]. right. split; [done|]. by apply (scarce_keeps dop_io d0 s s1).
  - cbn [negb Z.eqb]. assert (Hn1 : sins (priv s1) !! n = Some sin1) by (rewrite (w_sins _ _ _ _ _ _ _ _ _ _ _ _ W); apply lookup_insert_eq).
    assert (Hl : length (blks ++ [snd r]) = S (length blks)) by (rewrite length_app; cbn; lia).
    replace (Z.of_nat (length blks) + 1) with (Z.of_nat (length (blks ++ [snd r]))) by lia.
    runs_by (IH s1 sin1 (blks ++ [snd r]) HG1 Hn1 (w_rep _ _ _ _ _ _ _ _ _ _ _ _ W)); [lia|]. intros e s2 (sin2&blks2&W2&Hc). exists sin2, blks2. split.
    + apply (wrote_trans dop_io d0 s s1 s2 n sin sin1 sin2 blks (blks ++ [snd r]) blks2 0 0 0 0); [apply ubuf_empty|lia|lia|lia|done|done].
    + destruct Hc as [[-> Hlen]|?]; [left|by right]. split; [done|]. lia.
Qed.

(** What dropping blocks leaves of the file. *)
Definition cut s s' n sin blks blks' : Prop :=
  GInv s' /\ keeps nowhere (fun k => k ∈ own (din sin) blks) s s' /\
  (forall q, 0 <= q < BS * Z.of_nat (length blks') -> fbyte s' blks' q = fbyte s blks q) /\
  exists sin', sins (priv s') = <[n := sin']> (sins (priv s)) /\ same_file sin sin' /\ indirect (din sin') = indirect (din sin) /\
    disk_ledger s (own (din sin) blks) s' (own (din sin') blks') /\ frep s' (din sin') blks'.

Lemma shrink_loop_runs n k : forall s sin blks,
  GInv s -> sins (priv s) !! n = Some sin -> frep s (din sin) blks -> (k <= length blks)%nat ->
  runs (shrink_loop dop_io k n) s (fun r s' => r = 0 /\ cut s s' n sin blks (take (length blks - k) blks)).
Proof.
  induction k as [|k IH]; intros s sin blks HG Hn HF Hk; cbn [shrink_loop].
  { runs_steps. split; [done|]. rewrite take_ge by lia. split; [done|]. split; [apply keeps_refl|]. split; [done|]. exists sin. split; [by rewrite insert_id|]. split; [done|]. split; [done|]. split; [apply disk_ledger_same; [apply (fr_used _ _ _ _ _ HF)|done]|done]. }
  destruct blks as [|x blks] using rev_ind; [cbn in Hk; lia|]. clear IHblks. rewrite length_app in *. cbn [length] in *. rename x into kb.
  runs_steps. runs_by (bmap_truncate_runs dop_io d0 s n sin blks kb HG Hn HF). intros r s1 (->&HG1&_&HK1&sin1&Hs1&Hsame1&_&Hind&Hld1&HF1). cbn [negb Z.eqb].
  assert (Hn1 : sins (priv s1) !! n = Some sin1) by (rewrite Hs1; apply lookup_insert_eq).
  assert (Hown : forall k0, k0 ∈ own (din sin1) blks -> k0 ∈ own (din sin) (blks ++ [kb])).
  { intros k0. unfold own. rewrite Hind. rewrite !elem_of_app. tauto. }
  assert (HK1' : keeps nowhere (fun k0 => k0 ∈ own (din sin) (blks ++ [kb])) s s1).
  { destruct HK1 as [? ? ? Hu Hd]. assert (Hz : forall k0, used s k0 -> k0 ∉ own (din sin) (blks ++ [kb]) -> ~ (k0 = kb \/ k0 = indirect (din sin))).
    { intros k0 Hu0 Hno [-> | ->]; apply Hno; [apply own_blks, elem_of_app; right; by apply list_elem_of_singleton|]. apply own_indirect. destruct Hu0. lia. }
    split; try done; intros; [apply Hu|apply Hd]; auto. }
  assert (Hfb : forall q, 0 <= q < BS * Z.of_nat (length blks) -> fbyte s1 blks q = fbyte s (blks ++ [kb]) q).
  { intros q Hq. destruct (pos_block q ltac:(lia)) as (Hm&Hqe&Hqb). unfold SfsIo.fbyte. assert (Hlt : (Z.to_nat (q / BS) < length blks)%nat) by (unfold SFS_BLKSIZE in *; lia).
    rewrite lookup_app_l by done. destruct (lookup_lt_is_Some_2 _ _ Hlt) as [k0 Hk0]. rewrite Hk0. assert (Hin : k0 ∈ blks) by (by eapply list_elem_of_lookup_2).
    pose proof (fr_nodup _ _ _ _ _ HF) as Hnd. apply NoDup_app in Hnd as [Hnd _]. apply NoDup_app in Hnd as (_&Hdis&_).
    apply (kp_dsk _ _ _ _ _ _ HK1); [apply (fr_used _ _ _ _ _ HF), own_blks, elem_of_app; by left| |done].
    intros [-> | ->]; [by apply (Hdis kb Hin), list_elem_of_singleton|]. eapply (blks_not_indirect dop_io d0); [exact HF|apply elem_of_app; by left|done]. }
  runs_by (IH s1 sin1 blks HG1 Hn1 HF1); [lia|]. intros r s2 (->&HG2&HK2&Hf2&sin2&Hs2&Hsame2&Hind2&Hld2&HF2). split; [done|].
  replace (length blks + 1 - S k)%nat with (length blks - k)%nat by lia. rewrite take_app_le by lia. split; [done|]. split; [|split].
  - eapply keeps_trans; [exact HK1'|exact HK2|done|done|]. intros k0 _ Hk0. by apply Hown.
  - intros q Hq. rewrite Hf2 by done. apply Hfb. rewrite length_take in Hq. unfold SFS_BLKSIZE in *. lia.
  - exists sin2. split; [by rewrite Hs2, Hs1, insert_insert_eq|]. split; [by eapply same_file_trans|]. split; [by rewrite Hind2|]. split; [by eapply disk_ledger_trans|done].
Qed.
Lemma roundup_needed len : 0 <= len <= 2147483647 -> ROUNDUP_DIV_2N len SFS_BLKSIZE_SHIFT = needed len.
Proof.
  intros Hl. unfold ROUNDUP_DIV_2N, SFS_BLKSIZE_SHIFT, needed, SFS_BLKSIZE. change (Z.shiftl 1 12) with 4096.
  rewrite u32_small by (unfold is_u32, W32; lia). rewrite Z.shiftr_div_pow2 by lia. done.
Qed.

(** The file [n] has length [len]: its old bytes, with zeros for the blocks it did
    not have; a file that is cut has its first blocks. *)
Definition resized s s' n sin blks (len : Z) : Prop :=
  exists sin' blks', FileAt s' n sin' blks' /\ size (din sin') = len /\ sins (priv s') = <[n := sin']> (sins (priv s)) /\
    keeps nowhere (fun k => k ∈ own (din sin) blks) s s' /\ content s' sin' blks' = fbyte s blks <$> seqZ 0 len /\
    disk_ledger s (own (din sin) blks) s' (own (din sin') blks') /\
    (needed len <= Z.of_nat (length blks) -> blks' = take (Z.to_nat (needed len)) blks /\ indirect (din sin') = indirect (din sin)).

(** The end of [sfs_truncfile]: the size is stored. *)
Lemma truncate_finish s s1 n sin sin1 blks blks1 len :
  GInv s1 -> sins (priv s1) = <[n := sin1]> (sins (priv s)) -> same_file sin sin1 -> frep s1 (din sin1) blks1 -> din_type (din sin) <> SFS_TYPE_DIR ->
  keeps nowhere (fun k => k ∈ own (din sin) blks) s s1 -> 0 <= len -> Z.of_nat (length blks1) = needed len ->
  (forall q, 0 <= q < len -> fbyte s1 blks1 q = fbyte s blks q) -> disk_ledger s (own (din sin) blks) s1 (own (din sin1) blks1) ->
  (needed len <= Z.of_nat (length blks) -> blks1 = take (Z.to_nat (needed len)) blks /\ indirect (din sin1) = indirect (din sin)) ->
  runs (let! sin := rd_sin n in
        do! assert_ (blocks (din sin) =? needed len) in
        do! upd_din n (set_size len) in
        do! upd_sin n (set_dirty true) in ret 0) s1 (fun r s' => r = 0 /\ resized s s' n sin blks len).
Proof.
  intros HG1 Hs1 (_&_&_&Hty1&_) HF1 Hty HK Hl HL Hb Hled Hcut. assert (Hn1 : sins (priv s1) !! n = Some sin1) by (rewrite Hs1; apply lookup_insert_eq).
  pose proof (fr_blocks _ _ _ _ _ HF1) as [Hbl _]. destruct (needed_bounds len Hl) as [Hnb _]. runs_steps. eapply rd_sin_runs; [exact Hn1|]. runs_steps. apply runs_assert; [apply Z.eqb_eq; lia|].
  unfold upd_din. runs_steps. eapply upd_sin_runs; [exact Hn1|]. runs_steps. eapply upd_sin_runs; [by apply lookup_insert_eq|].
  cbn [sins priv set_priv set_sins]. rewrite insert_insert_eq. fold_sins s1 s2. runs_steps. split; [done|].
  exists (set_dirty true (set_din (set_size len (din sin1)) sin1)), blks1. split; [|split; [done|split; [unfold s2; cbn; by rewrite Hs1, insert_insert_eq|split; [|split; [|by split]]]]].
  - apply (FileAt_sins dop_io d0 s1 n sin1); [done|done|by apply lookup_insert_eq|by eexists|by rewrite Hty1|done|cbn [din set_dirty set_din size set_size]; rewrite HL; lia].
  - by apply keeps_then_sins.
  - unfold SfsIo.content. cbn [din set_dirty set_din size set_size]. apply fmap_seqZ_ext. intros i Hi. unfold s2. rewrite fbyte_sins. apply Hb. lia.
Qed.

Lemma truncfile_runs s n sin blks len :
  FileAt s n sin blks -> sfs_node s n -> 0 <= len <= BS * MAXBLKS ->
  runs (sfs_truncfile dop_io n len) s (fun r s' => (r = 0 /\ resized s s' n sin blks len) \/
    (r = - E_NO_MEM /\ size (din sin) < len /\ scarce s' /\ exists sin' blks', wrote s s' n sin sin' blks blks' 0 0 0)).
Proof.
  intros HA Hnode Hl. pose proof HA as [HG Hn HF Hty Hsz]. pose proof (fr_blocks _ _ _ _ _ HF) as [Hbl Hbm]. assert (HMB : BS * MAXBLKS = 4243456) by done.
  unfold sfs_truncfile, SFS_MAX_FILE_SIZE. rewrite (proj2 (Z.ltb_ge len 0)), (proj2 (Z.ltb_ge (1024 * 1024 * 128) len)) by lia. cbn [orb]. runs_steps.
  apply (check_fs_runs s n); [done|]. runs_steps. eapply vop_info_runs; [done|exact Hn|]. rewrite roundup_needed by lia.
  assert (Hneed : Z.of_nat (length blks) = needed (size (din sin))) by (unfold needed, SFS_BLKSIZE in *; mlia).
  destruct (Z.eqb_spec (size (din sin)) len) as [He|He].
  { runs_steps. apply runs_assert; [apply Z.eqb_eq; rewrite <-He; lia|]. runs_steps. left. split; [done|]. exists sin, blks.
    split; [done|]. split; [done|]. split; [by rewrite insert_id|]. split; [apply keeps_refl|]. unfold SfsIo.content. split; [by rewrite He|]. split; [apply disk_ledger_same; [apply (fr_used _ _ _ _ _ HF)|done]|]. intros _. rewrite <-He, <-Hneed, Nat2Z.id. by rewrite take_ge. }
  destruct (needed_bounds len ltac:(lia)) as [Hnb Hn0]. rewrite Hbl. runs_steps. destruct (Z.ltb_spec (Z.of_nat (length blks)) (needed len)) as [Hgrow|Hng].
  - runs_by (grow_loop_runs n (Z.to_nat (needed len - Z.of_nat (length blks))) s sin blks HG Hn HF); [unfold SFS_BLKSIZE in *; lia|].
    intros r s1 (sin1&blks1&W&[[-> HL]|[-> Hsc]]).
    + cbn [negb Z.eqb]. runs_by (truncate_finish s s1 n sin sin1 blks blks1 len); [apply W|apply W|apply W|apply W|done|apply W|lia|lia| |apply W|lia|].
      * intros q Hq. rewrite (w_bytes _ _ _ _ _ _ _ _ _ _ _ _ W) by lia. by rewrite decide_False by lia.
      * intros r s2 H2. by left.
    + replace (- E_NO_MEM =? 0) with false by done. cbn [negb]. runs_steps. right. split; [done|]. split; [unfold SFS_BLKSIZE in *; lia|]. split; [done|]. by exists sin1, blks1.
  - destruct (Z.ltb_spec (needed len) (Z.of_nat (length blks))) as [Hsh|Heq].
    + runs_by (shrink_loop_runs n (Z.to_nat (Z.of_nat (length blks) - needed len)) s sin blks HG Hn HF); [lia|].
      intros r s1 (->&HG1&HK1&Hf1&sin1&Hs1&Hsame1&Hind1&Hled1&HF1). cbn [negb Z.eqb].
      assert (HLen : Z.of_nat (length (take (length blks - Z.to_nat (Z.of_nat (length blks) - needed len)) blks)) = needed len) by (rewrite length_take; lia).
      runs_by (truncate_finish s s1 n sin sin1 blks _ len HG1 Hs1 Hsame1 HF1 Hty HK1 ltac:(lia) HLen); [|exact Hled1|intros _; split; [f_equal; lia|done]|intros r s2 H2; by left]. intros q Hq. apply Hf1. rewrite HLen. lia.
    + runs_steps. cbn [negb Z.eqb]. runs_by (truncate_finish s s n sin sin blks blks len); [done|by rewrite insert_id|done|done|done|apply keeps_refl|lia|lia|done|apply disk_ledger_same; [apply (fr_used _ _ _ _ _ HF)|done]|intros _; split; [by rewrite take_ge by lia|done]|intros r s2 H2; by left].
Qed.

(** A block that a file gives up is free. *)
Lemma given_up s s' o1 o2 R W : GInv s' -> keeps R W s s' -> (forall k, k ∈ o1 -> used s k) -> disk_ledger s o1 s' o2 -> forall k, k ∈ o1 -> k ∉ o2 -> free s' k.
Proof.
  intros HG HK Ho [Hl _] k Hk1 Hk2. destruct (Ho k Hk1) as [Hr _]. apply (free_used dop_io d0); [done|by rewrite (proj2 (keeps_buffer _ _ _ _ _ _ HK))|]. rewrite Hl. tauto.
Qed.

(** C30: [sfs_truncfile] cuts a file to its first [len] bytes or lengthens it: then the
    bytes up to the end of the last block it had are whatever the block holds, and
    the new blocks are zero.  A file that is cut keeps its first blocks and its indirect
    block; the blocks it gives up are free afterwards, and no other block is freed.
    Blocks a longer file takes were free, and no others are taken.  It fails only when the disk is full, and never loses
    a byte of a file it fails to lengthen; the blocks added before the failure stay
    with the file.  Other files are untouched. *)
Theorem sfs_truncate_content s n sin blks len :
  FileAt s n sin blks -> sfs_node s n -> 0 <= len <= BS * MAXBLKS ->
  runs (sfs_truncfile dop_io n len) s (fun r s' => others_kept s s' n sin blks /\ exists sin' blks',
    sins (priv s') !! n = Some sin' /\ frep s' (din sin') blks' /\
    disk_ledger s (own (din sin) blks) s' (own (din sin') blks') /\
    (forall k, k ∈ own (din sin) blks -> k ∉ own (din sin') blks' -> free s' k) /\
    ((r = 0 /\ FileAt s' n sin' blks' /\ size (din sin') = len /\
       (len <= size (din sin) -> blks' = take (Z.to_nat (needed len)) blks /\ indirect (din sin') = indirect (din sin)) /\
       take (Z.to_nat (size (din sin))) (content s' sin' blks') = take (Z.to_nat len) (content s sin blks) /\
       (forall q, BS * Z.of_nat (length blks) <= q < len -> content s' sin' blks' !! Z.to_nat q = Some 0)) \/
     (r = - E_NO_MEM /\ size (din sin) < len /\ scarce s' /\ content s' sin' blks' = content s sin blks))).
Proof.
  intros HA Hnode Hl. runs_by (truncfile_runs s n sin blks len HA Hnode Hl). pose proof (fa_size _ _ _ _ _ _ HA) as Hsz. pose proof HA as [_ _ HF _ _].
  intros r s' [[-> (sin'&blks'&HA'&Hs'&Hss&HK&Hc&Hled&Hcut)]|(->&Hlt&Hsc&sin'&blks'&W)].
  - split; [by eapply keeps_others; [apply HA'|..]|]. exists sin', blks'. split; [apply HA'|]. split; [apply HA'|]. split; [done|]. split; [eapply (given_up s s' (own (din sin) blks)); [apply HA'|exact HK|apply (fr_used _ _ _ _ _ HF)|done]|].
    left. split; [done|]. split; [done|]. split; [done|]. split; [intros Hle; apply Hcut; unfold needed, SFS_BLKSIZE in *; mlia|]. rewrite Hc. split.
    + unfold SfsIo.content. destruct (decide (len <= size (din sin))).
      * rewrite take_ge by (rewrite length_fmap, length_seqZ; lia). by rewrite take_seqZ by lia.
      * rewrite take_seqZ by lia. by rewrite take_ge by (rewrite length_fmap, length_seqZ; lia).
    + intros q Hq. rewrite list_lookup_fmap. assert (0 <= q) by (unfold SFS_BLKSIZE in *; lia). rewrite (proj2 (lookup_seqZ 0 len (Z.to_nat q) q)) by lia. cbn. f_equal. unfold SfsIo.fbyte.
      destruct (pos_block q ltac:(lia)) as (?&?&?). rewrite lookup_ge_None_2; [done|]. unfold SFS_BLKSIZE in *. lia.
  - split; [by eapply keeps_others; [apply W..]|]. exists sin', blks'. split; [rewrite (w_sins _ _ _ _ _ _ _ _ _ _ _ _ W); apply lookup_insert_eq|]. split; [apply W|]. split; [apply W|].
    split; [eapply (given_up s s' (own (din sin) blks)); [apply W|apply W|apply (fr_used _ _ _ _ _ HF)|apply W]|].
    right. split; [done|]. split; [done|]. split; [done|].
    pose proof (w_same _ _ _ _ _ _ _ _ _ _ _ _ W) as (_&_&Hsize&_). unfold SfsIo.content. rewrite Hsize. apply fmap_seqZ_ext. intros i Hi.
    rewrite (w_bytes _ _ _ _ _ _ _ _ _ _ _ _ W) by lia. by rewrite decide_False by lia.
Qed.
(** ** Directories *)

(** The entry in a block of a directory, and the entries of a directory. *)
Definition dent s (k : Z) : sfs_disk_entry :=
  let e := entry_of_bytes (peek (dsk s k) 0 260) in mkEntry (e_ino e) (<[255%nat := 0]> (e_name e)).
Definition dents s blks : list sfs_disk_entry := dent s <$> blks.
Definition names (name : path) (e : sfs_disk_entry) : Prop := e_ino e <> 0 /\ cstr (e_name e) = name.
#[local] Instance names_dec name e : Decision (names name e).
Proof. unfold names. apply _. Defined.

(** A directory that is not being changed. *)
Definition DirAt s n sin blks : Prop :=
  GInv s /\ sins (priv s) !! n = Some sin /\ frep s (din sin) blks /\ din_type (din sin) = SFS_TYPE_DIR.

Lemma DirAt_touch s s' R n sin blks : DirAt s n sin blks -> touch s s' R asis -> DirAt s' n sin blks /\ dents s' blks = dents s blks.
Proof.
  intros (HG&Hn&HF&Ht) HT. destruct (touch_file dop_io d0 s s' R n sin blks HG Hn HF HT) as (HG'&Hn'&HF'). split; [done|].
  apply list_fmap_ext. intros i k Hk. unfold dent. assert (Hu : used s k) by (apply (fr_used _ _ _ _ _ HF), own_blks; by eapply list_elem_of_lookup_2).
  rewrite (peek_ext (dsk s k)); [done|]. intros o Ho. eapply (touch_dsk dop_io d0); [exact HT|done|done|unfold SFS_BLKSIZE; lia].
Qed.

Lemma dirent_read_runs s n sin blks (i : nat) k :
  DirAt s n sin blks -> blks !! i = Some k ->
  runs (sfs_dirent_read_nolock dop_io n (Z.of_nat i)) s (fun r s' => r = (0, dent s k) /\ touch s s' nowhere asis).
Proof.
  intros (HG&Hn&HF&Ht) Hk. pose proof (fr_blocks _ _ _ _ _ HF) as [Hbl _]. pose proof (lookup_lt_Some _ _ _ Hk).
  assert (Hu : used s k) by (apply (fr_used _ _ _ _ _ HF), own_blks; by eapply list_elem_of_lookup_2).
  unfold sfs_dirent_read_nolock. runs_steps. eapply rd_sin_runs; [exact Hn|]. runs_steps. apply runs_assert.
  { rewrite !andb_true_iff, Z.eqb_eq, Z.leb_le, Z.ltb_lt. lia. }
  runs_steps. runs_by (bmap_load_old_runs dop_io d0 s n sin blks i k HG Hn HF Hk). intros r s1 [-> Ht1]. cbn [fst snd negb Z.eqb].
  assert (HG1 : GInv s1) by (by eapply touch_GInv). assert (Hu1 : used s1 k) by (by rewrite (to_st _ _ _ _ _ _ Ht1)).
  runs_steps. eapply (used_inuse_runs dop_io d0); [exact HG1|exact Hu1|]. runs_steps. apply runs_assert; [done|]. runs_steps.
  runs_by (sfs_rbuf_runs dop_io d0 s1 260 k 0 HG1); [by apply used_range|unfold SFS_BLKSIZE; lia|lia|unfold SFS_BLKSIZE; lia|]. intros r s2 [-> Ht2]. cbn [fst snd negb Z.eqb]. runs_steps.
  split; [|eapply (touch_trans dop_io d0); [exact Ht1|exact Ht2|done|done]]. unfold dent. cbn zeta. rewrite (peek_ext (dsk s k)); [done|].
  intros o Ho. eapply (touch_dsk dop_io d0); [exact Ht1|done|done|unfold SFS_BLKSIZE; lia].
Qed.

Lemma search_loop_runs n name sin blks k : forall s i empty,
  DirAt s n sin blks -> (i + k = length blks)%nat ->
  runs (search_loop dop_io k n name (Z.of_nat i) empty) s (fun r s' => touch s s' nowhere asis /\
    match list_find (names name) (drop i (dents s blks)) with
    | Some (j, e) => exists em, r = (0, e_ino e, Z.of_nat (i + j), em)
    | None => exists em, r = (- E_NOENT, 0, 0, em)
    end).
Proof.
  induction k as [|k IH]; intros s i empty HD Hik; cbn [search_loop].
  { runs_steps. split; [apply touch_refl|]. rewrite drop_ge by (unfold dents; rewrite length_fmap; lia). by eexists. }
  destruct (lookup_lt_is_Some_2 blks i) as [b Hb]; [lia|]. runs_steps. runs_by (dirent_read_runs s n sin blks i b HD Hb). intros r s1 [-> Ht1]. cbn [fst snd negb Z.eqb].
  destruct (DirAt_touch _ _ _ _ _ _ HD Ht1) as [HD1 Hde].
  assert (Hdrop : drop i (dents s blks) = dent s b :: drop (S i) (dents s blks)) by (apply drop_S; unfold dents; by rewrite list_lookup_fmap, Hb). rewrite Hdrop. cbn [list_find].
  assert (Hnext : forall em, ~ names name (dent s b) -> runs (search_loop dop_io k n name (Z.of_nat i + 1) em) s1 (fun r s' => touch s s' nowhere asis /\
     match (if decide (names name (dent s b)) then Some (0%nat, dent s b) else prod_map S id <$> list_find (names name) (drop (S i) (dents s blks))) with
     | Some (j, e) => exists em, r = (0, e_ino e, Z.of_nat (i + j), em) | None => exists em, r = (- E_NOENT, 0, 0, em) end)).
  { intros em Hnn. rewrite decide_False by done. replace (Z.of_nat i + 1) with (Z.of_nat (S i)) by lia. runs_by (IH s1 (S i) em HD1); [lia|]. intros r s2 [Ht2 Hr].
    split; [eapply (touch_trans dop_io d0); [exact Ht1|exact Ht2|done|done]|]. rewrite Hde in Hr. destruct (list_find _ _) as [[j e]|]; cbn; [|done].
    destruct Hr as [em' ->]. exists em'. do 2 f_equal. lia. }
  destruct (Z.eqb_spec (e_ino (dent s b)) 0) as [Hz|Hz]; [apply Hnext; by intros [? _]|].
  unfold streq. destruct (bool_decide_reflect (name = cstr (e_name (dent s b)))) as [He|He]; [|apply Hnext; intros [_ ?]; by apply He].
  runs_steps. split; [done|]. rewrite decide_True by done. exists empty. do 2 f_equal. lia.
Qed.

Lemma kmalloc_runs s a rest (Q : option Z -> st -> Prop) :
  pool (priv s) = a :: rest -> Q a (set_priv (set_pool rest (priv s)) s) -> runs kmalloc s Q.
Proof. intros Hp HQ. unfold kmalloc. runs_steps. rewrite Hp. by runs_steps. Qed.

Lemma DirAt_pool s n sin blks rest : DirAt s n sin blks -> DirAt (set_priv (set_pool rest (priv s)) s) n sin blks.
Proof. intros ([? ? ? ? ? ? ?]&Hn&[? ? ? ? ? ? ?]&Ht). split; [by split|]. split; [done|]. split; [by split|done]. Qed.

Lemma dirent_search_runs s n sin blks name a rest :
  DirAt s n sin blks -> pool (priv s) = Some a :: rest -> Z.of_nat (length name) <= SFS_MAX_FNAME_LEN ->
  runs (sfs_dirent_search_nolock dop_io n name) s (fun r s' => touch (set_priv (set_pool rest (priv s)) s) s' nowhere asis /\
    match list_find (names name) (dents s blks) with
    | Some (j, e) => exists em, r = (0, e_ino e, Z.of_nat j, em)
    | None => exists em, r = (- E_NOENT, 0, 0, em)
    end).
Proof.
  intros HD Hp Hl. unfold sfs_dirent_search_nolock. runs_steps. apply runs_assert; [by apply Z.leb_le|]. runs_steps. eapply kmalloc_runs; [exact Hp|].
  set (s1 := set_priv _ s). assert (HD1 : DirAt s1 n sin blks) by (by apply DirAt_pool). pose proof HD1 as (_&Hn1&HF1&_). pose proof (fr_blocks _ _ _ _ _ HF1) as [Hbl Hbm].
  runs_steps. eapply rd_sin_runs; [exact Hn1|]. rewrite s32_small by (unfold MAXBLKS, SFS_NDIRECT, SFS_BLK_NENTRY in *; lia). rewrite Hbl, Nat2Z.id.
  runs_by (search_loop_runs n name sin blks (length blks) s1 0 (Z.of_nat (length blks)) HD1); [done|]. intros r s2 [Ht Hr]. split; [exact Ht|exact Hr].
Qed.

(** Searching a directory for a name of at most 255 bytes returns the inode number
    and slot of the first entry in use with that name, and [-E_NOENT] exactly when
    there is none; nothing of the file system changes. *)
Theorem sfs_dirent_search_correct s n sin blks name a rest :
  DirAt s n sin blks -> pool (priv s) = Some a :: rest -> Z.of_nat (length name) <= SFS_MAX_FNAME_LEN ->
  runs (sfs_dirent_search_nolock dop_io n name) s (fun r s' => DirAt s' n sin blks /\ dents s' blks = dents s blks /\
    match list_find (names name) (dents s blks) with
    | Some (j, e) => exists em, r = (0, e_ino e, Z.of_nat j, em)
    | None => exists em, r = (- E_NOENT, 0, 0, em)
    end).
Proof.
  intros HD Hp Hl. runs_by (dirent_search_runs s n sin blks name a rest HD Hp Hl). intros r s2 [Ht Hr]. destruct (DirAt_touch _ _ _ _ _ _ (DirAt_pool _ _ _ _ rest HD) Ht) as [HD2 Hde]. split; [done|]. split; [by rewrite Hde|]. exact Hr.
Qed.

(** A longer name, which a system call can pass, does not make [sfs_lookup] fail: it
    stops the kernel. *)
Theorem sfs_lookup_long_name_panics optab fs_at s n i sin name :
  inodes s !! n = Some i -> in_type i = inode_type_sfs_inode_info -> is_Some (in_fs i) -> sins (priv s) !! n = Some sin ->
  din_type (din sin) = SFS_TYPE_DIR -> SFS_MAX_FNAME_LEN < Z.of_nat (length name) ->
  sfs_lookup dop_io optab fs_at n name s = Panic.
Proof.
  intros Hi Hit Hf Hn Ht Hl. unfold sfs_lookup, check_fs, inode_ref_inc, vop_info_sfs, rd_inode, wr_inode, rd_sin, bind, get, deref, ret, modify, assert_. rewrite Hi.
  rewrite bool_decide_true by done. destruct name as [|c name]; [unfold SFS_MAX_FNAME_LEN in Hl; cbn in Hl; lia|]. destruct (negb (c =? SLASH)); [|done]. unfold ret. cbn iota beta. rewrite Hi. cbn [inodes set_inodes].
  rewrite lookup_insert_eq. cbn [in_type set_ref]. rewrite (proj2 (Z.eqb_eq _ _) Hit). cbn [priv set_inodes]. rewrite Hn, Ht. cbn [negb Z.eqb].
  unfold sfs_lookup_once, sfs_dirent_search_nolock, bind, assert_. by rewrite (proj2 (Z.leb_gt _ _)) by done.
Qed.
(** ** Inodes on disk *)

Record din_wf (d : sfs_disk_inode) : Prop := {
  dw_size : 0 <= size d < W32;
  dw_type : 0 <= din_type d < 65536;
  dw_links : 0 <= din_nlinks d < 65536;
  dw_blocks : 0 <= blocks d < W32;
  dw_direct : length (direct d) = 12%nat /\ Forall (fun w => 0 <= w < W32) (direct d);
  dw_indirect : 0 <= indirect d < W32
}.

Lemma put_words_length ws : length (put_words ws) = (4 * length ws)%nat.
Proof. unfold put_words. induction ws as [|w ws IH]; [done|]. cbn [mbind list_bind]. rewrite length_app, put_le_length. cbn [length]. lia. Qed.

Lemma get_put_words ws l : Forall (fun w => 0 <= w < W32) ws -> get_words (length ws) (put_words ws ++ l) = ws.
Proof.
  induction 1 as [|w ws Hw _ IH]; [done|]. cbn [length get_words]. change (put_words (w :: ws)) with (put_le 4 w ++ put_words ws). rewrite <-app_assoc.
  rewrite get_put_le by (unfold W32 in Hw; lia). rewrite drop_app_length' by (by rewrite put_le_length). by rewrite IH.
Qed.

Lemma din_bytes_length d : din_wf d -> length (din_bytes d) = 64%nat.
Proof. intros Hd. unfold din_bytes. rewrite !length_app, !put_le_length, put_words_length, (proj1 (dw_direct d Hd)). done. Qed.

Lemma drop_put k j w l : drop (k + j) (put_le k w ++ l) = drop j l.
Proof. rewrite drop_app_ge by (rewrite put_le_length; lia). f_equal. rewrite put_le_length. lia. Qed.

(** The layout of an inode in its block loses nothing. *)
Lemma din_roundtrip d l : din_wf d -> din_of_bytes (din_bytes d ++ l) = d.
Proof.
  intros [Hs Ht Hn Hb [Hl Hf] Hi]. unfold din_of_bytes, din_bytes. rewrite <-!app_assoc. unfold W32 in *.
  match goal with |- context [get_le 4 ?x] => set (L := x) end.
  assert (E4 : drop 4 L = put_le 2 (din_type d) ++ put_le 2 (din_nlinks d) ++ put_le 4 (blocks d) ++ put_words (direct d) ++ put_le 4 (indirect d) ++ l) by apply (drop_put 4 0).
  assert (E6 : drop 6 L = drop 2 (drop 4 L)) by (by rewrite drop_drop). rewrite E4 in E6. rewrite (drop_put 2 0) in E6. rewrite drop_0 in E6.
  assert (E8 : drop 8 L = drop 2 (drop 6 L)) by (by rewrite drop_drop). rewrite E6 in E8. rewrite (drop_put 2 0) in E8. rewrite drop_0 in E8.
  assert (E12 : drop 12 L = drop 4 (drop 8 L)) by (by rewrite drop_drop). rewrite E8 in E12. rewrite (drop_put 4 0) in E12. rewrite drop_0 in E12.
  assert (E60 : drop 60 L = drop 48 (drop 12 L)) by (by rewrite drop_drop). rewrite E12 in E60. rewrite drop_app_length' in E60 by (by rewrite put_words_length, Hl).
  rewrite E4, E6, E8, E12, E60. unfold L. rewrite !get_put_le by lia. rewrite <-Hl, get_put_words by done. by destruct d.
Qed.

(** [sfs_fsync] writes a changed inode to its block and marks it clean; reading the
    block back gives the inode.  No other block in use and no other inode changes. *)
Theorem sfs_fsync_roundtrip s n sin :
  GInv s -> sfs_node s n -> sins (priv s) !! n = Some sin -> used s (ino sin) -> din_wf (din sin) -> dirty sin = true ->
  runs (let! r := sfs_fsync dop_io n in let! b := sfs_rbuf dop_io 64 (ino sin) 0 in ret (r, b)) s (fun r s' =>
    fst r = 0 /\ fst (snd r) = 0 /\ din_of_bytes (snd (snd r)) = din sin /\ GInv s' /\
    sins (priv s') = <[n := set_dirty false sin]> (sins (priv s)) /\ keeps nowhere (fun k => k = ino sin) s s').
Proof.
  intros HG Hnode Hn Hu Hwf Hd. unfold sfs_fsync. runs_steps. apply (check_fs_runs s n); [done|]. runs_steps. eapply vop_info_runs; [done|exact Hn|]. rewrite Hd.
  runs_steps. eapply upd_sin_runs; [exact Hn|]. set (s1 := set_priv _ s). assert (HG1 : GInv s1) by (by apply GInv_sins).
  pose proof (din_bytes_length _ Hwf) as Hlen. runs_steps. runs_by (sfs_wbuf_runs dop_io d0 s1 (din_bytes (din sin)) (ino sin) 0 HG1); [apply Hu|unfold SFS_BLKSIZE; lia|rewrite Hlen; unfold SFS_BLKSIZE; lia|].
  intros r s2 [-> Ht]. cbn [negb Z.eqb]. runs_steps. assert (HG2 : GInv s2) by (by eapply touch_GInv).
  runs_by (sfs_rbuf_runs dop_io d0 s2 64 (ino sin) 0 HG2); [rewrite (to_st _ _ _ _ _ _ Ht); apply Hu|unfold SFS_BLKSIZE; lia|lia|unfold SFS_BLKSIZE; lia|].
  intros r s3 [-> Ht3]. runs_steps. cbn [fst snd]. split; [done|]. split; [done|]. pose proof (g_blocks _ _ _ HG) as Hsup. destruct Hu as [Hur Hub].
  assert (Hpk : peek (dsk s2 (ino sin)) 0 64 = din_bytes (din sin)).
  { apply list_eq. intros i. destruct (decide (i < 64)%nat) as [Hi|Hi]; [|rewrite !lookup_ge_None_2; [done|lia|rewrite peek_length; lia]].
    pose proof (peek_lookup (dsk s2 (ino sin)) 0 64 (Z.of_nat i) ltac:(lia)) as Hp. rewrite Nat2Z.id in Hp. rewrite Hp. rewrite Z.add_0_l, (to_dsk _ _ _ _ _ _ Ht) by (unfold SFS_BLKSIZE; lia). unfold at_block. rewrite decide_True by (rewrite Hlen; lia). cbn [default from_option id].
    rewrite Z.sub_0_r, Nat2Z.id. symmetry. apply list_lookup_lookup_total_lt. lia. }
  split; [rewrite Hpk; rewrite <-(app_nil_r (din_bytes (din sin))); by apply din_roundtrip|]. split; [by eapply touch_GInv|]. split.
  - rewrite (to_st _ _ _ _ _ _ Ht3), (to_st _ _ _ _ _ _ Ht). done.
  - eapply (keeps_trans dop_io d0 nowhere _ nowhere (fun k => k = ino sin)); [apply (keeps_sins dop_io d0 nowhere)| |done|done|done].
    eapply (keeps_trans dop_io d0 nowhere _ nowhere (fun k => k = ino sin)); [eapply touch_keeps; [exact HG1|exact Ht|done|]|eapply touch_keeps; [exact HG2|exact Ht3|done|done]|done|done|done].
    intros k o _ Hk. unfold at_block. by rewrite decide_False by tauto.
Qed.
End Trunc.
