(* ===== verification/SfsDev.v ===== *)
(** * SFS on disk0

    The RAM disk behind disk0 (Dev.v) is a block device as SFS wants it; a small
    machine on which the theorems on SFS are tried. *)

From stdpp Require Import base gmap list.
From Stdlib Require Import ZArith Lia Bool.
From S2P Require Import Prelude.
From S2P Require Import Vmm.
From S2P Require Import Vfs.
From S2P Require Import Dev.
From S2P Require Import DevThm.
From S2P Require Import Bitmap.
From S2P Require Import Sfs.
From S2P Require Import SfsInv.
From S2P Require Import SfsThm.
From S2P Require Import SfsIo.
From S2P Require Import SfsTrunc.

Abbreviation sst := (fst_ (sfsx devst)).

(** The state as the drivers see it. *)
Definition dev_view (s : sst) : fst_ devst :=
  mkFst (inodes s) (files s) (fss s) (curfs s) (vdev_list s) (bootfs_node s) (fmem s) (xdev (priv s)).
Definition dev_back (d : fst_ devst) (s : sst) : sst :=
  mkFst (inodes d) (files d) (fss d) (curfs d) (vdev_list d) (bootfs_node d) (fmem d)
        (mkSfsx (priv d) (xsfs (priv s)) (sins (priv s)) (pool (priv s))).
(** [dop_io(sfs->dev, iob, write)]. *)
Definition sfs_dop_io (dev : device) (iob : iobuf) (write : bool) : M sst (Z * iobuf) :=
  zoom dev_view dev_back (dop_io dev iob write).

(** disk0 as initialised: as many blocks as the RAM disk has, which with the
    driver's buffer lies in memory. *)
Class DiskOk (dev : device) (d : devst) := {
  dk_drv : d_driver dev = Disk0;
  dk_blocks : 0 <= d_blocks dev <= 524288 /\ d_blocks dev * DISK0_BLKSIZE <= ide_size (ramdisk d) * SECTSIZE;
  dk_buf : 0 <= disk0_buffer d /\ disk0_buffer d + DISK0_BUFSIZE < W32;
  dk_disk : 0 <= iobase (ramdisk d) /\ iobase (ramdisk d) + ide_size (ramdisk d) * SECTSIZE < W32;
  dk_sep : iobase (ramdisk d) + ide_size (ramdisk d) * SECTSIZE <= disk0_buffer d \/ disk0_buffer d + DISK0_BUFSIZE <= iobase (ramdisk d)
}.

Section Disk.
Context (dev : device) (d : devst) `{!DiskOk dev d}.

Definition disk_client (x : Z) : Prop :=
  0 <= x /\ x + 1 < W32 /\ in_range x (disk0_buffer d) DISK0_BUFSIZE = false /\ in_range x (iobase (ramdisk d)) (ide_size (ramdisk d) * SECTSIZE) = false.
Definition disk_byte (m : bytes) (o : Z) : Z := if in_range o 0 (d_blocks dev * DISK0_BLKSIZE) then m (iobase (ramdisk d) + o) else 0.

Lemma disk_fits b k :
  0 <= k < d_blocks dev -> (forall x, b <= x < b + SFS_BLKSIZE -> disk_client x) -> io_fits d b SFS_BLKSIZE k.
Proof.
  intros Hk Hc. pose proof (dk_blocks (dev := dev) (d := d)) as [? ?]. pose proof (dk_buf (dev := dev) (d := d)). pose proof (dk_disk (dev := dev) (d := d)).
  assert (Hsep : forall a n, 0 < n -> (forall x, b <= x < b + SFS_BLKSIZE -> in_range x a n = false) -> b + SFS_BLKSIZE <= a \/ a + n <= b).
  { intros a n Hn Hx. destruct (decide (b + SFS_BLKSIZE <= a)) as [|Hn1]; [by left|]. destruct (decide (a + n <= b)) as [|Hn2]; [by right|].
    pose proof (Hx (Z.max a b) ltac:(unfold SFS_BLKSIZE in *; lia)) as Hf. apply in_range_false in Hf. lia. }
  pose proof (Hc b ltac:(unfold SFS_BLKSIZE; lia)) as (Hb0&_). pose proof (Hc (b + SFS_BLKSIZE - 1) ltac:(unfold SFS_BLKSIZE; lia)) as (_&Hb1&_).
  split; try done.
  - unfold SFS_BLKSIZE in *. lia.
  - unfold SFS_BLKSIZE, DISK0_BLKSIZE in *. lia.
  - apply Hsep; [unfold DISK0_BUFSIZE, DISK0_BLKSIZE; lia|]. intros x Hx. by destruct (Hc x Hx) as (_&_&?&_).
  - apply Hsep; [unfold DISK0_BLKSIZE, SECTSIZE in *; lia|]. intros x Hx. by destruct (Hc x Hx) as (_&_&_&?).
  - apply (dk_sep (dev := dev) (d := d)).
Qed.

Lemma disk_io_runs (s : sst) b k (write : bool) :
  xdev (priv s) = d -> 0 <= k < d_blocks dev -> (forall x, b <= x < b + SFS_BLKSIZE -> disk_client x) ->
  runs (sfs_dop_io dev (iobuf_init b SFS_BLKSIZE (k * SFS_BLKSIZE)) write) s (fun r s' => fst r = 0 /\ exists m', s' = set_fmem m' s /\
    let disk := iobase (ramdisk d) + k * SFS_BLKSIZE in
    moved (disk0_buffer d) (if write then disk else b) (if write then b else disk) SFS_BLKSIZE (fmem s) m').
Proof.
  intros Hd Hk Hc. pose proof (disk_fits b k Hk Hc) as Hfit. pose proof (dk_blocks (dev := dev) (d := d)) as [Hn _]. unfold sfs_dop_io, dop_io. runs_steps. rewrite (dk_drv (dev := dev) (d := d)).
  assert (Hq : k * SFS_BLKSIZE / DISK0_BLKSIZE = k) by (unfold SFS_BLKSIZE, DISK0_BLKSIZE; mlia).
  runs_by (disk0_io_runs (dev_view s) dev b SFS_BLKSIZE (k * SFS_BLKSIZE) write).
  - unfold SFS_BLKSIZE. lia.
  - unfold SFS_BLKSIZE, DISK0_BLKSIZE. mlia.
  - unfold SFS_BLKSIZE, W32. lia.
  - rewrite Hq. change (SFS_BLKSIZE / DISK0_BLKSIZE) with 1. lia.
  - rewrite Hq. cbn [dev_view priv]. by rewrite Hd.
  - cbn [dev_view priv fmem]. rewrite Hd. intros r s' (Hr&_&m'&->&Hm). split; [done|]. exists m'. split; [by destruct s as [? ? ? ? ? ? ? []]|exact Hm].
Qed.

#[export] Instance disk0_blockdev : BlockDev (sfs_dop_io dev) d.
Proof.
  refine {| nblk := d_blocks dev; client := disk_client; dbyte := disk_byte |}.
  - pose proof (dk_blocks (dev := dev) (d := d)). unfold SFS_BLKSIZE. lia.
  - intros m m' o Hm. unfold disk_byte. destruct (in_range o 0 _) eqn:Ho; [|done]. apply Hm. intros (_&_&_&Hf). apply in_range_spec in Ho. apply in_range_false in Hf.
    pose proof (dk_blocks (dev := dev) (d := d)) as [_ ?]. lia.
  - intros s b k Hd Hk Hc. runs_by (disk_io_runs s b k false Hd Hk Hc). intros r s' (Hr&m'&->&Hm). split; [done|]. exists m'. split; [done|]. cbn zeta in Hm. cbn [fmem set_fmem].
    pose proof (dk_blocks (dev := dev) (d := d)) as [? Hbl]. pose proof (dk_sep (dev := dev) (d := d)) as Hsep. pose proof (disk_fits b k Hk Hc) as [_ _ _ _ _ _ Hs2 _]. split.
    + intros x (?&?&Hx1&Hx2). rewrite Hm by done. case_decide as Hin.
      * rewrite (proj2 (in_range_spec x b _)) by done. unfold disk_byte. rewrite (proj2 (in_range_spec _ _ _)) by (unfold SFS_BLKSIZE, DISK0_BLKSIZE in *; lia). f_equal. lia.
      * by rewrite (proj2 (in_range_false x b _)).
    + intros o Ho. unfold disk_byte. rewrite (proj2 (in_range_spec o 0 _)) by (unfold SFS_BLKSIZE, DISK0_BLKSIZE in *; lia).
      rewrite Hm by (apply in_range_false; unfold SFS_BLKSIZE, DISK0_BLKSIZE in *; lia). rewrite (proj2 (in_range_false _ b _)); [done|]. unfold SFS_BLKSIZE, DISK0_BLKSIZE in *. lia.
  - intros s b k Hd Hk Hc. runs_by (disk_io_runs s b k true Hd Hk Hc). intros r s' (Hr&m'&->&Hm). split; [done|]. exists m'. split; [done|]. cbn zeta in Hm. cbn [fmem set_fmem].
    pose proof (dk_blocks (dev := dev) (d := d)) as [? Hbl]. pose proof (dk_sep (dev := dev) (d := d)) as Hsep. split.
    + intros x (?&?&Hx1&Hx2). rewrite Hm by done. apply in_range_false in Hx2. rewrite (proj2 (in_range_false _ _ _)); [done|]. unfold SFS_BLKSIZE, DISK0_BLKSIZE in *. lia.
    + intros o Ho. unfold disk_byte. rewrite (proj2 (in_range_spec o 0 _)) by (unfold SFS_BLKSIZE, DISK0_BLKSIZE in *; lia).
      rewrite Hm by (apply in_range_false; unfold SFS_BLKSIZE, DISK0_BLKSIZE in *; lia). case_decide as Hin.
      * rewrite (proj2 (in_range_spec _ _ _)) by (unfold SFS_BLKSIZE in *; lia). f_equal. lia.
      * by rewrite (proj2 (in_range_false _ _ _)) by (unfold SFS_BLKSIZE in *; lia).
Defined.
End Disk.

(** ** A machine with a disk of 16 blocks

    File 7 (inode block 3) has the one block 4 with the bytes [hello]; directory 8
    (inode block 1) has the entry [a] for inode 3 in block 5; blocks 6 to 15 are free. *)

Definition ex_disk : ide_device := mkIde 128 0x100000.
Definition ex_sdev : device := mkDev 16 4096 Disk0.
Definition ex_sdevst : devst := mkDevst ∅ (fun _ => 0) 0 0 [] [] ex_disk 0x10000.
Definition ex_smem : bytes :=
  poke (0x100000 + 4 * 4096) [104; 101; 108; 108; 111] (poke (0x100000 + 5 * 4096) [3; 0; 0; 0; 97] (poke 0x30000 [97; 98; 99] (fun _ => 0))).
Definition ex_freemap : bitmap := mkBitmap 32 1 [0xFFC0].
Definition ex_sfsfs : sfs_fs := mkSfs (mkSuper SFS_MAGIC 16 10 []) ex_freemap 0x40000 false 0x20000 [7; 8] ∅.
Definition ex_din (z t b : Z) : sfs_disk_inode := mkDin z t 1 1 (b :: replicate 11 0) 0.
Definition ex_file : sfs_inode := mkSin (ex_din 5 SFS_TYPE_FILE 4) 3 false 1.
Definition ex_dir : sfs_inode := mkSin (ex_din 0 SFS_TYPE_DIR 5) 1 false 1.
Definition ex_s : sst :=
  mkFst {[7 := mkInode 1 1 inode_type_sfs_inode_info (Some 1) 2; 8 := mkInode 1 0 inode_type_sfs_inode_info (Some 1) 1]} ∅ ∅ None [] None ex_smem
        (mkSfsx ex_sdevst ex_sfsfs {[7 := ex_file; 8 := ex_dir]} [Some 0x50000]).

#[export] Instance ex_diskok : DiskOk ex_sdev ex_sdevst.
Proof. split; cbn; unfold DISK0_BUFSIZE, DISK0_BLKSIZE, SECTSIZE, W32; try lia; done. Qed.

Abbreviation ex_io := (sfs_dop_io ex_sdev).

(** The bits of the map, by computation. *)
Lemma ex_bits k : 0 <= k < 32 -> bit ex_freemap k = ((6 <=? k) && (k <? 16)).
Proof.
  intros Hk. assert (Hc : exists j, k = Z.of_nat j /\ (j < 32)%nat) by (exists (Z.to_nat k); lia). destruct Hc as (j&->&Hj).
  do 32 (destruct j as [|j]; [reflexivity|]). lia.
Qed.

Lemma ex_map_wf : wf ex_freemap.
Proof.
  split; cbn; unfold WORD_BITS, W32; [lia|done|done|repeat constructor; lia|]. intros i Hi. lia.
Qed.

Lemma ex_client x : 0x20000 <= x < 0x60000 -> disk_client ex_sdevst x.
Proof. intros Hx. split; [lia|]. split; [unfold W32; lia|]. split; apply in_range_false; cbn; unfold DISK0_BUFSIZE, DISK0_BLKSIZE, SECTSIZE; lia. Qed.

Lemma ex_GInv : GInv ex_io ex_sdevst ex_s.
Proof.
  split.
  - done.
  - cbn. lia.
  - exact ex_map_wf.
  - cbn. lia.
  - intros k [Hk Hb]. cbn [xsfs priv ex_s ex_sfsfs freemap] in Hb. cbn in Hk. rewrite ex_bits in Hb by lia. apply andb_true_iff in Hb as [H1 H2]. apply Z.leb_le in H1. apply Z.ltb_lt in H2. cbn. lia.
  - vm_compute. reflexivity.
  - split; [cbn; lia|]. intros x Hx. apply ex_client. unfold in_buffer, SFS_BLKSIZE in Hx. cbn in Hx. lia.
Qed.

Lemma ex_frep z t b : 0 < b < 6 -> frep ex_io ex_sdevst ex_s (ex_din z t b) [b].
Proof.
  intros Hb. split.
  - done.
  - cbn. unfold MAXBLKS, SFS_NDIRECT, SFS_BLK_NENTRY. lia.
  - intros i Hi. destruct i as [|i]; [done|]. cbn [blocks direct ex_din]. change (b :: replicate 11 0) with ([b] ++ replicate 11 0). rewrite lookup_app_r by (cbn; lia).
    cbn [length]. rewrite lookup_replicate_2 by lia. done.
  - cbn. lia.
  - done.
  - intros k Hk. cbn in Hk. apply list_elem_of_singleton in Hk as ->. split; [cbn; lia|]. cbn [xsfs priv ex_s ex_sfsfs freemap]. rewrite ex_bits by lia.
    apply andb_false_iff. left. apply Z.leb_gt. lia.
  - apply NoDup_singleton.
Qed.

Lemma ex_FileAt : FileAt ex_io ex_sdevst ex_s 7 ex_file [4].
Proof.
  split; [exact ex_GInv|reflexivity|apply ex_frep; lia|done|]. cbn. unfold SFS_BLKSIZE. lia.
Qed.
Lemma ex_DirAt : DirAt ex_io ex_sdevst ex_s 8 ex_dir [5].
Proof. split; [exact ex_GInv|]. split; [reflexivity|]. split; [apply ex_frep; lia|done]. Qed.
Lemma ex_content : content ex_io ex_sdevst ex_s ex_file [4] = [104; 101; 108; 108; 111].
Proof. vm_compute. reflexivity. Qed.
Lemma ex_ubuf len : 0 <= len <= 4096 -> ubuf ex_io ex_sdevst ex_s 0x30000 len.
Proof.
  intros Hl. split; [lia|]. split; [unfold W32; lia|]. unfold range, in_buffer, SFS_BLKSIZE. cbn. intros x Hx. split; [apply ex_client; lia|lia].
Qed.

Lemma sfs_read_content_witness :
  runs (sfs_io_nolock ex_io 7 0x30000 1 10 false) ex_s (fun r s' => fst r = 0 /\ peek (fmem s') 0x30000 (snd r) = [101; 108; 108; 111]).
Proof.
  eapply runs_mono; [apply (sfs_read_content ex_io ex_sdevst ex_s 7 ex_file [4] 0x30000 1 10 ex_FileAt)|].
  - unfold SFS_MAX_FILE_SIZE. lia.
  - lia.
  - lia.
  - apply ex_ubuf. lia.
  - cbn beta. intros r s' (Hr&_&_&Hp&_). rewrite ex_content in Hp. split; [exact Hr|exact Hp].
Defined.

Lemma sfs_write_content_witness :
  runs (sfs_io_nolock ex_io 7 0x30000 4 3 true) ex_s (fun r s' => exists sin' blks',
    fst r = 0 -> content ex_io ex_sdevst s' sin' blks' = [104; 101; 108; 108; 97; 98; 99]).
Proof.
  eapply runs_mono; [apply (sfs_write_content ex_io ex_sdevst ex_s 7 ex_file [4] 0x30000 4 3 ex_FileAt)|].
  - cbn. lia.
  - lia.
  - vm_compute. discriminate.
  - apply ex_ubuf. lia.
  - cbn beta. intros r s' (sin'&blks'&_&Hc&_&Hct&_). exists sin', blks'. intros Hr. destruct Hc as [[_ Hl]|[He _]]; [|rewrite Hr in He; discriminate He].
    rewrite Hct, Hl, ex_content. reflexivity.
Defined.

Lemma ex_node : sfs_node ex_s 7.
Proof. eexists. split; [reflexivity|]. split; [reflexivity|]. by eexists. Qed.

Lemma sfs_truncate_content_witness :
  runs (sfs_truncfile ex_io 7 2) ex_s (fun r s' => exists sin' blks', r = 0 /\ size (din sin') = 2 /\ blks' = [4] /\ content ex_io ex_sdevst s' sin' blks' = [104; 101]) /\
  runs (sfs_truncfile ex_io 7 0) ex_s (fun r s' => r = 0 /\ free s' 4).
Proof.
  assert (Hm : forall l, 0 <= l <= 2 -> 0 <= l <= SFS_BLKSIZE * MAXBLKS) by (intros l Hl; unfold SFS_BLKSIZE, MAXBLKS, SFS_NDIRECT, SFS_BLK_NENTRY; lia). split.
  - eapply runs_mono; [apply (sfs_truncate_content ex_io ex_sdevst ex_s 7 ex_file [4] 2 ex_FileAt ex_node); apply Hm; lia|].
    cbn beta. intros r s' (_&sin'&blks'&_&_&_&_&[(->&_&Hs&Hcut&Hc&_)|(_&Hlt&_)]); [|cbn in Hlt; lia]. exists sin', blks'. split; [reflexivity|]. split; [exact Hs|]. split; [apply Hcut; cbn; lia|].
    rewrite ex_content in Hc. rewrite take_ge in Hc; [exact Hc|]. unfold content. rewrite length_fmap, length_seqZ, Hs. cbn. lia.
  - eapply runs_mono; [apply (sfs_truncate_content ex_io ex_sdevst ex_s 7 ex_file [4] 0 ex_FileAt ex_node); apply Hm; lia|].
    cbn beta. intros r s' (_&sin'&blks'&_&_&_&Hfree&[(->&_&Hs&Hcut&_)|(_&Hlt&_)]); [|cbn in Hlt; lia]. split; [reflexivity|]. destruct (Hcut ltac:(cbn; lia)) as [-> Hi].
    apply Hfree; rewrite elem_of_own; [left; left|]. rewrite Hi. intros [Hn|[Hn _]]; [by apply elem_of_nil in Hn|by apply Hn].
Defined.

Lemma sfs_dirent_search_correct_witness :
  runs (sfs_dirent_search_nolock ex_io 8 [97]) ex_s (fun r _ => exists em, r = (0, 3, 0, em)).
Proof.
  eapply runs_mono; [apply (sfs_dirent_search_correct ex_io ex_sdevst ex_s 8 ex_dir [5] [97] 0x50000 [] ex_DirAt)|].
  - reflexivity.
  - vm_compute. discriminate.
  - cbn beta. intros r s' (_&_&H). vm_compute in H. exact H.
Defined.

Lemma sfs_lookup_long_name_panics_witness :
  sfs_lookup ex_io (sfs_optab ex_io 1) 1 8 (replicate 256 97) ex_s = Panic.
Proof.
  apply (sfs_lookup_long_name_panics ex_io (sfs_optab ex_io 1) 1 ex_s 8 (mkInode 1 0 inode_type_sfs_inode_info (Some 1) 1) ex_dir).
  - reflexivity.
  - reflexivity.
  - by eexists.
  - reflexivity.
  - reflexivity.
  - rewrite length_replicate. reflexivity.
Defined.

(** The file with its inode changed in memory. *)
Definition ex_dirty : sfs_inode := set_dirty true ex_file.
Definition ex_s1 : sst := set_priv (set_sins (<[7 := ex_dirty]> (sins (priv ex_s))) (priv ex_s)) ex_s.

Lemma sfs_fsync_roundtrip_witness :
  runs (let! r := sfs_fsync ex_io 7 in let! b := sfs_rbuf ex_io 64 3 0 in ret (r, b)) ex_s1 (fun r _ => fst r = 0 /\ din_of_bytes (snd (snd r)) = din ex_file).
Proof.
  eapply runs_mono; [apply (sfs_fsync_roundtrip ex_io ex_sdevst ex_s1 7 ex_dirty)|].
  - apply GInv_sins. exact ex_GInv.
  - exact ex_node.
  - reflexivity.
  - split; [cbn; lia|reflexivity].
  - split; cbn; unfold W32, SFS_TYPE_FILE; try lia. split; [reflexivity|]. repeat constructor; lia.
  - reflexivity.
  - cbn beta. intros r s' (H1&_&H2&_). split; [exact H1|exact H2].
Defined.
