(* ===== verification/SfsMount.v ===== *)
(** * SFS: mounting a disk

    [sfs_do_mount] on a disk whose super block and freemap agree: the file system
    that results satisfies the invariant [GInv] that the theorems on files need. *)

From stdpp Require Import base gmap list.
From Stdlib Require Import ZArith Lia Bool.
From S2P Require Import Prelude.
From S2P Require Import Bitmap.
From S2P Require Import Vmm.
From S2P Require Import Vfs.
From S2P Require Import Sfs.
From S2P Require Import SfsInv.
From S2P Require Import SfsThm.
From S2P Require Import SfsIo.
From S2P Require Import SfsTrunc.

#[local] Abbreviation length := Datatypes.length.
#[local] Arguments replicate : simpl never.

(** ** Words of consecutive blocks *)

Lemma get_words_length n : forall l, length (get_words n l) = n.
Proof. induction n as [|n IH]; intros l; cbn; [done|]. by rewrite IH. Qed.
Lemma get_words_app n m : forall l1 l2, length l1 = (4 * n)%nat -> get_words (n + m) (l1 ++ l2) = get_words n l1 ++ get_words m l2.
Proof.
  induction n as [|n IH]; intros l1 l2 Hl; [destruct l1; [done|cbn in Hl; lia]|]. cbn [get_words Nat.add]. rewrite drop_app_le by lia. rewrite IH by (rewrite length_drop; lia).
  unfold get_le. rewrite take_app_le by lia. done.
Qed.
Lemma get_words_blocks (f : Z -> list Z) (n : nat) : forall k b0, (forall b, length (f b) = (4 * n)%nat) ->
  get_words (n * k) (concat (f <$> seqZ b0 (Z.of_nat k))) = concat ((fun b => get_words n (f b)) <$> seqZ b0 (Z.of_nat k)).
Proof.
  induction k as [|k IH]; intros b0 Hf; [by rewrite Nat.mul_0_r|]. rewrite Nat.mul_succ_r, Nat.add_comm. rewrite seqZ_cons by lia. replace (Z.pred (Z.of_nat (S k))) with (Z.of_nat k) by lia.
  cbn [fmap list_fmap concat]. rewrite get_words_app by done. f_equal. by apply IH.
Qed.

(** What a structure at the front of a block needs of the block. *)
Lemma take_part {A} (l : list A) n k m : (k + m <= n)%nat -> take m (drop k (take n l)) = take m (drop k l).
Proof. intros H. rewrite !take_drop_commute, take_take. do 2 f_equal. lia. Qed.
Lemma le_take l n j k : (j + k <= n)%nat -> get_le k (drop j (take n l)) = get_le k (drop j l).
Proof. intros H. unfold get_le. by rewrite take_part. Qed.
Lemma words_take l n m : forall j, (j + 4 * m <= n)%nat -> get_words m (drop j (take n l)) = get_words m (drop j l).
Proof. induction m as [|m IH]; intros j Hj; cbn [get_words]; [done|]. rewrite le_take by lia. rewrite !drop_drop. by rewrite IH by lia. Qed.
Lemma super_take l : super_of_bytes (take 44 l) = super_of_bytes l.
Proof. unfold super_of_bytes. pose proof (le_take l 44 0 4 ltac:(lia)) as H0. rewrite !drop_0 in H0. by rewrite H0, !le_take, take_part by lia. Qed.
Lemma din_take l : din_of_bytes (take 64 l) = din_of_bytes l.
Proof. unfold din_of_bytes. pose proof (le_take l 64 0 4 ltac:(lia)) as H0. rewrite !drop_0 in H0. by rewrite H0, !le_take, words_take by lia. Qed.
Lemma entry_take l : entry_of_bytes (take 260 (take 4096 l)) = entry_of_bytes (take 260 l).
Proof. rewrite take_take. done. Qed.
Lemma get_words_lookup m : forall (l : list Z) j, (j < m)%nat -> get_words m l !!! j = get_le 4 (drop (4 * j) l).
Proof. induction m as [|m IH]; intros l j Hj; [lia|]. cbn [get_words]. destruct j as [|j]; [done|]. replace (4 * S j)%nat with (4 + 4 * j)%nat by lia. rewrite <-drop_drop. apply IH. lia. Qed.

Lemma concat_length_uniform {A} (m : nat) (ls : list (list A)) : Forall (fun l => length l = m) ls -> length (concat ls) = (m * length ls)%nat.
Proof. induction 1 as [|l ls Hl _ IH]; cbn [concat length]; [lia|]. rewrite length_app, Hl, IH. lia. Qed.

Lemma bind_ok {S A B} (m : M S A) (f : A -> M S B) (s : S) Q : runs m s Q -> exists a s', Q a s' /\ bind m f s = f a s'.
Proof. intros (a&s'&Hm&HQ)%runs_ok. exists a, s'. split; [done|]. unfold bind. by rewrite Hm. Qed.

Section Mount.
Context {D : Type} (dop_io : iobuf -> bool -> M (fst_ (sfsx D)) (Z * iobuf)) (d0 : D) `{!BlockDev dop_io d0}.
Abbreviation st := (fst_ (sfsx D)).
Abbreviation sfs s := (xsfs (priv s)).
Abbreviation GInv := (GInv dop_io d0).
Abbreviation dsk := (dsk dop_io d0).
Implicit Types (s : st).

(** The blocks of the disk. *)
Definition disk s : Z -> list Z := fun k => peek (dsk s k) 0 SFS_BLKSIZE.
Lemma disk_ext s s' k : (forall o, 0 <= o < SFS_BLKSIZE -> dsk s' k o = dsk s k o) -> disk s' k = disk s k.
Proof. intros H. unfold disk. apply peek_ext. intros i Hi. by apply H. Qed.
Lemma disk_length s k : length (disk s k) = 4096%nat.
Proof. unfold disk. by rewrite peek_length. Qed.

Definition clients (a len : Z) : Prop := 0 <= a /\ a + len < W32 /\ forall x, a <= x < a + len -> client x.

Lemma init_read_runs s k b : xdev (priv s) = d0 -> 0 <= k < nblk -> clients b SFS_BLKSIZE ->
  runs (sfs_init_read dop_io k b) s (fun r s' => r = 0 /\ exists m', s' = set_fmem m' s /\
    (forall x, client x -> m' x = if decide (b <= x < b + SFS_BLKSIZE) then dsk s k (x - b) else fmem s x) /\
    forall o, 0 <= o < nblk * SFS_BLKSIZE -> dbyte m' o = dbyte (fmem s) o).
Proof.
  intros Hd Hk (_&_&Hc). unfold sfs_init_read. runs_steps. rewrite (sfs_offset dop_io d0) by done. runs_by bd_read; [exact Hd|exact Hk|exact Hc|]. intros r s' (Hr&m'&->&Hm&Ho). runs_steps. split; [done|]. exists m'. done.
Qed.
Lemma init_freemap_runs k : forall s blkno data, xdev (priv s) = d0 -> 0 <= blkno -> blkno + Z.of_nat k <= nblk -> clients data (SFS_BLKSIZE * Z.of_nat k) ->
  runs (init_freemap_loop dop_io k blkno data) s (fun r s' => r = 0 /\ exists m', s' = set_fmem m' s /\
    (forall x, client x -> m' x = if decide (data <= x < data + SFS_BLKSIZE * Z.of_nat k) then dbyte (fmem s) (blkno * SFS_BLKSIZE + (x - data)) else fmem s x) /\
    forall o, 0 <= o < nblk * SFS_BLKSIZE -> dbyte m' o = dbyte (fmem s) o).
Proof.
  induction k as [|k IH]; intros s blkno data Hd Hb Hbn (Hc0&Hc1&Hc); cbn [init_freemap_loop].
  { runs_steps. split; [done|]. exists (fmem s). split; [by destruct s|]. split; [|done]. intros x _. by rewrite decide_False by (unfold SFS_BLKSIZE; lia). }
  pose proof bd_size as [_ Hsz]. runs_steps. runs_by (init_read_runs s blkno data Hd); [lia|split; [done|split; [unfold SFS_BLKSIZE in *; lia|intros x Hx; apply Hc; unfold SFS_BLKSIZE in *; lia]]|].
  intros r s1 (->&m1&->&Hm1&Ho1). cbn [negb Z.eqb]. rewrite !u32_small by (unfold is_u32, SFS_BLKSIZE, W32 in *; lia).
  runs_by (IH (set_fmem m1 s)); [done|lia|lia|split; [unfold SFS_BLKSIZE in *; lia|split; [unfold SFS_BLKSIZE in *; lia|intros x Hx; apply Hc; unfold SFS_BLKSIZE in *; lia]]|].
  intros r s2 (->&m2&->&Hm2&Ho2). split; [done|]. exists m2. split; [done|]. cbn [fmem set_fmem] in *. split.
  - intros x Hx. rewrite Hm2 by done. unfold SFS_BLKSIZE in *. destruct (decide (data + 4096 <= x < data + 4096 + 4096 * Z.of_nat k)) as [H1|H1].
    + rewrite Ho1 by lia. rewrite decide_True by lia. f_equal. lia.
    + rewrite Hm1 by done. destruct (decide (data <= x < data + 4096)); [rewrite decide_True by lia; unfold dsk; f_equal; unfold SFS_BLKSIZE; lia|by rewrite decide_False by lia].
  - intros o Hoo. rewrite Ho2 by done. by apply Ho1.
Qed.

Lemma count_free_runs b k : forall i acc, wf b -> 0 <= i -> i + Z.of_nat k <= nbits b ->
  runs (count_free k i acc) b (fun r b' => b' = b /\ r = acc + Z.of_nat (length (filter (fun j => bit b j = true) (seqZ i (Z.of_nat k))))).
Proof.
  induction k as [|k IH]; intros i acc Hwf Hi Hk; cbn [count_free]; [runs_steps; split; [done|]; rewrite seqZ_nil by lia; cbn; lia|]. runs_steps. apply bitmap_test_runs; [done|lia|].
  runs_by (IH (i + 1) (if bit b i then acc + 1 else acc) Hwf); [lia|lia|]. intros r b' [-> ->]. split; [done|]. rewrite (seqZ_cons i (Z.of_nat (S k))) by lia. replace (Z.pred (Z.of_nat (S k))) with (Z.of_nat k) by lia. replace (Z.succ i) with (i + 1) by lia.
  rewrite filter_cons. destruct (bit b i); cbn [length]; [rewrite decide_True by done; cbn [length]; lia|by rewrite decide_False by done].
Qed.

(** The freemap on the disk, of a file system with [n] blocks. *)
Definition disk_bitmap (v : Z -> list Z) (n : Z) : bitmap :=
  let nb := sfs_freemap_blocks (mkSuper SFS_MAGIC n 0 []) in
  mkBitmap (32768 * nb) (1024 * nb) (concat ((fun b => get_words 1024 (v (SFS_BLKN_FREEMAP + b))) <$> seqZ 0 nb)).

(** A disk that can be mounted. *)
Record mountable (nblk : Z) (v : Z -> list Z) (sup : sfs_super) : Prop := {
  mt_super : super_of_bytes (v SFS_BLKN_SUPER) = sup /\ magic sup = SFS_MAGIC;
  mt_blocks : 0 < sup_blocks sup <= nblk /\ 2 + sfs_freemap_blocks sup <= nblk;
  mt_words : Forall (fun w => 0 <= w < W32) (words (disk_bitmap v (sup_blocks sup)));
  mt_free : forall k, 0 <= k < nbits (disk_bitmap v (sup_blocks sup)) -> bit (disk_bitmap v (sup_blocks sup)) k = true -> 0 < k < sup_blocks sup;
  mt_count : unused_blocks sup = nfree (disk_bitmap v (sup_blocks sup))
}.

Lemma freemap_size n : 0 < n -> n + 32768 < W32 -> sfs_freemap_blocks (mkSuper SFS_MAGIC n 0 []) = (n + 32767) / 32768 /\ ROUNDUP_2N n SFS_BLKBITS_SHIFT = 32768 * ((n + 32767) / 32768).
Proof.
  intros Hn Hlt. unfold sfs_freemap_blocks, ROUNDUP_DIV_2N, ROUNDUP_2N, SFS_BLKBITS_SHIFT, W32 in *. cbn [sup_blocks]. change (Z.shiftl 1 15) with 32768. rewrite u32_small by (unfold is_u32, W32; lia). split.
  - rewrite Z.shiftr_div_pow2 by lia. change (2 ^ 15) with 32768. f_equal. lia.
  - rewrite rounddown_spec by (unfold is_u32, W32; lia). change (2 ^ 15) with 32768. mlia.
Qed.
(** The bytes of consecutive blocks. *)
Lemma peek_blocks s (m : bytes) a : forall (k : nat) b, (forall i, 0 <= i < SFS_BLKSIZE * Z.of_nat k -> m (a + i) = dbyte (fmem s) (b * SFS_BLKSIZE + i)) ->
  peek m a (SFS_BLKSIZE * Z.of_nat k) = concat (disk s <$> seqZ b (Z.of_nat k)).
Proof.
  revert a. change SFS_BLKSIZE with 4096. intros a k. revert a. induction k as [|k IH]; intros a b Hm.
  - unfold peek. rewrite seqZ_nil by lia. by rewrite seqZ_nil by lia.
  - rewrite (seqZ_cons b) by lia. replace (Z.pred (Z.of_nat (S k))) with (Z.of_nat k) by lia. cbn [fmap list_fmap concat]. rewrite <-(IH (a + 4096) (Z.succ b)).
    + unfold peek. rewrite (seqZ_split _ 0 _ 4096) by lia. f_equal.
      * unfold disk, peek. apply fmap_seqZ_ext. change SFS_BLKSIZE with 4096. intros i Hi. rewrite !Z.add_0_l, Hm by lia. unfold dsk. done.
      * replace (4096 * Z.of_nat (S k) - 4096) with (4096 * Z.of_nat k) by lia. apply fmap_seqZ_ext. intros i Hi. f_equal. lia.
    + intros i Hi. replace (a + 4096 + i) with (a + (4096 + i)) by lia. rewrite Hm by lia. f_equal. lia.
Qed.

(** The bitmap that [sfs_init_freemap] fills from the disk. *)
Lemma freemap_runs s b at_ n : xdev (priv s) = d0 -> 0 < n <= nblk -> 2 + (n + 32767) / 32768 <= nblk -> clients at_ (SFS_BLKSIZE * ((n + 32767) / 32768)) ->
  nbits b = 32768 * ((n + 32767) / 32768) -> wf b ->
  runs (sfs_init_freemap dop_io b at_ SFS_BLKN_FREEMAP (sfs_freemap_blocks (mkSuper SFS_MAGIC n 0 []))) s (fun r s' => r = (0, disk_bitmap (disk s) n) /\ exists m', s' = set_fmem m' s /\
    (forall x, client x -> ~ at_ <= x < at_ + SFS_BLKSIZE * ((n + 32767) / 32768) -> m' x = fmem s x) /\
    forall o, 0 <= o < nblk * SFS_BLKSIZE -> dbyte m' o = dbyte (fmem s) o).
Proof.
  intros Hd Hn Hnb Hc Hbits Hwf. pose proof bd_size as [_ Hsz]. change SFS_BLKSIZE with 4096 in *. destruct (freemap_size n ltac:(lia) ltac:(unfold W32; lia)) as [Hfb _]. rewrite Hfb. set (nb := (n + 32767) / 32768) in *. assert (Hnb0 : 0 < nb) by (unfold nb; mlia).
  assert (Hnw : nwords b = 1024 * nb) by (rewrite (wf_nwords _ Hwf), Hbits; mlia). unfold sfs_init_freemap, bitmap_getdata. rewrite Hnw, Hbits. change SFS_BLKSIZE with 4096. rewrite !u32_small by (unfold is_u32, W32; lia).
  runs_steps. apply runs_assert; [apply Z.eqb_eq; lia|]. runs_steps. runs_by (init_freemap_runs (Z.to_nat nb) s SFS_BLKN_FREEMAP at_ Hd); [unfold SFS_BLKN_FREEMAP; lia|unfold SFS_BLKN_FREEMAP; lia|change SFS_BLKSIZE with 4096; by rewrite Z2Nat.id by lia|].
  intros r s' (->&m'&->&Hm&Ho). rewrite Z2Nat.id in Hm by lia. runs_steps. cbn [fmem set_fmem]. split.
  - f_equal. unfold disk_bitmap. rewrite Hfb. fold nb. f_equal. replace (4 * (1024 * nb)) with (4096 * Z.of_nat (Z.to_nat nb)) by lia. change 4096 with SFS_BLKSIZE at 1. rewrite (peek_blocks s m' at_ _ SFS_BLKN_FREEMAP).
    + replace (Z.to_nat (1024 * nb)) with (1024 * Z.to_nat nb)%nat by lia. rewrite get_words_blocks by (intros; apply disk_length). rewrite Z2Nat.id by lia. f_equal. apply fmap_seqZ_ext. intros i Hi. done.
    + rewrite Z2Nat.id by lia. destruct Hc as (_&_&Hc). intros i Hi. rewrite Hm by (apply Hc; unfold SFS_BLKSIZE in *; lia). rewrite decide_True by (unfold SFS_BLKSIZE in *; lia). f_equal. lia.
  - exists m'. split; [done|]. split; [|done]. intros x Hx Hnx. rewrite Hm by done. by rewrite decide_False.
Qed.

(** The state after the mount: [m] is memory then. *)
Definition mounted (m : bytes) (sup : sfs_super) (map : bitmap) (at_ buf : Z) (rest : list (option Z)) s : st :=
  set_priv (set_xsfs (mkSfs (mkSuper (magic sup) (sup_blocks sup) (unused_blocks sup) (<[Z.to_nat SFS_MAX_INFO_LEN := 0]> (info sup))) map at_ false buf [] ∅) (set_pool rest (priv s))) (set_fmem m s).

Lemma do_mount_runs s fs buf h a at_ rest sup :
  xdev (priv s) = d0 -> pool (priv s) = Some fs :: Some buf :: Some h :: Some a :: Some at_ :: rest -> mountable nblk (disk s) sup ->
  clients buf SFS_BLKSIZE -> clients at_ (SFS_BLKSIZE * sfs_freemap_blocks sup) ->
  runs (sfs_do_mount dop_io SFS_BLKSIZE nblk) s (fun r s' => r = (0, Some fs) /\ GInv s' /\
    exists m, s' = mounted m sup (disk_bitmap (disk s) (sup_blocks sup)) at_ buf rest s /\ forall k, 0 <= k < nblk -> disk s' k = disk s k).
Proof.
  intros Hd Hp [[Hsup Hmag] [Hn Hnb] Hw Hf Hcnt] Hbuf Hat. pose proof bd_size as [_ Hsz]. change SFS_BLKSIZE with 4096 in *. unfold sfs_do_mount. change SFS_BLKSIZE with 4096.
  change (sfs_freemap_blocks sup) with (sfs_freemap_blocks (mkSuper SFS_MAGIC (sup_blocks sup) 0 [])) in *. destruct (freemap_size (sup_blocks sup) ltac:(lia) ltac:(unfold W32; lia)) as [Hfb Hfbits]. rewrite Hfb in *. set (n := sup_blocks sup) in *. set (nb := (n + 32767) / 32768) in *. assert (Hnb0 : 0 < nb /\ n <= 32768 * nb) by (unfold nb; mlia).
  cbn [negb Z.eqb Pos.eqb]. runs_steps. eapply kmalloc_runs; [exact Hp|]. cbv beta iota. runs_steps. eapply kmalloc_runs; [done|]. cbv beta iota. set (s0 := set_priv _ _). runs_steps. runs_by (init_read_runs s0); [done|unfold SFS_BLKN_SUPER; lia|exact Hbuf|]. intros r s1 (->&m1&->&Hm1&Ho1). cbn [negb Z.eqb]. runs_steps. cbn [fmem set_fmem].
  assert (Hpk : super_of_bytes (peek m1 buf 44) = sup).
  { rewrite <-Hsup. unfold SFS_BLKN_SUPER in *. destruct Hbuf as (_&_&Hbuf). rewrite <-(super_take (disk s 0)). f_equal. unfold disk, peek. change SFS_BLKSIZE with 4096 in *. change 44%nat with (Z.to_nat 44). rewrite take_seqZ by lia. apply fmap_seqZ_ext. intros i Hi. rewrite Hm1 by (apply Hbuf; lia). rewrite decide_True by lia. unfold dsk. cbn [fmem set_priv s0]. f_equal. lia. }
  rewrite Hpk, Hmag, Z.eqb_refl. cbn [negb]. fold n. rewrite (proj2 (Z.ltb_ge _ _)) by lia. runs_steps. eapply kmalloc_runs; [done|]. cbv beta iota. runs_steps. eapply kmalloc_runs; [done|]. cbv beta iota. runs_steps. eapply kmalloc_runs; [done|]. cbv beta iota. set (s2 := set_priv _ _).
  unfold sfs_freemap_bits. cbn [sup_blocks]. rewrite Hfbits. rewrite !bool_decide_true by (by eexists). destruct (bitmap_create_correct (32768 * nb)) as (b&Hb&Hbn&Hbwf&_); [lia|unfold WORD_BITS, W32, nb; mlia|]. rewrite Hb.
  runs_steps. set (sup' := mkSuper _ _ _ _). change (sfs_freemap_blocks sup') with (sfs_freemap_blocks (mkSuper SFS_MAGIC n 0 [])).
  assert (Hdisk2 : forall k, 0 <= k < nblk -> disk s2 k = disk s k) by (intros k Hk; apply disk_ext; change SFS_BLKSIZE with 4096; intros o Ho; unfold dsk, s2; cbn [fmem set_priv set_fmem]; apply Ho1; unfold SFS_BLKSIZE; lia).
  runs_by (freemap_runs s2 b at_ n); [done|lia|fold nb; lia|exact Hat|exact Hbn|exact Hbwf|]. intros r s3 (->&m3&->&Hm3&Ho3). cbn [fst snd negb Z.eqb]. runs_steps.
  assert (Hmap : disk_bitmap (disk s2) n = disk_bitmap (disk s) n). { unfold disk_bitmap. rewrite Hfb. f_equal. f_equal. apply fmap_seqZ_ext. intros i Hi. rewrite Hdisk2 by (unfold SFS_BLKN_FREEMAP; lia). done. }
  rewrite Hmap. set (map := disk_bitmap (disk s) n) in *.
  assert (Hmb : nbits map = 32768 * nb) by (unfold map, disk_bitmap; by rewrite Hfb).
  assert (Hwf : wf map).
  { split; [rewrite Hmb; unfold WORD_BITS, W32, nb; mlia|rewrite Hmb; unfold map, disk_bitmap; rewrite Hfb; cbn [nwords]; mlia| |exact Hw|].
    - unfold map, disk_bitmap. rewrite Hfb. cbn [words nwords]. rewrite (concat_length_uniform 1024) by (apply Forall_fmap, Forall_forall; intros; apply get_words_length). rewrite length_fmap, length_seqZ. lia.
    - intros i Hi. rewrite Hmb in Hi. unfold map, disk_bitmap in Hi. rewrite Hfb in Hi. cbn [nwords] in Hi. unfold WORD_BITS in Hi. lia. }
  unfold on_map. runs_steps. cbn [freemap xsfs priv set_priv set_xsfs]. runs_by (count_free_runs map (Z.to_nat (32768 * nb)) 0 0 Hwf); [lia|rewrite Hmb; lia|]. intros r b' [-> ->]. rewrite Z2Nat.id by lia.
  runs_steps. apply runs_assert; [cbn [unused_blocks sup']; rewrite Hcnt; unfold nfree; rewrite Hmb; apply Z.eqb_eq; lia|]. runs_steps. split; [done|]. split; [|exists m3; split; [unfold mounted; rewrite Hmag; reflexivity|]].
  - split; cbn [xdev xsfs priv set_priv set_xsfs super freemap sup_blocks unused_blocks sfs_buffer set_freemap]; try done; [cbn [sup_blocks sup']; rewrite Hmb; lia| |].
    + intros k [Hk Hkb]. by apply Hf.
    + destruct Hbuf as (Hb0&_&Hbc). split; [done|]. intros x Hx. apply Hbc. exact Hx.
  - intros k Hk. rewrite <-Hdisk2 by done. apply disk_ext. change SFS_BLKSIZE with 4096. intros o Ho. unfold dsk. cbn [fmem set_priv set_fmem]. apply Ho3. unfold SFS_BLKSIZE. lia.
Qed.

(** ** Loading inodes *)

(** No node in memory has the number [i]. *)
Definition unloaded s i : Prop := Forall (fun n => exists sin, sins (priv s) !! n = Some sin /\ ino sin <> i) (sfs_hash_list (sfs s) i).
Lemma lookup_unloaded s i l : Forall (fun n => exists sin, sins (priv s) !! n = Some sin /\ ino sin <> i) l -> runs (lookup_loop l i) s (fun r s' => r = None /\ s' = s).
Proof. induction 1 as [|n l (sin&Hn&Hi) _ IH]; cbn [lookup_loop]; [by runs_steps|]. runs_steps. eapply rd_sin_runs; [exact Hn|]. by rewrite (proj2 (Z.eqb_neq _ _)). Qed.

(** From [s] to [s'] the node [n] for inode [i] was loaded. *)
Record loaded fs_at i n rest s s' : Prop := {
  ld_g : GInv s';
  ld_sin : sins (priv s') = <[n := mkSin (din_of_bytes (disk s i)) i false 1]> (sins (priv s));
  ld_node : inodes s' !! n = Some (mkInode 1 0 inode_type_sfs_inode_info (Some fs_at) (if din_type (din_of_bytes (disk s i)) =? SFS_TYPE_DIR then sfs_node_dirops_at else sfs_node_fileops_at));
  ld_disk : forall k, 0 <= k < nblk -> disk s' k = disk s k;
  ld_dsk : forall k o, used s k -> 0 <= o < SFS_BLKSIZE -> dsk s' k o = dsk s k o;
  ld_used : forall k, used s' k <-> used s k;
  ld_pool : pool (priv s') = rest
}.
(** [sfs_load_inode] up to the decoding of the inode. *)
Definition load_rest fs_at (d : sfs_disk_inode) i : M st (Z * option Z) :=
  do! assert_ (negb (din_nlinks d =? 0)) in
  let! c := sfs_create_inode fs_at d i in
  match snd c with Some n => do! sfs_set_links n in ret (0, Some n) | None => ret (fst c, None) end.
Lemma load_reads fs_at s i a rest :
  GInv s -> used s i -> unloaded s i -> pool (priv s) = Some a :: rest ->
  exists s2, touch dop_io d0 (set_priv (set_pool rest (priv s)) s) s2 nowhere asis /\ sfs_load_inode dop_io fs_at i s = load_rest fs_at (din_of_bytes (disk s i)) i s2.
Proof.
  intros HG Hu Hul Hp. set (s1 := set_priv _ s). assert (HG1 : GInv s1) by (destruct HG; by split). unfold sfs_load_inode.
  assert (H1 : runs (lookup_sfs_nolock i) s (fun r s' => r = None /\ s' = s)) by (unfold lookup_sfs_nolock, rd_sfs; runs_steps; by apply lookup_unloaded).
  match goal with |- exists _, _ /\ bind ?m ?f s = _ => destruct (bind_ok m f s _ H1) as (x&s'&[-> ->]&->) end. cbv beta iota.
  assert (H2 : runs kmalloc s (fun r s' => r = Some a /\ s' = s1)) by (by eapply kmalloc_runs).
  match goal with |- exists _, _ /\ bind ?m ?f s = _ => destruct (bind_ok m f s _ H2) as (x&s'&[-> ->]&->) end. cbv beta iota.
  assert (H3 : runs (sfs_block_inuse i) s1 (fun r s' => r = true /\ s' = s1)) by (by apply (used_inuse_runs dop_io d0)).
  match goal with |- exists _, _ /\ bind ?m ?f s1 = _ => destruct (bind_ok m f s1 _ H3) as (x&s'&[-> ->]&->) end. cbv beta iota.
  assert (H4 : runs (sfs_rbuf dop_io 64 i 0) s1 (fun r s2 => r = (0, peek (dsk s1 i) 0 64) /\ touch dop_io d0 s1 s2 nowhere asis)) by (apply (sfs_rbuf_runs dop_io d0 s1 64 i 0 HG1); [apply Hu|unfold SFS_BLKSIZE; lia|lia|unfold SFS_BLKSIZE; lia]).
  match goal with |- exists _, _ /\ bind ?m ?f s1 = _ => change (bind m f s1) with (bind (sfs_rbuf dop_io 64 i 0) (fun r => if negb (fst r =? 0) then ret (fst r, None) else load_rest fs_at (din_of_bytes (snd r)) i) s1); destruct (bind_ok (sfs_rbuf dop_io 64 i 0) (fun r => if negb (fst r =? 0) then ret (fst r, None) else load_rest fs_at (din_of_bytes (snd r)) i) s1 _ H4) as (x&s2&[-> Ht]&->) end.
  exists s2. split; [done|]. cbn [fst snd negb Z.eqb]. reflexivity.
Qed.

Lemma load_inode_runs fs_at s i a n rest :
  GInv s -> used s i -> unloaded s i -> pool (priv s) = Some a :: Some n :: rest ->
  din_nlinks (din_of_bytes (disk s i)) <> 0 -> din_type (din_of_bytes (disk s i)) = SFS_TYPE_DIR \/ din_type (din_of_bytes (disk s i)) = SFS_TYPE_FILE ->
  runs (sfs_load_inode dop_io fs_at i) s (fun r s' => r = (0, Some n) /\ loaded fs_at i n rest s s').
Proof.
  intros HG Hu Hul Hp Hnl Hty. destruct (load_reads fs_at s i a (Some n :: rest) HG Hu Hul Hp) as (s2&Ht&He). unfold runs. rewrite He. set (s1 := set_priv _ s) in *. assert (HG1 : GInv s1) by (destruct HG; by split).
  change (runs (load_rest fs_at (din_of_bytes (disk s i)) i) s2 (fun r s' => r = (0, Some n) /\ loaded fs_at i n rest s s')). unfold load_rest.
  runs_steps. apply runs_assert; [apply negb_true_iff; by apply Z.eqb_neq|]. runs_steps. unfold sfs_create_inode. pose proof (touch_GInv dop_io d0 _ _ _ _ Ht HG1) as HG2. pose proof (to_st _ _ _ _ _ _ Ht) as Hst.
  set (d := din_of_bytes (disk s i)) in *. runs_steps. eapply kmalloc_runs; [by rewrite Hst|]. cbv beta iota. unfold alloc_inode, wr_inode. runs_steps. cbn [snd].
  assert (Hops : forall Q : Z -> st -> Prop, forall x, Q (if din_type d =? SFS_TYPE_DIR then sfs_node_dirops_at else sfs_node_fileops_at) x -> runs (sfs_get_ops (din_type d)) x Q).
  { intros Q x HQ. unfold sfs_get_ops. destruct Hty as [Hty|Hty]; rewrite Hty in *; cbn [Z.eqb]; by apply runs_ret. }
  apply Hops. unfold inode_init, inode_ref_inc, rd_inode, wr_inode. runs_steps. eapply runs_deref; [cbn; apply lookup_insert_eq|]. runs_steps. eapply runs_deref; [cbn; apply lookup_insert_eq|]. runs_steps.
  cbn [snd]. unfold sfs_set_links, upd_sfs. runs_steps. eapply rd_sin_runs; [cbn; apply lookup_insert_eq|]. runs_steps. split; [done|].
  assert (Hdsk : forall k o, 0 <= k < nblk -> 0 <= o < SFS_BLKSIZE -> dsk s2 k o = dsk s k o) by (intros k o Hk Ho; by rewrite (to_dsk _ _ _ _ _ _ Ht)). pose proof (g_blocks dop_io d0 s HG) as Hnb.
  split; cbn [priv set_priv sins xsfs set_xsfs set_sins set_inodes pool set_pool fmem inodes].
  - destruct HG2. by split.
  - by rewrite Hst.
  - by rewrite lookup_insert_eq.
  - intros k Hk. apply disk_ext. intros o Ho. by apply Hdsk.
  - intros k o [Hk _] Ho. apply Hdsk; [lia|done].
  - intros k. by rewrite Hst.
  - done.
Qed.

(** A kind of inode that the kernel has no table of operations for. *)
Lemma load_inode_panics fs_at s i a n rest :
  GInv s -> used s i -> unloaded s i -> pool (priv s) = Some a :: Some n :: rest ->
  din_type (din_of_bytes (disk s i)) <> SFS_TYPE_DIR -> din_type (din_of_bytes (disk s i)) <> SFS_TYPE_FILE -> sfs_load_inode dop_io fs_at i s = Panic.
Proof.
  intros HG Hu Hul Hp Hd Hf. destruct (load_reads fs_at s i a (Some n :: rest) HG Hu Hul Hp) as (s2&Ht&->). assert (Hp2 : pool (priv s2) = Some n :: rest) by (by rewrite (to_st _ _ _ _ _ _ Ht)).
  unfold load_rest, bind at 1, assert_. destruct (negb _); [|done]. unfold sfs_create_inode, kmalloc, alloc_inode, wr_inode, sfs_get_ops, bind, ret, get, put, modify. rewrite Hp2.
  by rewrite (proj2 (Z.eqb_neq _ _) Hd), (proj2 (Z.eqb_neq _ _) Hf).
Qed.

End Mount.
