(* ===== verification/Mksfs.v ===== *)
(** * The image builder (tools/mksfs.c)

    The host program that makes the disk image of SFS out of a directory of the host.
    What the host's calls deliver is input: the directory tree, with what successive
    [read]s of each file return, and whether each [pwrite] is complete.  [bug] ends the
    program, and so does a failed [assert] ([panic]).  The structures in memory
    ([cache_inode], [cache_block]) are named by the number of the block they will be
    written to, which is unique; the hash lists are kept, because a search goes through
    them.  The fields of an inode that the kernel shares are its [sfs_disk_inode]. *)

From stdpp Require Import base gmap list.
From Stdlib Require Import ZArith Lia Bool.
From S2P Require Import Prelude.
From S2P Require Import Sfs.

#[local] Abbreviation length := Datatypes.length.

Definition SFS_BLKBITS : Z := 32768.
Definition SFS_MAX_NBLKS : Z := 1024 * 512.
Definition HASH_LIST_SIZE : Z := 1024.
Definition SFS_L0_NBLKS : Z := SFS_NDIRECT.
Definition SFS_L1_NBLKS : Z := SFS_BLK_NENTRY + SFS_L0_NBLKS.
Definition SFS_L2_NBLKS : Z := SFS_BLK_NENTRY * SFS_BLK_NENTRY + SFS_L1_NBLKS.
Definition SFS_LN_NBLKS : Z := SFS_MAX_FILE_SIZE / SFS_BLKSIZE.

(** What the host has under a name.  [reads]: what the calls of [read] return before end of file
    ([eof]) or an error; [HBad]: [lstat], [open] or [opendir] fails; [HOther]: a pipe, socket
    or device. *)
Inductive hnode :=
| HFile (real : Z) (reads : list (list Z)) (eof : bool)
| HDir (real : Z) (es : list (list Z * hnode))
| HLink (real : Z) (target : option (list Z))
| HOther
| HBad.

Record cache_block := mkCb { cb_ino : Z; cache : list Z }.
Record cache_inode := mkCi { inode : sfs_disk_inode; db_indirect : Z; real : Z; ci_ino : Z; nblks : Z; l1 : option Z; l2 : option Z }.
Record msfs := mkMsfs {
  msuper : sfs_super;
  ninos : Z;
  next_ino : Z;
  cinodes : gmap Z cache_inode;
  cblocks : gmap Z cache_block;
  hinodes : gmap Z (list Z);
  hblocks : gmap Z (list Z);
  subpath : list (list Z);
  entry_name : list Z;
  img : gmap Z (list Z)
}.

Definition with_super v s := mkMsfs v (ninos s) (next_ino s) (cinodes s) (cblocks s) (hinodes s) (hblocks s) (subpath s) (entry_name s) (img s).
Definition with_next v s := mkMsfs (msuper s) (ninos s) v (cinodes s) (cblocks s) (hinodes s) (hblocks s) (subpath s) (entry_name s) (img s).
Definition with_inodes v h s := mkMsfs (msuper s) (ninos s) (next_ino s) v (cblocks s) h (hblocks s) (subpath s) (entry_name s) (img s).
Definition with_blocks v h s := mkMsfs (msuper s) (ninos s) (next_ino s) (cinodes s) v (hinodes s) h (subpath s) (entry_name s) (img s).
Definition with_subpath v s := mkMsfs (msuper s) (ninos s) (next_ino s) (cinodes s) (cblocks s) (hinodes s) (hblocks s) v (entry_name s) (img s).
Definition with_entry v s := mkMsfs (msuper s) (ninos s) (next_ino s) (cinodes s) (cblocks s) (hinodes s) (hblocks s) (subpath s) v (img s).
Definition with_img v s := mkMsfs (msuper s) (ninos s) (next_ino s) (cinodes s) (cblocks s) (hinodes s) (hblocks s) (subpath s) (entry_name s) v.
Definition with_inode v c := mkCi v (db_indirect c) (real c) (ci_ino c) (nblks c) (l1 c) (l2 c).
Definition with_db v c := mkCi (inode c) v (real c) (ci_ino c) (nblks c) (l1 c) (l2 c).
Definition with_nblks v c := mkCi (inode c) (db_indirect c) (real c) (ci_ino c) v (l1 c) (l2 c).
Definition with_l1 v c := mkCi (inode c) (db_indirect c) (real c) (ci_ino c) (nblks c) v (l2 c).
Definition with_l2 v c := mkCi (inode c) (db_indirect c) (real c) (ci_ino c) (nblks c) (l1 c) v.
Definition set_nlinks v d := mkDin (size d) (din_type d) v (blocks d) (direct d) (indirect d).

(** [hash32] and [hash64]: the bucket of a number. *)
Definition hash_bucket (v : Z) : Z := hash32 (u32 v) 10.

Section Mksfs.
Variable pwrite_ok : Z -> bool.

Definition rd_ci (c : Z) : M msfs cache_inode := let! s := get in deref (cinodes s !! c).
Definition upd_ci (c : Z) (f : cache_inode -> cache_inode) : M msfs unit :=
  let! i := rd_ci c in modify (fun s => with_inodes (<[c := f i]> (cinodes s)) (hinodes s) s).
Definition rd_cb (b : Z) : M msfs cache_block := let! s := get in deref (cblocks s !! b).
(** [data[i] = v] in the cache of a block. *)
Definition set_word (b i v : Z) : M msfs unit :=
  let! cb := rd_cb b in modify (fun s => with_blocks (<[b := mkCb (cb_ino cb) (<[Z.to_nat i := v]> (cache cb))]> (cblocks s)) (hblocks s) s).
Definition get_word (b i : Z) : M msfs Z := let! cb := rd_cb b in deref (cache cb !! Z.to_nat i).

Definition sfs_alloc_ino : M msfs Z :=
  let! s := get in
  if next_ino s <? ninos s then
    do! modify (fun s => with_super (set_unused (u32 (unused_blocks (msuper s) - 1)) (msuper s)) s) in
    do! modify (with_next (next_ino s + 1)) in ret (next_ino s)
  else panic.

Definition push (b x : Z) (h : gmap Z (list Z)) : gmap Z (list Z) := <[b := x :: default [] (h !! b)]> h.
Definition alloc_cache_block (ino : Z) : M msfs Z :=
  let! n := (if negb (ino =? 0) then ret ino else sfs_alloc_ino) in
  do! modify (fun s => with_blocks (<[n := mkCb n (replicate 1024 0)]> (cblocks s)) (push (hash_bucket ino) n (hblocks s)) s) in
  ret n.
Fixpoint find_block (l : list Z) (ino : Z) : M msfs (option Z) :=
  match l with
  | [] => ret None
  | b :: l => let! cb := rd_cb b in if cb_ino cb =? ino then ret (Some b) else find_block l ino
  end.
Definition search_cache_block (ino : Z) : M msfs (option Z) :=
  let! s := get in find_block (default [] (hblocks s !! hash_bucket ino)) ino.

Definition zero_din (type : Z) : sfs_disk_inode := mkDin 0 type 0 0 (replicate 12 0) 0.
Definition alloc_cache_inode (real ino type : Z) : M msfs Z :=
  let! n := (if negb (ino =? 0) then ret ino else sfs_alloc_ino) in
  do! modify (fun s => with_inodes (<[n := mkCi (zero_din type) 0 real n 0 None None]> (cinodes s)) (push (hash_bucket real) n (hinodes s)) s) in
  ret n.
Fixpoint find_inode (l : list Z) (r : Z) : M msfs (option Z) :=
  match l with
  | [] => ret None
  | c :: l => let! ci := rd_ci c in if real ci =? r then ret (Some c) else find_inode l r
  end.
Definition search_cache_inode (r : Z) : M msfs (option Z) :=
  let! s := get in find_inode (default [] (hinodes s !! hash_bucket r)) r.

(** "simple file system"; [junk]: what is behind its NUL in the [malloc]ed super block. *)
Definition info_text : list Z := [115; 105; 109; 112; 108; 101; 32; 102; 105; 108; 101; 32; 115; 121; 115; 116; 101; 109].
Definition create_sfs (st_size : Z) (junk : list Z) : M msfs Z :=
  let n := u32 (st_size / SFS_BLKSIZE) in
  let n := if SFS_MAX_NBLKS <? n then SFS_MAX_NBLKS else n in
  let next := SFS_BLKN_FREEMAP + (n + SFS_BLKBITS - 1) / SFS_BLKBITS in
  if n <=? next then panic
  else
    do! modify (fun s => mkMsfs (mkSuper SFS_MAGIC n (n - next) (info_text ++ 0 :: junk)) n next ∅ ∅ ∅ ∅ [] (entry_name s) (img s)) in
    alloc_cache_inode 0 SFS_BLKN_ROOT SFS_TYPE_DIR.

Definition subpath_push (name : list Z) : M msfs unit := modify (fun s => with_subpath (name :: subpath s) s).
Definition subpath_pop : M msfs unit :=
  let! s := get in
  match subpath s with [] => panic | _ :: l => modify (with_subpath l) end.

(** ** Writing the image *)

Definition pad (l : list Z) : list Z := l ++ replicate (4096 - length l) 0.
Definition write_block (data : list Z) (ino : Z) : M msfs unit :=
  let! s := get in
  do! assert_ ((Z.of_nat (length data) <=? SFS_BLKSIZE) && (ino <? ninos s)) in
  if pwrite_ok ino then modify (fun s => with_img (<[ino := pad data]> (img s)) s) else panic.
Definition inode_bytes (c : cache_inode) : list Z := din_bytes (inode c) ++ put_le 4 (db_indirect c).
Definition flush_cache_block (b : Z) : M msfs unit := let! cb := rd_cb b in write_block (put_words (cache cb)) (cb_ino cb).
Definition flush_cache_inode (c : Z) : M msfs unit := let! ci := rd_ci c in write_block (inode_bytes ci) (ci_ino ci).

(** [k] bits from [j] on. *)
Fixpoint set_bits (k : nat) (j : Z) (data : list Z) : list Z :=
  match k with
  | O => data
  | S k => set_bits k (j + 1) (alter (fun w => Z.lor w (Z.shiftl 1 (j mod 32))) (Z.to_nat (j / 32)) data)
  end.
(** The words of the block of the freemap that starts with bit [i]. *)
Definition freemap_block (n next i : Z) : list Z :=
  if next <? u32 (i + SFS_BLKBITS) then
    let start := if i <? next then next - i else 0 in
    let end_ := if n <? u32 (i + SFS_BLKBITS) then n - i else SFS_BLKBITS in
    set_bits (Z.to_nat (end_ - start)) start (replicate 1024 0)
  else replicate 1024 0.
Fixpoint freemap_loop (fuel : nat) (n next i ino : Z) : M msfs unit :=
  if i <? n then
    match fuel with
    | O => nofuel
    | S fuel => do! write_block (put_words (freemap_block n next i)) ino in freemap_loop fuel n next (u32 (i + SFS_BLKBITS)) (u32 (ino + 1))
    end
  else ret tt.
Fixpoint each (f : Z -> M msfs unit) (l : list Z) : M msfs unit :=
  match l with [] => ret tt | x :: l => do! f x in each f l end.
Definition flush_bucket (i : Z) : M msfs unit :=
  let! s := get in
  do! each flush_cache_block (default [] (hblocks s !! i)) in
  each flush_cache_inode (default [] (hinodes s !! i)).
Definition close_sfs : M msfs unit :=
  let! s := get in
  do! freemap_loop 32 (ninos s) (next_ino s) 0 SFS_BLKN_FREEMAP in
  let! s := get in
  do! write_block (super_bytes (msuper s)) SFS_BLKN_SUPER in
  each flush_bucket (seqZ 0 HASH_LIST_SIZE).

(** ** Files *)

(** [*cbp], [*inop]; result: their new values. *)
Definition update_cache (cbp : option Z) (ino : Z) : M msfs (Z * Z) :=
  if ino =? 0 then
    let! b := alloc_cache_block 0 in let! cb := rd_cb b in ret (b, cb_ino cb)
  else
    let! hit := (match cbp with None => ret false | Some b => let! cb := rd_cb b in ret (cb_ino cb =? ino) end) in
    match cbp with
    | Some b => if hit : bool then ret (b, ino) else
        let! r := search_cache_block ino in match r with Some b => ret (b, ino) | None => panic end
    | None => let! r := search_cache_block ino in match r with Some b => ret (b, ino) | None => panic end
    end.

Definition append_block (file size_ ino : Z) : M msfs unit :=
  do! assert_ (size_ <=? SFS_BLKSIZE) in
  let! ci := rd_ci file in
  let n := nblks ci in
  if SFS_LN_NBLKS <=? n then panic
  else
    do! (if n <? SFS_L0_NBLKS then upd_ci file (fun c => with_inode (set_direct (<[Z.to_nat n := ino]> (direct (inode c))) (inode c)) c)
         else if n <? SFS_L1_NBLKS then
           let! r := update_cache (l1 ci) (indirect (inode ci)) in
           do! upd_ci file (fun c => with_l1 (Some (fst r)) (with_inode (set_indirect (snd r) (inode c)) c)) in
           set_word (fst r) (n - SFS_L0_NBLKS) ino
         else if n <? SFS_L2_NBLKS then
           let n := n - SFS_L1_NBLKS in
           let! r2 := update_cache (l2 ci) (db_indirect ci) in
           do! upd_ci file (fun c => with_l2 (Some (fst r2)) (with_db (snd r2) c)) in
           let! w := get_word (fst r2) (n / SFS_BLK_NENTRY) in
           let! r1 := update_cache (l1 ci) w in
           do! set_word (fst r2) (n / SFS_BLK_NENTRY) (snd r1) in
           do! upd_ci file (with_l1 (Some (fst r1))) in
           set_word (fst r1) (n mod SFS_BLK_NENTRY) ino
         else ret tt) in
    upd_ci file (fun c => with_nblks (u32 (nblks c + 1)) (with_inode (set_blocks (u32 (blocks (inode c) + 1)) (set_size (u32 (size (inode c) + size_)) (inode c))) c)).

Definition add_entry (current file : Z) (name : list Z) : M msfs unit :=
  let! cur := rd_ci current in
  do! assert_ ((din_type (inode cur) =? SFS_TYPE_DIR) && (Z.of_nat (length name) <=? SFS_MAX_FNAME_LEN)) in
  let! f := rd_ci file in
  do! modify (fun s => with_entry (name ++ 0 :: drop (S (length name)) (entry_name s)) s) in
  let! entry_ino := sfs_alloc_ino in
  let! s := get in
  do! write_block (take 256 (put_le 4 (ci_ino f) ++ entry_name s)) entry_ino in
  do! append_block current 256 entry_ino in
  upd_ci file (fun c => with_inode (set_nlinks ((din_nlinks (inode c) + 1) mod 65536) (inode c)) c).

Fixpoint open_file (file last : Z) (reads : list (list Z)) (eof : bool) : M msfs unit :=
  match reads with
  | [] => if eof then ret tt else panic
  | b :: reads =>
      do! assert_ (last =? SFS_BLKSIZE) in
      let! ino := sfs_alloc_ino in
      do! write_block b ino in
      do! append_block file (Z.of_nat (length b)) ino in
      open_file file (Z.of_nat (length b)) reads eof
  end.
Definition open_link (file : Z) (target : option (list Z)) : M msfs unit :=
  let! ino := sfs_alloc_ino in
  match target with
  | None => panic
  | Some t =>
      if Z.of_nat (length t) =? SFS_BLKSIZE then panic
      else do! write_block t ino in append_block file (Z.of_nat (length t)) ino
  end.
Definition add_file (current : Z) (filename : list Z) (reads : list (list Z)) (eof : bool) (r : Z) : M msfs unit :=
  let! found := search_cache_inode r in
  let! file := (match found with
                | Some c => ret c
                | None => let! c := alloc_cache_inode r 0 SFS_TYPE_FILE in do! open_file c SFS_BLKSIZE reads eof in ret c
                end) in
  add_entry current file filename.
Definition add_link (current : Z) (filename : list Z) (target : option (list Z)) (r : Z) : M msfs unit :=
  let! file := alloc_cache_inode r 0 SFS_TYPE_LINK in
  do! open_link file target in
  add_entry current file filename.

(** [open_]: [open_dir] of the directory. *)
Definition add_dir (open_ : Z -> Z -> M msfs unit) (parent : Z) (dirname : list Z) (r : Z) : M msfs unit :=
  let! found := search_cache_inode r in
  do! assert_ (bool_decide (found = None)) in
  let! current := alloc_cache_inode r 0 SFS_TYPE_DIR in
  do! subpath_push dirname in
  do! open_ current parent in
  do! subpath_pop in
  add_entry parent current dirname.

(** The names [open_dir] passes over. *)
Definition skipped (name : list Z) : bool :=
  bool_decide (name = [46]) || bool_decide (name = [46; 46]) || (match name with c :: _ => c =? 46 | [] => false end).
(** [visit]: what is done with the rest of the loop's body. *)
Definition dir_loop (visit : Z -> list Z -> hnode -> M msfs unit) (current : Z) : list (list Z * hnode) -> M msfs unit :=
  fix loop es :=
    match es with
    | [] => ret tt
    | (name, h) :: es =>
        do! (if skipped name then ret tt
             else if SFS_MAX_FNAME_LEN <? Z.of_nat (length name) then panic
             else visit current name h) in
        loop es
    end.
Definition open_dir_with (visit : Z -> list Z -> hnode -> M msfs unit) (es : list (list Z * hnode)) (current parent : Z) : M msfs unit :=
  do! add_entry current current [46] in
  do! add_entry current parent [46; 46] in
  dir_loop visit current es.
Fixpoint add_node (current : Z) (name : list Z) (h : hnode) {struct h} : M msfs unit :=
  match h with
  | HLink r t => add_link current name t r
  | HDir r es => add_dir (open_dir_with add_node es) current name r
  | HFile r reads eof => add_file current name reads eof r
  | HOther => ret tt
  | HBad => panic
  end.
Definition open_dir (es : list (list Z * hnode)) (current parent : Z) : M msfs unit := open_dir_with add_node es current parent.

Definition create_img (root : Z) (es : list (list Z * hnode)) : M msfs unit :=
  do! open_dir es root root in close_sfs.
Definition mksfs (st_size : Z) (junk : list Z) (es : list (list Z * hnode)) : M msfs unit :=
  let! root := create_sfs st_size junk in create_img root es.
End Mksfs.
