(* ===== verification/MksfsInv.v ===== *)
(** * The image builder: what an image holds, and the builder's invariant

    [rep v R par i h]: the inode [i] of the image [v] is what the host has in [h], as the
    kernel's decoding functions (Sfs.v) read it; [R]: the blocks it may occupy.  While the
    builder runs, the image is [vimg s]: what is written, covered by what is cached. *)

From stdpp Require Import base gmap list.
From Stdlib Require Import ZArith Lia Bool.
From S2P Require Import Prelude.
From S2P Require Import Sfs.
From S2P Require Import SfsInv.
From S2P Require Import SfsThm.
From S2P Require Import SfsTrunc.
From S2P Require Import Mksfs.

#[local] Abbreviation length := Datatypes.length.
Abbreviation image := (Z -> list Z).

(** ** Host trees *)

Section HnodeInd.
Variables (P : hnode -> Prop) (Q : list (list Z * hnode) -> Prop).
Hypotheses
  (HPf : forall r reads eof, P (HFile r reads eof))
  (HPd : forall r es, Q es -> P (HDir r es))
  (HPl : forall r t, P (HLink r t))
  (HPo : P HOther)
  (HPb : P HBad)
  (HQn : Q [])
  (HQc : forall n h es, P h -> Q es -> Q ((n, h) :: es)).
Fixpoint hnode_ind2 (h : hnode) : P h :=
  match h with
  | HFile r reads eof => HPf r reads eof
  | HDir r es => HPd r es ((fix go es : Q es := match es with [] => HQn | (n, h) :: es => HQc n h es (hnode_ind2 h) (go es) end) es)
  | HLink r t => HPl r t
  | HOther => HPo
  | HBad => HPb
  end.
End HnodeInd.

Definition other (h : hnode) : bool := match h with HOther => true | _ => false end.
Definition hidden (n : list Z) (h : hnode) : bool := skipped n || other h.
Definition is_dir (h : hnode) : bool := match h with HDir _ _ => true | _ => false end.
(** The entries that get into the image. *)
Definition shown (es : list (list Z * hnode)) : list (list Z * hnode) := filter (fun e => hidden (fst e) (snd e) = false) es.
Definition subdirs (es : list (list Z * hnode)) : Z := Z.of_nat (length (filter (fun e => is_dir (snd e) = true) (shown es))).

(** ** Images *)

Definition vdin (v : image) (i : Z) : sfs_disk_inode := din_of_bytes (v i).
(** The name and the inode of the directory entry in block [b], as the kernel reads them. *)
Definition ventry (v : image) (b : Z) : list Z * Z :=
  let e := entry_of_bytes (take 260 (v b)) in (cstr (<[255%nat := 0]> (e_name e)), e_ino e).
(** The inode [d] maps the blocks [blks]. *)
Record maps (R : Z -> Prop) (v : image) (d : sfs_disk_inode) (blks : list Z) : Prop := {
  mp_len : blocks d = Z.of_nat (length blks) /\ blocks d <= MAXBLKS;
  mp_direct : direct d = take 12 (blks ++ replicate 12 0);
  mp_small : (length blks <= 12)%nat -> indirect d = 0;
  mp_big : (12 < length blks)%nat -> indirect d <> 0 /\ get_words 1024 (v (indirect d)) = take 1024 (drop 12 blks ++ replicate 1024 0);
  mp_nodup : NoDup (own d blks);
  mp_own : Forall R (own d blks)
}.
Definition holds (R : Z -> Prop) (v : image) (i type : Z) (data : list (list Z)) : Prop :=
  R i /\ exists blks, maps R v (vdin v i) blks /\ din_type (vdin v i) = type /\ din_nlinks (vdin v i) = 1 /\
    size (vdin v i) = Z.of_nat (length (concat data)) /\ v <$> blks = pad <$> data.

Fixpoint rep (v : image) (R : Z -> Prop) (par i : Z) (h : hnode) {struct h} : Prop :=
  match h with
  | HFile _ reads _ => holds R v i SFS_TYPE_FILE reads
  | HLink _ (Some t) => holds R v i SFS_TYPE_LINK [t]
  | HDir _ es =>
      R i /\ exists blks rest, maps R v (vdin v i) blks /\ din_type (vdin v i) = SFS_TYPE_DIR /\ din_nlinks (vdin v i) = 2 + subdirs es /\
        size (vdin v i) = 256 * Z.of_nat (length blks) /\ ventry v <$> blks = ([46], i) :: ([46; 46], par) :: rest /\
        (fix reps es rest : Prop :=
           match es with
           | [] => rest = []
           | (n, h) :: es =>
               if hidden n h then reps es rest
               else exists j rest', rest = (take 252 n, j) :: rest' /\ rep v R i j h /\ reps es rest'
           end) es rest
  | _ => False
  end.
(** The entries [rest] of the directory [i] are the shown ones of [es]. *)
Definition reps (v : image) (R : Z -> Prop) (i : Z) : list (list Z * hnode) -> list (list Z * Z) -> Prop :=
  fix reps es rest : Prop :=
    match es with
    | [] => rest = []
    | (n, h) :: es =>
        if hidden n h then reps es rest
        else exists j rest', rest = (take 252 n, j) :: rest' /\ rep v R i j h /\ reps es rest'
    end.
Lemma rep_dir v R par i r es : rep v R par i (HDir r es) <->
  R i /\ exists blks rest, maps R v (vdin v i) blks /\ din_type (vdin v i) = SFS_TYPE_DIR /\ din_nlinks (vdin v i) = 2 + subdirs es /\
    size (vdin v i) = 256 * Z.of_nat (length blks) /\ ventry v <$> blks = ([46], i) :: ([46; 46], par) :: rest /\ reps v R i es rest.
Proof. reflexivity. Qed.
Lemma reps_cons v R i n h es rest : reps v R i ((n, h) :: es) rest =
  if hidden n h then reps v R i es rest else exists j rest', rest = (take 252 n, j) :: rest' /\ rep v R i j h /\ reps v R i es rest'.
Proof. reflexivity. Qed.

(** Only the blocks in [R] matter. *)
Section Frame.
Variables (v v' : image) (R R' : Z -> Prop).
Hypotheses (HR : forall k, R k -> R' k) (Hv : forall k, R k -> v' k = v k).

Lemma maps_mono d blks : maps R v d blks -> maps R' v' d blks.
Proof.
  intros [? ? ? Hb ? Ho]. split; try done; [|by eapply Forall_impl]. intros Hl. destruct (Hb Hl) as [Hi Hw]. split; [done|]. rewrite Hv; [done|].
  rewrite Forall_forall in Ho. by apply Ho, own_indirect.
Qed.
Lemma maps_same {A} (f : image -> Z -> A) d blks : (forall k, v' k = v k -> f v' k = f v k) -> maps R v d blks -> f v' <$> blks = f v <$> blks.
Proof.
  intros Hf Hm. apply list_fmap_ext. intros j k Hk. apply Hf, Hv. pose proof (mp_own _ _ _ _ Hm) as Ho. rewrite Forall_forall in Ho. apply Ho, own_blks. by eapply list_elem_of_lookup_2.
Qed.
Lemma holds_mono i type data : holds R v i type data -> holds R' v' i type data.
Proof.
  intros (Hi&blks&Hm&Ht&Hn&Hs&Hd). split; [by apply HR|]. exists blks. unfold vdin in *. rewrite (Hv i Hi). split; [by apply maps_mono|]. split; [done|]. split; [done|]. split; [done|].
  rewrite <-Hd. by apply (maps_same (fun v k => v k) (din_of_bytes (v i))).
Qed.
Lemma rep_mono h : forall par i, rep v R par i h -> rep v' R' par i h.
Proof.
  apply (hnode_ind2 (fun h => forall par i, rep v R par i h -> rep v' R' par i h) (fun es => forall i rest, reps v R i es rest -> reps v' R' i es rest)).
  - intros r reads eof par i. apply holds_mono.
  - intros r es IH par i. rewrite !rep_dir. intros (Hi&blks&rest&Hm&Ht&Hn&Hs&He&Hr). split; [by apply HR|]. exists blks, rest. unfold vdin in *. rewrite (Hv i Hi).
    split; [by apply maps_mono|]. split; [done|]. split; [done|]. split; [done|]. split; [|by apply IH]. rewrite <-He. apply (maps_same ventry (din_of_bytes (v i))); [|done]. intros k Hk. unfold ventry. by rewrite Hk.
  - intros r [t|] par i; [apply holds_mono|done].
  - done.
  - done.
  - done.
  - intros n h' es IH IHs i rest. rewrite !reps_cons. destruct (hidden n h'); [apply IHs|]. intros (j&rest'&->&Hr&Hrs). exists j, rest'. split; [done|]. split; [by apply IH|by apply IHs].
Qed.
Lemma reps_mono i es : forall rest, reps v R i es rest -> reps v' R' i es rest.
Proof.
  induction es as [|[n h] es IH]; intros rest; [done|]. rewrite !reps_cons. destruct (hidden n h); [apply IH|]. intros (j&rest'&->&Hr&Hrs). exists j, rest'. split; [done|]. split; [by apply rep_mono|by apply IH].
Qed.
End Frame.

(** ** The blocks of a tree *)

(** The data blocks an inode names, read from it and its indirect block. *)
Definition blks_of (v : image) (d : sfs_disk_inode) : list Z := take (Z.to_nat (blocks d)) (direct d ++ get_words 1024 (v (indirect d))).
Definition own_of (v : image) (i : Z) : list Z := own (vdin v i) (blks_of v (vdin v i)).
Definition entries_of (v : image) (i : Z) : list (list Z * Z) := drop 2 (ventry v <$> blks_of v (vdin v i)).
(** All blocks that the inode [i] and what is under it occupy, one occurrence for each use:
    inodes, data blocks, blocks of entries, indirect blocks. *)
Fixpoint occupies (v : image) (i : Z) (h : hnode) {struct h} : list Z :=
  match h with
  | HFile _ _ _ | HLink _ _ => i :: own_of v i
  | HDir _ es =>
      i :: own_of v i ++
        (fix kids es rest : list Z :=
           match es with
           | [] => []
           | (n, h) :: es => if hidden n h then kids es rest else match rest with [] => [] | (_, j) :: rest => occupies v j h ++ kids es rest end
           end) es (entries_of v i)
  | _ => []
  end.
Definition kids (v : image) : list (list Z * hnode) -> list (list Z * Z) -> list Z :=
  fix kids es rest : list Z :=
    match es with
    | [] => []
    | (n, h) :: es => if hidden n h then kids es rest else match rest with [] => [] | (_, j) :: rest => occupies v j h ++ kids es rest end
    end.
Lemma occupies_dir v i r es : occupies v i (HDir r es) = i :: own_of v i ++ kids v es (entries_of v i).
Proof. reflexivity. Qed.
Lemma kids_cons v n h es rest : kids v ((n, h) :: es) rest = if hidden n h then kids v es rest else match rest with [] => [] | (_, j) :: rest => occupies v j h ++ kids v es rest end.
Proof. reflexivity. Qed.

Lemma maps_blks R v d blks : maps R v d blks -> blks_of v d = blks.
Proof.
  intros [[Hb Hm] Hd Hs Hbig _ _]. unfold blks_of. rewrite Hb, Nat2Z.id, Hd. destruct (decide (length blks <= 12)%nat) as [Hl|Hl].
  - rewrite (take_app_ge blks) by done. rewrite <-app_assoc. by rewrite take_app_length.
  - destruct (Hbig ltac:(lia)) as [_ ->]. change MAXBLKS with 1036 in Hm. rewrite Hb in Hm. rewrite (take_app_le blks) by lia. rewrite take_app_ge by (rewrite length_take; lia). rewrite length_take, Nat.min_l by lia.
    rewrite take_take, Nat.min_l by lia. rewrite take_app_le by (rewrite length_drop; lia). rewrite (take_ge (drop 12 blks)) by (rewrite length_drop; lia). apply take_drop.
Qed.
Lemma own_of_maps R v i blks : maps R v (vdin v i) blks -> own_of v i = own (vdin v i) blks.
Proof. intros Hm. unfold own_of. by rewrite (maps_blks _ _ _ _ Hm). Qed.
Lemma entries_of_maps R v i blks e1 e2 rest : maps R v (vdin v i) blks -> ventry v <$> blks = e1 :: e2 :: rest -> entries_of v i = rest.
Proof. intros Hm He. unfold entries_of. by rewrite (maps_blks _ _ _ _ Hm), He. Qed.

Lemma holds_own R v i type data : holds R v i type data -> Forall R (i :: own_of v i).
Proof. intros (Hi&blks&Hm&_). rewrite (own_of_maps _ _ _ _ Hm). constructor; [done|apply Hm]. Qed.
Lemma occupies_in v R h : forall par i, rep v R par i h -> Forall R (occupies v i h).
Proof.
  apply (hnode_ind2 (fun h => forall par i, rep v R par i h -> Forall R (occupies v i h)) (fun es => forall i rest, reps v R i es rest -> Forall R (kids v es rest))).
  - intros r reads eof par i. apply holds_own.
  - intros r es IH par i. rewrite rep_dir, occupies_dir. intros (Hi&blks&rest&Hm&_&_&_&He&Hr). rewrite (own_of_maps _ _ _ _ Hm), (entries_of_maps _ _ _ _ _ _ _ Hm He). constructor; [done|]. apply Forall_app. split; [apply Hm|by eapply IH].
  - intros r [t|] par i; [apply holds_own|done].
  - done.
  - done.
  - done.
  - intros n h' es IH IHs i rest. rewrite reps_cons, kids_cons. destruct (hidden n h'); [apply IHs|]. intros (j&rest'&->&Hr&Hrs). apply Forall_app. split; [by eapply IH|by eapply IHs].
Qed.
Lemma kids_in v R es : forall i rest, reps v R i es rest -> Forall R (kids v es rest).
Proof.
  induction es as [|[n h] es IH]; intros i rest; [done|]. rewrite reps_cons, kids_cons. destruct (hidden n h); [apply IH|]. intros (j&rest'&->&Hr&Hrs). apply Forall_app. split; [by eapply occupies_in|by eapply IH].
Qed.

(** What a tree occupies depends on its own blocks only. *)
Section OccFrame.
Variables (v v' : image) (R : Z -> Prop).
Hypothesis Hv : forall k, R k -> v' k = v k.
Lemma own_of_frame i blks : R i -> maps R v (vdin v i) blks -> vdin v' i = vdin v i /\ maps R v' (vdin v' i) blks /\ own_of v' i = own_of v i.
Proof.
  intros Hi Hm. assert (Hd : vdin v' i = vdin v i) by (unfold vdin; by rewrite Hv). split; [done|]. pose proof (maps_mono v v' R R ltac:(done) Hv _ _ Hm) as Hm'. rewrite Hd.
  split; [done|]. rewrite (own_of_maps R v i blks) by done. rewrite (own_of_maps R v' i blks) by (by rewrite Hd). by rewrite Hd.
Qed.
Lemma holds_occ i type data : holds R v i type data -> i :: own_of v' i = i :: own_of v i.
Proof. intros (Hi&blks&Hm&_). by destruct (own_of_frame i blks Hi Hm) as (_&_&->). Qed.
Lemma occupies_frame h : forall par i, rep v R par i h -> occupies v' i h = occupies v i h.
Proof.
  apply (hnode_ind2 (fun h => forall par i, rep v R par i h -> occupies v' i h = occupies v i h) (fun es => forall i rest, reps v R i es rest -> kids v' es rest = kids v es rest)).
  - intros r reads eof par i. apply holds_occ.
  - intros r es IH par i. rewrite rep_dir, !occupies_dir. intros (Hi&blks&rest&Hm&_&_&_&He&Hr). destruct (own_of_frame i blks Hi Hm) as (Hd&Hm'&->). rewrite (entries_of_maps _ _ _ _ _ _ _ Hm He).
    assert (He' : ventry v' <$> blks = ventry v <$> blks) by (apply (maps_same v v' R Hv ventry (vdin v i)); [|done]; intros k Hk; unfold ventry; by rewrite Hk). rewrite He in He'. rewrite (entries_of_maps _ _ _ _ _ _ _ Hm' He'). do 2 f_equal. by eapply IH.
  - intros r [t|] par i; [apply holds_occ|done].
  - done.
  - done.
  - done.
  - intros n h' es IH IHs i rest. rewrite reps_cons, !kids_cons. destruct (hidden n h'); [apply IHs|]. intros (j&rest'&->&Hr&Hrs). by rewrite (IH _ _ Hr), (IHs _ _ Hrs).
Qed.
Lemma kids_frame i es : forall rest, reps v R i es rest -> kids v' es rest = kids v es rest.
Proof.
  induction es as [|[n h] es IH]; intros rest; [done|]. rewrite reps_cons, !kids_cons. destruct (hidden n h); [apply IH|]. intros (j&rest'&->&Hr&Hrs). by rewrite (occupies_frame _ _ _ Hr), (IH _ Hrs).
Qed.
End OccFrame.
