(* ===== verification/MksfsOps.v ===== *)
(** * The image builder: its invariant, and appending blocks to files *)

From stdpp Require Import base gmap list.
From Stdlib Require Import ZArith Lia Bool.
From S2P Require Import Prelude.
From S2P Require Import Sfs.
From S2P Require Import SfsInv.
From S2P Require Import SfsThm.
From S2P Require Import SfsTrunc.
From S2P Require Import Mksfs.
From S2P Require Import MksfsInv.

#[local] Abbreviation length := Datatypes.length.
#[local] Arguments replicate : simpl never.

Definition vimg (s : msfs) : image := fun k =>
  match cinodes s !! k with
  | Some ci => pad (inode_bytes ci)
  | None => match cblocks s !! k with Some cb => pad (put_words (cache cb)) | None => default [] (img s !! k) end
  end.

Section Ops.
Variable pwrite_ok : Z -> bool.
Hypothesis pwrite_all : forall k, pwrite_ok k = true.
(** The first block behind the freemap. *)
Variable f0 : Z.
Implicit Types (s : msfs) (c k : Z) (ci : cache_inode) (blks : list Z).

Record Inv s : Prop := {
  iv_next : 3 <= f0 <= next_ino s /\ next_ino s <= ninos s <= SFS_MAX_NBLKS;
  iv_super : exists inf, msuper s = mkSuper SFS_MAGIC (ninos s) (ninos s - next_ino s) inf /\ length inf = 32%nat;
  iv_ci : forall c ci, cinodes s !! c = Some ci -> ci_ino ci = c /\ (c = 1 \/ f0 <= c < next_ino s) /\ din_wf (inode ci) /\ db_indirect ci = 0;
  iv_cb : forall b cb, cblocks s !! b = Some cb -> cb_ino cb = b /\ f0 <= b < next_ino s /\ length (cache cb) = 1024%nat /\ Forall (fun w => 0 <= w < W32) (cache cb) /\ cinodes s !! b = None;
  iv_hi : (forall c ci, cinodes s !! c = Some ci -> c ∈ default [] (hinodes s !! hash_bucket (real ci))) /\
          forall i c, c ∈ default [] (hinodes s !! i) -> is_Some (cinodes s !! c);
  iv_hb : (forall b, is_Some (cblocks s !! b) -> b ∈ default [] (hblocks s !! hash_bucket 0)) /\
          forall i b, b ∈ default [] (hblocks s !! i) -> is_Some (cblocks s !! b);
  iv_entry : length (entry_name s) = 256%nat
}.

(** [c] is a file or directory whose blocks are [blks]. *)
Record fileof s c ci blks : Prop := {
  fo_ci : cinodes s !! c = Some ci;
  fo_n : nblks ci = Z.of_nat (length blks) /\ blocks (inode ci) = Z.of_nat (length blks) /\ Z.of_nat (length blks) <= MAXBLKS;
  fo_direct : direct (inode ci) = take 12 (blks ++ replicate 12 0);
  fo_small : (length blks <= 12)%nat -> indirect (inode ci) = 0 /\ l1 ci = None;
  fo_big : (12 < length blks)%nat -> indirect (inode ci) <> 0 /\ l1 ci = Some (indirect (inode ci)) /\
    exists cb, cblocks s !! indirect (inode ci) = Some cb /\ cache cb = take 1024 (drop 12 blks ++ replicate 1024 0);
  fo_nodup : NoDup (own (inode ci) blks);
  fo_own : forall k, k ∈ own (inode ci) blks -> f0 <= k < next_ino s /\ k <> c
}.

Definition same s s' k : Prop := cinodes s' !! k = cinodes s !! k /\ cblocks s' !! k = cblocks s !! k /\ img s' !! k = img s !! k.
(** From [s] to [s'] blocks in [W] may have changed, and inodes for files in [N] may have been added. *)
Record prog (W N : Z -> Prop) s s' : Prop := {
  pg_same : forall k, 0 < k < next_ino s -> ~ W k -> same s s' k;
  pg_next : next_ino s <= next_ino s';
  pg_ninos : ninos s' = ninos s;
  pg_sub : subpath s' = subpath s;
  pg_real : forall c ci', cinodes s' !! c = Some ci' -> N (real ci') \/ exists ci, cinodes s !! c = Some ci /\ real ci = real ci';
  pg_info : info (msuper s') = info (msuper s)
}.
Definition unknown s r : Prop := forall c ci, cinodes s !! c = Some ci -> real ci <> r.

Lemma same_refl s k : same s s k.
Proof. done. Qed.
Lemma prog_trans W1 N1 W2 N2 W N s s1 s2 : prog W1 N1 s s1 -> prog W2 N2 s1 s2 -> (forall k, 0 < k < next_ino s -> W1 k \/ W2 k -> W k) -> (forall r, N1 r \/ N2 r -> N r) -> prog W N s s2.
Proof.
  intros [A1 A2 A3 A4 A5 A6] [B1 B2 B3 B4 B5 B6] HW HN. split; [| |congruence|congruence| |congruence].
  - intros k Hk Hw. destruct (A1 k Hk) as (E1&E2&E3); [intros H; apply Hw, HW; auto|]. destruct (B1 k) as (F1&F2&F3); [lia|intros H; apply Hw, HW; auto|]. unfold same. by rewrite F1, F2, F3.
  - lia.
  - intros c ci' H. destruct (B5 _ _ H) as [Hn|(ci1&H1&Hr)]; [left; auto|]. destruct (A5 _ _ H1) as [Hn|(ci&H0&Hr0)]; [left; apply HN; left; by rewrite <-Hr|right]. exists ci. by rewrite Hr0.
Qed.
Lemma prog_weaken (W N W' N' : Z -> Prop) s s' : prog W N s s' -> (forall k, 0 < k < next_ino s -> W k -> W' k) -> (forall r, N r -> N' r) -> prog W' N' s s'.
Proof. intros [A1 A2 A3 A4 A5 A6] HW HN. split; try done; [intros k Hk Hw; apply A1; auto|]. intros c ci' H. destruct (A5 _ _ H); auto. Qed.
Lemma prog_refl W N s : prog W N s s.
Proof. split; try done. intros c ci H. eauto. Qed.
Lemma prog_unknown W N s s' r : prog W N s s' -> unknown s r -> ~ N r -> unknown s' r.
Proof. intros [_ _ _ _ H _] Hu Hn c ci Hc Hr. destruct (H _ _ Hc) as [|(ci0&H0&Hr0)]; [by subst|]. apply (Hu _ _ H0). congruence. Qed.
Lemma same_vimg s s' k : same s s' k -> vimg s' k = vimg s k.
Proof. intros (H1&H2&H3). unfold vimg. by rewrite H1, H2, H3. Qed.
Lemma prog_vimg W N s s' k : prog W N s s' -> 0 < k < next_ino s -> ~ W k -> vimg s' k = vimg s k.
Proof. intros Hp Hk Hw. apply same_vimg. by apply (pg_same _ _ _ _ Hp). Qed.

(** A file that none of the changes touch. *)
Lemma fileof_same s s' c ci blks : fileof s c ci blks -> cinodes s' !! c = Some ci -> (indirect (inode ci) <> 0 -> cblocks s' !! indirect (inode ci) = cblocks s !! indirect (inode ci)) -> next_ino s <= next_ino s' -> fileof s' c ci blks.
Proof.
  intros [? ? ? ? Hb ? Ho] Hc Hi Hn. split; try done.
  - intros Hl. destruct (Hb Hl) as (Hz&Hl1&cb&Hcb&He). split; [done|]. split; [done|]. exists cb. split; [by rewrite Hi|done].
  - intros k Hk. destruct (Ho k Hk). split; [lia|done].
Qed.

Lemma pad_length l : (length l <= 4096)%nat -> length (pad l) = 4096%nat.
Proof. intros. unfold pad. rewrite length_app, length_replicate. lia. Qed.

(** What the image shows of a file being built. *)
Lemma vdin_of s c ci : Inv s -> cinodes s !! c = Some ci -> vdin (vimg s) c = inode ci.
Proof.
  intros HI Hc. destruct (iv_ci _ HI _ _ Hc) as (_&_&Hwf&_). unfold vdin, vimg. rewrite Hc. unfold pad, inode_bytes. rewrite <-app_assoc. by apply din_roundtrip.
Qed.
Lemma vimg_cb s b cb : Inv s -> cblocks s !! b = Some cb -> get_words 1024 (vimg s b) = cache cb.
Proof.
  intros HI Hb. destruct (iv_cb _ HI _ _ Hb) as (_&_&Hl&Hw&Hn). unfold vimg. rewrite Hn, Hb. unfold pad. rewrite <-Hl. by apply get_put_words.
Qed.
Lemma fileof_maps s c ci blks (R : Z -> Prop) : Inv s -> fileof s c ci blks -> (forall k, k ∈ own (inode ci) blks -> R k) -> maps R (vimg s) (inode ci) blks.
Proof.
  intros HI [? (?&?&?) ? Hs Hb ? Ho] HR. split; try done; [by split; [|lia]|by intros Hl; destruct (Hs Hl)| |by apply Forall_forall].
  intros Hl. destruct (Hb Hl) as (Hz&_&cb&Hcb&He). split; [done|]. by rewrite (vimg_cb _ _ _ HI Hcb).
Qed.

(** ** Small steps *)

Lemma rd_ci_runs s c ci (Q : cache_inode -> msfs -> Prop) : cinodes s !! c = Some ci -> Q ci s -> runs (rd_ci c) s Q.
Proof. intros Hc HQ. unfold rd_ci. runs_steps. by eapply runs_deref. Qed.
Lemma rd_cb_runs s b cb (Q : cache_block -> msfs -> Prop) : cblocks s !! b = Some cb -> Q cb s -> runs (rd_cb b) s Q.
Proof. intros Hc HQ. unfold rd_cb. runs_steps. by eapply runs_deref. Qed.
Lemma upd_ci_runs s c ci f (Q : unit -> msfs -> Prop) : cinodes s !! c = Some ci -> Q tt (with_inodes (<[c := f ci]> (cinodes s)) (hinodes s) s) -> runs (upd_ci c f) s Q.
Proof. intros Hc HQ. unfold upd_ci. runs_steps. eapply rd_ci_runs; [done|]. by runs_steps. Qed.

Lemma Inv_ci s c ci ci' : Inv s -> cinodes s !! c = Some ci -> real ci' = real ci -> ci_ino ci' = ci_ino ci -> din_wf (inode ci') -> db_indirect ci' = 0 -> Inv (with_inodes (<[c := ci']> (cinodes s)) (hinodes s) s).
Proof.
  intros [? ? Hci Hcb [Hh1 Hh2] ? ?] Hc Hr Hino Hwf Hdb. split; cbn; try done.
  - intros c2 ci2. destruct (decide (c2 = c)) as [->|]; [rewrite lookup_insert_eq|rewrite lookup_insert_ne by done; apply Hci]. intros [= <-]. destruct (Hci _ _ Hc) as (?&?&_). split; [congruence|done].
  - intros b cb Hb. destruct (Hcb _ _ Hb) as (?&?&?&?&Hn). split; [done|]. split; [done|]. split; [done|]. split; [done|]. rewrite lookup_insert_ne; [done|]. intros ->. congruence.
  - split.
    + intros c2 ci2. destruct (decide (c2 = c)) as [->|]; [rewrite lookup_insert_eq|rewrite lookup_insert_ne by done; apply Hh1]. intros [= <-]. rewrite Hr. by apply Hh1.
    + intros i c2 Hin. destruct (decide (c2 = c)) as [->|]; [rewrite lookup_insert_eq|rewrite lookup_insert_ne by done; by eapply Hh2]. by eexists.
Qed.
Lemma prog_ci s c ci ci' W N : cinodes s !! c = Some ci -> real ci' = real ci -> W c -> prog W N s (with_inodes (<[c := ci']> (cinodes s)) (hinodes s) s).
Proof.
  intros Hc Hr HW. split; cbn; try done.
  - intros k _ Hk. split; [|done]. cbn. apply lookup_insert_ne. by intros ->.
  - intros c2 ci2. destruct (decide (c2 = c)) as [->|]; [rewrite lookup_insert_eq; intros [= <-]|rewrite lookup_insert_ne by done]; eauto.
Qed.

Lemma sfs_alloc_ino_runs s (Q : Z -> msfs -> Prop) : Inv s -> next_ino s < ninos s ->
  (forall s', Inv s' -> prog (fun _ => False) (fun _ => False) s s' -> next_ino s' = next_ino s + 1 -> cinodes s' = cinodes s -> cblocks s' = cblocks s -> img s' = img s -> hinodes s' = hinodes s -> hblocks s' = hblocks s -> entry_name s' = entry_name s -> Q (next_ino s) s') ->
  runs sfs_alloc_ino s Q.
Proof.
  intros HI Hn HQ. unfold sfs_alloc_ino. runs_steps. rewrite (proj2 (Z.ltb_lt _ _) Hn). runs_steps. apply HQ; try done.
  - destruct HI as [Hnx (inf&Hs&Hl) Hci Hcb ? ? ?]. split; cbn; try done; [lia| | |].
    + exists inf. rewrite Hs. cbn. unfold set_unused. cbn. split; [|done]. f_equal. unfold SFS_MAX_NBLKS in Hnx. rewrite u32_small; [lia|unfold is_u32, W32; lia].
    + intros c ci Hc. destruct (Hci _ _ Hc) as (?&?&?). split; [done|]. split; [lia|done].
    + intros b cb Hb. destruct (Hcb _ _ Hb) as (?&?&?). split; [done|]. split; [lia|done].
  - split; cbn; try done; [lia|eauto].
Qed.
Lemma write_block_runs s data k (Q : unit -> msfs -> Prop) : (length data <= 4096)%nat -> k < ninos s -> Q tt (with_img (<[k := pad data]> (img s)) s) -> runs (write_block pwrite_ok data k) s Q.
Proof.
  intros Hl Hk HQ. unfold write_block. runs_steps. apply runs_assert; [unfold SFS_BLKSIZE; apply andb_true_iff; split; [apply Z.leb_le; lia|by apply Z.ltb_lt]|]. rewrite pwrite_all. by runs_steps.
Qed.

Lemma fresh_none s k : Inv s -> next_ino s <= k -> cinodes s !! k = None /\ cblocks s !! k = None.
Proof.
  intros HI Hk. pose proof (iv_next _ HI). split.
  - destruct (cinodes s !! k) as [ci|] eqn:Hc; [|done]. destruct (iv_ci _ HI _ _ Hc) as (_&[?|?]&_); lia.
  - destruct (cblocks s !! k) as [cb|] eqn:Hc; [|done]. destruct (iv_cb _ HI _ _ Hc) as (_&?&_); lia.
Qed.
Lemma Inv_img s v : Inv s -> Inv (with_img v s).
Proof. by intros []. Qed.
Lemma prog_img s k v : next_ino s <= k -> prog (fun _ => False) (fun _ => False) s (with_img (<[k := v]> (img s)) s).
Proof.
  intros Hk. split; cbn; try done; [|eauto]. intros j Hj _. split; [done|]. split; [done|]. cbn. apply lookup_insert_ne. lia.
Qed.

(** A new block with its data. *)
Lemma new_block_runs s data (K : Z -> M msfs unit) (Q : unit -> msfs -> Prop) : Inv s -> next_ino s < ninos s -> (length data <= 4096)%nat ->
  (forall s', Inv s' -> prog (fun _ => False) (fun _ => False) s s' -> next_ino s' = next_ino s + 1 -> cinodes s' = cinodes s -> cblocks s' = cblocks s -> entry_name s' = entry_name s -> vimg s' (next_ino s) = pad data -> runs (K (next_ino s)) s' Q) ->
  runs (let! k := sfs_alloc_ino in do! write_block pwrite_ok data k in K k) s Q.
Proof.
  intros HI Hn Hl HK. runs_steps. apply sfs_alloc_ino_runs; [done|done|]. intros s1 HI1 Hp Hnx Hc Hb Hi _ _ He. runs_steps. destruct (fresh_none s (next_ino s) HI ltac:(lia)) as [F1 F2].
  apply write_block_runs; [done|rewrite (pg_ninos _ _ _ _ Hp); lia|]. apply HK; try done.
  - by apply Inv_img.
  - destruct Hp as [P1 P2 P3 P4 P5]. split; try done. intros k Hk Hw. destruct (P1 k Hk Hw) as (E1&E2&E3). split; [done|]. split; [done|]. cbn. rewrite lookup_insert_ne by lia. done.
  - unfold vimg. cbn. by rewrite Hc, Hb, F1, F2, lookup_insert_eq.
Qed.

Lemma push_in b x h i y : y ∈ default [] (push b x h !! i) <-> (i = b /\ y = x) \/ y ∈ default [] (h !! i).
Proof.
  unfold push. destruct (decide (i = b)) as [->|Hne]; [rewrite lookup_insert_eq|rewrite lookup_insert_ne by done]; cbn [default from_option id]; [rewrite elem_of_cons|]; intuition.
Qed.
Lemma alloc_cache_block_runs s (Q : Z -> msfs -> Prop) : Inv s -> next_ino s < ninos s ->
  (forall s', Inv s' -> prog (fun _ => False) (fun _ => False) s s' -> next_ino s' = next_ino s + 1 -> cinodes s' = cinodes s -> entry_name s' = entry_name s -> cblocks s' = <[next_ino s := mkCb (next_ino s) (replicate 1024 0)]> (cblocks s) -> Q (next_ino s) s') ->
  runs (alloc_cache_block 0) s Q.
Proof.
  intros HI Hn HQ. unfold alloc_cache_block. cbn [negb Z.eqb]. runs_steps. apply sfs_alloc_ino_runs; [done|done|]. intros s1 HI1 Hp Hnx Hc Hb Hi Hhi Hhb He. runs_steps. destruct (fresh_none s (next_ino s) HI ltac:(lia)) as [F1 F2].
  pose proof (iv_next _ HI) as Hf. apply HQ; cbn; try done; [| |by rewrite Hb].
  - destruct HI1 as [? ? ? Hcb ? [Hh1 Hh2] ?]. split; cbn; try done.
    + intros b cb. destruct (decide (b = next_ino s)) as [->|]; [rewrite lookup_insert_eq|rewrite lookup_insert_ne by done; apply Hcb]. intros [= <-]. cbn [cb_ino cache]. split; [done|]. split; [lia|]. split; [by rewrite length_replicate|]. split; [|by rewrite Hc].
      apply Forall_replicate. unfold W32. lia.
    + split; [intros b [cb Hcb']|intros i b]; rewrite push_in.
      * destruct (decide (b = next_ino s)) as [->|]; [by left|right]. rewrite lookup_insert_ne in Hcb' by done. apply Hh1. by eexists.
      * intros [[_ ->]|Hin]; [rewrite lookup_insert_eq; by eexists|]. destruct (decide (b = next_ino s)) as [->|]; [rewrite lookup_insert_eq; by eexists|rewrite lookup_insert_ne by done]. by eapply Hh2.
  - destruct Hp as [P1 P2 P3 P4 P5]. split; cbn; try done. intros k Hk Hw. destruct (P1 k Hk Hw) as (E1&E2&E3). split; [done|]. split; [|done]. cbn. rewrite lookup_insert_ne by lia. done.
Qed.
Lemma alloc_cache_inode_runs s r type (Q : Z -> msfs -> Prop) : Inv s -> next_ino s < ninos s -> 0 <= type < 65536 ->
  (forall s', Inv s' -> prog (fun _ => False) (fun x => x = r) s s' -> next_ino s' = next_ino s + 1 -> entry_name s' = entry_name s -> cinodes s' = <[next_ino s := mkCi (zero_din type) 0 r (next_ino s) 0 None None]> (cinodes s) -> Q (next_ino s) s') ->
  runs (alloc_cache_inode r 0 type) s Q.
Proof.
  intros HI Hn Ht HQ. unfold alloc_cache_inode. cbn [negb Z.eqb]. runs_steps. apply sfs_alloc_ino_runs; [done|done|]. intros s1 HI1 Hp Hnx Hc Hb Hi Hhi Hhb He. runs_steps. destruct (fresh_none s (next_ino s) HI ltac:(lia)) as [F1 F2].
  pose proof (iv_next _ HI) as Hf. apply HQ; cbn; try done; [| |by rewrite Hc].
  - destruct HI1 as [? ? Hci Hcb [Hh1 Hh2] ? ?]. split; cbn; try done.
    + intros c ci. destruct (decide (c = next_ino s)) as [->|]; [rewrite lookup_insert_eq|rewrite lookup_insert_ne by done; apply Hci]. intros [= <-]. cbn. split; [done|]. split; [lia|]. split; [|done]. split; cbn; unfold W32; try lia. split; [done|]. repeat constructor; lia.
    + intros b cb Hcb'. destruct (Hcb _ _ Hcb') as (?&?&?&?&?). rewrite Hb in Hcb'. rewrite lookup_insert_ne; [done|]. intros <-. by rewrite F2 in Hcb'.
    + split; [intros c ci Hci'|intros i b]; rewrite push_in.
      * destruct (decide (c = next_ino s)) as [->|]; [rewrite lookup_insert_eq in Hci'; injection Hci' as <-; by left|right]. rewrite lookup_insert_ne in Hci' by done. by apply Hh1.
      * intros [[_ ->]|Hin]; [rewrite lookup_insert_eq; by eexists|]. destruct (decide (b = next_ino s)) as [->|]; [rewrite lookup_insert_eq; by eexists|rewrite lookup_insert_ne by done]. by eapply Hh2.
  - destruct Hp as [P1 P2 P3 P4 P5]. split; cbn; try done.
    + intros k Hk Hw. destruct (P1 k Hk Hw) as (E1&E2&E3). split; [|done]. cbn. rewrite lookup_insert_ne by lia. done.
    + intros c ci. destruct (decide (c = next_ino s)) as [->|]; [rewrite lookup_insert_eq; intros [= <-]; by left|rewrite lookup_insert_ne by done]. intros Hc2. right. rewrite Hc in Hc2. eauto.
Qed.
Lemma fileof_new s n type r : cinodes s !! n = Some (mkCi (zero_din type) 0 r n 0 None None) -> fileof s n (mkCi (zero_din type) 0 r n 0 None None) [].
Proof.
  intros Hn. assert (Ho : own (zero_din type) [] = []) by reflexivity. split; cbn [inode nblks l1]; try done; [cbn; lia|rewrite Ho; constructor|rewrite Ho; by intros k []%elem_of_nil].
Qed.
Lemma set_word_runs s b cb i v (Q : unit -> msfs -> Prop) : cblocks s !! b = Some cb -> Q tt (with_blocks (<[b := mkCb (cb_ino cb) (<[Z.to_nat i := v]> (cache cb))]> (cblocks s)) (hblocks s) s) -> runs (set_word b i v) s Q.
Proof. intros Hb HQ. unfold set_word. runs_steps. eapply rd_cb_runs; [done|]. by runs_steps. Qed.
Lemma Inv_cb s b cb l : Inv s -> cblocks s !! b = Some cb -> length l = 1024%nat -> Forall (fun w => 0 <= w < W32) l -> Inv (with_blocks (<[b := mkCb (cb_ino cb) l]> (cblocks s)) (hblocks s) s).
Proof.
  intros [? ? ? Hcb ? [Hh1 Hh2] ?] Hb Hl Hw. split; cbn; try done.
  - intros b2 cb2. destruct (decide (b2 = b)) as [->|]; [rewrite lookup_insert_eq|rewrite lookup_insert_ne by done; apply Hcb]. intros [= <-]. destruct (Hcb _ _ Hb) as (?&?&_&_&?). done.
  - split; [intros b2 [cb2 H2]; apply Hh1|intros i b2 Hin].
    + destruct (decide (b2 = b)) as [->|]; [by eexists|]. rewrite lookup_insert_ne in H2 by done. by eexists.
    + destruct (decide (b2 = b)) as [->|]; [rewrite lookup_insert_eq; by eexists|rewrite lookup_insert_ne by done]. by eapply Hh2.
Qed.
Lemma prog_cb s b v W N : W b -> prog W N s (with_blocks (<[b := v]> (cblocks s)) (hblocks s) s).
Proof.
  intros HW. split; cbn; try done; [|eauto]. intros k _ Hk. split; [done|]. split; [|done]. cbn. apply lookup_insert_ne. by intros ->.
Qed.

Lemma take_pad (N : nat) (l : list Z) : (length l <= N)%nat -> take N (l ++ replicate N 0) = l ++ replicate (N - length l) 0.
Proof. intros H. rewrite take_app_ge by done. rewrite take_replicate. f_equal. f_equal. lia. Qed.
Lemma insert_pad (N : nat) (l : list Z) x : (length l < N)%nat -> <[length l := x]> (take N (l ++ replicate N 0)) = take N ((l ++ [x]) ++ replicate N 0).
Proof.
  intros H. rewrite !take_pad by (rewrite ?length_app; cbn; lia). rewrite <-(Nat.add_0_r (length l)) at 1. rewrite insert_app_r, length_app. cbn [length].
  replace (N - length l)%nat with (S (N - (length l + 1)))%nat by lia. cbn [replicate insert list_insert]. by rewrite <-app_assoc.
Qed.
Lemma take_snoc_pad (N : nat) (l : list Z) x : (N <= length l)%nat -> take N ((l ++ [x]) ++ replicate N 0) = take N (l ++ replicate N 0).
Proof. intros H. rewrite <-app_assoc, !take_app_le by done. done. Qed.

Definition extra blks : Z := if decide (length blks = 12%nat) then 1 else 0.
Lemma update_cache_runs s c ci blks : Inv s -> fileof s c ci blks -> (12 <= length blks)%nat -> next_ino s + extra blks <= ninos s ->
  runs (update_cache (l1 ci) (indirect (inode ci))) s (fun r s' => exists b cb, r = (b, b) /\ Inv s' /\ prog (fun _ => False) (fun _ => False) s s' /\ cinodes s' = cinodes s /\ next_ino s' = next_ino s + extra blks /\ entry_name s' = entry_name s /\
    cblocks s' !! b = Some cb /\ cache cb = take 1024 (drop 12 blks ++ replicate 1024 0) /\ b <> 0 /\ (b = indirect (inode ci) /\ b ∈ own (inode ci) blks \/ b = next_ino s /\ indirect (inode ci) = 0 /\ length blks = 12%nat)).
Proof.
  intros HI HF Hl Hsp. unfold update_cache, extra in *. case_decide as H12.
  - destruct (fo_small _ _ _ _ HF ltac:(lia)) as [-> ->]. rewrite Z.eqb_refl. runs_steps. apply alloc_cache_block_runs; [done|lia|]. intros s1 HI1 Hp Hn Hc He Hb. pose proof (iv_next _ HI). runs_steps.
    eapply rd_cb_runs; [rewrite Hb; apply lookup_insert_eq|]. runs_steps. exists (next_ino s), (mkCb (next_ino s) (replicate 1024 0)). split; [done|]. split; [done|]. split; [done|]. split; [done|]. split; [done|]. split; [done|].
    split; [by rewrite Hb, lookup_insert_eq|]. split; [|split; [lia|right; done]]. cbn [cache]. rewrite drop_ge by lia. rewrite app_nil_l, take_replicate. done.
  - destruct (fo_big _ _ _ _ HF ltac:(lia)) as (Hz&->&cb&Hcb&He). rewrite (proj2 (Z.eqb_neq _ 0) Hz). runs_steps. eapply rd_cb_runs; [exact Hcb|]. runs_steps. destruct (iv_cb _ HI _ _ Hcb) as (Hino&_). rewrite Hino, Z.eqb_refl. runs_steps.
    exists (indirect (inode ci)), cb. split; [done|]. split; [done|]. split; [apply prog_refl|]. split; [done|]. split; [lia|]. split; [done|]. split; [done|]. split; [done|]. split; [done|]. left. split; [done|by apply own_indirect].
Qed.

(** What [append_block] does with the inode, apart from where it puts the number. *)
Definition bumped ci ci' (size_ : Z) : Prop :=
  real ci' = real ci /\ ci_ino ci' = ci_ino ci /\ db_indirect ci' = db_indirect ci /\ din_type (inode ci') = din_type (inode ci) /\ din_nlinks (inode ci') = din_nlinks (inode ci) /\ size (inode ci') = size (inode ci) + size_.
Definition appended s c ci blks (ino size_ : Z) s' : Prop :=
  exists ci', Inv s' /\ fileof s' c ci' (blks ++ [ino]) /\ prog (fun k => k = c \/ k = indirect (inode ci)) (fun _ => False) s s' /\ bumped ci ci' size_ /\
    next_ino s' = next_ino s + extra blks /\ entry_name s' = entry_name s /\ (indirect (inode ci') = indirect (inode ci) \/ next_ino s <= indirect (inode ci')).

(** The number is in its place; what is left is to count the block. *)
Lemma append_finish s s1 c ci ci1 blks ino size_ : Inv s1 -> cinodes s1 !! c = Some ci1 -> prog (fun k => k = c \/ k = indirect (inode ci)) (fun _ => False) s s1 -> bumped ci ci1 0 ->
  nblks ci1 = Z.of_nat (length blks) -> blocks (inode ci1) = Z.of_nat (length blks) -> (length blks < 1036)%nat -> 0 <= size_ -> 0 <= size (inode ci) -> size (inode ci) + size_ < W32 ->
  direct (inode ci1) = take 12 ((blks ++ [ino]) ++ replicate 12 0) ->
  ((length blks < 12)%nat -> indirect (inode ci1) = 0 /\ l1 ci1 = None) ->
  ((12 <= length blks)%nat -> indirect (inode ci1) <> 0 /\ l1 ci1 = Some (indirect (inode ci1)) /\ exists cb, cblocks s1 !! indirect (inode ci1) = Some cb /\ cache cb = take 1024 (drop 12 (blks ++ [ino]) ++ replicate 1024 0)) ->
  NoDup (own (inode ci1) (blks ++ [ino])) -> (forall k, k ∈ own (inode ci1) (blks ++ [ino]) -> f0 <= k < next_ino s1 /\ k <> c) ->
  next_ino s1 = next_ino s + extra blks -> entry_name s1 = entry_name s -> (indirect (inode ci1) = indirect (inode ci) \/ next_ino s <= indirect (inode ci1)) ->
  runs (upd_ci c (fun x => with_nblks (u32 (nblks x + 1)) (with_inode (set_blocks (u32 (blocks (inode x) + 1)) (set_size (u32 (size (inode x) + size_)) (inode x))) x))) s1 (fun _ => appended s c ci blks ino size_).
Proof.
  intros HI Hc Hp (B1&B2&B3&B4&B5&B6) Hn Hb Hl Hs0 Hs1 Hs2 Hd Hsm Hbg Hnd Ho Hnx He Hi. destruct (iv_ci _ HI _ _ Hc) as (_&_&Hwf&Hdb).
  eapply upd_ci_runs; [done|]. rewrite Hn, Hb, B6, Z.add_0_r. rewrite (u32_small (size (inode ci) + size_)) by (unfold is_u32, W32 in *; lia). rewrite !u32_small by (unfold is_u32, W32; lia).
  set (ci' := with_nblks _ _). exists ci'. split; [|split; [|split; [|split; [|split; [done|split; [done|done]]]]]].
  - apply Inv_ci with (ci := ci1); try done. destruct Hwf. split; cbn; try done; unfold W32 in *; lia.
  - split; cbn -[length]; try done.
    + by rewrite lookup_insert_eq.
    + unfold MAXBLKS, SFS_NDIRECT, SFS_BLK_NENTRY. rewrite length_app. cbn [length]. lia.
    + rewrite length_app. cbn [length]. intros H. apply Hsm. lia.
    + rewrite length_app. cbn [length]. intros H. apply Hbg. lia.
  - eapply prog_trans; [exact Hp|apply (prog_ci _ c ci1 ci' (fun k => k = c \/ k = indirect (inode ci)) (fun _ => False)); [done|done|by left]|tauto|tauto].
  - unfold bumped. cbn. done.
Qed.

Lemma append_block_runs s c ci blks ino size_ : Inv s -> fileof s c ci blks -> (length blks < 1036)%nat -> next_ino s + extra blks <= ninos s -> f0 <= ino < next_ino s -> ino <> c -> (ino ∉ own (inode ci) blks) ->
  0 <= size_ <= 4096 -> size (inode ci) + size_ < W32 -> runs (append_block c size_ ino) s (fun _ => appended s c ci blks ino size_).
Proof.
  intros HI HF Hl Hsp Hino Hic Hio Hs Hsz. pose proof (fo_ci _ _ _ _ HF) as Hc. destruct (iv_ci _ HI _ _ Hc) as (Hcino&Hcr&Hwf&Hdb). destruct (fo_n _ _ _ _ HF) as (Hn&Hb&_). pose proof (iv_next _ HI) as Hnx. pose proof (dw_size _ Hwf) as Hsw.
  assert (Hiow : 0 <= ino < W32) by (unfold SFS_MAX_NBLKS, W32 in *; lia).
  unfold append_block. apply runs_bind, runs_assert; [unfold SFS_BLKSIZE; apply Z.leb_le; lia|]. apply runs_bind. eapply rd_ci_runs; [exact Hc|]. rewrite Hn. change SFS_LN_NBLKS with 32768. change SFS_L0_NBLKS with 12. change SFS_L1_NBLKS with 1036.
  rewrite (proj2 (Z.leb_gt _ _)) by lia. apply runs_bind. destruct (Z.ltb_spec (Z.of_nat (length blks)) 12) as [H12|H12].
  - destruct (fo_small _ _ _ _ HF ltac:(lia)) as [Hi0 Hl0]. eapply upd_ci_runs; [exact Hc|]. rewrite Nat2Z.id. set (ci1 := with_inode _ ci).
    assert (Hown : own (inode ci1) (blks ++ [ino]) = own (inode ci) blks ++ [ino]) by (unfold own; cbn; rewrite Hi0; cbn; by rewrite !app_nil_r).
    apply (append_finish s _ c ci ci1 blks ino size_); try done; try lia.
    + apply Inv_ci with (ci := ci); try done. destruct Hwf as [? ? ? ? [Hdl Hdf] ?]. split; cbn; try done. split; [by rewrite length_insert|]. apply Forall_insert; done.
    + cbn. by rewrite lookup_insert_eq.
    + apply prog_ci with (ci := ci); [done|done|by left].
    + unfold bumped. cbn. by rewrite Z.add_0_r.
    + cbn. rewrite (fo_direct _ _ _ _ HF). apply insert_pad. lia.
    + rewrite Hown. apply NoDup_app. split; [apply HF|]. split; [intros k Hk ->%list_elem_of_singleton; done|apply NoDup_singleton].
    + rewrite Hown. intros k [Hk|Hk%list_elem_of_singleton]%elem_of_app; cbn; [by apply (fo_own _ _ _ _ HF)|subst k; done].
    + unfold extra. rewrite decide_False by lia. cbn. lia.
    + by left.
  - rewrite (proj2 (Z.ltb_lt _ _)) by lia. apply runs_bind. runs_by (update_cache_runs s c ci blks HI HF ltac:(lia) Hsp). intros r s1 (b&cb&->&HI1&Hp1&Hci1&Hn1&He1&Hcb&Hcache&Hb0&Hbor). cbn [fst snd]. apply runs_bind. eapply upd_ci_runs; [rewrite Hci1; exact Hc|].
    set (ci1 := with_l1 _ _). set (s2 := with_inodes _ _ s1). assert (Hbr : f0 <= b < next_ino s1 /\ b <> c /\ b <> ino /\ (b ∉ blks)).
    { destruct Hbor as [[Hbi Hbo]|(->&_&Hle)]; [destruct (fo_own _ _ _ _ HF b Hbo); split; [unfold extra in *; case_decide; lia|]; split; [done|]; split; [by intros ->|]|].
      - pose proof (fo_nodup _ _ _ _ HF) as Hnd. unfold own in Hnd. rewrite decide_False in Hnd by congruence. apply NoDup_app in Hnd as (_&Hnd&_). intros Hin. apply (Hnd _ Hin). rewrite <-Hbi. apply list_elem_of_singleton. done.
      - unfold extra in *. rewrite decide_True in * by done. split; [lia|]. split; [destruct Hcr; lia|]. split; [lia|]. intros Hin. destruct (fo_own _ _ _ _ HF (next_ino s)); [by apply own_blks|lia]. }
    destruct Hbr as (Hbr&Hbc&Hbi&Hbb). assert (HI2 : Inv s2). { apply Inv_ci with (ci := ci); [done|by rewrite Hci1|done|done| |done]. destruct Hwf. split; cbn; try done. pose proof (iv_next _ HI1). unfold SFS_MAX_NBLKS, W32 in *. lia. }
    eapply set_word_runs; [exact Hcb|]. set (s3 := with_blocks _ _ s2). destruct (iv_cb _ HI1 _ _ Hcb) as (Hcbi&_&Hclen&Hcw&_).
    assert (Hdl : length (drop 12 blks) = (length blks - 12)%nat) by (by rewrite length_drop). assert (Hidx : Z.to_nat (Z.of_nat (length blks) - 12) = length (drop 12 blks)) by (rewrite Hdl; lia).
    assert (Hcache' : <[Z.to_nat (Z.of_nat (length blks) - 12) := ino]> (cache cb) = take 1024 (drop 12 (blks ++ [ino]) ++ replicate 1024 0)).
    { rewrite Hidx, Hcache, insert_pad by lia. f_equal. f_equal. rewrite drop_app_le by lia. done. }
    assert (Hown : own (inode ci1) (blks ++ [ino]) = (blks ++ [ino]) ++ [b]) by (unfold own; cbn; by rewrite decide_False).
    assert (HI3 : Inv s3) by (apply Inv_cb; [done|done|by rewrite length_insert|by apply Forall_insert]).
    assert (Hsub : forall k, k ∈ blks -> k ∈ own (inode ci) blks) by (intros; by apply own_blks).
    apply (append_finish s s3 c ci ci1 blks ino size_); try done; try lia.
    + cbn. by rewrite lookup_insert_eq.
    + eapply (prog_trans (fun k => k = c) (fun _ => False) (fun k => k = b) (fun _ => False) _ _ _ s2).
      * eapply prog_trans; [exact Hp1|apply prog_ci with (ci := ci) (W := fun k => k = c) (N := fun _ => False); [by rewrite Hci1|done|done]|tauto|tauto].
      * by apply prog_cb.
      * intros k Hk [->| ->]; [by left|right]. destruct Hbor as [[-> _]|(->&_&_)]; [done|lia].
      * tauto.
    + unfold bumped. cbn. by rewrite Z.add_0_r.
    + cbn. rewrite (fo_direct _ _ _ _ HF). symmetry. apply take_snoc_pad. lia.
    + intros _. cbn. split; [done|]. split; [done|]. eexists. split; [apply lookup_insert_eq|]. cbn. exact Hcache'.
    + rewrite Hown. pose proof (fo_nodup _ _ _ _ HF) as Hnd. unfold own in Hnd. apply NoDup_app in Hnd as (Hnd&_&_). rewrite !NoDup_app. split; [split; [done|]; split; [|apply NoDup_singleton]; intros k Hk ->%list_elem_of_singleton; apply Hio; auto|]. split; [|apply NoDup_singleton].
      intros k Hk ->%list_elem_of_singleton. apply elem_of_app in Hk as [Hk|Hk%list_elem_of_singleton]; done.
    + rewrite Hown. cbn. assert (Hle : next_ino s <= next_ino s1) by apply Hp1. intros k [[Hk|Hk%list_elem_of_singleton]%elem_of_app|Hk%list_elem_of_singleton]%elem_of_app; [destruct (fo_own _ _ _ _ HF k (Hsub k Hk)); split; [lia|done]|subst k; split; [lia|done]|subst k; done].
    + destruct Hbor as [[Hbi2 _]|(->&_&_)]; [by left|right; cbn; lia].
Qed.
End Ops.
