(* ===== verification/MksfsThm.v ===== *)
(** * The image builder: files and directories get into the image *)

From stdpp Require Import base gmap list.
From Stdlib Require Import ZArith Lia Bool.
From S2P Require Import Prelude.
From S2P Require Import Sfs.
From S2P Require Import SfsInv.
From S2P Require Import SfsThm.
From S2P Require Import SfsTrunc.
From S2P Require Import Mksfs.
From S2P Require Import MksfsInv.
From S2P Require Import MksfsOps.

#[local] Abbreviation length := Datatypes.length.
#[local] Arguments replicate : simpl never.

(** ** Entries *)

Lemma cstr_stop l r : Forall (fun b => b <> 0) l -> cstr (l ++ 0 :: r) = l.
Proof. induction 1 as [|b l Hb _ IH]; cbn; [done|]. rewrite (proj2 (Z.eqb_neq b 0) Hb). by rewrite IH. Qed.
(** The structure is 260 bytes long, of which 256 are written. *)
Definition entry_bytes (f : Z) (name old : list Z) : list Z := take 256 (put_le 4 f ++ name ++ 0 :: drop (S (length name)) old).
Lemma entry_decode f name old : 0 <= f < W32 -> (length name <= 255)%nat -> length old = 256%nat -> Forall (fun b => b <> 0) name ->
  let e := entry_of_bytes (take 260 (pad (entry_bytes f name old))) in e_ino e = f /\ cstr (<[255%nat := 0]> (e_name e)) = take 252 name.
Proof.
  intros Hf Hn Ho Hz. unfold entry_bytes. set (rest := name ++ 0 :: drop (S (length name)) old). assert (Hrl : length rest = 256%nat) by (unfold rest; rewrite length_app; cbn [length]; rewrite length_drop; lia).
  assert (HX : take 256 (put_le 4 f ++ rest) = put_le 4 f ++ take 252 rest) by (rewrite take_app_ge by (rewrite put_le_length; lia); by rewrite put_le_length).
  assert (Hp : take 260 (pad (take 256 (put_le 4 f ++ rest))) = put_le 4 f ++ (take 252 rest ++ replicate 4 0)).
  { rewrite HX. unfold pad. rewrite length_app, put_le_length, length_take, Hrl. rewrite <-app_assoc. rewrite take_app_ge by (rewrite put_le_length; lia). rewrite put_le_length. f_equal.
    rewrite take_app_ge by (rewrite length_take, Hrl; lia). rewrite length_take, Hrl. by f_equal. }
  rewrite Hp. cbn zeta. unfold entry_of_bytes. cbn [e_ino e_name]. split; [apply get_put_le; unfold W32 in Hf; cbn; lia|]. rewrite drop_app_length' by (by rewrite put_le_length).
  assert (Hr : exists r, take 252 rest ++ replicate 4 0 = take 252 name ++ 0 :: r).
  { unfold rest. destruct (decide (length name <= 251)%nat) as [Hs|Hs].
    - rewrite take_app_ge by lia. rewrite (take_ge name) by lia. destruct (252 - length name)%nat as [|m] eqn:Hm; [lia|]. cbn [take]. rewrite <-app_assoc. by eexists.
    - rewrite take_app_le by lia. by eexists. }
  destruct Hr as [r ->]. rewrite insert_app_r_alt by (rewrite length_take; lia). destruct (255 - length (take 252 name))%nat as [|m] eqn:Hm; [rewrite length_take in Hm; lia|]. cbn [insert list_insert]. apply cstr_stop. by apply Forall_take.
Qed.

Section Build.
Variable pwrite_ok : Z -> bool.
Hypothesis pwrite_all : forall k, pwrite_ok k = true.
Variable f0 : Z.
Abbreviation Inv := (Inv f0).
Abbreviation fileof := (fileof f0).
Implicit Types (s : msfs) (c f k : Z) (ci fi : cache_inode) (blks : list Z) (name : list Z).

Definition linked fi : cache_inode := with_inode (set_nlinks (din_nlinks (inode fi) + 1) (inode fi)) fi.
Lemma linked_runs s f fi (Q : unit -> msfs -> Prop) : cinodes s !! f = Some fi -> 0 <= din_nlinks (inode fi) < 65535 -> Q tt (with_inodes (<[f := linked fi]> (cinodes s)) (hinodes s) s) ->
  runs (upd_ci f (fun x => with_inode (set_nlinks ((din_nlinks (inode x) + 1) mod 65536) (inode x)) x)) s Q.
Proof. intros Hf Hn HQ. eapply upd_ci_runs; [done|]. rewrite Z.mod_small by lia. exact HQ. Qed.
Lemma Inv_linked s f fi : Inv s -> cinodes s !! f = Some fi -> 0 <= din_nlinks (inode fi) < 65535 -> Inv (with_inodes (<[f := linked fi]> (cinodes s)) (hinodes s) s).
Proof.
  intros HI Hf Hn. destruct (iv_ci _ _ HI _ _ Hf) as (_&_&Hwf&Hdb). apply Inv_ci with (ci := fi); try done. destruct Hwf. split; cbn; try done. lia.
Qed.
Lemma fileof_linked s f fi blks : fileof s f fi blks -> fileof (with_inodes (<[f := linked fi]> (cinodes s)) (hinodes s) s) f (linked fi) blks.
Proof. intros [? ? ? ? ? ? ?]. split; cbn; try done. by rewrite lookup_insert_eq. Qed.

(** The entry of [name] in the directory [c] has been added. *)
Record entered s c ci blks f (name : list Z) s' ci' : Prop := {
  en_inv : Inv s';
  en_file : fileof s' c ci' (blks ++ [next_ino s]);
  en_prog : prog (fun k => k = c \/ k = indirect (inode ci) \/ k = f) (fun _ => False) s s';
  en_entry : ventry (vimg s') (next_ino s) = (take 252 name, f);
  en_type : din_type (inode ci') = din_type (inode ci) /\ real ci' = real ci;
  en_size : size (inode ci') = size (inode ci) + 256;
  en_links : din_nlinks (inode ci') = din_nlinks (inode ci) + (if decide (f = c) then 1 else 0);
  en_next : next_ino s' = next_ino s + 1 + extra blks;
  en_ind : indirect (inode ci') = indirect (inode ci) \/ next_ino s < indirect (inode ci')
}.
Lemma add_entry_runs s c ci blks f fi name : Inv s -> fileof s c ci blks -> din_type (inode ci) = SFS_TYPE_DIR -> cinodes s !! f = Some fi -> 0 <= din_nlinks (inode fi) < 65535 -> (length blks < 1036)%nat ->
  (length name <= 255)%nat -> Forall (fun b => b <> 0) name -> next_ino s + 1 + extra blks <= ninos s -> size (inode ci) + 256 < W32 ->
  runs (add_entry pwrite_ok c f name) s (fun _ s' => exists ci', entered s c ci blks f name s' ci' /\ (f <> c -> cinodes s' !! f = Some (linked fi))).
Proof.
  intros HI HF Ht Hf Hln Hl Hnl Hnz Hsp Hsz. pose proof (fo_ci _ _ _ _ _ HF) as Hc. pose proof (iv_next _ _ HI) as Hnx. destruct (iv_ci _ _ HI _ _ Hf) as (Hfi&Hfr&_).
  assert (Hx : 0 <= extra blks <= 1) by (unfold extra; case_decide; lia).
  unfold add_entry. apply runs_bind. eapply rd_ci_runs; [exact Hc|]. apply runs_bind, runs_assert; [apply andb_true_iff; split; [by apply Z.eqb_eq|apply Z.leb_le; unfold SFS_MAX_FNAME_LEN; lia]|]. apply runs_bind. eapply rd_ci_runs; [exact Hf|].
  apply runs_bind, runs_modify. set (s0 := with_entry _ s). assert (He0 : length (entry_name s0) = 256%nat) by (cbn; rewrite length_app; cbn [length]; rewrite length_drop, (iv_entry _ _ HI); lia).
  assert (HI0 : Inv s0) by (destruct HI; by split). assert (Hp0 : forall W N, prog W N s s0) by (intros; split; try done; cbn; eauto).
  apply runs_bind. apply (sfs_alloc_ino_runs f0); [done|cbn; lia|]. intros s1 HI1 Hp1 Hn1 Hc1 Hb1 Hi1 _ _ He1. apply runs_bind, runs_get, runs_bind. destruct (fresh_none f0 s (next_ino s) HI ltac:(lia)) as [F1 F2].
  apply write_block_runs; [done|rewrite length_take; lia|rewrite (pg_ninos _ _ _ _ Hp1); cbn; lia|]. set (eb := next_ino s0). set (s2 := with_img _ s1). assert (Heb : eb = next_ino s) by done.
  assert (HI2 : Inv s2) by (by apply Inv_img). assert (Hp2 : prog (fun _ => False) (fun _ => False) s s2).
  { destruct (prog_trans _ _ _ _ (fun _ => False) (fun _ => False) _ _ _ (Hp0 (fun _ => False) (fun _ => False)) Hp1 ltac:(tauto) ltac:(tauto)) as [P1 P2 P3 P4 P5 P6]. split; try done. intros k Hk Hw. destruct (P1 k Hk Hw) as (E1&E2&E3). split; [done|]. split; [done|]. cbn. rewrite lookup_insert_ne by lia. done. }
  assert (Hc2 : cinodes s2 = cinodes s) by done. assert (Hb2 : cblocks s2 = cblocks s) by done. assert (Hn2 : next_ino s2 = next_ino s + 1) by done.
  assert (HF2 : fileof s2 c ci blks) by (eapply fileof_same; [done|by rewrite Hc2|by rewrite Hb2|lia]).
  assert (Hent : ventry (vimg s2) eb = (take 252 name, f)).
  { assert (Hv2 : vimg s2 eb = pad (entry_bytes f name (entry_name s))) by (unfold vimg; rewrite Hc2, Hb2, Heb, F1, F2; cbn [s2 img with_img]; rewrite Heb, lookup_insert_eq, He1, Hfi; done).
    unfold ventry. rewrite Hv2. cbv zeta.
    destruct (entry_decode f name (entry_name s)) as [E1 E2]; [unfold W32, SFS_MAX_NBLKS in *; destruct Hfr; lia|done|apply (iv_entry _ _ HI)|done|]. cbv zeta in E1, E2. by rewrite E1, E2. }
  apply runs_bind. assert (Hebo : eb ∉ own (inode ci) blks) by (intros Hin; destruct (fo_own _ _ _ _ _ HF eb Hin); lia).
  destruct (iv_ci _ _ HI _ _ Hc) as (_&Hcr&_). runs_by (append_block_runs f0 s2 c ci blks eb 256 HI2 HF2 Hl); [rewrite Hn2, (pg_ninos _ _ _ _ Hp2); lia|lia|destruct Hcr; lia|done|lia|done|].
  intros _ s3 (ci3&HI3&HF3&Hp3&(B1&_&_&B4&B5&B6)&Hn3&He3&Hind). assert (Hp23 : prog (fun k => k = c \/ k = indirect (inode ci) \/ k = f) (fun _ => False) s s3).
  { eapply prog_trans; [exact Hp2|exact Hp3| |]; cbn; [intros k _ [[]|[-> | ->]]|]; tauto. }
  assert (Hv3 : ventry (vimg s3) eb = (take 252 name, f)). { rewrite <-Hent. unfold ventry. rewrite (prog_vimg _ _ _ _ eb Hp3); [done|lia|]. intros [->|Heq]; [destruct Hcr; lia|]. destruct (decide (indirect (inode ci) = 0)); [lia|]. apply Hebo. rewrite Heq. by apply own_indirect. }
  pose proof (fo_ci _ _ _ _ _ HF3) as Hc3. assert (Hvl : forall fi3, cinodes s3 !! f = Some fi3 -> 0 <= din_nlinks (inode fi3) < 65535 -> ventry (vimg (with_inodes (<[f := linked fi3]> (cinodes s3)) (hinodes s3) s3)) eb = (take 252 name, f)).
  { intros fi3 Hf3 _. rewrite <-Hv3. unfold ventry. rewrite (same_vimg s3); [done|]. split; [|done]. cbn. apply lookup_insert_ne. intros Hq. destruct Hfr; lia. }
  assert (Hext : next_ino s3 = next_ino s + 1 + extra blks) by lia.
  destruct (decide (f = c)) as [->|Hfc].
  - rewrite Hc in Hf. injection Hf as <-. assert (Hl3 : 0 <= din_nlinks (inode ci3) < 65535) by (rewrite B5; done). eapply linked_runs; [exact Hc3|done|]. exists (linked ci3). split; [|done]. split; try done.
    + by apply Inv_linked.
    + by apply fileof_linked.
    + eapply prog_trans; [exact Hp23|apply (prog_ci s3 c ci3 (linked ci3) (fun k => k = c) (fun _ => False)); done|tauto|tauto].
    + by apply Hvl.
    + cbn. rewrite decide_True by done. by rewrite B5.
    + cbn. destruct Hind; [by left|right; lia].
  - assert (Hf3 : cinodes s3 !! f = Some fi).
    { destruct (pg_same _ _ _ _ Hp3 f) as (E&_&_); [destruct Hfr; lia| |by rewrite E, Hc2]. intros [->|Heq]; [done|]. destruct (decide (indirect (inode ci) = 0)) as [|Hz]; [destruct Hfr; lia|]. pose proof (fo_small _ _ _ _ _ HF) as Hsm. destruct (decide (length blks <= 12)%nat) as [Hle|Hle]; [by destruct (Hsm Hle)|].
      destruct (fo_big _ _ _ _ _ HF ltac:(lia)) as (_&_&cb&Hcb&_). destruct (iv_cb _ _ HI _ _ Hcb) as (_&_&_&_&Hno). rewrite <-Heq in Hno. congruence. }
    eapply linked_runs; [exact Hf3|done|]. exists ci3. split; [|intros _; cbn; by rewrite lookup_insert_eq]. split; try done.
    + by apply Inv_linked.
    + eapply fileof_same; [exact HF3|cbn; by rewrite lookup_insert_ne|done|done].
    + eapply prog_trans; [exact Hp23|apply (prog_ci s3 f fi (linked fi) (fun k => k = f) (fun _ => False)); done|tauto|tauto].
    + by apply Hvl.
    + rewrite decide_False by done. by rewrite B5, Z.add_0_r.
    + destruct Hind; [by left|right; lia].
Qed.

(** ** Data *)

(** What [read] delivers of a regular file: full blocks, but for the last one. *)
Fixpoint full (last : Z) (reads : list (list Z)) : Prop :=
  match reads with [] => True | b :: reads => last = SFS_BLKSIZE /\ (0 < length b <= 4096)%nat /\ full (Z.of_nat (length b)) reads end.
(** The indirect block, when a file grows from [a] to [b] blocks. *)
Definition xblk (a b : nat) : Z := if decide (a <= 12 < b)%nat then 1 else 0.
Lemma extra_xblk blks n : extra blks + xblk (length blks + 1) (length blks + 1 + n) = xblk (length blks) (length blks + S n).
Proof. unfold extra, xblk. repeat case_decide; lia. Qed.

Record grown s c ci blks (data : list (list Z)) s' ci' (new : list Z) : Prop := {
  gn_inv : Inv s';
  gn_file : fileof s' c ci' (blks ++ new);
  gn_prog : prog (fun k => k = c \/ k = indirect (inode ci)) (fun _ => False) s s';
  gn_data : vimg s' <$> new = pad <$> data;
  gn_kept : din_type (inode ci') = din_type (inode ci) /\ real ci' = real ci /\ din_nlinks (inode ci') = din_nlinks (inode ci);
  gn_size : size (inode ci') = size (inode ci) + Z.of_nat (length (concat data));
  gn_next : next_ino s' = next_ino s + Z.of_nat (length data) + xblk (length blks) (length blks + length data);
  gn_ind : indirect (inode ci') = indirect (inode ci) \/ next_ino s <= indirect (inode ci');
  gn_new : forall k, k ∈ new -> next_ino s <= k
}.
Lemma blks_apart s c ci blks k : fileof s c ci blks -> 3 <= f0 -> k ∈ blks -> k <> c /\ k <> indirect (inode ci).
Proof.
  intros HF Hf Hk. destruct (fo_own _ _ _ _ _ HF k (own_blks _ _ _ Hk)) as [Hr Hc]. split; [done|]. destruct (decide (indirect (inode ci) = 0)) as [->|Hz]; [lia|]. intros ->. pose proof (fo_nodup _ _ _ _ _ HF) as Hnd. unfold own in Hnd. rewrite decide_False in Hnd by done.
  apply NoDup_app in Hnd as (_&Hnd&_). apply (Hnd _ Hk). apply list_elem_of_singleton. done.
Qed.

(** One block of data. *)
Lemma add_data_runs s c ci blks data (K : M msfs unit) (Q : unit -> msfs -> Prop) : Inv s -> fileof s c ci blks -> (length blks < 1036)%nat -> (length data <= 4096)%nat -> next_ino s + 1 + extra blks <= ninos s -> size (inode ci) + Z.of_nat (length data) < W32 ->
  (forall s' ci' k, grown s c ci blks [data] s' ci' [k] -> runs K s' Q) ->
  runs (let! ino := sfs_alloc_ino in do! write_block pwrite_ok data ino in do! append_block c (Z.of_nat (length data)) ino in K) s Q.
Proof.
  intros HI HF Hl Hd Hsp Hsz HK. pose proof (iv_next _ _ HI) as Hnx. destruct (iv_ci _ _ HI _ _ (fo_ci _ _ _ _ _ HF)) as (_&Hcr&_). assert (Hx : 0 <= extra blks <= 1) by (unfold extra; case_decide; lia).
  apply (new_block_runs pwrite_ok pwrite_all f0); [done|lia|done|]. intros s1 HI1 Hp1 Hn1 Hc1 Hb1 _ Hv. assert (HF1 : fileof s1 c ci blks) by (eapply fileof_same; [done|rewrite Hc1; apply HF|by rewrite Hb1|lia]). assert (Hno : next_ino s ∉ own (inode ci) blks) by (intros Hin; destruct (fo_own _ _ _ _ _ HF _ Hin); lia).
  apply runs_bind. runs_by (append_block_runs f0 s1 c ci blks (next_ino s) (Z.of_nat (length data)) HI1 HF1 Hl); [rewrite (pg_ninos _ _ _ _ Hp1); lia|lia|destruct Hcr; lia|done|lia|done|].
  intros _ s2 (ci2&HI2&HF2&Hp2&(B1&_&_&B4&B5&B6)&Hn2&_&Hind). apply (HK s2 ci2 (next_ino s)). split; try done.
  - eapply prog_trans; [exact Hp1|exact Hp2|tauto|tauto].
  - cbn. f_equal. rewrite <-Hv. eapply prog_vimg; [exact Hp2|lia|]. intros [Hq|Heq]; [destruct Hcr; lia|]. destruct (decide (indirect (inode ci) = 0)); [lia|]. apply Hno. rewrite Heq. by apply own_indirect.
  - cbn. by rewrite app_nil_r.
  - cbn [length]. unfold xblk, extra in *. repeat case_decide; lia.
  - destruct Hind; [by left|right; lia].
  - intros k ->%list_elem_of_singleton. lia.
Qed.
Lemma grown_trans s c ci blks d1 s1 ci1 n1 d2 s2 ci2 n2 : Inv s -> fileof s c ci blks -> grown s c ci blks d1 s1 ci1 n1 -> grown s1 c ci1 (blks ++ n1) d2 s2 ci2 n2 -> length n1 = length d1 -> grown s c ci blks (d1 ++ d2) s2 ci2 (n1 ++ n2).
Proof.
  intros HI HF [A1 A2 A3 A4 (A51&A52&A53) A6 A7 A8 A9] [B1 B2 B3 B4 (B51&B52&B53) B6 B7 B8 B9] Hl1. pose proof (iv_next _ _ HI) as Hnx. pose proof (pg_next _ _ _ _ A3) as Hle. split; try done.
  - by rewrite app_assoc.
  - eapply prog_trans; [exact A3|exact B3| |tauto]. intros k Hk [H|[->|Heq]]; [done|by left|]. destruct A8 as [A8|A8]; [right; congruence|lia].
  - rewrite !fmap_app, B4. f_equal. rewrite <-A4. apply list_fmap_ext. intros j k Hk. apply list_elem_of_lookup_2 in Hk. pose proof (blks_apart _ _ _ _ k A2 ltac:(lia) ltac:(apply elem_of_app; by right)) as [Hkc Hki].
    eapply prog_vimg; [exact B3| |]. + destruct (fo_own _ _ _ _ _ A2 k) as [? _]; [apply own_blks, elem_of_app; by right|lia]. + tauto.
  - split; [congruence|]. split; congruence.
  - rewrite concat_app, length_app. lia.
  - rewrite B7, A7, !length_app, Hl1. unfold xblk. repeat case_decide; lia.
  - destruct B8 as [B8|B8]; [destruct A8 as [A8|A8]; [left; congruence|right; lia]|right; lia].
  - intros k [Hk|Hk]%elem_of_app; [by apply A9|specialize (B9 k Hk); lia].
Qed.

Lemma open_file_runs reads : forall s c ci blks last, Inv s -> fileof s c ci blks -> full last reads -> (length blks + length reads <= 1036)%nat -> next_ino s + Z.of_nat (length reads) + xblk (length blks) (length blks + length reads) <= ninos s ->
  size (inode ci) + Z.of_nat (length (concat reads)) < W32 -> runs (open_file pwrite_ok c last reads true) s (fun _ s' => exists ci' new, grown s c ci blks reads s' ci' new).
Proof.
  induction reads as [|b reads IH]; intros s c ci blks last HI HF Hfull Hl Hsp Hsz; cbn [open_file].
  - apply runs_ret. exists ci, []. split; try done; [by rewrite app_nil_r|apply prog_refl|cbn; lia| |by left|by intros k []%elem_of_nil]. cbn. rewrite Nat.add_0_r. unfold xblk. rewrite decide_False by lia. lia.
  - destruct Hfull as (->&Hb&Hfull). apply runs_bind, runs_assert; [done|]. cbn [length concat] in *. rewrite length_app in Hsz. pose proof (extra_xblk blks (length reads)) as Hx. assert (Hx0 : 0 <= xblk (length blks + 1) (length blks + 1 + length reads)) by (unfold xblk; case_decide; lia).
    apply (add_data_runs s c ci blks b); [done|done|lia|lia|lia|lia|]. intros s1 ci1 k G. pose proof (gn_next _ _ _ _ _ _ _ _ G) as Hn1. pose proof (gn_size _ _ _ _ _ _ _ _ G) as Hs1. cbn [length concat app] in Hn1, Hs1. rewrite app_nil_r in Hs1.
    assert (Hlk : length (blks ++ [k]) = (length blks + 1)%nat) by (by rewrite length_app).
    runs_by (IH s1 c ci1 (blks ++ [k]) (Z.of_nat (length b)) (gn_inv _ _ _ _ _ _ _ _ G) (gn_file _ _ _ _ _ _ _ _ G) Hfull); [lia| |lia|].
    + rewrite Hlk, (pg_ninos _ _ _ _ (gn_prog _ _ _ _ _ _ _ _ G)), Hn1. unfold extra, xblk in *. repeat case_decide; lia.
    + intros _ s2 (ci2&new&G2). exists ci2, ([k] ++ new). by apply (grown_trans _ _ _ _ [b] s1 ci1).
Qed.
End Build.
