(* ===== verification/MksfsTree.v ===== *)
(** * The image builder: a host tree gets into the image *)

From stdpp Require Import base gmap list.
From Stdlib Require Import ZArith Lia Bool.
From S2P Require Import Prelude.
From S2P Require Import Sfs.
From S2P Require Import SfsInv.
From S2P Require Import SfsThm.
From S2P Require Import SfsTrunc.
From S2P Require Import Mksfs.
From S2P Require Import MksfsInv.
From S2P Require Import MksfsOps.
From S2P Require Import MksfsThm.

#[local] Abbreviation length := Datatypes.length.
#[local] Arguments replicate : simpl never.

(** ** What is asked of the host tree *)

(** The blocks a node takes, without its entry. *)
Fixpoint need (h : hnode) : Z :=
  match h with
  | HFile _ reads _ => 1 + Z.of_nat (length reads) + xblk 0 (length reads)
  | HDir _ es =>
      1 + (2 + (fix needs es := match es with [] => 0 | (n, h) :: es => (if hidden n h then 0 else need h + 1) + needs es end) es + xblk 0 (2 + length (shown es)))
  | HLink _ _ => 2
  | _ => 0
  end.
Definition needs : list (list Z * hnode) -> Z :=
  fix needs es := match es with [] => 0 | (n, h) :: es => (if hidden n h then 0 else need h + 1) + needs es end.
(** Readable files of at most 1036 blocks, readable links, names without NULs, no larger directories than the kernel reads. *)
Fixpoint okh (h : hnode) : Prop :=
  match h with
  | HFile _ reads eof => eof = true /\ full SFS_BLKSIZE reads /\ (length reads <= 1036)%nat
  | HDir _ es =>
      (2 + length (shown es) <= 1036)%nat /\
      (fix oks es : Prop := match es with [] => True | (n, h) :: es => (skipped n = false -> (length n <= 255)%nat /\ Forall (fun b => b <> 0) n /\ okh h) /\ oks es end) es
  | HLink _ t => exists l, t = Some l /\ (length l < 4096)%nat
  | HOther => True
  | HBad => False
  end.
Definition oks : list (list Z * hnode) -> Prop :=
  fix oks es : Prop := match es with [] => True | (n, h) :: es => (skipped n = false -> (length n <= 255)%nat /\ Forall (fun b => b <> 0) n /\ okh h) /\ oks es end.
(** The numbers by which the host tells files apart. *)
Fixpoint reals (h : hnode) : list Z :=
  match h with
  | HFile r _ _ => [r]
  | HDir r es => r :: (fix rs es := match es with [] => [] | (n, h) :: es => (if hidden n h then [] else reals h) ++ rs es end) es
  | HLink r _ => [r]
  | _ => []
  end.
Definition all_reals : list (list Z * hnode) -> list Z :=
  fix rs es := match es with [] => [] | (n, h) :: es => (if hidden n h then [] else reals h) ++ rs es end.

Lemma needs_cons n h es : needs ((n, h) :: es) = (if hidden n h then 0 else need h + 1) + needs es.
Proof. reflexivity. Qed.
Lemma need_dir r es : need (HDir r es) = 1 + (2 + needs es + xblk 0 (2 + length (shown es))).
Proof. reflexivity. Qed.
Lemma oks_cons n h es : oks ((n, h) :: es) = ((skipped n = false -> (length n <= 255)%nat /\ Forall (fun b => b <> 0) n /\ okh h) /\ oks es).
Proof. reflexivity. Qed.
Lemma all_reals_cons n h es : all_reals ((n, h) :: es) = (if hidden n h then [] else reals h) ++ all_reals es.
Proof. reflexivity. Qed.
Lemma shown_cons n h es : shown ((n, h) :: es) = if hidden n h then shown es else (n, h) :: shown es.
Proof. unfold shown. rewrite filter_cons. cbn [fst snd]. destruct (hidden n h); [by rewrite decide_False|by rewrite decide_True]. Qed.
Lemma subdirs_cons n h es : subdirs ((n, h) :: es) = (if hidden n h then 0 else if is_dir h then 1 else 0) + subdirs es.
Proof.
  unfold subdirs. rewrite shown_cons. destruct (hidden n h); [lia|]. rewrite filter_cons. cbn [snd]. destruct (is_dir h); [rewrite decide_True by done|rewrite decide_False by done]; cbn [length]; lia.
Qed.
Lemma xblk_pos a b : 0 <= xblk a b.
Proof. unfold xblk. case_decide; lia. Qed.
Lemma need_pos h : 0 <= need h.
Proof.
  apply (hnode_ind2 (fun h => 0 <= need h) (fun es => 0 <= needs es)); try (cbn; lia).
  - intros r reads eof. cbn [need]. pose proof (xblk_pos 0 (length reads)). lia.
  - intros r es IH. rewrite need_dir. pose proof (xblk_pos 0 (2 + length (shown es))). lia.
  - intros n h' es IH IHs. rewrite needs_cons. destruct (hidden n h'); lia.
Qed.
Lemma needs_pos es : 0 <= needs es.
Proof. induction es as [|[n h] es IH]; [done|]. rewrite needs_cons. pose proof (need_pos h). destruct (hidden n h); lia. Qed.

Section Tree.
Variable pwrite_ok : Z -> bool.
Hypothesis pwrite_all : forall k, pwrite_ok k = true.
Variable f0 : Z.
Abbreviation Inv := (Inv f0).
Abbreviation fileof := (fileof f0).
Implicit Types (s : msfs) (c j k : Z) (ci : cache_inode) (blks : list Z) (name : list Z).

Lemma search_unknown s r : Inv s -> unknown s r -> runs (search_cache_inode r) s (fun x s' => x = None /\ s' = s).
Proof.
  intros HI Hu. unfold search_cache_inode. runs_steps. pose proof (proj2 (iv_hi _ _ HI) (hash_bucket r)) as Hin. induction (default [] (hinodes s !! hash_bucket r)) as [|c l IH]; cbn [find_inode]; [by runs_steps|].
  destruct (Hin c ltac:(left)) as [ci Hci]. runs_steps. eapply rd_ci_runs; [exact Hci|]. rewrite (proj2 (Z.eqb_neq _ r)) by (by eapply Hu). apply IH. intros x Hx. apply Hin. by right.
Qed.

Lemma not_own d blks k : k ∉ own d blks -> k <> 0 -> k <> indirect d.
Proof. intros Hk Hz ->. apply Hk. by apply own_indirect. Qed.
(** The blocks from [a] to [b] are not the directory's, whose entry goes to block [b]. *)
Lemma new_not_own (d d' : sfs_disk_inode) blks a b k : (forall k, k ∈ own d blks -> k < a) -> indirect d' < a \/ b < indirect d' -> a <= k < b -> k ∉ own d' (blks ++ [b]).
Proof.
  intros Ho Hi Hk [[Hin|Hin]%elem_of_app|Hin]%elem_of_app.
  - specialize (Ho k (own_blks _ _ _ Hin)). lia.
  - apply list_elem_of_singleton in Hin. lia.
  - case_decide; [by apply elem_of_nil in Hin|]. apply list_elem_of_singleton in Hin. lia.
Qed.
Lemma NoDup_inode v R i blks : maps R v (vdin v i) blks -> i ∉ own (vdin v i) blks -> NoDup (i :: own_of v i).
Proof. intros Hm Hi. rewrite (own_of_maps _ _ _ _ Hm). constructor; [done|apply Hm]. Qed.

(** What [add_node] does to the directory [c]. *)
Record placed s c ci blks name (h : hnode) s' ci' (eb j : Z) : Prop := {
  pc_inv : Inv s';
  pc_file : fileof s' c ci' (blks ++ [eb]);
  pc_prog : prog (fun k => k = c \/ k = indirect (inode ci)) (fun r => r ∈ reals h) s s';
  pc_eb : next_ino s <= eb < next_ino s';
  pc_entry : ventry (vimg s') eb = (take 252 name, j);
  pc_rep : rep (vimg s') (fun k => next_ino s <= k < next_ino s' /\ k ∉ own (inode ci') (blks ++ [eb])) c j h;
  pc_nodup : NoDup (occupies (vimg s') j h);
  pc_type : din_type (inode ci') = din_type (inode ci) /\ real ci' = real ci;
  pc_size : size (inode ci') = size (inode ci) + 256;
  pc_links : din_nlinks (inode ci') = din_nlinks (inode ci) + (if is_dir h then 1 else 0);
  pc_next : next_ino s' = next_ino s + need h + 1 + extra blks;
  pc_ind : indirect (inode ci') = indirect (inode ci) \/ next_ino s <= indirect (inode ci')
}.

(** The node [j] with the blocks [jb] is made; its entry is next. *)
Record made s0 c ci blks (N : Z -> Prop) s ci1 j fj (jb : list Z) : Prop := {
  md_inv : Inv s;
  md_prog : prog (fun k => k = c) N s0 s;
  md_c : fileof s c ci1 blks /\ c < next_ino s0 /\ inode ci1 = set_nlinks (din_nlinks (inode ci1)) (inode ci) /\ real ci1 = real ci /\ 0 <= din_nlinks (inode ci1);
  md_own : forall k, k ∈ own (inode ci) blks -> k < next_ino s0;
  md_j : fileof s j fj jb /\ next_ino s0 <= j < next_ino s /\ 0 <= din_nlinks (inode fj) < 65535;
  md_new : forall k, k ∈ own (inode fj) jb -> next_ino s0 <= k
}.
Lemma made_runs s0 c ci blks N s ci1 j fj jb name : Inv s0 -> made s0 c ci blks N s ci1 j fj jb -> din_type (inode ci) = SFS_TYPE_DIR -> (length blks < 1036)%nat -> (length name <= 255)%nat -> Forall (fun b => b <> 0) name ->
  next_ino s + 1 + extra blks <= ninos s0 -> size (inode ci) + 256 < W32 ->
  runs (add_entry pwrite_ok c j name) s (fun _ s' => exists ci', Inv s' /\ fileof s' c ci' (blks ++ [next_ino s]) /\ prog (fun k => k = c \/ k = indirect (inode ci)) N s0 s' /\
    ventry (vimg s') (next_ino s) = (take 252 name, j) /\ (din_type (inode ci') = din_type (inode ci) /\ real ci' = real ci) /\ size (inode ci') = size (inode ci) + 256 /\ din_nlinks (inode ci') = din_nlinks (inode ci1) /\
    next_ino s' = next_ino s + 1 + extra blks /\ (indirect (inode ci') = indirect (inode ci) \/ next_ino s < indirect (inode ci')) /\
    fileof s' j (linked fj) jb /\ forall k, next_ino s0 <= k < next_ino s -> k <> j -> vimg s' k = vimg s k).
Proof.
  intros HI0 [HI Hp (HFc&Hc0&Hci&Hre&Hln) Hown (HFj&Hj&Hlj) Hnew] Ht Hl Hn Hnz Hsp Hsz. pose proof (iv_next _ _ HI0) as Hnx0. pose proof (fo_ci _ _ _ _ _ HFj) as Hjc. assert (E1 : din_type (inode ci1) = din_type (inode ci) /\ size (inode ci1) = size (inode ci) /\ indirect (inode ci1) = indirect (inode ci)) by (rewrite Hci; done).
  destruct E1 as (E1&E2&E3). assert (Hind : indirect (inode ci) < next_ino s0). { pose proof (iv_next _ _ HI0). destruct (decide (indirect (inode ci) = 0)); [lia|]. apply Hown. by apply own_indirect. }
  runs_by (add_entry_runs pwrite_ok pwrite_all f0 s c ci1 blks j fj name HI HFc); [congruence|done|done|done|done|done|rewrite (pg_ninos _ _ _ _ Hp); lia|lia|].
  intros _ s' (ci'&[A1 A2 A3 A4 (A5&A5') A6 A7 A8 A9]&Hlk). specialize (Hlk ltac:(lia)). rewrite decide_False in A7 by lia. exists ci'. split; [done|]. split; [done|]. split; [|split; [done|split; [split; congruence|split; [lia|split; [lia|split; [done|split; [destruct A9; [left; congruence|by right]|split]]]]]]].
  - eapply prog_trans; [exact Hp|exact A3| |tauto]. rewrite E3. intros k Hk [H|[->|[->| ->]]]; auto; lia.
  - eapply fileof_same with (s := with_inodes (<[j := linked fj]> (cinodes s)) (hinodes s) s); [by apply fileof_linked|done| |apply (pg_next _ _ _ _ A3)].
    change (indirect (inode (linked fj))) with (indirect (inode fj)). intros Hz. cbn [cblocks with_inodes]. assert (Hin : indirect (inode fj) ∈ own (inode fj) jb) by (by apply own_indirect). destruct (fo_own _ _ _ _ _ HFj _ Hin) as [Hr Hne]. specialize (Hnew _ Hin). apply (pg_same _ _ _ _ A3); [lia|]. rewrite E3. intros [Hq|[Hq|Hq]]; lia.
  - intros k Hk Hkj. eapply prog_vimg; [exact A3|lia|]. rewrite E3. intros [Hq|[Hq|Hq]]; lia.
Qed.

(** A file or a link. *)
Abbreviation new_inode type r j := (mkCi (zero_din type) 0 r j 0 None None).
Lemma leaf_made s0 c ci blks r type data s1 s2 cj new : Inv s0 -> fileof s0 c ci blks -> prog (fun _ => False) (fun x => x = r) s0 s1 -> next_ino s1 = next_ino s0 + 1 ->
  cinodes s1 = <[next_ino s0 := new_inode type r (next_ino s0)]> (cinodes s0) -> grown f0 s1 (next_ino s0) (new_inode type r (next_ino s0)) [] data s2 cj new ->
  made s0 c ci blks (fun x => x = r) s2 ci (next_ino s0) cj new.
Proof.
  intros HI HF Hp Hn Hc [G1 G2 G3 G4 (G5&G6&G7) G8 G9 G10 G11]. pose proof (iv_next _ _ HI) as Hnx. pose proof (fo_ci _ _ _ _ _ HF) as Hcc. destruct (iv_ci _ _ HI _ _ Hcc) as (_&Hcr&Hwf&_).
  assert (Hp2 : prog (fun k => k = c) (fun x => x = r) s0 s2). { eapply prog_trans; [exact Hp|exact G3| |tauto]. intros k Hk [[]|[->|Hq]]; [lia|]. cbn in Hq. lia. }
  assert (Hcs : cinodes s2 !! c = Some ci /\ forall k, 0 < k < next_ino s0 -> cblocks s2 !! k = cblocks s0 !! k).
  { split.
    - destruct (pg_same _ _ _ _ Hp c) as (E&_); [destruct Hcr; lia|tauto|]. destruct (pg_same _ _ _ _ G3 c) as (E2&_); [destruct Hcr; lia|cbn; intros [Hq|Hq]; destruct Hcr; lia|]. by rewrite E2, E.
    - intros k Hk. destruct (pg_same _ _ _ _ Hp k) as (_&E&_); [lia|tauto|]. destruct (pg_same _ _ _ _ G3 k) as (_&E2&_); [lia|cbn; lia|]. by rewrite E2, E. }
  destruct Hcs as [Hc2 Hb2]. split; try done.
  - split; [|split; [destruct Hcr; lia|split; [by destruct ci as [[]]|split; [done|apply Hwf]]]]. eapply fileof_same; [exact HF|exact Hc2| |apply Hp2].
    intros Hz. apply Hb2. destruct (fo_own _ _ _ _ _ HF _ (own_indirect _ _ Hz)); lia.
  - intros k Hk. destruct (fo_own _ _ _ _ _ HF _ Hk); lia.
  - split; [done|]. split; [pose proof (pg_next _ _ _ _ G3); lia|]. rewrite G7. cbn. lia.
  - intros k [Hk|Hk]%elem_of_app; [specialize (G11 k Hk); lia|]. cbn in G10. case_decide as Hd; [by apply elem_of_nil in Hk|]. apply list_elem_of_singleton in Hk as ->. destruct G10; [done|lia].
Qed.
Lemma leaf_runs s0 c ci blks r type data s1 s2 cj new name h : Inv s0 -> fileof s0 c ci blks -> prog (fun _ => False) (fun x => x = r) s0 s1 -> next_ino s1 = next_ino s0 + 1 ->
  cinodes s1 = <[next_ino s0 := new_inode type r (next_ino s0)]> (cinodes s0) -> grown f0 s1 (next_ino s0) (new_inode type r (next_ino s0)) [] data s2 cj new ->
  (forall v R, holds R v (next_ino s0) type data -> rep v R c (next_ino s0) h) -> (forall v i, occupies v i h = i :: own_of v i) -> reals h = [r] -> is_dir h = false -> need h = 1 + Z.of_nat (length data) + xblk 0 (length data) ->
  din_type (inode ci) = SFS_TYPE_DIR -> (length blks < 1036)%nat -> (length name <= 255)%nat -> Forall (fun b => b <> 0) name -> next_ino s0 + need h + 1 + extra blks <= ninos s0 -> size (inode ci) + 256 < W32 ->
  runs (add_entry pwrite_ok c (next_ino s0) name) s2 (fun _ s' => exists ci' eb j, placed s0 c ci blks name h s' ci' eb j).
Proof.
  intros HI HF Hp Hn Hc G Hrep Hocc Hre Hdir Hneed Ht Hl Hnl Hnz Hsp Hsz. pose proof (leaf_made s0 c ci blks r type data s1 s2 cj new HI HF Hp Hn Hc G) as Hm. destruct G as [G1 G2 G3 G4 (G5&G6&G7) G8 G9 G10 G11]. cbn [length] in G9.
  pose proof (pg_next _ _ _ _ G3) as Hle. pose proof (iv_next _ _ HI) as Hnx. pose proof (xblk_pos 0 (length data)) as Hx. rewrite Nat.add_0_l in G9.
  runs_by (made_runs s0 c ci blks _ s2 ci (next_ino s0) cj new name HI Hm Ht Hl Hnl Hnz); [lia|done|]. intros _ s' (ci'&A1&A2&A3&A4&A5&A6&A7&A8&A9&A10&A11). exists ci', (next_ino s2), (next_ino s0).
  assert (Hex : 0 <= extra blks) by (unfold extra; case_decide; lia).
  assert (Hi' : indirect (inode ci') < next_ino s0 \/ next_ino s2 < indirect (inode ci')).
  { destruct A9 as [->|]; [left|by right]. destruct (decide (indirect (inode ci) = 0)); [lia|]. by apply (md_own _ _ _ _ _ _ _ _ _ _ Hm), own_indirect. }
  assert (HR : forall k, next_ino s0 <= k < next_ino s2 -> next_ino s0 <= k < next_ino s' /\ k ∉ own (inode ci') (blks ++ [next_ino s2])) by (intros k Hk; split; [lia|]; by eapply new_not_own; [apply (md_own _ _ _ _ _ _ _ _ _ _ Hm)|..]).
  assert (Hmap : maps (fun k => next_ino s0 <= k < next_ino s' /\ k ∉ own (inode ci') (blks ++ [next_ino s2])) (vimg s') (vdin (vimg s') (next_ino s0)) new).
  { rewrite (vdin_of f0 s' (next_ino s0) (linked cj) A1 (fo_ci _ _ _ _ _ A10)).
    eapply (fileof_maps f0 s' (next_ino s0) (linked cj)); [done|done|]. intros k Hk. apply HR. split; [by apply (md_new _ _ _ _ _ _ _ _ _ _ Hm)|apply (fo_own _ _ _ _ _ G2 k Hk)]. }
  split; try done; try lia.
  - rewrite Hre. eapply prog_weaken; [exact A3|tauto|intros x ->; left].
  - apply Hrep. split; [apply HR; lia|]. exists new. split; [exact Hmap|]. rewrite (vdin_of f0 s' (next_ino s0) (linked cj) A1 (fo_ci _ _ _ _ _ A10)). cbn [linked inode with_inode set_nlinks din_type din_nlinks size].
    split; [done|split; [rewrite G7; done|split; [rewrite G8; done|]]].
    rewrite <-G4. apply list_fmap_ext. intros i k Hk. apply list_elem_of_lookup_2 in Hk. pose proof (fo_own _ _ _ _ _ G2 k (own_blks _ _ _ Hk)) as [? ?]. specialize (G11 k Hk). apply A11; [lia|done].
  - rewrite Hocc. eapply NoDup_inode; [exact Hmap|]. rewrite (vdin_of f0 s' (next_ino s0) (linked cj) A1 (fo_ci _ _ _ _ _ A10)). intros Hin. by destruct (fo_own _ _ _ _ _ A10 _ Hin).
  - rewrite Hdir. lia.
Qed.

Lemma full_length l : forall last, full last l -> Z.of_nat (length (concat l)) <= 4096 * Z.of_nat (length l).
Proof. induction l as [|b l IH]; intros last; [done|]. cbn [full concat length]. intros (_&Hb&Hf). rewrite length_app. specialize (IH _ Hf). lia. Qed.
Lemma add_file_runs s c ci blks r reads name : Inv s -> fileof s c ci blks -> unknown s r -> full SFS_BLKSIZE reads -> (length reads <= 1036)%nat -> din_type (inode ci) = SFS_TYPE_DIR -> (length blks < 1036)%nat -> (length name <= 255)%nat -> Forall (fun b => b <> 0) name ->
  next_ino s + need (HFile r reads true) + 1 + extra blks <= ninos s -> size (inode ci) + 256 < W32 -> runs (add_file pwrite_ok c name reads true r) s (fun _ s' => exists ci' eb j, placed s c ci blks name (HFile r reads true) s' ci' eb j).
Proof.
  intros HI HF Hu Hfull Hrl Ht Hl Hnl Hnz Hsp Hsz. assert (Hex : 0 <= extra blks) by (unfold extra; case_decide; lia). pose proof (xblk_pos 0 (length reads)) as Hx. cbn [need] in Hsp.
  unfold add_file. apply runs_bind. runs_by (search_unknown s r HI Hu). intros x s' [-> ->]. apply runs_bind, runs_bind. apply (alloc_cache_inode_runs f0); [done|lia|unfold SFS_TYPE_FILE; lia|]. intros s1 HI1 Hp1 Hn1 _ Hc1. apply runs_bind.
  assert (Hcat : Z.of_nat (length (concat reads)) <= 4096 * 1036).
  { pose proof (full_length _ _ Hfull). lia. }
  runs_by (open_file_runs pwrite_ok pwrite_all f0 reads s1 (next_ino s) (new_inode SFS_TYPE_FILE r (next_ino s)) [] SFS_BLKSIZE HI1); [apply fileof_new; by rewrite Hc1, lookup_insert_eq|done|cbn; lia|cbn [length]; rewrite (pg_ninos _ _ _ _ Hp1), Nat.add_0_l; lia|cbn; unfold W32; lia|].
  intros _ s2 (cj&new&G). apply runs_ret. by apply (leaf_runs s c ci blks r SFS_TYPE_FILE reads s1 s2 cj new name).
Qed.
Lemma runs_tail {S A} (m1 : M S A) (m2 m3 : A -> M S unit) (s : S) (Q : unit -> S -> Prop) : runs (let! x := m1 in (do! m2 x in (do! m3 x in ret tt))) s Q -> runs (let! x := m1 in (do! m2 x in m3 x)) s Q.
Proof. unfold runs, bind, ret. destruct (m1 s) as [[a s1]| | |]; try done. destruct (m2 a s1) as [[[] s2]| | |]; try done. by destruct (m3 a s2) as [[[] s3]| | |]. Qed.
Lemma add_link_runs s c ci blks r t name : Inv s -> fileof s c ci blks -> (length t < 4096)%nat -> din_type (inode ci) = SFS_TYPE_DIR -> (length blks < 1036)%nat -> (length name <= 255)%nat -> Forall (fun b => b <> 0) name ->
  next_ino s + 2 + 1 + extra blks <= ninos s -> size (inode ci) + 256 < W32 -> runs (add_link pwrite_ok c name (Some t) r) s (fun _ s' => exists ci' eb j, placed s c ci blks name (HLink r (Some t)) s' ci' eb j).
Proof.
  intros HI HF Htl Ht Hl Hnl Hnz Hsp Hsz. assert (Hex : 0 <= extra blks) by (unfold extra; case_decide; lia).
  unfold add_link. apply runs_bind. apply (alloc_cache_inode_runs f0); [done|lia|unfold SFS_TYPE_LINK; lia|]. intros s1 HI1 Hp1 Hn1 _ Hc1. apply runs_bind. unfold open_link. assert (Ht4 : (Z.of_nat (length t) =? SFS_BLKSIZE) = false) by (apply Z.eqb_neq; unfold SFS_BLKSIZE; lia). rewrite Ht4. apply runs_tail.
  runs_by (add_data_runs pwrite_ok pwrite_all f0 s1 (next_ino s) (new_inode SFS_TYPE_LINK r (next_ino s)) [] t (ret tt) (fun _ s2 => exists cj k, grown f0 s1 (next_ino s) (new_inode SFS_TYPE_LINK r (next_ino s)) [] [t] s2 cj [k]));
    [done|apply fileof_new; by rewrite Hc1, lookup_insert_eq|cbn; lia|lia|rewrite (pg_ninos _ _ _ _ Hp1); change (extra []) with 0; lia|cbn; unfold W32; lia|intros s2 cj k G; apply runs_ret; eauto|].
  intros _ s2 (cj&k&G). by apply (leaf_runs s c ci blks r SFS_TYPE_LINK [t] s1 s2 cj [k] name).
Qed.

(** ** Directories *)

(** What the loop over the entries does to the directory [c]. *)
Record filled s c ci blks es s' ci' (new : list Z) (rest : list (list Z * Z)) : Prop := {
  fl_inv : Inv s';
  fl_file : fileof s' c ci' (blks ++ new);
  fl_prog : prog (fun k => k = c \/ k = indirect (inode ci)) (fun r => r ∈ all_reals es) s s';
  fl_entries : ventry (vimg s') <$> new = rest;
  fl_reps : reps (vimg s') (fun k => next_ino s <= k < next_ino s' /\ k ∉ own (inode ci') (blks ++ new)) c es rest;
  fl_nodup : NoDup (kids (vimg s') es rest);
  fl_kept : din_type (inode ci') = din_type (inode ci) /\ real ci' = real ci;
  fl_size : size (inode ci') = size (inode ci) + 256 * Z.of_nat (length new);
  fl_links : din_nlinks (inode ci') = din_nlinks (inode ci) + subdirs es;
  fl_next : next_ino s' = next_ino s + needs es + xblk (length blks) (length blks + length new);
  fl_len : length new = length (shown es);
  fl_ind : indirect (inode ci') = indirect (inode ci) \/ next_ino s <= indirect (inode ci');
  fl_new : forall k, k ∈ new -> next_ino s <= k
}.
(** A directory with room for [n] more entries. *)
Record room s c ci blks (n : nat) (cost : Z) : Prop := {
  rm_inv : Inv s;
  rm_file : fileof s c ci blks;
  rm_type : din_type (inode ci) = SFS_TYPE_DIR;
  rm_size : size (inode ci) = 256 * Z.of_nat (length blks);
  rm_links : 0 <= din_nlinks (inode ci) <= Z.of_nat (length blks);
  rm_len : (length blks + n <= 1036)%nat;
  rm_space : next_ino s + cost + xblk (length blks) (length blks + n) <= ninos s
}.
Definition all_unknown s (l : list Z) : Prop := NoDup l /\ forall r, r ∈ l -> unknown s r.

Lemma placed_filled s c ci blks n h es s1 ci1 eb j s2 ci2 new rest : Inv s -> fileof s c ci blks -> hidden n h = false -> placed s c ci blks n h s1 ci1 eb j -> filled s1 c ci1 (blks ++ [eb]) es s2 ci2 new rest -> filled s c ci blks ((n, h) :: es) s2 ci2 (eb :: new) ((take 252 n, j) :: rest).
Proof.
  intros HI HF Hh [A1 A2 A3 A4 A5 A6 An (A7&A7') A8 A9 A10 A11] [B1 B2 B3 B4 B5 Bn (B6&B6') B7 B8 B9 B10 B11 B12]. pose proof (iv_next _ _ HI) as Hnx. pose proof (pg_next _ _ _ _ A3) as Hle. pose proof (pg_next _ _ _ _ B3) as Hle2. destruct (iv_ci _ _ HI _ _ (fo_ci _ _ _ _ _ HF)) as (_&Hcr&_).
  assert (Hi2 : indirect (inode ci2) = indirect (inode ci1) \/ next_ino s1 <= indirect (inode ci2)) by done. assert (Heb : eb <> c /\ eb <> indirect (inode ci1)) by (apply (blks_apart f0 s1 c ci1 (blks ++ [eb])); [done|lia|apply elem_of_app; right; left]).
  rewrite <-app_assoc in B2, B5. cbn [app] in B2, B5.
  assert (Hfr : forall k, next_ino s <= k < next_ino s1 /\ k ∉ own (inode ci1) (blks ++ [eb]) -> vimg s2 k = vimg s1 k).
  { intros k [Hk Hki]. eapply prog_vimg; [exact B3|lia|]. intros [->|Hq]; [destruct Hcr; lia|]. by apply not_own in Hki; [|lia]. }
  split; try done.
  - eapply prog_trans; [exact A3|exact B3| |].
    + intros k Hk [H|[->|Hq]]; [done|by left|]. destruct A11 as [A11|A11]; [right; congruence|lia].
    + intros r. rewrite all_reals_cons, Hh, elem_of_app. done.
  - cbn [fmap list_fmap]. rewrite B4. f_equal. rewrite <-A5. unfold ventry. rewrite (prog_vimg _ _ _ _ eb B3); [done|lia|tauto].
  - rewrite reps_cons, Hh. exists j, rest. split; [done|]. split.
    + eapply rep_mono; [|exact Hfr|exact A6]. cbn. intros k [Hk Hki]. split; [lia|]. intros [[Hin|[->|Hin]%elem_of_cons]%elem_of_app|Hin]%elem_of_app.
      * apply Hki, own_blks, elem_of_app. by left.
      * apply Hki, own_blks, elem_of_app. right. left.
      * specialize (B12 k Hin). lia.
      * case_decide as Hz; [by apply elem_of_nil in Hin|]. apply list_elem_of_singleton in Hin as ->. destruct Hi2 as [Hi2|]; [|lia]. apply Hki. rewrite Hi2. apply own_indirect. congruence.
    + eapply reps_mono; [| |exact B5]; cbn; [intros k [Hk Hki]; split; [lia|done]|done].
  - rewrite kids_cons, Hh, (occupies_frame _ _ _ Hfr _ _ _ A6). apply NoDup_app. split; [done|]. split; [|done]. intros k Hk1 Hk2.
    pose proof (proj1 (Forall_forall _ _) (occupies_in _ _ _ _ _ A6) k Hk1) as [? _]. pose proof (proj1 (Forall_forall _ _) (kids_in _ _ _ _ _ B5) k Hk2) as [? _]. lia.
  - split; congruence.
  - rewrite B7, A8. cbn [length]. lia.
  - rewrite subdirs_cons, Hh. lia.
  - rewrite needs_cons, Hh. rewrite length_app in B9. cbn [length] in *. pose proof (extra_xblk blks (length new)). lia.
  - rewrite shown_cons, Hh. cbn [length]. lia.
  - destruct B11 as [B11|B11]; [destruct A11 as [A11|A11]; [left; congruence|right; lia]|right; lia].
  - intros k [->|Hk]%elem_of_cons; [lia|]. specialize (B12 k Hk). lia.
Qed.
Lemma filled_skip s c ci blks n h es s2 ci2 new rest : hidden n h = true -> filled s c ci blks es s2 ci2 new rest -> filled s c ci blks ((n, h) :: es) s2 ci2 new rest.
Proof.
  intros Hh [B1 B2 B3 B4 B5 Bn B6 B7 B8 B9 B10 B11 B12]. split; try done.
  - by rewrite all_reals_cons, Hh.
  - by rewrite reps_cons, Hh.
  - by rewrite kids_cons, Hh.
  - rewrite subdirs_cons, Hh. lia.
  - rewrite needs_cons, Hh. lia.
  - by rewrite shown_cons, Hh.
Qed.

Definition node_spec (h : hnode) : Prop := other h = false -> forall s c ci blks name, room s c ci blks 1 (need h + 1) -> okh h -> all_unknown s (reals h) -> (length name <= 255)%nat -> Forall (fun b => b <> 0) name ->
  runs (add_node pwrite_ok c name h) s (fun _ s' => exists ci' eb j, placed s c ci blks name h s' ci' eb j).
Definition loop_spec (es : list (list Z * hnode)) : Prop := forall s c ci blks, room s c ci blks (length (shown es)) (needs es) -> oks es -> all_unknown s (all_reals es) ->
  runs (dir_loop (add_node pwrite_ok) c es) s (fun _ s' => exists ci' new rest, filled s c ci blks es s' ci' new rest).

Lemma room_step s c ci blks n h es s1 ci1 eb j : room s c ci blks (S (length (shown es))) (need h + 1 + needs es) -> placed s c ci blks n h s1 ci1 eb j -> room s1 c ci1 (blks ++ [eb]) (length (shown es)) (needs es).
Proof.
  intros [A1 A2 A3 A4 A5 A6 A7] [B1 B2 B3 B4 B5 B6 Bn (B7&B7') B8 B9 B10 B11]. pose proof (extra_xblk blks (length (shown es))). split; try done.
  - congruence.
  - rewrite length_app. cbn [length]. lia.
  - rewrite length_app. cbn [length]. destruct (is_dir h); lia.
  - rewrite length_app. cbn [length]. lia.
  - rewrite length_app, (pg_ninos _ _ _ _ B3). cbn [length]. lia.
Qed.
Lemma room_first s c ci blks n cost k : room s c ci blks (S n) (cost + k) -> 0 <= k -> room s c ci blks 1 cost.
Proof. intros [A1 A2 A3 A4 A5 A6 A7] Hk. split; try done; [lia|]. assert (xblk (length blks) (length blks + 1) <= xblk (length blks) (length blks + S n)) by (unfold xblk; repeat case_decide; lia). lia. Qed.
Lemma loop_step n h es : node_spec h -> loop_spec es -> loop_spec ((n, h) :: es).
Proof.
  intros IH IHs s c ci blks Hr Hok Hu. cbn [dir_loop]. rewrite oks_cons in Hok. destruct Hok as [Hn Hoks]. unfold all_unknown in Hu. rewrite needs_cons, shown_cons in Hr. rewrite all_reals_cons in Hu.
  change (dir_loop (add_node pwrite_ok) c ((n, h) :: es)) with (let! _ := (if skipped n then ret tt else if SFS_MAX_FNAME_LEN <? Z.of_nat (length n) then panic else add_node pwrite_ok c n h) in dir_loop (add_node pwrite_ok) c es). apply runs_bind.
  destruct (hidden n h) eqn:Hh.
  - assert (Hskip : runs (if skipped n then ret tt else if SFS_MAX_FNAME_LEN <? Z.of_nat (length n) then panic else add_node pwrite_ok c n h) s (fun _ s' => s' = s)).
    { unfold hidden in Hh. destruct (skipped n); [by apply runs_ret|]. destruct (Hn eq_refl) as (Hl&_). rewrite (proj2 (Z.ltb_ge _ _)) by (unfold SFS_MAX_FNAME_LEN; lia). destruct h; try done; by apply runs_ret. }
    runs_by Hskip. intros _ s' ->. runs_by (IHs s c ci blks Hr Hoks Hu). intros _ s2 (ci2&new&rest&Hf). exists ci2, new, rest. by apply filled_skip.
  - assert (Hs : skipped n = false /\ other h = false) by (by apply orb_false_iff). destruct Hs as [Hs Ho]. rewrite Hs. destruct (Hn Hs) as (Hl&Hz&Hokh). rewrite (proj2 (Z.ltb_ge _ _)) by (unfold SFS_MAX_FNAME_LEN; lia). destruct Hu as [Hnd Hu]. apply NoDup_app in Hnd as (Hnd1&Hnd12&Hnd2).
    runs_by (IH Ho s c ci blks n); [eapply room_first; [exact Hr|apply needs_pos]|done|split; [done|]; intros r Hin; apply Hu, elem_of_app; by left|done|done|]. intros _ s1 (ci1&eb&j&Hp).
    runs_by (IHs s1 c ci1 (blks ++ [eb])); [by eapply room_step|done| |].
    + split; [done|]. intros r Hin. eapply prog_unknown; [apply (pc_prog _ _ _ _ _ _ _ _ _ _ Hp)|apply Hu, elem_of_app; by right|]. intros Hin2. by apply (Hnd12 r).
    + intros _ s2 (ci2&new&rest&Hf). exists ci2, (eb :: new), ((take 252 n, j) :: rest). eapply placed_filled; [apply Hr|apply Hr|done|exact Hp|exact Hf].
Qed.

(** The directory [j] with the parent [p] holds [es]. *)
Record opened s j p es s' cj' blks (rest : list (list Z * Z)) : Prop := {
  op_inv : Inv s';
  op_file : fileof s' j cj' blks;
  op_prog : prog (fun k => k = j \/ k = p) (fun r => r ∈ all_reals es) s s';
  op_entries : ventry (vimg s') <$> blks = ([46], j) :: ([46; 46], p) :: rest;
  op_reps : reps (vimg s') (fun k => next_ino s <= k < next_ino s' /\ k ∉ own (inode cj') blks) j es rest;
  op_nodup : NoDup (kids (vimg s') es rest);
  op_type : din_type (inode cj') = SFS_TYPE_DIR;
  op_size : size (inode cj') = 256 * Z.of_nat (length blks);
  op_links : din_nlinks (inode cj') = 1 + subdirs es + (if decide (p = j) then 1 else 0);
  op_next : next_ino s' = next_ino s + 2 + needs es + xblk 0 (2 + length (shown es));
  op_parent : forall pi, p <> j -> cinodes s !! p = Some pi -> cinodes s' !! p = Some (linked pi);
  op_new : forall k, k ∈ own (inode cj') blks -> next_ino s <= k
}.
Lemma open_dir_runs es s j p r pi : loop_spec es -> Inv s -> cinodes s !! j = Some (new_inode SFS_TYPE_DIR r j) -> cinodes s !! p = Some pi -> 0 <= din_nlinks (inode pi) < 65535 -> oks es -> all_unknown s (all_reals es) ->
  (2 + length (shown es) <= 1036)%nat -> next_ino s + 2 + needs es + xblk 0 (2 + length (shown es)) <= ninos s ->
  runs (open_dir_with pwrite_ok (add_node pwrite_ok) es j p) s (fun _ s' => exists cj' blks rest, opened s j p es s' cj' blks rest).
Proof.
  intros IH HI Hj Hp Hpl Hok [Hnd Hu] Hlen Hsp. pose proof (fileof_new f0 s j SFS_TYPE_DIR r Hj) as HF. pose proof (needs_pos es) as Hnp. pose proof (iv_next _ _ HI) as Hnx. set (cj := mkCi _ _ _ _ _ _ _) in *. destruct (iv_ci _ _ HI _ _ Hj) as (_&Hjr&_). destruct (iv_ci _ _ HI _ _ Hp) as (_&Hpr&_).
  assert (Hx2 : xblk 2 (2 + length (shown es)) = xblk 0 (2 + length (shown es))) by (unfold xblk; repeat case_decide; lia). pose proof (xblk_pos 2 (2 + length (shown es))) as Hx.
  unfold open_dir_with. apply runs_bind. runs_by (add_entry_runs pwrite_ok pwrite_all f0 s j cj [] j cj [46] HI HF); [done|done|cbn; lia|cbn; lia|cbn; lia|by repeat constructor|change (extra []) with 0; lia|cbn; unfold W32; lia|].
  intros _ s1 (c1&[A1 A2 A3 A4 (A5&A5') A6 A7 A8 A9]&_). rewrite decide_True in A7 by done. cbn in A6, A7. change (extra []) with 0 in A8. pose proof (fo_ci _ _ _ _ _ A2) as Hc1.
  assert (Hp1 : exists pi1, cinodes s1 !! p = Some pi1 /\ 0 <= din_nlinks (inode pi1) < 65535 /\ (p <> j -> pi1 = pi)).
  { destruct (decide (p = j)) as [->|Hne]; [exists c1; split; [done|split; [lia|done]]|]. exists pi. split; [|done]. destruct (pg_same _ _ _ _ A3 p) as (E&_); [destruct Hpr; lia|cbn; intros [Hq|[Hq|Hq]]; [done|destruct Hpr; lia|done]|]. by rewrite E. }
  destruct Hp1 as (pi1&Hp1&Hpl1&Hpi). apply runs_bind. runs_by (add_entry_runs pwrite_ok pwrite_all f0 s1 j c1 [next_ino s] p pi1 [46; 46] A1 A2); [by rewrite A5|done|done|cbn; lia|cbn; lia|by repeat constructor|change (extra [next_ino s]) with 0; rewrite (pg_ninos _ _ _ _ A3); lia|unfold W32; lia|].
  intros _ s2 (c2&[B1 B2 B3 B4 (B5&B5') B6 B7 B8 B9]&Hlk). change (extra [next_ino s]) with 0 in B8. cbn [app] in B2. set (e1 := next_ino s) in *. set (e2 := next_ino s1) in *.
  assert (I1 : indirect (inode c1) = 0) by (apply (fo_small _ _ _ _ _ A2); cbn; lia). assert (I2 : indirect (inode c2) = 0) by (apply (fo_small _ _ _ _ _ B2); cbn; lia).
  assert (HP : prog (fun k => k = j \/ k = p) (fun _ => False) s s2). { eapply prog_trans; [exact A3|exact B3| |tauto]. cbn. rewrite I1. intros k Hk [[H|[H|H]]|[H|[H|H]]]; auto; lia. }
  assert (Hr2 : room s2 j c2 [e1; e2] (length (shown es)) (needs es)).
  { split; try done; [by rewrite B5, A5|cbn [length]; lia|rewrite B7, A7; cbn [length]; destruct (decide (p = j)); lia|cbn [length]; rewrite Hx2, (pg_ninos _ _ _ _ HP); lia]. }
  runs_by (IH s2 j c2 [e1; e2] Hr2 Hok); [split; [done|]; intros x Hx'; eapply prog_unknown; [exact HP|by apply Hu|tauto]|]. intros _ s3 (c3&new&rest&[C1 C2 C3 C4 C5 Cn (C6&C6') C7 C8 C9 C10 C11 C12]).
  assert (Hv1 : ventry (vimg s3) e1 = ([46], j)).
  { etransitivity; [|exact A4]. unfold ventry. rewrite (prog_vimg _ _ _ _ e1 C3), (prog_vimg _ _ _ _ e1 B3); [done|lia|rewrite I1|lia|rewrite I2]; cbn; intros Hq; destruct Hjr, Hpr; lia. }
  assert (Hv2 : ventry (vimg s3) e2 = ([46; 46], p)). { etransitivity; [|exact B4]. unfold ventry. rewrite (prog_vimg _ _ _ _ e2 C3); [done|lia|rewrite I2; intros Hq; destruct Hjr; lia]. }
  exists c3, ([e1; e2] ++ new), rest. split; try done.
  - eapply prog_trans; [exact HP|exact C3| |tauto]. rewrite I2. intros k Hk [H|[H|H]]; auto; lia.
  - rewrite fmap_app, C4. cbn. by rewrite Hv1, Hv2.
  - eapply reps_mono; [| |exact C5]; cbn; [intros k [Hk Hki]; split; [lia|done]|done].
  - by rewrite C6, B5, A5.
  - rewrite length_app. cbn [length]. lia.
  - rewrite C8, B7, A7. repeat case_decide; lia.
  - rewrite C9. cbn [length]. rewrite C10, Hx2. lia.
  - intros pi' Hne Hpi'. rewrite Hp in Hpi'. injection Hpi' as <-. specialize (Hlk Hne). rewrite (Hpi Hne) in Hlk. destruct (pg_same _ _ _ _ C3 p) as (E&_); [destruct Hpr; lia|rewrite I2; intros [Hq|Hq]; [done|destruct Hpr; lia]|]. by rewrite E.
  - intros k Hk. apply elem_of_app in Hk as [Hk|Hk].
    + apply elem_of_app in Hk as [Hk|Hk]; [|specialize (C12 k Hk); lia]. rewrite !elem_of_cons in Hk. destruct Hk as [->|[->|[]%elem_of_nil]]; lia.
    + case_decide as Hd; [by apply elem_of_nil in Hk|]. apply list_elem_of_singleton in Hk as ->. destruct C11 as [C11|C11]; [congruence|lia].
Qed.

Lemma subdirs_bound es : 0 <= subdirs es <= Z.of_nat (length (shown es)).
Proof. unfold subdirs. split; [lia|]. apply inj_le, length_filter. Qed.
Lemma made_dir s c ci blks n cost name r es s1 s3 cj jb rest : room s c ci blks n cost -> okh (HDir r es) -> prog (fun _ => False) (fun x => x = r) s s1 -> next_ino s1 = next_ino s + 1 -> cinodes s1 = <[next_ino s := new_inode SFS_TYPE_DIR r (next_ino s)]> (cinodes s) ->
  opened (with_subpath (name :: subpath s1) s1) (next_ino s) c es s3 cj jb rest -> made s c ci blks (fun x => x ∈ reals (HDir r es)) (with_subpath (subpath s1) s3) (linked ci) (next_ino s) cj jb.
Proof.
  intros [HI HF Ht Hs Hl Hn Hsp] [Hlen _] Hp Hn1 Hc1 [O1 O2 O3 O4 O5 On O6 O7 O8 O9 O10 O11]. pose proof (iv_next _ _ HI) as Hnx. pose proof (fo_ci _ _ _ _ _ HF) as Hcc. destruct (iv_ci _ _ HI _ _ Hcc) as (_&Hcr&_). cbn [next_ino cinodes with_subpath] in O3, O9, O10, O11.
  assert (Hp3 : prog (fun k => k = next_ino s \/ k = c) (fun x => x ∈ all_reals es) s1 (with_subpath (subpath s1) s3)) by (destruct O3; split; done). pose proof (subdirs_bound es) as Hsd. pose proof (pg_next _ _ _ _ Hp3) as Hle. cbn in Hle.
  assert (Hpp : prog (fun k => k = c) (fun x => x ∈ reals (HDir r es)) s (with_subpath (subpath s1) s3)).
  { eapply prog_trans; [exact Hp|exact Hp3| |]; cbn; [intros k Hk [[]|[->|H]]; [lia|done]|]. intros x [->|Hx]; [left|by right]. }
  split; try done.
  - by destruct O1.
  - split; [|split; [destruct Hcr; lia|split; [by destruct ci as [[]]|split; [done|cbn; lia]]]]. pose proof (fileof_linked f0 s c ci blks HF) as HL. eapply fileof_same; [exact HL| | |cbn; lia].
    + cbn. apply O10; [destruct Hcr; lia|]. rewrite Hc1, lookup_insert_ne by (destruct Hcr; lia). done.
    + change (indirect (inode (linked ci))) with (indirect (inode ci)). intros Hz. cbn [cblocks with_inodes]. destruct (fo_own _ _ _ _ _ HF _ (own_indirect _ _ Hz)) as [? ?]. apply (pg_same _ _ _ _ Hpp); [lia|done].
  - intros k Hk. destruct (fo_own _ _ _ _ _ HF _ Hk); lia.
  - split; [eapply fileof_same; [exact O2|apply O2|done|done]|]. split; [cbn; lia|]. rewrite O8, decide_False by (destruct Hcr; lia). lia.
  - intros k Hk. specialize (O11 k Hk). lia.
Qed.
Lemma add_dir_spec r es : loop_spec es -> node_spec (HDir r es).
Proof.
  intros IH _ s c ci blks name Hr Hok [Hnd Hu] Hnl Hnz. pose proof Hr as [HI HF Ht Hs Hl Hn Hsp]. destruct Hok as [Hlen Hoks]. pose proof (iv_next _ _ HI) as Hnx. pose proof (fo_ci _ _ _ _ _ HF) as Hcc. destruct (iv_ci _ _ HI _ _ Hcc) as (_&Hcr&_).
  change (reals (HDir r es)) with (r :: all_reals es) in Hnd, Hu. apply NoDup_cons in Hnd as [Hrn Hnd]. rewrite need_dir in Hsp. pose proof (needs_pos es) as Hnp. pose proof (xblk_pos 0 (2 + length (shown es))) as Hx. assert (Hxe : xblk (length blks) (length blks + 1) = extra blks) by (unfold xblk, extra; repeat case_decide; lia).
  assert (Hex : 0 <= extra blks) by (unfold extra; case_decide; lia). cbn [add_node]. unfold add_dir. apply runs_bind. runs_by (search_unknown s r HI (Hu r ltac:(left))). intros x s' [-> ->]. apply runs_bind, runs_assert; [done|]. apply runs_bind.
  apply (alloc_cache_inode_runs f0); [done|lia|unfold SFS_TYPE_DIR; lia|]. intros s1 HI1 Hp1 Hn1 _ Hc1. apply runs_bind, runs_modify. set (s2 := with_subpath _ s1). assert (HI2 : Inv s2) by (by destruct HI1). apply runs_bind.
  runs_by (open_dir_runs es s2 (next_ino s) c r ci IH HI2); [cbn; by rewrite Hc1, lookup_insert_eq|cbn; rewrite Hc1, lookup_insert_ne by (destruct Hcr; lia); done|lia|done|split; [done|]; intros x Hx2; change (unknown s1 x); eapply prog_unknown; [exact Hp1|apply Hu; by right|intros ->; done]|done|cbn [next_ino ninos with_subpath s2]; rewrite (pg_ninos _ _ _ _ Hp1); lia|].
  intros _ s3 (cj&jb&rest&Hop). pose proof (made_dir s c ci blks 1 _ name r es s1 s3 cj jb rest Hr (conj Hlen Hoks) Hp1 Hn1 Hc1 Hop) as Hm. pose proof Hop as [O1 O2 O3 O4 O5 On O6 O7 O8 O9 O10 O11]. cbn [next_ino cinodes with_subpath s2] in O5, O9, O11.
  apply runs_bind. unfold subpath_pop. apply runs_bind, runs_get. rewrite (pg_sub _ _ _ _ O3). cbn [subpath with_subpath s2]. apply runs_modify. set (s4 := with_subpath _ s3) in *.
  runs_by (made_runs s c ci blks _ s4 (linked ci) (next_ino s) cj jb name HI Hm Ht ltac:(lia) Hnl Hnz); [cbn [next_ino with_subpath s4]; lia|unfold W32; lia|]. intros _ s5 (ci'&A1&A2&A3&A4&A5&A6&A7&A8&A9&A10&A11). cbn [next_ino with_subpath s4] in A8, A9, A11.
  exists ci', (next_ino s4), (next_ino s). change (next_ino s4) with (next_ino s3) in *. assert (Hi' : indirect (inode ci') < next_ino s \/ next_ino s3 < indirect (inode ci')).
  { destruct A9 as [->|]; [left|by right]. destruct (decide (indirect (inode ci) = 0)); [lia|]. by apply (md_own _ _ _ _ _ _ _ _ _ _ Hm), own_indirect. }
  set (R := fun k => next_ino s <= k < next_ino s5 /\ k ∉ own (inode ci') (blks ++ [next_ino s3])).
  assert (HR : forall k, next_ino s <= k < next_ino s3 -> R k) by (intros k Hk; split; [lia|]; by eapply new_not_own; [apply (md_own _ _ _ _ _ _ _ _ _ _ Hm)|..]).
  assert (Hmap : maps R (vimg s5) (vdin (vimg s5) (next_ino s)) jb).
  { rewrite (vdin_of f0 s5 (next_ino s) (linked cj) A1 (fo_ci _ _ _ _ _ A10)). eapply (fileof_maps f0 s5 (next_ino s) (linked cj)); [done|done|]. intros k Hk. apply HR. split; [specialize (O11 k Hk); lia|apply (fo_own _ _ _ _ _ O2 k Hk)]. }
  assert (Hent : ventry (vimg s5) <$> jb = ([46], next_ino s) :: ([46; 46], c) :: rest).
  { rewrite <-O4. apply list_fmap_ext. intros i k Hk. apply list_elem_of_lookup_2, own_blks with (d := inode cj) in Hk. pose proof (fo_own _ _ _ _ _ O2 k Hk) as [? ?]. specialize (O11 k Hk). unfold ventry. change (vimg s3 k) with (vimg s4 k). rewrite A11; [done|lia|done]. }
  assert (Hfr : forall k, next_ino s1 <= k < next_ino s3 /\ k ∉ own (inode cj) jb -> vimg s5 k = vimg s3 k) by (intros k [Hk Hki]; change (vimg s3 k) with (vimg s4 k); apply A11; lia).
  split; try done; try lia.
  - rewrite rep_dir. split; [apply HR; lia|]. exists jb, rest. split; [exact Hmap|]. rewrite (vdin_of f0 s5 (next_ino s) (linked cj) A1 (fo_ci _ _ _ _ _ A10)). cbn [linked inode with_inode set_nlinks din_type din_nlinks size]. split; [done|split; [rewrite O8, decide_False by (destruct Hcr; lia); lia|split; [done|split; [exact Hent|]]]].
    eapply reps_mono; [|exact Hfr|exact O5]; cbn; intros k [Hk Hki]; apply HR; lia.
  - rewrite occupies_dir, (entries_of_maps _ _ _ _ _ _ _ Hmap Hent), (kids_frame _ _ _ Hfr _ _ _ O5), (own_of_maps _ _ _ _ Hmap). pose proof (mp_nodup _ _ _ _ Hmap) as Hno.
    rewrite (vdin_of f0 s5 (next_ino s) (linked cj) A1 (fo_ci _ _ _ _ _ A10)) in Hno |- *. change (own (inode (linked cj)) jb) with (own (inode cj) jb) in *.
    assert (Hk : forall k, k ∈ kids (vimg s3) es rest -> next_ino s1 <= k < next_ino s3 /\ k ∉ own (inode cj) jb) by (intros k Hk; exact (proj1 (Forall_forall _ _) (kids_in _ _ _ _ _ O5) k Hk)).
    constructor; [intros [Hin|Hin]%elem_of_app; [by destruct (fo_own _ _ _ _ _ O2 _ Hin)|destruct (Hk _ Hin); lia]|]. apply NoDup_app. split; [done|]. split; [|done]. intros k Hk1 Hk2. by destruct (Hk k Hk2).
  - rewrite A8, O9, need_dir. lia.
Qed.

Lemma loop_nil : loop_spec [].
Proof.
  intros s c ci blks [HI HF Ht Hs Hl Hn Hsp] _ _. change (dir_loop (add_node pwrite_ok) c []) with (ret tt : M msfs unit). apply runs_ret. exists ci, [], [].
  split; try done; [by rewrite app_nil_r|apply prog_refl|constructor|cbn; lia|unfold subdirs; cbn; lia| |by left|by intros k []%elem_of_nil]. cbn [length]. change (needs []) with 0. rewrite Nat.add_0_r. unfold xblk. rewrite decide_False by lia. lia.
Qed.
Lemma node_spec_all h : node_spec h.
Proof.
  apply (hnode_ind2 node_spec loop_spec).
  - intros r reads eof _ s c ci blks name [HI HF Ht Hs Hl Hn Hsp] (->&Hfull&Hlen) [_ Hu] Hnl Hnz. assert (Hxe : xblk (length blks) (length blks + 1) = extra blks) by (unfold xblk, extra; repeat case_decide; lia).
    apply (add_file_runs s c ci blks r reads name); try done; [apply Hu; left|lia|lia|unfold W32; lia].
  - intros r es IH. by apply add_dir_spec.
  - intros r t _ s c ci blks name [HI HF Ht Hs Hl Hn Hsp] (l&->&Hlen) _ Hnl Hnz. assert (Hxe : xblk (length blks) (length blks + 1) = extra blks) by (unfold xblk, extra; repeat case_decide; lia). cbn [need] in Hsp.
    apply (add_link_runs s c ci blks r l name); try done; [lia|lia|unfold W32; lia].
  - done.
  - by intros _ s c ci blks name _ [].
  - apply loop_nil.
  - intros n h' es IH IHs. by apply loop_step.
Qed.
Lemma loop_spec_all es : loop_spec es.
Proof. induction es as [|[n h] es IH]; [apply loop_nil|]. apply loop_step; [apply node_spec_all|done]. Qed.
End Tree.
