(* ===== verification/MksfsImg.v ===== *)
(** * The image builder: the finished image

    What [close_sfs] writes, and the whole program. *)

From stdpp Require Import base gmap list.
From Stdlib Require Import ZArith Lia Bool.
From S2P Require Import Prelude.
From S2P Require Import Bitmap.
From S2P Require Import Sfs.
From S2P Require Import SfsInv.
From S2P Require Import SfsThm.
From S2P Require Import SfsTrunc.
From S2P Require Import SfsMount.
From S2P Require Import Mksfs.
From S2P Require Import MksfsInv.
From S2P Require Import MksfsOps.
From S2P Require Import MksfsThm.
From S2P Require Import MksfsTree.

#[local] Abbreviation length := Datatypes.length.
#[local] Arguments replicate : simpl never.

(** ** The freemap *)

Definition word_bit (ws : list Z) (i : Z) : bool := Z.testbit (ws !!! Z.to_nat (i / 32)) (i mod 32).
Definition words_ok (ws : list Z) : Prop := length ws = 1024%nat /\ Forall (fun w => 0 <= w < W32) ws.
Lemma zeros_ok : words_ok (replicate 1024 0).
Proof. split; [by rewrite length_replicate|]. apply Forall_replicate. unfold W32. lia. Qed.
Lemma zeros_bit i : 0 <= i < 32768 -> word_bit (replicate 1024 0) i = false.
Proof. intros Hi. unfold word_bit. rewrite lookup_total_replicate_2 by (apply Nat2Z.inj_lt; rewrite Z2Nat.id by (apply Z.div_pos; lia); apply Z.div_lt_upper_bound; lia). apply Z.testbit_0_l. Qed.

Lemma set_bits_spec k : forall j data, words_ok data -> 0 <= j -> j + Z.of_nat k <= 32768 ->
  words_ok (set_bits k j data) /\ forall i, 0 <= i < 32768 -> word_bit (set_bits k j data) i = word_bit data i || bool_decide (j <= i < j + Z.of_nat k).
Proof.
  induction k as [|k IH]; intros j data Hok Hj Hk; cbn [set_bits].
  - split; [done|]. intros i Hi. rewrite bool_decide_false by lia. by rewrite orb_false_r.
  - destruct Hok as [Hl Hw]. pose proof (Z.mod_pos_bound j 32 ltac:(lia)) as Hm. assert (Hjd : (Z.to_nat (j / 32) < 1024)%nat) by (apply Nat2Z.inj_lt; rewrite Z2Nat.id by (apply Z.div_pos; lia); apply Z.div_lt_upper_bound; lia).
    set (data' := alter _ _ data). assert (Hok' : words_ok data').
    { split; [by unfold data'; rewrite length_alter|]. apply Forall_alter; [done|]. intros w Hw0 Hww. cbn. assert (Hge : 0 <= Z.lor w (Z.shiftl 1 (j mod 32))) by (apply Z.lor_nonneg; split; [lia|by apply Z.shiftl_nonneg]). split; [done|].
      apply u32_bits; [done|]. intros b Hb. rewrite testbit_lor_shiftl by lia. rewrite (u32_high w b) by lia. cbn. apply Z.eqb_neq. lia. }
    destruct (IH (j + 1) data' Hok' ltac:(lia) ltac:(lia)) as [Hok2 Hbit]. split; [done|]. intros i Hi. rewrite (Hbit i Hi).
    assert (Hd : word_bit data' i = word_bit data i || (i =? j)).
    { unfold word_bit, data'. pose proof (Z.mod_pos_bound i 32 ltac:(lia)). destruct (decide (j / 32 = i / 32)) as [He|He].
      - rewrite <-He. rewrite list_lookup_total_alter, decide_True by (rewrite Hl; done). rewrite testbit_lor_shiftl by lia. f_equal. pose proof (Z.div_mod i 32 ltac:(lia)). pose proof (Z.div_mod j 32 ltac:(lia)). destruct (Z.eqb_spec (i mod 32) (j mod 32)); symmetry; [apply Z.eqb_eq; lia|apply Z.eqb_neq; congruence].
      - rewrite list_lookup_total_alter, decide_False by (intros [Hq _]; apply He; apply Z2Nat.inj in Hq; [done|apply Z.div_pos; lia|apply Z.div_pos; lia]). rewrite (proj2 (Z.eqb_neq i j)) by congruence. by rewrite orb_false_r. }
    rewrite Hd, <-orb_assoc. f_equal. destruct (Z.eqb_spec i j) as [->|Hne]; cbn; [rewrite bool_decide_true; [done|lia]|]. apply bool_decide_ext. lia.
Qed.

Lemma freemap_block_spec n next b : 0 <= b -> 32768 * b < n -> 0 <= next <= n -> n <= SFS_MAX_NBLKS ->
  words_ok (freemap_block n next (32768 * b)) /\ forall r, 0 <= r < 32768 -> word_bit (freemap_block n next (32768 * b)) r = bool_decide (next <= 32768 * b + r < n).
Proof.
  intros Hb Hbn Hnx Hn. unfold freemap_block. change SFS_BLKBITS with 32768. unfold SFS_MAX_NBLKS in Hn. rewrite u32_small by (unfold is_u32, W32; lia). destruct (Z.ltb_spec next (32768 * b + 32768)) as [H1|H1].
  - set (st := if 32768 * b <? next then next - 32768 * b else 0). set (en := if n <? 32768 * b + 32768 then n - 32768 * b else 32768).
    assert (Hst : 0 <= st /\ st = Z.max 0 (next - 32768 * b)) by (unfold st; destruct (Z.ltb_spec (32768 * b) next); lia). assert (Hen : st <= en <= 32768 /\ en = Z.min 32768 (n - 32768 * b)) by (unfold en; destruct (Z.ltb_spec n (32768 * b + 32768)); lia).
    destruct (set_bits_spec (Z.to_nat (en - st)) st (replicate 1024 0) zeros_ok) as [Hok Hbit]; [lia|lia|]. split; [done|]. intros r Hr. rewrite (Hbit r Hr), zeros_bit by done. cbn [orb]. apply bool_decide_ext. lia.
  - split; [apply zeros_ok|]. intros r Hr. rewrite zeros_bit by done. rewrite bool_decide_false; [done|lia].
Qed.

Lemma concat_lookup (f : Z -> list Z) (m : nat) (nb : Z) : 0 <= nb -> forall b0 b (r : nat), (forall x, b0 <= x < b0 + nb -> length (f x) = m) -> 0 <= b < nb -> (r < m)%nat ->
  concat (f <$> seqZ b0 nb) !!! (m * Z.to_nat b + r)%nat = f (b0 + b) !!! r.
Proof.
  revert nb. apply (natlike_ind (fun nb => forall b0 b (r : nat), (forall x, b0 <= x < b0 + nb -> length (f x) = m) -> 0 <= b < nb -> (r < m)%nat -> concat (f <$> seqZ b0 nb) !!! (m * Z.to_nat b + r)%nat = f (b0 + b) !!! r)); [lia|].
  intros nb Hnb IH b0 b r Hf Hb Hr. rewrite seqZ_cons, Z.pred_succ by lia. cbn [fmap list_fmap concat]. destruct (decide (b = 0)) as [->|Hne].
  - rewrite Z.add_0_r. change (Z.to_nat 0) with 0%nat. rewrite Nat.mul_0_r. apply lookup_total_app_l. by rewrite Hf by lia.
  - replace (Z.to_nat b) with (S (Z.to_nat (b - 1))) by lia. rewrite Nat.mul_succ_r. pose proof (Nat.le_0_l (m * Z.to_nat (b - 1))). rewrite lookup_total_app_r by (rewrite Hf by lia; lia). rewrite Hf by lia. replace (m * Z.to_nat (b - 1) + m + r - m)%nat with (m * Z.to_nat (b - 1) + r)%nat by lia.
    rewrite (IH (Z.succ b0) (b - 1) r); [f_equal; f_equal; lia|intros x Hx; apply Hf; lia|lia|done].
Qed.
Lemma freemap_blocks_eq n : 0 < n <= SFS_MAX_NBLKS -> sfs_freemap_blocks (mkSuper SFS_MAGIC n 0 []) = (n + 32767) / 32768.
Proof. intros Hn. apply freemap_size; unfold SFS_MAX_NBLKS, W32 in *; lia. Qed.
(** The freemap of an image whose blocks of the freemap are what [close_sfs] writes. *)
Lemma image_bitmap_bit v n next : 0 < n <= SFS_MAX_NBLKS -> 0 <= next <= n -> (forall b, 0 <= b -> 32768 * b < n -> v (2 + b) = pad (put_words (freemap_block n next (32768 * b)))) ->
  forall k, 0 <= k < nbits (disk_bitmap v n) -> bit (disk_bitmap v n) k = bool_decide (next <= k < n).
Proof.
  intros Hn Hnx Hv k Hk. unfold disk_bitmap in *. cbn [nbits] in Hk. set (nb := sfs_freemap_blocks _) in *. assert (Hnb : nb = (n + 32767) / 32768) by (apply freemap_blocks_eq; lia). unfold bit. cbn [words]. change WORD_BITS with 32. change SFS_BLKN_FREEMAP with 2.
  assert (Hw : forall b, 0 <= b < nb -> get_words 1024 (v (2 + b)) = freemap_block n next (32768 * b)).
  { intros b Hb. assert (Hbn : 32768 * b < n) by mlia. destruct (freemap_block_spec n next b ltac:(lia) Hbn Hnx ltac:(lia)) as [[Hl Hok] _]. rewrite Hv by lia. unfold pad. rewrite <-Hl. by apply get_put_words. }
  set (b := k / 32768). set (r := k mod 32768). assert (Hkb : k = 32768 * b + r /\ 0 <= r < 32768 /\ 0 <= b < nb) by (unfold b, r; mlia). destruct Hkb as (Hkb&Hr&Hb).
  assert (Hi : Z.to_nat (k / 32) = (1024 * Z.to_nat b + Z.to_nat (r / 32))%nat). { assert (k / 32 = 1024 * b + r / 32) as -> by mlia. rewrite Z2Nat.inj_add, Z2Nat.inj_mul by mlia. done. }
  assert (Hm : k mod 32 = r mod 32) by mlia. rewrite Hi, Hm.
  assert (Hlenx : forall x, 0 <= x < 0 + nb -> length (get_words 1024 (v (2 + x))) = 1024%nat) by (intros x Hx; rewrite Hw by lia; destruct (freemap_block_spec n next x) as [[Hl _] _]; [lia|mlia|lia|lia|done]).
  rewrite (concat_lookup (fun b => get_words 1024 (v (2 + b))) 1024 nb); [|lia|exact Hlenx|done|mlia]. rewrite Z.add_0_l, (Hw b Hb). destruct (freemap_block_spec n next b) as [_ Hbit]; [lia|mlia|lia|lia|]. specialize (Hbit r Hr). unfold word_bit in Hbit. rewrite Hbit. apply bool_decide_ext. lia.
Qed.
Lemma count_interval N a b : 0 <= a <= b -> b <= N -> length (filter (fun i => bool_decide (a <= i < b) = true) (seqZ 0 N)) = Z.to_nat (b - a).
Proof.
  intros Hab HN. replace N with (a + ((b - a) + (N - b))) by lia. rewrite !seqZ_app by lia. rewrite !filter_app, !length_app.
  assert (H0 : forall x y, (forall i, x <= i < x + y -> ~ (a <= i < b)) -> filter (fun i => bool_decide (a <= i < b) = true) (seqZ x y) = []).
  { intros x y Hxy. apply (filter_nil_iff_not_elem _ _) || idtac. destruct (filter _ _) as [|z l] eqn:He; [done|]. assert (Hz : z ∈ z :: l) by left. rewrite <-He in Hz. apply list_elem_of_filter in Hz as [Hz Hin]. apply bool_decide_eq_true in Hz. apply elem_of_seqZ in Hin. by destruct (Hxy z Hin). }
  rewrite (H0 0 a), (H0 (0 + a + (b - a)) (N - b)) by lia. cbn [length]. rewrite Nat.add_0_r, Nat.add_0_l.
  assert (Hall : forall m x, x + Z.of_nat m <= b -> a <= x -> length (filter (fun i => bool_decide (a <= i < b) = true) (seqZ x (Z.of_nat m))) = m).
  { induction m as [|m IH]; intros x Hx Hax; [by rewrite seqZ_nil by lia|]. rewrite seqZ_cons by lia. rewrite filter_cons_True by (apply bool_decide_eq_true; lia). cbn [length]. f_equal. replace (Z.pred (Z.of_nat (S m))) with (Z.of_nat m) by lia. apply IH; lia. }
  rewrite <-(Z2Nat.id (b - a)) at 1 by lia. apply Hall; lia.
Qed.
Lemma image_bitmap_free v n next : 0 < n <= SFS_MAX_NBLKS -> 0 <= next <= n -> (forall b, 0 <= b -> 32768 * b < n -> v (2 + b) = pad (put_words (freemap_block n next (32768 * b)))) -> nfree (disk_bitmap v n) = n - next.
Proof.
  intros Hn Hnx Hv. unfold nfree. rewrite (filter_ext_in _ (fun i => bool_decide (next <= i < n) = true)).
  - rewrite count_interval; [lia|lia|]. cbn. rewrite freemap_blocks_eq by lia. mlia.
  - intros k Hk%elem_of_seqZ. rewrite (image_bitmap_bit v n next) by (done || lia). done.
Qed.

(** ** Writing the image *)

Section Close.
Variable pwrite_ok : Z -> bool.
Hypothesis pwrite_all : forall k, pwrite_ok k = true.
Variable f0 : Z.
Abbreviation Inv := (Inv f0).
Implicit Types (s : msfs) (c k b : Z).

Lemma freemap_loop_runs fuel : forall s n next b, n <= SFS_MAX_NBLKS -> 0 <= next <= n -> 0 <= b -> 32768 * (b - 1) < n -> n - 32768 * b <= 32768 * Z.of_nat fuel -> 2 + (n + 32767) / 32768 <= ninos s ->
  runs (freemap_loop pwrite_ok fuel n next (32768 * b) (2 + b)) s (fun _ s' => exists m, s' = with_img m s /\
    (forall k, k < 2 + b \/ 2 + (n + 32767) / 32768 <= k -> m !! k = img s !! k) /\ forall x, b <= x -> 32768 * x < n -> m !! (2 + x) = Some (pad (put_words (freemap_block n next (32768 * x))))).
Proof.
  induction fuel as [|fuel IH]; intros s n next b Hn Hnx Hb Hbn Hf Hsp; cbn [freemap_loop]; (destruct (Z.ltb_spec (32768 * b) n) as [Hlt|Hge]; [|apply runs_ret; exists (img s); split; [by destruct s|split; [done|intros x Hx1 Hx2; lia]]]); [lia|].
  unfold SFS_MAX_NBLKS in Hn. assert (Hb2 : 2 + b < 2 + (n + 32767) / 32768) by mlia. destruct (freemap_block_spec n next b Hb Hlt Hnx ltac:(unfold SFS_MAX_NBLKS; lia)) as [[Hl _] _].
  apply runs_bind. apply (write_block_runs pwrite_ok pwrite_all); [rewrite put_words_length, Hl; lia|lia|]. set (s1 := with_img _ s). change SFS_BLKBITS with 32768. rewrite !u32_small by (unfold is_u32, W32; lia). replace (32768 * b + 32768) with (32768 * (b + 1)) by lia. replace (2 + b + 1) with (2 + (b + 1)) by lia.
  runs_by (IH s1 n next (b + 1)); [done|done|lia|lia|lia|done|]. intros _ s' (m&->&Hm1&Hm2). exists m. split; [done|]. split.
  - intros k Hk. rewrite Hm1 by lia. cbn. apply lookup_insert_ne. lia.
  - intros x Hx1 Hx2. destruct (decide (x = b)) as [->|]; [|apply Hm2; lia]. rewrite Hm1 by lia. cbn. apply lookup_insert_eq.
Qed.

(** [D]: what has been flushed from [s0] on. *)
Definition flushed s0 (D : Z -> Prop) s : Prop := exists m, s = with_img m s0 /\ (forall k, D k -> m !! k = Some (vimg s0 k)) /\ forall k, ~ D k -> m !! k = img s0 !! k.
Definition key s k : Prop := is_Some (cinodes s !! k) \/ is_Some (cblocks s !! k).
Lemma flushed_step s0 D s k : flushed s0 D s -> flushed s0 (fun j => D j \/ j = k) (with_img (<[k := vimg s0 k]> (img s)) s).
Proof.
  intros (m&->&H1&H2). exists (<[k := vimg s0 k]> m). split; [done|]. split.
  - intros j Hj. destruct (decide (j = k)) as [->|]; [apply lookup_insert_eq|]. rewrite lookup_insert_ne by done. apply H1. by destruct Hj.
  - intros j Hj. rewrite lookup_insert_ne by (intros ->; tauto). apply H2. tauto.
Qed.
Lemma flush_block_runs s0 D s b cb : Inv s0 -> flushed s0 D s -> cblocks s0 !! b = Some cb -> runs (flush_cache_block pwrite_ok b) s (fun _ s' => flushed s0 (fun j => D j \/ j = b) s').
Proof.
  intros HI HF Hb. destruct (iv_cb _ _ HI _ _ Hb) as (Hbi&Hr&Hl&_&Hn). pose proof (iv_next _ _ HI). pose proof HF as (m&->&_). unfold flush_cache_block. apply runs_bind. eapply rd_cb_runs; [exact Hb|].
  apply (write_block_runs pwrite_ok pwrite_all); [rewrite put_words_length, Hl; lia|cbn; lia|]. rewrite Hbi. pose proof (flushed_step s0 D _ b HF) as Hst. assert (Hv : vimg s0 b = pad (put_words (cache cb))) by (unfold vimg; by rewrite Hn, Hb). by rewrite Hv in Hst.
Qed.
Lemma flush_inode_runs s0 D s c ci : Inv s0 -> flushed s0 D s -> cinodes s0 !! c = Some ci -> runs (flush_cache_inode pwrite_ok c) s (fun _ s' => flushed s0 (fun j => D j \/ j = c) s').
Proof.
  intros HI HF Hc. destruct (iv_ci _ _ HI _ _ Hc) as (Hci&Hr&Hwf&_). pose proof (iv_next _ _ HI). pose proof HF as (m&->&_). unfold flush_cache_inode. apply runs_bind. eapply rd_ci_runs; [exact Hc|].
  apply (write_block_runs pwrite_ok pwrite_all); [unfold inode_bytes; rewrite length_app, din_bytes_length, put_le_length by done; lia|cbn; destruct Hr; lia|]. rewrite Hci. pose proof (flushed_step s0 D _ c HF) as Hst. assert (Hv : vimg s0 c = pad (inode_bytes ci)) by (unfold vimg; by rewrite Hc). by rewrite Hv in Hst.
Qed.
Lemma flushed_ext s0 D D' s : (forall k, D k <-> D' k) -> flushed s0 D s -> flushed s0 D' s.
Proof. intros H (m&->&H1&H2). exists m. split; [done|]. split; intros k Hk; [apply H1; by apply H|apply H2; by rewrite H]. Qed.
Lemma each_runs s0 f (P : Z -> Prop) (E : Z -> Z -> Prop) (l : list Z) : (forall x D s, P x -> flushed s0 D s -> runs (f x) s (fun _ s' => flushed s0 (fun j => D j \/ E x j) s')) ->
  forall D s, Forall P l -> flushed s0 D s -> runs (each f l) s (fun _ s' => flushed s0 (fun j => D j \/ exists x, x ∈ l /\ E x j) s').
Proof.
  intros Hf. induction l as [|x l IH]; intros D s HP HF; cbn [each].
  - apply runs_ret. eapply flushed_ext; [|exact HF]. cbn. intros k. split; [by left|]. intros [|(x&[]%elem_of_nil&_)]. done.
  - apply Forall_cons in HP as [Hx HP]. apply runs_bind. runs_by (Hf x D s Hx HF). intros _ s1 HF1. runs_by (IH _ s1 HP HF1). intros _ s2 HF2. eapply flushed_ext; [|exact HF2]. cbn. intros k. split.
    + intros [[|H]|(y&Hy&H)]; [by left|right; exists x; split; [left|done]|right; exists y; split; [by right|done]].
    + intros [|(y&[->|Hy]%elem_of_cons&H)]; [tauto|tauto|right; eauto].
Qed.
Lemma flush_bucket_runs s0 D s i : Inv s0 -> flushed s0 D s -> runs (flush_bucket pwrite_ok i) s (fun _ s' => flushed s0 (fun j => D j \/ j ∈ default [] (hblocks s0 !! i) \/ j ∈ default [] (hinodes s0 !! i)) s').
Proof.
  intros HI HF. unfold flush_bucket. apply runs_bind, runs_get, runs_bind. pose proof HF as (m&->&_). cbn [hblocks hinodes with_img].
  runs_by (each_runs s0 (flush_cache_block pwrite_ok) (fun b => is_Some (cblocks s0 !! b)) (fun x j => j = x) (default [] (hblocks s0 !! i))); [intros x D' s [cb Hcb] HF'; by eapply flush_block_runs|apply Forall_forall; intros x Hx; by apply (proj2 (iv_hb _ _ HI) i)|exact HF|].
  intros _ s1 HF1. runs_by (each_runs s0 (flush_cache_inode pwrite_ok) (fun b => is_Some (cinodes s0 !! b)) (fun x j => j = x) (default [] (hinodes s0 !! i))); [intros x D' s [ci Hci] HF'; by eapply flush_inode_runs|apply Forall_forall; intros x Hx; by apply (proj2 (iv_hi _ _ HI) i)|exact HF1|].
  intros _ s2 HF2. eapply flushed_ext; [|exact HF2]. cbn. intros k. split; [intros [[|(x&Hx&->)]|(x&Hx&->)]; auto|intros [|[|]]; eauto].
Qed.

Lemma hash_bucket_range v : 0 <= hash_bucket v < HASH_LIST_SIZE.
Proof. unfold hash_bucket, hash32, HASH_LIST_SIZE. pose proof (u32_range (u32 v * GOLDEN_RATIO_PRIME_32)) as Hu. unfold is_u32, W32 in Hu. rewrite Z.shiftr_div_pow2 by lia. change (2 ^ (32 - 10)) with 4194304. mlia. Qed.

Definition image_of s : image := fun k => default [] (img s !! k).
(** The image at the end: what was built, the super block and the freemap. *)
Record closed s s' : Prop := {
  cl_blocks : forall k, k = 1 \/ f0 <= k -> image_of s' k = vimg s k;
  cl_super : image_of s' 0 = pad (super_bytes (msuper s));
  cl_freemap : forall b, 0 <= b -> 32768 * b < ninos s -> image_of s' (2 + b) = pad (put_words (freemap_block (ninos s) (next_ino s) (32768 * b)))
}.
Lemma close_sfs_runs s : Inv s -> f0 = 2 + (ninos s + 32767) / 32768 -> is_Some (cinodes s !! 1) -> runs (close_sfs pwrite_ok) s (fun _ s' => closed s s').
Proof.
  intros HI Hf0 H1. pose proof (iv_next _ _ HI) as Hnx. destruct (iv_super _ _ HI) as (inf&Hsup&Hinf). unfold close_sfs. apply runs_bind, runs_get, runs_bind.
  pose proof (freemap_loop_runs 32 s (ninos s) (next_ino s) 0 ltac:(lia) ltac:(lia) ltac:(lia) ltac:(lia) ltac:(unfold SFS_MAX_NBLKS in *; lia) ltac:(lia)) as Hfr. change (32768 * 0) with 0 in Hfr. change (2 + 0) with SFS_BLKN_FREEMAP in Hfr. runs_by Hfr.
  intros _ s1 (m&->&Hm1&Hm2). apply runs_bind, runs_get, runs_bind. cbn [msuper with_img]. apply (write_block_runs pwrite_ok pwrite_all).
  { rewrite Hsup. unfold super_bytes. rewrite !length_app, !put_le_length. cbn [info]. rewrite Hinf. lia. } { cbn. unfold SFS_BLKN_SUPER. lia. }
  set (s0 := with_img _ _). assert (HI0 : Inv s0) by (by destruct HI).
  assert (Hflush : flushed s0 (fun _ => False) s0) by (exists (img s0); split; [done|split; [done|done]]).
  runs_by (each_runs s0 (flush_bucket pwrite_ok) (fun _ => True) (fun i j => j ∈ default [] (hblocks s0 !! i) \/ j ∈ default [] (hinodes s0 !! i)) (seqZ 0 HASH_LIST_SIZE)); [intros x D' s' _ HF'; by apply flush_bucket_runs|by apply Forall_forall|exact Hflush|].
  intros _ s' (m'&->&Hd&Hnd). assert (Hkey : forall k, key s k -> m' !! k = Some (vimg s0 k)).
  { intros k [[ci Hci]|[cb Hcb]]; apply Hd; right.
    - exists (hash_bucket (real ci)). split; [apply elem_of_seqZ; pose proof (hash_bucket_range (real ci)); lia|right]. by apply (proj1 (iv_hi _ _ HI)).
    - exists (hash_bucket 0). split; [apply elem_of_seqZ; pose proof (hash_bucket_range 0); lia|left]. apply (proj1 (iv_hb _ _ HI)). by eexists. }
  assert (Hother : forall k, ~ key s k -> m' !! k = img s0 !! k).
  { intros k Hk. apply Hnd. intros [|(i&_&[Hin|Hin])]; [done| |]; apply Hk; [right; by apply (proj2 (iv_hb _ _ HI) i)|left; by apply (proj2 (iv_hi _ _ HI) i)]. }
  assert (Hlow : forall k, k <> 1 -> k < f0 -> ~ key s k). { intros k Hk1 Hkf [[ci Hci]|[cb Hcb]]; [destruct (iv_ci _ _ HI _ _ Hci) as (_&?&_)|destruct (iv_cb _ _ HI _ _ Hcb) as (_&?&_)]; lia. }
  assert (Hv0 : forall k, k <> 0 -> (k < 2 \/ f0 <= k) -> vimg s0 k = vimg s k). { intros k Hk0 Hk. unfold vimg. cbn [cinodes cblocks img with_img s0]. rewrite lookup_insert_ne by (unfold SFS_BLKN_SUPER; done). by rewrite Hm1 by (unfold SFS_BLKN_FREEMAP; lia). }
  split; unfold image_of; cbn [img with_img].
  - intros k Hk. rewrite <-Hv0 by lia. destruct (decide (is_Some (cinodes s !! k))) as [Hs|Hs]; [rewrite Hkey by (by left); done|]. destruct (decide (is_Some (cblocks s !! k))) as [Hs2|Hs2]; [rewrite Hkey by (by right); done|].
    rewrite Hother by (intros [|]; done). unfold vimg. cbn [cinodes cblocks img with_img s0]. destruct (cinodes s !! k); [by destruct Hs|]. by destruct (cblocks s !! k); [destruct Hs2|].
  - rewrite Hother by (apply Hlow; lia). cbn [img with_img s0]. by rewrite lookup_insert_eq.
  - intros b Hb Hbn. assert (Hbf : 2 + b < f0) by mlia. rewrite Hother by (apply Hlow; lia). cbn [img with_img s0]. rewrite lookup_insert_ne by (unfold SFS_BLKN_SUPER; lia). rewrite Hm2 by lia. done.
Qed.
End Close.


(** ** The program *)

(** The number of blocks of an image, and the first one behind its freemap. *)
Definition image_blocks (st_size : Z) : Z := Z.min (st_size / SFS_BLKSIZE) SFS_MAX_NBLKS.
Definition first_free (st_size : Z) : Z := 2 + (image_blocks st_size + 32767) / 32768.
(** The blocks a tree takes behind the freemap. *)
Definition tree_blocks (es : list (list Z * hnode)) : Z := 2 + needs es + xblk 0 (2 + length (shown es)).
Lemma own_length R v d blks : maps R v d blks -> Z.of_nat (length (own d blks)) = Z.of_nat (length blks) + xblk 0 (length blks).
Proof.
  intros Hm. unfold own, xblk. rewrite length_app. destruct (decide (length blks <= 12)%nat) as [Hl|Hl].
  - rewrite (mp_small _ _ _ _ Hm Hl), decide_True, decide_False by (done || lia). cbn. lia.
  - destruct (mp_big _ _ _ _ Hm ltac:(lia)) as [Hi _]. rewrite decide_False, decide_True by (done || lia). cbn. lia.
Qed.
(** A tree occupies as many blocks as it needs. *)
Lemma holds_length R v i type data : holds R v i type data -> (length data <= 1036)%nat -> Z.of_nat (length (own_of v i)) = Z.of_nat (length data) + xblk 0 (length data).
Proof.
  intros (_&blks&Hm&_&_&_&Hd) Hl. rewrite (own_of_maps _ _ _ _ Hm). assert (He : length blks = length data) by (rewrite <-(length_fmap v blks), Hd; by rewrite length_fmap).
  rewrite (own_length _ _ _ _ Hm), He. done.
Qed.
Lemma occupies_length v R h : forall par i, okh h -> rep v R par i h -> Z.of_nat (length (occupies v i h)) = need h.
Proof.
  apply (hnode_ind2 (fun h => forall par i, okh h -> rep v R par i h -> Z.of_nat (length (occupies v i h)) = need h)
    (fun es => forall i rest, oks es -> reps v R i es rest -> Z.of_nat (length (kids v es rest)) + Z.of_nat (length (shown es)) = needs es /\ length rest = length (shown es))).
  - intros r reads eof par i (_&_&Hl) Hr. cbn [occupies need]. cbn [length]. pose proof (holds_length _ _ _ _ _ Hr Hl). lia.
  - intros r es IH par i [Hl Ho]. rewrite rep_dir, occupies_dir, need_dir. intros (Hi&blks&rest&Hm&_&_&_&He&Hr). rewrite (own_of_maps _ _ _ _ Hm), (entries_of_maps _ _ _ _ _ _ _ Hm He). destruct (IH _ _ Ho Hr) as [IH1 IH2].
    assert (Hb : length blks = (2 + length (shown es))%nat) by (rewrite <-(length_fmap (ventry v) blks), He, <-IH2; done). cbn [length]. rewrite length_app. pose proof (own_length _ _ _ _ Hm) as Ho2. rewrite Hb in Ho2. lia.
  - intros r [t|] par i _ Hr; [|done]. cbn [occupies need]. cbn [length]. pose proof (holds_length _ _ _ _ _ Hr ltac:(cbn; lia)) as Hl. cbn [length] in Hl. unfold xblk in Hl. rewrite decide_False in Hl by lia. lia.
  - done.
  - done.
  - by intros i rest _ ->.
  - intros n h' es IH IHs i rest. rewrite oks_cons, reps_cons, kids_cons, shown_cons, needs_cons. intros [Hn Ho]. destruct (hidden n h') eqn:Hh; [intros Hr; destruct (IHs _ _ Ho Hr); lia|].
    intros (j&rest'&->&Hj&Hr). destruct (IHs _ _ Ho Hr) as [? ?]. unfold hidden in Hh. destruct (skipped n); [done|]. destruct (Hn eq_refl) as (_&_&Hk). pose proof (IH _ _ Hk Hj). rewrite length_app. cbn [length]. lia.
Qed.

(** What the program is given: a file of an acceptable size, a readable tree that fits, in which no two names
    lead to the same file ([ft_reals]: there are no hard links). *)
Record fits (st_size : Z) (junk : list Z) (es : list (list Z * hnode)) (s : msfs) : Prop := {
  ft_size : 0 <= st_size < W32 * SFS_BLKSIZE;
  ft_min : first_free st_size < image_blocks st_size;
  ft_bytes : length junk = 13%nat /\ length (entry_name s) = 256%nat;
  ft_tree : oks es /\ (2 + length (shown es) <= 1036)%nat;
  ft_reals : NoDup (0 :: all_reals es);
  ft_room : first_free st_size + tree_blocks es <= image_blocks st_size
}.

Lemma super_roundtrip u n inf l : 0 <= n < W32 -> 0 <= u < W32 -> length inf = 32%nat -> super_of_bytes (super_bytes (mkSuper SFS_MAGIC n u inf) ++ l) = mkSuper SFS_MAGIC n u inf.
Proof.
  intros Hn Hu Hl. unfold super_of_bytes, super_bytes. cbn [magic sup_blocks unused_blocks info]. rewrite <-!app_assoc. unfold W32 in *.
  match goal with |- context [get_le 4 ?x] => set (L := x) end.
  assert (E4 : drop 4 L = put_le 4 n ++ put_le 4 u ++ inf ++ l) by apply (drop_put 4 0).
  assert (E8 : drop 8 L = drop 4 (drop 4 L)) by (by rewrite drop_drop). rewrite E4 in E8. rewrite (drop_put 4 0) in E8. rewrite drop_0 in E8.
  assert (E12 : drop 12 L = drop 4 (drop 8 L)) by (by rewrite drop_drop). rewrite E8 in E12. rewrite (drop_put 4 0) in E12. rewrite drop_0 in E12.
  rewrite E4, E8, E12. unfold L. rewrite !get_put_le by (unfold SFS_MAGIC; lia). by rewrite take_app_length' by done.
Qed.

Section Program.
Variable pwrite_ok : Z -> bool.
Hypothesis pwrite_all : forall k, pwrite_ok k = true.
Variables (st_size : Z) (junk : list Z) (es : list (list Z * hnode)) (s : msfs).
Hypothesis Hfit : fits st_size junk es s.
#[local] Abbreviation n := (image_blocks st_size).
#[local] Abbreviation f0 := (first_free st_size).

Lemma first_free_pos : 3 <= f0 /\ n <= SFS_MAX_NBLKS.
Proof. destruct Hfit as [Hs Hm _ _ _ _]. unfold first_free in *. unfold image_blocks, SFS_MAX_NBLKS in *. split; [mlia|lia]. Qed.

Definition made_sfs : msfs :=
  mkMsfs (mkSuper SFS_MAGIC n (n - f0) (info_text ++ 0 :: junk)) n f0 {[1 := mkCi (zero_din SFS_TYPE_DIR) 0 0 1 0 None None]} ∅ {[hash_bucket 0 := [1]]} ∅ [] (entry_name s) (img s).
Lemma create_sfs_runs : runs (create_sfs st_size junk) s (fun r s' => r = 1 /\ s' = made_sfs).
Proof.
  destruct Hfit as [Hs Hm _ _ _ _]. unfold create_sfs. change SFS_BLKSIZE with 4096 in *. rewrite u32_small by (unfold is_u32, W32 in *; mlia).
  replace (if SFS_MAX_NBLKS <? st_size / 4096 then SFS_MAX_NBLKS else st_size / 4096) with n by (unfold image_blocks; change SFS_BLKSIZE with 4096; destruct (Z.ltb_spec SFS_MAX_NBLKS (st_size / 4096)); lia).
  replace (SFS_BLKN_FREEMAP + (n + SFS_BLKBITS - 1) / SFS_BLKBITS) with f0 by (unfold first_free, SFS_BLKN_FREEMAP, SFS_BLKBITS; f_equal; f_equal; lia).
  rewrite (proj2 (Z.leb_gt _ _)) by done. runs_steps. unfold alloc_cache_inode. cbn [negb Z.eqb SFS_BLKN_ROOT]. runs_steps. done.
Qed.
Lemma made_sfs_inv : Inv f0 made_sfs.
Proof.
  pose proof first_free_pos as [Hf Hn]. destruct Hfit as [_ Hm [Hj He] _ _ _]. split; cbn; try done; [lia| | | |split; [by intros b [cb [=]]|by intros i b Hb%elem_of_nil]].
  - eexists. split; [done|]. cbn. rewrite Hj. done.
  - intros c ci. intros [<- <-]%lookup_singleton_Some. cbn. split; [done|]. split; [by left|]. split; [|done]. split; cbn; unfold W32, SFS_TYPE_DIR; try lia. split; [done|]. repeat constructor; lia.
  - split.
    + intros c ci [<- <-]%lookup_singleton_Some. cbn. rewrite lookup_singleton_eq. left.
    + intros i c. destruct (decide (i = hash_bucket 0)) as [->|]; [rewrite lookup_singleton_eq|rewrite lookup_singleton_ne by done; by intros []%elem_of_nil]. intros ->%list_elem_of_singleton. rewrite lookup_singleton_eq. by eexists.
Qed.
Lemma made_sfs_unknown : all_unknown made_sfs (all_reals es).
Proof.
  destruct (proj1 (NoDup_cons _ _) (ft_reals _ _ _ _ Hfit)) as [H0 Hnd]. split; [done|]. intros r Hr c ci. cbn. intros [<- <-]%lookup_singleton_Some. cbn. intros <-. done.
Qed.

(** The state [s'] at the end: nothing is lost between the tree and the image. *)
Record built s' : Prop := {
  bl_tree : rep (image_of s') (fun k => k = 1 \/ f0 <= k < f0 + tree_blocks es) 1 1 (HDir 0 es);
  bl_once : occupies (image_of s') 1 (HDir 0 es) ≡ₚ 1 :: seqZ f0 (tree_blocks es);
  bl_super : super_of_bytes (image_of s' 0) = mkSuper SFS_MAGIC n (n - (f0 + tree_blocks es)) (info_text ++ 0 :: junk);
  bl_freemap : forall b, 0 <= b -> 32768 * b < n -> image_of s' (2 + b) = pad (put_words (freemap_block n (f0 + tree_blocks es) (32768 * b)))
}.
Lemma mksfs_runs : runs (mksfs pwrite_ok st_size junk es) s (fun _ s' => built s').
Proof.
  pose proof first_free_pos as [Hf Hn]. pose proof made_sfs_inv as HI. pose proof made_sfs_unknown as Hu. destruct Hfit as [_ Hm _ [Hok Hlen] _ Hroom]. unfold mksfs. apply runs_bind. runs_by create_sfs_runs. intros r s0 [-> ->]. unfold create_img. apply runs_bind.
  assert (H1 : cinodes made_sfs !! 1 = Some (mkCi (zero_din SFS_TYPE_DIR) 0 0 1 0 None None)) by apply lookup_singleton_eq.
  runs_by (open_dir_runs pwrite_ok pwrite_all f0 es made_sfs 1 1 0 _ (loop_spec_all pwrite_ok pwrite_all f0 es) HI H1 H1); [cbn; lia|done|done|done|unfold tree_blocks in Hroom; cbn [made_sfs next_ino ninos]; lia|].
  intros [] s1 (cj&blks&rest&[O1 O2 O3 O4 O5 On O6 O7 O8 O9 O10 O11]). cbn [made_sfs next_ino] in O9, O11, O5. assert (Hni : ninos s1 = n) by (by rewrite (pg_ninos _ _ _ _ O3)). pose proof (iv_next _ _ O1) as Hnx.
  assert (Hnext : next_ino s1 = f0 + tree_blocks es) by (rewrite O9; unfold tree_blocks; lia). pose proof (fo_ci _ _ _ _ _ O2) as Hcj.
  runs_by (close_sfs_runs pwrite_ok pwrite_all f0 s1 O1); [by rewrite Hni|by eexists|]. intros _ s2 [C1 C2 C3]. rewrite Hni, Hnext in C3. set (R := fun k => k = 1 \/ f0 <= k < f0 + tree_blocks es).
  assert (Hv : forall k, R k -> image_of s2 k = vimg s1 k) by (intros k Hk; apply C1; unfold R in Hk; lia). assert (Hd : vdin (vimg s1) 1 = inode cj) by exact (vdin_of f0 s1 1 cj O1 Hcj).
  assert (Hown : forall k, k ∈ own (inode cj) blks -> f0 <= k < f0 + tree_blocks es) by (intros k Hk; destruct (fo_own _ _ _ _ _ O2 k Hk); lia).
  assert (Hmap : maps R (vimg s1) (vdin (vimg s1) 1) blks) by (rewrite Hd; apply (fileof_maps f0 s1 1 cj); [done|done|]; intros k Hk; right; by apply Hown).
  assert (Hrep : rep (vimg s1) R 1 1 (HDir 0 es)).
  { rewrite rep_dir. split; [by left|]. exists blks, rest. split; [exact Hmap|]. rewrite Hd. split; [done|]. split; [rewrite O8, decide_True by done; lia|]. split; [done|]. split; [done|].
    eapply reps_mono; [| |exact O5]; [intros k [Hk _]; right; lia|done]. }
  split; [exact (rep_mono (vimg s1) _ R R ltac:(done) Hv _ _ _ Hrep)| | |exact C3].
  - rewrite (occupies_frame _ _ R Hv _ _ _ Hrep). apply submseteq_length_Permutation.
    + apply NoDup_submseteq; [|intros k Hk; pose proof (proj1 (Forall_forall _ _) (occupies_in _ _ _ _ _ Hrep) k Hk) as [->|Hr]; [left|right; by apply elem_of_seqZ]].
      rewrite occupies_dir, (own_of_maps _ _ _ _ Hmap), (entries_of_maps _ _ _ _ _ _ _ Hmap O4), Hd.
      assert (Hk : forall k, k ∈ kids (vimg s1) es rest -> f0 <= k /\ k ∉ own (inode cj) blks) by (intros k Hk; destruct (proj1 (Forall_forall _ _) (kids_in _ _ _ _ _ O5) k Hk) as [? ?]; split; [lia|done]).
      constructor; [intros [Hin|Hin]%elem_of_app; [specialize (Hown _ Hin); lia|destruct (Hk _ Hin); lia]|]. apply NoDup_app. split; [apply (fo_nodup _ _ _ _ _ O2)|]. split; [|done]. intros k Hk1 Hk2. by destruct (Hk k Hk2).
    + pose proof (occupies_length _ _ (HDir 0 es) 1 1 (conj Hlen Hok) Hrep) as Hl. rewrite need_dir in Hl. fold (tree_blocks es) in Hl. cbn [length]. rewrite length_seqZ. lia.
  - rewrite C2. destruct (iv_super _ _ O1) as (inf&Hsup&Hinf). pose proof (pg_info _ _ _ _ O3) as Hin. rewrite Hsup in Hin. cbn in Hin. rewrite Hsup, Hni, Hnext. unfold pad, SFS_MAX_NBLKS in *. rewrite super_roundtrip by (unfold W32; (done || lia)). by rewrite Hin.
Qed.
End Program.

(** C13: [mksfs] of a readable host tree without hard links (no two names lead to the same file) that fits into the
    image ends, and the image it leaves holds the tree: decoded the way the kernel decodes inodes, indirect blocks and
    directory entries, inode 1 is a directory with the entries of the host's root that are not hidden, in their order,
    and so on for every directory under it; every file and link has the host's bytes block by block and the right size,
    block count and link count.  No block is used twice in the whole tree: the list of all inodes, data blocks, entry
    blocks and indirect blocks of the tree has inode 1 and each of the blocks behind the freemap, up to the number
    that [mksfs] counts as used, exactly once.  Names longer than 252 bytes are cut. *)
Theorem mksfs_correct pwrite_ok st_size junk es s : (forall k, pwrite_ok k = true) -> fits st_size junk es s ->
  runs (mksfs pwrite_ok st_size junk es) s (fun _ s' => rep (image_of s') (fun k => k = 1 \/ first_free st_size <= k < first_free st_size + tree_blocks es) 1 1 (HDir 0 es) /\
    occupies (image_of s') 1 (HDir 0 es) ≡ₚ 1 :: seqZ (first_free st_size) (tree_blocks es)).
Proof. intros Hp Hf. runs_by (mksfs_runs pwrite_ok Hp st_size junk es s Hf). intros _ s' [H Ho _ _]. by split. Qed.

(** The super block and the freemap agree: the image can be mounted on a disk of [N] blocks that shows the blocks
    written. *)
Lemma built_mountable st_size junk es s s' N v : fits st_size junk es s -> built st_size junk es s' -> image_blocks st_size <= N ->
  (forall k, 0 <= k < first_free st_size + tree_blocks es -> v k = image_of s' k) ->
  mountable N v (mkSuper SFS_MAGIC (image_blocks st_size) (image_blocks st_size - (first_free st_size + tree_blocks es)) (info_text ++ 0 :: junk)) /\
  forall k, 0 <= k < nbits (disk_bitmap v (image_blocks st_size)) -> bit (disk_bitmap v (image_blocks st_size)) k = bool_decide (first_free st_size + tree_blocks es <= k < image_blocks st_size).
Proof.
  intros Hf [_ _ Hs Hfm] HN Hv. pose proof (first_free_pos st_size junk es s Hf) as [H3 Hn]. destruct Hf as [_ Hm _ _ _ Hroom].
  assert (Htb : 0 <= tree_blocks es) by (unfold tree_blocks; pose proof (needs_pos es); pose proof (xblk_pos 0 (2 + length (shown es))); lia). unfold first_free in *. set (n := image_blocks st_size) in *. set (used := 2 + (n + 32767) / 32768 + tree_blocks es) in *.
  assert (Hn0 : 0 < n <= SFS_MAX_NBLKS) by mlia. assert (Hfv : forall b, 0 <= b -> 32768 * b < n -> v (2 + b) = pad (put_words (freemap_block n used (32768 * b)))) by (intros b Hb Hbn; rewrite Hv by (unfold used; mlia); by apply Hfm).
  assert (Hu : 0 <= used <= n) by (unfold used; mlia). pose proof (image_bitmap_bit v n used Hn0 Hu Hfv) as Hbit. pose proof (image_bitmap_free v n used Hn0 Hu Hfv) as Hfree. pose proof (freemap_blocks_eq n Hn0) as Hnb.
  split; [|exact Hbit]. split; cbn [sup_blocks magic unused_blocks].
  - split; [|done]. change SFS_BLKN_SUPER with 0. rewrite Hv by (unfold used; mlia). exact Hs.
  - change (sfs_freemap_blocks _) with (sfs_freemap_blocks (mkSuper SFS_MAGIC n 0 [])). rewrite Hnb. unfold used in *. mlia.
  - unfold disk_bitmap. rewrite Hnb. cbn [words]. apply Forall_concat, Forall_fmap, Forall_forall. intros b Hb%elem_of_seqZ. change SFS_BLKN_FREEMAP with 2. cbn [compose]. rewrite Hfv by mlia.
    destruct (freemap_block_spec n used b) as [[Hl Hok] _]; [lia|mlia|lia|lia|]. unfold pad. rewrite <-Hl. by rewrite get_put_words.
  - intros k Hk Hb. rewrite Hbit in Hb by done. apply bool_decide_eq_true in Hb. unfold used in *. mlia.
  - by rewrite Hfree.
Qed.
