(* ===== verification/MksfsMount.v ===== *)
(** * From the host to the kernel

    The kernel mounts an image made by [mksfs], and finds in it what the host had: the
    directories, searched with the kernel's routines, lead to the same names, and a
    file that is loaded has the content that was read from the host's file. *)

From stdpp Require Import base gmap list.
From Stdlib Require Import ZArith Lia Bool.
From S2P Require Import Prelude.
From S2P Require Import Vmm.
From S2P Require Import Vfs.
From S2P Require Import Bitmap.
From S2P Require Import Sfs.
From S2P Require Import SfsInv.
From S2P Require Import SfsThm.
From S2P Require Import SfsIo.
From S2P Require Import SfsTrunc.
From S2P Require Import SfsMount.
From S2P Require Import Mksfs.
From S2P Require Import MksfsInv.
From S2P Require Import MksfsThm.
From S2P Require Import MksfsTree.
From S2P Require Import MksfsImg.

#[local] Abbreviation length := Datatypes.length.
#[local] Arguments replicate : simpl never.

(** The entry of a directory that a name leads to. *)
Fixpoint child (name : list Z) (es : list (list Z * hnode)) : option hnode :=
  match es with
  | [] => None
  | (n, h) :: es => if hidden n h then child name es else if decide (take 252 n = name) then Some h else child name es
  end.

Lemma bytes_of (l : list Z) : l = (fun i => l !!! Z.to_nat i) <$> seqZ 0 (Z.of_nat (length l)).
Proof.
  induction l as [|b l IH]; [done|]. cbn [length]. rewrite seqZ_cons by lia. cbn [fmap list_fmap]. f_equal. rewrite IH at 1. replace (Z.pred (Z.of_nat (S (length l)))) with (Z.of_nat (length l)) by lia.
  change (Z.succ 0) with 1. apply fmap_seqZ_ext. intros i Hi. rewrite Z.add_0_l, Z.add_1_l, Z2Nat.inj_succ by lia. done.
Qed.

#[local] Existing Instance names_dec.

Section Kernel.
Context {D : Type} (dop_io : iobuf -> bool -> M (fst_ (sfsx D)) (Z * iobuf)) (d0 : D) `{!BlockDev dop_io d0}.
Abbreviation st := (fst_ (sfsx D)).
Abbreviation sfs s := (xsfs (priv s)).
Abbreviation GInv := (GInv dop_io d0).
Abbreviation dsk := (dsk dop_io d0).
Abbreviation disk := (disk dop_io d0).
Abbreviation frep := (frep dop_io d0).
Abbreviation FileAt := (FileAt dop_io d0).
Abbreviation DirAt := (DirAt dop_io d0).
Abbreviation dent := (dent dop_io d0).
Abbreviation dents := (dents dop_io d0).
Abbreviation content := (content dop_io d0).
Abbreviation loaded := (loaded dop_io d0).
Implicit Types (s : st).

Lemma disk_lookup s k o : 0 <= o < SFS_BLKSIZE -> disk s k !!! Z.to_nat o = dsk s k o.
Proof. intros Ho. unfold disk. by rewrite peek_total. Qed.
Lemma disk_word s k (j : nat) : (j < 1024)%nat -> get_words 1024 (disk s k) !!! j = word_at (dsk s k) (4 * Z.of_nat j).
Proof.
  intros Hj. rewrite get_words_lookup by done. pose proof (le_take (drop (4 * j) (disk s k)) 4 0 4 ltac:(lia)) as Hle. rewrite !drop_0 in Hle. rewrite <-Hle. unfold word_at. f_equal.
  unfold disk, peek. rewrite <-(Nat2Z.id (4 * j)), drop_seqZ by (unfold SFS_BLKSIZE; lia). change 4%nat with (Z.to_nat 4) at 1. rewrite take_seqZ by (unfold SFS_BLKSIZE; lia). apply fmap_seqZ_ext. intros i Hi. f_equal. lia.
Qed.
Lemma maps_frep s d blks : maps (used s) (disk s) d blks -> frep s d blks.
Proof.
  intros [[Hl1 Hl2] Hdir Hs Hb Hnd Ho]. split; try done.
  - rewrite Hdir, length_take, length_app, length_replicate. lia.
  - intros i Hi. rewrite Hdir, lookup_take_lt by done. destruct (decide (i < length blks)%nat).
    + rewrite lookup_app_l by done. destruct (lookup_lt_is_Some_2 blks i) as [x Hx]; [done|]. by rewrite Hx.
    + rewrite lookup_app_r by lia. rewrite (lookup_ge_None_2 blks) by lia. cbn. apply lookup_replicate_2. lia.
  - intros Hl. by apply Hb.
  - intros Hi j Hj. destruct (decide (12 < length blks)%nat) as [Hl|Hl]; [|by rewrite Hs in Hi by lia]. destruct (Hb Hl) as [_ Hw]. rewrite <-disk_word by done. rewrite Hw. destruct (decide (12 + j < length blks)%nat).
    + destruct (lookup_lt_is_Some_2 blks (12 + j)) as [x Hx]; [done|]. rewrite Hx. apply list_lookup_total_correct. rewrite lookup_take_lt by done. rewrite lookup_app_l by (rewrite length_drop; lia). by rewrite lookup_drop.
    + rewrite (lookup_ge_None_2 blks) by lia. apply list_lookup_total_correct. rewrite lookup_take_lt by done. rewrite lookup_app_r by (rewrite length_drop; lia). apply lookup_replicate_2. rewrite length_drop. lia.
  - by apply Forall_forall.
Qed.
(** ** Files *)

Lemma pad_lookup l o : 0 <= o < Z.of_nat (length l) -> pad l !!! Z.to_nat o = l !!! Z.to_nat o.
Proof. intros Ho. unfold pad. apply lookup_total_app_l. lia. Qed.
Lemma content_data s data : forall blks last, full last data -> disk s <$> blks = pad <$> data ->
  fbyte dop_io d0 s blks <$> seqZ 0 (Z.of_nat (length (concat data))) = concat data.
Proof.
  induction data as [|b data IH]; intros blks last Hf Hd; [done|]. destruct blks as [|k blks]; [done|]. cbn [fmap list_fmap] in Hd. injection Hd as Hk Hd. cbn [full] in Hf. destruct Hf as (_&Hb&Hf). cbn [concat]. rewrite length_app.
  rewrite (seqZ_split _ 0 _ (Z.of_nat (length b))) by lia. f_equal.
  - rewrite (bytes_of b) at 2. apply fmap_seqZ_ext. intros i Hi. rewrite !Z.add_0_l. unfold fbyte, SFS_BLKSIZE. rewrite Z.div_small, Z.mod_small by lia. change (Z.to_nat 0) with 0%nat. change ((k :: blks) !! 0%nat) with (Some k). cbv beta iota. rewrite <-disk_lookup by (unfold SFS_BLKSIZE; lia). rewrite Hk. by apply pad_lookup.
  - replace (Z.of_nat (length b + length (concat data)) - Z.of_nat (length b)) with (Z.of_nat (length (concat data))) by lia. rewrite <-(IH blks _ Hf Hd) at 2. apply fmap_seqZ_ext. intros i Hi. destruct data as [|b' data]; [cbn in Hi; lia|]. destruct Hf as (Hlb&_). unfold fbyte. unfold SFS_BLKSIZE in *. rewrite Hlb, !Z.add_0_l.
    replace (4096 + i) with (i + 1 * 4096) by lia. rewrite Z.div_add, Z.mod_add by lia. rewrite Z.add_1_r, Z2Nat.inj_succ by mlia. done.
Qed.
Lemma full_size data : forall last, full last data -> SFS_BLKSIZE * (Z.of_nat (length data) - 1) < Z.of_nat (length (concat data)).
Proof.
  unfold SFS_BLKSIZE. induction data as [|b data IH]; intros last Hf; [cbn; lia|]. destruct Hf as (_&Hb&Hf). cbn [concat length]. rewrite length_app. specialize (IH _ Hf). destruct data as [|b' data]; [cbn; lia|]. destruct Hf as (Hlb&_). unfold SFS_BLKSIZE in Hlb. cbn [length] in *. lia.
Qed.

(** A file of the image that was loaded. *)
Lemma loaded_file s s' fs_at i n rest type data : GInv s -> holds (used s) (disk s) i type data -> full SFS_BLKSIZE data -> type <> SFS_TYPE_DIR -> loaded fs_at i n rest s s' ->
  exists sin blks, FileAt s' n sin blks /\ ino sin = i /\ content s' sin blks = concat data.
Proof.
  intros HG (Hi&blks&Hm&Ht&_&Hs&Hd) Hfull Hty [L1 L2 L3 L4 L5 L6 L7]. pose proof (maps_frep _ _ _ Hm) as HF. exists (mkSin (vdin (disk s) i) i false 1), blks. pose proof (g_blocks dop_io d0 s HG) as Hnb.
  assert (HF' : frep s' (vdin (disk s) i) blks). { eapply frep_frame; [exact HF|intros k Hk; apply L6; by apply (fr_used _ _ _ _ _ HF)|]. intros o Hio Ho. apply L5; [|done]. by apply (fr_used _ _ _ _ _ HF), own_indirect. }
  assert (Hlen : length blks = length data) by (rewrite <-(length_fmap (disk s) blks), Hd; by rewrite length_fmap).
  split; [split; cbn [din]; [done|rewrite L2; apply lookup_insert_eq|done|congruence|]|].
  - rewrite Hs, Hlen. pose proof (full_size _ _ Hfull). pose proof (full_length _ _ Hfull). unfold SFS_BLKSIZE in *. lia.
  - split; [done|]. unfold SfsIo.content. cbn [din]. rewrite Hs. apply content_data with SFS_BLKSIZE; [done|]. rewrite <-Hd. apply list_fmap_ext. intros j k Hk. apply L4. assert (Hu : used s k) by (apply (fr_used _ _ _ _ _ HF), own_blks; by eapply list_elem_of_lookup_2). destruct Hu. lia.
Qed.

(** ** Directories *)

Lemma ventry_dent s k : ventry (disk s) k = (cstr (e_name (dent s k)), e_ino (dent s k)).
Proof. reflexivity. Qed.
Lemma rep_block v R par i h : rep v R par i h -> R i.
Proof. destruct h as [r reads eof|r es|r [t|]| |]; cbn; try done; by intros [? _]. Qed.
Lemma reps_child v (R : Z -> Prop) i name es : (forall k, R k -> k <> 0) -> forall rest, reps v R i es rest ->
  match child name es with
  | Some h => exists m j, list_find (fun e : list Z * Z => snd e <> 0 /\ fst e = name) rest = Some (m, (name, j)) /\ rep v R i j h
  | None => list_find (fun e : list Z * Z => snd e <> 0 /\ fst e = name) rest = None
  end.
Proof.
  intros HR. induction es as [|[n h] es IH]; intros rest; [intros ->; done|]. rewrite reps_cons. cbn [child]. destruct (hidden n h); [apply IH|]. intros (j&rest'&->&Hrep&Hrest). pose proof (HR j (rep_block _ _ _ _ _ Hrep)) as Hj. cbn [list_find fst snd]. destruct (decide (take 252 n = name)) as [He|Hne].
  - rewrite decide_True by done. exists 0%nat, j. by rewrite He.
  - rewrite decide_False by tauto. specialize (IH rest' Hrest). destruct (child name es); [|by rewrite IH]. destruct IH as (m&j'&->&Hrep'). exists (S m), j'. done.
Qed.

(** The node [n] is a loaded directory of the image: inode [i], the entries of [es]. *)
Definition dir_of s n i par es : Prop := exists sin blks rest, DirAt s n sin blks /\ ino sin = i /\
  ventry (disk s) <$> blks = ([46], i) :: ([46; 46], par) :: rest /\ reps (disk s) (used s) i es rest.

(** Nothing of the blocks in use is lost from [s] to [s']. *)
Definition kept s s' : Prop := (forall k o, used s k -> 0 <= o < SFS_BLKSIZE -> dsk s' k o = dsk s k o) /\ forall k, used s' k <-> used s k.
Lemma kept_disk s s' k : kept s s' -> used s k -> disk s' k = disk s k.
Proof. intros [Hd _] Hu. apply disk_ext. intros o Ho. by apply Hd. Qed.
Lemma kept_rep s s' par i h : kept s s' -> rep (disk s) (used s) par i h -> rep (disk s') (used s') par i h.
Proof. intros HK. apply rep_mono; [intros k; by rewrite (proj2 HK)|intros k; by apply kept_disk]. Qed.
Lemma kept_frep s s' d blks : kept s s' -> frep s d blks -> frep s' d blks.
Proof. intros [Hd Hu] HF. eapply frep_frame; [exact HF|intros k Hk; apply Hu; by apply (fr_used _ _ _ _ _ HF)|]. intros o Hio Ho. apply Hd; [|done]. by apply (fr_used _ _ _ _ _ HF), own_indirect. Qed.
Lemma kept_entries s s' d blks : kept s s' -> frep s d blks -> ventry (disk s') <$> blks = ventry (disk s) <$> blks.
Proof. intros HK HF. apply list_fmap_ext. intros j k Hk. unfold ventry. rewrite (kept_disk s s'); [done|done|]. apply (fr_used _ _ _ _ _ HF), own_blks. by eapply list_elem_of_lookup_2. Qed.
Lemma kept_dir s s' n i par es : kept s s' -> GInv s' -> sins (priv s') !! n = sins (priv s) !! n -> dir_of s n i par es -> dir_of s' n i par es.
Proof.
  intros HK HG Hs (sin&blks&rest&(_&Hn&HF&Ht)&Hi&He&Hes). exists sin, blks, rest. split; [split; [done|]; split; [by rewrite Hs|]; split; [by eapply kept_frep|done]|]. split; [done|].
  split; [by rewrite (kept_entries _ _ _ _ HK HF)|]. eapply reps_mono; [| |exact Hes]; [intros k; by rewrite (proj2 HK)|intros k; by apply kept_disk].
Qed.
Lemma loaded_kept fs_at i n rest s s' : loaded fs_at i n rest s s' -> kept s s'.
Proof. intros [L1 L2 L3 L4 L5 L6 L7]. done. Qed.
Lemma touch_kept s s' : GInv s -> touch dop_io d0 s s' nowhere asis -> kept s s'.
Proof. intros HG HT. pose proof (g_blocks dop_io d0 s HG). split; [|intros k; by rewrite (to_st _ _ _ _ _ _ HT)]. intros k o [Hk _] Ho. by rewrite (to_dsk _ _ _ _ _ _ HT) by (done || lia). Qed.

Lemma loaded_dir s s' fs_at i n rest par r es : rep (disk s) (used s) par i (HDir r es) -> loaded fs_at i n rest s s' -> dir_of s' n i par es.
Proof.
  intros Hrep HL. pose proof (loaded_kept _ _ _ _ _ _ HL) as HK. apply rep_dir in Hrep as (Hi&blks&ents&Hm&Ht&_&_&He&Hes). pose proof (maps_frep _ _ _ Hm) as HF. destruct HL as [L1 L2 _ _ _ _ _].
  exists (mkSin (vdin (disk s) i) i false 1), blks, ents. split; [split; [done|]; split; [rewrite L2; apply lookup_insert_eq|]; split; [by eapply kept_frep|done]|]. split; [done|].
  split; [by rewrite (kept_entries _ _ _ _ HK HF)|]. eapply reps_mono; [| |exact Hes]; [intros k; by rewrite (proj2 HK)|intros k; by apply kept_disk].
Qed.

Lemma search_runs s n i par es name a rest : dir_of s n i par es -> pool (priv s) = Some a :: rest -> Z.of_nat (length name) <= SFS_MAX_FNAME_LEN -> skipped name = false ->
  runs (sfs_dirent_search_nolock dop_io n name) s (fun r s' => dir_of s' n i par es /\ kept s s' /\
    match child name es with
    | Some h => exists j slot em, r = (0, j, slot, em) /\ rep (disk s') (used s') i j h
    | None => exists em, r = (- E_NOENT, 0, 0, em)
    end).
Proof.
  intros HD Hp Hl Hsk. pose proof HD as (sin&blks&ents&HA&Hi&He&Hes). runs_by (dirent_search_runs dop_io d0 s n sin blks name a rest HA Hp Hl). intros r s' [HT Hr]. set (s1 := set_priv _ s) in HT.
  assert (HG1 : GInv s1) by (destruct HA as [[] _]; by split). assert (HK : kept s s') by exact (touch_kept s1 s' HG1 HT).
  split; [eapply kept_dir; [exact HK|by eapply touch_GInv| |exact HD]; rewrite (to_st _ _ _ _ _ _ HT); done|]. split; [done|].
  assert (HR : forall k, used s k -> k <> 0) by (intros k [[Hk _] _]; lia). pose proof (reps_child (disk s) (used s) i name es HR ents Hes) as Hch.
  set (P := fun e : list Z * Z => snd e <> 0 /\ fst e = name) in *. set (X := list_find (names name ∘ dent s) blks).
  assert (E1 : list_find P (ventry (disk s) <$> blks) = prod_map id (ventry (disk s)) <$> X). { rewrite list_find_fmap. reflexivity. }
  assert (E2 : list_find (names name) (dents s blks) = prod_map id (dent s) <$> X) by apply list_find_fmap.
  assert (Hn1 : ~ P ([46], i)) by (intros [_ Hq]; cbn in Hq; subst name; done). assert (Hn2 : ~ P ([46; 46], par)) by (intros [_ Hq]; cbn in Hq; subst name; done).
  assert (E3 : list_find P (ventry (disk s) <$> blks) = prod_map (fun m => S (S m)) id <$> list_find P ents).
  { rewrite He. cbn [list_find]. rewrite !decide_False by done. by destruct (list_find P ents) as [[m e]|]. }
  rewrite E2 in Hr. rewrite E1 in E3. destruct (child name es) as [h|].
  - destruct Hch as (m&j&Hf&Hrep). rewrite Hf in E3. destruct X as [[m' k]|]; [|done]. cbn in E3. injection E3 as _ _ Hj. cbn in Hr. destruct Hr as [em ->]. exists (e_ino (dent s k)), (Z.of_nat m'), em. split; [done|].
    replace (e_ino (dent s k)) with j by (by rewrite <-Hj). by eapply kept_rep.
  - rewrite Hch in E3. by destruct X.
Qed.

(** What [kmalloc] will give does not matter. *)
Lemma pool_kept s l : kept s (set_priv (set_pool l (priv s)) s).
Proof. by split. Qed.
Lemma pool_GInv s l : GInv s -> GInv (set_priv (set_pool l (priv s)) s).
Proof. intros []. by split. Qed.
Lemma pool_dir s l n i par es : dir_of s n i par es -> dir_of (set_priv (set_pool l (priv s)) s) n i par es.
Proof. intros H. eapply kept_dir; [apply pool_kept|apply pool_GInv; by destruct H as (?&?&?&[? _]&_)|done|exact H]. Qed.

(** ** What the kernel does with an image *)

(** The node [n] is inode [i] of the image, loaded: a file with the host's content, or a directory. *)
Definition served s n par i (h : hnode) : Prop :=
  match h with
  | HFile _ reads _ => exists sin blks, FileAt s n sin blks /\ ino sin = i /\ content s sin blks = concat reads
  | HDir _ es => dir_of s n i par es
  | _ => False
  end.
Definition is_link (h : hnode) : bool := match h with HLink _ _ => true | _ => false end.
Lemma rep_type par i h s : rep (disk s) (used s) par i h ->
  din_nlinks (din_of_bytes (disk s i)) <> 0 /\ din_type (din_of_bytes (disk s i)) = (if is_dir h then SFS_TYPE_DIR else if is_link h then SFS_TYPE_LINK else SFS_TYPE_FILE).
Proof.
  destruct h as [r reads eof|r es|r [t|]| |]; [| | |done|done|done].
  - intros (_&blks&_&Ht&Hn&_). change (vdin (disk s) i) with (din_of_bytes (disk s i)) in *. rewrite Hn. split; [lia|exact Ht].
  - rewrite rep_dir. intros (_&blks&rest&_&Ht&Hn&_). change (vdin (disk s) i) with (din_of_bytes (disk s i)) in *. rewrite Hn. pose proof (subdirs_bound es). split; [lia|exact Ht].
  - intros (_&blks&_&Ht&Hn&_). change (vdin (disk s) i) with (din_of_bytes (disk s i)) in *. rewrite Hn. split; [lia|exact Ht].
Qed.

Lemma load_runs fs_at s par i h a n rest :
  GInv s -> rep (disk s) (used s) par i h -> okh h -> is_link h = false -> unloaded s i -> pool (priv s) = Some a :: Some n :: rest ->
  runs (sfs_load_inode dop_io fs_at i) s (fun r s' => r = (0, Some n) /\ GInv s' /\ served s' n par i h /\ kept s s').
Proof.
  intros HG Hrep Hok Hnl Hul Hp. destruct (rep_type par i h s Hrep) as [Hlk Hty]. rewrite Hnl in Hty.
  runs_by (load_inode_runs dop_io d0 fs_at s i a n rest HG); [by eapply rep_block|done|done|done|destruct (is_dir h); tauto|]. intros r s' [-> HL]. split; [done|]. split; [apply HL|]. split; [|by eapply loaded_kept].
  destruct h as [r reads eof|r es|r t| |]; [|by eapply loaded_dir|done|done|done]. destruct Hok as (_&Hfull&_). cbn [served]. by eapply loaded_file.
Qed.

(** C15: Loading an inode of an image whose file or directory the host had: a node is made, the file system stays
    consistent, nothing in use is lost, and the node is a file with exactly the bytes of the host's file, or a
    directory with exactly the host's entries. *)
Theorem image_load_correct fs_at s par i h a n rest :
  GInv s -> rep (disk s) (used s) par i h -> okh h -> is_link h = false -> unloaded s i -> pool (priv s) = Some a :: Some n :: rest ->
  runs (sfs_load_inode dop_io fs_at i) s (fun r s' => r = (0, Some n) /\ GInv s' /\ served s' n par i h /\ kept s s').
Proof. apply load_runs. Qed.

(** C33: A symbolic link, which [mksfs] puts into images like any other file, is no inode the kernel can load: looking it
    up stops the kernel. *)
Theorem image_link_panics fs_at s par i r t a n rest :
  GInv s -> rep (disk s) (used s) par i (HLink r t) -> unloaded s i -> pool (priv s) = Some a :: Some n :: rest -> sfs_load_inode dop_io fs_at i s = Panic.
Proof.
  intros HG Hrep Hul Hp. destruct (rep_type _ _ _ _ Hrep) as [_ Hty]. cbn [is_dir is_link] in Hty. apply (load_inode_panics dop_io d0 fs_at s i a n rest HG); [by eapply rep_block|done|done|by rewrite Hty|by rewrite Hty].
Qed.

(** C16: Searching a loaded directory of an image for a name that does not start with a dot: it is found exactly when the
    host's directory has it (cut to 252 bytes), and the inode number returned is that of what the host has there. *)
Theorem image_search_correct s n i par es name a rest : dir_of s n i par es -> pool (priv s) = Some a :: rest -> Z.of_nat (length name) <= SFS_MAX_FNAME_LEN -> skipped name = false ->
  runs (sfs_dirent_search_nolock dop_io n name) s (fun r s' => dir_of s' n i par es /\ kept s s' /\
    match child name es with
    | Some h => exists j slot em, r = (0, j, slot, em) /\ rep (disk s') (used s') i j h
    | None => exists em, r = (- E_NOENT, 0, 0, em)
    end).
Proof. apply search_runs. Qed.

(** A machine ready to mount: what [kmalloc] will give. *)
Record ready s fs buf hash a at_ rest len : Prop := {
  rd_dev : xdev (priv s) = d0;
  rd_pool : pool (priv s) = Some fs :: Some buf :: Some hash :: Some a :: Some at_ :: rest;
  rd_clients : clients dop_io d0 buf SFS_BLKSIZE /\ clients dop_io d0 at_ (SFS_BLKSIZE * ((len + 32767) / 32768))
}.

Lemma image_mount_runs pwrite_ok st_size junk es (s0 : msfs) : (forall k, pwrite_ok k = true) -> fits st_size junk es s0 -> image_blocks st_size <= nblk ->
  runs (mksfs pwrite_ok st_size junk es) s0 (fun _ (s1 : msfs) => forall s fs buf hash a at_ rest, ready s fs buf hash a at_ rest (image_blocks st_size) ->
    (forall k, 0 <= k < first_free st_size + tree_blocks es -> disk s k = image_of s1 k) ->
    runs (sfs_do_mount dop_io SFS_BLKSIZE nblk) s (fun r s' => r = (0, Some fs) /\ GInv s' /\ rep (disk s') (used s') 1 1 (HDir 0 es) /\
      (forall k, free s' k <-> first_free st_size + tree_blocks es <= k < image_blocks st_size) /\ forall i, unloaded s' i)).
Proof.
  intros Hpw Hf HN. runs_by (mksfs_runs pwrite_ok Hpw st_size junk es s0 Hf). intros _ s1 Hb s fs buf hash a at_ rest [Hd Hp [Hc1 Hc2]] Hdisk.
  destruct (built_mountable st_size junk es s0 s1 nblk (disk s) Hf Hb HN Hdisk) as [Hm Hbit]. pose proof (first_free_pos st_size junk es s0 Hf) as [H3 Hn]. pose proof (ft_min _ _ _ _ Hf) as Hmin. pose proof (ft_room _ _ _ _ Hf) as Hroom.
  assert (Hfb : (image_blocks st_size + 32767) / 32768 = sfs_freemap_blocks (mkSuper SFS_MAGIC (image_blocks st_size) 0 [])) by (rewrite freemap_blocks_eq by lia; done). rewrite Hfb in Hc2.
  runs_by (do_mount_runs dop_io d0 s fs buf hash a at_ rest _ Hd Hp Hm Hc1 Hc2). cbn [sup_blocks]. intros r s' (->&HG&m&Hs'&Hd'). split; [done|]. split; [done|]. rewrite <-freemap_blocks_eq in Hfb by lia.
  assert (Hnb : nbits (disk_bitmap (disk s) (image_blocks st_size)) = 32768 * ((image_blocks st_size + 32767) / 32768)) by (cbn [disk_bitmap nbits]; by rewrite freemap_blocks_eq by lia).
  assert (Htb : 0 <= tree_blocks es) by (unfold tree_blocks; pose proof (needs_pos es); pose proof (xblk_pos 0 (2 + length (shown es))); lia).
  assert (Hfree : forall k, free s' k <-> first_free st_size + tree_blocks es <= k < image_blocks st_size).
  { intros k. subst s'. unfold free. cbn [xsfs priv mounted set_priv set_xsfs freemap]. rewrite Hnb. split; [intros [Hk Hkb]; rewrite Hbit in Hkb by (by rewrite Hnb); by apply bool_decide_eq_true in Hkb|]. intros Hk. assert (Hkr : 0 <= k < 32768 * ((image_blocks st_size + 32767) / 32768)) by mlia. split; [done|]. rewrite Hbit by (by rewrite Hnb). by apply bool_decide_eq_true. }
  assert (Hused : forall k, k = 1 \/ first_free st_size <= k < first_free st_size + tree_blocks es -> used s' k).
  { intros k Hk. subst s'. split; cbn [xsfs priv mounted set_priv set_xsfs freemap super sup_blocks]; [lia|]. rewrite Hbit by (rewrite Hnb; mlia). apply bool_decide_eq_false. lia. }
  split; [|split; [done|]].
  - eapply rep_mono; [exact Hused| |apply (bl_tree _ _ _ _ Hb)]. intros k Hk. cbv beta in Hk. rewrite Hd' by lia. apply Hdisk. lia.
  - intros i. subst s'. apply Forall_nil_2.
Qed.

(** C14: Mounting the image that [mksfs] made of a host tree, on a disk that is at least as large and shows the blocks
    written: [sfs_do_mount] succeeds, none of its checks fails, and the file system it leaves satisfies the invariant of
    the mounted file system and holds the host's tree, all of whose blocks are in use; exactly the blocks behind the
    tree are free. *)
Theorem mksfs_mount_correct pwrite_ok st_size junk es (s0 : msfs) : (forall k, pwrite_ok k = true) -> fits st_size junk es s0 -> image_blocks st_size <= nblk ->
  runs (mksfs pwrite_ok st_size junk es) s0 (fun _ (s1 : msfs) => forall s fs buf hash a at_ rest, ready s fs buf hash a at_ rest (image_blocks st_size) ->
    (forall k, 0 <= k < first_free st_size + tree_blocks es -> disk s k = image_of s1 k) ->
    runs (sfs_do_mount dop_io SFS_BLKSIZE nblk) s (fun r s' => r = (0, Some fs) /\ GInv s' /\ rep (disk s') (used s') 1 1 (HDir 0 es) /\
      (forall k, free s' k <-> first_free st_size + tree_blocks es <= k < image_blocks st_size) /\ forall i, unloaded s' i)).
Proof. apply image_mount_runs. Qed.
End Kernel.
