(* ===== verification/MksfsEx.v ===== *)
(** * The image builder: a small image

    A directory tree with a file, a hidden entry, a subdirectory, an empty file and a
    link, built into an image of 40 blocks, and a machine with the image on disk0. *)

From stdpp Require Import base gmap list.
From Stdlib Require Import ZArith Lia Bool.
From S2P Require Import Prelude.
From S2P Require Import Vmm.
From S2P Require Import Vfs.
From S2P Require Import Dev.
From S2P Require Import DevThm.
From S2P Require Import Bitmap.
From S2P Require Import Sfs.
From S2P Require Import SfsInv.
From S2P Require Import SfsIo.
From S2P Require Import SfsTrunc.
From S2P Require Import SfsDev.
From S2P Require Import SfsMount.
From S2P Require Import Mksfs.
From S2P Require Import MksfsInv.
From S2P Require Import MksfsThm.
From S2P Require Import MksfsTree.
From S2P Require Import MksfsImg.
From S2P Require Import MksfsMount.

#[local] Abbreviation length := Datatypes.length.

Definition demo_tree : list (list Z * hnode) :=
  [([97], HFile 11 [replicate 4096 7; [1; 2; 3]] true); ([46; 120], HBad); ([100], HDir 12 [([98], HFile 13 [] true); ([108], HLink 14 (Some [97]))])].
Definition demo_start : msfs := mkMsfs (mkSuper 0 0 0 []) 0 0 ∅ ∅ ∅ ∅ [] (replicate 256 0) ∅.
Definition demo_size : Z := 40 * 4096.
Definition demo_junk : list Z := replicate 13 0.

Lemma demo_file_ok : okh (HFile 11 [replicate 4096 7; [1; 2; 3]] true).
Proof.
  split; [done|]. split; [|cbn; lia]. cbn [full]. rewrite length_replicate. cbn [length]. unfold SFS_BLKSIZE. repeat split; lia.
Qed.
Lemma demo_tree_ok : okh (HDir 0 demo_tree).
Proof.
  split; [vm_compute; lia|]. change (oks demo_tree). unfold demo_tree. rewrite !oks_cons. split.
  - intros _. split; [cbn; lia|]. split; [by repeat constructor|exact demo_file_ok].
  - split; [done|]. split; [|done]. intros _. split; [cbn; lia|]. split; [by repeat constructor|]. split; [vm_compute; lia|]. split.
    + intros _. split; [cbn; lia|]. split; [by repeat constructor|]. split; [done|]. split; [done|cbn; lia].
    + split; [|done]. intros _. split; [cbn; lia|]. split; [by repeat constructor|]. exists [97]. split; [done|cbn; lia].
Qed.
Lemma demo_fits : fits demo_size demo_junk demo_tree demo_start.
Proof.
  split; try (vm_compute; repeat split; congruence).
  - destruct demo_tree_ok as [Hl Ho]. done.
  - apply (bool_decide_eq_true_1 (NoDup (0 :: all_reals demo_tree))). by vm_compute.
Qed.

Lemma mksfs_correct_witness : fits demo_size demo_junk demo_tree demo_start /\
  runs (mksfs (fun _ => true) demo_size demo_junk demo_tree) demo_start (fun _ s' => rep (image_of s') (fun k => k = 1 \/ first_free demo_size <= k < first_free demo_size + tree_blocks demo_tree) 1 1 (HDir 0 demo_tree) /\
    occupies (image_of s') 1 (HDir 0 demo_tree) ≡ₚ 1 :: seqZ 3 15).
Proof. split; [apply demo_fits|]. apply (mksfs_correct (fun _ => true) demo_size demo_junk demo_tree demo_start); [done|apply demo_fits]. Defined.

(** A block of block numbers is filed under number 0, but looked up under its own. *)
Lemma search_cache_block_misses : exists s b s', alloc_cache_block 0 s = Ok (b, s') /\ is_Some (cblocks s' !! b) /\ search_cache_block b s' = Ok (None, s').
Proof.
  set (s0 := mkMsfs (mkSuper 0 40 37 []) 40 3 ∅ ∅ ∅ ∅ [] [] ∅).
  exists s0, 3. eexists. split; [reflexivity|]. split; [by eexists|reflexivity].
Qed.

(** ** The machine *)

Definition demo_dev : device := mkDev 40 4096 Disk0.
Definition demo_devst : devst := mkDevst ∅ (fun _ => 0) 0 0 [] [] (mkIde 320 0x100000) 0x10000.
#[export] Instance demo_diskok : DiskOk demo_dev demo_devst.
Proof. split; cbn; unfold DISK0_BUFSIZE, DISK0_BLKSIZE, SECTSIZE, W32; try lia; done. Qed.
Abbreviation demo_io := (sfs_dop_io demo_dev).
(** The blocks of the image [v] on the disk. *)
Definition demo_mem (v : Z -> list Z) : bytes := fun x => v ((x - 0x100000) / 4096) !!! Z.to_nat ((x - 0x100000) mod 4096).
Definition demo_pool : list (option Z) := [Some 0x40000; Some 0x20000; Some 0x41000; Some 0x42000; Some 0x30000].
Definition demo_st (v : Z -> list Z) : sst :=
  mkFst ∅ ∅ ∅ None [] None (demo_mem v) (mkSfsx demo_devst (mkSfs (mkSuper 0 0 0 []) (mkBitmap 0 0 []) 0 false 0 [] ∅) ∅ demo_pool).

Lemma demo_lengths : match mksfs (fun _ => true) demo_size demo_junk demo_tree demo_start with Ok (_, s) => forallb (fun k => Z.of_nat (length (image_of s k)) =? 4096) (seqZ 0 18) = true | _ => False end.
Proof. vm_compute. reflexivity. Qed.
Lemma demo_run : exists s, mksfs (fun _ => true) demo_size demo_junk demo_tree demo_start = Ok (tt, s) /\ forall k, 0 <= k < 18 -> length (image_of s k) = 4096%nat.
Proof.
  pose proof demo_lengths as H. set (run := mksfs _ _ _ _ _) in *. clearbody run. destruct run as [[[] s]| | |]; [|done|done|done]. exists s. split; [done|]. intros k Hk. rewrite forallb_forall in H. specialize (H k). rewrite Z.eqb_eq in H. apply Nat2Z.inj, H. apply list_elem_of_In, elem_of_seqZ. lia.
Qed.
Lemma demo_disk v k : 0 <= k < 40 -> length (v k) = 4096%nat -> disk demo_io demo_devst (demo_st v) k = v k.
Proof.
  intros Hk Hl. rewrite (bytes_of (v k)), Hl. unfold disk, peek. apply fmap_seqZ_ext. change SFS_BLKSIZE with 4096. intros o Ho. unfold dsk. cbn [dbyte disk0_blockdev]. unfold disk_byte. change (d_blocks demo_dev * DISK0_BLKSIZE) with 163840. rewrite (proj2 (in_range_spec _ _ _)) by (unfold SFS_BLKSIZE; lia).
  cbn [demo_st fmem]. unfold demo_mem. change (iobase (ramdisk demo_devst)) with 0x100000. unfold SFS_BLKSIZE. change (Z.of_nat 4096) with 4096 in Ho. f_equal; [f_equal; mlia|f_equal; mlia].
Qed.

Abbreviation demo_mount s := (sfs_do_mount demo_io SFS_BLKSIZE (nblk (BlockDev := disk0_blockdev demo_dev demo_devst)) s).
Lemma demo_clients a : 0x20000 <= a <= 0x50000 -> clients demo_io demo_devst a 4096.
Proof.
  intros Ha. split; [lia|]. split; [unfold W32; lia|]. intros x Hx. cbn [client disk0_blockdev]. unfold disk_client. cbn [disk0_buffer ramdisk demo_devst iobase ide_size].
  split; [lia|]. split; [unfold W32; lia|]. split; apply in_range_false; unfold DISK0_BUFSIZE, DISK0_BLKSIZE, SECTSIZE; lia.
Qed.
Lemma demo_ready v : ready demo_io demo_devst (demo_st v) 0x40000 0x20000 0x41000 0x42000 0x30000 [] (image_blocks demo_size).
Proof. split; [done|done|]. split; [apply demo_clients; lia|]. change (SFS_BLKSIZE * _) with 4096. apply demo_clients. lia. Qed.

Lemma mksfs_mount_correct_witness : exists s1 s, mksfs (fun _ => true) demo_size demo_junk demo_tree demo_start = Ok (tt, s1) /\ (forall k, 0 <= k < 18 -> disk demo_io demo_devst s k = image_of s1 k) /\
  runs (sfs_do_mount demo_io SFS_BLKSIZE 40) s (fun r s' => r = (0, Some 0x40000) /\ rep (disk demo_io demo_devst s') (used s') 1 1 (HDir 0 demo_tree)).
Proof.
  destruct demo_run as (s1&He&Hl). assert (Hd : forall k, 0 <= k < 18 -> disk demo_io demo_devst (demo_st (image_of s1)) k = image_of s1 k) by (intros k Hk; apply demo_disk; [lia|by apply Hl]).
  exists s1, (demo_st (image_of s1)). split; [exact He|]. split; [exact Hd|].
  pose proof (mksfs_mount_correct demo_io demo_devst (fun _ => true) demo_size demo_junk demo_tree demo_start ltac:(done) demo_fits ltac:(vm_compute; discriminate)) as H.
  pose proof (runs_elim _ _ _ _ _ H He) as H1. cbv beta in H1. pose proof (H1 (demo_st (image_of s1)) _ _ _ _ _ _ (demo_ready (image_of s1)) Hd) as H2. eapply runs_mono; [exact H2|]. cbn beta. intros r s' (->&_&Hr&_). split; [done|exact Hr].
Defined.

(** ** A mounted machine *)

Definition with_pool (l : list (option Z)) (s : sst) : sst := set_priv (set_pool l (priv s)) s.
Lemma demo_mounted : exists s, GInv demo_io demo_devst s /\ rep (disk demo_io demo_devst s) (used s) 1 1 (HDir 0 demo_tree) /\ (forall i, unloaded s i) /\ pool (priv s) = [Some 0x50000; Some 0x51000; Some 0x52000].
Proof.
  destruct demo_run as (s1&He&Hl). assert (Hd : forall k, 0 <= k < 18 -> disk demo_io demo_devst (demo_st (image_of s1)) k = image_of s1 k) by (intros k Hk; apply demo_disk; [lia|by apply Hl]).
  pose proof (image_mount_runs demo_io demo_devst (fun _ => true) demo_size demo_junk demo_tree demo_start ltac:(done) demo_fits ltac:(vm_compute; discriminate)) as H.
  pose proof (runs_elim _ _ _ _ _ H He) as H1. cbv beta in H1. pose proof (H1 (demo_st (image_of s1)) _ _ _ _ _ _ (demo_ready (image_of s1)) Hd) as H2. apply runs_ok in H2 as (r&s&_&_&HG&Hr&_&Hu).
  exists (with_pool [Some 0x50000; Some 0x51000; Some 0x52000] s). split; [by apply pool_GInv|]. split; [exact (kept_rep _ _ _ _ _ _ _ (pool_kept _ _ s _) Hr)|]. split; [exact Hu|reflexivity].
Qed.
Lemma image_load_correct_witness : exists s i, GInv demo_io demo_devst s /\ rep (disk demo_io demo_devst s) (used s) 1 i (HFile 11 [replicate 4096 7; [1; 2; 3]] true) /\
  runs (sfs_load_inode demo_io 0x40000 i) s (fun r s' => r = (0, Some 0x51000) /\ served demo_io demo_devst s' 0x51000 1 i (HFile 11 [replicate 4096 7; [1; 2; 3]] true)).
Proof.
  destruct demo_mounted as (s&HG&Hr&Hu&Hp). apply rep_dir in Hr as (_&blks&rest&_&_&_&_&_&Hes). unfold demo_tree in Hes. rewrite reps_cons in Hes. destruct Hes as (i&rest'&_&Hi&_).
  exists s, i. split; [exact HG|]. split; [exact Hi|]. eapply runs_mono; [apply (image_load_correct demo_io demo_devst 0x40000 s 1 i (HFile 11 [replicate 4096 7; [1; 2; 3]] true) 0x50000 0x51000 [Some 0x52000] HG Hi demo_file_ok eq_refl (Hu i) Hp)|].
  cbn beta. intros r s' (Hr0&_&Hs&_). split; [exact Hr0|exact Hs].
Defined.

Lemma image_search_correct_witness : exists s n i, dir_of demo_io demo_devst s n i 1 demo_tree /\
  runs (sfs_dirent_search_nolock demo_io n [100]) s (fun r s' => exists j slot em, r = (0, j, slot, em) /\ rep (disk demo_io demo_devst s') (used s') i j (HDir 12 [([98], HFile 13 [] true); ([108], HLink 14 (Some [97]))])).
Proof.
  destruct demo_mounted as (s0&HG&Hr&Hu&Hp). pose proof (load_runs demo_io demo_devst 0x40000 s0 1 1 (HDir 0 demo_tree) 0x50000 0x51000 [Some 0x52000] HG Hr demo_tree_ok eq_refl (Hu 1) Hp) as H. apply runs_ok in H as (r&s&_&_&HGs&Hs&_).
  exists (with_pool [Some 0x52000] s), 0x51000, 1. assert (Hd : dir_of demo_io demo_devst (with_pool [Some 0x52000] s) 0x51000 1 1 demo_tree) by (apply pool_dir; exact Hs).
  split; [exact Hd|]. eapply runs_mono; [apply (image_search_correct demo_io demo_devst _ _ _ _ _ [100] _ _ Hd eq_refl); [vm_compute; discriminate|reflexivity]|]. cbn beta. intros r' s' (_&_&Hc). exact Hc.
Defined.

Lemma image_link_panics_witness : exists s i, GInv demo_io demo_devst s /\ (exists par, rep (disk demo_io demo_devst s) (used s) par i (HLink 14 (Some [97]))) /\ sfs_load_inode demo_io 0x40000 i s = Panic.
Proof.
  destruct demo_mounted as (s&HG&Hr&Hu&Hp). apply rep_dir in Hr as (_&blks&rest&_&_&_&_&_&Hes). unfold demo_tree in Hes. rewrite !reps_cons in Hes. destruct Hes as (i&rest'&_&_&j&rest2&_&Hd&_).
  apply rep_dir in Hd as (_&blks2&rest3&_&_&_&_&_&Hes). rewrite !reps_cons in Hes. destruct Hes as (k&rest4&_&_&l&rest5&_&Hl&_).
  exists s, l. split; [exact HG|]. split; [by eexists|]. apply (image_link_panics demo_io demo_devst 0x40000 s j l 14 (Some [97]) 0x50000 0x51000 [Some 0x52000] HG Hl (Hu l) Hp).
Defined.
