(* ===== verification/Sysfile.v ===== *)
(** * File system calls (kern/fs/sysfile.c)

    The state is that of Proc.v.  [current->fs_struct] is read through the process
    ([on_files]); the byte memory of [fsys] holds the user's buffers and the kernel's.
    Addresses that [kmalloc] returns, and those of locals whose address is taken, are
    arguments.  A kernel thread has no [mm]: the copies then only test that the buffer
    lies in kernel memory. *)

From stdpp Require Import base gmap list.
From Stdlib Require Import ZArith Lia Bool.
From S2P Require Import Prelude.
From S2P Require Import Pmm.
From S2P Require Import Vmm.
From S2P Require Import KState.
From S2P Require Import Vfs.
From S2P Require Import Proc.
From S2P Require Import Sfs.

Definition IOBUF_SIZE : Z := 4096.
Definition FS_MAX_FPATH_LEN : Z := 4095.
Definition sizeof_stat : Z := 16.
Definition sizeof_dirent : Z := 260.

(** [copy_from_user], [copy_to_user] and [copy_string] with [mm == NULL]. *)
Definition copy_kernel (chk dst src len : Z) : M bytes bool :=
  if user_mem_check_kernel chk len then do! modify (bcopy dst src len) in ret true else ret false.
Fixpoint copy_string_kernel_loop (fuel : nat) (dst src maxn part : Z) : M bytes bool :=
  match fuel with
  | O => nofuel
  | S fuel =>
      let part := if maxn <? part then maxn else part in
      if negb (user_mem_check_kernel src part) then ret false
      else
        let! m := get in
        let alen := strnlen (Z.to_nat part) src m in
        if alen <? part then do! modify (bcopy dst src (alen + 1)) in ret true
        else if part =? maxn then ret false
        else
          do! modify (bcopy dst src part) in
          copy_string_kernel_loop fuel (u32 (dst + part)) (u32 (src + part)) (maxn - part) PGSIZE
  end.
Definition copy_string_kernel (dst src maxn : Z) : M bytes bool :=
  let part := u32 (ROUNDDOWN_2N (u32 (src + PGSIZE)) PGSHIFT - src) in
  copy_string_kernel_loop (S (S (Z.to_nat (Z.shiftr maxn PGSHIFT)))) dst src maxn part.

(** The bytes before the NUL. *)
Fixpoint cstr (k : nat) (m : bytes) (a : Z) : path :=
  match k with O => [] | S k => if m a =? 0 then [] else m a :: cstr k m (a + 1) end.

Section Sysfile.
Context {X : Type}.
Abbreviation st := (pst X).
Variable optab : Z -> @inode_ops X.
Variable fsops : @fs_ops X.

Definition set_curfs v (f : fst_ X) : fst_ X := mkFst (inodes f) (files f) (fss f) v (vdev_list f) (bootfs_node f) (fmem f) (priv f).
Definition on_files {A} (m : M (fst_ X) A) : M st A :=
  do! modify (fun s => set_fsys (set_curfs (pfs s !! current (ks s)) (fsys s)) s) in on_fsys m.
Definition on_bytes {A} (m : M bytes A) : M st A := on_fsys (on_mem m).
(** Code on an address space and the byte memory. *)
Definition on_user {A} (p : Z) (m : M (mm_struct * bytes) A) : M st A :=
  let! mm := rd_mm p in
  let! s := get in
  match m (mm, fmem (fsys s)) with
  | Ok (a, (mm', b')) => do! wr_mm p mm' in do! on_bytes (put b') in ret a
  | Panic => panic | Fault => fault | NoFuel => nofuel
  end.
Definition current_mm : M st (option Z) := let! s := get in let! g := on_k (rd_proc (current (ks s))) in ret (p_mm g).

Definition mem_check (mm : option Z) (addr len : Z) (write : bool) : M st bool :=
  match mm with Some p => at_mm p (user_mem_check addr len write) | None => ret (user_mem_check_kernel addr len) end.
Definition from_user (mm : option Z) (dst src len : Z) (writable : bool) : M st bool :=
  match mm with Some p => on_user p (copy_from_user dst src len writable) | None => on_bytes (copy_kernel src dst src len) end.
Definition to_user (mm : option Z) (dst src len : Z) : M st bool :=
  match mm with Some p => on_user p (copy_to_user dst src len) | None => on_bytes (copy_kernel dst dst src len) end.
Definition string_user (mm : option Z) (dst src maxn : Z) : M st bool :=
  match mm with Some p => on_user p (copy_string dst src maxn) | None => on_bytes (copy_string_kernel dst src maxn) end.

(** Return value and [*to]. *)
Definition copy_path (buffer : option Z) (from : Z) : M st (Z * option path) :=
  let! mm := current_mm in
  match buffer with
  | None => ret (- E_NO_MEM, None)
  | Some buffer =>
      let! ok := string_user mm buffer from (FS_MAX_FPATH_LEN + 1) in
      if negb ok then ret (- E_INVAL, None)
      else let! s := get in ret (0, Some (cstr (Z.to_nat (FS_MAX_FPATH_LEN + 1)) (fmem (fsys s)) buffer))
  end.

Definition sysfile_open (buffer : option Z) (__path open_flags : Z) : M st Z :=
  let! r := copy_path buffer __path in
  match snd r with None => ret (fst r) | Some path => on_files (file_open optab fsops path open_flags) end.

Definition sysfile_close (fd : Z) : M st Z := on_files (file_close optab fd).

(** [while (len != 0)] of [sysfile_read]; [ret] and [copied]. *)
Fixpoint read_loop (fuel : nat) (mm : option Z) (fd buffer base len copied : Z) : M st (Z * Z) :=
  if len =? 0 then ret (0, copied)
  else
    match fuel with
    | O => nofuel
    | S fuel =>
        let alen := if len <? IOBUF_SIZE then len else IOBUF_SIZE in
        let! o := on_files (file_read optab fd buffer alen) in
        let alen := snd o in
        let! n := (if negb (alen =? 0) then
                     let! ok := to_user mm base buffer alen in
                     if (ok : bool) then
                       do! assert_ (alen <=? len) in
                       ret (fst o, u32 (base + alen), len - alen, u32 (copied + alen))
                     else ret (if fst o =? 0 then - E_INVAL else fst o, base, len, copied)
                   else ret (fst o, base, len, copied)) in
        let '(r, base, len, copied) := n in
        if negb (r =? 0) || (alen =? 0) then ret (r, copied) else read_loop fuel mm fd buffer base len copied
    end.
(** One round per byte asked for is enough: a round that transfers nothing is the last. *)
Definition sysfile_read (buffer : option Z) (fd base len : Z) : M st Z :=
  let! mm := current_mm in
  if len =? 0 then ret 0
  else
    let! ok := on_files (file_testfd fd true false) in
    if negb ok then ret (- E_INVAL)
    else
      match buffer with
      | None => ret (- E_NO_MEM)
      | Some buffer =>
          let! o := read_loop (Z.to_nat len) mm fd buffer base len 0 in
          if negb (snd o =? 0) then ret (s32 (snd o)) else ret (fst o)
      end.

(** [while (len != 0)] of [sysfile_write]. *)
Fixpoint write_loop (fuel : nat) (mm : option Z) (fd buffer base len copied : Z) : M st (Z * Z) :=
  if len =? 0 then ret (0, copied)
  else
    match fuel with
    | O => nofuel
    | S fuel =>
        let alen := if len <? IOBUF_SIZE then len else IOBUF_SIZE in
        let! ok := from_user mm buffer base alen false in
        let! n := (if (ok : bool) then
                     let! o := on_files (file_write optab fd buffer alen) in
                     if negb (snd o =? 0) then
                       do! assert_ (snd o <=? len) in
                       ret (fst o, snd o, u32 (base + snd o), len - snd o, u32 (copied + snd o))
                     else ret (fst o, snd o, base, len, copied)
                   else ret (- E_INVAL, alen, base, len, copied)) in
        let '(r, alen, base, len, copied) := n in
        if negb (r =? 0) || (alen =? 0) then ret (r, copied) else write_loop fuel mm fd buffer base len copied
    end.
Definition sysfile_write (buffer : option Z) (fd base len : Z) : M st Z :=
  let! mm := current_mm in
  if len =? 0 then ret 0
  else
    let! ok := on_files (file_testfd fd false true) in
    if negb ok then ret (- E_INVAL)
    else
      match buffer with
      | None => ret (- E_NO_MEM)
      | Some buffer =>
          let! o := write_loop (Z.to_nat len) mm fd buffer base len 0 in
          if negb (snd o =? 0) then ret (s32 (snd o)) else ret (fst o)
      end.

Definition sysfile_seek (fd pos whence : Z) : M st Z := on_files (file_seek optab fd pos whence).

(** The words of a [struct stat], stored at [at_] on the kernel stack. *)
Definition sysfile_fstat (at_ fd __stat : Z) : M st Z :=
  let! mm := current_mm in
  let! r := on_files (file_fstat optab fd) in
  do! match snd r with
      | Some v => on_bytes (modify (poke at_ (put_words [st_mode v; st_nlinks v; st_blocks v; st_size v])))
      | None => ret tt
      end in
  if negb (fst r =? 0) then ret (fst r)
  else
    let! ok := to_user mm __stat at_ sizeof_stat in
    ret (if (ok : bool) then 0 else - E_INVAL).

Definition sysfile_fsync (fd : Z) : M st Z := on_files (file_fsync optab fd).

Definition sysfile_chdir (buffer : option Z) (__path : Z) : M st Z :=
  let! r := copy_path buffer __path in
  match snd r with None => ret (fst r) | Some path => on_files (vfs_chdir optab fsops path) end.

(** [vfs_link], [vfs_rename] and [vfs_unlink] of vfsfile.c are not implemented. *)
Definition vfs_link (old_path new_path : path) : M (fst_ X) Z := ret (- E_UNIMP).
Definition vfs_rename (old_path new_path : path) : M (fst_ X) Z := ret (- E_UNIMP).
Definition vfs_unlink (p : path) : M (fst_ X) Z := ret (- E_UNIMP).

Definition sysfile_link (b1 b2 : option Z) (__path1 __path2 : Z) : M st Z :=
  let! r := copy_path b1 __path1 in
  match snd r with
  | None => ret (fst r)
  | Some old_path =>
      let! r := copy_path b2 __path2 in
      match snd r with None => ret (fst r) | Some new_path => on_files (vfs_link old_path new_path) end
  end.
Definition sysfile_rename (b1 b2 : option Z) (__path1 __path2 : Z) : M st Z :=
  let! r := copy_path b1 __path1 in
  match snd r with
  | None => ret (fst r)
  | Some old_path =>
      let! r := copy_path b2 __path2 in
      match snd r with None => ret (fst r) | Some new_path => on_files (vfs_rename old_path new_path) end
  end.
Definition sysfile_unlink (buffer : option Z) (__path : Z) : M st Z :=
  let! r := copy_path buffer __path in
  match snd r with None => ret (fst r) | Some path => on_files (vfs_unlink path) end.

Definition sysfile_getcwd (name_at colon_at buf len : Z) : M st Z :=
  let! mm := current_mm in
  if len =? 0 then ret (- E_INVAL)
  else
    let! ok := mem_check mm buf len true in
    if (ok : bool) then let! r := on_files (vfs_getcwd optab (iobuf_init buf len 0) name_at colon_at) in ret (fst r)
    else ret (- E_INVAL).

(** [struct dirent]: the offset in the first four bytes, then the name. *)
Definition sysfile_getdirentry (buffer : option Z) (fd __direntp : Z) : M st Z :=
  let! mm := current_mm in
  match buffer with
  | None => ret (- E_NO_MEM)
  | Some direntp =>
      let! ok := from_user mm direntp __direntp 4 true in
      if negb ok then ret (- E_INVAL)
      else
        let! s := get in
        let! r := on_files (file_getdirentry optab fd (u32 (direntp + 4)) (s32 (get_le 4 (peek (fmem (fsys s)) direntp 4)))) in
        do! on_bytes (modify (poke direntp (put_le 4 (u32 (snd r))))) in
        if negb (fst r =? 0) then ret (fst r)
        else let! ok := to_user mm __direntp direntp sizeof_dirent in ret (if (ok : bool) then 0 else - E_INVAL)
  end.

Definition sysfile_dup (fd1 fd2 : Z) : M st Z := on_files (file_dup fd1 fd2).
Definition sysfile_pipe : M st Z := ret (- E_UNIMP).
Definition sysfile_mkfifo : M st Z := ret (- E_UNIMP).
End Sysfile.
