(* ===== verification/SysfileThm.v ===== *)
(** * System calls on files: theorems

    [read] and [write] move the bytes of an open file to and from the caller's memory
    through a kernel buffer.  What they need of an open file is stated as interfaces,
    [readable_as], [writable_as] and [seekable_as]: a file is a sequence of bytes.  SFS
    keeps them (SysfileSfs.v). *)

From stdpp Require Import base gmap list.
From Stdlib Require Import ZArith Lia Bool.
From S2P Require Import Prelude.
From S2P Require Import Pmm.
From S2P Require Import Vmm.
From S2P Require Import VmmThm.
From S2P Require Import KState.
From S2P Require Import Vfs.
From S2P Require Import Proc.
From S2P Require Import ExitThm.
From S2P Require Import Sfs.
From S2P Require Import SfsInv.
From S2P Require Import SfsIo.
From S2P Require Import Sysfile.

Definition bytes_in (a n : Z) (P : Z -> Prop) : Prop := forall x, a <= x < a + n -> P x.

Lemma runs_pair {S A B} (m : M S A) (t : A -> M S B) (s : S) Q :
  runs (let! o := m in let! b := t o in ret (o, b)) s Q -> runs m s (fun o s1 => runs (t o) s1 (fun b s2 => Q (o, b) s2)).
Proof. unfold runs, bind, ret. destruct (m s) as [[o s1]| | |]; [|done..]. destruct (t o s1) as [[b s2]| | |]; done. Qed.

(** [okb]: the bytes that the process may write (or read); for a kernel thread, those of
    kernel memory. *)
Definition may_access {X} (mm : option Z) (write : bool) (okb : Z -> Prop) (s : pst X) : Prop :=
  match mm with
  | Some p => exists m, mms s !! p = Some m /\ mm_wf m /\ forall x, okb x <-> byte_ok (mmap_list m) write x
  | None => forall x, okb x <-> KERNBASE <= x < KERNTOP
  end.

Lemma access_range X mm write okb (s : pst X) x : may_access mm write okb s -> okb x -> if mm is Some _ then USERBASE <= x < USERTOP else KERNBASE <= x < KERNTOP.
Proof.
  destruct mm as [p|]; cbn.
  - intros (m&_&(Ho&_)&Hb) Hx. apply Hb in Hx as (v&Hv&Hc&_). destruct (ordered_ok _ _ Ho Hv) as (?&?&_). unfold covers in *. lia.
  - intros H Hx. by apply H in Hx.
Qed.
Lemma access_fits X mm write okb (s : pst X) a n : may_access mm write okb s -> bytes_in a n okb -> 0 < n -> 0 < a /\ a + n < W32 /\ n < 2147483648.
Proof.
  intros Hm Hok Hn. pose proof (access_range _ _ _ _ _ a Hm (Hok a ltac:(lia))) as H1. pose proof (access_range _ _ _ _ _ (a + n - 1) Hm (Hok (a + n - 1) ltac:(lia))) as H2.
  unfold KERNTOP, KERNBASE, KMEMSIZE, USERBASE, USERTOP, W32 in *. destruct mm; cbn in *; lia.
Qed.

Section Copies.
Context {X : Type}.
Implicit Types (s : pst X) (okb : Z -> Prop).

(** Only caches of address spaces changed. *)
Definition same_mms (m m' : gmap Z mm_struct) : Prop := forall q, option_Forall2 (fun a b => a = b \/ same_areas a b) (m !! q) (m' !! q).
Lemma same_mms_refl m : same_mms m m.
Proof. intros q. destruct (m !! q); constructor. by left. Qed.
Lemma same_mms_insert m p a b : m !! p = Some a -> same_areas a b -> same_mms m (<[p := b]> m).
Proof.
  intros Ha Hs q. destruct (decide (p = q)) as [->|Hne]; [rewrite lookup_insert_eq, Ha; constructor; by right|].
  rewrite lookup_insert_ne by done. apply same_mms_refl.
Qed.
Lemma same_mms_trans m1 m2 m3 : same_mms m1 m2 -> same_mms m2 m3 -> same_mms m1 m3.
Proof.
  intros H1 H2 q. specialize (H1 q). specialize (H2 q). inversion H1 as [a b Hab E1 E2|E1 E2].
  - rewrite <-E2 in H2. inversion H2 as [b' c Hbc E3 E4|]. constructor. destruct Hab as [-> |Hab]; [done|]. destruct Hbc as [<- |Hbc]; [by right|].
    right. by eapply same_areas_trans.
  - rewrite <-E2 in H2. inversion H2. constructor.
Qed.

(** What a step of [read] or [write] leaves alone. *)
Definition calm s s' : Prop := ks s' = ks s /\ pfs s' = pfs s /\ ptf s' = ptf s /\ pctx s' = pctx s /\ same_mms (mms s) (mms s').
Lemma calm_refl s : calm s s.
Proof. do 4 (split; [done|]). apply same_mms_refl. Qed.
Lemma calm_trans s1 s2 s3 : calm s1 s2 -> calm s2 s3 -> calm s1 s3.
Proof. intros (?&?&?&?&?) (?&?&?&?&?). do 4 (split; [congruence|]). by eapply same_mms_trans. Qed.
Lemma calm_fsys s f : calm s (set_fsys f s).
Proof. do 4 (split; [done|]). apply same_mms_refl. Qed.

Lemma access_calm mm write okb s s' : calm s s' -> may_access mm write okb s -> may_access mm write okb s'.
Proof.
  intros (_&_&_&_&Hm). destruct mm as [p|]; [|done]. intros (m&Hp&Hwf&Hb). specialize (Hm p). rewrite Hp in Hm. inversion Hm as [a m' Hs|]. subst.
  cbn. exists m'. split; [done|]. destruct Hs as [<- |Hs]; [done|]. split; [apply Hs|]. destruct (same_areas_list _ _ Hs) as [-> _]. done.
Qed.

(** A check of at most [IOBUF_SIZE] bytes is exact, also when the address wraps. *)
Lemma check_exact m addr len write : mm_wf m -> is_u32 addr -> 0 < len <= IOBUF_SIZE ->
  runs (user_mem_check addr len write) m (fun b m' => same_areas m m' /\ (b = true <-> bytes_in addr len (byte_ok (mmap_list m) write))).
Proof.
  intros Hwf Ha Hl. eapply runs_mono; [by apply user_mem_check_runs|]. cbn beta. intros b m' [Hs Hb]. split; [done|]. rewrite Hb. unfold IOBUF_SIZE in Hl.
  assert (Hlow : forall x, byte_ok (mmap_list m) write x -> USERBASE <= x < USERTOP).
  { intros x (v&Hv&Hc&_). destruct Hwf as (Ho&_). destruct (ordered_ok _ _ Ho Hv) as (?&?&_). unfold covers in Hc. lia. }
  unfold USER_ACCESS. rewrite !andb_true_iff, !Z.leb_le, Z.ltb_lt. unfold is_u32 in Ha. unfold USERBASE, USERTOP, W32 in *. split.
  - intros (Hu&Hall) x Hx. destruct (decide (addr + len < 4294967296)).
    + rewrite u32_small in * by (unfold is_u32, W32; lia). by apply Hall.
    + assert (u32 (addr + len) = addr + len - 4294967296) by (unfold u32, W32; mlia). lia.
  - intros Hall. pose proof (Hlow _ (Hall addr ltac:(lia))). pose proof (Hlow _ (Hall (addr + len - 1) ltac:(lia))).
    rewrite u32_small by (unfold is_u32, W32; lia). split; [lia|]. intros x Hx. apply Hall. lia.
Qed.

Lemma kernel_exact addr len : is_u32 addr -> 0 < len <= IOBUF_SIZE -> user_mem_check_kernel addr len = true <-> bytes_in addr len (fun x => KERNBASE <= x < KERNTOP).
Proof.
  intros Ha Hl. unfold user_mem_check_kernel, KERN_ACCESS, bytes_in. rewrite !andb_true_iff, !Z.leb_le, Z.ltb_lt. unfold is_u32, IOBUF_SIZE in *.
  split.
  - intros Hu x Hx. destruct (decide (addr + len < 4294967296)).
    + rewrite u32_small in * by (unfold is_u32, W32; lia). lia.
    + assert (u32 (addr + len) = addr + len - 4294967296) by (unfold u32, W32 in *; mlia). unfold KERNBASE in *. lia.
  - intros Hall. cbn beta in Hall. pose proof (Hall addr ltac:(lia)). pose proof (Hall (addr + len - 1) ltac:(lia)). unfold KERNTOP, KERNBASE, KMEMSIZE in *. rewrite u32_small by (unfold is_u32, W32; lia). lia.
Qed.

Definition with_mem (m : bytes) s : pst X := set_fsys (set_fmem m (fsys s)) s.

(** The two copies, in one: [chk] is the side that is checked. *)
Definition copied_if okb (chk n dst src : Z) s (b : bool) s' : Prop :=
  calm s s' /\ fsys s' = set_fmem (if b then bcopy dst src n (fmem (fsys s)) else fmem (fsys s)) (fsys s) /\ (b = true <-> bytes_in chk n okb).

Lemma set_fmem_id (f : fst_ X) : set_fmem (fmem f) f = f.
Proof. by destruct f. Qed.

Lemma on_user_runs p m s (op : M (mm_struct * bytes) bool) (mem : bool -> bytes) (C : bool -> Prop) :
  mms s !! p = Some m -> runs op (m, fmem (fsys s)) (fun b t' => same_areas m (fst t') /\ snd t' = mem b /\ C b) ->
  runs (on_user p op) s (fun b s' => calm s s' /\ fsys s' = set_fmem (mem b) (fsys s) /\ C b).
Proof.
  intros Hp H. unfold on_user, rd_mm. runs_steps. eapply runs_deref; [exact Hp|]. runs_steps. apply runs_ok in H as (b&[m' b']&->&Hs&Hb&HC).
  cbn [fst snd] in *. unfold wr_mm, on_bytes, on_fsys, on_mem. runs_steps. cbn [fsys set_mms]. split; [|split; [by rewrite Hb|done]].
  do 4 (split; [done|]). cbn. by eapply same_mms_insert.
Qed.

Lemma copy_kernel_runs okb s chk dst src n : may_access None true okb s -> is_u32 chk -> 0 < n <= IOBUF_SIZE ->
  runs (on_bytes (copy_kernel chk dst src n)) s (copied_if okb chk n dst src s).
Proof.
  intros Hm Hd Hn. unfold on_bytes, on_fsys, on_mem, copy_kernel. runs_steps. assert (Hk : user_mem_check_kernel chk n = true <-> bytes_in chk n okb).
  { rewrite kernel_exact by done. split; intros H x Hx; by apply Hm, H. }
  destruct (user_mem_check_kernel chk n); runs_steps; cbn [fsys set_fsys]; (split; [apply calm_fsys|]); rewrite ?set_fmem_id; done.
Qed.

Lemma check_okb m okb addr len write : mm_wf m -> (forall x, okb x <-> byte_ok (mmap_list m) write x) -> is_u32 addr -> 0 < len <= IOBUF_SIZE ->
  runs (user_mem_check addr len write) m (fun b m' => same_areas m m' /\ (b = true <-> bytes_in addr len okb)).
Proof.
  intros Hwf Hb Ha Hl. runs_by (check_exact m addr len write); [done|done|done|]. intros b m' [Hs Hbb]. split; [done|]. rewrite Hbb.
  split; intros H x Hx; by apply Hb, H.
Qed.

Lemma to_user_runs mm okb s dst src n : may_access mm true okb s -> is_u32 dst -> 0 < n <= IOBUF_SIZE -> runs (to_user mm dst src n) s (copied_if okb dst n dst src s).
Proof.
  intros Hm Hd Hn. destruct mm as [p|]; cbn [to_user]; [|by apply copy_kernel_runs]. destruct Hm as (m&Hp&Hwf&Hb).
  apply (on_user_runs p m s _ (fun b => if b then bcopy dst src n (fmem (fsys s)) else fmem (fsys s)) (fun b => b = true <-> bytes_in dst n okb) Hp).
  unfold copy_to_user, on_mm. runs_steps. runs_by (check_okb m okb dst n true); [done|done|done|done|]. intros b m' [Hs Hbb]. destruct b; cbn [negb]; runs_steps; done.
Qed.

Lemma from_user_runs mm okb s dst src n : may_access mm false okb s -> is_u32 src -> 0 < n <= IOBUF_SIZE -> runs (from_user mm dst src n false) s (copied_if okb src n dst src s).
Proof.
  intros Hm Hd Hn. destruct mm as [p|]; cbn [from_user]; [|by apply copy_kernel_runs]. destruct Hm as (m&Hp&Hwf&Hb).
  apply (on_user_runs p m s _ (fun b => if b then bcopy dst src n (fmem (fsys s)) else fmem (fsys s)) (fun b => b = true <-> bytes_in src n okb) Hp).
  unfold copy_from_user, on_mm. runs_steps. runs_by (check_okb m okb src n false); [done|done|done|done|]. intros b m' [Hs Hbb]. destruct b; cbn [negb]; runs_steps; done.
Qed.
End Copies.

(** ** Files as sequences of bytes *)

Section Interface.
Context {X : Type} (optab : Z -> @inode_ops X).
Implicit Types (f : fst_ X) (l : list Z).

(** A kernel buffer that the file system does not use itself. *)
Definition kbuf (scr : Z -> Prop) (buf n : Z) : Prop := 0 <= buf /\ buf + n < W32 /\ forall x, range buf n x -> ~ scr x.

(** The caller's bytes are in neither of the two. *)
Definition apart (scr okb : Z -> Prop) (buf base len : Z) : Prop := forall x, range base len x -> okb x -> ~ range buf IOBUF_SIZE x /\ ~ scr x.
Lemma apart_sub scr okb buf base len a n : base <= a -> a + n <= base + len -> apart scr okb buf base len -> apart scr okb buf a n.
Proof. intros Ha Hn H x Hx. apply H. unfold range in *. lia. Qed.

(** [R l]: the bytes of descriptor [fd] still to be read are [l].  [scr]: the memory
    the file system uses; [R] depends on no other memory. *)
Record readable_as (fd : Z) (scr : Z -> Prop) (R : list Z -> fst_ X -> Prop) : Prop := {
  ra_test : forall l f, R l f -> runs (file_testfd fd true false) f (fun b f' => b = true /\ f' = f);
  ra_read : forall l f buf n, R l f -> 0 < n <= IOBUF_SIZE -> kbuf scr buf n ->
    runs (file_read optab fd buf n) f (fun o f' => fst o = 0 /\ snd o = Z.min n (Z.of_nat (length l)) /\ R (drop (Z.to_nat (snd o)) l) f' /\
      peek (fmem f') buf (snd o) = take (Z.to_nat n) l /\ (forall x, ~ range buf n x -> ~ scr x -> fmem f' x = fmem f x) /\ curfs f' = curfs f);
  ra_mem : forall l f m, R l f -> (forall x, scr x -> m x = fmem f x) -> R l (set_fmem m f)
}.

(** The position can be set: the whole file is [L]. *)
Definition seekable_as (fd : Z) (L : list Z) (R : list Z -> fst_ X -> Prop) : Prop :=
  forall l f p, R l f -> 0 <= p <= Z.of_nat (length L) ->
    runs (file_seek optab fd p LSEEK_SET) f (fun r f' => r = 0 /\ R (drop (Z.to_nat p) L) f' /\ fmem f' = fmem f /\ curfs f' = curfs f).

(** [W l]: [l] is what the file has before the position of descriptor [fd], where the
    next bytes go; at most [cap] bytes fit.  [full]: why a write may stop short. *)
Record writable_as (fd cap : Z) (scr : Z -> Prop) (full : fst_ X -> Prop) (W : list Z -> fst_ X -> Prop) : Prop := {
  wa_test : forall l f, W l f -> runs (file_testfd fd false true) f (fun b f' => b = true /\ f' = f);
  wa_write : forall l f buf n, W l f -> 0 < n <= IOBUF_SIZE -> Z.of_nat (length l) + n <= cap -> kbuf scr buf n ->
    runs (file_write optab fd buf n) f (fun o f' => 0 <= snd o <= n /\ (fst o = 0 /\ snd o = n \/ fst o < 0 /\ full f') /\ W (l ++ peek (fmem f) buf (snd o)) f' /\
      (forall x, ~ scr x -> fmem f' x = fmem f x) /\ curfs f' = curfs f);
  wa_mem : forall l f m, W l f -> (forall x, scr x -> m x = fmem f x) -> W l (set_fmem m f)
}.
End Interface.

(** ** read *)

Section Read.
Context {X : Type} (optab : Z -> @inode_ops X) (fd : Z) (scr : Z -> Prop) (R : list Z -> fst_ X -> Prop) (HR : readable_as optab fd scr R).
Implicit Types (s : pst X) (l : list Z).

(** The view of [current->fs_struct] is up to date. *)
Definition synced s : Prop := curfs (fsys s) = pfs s !! current (ks s).
Definition sync s : pst X := set_fsys (set_curfs (pfs s !! current (ks s)) (fsys s)) s.

Lemma sync_id s : synced s -> sync s = s.
Proof. intros H. unfold sync. rewrite <-H. by destruct s as [? ? [] ? ? ? ? ?]. Qed.
Lemma on_files_runs {A} (m : M (fst_ X) A) s Q : runs m (fsys (sync s)) (fun a f' => Q a (set_fsys f' (sync s))) -> runs (on_files m) s Q.
Proof. intros H. unfold on_files, on_fsys. runs_steps. exact H. Qed.
Lemma current_mm_runs s g Q : procs (ks s) !! current (ks s) = Some g -> Q (p_mm g) s -> runs (current_mm (X := X)) s Q.
Proof. intros Hg HQ. unfold current_mm. runs_steps. apply on_k_runs. eapply rd_proc_runs; [exact Hg|]. runs_steps. replace (set_ks (ks s) s) with s by (by destruct s). done. Qed.

Variables (mm : option Z) (okb : Z -> Prop) (buf : Z).
(** The kernel's buffer is not the file system's. *)
Hypothesis Hbuf : kbuf scr buf IOBUF_SIZE.

(** [k] bytes of [l] have been delivered at [base]; all that was asked for and there is,
    or less because a part of the caller's buffer is not writable. *)
Definition delivered s l base len (k e : Z) s' : Prop :=
  calm s s' /\ synced s' /\ 0 <= k <= Z.min len (Z.of_nat (length l)) /\ peek (fmem (fsys s')) base k = take (Z.to_nat k) l /\ bytes_in base k okb /\
  (forall x, ~ range base k x -> ~ range buf IOBUF_SIZE x -> ~ scr x -> fmem (fsys s') x = fmem (fsys s) x) /\
  ((k = Z.min len (Z.of_nat (length l)) /\ e = 0 /\ R (drop (Z.to_nat k) l) (fsys s')) \/
   (k < Z.min len (Z.of_nat (length l)) /\ e = - E_INVAL /\ ~ bytes_in base len okb)).

Lemma kbuf_le n : 0 < n <= IOBUF_SIZE -> kbuf scr buf n.
Proof. destruct Hbuf as (?&?&Hs). intros Hn. split; [done|]. split; [lia|]. intros x Hx. apply Hs. unfold range in *. lia. Qed.

Lemma peek_bcopy m dst src n : 0 <= n -> peek (bcopy dst src n m) dst n = peek m src n.
Proof. intros Hn. unfold peek. apply fmap_seqZ_ext. intros i Hi. rewrite !Z.add_0_l. by apply bcopy_in. Qed.

Lemma peek_split m a n k : 0 <= k <= n -> peek m a n = peek m a k ++ peek m (a + k) (n - k).
Proof.
  intros Hk. unfold peek. rewrite (seqZ_split _ 0 n k) by done. f_equal. apply fmap_seqZ_ext. intros i Hi. f_equal. lia.
Qed.

Lemma read_round s l base n : R l (fsys s) -> synced s -> may_access mm true okb s -> is_u32 base -> 0 < n <= IOBUF_SIZE -> apart scr okb buf base n -> l <> [] ->
  runs (let! o := on_files (file_read optab fd buf n) in let! b := to_user mm base buf (snd o) in ret (o, b)) s (fun ob s' =>
    let a := Z.min n (Z.of_nat (length l)) in
    fst ob = (0, a) /\ calm s s' /\ synced s' /\ R (drop (Z.to_nat a) l) (fsys s') /\ (snd ob = true <-> bytes_in base a okb) /\
    (snd ob = true -> peek (fmem (fsys s')) base a = take (Z.to_nat a) l /\
       forall x, ~ range base a x -> ~ range buf IOBUF_SIZE x -> ~ scr x -> fmem (fsys s') x = fmem (fsys s) x) /\
    (snd ob = false -> forall x, ~ range buf IOBUF_SIZE x -> ~ scr x -> fmem (fsys s') x = fmem (fsys s) x)).
Proof.
  intros HRl Hsy Hacc Hb Hn Hsep Hl. runs_steps. apply on_files_runs. rewrite sync_id by done.
  runs_by (ra_read _ _ _ _ HR l (fsys s) buf n); [done|done|by apply kbuf_le|]. intros [e a] f1 (He&Ha&HR1&Hpk&Hm1&Hc1). cbn [fst snd] in *. subst e.
  assert (0 < Z.of_nat (length l)) by (destruct l; [done|cbn; lia]). rewrite <-Ha in *. set (s1 := set_fsys f1 s). assert (Ha' : 0 < a <= IOBUF_SIZE) by lia.
  assert (Hin : forall x, range buf a x -> range buf IOBUF_SIZE x) by (unfold range; lia). assert (Hin' : forall x, range buf n x -> range buf IOBUF_SIZE x) by (unfold range; lia).
  runs_steps. runs_by (to_user_runs mm okb s1 base buf a); [by eapply access_calm; [apply calm_fsys|]|done|done|]. intros b s2 (Hcalm&Hf2&Hbb). runs_steps. cbn [fst snd].
  split; [done|]. split; [by eapply calm_trans; [apply calm_fsys|]|]. assert (Hk2 : synced s2).
  { unfold synced. destruct Hcalm as (Hk&Hp&_). rewrite Hf2, Hk, Hp. cbn. by rewrite Hc1. }
  split; [done|]. cbn [fsys s1 set_fsys] in Hf2. split.
  { rewrite Hf2. apply (ra_mem _ _ _ _ HR); [done|]. intros x Hx. destruct b; [|done]. apply bcopy_out.
    destruct (decide (base <= x < base + a)) as [Hi|]; [|lia]. destruct (Hsep x); [unfold range; lia|by apply Hbb|done]. }
  split; [done|]. split.
  - intros ->. rewrite Hf2. cbn [fmem set_fmem]. split.
    + rewrite peek_bcopy, Hpk by lia. destruct (decide (n <= Z.of_nat (length l))); [by replace a with n by lia|]. rewrite !take_ge by lia. done.
    + intros x Hx Hxb Hxs. rewrite bcopy_out by (unfold range in Hx; lia). apply Hm1; auto.
  - intros ->. rewrite Hf2. cbn [fmem set_fmem]. intros x Hxb Hxs. apply Hm1; auto.
Qed.

Lemma delivered_nothing s l base e len : synced s -> 0 <= len -> R l (fsys s) -> (len = 0 \/ l = []) -> e = 0 -> delivered s l base len 0 e s.
Proof.
  intros Hsy Hl HRl He ->. split; [apply calm_refl|]. split; [done|]. split; [lia|]. split; [done|]. split; [intros x; lia|]. split; [done|]. left.
  split; [|done]. destruct He as [-> | ->]; cbn; lia.
Qed.

Lemma delivered_more s s1 s2 l base len a k e : apart scr okb buf base len -> calm s s1 -> may_access mm true okb s -> 0 < a <= Z.min len (Z.of_nat (length l)) -> bytes_in base a okb ->
  peek (fmem (fsys s1)) base a = take (Z.to_nat a) l ->
  (forall x, ~ range base a x -> ~ range buf IOBUF_SIZE x -> ~ scr x -> fmem (fsys s1) x = fmem (fsys s) x) ->
  delivered s1 (drop (Z.to_nat a) l) (base + a) (len - a) k e s2 -> delivered s l base len (a + k) e s2.
Proof.
  intros Hsep Hc Hacc Ha Hok Hpk Hm (Hc2&Hsy&Hk&Hpk2&Hok2&Hm2&Hres). rewrite length_drop in Hk, Hres. split; [by eapply calm_trans|]. split; [done|]. split; [lia|]. split.
  { rewrite (peek_split _ base (a + k) a) by lia. replace (a + k - a) with k by lia. rewrite Hpk2.
    rewrite (peek_ext (fmem (fsys s1)) (fmem (fsys s2))), Hpk.
    - rewrite Z2Nat.inj_add by lia. by rewrite take_take_drop.
    - intros i Hi. apply Hm2; [unfold range; lia|apply Hsep; [unfold range; lia|apply Hok; lia]..]. }
  split. { intros x Hx. destruct (decide (x < base + a)); [apply Hok|apply Hok2]; lia. }
  split. { intros x H1 H2 H3. rewrite Hm2, Hm; [done|unfold range in *; lia|done|done|unfold range in *; lia|done|done]. }
  destruct Hres as [(->&->&HR2)|(Hlt&->&Hn)]; [left|right].
  - split; [lia|]. split; [done|]. rewrite drop_drop in HR2. by rewrite Z2Nat.inj_add by lia.
  - split; [lia|]. split; [done|]. intros Hall. apply Hn. intros x Hx. apply Hall. lia.
Qed.

Lemma read_loop_runs fuel : forall s l base len copied, R l (fsys s) -> synced s -> may_access mm true okb s -> is_u32 base -> 0 <= len <= Z.of_nat fuel -> apart scr okb buf base len ->
  0 <= copied -> copied + len < W32 -> runs (read_loop optab fuel mm fd buf base len copied) s (fun o s' => exists k, snd o = copied + k /\ delivered s l base len k (fst o) s').
Proof.
  induction fuel as [|fuel IH]; intros s l base len copied HRl Hsy Hacc Hb Hl Hsep Hc Hcl; cbn [read_loop].
  { rewrite (proj2 (Z.eqb_eq len 0)) by lia. runs_steps. exists 0. split; [cbn; lia|]. apply delivered_nothing; auto; lia. }
  destruct (Z.eqb_spec len 0) as [->|Hlen]. { runs_steps. exists 0. split; [cbn; lia|]. apply delivered_nothing; auto; lia. }
  set (n := if len <? IOBUF_SIZE then len else IOBUF_SIZE). assert (Hn : n = Z.min len IOBUF_SIZE) by (unfold n; destruct (Z.ltb_spec len IOBUF_SIZE); lia).
  assert (Hn' : 0 < n <= IOBUF_SIZE) by (unfold IOBUF_SIZE in *; lia). runs_steps. destruct (decide (l = [])) as [->|Hne].
  - apply on_files_runs. rewrite sync_id by done. runs_by (ra_read _ _ _ _ HR [] (fsys s) buf n); [done|done|by apply kbuf_le|].
    intros [e a] f1 (He&Ha&HR1&_&Hm1&Hc1). cbn [fst snd length] in *. assert (a = 0) as -> by lia. subst e. cbn [Z.eqb negb]. runs_steps. cbn [orb negb Z.eqb]. runs_steps.
    exists 0. split; [cbn; lia|]. split; [apply calm_fsys|]. split; [unfold synced; cbn; by rewrite Hc1|]. split; [cbn; lia|]. split; [done|]. split; [intros x; lia|]. split.
    + intros x _ Hx Hs. apply Hm1; [|done]. intros Hr. apply Hx. unfold range in *. lia.
    + left. split; [cbn; lia|]. split; [done|]. rewrite drop_nil in HR1. by rewrite drop_nil.
  - eapply runs_mono; [eapply runs_pair, (read_round s l base n); try done; eapply apart_sub; [| |exact Hsep]; lia|]. cbn beta. intros o s1 H1. set (a := Z.min n (Z.of_nat (length l))) in *.
    assert (Hlp : 0 < Z.of_nat (length l)) by (destruct l; [done|cbn; lia]). assert (Ha : 0 < a <= Z.min len (Z.of_nat (length l))) by lia.
    assert (Hna : snd o <> 0). { apply runs_ok in H1 as (b&s2&_&Ho&_). cbn [fst] in Ho. rewrite Ho. cbn [snd]. lia. }
    rewrite (proj2 (Z.eqb_neq (snd o) 0)) by done. cbn [negb]. runs_steps. eapply runs_mono; [exact H1|]. cbn beta. cbn [fst snd].
    intros b s2 (->&Hcalm&Hsy2&HR2&Hbb&Ht&Hf). cbn [fst snd] in *. rewrite Z.eqb_refl. destruct b.
    + destruct (Ht eq_refl) as [Hpk Hm]. apply proj1 in Hbb. specialize (Hbb eq_refl). runs_steps. apply runs_assert; [apply Z.leb_le; lia|]. runs_steps. cbn [negb orb Z.eqb].
      destruct (access_fits _ _ _ _ _ base a Hacc Hbb ltac:(lia)) as (Hlo&Hhi&_).
      rewrite (u32_small (base + a)) by (unfold is_u32; lia). rewrite (u32_small (copied + a)) by (unfold is_u32; lia).
      runs_by (IH s2 (drop (Z.to_nat a) l) (base + a) (len - a) (copied + a)); [done|done|by eapply access_calm|unfold is_u32; lia|lia|by eapply apart_sub; [..|exact Hsep]; lia|lia|lia|].
      intros o s3 (k&Hk&Hd). exists (a + k). split; [lia|]. by eapply delivered_more.
    + runs_steps. change (- E_INVAL =? 0) with false. cbn [negb Z.eqb orb]. runs_steps. cbn [fst snd]. exists 0. split; [lia|]. split; [done|]. split; [done|]. split; [lia|]. split; [done|]. split; [intros x; lia|].
      split; [intros x _; by apply Hf|]. right. split; [lia|]. split; [done|]. intros Hall. assert (false = true) by (apply Hbb; intros x Hx; apply Hall; lia). done.
Qed.

Lemma sysfile_read_runs s g l base len :
  procs (ks s) !! current (ks s) = Some g -> p_mm g = mm -> may_access mm true okb s -> R l (fsys (sync s)) -> is_u32 base -> 0 < len < W32 -> apart scr okb buf base len ->
  runs (sysfile_read optab (Some buf) fd base len) s (fun r s' => exists k e, delivered (sync s) l base len k e s' /\ r = if decide (k = 0) then e else k).
Proof.
  intros Hg Hmm Hacc HRl Hb Hl Hsep. unfold sysfile_read. runs_steps. eapply current_mm_runs; [exact Hg|]. rewrite Hmm, (proj2 (Z.eqb_neq len 0)) by lia. runs_steps.
  apply on_files_runs. runs_by (ra_test _ _ _ _ HR l); [done|]. intros b f' [-> ->]. cbn [negb]. runs_steps.
  replace (set_fsys (fsys (sync s)) (sync s)) with (sync s) by done. assert (Hsy : synced (sync s)) by done.
  assert (Hacc' : may_access mm true okb (sync s)) by (eapply access_calm; [apply calm_fsys|exact Hacc]).
  runs_by (read_loop_runs (Z.to_nat len) (sync s) l base len 0); [done|done|done|done|lia|done|lia|lia|]. intros [e c] s' (k&Hk&Hd). cbn [fst snd] in *. rewrite Z.add_0_l in Hk. subst c.
  destruct (Z.eqb_spec k 0) as [->|Hk]; cbn [negb]; runs_steps; exists k || exists 0; exists e; (split; [done|]); [by rewrite decide_True|rewrite decide_False by done].
  destruct Hd as (_&_&Hr&_&Hok&_). destruct (access_fits _ _ _ _ _ base k Hacc Hok ltac:(lia)) as (_&_&?). apply s32_small. lia.
Qed.

(** [read] of [len] bytes delivers at [base] the next bytes of the file, all that
    were asked for as far as the file has them, and moves the position behind them; it
    returns their number.  If a part of the caller's buffer may not be written, it
    delivers fewer, or [-E_INVAL] when none.  In any case the caller's memory is
    changed only at the bytes delivered, which the process may write, and no other
    memory but the kernel buffer and the file system's own. *)
Theorem sysfile_read_correct s g l base len :
  procs (ks s) !! current (ks s) = Some g -> p_mm g = mm -> may_access mm true okb s -> R l (fsys (sync s)) -> is_u32 base -> 0 < len < W32 -> apart scr okb buf base len ->
  runs (sysfile_read optab (Some buf) fd base len) s (fun r s' => exists k e, delivered (sync s) l base len k e s' /\ r = if decide (k = 0) then e else k).
Proof. apply sysfile_read_runs. Qed.
End Read.

(** ** write *)

Section Write.
Context {X : Type} (optab : Z -> @inode_ops X) (fd cap : Z) (scr : Z -> Prop) (full : fst_ X -> Prop) (W : list Z -> fst_ X -> Prop).
Context (HW : writable_as optab fd cap scr full W).
Variables (mm : option Z) (okb : Z -> Prop) (buf : Z).
Hypothesis Hbuf : kbuf scr buf IOBUF_SIZE.
Implicit Types (s : pst X) (l : list Z).

(** [k] bytes at [base] have been written behind [l]: all of them, or fewer because the
    file system is full or a part of the caller's buffer is not readable. *)
Definition accepted s l base len (k e : Z) s' : Prop :=
  calm s s' /\ synced s' /\ 0 <= k <= len /\ W (l ++ peek (fmem (fsys s)) base k) (fsys s') /\ bytes_in base k okb /\
  (forall x, ~ range buf IOBUF_SIZE x -> ~ scr x -> fmem (fsys s') x = fmem (fsys s) x) /\
  ((k = len /\ e = 0) \/ (e < 0 /\ full (fsys s')) \/ (e = - E_INVAL /\ ~ bytes_in base len okb)).

Lemma accepted_nothing s l base : synced s -> W l (fsys s) -> accepted s l base 0 0 0 s.
Proof.
  intros Hsy HWl. split; [apply calm_refl|]. split; [done|]. split; [lia|]. split; [by rewrite app_nil_r|]. split; [intros x; lia|]. split; [done|]. by left.
Qed.

Lemma accepted_more s s2 s' l base len a k e : apart scr okb buf base len -> calm s s2 -> 0 <= a <= len -> bytes_in base a okb ->
  (forall x, ~ range buf IOBUF_SIZE x -> ~ scr x -> fmem (fsys s2) x = fmem (fsys s) x) ->
  accepted s2 (l ++ peek (fmem (fsys s)) base a) (base + a) (len - a) k e s' -> accepted s l base len (a + k) e s'.
Proof.
  intros Hsep Hc Ha Hok Hm (Hc2&Hsy&Hk&HW2&Hok2&Hm2&Hres). split; [by eapply calm_trans|]. split; [done|]. split; [lia|]. split.
  { rewrite (peek_split _ base (a + k) a) by lia. replace (a + k - a) with k by lia.
    rewrite (peek_ext (fmem (fsys s)) (fmem (fsys s2))) in HW2; [by rewrite <-app_assoc in HW2|]. intros i Hi. apply Hm; (apply Hsep; [unfold range; lia|apply Hok2; lia]). }
  split. { intros x Hx. destruct (decide (x < base + a)); [apply Hok|apply Hok2]; lia. }
  split. { intros x H1 H2. by rewrite Hm2, Hm. }
  destruct Hres as [[-> ->]|[Hf|[-> Hn]]]; [left; lia|right; by left|right; right]. split; [done|]. intros Hall. apply Hn. intros x Hx. apply Hall. lia.
Qed.

(** One round in which the caller's bytes can be read. *)
Lemma write_round s s1 l base n : W l (fsys s) -> synced s -> 0 < n <= IOBUF_SIZE -> Z.of_nat (length l) + n <= cap -> copied_if okb base n buf base s true s1 ->
  runs (on_files (file_write optab fd buf n)) s1 (fun o s2 => 0 <= snd o <= n /\ (fst o = 0 /\ snd o = n \/ fst o < 0 /\ full (fsys s2)) /\
    calm s s2 /\ synced s2 /\ W (l ++ peek (fmem (fsys s)) base (snd o)) (fsys s2) /\
    (forall x, ~ range buf IOBUF_SIZE x -> ~ scr x -> fmem (fsys s2) x = fmem (fsys s) x)).
Proof.
  intros HWl Hsy Hn Hcap (Hcalm&Hf1&_). assert (Hsy1 : synced s1) by (unfold synced; destruct Hcalm as (Hk&Hp&_); by rewrite Hf1, Hk, Hp).
  destruct Hbuf as (Hb0&Hb1&Hbs). assert (HW1 : W l (fsys s1)).
  { rewrite Hf1. apply (wa_mem _ _ _ _ _ _ HW); [done|]. intros x Hx. apply bcopy_out. destruct (decide (buf <= x < buf + n)); [|lia]. destruct (Hbs x); [unfold range; lia|done]. }
  apply on_files_runs. rewrite sync_id by done. runs_by (wa_write _ _ _ _ _ _ HW l (fsys s1) buf n); [done|done|done|split; [done|split; [lia|intros x Hx; apply Hbs; unfold range in *; lia]]|].
  intros [e a] f2 (Ha&Hres&HW2&Hm2&Hc2). cbn [fst snd] in *. split; [done|]. split; [done|]. split; [by eapply calm_trans; [|apply calm_fsys]|].
  split; [unfold synced; cbn; by rewrite Hc2|]. cbn [fsys set_fsys]. split.
  - replace (peek (fmem (fsys s)) base a) with (peek (fmem (fsys s1)) buf a); [done|]. rewrite Hf1. cbn [fmem set_fmem]. unfold peek. apply fmap_seqZ_ext.
    intros i Hi. rewrite !Z.add_0_l. apply bcopy_in. lia.
  - intros x Hx Hs. rewrite Hm2 by done. rewrite Hf1. cbn [fmem set_fmem]. apply bcopy_out. destruct (decide (buf <= x < buf + n)); [|lia]. destruct Hx. unfold range. lia.
Qed.

Lemma write_loop_runs fuel : forall s l base len copied, W l (fsys s) -> synced s -> may_access mm false okb s -> is_u32 base -> 0 <= len <= Z.of_nat fuel -> apart scr okb buf base len ->
  0 <= copied -> copied + len < W32 -> Z.of_nat (length l) + len <= cap ->
  runs (write_loop optab fuel mm fd buf base len copied) s (fun o s' => exists k, snd o = copied + k /\ accepted s l base len k (fst o) s').
Proof.
  induction fuel as [|fuel IH]; intros s l base len copied HWl Hsy Hacc Hb Hl Hsep Hc Hcl Hcap; cbn [write_loop].
  { assert (len = 0) as -> by lia. cbn [Z.eqb]. runs_steps. exists 0. split; [cbn; lia|]. by apply accepted_nothing. }
  destruct (Z.eqb_spec len 0) as [->|Hlen]. { runs_steps. exists 0. split; [cbn; lia|]. by apply accepted_nothing. }
  set (n := if len <? IOBUF_SIZE then len else IOBUF_SIZE). assert (Hn : n = Z.min len IOBUF_SIZE) by (unfold n; destruct (Z.ltb_spec len IOBUF_SIZE); lia).
  assert (Hn' : 0 < n <= IOBUF_SIZE) by (unfold IOBUF_SIZE in *; lia). runs_steps. runs_by (from_user_runs mm okb s buf base n); [done|done|done|]. intros b s1 Hc1. destruct b.
  - pose proof Hc1 as (_&_&Hok). apply proj1 in Hok. specialize (Hok eq_refl). destruct (access_fits _ _ _ _ _ base n Hacc Hok ltac:(lia)) as (Hlo&Hhi&_).
    runs_steps. runs_by (write_round s s1 l base n); [done|done|done|lia|done|]. intros [e a] s2 (Ha&Hres&Hcalm&Hsy2&HW2&Hm2). cbn [fst snd] in *.
    assert (Hoka : bytes_in base a okb) by (intros x Hx; apply Hok; lia). assert (Hfin : e <> 0 -> accepted s l base len a e s2).
    { intros He. destruct Hres as [[? _]|Hf]; [done|]. split; [done|]. split; [done|]. split; [lia|]. split; [done|]. split; [done|]. split; [done|]. right. by left. }
    destruct (Z.eqb_spec a 0) as [->|Ha0]; cbn [negb].
    + runs_steps. rewrite orb_true_r. runs_steps. exists 0. split; [cbn; lia|]. cbn [fst]. apply Hfin. lia.
    + runs_steps. apply runs_assert; [apply Z.leb_le; lia|]. runs_steps. rewrite (proj2 (Z.eqb_neq a 0)), orb_false_r by done. rewrite (u32_small (copied + a)) by (unfold is_u32; lia).
      destruct (Z.eqb_spec e 0) as [->|He]; cbn [negb]; [|runs_steps; exists a; split; [done|by apply Hfin]]. rewrite (u32_small (base + a)) by (unfold is_u32; lia).
      runs_by (IH s2 (l ++ peek (fmem (fsys s)) base a) (base + a) (len - a) (copied + a)); [done|done|by eapply access_calm|unfold is_u32; lia|lia|by eapply apart_sub; [..|exact Hsep]; lia|lia|lia| |].
      { rewrite length_app, peek_length. lia. }
      intros o s3 (k&Hk&Hd). exists (a + k). split; [lia|]. by eapply accepted_more; [exact Hsep|..|lia| | |exact Hd].
  - destruct Hc1 as (Hcalm&Hf1&Hok). runs_steps. change (- E_INVAL =? 0) with false. cbn [negb orb]. runs_steps. exists 0. split; [cbn; lia|]. rewrite set_fmem_id in Hf1.
    assert (Hsy1 : synced s1) by (unfold synced; pose proof Hcalm as (Hk&Hp&_); by rewrite Hf1, Hk, Hp).
    split; [done|]. split; [done|]. split; [lia|]. cbn [peek]. rewrite app_nil_r, Hf1. split; [done|]. split; [intros x; lia|]. split; [done|]. right. right. split; [done|].
    intros Hall. assert (false = true) by (apply Hok; intros x Hx; apply Hall; lia). done.
Qed.

Lemma sysfile_write_runs s g l base len :
  procs (ks s) !! current (ks s) = Some g -> p_mm g = mm -> may_access mm false okb s -> W l (fsys (sync s)) -> is_u32 base -> 0 < len < W32 -> apart scr okb buf base len ->
  Z.of_nat (length l) + len <= cap ->
  runs (sysfile_write optab (Some buf) fd base len) s (fun r s' => exists k e, accepted (sync s) l base len k e s' /\ r = if decide (k = 0) then e else k).
Proof.
  intros Hg Hmm Hacc HWl Hb Hl Hsep Hcap. unfold sysfile_write. runs_steps. eapply current_mm_runs; [exact Hg|]. rewrite Hmm, (proj2 (Z.eqb_neq len 0)) by lia. runs_steps.
  apply on_files_runs. runs_by (wa_test _ _ _ _ _ _ HW l); [done|]. intros b f' [-> ->]. cbn [negb]. runs_steps.
  replace (set_fsys (fsys (sync s)) (sync s)) with (sync s) by done. assert (Hsy : synced (sync s)) by done.
  assert (Hacc' : may_access mm false okb (sync s)) by (eapply access_calm; [apply calm_fsys|exact Hacc]).
  runs_by (write_loop_runs (Z.to_nat len) (sync s) l base len 0); [done|done|done|done|lia|done|lia|lia|done|]. intros [e c] s' (k&Hk&Hd). cbn [fst snd] in *. rewrite Z.add_0_l in Hk. subst c.
  destruct (Z.eqb_spec k 0) as [->|Hk]; cbn [negb]; runs_steps; exists k || exists 0; exists e; (split; [done|]); [by rewrite decide_True|rewrite decide_False by done].
  destruct Hd as (_&_&Hr&_&Hok&_). destruct (access_fits _ _ _ _ _ base k Hacc Hok ltac:(lia)) as (_&_&?). apply s32_small. lia.
Qed.

(** C9: [write] of [len] bytes appends to what the file has before its position exactly
    the bytes of the caller's buffer, all of them or a prefix when the file system is
    full or a part of the buffer may not be read, and returns their number (or the
    error when there are none).  It reads only bytes that the process may read and
    changes no memory but the kernel buffer and the file system's own. *)
Theorem sysfile_write_correct s g l base len :
  procs (ks s) !! current (ks s) = Some g -> p_mm g = mm -> may_access mm false okb s -> W l (fsys (sync s)) -> is_u32 base -> 0 < len < W32 -> apart scr okb buf base len ->
  Z.of_nat (length l) + len <= cap ->
  runs (sysfile_write optab (Some buf) fd base len) s (fun r s' => exists k e, accepted (sync s) l base len k e s' /\ r = if decide (k = 0) then e else k).
Proof. apply sysfile_write_runs. Qed.
End Write.
