(* ===== verification/SysfileSfs.v ===== *)
(** * Files of SFS behind the system calls

    A descriptor open on a file of SFS is a sequence of bytes as [read] and [write] want
    it (SysfileThm.v): the file layer (file.c), the inode's operations and the file
    system on its block device, composed. *)

From stdpp Require Import base gmap list.
From Stdlib Require Import ZArith Lia Bool.
From S2P Require Import Prelude.
From S2P Require Import Vmm.
From S2P Require Import VmmThm.
From S2P Require Import Atomic.
From S2P Require Import Vfs.
From S2P Require Import VfsInv.
From S2P Require Import FileThm.
From S2P Require Import Bitmap.
From S2P Require Import Sfs.
From S2P Require Import SfsInv.
From S2P Require Import SfsThm.
From S2P Require Import SfsIo.
From S2P Require Import SfsTrunc.
From S2P Require Import Sysfile.
From S2P Require Import SysfileThm.

(** ** Open files *)

Section OpenFile.
Context {X : Type} (optab : Z -> @inode_ops X).
Implicit Types (f : fst_ X).

Definition inode_fine (i : inode) : Prop := 0 <= open_count i <= ref_count i /\ ref_count i < MAX_INODE_COUNT.

(** Descriptor [fd] of file map [m] is entry [x], open on inode [n]. *)
Record open_file f (fd m : Z) (x : file) (n : Z) (i : inode) : Prop := {
  of_at : at_fd f fd m x;
  of_ok : file_ok fd x;
  of_open : status x = FD_OPENED;
  of_count : f_count x < 2147483646;
  of_node : node x = Some n;
  of_inode : inodes f !! n = Some i;
  of_fine : inode_fine i
}.

Lemma vop_fine_runs {A} (sym : inode_ops -> option A) n f i g Q :
  inodes f !! n = Some i -> inode_fine i -> sym (optab (in_ops i)) = Some g -> Q g f -> runs (vop optab sym n) f Q.
Proof.
  intros Hi [Ho Hr] Hg HQ. unfold vop. runs_steps. eapply rd_inode_runs; [done|]. rewrite Hg. unfold inode_check. runs_steps.
  apply runs_assert; [apply andb_true_intro; split; apply Z.leb_le; lia|]. apply runs_assert; [apply andb_true_intro; split; apply Z.ltb_lt; lia|]. by runs_steps.
Qed.

Lemma fd2file_open f fd m x n i Q : open_file f fd m x n i -> Q (0, Some (m, fd)) f -> runs (fd2file fd) f Q.
Proof.
  intros [(Hc&(v&Hv&Hpos)&Hx) (Hfd&Ht&_) Hst _ _ _ _] HQ. unfold fd2file. rewrite Ht. runs_steps. eapply get_filemap_runs; [done..|]. runs_steps.
  eapply rd_file_runs; [exact Hx|]. rewrite bool_decide_true by done. by runs_steps.
Qed.

Lemma testfd_open f fd m x n i rd wr : open_file f fd m x n i -> (rd = true -> readable x = true) -> (wr = true -> writable x = true) ->
  runs (file_testfd fd rd wr) f (fun b f' => b = true /\ f' = f).
Proof.
  intros HO Hr Hw. unfold file_testfd. runs_steps. eapply fd2file_open; [exact HO|]. cbn [snd]. runs_steps. destruct HO as [(_&_&Hx) _ _ _ _ _ _]. eapply rd_file_runs; [exact Hx|].
  destruct rd, wr; rewrite ?Hr, ?Hw by done; cbn [negb andb]; by runs_steps.
Qed.

Definition moved_to f (m fd p : Z) (x : file) f2 : fst_ X := set_files (<[(m, fd) := set_pos p x]> (files f)) f2.

Lemma file_rw_open may op f fd m x n i base len g Q :
  open_file f fd m x n i -> may x = true -> op (optab (in_ops i)) = Some g -> 0 <= len < W32 ->
  runs (g n (iobuf_init base len (pos x))) (acquired f (m, fd) x) (fun o f2 =>
    files f2 = files (acquired f (m, fd) x) /\ io_len (snd o) = len /\ 0 <= io_resid (snd o) <= len /\
    Q (fst o, len - io_resid (snd o)) (moved_to f m fd (s32 (pos x + (len - io_resid (snd o)))) x f2)) ->
  runs (file_rw optab may op fd base len) f Q.
Proof.
  intros HO Hmay Hg Hlen Hrun. unfold file_rw. runs_steps. eapply fd2file_open; [exact HO|]. cbn [snd]. runs_steps.
  destruct HO as [(_&_&Hx) (_&_&Hc0&Hst') Hst Hcnt Hn Hi Hfine]. rewrite Hst in Hst'. destruct Hst' as [Hpos _]. eapply rd_file_runs; [exact Hx|].
  rewrite Hmay. cbn [negb]. unfold filemap_acquire, fopen_count_inc. runs_steps. eapply rd_file_runs; [exact Hx|]. runs_steps.
  apply runs_assert; [by apply bool_decide_eq_true|]. runs_steps. eapply rd_file_runs; [exact Hx|]. runs_steps.
  eapply upd_file_runs; [exact Hx|]. rewrite fcount_inc by lia. fold (acquired f (m, fd) x). runs_steps. eapply runs_deref; [exact Hn|]. runs_steps.
  eapply vop_fine_runs; [exact Hi|exact Hfine|exact Hg|]. runs_steps. eapply runs_mono; [exact Hrun|]. cbn beta. intros o f2 (Hff&Hl&Hr&HQ).
  assert (Hused : iobuf_used (snd o) = len - io_resid (snd o)) by (unfold iobuf_used; rewrite Hl; apply u32_small; unfold is_u32; lia).
  rewrite Hused. runs_steps. assert (Hx2 : files f2 !! (m, fd) = Some (set_f_count (f_count x + 1) x)) by (rewrite Hff; apply lookup_insert_eq).
  eapply rd_file_runs; [exact Hx2|]. runs_steps. rewrite decide_True by done.
  eapply upd_file_runs; [exact Hx2|]. unfold filemap_release, fopen_count_dec. runs_steps.
  eapply rd_file_runs; [apply lookup_insert_eq|]. runs_steps. apply runs_assert; [apply bool_decide_eq_true; by left|]. runs_steps.
  apply runs_assert; [apply Z.ltb_lt; cbn; lia|]. runs_steps. eapply rd_file_runs; [apply lookup_insert_eq|]. runs_steps.
  eapply upd_file_runs; [apply lookup_insert_eq|]. rewrite set_files_twice. cbn [f_count set_pos set_f_count pos].
  rewrite fcount_dec by lia. replace (f_count x + 1 - 1) with (f_count x) by lia. runs_steps. rewrite (proj2 (Z.eqb_neq (f_count x) 0)) by lia.
  runs_steps. rewrite Hff. cbn [files acquired set_files]. rewrite insert_insert_eq. destruct x; exact HQ.
Qed.
End OpenFile.

(** ** A descriptor open on a file of SFS *)

Section SfsFile.
Context {D : Type} (dop_io : iobuf -> bool -> M (fst_ (sfsx D)) (Z * iobuf)) (d0 : D) `{!BlockDev dop_io d0}.
Context (client_dec : forall x, Decision (client x)) (fs_at : Z).
Abbreviation st := (fst_ (sfsx D)).
Abbreviation GInv := (SfsInv.GInv dop_io d0).
Abbreviation FileAt := (FileAt dop_io d0).
Abbreviation content := (content dop_io d0).
Abbreviation keeps := (SfsInv.keeps dop_io d0).
Abbreviation BS := SFS_BLKSIZE.
Abbreviation optab := (sfs_optab dop_io fs_at).
Implicit Types (f : st) (l : list Z).

(** [fd]: the descriptor, [m]: the file map, [n]: the inode, [b]: the block buffer. *)
Variables (fd m n b : Z).
(** The memory that the file system and its device use. *)
Definition fs_mem (x : Z) : Prop := ~ client x \/ b <= x < b + BS.

Record sfs_open f (x : file) sin blks : Prop := {
  so_file : exists i, open_file f fd m x n i /\ in_ops i = sfs_node_fileops_at /\ in_type i = inode_type_sfs_inode_info /\ is_Some (in_fs i);
  so_at : FileAt f n sin blks;
  so_buf : sfs_buffer (xsfs (priv f)) = b;
  so_pos : 0 <= pos x <= size (din sin)
}.

Lemma fs_mem_out x : ~ fs_mem x -> client x /\ ~ b <= x < b + BS.
Proof. intros H. destruct (client_dec x) as [Hc|Hc]; [split; [done|]; intros ?; apply H; by right|]. destruct H. by left. Qed.

Lemma kbuf_ubuf f buf len : sfs_buffer (xsfs (priv f)) = b -> kbuf fs_mem buf len -> ubuf dop_io d0 f buf len.
Proof. intros Hb (?&?&Hs). split; [done|]. split; [done|]. intros y Hy. unfold in_buffer. rewrite Hb. by apply fs_mem_out, Hs. Qed.

(** What the disk holds depends on the private state and on the device's memory only. *)
Lemma FileAt_view f f' sin blks : priv f' = priv f -> (forall x, fs_mem x -> fmem f' x = fmem f x) -> FileAt f n sin blks ->
  FileAt f' n sin blks /\ content f' sin blks = content f sin blks.
Proof.
  intros Hp Hm HA. assert (Hd : forall k o, dsk dop_io d0 f' k o = dsk dop_io d0 f k o) by (intros k o; apply bd_local; intros y Hy; apply Hm; by left).
  destruct HA as [HG Hn HF Hty Hsz]. split.
  - split; [|by rewrite Hp| |done|done].
    + destruct HG as [? ? ? ? ? ? ?]. split; unfold free, in_buffer in *; by rewrite ?Hp.
    + destruct HF as [H1 H2 H3 H4 H5 H6 H7]. split; [done..| | |done].
      * intros Hi j Hj. rewrite <-(H5 Hi j Hj). apply word_at_ext. intros i' _. apply Hd.
      * intros k Hk. specialize (H6 k Hk). unfold used in *. by rewrite Hp.
  - apply fmap_seqZ_ext. intros i Hi. unfold fbyte. destruct (blks !! Z.to_nat ((0 + i) / BS)); [apply Hd|done].
Qed.

Lemma sfs_open_mem f x sin blks mem : (forall y, fs_mem y -> mem y = fmem f y) -> sfs_open f x sin blks ->
  sfs_open (set_fmem mem f) x sin blks /\ content (set_fmem mem f) sin blks = content f sin blks.
Proof.
  intros Hm [(i&HO&Hi) HA Hb Hpos]. destruct (FileAt_view f (set_fmem mem f) sin blks) as [HA' Hc]; [done|exact Hm|done|]. split; [|done].
  split; [|done|done|done]. exists i. split; [|done]. destruct HO as [? ? ? ? ? ? ?]. by split.
Qed.

(** After an operation of the file system, with the position moved to [p]. *)
Lemma sfs_open_moved f f2 x sin blks sin' blks' p R W : sfs_open f x sin blks -> keeps R W (acquired f (m, fd) x) f2 -> FileAt f2 n sin' blks' -> 0 <= p <= size (din sin') ->
  sfs_open (moved_to f m fd p x f2) (set_pos p x) sin' blks' /\ content (moved_to f m fd p x f2) sin' blks' = content f2 sin' blks' /\ curfs (moved_to f m fd p x f2) = curfs f.
Proof.
  intros [(i&HO&Hi) HA Hb Hpos] HK HA2 Hp. destruct (FileAt_view f2 (moved_to f m fd p x f2) sin' blks') as [HA' Hc]; [done|done|done|].
  destruct (keeps_buffer _ _ _ _ _ _ HK) as [Hbuf _]. pose proof (kp_st _ _ _ _ _ _ HK) as Hst. split; [|split; [done|cbn; by rewrite Hst]].
  split; [|done|by cbn; rewrite Hbuf|done]. exists i. split; [|done]. destruct HO as [(Hc1&Hv&Hx) Hok Ho Hcnt Hn Hino Hf]. split; try done.
  - split; [cbn; by rewrite Hst|]. split; [cbn; by rewrite Hst|]. apply lookup_insert_eq.
  - cbn. by rewrite Hst.
Qed.

Lemma sfs_open_acquired f x sin blks : sfs_open f x sin blks -> FileAt (acquired f (m, fd) x) n sin blks /\ sfs_node (acquired f (m, fd) x) n /\
  content (acquired f (m, fd) x) sin blks = content f sin blks /\ size (din sin) <= BS * MAXBLKS.
Proof.
  intros [(i&HO&_&Ht&Hf) HA Hb Hpos]. destruct (FileAt_view f (acquired f (m, fd) x) sin blks) as [HA' Hc]; [done|done|done|]. split; [done|]. split; [|split; [done|]].
  - exists i. split; [apply (of_inode _ _ _ _ _ _ HO)|done].
  - pose proof (fa_size _ _ _ _ _ _ HA) as [_ Hs]. pose proof (fr_blocks _ _ _ _ _ (fa_rep _ _ _ _ _ _ HA)) as [? ?]. unfold SFS_BLKSIZE in *. lia.
Qed.

Lemma sfs_io_open_runs f x sin blks base len write Q : sfs_open f x sin blks -> 0 <= len ->
  runs (sfs_io_nolock dop_io n base (pos x) len write) (acquired f (m, fd) x) (fun r f2 => 0 <= snd r <= len /\ files f2 = files (acquired f (m, fd) x) /\
    Q (fst r, snd r) (moved_to f m fd (s32 (pos x + snd r)) x f2)) ->
  runs (sfs_io dop_io n (iobuf_init base len (pos x)) write) (acquired f (m, fd) x) (fun o f2 =>
    files f2 = files (acquired f (m, fd) x) /\ io_len (snd o) = len /\ 0 <= io_resid (snd o) <= len /\
    Q (fst o, len - io_resid (snd o)) (moved_to f m fd (s32 (pos x + (len - io_resid (snd o)))) x f2)).
Proof.
  intros HO Hl Hrun. destruct (sfs_open_acquired _ _ _ _ HO) as (HA&Hnode&_). unfold sfs_io. runs_steps. apply check_fs_runs; [done|]. runs_steps.
  eapply vop_info_runs; [done|apply (fa_sin _ _ _ _ _ _ HA)|]. runs_steps. cbn [io_base io_offset io_resid iobuf_init]. eapply runs_mono; [exact Hrun|]. cbn beta.
  intros [e k] f2 (Hk&Hff&HQ). cbn [fst snd] in *. destruct (Z.eqb_spec k 0) as [->|Hk0]; cbn [negb].
  - runs_steps. cbn [fst snd iobuf_init io_len io_resid]. replace (len - len) with 0 by lia. done.
  - unfold on_mem, iobuf_skip. runs_steps. apply runs_assert; [apply Z.leb_le; cbn; lia|]. runs_steps. cbn [fst snd iobuf_init io_len io_resid]. replace (len - (len - k)) with k by lia.
    replace (set_fmem (fmem f2) f2) with f2 by (by destruct f2). split; [done|]. split; [done|]. split; [lia|done].
Qed.

(** The bytes of the file from the position on; the bytes before the position. *)
Definition sfs_rest (data l : list Z) f : Prop :=
  exists x sin blks, sfs_open f x sin blks /\ readable x = true /\ content f sin blks = data /\ l = drop (Z.to_nat (pos x)) data.
Definition sfs_before l f : Prop :=
  exists x sin blks, sfs_open f x sin blks /\ writable x = true /\ l = take (Z.to_nat (pos x)) (content f sin blks).

Lemma file_op_read : op_read (optab sfs_node_fileops_at) = Some (sfs_read dop_io).
Proof. reflexivity. Qed.
Lemma file_op_write : op_write (optab sfs_node_fileops_at) = Some (sfs_write dop_io).
Proof. reflexivity. Qed.

Lemma sfs_file_read data l f buf k : sfs_rest data l f -> 0 < k <= IOBUF_SIZE -> kbuf fs_mem buf k ->
  runs (file_read optab fd buf k) f (fun o f' => fst o = 0 /\ snd o = Z.min k (Z.of_nat (length l)) /\ sfs_rest data (drop (Z.to_nat (snd o)) l) f' /\
    peek (fmem f') buf (snd o) = take (Z.to_nat k) l /\ (forall x, ~ range buf k x -> ~ fs_mem x -> fmem f' x = fmem f x) /\ curfs f' = curfs f).
Proof.
  intros (x&sin&blks&HS&Hr&Hc&->) Hk Hb. pose proof HS as [(i&HO&Hops&_) HA Hbuf Hpos]. destruct (sfs_open_acquired _ _ _ _ HS) as (HA1&_&Hc1&Hmax).
  assert (HMB : BS * MAXBLKS = 4243456) by done. unfold IOBUF_SIZE in Hk. assert (Hlen : Z.of_nat (length data) = size (din sin)) by (rewrite <-Hc; apply content_length; lia).
  match goal with |- runs _ _ ?P => set (Q := P) end.
  unfold file_read. apply (file_rw_open optab readable op_read f fd m x n i buf k (sfs_read dop_io) Q); [exact HO|exact Hr|rewrite Hops; exact file_op_read|unfold W32; lia|]. apply (sfs_io_open_runs f x sin blks buf k false Q); [done|lia|].
  assert (Hub : ubuf dop_io d0 (acquired f (m, fd) x) buf k) by (by apply kbuf_ubuf).
  pose proof (io_read_runs dop_io d0 (acquired f (m, fd) x) n sin blks buf (pos x) k HA1 ltac:(lia) ltac:(lia) ltac:(lia) ltac:(unfold SFS_MAX_FILE_SIZE; lia) Hub) as H1.
  pose proof (io_read_content dop_io d0 (acquired f (m, fd) x) n sin blks buf (pos x) k HA1 ltac:(unfold SFS_MAX_FILE_SIZE; lia) ltac:(lia) ltac:(lia) Hub) as H2.
  eapply runs_mono; [exact (runs_conj _ _ _ _ H1 H2)|]. cbn beta. intros [e c] f2 [(He&Hcc&_) (_&HA2&Hc2&Hpk&HK)]. cbn [fst snd] in *.
  rewrite Hc1, Hc in Hc2, Hpk. assert (Hll : Z.of_nat (length (drop (Z.to_nat (pos x)) data)) = size (din sin) - pos x) by (rewrite length_drop; lia).
  split; [lia|]. split; [rewrite (kp_st _ _ _ _ _ _ HK); done|]. unfold Q. cbn [fst snd]. rewrite Hll. rewrite s32_small by lia.
  destruct (sfs_open_moved f f2 x sin blks sin blks (pos x + c) _ _ HS HK HA2 ltac:(lia)) as (HS'&Hc'&Hcf). split; [done|]. split; [lia|]. split.
  { exists (set_pos (pos x + c) x), sin, blks. split; [done|]. split; [done|]. split; [by rewrite Hc'|]. cbn [pos set_pos]. rewrite drop_drop. f_equal. lia. }
  split; [exact Hpk|]. split; [|done]. intros y Hy Hn. destruct (fs_mem_out y Hn) as [Hcl Hnb]. cbn [fmem moved_to set_files]. rewrite (kp_mem _ _ _ _ _ _ HK y Hcl); [done| |exact Hy].
  unfold in_buffer. by rewrite <-Hbuf in Hnb.
Qed.

Lemma sfs_file_write l f buf k : sfs_before l f -> 0 < k <= IOBUF_SIZE -> Z.of_nat (length l) + k <= BS * MAXBLKS -> kbuf fs_mem buf k ->
  runs (file_write optab fd buf k) f (fun o f' => 0 <= snd o <= k /\ (fst o = 0 /\ snd o = k \/ fst o < 0 /\ scarce f') /\
    sfs_before (l ++ peek (fmem f) buf (snd o)) f' /\ (forall x, ~ fs_mem x -> fmem f' x = fmem f x) /\ curfs f' = curfs f).
Proof.
  intros (x&sin&blks&HS&Hw&->) Hk Hcap Hb. pose proof HS as [(i&HO&Hops&_) HA Hbuf Hpos]. destruct (sfs_open_acquired _ _ _ _ HS) as (HA1&_&Hc1&Hmax).
  assert (HMB : BS * MAXBLKS = 4243456) by done. unfold IOBUF_SIZE in Hk. assert (Hlen : Z.of_nat (length (content f sin blks)) = size (din sin)) by (apply content_length; lia).
  rewrite length_take in Hcap. assert (Hub : ubuf dop_io d0 (acquired f (m, fd) x) buf k) by (by apply kbuf_ubuf).
  match goal with |- runs _ _ ?P => set (Q := P) end.
  unfold file_write. apply (file_rw_open optab writable op_write f fd m x n i buf k (sfs_write dop_io) Q); [exact HO|exact Hw|rewrite Hops; exact file_op_write|unfold W32; lia|]. apply (sfs_io_open_runs f x sin blks buf k true Q); [done|lia|].
  runs_by (io_write_runs dop_io d0 (acquired f (m, fd) x) n sin blks buf (pos x) k HA1); [done|lia|lia|done|].
  intros [e c] f2 (Hc&Hres&sin'&blks'&HA2&_&_&_&_&Hsz&HK&Hby). cbn [fst snd] in *.
  split; [done|]. split; [rewrite (kp_st _ _ _ _ _ _ HK); done|]. unfold Q. cbn [fst snd]. rewrite s32_small by lia.
  destruct (sfs_open_moved f f2 x sin blks sin' blks' (pos x + c) _ _ HS HK HA2 ltac:(lia)) as (HS'&Hc'&Hcf). split; [done|]. split.
  { destruct Hres as [[? ?]|[-> Hs]]; [by left|right]. split; [done|]. exact Hs. }
  split; [|split; [|done]].
  - exists (set_pos (pos x + c) x), sin', blks'. split; [done|]. split; [done|]. cbn [pos set_pos]. rewrite Hc'.
    rewrite (content_splice dop_io d0 (acquired f (m, fd) x) f2 sin sin' blks blks' buf (pos x) c) by (done || lia). rewrite Hc1, app_assoc. symmetry. apply take_app_length'.
    rewrite length_app, length_take, peek_length. lia.
  - intros y Hn. destruct (fs_mem_out y Hn) as [Hcl Hnb]. cbn [fmem moved_to set_files]. rewrite (kp_mem _ _ _ _ _ _ HK y Hcl); [done| |by intros []].
    unfold in_buffer. by rewrite <-Hbuf in Hnb.
Qed.

Lemma sfs_readable data : readable_as optab fd fs_mem (sfs_rest data).
Proof.
  split; [|apply sfs_file_read|].
  - intros l f (x&sin&blks&[(i&HO&_) _ _ _]&Hr&_). by eapply testfd_open.
  - intros l f mem (x&sin&blks&HS&Hr&Hc&Hl) Hm. destruct (sfs_open_mem f x sin blks mem Hm HS) as [HS' Hc']. exists x, sin, blks. by rewrite Hc'.
Qed.
Lemma sfs_writable : writable_as optab fd (BS * MAXBLKS) fs_mem scarce sfs_before.
Proof.
  split; [|apply sfs_file_write|].
  - intros l f (x&sin&blks&[(i&HO&_) _ _ _]&Hw&_). by eapply testfd_open.
  - intros l f mem (x&sin&blks&HS&Hw&Hl) Hm. destruct (sfs_open_mem f x sin blks mem Hm HS) as [HS' Hc']. exists x, sin, blks. by rewrite Hc'.
Qed.

(** Setting the position inside the file. *)
Lemma file_op_tryseek : exists tab, op_tryseek (optab sfs_node_fileops_at) = Some (sfs_tryseek tab).
Proof. eexists. reflexivity. Qed.

Lemma sfs_open_seek f x sin blks p : sfs_open f x sin blks -> 0 <= p <= size (din sin) -> sfs_open (moved_to f m fd p x f) (set_pos p x) sin blks.
Proof.
  intros [(i&HO&Hi) HA Hb Hpos] Hp. destruct (FileAt_view f (moved_to f m fd p x f) sin blks) as [HA' _]; [done|done|done|]. split; [|done|done|done].
  exists i. split; [|done]. destruct HO as [(Hc1&Hv&Hx) Hok Ho Hcnt Hn Hino Hf]. split; try done. split; [done|]. split; [done|]. apply lookup_insert_eq.
Qed.

Lemma sfs_file_seek data l f p : sfs_rest data l f -> 0 <= p <= Z.of_nat (length data) ->
  runs (file_seek optab fd p LSEEK_SET) f (fun r f' => r = 0 /\ sfs_rest data (drop (Z.to_nat p) data) f' /\ fmem f' = fmem f /\ curfs f' = curfs f).
Proof.
  intros (x&sin&blks&HS&Hr&Hc&->) Hp. pose proof HS as [(i&HO&Hops&Htype&Hfs) HA Hbuf Hpos]. destruct (sfs_open_acquired _ _ _ _ HS) as (HA1&Hnode&Hc1&Hmax).
  assert (HMB : BS * MAXBLKS = 4243456) by done. assert (Hlen : Z.of_nat (length data) = size (din sin)) by (rewrite <-Hc; apply content_length; lia).
  unfold file_seek. runs_steps. eapply fd2file_open; [exact HO|]. cbn [snd]. runs_steps. pose proof HO as [(_&_&Hx) (_&_&Hc0&Hst') Hst Hcnt Hn Hi Hfine]. rewrite Hst in Hst'. destruct Hst' as [Hposc _].
  unfold filemap_acquire, fopen_count_inc. runs_steps. eapply rd_file_runs; [exact Hx|]. runs_steps. apply runs_assert; [by apply bool_decide_eq_true|]. runs_steps.
  eapply rd_file_runs; [exact Hx|]. runs_steps. eapply upd_file_runs; [exact Hx|]. rewrite fcount_inc by lia. fold (acquired f (m, fd) x). runs_steps.
  eapply rd_file_runs; [apply lookup_insert_eq|]. runs_steps. eapply runs_deref; [exact Hn|]. runs_steps. change (LSEEK_SET =? LSEEK_SET) with true. cbv iota. runs_steps. cbn [fst snd Z.eqb].
  destruct file_op_tryseek as [tab Htab]. runs_steps. eapply vop_fine_runs; [exact Hi|exact Hfine|rewrite Hops; exact Htab|]. unfold sfs_tryseek. runs_steps.
  rewrite (proj2 (Z.ltb_ge p 0)), (proj2 (Z.leb_gt SFS_MAX_FILE_SIZE p)) by (unfold SFS_MAX_FILE_SIZE; lia). cbn [orb]. runs_steps.
  eapply vop_info_runs; [done|apply (fa_sin _ _ _ _ _ _ HA)|]. rewrite (proj2 (Z.ltb_ge (size (din sin)) p)) by lia. runs_steps. cbn [Z.eqb]. runs_steps.
  eapply upd_file_runs; [apply lookup_insert_eq|]. unfold acquired. rewrite set_files_twice. runs_steps. unfold filemap_release, fopen_count_dec. runs_steps.
  eapply rd_file_runs; [apply lookup_insert_eq|]. runs_steps. apply runs_assert; [apply bool_decide_eq_true; by left|]. runs_steps.
  apply runs_assert; [apply Z.ltb_lt; cbn; lia|]. runs_steps. eapply rd_file_runs; [apply lookup_insert_eq|]. runs_steps.
  eapply upd_file_runs; [apply lookup_insert_eq|]. rewrite set_files_twice. cbn [f_count set_pos set_f_count pos].
  rewrite fcount_dec by lia. replace (f_count x + 1 - 1) with (f_count x) by lia. runs_steps. rewrite (proj2 (Z.eqb_neq (f_count x) 0)) by lia. runs_steps. split; [done|].
  match goal with |- sfs_rest _ _ ?g /\ _ => replace g with (moved_to f m fd p x f) by (by destruct x) end. split; [|done].
  exists (set_pos p x), sin, blks. split; [by apply sfs_open_seek; [|lia]|]. split; [done|]. split; [|done]. destruct (FileAt_view f (moved_to f m fd p x f) sin blks) as [_ ->]; done.
Qed.
Lemma sfs_seekable data : seekable_as optab fd data (sfs_rest data).
Proof. intros l f p. apply sfs_file_seek. Qed.
End SfsFile.
