(* ===== verification/SysEx.v ===== *)
(** * A process that reads and writes a file

    The shell of ProcEx.v has descriptor 3 of its file map open on file 7 of the file
    system of SfsDev.v, which holds the bytes [hello]; its data page is at 0x10400000. *)

From stdpp Require Import base gmap list.
From Stdlib Require Import ZArith Lia Bool.
From S2P Require Import Prelude.
From S2P Require Import Pmm.
From S2P Require Import Vmm.
From S2P Require Import VmmThm.
From S2P Require Import KState.
From S2P Require Import Vfs.
From S2P Require Import FileThm.
From S2P Require Import Dev.
From S2P Require Import DevThm.
From S2P Require Import Proc.
From S2P Require Import ExitThm.
From S2P Require Import ProcEx.
From S2P Require Import Sfs.
From S2P Require Import SfsInv.
From S2P Require Import SfsThm.
From S2P Require Import SfsIo.
From S2P Require Import SfsDev.
From S2P Require Import Sysfile.
From S2P Require Import SysfileThm.
From S2P Require Import SysfileSfs.

Definition sys_file : file := mkFile FD_OPENED true true 3 0 (Some 7) 1.
Definition sys_f : sst := mkFst (inodes ex_s) {[(1, 3) := sys_file]} {[1 := mkFsS None 1]} None [] None (fmem ex_s) (priv ex_s).
Definition sys_s : pst (sfsx devst) := mkP fam_k {[7 := with_count 1 ex_mm]} sys_f {[3 := 1]} ∅ ∅ 0 0.

#[export] Instance ex_client_dec x : Decision (client (dop_io := ex_io) (d0 := ex_sdevst) x).
Proof. change (Decision (disk_client ex_sdevst x)). unfold disk_client. apply _. Defined.

Abbreviation ex_rest := (sfs_rest ex_io ex_sdevst 3 1 7 0x20000 [104; 101; 108; 108; 111]).
Abbreviation ex_before := (sfs_before ex_io ex_sdevst 3 1 7 0x20000).
Abbreviation ex_fsmem := (fs_mem ex_io ex_sdevst 0x20000).
Abbreviation ex_tab := (sfs_optab ex_io 1).
Abbreviation ex_okb := (byte_ok (mmap_list ex_mm)).

Lemma sys_open : sfs_open ex_io ex_sdevst 3 1 7 0x20000 (fsys (sync sys_s)) sys_file ex_file [4] /\
  SfsIo.content ex_io ex_sdevst (fsys (sync sys_s)) ex_file [4] = [104; 101; 108; 108; 111].
Proof.
  destruct (FileAt_view ex_io ex_sdevst 7 0x20000 ex_s (fsys (sync sys_s)) ex_file [4]) as [HA Hc]; [done|done|exact ex_FileAt|]. rewrite ex_content in Hc. split; [|exact Hc].
  split; [|exact HA|done|cbn; lia]. exists (mkInode 1 1 inode_type_sfs_inode_info (Some 1) 2). split; [|done]. split; try done.
  split; [done|]. split; [|done]. exists (mkFsS None 1). done.
Qed.

Lemma sys_access write : may_access (Some 7) write (ex_okb write) sys_s.
Proof. exists (with_count 1 ex_mm). split; [done|]. split; [exact ex_mm_wf|done]. Qed.

Lemma sys_apart write x : ex_okb write x -> ~ range 0x30000 IOBUF_SIZE x /\ ~ ex_fsmem x.
Proof.
  intros Hx. pose proof (access_range _ _ _ _ sys_s x (sys_access write) Hx) as Hr. cbn in Hr. unfold USERBASE, USERTOP in Hr. split; [unfold range, IOBUF_SIZE; lia|].
  intros [Hn|Hb]; [|unfold SFS_BLKSIZE in Hb; lia]. apply Hn. split; [lia|]. split; [unfold W32; lia|].
  split; apply in_range_false; cbn; unfold DISK0_BUFSIZE, DISK0_BLKSIZE, SECTSIZE; lia.
Qed.

Lemma sys_kbuf : kbuf ex_fsmem 0x30000 IOBUF_SIZE.
Proof.
  split; [lia|]. split; [unfold W32, IOBUF_SIZE; lia|]. intros x Hx. unfold range, IOBUF_SIZE in Hx. intros [Hn|Hb]; [|unfold SFS_BLKSIZE in Hb; lia].
  apply Hn, ex_client. lia.
Qed.

Lemma sys_data x : 0x10400000 <= x < 0x10401000 -> ex_okb true x /\ ex_okb false x.
Proof.
  intros Hx. split; (exists ex_data; split; [left|]; split; [unfold covers; cbn; lia|]; split; [done|]; intros _ H; by destruct H).
Qed.

(** A read of ten bytes gets the five that the file has. *)
Lemma sysfile_read_correct_witness :
  runs (sysfile_read ex_tab (Some 0x30000) 3 0x10400010 10) sys_s (fun r s' => r = 5 /\ peek (fmem (fsys s')) 0x10400010 5 = [104; 101; 108; 108; 111]).
Proof.
  eapply runs_mono.
  - apply (sysfile_read_correct ex_tab 3 ex_fsmem ex_rest (sfs_readable ex_io ex_sdevst ex_client_dec 1 3 1 7 0x20000 _) (Some 7) (ex_okb true) 0x30000 sys_kbuf
      sys_s p_shell [104; 101; 108; 108; 111] 0x10400010 10); [reflexivity|reflexivity|exact (sys_access true)| |unfold is_u32, W32; lia|unfold W32; lia|intros x _; exact (sys_apart true x)].
    exists sys_file, ex_file, [4]. destruct sys_open as [H1 H2]. done.
  - cbn beta. intros r s' (k&e&(_&_&_&Hp&_&_&[(Hk&_)|(_&_&Hn)])&Hr).
    + cbn in Hk. subst k. split; [exact Hr|exact Hp].
    + destruct Hn. intros x Hx. apply sys_data. lia.
Defined.

(** A write of three bytes at the start of the file. *)
Lemma sysfile_write_correct_witness :
  runs (sysfile_write ex_tab (Some 0x30000) 3 0x10400010 3) sys_s (fun r s' => exists k, 0 <= k <= 3 /\ ex_before (peek (fmem (fsys sys_s)) 0x10400010 k) (fsys s') /\
    (r = 3 /\ k = 3 \/ scarce (fsys s'))).
Proof.
  eapply runs_mono.
  - apply (sysfile_write_correct ex_tab 3 (SFS_BLKSIZE * MAXBLKS) ex_fsmem scarce ex_before (sfs_writable ex_io ex_sdevst ex_client_dec 1 3 1 7 0x20000)
      (Some 7) (ex_okb false) 0x30000 sys_kbuf sys_s p_shell [] 0x10400010 3);
      [reflexivity|reflexivity|exact (sys_access false)| |unfold is_u32, W32; lia|unfold W32; lia|intros x _; exact (sys_apart false x)|vm_compute; discriminate].
    exists sys_file, ex_file, [4]. destruct sys_open as [H1 H2]. done.
  - cbn beta. intros r s' (k&e&(_&_&Hk&HW&_&_&Hres)&Hr). exists k. split; [exact Hk|]. split; [exact HW|]. destruct Hres as [[-> ->]|[[_ Hf]|[_ Hn]]].
    + left. split; [exact Hr|reflexivity].
    + right. exact Hf.
    + destruct Hn. intros x Hx. apply sys_data. lia.
Defined.
