(* ===== verification/Fault.v ===== *)
(** * TLB misses and page faults (kern/trap/trap.c)

    The processor of this machine walks no page tables: every translation that is not in
    the TLB traps to [handle_tlbmiss], which refills the TLB from the page table, or has
    [do_pgfault] map a page, or kills the process.  [tst] is the state of the kernel as
    the trap handlers see it. *)

From stdpp Require Import base gmap list.
From Stdlib Require Import ZArith Lia Bool.
From S2P Require Import Prelude.
From S2P Require Import Atomic.
From S2P Require Import Pmm.
From S2P Require Import PageTable.
From S2P Require Import Vmm.
From S2P Require Import KState.
From S2P Require Import Sched.
From S2P Require Import Vfs.
From S2P Require Import Console.
From S2P Require Import Proc.

Definition KSU_USER : Z := 0x10.

(** [ps]: processes, memory, files; [pgfaults]: [pgfault_num]; [ticks], [c0_count] and
    [c0_compare]: the clock; [con]: the console; [watch_lo], [watch_hi]: breakpoints. *)
Record tst (X : Type) := mkT {
  ps : pst X; pgfaults : Z; ticks : Z; c0_count : Z; c0_compare : Z; con : console; watch_lo : Z; watch_hi : Z
}.
Arguments mkT {X}. Arguments ps {X}. Arguments pgfaults {X}. Arguments ticks {X}. Arguments c0_count {X}. Arguments c0_compare {X}.
Arguments con {X}. Arguments watch_lo {X}. Arguments watch_hi {X}.

Section Fault.
Context {X : Type}.
Abbreviation st := (tst X).
Variable pm : pmm_manager.
Variable sc : sched_class.
Variable optab : Z -> @inode_ops X.

Definition set_ps v (s : st) : st := mkT v (pgfaults s) (ticks s) (c0_count s) (c0_compare s) (con s) (watch_lo s) (watch_hi s).
Definition set_pgfaults v (s : st) : st := mkT (ps s) v (ticks s) (c0_count s) (c0_compare s) (con s) (watch_lo s) (watch_hi s).
Definition set_clock t c (s : st) : st := mkT (ps s) (pgfaults s) t (c0_count s) c (con s) (watch_lo s) (watch_hi s).
Definition set_con v (s : st) : st := mkT (ps s) (pgfaults s) (ticks s) (c0_count s) (c0_compare s) v (watch_lo s) (watch_hi s).
Definition set_watches lo hi (s : st) : st := mkT (ps s) (pgfaults s) (ticks s) (c0_count s) (c0_compare s) (con s) lo hi.

Definition on_p {A} (m : M (pst X) A) : M st A := zoom ps set_ps m.
Definition on_con {A} (m : M console A) : M st A := zoom con set_con m.
Definition t_vm {A} (m : M vm A) : M st A := on_p (on_vm m).
Definition cur_proc : M st proc_struct := let! s := get in on_p (on_k (rd_proc (current (ks (ps s))))).

Definition trap_in_kernel (tf : trapframe) : bool := Z.land (tf_status tf) KSU_USER =? 0.

(** [pte]: the entry, if there is a page table. *)
Definition get_error_code (write : bool) (pte : option Z) : Z :=
  Z.lor (match pte with Some e => if ptep_present e then 1 else 0 | None => 0 end) (if write then 2 else 0).

(** Code on the address space [p], the page tables and the counter of faults. *)
Definition on_fault {A} (p : Z) (m : M fault_state A) : M st A :=
  let! mm := on_p (rd_mm p) in
  let! s := get in
  match m (mkFs mm (kvm (ks (ps s))) (pgfaults s)) with
  | Ok (a, t) =>
      do! on_p (wr_mm p (fmm t)) in
      do! on_p (on_k (modify (set_kvm (fvm t)))) in
      do! modify (set_pgfaults (pgfault_num t)) in ret a
  | Panic => panic | Fault => fault | NoFuel => nofuel
  end.

(** [check_mm_struct] is NULL outside the self tests.  Without an [mm], [find_vma] finds
    no area. *)
Definition pgfault_handler (addr error_code : Z) : M st Z :=
  let! g := cur_proc in
  match p_mm g with
  | Some p => on_fault p (do_pgfault pm error_code addr)
  | None => do! modify (fun s => set_pgfaults (u32 (pgfaults s + 1)) s) in ret (- E_INVAL)
  end.

(** Result: whether the process goes on; otherwise it is dead and another one runs. *)
Definition handle_tlbmiss (tf : trapframe) (write : bool) : M st bool :=
  let in_kernel := trap_in_kernel tf in
  let! s := get in
  do! assert_ (negb (current_pgdir (kvm (ks (ps s))) =? 0)) in
  let badaddr := tf_vaddr tf in
  let! ptep := t_vm (get_pte pm (current_pgdir (kvm (ks (ps s)))) badaddr false) in
  let! pte := match ptep with Some a => let! e := t_vm (ldw a) in ret (Some e) | None => ret None end in
  let! r := (if match pte with None => true | Some e => ptep_invalid e end then
               let! r := pgfault_handler badaddr (get_error_code write pte) in ret (Some r)
             else
               let e := default 0 pte in
               if in_kernel then do! t_vm (tlb_refill badaddr ptep) in ret None
               else if negb (ptep_u_read e) then ret (Some (-1))
               else if write && negb (ptep_u_write e) then ret (Some (-2))
               else do! t_vm (tlb_refill badaddr ptep) in ret None) in
  match r with
  | None => ret true
  | Some r =>
      if negb (r =? 0) then
        if in_kernel then panic else do! on_p (do_exit pm sc optab (- E_KILLED)) in ret false
      else ret true
  end.

(** ** Accesses of the kernel to user addresses

    A translation in the TLB is used if it is valid; a store through one that is not
    dirty is a TLB-modify exception, which the kernel does not handle; without a valid
    translation the handler runs and the access is tried again: it may first map the
    page and then refill the TLB. *)
Definition tlb_lookup (v : vm) (va : Z) : option Z :=
  e ← head (filter (fun e => t_hi e = Z.land va (lnot32 0x1FFF)) ((map_to_list (tlb v)).*2));
  Some (if Z.land va 4096 =? 0 then t_lo0 e else t_lo1 e).
Definition kernel_frame (va : Z) : trapframe := mkTf va 0 0 0 0 0 (fun _ => 0) 0.
Fixpoint kaccess (fuel : nat) (va : Z) (write : bool) : M st unit :=
  let! s := get in
  let lo := default 0 (tlb_lookup (kvm (ks (ps s))) va) in
  if Z.testbit lo 1 then if write && negb (Z.testbit lo 2) then panic else ret tt
  else match fuel with
       | O => nofuel
       | S fuel => do! handle_tlbmiss (kernel_frame va) write in kaccess fuel va write
       end.
End Fault.
