(* ===== verification/FaultThm.v ===== *)
(** * TLB misses and page faults: theorems *)

From stdpp Require Import base gmap list.
From Stdlib Require Import ZArith Lia Bool.
From S2P Require Import Prelude.
From S2P Require Import Buddy.
From S2P Require Import Pmm.
From S2P Require Import PageTable.
From S2P Require Import PageTableInv.
From S2P Require Import PageTableOps.
From S2P Require Import PageTableThm.
From S2P Require Import Vmm.
From S2P Require Import VmmThm.
From S2P Require Import KState.
From S2P Require Import Sched.
From S2P Require Import SchedThm.
From S2P Require Import Vfs.
From S2P Require Import VfsInv.
From S2P Require Import FileThm.
From S2P Require Import Proc.
From S2P Require Import ProcThm.
From S2P Require Import Family.
From S2P Require Import ExitThm.
From S2P Require Import Fault.

(** ** Permission bits *)

Lemma land_pow2_zero x n : 0 <= n -> (Z.land x (2 ^ n) =? 0) = negb (Z.testbit x n).
Proof.
  intros Hn. destruct (Z.testbit x n) eqn:Hb; cbn [negb].
  - apply Z.eqb_neq. intros H. apply (f_equal (fun z => Z.testbit z n)) in H. rewrite Z.land_spec, Hb, Z.pow2_bits_true, Z.bits_0 in H by lia. done.
  - apply Z.eqb_eq. apply Z.bits_inj'. intros i Hi. rewrite Z.land_spec, Z.pow2_bits_eqb, Z.bits_0 by lia. destruct (Z.eqb_spec n i) as [<-|]; [by rewrite Hb|apply andb_false_r].
Qed.

Lemma entry_bit p perm n : 1 <= n < 12 -> Z.testbit (entry p perm) n = Z.testbit perm n.
Proof.
  intros Hn. unfold entry, PTE_P. rewrite !Z.lor_spec. replace (kva p) with ((524288 + p) * 2 ^ 12) by (unfold kva, KERNBASE, PGSIZE; lia).
  rewrite Z.mul_pow2_bits_low by lia. change 1 with (2 ^ 0). rewrite Z.pow2_bits_false by lia. done.
Qed.

(** The mapping lets user code read, and write if asked for. *)
Definition may_use (write : bool) (perm : Z) : bool := Z.testbit perm 2 && (negb write || Z.testbit perm 1).

Lemma u_read_entry p perm : ptep_u_read (entry p perm) = Z.testbit perm 2.
Proof. unfold ptep_u_read, PTE_U. change 4 with (2 ^ 2). by rewrite land_pow2_zero, negb_involutive, entry_bit by lia. Qed.
Lemma u_write_entry p perm : ptep_u_write (entry p perm) = Z.testbit perm 2 && Z.testbit perm 1.
Proof. unfold ptep_u_write, PTE_U, PTE_W. change 4 with (2 ^ 2). change 2 with (2 ^ 1) at 3. by rewrite !land_pow2_zero, !negb_involutive, !entry_bit by lia. Qed.

Lemma fault_perm_use (write : bool) v e : Z.land e 3 = (if write then 2 else 0) -> access_ok e (vm_flags v) = true -> may_use write (fault_perm v) = true.
Proof.
  intros He Ha. unfold access_ok in Ha. rewrite He in Ha. unfold may_use, fault_perm. destruct write; cbn [Z.eqb Pos.eqb] in Ha.
  - by rewrite Ha.
  - by destruct (negb (Z.land (vm_flags v) VM_WRITE =? 0)).
Qed.

Section Miss.
Context {X : Type} {pm : pmm_manager} `{!PmmOk pm} {sc : sched_class} `{!SchedOk sc} (optab : Z -> @inode_ops X) `{!InodeOk optab}.
Implicit Types (s : tst X) (a : aspace) (g : proc_struct).

(** The state with new page tables and a new record of the areas. *)
Definition faulted s (m : Z) mm v n : tst X :=
  set_pgfaults n (set_ps (set_ks (set_kvm v (ks (ps s))) (set_mms (<[m := mm]> (mms (ps s))) (ps s))) s).

Lemma on_fault_runs {A} s m mm (op : M fault_state A) (Q : A -> tst X -> Prop) :
  mms (ps s) !! m = Some mm ->
  runs op (mkFs mm (kvm (ks (ps s))) (pgfaults s)) (fun r t => Q r (faulted s m (fmm t) (fvm t) (pgfault_num t))) -> runs (on_fault m op) s Q.
Proof.
  intros Hm H. unfold on_fault, on_p, rd_mm. runs_steps. eapply runs_deref; [exact Hm|]. runs_steps.
  replace (set_ps (ps s) s) with s by (by destruct s). apply runs_ok in H as (r&t&->&HQ). unfold wr_mm, on_k. runs_steps. exact HQ.
Qed.

(** A process whose page fault could not be handled can still be ended. *)
Lemma Exiting_fault s a xr ch par g m mm x mm' v a' n addr w :
  Exiting (sc := sc) optab (ps s) a xr ch par g -> p_mm g = Some m -> mms (ps s) !! m = Some mm -> MmOk a mm x -> same_areas mm mm' ->
  VRep nodl a' v -> TlbOk a' v -> dirs a' = dirs a -> maps a' = maps a -> grow_tbls (tbls a) (tbls a') (x, PDX addr) -> is_u32 addr -> w ∈ mmap_list mm -> covers w addr ->
  Exiting (sc := sc) optab (ps (faulted s m mm' v n)) a' xr ch par g.
Proof.
  intros [Hg Hni Hnn HI [HT HH Hall Hnd Hpid] Hp Hw Hin (HV&HTl&Hmm&Hb) Hfs] Hgm Hm HM Hs HV' HT' Hd Hma [_ Hgr] Hla Hww Hcov.
  split; [exact Hg|exact Hni|exact Hnn|by apply SInv_kvm| |exact Hp|exact Hw|exact Hin| |exact Hfs].
  - split; [exact HT| |exact Hall|exact Hnd|exact Hpid]. destruct HH as [? ? ? ? ?]. by split.
  - cbn. split; [done|]. split; [done|]. split; [|by rewrite Hd]. intros m0 Hm0. rewrite Hgm in Hm0. injection Hm0 as <-. exists mm', x.
    split; [apply lookup_insert_eq|]. destruct HM as [Hwf Hdir Hxin Hmap Htb Hc]. destruct Hs as [Hwf' Heq]. assert (Hl : mmap_list mm' = mmap_list mm) by (by rewrite Heq).
    split; [done|by rewrite Heq|by rewrite Hd|rewrite Hma, Hl; exact Hmap| |by rewrite Heq].
    rewrite Hl. intros i t Ht. destruct (Hgr _ _ Ht) as [[= ->]|Ht']; [|by eapply Htb]. exists w. split; [done|]. unfold covers in Hcov.
    rewrite (proj1 (PDX_spec addr Hla)). unfold vpn, is_u32, W32 in *. mlia.
Qed.

(** The running process [g] has the address space [mm] with directory [x]. *)
Record Running s a xr ch par g m mm x : Prop := {
  rn_exit : Exiting (sc := sc) optab (ps s) a xr ch par g;
  rn_mm : p_mm g = Some m;
  rn_at : mms (ps s) !! m = Some mm;
  rn_ok : MmOk a mm x;
  rn_dir : current_pgdir (kvm (ks (ps s))) = kva x
}.

Definition in_tlb (v : vm) (va lo : Z) : Prop :=
  exists i e, tlb v !! i = Some e /\ vpn (t_hi e) = pair_base va /\ (if vpn va mod 2 =? 0 then t_lo0 e else t_lo1 e) = lo.
Definition allowed (mm : mm_struct) (write : bool) (va : Z) : Prop :=
  exists w, (w ∈ mmap_list mm) /\ covers w va /\ access_ok (if write then 2 else 0) (vm_flags w) = true.

(** The process goes on: the address is mapped with the permission it needs, either as
    before, and now in the TLB, or to a fresh page, because an area allows it. *)
Definition resolved s a m mm x va write s' : Prop := exists mm' v' a' n p perm,
  s' = faulted s m mm' v' n /\ same_areas mm mm' /\ VRep nodl a' v' /\ TlbOk a' v' /\ dirs a' = dirs a /\ current_pgdir v' = kva x /\
  maps a' !! (x, vpn va) = Some (p, perm) /\ may_use write perm = true /\
  ((a' = a /\ in_tlb v' va (pte2tlblow (entry p perm))) \/
   (maps a !! (x, vpn va) = None /\ maps a' = <[(x, vpn va) := (p, perm)]> (maps a) /\ allowed mm write va /\
    ~ pm_owned (vpm (kvm (ks (ps s)))) p /\ ledger a (vpm (kvm (ks (ps s)))) a' (vpm v'))).
(** The process is ended: the mapping there is does not allow the access, or no area
    does, or there is no memory for the page. *)
Definition killed s a xr ch par g m mm x va write s' : Prop := exists mm' v' a' n,
  exited optab (sc := sc) (ps (faulted s m mm' v' n)) a' xr ch par g (- E_KILLED) (ps s') /\ maps a' = maps a /\
  ledger a (vpm (kvm (ks (ps s)))) a' (vpm v') /\
  ((exists p perm, maps a !! (x, vpn va) = Some (p, perm) /\ may_use write perm = false) \/ (maps a !! (x, vpn va) = None /\ ~ allowed mm write va) \/
   (maps a !! (x, vpn va) = None /\ allowed mm write va /\ pm_nfree (vpm v') = 0)).

Lemma faulted_same s m mm v : mms (ps s) !! m = Some mm -> set_ps (set_ks (set_kvm v (ks (ps s))) (ps s)) s = faulted s m mm v (pgfaults s).
Proof. intros Hm. unfold faulted. rewrite insert_id by done. by destruct s as [[] ? ? ? ? ? ? ?]. Qed.
Lemma faulted_id s m mm : mms (ps s) !! m = Some mm -> faulted s m mm (kvm (ks (ps s))) (pgfaults s) = s.
Proof. intros Hm. unfold faulted. rewrite insert_id by done. by destruct s as [[[] ? ? ? ? ? ? ?] ? ? ? ? ? ? ?]. Qed.

Lemma t_vm_runs {A} (m : M vm A) s Q : runs m (kvm (ks (ps s))) (fun r v => Q r (set_ps (set_ks (set_kvm v (ks (ps s))) (ps s)) s)) -> runs (t_vm m) s Q.
Proof. intros H. unfold t_vm, on_p. apply runs_zoom. by apply on_vm_runs. Qed.

Lemma exit_killed s a xr ch par g m mm x va write s1 mm' v' a' n :
  s1 = faulted s m mm' v' n -> Exiting (sc := sc) optab (ps s1) a' xr ch par g -> maps a' = maps a -> ledger a (vpm (kvm (ks (ps s)))) a' (vpm v') ->
  ((exists p perm, maps a !! (x, vpn va) = Some (p, perm) /\ may_use write perm = false) \/ (maps a !! (x, vpn va) = None /\ ~ allowed mm write va) \/
   (maps a !! (x, vpn va) = None /\ allowed mm write va /\ pm_nfree (vpm v') = 0)) ->
  runs (do! on_p (do_exit pm sc optab (- E_KILLED)) in ret false) s1 (fun b s' => if (b : bool) then resolved s a m mm x va write s' else killed s a xr ch par g m mm x va write s').
Proof.
  intros -> HE Hm HL Hr. unfold on_p. runs_steps. runs_by (do_exit_runs optab _ a' xr ch par g); [exact HE|]. intros _ p' Hx. runs_steps. exists mm', v', a', n. done.
Qed.

(** A present mapping. *)
Lemma refill_runs s a xr ch par g m mm x t va write p perm :
  Running s a xr ch par g m mm x -> is_u32 va -> tbls a !! (x, PDX va) = Some t -> maps a !! (x, vpn va) = Some (p, perm) -> may_use write perm = true ->
  runs (t_vm (tlb_refill va (Some (slot t (PTX va))))) s (fun _ s' => resolved s a m mm x va write s').
Proof.
  intros [HE Hgm Hm HM Hdir] Hva Ht Hmap Huse. pose proof (xt_vm _ _ _ _ _ _ _ HE) as (HV&HTl&_&_). apply t_vm_runs.
  runs_by (tlb_refill_runs a (kvm (ks (ps s))) x va t); [done|done|done|done|done|]. intros _ v' (HV'&HT'&Hc&e&He&Hhi&_&_&Hlo).
  exists mm, v', a, (pgfaults s), p, perm. split; [by apply faulted_same|]. split; [apply same_areas_refl, HM|]. do 3 (split; [done|]). split; [by rewrite Hc|]. do 2 (split; [done|]).
  left. split; [done|]. exists (Z.land (tlb_index (kvm (ks (ps s)))) 15), e. split; [done|]. split; [done|]. by apply Hlo.
Qed.

(** No mapping. *)
Lemma fault_runs s a xr ch par g m mm x va (write : bool) pte :
  Running s a xr ch par g m mm x -> is_u32 va -> maps a !! (x, vpn va) = None -> (pte = None \/ pte = Some 0) ->
  runs (let! r := pgfault_handler pm va (get_error_code write pte) in if negb (r =? 0) then do! on_p (do_exit pm sc optab (- E_KILLED)) in ret false else ret true) s
    (fun b s' => if (b : bool) then resolved s a m mm x va write s' else killed s a xr ch par g m mm x va write s').
Proof.
  intros [HE Hgm Hm HM Hdir] Hva Hnone Hpte. pose proof (xt_vm _ _ _ _ _ _ _ HE) as (HV&HTl&_&_).
  assert (He : get_error_code write pte = if write then 2 else 0) by (destruct Hpte as [-> | ->], write; reflexivity). rewrite He.
  unfold pgfault_handler, cur_proc, on_p. runs_steps. apply on_k_runs. eapply rd_proc_runs; [apply HE|]. runs_steps. rewrite Hgm.
  replace (set_ps (set_ks (ks (ps s)) (ps s)) s) with s by (by destruct s as [[] ? ? ? ? ? ? ?]). eapply on_fault_runs; [exact Hm|].
  set (t0 := mkFs mm (kvm (ks (ps s))) (pgfaults s)). pose proof (do_pgfault_full a t0 x (if write then 2 else 0) va) as HF.
  specialize (HF (mo_wf _ _ _ HM) HV (mo_in _ _ _ HM) (mo_dir _ _ _ HM) Hva). apply runs_ok in HF as (r&t&Ht&Hs&Hcase). apply runs_ok. exists r, t. split; [done|]. cbn beta.
  destruct Hcase as [(->&Hv&Hno)|(w&a'&Hw&Hcov&Hacc&HV'&Hd&Hgr&Hc&HL&[(->&Hz&Hma&Hup&Htl)|(->&_&Hfl&p&Hfp&Hma&_)])].
  - change (- E_INVAL =? 0) with false. cbn [negb]. eapply (exit_killed s a); [done| |done| |right; left; by split].
    2: { rewrite Hv. by eapply ledger_refl. }
    cbn [fvm t0] in Hv. rewrite Hv. destruct HE as [Hg Hni Hnn HI [HT HH Hall Hnd Hpid] Hp Hww Hin (HV1&HTl1&Hmm&Hb) Hfs].
    split; [exact Hg|exact Hni|exact Hnn|by apply SInv_kvm| |exact Hp|exact Hww|exact Hin| |exact Hfs].
    + split; [exact HT| |exact Hall|exact Hnd|exact Hpid]. destruct HH as [? ? ? ? ?]. by split.
    + cbn. split; [done|]. split; [done|]. split; [|done]. intros m0 Hm0. rewrite Hgm in Hm0. injection Hm0 as <-. exists (fmm t), x. split; [apply lookup_insert_eq|].
      destruct HM as [Hwf Hdr Hxin Hmap Htb Hct]. destruct Hs as [Hwf' Heq]. cbn [fmm t0] in Heq. rewrite Heq. split; [by rewrite <-Heq|done..].
  - change (- E_NO_MEM =? 0) with false. cbn [negb]. eapply (exit_killed s a xr ch par g m mm x va write _ (fmm t) (fvm t) a'); [done| |done|done|right; right; split; [done|split; [by exists w|]]].
    2: { destruct Hz as [[? Hz]|Hz]; [congruence|done]. }
    eapply Exiting_fault; try done. intros i e d Hi Hte Hdd Hin. rewrite Htl in Hte. rewrite Hc in Hdd. rewrite Hd in Hin. pose proof (HTl i e d Hi Hte Hdd Hin) as Hsl.
    unfold slot_ok in *. by rewrite Hma.
  - change (0 =? 0) with true. cbn [negb]. runs_steps. exists (fmm t), (fvm t), a', (pgfault_num t), p, (fault_perm w). split; [done|]. split; [done|]. split; [done|].
    split; [by apply flushed_ok|]. split; [done|]. split; [by rewrite Hc|]. split; [rewrite Hma; apply lookup_insert_eq|]. split; [eapply fault_perm_use; [|exact Hacc]; by destruct write|].
    right. split; [done|]. split; [done|]. split; [by exists w|]. by split.
Qed.

Lemma handle_tlbmiss_runs s a xr ch par g m mm x tf write :
  Running s a xr ch par g m mm x -> trap_in_kernel tf = false -> is_u32 (tf_vaddr tf) ->
  runs (handle_tlbmiss pm sc optab tf write) s (fun b s' =>
    if (b : bool) then resolved s a m mm x (tf_vaddr tf) write s' else killed s a xr ch par g m mm x (tf_vaddr tf) write s').
Proof.
  intros HR Hk Hva. pose proof HR as [HE Hgm Hm HM Hdir]. pose proof (xt_vm _ _ _ _ _ _ _ HE) as (HV&HTl&_&_). set (va := tf_vaddr tf) in *.
  unfold handle_tlbmiss. rewrite Hk. fold va. runs_steps. rewrite Hdir. apply runs_assert; [apply negb_true_iff, Z.eqb_neq; unfold kva, KERNBASE, PGSIZE; pose proof (mo_in _ _ _ HM) as Hi;
    destruct (r_dir _ _ _ HV _ Hi) as (Ho&_); destruct (pm_owned_page _ _ (r_inv _ _ _ HV) Ho) as [? _]; lia|].
  runs_steps. apply t_vm_runs. runs_by (get_pte_runs nodl a (kvm (ks (ps s))) x va false); [done|apply HM|done|]. intros ptep v'. destruct ptep as [wa|].
  - intros (t&a'&->&Hg&Hsame). destruct (Hsame (or_introl eq_refl)) as [-> ->]. rewrite (faulted_same s m mm) by done. rewrite faulted_id by done.
    pose proof Hg as (_&_&_&_&_&Ht&_). unfold ldw. runs_steps. apply t_vm_runs. runs_steps. rewrite (faulted_same s m mm), faulted_id by done.
    rewrite (pte_read _ _ _ x va t HV Hva Ht). destruct (maps a !! (x, vpn va)) as [[p perm]|] eqn:Hmap.
    + destruct (mapped_page _ _ _ _ _ _ _ HV Hmap) as (_&Hperm&Hp&_). pose proof (r_npage _ _ _ HV). unfold ptep_invalid.
      rewrite (proj2 (Z.eqb_neq (entry p perm) 0)) by (apply entry_nonzero; lia). cbn [from_option]; unfold id. rewrite u_read_entry, u_write_entry.
      assert (Hdead : may_use write perm = false -> runs (do! on_p (do_exit pm sc optab (- E_KILLED)) in ret false) s
        (fun b s' => if (b : bool) then resolved s a m mm x va write s' else killed s a xr ch par g m mm x va write s')).
      { intros Hno. eapply (exit_killed s a xr ch par g m mm x va write s mm (kvm (ks (ps s))) a (pgfaults s)); [by rewrite faulted_id|exact HE|done|by eapply ledger_refl|left; eauto]. }
      unfold may_use in Hdead. destruct (Z.testbit perm 2) eqn:H2; cbn [negb andb]; [|runs_steps; cbn [Z.eqb negb]; by apply Hdead]. cbn [andb] in Hdead.
      destruct write, (Z.testbit perm 1) eqn:H1; cbn [negb andb orb] in *; try (runs_steps; cbn [Z.eqb negb]; by apply Hdead);
        (runs_steps; runs_by (refill_runs s a xr ch par g m mm x t va); [done|done|done|done| |intros _ s' Hres; runs_steps; exact Hres]);
        unfold may_use; by rewrite H2, ?H1.
    + unfold ptep_invalid. cbn [Z.eqb]. runs_steps. pose proof (fault_runs s a xr ch par g m mm x va write (Some 0) HR Hva Hmap (or_intror eq_refl)) as HF.
      apply runs_ok in HF as (b&s'&HF&HQ). unfold bind in HF. destruct (pgfault_handler pm va (get_error_code write (Some 0)) s) as [[r s1]| | |] eqn:Hpg; [|done..].
      apply runs_ok. exists r, s1. split; [done|]. runs_steps. destruct (negb (r =? 0)); apply runs_ok; by exists b, s'.
  - intros (->&Hnt&_). rewrite (faulted_same s m mm), faulted_id by done. runs_steps. assert (Hmap : maps a !! (x, vpn va) = None).
    { destruct (maps a !! (x, vpn va)) as [[p perm]|] eqn:Hmap; [|done]. destruct (r_map _ _ _ HV _ _ _ _ Hmap) as (_&[t Ht]&_). rewrite (proj1 (PDX_spec va Hva)) in Hnt. congruence. }
    pose proof (fault_runs s a xr ch par g m mm x va write None HR Hva Hmap (or_introl eq_refl)) as HF.
    apply runs_ok in HF as (b&s'&HF&HQ). unfold bind in HF. destruct (pgfault_handler pm va (get_error_code write None) s) as [[r s1]| | |] eqn:Hpg; [|done..].
    apply runs_ok. exists r, s1. split; [done|]. runs_steps. destruct (negb (r =? 0)); apply runs_ok; by exists b, s'.
Qed.

(** A TLB miss in user mode.  If the address is mapped with the permission the access
    needs, the translation is put into the TLB; if it is not mapped and an area allows
    the access, a fresh page is mapped there with the area's permission; in both cases
    the process goes on, page tables and TLB stay consistent.  Otherwise the process is
    ended, for one of three reasons: the mapping does not permit the access, no area
    allows it, or not one page is free. *)
Theorem handle_tlbmiss_correct s a xr ch par g m mm x tf write :
  Running s a xr ch par g m mm x -> trap_in_kernel tf = false -> is_u32 (tf_vaddr tf) ->
  runs (handle_tlbmiss pm sc optab tf write) s (fun b s' =>
    if (b : bool) then resolved s a m mm x (tf_vaddr tf) write s' else killed s a xr ch par g m mm x (tf_vaddr tf) write s').
Proof. apply handle_tlbmiss_runs. Qed.
End Miss.
