(* ===== verification/Exec.v ===== *)
(** * Loading programs (load_icode and do_execve of kern/process/proc.c, elf.h)

    Addresses of kernel buffers and locals, and what the allocators answer, are arguments
    ([exec_mem]).  A [goto] to one of the clean-up labels is the result [inl ret]. *)

From stdpp Require Import base gmap list.
From Stdlib Require Import ZArith Lia Bool.
From S2P Require Import Prelude.
From S2P Require Import Atomic.
From S2P Require Import Pmm.
From S2P Require Import PageTable.
From S2P Require Import Vmm.
From S2P Require Import KState.
From S2P Require Import Sched.
From S2P Require Import Vfs.
From S2P Require Import Proc.
From S2P Require Import Sfs.
From S2P Require Import Sysfile.
From S2P Require Import Fault.

Definition E_INVAL_ELF : Z := 8.
Definition ELF_MAGIC : Z := 0x464C457F.
Definition ELF_PT_LOAD : Z := 1.
Definition ELF_PF_X : Z := 1.
Definition ELF_PF_W : Z := 2.
Definition ELF_PF_R : Z := 4.
Definition USTACKTOP : Z := USERTOP.
Definition USTACKSIZE : Z := 16 * PGSIZE.
Definition EXEC_MAX_ARG_NUM : Z := 32.
Definition EXEC_MAX_ARG_LEN : Z := 4095.
Definition PROC_NAME_LEN : Z := 30.
Definition sizeof_elfhdr : Z := 52.
Definition sizeof_proghdr : Z := 32.

(** The word at an address. *)
Definition word (m : bytes) (a : Z) : Z := get_le 4 (peek m a 4).

Record elfhdr32 := mkElf {
  e_magic : Z; e_type : Z; e_machine : Z; e_version : Z; e_entry : Z; e_phoff : Z; e_shoff : Z; e_flags : Z;
  e_ehsize : Z; e_phentsize : Z; e_phnum : Z; e_shentsize : Z; e_shnum : Z; e_shstrndx : Z
}.
Definition _load_elfhdr (m : bytes) (base : Z) : elfhdr32 :=
  let t1 := word m (base + 16) in
  let t2 := word m (base + 40) in
  let t3 := word m (base + 44) in
  let t4 := word m (base + 48) in
  mkElf (word m base) (Z.land t1 0xFFFF) (Z.shiftr t1 16) (word m (base + 20)) (word m (base + 24)) (word m (base + 28)) (word m (base + 32)) (word m (base + 36))
        (Z.land t2 0xFFFF) (Z.shiftr t2 16) (Z.land t3 0xFFFF) (Z.shiftr t3 16) (Z.land t4 0xFFFF) (Z.shiftr t4 16).

Record proghdr := mkPh { p_type : Z; p_offset : Z; p_va : Z; p_pa : Z; p_filesz : Z; p_memsz : Z; p_flags : Z; p_align : Z }.
Definition proghdr_at (m : bytes) (a : Z) : proghdr :=
  mkPh (word m a) (word m (a + 4)) (word m (a + 8)) (word m (a + 12)) (word m (a + 16)) (word m (a + 20)) (word m (a + 24)) (word m (a + 28)).

(** The addresses of [___elfhdr__], [_ph] and [local_name]; what [kmalloc] gives: the
    buffers of [sysfile_read] and [sysfile_open], the [mm], the areas, the arguments. *)
Record exec_mem := mkXm { x_hdr : Z; x_ph : Z; x_name : Z; x_rbuf : option Z; x_path : option Z; x_mm : option Z; x_vmas : list bool; x_args : list (option Z) }.

Section Exec.
Context {X : Type}.
Abbreviation st := (tst X).
Variable pm : pmm_manager.
Variable sc : sched_class.
Variable optab : Z -> @inode_ops X.
Variable fsops : @fs_ops X.
Variable xm : exec_mem.

Definition mem_of (s : st) : bytes := fmem (fsys (ps s)).

Definition load_icode_read (fd buf len offset : Z) : M st Z :=
  let! r := on_p (sysfile_seek optab fd offset LSEEK_SET) in
  if negb (r =? 0) then ret r
  else
    let! r := on_p (sysfile_read optab (x_rbuf xm) fd buf len) in
    if negb (u32 r =? len) then ret (if r <? 0 then r else -1) else ret 0.

(** The size of the part of a page from [start] on, up to [end_]; [la]: the next page. *)
Definition part_size (off la end_ : Z) : Z :=
  let size := u32 (PGSIZE - off) in if end_ <? la then u32 (size - u32 (la - end_)) else size.

(** The first [while (start < end)]: pages filled from the file.  Result: [ret], or
    [start], [la] and the last page. *)
Fixpoint file_pages (fuel : nat) (dir fd perm start end_ la offset : Z) (page : option Z) : M st (Z + (Z * Z * option Z)) :=
  if start <? end_ then
    match fuel with
    | O => nofuel
    | S fuel =>
        let! pg := t_vm (pgdir_alloc_page pm dir la perm) in
        match pg with
        | None => ret (inl (- E_NO_MEM))
        | Some pg =>
            let off := u32 (start - la) in
            let la := u32 (la + PGSIZE) in
            let size := part_size off la end_ in
            let! kva := t_vm (page2kva pg) in
            let! r := load_icode_read fd (u32 (kva + off)) size offset in
            if negb (r =? 0) then ret (inl r)
            else file_pages fuel dir fd perm (u32 (start + size)) end_ la (s32 (offset + size)) (Some pg)
        end
    end
  else ret (inr (start, la, page)).

(** The second [while (start < end)]: pages of zeros. *)
Fixpoint zero_pages (fuel : nat) (dir perm start end_ la : Z) : M st (Z + unit) :=
  if start <? end_ then
    match fuel with
    | O => nofuel
    | S fuel =>
        let! pg := t_vm (pgdir_alloc_page pm dir la perm) in
        match pg with
        | None => ret (inl (- E_NO_MEM))
        | Some pg =>
            let off := u32 (start - la) in
            let la := u32 (la + PGSIZE) in
            let size := part_size off la end_ in
            let! kva := t_vm (page2kva pg) in
            do! on_p (on_bytes (modify (bzero (u32 (kva + off)) size))) in
            zero_pages fuel dir perm (u32 (start + size)) end_ la
        end
    end
  else ret (inr tt).

(** The rest of the last page, when the file's part ends inside it. *)
Definition zero_tail (start la end_ : Z) (page : option Z) : M st Z :=
  let off := u32 (start + PGSIZE - la) in
  let size := part_size off la end_ in
  let! pg := deref page in
  let! kva := t_vm (page2kva pg) in
  do! on_p (on_bytes (modify (bzero (u32 (kva + off)) size))) in
  let start := u32 (start + size) in
  do! assert_ ((end_ <? la) && (start =? end_) || (la <=? end_) && (start =? la)) in ret start.

Definition seg_flags (ph : proghdr) : Z :=
  Z.lor (Z.lor (if negb (Z.land (p_flags ph) ELF_PF_X =? 0) then VM_EXEC else 0) (if negb (Z.land (p_flags ph) ELF_PF_W =? 0) then VM_WRITE else 0))
        (if negb (Z.land (p_flags ph) ELF_PF_R =? 0) then VM_READ else 0).
(** [perm] is not reset between segments. *)
Definition seg_perm (perm : Z) (ph : proghdr) : Z :=
  let perm := Z.lor perm PTE_U in if negb (Z.land (seg_flags ph) VM_WRITE =? 0) then Z.lor perm PTE_W else perm.

(** Pages of a segment. *)
Definition load_pages (mm fd perm : Z) (ph : proghdr) : M st (Z + unit) :=
  let start := p_va ph in
  let la := ROUNDDOWN_2N start PGSHIFT in
  let end_ := u32 (p_va ph + p_filesz ph) in
  let fuel := S (Z.to_nat (p_memsz ph / PGSIZE + 1)) in
  let! m := on_p (rd_mm mm) in
  let! r := file_pages fuel (pgdir m) fd perm start end_ la (s32 (p_offset ph)) None in
  match r with
  | inl e => ret (inl e)
  | inr (start, la, page) =>
      let end_ := u32 (p_va ph + p_memsz ph) in
      if start <? la then
        if end_ <=? start then ret (inr tt)
        else let! start := zero_tail start la end_ page in zero_pages fuel (pgdir m) perm start end_ la
      else zero_pages fuel (pgdir m) perm start end_ la
  end.

(** One round of [for (phnum = 0; ...)]: [ret], or [perm] and the answers not used yet. *)
Definition load_segment (mm fd phoff phnum perm : Z) (oks : list bool) : M st (Z + (Z * list bool)) :=
  let! r := load_icode_read fd (x_ph xm) sizeof_proghdr (s32 (phoff + sizeof_proghdr * phnum)) in
  if negb (r =? 0) then ret (inl r)
  else
    let! s := get in
    let ph := proghdr_at (mem_of s) (x_ph xm) in
    if negb (p_type ph =? ELF_PT_LOAD) then ret (inr (perm, oks))
    else if p_memsz ph <? p_filesz ph then ret (inl (- E_INVAL_ELF))
    else
      let perm := seg_perm perm ph in
      let! r := on_p (at_mm mm (mm_map (default false (head oks)) (p_va ph) (p_memsz ph) (seg_flags ph))) in
      if negb (fst r =? 0) then ret (inl (fst r))
      else
        let! r := load_pages mm fd perm ph in
        match r with inl e => ret (inl e) | inr _ => ret (inr (perm, tail oks)) end.
Fixpoint load_segments (k : nat) (mm fd phoff phnum perm : Z) (oks : list bool) : M st (Z + list bool) :=
  match k with
  | O => ret (inr oks)
  | S k =>
      let! r := load_segment mm fd phoff phnum perm oks in
      match r with inl e => ret (inl e) | inr (perm, oks) => load_segments k mm fd phoff (phnum + 1) perm oks end
  end.

(** [strcpy] into the user's stack. *)
Fixpoint strcpy_user (k : nat) (dst src : Z) : M st unit :=
  match k with
  | O => nofuel
  | S k =>
      let! s := get in
      let c := mem_of s src in
      do! kaccess pm sc optab 3 dst true in
      do! on_p (on_bytes (modify (poke dst [c]))) in
      if c =? 0 then ret tt else strcpy_user k (u32 (dst + 1)) (u32 (src + 1))
  end.
(** [uargv[i] = strcpy((char * )(stacktop + i * PGSIZE), kargv[i])]. *)
Fixpoint put_args (i stacktop uargv : Z) (kargv : list Z) : M st unit :=
  match kargv with
  | [] => ret tt
  | a :: kargv =>
      let dst := u32 (stacktop + i * PGSIZE) in
      do! strcpy_user (Z.to_nat (EXEC_MAX_ARG_LEN + 1)) dst a in
      do! kaccess pm sc optab 3 (u32 (uargv + 4 * i)) true in
      do! on_p (on_bytes (modify (poke (u32 (uargv + 4 * i)) (put_le 4 dst)))) in
      put_args (i + 1) stacktop uargv kargv
  end.

(** The clean-up labels. *)
Definition bad_pgdir_cleanup_mm (mm ret_ : Z) : M st Z := do! on_p (destroy_mm mm) in ret ret_.
Definition bad_elf_cleanup_pgdir (mm ret_ : Z) : M st Z :=
  let! m := on_p (rd_mm mm) in do! t_vm (put_pgdir pm m) in bad_pgdir_cleanup_mm mm ret_.
Definition bad_cleanup_mmap (mm ret_ : Z) : M st Z :=
  let! m := on_p (rd_mm mm) in do! t_vm (exit_mmap pm m) in bad_elf_cleanup_pgdir mm ret_.

(** From [mm_count_inc(mm)] on: the process gets the address space, its arguments and
    the frame with which it starts. *)
Definition start_program (mm argc entry : Z) (kargv : list Z) : M st Z :=
  do! on_p (at_mm mm mm_count_inc) in
  let! s := get in
  let cur := current (ks (ps s)) in
  do! on_p (on_k (upd_proc cur (set_p_mm (Some mm)))) in
  let! m := on_p (rd_mm mm) in
  let! pa := t_vm (PADDR (pgdir m)) in
  do! on_p (on_k (upd_proc cur (set_cr3 pa))) in
  do! t_vm (lcr3 pa) in
  let stacktop := u32 (USTACKTOP - argc * PGSIZE) in
  let uargv := u32 (stacktop - argc * 4) in
  do! put_args 0 stacktop uargv kargv in
  let! s := get in
  let status := Z.lor (Z.lor (Z.land (PageTable.status (kvm (ks (ps s)))) (lnot32 ST0_KSU)) KSU_USER) ST0_EXL in
  let tf := set_reg MIPS_REG_A1 uargv (set_reg MIPS_REG_A0 argc (set_reg MIPS_REG_SP USTACKTOP (mkTf 0 status 0 0 0 0 (fun _ => 0) entry))) in
  do! on_p (modify (fun p => set_ptf (<[cur := tf]> (ptf p)) p)) in
  ret 0.

Definition load_icode (fd argc : Z) (kargv : list Z) : M st Z :=
  let! g := cur_proc in
  if match p_mm g with Some _ => true | None => false end then panic
  else
    match x_mm xm with
    | None => ret (- E_NO_MEM)
    | Some mm =>
        let! m0 := deref (mm_create true) in
        do! on_p (wr_mm mm m0) in
        let! s := get in
        let! r := t_vm (setup_pgdir pm (boot_pgdir (ps s))) in
        match snd r with
        | None => bad_pgdir_cleanup_mm mm (- E_NO_MEM)
        | Some pgd =>
            do! on_p (wr_mm mm (mkMm (mmap_list m0) (mmap_cache m0) pgd (map_count m0) (mm_count m0) (mm_sem m0))) in
            let! r := load_icode_read fd (x_hdr xm) sizeof_elfhdr 0 in
            if negb (r =? 0) then bad_elf_cleanup_pgdir mm r
            else
              let! s := get in
              let elf := _load_elfhdr (mem_of s) (x_hdr xm) in
              if negb (e_magic elf =? ELF_MAGIC) then bad_elf_cleanup_pgdir mm (- E_INVAL_ELF)
              else
                let! r := load_segments (Z.to_nat (e_phnum elf)) mm fd (e_phoff elf) 0 0 (x_vmas xm) in
                match r with
                | inl e => bad_cleanup_mmap mm e
                | inr oks =>
                    do! on_p (sysfile_close optab fd) in
                    let! r := on_p (at_mm mm (mm_map (default false (head oks)) (USTACKTOP - USTACKSIZE) USTACKSIZE (Z.lor (Z.lor VM_READ VM_WRITE) VM_STACK))) in
                    if negb (fst r =? 0) then bad_cleanup_mmap mm (fst r)
                    else start_program mm argc (e_entry elf) kargv
                end
        end
    end.

(** [for (i = 0; i < argc; i ++)] of [copy_kargv]: [ret] or the buffers. *)
Fixpoint copy_args (k : nat) (mm : option Z) (argv : Z) (bufs : list (option Z)) : M st (Z + list Z) :=
  match k with
  | O => ret (inr [])
  | S k =>
      match head bufs with
      | None | Some None => ret (inl (- E_NO_MEM))
      | Some (Some buffer) =>
          let! s := get in
          let! ok := on_p (string_user mm buffer (word (mem_of s) argv) (EXEC_MAX_ARG_LEN + 1)) in
          if negb ok then ret (inl (- E_INVAL))
          else
            let! r := copy_args k mm (u32 (argv + 4)) (tail bufs) in
            match r with inl e => ret (inl e) | inr l => ret (inr (buffer :: l)) end
      end
  end.
Definition copy_kargv (mm : option Z) (argc argv : Z) : M st (Z + list Z) :=
  let! ok := on_p (mem_check mm argv (u32 (4 * argc)) false) in
  if negb ok then ret (inl (- E_INVAL)) else copy_args (Z.to_nat argc) mm argv (x_args xm).

(** [None]: the process is dead.  The name is only for messages; [snprintf] into
    [local_name] cannot fail. *)
Definition do_execve (name : option Z) (argc argv : Z) : M st (option Z) :=
  let! g := cur_proc in
  let mm := p_mm g in
  if negb ((1 <=? argc) && (argc <=? EXEC_MAX_ARG_NUM)) then ret (Some (- E_INVAL))
  else
    let! ok := match name with None => ret true | Some a => on_p (string_user mm (x_name xm) a (PROC_NAME_LEN + 1)) end in
    if negb ok then ret (Some (- E_INVAL))
    else
      let! r := copy_kargv mm argc argv in
      match r with
      | inl e => ret (Some e)
      | inr kargv =>
          let! s := get in
          let path := word (mem_of s) argv in
          let cur := current (ks (ps s)) in
          let! f := deref (pfs (ps s) !! cur) in
          do! on_p (on_fsys (fs_closeall optab f)) in
          let! fd := on_p (sysfile_open optab fsops (x_path xm) path O_RDONLY) in
          if fd <? 0 then do! on_p (do_exit pm sc optab fd) in ret None
          else
            do! on_p (drop_mm pm cur) in
            let! r := load_icode fd argc kargv in
            if negb (r =? 0) then do! on_p (do_exit pm sc optab r) in ret None else ret (Some 0)
      end.
End Exec.
