(* ===== verification/Trap.v ===== *)
(** * System calls, interrupts and traps (kern/syscall/syscall.c, kern/trap/trap.c, clock.c)

    A handler that gives up the CPU inside (exit, wait, sleep) is followed up to the
    switch to another process: its result is then [None].  Printing is left out.  What
    the allocator answers and the addresses of locals are arguments ([sys_mem]). *)

From stdpp Require Import base gmap list.
From Stdlib Require Import ZArith Lia Bool.
From S2P Require Import Prelude.
From S2P Require Import Atomic.
From S2P Require Import Pmm.
From S2P Require Import PageTable.
From S2P Require Import Vmm.
From S2P Require Import KState.
From S2P Require Import Sched.
From S2P Require Import Sync.
From S2P Require Import Vfs.
From S2P Require Import Dev.
From S2P Require Import Console.
From S2P Require Import Proc.
From S2P Require Import Sfs.
From S2P Require Import Gdb.
From S2P Require Import Sysfile.
From S2P Require Import Fault.
From S2P Require Import Exec.

Definition SYSCALL_BASE : Z := 0x80.
Definition NUM_SYSCALLS : Z := 131.
Definition TIMER0_INTERVAL : Z := 1000000.
Definition TIMER0_IRQ : Z := 7.
Definition COM1_IRQ : Z := 4.
Definition CAUSEB_IP : Z := 8.
Definition GET_CAUSE_EXCODE (x : Z) : Z := Z.shiftr (Z.land x (Z.shiftl 31 2)) 2.
Definition EX_IRQ : Z := 0.
Definition EX_MOD : Z := 1.
Definition EX_TLBL : Z := 2.
Definition EX_TLBS : Z := 3.
Definition EX_ADEL : Z := 4.
Definition EX_ADES : Z := 5.
Definition EX_SYS : Z := 8.
Definition EX_BP : Z := 9.
Definition EX_RI : Z := 10.
Definition EX_CPU : Z := 11.
Definition EX_OVF : Z := 12.
Definition EX_DBG : Z := 23.

(** Buffers from [kmalloc], the memory of a fork and of an exec, the addresses of the
    sleeper's [timer_t], of a [struct stat] and of the strings of [getcwd]; the lines
    typed to the debugger. *)
Record sys_mem := mkYm { y_buf : option Z; y_fork : fork_mem; y_exec : exec_mem; y_timer : Z; y_stat : Z; y_name : Z; y_colon : Z; y_lines : list (Z -> Z) }.

Section Trap.
Context {X : Type}.
Abbreviation st := (tst X).
Variable pm : pmm_manager.
Variable sc : sched_class.
Variable optab : Z -> @inode_ops X.
Variable fsops : @fs_ops X.
Variable forkret : Z.
(** The state of the devices inside the private state, and the queue of [dev_stdin.c]. *)
Variable getdev : X -> devst.
Variable setdev : devst -> X -> X.
Variable stdin_queue : Z.
Variable ym : sys_mem.

(** [Some r]: the call returns [r]; [None]: the process does not run on. *)
Definition syscall_fn := (Z -> Z) -> M st (option Z).
Definition returns (m : M (pst X) Z) : M st (option Z) := let! r := on_p m in ret (Some r).

(** ** syscall.c *)

Definition sys_exit : syscall_fn := fun arg => do! on_p (do_exit pm sc optab (s32 (arg 0))) in ret None.
Definition sys_fork : syscall_fn := fun arg =>
  let! s := get in
  let! tf := deref (ptf (ps s) !! current (ks (ps s))) in
  returns (do_fork pm sc optab forkret (y_fork ym) 0 (reg_r tf MIPS_REG_SP) tf).
Definition sys_wait : syscall_fn := fun arg =>
  let store := if arg 1 =? 0 then None else Some (arg 1) in
  let! r := on_p (do_wait pm sc (s32 (arg 0)) store) in
  match r with
  | WaitDone r code =>
      do! match store, code with
          | Some a, Some c => on_p (on_bytes (modify (poke a (put_le 4 (u32 c)))))
          | _, _ => ret tt
          end in
      ret (Some r)
  | WaitSleep => ret None
  end.
Definition sys_exec : syscall_fn := fun arg =>
  do_execve pm sc optab fsops (y_exec ym) (if arg 0 =? 0 then None else Some (arg 0)) (s32 (arg 1)) (arg 2).
Definition sys_yield : syscall_fn := fun arg => returns (on_k do_yield).
Definition sys_kill : syscall_fn := fun arg => returns (on_k (do_kill sc (s32 (arg 0)))).
Definition sys_getpid : syscall_fn := fun arg => let! g := cur_proc in ret (Some (pid g)).
Definition sys_putc : syscall_fn := fun arg => do! on_con (cons_putc (s32 (arg 0))) in ret (Some 0).
Definition sys_pgdir : syscall_fn := fun arg => ret (Some 0).
Definition sys_break : syscall_fn := fun arg => do! modify (fun s => set_watches (u32 (arg 0)) (watch_hi s) s) in ret (Some 0).
Definition sys_gettime : syscall_fn := fun arg => let! s := get in ret (Some (s32 (ticks s))).
Definition sys_sleep : syscall_fn := fun arg =>
  let! b := on_p (on_k (do_sleep_enter sc (y_timer ym) (arg 0))) in ret (if (b : bool) then None else Some 0).
Definition sys_open : syscall_fn := fun arg => returns (sysfile_open optab fsops (y_buf ym) (arg 0) (arg 1)).
Definition sys_close : syscall_fn := fun arg => returns (sysfile_close optab (s32 (arg 0))).
Definition sys_read : syscall_fn := fun arg => returns (sysfile_read optab (y_buf ym) (s32 (arg 0)) (arg 1) (arg 2)).
Definition sys_write : syscall_fn := fun arg => returns (sysfile_write optab (y_buf ym) (s32 (arg 0)) (arg 1) (arg 2)).
Definition sys_seek : syscall_fn := fun arg => returns (sysfile_seek optab (s32 (arg 0)) (s32 (arg 1)) (s32 (arg 2))).
Definition sys_fstat : syscall_fn := fun arg => returns (sysfile_fstat optab (y_stat ym) (s32 (arg 0)) (arg 1)).
Definition sys_fsync : syscall_fn := fun arg => returns (sysfile_fsync optab (s32 (arg 0))).
Definition sys_chdir : syscall_fn := fun arg => returns (sysfile_chdir optab fsops (y_buf ym) (arg 0)).
Definition sys_getcwd : syscall_fn := fun arg => returns (sysfile_getcwd optab (y_name ym) (y_colon ym) (arg 0) (arg 1)).
Definition sys_getdirentry : syscall_fn := fun arg => returns (sysfile_getdirentry optab (y_buf ym) (s32 (arg 0)) (arg 1)).
Definition sys_dup : syscall_fn := fun arg => returns (sysfile_dup (s32 (arg 0)) (s32 (arg 1))).

(** The table, by number; [sys_chdir] is not in it. *)
Definition syscalls : list (Z * syscall_fn) :=
  [(1, sys_exit); (2, sys_fork); (3, sys_wait); (4, sys_exec); (10, sys_yield); (11, sys_sleep); (12, sys_kill); (17, sys_gettime); (18, sys_getpid);
   (30, sys_putc); (31, sys_pgdir); (45, sys_break); (100, sys_open); (101, sys_close); (102, sys_read); (103, sys_write); (104, sys_seek);
   (110, sys_fstat); (111, sys_fsync); (121, sys_getcwd); (128, sys_getdirentry); (130, sys_dup)].
Definition syscall_at (num : Z) : option syscall_fn := snd <$> head (filter (fun e => fst e = num) syscalls).

Definition upd_frame (f : trapframe -> trapframe) : M st unit :=
  let! s := get in
  let cur := current (ks (ps s)) in
  let! tf := deref (ptf (ps s) !! cur) in
  on_p (modify (fun p => set_ptf (<[cur := f tf]> (ptf p)) p)).

(** Whether the process runs on. *)
Definition syscall : M st bool :=
  let! s := get in
  let! tf := deref (ptf (ps s) !! current (ks (ps s))) in
  let num := s32 (s32 (reg_r tf MIPS_REG_V0) - SYSCALL_BASE) in
  match (if (0 <=? num) && (num <? NUM_SYSCALLS) then syscall_at num else None) with
  | Some f =>
      let! r := f (fun i => if i =? 0 then reg_r tf MIPS_REG_A0 else if i =? 1 then reg_r tf MIPS_REG_A1
                            else if i =? 2 then reg_r tf MIPS_REG_A2 else reg_r tf MIPS_REG_A3) in
      match r with
      | Some v => do! upd_frame (set_reg MIPS_REG_V0 (u32 v)) in ret true
      | None => ret false
      end
  | None => panic
  end.

(** ** Interrupts *)

Definition reload_timer : M st unit := modify (fun s => set_clock (ticks s) (u32 (c0_count s + TIMER0_INTERVAL)) s).
Definition clock_int_handler : M st unit :=
  do! modify (fun s => set_clock (u32 (ticks s + 1)) (c0_compare s) s) in
  do! on_p (on_k (run_timer_list sc)) in
  reload_timer.

(** With the wake-up of the readers of stdin. *)
Definition serial_int_handler : M st unit :=
  let! c := on_con cons_getc in
  let c := Printf.s8 (c mod 256) in
  do! on_p (on_fsys (zoom (fun f => getdev (priv f)) (fun d f => set_priv (setdev d (priv f)) f) (dev_stdin_write c))) in
  if negb (c =? 0) then on_p (on_k (wakeup_queue sc stdin_queue WT_KBD true)) else ret tt.

(** [for(i=0;i<8;i++)]. *)
Fixpoint irq_loop (k : nat) (i cause : Z) : M st unit :=
  match k with
  | O => ret tt
  | S k =>
      do! (if negb (Z.land cause (Z.shiftl 1 (CAUSEB_IP + i)) =? 0) then
             if i =? TIMER0_IRQ then clock_int_handler else if i =? COM1_IRQ then serial_int_handler else panic
           else ret tt) in
      irq_loop k (i + 1) cause
  end.
Definition interrupt_handler (tf : trapframe) : M st unit := irq_loop 8 0 (tf_cause tf).

(** ** Traps *)

Definition kill_or_panic (tf : trapframe) : M st bool :=
  if trap_in_kernel tf then panic else do! on_p (do_exit pm sc optab (- E_KILLED)) in ret false.

(** The debugger on the frame, the memory and the breakpoint registers; afterwards
    interrupts are on. *)
Definition debug_trap (tf : trapframe) : M st unit :=
  let! s := get in
  match debug_handler (fun a => word (mem_of s) a) (y_lines ym) (mkDbg tf (watch_lo s) (watch_hi s)) with
  | Ok d =>
      do! modify (set_watches (watchlo d) (watchhi d)) in
      do! upd_frame (fun _ => d_tf d) in
      t_vm (zoom PageTable.status (fun x v => mkVm (vpm v) (mem v) (current_pgdir v) x (tlb v) (tlb_index v)) intr_enable)
  | Panic => panic | Fault => fault | NoFuel => nofuel
  end.

Definition skip_instr (tf : trapframe) : trapframe :=
  mkTf (tf_vaddr tf) (tf_status tf) (tf_cause tf) (tf_lo tf) (tf_hi tf) (tf_ra tf) (reg_r tf) (u32 (tf_epc tf + 4)).

Definition trap_dispatch (tf : trapframe) : M st bool :=
  let code := GET_CAUSE_EXCODE (tf_cause tf) in
  if code =? EX_IRQ then do! interrupt_handler tf in ret true
  else if code =? EX_TLBL then handle_tlbmiss pm sc optab tf false
  else if code =? EX_TLBS then handle_tlbmiss pm sc optab tf true
  else if (code =? EX_RI) || (code =? EX_CPU) || (code =? EX_OVF) then kill_or_panic tf
  else if code =? EX_SYS then do! upd_frame skip_instr in syscall
  else if (code =? EX_ADEL) || (code =? EX_ADES) then kill_or_panic tf
  else if code =? EX_DBG then do! debug_trap tf in ret true
  else panic.

(** What [mips_trap] does after [trap_dispatch]: [otf] is the frame that was current
    before.  [Some tf]: back to the interrupted code with [tf]. *)
Definition trap_return (cur : Z) (otf : option trapframe) (in_kernel : bool) : M st (option trapframe) :=
  let! s := get in
  let! tf := deref (ptf (ps s) !! cur) in
  do! on_p (modify (fun p => set_ptf (match otf with Some t => <[cur := t]> (ptf p) | None => delete cur (ptf p) end) p)) in
  if in_kernel then ret (Some tf)
  else
    let! g := cur_proc in
    if negb (Z.land (KState.p_flags g) PF_EXITING =? 0) then do! on_p (do_exit pm sc optab (- E_KILLED)) in ret None
    else if need_resched g then
      do! on_p (on_k (schedule sc)) in
      let! s := get in ret (if current (ks (ps s)) =? cur then Some tf else None)
    else ret (Some tf).

(** With [current != NULL]. *)
Definition mips_trap (tf : trapframe) : M st (option trapframe) :=
  let! s := get in
  let cur := current (ks (ps s)) in
  let otf := ptf (ps s) !! cur in
  do! on_p (modify (fun p => set_ptf (<[cur := tf]> (ptf p)) p)) in
  let! on := trap_dispatch tf in
  if (on : bool) then trap_return cur otf (trap_in_kernel tf) else ret None.
End Trap.
