(* ===== verification/TrapThm.v ===== *)
(** * Traps: theorems *)

From stdpp Require Import base gmap list.
From Stdlib Require Import ZArith Lia Bool.
From S2P Require Import Prelude.
From S2P Require Import Pmm.
From S2P Require Import PageTable.
From S2P Require Import PageTableInv.
From S2P Require Import PageTableOps.
From S2P Require Import Vmm.
From S2P Require Import VmmThm.
From S2P Require Import KState.
From S2P Require Import Sched.
From S2P Require Import SchedThm.
From S2P Require Import Vfs.
From S2P Require Import VfsInv.
From S2P Require Import Dev.
From S2P Require Import Proc.
From S2P Require Import ExitThm.
From S2P Require Import Sfs.
From S2P Require Import SfsIo.
From S2P Require Import Sysfile.
From S2P Require Import SysfileThm.
From S2P Require Import Fault.
From S2P Require Import FaultThm.
From S2P Require Import Exec.
From S2P Require Import Trap.

Definition excode (tf : trapframe) : Z := GET_CAUSE_EXCODE (tf_cause tf).

Section Traps.
Context {X : Type} {pm : pmm_manager} {sc : sched_class} (optab : Z -> @inode_ops X) (fsops : @fs_ops X) (forkret : Z).
Context (getdev : X -> devst) (setdev : devst -> X -> X) (stdin_queue : Z) (ym : sys_mem).
Implicit Types (s : tst X) (tf : trapframe).
Abbreviation mips_trap := (mips_trap pm sc optab fsops forkret getdev setdev stdin_queue ym).
Abbreviation trap_dispatch := (trap_dispatch pm sc optab fsops forkret getdev setdev stdin_queue ym).
Abbreviation syscall_at := (syscall_at pm sc optab fsops forkret ym).

(** The frame of the trap is the process's frame while it is handled. *)
Definition with_frame tf s : tst X := set_ps (set_ptf (<[current (ks (ps s)) := tf]> (ptf (ps s))) (ps s)) s.
Definition restore (otf : option trapframe) s : tst X :=
  set_ps (set_ptf (match otf with Some t => <[current (ks (ps s)) := t]> (ptf (ps s)) | None => delete (current (ks (ps s))) (ptf (ps s)) end) (ps s)) s.

Lemma mips_trap_runs tf s Q :
  runs (trap_dispatch tf) (with_frame tf s) (fun on s1 =>
    if (on : bool) then runs (trap_return pm sc optab (current (ks (ps s))) (ptf (ps s) !! current (ks (ps s))) (trap_in_kernel tf)) s1 Q else Q None s1) ->
  runs (mips_trap tf) s Q.
Proof.
  intros H. unfold Trap.mips_trap, on_p. runs_steps. eapply runs_mono; [exact H|]. cbn beta. intros [|] s1 HQ; [exact HQ|by runs_steps].
Qed.

Lemma upd_frame_eq f tf s : upd_frame f (with_frame tf s) = Ok (tt, with_frame (f tf) s).
Proof.
  unfold upd_frame, bind, get, on_p, zoom, modify. unfold with_frame at 1 2. cbn [ps set_ps ks set_ptf ptf]. rewrite lookup_insert_eq. cbn [deref]. unfold ret, with_frame.
  cbn [ps set_ps ks set_ptf ptf]. rewrite insert_insert_eq. done.
Qed.

(** A process that is neither killed nor to be preempted goes on with its frame. *)
Lemma trap_return_runs cur otf in_kernel s tf g (Q : option trapframe -> tst X -> Prop) :
  current (ks (ps s)) = cur -> ptf (ps s) !! cur = Some tf -> procs (ks (ps s)) !! cur = Some g -> Z.land (KState.p_flags g) PF_EXITING = 0 -> need_resched g = false ->
  Q (Some tf) (restore otf s) -> runs (trap_return pm sc optab cur otf in_kernel) s Q.
Proof.
  intros <- Htf Hg Hf Hn HQ. unfold trap_return, on_p. runs_steps. eapply runs_deref; [exact Htf|]. runs_steps. fold (restore otf s).
  destruct in_kernel; [by runs_steps|]. unfold cur_proc, on_p. runs_steps. apply on_k_runs. eapply rd_proc_runs; [exact Hg|]. runs_steps.
  rewrite Hf, Hn. cbn [Z.eqb negb]. runs_steps. replace (set_ps _ _) with (restore otf s); [exact HQ|]. by destruct s as [[] ? ? ? ? ? ? ?].
Qed.

(** ** Exceptions without a handler *)

(** C32: Whatever the state and whether or not the processor was in user mode, a trap whose
    exception code has no case in [trap_dispatch] panics the kernel; so does a system
    call whose number is not in the table.  Among the former are the store to a page
    that the TLB holds as read-only (EX_MOD) and the break instruction (EX_BP). *)
Theorem unhandled_trap_panics s tf :
  (excode tf ∉ [EX_IRQ; EX_TLBL; EX_TLBS; EX_ADEL; EX_ADES; EX_SYS; EX_RI; EX_CPU; EX_OVF; EX_DBG] -> mips_trap tf s = Panic) /\
  (excode tf = EX_SYS -> syscall_at (s32 (s32 (reg_r tf MIPS_REG_V0) - SYSCALL_BASE)) = None -> mips_trap tf s = Panic).
Proof.
  unfold Trap.mips_trap, on_p, bind, get, zoom, modify, ret. fold (with_frame tf s). split.
  - intros Hn. rewrite !not_elem_of_cons in Hn. unfold Trap.trap_dispatch. fold (excode tf). destruct Hn as (?&?&?&?&?&?&?&?&?&?&_).
    rewrite !(proj2 (Z.eqb_neq _ _)) by done. done.
  - intros He Hs. unfold Trap.trap_dispatch. fold (excode tf). rewrite He. cbn [Z.eqb orb Pos.eqb EX_SYS EX_IRQ EX_TLBL EX_TLBS EX_RI EX_CPU EX_OVF].
    unfold bind. rewrite upd_frame_eq. unfold Trap.syscall, bind, get. unfold with_frame at 1 2 3. cbn [ps set_ps ks set_ptf ptf]. rewrite lookup_insert_eq.
    cbn [deref ret reg_r skip_instr]. unfold ret. rewrite Hs. by destruct (_ && _).
Qed.

(** ** A TLB miss of a user program *)

Section Miss.
Context `{!PmmOk pm} `{!SchedOk sc} `{!InodeOk optab}.

Lemma Running_frame tf s a xr ch par g m mm x : Running (pm := pm) (sc := sc) optab s a xr ch par g m mm x -> Running (pm := pm) (sc := sc) optab (with_frame tf s) a xr ch par g m mm x.
Proof. intros [[? ? ? ? ? ? ? ? ? ?] ? ? ? ?]. by split. Qed.

(** C8: A TLB miss of a user program, from the trap to the return: if the access is one the
    program may make, it returns with exactly the registers it had, so that the
    instruction is tried again, and the address is mapped, as before or to a page that
    was free ([resolved], FaultThm.v); otherwise the process is dead and does not
    return.  It dies for one of three reasons ([killed]): what is mapped there forbids
    the access; nothing is mapped there and no area allows the access; nothing is mapped
    there, an area allows the access, but no physical page is free any more. *)
Theorem tlbmiss_trap_correct s a xr ch par g m mm x tf :
  Running (pm := pm) (sc := sc) optab s a xr ch par g m mm x -> trap_in_kernel tf = false -> is_u32 (tf_vaddr tf) -> excode tf = EX_TLBL \/ excode tf = EX_TLBS ->
  Z.land (KState.p_flags g) PF_EXITING = 0 -> need_resched g = false ->
  runs (mips_trap tf) s (fun r s' =>
    match r with
    | Some tf' => tf' = tf /\ exists s1, resolved (with_frame tf s) a m mm x (tf_vaddr tf) (excode tf =? EX_TLBS) s1 /\ s' = restore (ptf (ps s) !! current (ks (ps s))) s1
    | None => killed (pm := pm) (sc := sc) optab (with_frame tf s) a xr ch par g m mm x (tf_vaddr tf) (excode tf =? EX_TLBS) s'
    end).
Proof.
  intros HR Hk Hva Hcode Hf Hn. apply mips_trap_runs. pose proof (handle_tlbmiss_runs optab _ _ _ _ _ _ _ _ _ tf (excode tf =? EX_TLBS) (Running_frame tf _ _ _ _ _ _ _ _ _ HR) Hk Hva) as HH.
  assert (Hd : trap_dispatch tf = handle_tlbmiss pm sc optab tf (excode tf =? EX_TLBS)) by (unfold Trap.trap_dispatch; fold (excode tf); by destruct Hcode as [-> | ->]).
  rewrite Hd. eapply runs_mono; [exact HH|]. cbn beta. intros [|] s1; [|done]. intros Hres. pose proof Hres as (mm'&v'&a'&n&p&perm&->&_).
  eapply trap_return_runs; [done|cbn; apply lookup_insert_eq|apply (xt_cur _ _ _ _ _ _ _ (rn_exit _ _ _ _ _ _ _ _ _ _ HR))|done|done|]. split; [done|]. by eexists.
Qed.
End Miss.

(** ** The system call [read] *)

Lemma syscall_read_at : syscall_at 102 = Some (sys_read optab ym).
Proof. reflexivity. Qed.
Lemma syscall_write_at : syscall_at 103 = Some (sys_write optab ym).
Proof. reflexivity. Qed.

(** A system call that leaves the process and its frame alone. *)
Lemma syscall_trap_runs s tf g num f (Q : option trapframe -> tst X -> Prop) :
  excode tf = EX_SYS -> reg_r tf MIPS_REG_V0 = SYSCALL_BASE + num -> 0 <= num < NUM_SYSCALLS -> syscall_at num = Some f ->
  procs (ks (ps s)) !! current (ks (ps s)) = Some g -> Z.land (KState.p_flags g) PF_EXITING = 0 -> need_resched g = false ->
  runs (f (fun i => if i =? 0 then reg_r tf MIPS_REG_A0 else if i =? 1 then reg_r tf MIPS_REG_A1 else if i =? 2 then reg_r tf MIPS_REG_A2 else reg_r tf MIPS_REG_A3))
    (with_frame (skip_instr tf) s) (fun r s1 => exists v, r = Some v /\ ks (ps s1) = ks (ps s) /\ ptf (ps s1) = ptf (ps (with_frame (skip_instr tf) s)) /\
      Q (Some (set_reg MIPS_REG_V0 (u32 v) (skip_instr tf))) (restore (ptf (ps s) !! current (ks (ps s))) (with_frame (set_reg MIPS_REG_V0 (u32 v) (skip_instr tf)) s1))) ->
  runs (mips_trap tf) s Q.
Proof.
  intros He Hv0 Hnum Hat Hg Hf Hn Hrun. apply mips_trap_runs. unfold Trap.trap_dispatch. fold (excode tf). rewrite He. cbn [Z.eqb orb Pos.eqb EX_SYS EX_IRQ EX_TLBL EX_TLBS EX_RI EX_CPU EX_OVF].
  runs_steps. apply runs_ok. exists tt, (with_frame (skip_instr tf) s). split; [apply upd_frame_eq|]. unfold Trap.syscall. runs_steps.
  eapply runs_deref; [cbn; apply lookup_insert_eq|]. cbn [reg_r skip_instr]. rewrite Hv0. rewrite (s32_small (SYSCALL_BASE + num)) by (unfold SYSCALL_BASE, NUM_SYSCALLS in *; lia).
  replace (SYSCALL_BASE + num - SYSCALL_BASE) with num by lia. rewrite s32_small by (unfold NUM_SYSCALLS in *; lia).
  rewrite (proj2 (Z.leb_le 0 num)), (proj2 (Z.ltb_lt num NUM_SYSCALLS)) by lia. cbn [andb]. rewrite Hat. runs_steps. eapply runs_mono; [exact Hrun|]. cbn beta.
  intros r s1 (v&->&Hk&Hp&HQ). runs_steps. apply runs_ok. exists tt, (with_frame (set_reg MIPS_REG_V0 (u32 v) (skip_instr tf)) s1). split.
  - rewrite <-upd_frame_eq. f_equal. unfold with_frame at 1. rewrite Hp, Hk. cbn [ps set_ps set_ptf ptf with_frame]. rewrite insert_insert_eq.
    cbn [ps with_frame set_ps set_ptf ptf] in Hp. rewrite <-Hp. by destruct s1 as [[] ? ? ? ? ? ? ?].
  - cbn beta. runs_steps. eapply trap_return_runs; [cbn; by rewrite Hk|cbn; rewrite Hk; apply lookup_insert_eq|cbn; rewrite Hk; exact Hg|done|done|exact HQ].
Qed.

Section Read.
Context (fd : Z) (scr : Z -> Prop) (R : list Z -> fst_ X -> Prop) (HR : readable_as optab fd scr R) (mm : option Z) (okb : Z -> Prop) (buf : Z).
Hypothesis Hbuf : kbuf scr buf IOBUF_SIZE.

(** C7: The system call [read], from the trap to the return to the caller: the program
    goes on behind the syscall instruction with all registers but [$v0] as they were,
    [$v0] is the number of bytes read (or the error), and they are in its buffer
    ([delivered] says which bytes, and that nothing else of the program's memory has
    changed). *)
Theorem read_syscall_correct s tf g l :
  excode tf = EX_SYS -> reg_r tf MIPS_REG_V0 = SYSCALL_BASE + 102 -> s32 (reg_r tf MIPS_REG_A0) = fd -> is_u32 (reg_r tf MIPS_REG_A1) -> 0 < reg_r tf MIPS_REG_A2 < W32 ->
  procs (ks (ps s)) !! current (ks (ps s)) = Some g -> Z.land (KState.p_flags g) PF_EXITING = 0 -> need_resched g = false -> y_buf ym = Some buf ->
  p_mm g = mm -> may_access mm true okb (ps s) -> R l (fsys (sync (ps s))) ->
  apart scr okb buf (reg_r tf MIPS_REG_A1) (reg_r tf MIPS_REG_A2) ->
  runs (mips_trap tf) s (fun r s' => exists k e p1, delivered scr R okb buf (sync (ps (with_frame (skip_instr tf) s))) l (reg_r tf MIPS_REG_A1) (reg_r tf MIPS_REG_A2) k e p1 /\
    r = Some (set_reg MIPS_REG_V0 (u32 (if decide (k = 0) then e else k)) (skip_instr tf)) /\
    ks (ps s') = ks (ps s) /\ fsys (ps s') = fsys p1 /\ mms (ps s') = mms p1 /\ ptf (ps s') = ptf (ps s)).
Proof.
  intros He Hv0 Hfd Hb Hl Hg Hf Hn Hy Hm Hacc HRl Hsep. eapply (syscall_trap_runs s tf g 102); [done|done|unfold NUM_SYSCALLS; lia|exact syscall_read_at|done|done|done|].
  unfold sys_read, returns, on_p. cbn [Z.eqb Pos.eqb]. rewrite Hy, Hfd. runs_steps.
  runs_by (sysfile_read_runs optab fd scr R HR mm okb buf Hbuf (ps (with_frame (skip_instr tf) s)) g l); [exact Hg|exact Hm|by destruct mm|exact HRl|exact Hb|exact Hl|exact Hsep|].
  intros r p1 (k&e&Hd&->). runs_steps. pose proof Hd as ((Hk&_&Hp&_)&_). eexists. split; [done|]. split; [exact Hk|]. split; [exact Hp|].
  exists k, e, p1. split; [exact Hd|]. split; [done|]. unfold restore, with_frame. cbn [ps set_ps set_ptf ks fsys mms ptf]. split; [exact Hk|]. split; [done|]. split; [done|].
  rewrite Hk, Hp. cbn [ps set_ps set_ptf ks ptf sync set_fsys with_frame]. destruct (ptf (ps s) !! current (ks (ps s))) as [t|] eqn:Ht.
  - rewrite !insert_insert_eq. by apply insert_id.
  - rewrite insert_insert_eq. by apply delete_insert_id.
Qed.
End Read.
End Traps.
