(* ===== verification/TrapEx.v ===== *)
(** * Traps of concrete machines

    The shell of ProcEx.v touches its data page, which is mapped but not in the TLB, and
    an address that no area covers; the shell of SysEx.v calls [read]. *)

From stdpp Require Import base gmap list.
From Stdlib Require Import ZArith Lia Bool.
From S2P Require Import Prelude.
From S2P Require Import Buddy.
From S2P Require Import BuddyThm.
From S2P Require Import Pmm.
From S2P Require Import PageTable.
From S2P Require Import PageTableInv.
From S2P Require Import PageTableOps.
From S2P Require Import Vmm.
From S2P Require Import VmmThm.
From S2P Require Import KState.
From S2P Require Import Sched.
From S2P Require Import SchedThm.
From S2P Require Import Vfs.
From S2P Require Import VfsInv.
From S2P Require Import FileThm.
From S2P Require Import Dev.
From S2P Require Import DevThm.
From S2P Require Import Console.
From S2P Require Import Proc.
From S2P Require Import ProcThm.
From S2P Require Import Family.
From S2P Require Import ExitThm.
From S2P Require Import ProcEx.
From S2P Require Import Sfs.
From S2P Require Import SfsInv.
From S2P Require Import SfsIo.
From S2P Require Import SfsDev.
From S2P Require Import Sysfile.
From S2P Require Import SysfileThm.
From S2P Require Import SysfileSfs.
From S2P Require Import SysEx.
From S2P Require Import Fault.
From S2P Require Import FaultThm.
From S2P Require Import Exec.
From S2P Require Import Trap.
From S2P Require Import TrapThm.

Definition trap_con : console := mkCon 0 0 (fun _ => 0) (fun _ => 0) true [] [] (fun _ => 0) 0 0.
Definition trap_mem : sys_mem := mkYm (Some 0x30000) (mkForkMem None None None []) (mkXm 0 0 0 None None None [] []) 0 0 0 0 [].
Definition no_fs : @fs_ops devst := mkFsOps (fun _ => ret 0) (fun _ => ret 0) (fun _ => ret 0) (fun _ => ret tt).
(** A trap in user mode: exception code, bad address, registers. *)
Definition user_frame (code va : Z) (r : Z -> Z) : trapframe := mkTf va KSU_USER (Z.shiftl code 2) 0 0 0 r 0x400100.

Definition fam_t : tst devst := mkT fam_s 0 0 0 0 trap_con 0 0.
Definition fam_trap := mips_trap buddy_pmm_manager default_sched_class ex_ops no_fs 0 id (fun d _ => d) 0 trap_mem.

Lemma fam_running : Running (pm := buddy_pmm_manager) (sc := default_sched_class) ex_ops fam_t fam_as ex_xr fam_ch 2 p_shell 7 (with_count 1 ex_mm) 53.
Proof. split; [exact fam_exiting|reflexivity|reflexivity|exact fam_mm|reflexivity]. Qed.

(** A break instruction of a user program, and a store to a read-only page in the TLB,
    stop the machine; so does system call 19, which is not in the table. *)
Lemma unhandled_trap_panics_witness :
  fam_trap (user_frame EX_BP 0 (fun _ => 0)) fam_t = Panic /\ fam_trap (user_frame EX_MOD 0x10400010 (fun _ => 0)) fam_t = Panic /\
  fam_trap (user_frame EX_SYS 0 (fun _ => 147)) fam_t = Panic.
Proof.
  split; [|split].
  - eapply (proj1 (unhandled_trap_panics ex_ops no_fs 0 id (fun d _ => d) 0 trap_mem fam_t (user_frame EX_BP 0 (fun _ => 0)))). apply (bool_decide_unpack _). reflexivity.
  - eapply (proj1 (unhandled_trap_panics ex_ops no_fs 0 id (fun d _ => d) 0 trap_mem fam_t (user_frame EX_MOD 0x10400010 (fun _ => 0)))). apply (bool_decide_unpack _). reflexivity.
  - eapply (proj2 (unhandled_trap_panics ex_ops no_fs 0 id (fun d _ => d) 0 trap_mem fam_t (user_frame EX_SYS 0 (fun _ => 147)))); reflexivity.
Defined.

Lemma data_not_killed write s' : ~ killed (pm := buddy_pmm_manager) (sc := default_sched_class) ex_ops fam_t fam_as ex_xr fam_ch 2 p_shell 7 (with_count 1 ex_mm) 53 0x10400123 write s'.
Proof.
  intros (mm'&v'&a'&n&_&_&_&[(p&perm&Hm&Hu)|[[Hm _]|[Hm _]]]); [|discriminate Hm|discriminate Hm].
  vm_compute in Hm. injection Hm as <- <-. destruct write; discriminate Hu.
Qed.

(** A store to the data page: the translation to page 56 goes into the TLB. *)
Lemma handle_tlbmiss_correct_witness :
  runs (handle_tlbmiss buddy_pmm_manager default_sched_class ex_ops (user_frame EX_TLBS 0x10400123 (fun _ => 0)) true) fam_t (fun b s' =>
    b = true /\ in_tlb (kvm (ks (ps s'))) 0x10400123 (pte2tlblow (entry 56 PTE_USER))).
Proof.
  eapply runs_mono; [apply (handle_tlbmiss_correct ex_ops fam_t fam_as ex_xr fam_ch 2 p_shell 7 (with_count 1 ex_mm) 53 (user_frame EX_TLBS 0x10400123 (fun _ => 0)) true fam_running);
    [reflexivity|unfold is_u32, W32; cbn; lia]|].
  cbn beta. intros [|] s'; [|intros Hk; by destruct (data_not_killed _ _ Hk)].
  intros (mm'&v'&a'&n&p&perm&->&_&_&_&_&_&Hm&_&[[-> Ht]|[Hn _]]); [|discriminate Hn]. split; [reflexivity|].
  vm_compute in Hm. injection Hm as <- <-. exact Ht.
Defined.

(** A load from 0x200, which no area covers: the shell becomes a zombie. *)
Lemma tlbmiss_trap_correct_witness :
  runs (fam_trap (user_frame EX_TLBL 0x200 (fun _ => 0))) fam_t (fun r s' =>
    r = None /\ exists g, procs (ks (ps s')) !! 3 = Some g /\ state g = PROC_ZOMBIE /\ exit_code g = - E_KILLED).
Proof.
  eapply runs_mono.
  - apply (tlbmiss_trap_correct ex_ops no_fs 0 id (fun d _ => d) 0 trap_mem fam_t fam_as ex_xr fam_ch 2 p_shell 7 (with_count 1 ex_mm) 53 (user_frame EX_TLBL 0x200 (fun _ => 0)) fam_running);
      [reflexivity|unfold is_u32, W32; cbn; lia|left; reflexivity|reflexivity|reflexivity].
  - cbn beta. intros [tf|] s'.
    + intros (_&s1&(mm'&v'&a'&n&p&perm&_&_&_&_&_&_&Hm&_&[[-> _]|(_&_&(w&Hw&Hc&_)&_)])&_); [discriminate Hm|]. exfalso.
      cbn in Hw. rewrite !elem_of_cons, elem_of_nil in Hw. unfold covers in Hc. cbn in Hc. destruct Hw as [-> | [-> | []]]; cbn in Hc; lia.
    + intros (mm'&v'&a'&n&(_&_&_&_&Hc&_)&_). split; [reflexivity|].
      assert (H3 : exit_table fam_procs fam_ch 3 2 2 (- E_KILLED) !! 3 = Some (ended (- E_KILLED) p_shell)) by reflexivity.
      destruct (same_core_look _ _ _ _ Hc H3) as (g&Hg&E3). destruct (core_fields _ _ E3) as (S3&_&_&C3&_). exists g. rewrite S3, C3. done.
Defined.

(** [read(3, 0x10400010, 10)] gets the five bytes of the file. *)
Definition sys_t : tst (sfsx devst) := mkT sys_s 0 0 0 0 trap_con 0 0.
Definition read_regs (i : Z) : Z :=
  if i =? MIPS_REG_V0 then SYSCALL_BASE + 102 else if i =? MIPS_REG_A0 then 3 else if i =? MIPS_REG_A1 then 0x10400010 else if i =? MIPS_REG_A2 then 10 else 77.
Definition set_xdev (d : devst) (x : sfsx devst) : sfsx devst := mkSfsx d (xsfs x) (sins x) (pool x).
Definition sys_trap := mips_trap buddy_pmm_manager default_sched_class ex_tab (sfs_fsop ex_io 1) 0 xdev set_xdev 0 trap_mem.

Lemma read_syscall_correct_witness :
  runs (sys_trap (user_frame EX_SYS 0 read_regs)) sys_t (fun r s' => exists tf, r = Some tf /\ reg_r tf MIPS_REG_V0 = 5 /\ reg_r tf MIPS_REG_A1 = 0x10400010 /\ tf_epc tf = 0x400104 /\
    peek (fmem (fsys (ps s'))) 0x10400010 5 = [104; 101; 108; 108; 111]).
Proof.
  eapply runs_mono.
  - apply (read_syscall_correct (pm := buddy_pmm_manager) (sc := default_sched_class) ex_tab (sfs_fsop ex_io 1) 0 xdev set_xdev 0 trap_mem 3 ex_fsmem ex_rest
      (sfs_readable ex_io ex_sdevst ex_client_dec 1 3 1 7 0x20000 _) (Some 7) (ex_okb true) 0x30000 sys_kbuf sys_t (user_frame EX_SYS 0 read_regs) p_shell
      [104; 101; 108; 108; 111]); try reflexivity; [cbn; unfold is_u32, W32; lia|cbn; unfold W32; lia|exact (sys_access true)| |intros x _; exact (sys_apart true x)].
    exists sys_file, ex_file, [4]. destruct SysEx.sys_open as [H1 H2]. done.
  - cbn beta. intros r s' (k&e&p1&(_&_&_&Hp&_&_&[(Hk&_)|(_&_&Hn)])&Hr&_&Hf&_).
    + cbn in Hk. subst k. eexists. split; [exact Hr|]. do 3 (split; [reflexivity|]). rewrite Hf. exact Hp.
    + destruct Hn. intros x Hx. apply sys_data. cbn in Hx. lia.
Defined.
