(* ===== verification/ExecThm.v ===== *)
(** * Loading a program: theorems

    The ELF loader turns a file into the pages of a new address space.  The file is seen
    through the interfaces [readable_as] (SysfileThm.v) and [seekable_as]; the pages
    through the abstract address space (PageTableInv.v). *)

From stdpp Require Import base gmap list.
From Stdlib Require Import ZArith Lia Bool.
From S2P Require Import Prelude.
From S2P Require Import Buddy.
From S2P Require Import Pmm.
From S2P Require Import PageTable.
From S2P Require Import PageTableInv.
From S2P Require Import PageTableOps.
From S2P Require Import PageTableThm.
From S2P Require Import Vmm.
From S2P Require Import VmmThm.
From S2P Require Import KState.
From S2P Require Import Sched.
From S2P Require Import Vfs.
From S2P Require Import Proc.
From S2P Require Import ExitThm.
From S2P Require Import Sfs.
From S2P Require Import SfsInv.
From S2P Require Import SfsIo.
From S2P Require Import Sysfile.
From S2P Require Import SysfileThm.
From S2P Require Import Fault.
From S2P Require Import FaultThm.
From S2P Require Import Exec.

(** A file, looked at as memory. *)
Definition file_bytes (L : list Z) : bytes := fun x => nth (Z.to_nat x) L 0.

Lemma file_bytes_at L off n i : 0 <= off -> 0 <= i < n -> off + n <= Z.of_nat (length L) -> nth (Z.to_nat i) (take (Z.to_nat n) (drop (Z.to_nat off) L)) 0 = file_bytes L (off + i).
Proof.
  intros Ho Hi Hn. unfold file_bytes. rewrite !nth_lookup, lookup_take_lt, lookup_drop by lia. do 2 f_equal. lia.
Qed.
Lemma peek_nth m b n i : 0 <= i < n -> nth (Z.to_nat i) (peek m b n) 0 = m (b + i).
Proof.
  intros Hi. unfold peek. rewrite nth_lookup, list_lookup_fmap, lookup_seqZ_lt by lia. cbn. f_equal. lia.
Qed.

(** ** Reading a part of the file *)

Section Load.
Context {X : Type} {pm : pmm_manager} `{!PmmOk pm} (optab : Z -> @inode_ops X) (xm : exec_mem) (fd : Z) (scr : Z -> Prop) (L : list Z) (R : list Z -> fst_ X -> Prop).
Context (HR : readable_as optab fd scr R) (HS : seekable_as optab fd L R) (buf : Z).
Hypothesis Hbuf : kbuf scr buf IOBUF_SIZE.
Hypothesis Hrbuf : x_rbuf xm = Some buf.
Hypothesis Hlen : Z.of_nat (length L) < 2147483648.
Implicit Types (s : tst X) (a : aspace).
Abbreviation fb := (file_bytes L).

(** The descriptor is open on the file, and the process has no address space. *)
Definition open_on s : Prop := (exists l, R l (fsys (sync (ps s)))) /\ exists g, procs (ks (ps s)) !! current (ks (ps s)) = Some g /\ p_mm g = None.

(** Of the memory, what a read of [n] bytes to [b] may change. *)
Definition touches (b n x : Z) : Prop := range b n x \/ range buf IOBUF_SIZE x \/ scr x.

(** [n] bytes at [b] have been written: [val] says what. *)
Definition wrote s (b n : Z) (val : Z -> Z) s' : Prop :=
  s' = set_ps (ps s') s /\ calm (ps s) (ps s') /\ open_on s' /\ (forall i, 0 <= i < n -> mem_of s' (b + i) = val i) /\
  (forall x, ~ touches b n x -> mem_of s' x = mem_of s x).

Lemma load_icode_read_runs s b n off :
  open_on s -> KERNBASE <= b -> b + n <= KERNTOP -> 0 < n -> 0 <= off -> off + n <= Z.of_nat (length L) -> (forall x, range b n x -> ~ range buf IOBUF_SIZE x /\ ~ scr x) ->
  runs (load_icode_read optab xm fd b n off) s (fun r s' => r = 0 /\ wrote s b n (fun i => fb (off + i)) s').
Proof.
  intros ([l Hl]&g&Hg&Hmm) Hb Hbn Hn Ho Hon Hap. assert (HbW : is_u32 b /\ n < W32) by (unfold is_u32, W32, KERNTOP, KERNBASE, KMEMSIZE in *; lia). destruct HbW as [HbW HnW].
  unfold load_icode_read, on_p, sysfile_seek. runs_steps. apply on_files_runs. runs_by (HS l (fsys (sync (ps s))) off); [done|lia|]. intros r f1 (->&HR1&Hm1&Hc1). cbn [Z.eqb negb].
  set (p1 := set_fsys f1 (sync (ps s))). runs_steps. rewrite Hrbuf.
  assert (Hsy : sync p1 = p1) by (apply sync_id; unfold synced; cbn; by rewrite Hc1).
  runs_by (sysfile_read_runs optab fd scr R HR None (fun x => KERNBASE <= x < KERNTOP) buf Hbuf p1 g (drop (Z.to_nat off) L) b n); [exact Hg|done|done|by rewrite Hsy|done|lia|intros x Hx _; by apply Hap|].
  rewrite Hsy. intros r p2 (k&e&(Hcalm&Hsy2&_&Hpk&_&Hm2&Hres)&->). cbn [ps set_ps]. rewrite length_drop in Hres.
  destruct Hres as [(Hk&->&HR2)|(_&_&Hno)]; [|destruct Hno; intros x Hx; cbn; lia]. assert (k = n) as -> by lia. rewrite decide_False by lia.
  rewrite u32_small by (unfold is_u32; lia). rewrite Z.eqb_refl. cbn [negb]. runs_steps. split; [done|]. split; [by destruct s|]. cbn [ps set_ps].
  assert (Hc2 : calm (ps s) p2) by (eapply calm_trans; [|exact Hcalm]; split_and!; try done; apply same_mms_refl). split; [done|]. split.
  { split; [exists (drop (Z.to_nat n) (drop (Z.to_nat off) L)); cbn [ps set_ps]; by rewrite sync_id|]. exists g. destruct Hcalm as (Hk2&_). cbn [ps set_ps]. by rewrite Hk2. }
  unfold mem_of. cbn [ps set_ps]. split.
  - intros i Hi. cbn beta. rewrite <-(peek_nth _ b n i) by done. rewrite Hpk. by apply file_bytes_at.
  - intros x Hx. unfold touches in Hx. rewrite Hm2 by tauto. cbn. by rewrite Hm1.
Qed.

Lemma zero_runs s b n : open_on s -> (forall x, range b n x -> ~ scr x) -> runs (on_p (on_bytes (modify (bzero b n)))) s (fun _ s' => wrote s b n (fun _ => 0) s').
Proof.
  intros ([l Hl]&g&Hg&Hmm) Hap. unfold on_p, on_bytes, on_fsys, on_mem. runs_steps. split; [by destruct s|]. cbn [ps set_ps]. split; [apply calm_fsys|]. split.
  - split; [|by exists g]. exists l. apply (ra_mem _ _ _ _ HR l (fsys (sync (ps s)))); [done|]. intros x Hx. cbn. unfold bzero. destruct (Z.leb_spec b x), (Z.ltb_spec x (b + n)); try done.
    destruct (Hap x); [unfold range; lia|done].
  - unfold mem_of. cbn. unfold bzero. split.
    + intros i Hi. by rewrite (proj2 (Z.leb_le b (b + i))), (proj2 (Z.ltb_lt (b + i) (b + n))) by lia.
    + intros x Hx. destruct (Z.leb_spec b x), (Z.ltb_spec x (b + n)); try done. destruct Hx. left. unfold range. lia.
Qed.

(** ** The pages of a segment *)

Abbreviation vmof s := (kvm (ks (ps s))).
Abbreviation owned s := (pm_owned (vpm (vmof s))).

(** Page [y] is not where the loader keeps its own data. *)
Definition clear (y : Z) : Prop := forall x, range (kva y) PGSIZE x -> ~ range buf IOBUF_SIZE x /\ ~ scr x /\ ~ range (x_ph xm) sizeof_proghdr x.

(** The state in which segments are loaded, into directory [x]. *)
Record Loading s a (x : Z) : Prop := {
  lo_rep : VRep nodl a (vmof s);
  lo_tlb : TlbOk a (vmof s);
  lo_dir : x ∈ dirs a;
  lo_npage : npage (vpm (vmof s)) * PGSIZE <= KMEMSIZE;
  lo_free : forall y, 0 <= y < npage (vpm (vmof s)) -> ~ owned s y -> clear y;
  lo_open : open_on s
}.

(** Only mappings of pages in [V] are new; what was in use is as before. *)
Record grew s a s' a' (x : Z) (V : Z -> Prop) : Prop := {
  gr_rest : s' = set_ps (ps s') s;
  gr_ks : ks (ps s') = set_kvm (vmof s') (ks (ps s));
  gr_pfs : pfs (ps s') = pfs (ps s);
  gr_mms : same_mms (mms (ps s)) (mms (ps s'));
  gr_dirs : dirs a' = dirs a;
  gr_sub : maps a ⊆ maps a';
  gr_maps : forall k pp, maps a' !! k = Some pp -> maps a !! k = Some pp \/ exists v, k = (x, v) /\ V v;
  gr_tbls : forall k t, tbls a' !! k = Some t -> tbls a !! k = Some t \/ exists v, k = (x, v / 1024) /\ V v;
  gr_npage : npage (vpm (vmof s')) = npage (vpm (vmof s));
  gr_owned : forall y, owned s y -> owned s' y;
  gr_ledger : ledger a (vpm (vmof s)) a' (vpm (vmof s'));
  gr_bytes : forall y o, owned s y -> clear y -> 0 <= o < PGSIZE -> mem_of s' (kva y + o) = mem_of s (kva y + o)
}.

Lemma grew_refl s a x V : Loading s a x -> grew s a s a x V.
Proof. intros HL. split; try done; auto; [by destruct s|by destruct (ks (ps s))|apply same_mms_refl|apply (ledger_refl nodl), HL]. Qed.
Lemma grew_trans s a s1 a1 s2 a2 x V : grew s a s1 a1 x V -> grew s1 a1 s2 a2 x V -> grew s a s2 a2 x V.
Proof.
  intros [A1 A2 A3 A4 A5 A6 A7 A8 A9 A10 Al A11] [B1 B2 B3 B4 B5 B6 B7 B8 B9 B10 Bl B11]. split; try congruence; auto.
  - rewrite B1, A1. by destruct s.
  - rewrite B2, A2. by destruct (ks (ps s)).
  - by eapply same_mms_trans.
  - by etrans.
  - intros k pp Hk. destruct (B7 _ _ Hk) as [Hk1|?]; [by apply A7|by right].
  - intros k t Hk. destruct (B8 _ _ Hk) as [Hk1|?]; [by apply A8|by right].
  - by eapply ledger_trans.
  - intros y o Hy Hc Ho. rewrite B11, A11; auto.
Qed.
Lemma grew_weaken s a s' a' x (V W : Z -> Prop) : (forall v, V v -> W v) -> grew s a s' a' x V -> grew s a s' a' x W.
Proof. intros HVW [A1 A2 A3 A4 A5 A6 A7 A8 A9 A10 Al A11]. split; try done; intros k pp Hk; [destruct (A7 _ _ Hk) as [?|(v&?&?)]|destruct (A8 _ _ Hk) as [?|(v&?&?)]]; eauto. Qed.

Lemma open_on_vm s v : open_on s -> open_on (set_ps (set_ks (set_kvm v (ks (ps s))) (ps s)) s).
Proof. done. Qed.

(** Too few free pages for a page and its page table. *)
Definition scarce s : Prop := pm_nfree (vpm (vmof s)) <= 1.

Lemma alloc_runs s a x la perm :
  Loading s a x -> is_u32 la -> 0 <= perm < 4096 -> maps a !! (x, vpn la) = None ->
  runs (t_vm (pgdir_alloc_page pm (kva x) la perm)) s (fun r s' => mem_of s' = mem_of s /\
    match r with
    | None => Loading s' a x /\ grew s a s' a x (eq (vpn la)) /\ scarce s'
    | Some p => ~ owned s p /\ owned s' p /\ 0 <= p < npage (vpm (vmof s)) /\ exists a', maps a' = <[(x, vpn la) := (p, perm)]> (maps a) /\ Loading s' a' x /\ grew s a s' a' x (eq (vpn la))
    end).
Proof.
  intros [HV HT Hx Hn Hf Ho] Hla Hperm Hnone. apply t_vm_runs. runs_by (pgdir_alloc_page_full a (vmof s) x la perm); [done|done|done|done|].
  intros r v' (Hr&Hn'&Hown). specialize (Hown Hnone). split; [done|]. destruct r as [p|].
  - destruct Hr as (Hno&Hfl&Hc&a'&HV'&(Hd&[Hsub Hgr]&Hm&Hu)&Hled). cbn [with_upage dirs tbls maps upages] in *. split; [done|]. cbn [ps set_ps ks set_ks set_kvm kvm].
    assert (Hup : p ∈ upages a') by (rewrite Hu; apply elem_of_union_l, elem_of_singleton; done). destruct (r_upage _ _ _ HV' _ Hup) as [Hop _].
    split; [done|]. split; [destruct (pm_owned_page _ _ (r_inv _ _ _ HV') Hop) as [? _]; by rewrite <-Hn'|].
    exists a'. split; [done|]. split.
    + split; cbn [ps set_ps ks set_ks set_kvm kvm]; [done|by apply flushed_ok|by rewrite Hd|by rewrite Hn'| |done]. rewrite Hn'. intros y Hy Hyo. apply Hf; auto.
    + split; cbn [ps set_ps ks set_ks set_kvm kvm pfs mms]; try done; [apply same_mms_refl|rewrite Hm; by apply insert_subseteq| |].
      * intros k pp. rewrite Hm. intros Hk. destruct (decide ((x, vpn la) = k)) as [<-|Hne]; [right; by exists (vpn la)|]. rewrite lookup_insert_ne in Hk by done. by left.
      * intros k t Hk. destruct (Hgr _ _ Hk) as [->|?]; [right; by exists (vpn la)|by left].
  - destruct Hr as (HV'&Htl&Hc&Hsame&Hz). split; [|split; [|unfold scarce; cbn; lia]].
    + split; cbn [ps set_ps ks set_ks set_kvm kvm]; [done| |done|by rewrite Hn'| |done].
      * intros i e d Hi He Hd. cbn in He, Hd. rewrite Htl in He. rewrite Hc in Hd. by apply (HT i e d).
      * rewrite Hn'. intros y Hy Hyo. apply Hf; auto.
    + split; cbn [ps set_ps ks set_ks set_kvm kvm pfs mms]; try done; [apply same_mms_refl|by left|by left|by apply (ledger_same nodl)].
Qed.

Lemma kva_apart y p o : y <> p -> 0 <= o < PGSIZE -> ~ range (kva p) PGSIZE (kva y + o).
Proof. unfold range, kva, PGSIZE. lia. Qed.

Lemma wrote_vm s b n val s' : wrote s b n val s' -> vmof s' = vmof s /\ ks (ps s') = ks (ps s).
Proof. intros (_&(->&_)&_). done. Qed.

Lemma wrote_page s p off n val s' y o : 0 <= off -> off + n <= PGSIZE -> wrote s (kva p + off) n val s' -> y <> p -> clear y -> 0 <= o < PGSIZE ->
  mem_of s' (kva y + o) = mem_of s (kva y + o).
Proof.
  intros Ho Hn (_&_&_&_&Hm) Hy Hc Hoo. apply Hm. destruct (Hc (kva y + o)) as (H1&H2&_); [unfold range; lia|]. intros [H|[H|H]]; [|done|done].
  apply (kva_apart y p o Hy Hoo). unfold range in *. lia.
Qed.

(** Writing to a page that was not in use before. *)
Lemma wrote_grew s a s1 a1 x V p off n val s2 : Loading s1 a1 x -> grew s a s1 a1 x V -> ~ owned s p -> 0 <= off -> off + n <= PGSIZE ->
  wrote s1 (kva p + off) n val s2 -> Loading s2 a1 x /\ grew s a s2 a1 x V.
Proof.
  intros [? ? ? ? ? ?] [A1 A2 A3 A4 A5 A6 A7 A8 A9 A10 Al A11] Hp Ho Hn Hw. destruct (wrote_vm _ _ _ _ _ Hw) as [Hv Hk]. pose proof Hw as (Hr&(_&Hpf&_&_&Hms)&Hop&_). split.
  - split; rewrite ?Hv; done.
  - split; rewrite ?Hv; try done; [rewrite Hr, A1; by destruct s|by rewrite Hk, A2|by rewrite Hpf|by eapply same_mms_trans|].
    intros y o Hy Hc Hoo. rewrite <-A11 by done. eapply wrote_page; try done. by intros ->.
Qed.

(** Every address from [lo] to [hi] is mapped with [perm] to a page that has its byte. *)
Definition filled s a (x perm lo hi : Z) (val : Z -> Z) : Prop :=
  forall va, lo <= va < hi -> exists p, maps a !! (x, vpn va) = Some (p, perm) /\ owned s p /\ clear p /\ mem_of s (kva p + va mod PGSIZE) = val va.

Lemma page_offset va : 0 <= va mod PGSIZE < PGSIZE.
Proof. apply Z.mod_pos_bound. done. Qed.

Lemma filled_grew s a s' a' x perm lo hi val V : filled s a x perm lo hi val -> grew s a s' a' x V -> filled s' a' x perm lo hi val.
Proof.
  intros Hf [A1 A2 A3 A4 A5 A6 A7 A8 A9 A10 Al A11] va Hva. destruct (Hf va Hva) as (p&Hm&Ho&Hc&Hb). exists p. split; [by eapply lookup_weaken|]. split; [auto|]. split; [done|].
  rewrite A11; [done|done|done|apply page_offset].
Qed.
Lemma filled_app s a x perm lo mid hi val : filled s a x perm lo mid val -> filled s a x perm mid hi val -> filled s a x perm lo hi val.
Proof. intros H1 H2 va Hva. destruct (decide (va < mid)); [apply H1|apply H2]; lia. Qed.
Lemma filled_ext s a x perm lo hi val val' : (forall va, lo <= va < hi -> val va = val' va) -> filled s a x perm lo hi val -> filled s a x perm lo hi val'.
Proof. intros He Hf va Hva. rewrite <-He by done. by apply Hf. Qed.
Lemma filled_none s a x perm lo hi val : hi <= lo -> filled s a x perm lo hi val.
Proof. intros H va Hva. lia. Qed.

(** Page [p] is mapped at [v] only. *)
Definition lone a (x v p : Z) : Prop := forall k perm, maps a !! k = Some (p, perm) -> k = (x, v).

(** A write to [p] beside what is filled in already. *)
Lemma filled_wrote s a x perm lo hi val v p off n w s' : filled s a x perm lo hi val -> lone a x v p -> (forall va, lo <= va < hi -> vpn va = v -> ~ off <= va mod PGSIZE < off + n) ->
  0 <= off -> off + n <= PGSIZE -> wrote s (kva p + off) n w s' -> filled s' a x perm lo hi val.
Proof.
  intros Hf Hl Hout Ho Hn Hw va Hva. destruct (Hf va Hva) as (q&Hm&Hq&Hc&Hb). destruct (wrote_vm _ _ _ _ _ Hw) as [Hv _]. exists q. split; [done|]. rewrite Hv. split; [done|]. split; [done|].
  rewrite <-Hb. destruct (decide (q = p)) as [->|Hne]; [|eapply wrote_page; try done; apply page_offset]. specialize (Hl _ _ Hm). injection Hl as Hvv.
  destruct Hw as (_&_&_&_&Hmem). apply Hmem. pose proof (page_offset va). destruct (Hc (kva p + va mod PGSIZE)) as (H1&H2&_); [unfold range; lia|]. intros [H3|[H3|H3]]; [|done|done].
  apply (Hout va Hva Hvv). unfold range in H3. lia.
Qed.
(** The bytes just written. *)
Lemma filled_new s a x perm lo hi val v p off w s' : maps a !! (x, v) = Some (p, perm) -> owned s p -> clear p -> wrote s (kva p + off) (hi - lo) w s' ->
  (forall va, lo <= va < hi -> vpn va = v /\ va mod PGSIZE = off + (va - lo) /\ val va = w (va - lo)) -> filled s' a x perm lo hi val.
Proof.
  intros Hm Ho Hc Hw Hva va Hr. destruct (Hva va Hr) as (<-&Hmod&->). destruct (wrote_vm _ _ _ _ _ Hw) as [Hv _]. exists p. split; [done|]. rewrite Hv. split; [done|]. split; [done|].
  destruct Hw as (_&_&_&Hb&_). rewrite Hmod, Z.add_assoc. apply Hb. lia.
Qed.

(** A fresh page for the addresses from [la] on, written from [start] to [next]. *)
Lemma page_step s a x la perm p s1 a1 start next val w s2 :
  Loading s a x -> ~ owned s p -> owned s1 p -> 0 <= p < npage (vpm (vmof s)) -> maps a1 = <[(x, vpn la) := (p, perm)]> (maps a) -> Loading s1 a1 x -> grew s a s1 a1 x (eq (vpn la)) ->
  la mod PGSIZE = 0 -> la <= start <= next -> next <= la + PGSIZE -> wrote s1 (kva p + (start - la)) (next - start) w s2 -> (forall va, start <= va < next -> val va = w (va - start)) ->
  Loading s2 a1 x /\ grew s a s2 a1 x (eq (vpn la)) /\ filled s2 a1 x perm start next val /\ lone a1 x (vpn la) p /\ owned s2 p.
Proof.
  intros HL Hno Ho1 Hp Hm HL1 Hg Hla Hst Hnx Hw Hval. destruct (wrote_grew s a s1 a1 x _ p (start - la) (next - start) w s2 HL1 Hg Hno ltac:(lia) ltac:(lia) Hw) as [HL2 Hg2].
  destruct (wrote_vm _ _ _ _ _ Hw) as [Hv _]. split; [done|]. split; [done|]. split; [|split].
  - eapply (filled_new s1 a1 x perm start next val (vpn la) p (start - la)); [rewrite Hm; apply lookup_insert_eq|done|by apply (lo_free _ _ _ HL)|exact Hw|].
    intros va Hva. split; [unfold vpn, PGSIZE in *; mlia|]. split; [unfold PGSIZE in *; mlia|by apply Hval].
  - intros k perm' Hk. rewrite Hm in Hk. destruct (decide ((x, vpn la) = k)) as [<-|Hne]; [done|]. rewrite lookup_insert_ne in Hk by done.
    destruct Hno. destruct k as [y v]. destruct (r_map _ _ _ (lo_rep _ _ _ HL) _ _ _ _ Hk) as (_&_&Hu&_). by apply (r_upage _ _ _ (lo_rep _ _ _ HL)).
  - by rewrite Hv.
Qed.

Lemma part_size_eq start la end_ : 0 <= la <= start -> start < la + PGSIZE -> start < end_ -> la mod PGSIZE = 0 -> end_ + 4095 < W32 ->
  u32 (start - la) = start - la /\ u32 (la + PGSIZE) = la + PGSIZE /\ part_size (start - la) (la + PGSIZE) end_ = Z.min (la + PGSIZE) end_ - start /\
  u32 (start + (Z.min (la + PGSIZE) end_ - start)) = Z.min (la + PGSIZE) end_.
Proof.
  intros Hla Hst Hend Hmod Hw. unfold PGSIZE, W32 in *. assert (la + 4096 < 4294967296) by mlia. split; [apply u32_small; unfold is_u32, W32; lia|].
  split; [apply u32_small; unfold is_u32, W32; lia|]. unfold part_size, PGSIZE. rewrite (u32_small (4096 - (start - la))) by (unfold is_u32, W32; lia).
  split; [|rewrite u32_small by (unfold is_u32, W32; lia); lia].
  destruct (Z.ltb_spec end_ (la + 4096)); [|lia]. rewrite !u32_small by (unfold is_u32, W32; try rewrite u32_small by (unfold is_u32, W32; lia); lia). lia.
Qed.

Lemma page_addr s a x p off : Loading s a x -> 0 <= p < npage (vpm (vmof s)) -> 0 <= off < PGSIZE ->
  u32 (kva p + off) = kva p + off /\ KERNBASE <= kva p + off /\ kva p + PGSIZE <= KERNTOP.
Proof.
  intros HL Hp Ho. pose proof (lo_npage _ _ _ HL). unfold kva, KERNTOP, PGSIZE in *. rewrite u32_small; [lia|]. unfold is_u32, W32, KERNBASE, KMEMSIZE in *. lia.
Qed.
Lemma kva_runs s a x p Q : Loading s a x -> 0 <= p < npage (vpm (vmof s)) -> Q (kva p) s -> runs (t_vm (page2kva p)) s Q.
Proof.
  intros HL Hp HQ. apply t_vm_runs. runs_by (page2kva_runs (vmof s) p); [done|apply (lo_rep _ _ _ HL)|]. intros r v [-> ->]. by destruct s as [[[] ? ? ? ? ? ? ?] ? ? ? ? ? ? ?].
Qed.

Section Pages.
Variables (x perm end_ : Z).
Hypothesis Hperm : 0 <= perm < 4096.
Hypothesis Hend : end_ + 4095 < W32.

(** [la] is the page of [start], or the one behind the last. *)
Definition at_page (start la : Z) : Prop := 0 <= la /\ la mod PGSIZE = 0 /\ start <= end_ /\ (start < end_ -> la <= start < la + PGSIZE).
Definition pages_from (la v : Z) : Prop := vpn la <= v /\ PGSIZE * v < end_.
Definition unmapped a (la : Z) : Prop := forall v, pages_from la v -> maps a !! (x, v) = None.

Lemma step_page start la : at_page start la -> start < end_ -> is_u32 la /\ pages_from la (vpn la) /\ at_page (Z.min (la + PGSIZE) end_) (la + PGSIZE) /\ vpn (la + PGSIZE) = vpn la + 1.
Proof.
  intros (H0&Hm&_&Hp) Hs. specialize (Hp Hs). unfold is_u32, pages_from, at_page, vpn, PGSIZE, W32 in *. split; [lia|]. split; [mlia|]. split; [|mlia]. split; [lia|]. split; [mlia|]. lia.
Qed.
Lemma unmapped_next a a1 la p : unmapped a la -> maps a1 = <[(x, vpn la) := (p, perm)]> (maps a) -> vpn (la + PGSIZE) = vpn la + 1 -> unmapped a1 (la + PGSIZE).
Proof. intros Hu Hm Hv v [H1 H2]. rewrite Hm, lookup_insert_ne; [apply Hu; split; lia|]. intros [= ?]. lia. Qed.
Lemma pages_from_next la v : vpn (la + PGSIZE) = vpn la + 1 -> pages_from (la + PGSIZE) v -> pages_from la v.
Proof. intros Hv [H1 H2]. split; lia. Qed.
Lemma grew_next s a s1 a1 s2 a2 la : vpn (la + PGSIZE) = vpn la + 1 -> pages_from la (vpn la) -> grew s a s1 a1 x (eq (vpn la)) -> grew s1 a1 s2 a2 x (pages_from (la + PGSIZE)) -> grew s a s2 a2 x (pages_from la).
Proof.
  intros Hv Hp H1 H2. eapply grew_trans; (eapply grew_weaken; [|done]); [by intros v <-|intros v; by apply pages_from_next].
Qed.

Lemma zero_pages_runs fuel : forall s a start la, Loading s a x -> at_page start la -> (start < end_ -> end_ - la <= PGSIZE * Z.of_nat fuel) -> unmapped a la ->
  runs (zero_pages pm fuel (kva x) perm start end_ la) s (fun r s' => exists a', Loading s' a' x /\ grew s a s' a' x (pages_from la) /\
    match r with inl e => e = - E_NO_MEM /\ scarce s' | inr _ => filled s' a' x perm start end_ (fun _ => 0) end).
Proof.
  induction fuel as [|fuel IH]; intros s a start la HL Hat Hfuel Hun; cbn [zero_pages]; destruct (Z.ltb_spec start end_) as [Hlt|Hge];
    try (runs_steps; exists a; split; [done|]; split; [by apply grew_refl|]; by apply filled_none).
  { specialize (Hfuel Hlt). destruct Hat as (?&?&?&Hp). specialize (Hp Hlt). unfold PGSIZE in *. lia. }
  destruct (step_page start la Hat Hlt) as (Hla&Hpf&Hat'&Hvn). pose proof Hat as (H0&Hmod&_&Hp). specialize (Hp Hlt). specialize (Hfuel Hlt).
  runs_steps. runs_by (alloc_runs s a x la perm HL Hla Hperm); [by apply Hun|]. intros r s1 [Hmem Hr]. destruct r as [p|]; cycle 1.
  { destruct Hr as (HL1&Hg&Hz). runs_steps. exists a. split; [done|]. split; [|done]. eapply grew_weaken; [|exact Hg]. by intros v <-. }
  destruct Hr as (Hno&Hown&Hpn&a1&Hm&HL1&Hg). pose proof (gr_npage _ _ _ _ _ _ Hg) as Hnp. rewrite <-Hnp in Hpn.
  destruct (part_size_eq start la end_ ltac:(lia) ltac:(lia) Hlt Hmod Hend) as (->&->&->&->). set (next := Z.min (la + PGSIZE) end_) in *.
  destruct (page_addr s1 a1 x p (start - la) HL1 Hpn ltac:(lia)) as (Hu&_&_). runs_steps. eapply kva_runs; [exact HL1|exact Hpn|]. rewrite Hu. runs_steps.
  assert (Hcl : clear p) by (apply (lo_free _ _ _ HL); [by rewrite <-Hnp|done]).
  runs_by (zero_runs s1 (kva p + (start - la)) (next - start)); [apply HL1|intros y Hy; apply Hcl; unfold range in *; lia|]. intros _ s2 Hw. runs_steps.
  destruct (page_step s a x la perm p s1 a1 start next (fun _ => 0) (fun _ => 0) s2) as (HL2&Hg2&Hf2&_&_); try done; [by rewrite <-Hnp|lia|lia|].
  runs_by (IH s2 a1 next (la + PGSIZE)); [done|done|unfold next, PGSIZE in *; lia|by eapply unmapped_next|]. intros r s3 (a3&HL3&Hg3&Hr). exists a3. split; [done|].
  split; [by eapply grew_next|]. destruct r as [e|]; [done|]. eapply filled_app; [eapply filled_grew; [exact Hf2|exact Hg3]|exact Hr].
Qed.

(** What the loop over the file's part leaves: the last page, which the next step may
    have to complete. *)
Definition last_page s s' a' (la' : Z) (page' : option Z) : Prop :=
  la' mod PGSIZE = 0 /\ end_ <= la' < end_ + PGSIZE /\ exists q, page' = Some q /\ maps a' !! (x, vpn (la' - PGSIZE)) = Some (q, perm) /\ lone a' x (vpn (la' - PGSIZE)) q /\
    ~ owned s q /\ owned s' q /\ clear q /\ 0 <= q < npage (vpm (vmof s')).

Lemma file_pages_runs D : end_ + D <= Z.of_nat (length L) -> forall fuel s a start la offset page, Loading s a x -> at_page start la -> (start < end_ -> end_ - la <= PGSIZE * Z.of_nat fuel) ->
  unmapped a la -> offset = start + D -> 0 <= offset ->
  runs (file_pages pm optab xm fuel (kva x) fd perm start end_ la offset page) s (fun r s' => exists a', Loading s' a' x /\ grew s a s' a' x (pages_from la) /\
    match r with
    | inl e => e = - E_NO_MEM /\ scarce s'
    | inr (start', la', page') => start' = end_ /\ filled s' a' x perm start end_ (fun va => fb (va + D)) /\
        ((start = end_ /\ la' = la /\ page' = page /\ s' = s /\ a' = a) \/ (start < end_ /\ last_page s s' a' la' page'))
    end).
Proof.
  intros HD. induction fuel as [|fuel IH]; intros s a start la offset page HL Hat Hfuel Hun Hoff Hoff0; cbn [file_pages]; destruct (Z.ltb_spec start end_) as [Hlt|Hge];
    try (assert (start = end_) by (destruct Hat as (?&?&?&_); lia); runs_steps; exists a; split; [done|]; split; [by apply grew_refl|]; split; [done|]; split; [by apply filled_none|by left]).
  { specialize (Hfuel Hlt). destruct Hat as (?&?&?&Hp). specialize (Hp Hlt). unfold PGSIZE in *. lia. }
  destruct (step_page start la Hat Hlt) as (Hla&Hpf&Hat'&Hvn). pose proof Hat as (H0&Hmod&_&Hp). specialize (Hp Hlt). specialize (Hfuel Hlt).
  runs_steps. runs_by (alloc_runs s a x la perm HL Hla Hperm); [by apply Hun|]. intros r s1 [Hmem Hr]. destruct r as [p|]; cycle 1.
  { destruct Hr as (HL1&Hg&Hz). runs_steps. exists a. split; [done|]. split; [|done]. eapply grew_weaken; [|exact Hg]. by intros v <-. }
  destruct Hr as (Hno&Hown&Hpn&a1&Hm&HL1&Hg). pose proof (gr_npage _ _ _ _ _ _ Hg) as Hnp. rewrite <-Hnp in Hpn.
  destruct (part_size_eq start la end_ ltac:(lia) ltac:(lia) Hlt Hmod Hend) as (->&->&->&->). set (next := Z.min (la + PGSIZE) end_) in *.
  destruct (page_addr s1 a1 x p (start - la) HL1 Hpn ltac:(lia)) as (Hu&Hkb&Hkt). runs_steps. eapply kva_runs; [exact HL1|exact Hpn|]. rewrite Hu. runs_steps.
  assert (Hcl : clear p) by (apply (lo_free _ _ _ HL); [by rewrite <-Hnp|done]). assert (Hnx : start < next <= end_ /\ next <= la + PGSIZE) by lia.
  runs_by (load_icode_read_runs s1 (kva p + (start - la)) (next - start) offset); [apply HL1|done|lia|lia|done|lia|intros y Hy; destruct (Hcl y) as (?&?&_); [unfold range in *; lia|done]|].
  intros r s2 [-> Hw]. cbn [Z.eqb negb]. rewrite (s32_small (offset + (next - start))) by lia.
  destruct (page_step s a x la perm p s1 a1 start next (fun va => fb (va + D)) (fun i => fb (offset + i)) s2) as (HL2&Hg2&Hf2&Hlone&Hown2); try done; [by rewrite <-Hnp|lia|lia|intros va Hva; f_equal; lia|].
  runs_by (IH s2 a1 next (la + PGSIZE) (offset + (next - start)) (Some p)); [done|done|unfold next, PGSIZE in *; lia|by eapply unmapped_next|lia|lia|].
  intros r s3 (a3&HL3&Hg3&Hr). exists a3. split; [done|]. split; [by eapply grew_next|]. destruct r as [e|[[start' la'] page']]; [done|]. destruct Hr as (->&Hf3&Hlast). split; [done|].
  split; [eapply filled_app; [eapply filled_grew; [exact Hf2|exact Hg3]|exact Hf3]|]. right. split; [done|]. destruct Hlast as [(Hn&->&->&->&->)|(Hn&Hla'&Hle&q&->&Hq&Hlq&Hnq&Hrest)].
  - split; [unfold PGSIZE in *; mlia|]. split; [unfold PGSIZE in *; lia|]. exists p. replace (la + PGSIZE - PGSIZE) with la by lia. split; [done|]. split; [rewrite Hm; apply lookup_insert_eq|].
    do 4 (split; [done|]). by rewrite (gr_npage _ _ _ _ _ _ Hg2), <-Hnp.
  - split; [done|]. split; [done|]. exists q. do 3 (split; [done|]). split; [intros Hq'; by apply Hnq, (gr_owned _ _ _ _ _ _ Hg2)|done].
Qed.
End Pages.

(** The rest of the last page of the file's part. *)
Lemma zero_tail_runs s a x start la end_ q : Loading s a x -> 0 <= q < npage (vpm (vmof s)) -> clear q -> 0 <= la - PGSIZE -> la - PGSIZE <= start < la -> start < end_ -> la < W32 -> end_ < W32 ->
  runs (zero_tail start la end_ (Some q)) s (fun r s' => r = Z.min la end_ /\ wrote s (kva q + (start - (la - PGSIZE))) (Z.min la end_ - start) (fun _ => 0) s').
Proof.
  intros HL Hq Hcl Hla0 Hst Hlt Hla Hend. unfold zero_tail. runs_steps. eapply runs_deref; [done|]. runs_steps. eapply kva_runs; [exact HL|exact Hq|].
  assert (Hoff : u32 (start + PGSIZE - la) = start - (la - PGSIZE)) by (rewrite u32_small; unfold is_u32, W32, PGSIZE in *; lia). rewrite Hoff.
  assert (Hsz : part_size (start - (la - PGSIZE)) la end_ = Z.min la end_ - start).
  { unfold part_size, PGSIZE, W32 in *. rewrite (u32_small (4096 - _)) by (unfold is_u32, W32; lia). destruct (Z.ltb_spec end_ la); [|lia].
    rewrite !u32_small by (unfold is_u32, W32; try rewrite u32_small by (unfold is_u32, W32; lia); lia). lia. }
  rewrite Hsz. destruct (page_addr s a x q (start - (la - PGSIZE)) HL Hq ltac:(lia)) as (->&_&_). runs_steps.
  runs_by (zero_runs s (kva q + (start - (la - PGSIZE))) (Z.min la end_ - start)); [apply HL|intros y Hy; apply Hcl; unfold range in *; lia|]. intros _ s2 Hw. runs_steps.
  rewrite (u32_small (start + _)) by (unfold is_u32, W32, PGSIZE in *; lia). replace (start + (Z.min la end_ - start)) with (Z.min la end_) by lia.
  apply runs_assert; [|by runs_steps]. destruct (Z.ltb_spec end_ la); [rewrite Z.min_r, Z.eqb_refl by lia; done|]. rewrite Z.min_l, Z.eqb_refl, (proj2 (Z.leb_le la end_)) by lia. apply orb_true_r.
Qed.

(** A loadable segment inside the file and the address space. *)
Definition seg_ok (ph : proghdr) : Prop :=
  0 <= p_va ph /\ 0 <= p_filesz ph <= p_memsz ph /\ p_va ph + p_memsz ph + 4095 < W32 /\ 0 <= p_offset ph /\ p_offset ph + p_filesz ph <= Z.of_nat (length L).
(** What a program finds at address [va] of the segment: the file's byte or zero. *)
Definition seg_byte (ph : proghdr) (va : Z) : Z := if va <? p_va ph + p_filesz ph then fb (p_offset ph + (va - p_va ph)) else 0.
Definition seg_pages (ph : proghdr) (v : Z) : Prop := vpn (p_va ph) <= v /\ PGSIZE * v < p_va ph + p_memsz ph.

(** The pages behind those of the file's part are still free. *)
Lemma unmapped_rest s a s1 a1 x la la' end1 end_ : grew s a s1 a1 x (pages_from end1 la) -> unmapped x end_ a la -> la' mod PGSIZE = 0 -> end1 <= la' -> vpn la <= vpn la' -> unmapped x end_ a1 la'.
Proof.
  intros Hg Hu Hmod Hle Hv v [H1 H2]. destruct (maps a1 !! (x, v)) as [pp|] eqn:Hm; [|done]. destruct (gr_maps _ _ _ _ _ _ Hg _ _ Hm) as [Ha|(w&[= <-]&_&Hw)].
  - rewrite Hu in Ha; [done|]. split; lia.
  - unfold vpn, PGSIZE in *. exfalso. mlia.
Qed.

Lemma load_pages_runs s a x mm m perm ph : Loading s a x -> mms (ps s) !! mm = Some m -> pgdir m = kva x -> seg_ok ph -> 0 <= perm < 4096 -> (forall v, seg_pages ph v -> maps a !! (x, v) = None) ->
  runs (load_pages pm optab xm mm fd perm ph) s (fun r s' => exists a', Loading s' a' x /\ grew s a s' a' x (seg_pages ph) /\
    match r with inl e => e = - E_NO_MEM /\ scarce s' | inr _ => filled s' a' x perm (p_va ph) (p_va ph + p_memsz ph) (seg_byte ph) end).
Proof.
  intros HL Hmm Hpg (Hva&Hsz&Hend&Hoff&Hfile) Hperm Hun. set (va := p_va ph) in *. set (end1 := va + p_filesz ph). set (end2 := va + p_memsz ph) in *. set (la := ROUNDDOWN_2N va PGSHIFT).
  assert (Hla : la = va - va mod PGSIZE) by (apply rounddown_spec; [unfold is_u32, W32 in *; lia|done]). assert (Hlap : 0 <= la /\ la mod PGSIZE = 0 /\ la <= va < la + PGSIZE /\ vpn la = vpn va).
  { rewrite Hla. unfold vpn, PGSIZE. mlia. }
  destruct Hlap as (Hla0&Hmod&Hlav&Hvpn). unfold load_pages, on_p, rd_mm. fold va. fold la. runs_steps. eapply runs_deref; [exact Hmm|]. rewrite Hpg.
  replace (set_ps (ps s) s) with s by (by destruct s). rewrite (u32_small (va + p_filesz ph)), (u32_small (va + p_memsz ph)) by (unfold is_u32, W32 in *; lia). fold end1 end2.
  rewrite (s32_small (p_offset ph)) by lia. set (fuel := S _). assert (Hfuel : p_memsz ph + PGSIZE <= PGSIZE * Z.of_nat fuel) by (unfold fuel, PGSIZE; mlia).
  assert (Hun2 : unmapped x end2 a la) by (intros v [H1 H2]; apply Hun; split; fold va end2; lia).
  assert (Hsub : forall e v, e <= end2 -> pages_from e la v -> seg_pages ph v) by (intros e v He [H1 H2]; split; fold va end2; lia).
  set (D := p_offset ph - va). runs_steps. runs_by (file_pages_runs x perm end1 Hperm ltac:(lia) D ltac:(lia) fuel s a va la (p_offset ph) None); [done|split; [done|split; [done|split; lia]]|lia|
    intros v [H1 H2]; apply Hun2; split; lia|lia|done|].
  intros r s1 (a1&HL1&Hg1&Hr). assert (Hg1' : grew s a s1 a1 x (seg_pages ph)) by (eapply grew_weaken; [|exact Hg1]; intros v; apply Hsub; lia).
  destruct r as [e|[[start' la'] page']]; [runs_steps; by exists a1|]. destruct Hr as (->&Hf1&Hlast).
  assert (Hfv : forall lo hi s0 a0, hi <= end1 -> filled s0 a0 x perm lo hi (fun va0 => fb (va0 + D)) -> filled s0 a0 x perm lo hi (seg_byte ph)).
  { intros lo hi s0 a0 Hhi. apply filled_ext. intros w Hw. unfold seg_byte. fold va end1. rewrite (proj2 (Z.ltb_lt w end1)) by lia. f_equal. unfold D. lia. }
  assert (Hfz : forall lo hi s0 a0, end1 <= lo -> filled s0 a0 x perm lo hi (fun _ => 0) -> filled s0 a0 x perm lo hi (seg_byte ph)).
  { intros lo hi s0 a0 Hlo. apply filled_ext. intros w Hw. unfold seg_byte. fold va end1. by rewrite (proj2 (Z.ltb_ge w end1)) by lia. }
  (* the pages of zeros, from any point behind the file's part *)
  assert (Hzero : forall s2 start, Loading s2 a1 x -> grew s a s2 a1 x (seg_pages ph) -> filled s2 a1 x perm va start (seg_byte ph) -> end1 <= start -> at_page end2 start la' -> vpn la <= vpn la' ->
    unmapped x end2 a1 la' -> la <= la' -> runs (zero_pages pm fuel (kva x) perm start end2 la') s2 (fun r s' => exists a', Loading s' a' x /\ grew s a s' a' x (seg_pages ph) /\
    match r with inl e => e = - E_NO_MEM /\ scarce s' | inr _ => filled s' a' x perm va end2 (seg_byte ph) end)).
  { intros s2 start HL2 Hg2 Hf2 Hst Hat Hv' Hu' Hll. runs_by (zero_pages_runs x perm end2 Hperm ltac:(lia) fuel s2 a1 start la'); [done|done|intros _; lia|done|].
    intros r s3 (a3&HL3&Hg3&Hr). exists a3. split; [done|]. split; [eapply grew_trans; [exact Hg2|]; eapply grew_weaken; [|exact Hg3]; intros v [H1 H2]; split; fold va end2; lia|].
    destruct r; [done|]. eapply filled_app; [by eapply filled_grew|]. by apply Hfz. }
  destruct Hlast as [(He&->&->&->&->)|(Hlt&Hmod'&Hle&q&->&Hq&Hlone&Hnq&Hoq&Hcq&Hqn)].
  - rewrite (proj2 (Z.ltb_ge end1 la)) by lia. apply Hzero; try done; [apply Hfv; [lia|done]|split; [done|split; [done|split; lia]]].
  - assert (Hv' : vpn la <= vpn la' /\ la <= la' /\ PGSIZE <= la' /\ la' < W32) by (unfold vpn, PGSIZE, W32 in *; mlia). destruct Hv' as (Hv'&Hll&Hpl&HlW).
    assert (Hu' : unmapped x end2 a1 la') by (eapply unmapped_rest; [exact Hg1|exact Hun2|done|lia|done]). destruct (Z.ltb_spec end1 la') as [Hin|Hout].
    + destruct (Z.leb_spec end2 end1) as [Hall|Hmore].
      { runs_steps. exists a1. split; [done|]. split; [done|]. replace end2 with end1 by lia. by apply Hfv. }
      runs_steps. runs_by (zero_tail_runs s1 a1 x end1 la' end2 q); [done|done|done|lia|lia|lia|lia|lia|]. intros r s2 [-> Hw]. set (next := Z.min la' end2) in *.
      destruct (wrote_grew s a s1 a1 x _ q (end1 - (la' - PGSIZE)) (next - end1) _ s2 HL1 Hg1' Hnq ltac:(lia) ltac:(lia) Hw) as [HL2 Hg2]. apply Hzero; try done; [|lia|split; [lia|split; [done|split; lia]]].
      eapply filled_app; [apply Hfv; [done|]; eapply filled_wrote; [exact Hf1|exact Hlone| | | |exact Hw]|].
      * intros w Hw' Hvw. unfold vpn, PGSIZE in *. mlia.
      * lia.
      * lia.
      * apply Hfz; [done|]. eapply filled_new; [exact Hq|exact Hoq|exact Hcq|exact Hw|]. intros w Hw'. unfold vpn, PGSIZE in *. split; [mlia|]. split; [mlia|done].
    + apply Hzero; try done; [by apply Hfv|split; [lia|split; [done|split; lia]]].
Qed.

(** ** The segments of a program *)

Lemma word_ext (m m' : bytes) b c n : (forall i, 0 <= i < n -> m (b + i) = m' (c + i)) -> forall i, 0 <= i -> i + 4 <= n -> word m (b + i) = word m' (c + i).
Proof. intros He i Hi Hn. unfold word, peek. f_equal. apply fmap_seqZ_ext. intros j Hj. rewrite !Z.add_0_l, <-!Z.add_assoc. apply He. lia. Qed.
Lemma proghdr_ext (m m' : bytes) b c : (forall i, 0 <= i < sizeof_proghdr -> m (b + i) = m' (c + i)) -> proghdr_at m b = proghdr_at m' c.
Proof.
  intros He. pose proof (word_ext m m' b c sizeof_proghdr He) as Hw. unfold sizeof_proghdr in *. unfold proghdr_at. rewrite !Hw by lia.
  pose proof (Hw 0 ltac:(lia) ltac:(lia)) as H0. rewrite !Z.add_0_r in H0. by rewrite H0.
Qed.

(** The area of a segment. *)
Definition has_area (m : mm_struct) (ph : proghdr) : Prop :=
  exists w, (w ∈ mmap_list m) /\ vm_start w <= p_va ph /\ p_va ph + p_memsz ph <= vm_end w /\ vm_flags w = seg_flags ph.
Definition segment_there s a (x perm : Z) (m : mm_struct) (ph : proghdr) : Prop :=
  filled s a x perm (p_va ph) (p_va ph + p_memsz ph) (seg_byte ph) /\ has_area m ph.

(** The address space [mm] under construction. *)
Record building s a (x mm : Z) (m : mm_struct) : Prop := {
  bu_load : Loading s a x;
  bu_at : mms (ps s) !! mm = Some m;
  bu_ok : MmOk a m x
}.
(** It has grown, and nothing else has changed. *)
Record built s a (m : mm_struct) s' a' (m' : mm_struct) (mm : Z) : Prop := {
  bt_rest : s' = set_ps (ps s') s;
  bt_ks : ks (ps s') = set_kvm (vmof s') (ks (ps s));
  bt_pfs : pfs (ps s') = pfs (ps s);
  bt_mms : same_mms (delete mm (mms (ps s))) (delete mm (mms (ps s')));
  bt_areas : forall w, w ∈ mmap_list m -> w ∈ mmap_list m';
  bt_dirs : dirs a' = dirs a;
  bt_sub : maps a ⊆ maps a';
  bt_npage : npage (vpm (vmof s')) = npage (vpm (vmof s));
  bt_owned : forall y, owned s y -> owned s' y;
  bt_ledger : ledger a (vpm (vmof s)) a' (vpm (vmof s'));
  bt_bytes : forall y o, owned s y -> clear y -> 0 <= o < PGSIZE -> mem_of s' (kva y + o) = mem_of s (kva y + o)
}.

Lemma same_mms_delete m1 m2 q : same_mms m1 m2 -> same_mms (delete q m1) (delete q m2).
Proof. intros H i. destruct (decide (q = i)) as [->|]; [rewrite !lookup_delete_eq; constructor|]. rewrite !lookup_delete_ne by done. apply H. Qed.

Lemma built_refl s a x m mm : building s a x mm m -> built s a m s a m mm.
Proof. intros [HL _ _]. split; try done; [by destruct s|by destruct (ks (ps s))|apply same_mms_refl|apply (ledger_refl nodl), HL]. Qed.
Lemma built_trans s a m s1 a1 m1 s2 a2 m2 mm : built s a m s1 a1 m1 mm -> built s1 a1 m1 s2 a2 m2 mm -> built s a m s2 a2 m2 mm.
Proof.
  intros [A1 A2 A3 A4 A5 A6 A7 A8 A9 Al A10] [B1 B2 B3 B4 B5 B6 B7 B8 B9 Bl B10]. split; try congruence; auto.
  - rewrite B1, A1. by destruct s.
  - rewrite B2, A2. by destruct (ks (ps s)).
  - by eapply same_mms_trans.
  - by etrans.
  - by eapply ledger_trans.
  - intros y o Hy Hc Ho. rewrite B10, A10; auto.
Qed.
Lemma grew_built s a m s' a' m' mm x V : grew s a s' a' x V -> (forall w, w ∈ mmap_list m -> w ∈ mmap_list m') -> built s a m s' a' m' mm.
Proof. intros [A1 A2 A3 A4 A5 A6 A7 A8 A9 A10 Al A11] Hl. split; try done. by apply same_mms_delete. Qed.

Lemma there_built s a x perm m ph s' a' m' mm : segment_there s a x perm m ph -> built s a m s' a' m' mm -> segment_there s' a' x perm m' ph.
Proof.
  intros [Hf (w&Hw&Hr)] [A1 A2 A3 A4 A5 A6 A7 A8 A9 Al A10]. split; [|exists w; auto]. intros va Hva. destruct (Hf va Hva) as (p&Hm&Ho&Hc&Hb). exists p.
  split; [by eapply lookup_weaken|]. split; [auto|]. split; [done|]. rewrite A10; [done|done|done|apply page_offset].
Qed.

(** Reading into the loader's own record. *)
Lemma header_runs s a x mm m off : building s a x mm m -> KERNBASE <= x_ph xm -> x_ph xm + sizeof_proghdr <= KERNTOP ->
  (forall y, range (x_ph xm) sizeof_proghdr y -> ~ range buf IOBUF_SIZE y /\ ~ scr y) -> 0 <= off -> off + sizeof_proghdr <= Z.of_nat (length L) ->
  runs (load_icode_read optab xm fd (x_ph xm) sizeof_proghdr off) s (fun r s' => r = 0 /\ proghdr_at (mem_of s') (x_ph xm) = proghdr_at fb off /\
    exists m', building s' a x mm m' /\ built s a m s' a m' mm /\ mmap_list m' = mmap_list m).
Proof.
  intros [HL Hat Hok] Hk1 Hk2 Hap Ho Hon. runs_by (load_icode_read_runs s (x_ph xm) sizeof_proghdr off); [apply HL|done|done|done|done|done|done|].
  intros r s1 [-> Hw]. split; [done|]. destruct (wrote_vm _ _ _ _ _ Hw) as [Hv Hk]. pose proof Hw as (Hr&(_&Hpf&_&_&Hms)&Hop&Hb&Hm). split; [by apply proghdr_ext|].
  pose proof (Hms mm) as Hmm. rewrite Hat in Hmm. inversion Hmm as [b m' Hs Hb1 Hm'|]. subst b. exists m'.
  assert (Hl : mmap_list m' = mmap_list m /\ MmOk a m' x).
  { destruct Hs as [<-|[Hwf Heq]]; [done|]. destruct Hok as [? ? ? ? ? ?]. rewrite Heq. split; [done|]. split; try done. by rewrite <-Heq. }
  destruct Hl as [Hl Hok']. split; [|split; [|done]].
  - split; [|done|done]. pose proof HL as [? ? ? ? ? ?]. split; rewrite ?Hv; done.
  - split; rewrite ?Hv; try done; [by rewrite Hk; destruct (ks (ps s))|by apply same_mms_delete|by rewrite Hl|apply (ledger_refl nodl), HL|].
    intros y o Hy Hc Hoo. apply Hm. destruct (Hc (kva y + o)) as (H1&H2&H3); [unfold range; lia|]. intros [?|[?|?]]; done.
Qed.

Lemma at_mm_runs {A} mm m (op : M mm_struct A) s (Q : A -> tst X -> Prop) : mms (ps s) !! mm = Some m ->
  runs op m (fun r m' => Q r (set_ps (set_mms (<[mm := m']> (mms (ps s))) (ps s)) s)) -> runs (on_p (at_mm mm op)) s Q.
Proof.
  intros Hm H. unfold on_p, at_mm, rd_mm. runs_steps. eapply runs_deref; [exact Hm|]. apply runs_ok in H as (r&m'&->&HQ). unfold wr_mm. runs_steps. exact HQ.
Qed.

(** With another record for the address space. *)
Lemma building_map s a x mm m m' : building s a x mm m -> MmOk a m' x -> (forall w, w ∈ mmap_list m -> w ∈ mmap_list m') ->
  let s' := set_ps (set_mms (<[mm := m']> (mms (ps s))) (ps s)) s in building s' a x mm m' /\ built s a m s' a m' mm.
Proof.
  intros [[? ? ? ? ? [HRl HP]] Hat Hok] Hok' Hl s'. split; [|].
  - split; [by split|apply lookup_insert_eq|done].
  - split; try done; cbn; [by destruct (ps s) as [[]]|rewrite delete_insert_eq; apply same_mms_refl|by apply (ledger_refl nodl)].
Qed.

Lemma MmOk_more a m m' x : MmOk a m x -> mm_wf m' -> pgdir m' = pgdir m -> mm_count m' = mm_count m -> (forall w, w ∈ mmap_list m -> w ∈ mmap_list m') -> MmOk a m' x.
Proof.
  intros [? ? ? Hm Ht ?] Hwf Hp Hc Hl. split; try congruence.
  - intros v p Hv. destruct (Hm v p Hv) as (w&Hw&Hcov). exists w. auto.
  - intros i tb Ht'. destruct (Ht i tb Ht') as (w&Hw&Hr). exists w. auto.
Qed.

(** Pages added inside an area. *)
Lemma MmOk_grew s a s' a' x m m' w ph : MmOk a m x -> mm_wf m' -> pgdir m' = pgdir m -> mm_count m' = mm_count m -> (forall w, w ∈ mmap_list m -> w ∈ mmap_list m') ->
  w ∈ mmap_list m' -> vm_start w <= p_va ph -> vm_start w mod 4096 = 0 -> 0 <= vm_start w -> p_va ph + p_memsz ph <= vm_end w -> grew s a s' a' x (seg_pages ph) -> MmOk a' m' x.
Proof.
  intros HM Hwf Hp Hc Hl Hw Hs Hal H0 He Hg. destruct (MmOk_more _ _ _ _ HM Hwf Hp Hc Hl) as [? ? ? Hm Ht ?]. split; try done.
  - by rewrite (gr_dirs _ _ _ _ _ _ Hg).
  - intros v p Hv. destruct (gr_maps _ _ _ _ _ _ Hg _ _ Hv) as [Hv'|(u&[= <-]&Hu1&Hu2)]; [by eapply Hm|]. exists w. split; [done|]. unfold covers, vpn, PGSIZE in *. mlia.
  - intros i tb Hi. destruct (gr_tbls _ _ _ _ _ _ Hg _ _ Hi) as [Hi'|(u&[= ->]&Hu1&Hu2)]; [by eapply Ht|]. exists w. split; [done|]. unfold vpn, PGSIZE in *. mlia.
Qed.

Lemma seg_free s a x mm m ph start end_ : building s a x mm m -> start <= p_va ph -> start mod PGSIZE = 0 -> p_va ph + p_memsz ph <= end_ -> fits m start end_ ->
  forall v, seg_pages ph v -> maps a !! (x, v) = None.
Proof.
  intros [_ _ HM] Hs Hal He [_ Hno] v [Hv1 Hv2]. destruct (maps a !! (x, v)) as [pp|] eqn:Hm; [|done]. destruct (mo_maps _ _ _ HM _ _ Hm) as (w&Hw&Hc). destruct (Hno w Hw).
  unfold overlap, covers, vpn, PGSIZE in *. mlia.
Qed.

Section Segments.
Variables (mm x phoff : Z).
Hypothesis Hxk : KERNBASE <= x_ph xm /\ x_ph xm + sizeof_proghdr <= KERNTOP.
Hypothesis Hxap : forall y, range (x_ph xm) sizeof_proghdr y -> ~ range buf IOBUF_SIZE y /\ ~ scr y.
Hypothesis Hphoff : 0 <= phoff.

Definition header_at (i : Z) : proghdr := proghdr_at fb (phoff + sizeof_proghdr * i).

Lemma seg_perm_range perm ph : perm = 0 \/ perm = PTE_U \/ perm = PTE_USER - 1 -> 0 <= seg_perm perm ph < 4096 /\ (seg_perm perm ph = PTE_U \/ seg_perm perm ph = PTE_USER - 1).
Proof. unfold seg_perm. intros [-> | [-> | ->]]; destruct (negb _); vm_compute; (split; [split; [discriminate|reflexivity]|]); auto. Qed.

(** The area of a segment, whole pages. *)
Definition seg_start (ph : proghdr) : Z := p_va ph - p_va ph mod 4096.
Definition seg_end (ph : proghdr) : Z := ROUNDUP_2N (p_va ph + p_memsz ph) PGSHIFT.
Definition seg_area (ph : proghdr) : vma_struct := mkVma (seg_start ph) (seg_end ph) (seg_flags ph).
(** The areas of [m'] are those of [m] and those of the segments [l]. *)
Definition areas (m m' : mm_struct) (l : list (Z * proghdr)) : Prop := mmap_list m' ≡ₚ (seg_area ∘ snd <$> l) ++ mmap_list m.

(** A segment [ph] cannot be loaded behind the segments [l]: its area is outside of user
    space or overlaps another, or there is no memory for the area's record ([ok] is what
    [kmalloc] says) or for a page and its table. *)
Definition stuck s' (m m' : mm_struct) (l : list (Z * proghdr)) (perm : Z) (ph : proghdr) (ok : option bool) (e : Z) : Prop :=
  p_type ph = ELF_PT_LOAD /\
  ((e = - E_INVAL /\ areas m m' l /\ ~ fits m' (seg_start ph) (seg_end ph)) \/
   (e = - E_NO_MEM /\ areas m m' l /\ ok <> Some true) \/
   (e = - E_NO_MEM /\ areas m m' (l ++ [(perm, ph)]) /\ scarce s')).

(** One segment: mapped and filled, or not of the kind to be loaded, or [stuck]. *)
Definition segment_done (perm i : Z) (oks : list bool) s' a' (m m' : mm_struct) (r : Z + (Z * list bool)) : Prop :=
  let ph := header_at i in
  match r with
  | inl e => stuck s' m m' [] (seg_perm perm ph) ph (head oks) e
  | inr (perm', oks') =>
      if p_type ph =? ELF_PT_LOAD then perm' = seg_perm perm ph /\ oks' = tail oks /\ areas m m' [(perm', ph)] /\ segment_there s' a' x perm' m' ph
      else perm' = perm /\ oks' = oks /\ areas m m' []
  end.

Lemma load_segment_runs s a m i perm oks : building s a x mm m -> 0 <= i -> phoff + sizeof_proghdr * i + sizeof_proghdr <= Z.of_nat (length L) ->
  (p_type (header_at i) = ELF_PT_LOAD -> seg_ok (header_at i)) -> perm = 0 \/ perm = PTE_U \/ perm = PTE_USER - 1 ->
  runs (load_segment pm optab xm mm fd phoff i perm oks) s (fun r s' => exists a' m', building s' a' x mm m' /\ built s a m s' a' m' mm /\ segment_done perm i oks s' a' m m' r).
Proof.
  intros HB Hi Hon Hseg Hperm. unfold load_segment. rewrite s32_small by (unfold sizeof_proghdr in *; lia). runs_steps.
  runs_by (header_runs s a x mm m (phoff + sizeof_proghdr * i)); [done|apply Hxk|apply Hxk|done|unfold sizeof_proghdr; lia|done|]. intros r s1 (->&Hph&m1&HB1&Hb1&Hl1). cbn [Z.eqb negb]. runs_steps.
  rewrite Hph. fold (header_at i). unfold segment_done. cbv zeta. set (ph := header_at i) in *. destruct (Z.eqb_spec (p_type ph) ELF_PT_LOAD) as [Hty|Hty]; cbn [negb];
    [|runs_steps; exists a, m1; do 4 (split; [done|]); unfold areas; by rewrite Hl1].
  destruct (Hseg Hty) as (Hva&Hsz&Hend&Hoff&Hfile). rewrite (proj2 (Z.ltb_ge (p_memsz ph) (p_filesz ph))) by lia. runs_steps. pose proof HB1 as [HL1 Hat1 Hok1].
  eapply at_mm_runs; [exact Hat1|]. runs_by (mm_map_fits (default false (head oks)) (p_va ph) (p_memsz ph) (seg_flags ph) m1); [apply (mo_wf _ _ _ Hok1)|unfold is_u32; lia|lia|done|].
  cbv beta zeta. fold (seg_start ph) (seg_end ph) (seg_area ph). intros [r w] m2 (Hwf2&Hpg2&Hc2&He2&Hcase). cbn [fst].
  assert (Hl2 : forall u, u ∈ mmap_list m1 -> u ∈ mmap_list m2) by (destruct Hcase as [(_&_&->)|[(_&_&_&->)|(_&_&_&Hp)]]; [done|done|intros u Hu; rewrite Hp; by right]).
  pose proof (MmOk_more _ _ _ _ Hok1 Hwf2 Hpg2 Hc2 Hl2) as HM2. destruct (building_map s1 a x mm m1 m2 HB1 HM2 Hl2) as [HB2 Hb2]. set (s2 := set_ps _ s1) in *.
  pose proof (built_trans _ _ _ _ _ _ _ _ _ _ Hb1 Hb2) as Hb02. unfold stuck, areas. cbn [app fmap list_fmap]. unfold compose. cbn [snd].
  destruct Hcase as [(Hfit&[= -> ->]&Hl12)|[(Hfit&Hk&[= -> ->]&Hl12)|(Hfit&Hk&[= -> ->]&Hp)]].
  { change (- E_INVAL =? 0) with false. cbn [negb]. runs_steps. exists a, m2. do 3 (split; [done|]). left. split; [done|]. rewrite Hl12, Hl1. split; [done|]. unfold fits. by rewrite Hl12. }
  { change (- E_NO_MEM =? 0) with false. cbn [negb]. runs_steps. exists a, m2. do 3 (split; [done|]). right. left. split; [done|]. rewrite Hl12, Hl1. split; [done|]. intros Ho. by rewrite Ho in Hk. }
  cbn [Z.eqb negb]. runs_steps. destruct (seg_perm_range perm ph Hperm) as [Hpr _]. pose proof HB2 as [HL2 Hat2 _].
  assert (Hst : seg_start ph <= p_va ph /\ seg_start ph mod 4096 = 0 /\ 0 <= seg_start ph) by (unfold seg_start; mlia).
  runs_by (load_pages_runs s2 a x mm m2 (seg_perm perm ph) ph); [done|done|apply (mo_dir _ _ _ HM2)|done|done| |].
  { apply (seg_free s1 a x mm m1 ph (seg_start ph) (seg_end ph) HB1); [lia|unfold PGSIZE; lia|lia|done]. }
  intros r s3 (a3&HL3&Hg3&Hr). pose proof (gr_mms _ _ _ _ _ _ Hg3 mm) as Hmm. rewrite Hat2 in Hmm. inversion Hmm as [b m3 Hs Hb3 Hm3|]. subst b.
  assert (Hl3 : mmap_list m3 = mmap_list m2 /\ pgdir m3 = pgdir m2 /\ mm_count m3 = mm_count m2 /\ mm_wf m3) by (destruct Hs as [<-|[Hwf3 Heq]]; [done|]; split; [by rewrite Heq|]; split; [by rewrite Heq|]; split; [by rewrite Heq|done]).
  destruct Hl3 as (Hl3&Hpg3&Hc3&Hwf3). assert (Hin : seg_area ph ∈ mmap_list m2) by (rewrite Hp; by left). assert (HM3 : MmOk a3 m3 x).
  { apply (MmOk_grew s2 a s3 a3 x m2 m3 (seg_area ph) ph HM2 Hwf3 Hpg3 Hc3); rewrite ?Hl3; try done; cbn [seg_area vm_start vm_end]; lia. }
  assert (HB3 : building s3 a3 x mm m3) by done. assert (Hb3' : built s a m s3 a3 m3 mm) by (eapply built_trans; [exact Hb02|]; eapply grew_built; [exact Hg3|by rewrite Hl3]).
  assert (Har : mmap_list m3 ≡ₚ seg_area ph :: mmap_list m) by (by rewrite Hl3, Hp, Hl1).
  destruct r as [e|]; runs_steps; exists a3, m3; (split; [done|]); (split; [done|]); [destruct Hr as [-> Hz]; split; [done|]; right; right; by rewrite Har|]. do 3 (split; [done|]). split; [exact Hr|].
  exists (seg_area ph). rewrite Hl3. split; [done|]. cbn [seg_area vm_start vm_end vm_flags]. lia.
Qed.

(** The segments to be loaded among the [k] headers from [i] on, each with the
    permission it gets: [perm] only ever grows. *)
Fixpoint segs (k : nat) (i perm : Z) : list (Z * proghdr) :=
  match k with
  | O => []
  | S k =>
      let ph := header_at i in
      if p_type ph =? ELF_PT_LOAD then (seg_perm perm ph, ph) :: segs k (i + 1) (seg_perm perm ph) else segs k (i + 1) perm
  end.

(** The result of loading the segments of [k] headers: all of them are there, or those
    before the one that is [stuck]. *)
Definition segments_done (k : nat) (i perm : Z) (oks : list bool) s' a' (m m' : mm_struct) (r : Z + list bool) : Prop :=
  let there l := forall perm' ph, (perm', ph) ∈ l -> segment_there s' a' x perm' m' ph in
  match r with
  | inl e => exists j, (j < k)%nat /\ there (segs j i perm) /\ exists perm', stuck s' m m' (segs j i perm) perm' (header_at (i + Z.of_nat j)) (oks !! length (segs j i perm)) e
  | inr _ => there (segs k i perm) /\ areas m m' (segs k i perm)
  end.

Lemma areas_app m m1 m2 l1 l2 : areas m m1 l1 -> areas m1 m2 l2 -> areas m m2 (l1 ++ l2).
Proof. unfold areas. intros H1 H2. rewrite H2, H1, fmap_app, !app_assoc. f_equiv. apply Permutation_app_comm. Qed.
Lemma stuck_app s' m m1 m2 l1 l2 perm ph ok e : areas m m1 l1 -> stuck s' m1 m2 l2 perm ph ok e -> stuck s' m m2 (l1 ++ l2) perm ph ok e.
Proof.
  intros Ha (Ht&Hs). split; [done|]. rewrite <-app_assoc. destruct Hs as [(?&?&?)|[(?&?&?)|(?&?&?)]]; [left|right; left|right; right]; (split; [done|]); (split; [|done]); by eapply areas_app.
Qed.

Lemma load_segments_runs k : forall s a m i perm oks, building s a x mm m -> 0 <= i -> phoff + sizeof_proghdr * (i + Z.of_nat k) <= Z.of_nat (length L) ->
  (forall j, i <= j < i + Z.of_nat k -> p_type (header_at j) = ELF_PT_LOAD -> seg_ok (header_at j)) -> perm = 0 \/ perm = PTE_U \/ perm = PTE_USER - 1 ->
  runs (load_segments pm optab xm k mm fd phoff i perm oks) s (fun r s' => exists a' m', building s' a' x mm m' /\ built s a m s' a' m' mm /\ segments_done k i perm oks s' a' m m' r).
Proof.
  induction k as [|k IH]; intros s a m i perm oks HB Hi Hon Hseg Hperm; cbn [load_segments].
  { runs_steps. exists a, m. split; [done|]. split; [by eapply built_refl|]. split; [intros perm' ph []%elem_of_nil|by unfold areas]. }
  runs_steps. runs_by (load_segment_runs s a m i perm oks HB Hi); [unfold sizeof_proghdr in *; lia|intros Ht; apply Hseg; [lia|done]|done|].
  intros r s1 (a1&m1&HB1&Hb1&Hr). unfold segment_done in Hr. cbv zeta in Hr. destruct r as [e|[perm1 oks1]].
  { runs_steps. exists a1, m1. split; [done|]. split; [done|]. exists 0%nat. split; [lia|]. split; [intros perm' ph []%elem_of_nil|]. exists (seg_perm perm (header_at i)). cbn. rewrite Z.add_0_r. by destruct oks. }
  pose proof (seg_perm_range perm (header_at i) Hperm) as [_ Hp1]. set (l1 := if p_type (header_at i) =? ELF_PT_LOAD then [(perm1, header_at i)] else []).
  assert (Hl1 : areas m m1 l1 /\ (forall perm' ph, (perm', ph) ∈ l1 -> segment_there s1 a1 x perm' m1 ph) /\ (forall j, segs (S j) i perm = l1 ++ segs j (i + 1) perm1) /\
    (forall j, oks1 !! j = oks !! (length l1 + j)%nat) /\ (perm1 = 0 \/ perm1 = PTE_U \/ perm1 = PTE_USER - 1)).
  { unfold l1. cbn [segs]. destruct (_ =? _); [destruct Hr as (->&->&Ha&Ht)|destruct Hr as (->&->&Ha)]; (split; [done|]).
    - split; [by intros perm' ph [= -> ->]%list_elem_of_singleton|]. split; [done|]. split; [by destruct oks|by right].
    - split; [intros perm' ph []%elem_of_nil|]. done. }
  destruct Hl1 as (Ha1&Ht1&Hsegs&Hoks&Hperm1). clear Hr. clearbody l1.
  runs_by (IH s1 a1 m1 (i + 1) perm1 oks1); [done|lia|unfold sizeof_proghdr in *; lia|intros j Hj; apply Hseg; lia|done|]. intros r s2 (a2&m2&HB2&Hb2&Hr2). exists a2, m2. split; [done|].
  split; [by eapply built_trans|]. unfold segments_done in *. cbv zeta in *.
  assert (Hthere : forall l2, (forall perm' ph, (perm', ph) ∈ l2 -> segment_there s2 a2 x perm' m2 ph) -> forall perm' ph, (perm', ph) ∈ l1 ++ l2 -> segment_there s2 a2 x perm' m2 ph).
  { intros l2 H2 perm' ph [Hin|Hin]%elem_of_app; [by eapply there_built; [apply Ht1|]|by apply H2]. }
  destruct r as [e|oks2]; [|rewrite Hsegs; destruct Hr2 as [Ht2 Ha2]; split; [by apply Hthere|by eapply areas_app]].
  destruct Hr2 as (j&Hj&Ht2&perm'&Hst). exists (S j). split; [lia|]. rewrite Hsegs. split; [by apply Hthere|]. exists perm'.
  rewrite length_app, <-Hoks. replace (i + Z.of_nat (S j)) with (i + 1 + Z.of_nat j) by lia. by eapply stuck_app.
Qed.

(** C10: The ELF loader on a program whose headers and segments lie inside the file.
    Either every segment is in the new address space: an area with its flags, every
    address mapped, with the bytes of the file and zeros behind them, and there are no
    other new areas.  Or the loader stops at a segment, with those before it loaded: with
    -E_INVAL only when its area, in whole pages, is outside of user space or overlaps
    another area, and with -E_NO_MEM only when [kmalloc] refuses the area's record or at
    most one page is free, too few for a page and its page table.  In any case page
    tables and areas stay consistent, all pages and all memory in use before are as they
    were, the pages in use now are those and the new address space's, and no other
    process has changed.  The permission of a segment includes those of the segments
    before it ([segs]). *)
Theorem load_segments_correct k s a m oks : building s a x mm m -> phoff + sizeof_proghdr * Z.of_nat k <= Z.of_nat (length L) ->
  (forall j, 0 <= j < Z.of_nat k -> p_type (header_at j) = ELF_PT_LOAD -> seg_ok (header_at j)) ->
  runs (load_segments pm optab xm k mm fd phoff 0 0 oks) s (fun r s' => exists a' m', building s' a' x mm m' /\ built s a m s' a' m' mm /\ segments_done k 0 0 oks s' a' m m' r).
Proof. intros HB Hon Hseg. apply load_segments_runs; auto; lia. Qed.
End Segments.
End Load.
