(* ===== verification/ExecEx.v ===== *)
(** * A program that is loaded

    File 7 of the file system of SfsDev.v is now an ELF file with two segments: five
    bytes and 27 zeros at 0x10000ff0, writable, across a page boundary; three bytes at
    0x10002000, read-only.  Directory 54 of PageTableThm.v is empty and becomes the new
    address space. *)

From stdpp Require Import base gmap list.
From Stdlib Require Import ZArith Lia Bool.
From S2P Require Import Prelude.
From S2P Require Import Buddy.
From S2P Require Import BuddyThm.
From S2P Require Import Pmm.
From S2P Require Import PageTable.
From S2P Require Import PageTableInv.
From S2P Require Import PageTableOps.
From S2P Require Import PageTableThm.
From S2P Require Import Vmm.
From S2P Require Import VmmThm.
From S2P Require Import KState.
From S2P Require Import Sched.
From S2P Require Import Vfs.
From S2P Require Import FileThm.
From S2P Require Import Dev.
From S2P Require Import DevThm.
From S2P Require Import Console.
From S2P Require Import Proc.
From S2P Require Import ExitThm.
From S2P Require Import ProcEx.
From S2P Require Import Sfs.
From S2P Require Import SfsInv.
From S2P Require Import SfsThm.
From S2P Require Import SfsIo.
From S2P Require Import SfsDev.
From S2P Require Import Sysfile.
From S2P Require Import SysfileThm.
From S2P Require Import SysfileSfs.
From S2P Require Import SysEx.
From S2P Require Import Fault.
From S2P Require Import Exec.
From S2P Require Import Trap.
From S2P Require Import TrapEx.
From S2P Require Import ExecThm.

Definition elf_words (l : list Z) : list Z := mjoin (put_le 4 <$> l).
Definition elf_seg1 : list Z := [ELF_PT_LOAD; 116; 0x10000ff0; 0; 5; 32; 6; 4096].
Definition elf_seg2 : list Z := [ELF_PT_LOAD; 121; 0x10002000; 0; 3; 3; 4; 4096].
Definition elf_image : list Z :=
  elf_words [ELF_MAGIC; 0; 0; 0; 0; 1; 0x10000ff0; 52; 0; 0; 0x200034; 2; 0] ++ elf_words elf_seg1 ++ elf_words elf_seg2 ++ [104; 101; 108; 108; 111; 97; 98; 99].

Definition elf_sin : sfs_inode := mkSin (ex_din 124 SFS_TYPE_FILE 4) 3 false 1.
Definition elf_mem : bytes := poke (0x100000 + 4 * 4096) elf_image (fun _ => 0).
Definition elf_f : sst :=
  mkFst (inodes ex_s) {[(1, 3) := sys_file]} {[1 := mkFsS None 1]} (Some 1) [] None elf_mem (mkSfsx ex_sdevst ex_sfsfs {[7 := elf_sin]} [Some 0x50000]).
Definition exec_k : kst := mkK {[3 := fam_proc PROC_RUNNABLE 6 0 (Some 2) None None None]} 3 1 2 (mkRq [] 0 20) ∅ [] ∅ ∅ ∅ [] ∅ 5 8192 4 ex_vm.
Definition exec_mm : mm_struct := mkMm [] None (kva 54) 0 1 1.
Definition exec_t : tst (sfsx devst) := mkT (mkP exec_k {[9 := exec_mm]} elf_f {[3 := 1]} ∅ ∅ 0 0) 0 0 0 0 trap_con 0 0.
Definition exec_x : exec_mem := mkXm 0x81000000 0x81000100 0x81000200 (Some 0x30000) None (Some 9) [true; true; true] [].
Definition exec_run := load_segments buddy_pmm_manager ex_tab exec_x 2 9 3 52 0 0 [true; true].

Example exec_runs : match exec_run exec_t with Ok (inr _, _) => true | _ => false end = true.
Proof. vm_compute. reflexivity. Qed.

Abbreviation elf_rest := (sfs_rest ex_io ex_sdevst 3 1 7 0x20000 elf_image).

Lemma elf_FileAt : FileAt ex_io ex_sdevst elf_f 7 elf_sin [4].
Proof.
  split; [|reflexivity| |done|cbn; unfold SFS_BLKSIZE; lia].
  - destruct ex_GInv as [? ? ? ? ? ? ?]. by split.
  - destruct (ex_frep 124 SFS_TYPE_FILE 4) as [? ? ? ? ? ? ?]; [lia|]. by split.
Qed.

Lemma elf_open : elf_rest elf_image elf_f.
Proof.
  exists sys_file, elf_sin, [4]. split; [|split; [done|split; [vm_compute; reflexivity|done]]].
  split; [|exact elf_FileAt|done|cbn; lia]. exists (mkInode 1 1 inode_type_sfs_inode_info (Some 1) 2). split; [|done]. split; try done.
  split; [done|]. split; [|done]. exists (mkFsS None 1). done.
Qed.

(** The file system works below 0x60000. *)
Lemma elf_apart x : KERNBASE <= x < KERNTOP -> ~ range 0x30000 IOBUF_SIZE x /\ ~ ex_fsmem x.
Proof.
  unfold KERNTOP, KERNBASE, KMEMSIZE. intros Hx. split; [unfold range, IOBUF_SIZE; lia|]. intros [Hn|Hb]; [|unfold SFS_BLKSIZE in Hb; lia]. apply Hn. split; [lia|]. split; [unfold W32; lia|].
  split; apply in_range_false; cbn; unfold DISK0_BUFSIZE, DISK0_BLKSIZE, SECTSIZE; lia.
Qed.

Lemma exec_building : building (pm := buddy_pmm_manager) exec_x ex_fsmem elf_rest 0x30000 exec_t ex_as 54 9 exec_mm.
Proof.
  split; [|reflexivity|].
  - split.
    + exact ex_vm_rep.
    + intros i e d _ He. discriminate.
    + cbn. set_solver.
    + vm_compute. discriminate.
    + intros y Hy _ x Hx. cbn in Hy. unfold range, kva, PGSIZE, KERNBASE in Hx. destruct (elf_apart x) as [H1 H2]; [unfold KERNTOP, KERNBASE, KMEMSIZE; lia|]. split; [done|]. split; [done|].
      unfold range, sizeof_proghdr. cbn. lia.
    + split; [exists elf_image; exact elf_open|]. eexists. split; reflexivity.
  - split.
    + split; [done|]. split; [done|]. reflexivity.
    + reflexivity.
    + cbn. set_solver.
    + intros v p Hp. cbn in Hp. apply lookup_singleton_Some in Hp as [[=] _].
    + intros i t Ht. cbn in Ht. apply lookup_singleton_Some in Ht as [[=] _].
    + cbn. lia.
Qed.

(** Both segments are loaded.  The second has the permission to be written, which only
    the first asked for. *)
Lemma load_segments_correct_witness :
  runs exec_run exec_t (fun r s' => exists oks, r = inr oks /\ exists m' p q, mms (ps s') !! 9 = Some m' /\ mm_wf m' /\ length (mmap_list m') = 2%nat /\
    mem_of s' (kva p + 0xff4) = 111 /\ mem_of s' (kva p + 0xff5) = 0 /\ mem_of s' (kva q + 1) = 98 /\
    seg_flags (proghdr_at (file_bytes elf_image) 84) = VM_READ /\ exists a', VRep (pm := buddy_pmm_manager) nodl a' (kvm (ks (ps s'))) /\
    maps a' !! (54, 0x10000) = Some (p, PTE_U + PTE_W) /\ maps a' !! (54, 0x10002) = Some (q, PTE_U + PTE_W) /\ maps a' !! (53, 66560) = Some (56, PTE_USER)).
Proof.
  assert (H : runs exec_run exec_t (fun r s' => exists a' m', building (pm := buddy_pmm_manager) exec_x ex_fsmem elf_rest 0x30000 s' a' 54 9 m' /\
    built (pm := buddy_pmm_manager) exec_x ex_fsmem 0x30000 exec_t ex_as exec_mm s' a' m' 9 /\
    segments_done (pm := buddy_pmm_manager) exec_x ex_fsmem elf_image 0x30000 54 52 2 0 0 [true; true] s' a' exec_mm m' r)).
  { apply (load_segments_correct (pm := buddy_pmm_manager) ex_tab exec_x 3 ex_fsmem elf_image elf_rest (sfs_readable ex_io ex_sdevst ex_client_dec 1 3 1 7 0x20000 elf_image)
      (sfs_seekable ex_io ex_sdevst 1 3 1 7 0x20000 elf_image) 0x30000 sys_kbuf eq_refl ltac:(vm_compute; reflexivity) 9 54 52).
    - unfold KERNTOP, KERNBASE, KMEMSIZE, sizeof_proghdr. cbn. lia.
    - intros y Hy. apply elf_apart. unfold range, sizeof_proghdr in Hy. cbn in Hy. unfold KERNTOP, KERNBASE, KMEMSIZE. lia.
    - lia.
    - exact exec_building.
    - vm_compute. discriminate.
    - intros j Hj _. assert (j = 0 \/ j = 1) as [-> | ->] by lia; unfold seg_ok; vm_compute; repeat split; discriminate. }
  pose proof exec_runs as Hr. unfold runs in *. destruct (exec_run exec_t) as [[[e|oks] s']| | |]; try discriminate Hr. exists oks. split; [reflexivity|].
  destruct H as (a'&m'&[HL Hat HM]&HB&Hres&Har). destruct (Hres (PTE_U + PTE_W) (proghdr_at (file_bytes elf_image) 52)) as [Hf1 _]; [vm_compute; left|].
  destruct (Hres (PTE_U + PTE_W) (proghdr_at (file_bytes elf_image) 84)) as [Hf2 _]; [vm_compute; right; left|].
  destruct (Hf1 0x10000ff4) as (p&Hp&_&_&Hb1); [vm_compute; split; [discriminate|reflexivity]|].
  destruct (Hf1 0x10000ff5) as (p'&Hp'&_&_&Hb2); [vm_compute; split; [discriminate|reflexivity]|].
  destruct (Hf2 0x10002001) as (q&Hq&_&_&Hb3); [vm_compute; split; [discriminate|reflexivity]|].
  change (vpn 0x10000ff4) with 0x10000 in Hp. change (vpn 0x10000ff5) with 0x10000 in Hp'. change (vpn 0x10002001) with 0x10002 in Hq. assert (p' = p) as -> by congruence.
  exists m', p, q. split; [exact Hat|]. split; [apply HM|]. split; [unfold areas in Har; rewrite Har; reflexivity|]. split; [exact Hb1|]. split; [exact Hb2|]. split; [exact Hb3|]. split; [vm_compute; reflexivity|].
  exists a'. split; [apply HL|]. split; [exact Hp|]. split; [exact Hq|]. eapply lookup_weaken; [|exact (bt_sub _ _ _ _ _ _ _ _ _ _ HB)]. reflexivity.
Defined.
