(* ===== verification/Shell.v ===== *)
(** * The user shell (user/sh.c)

    The shell of the user programs, in its own memory.  The kernel is known to it by the
    results of system calls: [answer h] is the result of the last call of the history
    [h], [datum h] what that call stored in the caller's memory (the character read, the
    exit code of the child).  The model follows one process: where the shell forks,
    [answer] says whether it is the parent or the child.  The routines of
    user/libs/string.c are those of kern/libs/string.c (Str.v); [strchr] on a literal is
    membership.  Printing is one call here, [CPrint], with the format as the source spells it
    and its arguments: [fprintf] is the kernel's formatter (Printf.v) over [write]. *)

From stdpp Require Import base list.
From Stdlib Require Import ZArith Lia Bool String.
From S2P Require Import Prelude.
From S2P Require Import Vmm.
From S2P Require Import Vfs.
From S2P Require Import Sfs.
From S2P Require Import Exec.
From S2P Require Import Str.

#[local] Abbreviation length := Datatypes.length.

Definition BUFSIZE : Z := 4096.
Definition WHITESPACE : list Z := [32; 9; 13; 10].
Definition SYMBOLS : list Z := [60; 124; 62; 38; 59].

Inductive arg := AInt (v : Z) | AStr (l : list Z).
Inductive call :=
| COpen (path : list Z) (flags : Z)
| CClose (fd : Z)
| CDup (fd1 fd2 : Z)
| CFork
| CWait (pid : Z)
| CExit (code : Z)
| CExec (argv : list (list Z))
| CRead
| CPrint (format : string) (args : list arg).
#[export] Instance arg_eq_dec : EqDecision arg.
Proof. solve_decision. Defined.
#[export] Instance call_eq_dec : EqDecision call.
Proof. solve_decision. Defined.

Record shst := mkSh { smem : bytes; calls : list call; shcwd : list Z }.

(** [strchr(s, c) != NULL]: not for the NUL. *)
Definition one_of (s : list Z) (c : Z) : bool := existsb (Z.eqb c) s.
(** The string at [a], as far as a buffer reaches. *)
Definition string_at (m : bytes) (a : Z) : list Z := cstr (peek m a BUFSIZE).

#[local] Open Scope string_scope.
#[local] Open Scope list_scope.
#[local] Open Scope Z_scope.

Section Shell.
Variables (answer datum : list call -> Z).
(** [buffer] of [readline]; [p] of [runcmd], which is never assigned. *)
Variables (buffer p0 p1 : Z).

Definition sys (c : call) : M shst Z :=
  let! s := get in
  do! put (mkSh (smem s) (calls s ++ [c]) (shcwd s)) in ret (answer (calls s ++ [c])).
Definition stored : M shst Z := let! s := get in ret (datum (calls s)).
Definition print (format : string) (args : list arg) : M shst unit := do! sys (CPrint format args) in ret tt.
Definition rd (a : Z) : M shst Z := let! s := get in ret (smem s a).
Definition wr (a v : Z) : M shst unit := modify (fun s => mkSh (upd_byte a v (smem s)) (calls s) (shcwd s)).
Definition text (a : Z) : M shst (list Z) := let! s := get in ret (string_at (smem s) a).

(** ** Tokens *)

Fixpoint skip_white (fuel : nat) (s : Z) : M shst Z :=
  let! c := rd s in
  if one_of WHITESPACE c then
    match fuel with O => nofuel | S fuel => do! wr s 0 in skip_white fuel (s + 1) end
  else ret s.
Fixpoint skip_word (fuel : nat) (flag : bool) (s : Z) : M shst Z :=
  let! c := rd s in
  if negb (c =? 0) && (flag || negb (one_of (WHITESPACE ++ SYMBOLS) c)) then
    match fuel with
    | O => nofuel
    | S fuel =>
        let! flag := (if c =? 34 then do! wr s 32 in ret (negb flag) else ret flag) in
        skip_word fuel flag (s + 1)
    end
  else ret s.
(** Return value, [*p1], [*p2]; a NULL pointer is [None]. *)
Definition gettoken (fuel : nat) (q1 : option Z) (q2 : Z) : M shst (Z * option Z * Z) :=
  match q1 with
  | None => ret (0, q1, q2)
  | Some s =>
      let! s := skip_white fuel s in
      let! c := rd s in
      if c =? 0 then ret (0, q1, q2)
      else
        let t := s in
        let! r := (if one_of SYMBOLS c then do! wr s 0 in ret (c, s + 1)
                   else let! s := skip_word fuel false s in ret (119, s)) in
        let! c := rd (snd r) in
        ret (fst r, if negb (c =? 0) then Some (snd r) else None, t)
  end.

(** ** Input *)

Definition schar (b : Z) : Z := if b <? 128 then b else b - 256.
(** [while (1)] of [readline]. *)
Fixpoint read_line (fuel : nat) (i : Z) : M shst (option Z) :=
  match fuel with
  | O => nofuel
  | S fuel =>
      let! r := sys CRead in
      if r <? 0 then ret None
      else if r =? 0 then
        if 0 <? i then do! wr (buffer + i) 0 in ret (Some buffer) else ret None
      else
        let! b := stored in
        let c := schar b in
        if c =? 3 then ret None
        else if (32 <=? c) && (i <? BUFSIZE - 1) then do! print "%c" [AInt c] in do! wr (buffer + i) b in read_line fuel (i + 1)
        else if (c =? 8) && (0 <? i) then do! print "%c" [AInt c] in read_line fuel (i - 1)
        else if (c =? 10) || (c =? 13) then do! print "%c" [AInt c] in do! wr (buffer + i) 0 in ret (Some buffer)
        else read_line fuel i
  end.
Definition readline (fuel : nat) (prompt : option (list Z)) : M shst (option Z) :=
  do! (match prompt with Some t => print "%s" [AStr t] | None => ret tt end) in read_line fuel 0.

(** ** Commands *)

Definition reopen (fd2 : Z) (filename : list Z) (open_flags : Z) : M shst Z :=
  do! sys (CClose fd2) in
  let! ret1 := sys (COpen filename open_flags) in
  let! ret2 := (if (0 <=? ret1) && negb (ret1 =? fd2) then
                  do! sys (CClose fd2) in
                  let! r := sys (CDup ret1 fd2) in
                  do! sys (CClose ret1) in ret r
                else ret ret1) in
  ret (if ret2 <? 0 then ret2 else 0).
Definition testfile (name : list Z) : M shst Z :=
  let! r := sys (COpen name O_RDONLY) in
  if r <? 0 then ret r else do! sys (CClose r) in ret 0.

Definition str_cd : list Z := [99; 100].
(** From [runit] on. *)
Definition runit (argv : list Z) : M shst Z :=
  match argv with
  | [] => ret 0
  | a0 :: _ =>
      let! w0 := text a0 in
      if bool_decide (w0 = str_cd) then
        match argv with
        | [_; a1] => let! w1 := text a1 in do! modify (fun s => mkSh (smem s) (calls s) w1) in ret 0
        | _ => ret (-1)
        end
      else
        let! r := testfile w0 in
        if negb (r =? 0) && negb (r =? - E_NOENT) then ret r
        else
          let! s := get in
          let words := string_at (smem s) <$> argv in
          sys (CExec (if negb (r =? 0) then take 4095 (47 :: w0) :: tail words else words))
  end.

Definition err_args : string := "sh error: too many arguments\n".
Definition err_syntax (token : Z) : string :=
  if token =? 60 then "sh error: syntax error: < not followed by word\n" else "sh error: syntax error: > not followed by word\n".
Definition err_token : string := "sh error: bad return %d from gettoken\n".

(** A redirection: the next token names the file. *)
Definition redirect (fuel : nat) (cmd : option Z) (t token fd flags : Z) : M shst (Z * option Z * Z) :=
  let! r := gettoken fuel cmd t in
  let '(tok, cmd, t) := r in
  if negb (tok =? 119) then do! print (err_syntax token) [] in ret (-1, cmd, t)
  else let! name := text t in let! e := reopen fd name flags in ret (e, cmd, t).

(** The loop over the tokens, and [goto again]; [n]: one fuel per token, [argv]: the words so far. *)
Fixpoint runcmd_loop (n fuel : nat) (cmd : option Z) (t : Z) (argv : list Z) : M shst Z :=
  match n with
  | O => nofuel
  | S n =>
      let! r := gettoken fuel cmd t in
      let '(token, cmd, t) := r in
      if token =? 119 then
        if Z.of_nat (length argv) =? EXEC_MAX_ARG_NUM then do! print err_args [] in ret (-1)
        else runcmd_loop n fuel cmd t (argv ++ [t])
      else if token =? 60 then
        let! r := redirect fuel cmd t token 0 O_RDONLY in
        let '(e, cmd, t) := r in
        if negb (e =? 0) then ret e else runcmd_loop n fuel cmd t argv
      else if token =? 62 then
        let! r := redirect fuel cmd t token 1 (Z.lor (Z.lor O_RDWR O_TRUNC) O_CREAT) in
        let '(e, cmd, t) := r in
        if negb (e =? 0) then ret e else runcmd_loop n fuel cmd t argv
      else if token =? 124 then
        let! pid := sys CFork in
        if pid =? 0 then
          do! sys (CClose 0) in
          let! r := sys (CDup p0 0) in
          if r <? 0 then ret r
          else do! sys (CClose p0) in do! sys (CClose p1) in runcmd_loop n fuel cmd t []
        else if pid <? 0 then ret pid
        else
          do! sys (CClose 1) in
          let! r := sys (CDup p1 1) in
          if r <? 0 then ret r
          else do! sys (CClose p0) in do! sys (CClose p1) in runit argv
      else if token =? 0 then runit argv
      else if token =? 59 then
        let! pid := sys CFork in
        if pid =? 0 then runit argv
        else if pid <? 0 then ret pid
        else do! sys (CWait pid) in runcmd_loop n fuel cmd t []
      else do! print err_token [AInt token] in ret (-1)
  end.
(** A line has at most [BUFSIZE] tokens and characters. *)
Definition runcmd (cmd : Z) : M shst Z := runcmd_loop (Z.to_nat BUFSIZE) (Z.to_nat BUFSIZE) (Some cmd) 0 [].

(** ** The program *)

(** [while ((buffer = readline(...)) != NULL)]; a child ends with [exit]. *)
Fixpoint main_loop (n fuel : nat) (interactive : bool) : M shst Z :=
  match n with
  | O => nofuel
  | S n =>
      let! b := readline fuel (if interactive then Some [36; 32] else None) in
      match b with
      | None => ret 0
      | Some line =>
          do! print "\r\n" [] in
          do! modify (fun s => mkSh (smem s) (calls s) []) in
          let! pid := sys CFork in
          if pid =? 0 then let! r := runcmd line in do! sys (CExit r) in ret r
          else
            do! assert_ (0 <=? pid) in
            let! w := sys (CWait pid) in
            do! (if w =? 0 then let! r := stored in if negb (r =? 0) then print "error: %d - %e\n" [AInt r; AInt r] else ret tt else ret tt) in
            main_loop n fuel interactive
      end
  end.
(** [argv]: the arguments. *)
Definition sh_main (n fuel : nat) (argv : list (list Z)) : M shst Z :=
  do! print "user sh is running!!!\n" [] in
  match argv with
  | [_; file] =>
      let! r := reopen 0 file O_RDONLY in
      if negb (r =? 0) then ret r else main_loop n fuel false
  | _ :: _ :: _ :: _ => do! print "usage: sh [command-file]\n" [] in ret (-1)
  | _ => main_loop n fuel true
  end.
End Shell.
