(* ===== verification/ShellThm.v ===== *)
(** * The user shell: tokens and commands

    [gettoken] against a function on lists; what a command of words executes; what a
    redirection in the middle of a line opens. *)

From stdpp Require Import base list.
From Stdlib Require Import ZArith Lia Bool String.
From S2P Require Import Prelude.
From S2P Require Import Vmm.
From S2P Require Import Vfs.
From S2P Require Import Sfs.
From S2P Require Import SfsInv.
From S2P Require Import Exec.
From S2P Require Import Str.
From S2P Require Import Shell.

#[local] Abbreviation length := Datatypes.length.

#[local] Open Scope string_scope.
#[local] Open Scope list_scope.
#[local] Open Scope Z_scope.

(** ** Tokens of a line *)

Definition white (c : Z) : bool := one_of WHITESPACE c.
Definition symbol (c : Z) : bool := one_of SYMBOLS c.
#[local] Arguments white : simpl never.
#[local] Arguments symbol : simpl never.
#[local] Arguments one_of : simpl never.
Fixpoint take_white (l : list Z) : list Z := match l with c :: l => if white c then c :: take_white l else [] | [] => [] end.
Fixpoint drop_white (l : list Z) : list Z := match l with c :: l' => if white c then drop_white l' else l | [] => [] end.
(** A word, its quotes turned into blanks, and what is behind it. *)
Fixpoint word_of (flag : bool) (l : list Z) : list Z * list Z :=
  match l with
  | [] => ([], [])
  | c :: l' =>
      if flag || negb (white c || symbol c) then
        let r := word_of (if c =? 34 then negb flag else flag) l' in ((if c =? 34 then 32 else c) :: fst r, snd r)
      else ([], l)
  end.
(** The tokens of a line: symbols, and words under the token w. *)
Fixpoint lex (n : nat) (l : list Z) : list (Z * list Z) :=
  match n with
  | O => []
  | S n =>
      match drop_white l with
      | [] => []
      | c :: r => if symbol c then (c, []) :: lex n r else let w := word_of false (c :: r) in (119, fst w) :: lex n (snd w)
      end
  end.

Lemma white_split l : l = take_white l ++ drop_white l.
Proof. induction l as [|c l IH]; [done|]. cbn [take_white drop_white]. destruct (white c); [|done]. rewrite <-app_comm_cons. by f_equal. Qed.
Lemma white_not_nul c : white c = true -> c <> 0.
Proof. intros H ->. done. Qed.
Lemma drop_white_head l c r : drop_white l = c :: r -> white c = false.
Proof. induction l as [|x l IH]; [done|]. cbn. destruct (white x) eqn:Hx; [apply IH|]. by intros [= <- <-]. Qed.
Lemma symbol_white c : symbol c = true -> white c = false.
Proof. intros Hs%existsb_exists. destruct Hs as (x&Hx&->%Z.eqb_eq). repeat (destruct Hx as [<-|Hx]; [done|]). done. Qed.
Lemma word_length l : forall flag, length l = (length (fst (word_of flag l)) + length (snd (word_of flag l)))%nat.
Proof. induction l as [|c l IH]; intros flag; [done|]. cbn [word_of]. destruct (_ || _); cbn [fst snd length]; [|done]. rewrite (IH (if c =? 34 then negb flag else flag)). lia. Qed.
Lemma word_rest l : forall flag, snd (word_of flag l) = drop (length (fst (word_of flag l))) l.
Proof. induction l as [|c l IH]; intros flag; [done|]. cbn [word_of]. destruct (_ || _); cbn [fst snd length drop]; [apply IH|done]. Qed.
Lemma word_delim l : forall flag c r, snd (word_of flag l) = c :: r -> white c || symbol c = true.
Proof. induction l as [|x l IH]; intros flag c r; [done|]. cbn [word_of]. destruct (flag || negb (white x || symbol x)) eqn:Hf; cbn [snd]; [apply IH|]. intros [= <- <-]. apply orb_false_iff in Hf as [_ Hf]. by apply negb_false_iff in Hf. Qed.
Lemma word_bytes l : Forall (fun c => 0 < c < 256) l -> forall flag, Forall (fun c => 0 < c < 256) (fst (word_of flag l)).
Proof. induction 1 as [|c l Hc _ IH]; intros flag; [constructor|]. cbn [word_of]. destruct (_ || _); cbn [fst]; [|constructor]. constructor; [|apply IH]. destruct (c =? 34); lia. Qed.

(** A part of memory overwritten. *)
Definition patch (a : Z) (l : list Z) (m : bytes) : bytes := fun x => if decide (a <= x < a + Z.of_nat (length l)) then l !!! Z.to_nat (x - a) else m x.
Lemma patch_out a l m x : ~ a <= x < a + Z.of_nat (length l) -> patch a l m x = m x.
Proof. intros H. unfold patch. by rewrite decide_False. Qed.
Lemma patch_in a l m x : a <= x < a + Z.of_nat (length l) -> patch a l m x = l !!! Z.to_nat (x - a).
Proof. intros H. unfold patch. by rewrite decide_True. Qed.
Lemma patch_cons a c l m x : patch (a + 1) l (upd_byte a c m) x = patch a (c :: l) m x.
Proof.
  unfold patch. cbn [length]. destruct (decide (a + 1 <= x < a + 1 + Z.of_nat (length l))) as [H|H].
  - rewrite decide_True by lia. replace (Z.to_nat (x - a)) with (S (Z.to_nat (x - (a + 1)))) by lia. done.
  - destruct (decide (x = a)) as [->|Hne]; [rewrite upd_byte_at, decide_True by lia; by rewrite Z.sub_diag|]. rewrite upd_byte_ne by done. by rewrite decide_False by lia.
Qed.
Definition calm (s s' : shst) : Prop := calls s' = calls s /\ shcwd s' = shcwd s.

Lemma skip_white_runs l : forall fuel s a, is_str (smem s) a l -> (length l <= fuel)%nat ->
  runs (skip_white fuel a) s (fun r s' => r = a + Z.of_nat (length (take_white l)) /\ calm s s' /\ forall x, smem s' x = patch a (replicate (length (take_white l)) 0) (smem s) x).
Proof.
  assert (Hstop : forall fuel s a c, smem s a = c -> white c = false -> runs (skip_white fuel a) s (fun r s' => r = a + 0 /\ calm s s' /\ forall x, smem s' x = patch a [] (smem s) x)).
  { intros fuel s a c Hc Hw. destruct fuel; cbn [skip_white]; unfold rd; runs_steps; rewrite Hc; change (one_of WHITESPACE c) with (white c); rewrite Hw; runs_steps; (split; [lia|split; [done|]]; intros x; by rewrite patch_out by (cbn; lia)). }
  induction l as [|c l IH]; intros fuel s a Hs Hl; [eapply Hstop; [by apply is_str_nil|done]|]. apply is_str_cons in Hs as (Hc&Ha&Hs). cbn [take_white]. destruct (white c) eqn:Hw; [|by eapply Hstop].
  cbn [length] in Hl. destruct fuel as [|fuel]; [lia|]. cbn [skip_white]. unfold rd, wr. runs_steps. rewrite Ha. change (one_of WHITESPACE c) with (white c). rewrite Hw. runs_steps. set (s1 := mkSh _ _ _).
  runs_by (IH fuel s1 (a + 1)); [eapply is_str_ext; [exact Hs|]; intros i Hi; apply upd_byte_ne; lia|lia|]. intros r s' (->&Hcalm&Hm). cbn [length replicate]. split; [lia|]. split; [done|]. intros x. rewrite Hm. apply patch_cons.
Qed.
Lemma skip_word_runs l : forall fuel flag s a, is_str (smem s) a l -> (length l <= fuel)%nat ->
  runs (skip_word fuel flag a) s (fun r s' => r = a + Z.of_nat (length (fst (word_of flag l))) /\ calm s s' /\ forall x, smem s' x = patch a (fst (word_of flag l)) (smem s) x).
Proof.
  assert (Hnil : forall (s : shst) a x, smem s x = patch a [] (smem s) x) by (intros; by rewrite patch_out by (cbn; lia)).
  induction l as [|c l IH]; intros fuel flag s a Hs Hl.
  - apply is_str_nil in Hs. destruct fuel; cbn [skip_word]; unfold rd; runs_steps; rewrite Hs; runs_steps; (split; [cbn; lia|split; [done|apply Hnil]]).
  - apply is_str_cons in Hs as (Hc&Ha&Hs). assert (Hone : one_of (WHITESPACE ++ SYMBOLS) c = white c || symbol c) by apply existsb_app. cbn [word_of]. destruct (flag || negb (white c || symbol c)) eqn:Hf.
    + cbn [length] in Hl. destruct fuel as [|fuel]; [lia|]. cbn [skip_word fst]. unfold rd. runs_steps. rewrite Ha, Hone, Hf, (proj2 (Z.eqb_neq c 0)) by lia. cbn [negb andb]. set (c' := if c =? 34 then 32 else c). set (flag' := if c =? 34 then negb flag else flag).
      assert (Hw : forall Q : bool -> shst -> Prop, (forall s1, calm s s1 -> (forall x, smem s1 x = upd_byte a c' (smem s) x) -> Q flag' s1) -> runs (if c =? 34 then do! wr a 32 in ret (negb flag) else ret flag) s Q).
      { intros Q HQ. unfold c', flag' in HQ. destruct (c =? 34); unfold wr; runs_steps; apply HQ; try done. intros x. destruct (decide (x = a)) as [->|]; [by rewrite upd_byte_at|by rewrite upd_byte_ne]. }
      runs_steps. apply Hw. intros s1 [Hc1 Hw1] Hm1. runs_by (IH fuel flag' s1 (a + 1)); [eapply is_str_ext; [exact Hs|]; intros i Hi; rewrite Hm1; apply upd_byte_ne; lia|lia|].
      intros r s' (->&[Hc2 Hw2]&Hm). cbn [length]. split; [lia|]. split; [split; congruence|]. intros x. rewrite Hm, <-patch_cons. unfold patch. case_decide; [done|apply Hm1].
    + destruct fuel; cbn [skip_word fst]; unfold rd; runs_steps; rewrite Ha, Hone, Hf, (proj2 (Z.eqb_neq c 0)) by lia; cbn [negb andb]; runs_steps; (split; [cbn; lia|split; [done|apply Hnil]]).
Qed.

Definition next (a : Z) (rest : list Z) : option Z := match rest with [] => None | _ => Some a end.
(** What [gettoken] returns for the line [l] at [a], and what it leaves in memory. *)
Definition token_at (l : list Z) (a t : Z) : Z * option Z * Z :=
  let b := a + Z.of_nat (length (take_white l)) in
  match drop_white l with
  | [] => (0, Some a, t)
  | c :: r => if symbol c then (c, next (b + 1) r, b) else let w := word_of false (c :: r) in (119, next (b + Z.of_nat (length (fst w))) (snd w), b)
  end.
Definition token_bytes (l : list Z) : list Z :=
  replicate (length (take_white l)) 0 ++
  match drop_white l with [] => [] | c :: r => if symbol c then [0] else fst (word_of false (c :: r)) end.

Lemma patch_app a l1 l2 m x : patch (a + Z.of_nat (length l1)) l2 (patch a l1 m) x = patch a (l1 ++ l2) m x.
Proof.
  unfold patch. rewrite length_app. destruct (decide (a + Z.of_nat (length l1) <= x < a + Z.of_nat (length l1) + Z.of_nat (length l2))) as [H|H].
  - rewrite decide_True by lia. rewrite lookup_total_app_r by lia. f_equal. lia.
  - destruct (decide (a <= x < a + Z.of_nat (length l1))); [rewrite decide_True by lia; by rewrite lookup_total_app_l by lia|by rewrite decide_False by lia].
Qed.
Lemma patch_ext a l m m' x : (forall y, m' y = m y) -> patch a l m' x = patch a l m x.
Proof. intros H. unfold patch. by rewrite H. Qed.
Lemma is_str_tail m a l1 l2 : is_str m a (l1 ++ l2) -> is_str m (a + Z.of_nat (length l1)) l2.
Proof.
  revert a. induction l1 as [|c l1 IH]; intros a H; [by rewrite Z.add_0_r|]. rewrite <-app_comm_cons in H. apply is_str_cons in H as (_&_&H). cbn [length]. replace (a + Z.of_nat (S (length l1))) with (a + 1 + Z.of_nat (length l1)) by lia. by apply IH.
Qed.
Lemma is_str_next m a l : is_str m a l -> (if negb (m a =? 0) then Some a else None) = next a l.
Proof. destruct l as [|c l]; intros H; [by rewrite (is_str_nil _ _ H)|]. apply is_str_cons in H as (Hc&->&_). by rewrite (proj2 (Z.eqb_neq c 0)) by lia. Qed.

Lemma gettoken_runs l fuel s a t : is_str (smem s) a l -> (length l <= fuel)%nat ->
  runs (gettoken fuel (Some a) t) s (fun r s' => r = token_at l a t /\ calm s s' /\ forall x, smem s' x = patch a (token_bytes l) (smem s) x).
Proof.
  intros Hs Hl. unfold gettoken, token_at, token_bytes. runs_steps. runs_by (skip_white_runs l fuel s a Hs Hl). intros b s1 (->&[Hc1 Hw1]&Hm1). set (tw := take_white l) in *. assert (Hlen : length l = (length tw + length (drop_white l))%nat) by (rewrite (white_split l) at 1; by rewrite length_app).
  assert (Hs1 : is_str (smem s1) (a + Z.of_nat (length tw)) (drop_white l)).
  { rewrite (white_split l) in Hs. eapply is_str_ext; [by eapply is_str_tail|]. intros i Hi. rewrite Hm1. apply patch_out. rewrite length_replicate. fold tw. lia. }
  unfold rd. runs_steps. destruct (drop_white l) as [|c r] eqn:Hd.
  - rewrite (is_str_nil _ _ Hs1). cbn [Z.eqb]. runs_steps. split; [done|]. split; [done|]. intros x. by rewrite app_nil_r.
  - pose proof Hs1 as (Hc&Ha&Hr)%is_str_cons. rewrite Ha, (proj2 (Z.eqb_neq c 0)) by lia. runs_steps. change (one_of SYMBOLS c) with (symbol c). destruct (symbol c) eqn:Hsy.
    + unfold wr. runs_steps. cbn [fst snd smem]. rewrite upd_byte_ne by lia. rewrite (is_str_next _ _ _ Hr). split; [done|]. split; [done|]. intros x. rewrite <-patch_app, length_replicate. rewrite <-patch_cons, patch_out by (cbn; lia). unfold upd_byte. destruct (x =? _); [done|apply Hm1].
    + runs_steps. cbn [length] in Hlen. runs_by (skip_word_runs (c :: r) fuel false s1 _ Hs1); [cbn [length]; lia|]. intros e s2 (->&[Hc2 Hw2]&Hm2). runs_steps. cbn [fst snd]. set (w := word_of false (c :: r)) in *.
      assert (Hs2 : is_str (smem s2) (a + Z.of_nat (length tw) + Z.of_nat (length (fst w))) (snd w)).
      { assert (Hcr : c :: r = take (length (fst w)) (c :: r) ++ snd w) by (unfold w; rewrite (word_rest (c :: r) false); by rewrite take_drop). pose proof (word_length (c :: r) false) as Hwl. fold w in Hwl. rewrite Hcr in Hs1. apply is_str_tail in Hs1. rewrite length_take in Hs1. replace (length (fst w) `min` length (c :: r))%nat with (length (fst w)) in Hs1 by lia.
        eapply is_str_ext; [exact Hs1|]. intros i Hi. rewrite Hm2. apply patch_out. lia. }
      rewrite (is_str_next _ _ _ Hs2). split; [done|]. split; [split; congruence|]. intros x. rewrite Hm2, <-patch_app, length_replicate. by apply patch_ext.
Qed.

(** ** Commands *)

Lemma peek_cons m b n : 0 < n -> peek m b n = m b :: peek m (b + 1) (n - 1).
Proof.
  intros Hn. unfold peek. rewrite seqZ_cons by done. cbn [fmap list_fmap]. rewrite Z.add_0_r. f_equal. rewrite <-Z.sub_1_r. change (Z.succ 0) with (0 + 1). 
  apply list_eq. intros i. rewrite !list_lookup_fmap. destruct (decide (Z.of_nat i < n - 1)).
  - rewrite !lookup_seqZ_lt by lia. cbn. do 2 f_equal. lia.
  - by rewrite !lookup_seqZ_ge by lia.
Qed.
Lemma cstr_peek w : forall m b n, is_str m b w -> Z.of_nat (length w) < n -> cstr (peek m b n) = w.
Proof.
  induction w as [|c w IH]; intros m b n Hs Hn; rewrite peek_cons by (cbn [length] in Hn; lia); cbn [cstr].
  - by rewrite (is_str_nil _ _ Hs).
  - apply is_str_cons in Hs as (Hc&->&Hs). rewrite (proj2 (Z.eqb_neq c 0)) by lia. f_equal. apply IH; [done|cbn [length] in Hn; lia].
Qed.
Lemma string_at_str m b w : is_str m b w -> Z.of_nat (length w) < BUFSIZE -> string_at m b = w.
Proof. apply cstr_peek. Qed.

Section Commands.
Variables (answer : list call -> Z) (p0 p1 : Z).
Abbreviation sys := (sys answer).

Lemma sys_runs c s (Q : Z -> shst -> Prop) : Q (answer (calls s ++ [c])) (mkSh (smem s) (calls s ++ [c]) (shcwd s)) -> runs (sys c) s Q.
Proof. intros HQ. unfold Shell.sys. by runs_steps. Qed.

(** The words of a command so far: all but the last are ended; the blank behind the last will be. *)
Definition placed (m : bytes) (cmd : option Z) (b : Z) (w : list Z) : Prop :=
  Forall (fun c => 0 < c < 256) w /\ Z.of_nat (length w) < BUFSIZE /\ (forall i c, w !! i = Some c -> m (b + Z.of_nat i) = c) /\
  match cmd with
  | None => m (b + Z.of_nat (length w)) = 0
  | Some a => (b + Z.of_nat (length w) < a /\ m (b + Z.of_nat (length w)) = 0) \/ (b + Z.of_nat (length w) = a /\ white (m a) = true)
  end.
Definition to_come (fuel : nat) (m : bytes) (cmd : option Z) (ws : list (list Z)) : Prop :=
  match cmd with
  | None => ws = []
  | Some a => exists l n, is_str m a l /\ ((length l <= fuel)%nat /\ Z.of_nat (length l) < BUFSIZE) /\ (length l < n)%nat /\ lex n l = (fun w => (119, w)) <$> ws
  end.

Lemma placed_is_str m b w : placed m None b w -> is_str m b w.
Proof. intros (Hf&_&Hb&He). by split. Qed.
Lemma placed_step m m' a a' l b w : placed m (Some a) b w -> is_str m a l -> (forall x, m' x = patch a (token_bytes l) m x) ->
  match a' with None => True | Some a' => a + Z.of_nat (length (take_white l)) < a' end -> placed m' a' b w.
Proof.
  intros (Hf&Hlen&Hb&He) Hs Hm Ha'. assert (Hin : forall x, x < a -> m' x = m x) by (intros x Hx; rewrite Hm; apply patch_out; lia).
  assert (Hbl : b + Z.of_nat (length w) <= a) by lia. split; [done|]. split; [done|]. split.
  - intros i c Hi. pose proof (lookup_lt_Some _ _ _ Hi). rewrite Hin by lia. by apply Hb.
  - assert (Hz : m' (b + Z.of_nat (length w)) = 0).
    { destruct He as [[Hlt He]|[He Hw]]; [rewrite Hin by lia; done|]. rewrite He, Hm. destruct l as [|c l]; [rewrite (is_str_nil _ _ Hs) in Hw; done|]. apply is_str_cons in Hs as (_&Hc&_). unfold token_bytes. cbn [take_white]. rewrite Hc in Hw. rewrite Hw. cbn [length replicate app].
      rewrite patch_in by (cbn [length]; lia). by rewrite Z.sub_diag. }
    destruct a' as [a'|]; [left; lia|done].
Qed.
(** The word that [gettoken] found. *)
Lemma new_word l c r s s' a : is_str (smem s) a l -> drop_white l = c :: r -> symbol c = false -> (forall x, smem s' x = patch a (token_bytes l) (smem s) x) ->
  let w := word_of false (c :: r) in let b := a + Z.of_nat (length (take_white l)) in let e := b + Z.of_nat (length (fst w)) in
  (0 < length (fst w))%nat /\ is_str (smem s') b (fst w ++ snd w) /\ is_str (smem s') e (snd w) /\ (length (fst w) + length (snd w) <= length l)%nat.
Proof.
  intros Hs Hd Hsy Hm w b e. pose proof (white_split l) as Hsp. rewrite Hd in Hsp. pose proof (drop_white_head _ _ _ Hd) as Hwh. pose proof (word_length (c :: r) false) as Hwl. fold w in Hwl.
  assert (Hbytes : Forall (fun c => 0 < c < 256) (c :: r)) by (destruct Hs as [Hf _]; rewrite Hsp in Hf; apply Forall_app in Hf as [_ Hf]; exact Hf).
  assert (Hlen : length l = (length (take_white l) + length (c :: r))%nat) by (rewrite Hsp at 1; by rewrite length_app).
  assert (He : is_str (smem s') e (snd w)).
  { assert (Hcr : l = (take_white l ++ take (length (fst w)) (c :: r)) ++ snd w) by (rewrite <-app_assoc; unfold w; rewrite (word_rest (c :: r) false), take_drop; exact Hsp). pose proof Hs as Hs0. rewrite Hcr in Hs0. apply is_str_tail in Hs0. rewrite length_app, length_take in Hs0.
    replace (a + Z.of_nat (length (take_white l) + length (fst w) `min` length (c :: r))) with e in Hs0 by (unfold e, b; lia). eapply is_str_ext; [exact Hs0|]. intros i Hi. rewrite Hm. apply patch_out. unfold token_bytes. rewrite Hd, Hsy, length_app, length_replicate. fold w. unfold e, b. lia. }
  split; [unfold w; cbn [word_of]; rewrite Hwh, Hsy; cbn [orb negb fst length]; lia|]. split; [|split; [done|lia]]. apply is_str_app; [unfold w; by apply word_bytes| |done].
  intros i d Hi. pose proof (lookup_lt_Some _ _ _ Hi). rewrite Hm. unfold token_bytes. rewrite Hd, Hsy. fold w. rewrite <-patch_app, length_replicate. fold b. rewrite patch_in by lia. replace (Z.to_nat (b + Z.of_nat i - b)) with i by lia. by apply list_lookup_total_correct.
Qed.
Lemma words_loop fuel ws : forall n s cmd t argv acc (Q : Z -> shst -> Prop),
  to_come fuel (smem s) cmd ws -> (length ws < n)%nat -> Forall2 (placed (smem s) cmd) argv acc -> (length argv + length ws <= 32)%nat ->
  (forall s' argv', calm s s' -> Forall2 (fun b w => is_str (smem s') b w /\ Z.of_nat (length w) < BUFSIZE) argv' (acc ++ ws) -> runs (runit answer argv') s' Q) ->
  runs (runcmd_loop answer p0 p1 n fuel cmd t argv) s Q.
Proof.
  induction ws as [|w ws IH]; intros n s cmd t argv acc Q Hc Hn Ha Hl HQ; (destruct n as [|n]; [lia|]); cbn [runcmd_loop]; runs_steps.
  - assert (Hend : runs (gettoken fuel cmd t) s (fun r s' => fst (fst r) = 0 /\ calm s s' /\ Forall2 (placed (smem s') None) argv acc)).
    { destruct cmd as [a|]; [|cbn [gettoken]; runs_steps; done]. destruct Hc as (l&n'&Hs&[Hlf Hlb]&Hln&Hlex). destruct n' as [|n']; [lia|]. cbn [lex] in Hlex. runs_by (gettoken_runs l fuel s a t Hs Hlf). intros r s' (->&Hcalm&Hm). unfold token_at. destruct (drop_white l) as [|c r]; [|by destruct (symbol c)].
      split; [done|]. split; [done|]. eapply Forall2_impl; [exact Ha|]. intros b w Hp. by eapply placed_step. }
    runs_by Hend. intros [[tok cmd'] t'] s' (Htok&Hcalm&Hp). cbn in Htok. subst tok. cbn [Z.eqb Pos.eqb]. apply HQ; [done|]. rewrite app_nil_r. eapply Forall2_impl; [exact Hp|]. intros b w Hbw. split; [by apply placed_is_str|apply Hbw].
  - destruct cmd as [a|]; [|done]. destruct Hc as (l&n'&Hs&[Hlf Hlb]&Hln&Hlex). destruct n' as [|n']; [lia|]. cbn [lex] in Hlex. runs_by (gettoken_runs l fuel s a t Hs Hlf). intros r s' (->&Hcalm&Hm). pose proof (white_split l) as Hsp. unfold token_at. destruct (drop_white l) as [|c r] eqn:Hd; [done|]. destruct (symbol c) eqn:Hsy; [cbn [fmap list_fmap] in Hlex; injection Hlex as Hc119 _ _; rewrite Hc119 in Hsy; by vm_compute in Hsy|]. cbn [fmap list_fmap] in Hlex.
    set (wr := word_of false (c :: r)) in *. assert (Hw : fst wr = w) by congruence. assert (Hlex' : lex n' (snd wr) = (fun w => (119, w)) <$> ws) by congruence. clear Hlex. rename Hlex' into Hlex.  set (b := a + Z.of_nat (length (take_white l))) in *. cbn [Z.eqb Pos.eqb]. rewrite (proj2 (Z.eqb_neq _ _)) by (pose proof (Forall2_length _ _ _ Ha); unfold EXEC_MAX_ARG_NUM; cbn [length] in Hl; lia).
    destruct (new_word l c r s s' a Hs Hd Hsy Hm) as (Hne&Hnew&Hrest&Hlr). fold wr in Hne, Hnew, Hrest, Hlr. fold b in Hnew, Hrest. rewrite Hw in Hne, Hnew, Hrest, Hlr |- *. destruct Hcalm as [Hcc Hcw].
    apply (IH n s' _ _ _ (acc ++ [w])); [| |apply Forall2_app; [|apply Forall2_cons; split; [|constructor]]| |].
    + unfold next. destruct (snd wr) as [|c' r'] eqn:Hr; [by destruct n', ws|]. exists (c' :: r'), n'. split; [done|]. split; [lia|]. split; [lia|done].
    + cbn [length] in Hn. lia.
    + eapply Forall2_impl; [exact Ha|]. intros b0 w0 Hp. eapply placed_step; [exact Hp|exact Hs|exact Hm|]. unfold next. destruct (snd wr); [done|]. fold b. lia.
    + pose proof Hnew as (Hf&Hbt&_). apply Forall_app in Hf as [Hf _]. split; [done|]. split; [lia|]. split; [intros i d Hi; apply Hbt; rewrite lookup_app_l by (by eapply lookup_lt_Some); done|].
      unfold next. destruct (snd wr) as [|c' r'] eqn:Hr; [by apply is_str_nil|]. right. split; [done|]. apply is_str_cons in Hrest as (_&->&_).
      pose proof (word_delim (c :: r) false c' r' Hr) as Hdel. apply orb_true_iff in Hdel as [Hdel|Hdel]; [done|]. destruct n' as [|n']; [lia|]. cbn [lex drop_white] in Hlex. rewrite (symbol_white _ Hdel), Hdel in Hlex. destruct ws as [|w' ws]; [done|]. cbn [fmap list_fmap] in Hlex. assert (Hc' : c' = 119) by congruence. rewrite Hc' in Hdel. by vm_compute in Hdel.
    + rewrite length_app. cbn [length] in *. lia.
    + intros s2 argv' [Hc2 Hw2] HF. apply HQ; [split; congruence|]. by rewrite <-app_assoc in HF.
Qed.

(** The calls a command of the words [ws] makes after the history [h]: [cd] only sets a variable; a program is
    tried under its name and, when there is no such file, in the root directory. *)
Definition exec_calls (h : list call) (ws : list (list Z)) : list call :=
  match ws with
  | [] => []
  | w :: rest =>
      if bool_decide (w = str_cd) then []
      else
        let ans := answer (h ++ [COpen w O_RDONLY]) in
        COpen w O_RDONLY ::
        (if ans <? 0 then if ans =? - E_NOENT then [CExec (take 4095 (47 :: w) :: rest)] else [] else [CClose ans; CExec ws])
  end.
Lemma string_at_all s argv ws : Forall2 (fun b w => is_str (smem s) b w /\ Z.of_nat (length w) < BUFSIZE) argv ws -> string_at (smem s) <$> argv = ws.
Proof. induction 1 as [|b w argv ws [Hs Hl] _ IH]; [done|]. cbn [fmap list_fmap]. by rewrite (string_at_str _ _ _ Hs Hl), IH. Qed.
Lemma runit_runs s argv ws : Forall2 (fun b w => is_str (smem s) b w /\ Z.of_nat (length w) < BUFSIZE) argv ws ->
  runs (runit answer argv) s (fun _ s' => calls s' = calls s ++ exec_calls (calls s) ws).
Proof.
  intros HF. pose proof (string_at_all _ _ _ HF) as Hall. destruct HF as [|b w argv ws [Hs Hl] HF]; unfold runit; [runs_steps; by rewrite app_nil_r|]. unfold text, exec_calls. runs_steps. rewrite (string_at_str _ _ _ Hs Hl). destruct (bool_decide_reflect (w = str_cd)) as [|Hcd].
  { rewrite app_nil_r. destruct argv as [|b1 [|b2 argv]]; runs_steps; done. }
  unfold testfile. runs_steps. apply sys_runs. set (ans := answer (calls s ++ [COpen w O_RDONLY])). destruct (Z.ltb_spec ans 0) as [Hneg|Hpos].
  - runs_steps. destruct (Z.eqb_spec ans (- E_NOENT)) as [He|He].
    + rewrite He. change (- E_NOENT =? 0) with false. cbn [negb andb]. runs_steps. apply sys_runs. cbn [smem calls]. rewrite Hall. cbn [tail]. by rewrite <-app_assoc.
    + rewrite (proj2 (Z.eqb_neq ans 0)) by lia. cbn [negb andb]. runs_steps. done.
  - runs_steps. apply sys_runs. runs_steps. cbn [Z.eqb negb andb]. runs_steps. apply sys_runs. cbn [smem calls]. rewrite Hall. by rewrite <-!app_assoc.
Qed.
Lemma runcmd_words_runs s cmd l ws : is_str (smem s) cmd l -> Z.of_nat (length l) < BUFSIZE -> lex (S (length l)) l = (fun w => (119, w)) <$> ws -> Z.of_nat (length ws) <= EXEC_MAX_ARG_NUM ->
  runs (runcmd answer p0 p1 cmd) s (fun _ s' => calls s' = calls s ++ exec_calls (calls s) ws).
Proof.
  intros Hs Hl Hlex Hn. unfold runcmd, BUFSIZE, EXEC_MAX_ARG_NUM in *. apply (words_loop (Z.to_nat 4096) ws _ _ _ _ _ []); [|lia|constructor|cbn [length]; lia|].
  - exists l, (S (length l)). split; [done|]. split; [unfold BUFSIZE; lia|]. split; [lia|done].
  - intros s' argv' [Hc Hw] HF. runs_by runit_runs; [exact HF|]. intros _ s2 H2. by rewrite H2, Hc.
Qed.

(** C17: A command line of words: the shell executes exactly the program that the first word names, with the words as
    arguments (quoted blanks are part of a word, and its quotes have become blanks); it tries the name itself and then
    the root directory, and makes no other calls; an empty line makes none, and [cd] makes none either, so it has no
    effect outside the child that runs it. *)
Theorem runcmd_words_correct s cmd l ws : is_str (smem s) cmd l -> Z.of_nat (length l) < BUFSIZE -> lex (S (length l)) l = (fun w => (119, w)) <$> ws -> Z.of_nat (length ws) <= EXEC_MAX_ARG_NUM ->
  runs (runcmd answer p0 p1 cmd) s (fun _ s' => calls s' = calls s ++ exec_calls (calls s) ws).
Proof. apply runcmd_words_runs. Qed.

(** C34: A redirection opens the file whose name is the rest of the whole line from the word on, not the word: what is
    behind the word is cut off only when the next token is looked for, after the file was opened. *)
Theorem redirect_opens_rest fuel s a t l c r token fd flags : is_str (smem s) a l -> (length l <= fuel)%nat -> Z.of_nat (length l) < BUFSIZE -> drop_white l = c :: r -> symbol c = false ->
  runs (redirect answer fuel (Some a) t token fd flags) s (fun _ s' => exists more,
    calls s' = calls s ++ [CClose fd; COpen (fst (word_of false (c :: r)) ++ snd (word_of false (c :: r))) flags] ++ more).
Proof.
  intros Hs Hf Hl Hd Hsy. unfold redirect. runs_steps. runs_by (gettoken_runs l fuel s a t Hs Hf). intros x s' (->&[Hc Hw]&Hm). destruct (new_word l c r s s' a Hs Hd Hsy Hm) as (_&Hnew&_&Hlr). unfold token_at. rewrite Hd, Hsy. cbn [Z.eqb Pos.eqb negb].
  unfold text. runs_steps. rewrite (string_at_str _ _ _ Hnew) by (rewrite length_app; lia). unfold reopen. runs_steps. apply sys_runs. runs_steps. apply sys_runs. cbn [calls]. rewrite Hc, <-app_assoc.
  set (name := fst _ ++ snd _). destruct (_ && _); runs_steps.
  - apply sys_runs. runs_steps. apply sys_runs. runs_steps. apply sys_runs. runs_steps. cbn [calls]. eexists. by rewrite <-!app_assoc.
  - exists []. by rewrite app_nil_r.
Qed.
End Commands.

(** ** Input *)

(** [readline] stays inside its buffer, and a line it returns is a string that fits. *)
Lemma read_line_in_buffer answer datum buffer : (forall h, 0 <= datum h < 256) -> forall fuel i s, 0 <= i < BUFSIZE -> (forall j, 0 <= j < i -> 32 <= smem s (buffer + j) < 128) ->
  match read_line answer datum buffer fuel i s with
  | Ok (r, s') => (forall x, ~ buffer <= x < buffer + BUFSIZE -> smem s' x = smem s x) /\ (r = None \/ r = Some buffer /\ exists l, is_str (smem s') buffer l /\ Z.of_nat (length l) < BUFSIZE)
  | NoFuel => True
  | _ => False
  end.
Proof.
  intros Hdat. induction fuel as [|fuel IH]; intros i s Hi Hb; [done|]. cbn [read_line]. unfold bind at 1, sys. unfold bind, get, put, ret at 1 2. set (h := calls s ++ [CRead]).
  assert (Hend : forall s1, (forall x, smem s1 x = smem s x) -> (forall x, ~ buffer <= x < buffer + BUFSIZE -> upd_byte (buffer + i) 0 (smem s1) x = smem s x) /\ exists l, is_str (upd_byte (buffer + i) 0 (smem s1)) buffer l /\ Z.of_nat (length l) < BUFSIZE).
  { intros s1 H1. split; [intros x Hx; rewrite upd_byte_ne by lia; apply H1|]. exists (peek (smem s) buffer i). rewrite peek_length. split; [|lia]. split; [|split].
    - apply Forall_lookup. intros j c Hj. pose proof (lookup_lt_Some _ _ _ Hj) as Hlt. rewrite peek_length in Hlt. rewrite <-(Nat2Z.id j), peek_lookup in Hj by lia. injection Hj as <-. pose proof (Hb (Z.of_nat j)). lia.
    - intros j c Hj. pose proof (lookup_lt_Some _ _ _ Hj) as Hlt. rewrite peek_length in Hlt. rewrite <-(Nat2Z.id j), peek_lookup in Hj by lia. injection Hj as <-. rewrite upd_byte_ne by lia. apply H1.
    - rewrite peek_length, Z2Nat.id by lia. apply upd_byte_at. }
  destruct (answer h <? 0); [by split; [|left]|]. destruct (answer h =? 0).
  { destruct (0 <? i); [|by split; [|left]]. destruct (Hend (mkSh (smem s) h (shcwd s))) as [H1 H2]; [done|]. split; [exact H1|right]. by split. }
  set (b := datum h). assert (Hbd : 0 <= b < 256) by apply Hdat. assert (Hsc : 32 <= schar b -> 32 <= b < 128) by (unfold schar; destruct (Z.ltb_spec b 128); lia).
  assert (Hrec : forall i' s', (forall x, ~ buffer <= x < buffer + BUFSIZE -> smem s' x = smem s x) -> 0 <= i' < BUFSIZE -> (forall j, 0 <= j < i' -> 32 <= smem s' (buffer + j) < 128) ->
    match read_line answer datum buffer fuel i' s' with
    | Ok (r, s') => (forall x, ~ buffer <= x < buffer + BUFSIZE -> smem s' x = smem s x) /\ (r = None \/ r = Some buffer /\ exists l, is_str (smem s') buffer l /\ Z.of_nat (length l) < BUFSIZE)
    | NoFuel => True | _ => False end).
  { intros i' s' Hs' Hi' Hb'. specialize (IH i' s' Hi' Hb'). destruct (read_line _ _ _ _ _ _) as [[r s2]| | |]; try done. destruct IH as [H1 H2]. split; [|done]. intros x Hx. rewrite H1 by done. by apply Hs'. }
  unfold stored, print, wr, sys, bind, get, put, ret, modify. cbn [smem calls shcwd]. fold b. destruct (schar b =? 3); [by split; [|left]|]. destruct ((32 <=? schar b) && (i <? BUFSIZE - 1)) eqn:E1.
  { apply andb_true_iff in E1 as [E1%Z.leb_le E2%Z.ltb_lt]. apply Hrec; cbn [smem]; [intros x Hx; apply upd_byte_ne; lia|lia|]. intros j Hj. destruct (decide (j = i)) as [->|]; [rewrite upd_byte_at; by apply Hsc|rewrite upd_byte_ne by lia; apply Hb; lia]. }
  destruct ((schar b =? 8) && (0 <? i)) eqn:E2; [apply andb_true_iff in E2 as [_ E2%Z.ltb_lt]; apply Hrec; cbn [smem]; [done|lia|intros j Hj; apply Hb; lia]|].
  destruct (_ || _); [|by apply Hrec]. destruct (Hend (mkSh (smem s) (h ++ [CPrint "%c" [AInt (schar b)]]) (shcwd s))) as [H1 H2]; [done|]. split; [exact H1|right]. by split.
Qed.

(** ** Examples *)

Lemma is_str_patch a l m : Forall (fun c => 0 < c < 256) l -> m (a + Z.of_nat (length l)) = 0 -> is_str (patch a l m) a l.
Proof.
  intros Hf Hm. split; [done|]. split; [|by rewrite patch_out by lia]. intros i c Hi. pose proof (lookup_lt_Some _ _ _ Hi). rewrite patch_in by lia. replace (Z.to_nat (a + Z.of_nat i - a)) with i by lia. by apply list_lookup_total_correct.
Qed.
(** echo "a b" c *)
Definition ex_line : list Z := [101; 99; 104; 111; 32; 34; 97; 32; 98; 34; 32; 99].
Definition ex_words : list (list Z) := [[101; 99; 104; 111]; [32; 97; 32; 98; 32]; [99]].
(** a > b *)
Definition ex_redirect : list Z := [32; 97; 32; 62; 32; 98].
Definition ex_shell (l : list Z) : shst := mkSh (patch 0x1000 l (fun _ => 0)) [] [].
Definition ex_answer (h : list call) : Z := match last h with Some (COpen _ _) => - E_NOENT | _ => 0 end.

Lemma runcmd_words_correct_witness :
  lex (S (length ex_line)) ex_line = (fun w => (119, w)) <$> ex_words /\
  runs (runcmd ex_answer 0 0 0x1000) (ex_shell ex_line) (fun _ s' =>
    calls s' = [COpen [101; 99; 104; 111] O_RDONLY; CExec [[47; 101; 99; 104; 111]; [32; 97; 32; 98; 32]; [99]]]).
Proof.
  split; [reflexivity|]. apply (runcmd_words_correct ex_answer 0 0 (ex_shell ex_line) 0x1000 ex_line ex_words); [|reflexivity|reflexivity|by vm_compute].
  apply is_str_patch; [|reflexivity]. repeat constructor.
Defined.

Lemma redirect_opens_rest_witness :
  runs (redirect ex_answer 10 (Some 0x1000) 0 60 0 O_RDONLY) (ex_shell ex_redirect) (fun _ s' => exists more, calls s' = [CClose 0; COpen [97; 32; 62; 32; 98] O_RDONLY] ++ more).
Proof.
  apply (redirect_opens_rest ex_answer 10 (ex_shell ex_redirect) 0x1000 0 ex_redirect 97 [32; 62; 32; 98] 60 0 O_RDONLY); [|cbn; lia|reflexivity|reflexivity|reflexivity].
  apply is_str_patch; [|reflexivity]. repeat constructor.
Defined.
